(* ===== verification/_CoqProject ===== *)
-Q . S2P
Prelude.v
Logic.v
LogicFacts.v
Scene.v
Procfs.v
State.v
Toplevel.v
ToplevelFacts.v
Dependents.v
Focus.v
Placement.v
Lock.v
Config.v
Clipboard.v
Activation.v
Workspace.v
WorkspaceFacts.v
Session.v
LockFacts.v
LockTheorems.v
SessionFacts.v
ClipboardFacts.v
ShellFacts.v
OutputMgmt.v
OutputMgmtFacts.v
Environ.v
Secctx.v
SecctxFacts.v
Idle.v
IdleFacts.v
IdleTheorems.v
Desk.v
Pointer.v
LayerShell.v
OutputBoundary.v
PointerFacts.v
LayerShellFacts.v
OutputBoundaryFacts.v
Overlays.v
OverlaysFacts.v
Primary.v
PrimaryFacts.v
PrimaryTheorems.v
Selection.v
SelectionFacts.v
TextInput.v
TextInputFacts.v
TextInputTheorems.v
Streams.v
StreamsFacts.v
StreamsTheorems.v
InputSink.v
InputSinkFacts.v
InputSinkTheorems.v
Nested.v
NestedFacts.v
NestedInvariant.v
NestedIdentity.v
NestedTheorems.v
Cursor.v
CursorFacts.v
CursorTheorems.v
