(* ===== verification/Prelude.v ===== *)
(** * qdwin verification library

    ** The program

    [qdwin] is a libweston shell plugin: [wet_shell_init] in [qdwin/qdwin.c]
    registers a desktop-shell implementation, a private control protocol for
    one privileged client ("the shell", which draws decorations, panels and
    dialogs in another process), a second one for the screen locker, and a
    dozen public Wayland protocols.  Its pure decision functions live in
    [qdwin/qdwin-logic.c].  The plugin runs in libweston's single-threaded
    event loop: every request, libweston callback and timer is one handler that
    runs to completion on [struct qdwin].  The development models a handler as
    a function on the state record; runs of the compositor are sequences of
    such steps in any order.

    ** Files, and the code they model

    - [Prelude]: record update, 32-bit arithmetic (checked where C overflow is
      undefined, wrapping where it is defined), list and option lemmas.
    - [Logic], [LogicFacts]: [qdwin-logic.c], one definition per function.
    - [Scene]: libweston's layer list and view lists ([compositor.c]).
    - [Procfs], [Environ]: the [/proc] readers behind the bind gates (start
      time, executable, label, argv, environment, status).
    - [State]: [struct qdwin] and the structures that hang off it.
    - [Toplevel], [ToplevelFacts]: maximise, fullscreen, tile, minimise,
      set-position, chrome, work areas and panels.
    - [Dependents], [Focus], [Placement]: popups, view streams and the move
      grab of a window; keyboard focus and its recovery; new-window placement
      and snapping.
    - [Lock], [LockFacts], [LockTheorems]: the session lock, its curtain and
      keyboard grabs, the shell's and the locker's lock requests, the locker's
      role and its gate, with libweston's key dispatch ([input.c],
      [bindings.c]).
    - [Config]: what the shell configures (policy, power, pointers, key repeat,
      hotkeys, remote input).
    - [Clipboard], [ClipboardFacts]: the gate on pasting.
    - [Activation]: xdg-activation and its broker.
    - [Workspace], [WorkspaceFacts]: virtual desktops and ext-workspace-v1.
    - [Session], [SessionFacts], [ShellFacts]: the desktop callbacks, the life
      cycle of windows and of the shell role.
    - [OutputMgmt], [OutputMgmtFacts]: wlr-output-management.
    - [Secctx], [SecctxFacts]: wp-security-context and the global filter.
    - [Idle], [IdleFacts], [IdleTheorems]: idle inhibition and notification.
    - [Desk], [Pointer], [PointerFacts]: surfaces, pointers and pointer input: the
      hit tests, click-to-focus, the default grab, the grabs of popups and view
      streams, libweston's picking and delivery.
    - [LayerShell], [LayerShellFacts]: wlr-layer-shell with its popups.
    - [OutputBoundary], [OutputBoundaryFacts]: what the loss of an output does to
      the desk, step by step.
    - [Overlays], [OverlaysFacts]: notifications, the shell's background, and the
      whole transition at the loss of an output.
    - [Primary], [PrimaryFacts], [PrimaryTheorems]: the primary selection, and the
      abstract machine it refines.
    - [Selection], [SelectionFacts]: the clipboard selection of a seat with
      libweston's clipboard manager, what the shell is told, clear_selection and
      the focus requests.
    - [TextInput], [TextInputFacts], [TextInputTheorems]: text inputs, input
      methods with their keyboard grab, virtual keyboards, and the gate on the
      latter two.
    - [Streams], [StreamsFacts], [StreamsTheorems]: exported views, the forwarder
      process and its pidfd, the input channel.
    - [InputSink], [InputSinkFacts], [InputSinkTheorems]: the input channel to a
      nested compositor: packets, reassembly, callbacks, socket paths.
    - [Nested], [NestedFacts], [NestedInvariant], [NestedIdentity],
      [NestedTheorems]: the proxy windows of nested compositors: advertising, the
      curtain, the decision, the pixel feed, the identities; the invariants of
      the first and the second kind have a file each.
    - [Cursor], [CursorFacts], [CursorTheorems]: cursor shapes and sprites, with
      libweston's handling of a pointer's sprite.

    ** How state and effects are represented

    A C pointer to a toplevel is its handle, to a view its number, to a
    resource a small record; allocation failure is a flag of the state the
    handler consults where the code tests the result of an allocation.  Wire
    events, protocol errors, logged calls into libweston and closed
    descriptors are appended to an event list, newest first, so that theorems
    can speak about what clients observe and in which order.  A handler that
    can reach undefined behaviour or a failing assertion returns [option], with
    [None] for that case.  Machine integers are [Z] with explicit width.

    ** What the theorems show

    - Lock: a locked session composites the lock layers only (over all
      reachable states), is unlocked by the two unlock requests only, is
      covered by an opaque curtain if one can be allocated, keeps keys from
      clients (and modifiers, but for those a new keymap brings), and is
      restored by the unlock; the locker role is only given to the attested
      binary and cannot be stolen from a live locker.
    - Clipboard: a descriptor reaches a source only after the shell approved
      that very receive, or as the clipboard manager's own copy of a new source,
      and every descriptor is owned exactly once.
    - Windows: round trips of maximise, fullscreen and tile, reachability after
      set-position, optimality of smart placement, bounded snapping, a bounded
      XWayland correction loop, release of everything a removed window owns.
    - Workspaces: the index invariant over all request sequences and the exact
      set of visible windows after a switch.
    - Shell: exclusivity of the role, and the complete reset when it is lost.
    - Security contexts: frozen identity, confinement of tagged clients, the
      gate on the manager, exact accounting of descriptors, exactness of the
      streaming environment scan.
    - Outputs: a configuration is applied as a whole or not at all, when the
      backend accepts the calls that undo what it did.
    - Idle: exact counting, neither early nor late notification, stale holds
      dropped within a second, the session idles (all over timed runs).
    - Logic: containment, overflow-freedom and equivalence of each kernel with
      its specification.
    - Pointer: containment while locked, under a layer popup's grab and in a view
      stream; a click focuses the topmost window.
    - Layer shell: the invariant over all runs, cancelled grabs and seats that go
      included, the double-buffered commit cycle, the gate.
    - Loss of an output: in every run nothing modelled refers to it afterwards,
      windows lie inside the surviving work area.
    - Primary selection: refinement of an abstract machine on every run, every
      device last told about the owner, reads within one silo.
    - Clipboard selection: gated in every run, unreadable after a focus change
      across silos; the packed list of types splits back.
    - Text input: the invariant over all runs, composed text confined to the
      focused field, one reader per key under an input method's grab, the grab's
      memory, the gate.
    - View streams: descriptors, processes and outputs accounted in every run,
      everything back when a stream ends, one claim per token by the forwarder
      alone, input only for an unlocked live stream that allows it, tokens that
      decode to the kernel's bytes.
    - Nested input: events arrive in order and unchanged however the kernel splits
      the stream, up to the first write that was cut short, all of them after
      finitely many callbacks if none was; descriptors, watches and socket files
      accounted; a socket that was opened is found.
    - Nested windows: no input before approval, users and sinks bound to the
      kernel's credentials, the decision on every branch, remote identities set
      once; all over runs that interleave the protocol with pointer input.
    - Cursors: the sprite of the pointer sound in every run, registered sprites
      transparent to input, the effect of a shape, the theme table, no read past
      a sprite's buffer.

    Where the code does not do what it means to, the theorem states what it
    does on the concrete scenario.

    ** Bounds, fuel and parameters

    Loops over lists are structural.  The scan loops over a file take as fuel
    the list of pieces the kernel returns, so every run ends with the file.
    The recheck of a locker's liveness, the /proc snapshots and the peer
    credentials are parameters: functions from a pid to what the kernel
    answers.  The backend of an output ([OutputMgmt]) is a class whose
    callbacks may answer anything, differently at every call.  The event
    loop's lateness is the parameter [L] of [IdleFacts]: a timer runs at most
    [L] milliseconds after its deadline.  View coordinates are integral, as
    every coordinate the modelled code computes is an [int] cast to [double].

    ** Not modelled

    Rendering, repaint and the DRM, Wayland, X11, RDP and PipeWire backends of
    the vendored libweston (third-party code the plugin only calls); xkb
    keymaps; the pixel paths of view streams, captures and nested compositors;
    the wire marshalling of libwayland; touch and tablets; the enter, leave and
    modifiers that a change of the pointer's focus sends; test clients and test
    hooks ([QDWIN_TEST_PLACE]).  Planned next: the inner side of nested compositing. *)

From stdpp Require Import base list gmap strings option.
From Stdlib Require Export ZArith Lia Bool.

#[global] Open Scope Z_scope.

(** ** Record update

    [r <| f := v |>] is the record [r] with field [f] replaced by [v];
    [r <| f ::= g |>] applies [g] to the field.  A record takes part by
    declaring an [Eta] instance, the constructor applied to its projections;
    the updater of every field is then derived by [solve_upd]. *)

Class Eta (R : Type) := eta : R -> R.
Class Upd {R T : Type} (f : R -> T) := upd_field : (T -> T) -> R -> R.
#[global] Arguments upd_field {R T} f {Upd} g r.

Ltac solve_upd :=
  match goal with
  | |- @Upd ?R ?T ?f =>
      let g := fresh "g" in
      let r := fresh "r" in
      unfold Upd; intros g r;
      let e := eval hnf in (@eta R _ r) in
      let p := eval pattern (f r) in e in
      match p with
      | ?F _ => let t := eval cbv beta in (F (g (f r))) in exact t
      end
  end.

#[export] Hint Extern 0 (Upd _) => solve_upd : typeclass_instances.

Declare Scope record_scope.
#[global] Open Scope record_scope.

Notation "r <| f := v |>" := (upd_field f (fun _ => v) r)
  (at level 1, left associativity, f at level 9, v at level 200,
   format "r  <|  f  :=  v  |>") : record_scope.
Notation "r <| f ::= g |>" := (upd_field f g r)
  (at level 1, left associativity, f at level 9, g at level 200,
   format "r  <|  f  ::=  g  |>") : record_scope.

(** Statement sequencing for state-passing code: [q ~> f] is [f q]. *)
Notation "q ~> f" := (f q)
  (at level 88, left associativity, only parsing) : record_scope.

(** ** Machine integers

    C integers are [Z]; the width is written out where the code depends on
    it.  Signed arithmetic that may overflow is undefined behaviour in C and
    is modelled by the checked operations below, [None] on overflow. *)

Definition INT32_MIN : Z := -2147483648.
Definition INT32_MAX : Z := 2147483647.
Definition UINT32_MAX : Z := 4294967295.
Definition INT64_MIN : Z := -9223372036854775808.
Definition INT64_MAX : Z := 9223372036854775807.

Definition in_i32 (x : Z) : Prop := INT32_MIN <= x <= INT32_MAX.
Definition in_i64 (x : Z) : Prop := INT64_MIN <= x <= INT64_MAX.
Definition in_u32 (x : Z) : Prop := 0 <= x <= UINT32_MAX.
Definition i32b (x : Z) : bool := (INT32_MIN <=? x) && (x <=? INT32_MAX).

(** Conversion to an unsigned 32-bit integer, wrapping around. *)
Definition u32 (x : Z) : Z := x mod 4294967296.

(** [uint32_t] pre-increment. *)
Definition u32_succ (x : Z) : Z := u32 (x + 1).

Definition chk32 (x : Z) : option Z := if i32b x then Some x else None.
Definition add32 (x y : Z) : option Z := chk32 (x + y).
Definition sub32 (x y : Z) : option Z := chk32 (x - y).

(** C division truncates toward zero. *)
Definition cdiv (x y : Z) : Z := Z.quot x y.

Notation "'let!' x ':=' c1 'in' c2" :=
  (match c1 with Some x => c2 | None => None end)
  (at level 10, x name, c1 at level 100, c2 at level 200) : record_scope.

(** [C]'s [a & b] used as a condition. *)
Definition has_bits (x m : Z) : bool := negb (Z.land x m =? 0).

(** ** Tactics *)

(** Case analysis on the innermost [match] or [if] of the goal. *)
Ltac split_match :=
  match goal with
  | |- context [match ?x with _ => _ end] =>
      lazymatch x with
      | context [match _ with _ => _ end] => fail
      | _ => let E := fresh "E" in destruct x eqn:E
      end
  end.

Ltac split_match_in H :=
  match type of H with
  | context [match ?x with _ => _ end] =>
      lazymatch x with
      | context [match _ with _ => _ end] => fail
      | _ => let E := fresh "E" in destruct x eqn:E
      end
  end.

(** Turn boolean comparisons in the hypotheses into arithmetic. *)
Ltac zbool :=
  repeat match goal with
  | H : _ && _ = true |- _ => apply andb_prop in H as [? ?]
  | H : _ && _ = false |- _ => apply andb_false_iff in H
  | H : _ || _ = true |- _ => apply orb_prop in H
  | H : _ || _ = false |- _ => apply orb_false_elim in H as [? ?]
  | H : negb _ = true |- _ => apply negb_true_iff in H
  | H : negb _ = false |- _ => apply negb_false_iff in H
  | H : (_ =? _) = true |- _ => apply Z.eqb_eq in H
  | H : (_ =? _) = false |- _ => apply Z.eqb_neq in H
  | H : (_ <? _) = true |- _ => apply Z.ltb_lt in H
  | H : (_ <? _) = false |- _ => apply Z.ltb_ge in H
  | H : (_ <=? _) = true |- _ => apply Z.leb_le in H
  | H : (_ <=? _) = false |- _ => apply Z.leb_gt in H
  | H : (_ >? _) = true |- _ => rewrite Z.gtb_ltb in H; apply Z.ltb_lt in H
  | H : (_ >? _) = false |- _ => rewrite Z.gtb_ltb in H; apply Z.ltb_ge in H
  end.

Ltac ranges := unfold in_i32, in_i64, in_u32, INT32_MIN, INT32_MAX, UINT32_MAX,
  INT64_MIN, INT64_MAX in *.

Ltac zcrush := repeat (split_match; zbool); ranges; try lia.

(** ** Shared lemmas *)

Create HintDb qdwin.

Lemma chk32_Some (x : Z) : in_i32 x -> chk32 x = Some x.
Proof.
  intros H. unfold chk32, i32b. ranges.
  destruct (Z.leb_spec (-2147483648) x), (Z.leb_spec x 2147483647);
    simpl; (reflexivity || lia).
Qed.

Lemma chk32_None (x : Z) : ~ in_i32 x -> chk32 x = None.
Proof.
  intros H. unfold chk32, i32b. ranges.
  destruct (Z.leb_spec (-2147483648) x), (Z.leb_spec x 2147483647);
    simpl; (reflexivity || lia).
Qed.

Lemma chk32_inv (x y : Z) : chk32 x = Some y -> y = x /\ in_i32 x.
Proof.
  unfold chk32, i32b. ranges.
  destruct (Z.leb_spec (-2147483648) x), (Z.leb_spec x 2147483647);
    simpl; intros [= <-]; split; (reflexivity || lia).
Qed.

Lemma u32_range (x : Z) : in_u32 (u32 x).
Proof. unfold u32. ranges. pose proof (Z.mod_pos_bound x 4294967296). lia. Qed.

Lemma u32_small (x : Z) : in_u32 x -> u32 x = x.
Proof. unfold u32. ranges. intros. apply Z.mod_small. lia. Qed.

#[export] Hint Resolve chk32_Some u32_range u32_small : qdwin.

Lemma Forall2_in_l {A B} (P : A -> B -> Prop) l k x :
  Forall2 P l k -> x ∈ l -> exists y, y ∈ k /\ P x y.
Proof.
  induction 1 as [|a b l k Hab _ IH]; intros Hx; [by apply elem_of_nil in Hx|].
  apply elem_of_cons in Hx as [->|Hx].
  - exists b. split; [by left|done].
  - destruct (IH Hx) as (y & Hy & HP). exists y. split; [by right|done].
Qed.
Lemma Forall2_in_r {A B} (P : A -> B -> Prop) l k y :
  Forall2 P l k -> y ∈ k -> exists x, x ∈ l /\ P x y.
Proof.
  induction 1 as [|a b l k Hab _ IH]; intros Hy; [by apply elem_of_nil in Hy|].
  apply elem_of_cons in Hy as [->|Hy].
  - exists a. split; [by left|done].
  - destruct (IH Hy) as (x & Hx & HP). exists x. split; [by right|done].
Qed.

(** Elements with the same key are equal where keys are unique. *)
Lemma nodup_map_inj {A B} (f : A -> B) (l : list A) x y :
  NoDup (map f l) -> x ∈ l -> y ∈ l -> f x = f y -> x = y.
Proof.
  induction l as [|a l IH]; [by intros _ ?%elem_of_nil|]. cbn.
  intros Hl. inversion Hl as [|b k Ha Hn]; subst.
  assert (H : forall z, z ∈ l -> f z ≠ f a).
  { intros z Hz E. apply Ha. rewrite <- E. apply list_elem_of_fmap. by exists z. }
  rewrite !elem_of_cons. intros [->|Hx] [->|Hy] E; try done.
  - by destruct (H y Hy).
  - by destruct (H x Hx).
  - by apply IH.
Qed.

(** ** Lists searched by a key *)

From stdpp Require Import list.
#[local] Open Scope Z_scope.

Section keyed.
Context {A : Type} (key : A -> Z).

Lemma find_map_key (f : A -> A) a l :
  (forall x, key (f x) = key x) ->
  List.find (fun x => key x =? a) (map f l)
  = option_map f (List.find (fun x => key x =? a) l).
Proof. intros K. induction l as [|y l IH]; [done|]. simpl. rewrite K. by destruct (key y =? a). Qed.

Lemma find_upd_key (f : A -> A) a b l :
  (forall x, key (f x) = key x) ->
  List.find (fun x => key x =? a) (map (fun x => if key x =? b then f x else x) l)
  = if a =? b then option_map f (List.find (fun x => key x =? a) l)
    else List.find (fun x => key x =? a) l.
Proof.
  intros K. rewrite find_map_key by (intros x; by destruct (key x =? b)).
  destruct (List.find (fun x => key x =? a) l) as [y|] eqn:E; simpl; [|by destruct (a =? b)].
  apply List.find_some in E as [_ E%Z.eqb_eq]. rewrite E. by destruct (a =? b).
Qed.

Lemma find_remove_key a b l :
  List.find (fun x => key x =? a) (List.filter (fun x => negb (key x =? b)) l)
  = if a =? b then None else List.find (fun x => key x =? a) l.
Proof.
  induction l as [|y l IH]; simpl; [by destruct (a =? b)|].
  destruct (Z.eqb_spec (key y) b) as [->|]; simpl; rewrite ?IH.
  - rewrite (Z.eqb_sym b a). by destruct (a =? b).
  - destruct (Z.eqb_spec (key y) a) as [<-|]; [|done]. by destruct (Z.eqb_spec (key y) b).
Qed.

Lemma find_key a l x : List.find (fun x => key x =? a) l = Some x -> key x = a /\ x ∈ l.
Proof.
  intros [I K]%List.find_some. split; [by apply Z.eqb_eq|]. by apply list_elem_of_In.
Qed.

Lemma find_unique a l x : NoDup (map key l) -> x ∈ l -> key x = a ->
  List.find (fun x => key x =? a) l = Some x.
Proof.
  intros N I <-. induction l as [|y l IH]; [by apply not_elem_of_nil in I|].
  simpl in N. apply NoDup_cons in N as [N1 N2]. simpl.
  apply elem_of_cons in I as [->|I]; [by rewrite Z.eqb_refl|].
  destruct (Z.eqb_spec (key y) (key x)) as [E|]; [|eauto].
  destruct N1. rewrite E. apply list_elem_of_In, in_map. by apply list_elem_of_In.
Qed.

Lemma find_fresh a l : List.find (fun x => key x =? a) l = None -> a ∉ map key l.
Proof.
  intros H I. apply list_elem_of_In, in_map_iff in I as (x & <- & I).
  eapply List.find_none in H; [|exact I]. simpl in H. by rewrite Z.eqb_refl in H.
Qed.

Lemma map_key_upd (f : A -> A) l : (forall x, key (f x) = key x) -> map key (map f l) = map key l.
Proof. intros K. rewrite List.map_map. apply List.map_ext. done. Qed.

Lemma nodup_filter_key c l : NoDup (map key l) -> NoDup (map key (List.filter c l)).
Proof.
  induction l as [|y l IH]; [done|]. simpl. intros [N1 N2]%NoDup_cons.
  destruct (c y); simpl; [|eauto]. apply NoDup_cons. split; [|eauto].
  intros I. apply N1. apply list_elem_of_In, in_map_iff in I as (z & <- & I).
  apply list_elem_of_In, in_map. by apply List.filter_In in I as [I _].
Qed.
End keyed.

Lemma key_unique {A} (key : A -> Z) (l : list A) x y :
  NoDup (map key l) -> x ∈ l -> y ∈ l -> key x = key y -> x = y.
Proof.
  intros N Hx Hy E. pose proof (find_unique key _ _ x N Hx E). pose proof (find_unique key _ _ y N Hy eq_refl).
  congruence.
Qed.

Lemma find_map_pred {A} (P : A -> bool) (f : A -> A) l :
  (forall x, P (f x) = P x) -> List.find P (map f l) = option_map f (List.find P l).
Proof. intros K. induction l as [|y l IH]; [done|]. simpl. rewrite K. by destruct (P y). Qed.

Lemma string_app_assoc (a b c : string) : ((a +:+ b) +:+ c = a +:+ (b +:+ c))%string.
Proof. induction a as [|x a IH]; [done|]. exact (f_equal (String x) IH). Qed.
Lemma string_app_nil (a : string) : (a +:+ "" = a)%string.
Proof. induction a as [|x a IH]; [done|]. exact (f_equal (String x) IH). Qed.
Lemma length_string_app (a b : string) : String.length (a +:+ b) = (String.length a + String.length b)%nat.
Proof. induction a as [|x a IH]; [done|]. exact (f_equal S IH). Qed.
