(* ===== verification/Logic.v ===== *)
(** * Logic: the pure decision kernels of [qdwin/qdwin-logic.c]

    One definition per function of the translation unit.  [uint32_t] and enum
    values are [Z]; a [const char *] that may be NULL is an [option string];
    out-pointers become components of the result.  Signed 32-bit arithmetic
    whose overflow is undefined in C uses the checked operations of the
    prelude. *)

From stdpp Require Import base list strings option.
From S2P Require Import Prelude.

(** ** Input-config enum mappers *)

Module InputConfig.

Definition QDWIN_LOGIC_ACCEL_FLAT : Z := 1.
Definition QDWIN_LOGIC_SCROLL_NONE : Z := 0.
Definition QDWIN_LOGIC_SCROLL_TWO_FINGER : Z := 1.
Definition QDWIN_LOGIC_SCROLL_EDGE : Z := 2.
Definition QDWIN_LOGIC_SCROLL_ON_BUTTON_DOWN : Z := 3.

Inductive libinput_config_accel_profile :=
| LIBINPUT_CONFIG_ACCEL_PROFILE_FLAT
| LIBINPUT_CONFIG_ACCEL_PROFILE_ADAPTIVE.
#[global] Instance accel_profile_eq_dec : EqDecision libinput_config_accel_profile.
Proof. solve_decision. Defined.

Inductive libinput_config_scroll_method :=
| LIBINPUT_CONFIG_SCROLL_NO_SCROLL
| LIBINPUT_CONFIG_SCROLL_2FG
| LIBINPUT_CONFIG_SCROLL_EDGE
| LIBINPUT_CONFIG_SCROLL_ON_BUTTON_DOWN.
#[global] Instance scroll_method_eq_dec : EqDecision libinput_config_scroll_method.
Proof. solve_decision. Defined.

Definition qdwin_accel_profile_to_libinput (p : Z) : libinput_config_accel_profile :=
  if p =? QDWIN_LOGIC_ACCEL_FLAT
  then LIBINPUT_CONFIG_ACCEL_PROFILE_FLAT
  else LIBINPUT_CONFIG_ACCEL_PROFILE_ADAPTIVE.

Definition qdwin_scroll_method_to_libinput (m : Z) : libinput_config_scroll_method :=
  if m =? QDWIN_LOGIC_SCROLL_NONE then LIBINPUT_CONFIG_SCROLL_NO_SCROLL
  else if m =? QDWIN_LOGIC_SCROLL_EDGE then LIBINPUT_CONFIG_SCROLL_EDGE
  else if m =? QDWIN_LOGIC_SCROLL_ON_BUTTON_DOWN
       then LIBINPUT_CONFIG_SCROLL_ON_BUTTON_DOWN
  else LIBINPUT_CONFIG_SCROLL_2FG.

End InputConfig.

(** ** zwlr_layer_shell anchor and box geometry *)

Module LayerBox.

Definition ANCHOR_TOP : Z := 1.
Definition ANCHOR_BOTTOM : Z := 2.
Definition ANCHOR_LEFT : Z := 4.
Definition ANCHOR_RIGHT : Z := 8.

Definition qdwin_layer_exclusive_edge (anchor : Z) (edge_set : bool) (edge_val : Z) : Z :=
  if edge_set then edge_val
  else
    let T := ANCHOR_TOP in let B := ANCHOR_BOTTOM in
    let L := ANCHOR_LEFT in let R := ANCHOR_RIGHT in
    if anchor =? T then T
    else if anchor =? B then B
    else if anchor =? L then L
    else if anchor =? R then R
    else if anchor =? Z.lor (Z.lor T L) R then T
    else if anchor =? Z.lor (Z.lor B L) R then B
    else if anchor =? Z.lor (Z.lor L T) B then L
    else if anchor =? Z.lor (Z.lor R T) B then R
    else 0.

(** The placement along one axis: [lead] and [trail] are the anchor bits of
    the axis' two edges, [m_lead] and [m_trail] the margins, [b] and [blen]
    the bounding interval, [len] the desired extent.  The result is the
    position and the unclamped extent, [None] where the C code overflows. *)
Definition axis_place (anchor lead trail len m_lead m_trail b blen : Z)
  : option (Z * Z) :=
  if len =? 0 then
    let! x := add32 b m_lead in
    let! m := add32 m_lead m_trail in
    let! w := sub32 blen m in
    Some (x, w)
  else if has_bits anchor lead && has_bits anchor trail then
    let! c := add32 b (cdiv blen 2) in
    let! x := sub32 c (cdiv len 2) in
    Some (x, len)
  else if has_bits anchor lead then
    let! x := add32 b m_lead in
    Some (x, len)
  else if has_bits anchor trail then
    let! e := add32 b blen in
    let! f := sub32 e len in
    let! x := sub32 f m_trail in
    Some (x, len)
  else
    let! c := add32 b (cdiv blen 2) in
    let! x := sub32 c (cdiv len 2) in
    Some (x, len).

Record box := mk_box { box_x : Z; box_y : Z; box_w : Z; box_h : Z }.

Definition qdwin_layer_compute_box
    (anchor desired_w desired_h : Z)
    (margin_top margin_right margin_bottom margin_left : Z)
    (bx by_ bw bh : Z) : option box :=
  match axis_place anchor ANCHOR_LEFT ANCHOR_RIGHT desired_w
          margin_left margin_right bx bw with
  | None => None
  | Some (x, w) =>
    match axis_place anchor ANCHOR_TOP ANCHOR_BOTTOM desired_h
            margin_top margin_bottom by_ bh with
    | None => None
    | Some (y, h) =>
        let w := if w <? 0 then 0 else w in
        let h := if h <? 0 then 0 else h in
        Some (mk_box x y (u32 w) (u32 h))
    end
  end.

End LayerBox.

(** ** Decorated-toplevel geometry *)

Module Geometry.

Definition qdwin_inset_inner_extent (outer inset_lead inset_trail : Z) : Z :=
  let inner := outer - inset_lead - inset_trail in
  if inner <? 1 then 1 else inner.

(** The [int64_t] intermediate [frame_delta] of the next kernel. *)
Definition frame_delta (surface_extent geometry_extent learned_delta : Z) : Z :=
  let d := surface_extent - geometry_extent in
  let d := if d <? 0 then 0 else d in
  if d <? learned_delta then learned_delta else d.

Definition qdwin_client_extent_for_geometry
    (desired_geometry surface_extent geometry_extent learned_delta : Z) : Z :=
  let configure :=
    desired_geometry - frame_delta surface_extent geometry_extent learned_delta in
  if configure <? 1 then 1
  else if INT32_MAX <? configure then INT32_MAX
  else configure.

Definition qdwin_committed_restore_extent
    (xwayland : bool) (surface_extent geometry_extent : Z) : Z :=
  if xwayland && (0 <? surface_extent) then surface_extent
  else if 0 <? geometry_extent then geometry_extent
  else if 0 <? surface_extent then surface_extent else 0.

Definition qdwin_i64_to_i32 (value : Z) : Z :=
  if value <? INT32_MIN then INT32_MIN
  else if INT32_MAX <? value then INT32_MAX
  else value.

(** One axis of [qdwin_rehome_outer_rect], on [int64_t] values. *)
Definition rehome_axis (outer_pos outer_len work_pos work_len : Z) : Z :=
  let ol := if 0 <? outer_len then outer_len else 1 in
  let wl := if 0 <? work_len then work_len else 1 in
  let lo := work_pos in
  let hi := if ol <=? wl then lo + wl - ol else lo in
  if outer_pos <? lo then lo
  else if hi <? outer_pos then hi
  else outer_pos.

Definition qdwin_rehome_outer_rect
    (outer_x outer_y outer_w outer_h work_x work_y work_w work_h : Z) : Z * Z :=
  (qdwin_i64_to_i32 (rehome_axis outer_x outer_w work_x work_w),
   qdwin_i64_to_i32 (rehome_axis outer_y outer_h work_y work_h)).

End Geometry.

(** ** Fractional scale *)

Module FractionalScale.

Definition QDWIN_LOGIC_FRACTIONAL_MIN : Z := 30.
Definition QDWIN_LOGIC_FRACTIONAL_MAX : Z := 960.

Definition qdwin_clamp_fractional_scale_120 (raw_120 : Z) : Z :=
  if raw_120 <? QDWIN_LOGIC_FRACTIONAL_MIN then QDWIN_LOGIC_FRACTIONAL_MIN
  else if QDWIN_LOGIC_FRACTIONAL_MAX <? raw_120 then QDWIN_LOGIC_FRACTIONAL_MAX
  else raw_120.

Definition qdwin_fractional_scale_env_valid (n : Z) : bool :=
  (QDWIN_LOGIC_FRACTIONAL_MIN <=? n) && (n <=? QDWIN_LOGIC_FRACTIONAL_MAX).

End FractionalScale.

(** ** Advertised-global visibility policy and identity predicates *)

Module Policy.

Definition QDWIN_CRED_SHELL : Z := 0.
Definition QDWIN_CRED_ORDINARY : Z := 1.
Definition QDWIN_CRED_SECCTX : Z := 2.

Definition QDWIN_GLOBAL_ORDINARY : Z := 0.
Definition QDWIN_GLOBAL_INPUT_METHOD : Z := 1.
Definition QDWIN_GLOBAL_VIRTUAL_KEYBOARD : Z := 2.
Definition QDWIN_GLOBAL_WESTON_CAPTURE : Z := 3.
Definition QDWIN_GLOBAL_SECCTX_MANAGER : Z := 4.
Definition QDWIN_GLOBAL_IDLE_NOTIFIER : Z := 5.
Definition QDWIN_GLOBAL_SHELL : Z := 6.
Definition QDWIN_GLOBAL_LAYER_SHELL : Z := 7.
Definition QDWIN_GLOBAL_TOUCH_CALIBRATION : Z := 8.
Definition QDWIN_GLOBAL_LOCKER : Z := 9.
Definition QDWIN_GLOBAL_NESTED_MANAGER : Z := 10.

Definition qdwin_global_visible (cred kind : Z) : bool :=
  let not_secctx := negb (cred =? QDWIN_CRED_SECCTX) in
  let shell_only := cred =? QDWIN_CRED_SHELL in
  if kind =? QDWIN_GLOBAL_ORDINARY then true
  else if kind =? QDWIN_GLOBAL_INPUT_METHOD then not_secctx
  else if kind =? QDWIN_GLOBAL_VIRTUAL_KEYBOARD then not_secctx
  else if kind =? QDWIN_GLOBAL_WESTON_CAPTURE then shell_only
  else if kind =? QDWIN_GLOBAL_SECCTX_MANAGER then shell_only
  else if kind =? QDWIN_GLOBAL_IDLE_NOTIFIER then not_secctx
  else if kind =? QDWIN_GLOBAL_SHELL then not_secctx
  else if kind =? QDWIN_GLOBAL_LAYER_SHELL then not_secctx
  else if kind =? QDWIN_GLOBAL_LOCKER then not_secctx
  else if kind =? QDWIN_GLOBAL_NESTED_MANAGER then not_secctx
  else if kind =? QDWIN_GLOBAL_TOUCH_CALIBRATION then not_secctx
  else false.

(** [p && strcmp(p, s) == 0] on a pointer that may be NULL. *)
Definition streq (p : option string) (s : string) : bool :=
  match p with Some t => String.eqb t s | None => false end.

Definition qdwin_nested_secctx_publisher_allowed
    (sandbox_engine peer_exe : option string) : bool :=
  streq sandbox_engine "qdistro.tier2" && streq peer_exe "/usr/bin/weston".

Definition qdwin_nested_pixelfeed_peer_allowed (peer_exe : option string) : bool :=
  streq peer_exe "/usr/bin/qdistro-nested-pixelfeed"
  || streq peer_exe "/usr/bin/qdistro-mm-remote-pixelfeed".

Definition qdwin_remote_nested_publisher_allowed (peer_exe : option string) : bool :=
  streq peer_exe "/usr/bin/qdistro-mm-remote-viewer-helper".

Definition qdwin_nested_input_peer_event_current (event_fd current_peer_fd : Z) : bool :=
  (0 <=? event_fd) && (0 <=? current_peer_fd) && (event_fd =? current_peer_fd).

Definition qdwin_cursor_sprite_peer_allowed (peer_exe : option string) : bool :=
  streq peer_exe "/usr/bin/qdistro-cursor-sprites".

(** [uint32_t] subtraction wraps around. *)
Definition qdwin_selection_serial_is_stale
    (current incoming : Z) (has_current : bool) : bool :=
  if negb has_current then false
  else u32 (current - incoming) <? UINT32_MAX / 2.

(** [(uid_t)-1]. *)
Definition UID_UNSET : Z := UINT32_MAX.

Definition qdwin_om_mutation_allowed
    (client_is_bound_shell shell_bound : bool)
    (client_pid client_uid shell_pid shell_uid allowed_uid : Z) : bool :=
  if client_is_bound_shell then true
  else if shell_bound then
    (0 <? client_pid) && (client_pid =? shell_pid) && (client_uid =? shell_uid)
  else if allowed_uid =? UID_UNSET then true
  else client_uid =? allowed_uid.

Definition qdwin_secctx_root_launcher_attested
    (parent_uid parent_start_before parent_start_after : Z)
    (parent_exe_basename : option string) : bool :=
  let stable_parent :=
    (parent_uid =? 0) && negb (parent_start_before =? 0)
    && negb (parent_start_after =? 0)
    && (parent_start_before =? parent_start_after) in
  if negb stable_parent then false
  else match parent_exe_basename with
       | None => false
       | Some b =>
           if String.eqb b "runuser" || String.eqb b "su"
              || String.eqb b "sudo" || String.eqb b "pkexec"
           then true
           else String.eqb b EmptyString
       end.

Definition qdwin_layershell_pre_shell_uid_allowed (client_uid allowed_uid : Z) : bool :=
  client_uid =? allowed_uid.

Definition qdwin_idle_inhibit_should_hold
    (have_surface surface_mapped has_buffer has_view : bool) : bool :=
  have_surface && surface_mapped && has_buffer && has_view.

End Policy.
