(* ===== verification/LogicFacts.v ===== *)
(** * LogicFacts: correctness of the decision kernels

    Bounds, containment and overflow behaviour of the geometry kernels, the
    lattice the visibility matrix defines, and the wrap-around meaning of the
    selection-serial test. *)

From stdpp Require Import base list strings option.
From S2P Require Import Prelude Logic.
Import LayerBox Geometry FractionalScale Policy.

(** ** Layer-shell boxes *)

Lemma cdiv2_bounds (x : Z) : 0 <= x -> 0 <= cdiv x 2 /\ 2 * cdiv x 2 <= x <= 2 * cdiv x 2 + 1.
Proof.
  intros. unfold cdiv. rewrite Z.quot_div_nonneg by lia.
  pose proof (Z.div_mod x 2). pose proof (Z.mod_pos_bound x 2). lia.
Qed.

(** A small axis: coordinates and extents for which no intermediate result of
    [axis_place] leaves 32 bits. *)
Definition small (x : Z) : Prop := -1073741823 <= x <= 1073741823.

Ltac chk_ok := rewrite chk32_Some by (ranges; unfold small in *; lia).

(** Placement along an axis stays inside the bounding interval once the
    requested extent and the margins of the axis fit in it. *)
Lemma axis_place_inside anchor lead trail len m_lead m_trail b blen :
  small b -> 0 <= m_lead -> 0 <= m_trail -> 0 <= len ->
  0 <= blen <= 1073741823 -> len + m_lead + m_trail <= blen ->
  exists x w, axis_place anchor lead trail len m_lead m_trail b blen = Some (x, w)
    /\ 0 <= w /\ b <= x /\ x + w <= b + blen
    /\ (len <> 0 -> w = len).
Proof.
  intros Hb Hml Hmt Hlen Hbl Hfit. unfold axis_place, add32, sub32, small in *.
  pose proof (cdiv2_bounds blen ltac:(lia)) as [? [? ?]].
  pose proof (cdiv2_bounds len ltac:(lia)) as [? [? ?]].
  destruct (len =? 0) eqn:E0; zbool.
  - repeat chk_ok. eexists _, _. split; [reflexivity|]. lia.
  - destruct (has_bits anchor lead), (has_bits anchor trail); simpl;
      repeat chk_ok; eexists _, _; (split; [reflexivity|]); lia.
Qed.

(** C12.  A layer surface whose desired size and margins fit in the bounding
    box is placed without arithmetic overflow and entirely inside that box,
    whatever its anchors, and a non-zero desired size is granted exactly. *)
Theorem compute_box_inside anchor dw dh mt mr mb ml bx by_ bw bh :
  small bx -> small by_ ->
  0 <= mt -> 0 <= mr -> 0 <= mb -> 0 <= ml ->
  0 <= dw -> 0 <= dh ->
  0 <= bw <= 1073741823 -> 0 <= bh <= 1073741823 ->
  dw + ml + mr <= bw -> dh + mt + mb <= bh ->
  exists r, qdwin_layer_compute_box anchor dw dh mt mr mb ml bx by_ bw bh = Some r
    /\ bx <= box_x r /\ box_x r + box_w r <= bx + bw
    /\ by_ <= box_y r /\ box_y r + box_h r <= by_ + bh
    /\ (dw <> 0 -> box_w r = dw) /\ (dh <> 0 -> box_h r = dh).
Proof.
  intros. unfold qdwin_layer_compute_box.
  destruct (axis_place_inside anchor ANCHOR_LEFT ANCHOR_RIGHT dw ml mr bx bw)
    as (x & w & -> & ? & ? & ? & ?); try lia; [assumption|].
  destruct (axis_place_inside anchor ANCHOR_TOP ANCHOR_BOTTOM dh mt mb by_ bh)
    as (y & h & -> & ? & ? & ? & ?); try lia; [assumption|].
  unfold small in *.
  destruct (w <? 0) eqn:Ew; zbool; [lia|].
  destruct (h <? 0) eqn:Eh; zbool; [lia|].
  eexists; split; [reflexivity|]; cbn.
  rewrite !u32_small by (ranges; lia). repeat split; lia.
Qed.

Lemma compute_box_inside_witness :
  exists r, qdwin_layer_compute_box 13 0 40 0 0 0 0 0 0 1920 1080 = Some r
    /\ 0 <= box_x r /\ box_x r + box_w r <= 0 + 1920
    /\ 0 <= box_y r /\ box_y r + box_h r <= 0 + 1080
    /\ (0 <> 0 -> box_w r = 0) /\ (40 <> 0 -> box_h r = 40).
Proof. apply (compute_box_inside 13 0 40 0 0 0 0 0 0 1920 1080); unfold small; lia. Defined.

(** The kernel is not overflow-safe for the margins a client may send: on
    a 1920x1080 output and a stretched surface every pair of horizontal
    margins whose sum exceeds 32 bits, e.g. twice [INT32_MAX], makes it
    overflow a signed integer. *)
Theorem compute_box_margin_overflow anchor dh mt mb ml mr :
  in_i32 ml -> in_i32 mr -> INT32_MAX < ml + mr ->
  qdwin_layer_compute_box anchor 0 dh mt mr mb ml 0 0 1920 1080 = None.
Proof.
  intros Hl Hr Hs. unfold qdwin_layer_compute_box, axis_place, add32. cbn [Z.eqb].
  rewrite (chk32_Some (0 + ml)) by (ranges; lia).
  rewrite chk32_None by (ranges; lia). reflexivity.
Qed.

Lemma compute_box_margin_overflow_witness :
  qdwin_layer_compute_box 1 0 40 0 INT32_MAX 0 INT32_MAX 0 0 1920 1080 = None.
Proof.
  apply (compute_box_margin_overflow 1 40 0 0 INT32_MAX INT32_MAX); ranges; lia.
Defined.

(** ** Configure extents *)

Lemma inset_inner_extent_spec outer lead trail :
  qdwin_inset_inner_extent outer lead trail = Z.max 1 (outer - lead - trail).
Proof. unfold qdwin_inset_inner_extent. zcrush. Qed.

Lemma frame_delta_spec s g l : frame_delta s g l = Z.max (Z.max 0 (s - g)) l.
Proof. unfold frame_delta. zcrush. Qed.

(** The configure extent sent to an XWayland client is always a valid
    positive [int32_t], its [int64_t] intermediates never overflow, and when
    the client adds its frame delta again the visible extent is exactly the
    desired one (maximise and restore do not drift). *)
Theorem client_extent_for_geometry_roundtrip desired s g l :
  in_i32 desired -> in_i32 s -> in_i32 g -> in_i32 l ->
  let r := qdwin_client_extent_for_geometry desired s g l in
  1 <= r <= INT32_MAX
  /\ in_i64 (s - g) /\ in_i64 (desired - frame_delta s g l)
  /\ (1 <= desired - frame_delta s g l -> r + frame_delta s g l = desired).
Proof.
  intros Hd Hs Hg Hl. cbn zeta. unfold qdwin_client_extent_for_geometry.
  rewrite frame_delta_spec. zcrush.
Qed.

Lemma client_extent_for_geometry_roundtrip_witness :
  1 <= qdwin_client_extent_for_geometry 1920 864 800 0 <= INT32_MAX
  /\ in_i64 (864 - 800) /\ in_i64 (1920 - frame_delta 864 800 0)
  /\ (1 <= 1920 - frame_delta 864 800 0 ->
      qdwin_client_extent_for_geometry 1920 864 800 0 + frame_delta 864 800 0 = 1920).
Proof.
  apply (client_extent_for_geometry_roundtrip 1920 864 800 0); ranges; lia.
Defined.

(** ** Re-homing a window after its output disappears *)

Lemma rehome_axis_in_i32 op ol wp wl :
  in_i32 op -> in_i32 ol -> in_i32 wp -> in_i32 wl -> in_i32 (rehome_axis op ol wp wl).
Proof. unfold rehome_axis. intros. zcrush. Qed.

Lemma i64_to_i32_id x : in_i32 x -> qdwin_i64_to_i32 x = x.
Proof. unfold qdwin_i64_to_i32. zcrush. Qed.

(** The axis facts C4 lifts to rectangles. *)
Lemma rehome_axis_spec op ol wp wl :
  let r := rehome_axis op ol wp wl in
  let o := Z.max 1 ol in let w := Z.max 1 wl in
  wp <= r /\ (o <= w -> r + o <= wp + w) /\ (w < o -> r = wp)
  /\ (wp <= op -> op + o <= wp + w -> r = op).
Proof. unfold rehome_axis. cbn zeta. zcrush. Qed.

(** Re-homing never saturates ([int32_t] coordinates in, the exact axis
    value out), puts a window that fits entirely inside the work area,
    anchors an oversize one at the work-area origin, and leaves a window that
    already lies inside where it is. *)
Theorem rehome_outer_rect_correct ox oy ow oh wx wy ww wh :
  in_i32 ox -> in_i32 oy -> in_i32 ow -> in_i32 oh ->
  in_i32 wx -> in_i32 wy -> in_i32 ww -> in_i32 wh ->
  0 < ow -> 0 < oh -> 0 < ww -> 0 < wh ->
  let r := qdwin_rehome_outer_rect ox oy ow oh wx wy ww wh in
  wx <= fst r /\ wy <= snd r
  /\ (ow <= ww -> fst r + ow <= wx + ww) /\ (oh <= wh -> snd r + oh <= wy + wh)
  /\ (ww < ow -> fst r = wx) /\ (wh < oh -> snd r = wy)
  /\ (wx <= ox -> ox + ow <= wx + ww -> fst r = ox)
  /\ (wy <= oy -> oy + oh <= wy + wh -> snd r = oy).
Proof.
  intros. subst r. unfold qdwin_rehome_outer_rect. cbn [fst snd].
  rewrite !i64_to_i32_id by (apply rehome_axis_in_i32; assumption).
  pose proof (rehome_axis_spec ox ow wx ww). pose proof (rehome_axis_spec oy oh wy wh).
  cbn zeta in *. rewrite !Z.max_r in * by lia. intuition lia.
Qed.

Lemma rehome_outer_rect_correct_witness :
  let r := qdwin_rehome_outer_rect 2500 300 800 600 0 0 1920 1080 in
  0 <= fst r /\ 0 <= snd r
  /\ (800 <= 1920 -> fst r + 800 <= 0 + 1920) /\ (600 <= 1080 -> snd r + 600 <= 0 + 1080)
  /\ (1920 < 800 -> fst r = 0) /\ (1080 < 600 -> snd r = 0)
  /\ (0 <= 2500 -> 2500 + 800 <= 0 + 1920 -> fst r = 2500)
  /\ (0 <= 300 -> 300 + 600 <= 0 + 1080 -> snd r = 300).
Proof.
  apply (rehome_outer_rect_correct 2500 300 800 600 0 0 1920 1080); ranges; lia.
Defined.

(** ** Global visibility *)

Lemma visible_secctx_only_ordinary kind :
  qdwin_global_visible QDWIN_CRED_SECCTX kind = true -> kind = QDWIN_GLOBAL_ORDINARY.
Proof. unfold qdwin_global_visible. cbn. zcrush; congruence. Qed.

Lemma visible_mono kind :
  (qdwin_global_visible QDWIN_CRED_SECCTX kind = true ->
   qdwin_global_visible QDWIN_CRED_ORDINARY kind = true)
  /\ (qdwin_global_visible QDWIN_CRED_ORDINARY kind = true ->
      qdwin_global_visible QDWIN_CRED_SHELL kind = true).
Proof. unfold qdwin_global_visible. cbn. split; zcrush; congruence. Qed.

Lemma visible_unknown cred kind :
  (kind < 0 \/ QDWIN_GLOBAL_NESTED_MANAGER < kind) -> qdwin_global_visible cred kind = false.
Proof.
  unfold qdwin_global_visible, QDWIN_GLOBAL_ORDINARY, QDWIN_GLOBAL_INPUT_METHOD,
    QDWIN_GLOBAL_VIRTUAL_KEYBOARD, QDWIN_GLOBAL_WESTON_CAPTURE, QDWIN_GLOBAL_SECCTX_MANAGER,
    QDWIN_GLOBAL_IDLE_NOTIFIER, QDWIN_GLOBAL_SHELL, QDWIN_GLOBAL_LAYER_SHELL,
    QDWIN_GLOBAL_LOCKER, QDWIN_GLOBAL_NESTED_MANAGER, QDWIN_GLOBAL_TOUCH_CALIBRATION.
  intros. zcrush; congruence.
Qed.

(** The visibility matrix is a chain of credential classes and fails
    closed: a sandboxed (security-context) client sees exactly the ordinary
    globals, an ordinary client sees at least those, the shell at least the
    ordinary client's, screen capture and security-context minting are seen
    by the shell class alone, and a kind without a policy row is seen by
    nobody. *)
Theorem global_visible_policy cred kind :
  (qdwin_global_visible QDWIN_CRED_SECCTX kind = true <-> kind = QDWIN_GLOBAL_ORDINARY)
  /\ (qdwin_global_visible QDWIN_CRED_SECCTX kind = true ->
      qdwin_global_visible QDWIN_CRED_ORDINARY kind = true)
  /\ (qdwin_global_visible QDWIN_CRED_ORDINARY kind = true ->
      qdwin_global_visible QDWIN_CRED_SHELL kind = true)
  /\ (kind = QDWIN_GLOBAL_WESTON_CAPTURE \/ kind = QDWIN_GLOBAL_SECCTX_MANAGER ->
      qdwin_global_visible cred kind = true -> cred = QDWIN_CRED_SHELL)
  /\ (kind < 0 \/ QDWIN_GLOBAL_NESTED_MANAGER < kind ->
      qdwin_global_visible cred kind = false).
Proof.
  split; [|split; [|split; [|split]]].
  - split; [apply visible_secctx_only_ordinary|intros ->; reflexivity].
  - apply visible_mono.
  - apply visible_mono.
  - intros [-> | ->]; cbn; intros; zbool; assumption.
  - apply visible_unknown.
Qed.

(** ** Selection serials *)

(** The stale-serial test is the wrap-safe comparison it is documented to
    be: with a current source an incoming serial is rejected exactly when it
    is the current serial or one of its [UINT32_MAX/2 - 1] predecessors
    modulo 2^32; without one nothing is stale. *)
Theorem selection_serial_is_stale_spec current incoming has_current :
  in_u32 current -> in_u32 incoming ->
  qdwin_selection_serial_is_stale current incoming has_current = true <->
  has_current = true
  /\ exists k, 0 <= k < 2147483647 /\ incoming = u32 (current - k).
Proof.
  intros Hc Hi. unfold qdwin_selection_serial_is_stale.
  replace (UINT32_MAX / 2) with 2147483647 by reflexivity.
  destruct has_current; cbn [negb]; [|split; [discriminate|intros [? _]; discriminate]].
  rewrite Z.ltb_lt. split.
  - intros H. split; [reflexivity|]. exists (u32 (current - incoming)).
    pose proof (u32_range (current - incoming)).
    split; [ranges; lia|]. unfold u32 in *.
    rewrite Zminus_mod_idemp_r. replace (current - (current - incoming)) with incoming by lia.
    symmetry. apply u32_small. assumption.
  - intros [_ (k & Hk & ->)]. unfold u32 in *. rewrite Zminus_mod_idemp_r.
    replace (current - (current - k)) with k by lia. rewrite Z.mod_small; lia.
Qed.

Lemma selection_serial_is_stale_spec_witness :
  qdwin_selection_serial_is_stale 5 4294967290 true = true <->
  true = true /\ exists k, 0 <= k < 2147483647 /\ 4294967290 = u32 (5 - k).
Proof. apply (selection_serial_is_stale_spec 5 4294967290 true); ranges; lia. Defined.
