(* ===== verification/Scene.v ===== *)
(** * Scene: libweston's layer list and view lists

    The part of [libweston/compositor.c] the shell plugin manipulates: the
    top-to-bottom list of positioned layers, the front-to-back view list of
    every layer and the mapped flag of every view.  Only qdwin's own layers are
    represented (libweston's cursor and fade layers hold no client content the
    plugin stacks). *)

From stdpp Require Import base list gmap option sorting.
From S2P Require Import Prelude.

(** The [weston_layer] members of [struct qdwin]. *)
Inductive layer :=
| background_layer | held_layer | normal_layer | minimized_layer
| workspace_hidden_layer | panel_layer | notification_layer | launcher_layer
| lock_layer | popup_layer
| layer_shell_0 | layer_shell_1 | layer_shell_2 | layer_shell_3.

#[global] Instance layer_eq_dec : EqDecision layer.
Proof. solve_decision. Defined.

Definition WESTON_LAYER_POSITION_HIDDEN : Z := 0x00000000.
Definition WESTON_LAYER_POSITION_BACKGROUND : Z := 0x00000002.
Definition WESTON_LAYER_POSITION_BOTTOM_UI : Z := 0x30000000.
Definition WESTON_LAYER_POSITION_NORMAL : Z := 0x50000000.
Definition WESTON_LAYER_POSITION_UI : Z := 0x80000000.
Definition WESTON_LAYER_POSITION_TOP_UI : Z := 0xe0000000.
Definition WESTON_LAYER_POSITION_LOCK : Z := 0xffff0000.
Definition QDWIN_LAYER_POS_PANEL : Z := 0x70000000.
Definition QDWIN_LAYER_POS_NOTIFICATION : Z := 0x78000000.
Definition QDWIN_LAYER_POS_LAUNCHER : Z := 0x7C000000.
Definition QDWIN_LAYER_POS_LSHELL_BG : Z := 0x00000003.
Definition QDWIN_LAYER_POS_LSHELL_TOP : Z := 0x90000000.

(** A [weston_view] that sits in some layer's [view_list]. *)
Record ventry := mk_ventry { ve_view : Z; ve_layer : layer; ve_mapped : bool }.

(** [layer_list] runs from top to bottom and carries each layer's position;
    [entries] interleaves the view lists, each of them front to back: the view
    list of a layer is the subsequence of its entries. *)
Record scene := mk_scene {
  layer_list : list (layer * Z);
  entries : list ventry;
  view_list_needs_rebuild : bool
}.
#[global] Instance eta_scene : Eta scene :=
  fun r => mk_scene (layer_list r) (entries r) (view_list_needs_rebuild r).

Definition layer_views (l : layer) (s : scene) : list Z :=
  ve_view <$> filter (fun e => ve_layer e = l) (entries s).

Definition view_entry (v : Z) (s : scene) : option ventry :=
  head (filter (fun e => ve_view e = v) (entries s)).

Definition weston_view_is_mapped (v : Z) (s : scene) : bool :=
  match view_entry v s with Some e => ve_mapped e | None => false end.

Definition view_layer (v : Z) (s : scene) : option layer :=
  ve_layer <$> view_entry v s.

Definition layer_is_visible (l : layer) (s : scene) : bool :=
  bool_decide (l ∈ (fst <$> layer_list s)).

(** The scan of [weston_layer_set_position] from the bottom: the layer goes
    right below the lowest layer whose position is not smaller. *)
Fixpoint insert_layer (l : layer) (p : Z) (ls : list (layer * Z)) : list (layer * Z) :=
  match ls with
  | [] => [(l, p)]
  | x :: xs =>
      if forallb (fun y => snd y <? p) (x :: xs) then (l, p) :: x :: xs
      else x :: insert_layer l p xs
  end.

Definition unlink_layer (l : layer) (ls : list (layer * Z)) : list (layer * Z) :=
  filter (fun x => fst x ≠ l) ls.

Definition weston_layer_set_position (l : layer) (p : Z) (s : scene) : scene :=
  s <| layer_list := insert_layer l p (unlink_layer l (layer_list s)) |>.

Definition weston_layer_unset_position (l : layer) (s : scene) : scene :=
  s <| layer_list := unlink_layer l (layer_list s) |>.

Definition unlink_view (v : Z) (es : list ventry) : list ventry :=
  filter (fun e => ve_view e ≠ v) es.

(** The view leaves its layer, becomes the front-most view of [l], and is
    mapped exactly when [l] is on the layer list. *)
Definition weston_view_move_to_layer (v : Z) (l : layer) (s : scene) : scene :=
  s <| view_list_needs_rebuild := true |>
    <| entries := mk_ventry v l (layer_is_visible l s) :: unlink_view v (entries s) |>.

(** Unmapping takes the view out of its layer; moving a view to the [NULL]
    layer comes to the same. *)
Definition weston_view_unmap (v : Z) (s : scene) : scene :=
  if weston_view_is_mapped v s
  then s <| view_list_needs_rebuild := true |>
         <| entries := unlink_view v (entries s) |>
  else s.

Definition weston_view_destroy (v : Z) (s : scene) : scene :=
  s <| view_list_needs_rebuild := true |>
    <| entries := unlink_view v (entries s) |>.

(** The raw splice of a view to the tail of a layer's view list. *)
Definition splice_to_bottom (v : Z) (l : layer) (s : scene) : scene :=
  s <| view_list_needs_rebuild := true |>
    <| entries := unlink_view v (entries s)
                  ++ [mk_ventry v l (weston_view_is_mapped v s)] |>.

(** [weston_compositor_build_view_list]: the views of the positioned layers,
    front to back. *)
Definition weston_compositor_build_view_list (s : scene) : list Z :=
  flat_map (fun x => layer_views (fst x) s) (layer_list s).

(** [weston_output_build_z_order_list]: what an output paints, front to back.
    [drawable] stands for the surface-side conditions (surface mapped, has
    content, overlaps the output). *)
Definition weston_output_build_z_order_list (drawable : Z -> bool) (s : scene) : list Z :=
  filter (fun v => drawable v && weston_view_is_mapped v s = true)
    (weston_compositor_build_view_list s).

(** ** Well-formedness and lemmas *)

(** A view is in at most one layer, a layer at most once on the list. *)
Definition scene_wf (s : scene) : Prop :=
  NoDup (ve_view <$> entries s) /\ NoDup (fst <$> layer_list s).

Lemma unlink_view_views v es :
  ve_view <$> unlink_view v es = filter (fun w => w ≠ v) (ve_view <$> es).
Proof.
  induction es as [|e es IH]; [done|].
  unfold unlink_view in *. rewrite filter_cons, fmap_cons, filter_cons.
  destruct (decide (ve_view e ≠ v)); csimpl; by rewrite ?IH.
Qed.

Lemma unlink_view_fresh v es : v ∉ (ve_view <$> unlink_view v es).
Proof. rewrite unlink_view_views, list_elem_of_filter. tauto. Qed.

Lemma layer_views_cons e s' es l :
  layer_views l (s' <| entries := e :: es |>) =
  (if decide (ve_layer e = l) then [ve_view e] else [])
  ++ layer_views l (s' <| entries := es |>).
Proof.
  unfold layer_views, upd_field; csimpl. rewrite filter_cons.
  destruct (decide (ve_layer e = l)); done.
Qed.

Lemma layer_views_unlink v l s :
  layer_views l (s <| entries := unlink_view v (entries s) |>) =
  filter (fun w => w ≠ v) (layer_views l s).
Proof.
  unfold layer_views; csimpl. induction (entries s) as [|e es IH]; [done|].
  unfold unlink_view in *. rewrite !filter_cons.
  destruct (decide (ve_view e ≠ v)), (decide (ve_layer e = l)); csimpl;
    rewrite ?filter_cons, ?decide_True, ?decide_False by done; csimpl;
    rewrite ?decide_True, ?decide_False by done; rewrite ?IH; done.
Qed.

Lemma layer_views_rebuild l b s :
  layer_views l (s <| view_list_needs_rebuild := b |>) = layer_views l s.
Proof. done. Qed.

Lemma layer_views_move v l l' s :
  layer_views l' (weston_view_move_to_layer v l s) =
  (if decide (l = l') then [v] else []) ++ filter (fun w => w ≠ v) (layer_views l' s).
Proof.
  unfold weston_view_move_to_layer. rewrite layer_views_cons. csimpl. f_equal.
  apply (layer_views_unlink v l' s).
Qed.

Lemma view_entry_cons v e s' es :
  view_entry v (s' <| entries := e :: es |>) =
  if decide (ve_view e = v) then Some e else view_entry v (s' <| entries := es |>).
Proof.
  unfold view_entry; csimpl. rewrite filter_cons. by destruct (decide (ve_view e = v)).
Qed.

Lemma filter_absorb {A} (P Q : A -> Prop) `{!∀ x, Decision (P x)} `{!∀ x, Decision (Q x)}
    (l : list A) :
  (∀ x, P x -> Q x) -> filter P (filter Q l) = filter P l.
Proof.
  intros HPQ. induction l as [|x l IH]; [done|]. rewrite !filter_cons.
  destruct (decide (P x)), (decide (Q x)); rewrite ?filter_cons, ?decide_True, ?decide_False
    by auto; rewrite ?IH; naive_solver.
Qed.

Lemma view_entry_unlink_ne v w s :
  v ≠ w -> view_entry w (s <| entries := unlink_view v (entries s) |>) = view_entry w s.
Proof.
  intros H. unfold view_entry, unlink_view; csimpl. f_equal. apply filter_absorb. congruence.
Qed.

Lemma view_entry_move_eq v l s :
  view_entry v (weston_view_move_to_layer v l s) =
  Some (mk_ventry v l (layer_is_visible l s)).
Proof. unfold weston_view_move_to_layer. rewrite view_entry_cons. by rewrite decide_True. Qed.

Lemma view_entry_move_ne v w l s :
  v ≠ w -> view_entry w (weston_view_move_to_layer v l s) = view_entry w s.
Proof.
  intros. unfold weston_view_move_to_layer. rewrite view_entry_cons.
  rewrite decide_False by done. exact (view_entry_unlink_ne v w s H).
Qed.

Lemma view_layer_move v w l s :
  view_layer w (weston_view_move_to_layer v l s) =
  if decide (v = w) then Some l else view_layer w s.
Proof.
  unfold view_layer. case_decide; subst.
  - by rewrite view_entry_move_eq.
  - by rewrite view_entry_move_ne.
Qed.

Lemma layer_list_move v l s : layer_list (weston_view_move_to_layer v l s) = layer_list s.
Proof. done. Qed.

Lemma layer_is_visible_move v l l' s :
  layer_is_visible l' (weston_view_move_to_layer v l s) = layer_is_visible l' s.
Proof. done. Qed.

Lemma scene_wf_move v l s : scene_wf s -> scene_wf (weston_view_move_to_layer v l s).
Proof.
  intros [H1 H2]. split; [|done]. csimpl. apply NoDup_cons. split; [apply unlink_view_fresh|].
  rewrite unlink_view_views. by apply NoDup_filter.
Qed.

Lemma scene_wf_destroy v s : scene_wf s -> scene_wf (weston_view_destroy v s).
Proof.
  intros [H1 H2]. split; [|done]. csimpl. rewrite unlink_view_views. by apply NoDup_filter.
Qed.

Lemma layer_views_NoDup l s : scene_wf s -> NoDup (layer_views l s).
Proof.
  intros [H _]. revert H. unfold layer_views. induction (entries s) as [|e es IH]; [done|].
  csimpl. rewrite NoDup_cons. intros [Hn H]. rewrite filter_cons. case_decide; [|auto].
  csimpl. apply NoDup_cons. split; [|auto].
  intros Hin. apply Hn. apply list_elem_of_fmap in Hin as (e' & -> & He').
  apply list_elem_of_filter in He' as [_ He']. apply list_elem_of_fmap. eauto.
Qed.

Lemma elem_of_layer_views v l s :
  scene_wf s -> v ∈ layer_views l s <-> view_layer v s = Some l.
Proof.
  intros [H _]. unfold layer_views, view_layer, view_entry.
  induction (entries s) as [|e es IH]; [split; [by intros ?%elem_of_nil|done]|].
  csimpl in H. apply NoDup_cons in H as [Hn H]. specialize (IH H).
  rewrite !filter_cons. destruct (decide (ve_view e = v)) as [<-|Hv].
  - csimpl. destruct (decide (ve_layer e = l)) as [<-|Hl]; csimpl.
    + split; [done|]. intros _. apply list_elem_of_here.
    + split; [|congruence]. intros Hin. exfalso. apply Hn.
      apply list_elem_of_fmap in Hin as (e' & -> & [_ He']%list_elem_of_filter).
      apply list_elem_of_fmap. eauto.
  - rewrite <- IH. destruct (decide (ve_layer e = l)); [|done]. csimpl.
    rewrite elem_of_cons. naive_solver.
Qed.

(** What is painted lies in a positioned layer and is mapped. *)
Lemma z_order_layer drawable s v :
  scene_wf s -> v ∈ weston_output_build_z_order_list drawable s ->
  exists l, view_layer v s = Some l /\ layer_is_visible l s = true
            /\ drawable v = true /\ weston_view_is_mapped v s = true.
Proof.
  intros Hwf. unfold weston_output_build_z_order_list. rewrite list_elem_of_filter.
  intros [Hm Hv]. apply andb_prop in Hm as [Hd Hm].
  unfold weston_compositor_build_view_list in Hv.
  apply list_elem_of_In, in_flat_map in Hv as ((l & p) & Hl & Hv). csimpl in Hv.
  exists l. split_and!; try done.
  - apply (elem_of_layer_views v l s Hwf). by apply list_elem_of_In.
  - unfold layer_is_visible. apply bool_decide_eq_true. apply list_elem_of_fmap.
    exists (l, p). split; [done|]. by apply list_elem_of_In.
Qed.

(** A view of layer [l] is painted exactly when the layer is positioned and the
    view mapped and drawable. *)
Lemma z_order_iff drawable s v l :
  scene_wf s -> view_layer v s = Some l ->
  v ∈ weston_output_build_z_order_list drawable s
  <-> layer_is_visible l s = true /\ drawable v = true /\ weston_view_is_mapped v s = true.
Proof.
  intros Hwf Hl. split.
  - intros (l' & Hl' & H)%z_order_layer; [|done]. rewrite Hl in Hl'. by injection Hl' as <-.
  - intros (Hv & Hd & Hm). unfold weston_output_build_z_order_list.
    rewrite list_elem_of_filter, Hd, Hm. split; [done|].
    unfold layer_is_visible in Hv. apply bool_decide_eq_true in Hv.
    apply list_elem_of_fmap in Hv as ([l0 p] & -> & Hin).
    apply list_elem_of_In, in_flat_map. exists (l0, p). split; [by apply list_elem_of_In|].
    cbn [fst]. by apply list_elem_of_In, elem_of_layer_views.
Qed.

Lemma layer_is_visible_pos l s : layer_is_visible l s = true <-> l ∈ (fst <$> layer_list s).
Proof. unfold layer_is_visible. by rewrite bool_decide_eq_true. Qed.
