(* ===== verification/Procfs.v ===== *)
(** * Procfs: the peer-identity readers of the bind gates

    The [/proc] readers of [qdwin.c] as functions of what the kernel returns:
    start time, executable, SELinux label and launcher path of a peer, and the
    two predicates the locker gate applies to them.  A file system snapshot
    is a parameter; strings are byte strings. *)

From stdpp Require Import base list strings option.
From Stdlib Require Import Ascii String.
From S2P Require Import Prelude.

#[local] Open Scope string_scope.
#[local] Open Scope Z_scope.

(** What the system calls return at one moment: file contents, link targets
    ([None] is an error) and the process table. *)
Record file_stat := mk_file_stat { st_is_reg : bool; st_uid : Z; st_mode : Z }.
Record procfs := mk_procfs {
  proc_stat_file : Z -> option string;
  proc_exe_link : Z -> option string;
  proc_attr_current : Z -> option string;
  proc_cmdline : Z -> option string;
  pid_gone : Z -> bool;                     (* kill(pid, 0) fails with ESRCH *)
  fs_realpath : string -> option string;
  fs_stat : string -> option file_stat
}.

Definition PATH_MAX : nat := 4096.
Definition NUL : ascii := Ascii.zero.
Definition S_IWGRP : Z := 16.
Definition S_IWOTH : Z := 2.

(** The C string at the start of a buffer: the bytes before the first NUL. *)
Fixpoint c_str (s : string) : string :=
  match s with
  | "" => ""
  | String c r => if Ascii.eqb c NUL then "" else String c (c_str r)
  end.

Definition has_char (c : ascii) (s : string) : bool :=
  existsb (Ascii.eqb c) (list_ascii_of_string s).

(** The text after the last closing parenthesis. *)
Fixpoint after_last_paren (s : string) : option string :=
  match s with
  | "" => None
  | String c r =>
      match after_last_paren r with
      | Some t => Some t
      | None => if Ascii.eqb c ")" then Some r else None
      end
  end.

Definition is_blank (c : ascii) : bool := Ascii.eqb c " " || Ascii.eqb c "009".
Definition is_digit (c : ascii) : bool :=
  (48 <=? Z.of_nat (nat_of_ascii c)) && (Z.of_nat (nat_of_ascii c) <=? 57).

Fixpoint skip_while (f : ascii -> bool) (s : string) : string :=
  match s with
  | String c r => if f c then skip_while f r else s
  | "" => ""
  end.

(** The tokeniser loop, [k] fields before the wanted one. *)
Fixpoint seek_field (k : nat) (p : string) : option string :=
  match k, skip_while is_blank p with
  | _, "" => None
  | O, _ => None
  | 1%nat, p => Some p
  | S k, p => seek_field k (skip_while (fun c => negb (is_blank c)) p)
  end.

(** [v * 10 + digit] in [unsigned long long]. *)
Fixpoint digits_value (v : Z) (s : string) : Z :=
  match s with
  | String c r =>
      if is_digit c
      then digits_value ((v * 10 + (Z.of_nat (nat_of_ascii c) - 48)) mod 2 ^ 64) r
      else v
  | "" => v
  end.

(** [read] into a buffer: at most [n] bytes, an empty read counts as an error. *)
Definition read_upto (n : nat) (f : option string) : option string :=
  match f with
  | Some s => if String.eqb s "" then None else Some (substring 0 n s)
  | None => None
  end.

Definition qdwin_proc_starttime (pid : Z) (p : procfs) : Z :=
  if pid <=? 0 then 0
  else match read_upto 2047 (proc_stat_file p pid) with
  | None => 0
  | Some buf =>
      match after_last_paren (c_str buf) with
      | None => 0
      | Some t => match seek_field 20 t with
                  | Some f => digits_value 0 f
                  | None => 0
                  end
      end
  end.

Definition qdwin_proc_exe (pid : Z) (p : procfs) : string :=
  if pid <=? 0 then ""
  else match read_upto (PATH_MAX - 1) (proc_exe_link p pid) with
  | None => ""
  | Some buf => if (PATH_MAX - 1 <=? String.length buf)%nat then "" else c_str buf
  end.

Definition is_trailing (c : ascii) : bool :=
  Ascii.eqb c "010" || Ascii.eqb c NUL || Ascii.eqb c " " || Ascii.eqb c "013".

Fixpoint strip_trailing (s : string) : string :=
  match s with
  | "" => ""
  | String c r =>
      match strip_trailing r with
      | "" => if is_trailing c then "" else String c ""
      | t => String c t
      end
  end.

Definition qdwin_proc_selinux_label (pid : Z) (p : procfs) : string :=
  if pid <=? 0 then ""
  else match read_upto 511 (proc_attr_current p pid) with
  | None => ""
  | Some buf => if (511 <=? String.length buf)%nat then ""
                else c_str (strip_trailing buf)
  end.

(** The bytes after the first NUL, [None] without one. *)
Fixpoint after_nul (s : string) : option string :=
  match s with
  | "" => None
  | String c r => if Ascii.eqb c NUL then Some r else after_nul r
  end.

Definition qdwin_proc_argv1 (pid : Z) (p : procfs) : string :=
  if pid <=? 0 then ""
  else match read_upto (2 * PATH_MAX - 1) (proc_cmdline p pid) with
  | None => ""
  | Some buf =>
      match after_nul buf with
      | None => ""
      | Some a1 => match after_nul a1 with
                   | None => ""
                   | Some _ => c_str a1
                   end
      end
  end.

Definition trusted_dirs : list string := ["/usr/bin/"; "/bin/"; "/usr/local/bin/"].

(** [strncmp(s, prefix, strlen(prefix)) == 0], with the rest of [s]. *)
Fixpoint strip_prefix (pre s : string) : option string :=
  match pre, s with
  | "", _ => Some s
  | String c pre, String d s => if Ascii.eqb c d then strip_prefix pre s else None
  | _, "" => None
  end.

Fixpoint first_dir (dirs : list string) (exe : string) : option string :=
  match dirs with
  | [] => None
  | d :: dirs => match strip_prefix d exe with
                 | Some b => Some b
                 | None => first_dir dirs exe
                 end
  end.

Definition qdwin_exe_is_system_interpreter (exe : string) : bool :=
  match first_dir trusted_dirs exe with
  | None => false
  | Some base =>
      if String.eqb base "" || has_char "/" base then false
      else bool_decide (is_Some (strip_prefix "python" base))
  end.

(** [strtok_r] on colons: the non-empty pieces. *)
Fixpoint split_colon (cur s : string) : list string :=
  match s with
  | "" => [cur]
  | String c r => if Ascii.eqb c ":" then cur :: split_colon "" r
                  else split_colon (cur ++ String c "") r
  end.
Definition tokens (s : string) : list string :=
  List.filter (fun t => negb (String.eqb t "")) (split_colon "" s).

Definition root_owned_file (rc : string) (p : procfs) : bool :=
  match fs_stat p rc with
  | None => false
  | Some st => st_is_reg st && (st_uid st =? 0)
               && negb (has_bits (st_mode st) (Z.lor S_IWGRP S_IWOTH))
  end.

Fixpoint match_entrypoint (rc : string) (toks : list string) (p : procfs) : bool :=
  match toks with
  | [] => false
  | tok :: toks =>
      match fs_realpath p tok with
      | None => match_entrypoint rc toks p
      | Some re => if String.eqb rc re then root_owned_file rc p
                   else match_entrypoint rc toks p
      end
  end.

Definition qdwin_path_is_trusted_entrypoint (cand expected : string) (p : procfs) : bool :=
  if String.eqb cand "" || String.eqb expected "" then false
  else match fs_realpath p cand with
  | None => false
  | Some rc =>
      if (2 * PATH_MAX <=? String.length expected)%nat then false
      else match_entrypoint rc (tokens expected) p
  end.

(** ** Facts *)

Definition lacks (c : ascii) (s : string) : Prop := has_char c s = false.

Lemma app_cons c s t : (String c s ++ t)%string = String c (s ++ t).
Proof. done. Qed.

Lemma has_char_app c s t : has_char c (s ++ t) = has_char c s || has_char c t.
Proof.
  unfold has_char. induction s as [|d s IH]; [done|].
  rewrite app_cons. cbn [list_ascii_of_string existsb]. by rewrite IH, orb_assoc.
Qed.

Lemma has_char_cons c d s : has_char c (String d s) = Ascii.eqb c d || has_char c s.
Proof. done. Qed.

Lemma c_str_lacks s : lacks NUL s -> c_str s = s.
Proof.
  unfold lacks. induction s as [|c s IH]; [done|]. rewrite has_char_cons. intros [H1 H2]%orb_false_elim.
  cbn. rewrite Ascii.eqb_sym, H1. by rewrite IH.
Qed.

Lemma after_last_paren_lacks s : lacks ")" s -> after_last_paren s = None.
Proof.
  unfold lacks. induction s as [|c s IH]; [done|]. rewrite has_char_cons. intros [H1 H2]%orb_false_elim.
  cbn. rewrite IH by done. by rewrite Ascii.eqb_sym, H1.
Qed.

Lemma after_last_paren_app a t : lacks ")" t -> after_last_paren (a ++ ")" ++ t) = Some t.
Proof.
  intros Ht. induction a as [|c a IH].
  - change (after_last_paren (String ")" t) = Some t). cbn. by rewrite after_last_paren_lacks.
  - change (after_last_paren (String c (a ++ ")" ++ t)) = Some t). cbn. by rewrite IH.
Qed.

Lemma substring_all n s : (String.length s <= n)%nat -> substring 0 n s = s.
Proof.
  revert n. induction s as [|c s IH]; intros [|n] H; cbn in *; try done; [lia|].
  rewrite IH; [done|lia].
Qed.

(** A [/proc/<pid>/stat] token: not empty, no blank, no parenthesis. *)
Definition stat_token (s : string) : Prop :=
  s <> "" /\ forallb (fun c => negb (is_blank c)) (list_ascii_of_string s) = true /\ lacks ")" s.

Lemma skip_while_app f s t :
  forallb f (list_ascii_of_string s) = true ->
  skip_while f (s ++ t) = skip_while f t.
Proof.
  induction s as [|c s IH]; [done|]. rewrite app_cons. cbn. intros [H1 H2]%andb_prop.
  rewrite H1. auto.
Qed.

Lemma skip_blank_token s t :
  stat_token s -> skip_while is_blank (" " ++ s ++ t) = (s ++ t)%string.
Proof.
  intros (Hne & Hb & _). destruct s as [|c s]; [done|]. cbn in Hb.
  apply andb_prop in Hb as [Hc%negb_true_iff _]. rewrite !app_cons.
  cbn [skip_while]. change (is_blank " ") with true. cbn iota beta.
  change ("" ++ String c (s ++ t))%string with (String c (s ++ t)). cbn [skip_while].
  by rewrite Hc.
Qed.

(** The fields of a stat line, each preceded by a space. *)
Fixpoint spaced (fs : list string) : string :=
  match fs with [] => "" | f :: fs => " " ++ f ++ spaced fs end.

Lemma app_assoc_s (a b c : string) : ((a ++ b) ++ c = a ++ b ++ c)%string.
Proof. induction a as [|x a IH]; [done|]. by rewrite !app_cons, IH. Qed.

Lemma app_nonempty (a b : string) : a <> "" -> exists c r, (a ++ b)%string = String c r.
Proof. destruct a; [done|]. rewrite app_cons. eauto. Qed.

Lemma seek_field_SS k p :
  seek_field (S (S k)) p =
  match skip_while is_blank p with
  | "" => None
  | p => seek_field (S k) (skip_while (fun c => negb (is_blank c)) p)
  end.
Proof. cbn. by destruct (skip_while is_blank p). Qed.

Lemma seek_field_spaced fs s rest :
  Forall stat_token fs -> stat_token s ->
  seek_field (S (List.length fs)) (spaced fs ++ " " ++ s ++ rest) = Some (s ++ rest)%string.
Proof.
  intros Hfs Hs. induction Hfs as [|f fs Hf Hfs IH].
  - cbn [spaced List.length]. change ("" ++ ?x)%string with x. cbn [seek_field].
    rewrite skip_blank_token by done.
    destruct (app_nonempty s rest) as (c & r & ->); [apply Hs|done].
  - cbn [spaced List.length]. rewrite !app_assoc_s.
    rewrite seek_field_SS, skip_blank_token by done.
    destruct (app_nonempty f (spaced fs ++ " " ++ s ++ rest)) as (c & r & E); [apply Hf|].
    rewrite E, <- E, skip_while_app by apply Hf.
    assert (Hstop : skip_while (fun c => negb (is_blank c)) (spaced fs ++ " " ++ s ++ rest)
                    = (spaced fs ++ " " ++ s ++ rest)%string) by by destruct fs.
    by rewrite Hstop.
Qed.

(** The decimal value of a digit string. *)
Definition decimal (s : string) : Z :=
  fold_left (fun v c => v * 10 + (Z.of_nat (nat_of_ascii c) - 48)) (list_ascii_of_string s) 0.

Definition starts_no_digit (s : string) : Prop :=
  match s with String c _ => is_digit c = false | "" => True end.

Lemma digits_value_app v w s rest :
  forallb is_digit (list_ascii_of_string s) = true -> starts_no_digit rest ->
  w = v mod 2 ^ 64 ->
  digits_value w (s ++ rest) =
  fold_left (fun v c => v * 10 + (Z.of_nat (nat_of_ascii c) - 48)) (list_ascii_of_string s) v
    mod 2 ^ 64.
Proof.
  intros Hs Hr. revert v w. induction s as [|c s IH]; intros v w ->.
  - change ("" ++ rest)%string with rest. destruct rest as [|c r]; [done|].
    cbn [digits_value]. by rewrite Hr.
  - cbn in Hs. apply andb_prop in Hs as [Hc Hs].
    rewrite app_cons. cbn [digits_value list_ascii_of_string fold_left]. rewrite Hc.
    apply IH; [done|]. rewrite <- (Z.add_mod_idemp_l (v * 10)), <- (Z.mul_mod_idemp_l v) by done.
    rewrite Z.add_mod_idemp_l by done. done.
Qed.

Lemma lacks_app c a b : lacks c (a ++ b) <-> lacks c a /\ lacks c b.
Proof. unfold lacks. rewrite has_char_app. apply orb_false_iff. Qed.

Lemma spaced_lacks fs : Forall stat_token fs -> lacks ")" (spaced fs).
Proof.
  induction 1 as [|f fs Hf Hfs IH]; [done|]. cbn [spaced].
  apply lacks_app. split; [done|]. apply lacks_app. split; [apply Hf|done].
Qed.

Lemma digits_token s :
  s <> "" -> forallb is_digit (list_ascii_of_string s) = true -> stat_token s.
Proof.
  intros Hne H. split; [done|]. split.
  - clear Hne. induction s as [|c s IH]; [done|]. cbn in *. apply andb_prop in H as [Hc H].
    rewrite IH by done. unfold is_blank.
    destruct (Ascii.eqb_spec c " "); [subst; discriminate|].
    destruct (Ascii.eqb_spec c "009"); [subst; discriminate|done].
  - unfold lacks. clear Hne. induction s as [|c s IH]; [done|]. cbn in H. apply andb_prop in H as [Hc H].
    rewrite has_char_cons, IH by done.
    destruct (Ascii.eqb_spec ")" c); [subst; discriminate|done].
Qed.

(** The start time is field 22 of the stat line whatever the command
    name holds: for a line "pid (comm) f3 .. f21 start rest", with [comm]
    arbitrary (blanks, digits and parentheses included), the reader returns
    the decimal value of [start].  A process cannot forge its start time by
    choosing its name. *)
Theorem proc_starttime_field22 (p : procfs) (pid : Z) (head comm start rest : string)
    (fields : list string)
    (Hpid : 0 < pid)
    (Hfile : proc_stat_file p pid =
       Some (head ++ "(" ++ comm ++ ")" ++ spaced fields ++ " " ++ start ++ rest)%string)
    (Hlen : (String.length (head ++ "(" ++ comm ++ ")" ++ spaced fields ++ " " ++ start ++ rest)
             <= 2047)%nat)
    (Hnul : lacks NUL (head ++ "(" ++ comm ++ ")" ++ spaced fields ++ " " ++ start ++ rest))
    (Hn : List.length fields = 19%nat) (Hf : Forall stat_token fields)
    (Hs : start <> "" /\ forallb is_digit (list_ascii_of_string start) = true)
    (Hr : starts_no_digit rest /\ lacks ")" rest) :
  qdwin_proc_starttime pid p = decimal start mod 2 ^ 64.
Proof.
  destruct Hs as [Hs1 Hs2], Hr as [Hr1 Hr2]. pose proof (digits_token start Hs1 Hs2) as Ht.
  unfold qdwin_proc_starttime. destruct (Z.leb_spec pid 0); [lia|].
  rewrite Hfile. unfold read_upto.
  set (line := (head ++ "(" ++ comm ++ ")" ++ spaced fields ++ " " ++ start ++ rest)%string) in *.
  assert (Hl : String.eqb line "" = false).
  { apply String.eqb_neq. unfold line. by destruct head. }
  rewrite Hl, substring_all, c_str_lacks by done. unfold line.
  assert (Happ : forall t, (head ++ "(" ++ comm ++ ")" ++ t)%string
                 = ((head ++ "(" ++ comm) ++ ")" ++ t)%string)
    by (intros t; by rewrite !app_assoc_s).
  rewrite Happ, after_last_paren_app.
  - change 20%nat with (S 19). rewrite <- Hn, seek_field_spaced by done.
    by apply digits_value_app.
  - apply lacks_app. split; [by apply spaced_lacks|]. apply lacks_app. split; [done|].
    apply lacks_app. split; [apply Ht|done].
Qed.

Definition ex_fields : list string :=
  ["S"; "1"; "1"; "1"; "0"; "-1"; "4194304"; "0"; "0"; "0"; "0"; "3"; "4"; "0"; "0";
   "20"; "0"; "1"; "0"].
Definition ex_stat : string :=
  ("42 " ++ "(" ++ "evil) S 1 1 (9" ++ ")" ++ spaced ex_fields ++ " " ++ "8812345"
   ++ " 10 20")%string.
Definition ex_python_st : file_stat := mk_file_stat true 0 493.
Definition ex_procfs : procfs := mk_procfs
  (fun pid => if pid =? 42 then Some ex_stat else None)
  (fun pid => if pid =? 42 then Some "/usr/bin/python3.13" else None)
  (fun _ => None)
  (fun pid => if pid =? 42
              then Some ("/usr/bin/python3" ++ String NUL "/usr/local/bin/qdlocker"
                         ++ String NUL "")%string else None)
  (fun pid => negb (pid =? 42))
  (fun s => if String.eqb s "/usr/local/bin/qdlocker" then Some s else None)
  (fun s => if String.eqb s "/usr/local/bin/qdlocker" then Some ex_python_st else None).

Lemma proc_starttime_field22_witness :
  qdwin_proc_starttime 42 ex_procfs = decimal "8812345" mod 2 ^ 64.
Proof.
  apply (proc_starttime_field22 ex_procfs 42 "42 " "evil) S 1 1 (9" "8812345" " 10 20" ex_fields);
    try done.
  - apply Nat.leb_le. vm_compute. reflexivity.
  - repeat constructor; done.
Defined.

Lemma strip_prefix_spec pre s t : strip_prefix pre s = Some t <-> s = (pre ++ t)%string.
Proof.
  revert s. induction pre as [|c pre IH]; intros s.
  - change ("" ++ t)%string with t. cbn. split; congruence.
  - rewrite app_cons. destruct s as [|d s]; cbn; [split; discriminate|].
    destruct (Ascii.eqb_spec c d) as [<-|Hn]; [|split; congruence].
    rewrite IH. split; congruence.
Qed.

(** The interpreter predicate accepts exactly the executables named
    [python...] that sit directly in [/usr/bin], [/bin] or [/usr/local/bin]. *)
Lemma system_interpreter_spec (exe : string) :
  qdwin_exe_is_system_interpreter exe = true <->
  exists dir rest, dir ∈ trusted_dirs /\ exe = (dir ++ "python" ++ rest)%string
                   /\ lacks "/" rest.
Proof.
  unfold qdwin_exe_is_system_interpreter. split.
  - destruct (first_dir trusted_dirs exe) as [base|] eqn:E; [|done].
    assert (Hd : exists dir, dir ∈ trusted_dirs /\ exe = (dir ++ base)%string).
    { clear -E. induction trusted_dirs as [|d ds IH]; [done|]. cbn in E.
      destruct (strip_prefix d exe) as [b|] eqn:Es.
      - injection E as ->. exists d. split; [apply list_elem_of_here|].
        by apply strip_prefix_spec.
      - destruct IH as (dir & H1 & H2); [done|]. exists dir. split; [|done].
        by apply list_elem_of_further. }
    destruct Hd as (dir & Hin & ->).
    destruct (String.eqb base "" || has_char "/" base) eqn:Eb; [done|].
    intros [rest Hp]%bool_decide_eq_true. apply strip_prefix_spec in Hp as ->.
    exists dir, rest. zbool. split_and!; [done|done|].
    by apply (lacks_app "/" "python" rest).
  - intros (dir & rest & Hin & -> & Hl).
    assert (first_dir trusted_dirs (dir ++ "python" ++ rest) = Some ("python" ++ rest)%string) as ->.
    { unfold trusted_dirs in *. rewrite !elem_of_cons in Hin.
      destruct Hin as [->|[->|[->|[]%elem_of_nil]]]; done. }
    assert (has_char "/" ("python" ++ rest) = false) as ->.
    { rewrite has_char_app, Hl. done. }
    change (String.eqb ("python" ++ rest) "") with false. cbn [orb].
    apply bool_decide_eq_true. exists rest. by apply strip_prefix_spec.
Qed.

Lemma match_entrypoint_spec rc toks p :
  match_entrypoint rc toks p = true <->
  (exists tok, tok ∈ toks /\ fs_realpath p tok = Some rc) /\ root_owned_file rc p = true.
Proof.
  induction toks as [|t ts IH]; cbn.
  - split; [done|]. by intros [(?&?%elem_of_nil&_) _].
  - setoid_rewrite elem_of_cons. destruct (fs_realpath p t) as [re|] eqn:E.
    + destruct (String.eqb_spec rc re) as [<-|Hn].
      * split; [|by intros []]. intros H. split; [|done]. exists t. auto.
      * rewrite IH. split; intros [(tok & Ht & Hr) Ho]; (split; [|done]); exists tok.
        -- auto.
        -- split; [|done]. destruct Ht as [->|]; [congruence|done].
    + rewrite IH. split; intros [(tok & Ht & Hr) Ho]; (split; [|done]); exists tok.
      * auto.
      * split; [|done]. destruct Ht as [->|]; [congruence|done].
Qed.

Lemma root_owned_spec rc p :
  root_owned_file rc p = true <->
  exists st, fs_stat p rc = Some st /\ st_is_reg st = true /\ st_uid st = 0
             /\ has_bits (st_mode st) (Z.lor S_IWGRP S_IWOTH) = false.
Proof.
  unfold root_owned_file. destruct (fs_stat p rc) as [st|].
  - rewrite !andb_true_iff, negb_true_iff, Z.eqb_eq. split.
    + intros [[? ?] ?]. by exists st.
    + by intros (? & [= ->] & ? & ? & ?).
  - split; [done|]. by intros (? & ? & _).
Qed.

(** A launcher path is trusted exactly when it resolves to the same file
    as one of the colon-separated expected paths and that file is a regular
    file owned by root that neither group nor others may write. *)
Lemma trusted_entrypoint_spec (cand expected : string) (p : procfs) :
  qdwin_path_is_trusted_entrypoint cand expected p = true <->
  cand <> "" /\ (String.length expected < 2 * PATH_MAX)%nat /\
  exists rc tok st,
    fs_realpath p cand = Some rc /\ tok ∈ tokens expected /\ fs_realpath p tok = Some rc
    /\ fs_stat p rc = Some st /\ st_is_reg st = true /\ st_uid st = 0
    /\ has_bits (st_mode st) (Z.lor S_IWGRP S_IWOTH) = false.
Proof.
  unfold qdwin_path_is_trusted_entrypoint.
  destruct (String.eqb_spec cand "") as [->|Hc]; cbn [orb]; [by split; [|intros []]|].
  destruct (String.eqb_spec expected "") as [->|He].
  { split; [done|]. by intros (_ & _ & rc & tok & st & _ & []%elem_of_nil & _). }
  destruct (fs_realpath p cand) as [rc|].
  2: { split; [done|]. by intros (_ & _ & rc & tok & st & ? & _). }
  destruct (Nat.leb_spec (2 * PATH_MAX) (String.length expected)).
  { split; [done|]. intros (_ & ? & _). lia. }
  rewrite match_entrypoint_spec, root_owned_spec. split.
  - intros [(tok & Ht & Hr) (st & Hst)]. split_and!; [done|done|]. exists rc, tok, st. tauto.
  - intros (_ & _ & rc' & tok & st & [= <-] & Ht & Hr & Hst). eauto.
Qed.

Lemma after_nul_spec s t :
  after_nul s = Some t <-> exists a, lacks NUL a /\ s = (a ++ String NUL t)%string.
Proof.
  induction s as [|c s IH]; cbn.
  - split; [done|]. intros ([|d a] & _ & H); discriminate.
  - destruct (Ascii.eqb_spec c NUL) as [->|Hn].
    + split; [intros [= ->]; by exists ""|]. intros ([|d a] & Hl & H).
      * by injection H as ->.
      * rewrite app_cons in H. injection H as <- H. done.
    + rewrite IH. split; intros (a & Hl & H).
      * exists (String c a). rewrite app_cons, H. split; [|done].
        unfold lacks. rewrite has_char_cons, Hl, orb_false_r, Ascii.eqb_sym.
        by apply Ascii.eqb_neq.
      * destruct a as [|d a]; [injection H as ->; done|]. rewrite app_cons in H.
        injection H as <- ->. exists a. split; [|done].
        unfold lacks in Hl. rewrite has_char_cons in Hl. by zbool.
Qed.

Lemma c_str_app a t : lacks NUL a -> c_str (a ++ String NUL t) = a.
Proof.
  unfold lacks. induction a as [|c a IH]; [done|]. rewrite has_char_cons, app_cons.
  intros [H1 H2]%orb_false_elim. cbn. rewrite Ascii.eqb_sym, H1, IH; done.
Qed.

(** The launcher path comes from the argument vector intact or not at
    all: a non-empty result [a1] means that the bytes read are
    [argv0 NUL a1 NUL ...]; an [a1] cut off by the buffer is never returned. *)
Lemma proc_argv1_intact (pid : Z) (p : procfs) (a1 : string) :
  qdwin_proc_argv1 pid p = a1 -> a1 <> "" ->
  exists file argv0 rest, proc_cmdline p pid = Some file
    /\ substring 0 (2 * PATH_MAX - 1) file = (argv0 ++ String NUL (a1 ++ String NUL rest))%string
    /\ lacks NUL argv0 /\ lacks NUL a1.
Proof.
  unfold qdwin_proc_argv1. intros H Hne. destruct (pid <=? 0); [by subst|].
  destruct (proc_cmdline p pid) as [file|]; [|by subst]. unfold read_upto in H.
  destruct (String.eqb file ""); [by subst|].
  destruct (after_nul (substring 0 (2 * PATH_MAX - 1) file)) as [b|] eqn:E0; [|by subst].
  destruct (after_nul b) as [rest|] eqn:E1; [|by subst].
  apply after_nul_spec in E0 as (argv0 & Ha0 & E0).
  apply after_nul_spec in E1 as (a & Ha & ->). rewrite c_str_app in H by done. subst a.
  by exists file, argv0, rest.
Qed.
