(* ===== verification/State.v ===== *)
(** * State: the compositor state of [struct qdwin]

    The records behind [qdwin/qdwin.c]: outputs, desktop surfaces, chrome,
    toplevels, panels, layer surfaces, seats, view streams and the plugin
    structure itself, with the accessors every component uses.  A C pointer
    to a toplevel is its handle, a pointer to a view its view number ([NULL]
    is [0]), a resource pointer its [wl_resource] record.  Handlers pass the
    state explicitly; wire events, protocol errors and calls into
    libweston-desktop are appended to [events], newest first. *)

From stdpp Require Import base list gmap strings option.
From S2P Require Import Prelude Logic Scene.
Import InputConfig.

Definition QDWIN_TS_MAXIMIZED : Z := 1.
Definition QDWIN_TS_FULLSCREEN : Z := 2.
Definition QDWIN_TS_MINIMIZED : Z := 4.
Definition QDWIN_TILE_NONE : Z := 0.
Definition QDWIN_TILE_LEFT : Z := 1.
Definition QDWIN_TILE_RIGHT : Z := 2.
Definition QDWIN_MAX_WORKSPACES : Z := 32.
Definition QDWIN_DEFAULT_WORKSPACES : Z := 4.
Definition QDWIN_WORKSPACE_NAME_MAX : nat := 256.

Definition QDWIN_DEFAULT_LOCKER_ENTRYPOINT : string :=
  "/usr/local/bin/qdlocker:/usr/bin/qdlocker".

Definition NULL_VIEW : Z := 0.

(** [state & bit], [state |= bit], [state &= ~bit]. *)
Definition ts_has (st bit : Z) : bool := has_bits st bit.
Definition ts_set (st bit : Z) : Z := Z.lor st bit.
Definition ts_clear (st bit : Z) : Z := Z.ldiff st bit.

(** ** Objects *)

Record wl_resource := mk_resource {
  res_id : Z; res_version : Z; res_client : Z
}.
#[global] Instance wl_resource_eq_dec : EqDecision wl_resource.
Proof. solve_decision. Defined.

(** [struct weston_output]: name, global position and size. *)
Record output := mk_output {
  out_id : Z; out_x : Z; out_y : Z; out_width : Z; out_height : Z;
  out_destroying : bool; out_name : string
}.

(** The wp_security_context tag of a client and the identity captured with it. *)
Record secctx_tag := mk_secctx_tag {
  sc_engine : string; sc_app_id : string; sc_instance : string;
  sc_peer_pid : Z; sc_peer_starttime : Z; sc_peer_uid : Z;
  sc_peer_exe : string; sc_peer_label : string
}.

(** What the plugin reads of a [weston_desktop_surface]: its surface and
    committed size, its window geometry, its client and that client's
    credentials ([None] for an XWayland surface without a client). *)
Record desktop_surface := mk_dsurf {
  ds_surface : Z; ds_width : Z; ds_height : Z; ds_mapped : bool;
  ds_geometry_w : Z; ds_geometry_h : Z;
  ds_client : option Z; ds_pid : Z; ds_uid : Z;
  ds_secctx : option secctx_tag; ds_xwayland : bool;
  ds_app_id : string; ds_title : string;
  ds_wm_class : string                     (* XWayland WM_CLASS *)
}.
#[global] Instance eta_dsurf : Eta desktop_surface := fun r =>
  mk_dsurf (ds_surface r) (ds_width r) (ds_height r) (ds_mapped r)
    (ds_geometry_w r) (ds_geometry_h r) (ds_client r) (ds_pid r) (ds_uid r)
    (ds_secctx r) (ds_xwayland r) (ds_app_id r) (ds_title r) (ds_wm_class r).

(** [struct qdwin_chrome]: one decoration side. *)
Record chrome := mk_chrome {
  ch_surface : option (Z * Z * Z);   (* id, width, height *)
  ch_view : option Z
}.
Definition QDWIN_SIDE_N : nat := 0.
Definition QDWIN_SIDE_E : nat := 1.
Definition QDWIN_SIDE_S : nat := 2.
Definition QDWIN_SIDE_W : nat := 3.
Definition no_chrome : chrome := mk_chrome None None.

Definition ch_width (c : chrome) : Z :=
  match ch_surface c with Some (_, w, _) => w | None => 0 end.
Definition ch_height (c : chrome) : Z :=
  match ch_surface c with Some (_, _, h) => h | None => 0 end.

(** [struct qdwin_toplevel]. *)
Record toplevel := mk_toplevel {
  handle : Z;
  desktop : option desktop_surface;        (* NULL for a nested proxy *)
  view : Z;
  mapped : bool;
  decorated : bool;
  last_width : Z; last_height : Z;
  is_nested_proxy : bool;
  proxy_pending : bool;                    (* nested_proxy_pending_decision *)
  proxy_curtain : bool;                    (* the placeholder curtain is [view] *)
  proxy_pixel_surface : option Z;
  proxy_surface : Z;                       (* the placeholder curtain's surface *)
  proxy_secctx : option (string * string * string);
  proxy_app_id : string; proxy_title : string; proxy_origin_uid : Z;
  proxy_remote : option (string * string * string * Z);  (* machine, domain, stream, generation *)
  inset_n : Z; inset_e : Z; inset_s : Z; inset_w : Z;
  outer_width : Z; outer_height : Z;
  xwayland_frame_w : Z; xwayland_frame_h : Z;
  xwayland_target_w : Z; xwayland_target_h : Z;
  xwayland_sent_w : Z; xwayland_sent_h : Z;
  xwayland_before_w : Z; xwayland_before_h : Z;
  xwayland_corrections : Z;
  xwayland_configure_pending : bool;
  state : Z;
  workspace : Z;
  border_rgba : option Z;
  saved_outer_w : Z; saved_outer_h : Z; saved_x : Z; saved_y : Z;
  tiled : Z;
  tile_saved_outer_w : Z; tile_saved_outer_h : Z;
  tile_saved_x : Z; tile_saved_y : Z;
  tl_chrome : list chrome;                 (* indexed by side, four of them *)
  cached_title : string; cached_app_id : string
}.
#[global] Instance eta_toplevel : Eta toplevel := fun r =>
  mk_toplevel (handle r) (desktop r) (view r) (mapped r) (decorated r)
    (last_width r) (last_height r) (is_nested_proxy r) (proxy_pending r)
    (proxy_curtain r) (proxy_pixel_surface r) (proxy_surface r) (proxy_secctx r) (proxy_app_id r)
    (proxy_title r) (proxy_origin_uid r) (proxy_remote r)
    (inset_n r) (inset_e r) (inset_s r) (inset_w r)
    (outer_width r) (outer_height r) (xwayland_frame_w r) (xwayland_frame_h r)
    (xwayland_target_w r) (xwayland_target_h r) (xwayland_sent_w r) (xwayland_sent_h r)
    (xwayland_before_w r) (xwayland_before_h r) (xwayland_corrections r)
    (xwayland_configure_pending r) (state r) (workspace r) (border_rgba r)
    (saved_outer_w r) (saved_outer_h r) (saved_x r) (saved_y r) (tiled r)
    (tile_saved_outer_w r) (tile_saved_outer_h r) (tile_saved_x r) (tile_saved_y r)
    (tl_chrome r) (cached_title r) (cached_app_id r).

(** [struct qdwin_panel]. *)
Record panel := mk_panel {
  p_id : Z;                                (* identifies its resource *)
  p_resource : bool; p_surface : option Z; p_view : Z; p_output : option Z;
  p_edge : Z; p_thickness : Z; p_exclusive : Z;
  p_last : option (Z * Z * Z * Z)          (* last geometry sent *)
}.
#[global] Instance eta_panel : Eta panel := fun r =>
  mk_panel (p_id r) (p_resource r) (p_surface r) (p_view r) (p_output r) (p_edge r)
    (p_thickness r) (p_exclusive r) (p_last r).

(** The part of [struct qdwin_layer_surface] the work area depends on. *)
Record layer_surface := mk_layer_surface {
  ls_mapped : bool; ls_output : option Z; ls_anchor : Z;
  ls_exclusive_zone : Z; ls_exclusive_edge : Z;
  ls_margin_top : Z; ls_margin_right : Z; ls_margin_bottom : Z; ls_margin_left : Z
}.

(** What [weston_keyboard.grab] points to: libweston's default grab, whose
    interface the plugin replaces, one of the plugin's own, the grab libweston
    installs behind a key binding that took none, or the one of its debug
    binding, with the two keys it swallows and whether each was released. *)
Inductive keyboard_grab :=
| default_grab | overlay_grab | switcher_grab | binding_grab (key : Z)
| debug_grab (key0 key1 : Z) (released0 released1 : bool).
#[global] Instance keyboard_grab_eq_dec : EqDecision keyboard_grab.
Proof. solve_decision. Defined.

(** A [weston_seat] with its keyboard's focus and grab and the plugin's
    [qdwin_seat_tracker]. *)
Record seat := mk_seat {
  seat_id : Z;
  has_keyboard : bool;
  kbd_focus : option Z;                    (* focused surface *)
  kbd_focus_mapped : bool;                 (* weston_surface_is_mapped(kbd->focus) *)
  kbd_grab : keyboard_grab;
  has_pointer : bool; pointer_pos : Z * Z;
  grab_serials : list Z;                   (* of the pointer, keyboard and touch present *)
  tracked : bool;
  last_focused_handle : Z;
  focus_recover_idle : bool
}.
#[global] Instance eta_seat : Eta seat := fun r =>
  mk_seat (seat_id r) (has_keyboard r) (kbd_focus r) (kbd_focus_mapped r) (kbd_grab r) (has_pointer r) (pointer_pos r) (grab_serials r) (tracked r)
    (last_focused_handle r) (focus_recover_idle r).

(** [struct qdwin_view_stream]: one exported view. *)
Record view_stream := mk_view_stream {
  vs_id : Z; vs_resource : bool; vs_tl : option Z; vs_listed : bool;
  vs_released : bool; vs_torn_down_sent : bool; vs_pinned : bool;
  vs_prev_x : Z; vs_prev_y : Z; vs_input_claimed : bool; vs_allow_input : bool;
  vs_input_handle : bool; vs_has_token : bool; vs_forward_running : bool
}.
#[global] Instance eta_view_stream : Eta view_stream := fun r =>
  mk_view_stream (vs_id r) (vs_resource r) (vs_tl r) (vs_listed r) (vs_released r)
    (vs_torn_down_sent r) (vs_pinned r) (vs_prev_x r) (vs_prev_y r)
    (vs_input_claimed r) (vs_allow_input r) (vs_input_handle r) (vs_has_token r)
    (vs_forward_running r).

(** [struct qdwin_launcher]: a launcher ([kind] 0) or switcher overlay. *)
Record launcher := mk_launcher {
  l_id : Z; l_surface : option (Z * Z * Z);    (* id, width, height *)
  l_view : Z; l_output : option output; l_kind : Z
}.
#[global] Instance eta_launcher : Eta launcher := fun r =>
  mk_launcher (l_id r) (l_surface r) (l_view r) (l_output r) (l_kind r).

(** [struct qdwin_popup], the popup of the toplevel [pp_parent]. *)
Record popup := mk_popup {
  pp_id : Z; pp_resource : bool; pp_parent : Z; pp_surface : Z; pp_view : Z; pp_grab_active : bool
}.
#[global] Instance eta_popup : Eta popup := fun r =>
  mk_popup (pp_id r) (pp_resource r) (pp_parent r) (pp_surface r) (pp_view r) (pp_grab_active r).

(** [struct qdwin_wm_policy]. *)
Record wm_policy := mk_wm_policy {
  focus_policy : Z; ffm_delay_ms : Z; raise_on_click : bool; raise_on_hover : bool;
  placement : Z; snap_enabled : bool; snap_distance : Z
}.
Definition QDWIN_FOCUS_CLICK : Z := 0.
Definition QDWIN_FOCUS_FOLLOW_MOUSE : Z := 1.
Definition QDWIN_PLACE_CENTER : Z := 0.
Definition QDWIN_PLACE_UNDER_MOUSE : Z := 1.
Definition QDWIN_PLACE_SMART : Z := 2.
Definition QDWIN_PLACE_CASCADE : Z := 3.
Definition QDWIN_FFM_DELAY_MAX : Z := 1000.
Definition QDWIN_SNAP_DIST_MIN : Z := 1.
Definition QDWIN_SNAP_DIST_MAX : Z := 64.
Definition qdwin_wm_policy_set_defaults : wm_policy :=
  mk_wm_policy QDWIN_FOCUS_CLICK 0 true false QDWIN_PLACE_CASCADE false 16.

(** [struct qdwin_pointer_config]. *)
Record pointer_config := mk_pointer_config {
  pc_valid : bool; pc_accel_speed : Z; pc_accel_profile : Z; pc_natural_scroll : bool;
  pc_tap_to_click : bool; pc_left_handed : bool; pc_middle_emulation : bool;
  pc_disable_while_typing : bool; pc_scroll_method : Z
}.
#[global] Instance eta_pointer_config : Eta pointer_config := fun r =>
  mk_pointer_config (pc_valid r) (pc_accel_speed r) (pc_accel_profile r) (pc_natural_scroll r)
    (pc_tap_to_click r) (pc_left_handed r) (pc_middle_emulation r)
    (pc_disable_while_typing r) (pc_scroll_method r).

(** The answers of a [libinput_device] to the queries of the configuration
    code, with the seat it belongs to.  Speeds are in thousandths. *)
Record libinput_device := mk_libinput_device {
  dev_id : Z; dev_seat_name : string;
  accel_is_available : bool; accel_profiles : list libinput_config_accel_profile;
  accel_default_speed : Z; accel_default_profile : libinput_config_accel_profile;
  has_natural_scroll : bool; default_natural_scroll : bool;
  tap_finger_count : Z; default_tap : bool;
  left_handed_is_available : bool; default_left_handed : bool;
  middle_emulation_is_available : bool; default_middle_emulation : bool;
  dwt_is_available : bool; default_dwt : bool;
  scroll_methods : list libinput_config_scroll_method;
  default_scroll_method : libinput_config_scroll_method
}.

(** The calls that change a device's configuration. *)
Inductive libinput_call :=
| accel_set_speed (s : Z) | accel_set_profile (p : libinput_config_accel_profile)
| scroll_set_natural_scroll_enabled (b : bool) | tap_set_enabled (b : bool)
| left_handed_set (b : bool) | middle_emulation_set_enabled (b : bool)
| dwt_set_enabled (b : bool) | scroll_set_method (m : libinput_config_scroll_method).

(** [struct qdwin_hotkey]; [weston_modifiers] is the modifier set of its
    binding. *)
Record hotkey := mk_hotkey { hk_id : Z; hk_modifiers : Z; hk_key : Z }.

(** The key bindings libweston has for itself: the switch of the virtual
    terminal, the Wayland backend's fullscreen toggle, the debug bindings. *)
Inductive weston_binding := switch_vt_binding | fullscreen_binding | debug_binding.
#[global] Instance weston_binding_eq_dec : EqDecision weston_binding.
Proof. solve_decision. Defined.

(** [weston_setup_vt_switch_bindings]: Ctrl+Alt with F1 to F8. *)
Definition KEY_F1 : Z := 59.
Definition weston_setup_vt_switch_bindings : list (Z * Z * weston_binding) :=
  map (fun k => (KEY_F1 + Z.of_nat k, 3, switch_vt_binding)) (seq 0 8).

(** What a shell configures and its unbind takes back: the hotkeys, the
    display power, the pointer and key-repeat settings and the armed
    focus-follows-mouse target; with them, what the backend and the frontend
    set up before: their key bindings, the keys of debug bindings and the
    virtual terminal. *)
Record shell_config := mk_shell_config {
  hotkeys : list hotkey;
  display_forced_off : bool;
  the_pointer_config : pointer_config;
  kb_repeat_rate : Z; kb_repeat_delay : Z;         (* of the compositor *)
  default_kb_repeat_rate : Z; default_kb_repeat_delay : Z;
  kb_repeat_overridden : bool;
  ffm_pending_handle : Z; ffm_armed : option Z;    (* timer, milliseconds *)
  libinput_backend : bool; devices : list libinput_device;
  rdp_api : bool;                                  (* qdwin_rdp_output_get_api *)
  weston_bindings : list (Z * Z * weston_binding);
  debug_keys : list Z; weston_vt : Z
}.
#[global] Instance eta_shell_config : Eta shell_config := fun r =>
  mk_shell_config (hotkeys r) (display_forced_off r) (the_pointer_config r) (kb_repeat_rate r)
    (kb_repeat_delay r) (default_kb_repeat_rate r) (default_kb_repeat_delay r)
    (kb_repeat_overridden r) (ffm_pending_handle r) (ffm_armed r) (libinput_backend r)
    (devices r) (rdp_api r) (weston_bindings r) (debug_keys r) (weston_vt r).

(** Key repeat starts at weston's documented defaults; the bindings are the DRM
    backend's. *)
Definition init_config : shell_config :=
  mk_shell_config [] false (mk_pointer_config false 0 0 false false false false false 0)
    40 400 0 0 false 0 None false [] false weston_setup_vt_switch_bindings [] 1.

(** ** Clipboard *)

(** A [weston_data_source]: what its [send] callback points to, the client
    that offers it and the client holding the current offer. *)
Inductive send_callback := no_send | original_send | send_shim.
Record data_source := mk_data_source {
  src_id : Z; src_send : send_callback; src_client : option Z; src_offer_client : option Z
}.
#[global] Instance eta_data_source : Eta data_source := fun r =>
  mk_data_source (src_id r) (src_send r) (src_client r) (src_offer_client r).

(** [struct qdwin_data_source_wrap] and [struct qdwin_data_offer_pending]. *)
Record data_source_wrap := mk_data_source_wrap { w_source : Z; w_seat : Z }.
Record data_offer_pending := mk_data_offer_pending {
  dp_handle : Z; dp_wrap : Z;                      (* the wrapped source *)
  dp_fd : Z; dp_mime : string; dp_target : Z       (* the receiving client *)
}.

Record clipboard := mk_clipboard {
  data_sources : list data_source;
  data_source_wraps : list data_source_wrap;
  data_offers : list data_offer_pending;           (* qdwin::data_offer_pending *)
  data_offer_receive_next_handle : Z
}.
#[global] Instance eta_clipboard : Eta clipboard := fun r =>
  mk_clipboard (data_sources r) (data_source_wraps r) (data_offers r)
    (data_offer_receive_next_handle r).

(** ** xdg-activation *)

(** [struct qdwin_activation_token], named by its resource, and
    [struct qdwin_activation_pending]. *)
Record activation_token := mk_activation_token {
  at_id : Z; at_resource : bool; at_token : option string; at_app_id : string;
  at_surface : option Z; at_serial : Z; at_committed : bool; at_used : bool
}.
#[global] Instance eta_activation_token : Eta activation_token := fun r =>
  mk_activation_token (at_id r) (at_resource r) (at_token r) (at_app_id r) (at_surface r)
    (at_serial r) (at_committed r) (at_used r).

Record activation_pending := mk_activation_pending {
  ap_handle : Z; ap_token : option Z; ap_target : Z;   (* the target toplevel *)
  ap_surface : Z                                       (* its surface, listened to *)
}.
#[global] Instance eta_activation_pending : Eta activation_pending := fun r =>
  mk_activation_pending (ap_handle r) (ap_token r) (ap_target r) (ap_surface r).

Record activation := mk_activation {
  activation_tokens : list activation_token;
  activation_token_counter : Z;
  activations_pending : list activation_pending;
  activation_pending_next_handle : Z
}.
#[global] Instance eta_activation : Eta activation := fun r =>
  mk_activation (activation_tokens r) (activation_token_counter r) (activations_pending r)
    (activation_pending_next_handle r).

(** [struct weston_curtain]: a rectangle with its view and the colour of its
    solid buffer, red, green, blue and alpha; the values in use are the floats
    0 and 1. *)
Record curtain := mk_curtain {
  c_view : Z; c_x : Z; c_y : Z; c_width : Z; c_height : Z; c_rgba : Z * Z * Z * Z
}.
Definition opaque_black : Z * Z * Z * Z := (0, 0, 0, 1).
(** [weston_surface_attach_solid] makes the whole surface opaque exactly for
    alpha one. *)
Definition curtain_opaque (c : curtain) : bool := snd (c_rgba c) =? 1.

(** [struct qdwin_ext_ws_pending_op] and [struct qdwin_ext_ws_manager]. *)
Inductive ext_ws_op :=
| PENDING_ACTIVATE (index : Z) | PENDING_CREATE | PENDING_REMOVE (index : Z).

Record ext_ws_manager := mk_ext_ws_manager {
  m_id : Z;                                (* the manager resource *)
  m_client : Z;
  m_group : option Z;                      (* the group resource *)
  m_handles : list (option Z);             (* handles[QDWIN_MAX_WORKSPACES] *)
  m_handle_count : Z;
  m_pending : list ext_ws_op;              (* oldest first *)
  m_stopped : bool
}.
#[global] Instance eta_ext_ws_manager : Eta ext_ws_manager := fun r =>
  mk_ext_ws_manager (m_id r) (m_client r) (m_group r) (m_handles r)
    (m_handle_count r) (m_pending r) (m_stopped r).

(** ** Observable effects *)

Inductive error_code :=
| SHELL_NOT_BOUND | SHELL_ALREADY_BOUND | SHELL_INVALID_HANDLE | SHELL_LOCKED
| SHELL_INVALID_ACTION | SHELL_INVALID_GRAB
| LOCKER_NOT_BOUND | LOCKER_ALREADY_BOUND | LOCKER_PRESENT | LOCKER_INVALID_REASON.

Inductive event :=
(* protocol errors *)
| implementation_error (client : Z)
| post_error (resource : Z) (code : error_code)
(* qdwin_shell_v1 *)
| toplevel_added (h uid : Z) (app_id title : string) (xwayland : bool)
| toplevel_removed (h : Z)
| toplevel_state (h st : Z)
| toplevel_geometry (h x y w ht : Z)
| toplevel_title (h : Z) (title : string)
| toplevel_app_id (h : Z) (app_id : string)
| toplevel_workspace (h ws : Z)
| toplevel_security_context (h : Z) (engine app_id instance : string)
| toplevel_peer_identity (h pid st_lo st_hi uid : Z) (exe label : string)
| seat_focus_changed (st h : Z)
| shell_locked_changed (locked : bool)
| shell_overlay_key (role sym : Z)
| shell_lock_requested
| switcher_next (dir : Z)
| switcher_commit
| panel_geometry (p x y w h : Z)
| panel_dismissed (p : Z)
| lock_surface_dismissed
| launcher_dismissed (l : Z)
| popup_dismissed (p : Z)
| view_stream_torn_down (s : Z) (reason : string)
(* qdwin_locker_v1 *)
| locker_ready (locked : bool)
| locker_locked_changed (locked : bool)
| locker_overlay_key (sym : Z)
| locker_lock_requested (reason : Z)
(* wl_keyboard of the focused client *)
| send_key (surface : option Z) (key : Z) (pressed : bool)
| send_modifiers (surface : option Z)
(* wl_keyboard.keymap and .modifiers to every keyboard resource of a seat *)
| keymap_sent (st : Z)
| keymap_modifiers (st : Z)
(* libweston's own bindings *)
| vt_activated (vt : Z)
| backend_fullscreen
(* libweston-desktop *)
| desktop_close (h : Z)
| desktop_set_size (h w ht : Z)
| desktop_set_fullscreen (h : Z) (on : bool)
| desktop_set_maximized (h : Z) (on : bool)
| nested_close_requested (h : Z)
| nested_publish (h : Z)
| nested_unpublish (h : Z)
| shell_hello (client uid : Z)
| seat_created (st : Z)
| output_created (o : Z)
| launcher_requested
| hotkey_pressed (id : Z)
| nested_proxy_remote_identity (h : Z) (machine domain stream : string) (gen_hi gen_lo : Z)
| data_offer_receive_pending (handle seat source target : Z) (mime : string)
| activation_requested (handle source target : Z) (app_id : string)
(* file descriptors of a paste: handed to the source, or closed *)
| source_send (source : Z) (mime : string) (fd : Z)
| source_cancelled (source : Z)
| fd_closed (fd : Z)
(* a freed toplevel is read: undefined behaviour *)
| use_after_free (h : Z)
(* xdg_activation_token_v1.done *)
| token_done (token_resource : Z) (token : string)
(* libinput, the RDP backend, output power and wl_keyboard.repeat_info *)
| libinput_config (dev : Z) (c : libinput_call)
| rdp_input (o : Z) (enabled : bool)
| output_power (o : Z) (on : bool)
| repeat_info (st rate delay : Z)
(* ext_workspace_v1 *)
| ws_group (mgr group : Z)
| ws_workspace (mgr ws_handle : Z)
| ws_name (ws_handle : Z) (name : string)
| ws_coordinates (ws_handle index : Z)
| ws_id (ws_handle index : Z)
| ws_state (ws_handle : Z) (active : bool)
| ws_enter (group ws_handle : Z)
| ws_leave (group ws_handle : Z)
| ws_removed (ws_handle : Z)
| ws_done (mgr : Z)
| ws_finished (mgr : Z).

(** ** The plugin state *)

(** [struct qdwin], the fields the modelled components use, together with the
    compositor's output and seat lists.  [oom] decides whether the next
    allocation of a view or curtain fails. *)
Record qdwin := mk_qdwin {
  the_scene : scene;
  view_pos : gmap Z (Z * Z);               (* weston_view_get_pos_offset_global *)
  next_view : Z;
  oom : bool;
  outputs : list output;
  seats : list seat;
  shell_bound : bool; shell_resource : option wl_resource;
  shell_pid : Z; shell_uid : Z; allowed_uid : Z;
  locked : bool;
  locker_resource : option wl_resource;
  locker_pid : Z; locker_uid : Z; locker_starttime : Z;
  lock_resource_is_locker : bool;
  lock_resource_reattach_in_progress : bool;
  lock_surface : option Z;
  lock_view : option Z;
  lock_view_is_toplevel : bool;
  lock_toplevel : option Z;
  lock_resource : option Z;
  lock_curtain : option curtain;
  overlay_grab_active : bool; overlay_grab_role : Z; overlay_grab_seat : Z;
  switcher_grab_active : bool; switcher_grab_seat : Z;
  launchers : list launcher;
  popups : list popup;
  background : option curtain;
  allowed_locker_uid : Z;
  allowed_locker_entrypoint : option string;
  allowed_locker_exe : option string;
  allowed_locker_label : option string;
  secctx_clients : list Z;                 (* clients with a security-context tag *)
  workspace_count : Z; active_workspace : Z;
  workspace_names : gmap Z string;
  ext_ws_managers : list ext_ws_manager;
  ext_ws_refs : gmap Z (option Z * Z);     (* handle -> manager, index *)
  next_ws_handle : Z;
  toplevels : list toplevel;
  next_handle : Z;
  panels : list panel;
  layer_surfaces : list layer_surface;
  streams : list view_stream;
  move_grab_active : bool; move_grab_handle : Z;
  move_grab_anchor_dx : Z; move_grab_anchor_dy : Z;
  policy : wm_policy;
  config : shell_config;
  clip : clipboard;
  activ : activation;
  nested_mode : bool;
  events : list event
}.
#[global] Instance eta_qdwin : Eta qdwin := fun r =>
  mk_qdwin (the_scene r) (view_pos r) (next_view r) (oom r) (outputs r) (seats r)
    (shell_bound r) (shell_resource r) (shell_pid r) (shell_uid r) (allowed_uid r)
    (locked r) (locker_resource r) (locker_pid r) (locker_uid r) (locker_starttime r)
    (lock_resource_is_locker r) (lock_resource_reattach_in_progress r)
    (lock_surface r) (lock_view r) (lock_view_is_toplevel r) (lock_toplevel r)
    (lock_resource r) (lock_curtain r)
    (overlay_grab_active r) (overlay_grab_role r) (overlay_grab_seat r)
    (switcher_grab_active r) (switcher_grab_seat r) (launchers r) (popups r) (background r)
    (allowed_locker_uid r) (allowed_locker_entrypoint r) (allowed_locker_exe r)
    (allowed_locker_label r) (secctx_clients r)
    (workspace_count r) (active_workspace r) (workspace_names r)
    (ext_ws_managers r) (ext_ws_refs r) (next_ws_handle r)
    (toplevels r) (next_handle r) (panels r) (layer_surfaces r) (streams r)
    (move_grab_active r) (move_grab_handle r)
    (move_grab_anchor_dx r) (move_grab_anchor_dy r) (policy r)
    (config r) (clip r) (activ r) (nested_mode r) (events r).

(** ** Initial state *)

(** The layer ladder [wet_shell_init] sets up; [minimized_layer] and
    [workspace_hidden_layer] are never positioned. *)
Definition init_scene : scene :=
  mk_scene [] [] false
  ~> weston_layer_set_position background_layer WESTON_LAYER_POSITION_BACKGROUND
  ~> weston_layer_set_position held_layer WESTON_LAYER_POSITION_HIDDEN
  ~> weston_layer_set_position normal_layer WESTON_LAYER_POSITION_NORMAL
  ~> weston_layer_set_position panel_layer QDWIN_LAYER_POS_PANEL
  ~> weston_layer_set_position notification_layer QDWIN_LAYER_POS_NOTIFICATION
  ~> weston_layer_set_position launcher_layer QDWIN_LAYER_POS_LAUNCHER
  ~> weston_layer_set_position popup_layer WESTON_LAYER_POSITION_UI
  ~> weston_layer_set_position lock_layer WESTON_LAYER_POSITION_LOCK
  ~> weston_layer_set_position layer_shell_0 QDWIN_LAYER_POS_LSHELL_BG
  ~> weston_layer_set_position layer_shell_1 WESTON_LAYER_POSITION_BOTTOM_UI
  ~> weston_layer_set_position layer_shell_2 QDWIN_LAYER_POS_LSHELL_TOP
  ~> weston_layer_set_position layer_shell_3 WESTON_LAYER_POSITION_TOP_UI.

(** The plugin right after [wet_shell_init], with the given outputs and seats
    and the configured shell uid. *)
Definition wet_shell_init (outs : list output) (sts : list seat) (uid : Z) : qdwin :=
  mk_qdwin init_scene ∅ 1 false outs sts
    false None 0 0 uid
    false None 0 (-1) 0
    false false None None false None None None
    false 0 0 false 0 [] [] None uid (Some QDWIN_DEFAULT_LOCKER_ENTRYPOINT) None None []
    QDWIN_DEFAULT_WORKSPACES 0 ∅ [] ∅ 1
    [] 0 [] [] [] false 0 0 0 qdwin_wm_policy_set_defaults
    init_config (mk_clipboard [] [] [] 0) (mk_activation [] 0 [] 0) false [].

(** ** Accessors and elementary updates *)

Definition emit (e : event) (q : qdwin) : qdwin := q <| events ::= cons e |>.

(** An event on the shell resource, sent only when a shell is bound with at
    least the given protocol version. *)
Definition shell_version_ge (v : Z) (q : qdwin) : bool :=
  match shell_resource q with
  | Some r => shell_bound q && (v <=? res_version r)
  | None => false
  end.
Definition shell_send (v : Z) (e : event) (q : qdwin) : qdwin :=
  if shell_version_ge v q then emit e q else q.

Definition qdwin_toplevel_from_handle (h : Z) (q : qdwin) : option toplevel :=
  List.find (fun tl => handle tl =? h) (toplevels q).

Definition upd_tl (h : Z) (f : toplevel -> toplevel) (q : qdwin) : qdwin :=
  q <| toplevels ::= map (fun tl => if handle tl =? h then f tl else tl) |>.

(** Continue with the toplevel behind a handle. *)
Definition with_tl (h : Z) (k : toplevel -> qdwin -> qdwin) (q : qdwin) : qdwin :=
  match qdwin_toplevel_from_handle h q with Some tl => k tl q | None => q end.

Definition on_scene (f : scene -> scene) (q : qdwin) : qdwin := q <| the_scene ::= f |>.

Definition weston_view_set_position (v x y : Z) (q : qdwin) : qdwin :=
  q <| view_pos ::= <[v := (x, y)]> |>.
Definition view_x (v : Z) (q : qdwin) : Z :=
  match view_pos q !! v with Some (x, _) => x | None => 0 end.
Definition view_y (v : Z) (q : qdwin) : Z :=
  match view_pos q !! v with Some (_, y) => y | None => 0 end.

(** [weston_view_create] and [weston_shell_utils_curtain_create]: a view that
    is in no layer yet, or nothing when the allocation fails. *)
Definition weston_view_create (q : qdwin) : option Z * qdwin :=
  if oom q then (None, q)
  else (Some (next_view q), q <| next_view ::= Z.succ |>).

(** The surface a toplevel's view shows. *)
Definition tl_surface (tl : toplevel) : Z :=
  match desktop tl, proxy_pixel_surface tl with
  | Some d, _ => ds_surface d
  | None, Some s => if proxy_curtain tl then proxy_surface tl else s
  | None, None => proxy_surface tl
  end.

(** [weston_surface_is_mapped(tl->view->surface)]: a proxy's curtain always
    is. *)
Definition tl_surface_mapped (tl : toplevel) : bool :=
  match desktop tl with Some d => ds_mapped d | None => true end.

Definition qdwin_primary_output (q : qdwin) : option output :=
  List.find (fun o => negb (out_destroying o)) (outputs q).

Definition qdwin_shell_require_bound (r : wl_resource) (q : qdwin) : bool :=
  shell_bound q && bool_decide (shell_resource q = Some r).

Definition qdwin_client_is_bound_shell (client : Z) (q : qdwin) : bool :=
  match shell_resource q with
  | Some r => shell_bound q && (client =? res_client r)
  | None => false
  end.

(** A shell request handler: the protocol error of [require_bound] unless the
    resource holds the shell role. *)
Definition shell_request (r : wl_resource) (k : qdwin -> qdwin) (q : qdwin) : qdwin :=
  if qdwin_shell_require_bound r q then k q
  else emit (post_error (res_id r) SHELL_NOT_BOUND) q.

(** The guard of the requests a locked session refuses. *)
Definition unless_locked (r : wl_resource) (k : qdwin -> qdwin) (q : qdwin) : qdwin :=
  if locked q then emit (post_error (res_id r) SHELL_LOCKED) q else k q.

(** ** Lemmas *)

Lemma from_handle_Some h q tl :
  qdwin_toplevel_from_handle h q = Some tl -> handle tl = h /\ tl ∈ toplevels q.
Proof.
  unfold qdwin_toplevel_from_handle. intros [H1 H2]%List.find_some. zbool.
  split; [done|]. by apply list_elem_of_In.
Qed.

Lemma from_handle_upd_eq h f q :
  (∀ tl, handle (f tl) = handle tl) ->
  qdwin_toplevel_from_handle h (upd_tl h f q) = f <$> qdwin_toplevel_from_handle h q.
Proof.
  intros Hf. unfold qdwin_toplevel_from_handle, upd_tl; simpl.
  induction (toplevels q) as [|t ts IH]; [done|]. simpl.
  destruct (handle t =? h) eqn:E; simpl.
  - by rewrite Hf, E.
  - by rewrite E, IH.
Qed.

Lemma from_handle_upd_ne h h' f q :
  (∀ tl, handle (f tl) = handle tl) -> h ≠ h' ->
  qdwin_toplevel_from_handle h' (upd_tl h f q) = qdwin_toplevel_from_handle h' q.
Proof.
  intros Hf Hn. unfold qdwin_toplevel_from_handle, upd_tl; simpl.
  induction (toplevels q) as [|t ts IH]; [done|]. simpl.
  destruct (handle t =? h) eqn:E; simpl; rewrite ?Hf, IH.
  - zbool. destruct (handle t =? h') eqn:E'; [zbool; congruence|done].
  - done.
Qed.

Lemma view_x_set v w x y q :
  view_x w (weston_view_set_position v x y q) = if decide (v = w) then x else view_x w q.
Proof.
  unfold view_x, weston_view_set_position; simpl. case_decide; subst.
  - by rewrite lookup_insert_eq.
  - by rewrite lookup_insert_ne.
Qed.

Lemma view_y_set v w x y q :
  view_y w (weston_view_set_position v x y q) = if decide (v = w) then y else view_y w q.
Proof.
  unfold view_y, weston_view_set_position; simpl. case_decide; subst.
  - by rewrite lookup_insert_eq.
  - by rewrite lookup_insert_ne.
Qed.

Lemma ts_has_set st b : 0 < b -> ts_has (ts_set st b) b = true.
Proof.
  intros Hb. unfold ts_has, ts_set, has_bits. apply negb_true_iff, Z.eqb_neq.
  rewrite Z.land_lor_distr_l, Z.land_diag. intros H0. apply Z.lor_eq_0_iff in H0. lia.
Qed.

Lemma ts_has_clear st b : ts_has (ts_clear st b) b = false.
Proof.
  unfold ts_has, ts_clear, has_bits. apply negb_false_iff, Z.eqb_eq.
  apply Z.bits_inj'. intros n Hn. rewrite Z.land_spec, Z.ldiff_spec, Z.bits_0.
  destruct (Z.testbit st n), (Z.testbit b n); done.
Qed.

Lemma ts_has_clear_other st b c :
  Z.land b c = 0 -> ts_has (ts_clear st b) c = ts_has st c.
Proof.
  intros Hd. unfold ts_has, ts_clear, has_bits. do 2 f_equal.
  apply Z.bits_inj'. intros n Hn. rewrite !Z.land_spec, Z.ldiff_spec.
  assert (Hb : Z.testbit (Z.land b c) n = false) by by rewrite Hd, Z.bits_0.
  rewrite Z.land_spec in Hb.
  destruct (Z.testbit st n), (Z.testbit b n), (Z.testbit c n); done.
Qed.

Lemma ts_clear_set st b : ts_has st b = false -> ts_clear (ts_set st b) b = st.
Proof.
  unfold ts_has, ts_clear, ts_set, has_bits. intros H%negb_false_iff%Z.eqb_eq.
  apply Z.bits_inj'. intros n Hn. rewrite Z.ldiff_spec, Z.lor_spec.
  assert (Hb : Z.testbit (Z.land st b) n = false) by by rewrite H, Z.bits_0.
  rewrite Z.land_spec in Hb.
  destruct (Z.testbit st n), (Z.testbit b n); done.
Qed.

#[export] Hint Resolve ts_has_set ts_has_clear ts_clear_set : qdwin.

(** ** States up to notifications

    Two states have the same core when they agree on everything but the seats'
    focus bookkeeping, the ext-workspace objects and the emitted events. *)

Definition core (q : qdwin) : qdwin :=
  q <| seats := [] |> <| events := [] |> <| ext_ws_managers := [] |>
    <| ext_ws_refs := ∅ |> <| next_ws_handle := 0 |>.

Definition same_core (q q' : qdwin) : Prop := core q = core q'.
Infix "≃" := same_core (at level 70) : record_scope.

#[global] Instance same_core_equiv : Equivalence same_core.
Proof. split; [intros q|intros q q'|intros q1 q2 q3]; unfold same_core; congruence. Qed.

Lemma core_field {A} (f : qdwin -> A) q q' :
  (forall r, f (core r) = f r) -> q ≃ q' -> f q = f q'.
Proof. intros Hf H. by rewrite <- (Hf q), <- (Hf q'), H. Qed.

#[global] Instance scene_core : Proper (same_core ==> eq) the_scene.
Proof. intros ???. by apply core_field. Qed.
#[global] Instance toplevels_core : Proper (same_core ==> eq) toplevels.
Proof. intros ???. by apply core_field. Qed.
#[global] Instance count_core : Proper (same_core ==> eq) workspace_count.
Proof. intros ???. by apply core_field. Qed.
#[global] Instance active_core : Proper (same_core ==> eq) active_workspace.
Proof. intros ???. by apply core_field. Qed.
#[global] Instance locked_core : Proper (same_core ==> eq) locked.
Proof. intros ???. by apply core_field. Qed.
#[global] Instance nested_core : Proper (same_core ==> eq) nested_mode.
Proof. intros ???. by apply core_field. Qed.
#[global] Instance from_handle_core h : Proper (same_core ==> eq) (qdwin_toplevel_from_handle h).
Proof. intros ???. by apply core_field. Qed.

Lemma core_emit e q : emit e q ≃ q.
Proof. done. Qed.
Lemma core_send n e q : shell_send n e q ≃ q.
Proof. unfold shell_send. by destruct (shell_version_ge n q). Qed.

Lemma core_foldl {A} (f : qdwin -> A -> qdwin) l q :
  (forall q a, f q a ≃ q) -> foldl f q l ≃ q.
Proof.
  intros H. revert q. induction l as [|a l IH]; intros q; cbn; [done|].
  rewrite IH. apply H.
Qed.

#[export] Hint Resolve core_emit core_send : qdwin.
