(* ===== verification/Toplevel.v ===== *)
(** * Toplevel: geometry of decorated toplevels

    Maximise, fullscreen, tile, minimise and set-position with the helpers
    they share: layer moves, chrome placement, the configure extent, the work
    area and the panels that reserve it.  Coordinates are integral. *)

From stdpp Require Import base list gmap strings option.
From S2P Require Import Prelude Logic Scene State.
Import Geometry LayerBox.

(** ** Layer moves and shell notifications *)

Definition tl_views (tl : toplevel) : list Z :=
  view tl :: omap ch_view (tl_chrome tl).

Definition move_views (vs : list Z) (l : layer) (s : scene) : scene :=
  foldl (fun s v => weston_view_move_to_layer v l s) s vs.

Definition qdwin_toplevel_move_to_layer (h : Z) (l : layer) : qdwin -> qdwin :=
  with_tl h (fun tl q =>
    let l := if proxy_pending tl && bool_decide (l = normal_layer) then held_layer else l in
    on_scene (move_views (tl_views tl) l) q).

Definition qdwin_send_toplevel_state (h : Z) : qdwin -> qdwin :=
  with_tl h (fun tl q => shell_send 0 (toplevel_state h (state tl)) q).

Definition place_side (tl : toplevel) (side : nat) (cx cy : Z) (q : qdwin) : qdwin :=
  match tl_chrome tl !! side with
  | Some c => match ch_view c with
              | Some v => weston_view_set_position v cx cy q
              | None => q
              end
  | None => q
  end.

Definition qdwin_toplevel_position_chrome (h : Z) : qdwin -> qdwin :=
  with_tl h (fun tl q =>
    let x := view_x (view tl) q in
    let y := view_y (view tl) q in
    let cw := if is_nested_proxy tl then (if 0 <? last_width tl then last_width tl else 800)
              else match desktop tl with Some d => ds_width d | None => 0 end in
    let ch := if is_nested_proxy tl then (if 0 <? last_height tl then last_height tl else 600)
              else match desktop tl with Some d => ds_height d | None => 0 end in
    q ~> place_side tl QDWIN_SIDE_N (x - inset_w tl) (y - inset_n tl)
      ~> place_side tl QDWIN_SIDE_E (x + cw) y
      ~> place_side tl QDWIN_SIDE_S (x - inset_w tl) (y + ch)
      ~> place_side tl QDWIN_SIDE_W (x - inset_w tl) y).

(** ** Field updates of a toplevel *)

Definition set_outer (w h : Z) (t : toplevel) : toplevel :=
  t <| outer_width := w |> <| outer_height := h |>.
Definition set_saved_pos (x y : Z) (t : toplevel) : toplevel :=
  t <| saved_x := x |> <| saved_y := y |>.
Definition save_outer (t : toplevel) : toplevel :=
  t <| saved_outer_w := outer_width t |> <| saved_outer_h := outer_height t |>.
Definition restore_outer (t : toplevel) : toplevel :=
  set_outer (saved_outer_w t) (saved_outer_h t) t.
Definition set_tile_saved (x y : Z) (t : toplevel) : toplevel :=
  t <| tile_saved_outer_w := outer_width t |> <| tile_saved_outer_h := outer_height t |>
    <| tile_saved_x := x |> <| tile_saved_y := y |>.
Definition tile_restore_outer (t : toplevel) : toplevel :=
  set_outer (tile_saved_outer_w t) (tile_saved_outer_h t) t.
Definition add_state (b : Z) (t : toplevel) : toplevel :=
  t <| state ::= fun s => ts_set s b |>.
Definition drop_state (b : Z) (t : toplevel) : toplevel :=
  t <| state ::= fun s => ts_clear s b |>.
Definition set_tiled (e : Z) (t : toplevel) : toplevel := t <| tiled := e |>.

(** ** Outer and inner extents *)

Definition pos_or (x d : Z) : Z := if 0 <? x then x else d.

Definition seed_dims (tl : toplevel) : Z * Z :=
  if (0 <? outer_width tl) && (0 <? outer_height tl)
  then (outer_width tl, outer_height tl)
  else if is_nested_proxy tl
  then (pos_or (last_width tl) 800, pos_or (last_height tl) 600)
  else
    let (iw, ih) := match desktop tl with
      | Some d => (qdwin_committed_restore_extent (ds_xwayland d) (ds_width d) (ds_geometry_w d),
                   qdwin_committed_restore_extent (ds_xwayland d) (ds_height d) (ds_geometry_h d))
      | None => (0, 0)
      end in
    let iw := if iw <=? 0 then 800 else iw in
    let ih := if ih <=? 0 then 600 else ih in
    (iw + inset_w tl + inset_e tl, ih + inset_n tl + inset_s tl).

Definition seed_outer (tl : toplevel) : toplevel :=
  set_outer (fst (seed_dims tl)) (snd (seed_dims tl)) tl.

Definition qdwin_toplevel_seed_outer_from_committed (h : Z) : qdwin -> qdwin :=
  upd_tl h seed_outer.

(** The extent sent in [weston_desktop_surface_set_size]. *)
Definition configure_extent (tl : toplevel) (d : desktop_surface) : Z * Z :=
  let inner_w := qdwin_inset_inner_extent (outer_width tl) (inset_w tl) (inset_e tl) in
  let inner_h := qdwin_inset_inner_extent (outer_height tl) (inset_n tl) (inset_s tl) in
  if ds_xwayland d
  then (qdwin_client_extent_for_geometry inner_w (ds_width d) (ds_geometry_w d)
          (xwayland_frame_w tl),
        qdwin_client_extent_for_geometry inner_h (ds_height d) (ds_geometry_h d)
          (xwayland_frame_h tl))
  else (inner_w, inner_h).

Definition note_configure (d : desktop_surface) (tl : toplevel) : toplevel :=
  if ds_xwayland d then
    tl <| xwayland_target_w :=
            qdwin_inset_inner_extent (outer_width tl) (inset_w tl) (inset_e tl) |>
       <| xwayland_target_h :=
            qdwin_inset_inner_extent (outer_height tl) (inset_n tl) (inset_s tl) |>
       <| xwayland_sent_w := fst (configure_extent tl d) |>
       <| xwayland_sent_h := snd (configure_extent tl d) |>
       <| xwayland_before_w := pos_or (ds_geometry_w d) (ds_width d) |>
       <| xwayland_before_h := pos_or (ds_geometry_h d) (ds_height d) |>
       <| xwayland_corrections := 0 |>
       <| xwayland_configure_pending := true |>
  else tl.

Definition qdwin_toplevel_apply_inset (h : Z) : qdwin -> qdwin :=
  with_tl h (fun tl q =>
    if is_nested_proxy tl then q
    else q ~> qdwin_toplevel_seed_outer_from_committed h
           ~> with_tl h (fun tl q =>
                match desktop tl with
                | None => q
                | Some d =>
                    let (cw, ch) := configure_extent tl d in
                    q ~> upd_tl h (note_configure d)
                      ~> emit (desktop_set_size h cw ch)
                end)).

(** A proxy's placeholder curtain is recreated at the new size. *)
Definition qdwin_nested_proxy_set_geometry (h w ht : Z) : qdwin -> qdwin :=
  with_tl h (fun tl q =>
    if negb (is_nested_proxy tl) || negb (proxy_curtain tl) then q
    else
      let w := if w <=? 0 then 800 else w in
      let ht := if ht <=? 0 then 600 else ht in
      if (last_width tl =? w) && (last_height tl =? ht) then q
      else
        let x := view_x (view tl) q in
        let y := view_y (view tl) q in
        let q := on_scene (weston_view_destroy (view tl)) q in
        match weston_view_create q with
        | (None, q) => upd_tl h (fun t => t <| proxy_curtain := false |>
                                            <| view := NULL_VIEW |>) q
        | (Some v, q) =>
            q ~> weston_view_set_position v x y
              ~> upd_tl h (fun t => t <| view := v |>
                                      <| last_width := w |> <| last_height := ht |>)
              ~> on_scene (weston_view_move_to_layer v
                   (if proxy_pending tl then held_layer else normal_layer))
              ~> shell_send 0 (toplevel_geometry h x y w ht)
        end).

(** ** Work area and panels *)

Record rect := mk_rect { rx : Z; ry : Z; rw : Z; rh : Z }.

Definition qdwin_layer_surface_get_exclusive_edge (ls : layer_surface) : Z :=
  qdwin_layer_exclusive_edge (ls_anchor ls) (negb (ls_exclusive_edge ls =? 0))
    (ls_exclusive_edge ls).

Definition on_output (po : option Z) (out : output) : bool :=
  match po with Some i => i =? out_id out | None => true end.

Definition subtract_zone (out : output) (r : rect) (ls : layer_surface) : rect :=
  if negb (ls_mapped ls) then r
  else if negb (on_output (ls_output ls) out) then r
  else if ls_exclusive_zone ls <=? 0 then r
  else
    let edge := qdwin_layer_surface_get_exclusive_edge ls in
    let t := ls_exclusive_zone ls in
    if edge =? ANCHOR_TOP then
      let t := t + ls_margin_top ls in mk_rect (rx r) (ry r + t) (rw r) (rh r - t)
    else if edge =? ANCHOR_BOTTOM then
      let t := t + ls_margin_bottom ls in mk_rect (rx r) (ry r) (rw r) (rh r - t)
    else if edge =? ANCHOR_LEFT then
      let t := t + ls_margin_left ls in mk_rect (rx r + t) (ry r) (rw r - t) (rh r)
    else if edge =? ANCHOR_RIGHT then
      let t := t + ls_margin_right ls in mk_rect (rx r) (ry r) (rw r - t) (rh r)
    else r.

Definition qdwin_layer_shell_subtract_zones (out : output) (r : rect) (q : qdwin) : rect :=
  foldl (subtract_zone out) r (layer_surfaces q).

(** [(int)p->exclusive]: the unsigned argument reinterpreted as signed. *)
Definition as_int (x : Z) : Z := if x <=? INT32_MAX then x else x - 4294967296.

Definition subtract_panel (out : output) (r : rect) (p : panel) : rect :=
  if negb (on_output (p_output p) out) then r
  else
    let t := as_int (p_exclusive p) in
    if t <=? 0 then r
    else if p_edge p =? 0 then mk_rect (rx r) (ry r + t) (rw r) (rh r - t)
    else if p_edge p =? 1 then mk_rect (rx r) (ry r) (rw r) (rh r - t)
    else if p_edge p =? 2 then mk_rect (rx r + t) (ry r) (rw r - t) (rh r)
    else if p_edge p =? 3 then mk_rect (rx r) (ry r) (rw r - t) (rh r)
    else r.

Definition qdwin_output_work_area (out : output) (q : qdwin) : rect :=
  let r := mk_rect (out_x out) (out_y out) (out_width out) (out_height out) in
  let r := foldl (subtract_panel out) r (panels q) in
  let r := qdwin_layer_shell_subtract_zones out r q in
  mk_rect (rx r) (ry r) (if rw r <? 1 then 1 else rw r) (if rh r <? 1 then 1 else rh r).

Definition out_by_id (i : Z) (q : qdwin) : option output :=
  List.find (fun o => out_id o =? i) (outputs q).

Definition qdwin_panel_compute_rect (p : panel) (out : output) : rect :=
  let x := out_x out in let y := out_y out in
  let w := out_width out in let h := out_height out in
  let t := as_int (p_thickness p) in
  let t := if t <? 0 then 0 else t in
  if p_edge p =? 1 then mk_rect x (y + h - t) w t
  else if p_edge p =? 2 then mk_rect x y t h
  else if p_edge p =? 3 then mk_rect (x + w - t) y t h
  else mk_rect x y w t.

Definition upd_panel (i : Z) (f : panel -> panel) (q : qdwin) : qdwin :=
  q <| panels ::= map (fun p => if p_id p =? i then f p else p) |>.

(** Deduplicated against the last geometry sent. *)
Definition qdwin_panel_send_geometry (p : panel) (r : rect) (q : qdwin) : qdwin :=
  if negb (p_resource p) then q
  else if bool_decide (p_last p = Some (rx r, ry r, rw r, rh r)) then q
  else q ~> upd_panel (p_id p) (fun p => p <| p_last := Some (rx r, ry r, rw r, rh r) |>)
         ~> emit (panel_geometry (p_id p) (rx r) (ry r) (rw r) (rh r)).

Definition qdwin_panel_place (p : panel) (q : qdwin) : qdwin :=
  match p_output p with
  | None => q
  | Some i =>
      match out_by_id i q with
      | Some out =>
          if p_view p =? NULL_VIEW then q
          else
            let r := qdwin_panel_compute_rect p out in
            q ~> weston_view_set_position (p_view p) (rx r) (ry r)
              ~> qdwin_panel_send_geometry p r
      | None => q
      end
  end.

Definition reflow_maximized (q : qdwin) (tl : toplevel) : qdwin :=
  if negb (ts_has (state tl) QDWIN_TS_MAXIMIZED) then q
  else match qdwin_primary_output q with
    | None => q
    | Some out =>
        let wa := qdwin_output_work_area out q in
        let h := handle tl in
        q ~> upd_tl h (set_outer (rw wa) (rh wa))
          ~> weston_view_set_position (view tl) (rx wa) (ry wa)
          ~> qdwin_toplevel_apply_inset h
          ~> qdwin_toplevel_position_chrome h
    end.

Definition assign_panel_output (q : qdwin) (p : panel) : qdwin :=
  match p_output p, qdwin_primary_output q with
  | None, Some out =>
      let p := p <| p_output := Some (out_id out) |> in
      q ~> upd_panel (p_id p) (fun _ => p) ~> qdwin_panel_place p
  | None, None => q
  | Some _, _ => qdwin_panel_place p q
  end.

Definition qdwin_panels_on_output_change (q : qdwin) : qdwin :=
  let q := foldl assign_panel_output q (panels q) in
  foldl reflow_maximized q (toplevels q).

(** A panel whose surface died keeps its resource and stays listed. *)
Definition qdwin_panel_surface_destroyed (i : Z) (q : qdwin) : qdwin :=
  match List.find (fun p => p_id p =? i) (panels q) with
  | None => q
  | Some p =>
      q ~> (fun q => if p_view p =? NULL_VIEW then q
                     else on_scene (weston_view_destroy (p_view p)) q)
        ~> upd_panel i (fun p => p <| p_view := NULL_VIEW |> <| p_surface := None |>)
        ~> (fun q => if p_resource p then emit (panel_dismissed i) q else q)
        ~> qdwin_panels_on_output_change
  end.

Definition qdwin_panel_resource_destroyed (i : Z) (q : qdwin) : qdwin :=
  match List.find (fun p => p_id p =? i) (panels q) with
  | None => q
  | Some p =>
      q ~> (fun q => if p_view p =? NULL_VIEW then q
                     else on_scene (weston_view_destroy (p_view p)) q)
        ~> (fun q => q <| panels ::= List.filter (fun p => negb (p_id p =? i)) |>)
        ~> qdwin_panels_on_output_change
  end.

Definition qdwin_handle_attach_panel (r : wl_resource) (id : Z) (surface : option Z)
    (edge thickness exclusive : Z) : qdwin -> qdwin :=
  shell_request r (fun q =>
    if 3 <? edge then q
    else match surface with
    | None => q
    | Some s =>
        let out := qdwin_primary_output q in
        match weston_view_create q with
        | (None, q) => q
        | (Some v, q) =>
            let p := mk_panel id true (Some s) v (out_id <$> out) edge thickness exclusive None in
            q ~> on_scene (weston_view_move_to_layer v panel_layer)
              ~> (fun q => q <| panels ::= cons p |>)
              ~> (match out with Some _ => qdwin_panel_place p | None => (fun q => q) end)
              ~> qdwin_panels_on_output_change
        end
    end).

(** ** Minimise *)

Definition qdwin_toplevel_set_minimized (h : Z) : qdwin -> qdwin :=
  with_tl h (fun tl q =>
    if proxy_pending tl then q
    else if ts_has (state tl) QDWIN_TS_MINIMIZED then q
    else q ~> qdwin_toplevel_move_to_layer h minimized_layer
           ~> upd_tl h (add_state QDWIN_TS_MINIMIZED)
           ~> qdwin_send_toplevel_state h).

Definition qdwin_handle_request_minimize (r : wl_resource) (h : Z) : qdwin -> qdwin :=
  shell_request r (unless_locked r (qdwin_toplevel_set_minimized h)).

(** ** Fullscreen *)

Definition resize_proxy_or (h w ht : Z) (e : event) : qdwin -> qdwin :=
  with_tl h (fun tl q =>
    if is_nested_proxy tl then qdwin_nested_proxy_set_geometry h w ht q else emit e q).

(** Place a toplevel's content view; [view] is read after any resize. *)
Definition set_tl_position (h x y : Z) : qdwin -> qdwin :=
  with_tl h (fun tl q => weston_view_set_position (view tl) x y q).

Definition qdwin_toplevel_apply_fullscreen_geometry (h : Z) (output : option output)
    (q : qdwin) : qdwin :=
  match (match output with Some o => Some o | None => qdwin_primary_output q end) with
  | None => q
  | Some out =>
      with_tl h (fun tl q =>
        q ~> upd_tl h (set_outer (out_width out) (out_height out))
          ~> resize_proxy_or h (out_width out) (out_height out) (desktop_set_fullscreen h true)
          ~> set_tl_position h (out_x out + inset_w tl) (out_y out + inset_n tl)
          ~> qdwin_toplevel_apply_inset h
          ~> qdwin_toplevel_position_chrome h) q
  end.

(** Save the current geometry in the [saved_*] slot. *)
Definition save_geometry (h : Z) : qdwin -> qdwin :=
  with_tl h (fun tl q =>
    let x := view_x (view tl) q in
    let y := view_y (view tl) q in
    q ~> upd_tl h (set_saved_pos x y)
      ~> qdwin_toplevel_seed_outer_from_committed h
      ~> upd_tl h save_outer).

(** Return to the geometry of the [saved_*] slot. *)
Definition restore_geometry (h : Z) (e : event) : qdwin -> qdwin :=
  with_tl h (fun tl q =>
    q ~> resize_proxy_or h (saved_outer_w tl) (saved_outer_h tl) e
      ~> upd_tl h restore_outer
      ~> set_tl_position h (saved_x tl) (saved_y tl)
      ~> qdwin_toplevel_apply_inset h
      ~> qdwin_toplevel_position_chrome h).

Definition qdwin_toplevel_set_fullscreen (h : Z) (fullscreen : bool) (output : option output)
  : qdwin -> qdwin :=
  with_tl h (fun tl q =>
    if proxy_pending tl then q
    else
      let is_fs := ts_has (state tl) QDWIN_TS_FULLSCREEN in
      if Bool.eqb fullscreen is_fs then
        if fullscreen then qdwin_toplevel_apply_fullscreen_geometry h output q else q
      else if fullscreen then
        match (match output with Some o => Some o | None => qdwin_primary_output q end) with
        | None => q
        | Some out =>
            q ~> save_geometry h
              ~> qdwin_toplevel_apply_fullscreen_geometry h (Some out)
              ~> upd_tl h (add_state QDWIN_TS_FULLSCREEN)
              ~> qdwin_send_toplevel_state h
        end
      else
        q ~> restore_geometry h (desktop_set_fullscreen h false)
          ~> upd_tl h (drop_state QDWIN_TS_FULLSCREEN)
          ~> qdwin_send_toplevel_state h).

Definition qdwin_handle_request_fullscreen (r : wl_resource) (h fullscreen : Z)
  : qdwin -> qdwin :=
  shell_request r (unless_locked r (fun q =>
    match qdwin_toplevel_from_handle h q with
    | None => emit (post_error (res_id r) SHELL_INVALID_HANDLE) q
    | Some _ => qdwin_toplevel_set_fullscreen h (negb (fullscreen =? 0)) None q
    end)).

(** ** Maximise *)

Definition qdwin_toplevel_set_maximized (h : Z) (maximized : bool) : qdwin -> qdwin :=
  with_tl h (fun tl q =>
    if proxy_pending tl then q
    else
      let is_max := ts_has (state tl) QDWIN_TS_MAXIMIZED in
      if Bool.eqb maximized is_max then q
      else if maximized then
        match qdwin_primary_output q with
        | None => q
        | Some out =>
            let wa := qdwin_output_work_area out q in
            q ~> save_geometry h
              ~> upd_tl h (set_outer (rw wa) (rh wa))
              ~> resize_proxy_or h (rw wa) (rh wa) (desktop_set_maximized h true)
              ~> set_tl_position h (rx wa + inset_w tl) (ry wa + inset_n tl)
              ~> qdwin_toplevel_apply_inset h
              ~> qdwin_toplevel_position_chrome h
              ~> upd_tl h (add_state QDWIN_TS_MAXIMIZED)
              ~> qdwin_send_toplevel_state h
        end
      else
        q ~> restore_geometry h (desktop_set_maximized h false)
          ~> upd_tl h (drop_state QDWIN_TS_MAXIMIZED)
          ~> qdwin_send_toplevel_state h).

Definition qdwin_handle_request_maximize (r : wl_resource) (h maximized : Z)
  : qdwin -> qdwin :=
  shell_request r (unless_locked r (qdwin_toplevel_set_maximized h (negb (maximized =? 0)))).

(** ** Tile *)

Definition qdwin_output_at_global (gx gy : Z) (q : qdwin) : option output :=
  match List.find (fun o => (out_x o <=? gx) && (gx <? out_x o + out_width o)
                            && (out_y o <=? gy) && (gy <? out_y o + out_height o))
          (outputs q) with
  | Some o => Some o
  | None => qdwin_primary_output q
  end.

Definition resize_tiled (h : Z) : qdwin -> qdwin :=
  with_tl h (fun tl q =>
    if is_nested_proxy tl
    then qdwin_nested_proxy_set_geometry h (outer_width tl) (outer_height tl) q
    else qdwin_toplevel_apply_inset h q).

Definition tile_restore (h : Z) : qdwin -> qdwin :=
  with_tl h (fun tl q =>
    q ~> upd_tl h tile_restore_outer
      ~> set_tl_position h (tile_saved_x tl) (tile_saved_y tl)
      ~> resize_tiled h
      ~> qdwin_toplevel_position_chrome h
      ~> upd_tl h (set_tiled QDWIN_TILE_NONE)).

Definition tile_save (h : Z) : qdwin -> qdwin :=
  with_tl h (fun tl q =>
    if tiled tl =? QDWIN_TILE_NONE then
      let x := view_x (view tl) q in
      let y := view_y (view tl) q in
      q ~> qdwin_toplevel_seed_outer_from_committed h
        ~> upd_tl h (set_tile_saved x y)
    else q).

Definition tile_place (h edge : Z) (out : output) : qdwin -> qdwin :=
  with_tl h (fun tl q =>
    let wa := qdwin_output_work_area out q in
    let left_w := cdiv (rw wa) 2 in
    let tile_w := if edge =? QDWIN_TILE_RIGHT then rw wa - left_w else left_w in
    let tx := if edge =? QDWIN_TILE_RIGHT then rx wa + left_w else rx wa in
    q ~> upd_tl h (set_outer tile_w (rh wa))
      ~> set_tl_position h (tx + inset_w tl) (ry wa + inset_n tl)
      ~> resize_tiled h
      ~> qdwin_toplevel_position_chrome h
      ~> upd_tl h (set_tiled edge)).

Definition leave_special_state (h : Z) (q : qdwin) : qdwin :=
  q ~> with_tl h (fun tl q => if ts_has (state tl) QDWIN_TS_MAXIMIZED
                              then qdwin_toplevel_set_maximized h false q else q)
    ~> with_tl h (fun tl q => if ts_has (state tl) QDWIN_TS_FULLSCREEN
                              then qdwin_toplevel_set_fullscreen h false None q else q).

Definition qdwin_toplevel_set_tiled (h edge : Z) : qdwin -> qdwin :=
  with_tl h (fun tl q =>
    if proxy_pending tl then q
    else
      let edge := if negb (edge =? QDWIN_TILE_LEFT) && negb (edge =? QDWIN_TILE_RIGHT)
                  then QDWIN_TILE_NONE else edge in
      if edge =? QDWIN_TILE_NONE then
        if tiled tl =? QDWIN_TILE_NONE then q else tile_restore h q
      else
        q ~> leave_special_state h
          ~> with_tl h (fun tl q =>
               match qdwin_output_at_global (view_x (view tl) q) (view_y (view tl) q) q with
               | None => q
               | Some out => q ~> tile_save h ~> tile_place h edge out
               end)).

Definition qdwin_handle_request_tile (r : wl_resource) (h edge : Z) : qdwin -> qdwin :=
  shell_request r (unless_locked r (fun q =>
    match qdwin_toplevel_from_handle h q with
    | None => emit (post_error (res_id r) SHELL_INVALID_HANDLE) q
    | Some _ => qdwin_toplevel_set_tiled h edge q
    end)).

(** ** Set position *)

Definition clamp_to_output (x y : Z) (out : output) : Z * Z :=
  let max_x := out_x out + out_width out - 1 in
  let max_y := out_y out + out_height out - 1 in
  let cx := if x <? out_x out then out_x out else x in
  let cy := if y <? out_y out then out_y out else y in
  (if max_x <? cx then max_x else cx, if max_y <? cy then max_y else cy).

Definition qdwin_handle_request_set_position (r : wl_resource) (h x y : Z)
  : qdwin -> qdwin :=
  shell_request r (unless_locked r (with_tl h (fun tl q =>
    if view tl =? NULL_VIEW then q
    else if proxy_pending tl then q
    else if ts_has (state tl) (Z.lor QDWIN_TS_MAXIMIZED QDWIN_TS_FULLSCREEN) then q
    else if negb (tiled tl =? QDWIN_TILE_NONE) then q
    else if move_grab_active q && (move_grab_handle q =? h) then q
    else
      let '(cx, cy) := match qdwin_output_at_global x y q with
                       | Some out => clamp_to_output x y out
                       | None => (x, y)
                       end in
      q ~> weston_view_set_position (view tl) (cx + inset_w tl) (cy + inset_n tl)
        ~> qdwin_toplevel_position_chrome h
        ~> shell_send 0 (toplevel_geometry h cx cy (u32 (last_width tl))
                           (u32 (last_height tl)))))).

(** ** Identity of the locker's window *)

(** Matched by (pid, uid): the locker's window and its control connection are
    separate clients of one process. *)
Definition qdwin_toplevel_is_locker_ui (tl : toplevel) (q : qdwin) : bool :=
  match desktop tl with
  | None => false
  | Some d =>
      negb (is_nested_proxy tl)
      && bool_decide (locker_resource q ≠ None) && (0 <? locker_pid q)
      && bool_decide (ds_client d ≠ None)
      && (ds_pid d =? locker_pid q) && (ds_uid d =? locker_uid q)
  end.

(** ** Where moved views end up *)

Lemma view_entry_move_views vs l s v :
  view_entry v (move_views vs l s)
  = if decide (v ∈ vs) then Some (mk_ventry v l (layer_is_visible l s)) else view_entry v s.
Proof.
  unfold move_views. revert s. induction vs as [|w vs IH]; intros s.
  { rewrite decide_False; [done|]. by apply not_elem_of_nil. }
  cbn [foldl]. rewrite IH. change (layer_is_visible l (weston_view_move_to_layer w l s)) with (layer_is_visible l s).
  destruct (decide (v ∈ vs)) as [Hv|Hv].
  - rewrite decide_True; [done|]. by apply list_elem_of_further.
  - destruct (decide (w = v)) as [->|Hw].
    + rewrite decide_True by apply list_elem_of_here. apply view_entry_move_eq.
    + rewrite decide_False by (intros [?|?]%elem_of_cons; congruence). by apply view_entry_move_ne.
Qed.
