(* ===== verification/ToplevelFacts.v ===== *)
(** * ToplevelFacts: what maximise, fullscreen, tile and set-position guarantee

    Commutation lemmas of the state updates first, then the round trips and
    placements of the geometry requests. *)

From stdpp Require Import base list gmap strings option.
From S2P Require Import Prelude Logic Scene State Toplevel.
Import Geometry.

Create HintDb qst.

(** ** What the elementary updates leave alone *)

Lemma from_handle_emit h e q :
  qdwin_toplevel_from_handle h (emit e q) = qdwin_toplevel_from_handle h q.
Proof. done. Qed.

Lemma from_handle_scene h f q :
  qdwin_toplevel_from_handle h (on_scene f q) = qdwin_toplevel_from_handle h q.
Proof. done. Qed.

Lemma from_handle_pos h v x y q :
  qdwin_toplevel_from_handle h (weston_view_set_position v x y q)
  = qdwin_toplevel_from_handle h q.
Proof. done. Qed.

Lemma from_handle_send h n e q :
  qdwin_toplevel_from_handle h (shell_send n e q) = qdwin_toplevel_from_handle h q.
Proof. unfold shell_send. by destruct (shell_version_ge n q). Qed.

Lemma view_x_upd w h f q : view_x w (upd_tl h f q) = view_x w q.
Proof. done. Qed.
Lemma view_y_upd w h f q : view_y w (upd_tl h f q) = view_y w q.
Proof. done. Qed.
Lemma view_x_emit w e q : view_x w (emit e q) = view_x w q.
Proof. done. Qed.
Lemma view_y_emit w e q : view_y w (emit e q) = view_y w q.
Proof. done. Qed.
Lemma view_x_send w n e q : view_x w (shell_send n e q) = view_x w q.
Proof. unfold shell_send. by destruct (shell_version_ge n q). Qed.
Lemma view_y_send w n e q : view_y w (shell_send n e q) = view_y w q.
Proof. unfold shell_send. by destruct (shell_version_ge n q). Qed.

(** Geometry updates change neither the outputs and reserved zones nor the
    stacking. *)
Definition same_outputs (q q' : qdwin) : Prop :=
  outputs q' = outputs q /\ panels q' = panels q /\ layer_surfaces q' = layer_surfaces q
  /\ the_scene q' = the_scene q.

Lemma same_outputs_trans q1 q2 q3 :
  same_outputs q1 q2 -> same_outputs q2 q3 -> same_outputs q1 q3.
Proof. unfold same_outputs. intuition congruence. Qed.

Lemma work_area_same q q' out :
  same_outputs q q' -> qdwin_output_work_area out q' = qdwin_output_work_area out q.
Proof.
  intros (H1 & H2 & H3 & _). unfold qdwin_output_work_area, qdwin_layer_shell_subtract_zones.
  by rewrite H2, H3.
Qed.

Lemma primary_same q q' :
  same_outputs q q' -> qdwin_primary_output q' = qdwin_primary_output q.
Proof. intros (H1 & _). unfold qdwin_primary_output. by rewrite H1. Qed.

(** ** Chrome placement *)

Definition chrome_views (tl : toplevel) : list Z := omap ch_view (tl_chrome tl).

(** [q'] differs from [q] only in the positions of views in [vs]. *)
Definition moved_only (vs : list Z) (q q' : qdwin) : Prop :=
  q' = q <| view_pos := view_pos q' |> /\
  ∀ v, v ∉ vs -> view_pos q' !! v = view_pos q !! v.

Lemma moved_only_refl vs q : moved_only vs q q.
Proof. by destruct q. Qed.

Lemma moved_only_trans vs q1 q2 q3 :
  moved_only vs q1 q2 -> moved_only vs q2 q3 -> moved_only vs q1 q3.
Proof.
  intros [H1 H2] [H3 H4]. split.
  - rewrite H3 at 1. rewrite H1 at 1. done.
  - intros v Hv. by rewrite H4, H2.
Qed.

Lemma moved_only_set vs v x y q :
  v ∈ vs -> moved_only vs q (weston_view_set_position v x y q).
Proof.
  intros Hv. split; [by destruct q|].
  intros w Hw. unfold weston_view_set_position; simpl. apply lookup_insert_ne. set_solver.
Qed.

Lemma chrome_view_in tl s c v :
  tl_chrome tl !! s = Some c -> ch_view c = Some v -> v ∈ chrome_views tl.
Proof.
  intros H1 H2. unfold chrome_views. apply list_elem_of_omap.
  exists c. split; [|done]. by eapply list_elem_of_lookup_2.
Qed.

Lemma place_side_moved tl side cx cy q :
  moved_only (chrome_views tl) q (place_side tl side cx cy q).
Proof.
  unfold place_side. destruct (tl_chrome tl !! side) as [c|] eqn:E; [|apply moved_only_refl].
  destruct (ch_view c) eqn:E'; [|apply moved_only_refl].
  apply moved_only_set. by eapply chrome_view_in.
Qed.

Lemma position_chrome_moved h q tl :
  qdwin_toplevel_from_handle h q = Some tl ->
  moved_only (chrome_views tl) q (qdwin_toplevel_position_chrome h q).
Proof.
  intros H. unfold qdwin_toplevel_position_chrome, with_tl. rewrite H. cbv zeta.
  do 3 (eapply moved_only_trans; [|apply place_side_moved]). apply place_side_moved.
Qed.

Lemma moved_only_from_handle vs h q q' :
  moved_only vs q q' -> qdwin_toplevel_from_handle h q' = qdwin_toplevel_from_handle h q.
Proof. intros [-> _]. done. Qed.

Lemma moved_only_view vs v q q' :
  moved_only vs q q' -> v ∉ vs -> view_x v q' = view_x v q /\ view_y v q' = view_y v q.
Proof. intros [_ H] Hv. unfold view_x, view_y. by rewrite H. Qed.

Lemma moved_only_outputs vs q q' : moved_only vs q q' -> same_outputs q q'.
Proof. intros [-> _]. done. Qed.

(** ** Configure extents *)

(** The fields a geometry change never touches. *)
Definition same_frame (tl tl' : toplevel) : Prop :=
  handle tl' = handle tl /\ desktop tl' = desktop tl /\ view tl' = view tl /\
  is_nested_proxy tl' = is_nested_proxy tl /\ proxy_pending tl' = proxy_pending tl /\
  tl_chrome tl' = tl_chrome tl /\ inset_n tl' = inset_n tl /\ inset_w tl' = inset_w tl /\
  inset_e tl' = inset_e tl /\ inset_s tl' = inset_s tl.

(** An update that keeps those fields. *)
Class FrameFn (f : toplevel -> toplevel) : Prop := frame_fn : ∀ t, same_frame t (f t).

#[global] Typeclasses Opaque set_outer set_saved_pos save_outer restore_outer set_tile_saved
  tile_restore_outer add_state drop_state set_tiled seed_outer note_configure.

Ltac frame := intros ?; unfold same_frame; split_and!; reflexivity.

#[global] Instance frame_set_outer w h : FrameFn (set_outer w h).
Proof. frame. Qed.
#[global] Instance frame_set_saved_pos x y : FrameFn (set_saved_pos x y).
Proof. frame. Qed.
#[global] Instance frame_save_outer : FrameFn save_outer.
Proof. frame. Qed.
#[global] Instance frame_restore_outer : FrameFn restore_outer.
Proof. frame. Qed.
#[global] Instance frame_set_tile_saved x y : FrameFn (set_tile_saved x y).
Proof. frame. Qed.
#[global] Instance frame_tile_restore_outer : FrameFn tile_restore_outer.
Proof. frame. Qed.
#[global] Instance frame_add_state b : FrameFn (add_state b).
Proof. frame. Qed.
#[global] Instance frame_drop_state b : FrameFn (drop_state b).
Proof. frame. Qed.
#[global] Instance frame_set_tiled e : FrameFn (set_tiled e).
Proof. frame. Qed.
#[global] Instance frame_seed : FrameFn seed_outer.
Proof. frame. Qed.
#[global] Instance frame_note d : FrameFn (note_configure d).
Proof. intros t. unfold note_configure. by destruct (ds_xwayland d). Qed.

(** ** Tracking one toplevel through a request *)

(** In [q] the toplevel behind [h] is [tl], its content view sits at [(x, y)],
    and outputs and reserved zones are those of [q0]. *)
Record at_geo (q0 : qdwin) (h : Z) (tl : toplevel) (x y : Z) (q : qdwin) : Prop := {
  ag_tl : qdwin_toplevel_from_handle h q = Some tl;
  ag_x : view_x (view tl) q = x;
  ag_y : view_y (view tl) q = y;
  ag_out : same_outputs q0 q
}.
#[global] Arguments ag_tl {q0 h tl x y q}.
#[global] Arguments ag_x {q0 h tl x y q}.
#[global] Arguments ag_y {q0 h tl x y q}.
#[global] Arguments ag_out {q0 h tl x y q}.

(** [apply_inset] on a toplevel with desktop surface [d]; saving; restoring. *)
Definition inset_tl (d : desktop_surface) (tl : toplevel) : toplevel :=
  note_configure d (seed_outer tl).
Definition saved_tl (x y : Z) (tl : toplevel) : toplevel :=
  save_outer (seed_outer (set_saved_pos x y tl)).
Definition restored_tl (d : desktop_surface) (tl : toplevel) : toplevel :=
  inset_tl d (restore_outer tl).

#[global] Typeclasses Opaque inset_tl saved_tl restored_tl.

Lemma same_frame_trans t1 t2 t3 : same_frame t1 t2 -> same_frame t2 t3 -> same_frame t1 t3.
Proof. unfold same_frame. intuition congruence. Qed.

#[global] Instance frame_inset d : FrameFn (inset_tl d).
Proof. intros t. eapply same_frame_trans; [apply frame_seed|apply frame_note]. Qed.
#[global] Instance frame_saved x y : FrameFn (saved_tl x y).
Proof.
  intros t. eapply same_frame_trans; [apply (frame_set_saved_pos x y)|].
  eapply same_frame_trans; [apply frame_seed|apply frame_save_outer].
Qed.
#[global] Instance frame_restored d : FrameFn (restored_tl d).
Proof. intros t. eapply same_frame_trans; [apply frame_restore_outer|apply frame_inset]. Qed.

(** A toplevel backed by the desktop surface [d], its view apart from its
    chrome. *)
Definition backed (d : desktop_surface) (tl : toplevel) : Prop :=
  desktop tl = Some d /\ is_nested_proxy tl = false /\ view tl ∉ chrome_views tl.

Lemma backed_fn d f `{!FrameFn f} tl : backed d tl -> backed d (f tl).
Proof.
  unfold backed, chrome_views. destruct (frame_fn (f := f) tl) as (?&?&Hv&?&?&Hc&_).
  intros (?&?&?). rewrite Hv, Hc. split_and!; congruence.
Qed.

Lemma frame_view f `{!FrameFn f} tl : view (f tl) = view tl.
Proof. apply (frame_fn (f := f) tl). Qed.
Lemma frame_handle f `{!FrameFn f} tl : handle (f tl) = handle tl.
Proof. apply (frame_fn (f := f) tl). Qed.
Lemma frame_desktop f `{!FrameFn f} tl : desktop (f tl) = desktop tl.
Proof. apply (frame_fn (f := f) tl). Qed.

Lemma frame_insets f `{!FrameFn f} tl :
  inset_w (f tl) = inset_w tl /\ inset_n (f tl) = inset_n tl.
Proof. destruct (frame_fn (f := f) tl) as (_&_&_&_&_&_&?&?&_). done. Qed.
Lemma frame_pending f `{!FrameFn f} tl : proxy_pending (f tl) = proxy_pending tl.
Proof. apply (frame_fn (f := f) tl). Qed.

Section Tracking.
Context (q0 : qdwin) (h : Z).

Lemma at_init q tl :
  qdwin_toplevel_from_handle h q = Some tl ->
  at_geo q h tl (view_x (view tl) q) (view_y (view tl) q) q.
Proof. by split. Qed.

Lemma at_upd f `{!FrameFn f} tl x y q :
  at_geo q0 h tl x y q -> at_geo q0 h (f tl) x y (upd_tl h f q).
Proof.
  intros [H1 H2 H3 H4]. split; [| | |done].
  - rewrite from_handle_upd_eq; [by rewrite H1|]. intros. by apply frame_handle.
  - by rewrite view_x_upd, frame_view.
  - by rewrite view_y_upd, frame_view.
Qed.

Lemma at_emit e tl x y q : at_geo q0 h tl x y q -> at_geo q0 h tl x y (emit e q).
Proof. intros [H1 H2 H3 H4]. by split. Qed.

Lemma at_send n e tl x y q : at_geo q0 h tl x y q -> at_geo q0 h tl x y (shell_send n e q).
Proof. unfold shell_send. destruct (shell_version_ge n q); [apply at_emit|done]. Qed.

Lemma at_send_state tl x y q :
  at_geo q0 h tl x y q -> at_geo q0 h tl x y (qdwin_send_toplevel_state h q).
Proof.
  intros H. unfold qdwin_send_toplevel_state, with_tl. rewrite (ag_tl H).
  by apply at_send.
Qed.

Lemma at_position x' y' tl x y q :
  at_geo q0 h tl x y q -> at_geo q0 h tl x' y' (set_tl_position h x' y' q).
Proof.
  intros [H1 H2 H3 H4]. unfold set_tl_position, with_tl. rewrite H1. split.
  - by rewrite from_handle_pos.
  - by rewrite view_x_set, decide_True.
  - by rewrite view_y_set, decide_True.
  - done.
Qed.

Lemma at_chrome d tl x y q :
  backed d tl ->
  at_geo q0 h tl x y q -> at_geo q0 h tl x y (qdwin_toplevel_position_chrome h q).
Proof.
  intros (_&_&Hc) [H1 H2 H3 H4]. pose proof (position_chrome_moved _ _ _ H1) as Hm.
  destruct (moved_only_view _ _ _ _ Hm Hc) as [Hx Hy]. split.
  - by rewrite (moved_only_from_handle _ _ _ _ Hm).
  - congruence.
  - congruence.
  - eapply same_outputs_trans; [done|]. by eapply moved_only_outputs.
Qed.

Lemma at_inset d tl x y q :
  backed d tl -> at_geo q0 h tl x y q ->
  at_geo q0 h (inset_tl d tl) x y (qdwin_toplevel_apply_inset h q).
Proof.
  intros (Hd & Hp & _) H. unfold qdwin_toplevel_apply_inset, with_tl at 1.
  rewrite (ag_tl H), Hp.
  assert (H' : at_geo q0 h (seed_outer tl) x y
                 (qdwin_toplevel_seed_outer_from_committed h q)).
  { apply (at_upd seed_outer); done. }
  unfold with_tl. rewrite (ag_tl H'), (frame_desktop seed_outer), Hd.
  destruct (configure_extent _ _) as [cw ch]. apply at_emit.
  by apply (at_upd (note_configure d)).
Qed.

Lemma at_resize d w ht e tl x y q :
  backed d tl -> at_geo q0 h tl x y q ->
  at_geo q0 h tl x y (resize_proxy_or h w ht e q).
Proof.
  intros (_ & Hp & _) H. unfold resize_proxy_or, with_tl.
  rewrite (ag_tl H), Hp. by apply at_emit.
Qed.

Lemma at_save tl x y q :
  at_geo q0 h tl x y q -> at_geo q0 h (saved_tl x y tl) x y (save_geometry h q).
Proof.
  intros H. unfold save_geometry, with_tl. rewrite (ag_tl H). cbv zeta.
  rewrite (ag_x H), (ag_y H). unfold saved_tl.
  unfold qdwin_toplevel_seed_outer_from_committed.
  exact (at_upd save_outer _ _ _ _
           (at_upd seed_outer _ _ _ _ (at_upd (set_saved_pos x y) _ _ _ _ H))).
Qed.

Lemma at_restore d e tl x y q :
  backed d tl -> at_geo q0 h tl x y q ->
  at_geo q0 h (restored_tl d tl) (saved_x tl) (saved_y tl) (restore_geometry h e q).
Proof.
  intros Hb H. unfold restore_geometry, with_tl. rewrite (ag_tl H).
  apply (at_chrome d); [by apply (backed_fn d (restored_tl d))|].
  apply at_inset; [by apply (backed_fn d restore_outer)|].
  apply (at_position _ _ _ x y), (at_upd restore_outer). by apply (at_resize d).
Qed.
End Tracking.

(** ** Extents and saved slots *)

Definition outer (tl : toplevel) : Z * Z := (outer_width tl, outer_height tl).
Definition restore_slots (tl : toplevel) : Z * Z * (Z * Z) :=
  (saved_x tl, saved_y tl, (saved_outer_w tl, saved_outer_h tl)).
Definition tile_slots (tl : toplevel) : Z * (Z * Z * (Z * Z)) :=
  (tiled tl, (tile_saved_x tl, tile_saved_y tl, (tile_saved_outer_w tl, tile_saved_outer_h tl))).

Lemma note_slots d tl :
  outer (note_configure d tl) = outer tl /\ restore_slots (note_configure d tl) = restore_slots tl
  /\ tile_slots (note_configure d tl) = tile_slots tl /\ state (note_configure d tl) = state tl.
Proof. unfold note_configure. by destruct (ds_xwayland d). Qed.

Lemma inset_slots d tl :
  outer (inset_tl d tl) = seed_dims tl /\ restore_slots (inset_tl d tl) = restore_slots tl
  /\ tile_slots (inset_tl d tl) = tile_slots tl /\ state (inset_tl d tl) = state tl.
Proof.
  unfold inset_tl. destruct (note_slots d (seed_outer tl)) as (-> & -> & -> & ->).
  unfold outer. split_and!; try done.
  change (((seed_dims tl).1, (seed_dims tl).2) = seed_dims tl).
  by destruct (seed_dims tl).
Qed.

Lemma restore_outer_slots tl :
  outer_width (restore_outer tl) = saved_outer_w tl /\
  outer_height (restore_outer tl) = saved_outer_h tl /\
  restore_slots (restore_outer tl) = restore_slots tl /\
  tile_slots (restore_outer tl) = tile_slots tl /\ state (restore_outer tl) = state tl.
Proof. split_and!; reflexivity. Qed.

Lemma set_outer_slots w ht tl :
  outer_width (set_outer w ht tl) = w /\ outer_height (set_outer w ht tl) = ht /\
  restore_slots (set_outer w ht tl) = restore_slots tl /\
  tile_slots (set_outer w ht tl) = tile_slots tl /\ state (set_outer w ht tl) = state tl.
Proof. split_and!; reflexivity. Qed.

Lemma add_state_slots bit tl :
  outer (add_state bit tl) = outer tl /\
  restore_slots (add_state bit tl) = restore_slots tl /\
  tile_slots (add_state bit tl) = tile_slots tl /\
  state (add_state bit tl) = ts_set (state tl) bit.
Proof. split_and!; reflexivity. Qed.

Lemma drop_state_slots bit tl :
  outer (drop_state bit tl) = outer tl /\
  restore_slots (drop_state bit tl) = restore_slots tl /\
  tile_slots (drop_state bit tl) = tile_slots tl /\
  state (drop_state bit tl) = ts_clear (state tl) bit.
Proof. split_and!; reflexivity. Qed.

Lemma saved_slots x y tl :
  outer (saved_tl x y tl) = seed_dims tl /\
  restore_slots (saved_tl x y tl) = (x, y, seed_dims tl) /\
  tile_slots (saved_tl x y tl) = tile_slots tl /\ state (saved_tl x y tl) = state tl.
Proof.
  assert (Hd : seed_dims (set_saved_pos x y tl) = seed_dims tl) by by destruct tl.
  split_and!; try done; rewrite <- Hd at 2 || rewrite <- Hd; unfold outer, restore_slots.
  - change (((seed_dims (set_saved_pos x y tl)).1, (seed_dims (set_saved_pos x y tl)).2)
            = seed_dims (set_saved_pos x y tl)). by destruct (seed_dims _).
  - change ((x, y, ((seed_dims (set_saved_pos x y tl)).1, (seed_dims (set_saved_pos x y tl)).2))
            = (x, y, seed_dims (set_saved_pos x y tl))). by destruct (seed_dims _).
Qed.

Lemma seed_dims_id tl :
  0 < outer_width tl -> 0 < outer_height tl -> seed_dims tl = outer tl.
Proof.
  intros Hw Hh. unfold seed_dims.
  destruct (Z.ltb_spec 0 (outer_width tl)), (Z.ltb_spec 0 (outer_height tl)); done || lia.
Qed.

(** The outer extent the seeding settles on is positive whenever the insets
    are not negative. *)
Lemma seed_dims_positive tl :
  0 <= inset_n tl -> 0 <= inset_e tl -> 0 <= inset_s tl -> 0 <= inset_w tl ->
  0 < fst (seed_dims tl) /\ 0 < snd (seed_dims tl).
Proof.
  intros. unfold seed_dims, pos_or.
  destruct (Z.ltb_spec 0 (outer_width tl)), (Z.ltb_spec 0 (outer_height tl));
    cbn [andb fst snd]; try lia;
  (destruct (is_nested_proxy tl); cbn [fst snd]; [repeat (split_match; zbool); lia|]);
  (destruct (desktop tl); cbn [fst snd]; repeat (split_match; zbool); lia).
Qed.

Lemma work_area_positive out q :
  1 <= rw (qdwin_output_work_area out q) /\ 1 <= rh (qdwin_output_work_area out q).
Proof. unfold qdwin_output_work_area; cbn [rw rh]. zcrush. Qed.

(** ** Maximise and fullscreen step by step *)

Section Special.
Context (d : desktop_surface).

(** The toplevel after entering a state that fills [w] by [ht]. *)
Definition filled_tl (bit w ht x y : Z) (tl : toplevel) : toplevel :=
  add_state bit (inset_tl d (set_outer w ht (saved_tl x y tl))).
Definition unfilled_tl (bit : Z) (tl : toplevel) : toplevel :=
  drop_state bit (restored_tl d tl).

#[global] Typeclasses Opaque filled_tl unfilled_tl.

#[global] Instance frame_filled bit w ht x y : FrameFn (filled_tl bit w ht x y).
Proof.
  intros t. eapply same_frame_trans; [apply (frame_saved x y)|].
  eapply same_frame_trans; [apply (frame_set_outer w ht)|].
  eapply same_frame_trans; [apply (frame_inset d)|apply (frame_add_state bit)].
Qed.
#[global] Instance frame_unfilled bit : FrameFn (unfilled_tl bit).
Proof.
  intros t. eapply same_frame_trans; [apply (frame_restored d)|apply (frame_drop_state bit)].
Qed.

Lemma filled_slots bit w ht x y tl :
  1 <= w -> 1 <= ht ->
  outer (filled_tl bit w ht x y tl) = (w, ht) /\
  restore_slots (filled_tl bit w ht x y tl) = (x, y, seed_dims tl) /\
  tile_slots (filled_tl bit w ht x y tl) = tile_slots tl /\
  state (filled_tl bit w ht x y tl) = ts_set (state tl) bit.
Proof.
  intros Hw Hh. destruct (saved_slots x y tl) as (_ & S2 & S3 & S4).
  unfold filled_tl. set (t := saved_tl x y tl) in *. clearbody t.
  destruct (set_outer_slots w ht t) as (R1 & R2 & R3 & R4 & R5).
  set (r := set_outer w ht t) in *. clearbody r.
  destruct (inset_slots d r) as (I1 & I2 & I3 & I4).
  rewrite seed_dims_id in I1 by (rewrite ?R1, ?R2; lia).
  destruct (add_state_slots bit (inset_tl d r)) as (-> & -> & -> & ->).
  rewrite I1, I2, I3, I4, R3, R4, R5, S2, S3, S4. unfold outer. rewrite R1, R2.
  split_and!; reflexivity.
Qed.

Lemma unfilled_slots bit tl :
  0 < saved_outer_w tl -> 0 < saved_outer_h tl ->
  outer (unfilled_tl bit tl) = (saved_outer_w tl, saved_outer_h tl) /\
  restore_slots (unfilled_tl bit tl) = restore_slots tl /\
  tile_slots (unfilled_tl bit tl) = tile_slots tl /\
  state (unfilled_tl bit tl) = ts_clear (state tl) bit.
Proof.
  intros Hw Hh. destruct (restore_outer_slots tl) as (R1 & R2 & R3 & R4 & R5).
  unfold unfilled_tl, restored_tl. set (r := restore_outer tl) in *. clearbody r.
  destruct (inset_slots d r) as (I1 & I2 & I3 & I4).
  rewrite seed_dims_id in I1 by (rewrite ?R1, ?R2; assumption).
  destruct (drop_state_slots bit (inset_tl d r)) as (-> & -> & -> & ->).
  rewrite I1, I2, I3, I4, R3, R4, R5. unfold outer. rewrite R1, R2. split_and!; reflexivity.
Qed.

Context (q : qdwin) (h : Z) (out : output).
Hypothesis (Hout : qdwin_primary_output q = Some out).

Abbreviation wa := (qdwin_output_work_area out q).

Lemma at_maximize tl x y q1 :
  backed d tl -> proxy_pending tl = false ->
  ts_has (state tl) QDWIN_TS_MAXIMIZED = false -> at_geo q h tl x y q1 ->
  at_geo q h (filled_tl QDWIN_TS_MAXIMIZED (rw wa) (rh wa) x y tl)
    (rx wa + inset_w tl) (ry wa + inset_n tl) (qdwin_toplevel_set_maximized h true q1).
Proof.
  intros Hb Hp Hm H. unfold qdwin_toplevel_set_maximized, with_tl.
  rewrite (ag_tl H), Hp, Hm. cbn [Bool.eqb].
  rewrite (primary_same q q1), Hout by apply (ag_out H). cbv zeta.
  rewrite (work_area_same q q1) by apply (ag_out H).
  apply at_send_state, (at_upd _ _ (add_state _)).
  assert (Hb' : backed d (set_outer (rw wa) (rh wa) (saved_tl x y tl)))
    by by apply (backed_fn d (set_outer _ _)), (backed_fn d (saved_tl x y)).
  apply (at_chrome _ _ d); [by apply (backed_fn d (inset_tl d))|].
  apply at_inset; [done|]. apply (at_position _ _ _ _ _ x y), (at_resize _ _ d); [done|].
  apply (at_upd _ _ (set_outer _ _)). by apply at_save.
Qed.

Lemma at_unmaximize tl x y q1 :
  backed d tl -> proxy_pending tl = false ->
  ts_has (state tl) QDWIN_TS_MAXIMIZED = true -> at_geo q h tl x y q1 ->
  at_geo q h (unfilled_tl QDWIN_TS_MAXIMIZED tl)
    (saved_x tl) (saved_y tl) (qdwin_toplevel_set_maximized h false q1).
Proof.
  intros Hb Hp Hm H. unfold qdwin_toplevel_set_maximized, with_tl.
  rewrite (ag_tl H), Hp, Hm. cbn [Bool.eqb].
  apply at_send_state, (at_upd _ _ (drop_state _)). by eapply at_restore.
Qed.

Lemma at_fullscreen tl x y q1 :
  backed d tl -> proxy_pending tl = false ->
  ts_has (state tl) QDWIN_TS_FULLSCREEN = false -> at_geo q h tl x y q1 ->
  at_geo q h (filled_tl QDWIN_TS_FULLSCREEN (out_width out) (out_height out) x y tl)
    (out_x out + inset_w tl) (out_y out + inset_n tl)
    (qdwin_toplevel_set_fullscreen h true None q1).
Proof.
  intros Hb Hp Hm H. unfold qdwin_toplevel_set_fullscreen, with_tl.
  rewrite (ag_tl H), Hp, Hm. cbn [Bool.eqb].
  rewrite (primary_same q q1), Hout by apply (ag_out H).
  apply at_send_state, (at_upd _ _ (add_state _)).
  assert (H1 : at_geo q h (saved_tl x y tl) x y (save_geometry h q1)) by by apply at_save.
  unfold qdwin_toplevel_apply_fullscreen_geometry, with_tl. rewrite (ag_tl H1).
  assert (Hb' : backed d (set_outer (out_width out) (out_height out) (saved_tl x y tl)))
    by by apply (backed_fn d (set_outer _ _)), (backed_fn d (saved_tl x y)).
  apply (at_chrome _ _ d); [by apply (backed_fn d (inset_tl d))|].
  apply at_inset; [done|]. apply (at_position _ _ _ _ _ x y), (at_resize _ _ d); [done|].
  by apply (at_upd _ _ (set_outer _ _)).
Qed.

Lemma at_unfullscreen tl x y q1 :
  backed d tl -> proxy_pending tl = false ->
  ts_has (state tl) QDWIN_TS_FULLSCREEN = true -> at_geo q h tl x y q1 ->
  at_geo q h (unfilled_tl QDWIN_TS_FULLSCREEN tl)
    (saved_x tl) (saved_y tl) (qdwin_toplevel_set_fullscreen h false None q1).
Proof.
  intros Hb Hp Hm H. unfold qdwin_toplevel_set_fullscreen, with_tl.
  rewrite (ag_tl H), Hp, Hm. cbn [Bool.eqb].
  apply at_send_state, (at_upd _ _ (drop_state _)). by eapply at_restore.
Qed.
End Special.

(** ** Combined steps *)

Section Steps.
Context (d : desktop_surface) (q : qdwin) (h : Z) (out : output).
Hypothesis (Hout : qdwin_primary_output q = Some out).

Abbreviation wa := (qdwin_output_work_area out q).

Lemma maximize_step tl x y q1 :
  backed d tl -> proxy_pending tl = false ->
  ts_has (state tl) QDWIN_TS_MAXIMIZED = false -> at_geo q h tl x y q1 ->
  exists t1, at_geo q h t1 (rx wa + inset_w tl) (ry wa + inset_n tl)
               (qdwin_toplevel_set_maximized h true q1) /\
    backed d t1 /\ proxy_pending t1 = false /\ outer t1 = (rw wa, rh wa) /\
    restore_slots t1 = (x, y, seed_dims tl) /\
    state t1 = ts_set (state tl) QDWIN_TS_MAXIMIZED.
Proof.
  intros Hb Hp Hm H. destruct (work_area_positive out q) as [Hw Hh].
  destruct (filled_slots d QDWIN_TS_MAXIMIZED _ _ x y tl Hw Hh) as (S1 & S2 & S3 & S4).
  eexists. split; [exact (at_maximize d q h out Hout _ _ _ _ Hb Hp Hm H)|].
  split_and!; try done; [by apply (backed_fn d (filled_tl d _ _ _ _ _))|].
  rewrite <- Hp. apply (frame_pending (filled_tl d _ _ _ _ _)).
Qed.

(** In and out of fullscreen: the view returns, and the restore slot now
    holds the geometry the window had before. *)
Lemma fullscreen_roundtrip tl x y q1 :
  backed d tl -> proxy_pending tl = false ->
  ts_has (state tl) QDWIN_TS_FULLSCREEN = false -> at_geo q h tl x y q1 ->
  1 <= out_width out -> 1 <= out_height out ->
  0 < outer_width tl -> 0 < outer_height tl ->
  exists t2, at_geo q h t2 x y (qdwin_toplevel_set_fullscreen h false None
                                  (qdwin_toplevel_set_fullscreen h true None q1)) /\
    backed d t2 /\ proxy_pending t2 = false /\
    restore_slots t2 = (x, y, outer tl) /\ state t2 = state tl.
Proof.
  intros Hb Hp Hf H How Hoh Hw Hh.
  assert (H2 := at_fullscreen d q h out Hout _ _ _ _ Hb Hp Hf H).
  destruct (filled_slots d QDWIN_TS_FULLSCREEN _ _ x y tl How Hoh) as (_ & T2 & _ & T4).
  assert (Hb2 := backed_fn d (filled_tl d QDWIN_TS_FULLSCREEN (out_width out)
                                (out_height out) x y) tl Hb).
  assert (Hp2 := frame_pending (filled_tl d QDWIN_TS_FULLSCREEN (out_width out)
                                  (out_height out) x y) tl).
  set (t2 := filled_tl _ _ _ _ _ _ _) in *. clearbody t2. rewrite Hp in Hp2.
  rewrite seed_dims_id in T2 by done. assert (T2' := T2).
  unfold restore_slots, outer in T2. injection T2 as X1 X2 X3 X4.
  assert (Hf2 : ts_has (state t2) QDWIN_TS_FULLSCREEN = true) by by rewrite T4, ts_has_set.
  assert (H3 := at_unfullscreen d q h _ _ _ _ Hb2 Hp2 Hf2 H2). rewrite X1, X2 in H3.
  destruct (unfilled_slots d QDWIN_TS_FULLSCREEN t2) as (_ & U2 & _ & U4); [lia|lia|].
  eexists. split; [exact H3|]. rewrite U2, U4, T4, ts_clear_set by done.
  split_and!; try done; [by apply (backed_fn d (unfilled_tl d _))|].
  rewrite <- Hp2. apply (frame_pending (unfilled_tl d _)).
Qed.
End Steps.

(** ** Tiling step by step *)

Section Tiling.
Context (d : desktop_surface) (q : qdwin) (h : Z).

Definition tile_saved_tl (x y : Z) (tl : toplevel) : toplevel :=
  if tiled tl =? QDWIN_TILE_NONE then set_tile_saved x y (seed_outer tl) else tl.
Definition tile_width (edge : Z) (wa : rect) : Z :=
  if edge =? QDWIN_TILE_RIGHT then rw wa - cdiv (rw wa) 2 else cdiv (rw wa) 2.
Definition tile_x (edge : Z) (wa : rect) : Z :=
  if edge =? QDWIN_TILE_RIGHT then rx wa + cdiv (rw wa) 2 else rx wa.
Definition tiled_tl (edge : Z) (wa : rect) (tl : toplevel) : toplevel :=
  set_tiled edge (inset_tl d (set_outer (tile_width edge wa) (rh wa) tl)).
Definition untiled_tl (tl : toplevel) : toplevel :=
  set_tiled QDWIN_TILE_NONE (inset_tl d (tile_restore_outer tl)).

#[global] Typeclasses Opaque tile_saved_tl tiled_tl untiled_tl.

#[global] Instance frame_tile_saved x y : FrameFn (tile_saved_tl x y).
Proof. intros t. unfold tile_saved_tl. by destruct (tiled t =? QDWIN_TILE_NONE). Qed.
#[global] Instance frame_tiled edge wa : FrameFn (tiled_tl edge wa).
Proof.
  intros t. eapply same_frame_trans; [apply (frame_set_outer (tile_width edge wa) (rh wa))|].
  eapply same_frame_trans; [apply (frame_inset d)|apply (frame_set_tiled edge)].
Qed.

Lemma at_tile_save tl x y q1 :
  at_geo q h tl x y q1 -> at_geo q h (tile_saved_tl x y tl) x y (tile_save h q1).
Proof.
  intros H. unfold tile_save, with_tl, tile_saved_tl. rewrite (ag_tl H).
  destruct (tiled tl =? QDWIN_TILE_NONE); [|done]. cbv zeta. rewrite (ag_x H), (ag_y H).
  unfold qdwin_toplevel_seed_outer_from_committed.
  exact (at_upd _ _ (set_tile_saved x y) _ _ _ _ (at_upd _ _ seed_outer _ _ _ _ H)).
Qed.

Lemma at_resize_tiled tl x y q1 :
  backed d tl -> at_geo q h tl x y q1 -> at_geo q h (inset_tl d tl) x y (resize_tiled h q1).
Proof.
  intros Hb H. unfold resize_tiled, with_tl. rewrite (ag_tl H).
  destruct Hb as (Hd & Hp & Hc). rewrite Hp. by apply at_inset.
Qed.

Lemma at_tile_place edge out tl x y q1 :
  backed d tl -> at_geo q h tl x y q1 ->
  let wa := qdwin_output_work_area out q in
  at_geo q h (tiled_tl edge wa tl) (tile_x edge wa + inset_w tl) (ry wa + inset_n tl)
    (tile_place h edge out q1).
Proof.
  intros Hb H wa. unfold tile_place, with_tl. rewrite (ag_tl H). cbv zeta.
  rewrite (work_area_same q q1) by apply (ag_out H). fold wa (tile_width edge wa) (tile_x edge wa).
  unfold tiled_tl. apply (at_upd _ _ (set_tiled edge)).
  assert (Hb' : backed d (set_outer (tile_width edge wa) (rh wa) tl))
    by by apply (backed_fn d (set_outer _ _)).
  apply (at_chrome _ _ d); [by apply (backed_fn d (inset_tl d))|].
  apply at_resize_tiled; [done|]. apply (at_position _ _ _ _ _ x y).
  by apply (at_upd _ _ (set_outer _ _)).
Qed.

Lemma at_tile_restore tl x y q1 :
  backed d tl -> at_geo q h tl x y q1 ->
  at_geo q h (untiled_tl tl) (tile_saved_x tl) (tile_saved_y tl) (tile_restore h q1).
Proof.
  intros Hb H. unfold tile_restore, with_tl. rewrite (ag_tl H).
  unfold untiled_tl. apply (at_upd _ _ (set_tiled _)).
  assert (Hb' : backed d (tile_restore_outer tl)) by by apply (backed_fn d tile_restore_outer).
  apply (at_chrome _ _ d); [by apply (backed_fn d (inset_tl d))|].
  apply at_resize_tiled; [done|]. apply (at_position _ _ _ _ _ x y).
  by apply (at_upd _ _ tile_restore_outer).
Qed.

(** Tiling a window that is neither maximised nor fullscreen. *)
Lemma at_set_tiled edge tl x y q1 :
  edge = QDWIN_TILE_LEFT \/ edge = QDWIN_TILE_RIGHT ->
  backed d tl -> proxy_pending tl = false ->
  ts_has (state tl) QDWIN_TS_MAXIMIZED = false ->
  ts_has (state tl) QDWIN_TS_FULLSCREEN = false ->
  at_geo q h tl x y q1 ->
  ∀ out, qdwin_output_at_global x y q1 = Some out ->
  let wa := qdwin_output_work_area out q in
  at_geo q h (tiled_tl edge wa (tile_saved_tl x y tl))
    (tile_x edge wa + inset_w tl) (ry wa + inset_n tl) (qdwin_toplevel_set_tiled h edge q1).
Proof.
  intros Hedge Hb Hp Hm Hf H out Ho wa. unfold qdwin_toplevel_set_tiled, with_tl.
  rewrite (ag_tl H), Hp.
  assert (He : (if negb (edge =? QDWIN_TILE_LEFT) && negb (edge =? QDWIN_TILE_RIGHT)
                then QDWIN_TILE_NONE else edge) = edge /\ (edge =? QDWIN_TILE_NONE) = false).
  { destruct Hedge as [-> | ->]; done. }
  destruct He as [-> ->]. unfold leave_special_state, with_tl.
  rewrite (ag_tl H), Hm, (ag_tl H), Hf, (ag_tl H), (ag_x H), (ag_y H), Ho.
  assert (Ht := at_tile_save _ _ _ _ H).
  assert (Hb' : backed d (tile_saved_tl x y tl)) by by apply (backed_fn d (tile_saved_tl x y)).
  assert (Hr := at_tile_place edge out _ _ _ _ Hb' Ht).
  destruct (frame_insets (tile_saved_tl x y) tl) as [Hi1 Hi2]. cbv zeta in Hr. rewrite Hi1, Hi2 in Hr. exact Hr.
Qed.
End Tiling.

Lemma set_tiled_slots e tl :
  outer (set_tiled e tl) = outer tl /\ restore_slots (set_tiled e tl) = restore_slots tl /\
  tile_slots (set_tiled e tl) = (e, snd (tile_slots tl)) /\ state (set_tiled e tl) = state tl.
Proof. split_and!; reflexivity. Qed.

Lemma tile_saved_slots x y tl :
  tiled tl = QDWIN_TILE_NONE ->
  tile_slots (tile_saved_tl x y tl) = (QDWIN_TILE_NONE, (x, y, seed_dims tl)) /\
  state (tile_saved_tl x y tl) = state tl.
Proof.
  intros Ht. unfold tile_saved_tl. rewrite Ht. cbn [Z.eqb QDWIN_TILE_NONE].
  split; [|reflexivity].
  transitivity (tiled tl, (x, y, ((seed_dims tl).1, (seed_dims tl).2))); [reflexivity|].
  rewrite Ht. by destruct (seed_dims tl).
Qed.

Lemma tiled_slots d edge wa tl :
  1 <= tile_width edge wa -> 1 <= rh wa ->
  outer (tiled_tl d edge wa tl) = (tile_width edge wa, rh wa) /\
  tile_slots (tiled_tl d edge wa tl) = (edge, snd (tile_slots tl)) /\
  state (tiled_tl d edge wa tl) = state tl.
Proof.
  intros Hw Hh. unfold tiled_tl.
  destruct (set_outer_slots (tile_width edge wa) (rh wa) tl) as (R1 & R2 & _ & R4 & R5).
  set (r := set_outer _ _ tl) in *. clearbody r.
  destruct (inset_slots d r) as (I1 & _ & I3 & I4).
  rewrite seed_dims_id in I1 by (rewrite ?R1, ?R2; lia).
  destruct (set_tiled_slots edge (inset_tl d r)) as (-> & _ & -> & ->).
  rewrite I1, I3, I4, R4, R5. unfold outer. rewrite R1, R2. done.
Qed.

Lemma tile_restore_outer_slots tl :
  outer_width (tile_restore_outer tl) = tile_saved_outer_w tl /\
  outer_height (tile_restore_outer tl) = tile_saved_outer_h tl /\
  tile_slots (tile_restore_outer tl) = tile_slots tl /\
  state (tile_restore_outer tl) = state tl.
Proof. split_and!; reflexivity. Qed.

Lemma untiled_slots d tl :
  0 < tile_saved_outer_w tl -> 0 < tile_saved_outer_h tl ->
  outer (untiled_tl d tl) = (tile_saved_outer_w tl, tile_saved_outer_h tl) /\
  tile_slots (untiled_tl d tl) = (QDWIN_TILE_NONE, snd (tile_slots tl)) /\
  state (untiled_tl d tl) = state tl.
Proof.
  intros Hw Hh. unfold untiled_tl.
  destruct (tile_restore_outer_slots tl) as (R1 & R2 & R4 & R5).
  set (r := tile_restore_outer tl) in *. clearbody r.
  destruct (inset_slots d r) as (I1 & _ & I3 & I4).
  rewrite seed_dims_id in I1 by (rewrite ?R1, ?R2; lia).
  destruct (set_tiled_slots QDWIN_TILE_NONE (inset_tl d r)) as (-> & _ & -> & ->).
  rewrite I1, I3, I4, R4, R5. unfold outer. rewrite R1, R2. done.
Qed.

(** ** Properties *)

Lemma ts_has_set_other st b c : Z.land b c = 0 -> ts_has (ts_set st b) c = ts_has st c.
Proof.
  intros Hd. unfold ts_has, ts_set, has_bits. do 2 f_equal.
  by rewrite Z.land_lor_distr_l, Hd, Z.lor_0_r.
Qed.

Definition insets_ok (tl : toplevel) : Prop :=
  0 <= inset_n tl /\ 0 <= inset_e tl /\ 0 <= inset_s tl /\ 0 <= inset_w tl.

(** A floating window of 300 by 200 at (50, 60) on a 1920 by 1080 output. *)
Definition ex_output : output := mk_output 1 0 0 1920 1080 false "DP-1".
Definition ex_dsurf : desktop_surface :=
  mk_dsurf 100 300 200 true 300 200 (Some 7) 700 1000 None false "app" "title" "".
Definition ex_toplevel : toplevel :=
  mk_toplevel 1 (Some ex_dsurf) 11 true true 300 200 false false false None 0 None "" "" 0 None
    24 2 2 2 304 226 0 0 0 0 0 0 0 0 0 false 0 0 None 0 0 0 0 0 0 0 0 0
    [no_chrome; no_chrome; no_chrome; no_chrome] "title" "app".
Definition ex_qdwin : qdwin :=
  (wet_shell_init [ex_output] [] 1000)
    <| toplevels := [ex_toplevel] |> <| next_handle := 1 |> <| next_view := 12 |>
    <| view_pos := {[ 11 := (50, 60) ]} |>
    <| layer_surfaces := [mk_layer_surface true None 13 40 0 0 0 0 0] |>
    ~> on_scene (weston_view_move_to_layer 11 normal_layer).

Lemma ex_backed : backed ex_dsurf ex_toplevel.
Proof. split_and!; [done|done|]. apply not_elem_of_nil. Qed.

(** C11.  Maximise and restore are inverse.  A window that is not maximised fills
    exactly the work area once maximised (its chrome's outer rectangle starts
    at the work area's corner), and un-maximising puts the content view back
    where it was, with the outer extent it had, the same state bits and the
    same tile. *)
Theorem maximize_restore_roundtrip (d : desktop_surface) (q : qdwin) (h : Z)
    (tl : toplevel) (out : output) :
  qdwin_toplevel_from_handle h q = Some tl -> backed d tl -> proxy_pending tl = false ->
  insets_ok tl -> ts_has (state tl) QDWIN_TS_MAXIMIZED = false ->
  qdwin_primary_output q = Some out ->
  let wa := qdwin_output_work_area out q in
  let q1 := qdwin_toplevel_set_maximized h true q in
  let q2 := qdwin_toplevel_set_maximized h false q1 in
  (exists t1, at_geo q h t1 (rx wa + inset_w tl) (ry wa + inset_n tl) q1 /\
     outer t1 = (rw wa, rh wa) /\ ts_has (state t1) QDWIN_TS_MAXIMIZED = true) /\
  (exists t2, at_geo q h t2 (view_x (view tl) q) (view_y (view tl) q) q2 /\
     outer t2 = seed_dims tl /\ state t2 = state tl /\ tile_slots t2 = tile_slots tl).
Proof.
  intros Htl Hb Hp (Hi1 & Hi2 & Hi3 & Hi4) Hm Hout wa q1 q2.
  destruct (work_area_positive out q) as [Hw Hh]. fold wa in Hw, Hh.
  assert (H1 := at_maximize d q h out Hout _ _ _ _ Hb Hp Hm (at_init h q tl Htl)).
  set (t1 := filled_tl _ _ _ _ _ _ _) in H1. fold wa q1 in H1.
  destruct (filled_slots d QDWIN_TS_MAXIMIZED (rw wa) (rh wa) (view_x (view tl) q)
              (view_y (view tl) q) tl Hw Hh) as (S1 & S2 & S3 & S4).
  change (filled_tl _ _ _ _ _ _ _) with t1 in S1, S2, S3, S4.
  assert (Hm1 : ts_has (state t1) QDWIN_TS_MAXIMIZED = true) by by rewrite S4, ts_has_set.
  split; [by exists t1|].
  assert (Hb1 : backed d t1) by by apply (backed_fn d (filled_tl d _ _ _ _ _)).
  assert (Hp1 : proxy_pending t1 = false) by by rewrite <- Hp; apply (frame_pending (filled_tl d _ _ _ _ _)).
  assert (H2 := at_unmaximize d q h _ _ _ _ Hb1 Hp1 Hm1 H1). fold q2 in H2.
  clearbody t1. unfold restore_slots in S2. injection S2 as X1 X2 X3.
  destruct (seed_dims_positive tl Hi1 Hi2 Hi3 Hi4) as [P1 P2]. rewrite <- X3 in P1, P2.
  destruct (unfilled_slots d QDWIN_TS_MAXIMIZED t1 P1 P2) as (U1 & _ & U3 & U4).
  rewrite X1, X2 in H2. exists (unfilled_tl d QDWIN_TS_MAXIMIZED t1).
  rewrite U1, U3, U4, S3, S4, ts_clear_set by done. by rewrite X3.
Qed.

Lemma maximize_restore_roundtrip_witness :
  let wa := qdwin_output_work_area ex_output ex_qdwin in
  let q1 := qdwin_toplevel_set_maximized 1 true ex_qdwin in
  let q2 := qdwin_toplevel_set_maximized 1 false q1 in
  (exists t1, at_geo ex_qdwin 1 t1 (rx wa + 2) (ry wa + 24) q1 /\
     outer t1 = (rw wa, rh wa) /\ ts_has (state t1) QDWIN_TS_MAXIMIZED = true) /\
  (exists t2, at_geo ex_qdwin 1 t2 (view_x 11 ex_qdwin) (view_y 11 ex_qdwin) q2 /\
     outer t2 = seed_dims ex_toplevel /\ state t2 = 0 /\ tile_slots t2 = tile_slots ex_toplevel).
Proof.
  apply (maximize_restore_roundtrip ex_dsurf ex_qdwin 1 ex_toplevel ex_output);
    try reflexivity; [apply ex_backed|].
  unfold insets_ok; cbn; lia.
Defined.

(** The restore slot is shared by maximise and fullscreen: a window that is
    maximised, made fullscreen, taken out of fullscreen and un-maximised does
    not return to its floating rectangle but keeps the maximised one, whatever
    geometry it floated with. *)
Theorem maximize_fullscreen_loses_float (d : desktop_surface) (q : qdwin) (h : Z)
    (tl : toplevel) (out : output) :
  qdwin_toplevel_from_handle h q = Some tl -> backed d tl -> proxy_pending tl = false ->
  ts_has (state tl) QDWIN_TS_MAXIMIZED = false ->
  ts_has (state tl) QDWIN_TS_FULLSCREEN = false ->
  qdwin_primary_output q = Some out -> 1 <= out_width out -> 1 <= out_height out ->
  let wa := qdwin_output_work_area out q in
  let q4 := q ~> qdwin_toplevel_set_maximized h true
              ~> qdwin_toplevel_set_fullscreen h true None
              ~> qdwin_toplevel_set_fullscreen h false None
              ~> qdwin_toplevel_set_maximized h false in
  exists t4, at_geo q h t4 (rx wa + inset_w tl) (ry wa + inset_n tl) q4 /\
    outer t4 = (rw wa, rh wa) /\ state t4 = state tl.
Proof.
  intros Htl Hb Hp Hm Hf Hout How Hoh wa q4.
  destruct (work_area_positive out q) as [Hw Hh]. fold wa in Hw, Hh.
  destruct (maximize_step d q h out Hout tl _ _ q Hb Hp Hm (at_init h q tl Htl))
    as (t1 & H1 & Hb1 & Hp1 & O1 & _ & S1). fold wa in H1, O1.
  assert (Hf1 : ts_has (state t1) QDWIN_TS_FULLSCREEN = false)
    by by rewrite S1, ts_has_set_other.
  clearbody wa. injection O1 as W1 W2.
  destruct (fullscreen_roundtrip d q h out Hout t1 _ _ _ Hb1 Hp1 Hf1 H1)
    as (t3 & H3 & Hb3 & Hp3 & R3 & S3); [lia..|].
  assert (Hm3 : ts_has (state t3) QDWIN_TS_MAXIMIZED = true) by by rewrite S3, S1, ts_has_set.
  assert (H4 := at_unmaximize d q h _ _ _ _ Hb3 Hp3 Hm3 H3).
  unfold restore_slots, outer in R3. injection R3 as Y1 Y2 Y3 Y4. rewrite Y1, Y2 in H4.
  destruct (unfilled_slots d QDWIN_TS_MAXIMIZED t3) as (V1 & _ & _ & V4); [lia|lia|].
  exists (unfilled_tl d QDWIN_TS_MAXIMIZED t3).
  rewrite V1, V4, Y3, Y4, S3, S1, W1, W2, ts_clear_set by done. done.
Qed.

Lemma maximize_fullscreen_loses_float_witness :
  let wa := qdwin_output_work_area ex_output ex_qdwin in
  let q4 := ex_qdwin ~> qdwin_toplevel_set_maximized 1 true
              ~> qdwin_toplevel_set_fullscreen 1 true None
              ~> qdwin_toplevel_set_fullscreen 1 false None
              ~> qdwin_toplevel_set_maximized 1 false in
  exists t4, at_geo ex_qdwin 1 t4 (rx wa + 2) (ry wa + 24) q4 /\
    outer t4 = (rw wa, rh wa) /\ state t4 = 0.
Proof.
  apply (maximize_fullscreen_loses_float ex_dsurf ex_qdwin 1 ex_toplevel ex_output);
    try reflexivity; [apply ex_backed|cbn; lia..].
Defined.

(** The panel reflow misplaces a decorated maximised window: it puts the
    content view at the work area's corner itself, so the outer rectangle
    starts above and left of the work area by the chrome insets, where
    [set_maximized] puts it exactly at the corner. *)
Theorem panel_reflow_ignores_insets (d : desktop_surface) (q : qdwin) (tl : toplevel)
    (out : output) :
  toplevels q = [tl] -> panels q = [] -> backed d tl ->
  ts_has (state tl) QDWIN_TS_MAXIMIZED = true -> qdwin_primary_output q = Some out ->
  let wa := qdwin_output_work_area out q in
  exists t, at_geo q (handle tl) t (rx wa) (ry wa) (qdwin_panels_on_output_change q) /\
    outer t = (rw wa, rh wa) /\ inset_w t = inset_w tl /\ inset_n t = inset_n tl.
Proof.
  intros Htl Hpan Hb Hm Hout wa. unfold qdwin_panels_on_output_change.
  rewrite Hpan. cbn [foldl]. rewrite Htl. cbn [foldl]. unfold reflow_maximized. rewrite Hm, Hout. cbn [negb]. fold wa.
  assert (H0 : qdwin_toplevel_from_handle (handle tl) q = Some tl).
  { unfold qdwin_toplevel_from_handle. rewrite Htl. cbn. by rewrite Z.eqb_refl. }
  destruct (work_area_positive out q) as [Hw Hh]. fold wa in Hw, Hh. clearbody wa.
  set (so := set_outer (rw wa) (rh wa)).
  assert (H1 := at_upd _ _ so _ _ _ _ (at_init _ _ _ H0)).
  assert (Hb1 := backed_fn d so _ Hb).
  assert (H2 := at_position _ _ (rx wa) (ry wa) _ _ _ _ H1).
  replace (set_tl_position (handle tl) (rx wa) (ry wa) (upd_tl (handle tl) so q))
    with (weston_view_set_position (view tl) (rx wa) (ry wa) (upd_tl (handle tl) so q)) in H2.
  2: { unfold set_tl_position, with_tl. by rewrite (ag_tl H1). }
  assert (H3 := at_inset _ _ d _ _ _ _ Hb1 H2).
  assert (H4 := at_chrome _ _ d _ _ _ _ (backed_fn d (inset_tl d) _ Hb1) H3).
  exists (inset_tl d (so tl)). split; [exact H4|].
  destruct (frame_insets (inset_tl d) (so tl)) as [-> ->].
  destruct (inset_slots d (so tl)) as (-> & _).
  destruct (set_outer_slots (rw wa) (rh wa) tl) as (E1 & E2 & _). fold so in E1, E2.
  rewrite seed_dims_id by lia. unfold outer. rewrite E1, E2. done.
Qed.

Definition ex_maximized : qdwin := qdwin_toplevel_set_maximized 1 true ex_qdwin.

Definition ex_max_tl : toplevel := default ex_toplevel (head (toplevels ex_maximized)).

Lemma panel_reflow_ignores_insets_witness :
  let wa := qdwin_output_work_area ex_output ex_maximized in
  inset_n ex_max_tl = 24 /\
  exists t, at_geo ex_maximized (handle ex_max_tl) t (rx wa) (ry wa)
              (qdwin_panels_on_output_change ex_maximized)
    /\ outer t = (rw wa, rh wa) /\ inset_w t = inset_w ex_max_tl
    /\ inset_n t = inset_n ex_max_tl.
Proof.
  split; [reflexivity|].
  apply (panel_reflow_ignores_insets ex_dsurf ex_maximized ex_max_tl ex_output);
    try (vm_compute; reflexivity).
  split_and!; [reflexivity|reflexivity|]. vm_compute. intros H. inversion H.
Defined.

(** Fullscreen does not restack: entering fullscreen resizes and places the
    window over the whole output but leaves its view in its layer, so every
    panel, notification or layer-shell view painted above the window before is
    still painted above it. *)
Theorem fullscreen_keeps_stacking (d : desktop_surface) (q : qdwin) (h : Z)
    (tl : toplevel) (out : output) :
  qdwin_toplevel_from_handle h q = Some tl -> backed d tl -> proxy_pending tl = false ->
  ts_has (state tl) QDWIN_TS_FULLSCREEN = false -> qdwin_primary_output q = Some out ->
  1 <= out_width out -> 1 <= out_height out ->
  let q1 := qdwin_toplevel_set_fullscreen h true None q in
  (exists t, at_geo q h t (out_x out + inset_w tl) (out_y out + inset_n tl) q1 /\
     outer t = (out_width out, out_height out) /\ ts_has (state t) QDWIN_TS_FULLSCREEN = true) /\
  (forall drawable, weston_output_build_z_order_list drawable (the_scene q1)
                    = weston_output_build_z_order_list drawable (the_scene q)).
Proof.
  intros Htl Hb Hp Hf Hout How Hoh q1.
  assert (H := at_fullscreen d q h out Hout _ _ _ _ Hb Hp Hf (at_init h q tl Htl)). fold q1 in H.
  destruct (filled_slots d QDWIN_TS_FULLSCREEN _ _ (view_x (view tl) q) (view_y (view tl) q)
              tl How Hoh) as (S1 & _ & _ & S4).
  split.
  - eexists. split; [exact H|]. split; [done|]. by rewrite S4, ts_has_set.
  - intros drawable. destruct (ag_out H) as (_ & _ & _ & Hs). by rewrite Hs.
Qed.

(** A window below a panel. *)
Definition ex_paneled : qdwin :=
  on_scene (weston_view_move_to_layer 12 panel_layer) ex_qdwin.

Lemma fullscreen_keeps_stacking_witness :
  let q1 := qdwin_toplevel_set_fullscreen 1 true None ex_paneled in
  weston_output_build_z_order_list (fun _ => true) (the_scene ex_paneled) = [12; 11] /\
  (exists t, at_geo ex_paneled 1 t (0 + 2) (0 + 24) q1 /\
     outer t = (1920, 1080) /\ ts_has (state t) QDWIN_TS_FULLSCREEN = true) /\
  (forall drawable, weston_output_build_z_order_list drawable (the_scene q1)
                    = weston_output_build_z_order_list drawable (the_scene ex_paneled)).
Proof.
  split; [vm_compute; reflexivity|].
  apply (fullscreen_keeps_stacking ex_dsurf ex_paneled 1 ex_toplevel ex_output);
    try reflexivity; [apply ex_backed|cbn; lia..].
Defined.

Lemma half_width_bounds w : 2 <= w -> 1 <= cdiv w 2 < w /\ cdiv w 2 <= w - cdiv w 2.
Proof.
  unfold cdiv. intros H. rewrite Z.quot_div_nonneg by lia.
  pose proof (Z.div_mod w 2). pose proof (Z.mod_pos_bound w 2). lia.
Qed.

Lemma output_at_global_some x y q out :
  qdwin_primary_output q = Some out -> exists o, qdwin_output_at_global x y q = Some o.
Proof. intros H. unfold qdwin_output_at_global. destruct (List.find _ _); eauto. Qed.

(** Tiling left and right partitions the work area: the left tile's outer
    rectangle starts at the work area's corner, the right tile's where the left
    one ends, their widths add up to the work area's and both are as tall,
    odd widths included. *)
Theorem tile_halves_partition (d : desktop_surface) (q : qdwin) (h : Z)
    (tl : toplevel) (out : output) :
  qdwin_toplevel_from_handle h q = Some tl -> backed d tl -> proxy_pending tl = false ->
  ts_has (state tl) QDWIN_TS_MAXIMIZED = false ->
  ts_has (state tl) QDWIN_TS_FULLSCREEN = false ->
  qdwin_output_at_global (view_x (view tl) q) (view_y (view tl) q) q = Some out ->
  let wa := qdwin_output_work_area out q in
  2 <= rw wa ->
  exists tL tR wL wR,
    at_geo q h tL (rx wa + inset_w tl) (ry wa + inset_n tl)
      (qdwin_toplevel_set_tiled h QDWIN_TILE_LEFT q) /\
    at_geo q h tR (rx wa + wL + inset_w tl) (ry wa + inset_n tl)
      (qdwin_toplevel_set_tiled h QDWIN_TILE_RIGHT q) /\
    outer tL = (wL, rh wa) /\ outer tR = (wR, rh wa) /\
    wL + wR = rw wa /\ 0 < wL <= wR /\
    tiled tL = QDWIN_TILE_LEFT /\ tiled tR = QDWIN_TILE_RIGHT.
Proof.
  intros Htl Hb Hp Hm Hf Hout wa Hww.
  set (x := view_x (view tl) q) in *. set (y := view_y (view tl) q) in *.
  assert (H0 : at_geo q h tl x y q) by by apply at_init.
  assert (HL := at_set_tiled d q h QDWIN_TILE_LEFT tl x y q (or_introl eq_refl)
                  Hb Hp Hm Hf H0 out Hout).
  assert (HR := at_set_tiled d q h QDWIN_TILE_RIGHT tl x y q (or_intror eq_refl)
                  Hb Hp Hm Hf H0 out Hout).
  destruct (work_area_positive out q) as [_ Hh].
  cbv zeta in HL, HR. fold wa in HL, HR, Hh. clearbody wa.
  destruct (half_width_bounds (rw wa) Hww) as [B1 B2].
  destruct (tiled_slots d QDWIN_TILE_LEFT wa (tile_saved_tl x y tl)) as (L1 & L2 & _);
    [cbn; lia|done|].
  destruct (tiled_slots d QDWIN_TILE_RIGHT wa (tile_saved_tl x y tl)) as (R1 & R2 & _);
    [cbn; lia|done|].
  eexists _, _, (cdiv (rw wa) 2), (rw wa - cdiv (rw wa) 2).
  split; [exact HL|]. split; [exact HR|]. split; [exact L1|]. split; [exact R1|].
  unfold tile_slots in L2, R2. injection L2 as L2 _. injection R2 as R2 _.
  split_and!; done || lia.
Qed.

Lemma tile_halves_partition_witness :
  let wa := qdwin_output_work_area ex_output ex_qdwin in
  exists tL tR wL wR,
    at_geo ex_qdwin 1 tL (rx wa + 2) (ry wa + 24)
      (qdwin_toplevel_set_tiled 1 QDWIN_TILE_LEFT ex_qdwin) /\
    at_geo ex_qdwin 1 tR (rx wa + wL + 2) (ry wa + 24)
      (qdwin_toplevel_set_tiled 1 QDWIN_TILE_RIGHT ex_qdwin) /\
    outer tL = (wL, rh wa) /\ outer tR = (wR, rh wa) /\
    wL + wR = rw wa /\ 0 < wL <= wR /\
    tiled tL = QDWIN_TILE_LEFT /\ tiled tR = QDWIN_TILE_RIGHT.
Proof.
  apply (tile_halves_partition ex_dsurf ex_qdwin 1 ex_toplevel ex_output);
    try reflexivity; [apply ex_backed|]. vm_compute. discriminate.
Defined.

(** What a tile leaves in the slots, as one step. *)
Lemma tile_step d q h edge tl x y q1 out :
  edge = QDWIN_TILE_LEFT \/ edge = QDWIN_TILE_RIGHT ->
  backed d tl -> proxy_pending tl = false ->
  ts_has (state tl) QDWIN_TS_MAXIMIZED = false ->
  ts_has (state tl) QDWIN_TS_FULLSCREEN = false ->
  at_geo q h tl x y q1 -> qdwin_output_at_global x y q1 = Some out ->
  2 <= rw (qdwin_output_work_area out q) ->
  exists t x' y', at_geo q h t x' y' (qdwin_toplevel_set_tiled h edge q1) /\
    backed d t /\ proxy_pending t = false /\ state t = state tl /\
    tile_slots t = (edge, snd (tile_slots (tile_saved_tl x y tl))).
Proof.
  intros Hedge Hb Hp Hm Hf H Hout Hww.
  assert (Ht := at_set_tiled d q h edge tl x y q1 Hedge Hb Hp Hm Hf H out Hout).
  destruct (work_area_positive out q) as [_ Hh]. set (wa := qdwin_output_work_area out q) in *.
  cbv zeta in Ht. clearbody wa. destruct (half_width_bounds (rw wa) Hww) as [B1 B2].
  destruct (tiled_slots d edge wa (tile_saved_tl x y tl)) as (_ & L2 & L3);
    [destruct Hedge as [-> | ->]; cbn; lia|done|].
  eexists _, _, _. split; [exact Ht|].
  assert (Hb' := backed_fn d (tile_saved_tl x y) tl Hb).
  assert (Hs : state (tile_saved_tl x y tl) = state tl).
  { unfold tile_saved_tl. by destruct (tiled tl =? QDWIN_TILE_NONE). }
  split_and!; [by apply (backed_fn d (tiled_tl d edge wa))| |by rewrite L3|done].
  rewrite (frame_pending (tiled_tl d edge wa)). by rewrite (frame_pending (tile_saved_tl x y)).
Qed.

(** Tiling is undone by [request_tile(none)]: tiled to one edge, re-tiled to
    the other and restored, a floating window is back at its position with its
    outer extent, whichever outputs the tiles were on. *)
Theorem tile_restore_roundtrip (d : desktop_surface) (q : qdwin) (h e1 e2 : Z)
    (tl : toplevel) (out0 : output) :
  e1 = QDWIN_TILE_LEFT \/ e1 = QDWIN_TILE_RIGHT ->
  e2 = QDWIN_TILE_LEFT \/ e2 = QDWIN_TILE_RIGHT ->
  qdwin_toplevel_from_handle h q = Some tl -> backed d tl -> proxy_pending tl = false ->
  insets_ok tl -> tiled tl = QDWIN_TILE_NONE ->
  ts_has (state tl) QDWIN_TS_MAXIMIZED = false ->
  ts_has (state tl) QDWIN_TS_FULLSCREEN = false ->
  qdwin_primary_output q = Some out0 ->
  (forall out, out ∈ outputs q -> 2 <= rw (qdwin_output_work_area out q)) ->
  let q3 := q ~> qdwin_toplevel_set_tiled h e1 ~> qdwin_toplevel_set_tiled h e2
              ~> qdwin_toplevel_set_tiled h QDWIN_TILE_NONE in
  exists t3, at_geo q h t3 (view_x (view tl) q) (view_y (view tl) q) q3 /\
    outer t3 = seed_dims tl /\ tiled t3 = QDWIN_TILE_NONE /\ state t3 = state tl.
Proof.
  intros He1 He2 Htl Hb Hp (I1 & I2 & I3 & I4) Hn Hm Hf Hout Hall q3.
  set (x := view_x (view tl) q) in *. set (y := view_y (view tl) q) in *.
  assert (Hat : forall u v q1, same_outputs q q1 ->
    exists o, qdwin_output_at_global u v q1 = Some o /\ 2 <= rw (qdwin_output_work_area o q)).
  { intros u v q1 Hs. unfold qdwin_output_at_global.
    rewrite (primary_same _ _ Hs), (proj1 Hs), Hout.
    destruct (List.find _ (outputs q)) as [o|] eqn:E; eexists; (split; [reflexivity|]);
      apply Hall, list_elem_of_In;
      [apply (List.find_some _ _ E)|apply (List.find_some _ _ Hout)]. }
  assert (H0 : at_geo q h tl x y q) by by apply at_init.
  destruct (Hat x y q (ag_out H0)) as (o1 & Ho1 & W1).
  destruct (tile_step d q h e1 tl x y q o1 He1 Hb Hp Hm Hf H0 Ho1 W1)
    as (t1 & x1 & y1 & H1 & Hb1 & Hp1 & S1 & T1).
  destruct (tile_saved_slots x y tl Hn) as [T1' _]. rewrite T1' in T1. cbn [snd] in T1.
  destruct (Hat x1 y1 _ (ag_out H1)) as (o2 & Ho2 & W2).
  rewrite <- S1 in Hm, Hf.
  destruct (tile_step d q h e2 t1 x1 y1 _ o2 He2 Hb1 Hp1 Hm Hf H1 Ho2 W2)
    as (t2 & x2 & y2 & H2 & Hb2 & Hp2 & S2 & T2).
  assert (Hs2 : tile_saved_tl x1 y1 t1 = t1).
  { unfold tile_slots in T1. injection T1 as T10 _. unfold tile_saved_tl. rewrite T10.
    by destruct He1 as [-> | ->]. }
  rewrite Hs2, T1 in T2. unfold tile_slots in T2. injection T2 as T20 T21 T22 T23.
  assert (Hpos := seed_dims_positive tl I1 I2 I3 I4).
  rewrite <- T23 in Hpos. cbn [fst snd] in Hpos.
  exists (untiled_tl d t2).
  destruct (untiled_slots d t2) as (U1 & U2 & U3); [lia..|].
  split_and!; [|congruence|by injection U2|congruence].
  assert (H3 := at_tile_restore d q h t2 x2 y2 _ Hb2 H2). rewrite T21, T22 in H3.
  subst q3. unfold qdwin_toplevel_set_tiled at 1, with_tl. rewrite (ag_tl H2), Hp2. cbn.
  rewrite T20. by destruct He2 as [-> | ->].
Qed.

Lemma tile_restore_roundtrip_witness :
  let q3 := ex_qdwin ~> qdwin_toplevel_set_tiled 1 QDWIN_TILE_LEFT
              ~> qdwin_toplevel_set_tiled 1 QDWIN_TILE_RIGHT
              ~> qdwin_toplevel_set_tiled 1 QDWIN_TILE_NONE in
  exists t3, at_geo ex_qdwin 1 t3 (view_x 11 ex_qdwin) (view_y 11 ex_qdwin) q3 /\
    outer t3 = seed_dims ex_toplevel /\ tiled t3 = QDWIN_TILE_NONE /\ state t3 = 0.
Proof.
  apply (tile_restore_roundtrip ex_dsurf ex_qdwin 1 QDWIN_TILE_LEFT QDWIN_TILE_RIGHT
           ex_toplevel ex_output); try reflexivity;
    [by left|by right|apply ex_backed|unfold insets_ok; cbn; lia|].
  intros o Ho%list_elem_of_singleton. subst o. vm_compute. discriminate.
Defined.

(** The conditions under which a set-position request is honoured. *)
Definition movable (h : Z) (tl : toplevel) (q : qdwin) : bool :=
  negb (view tl =? NULL_VIEW) && negb (proxy_pending tl)
  && negb (ts_has (state tl) (Z.lor QDWIN_TS_MAXIMIZED QDWIN_TS_FULLSCREEN))
  && (tiled tl =? QDWIN_TILE_NONE)
  && negb (move_grab_active q && (move_grab_handle q =? h)).

Definition inside (x y : Z) (o : output) : Prop :=
  out_x o <= x < out_x o + out_width o /\ out_y o <= y < out_y o + out_height o.

Lemma clamp_inside x y o :
  1 <= out_width o -> 1 <= out_height o ->
  let '(cx, cy) := clamp_to_output x y o in
  inside cx cy o /\ (inside x y o -> cx = x /\ cy = y).
Proof. intros. unfold clamp_to_output, inside. repeat (split_match; zbool); lia. Qed.

(** A shell's set-position request keeps the window reachable: an honoured
    request leaves the toplevel's size and state alone and puts its outer
    top-left corner inside some output, exactly at the requested point when an
    output contains it.  A window that is maximised, fullscreen, tiled, being
    dragged or awaiting approval is left where it is. *)
Theorem set_position_reachable (d : desktop_surface) (q : qdwin) (r : wl_resource)
    (h x y : Z) (tl : toplevel) (out0 : output) :
  qdwin_shell_require_bound r q = true -> locked q = false ->
  qdwin_toplevel_from_handle h q = Some tl -> backed d tl ->
  qdwin_primary_output q = Some out0 ->
  (forall o, o ∈ outputs q -> 1 <= out_width o /\ 1 <= out_height o) ->
  let q1 := qdwin_handle_request_set_position r h x y q in
  if movable h tl q
  then qdwin_toplevel_from_handle h q1 = Some tl /\
       (exists o, o ∈ outputs q /\
          inside (view_x (view tl) q1 - inset_w tl) (view_y (view tl) q1 - inset_n tl) o) /\
       ((exists o, o ∈ outputs q /\ inside x y o) ->
        view_x (view tl) q1 - inset_w tl = x /\ view_y (view tl) q1 - inset_n tl = y)
  else q1 = q.
Proof.
  intros Hr Hl Htl Hb Hout Hall q1. subst q1.
  unfold qdwin_handle_request_set_position, shell_request, unless_locked, with_tl.
  rewrite Hr, Hl, Htl. unfold movable.
  destruct (view tl =? NULL_VIEW); [done|]. destruct (proxy_pending tl); [done|].
  destruct (ts_has _ _); [done|]. destruct (tiled tl =? QDWIN_TILE_NONE); [|done].
  destruct (move_grab_active q && _); [done|]. cbn [negb andb].
  assert (Ho : exists o, qdwin_output_at_global x y q = Some o /\ o ∈ outputs q /\
    ((exists o', o' ∈ outputs q /\ inside x y o') -> inside x y o)).
  { unfold qdwin_output_at_global. destruct (List.find _ (outputs q)) as [o|] eqn:E.
    - apply List.find_some in E as [E1 E2]. exists o. split; [done|].
      split; [by apply list_elem_of_In|]. intros _. zbool. unfold inside. lia.
    - rewrite Hout. exists out0. split; [done|]. unfold qdwin_primary_output in Hout.
      apply List.find_some in Hout as [Ho _]. split; [by apply list_elem_of_In|].
      intros (o' & Ho' & Hi). exfalso.
      apply list_elem_of_In in Ho'. pose proof (List.find_none _ _ E o' Ho') as Hn.
      unfold inside in Hi. cbn in Hn. zbool. destruct Hn as [[[Hn|Hn]%andb_false_iff|Hn]%andb_false_iff|Hn]; zbool; lia. }
  destruct Ho as (o & -> & Hin & Hex).
  destruct (Hall o Hin) as [W1 W2]. pose proof (clamp_inside x y o W1 W2) as Hc.
  destruct (clamp_to_output x y o) as [cx cy]. destruct Hc as [C1 C2].
  set (q1 := weston_view_set_position _ _ _ q).
  assert (Hg : at_geo q h tl (cx + inset_w tl) (cy + inset_n tl) q1).
  { split; [done|by unfold q1; rewrite view_x_set, decide_True
           |by unfold q1; rewrite view_y_set, decide_True|done]. }
  assert (Hg2 := at_send _ _ 0 (toplevel_geometry h cx cy (u32 (last_width tl))
    (u32 (last_height tl))) _ _ _ _ (at_chrome _ _ d _ _ _ _ Hb Hg)).
  rewrite (ag_tl Hg2), (ag_x Hg2), (ag_y Hg2).
  replace (cx + inset_w tl - inset_w tl) with cx by lia.
  replace (cy + inset_n tl - inset_n tl) with cy by lia.
  split_and!; [done|by exists o|]. intros H. by apply C2, Hex.
Qed.

Definition ex_shell : wl_resource := mk_resource 500 34 9.
Definition ex_shelled : qdwin :=
  ex_qdwin <| shell_bound := true |> <| shell_resource := Some ex_shell |>.

Lemma set_position_reachable_witness :
  let q1 := qdwin_handle_request_set_position ex_shell 1 5000 70 ex_shelled in
  if movable 1 ex_toplevel ex_shelled
  then qdwin_toplevel_from_handle 1 q1 = Some ex_toplevel /\
       (exists o, o ∈ outputs ex_shelled /\ inside (view_x 11 q1 - 2) (view_y 11 q1 - 24) o) /\
       ((exists o, o ∈ outputs ex_shelled /\ inside 5000 70 o) ->
        view_x 11 q1 - 2 = 5000 /\ view_y 11 q1 - 24 = 70)
  else q1 = ex_shelled.
Proof.
  apply (set_position_reachable ex_dsurf ex_shelled ex_shell 1 5000 70 ex_toplevel ex_output);
    try reflexivity; [apply ex_backed|].
  intros o Ho%list_elem_of_singleton. subst o. cbn. lia.
Defined.
