(* ===== verification/Dependents.v ===== *)
(** * Dependents: what hangs off a toplevel

    Popups, exported view streams and the interactive move grab of [qdwin.c],
    with the release of all three that both toplevel destroy paths run. *)

From stdpp Require Import base list gmap strings option.
From S2P Require Import Prelude Scene State Toplevel.

(** ** Popups *)

Definition popup_of (h : Z) (q : qdwin) : option popup :=
  List.find (fun p => pp_parent p =? h) (popups q).

Definition qdwin_popup_teardown (p : popup) (q : qdwin) : qdwin :=
  q ~> (fun q => if pp_view p =? NULL_VIEW then q
                 else on_scene (weston_view_destroy (pp_view p)) q)
    ~> (fun q => q <| popups ::= List.filter (fun p' => negb (pp_id p' =? pp_id p)) |>).

Definition with_popup (i : Z) (k : popup -> qdwin -> qdwin) (q : qdwin) : qdwin :=
  match List.find (fun p => pp_id p =? i) (popups q) with Some p => k p q | None => q end.

Definition qdwin_popup_surface_destroyed (i : Z) : qdwin -> qdwin :=
  with_popup i qdwin_popup_teardown.
Definition qdwin_popup_resource_destroyed (i : Z) : qdwin -> qdwin :=
  with_popup i qdwin_popup_teardown.

Definition dismiss_popup (h : Z) (q : qdwin) : qdwin :=
  match popup_of h q with
  | Some p => q ~> emit (popup_dismissed (pp_id p)) ~> qdwin_popup_teardown p
  | None => q
  end.

Definition pointer_seat (q : qdwin) : option seat := List.find has_pointer (seats q).

Definition qdwin_seat_grab_serial_matches (s : option seat) (serial : Z) : bool :=
  match s with Some s => bool_decide (serial ∈ grab_serials s) | None => false end.

(** [surface] is [None] when the surface resource carries no surface. *)
Definition qdwin_handle_show_popup (r : wl_resource) (id parent : Z) (surface : option Z)
    (serial x y : Z) : qdwin -> qdwin :=
  shell_request r (unless_locked r (fun q =>
    if negb (qdwin_seat_grab_serial_matches (pointer_seat q) serial)
    then emit (post_error (res_id r) SHELL_INVALID_GRAB) q
    else match qdwin_toplevel_from_handle parent q, surface with
    | None, _ | _, None => emit (post_error (res_id r) SHELL_INVALID_HANDLE) q
    | Some tl, Some s =>
        let q := dismiss_popup parent q in
        match weston_view_create q with
        | (None, q) => q
        | (Some v, q) =>
            let anchor := match tl_chrome tl !! QDWIN_SIDE_N with
                          | Some c => default (view tl) (ch_view c)
                          | None => view tl
                          end in
            let p := mk_popup id true parent s v (bool_decide (pointer_seat q ≠ None)) in
            q ~> weston_view_set_position v (view_x anchor q + x) (view_y anchor q + y)
              ~> on_scene (weston_view_move_to_layer v popup_layer)
              ~> (fun q => q <| popups ::= cons p |>)
        end
    end)).

(** ** Interactive move *)

Definition qdwin_move_grab_end_for (h : Z) (q : qdwin) : qdwin :=
  if negb (move_grab_active q) then q
  else if negb (move_grab_handle q =? h) then q
  else q <| move_grab_active := false |>.

(** ** View streams *)

Definition upd_stream (i : Z) (f : view_stream -> view_stream) (q : qdwin) : qdwin :=
  q <| streams ::= map (fun s => if vs_id s =? i then f s else s) |>.

Definition qdwin_view_stream_unpin (s : view_stream) (q : qdwin) : qdwin :=
  if negb (vs_pinned s) then q
  else
    let q := upd_stream (vs_id s) (fun s => s <| vs_pinned := false |>) q in
    match vs_tl s with
    | None => q
    | Some h => with_tl h (fun tl q =>
        if view tl =? NULL_VIEW then q
        else q ~> weston_view_set_position (view tl) (vs_prev_x s) (vs_prev_y s)
               ~> qdwin_toplevel_position_chrome h) q
    end.

(** The tombstone a released stream leaves: off the list, without token,
    input capability, source or child. *)
Definition released_stream (s : view_stream) : view_stream :=
  s <| vs_released := true |> <| vs_input_handle := false |> <| vs_input_claimed := false |>
    <| vs_forward_running := false |> <| vs_listed := false |> <| vs_has_token := false |>
    <| vs_allow_input := false |> <| vs_tl := None |> <| vs_pinned := false |>.

Definition qdwin_view_stream_release_server_state (s : view_stream) (q : qdwin) : qdwin :=
  if vs_released s then q
  else q ~> qdwin_view_stream_unpin s ~> upd_stream (vs_id s) released_stream.

Definition qdwin_view_stream_terminate (reason : string) (q : qdwin) (s : view_stream) : qdwin :=
  let q := if vs_resource s && negb (vs_torn_down_sent s)
           then q ~> upd_stream (vs_id s) (fun s => s <| vs_torn_down_sent := true |>)
                  ~> emit (view_stream_torn_down (vs_id s) reason)
           else q in
  qdwin_view_stream_release_server_state s q.

(** [qdwin->view_streams]: the streams still on the active list. *)
Definition view_streams (q : qdwin) : list view_stream := List.filter vs_listed (streams q).

Definition terminate_streams (sel : view_stream -> bool) (reason : string) (q : qdwin) : qdwin :=
  foldl (qdwin_view_stream_terminate reason) q (List.filter sel (view_streams q)).

Definition qdwin_stream_resource_destroyed (i : Z) (q : qdwin) : qdwin :=
  match List.find (fun s => vs_id s =? i) (streams q) with
  | None => q
  | Some s =>
      q ~> qdwin_view_stream_release_server_state s
        ~> (fun q => q <| streams ::= List.filter (fun s => negb (vs_id s =? i)) |>)
  end.

Definition streams_of (h : Z) (s : view_stream) : bool := bool_decide (vs_tl s = Some h).

Definition qdwin_toplevel_release_dependents (h : Z) (q : qdwin) : qdwin :=
  q ~> dismiss_popup h
    ~> qdwin_move_grab_end_for h
    ~> terminate_streams (streams_of h) "source toplevel closed".
