(* ===== verification/Focus.v ===== *)
(** * Focus: keyboard focus, its recovery and its notification

    The seat trackers of [qdwin.c]: the deduplicated [seat_focus_changed]
    notification, the deferred recovery after a focus loss and the automatic
    focus of a newly visible toplevel.  libweston's
    [weston_keyboard_set_focus] emits [focus_signal] synchronously, so the
    update below runs the plugin's listener. *)

From stdpp Require Import base list gmap strings option.
From S2P Require Import Prelude Scene State Toplevel.

Definition with_seat (i : Z) (k : seat -> qdwin -> qdwin) (q : qdwin) : qdwin :=
  match List.find (fun s => seat_id s =? i) (seats q) with Some s => k s q | None => q end.

Definition upd_seat (i : Z) (f : seat -> seat) (q : qdwin) : qdwin :=
  q <| seats ::= map (fun s => if seat_id s =? i then f s else s) |>.

Definition qdwin_toplevel_by_surface (s : option Z) (q : qdwin) : option toplevel :=
  match s with
  | None => None
  | Some s => List.find (fun tl => (negb (view tl =? NULL_VIEW) && (tl_surface tl =? s))
                                   || bool_decide (proxy_pixel_surface tl = Some s))
                (toplevels q)
  end.

Definition qdwin_emit_seat_focus_changed (i h : Z) : qdwin -> qdwin :=
  shell_send 14 (seat_focus_changed i h).

(** The handle the shell is told: the focused toplevel's, [UINT32_MAX] when
    no toplevel has the focus. *)
Definition focused_handle (s : seat) (q : qdwin) : Z :=
  match qdwin_toplevel_by_surface (if has_keyboard s then kbd_focus s else None) q with
  | Some tl => handle tl
  | None => UINT32_MAX
  end.

Definition schedule_recovery (i : Z) : qdwin -> qdwin :=
  upd_seat i (fun s => s <| focus_recover_idle := true |>).

Definition qdwin_seat_emit_focus_now (i : Z) : qdwin -> qdwin :=
  with_seat i (fun s q =>
    if negb (tracked s) then q
    else
      let h := focused_handle s q in
      if h =? last_focused_handle s then q
      else q ~> upd_seat i (fun s => s <| last_focused_handle := h |>)
             ~> qdwin_emit_seat_focus_changed i h
             ~> (fun q => if (h =? UINT32_MAX) && has_keyboard s && negb (locked q)
                             && negb (focus_recover_idle s)
                          then schedule_recovery i q else q)).

(** [weston_keyboard_set_focus] with the listener
    [qdwin_on_keyboard_focus_changed].  A surface without a client, such as a
    proxy's placeholder curtain, focuses nothing. *)
Definition weston_keyboard_set_focus (i : Z) (focus : option Z) (q : qdwin) : qdwin :=
  q ~> upd_seat i (fun s => s <| kbd_focus := focus |> <| kbd_focus_mapped := true |>)
    ~> qdwin_seat_emit_focus_now i.

Definition focusable_surface (tl : toplevel) : option Z :=
  if is_nested_proxy tl && proxy_curtain tl then None else Some (tl_surface tl).

Definition weston_view_activate_input (tl : toplevel) (i : Z) : qdwin -> qdwin :=
  weston_keyboard_set_focus i (focusable_surface tl).

Definition qdwin_toplevel_is_visible (tl : toplevel) (q : qdwin) : bool :=
  decorated tl && negb (ts_has (state tl) QDWIN_TS_MINIMIZED)
  && (workspace tl =? active_workspace q)
  && negb (view tl =? NULL_VIEW) && tl_surface_mapped tl.

Definition first_visible (q : qdwin) : option toplevel :=
  List.find (fun tl => qdwin_toplevel_is_visible tl q) (toplevels q).

Definition qdwin_seat_focus_recover_idle_cb (i : Z) : qdwin -> qdwin :=
  with_seat i (fun s q =>
    let q := upd_seat i (fun s => s <| focus_recover_idle := false |>) q in
    if locked q then q
    else if negb (has_keyboard s) then q
    else if bool_decide (kbd_focus s ≠ None) && kbd_focus_mapped s then q
    else match first_visible q with
         | Some succ => weston_view_activate_input succ i q
         | None => q
         end).

Definition qdwin_toplevel_autofocus_if_ready (h : Z) : qdwin -> qdwin :=
  with_tl h (fun tl q =>
    if locked q then q
    else if negb (decorated tl) then q
    else if negb (workspace tl =? active_workspace q) then q
    else if (view tl =? NULL_VIEW) || negb (tl_surface_mapped tl) then q
    else foldl (fun q s =>
           if has_keyboard s && negb (bool_decide (kbd_focus s = Some (tl_surface tl)))
           then q ~> weston_view_activate_input tl (seat_id s)
                  ~> qdwin_seat_emit_focus_now (seat_id s)
           else q) q (seats q)).

Definition qdwin_toplevel_raise (h : Z) : qdwin -> qdwin :=
  with_tl h (fun tl q =>
    if proxy_pending tl then q
    else if ts_has (state tl) QDWIN_TS_MINIMIZED then q
    else if negb (workspace tl =? active_workspace q) then q
    else qdwin_toplevel_move_to_layer h normal_layer q).

Definition qdwin_toplevel_focus (h : Z) (raise : bool) : qdwin -> qdwin :=
  with_tl h (fun tl q =>
    if locked q then q
    else if proxy_pending tl then q
    else if (view tl =? NULL_VIEW) || negb (tl_surface_mapped tl) then q
    else if negb (workspace tl =? active_workspace q) then q
    else
      let q := if raise then qdwin_toplevel_raise h q else q in
      foldl (fun q s =>
        if has_keyboard s && negb (bool_decide (kbd_focus s = Some (tl_surface tl)))
        then q ~> weston_keyboard_set_focus (seat_id s) (focusable_surface tl)
               ~> qdwin_emit_seat_focus_changed (seat_id s) h
        else q) q (seats q)).

(** A freshly bound shell gets every seat's focus, past the deduplication. *)
Definition qdwin_replay_seat_focus_for_shell (q : qdwin) : qdwin :=
  foldl (fun q s =>
    if tracked s then
      let h := focused_handle s q in
      q ~> upd_seat (seat_id s) (fun s => s <| last_focused_handle := h |>)
        ~> qdwin_emit_seat_focus_changed (seat_id s) h
    else q) q (seats q).

(** ** Focus changes touch seats and notifications only *)

Lemma core_upd_seat i f q : upd_seat i f q ≃ q.
Proof. done. Qed.

Lemma core_emit_focus i q : qdwin_seat_emit_focus_now i q ≃ q.
Proof.
  unfold qdwin_seat_emit_focus_now, with_seat. destruct (List.find _ _) as [s|]; [|done].
  destruct (tracked s); cbn [negb]; [|done].
  destruct (_ =? last_focused_handle s); [done|].
  set (q1 := qdwin_emit_seat_focus_changed _ _ _).
  assert (H1 : q1 ≃ q) by (etransitivity; [apply core_send|apply core_upd_seat]).
  destruct (_ && _); [etransitivity; [apply core_upd_seat|]|]; exact H1.
Qed.

Lemma core_set_focus i f q : weston_keyboard_set_focus i f q ≃ q.
Proof. etransitivity; [apply core_emit_focus|apply core_upd_seat]. Qed.

Lemma core_activate tl i q : weston_view_activate_input tl i q ≃ q.
Proof. apply core_set_focus. Qed.

#[export] Hint Resolve core_upd_seat core_emit_focus core_set_focus core_activate : qdwin.

Lemma core_autofocus h q : qdwin_toplevel_autofocus_if_ready h q ≃ q.
Proof.
  unfold qdwin_toplevel_autofocus_if_ready, with_tl.
  destruct (qdwin_toplevel_from_handle h q) as [tl|]; [|done].
  repeat (split_match; try done).
  apply core_foldl. intros q1 s. split_match; [|done].
  etransitivity; [apply core_emit_focus|apply core_activate].
Qed.

Lemma core_recover i q : qdwin_seat_focus_recover_idle_cb i q ≃ q.
Proof.
  unfold qdwin_seat_focus_recover_idle_cb, with_seat.
  destruct (List.find _ _) as [s|]; [|done]. cbv zeta.
  repeat (split_match; try done). etransitivity; [apply core_activate|apply core_upd_seat].
Qed.
