(* ===== verification/Placement.v ===== *)
(** * Placement: new-window placement, edge snapping and the interactive move

    The window-management policy of [qdwin.c] that chooses coordinates.
    Coordinates are integral. *)

From stdpp Require Import base list gmap strings option.
From S2P Require Import Prelude Scene State Toplevel ToplevelFacts Dependents Focus.

(** ** New-window placement *)

(** The committed size of the surface a toplevel's view shows. *)
Definition tl_surface_size (tl : toplevel) : Z * Z :=
  match desktop tl with
  | Some d => (ds_width d, ds_height d)
  | None => (last_width tl, last_height tl)
  end.

(** Overlap of a slot with one window, in square pixels. *)
Definition slot_overlap (ox oy sw sh vx vy tw th : Z) : Z :=
  let ix := if vx <? ox then ox else vx in
  let iy := if vy <? oy then oy else vy in
  let ax := if ox + sw <? vx + tw then ox + sw else vx + tw in
  let ay := if oy + sh <? vy + th then oy + sh else vy + th in
  if (ix <? ax) && (iy <? ay) then (ax - ix) * (ay - iy) else 0.

Definition placement_rival (h : Z) (t : toplevel) : bool :=
  negb (handle t =? h) && negb (is_nested_proxy t) && mapped t && negb (view t =? NULL_VIEW).

Definition qdwin_placement_overlap (h ox oy sw sh : Z) (q : qdwin) : Z :=
  foldl (fun overlap t =>
    if placement_rival h t
    then let (tw, th) := tl_surface_size t in
         overlap + slot_overlap ox oy sw sh (view_x (view t) q) (view_y (view t) q) tw th
    else overlap) 0 (toplevels q).

(** The five by five grid over the work area, row by row. *)
Definition grid_slot (wa : rect) (sw sh : Z) (i : nat) : Z * Z :=
  let gx := Z.of_nat (i mod 5) in
  let gy := Z.of_nat (i / 5) in
  let ox := rx wa + cdiv ((rw wa - sw) * gx) 4 in
  let oy := ry wa + cdiv ((rh wa - sh) * gy) 4 in
  (if ox <? rx wa then rx wa else ox, if oy <? ry wa then ry wa else oy).

Definition grid_slots (wa : rect) (sw sh : Z) : list (Z * Z) :=
  map (grid_slot wa sw sh) (seq 0 25).

(** The scan: a slot wins with strictly less overlap, a free slot ends it. *)
Fixpoint smart_scan (score : Z * Z -> Z) (best : Z * Z) (slots : list (Z * Z)) : Z * Z :=
  match slots with
  | [] => best
  | s :: slots =>
      if score s <? score best
      then if score s =? 0 then s else smart_scan score s slots
      else smart_scan score best slots
  end.

Definition smart_slot (score : Z * Z -> Z) (centre : Z * Z) (slots : list (Z * Z)) : Z * Z :=
  if 0 <? score centre then smart_scan score centre slots else centre.

Definition first_pointer (q : qdwin) : option (Z * Z) := pointer_pos <$> pointer_seat q.

Definition siblings (h : Z) (q : qdwin) : Z :=
  Z.of_nat (length (List.filter (fun t => negb (handle t =? h) && negb (is_nested_proxy t)
                                          && mapped t) (toplevels q))).

Definition qdwin_compute_placement (h width height : Z) (out : output) (q : qdwin) : Z * Z :=
  let sw := if 0 <? width then width else 800 in
  let sh := if 0 <? height then height else 600 in
  let wa := qdwin_output_work_area out q in
  let centre := (rx wa + cdiv (rw wa - sw) 2, ry wa + cdiv (rh wa - sh) 2) in
  let '(px, py) :=
    if placement (policy q) =? QDWIN_PLACE_CENTER then centre
    else if placement (policy q) =? QDWIN_PLACE_UNDER_MOUSE then
      match first_pointer q with
      | Some (mx, my) => (mx - cdiv sw 2, my - cdiv sh 2)
      | None => centre
      end
    else if placement (policy q) =? QDWIN_PLACE_SMART then
      smart_slot (fun s => qdwin_placement_overlap h (fst s) (snd s) sw sh q) centre
        (grid_slots wa sw sh)
    else
      let offset := Z.rem (siblings h q * 40) 200 in
      (fst centre + offset, snd centre + offset) in
  (if px <? rx wa then rx wa else px, if py <? ry wa then ry wa else py).

(** ** Edge snapping *)

(** One axis: the value and whether it snapped already. *)
Definition qdwin_snap1 (dist target : Z) (a : Z * bool) : Z * bool :=
  let (v, did) := a in
  if negb did && (Z.abs (v - target) <=? dist) then (target, true) else a.

Definition outer_size (tl : toplevel) : Z * Z :=
  let (w, h) := tl_surface_size tl in
  (if 0 <? outer_width tl then outer_width tl else w + inset_w tl + inset_e tl,
   if 0 <? outer_height tl then outer_height tl else h + inset_n tl + inset_s tl).

Definition snap_target (h : Z) (q : qdwin) (t : toplevel) : bool :=
  placement_rival h t && negb (ts_has (state t) QDWIN_TS_MINIMIZED)
  && (workspace t =? active_workspace q).

Definition snap_to_window (dist ow oh : Z) (q : qdwin) (a : (Z * bool) * (Z * bool))
    (t : toplevel) : (Z * bool) * (Z * bool) :=
  let tleft := view_x (view t) q - inset_w t in
  let ttop := view_y (view t) q - inset_n t in
  let (tow, toh) := outer_size t in
  (fst a ~> qdwin_snap1 dist (tleft + tow) ~> qdwin_snap1 dist (tleft - ow)
         ~> qdwin_snap1 dist tleft,
   snd a ~> qdwin_snap1 dist (ttop + toh) ~> qdwin_snap1 dist (ttop - oh)
         ~> qdwin_snap1 dist ttop).

Definition effective_snap_distance (q : qdwin) : Z :=
  let dist := snap_distance (policy q) in
  let dist := if dist <? QDWIN_SNAP_DIST_MIN then QDWIN_SNAP_DIST_MIN else dist in
  if QDWIN_SNAP_DIST_MAX <? dist then QDWIN_SNAP_DIST_MAX else dist.

Definition qdwin_snap_move_position (tl : toplevel) (nx ny : Z) (q : qdwin) : Z * Z :=
  if negb (snap_enabled (policy q)) then (nx, ny)
  else
    let dist := effective_snap_distance q in
    let (ow, oh) := outer_size tl in
    if (ow <=? 0) || (oh <=? 0) then (nx, ny)
    else
      let left := nx - inset_w tl in
      let top := ny - inset_n tl in
      match qdwin_output_at_global left top q with
      | None => (nx, ny)
      | Some out =>
          let wa := qdwin_output_work_area out q in
          let x := (left, false) ~> qdwin_snap1 dist (rx wa)
                                 ~> qdwin_snap1 dist (rx wa + rw wa - ow) in
          let y := (top, false) ~> qdwin_snap1 dist (ry wa)
                                ~> qdwin_snap1 dist (ry wa + rh wa - oh) in
          let '((l, _), (t, _)) :=
            foldl (snap_to_window dist ow oh q) (x, y)
              (List.filter (snap_target (handle tl) q) (toplevels q)) in
          (l + inset_w tl, t + inset_n tl)
      end.

(** ** Interactive move *)

Definition qdwin_toplevel_clear_tiled (h : Z) : qdwin -> qdwin :=
  upd_tl h (set_tiled QDWIN_TILE_NONE).

Definition start_move (h dx dy : Z) (q : qdwin) : qdwin :=
  q <| move_grab_handle := h |> <| move_grab_anchor_dx := dx |>
    <| move_grab_anchor_dy := dy |> <| move_grab_active := true |>.

Definition qdwin_handle_begin_interactive_move (r : wl_resource) (h : Z) : qdwin -> qdwin :=
  shell_request r (unless_locked r (fun q =>
    if move_grab_active q then q
    else with_tl h (fun tl q =>
      if view tl =? NULL_VIEW then q
      else if proxy_pending tl then q
      else if ts_has (state tl) (Z.lor QDWIN_TS_MAXIMIZED QDWIN_TS_FULLSCREEN) then q
      else
        let q := qdwin_toplevel_clear_tiled h q in
        match first_pointer q with
        | None => q
        | Some (px, py) =>
            start_move h (px - view_x (view tl) q) (py - view_y (view tl) q) q
        end) q)).

(** Pointer motion under the grab, the pointer having reached [(px, py)]. *)
Definition qdwin_move_grab_motion (px py : Z) (q : qdwin) : qdwin :=
  if negb (move_grab_active q) then q
  else with_tl (move_grab_handle q) (fun tl q =>
    if view tl =? NULL_VIEW then q
    else
      let (nx, ny) := qdwin_snap_move_position tl (px - move_grab_anchor_dx q)
                        (py - move_grab_anchor_dy q) q in
      q ~> weston_view_set_position (view tl) nx ny
        ~> qdwin_toplevel_position_chrome (handle tl)) q.

Definition qdwin_move_grab_button (released : bool) (q : qdwin) : qdwin :=
  if negb released || negb (move_grab_active q) then q
  else
    let h := move_grab_handle q in
    q ~> (fun q => q <| move_grab_active := false |>)
      ~> with_tl h (fun tl q =>
           if view tl =? NULL_VIEW then q
           else shell_send 0 (toplevel_geometry h (view_x (view tl) q - inset_w tl)
                  (view_y (view tl) q - inset_n tl) (u32 (last_width tl))
                  (u32 (last_height tl))) q).

(** ** Facts *)

Lemma slot_overlap_nonneg ox oy sw sh vx vy tw th : 0 <= slot_overlap ox oy sw sh vx vy tw th.
Proof. unfold slot_overlap. destruct (_ && _) eqn:E; [|lia]. zbool. nia. Qed.

Lemma placement_overlap_nonneg h ox oy sw sh q : 0 <= qdwin_placement_overlap h ox oy sw sh q.
Proof.
  unfold qdwin_placement_overlap.
  assert (Hg : forall ts a, 0 <= a ->
    0 <= foldl (fun overlap t => if placement_rival h t
       then let (tw, th) := tl_surface_size t in
            overlap + slot_overlap ox oy sw sh (view_x (view t) q) (view_y (view t) q) tw th
       else overlap) a ts).
  { induction ts as [|t ts IH]; intros a Ha; cbn; [done|]. apply IH.
    destruct (placement_rival h t); [|done]. destruct (tl_surface_size t) as [tw th].
    pose proof (slot_overlap_nonneg ox oy sw sh (view_x (view t) q) (view_y (view t) q) tw th).
    lia. }
  by apply Hg.
Qed.

Section Smart.
Context (score : Z * Z -> Z) (score_nonneg : forall s, 0 <= score s).

Lemma smart_scan_best best slots :
  score (smart_scan score best slots) <= score best
  /\ (forall s, s ∈ slots -> score (smart_scan score best slots) <= score s)
  /\ (smart_scan score best slots = best \/ smart_scan score best slots ∈ slots).
Proof.
  revert best. induction slots as [|s slots IH]; intros best; cbn.
  - split_and!; [lia|by intros ? ?%elem_of_nil|by left].
  - setoid_rewrite elem_of_cons.
    destruct (Z.ltb_spec (score s) (score best)) as [Hlt|Hge].
    + destruct (Z.eqb_spec (score s) 0) as [E0|Hn].
      * rewrite E0. split_and!; [apply score_nonneg|intros; apply score_nonneg|auto].
      * destruct (IH s) as (H1 & H2 & H3). split_and!; [lia| |destruct H3 as [->|]; auto].
        intros t [->|Ht]; [lia|auto].
    + destruct (IH best) as (H1 & H2 & H3). split_and!; [done| |destruct H3; auto].
      intros t [->|Ht]; [lia|auto].
Qed.

Lemma smart_slot_best centre slots :
  score (smart_slot score centre slots) <= score centre
  /\ (forall s, s ∈ slots -> score (smart_slot score centre slots) <= score s)
  /\ (smart_slot score centre slots = centre \/ smart_slot score centre slots ∈ slots).
Proof.
  unfold smart_slot. destruct (Z.ltb_spec 0 (score centre)); [apply smart_scan_best|].
  split_and!; [lia| |by left]. intros s _. pose proof (score_nonneg s). lia.
Qed.
End Smart.

Lemma cdiv_nonneg x k : 0 <= x -> 0 < k -> 0 <= cdiv x k <= x.
Proof.
  intros. unfold cdiv. rewrite Z.quot_div_nonneg by lia. split.
  - apply Z.div_pos; lia.
  - apply Z.div_le_upper_bound; nia.
Qed.

Lemma grid_slot_inside wa sw sh i :
  sw <= rw wa -> sh <= rh wa -> (i < 25)%nat ->
  rx wa <= fst (grid_slot wa sw sh i) <= rx wa + rw wa - sw
  /\ ry wa <= snd (grid_slot wa sw sh i) <= ry wa + rh wa - sh.
Proof.
  intros Hw Hh Hi. unfold grid_slot. cbn [fst snd].
  assert (Hg : forall d g : Z, 0 <= d -> 0 <= g <= 4 -> 0 <= cdiv (d * g) 4 <= d).
  { intros d g Hd Hg. unfold cdiv. rewrite Z.quot_div_nonneg by nia. split.
    - apply Z.div_pos; nia.
    - apply Z.div_le_upper_bound; nia. }
  pose proof (Nat.mod_upper_bound i 5). pose proof (Nat.Div0.div_lt_upper_bound i 5 5).
  pose proof (Hg (rw wa - sw) (Z.of_nat (i mod 5)) ltac:(lia) ltac:(lia)).
  pose proof (Hg (rh wa - sh) (Z.of_nat (i / 5)) ltac:(lia) ltac:(lia)).
  destruct (Z.ltb_spec (rx wa + cdiv ((rw wa - sw) * Z.of_nat (i mod 5)) 4) (rx wa)); [lia|].
  destruct (Z.ltb_spec (ry wa + cdiv ((rh wa - sh) * Z.of_nat (i / 5)) 4) (ry wa)); lia.
Qed.

(** C13.  Smart placement: a window that fits the work area is placed inside
    it, at the centre or at a slot of the grid, and neither the centre nor any
    slot of the grid overlaps the other windows less than the chosen place. *)
Theorem smart_placement_optimal (h w ht : Z) (out : output) (q : qdwin)
    (Hp : placement (policy q) = QDWIN_PLACE_SMART)
    (Hw : 0 < w <= rw (qdwin_output_work_area out q))
    (Hh : 0 < ht <= rh (qdwin_output_work_area out q)) :
  let wa := qdwin_output_work_area out q in
  let p := qdwin_compute_placement h w ht out q in
  let score s := qdwin_placement_overlap h (fst s) (snd s) w ht q in
  let centre := (rx wa + cdiv (rw wa - w) 2, ry wa + cdiv (rh wa - ht) 2) in
  (rx wa <= fst p /\ fst p + w <= rx wa + rw wa)
  /\ (ry wa <= snd p /\ snd p + ht <= ry wa + rh wa)
  /\ (p = centre \/ p ∈ grid_slots wa w ht)
  /\ (forall s, s ∈ grid_slots wa w ht -> score p <= score s)
  /\ score p <= score centre.
Proof.
  cbv zeta. set (wa := qdwin_output_work_area out q) in *. unfold qdwin_compute_placement.
  fold wa. clearbody wa. rewrite Hp.
  change (QDWIN_PLACE_SMART =? QDWIN_PLACE_CENTER) with false.
  change (QDWIN_PLACE_SMART =? QDWIN_PLACE_UNDER_MOUSE) with false.
  change (QDWIN_PLACE_SMART =? QDWIN_PLACE_SMART) with true. cbv iota.
  destruct (Z.ltb_spec 0 w); [|lia]. destruct (Z.ltb_spec 0 ht); [|lia].
  set (score := fun s : Z * Z => qdwin_placement_overlap h (fst s) (snd s) w ht q).
  set (centre := (rx wa + cdiv (rw wa - w) 2, ry wa + cdiv (rh wa - ht) 2)).
  destruct (smart_slot_best score (fun s => placement_overlap_nonneg _ _ _ _ _ _) centre
              (grid_slots wa w ht)) as (Hc & Hs & Hin).
  destruct (smart_slot score centre (grid_slots wa w ht)) as [px py] eqn:E.
  assert (Hbox : (rx wa <= px <= rx wa + rw wa - w) /\ (ry wa <= py <= ry wa + rh wa - ht)).
  { destruct Hin as [Heq|Hin].
    - injection Heq as -> ->.
      pose proof (cdiv_nonneg (rw wa - w) 2 ltac:(lia) ltac:(lia)).
      pose proof (cdiv_nonneg (rh wa - ht) 2 ltac:(lia) ltac:(lia)). lia.
    - unfold grid_slots in Hin. apply list_elem_of_In, in_map_iff in Hin as (i & Hi & Hseq).
      apply in_seq in Hseq. pose proof (grid_slot_inside wa w ht i ltac:(lia) ltac:(lia) ltac:(lia)) as Hg.
      rewrite Hi in Hg. exact Hg. }
  destruct (Z.ltb_spec px (rx wa)); [lia|]. destruct (Z.ltb_spec py (ry wa)); [lia|].
  cbn [fst snd]. split_and!; try lia; [exact Hin|exact Hs|exact Hc].
Qed.

Definition ex_rival : toplevel := ex_toplevel <| handle := 2 |> <| view := 20 |> <| mapped := true |>.
Definition ex_smart : qdwin :=
  (wet_shell_init [ex_output] [] 1000)
    <| toplevels := [ex_rival] |>
    <| policy := mk_wm_policy 0 0 true false QDWIN_PLACE_SMART true 16 |>
  ~> weston_view_set_position 20 560 240.

Lemma smart_placement_optimal_witness :
  let wa := qdwin_output_work_area ex_output ex_smart in
  let p := qdwin_compute_placement 9 800 600 ex_output ex_smart in
  let score s := qdwin_placement_overlap 9 (fst s) (snd s) 800 600 ex_smart in
  let centre := (rx wa + cdiv (rw wa - 800) 2, ry wa + cdiv (rh wa - 600) 2) in
  (rx wa <= fst p /\ fst p + 800 <= rx wa + rw wa)
  /\ (ry wa <= snd p /\ snd p + 600 <= ry wa + rh wa)
  /\ (p = centre \/ p ∈ grid_slots wa 800 600)
  /\ (forall s, s ∈ grid_slots wa 800 600 -> score p <= score s)
  /\ score p <= score centre.
Proof.
  apply (smart_placement_optimal 9 800 600 ex_output ex_smart); [reflexivity| |];
    split; vm_compute; (reflexivity || discriminate).
Defined.

(** A snap moves a coordinate by at most [dist] from [v0] and only once. *)
Definition snap_ok (dist v0 : Z) (a : Z * bool) : Prop :=
  (snd a = false -> fst a = v0) /\ Z.abs (fst a - v0) <= dist.

Lemma snap1_ok dist v0 target a :
  snap_ok dist v0 a -> snap_ok dist v0 (qdwin_snap1 dist target a).
Proof.
  unfold snap_ok, qdwin_snap1. destruct a as [v did]; cbn. intros [H1 H2].
  destruct did; cbn; [done|]. rewrite (H1 eq_refl) in *.
  destruct (Z.leb_spec (Z.abs (v0 - target)) dist); cbn; [|done]. split; [done|lia].
Qed.

Lemma snap_window_ok dist v0 w0 ow oh q t a :
  snap_ok dist v0 (fst a) -> snap_ok dist w0 (snd a) ->
  snap_ok dist v0 (fst (snap_to_window dist ow oh q a t))
  /\ snap_ok dist w0 (snd (snap_to_window dist ow oh q a t)).
Proof.
  intros H1 H2. unfold snap_to_window. destruct (outer_size t) as [tow toh].
  cbn [fst snd]. split; by repeat apply snap1_ok.
Qed.

Lemma effective_snap_range q : 1 <= effective_snap_distance q <= 64.
Proof.
  unfold effective_snap_distance, QDWIN_SNAP_DIST_MIN, QDWIN_SNAP_DIST_MAX.
  destruct (Z.ltb_spec (snap_distance (policy q)) 1); cbn; [lia|].
  destruct (Z.ltb_spec 64 (snap_distance (policy q))); lia.
Qed.

(** Edge snapping never throws a dragged window: whatever edges are near,
    each coordinate of the snapped origin is within the snap distance, at most
    64 pixels, of the origin the pointer asks for. *)
Theorem snap_bounded (tl : toplevel) (nx ny : Z) (q : qdwin) :
  let '(sx, sy) := qdwin_snap_move_position tl nx ny q in
  Z.abs (sx - nx) <= effective_snap_distance q <= 64
  /\ Z.abs (sy - ny) <= effective_snap_distance q.
Proof.
  pose proof (effective_snap_range q) as Hr. unfold qdwin_snap_move_position.
  set (dist := effective_snap_distance q) in *.
  destruct (snap_enabled (policy q)); cbn [negb]; [|lia].
  destruct (outer_size tl) as [ow oh]. destruct ((ow <=? 0) || (oh <=? 0)); [lia|]. cbv zeta.
  destruct (qdwin_output_at_global _ _ q) as [out|]; [|lia].
  set (wa := qdwin_output_work_area out q). clearbody wa dist.
  set (ts := List.filter _ (toplevels q)). clearbody ts.
  set (x0 := nx - inset_w tl). set (y0 := ny - inset_n tl).
  assert (Hx : snap_ok dist x0 (x0, false)) by (split; cbn; [done|lia]).
  assert (Hy : snap_ok dist y0 (y0, false)) by (split; cbn; [done|lia]).
  set (xs := qdwin_snap1 dist (rx wa + rw wa - ow) _).
  set (ys := qdwin_snap1 dist (ry wa + rh wa - oh) _).
  assert (Hxs : snap_ok dist x0 xs) by by repeat apply snap1_ok.
  assert (Hys : snap_ok dist y0 ys) by by repeat apply snap1_ok.
  clearbody xs ys. clear Hx Hy.
  assert (Hf : forall ts a, snap_ok dist x0 (fst a) -> snap_ok dist y0 (snd a) ->
    snap_ok dist x0 (fst (foldl (snap_to_window dist ow oh q) a ts))
    /\ snap_ok dist y0 (snd (foldl (snap_to_window dist ow oh q) a ts))).
  { induction ts0 as [|t ts0 IH]; intros a Ha Hb; [done|]. cbn [foldl].
    destruct (snap_window_ok dist x0 y0 ow oh q t a Ha Hb). by apply IH. }
  destruct (Hf ts (xs, ys) Hxs Hys) as [[_ H1] [_ H2]].
  destruct (foldl _ (xs, ys) ts) as [[l b] [t c]]. cbn in H1, H2. subst x0 y0. lia.
Qed.
