(* ===== verification/Lock.v ===== *)
(** * Lock: the session lock and its keyboard grabs

    The lock screen of [qdwin.c]: hiding and restoring the desktop layers, the
    lock curtain, promotion of the locker's window, the overlay and switcher
    keyboard grabs, the lock requests of the shell and of the locker, the
    locker's life cycle and its bind gate. *)

From stdpp Require Import base list gmap strings option.
From S2P Require Import Prelude Scene Procfs State Toplevel Dependents Focus.
From stdpp Require Import list.

#[local] Open Scope Z_scope.

(** ** Hiding and restoring the desktop *)

(** The layers [qdwin_hide_non_lock_layers] takes off the layer list, in
    source order, with the position each is restored to. *)
Definition non_lock_layers : list (layer * Z) :=
  [(background_layer, WESTON_LAYER_POSITION_BACKGROUND);
   (normal_layer, WESTON_LAYER_POSITION_NORMAL);
   (panel_layer, QDWIN_LAYER_POS_PANEL);
   (notification_layer, QDWIN_LAYER_POS_NOTIFICATION);
   (launcher_layer, QDWIN_LAYER_POS_LAUNCHER);
   (popup_layer, WESTON_LAYER_POSITION_UI);
   (layer_shell_0, QDWIN_LAYER_POS_LSHELL_BG);
   (layer_shell_1, WESTON_LAYER_POSITION_BOTTOM_UI);
   (layer_shell_2, QDWIN_LAYER_POS_LSHELL_TOP);
   (layer_shell_3, WESTON_LAYER_POSITION_TOP_UI)].

Definition hide_layers (s : scene) : scene :=
  foldl (fun s x => weston_layer_unset_position (fst x) s) s non_lock_layers.
Definition qdwin_hide_non_lock_layers : qdwin -> qdwin := on_scene hide_layers.

(** [n] times the bottom view of the layer goes to its top. *)
Fixpoint rotate_layer (n : nat) (l : layer) (s : scene) : scene :=
  match n with
  | O => s
  | S n => match last (layer_views l s) with
           | Some v => rotate_layer n l (weston_view_move_to_layer v l s)
           | None => s
           end
  end.

Definition qdwin_layer_remap_after_unlock (l : layer) (s : scene) : scene :=
  if existsb (fun v => negb (weston_view_is_mapped v s)) (layer_views l s)
  then rotate_layer (length (layer_views l s)) l s
  else s.

Definition position_layers (s : scene) : scene :=
  foldl (fun s x => weston_layer_set_position (fst x) (snd x) s) s non_lock_layers.
Definition remap_layers (s : scene) : scene :=
  foldl (fun s x => qdwin_layer_remap_after_unlock (fst x) s) s non_lock_layers.
Definition show_layers (s : scene) : scene :=
  (remap_layers (position_layers s)) <| view_list_needs_rebuild := true |>.
Definition qdwin_show_non_lock_layers : qdwin -> qdwin := on_scene show_layers.

(** ** The lock curtain *)

Definition curtain_to_bottom (v : Z) (s : scene) : scene :=
  let s := if bool_decide (view_layer v s = Some lock_layer) then s
           else weston_view_move_to_layer v lock_layer s in
  splice_to_bottom v lock_layer s.

Definition qdwin_lock_curtain_to_bottom (q : qdwin) : qdwin :=
  match lock_curtain q with
  | None => q
  | Some c => on_scene (curtain_to_bottom (c_view c)) q
  end.

Definition qdwin_remove_lock_curtain (q : qdwin) : qdwin :=
  match lock_curtain q with
  | None => q
  | Some c => q ~> on_scene (weston_view_destroy (c_view c))
                ~> (fun q => q <| lock_curtain := None |>)
  end.

(** The bounding box of the live outputs: [(min_x, min_y, max_x, max_y)]. *)
Definition grow_bbox (b : option (Z * Z * Z * Z)) (o : output) : option (Z * Z * Z * Z) :=
  if out_destroying o then b
  else
    let left := out_x o in let top := out_y o in
    let right := left + out_width o in let bottom := top + out_height o in
    match b with
    | None => Some (left, top, right, bottom)
    | Some (min_x, min_y, max_x, max_y) =>
        Some (if left <? min_x then left else min_x,
              if top <? min_y then top else min_y,
              if max_x <? right then right else max_x,
              if max_y <? bottom then bottom else max_y)
    end.
Definition outputs_bbox (outs : list output) : option (Z * Z * Z * Z) :=
  foldl grow_bbox None outs.

Definition qdwin_install_lock_curtain (q : qdwin) : qdwin :=
  if negb (locked q) then qdwin_remove_lock_curtain q
  else match outputs_bbox (outputs q) with
  | None => q
  | Some (min_x, min_y, max_x, max_y) =>
      if (max_x <=? min_x) || (max_y <=? min_y) then q
      else
        match weston_view_create (qdwin_remove_lock_curtain q) with
        | (None, q) => q
        | (Some v, q) =>
            q ~> (fun q => q <| lock_curtain :=
                    Some (mk_curtain v min_x min_y (max_x - min_x) (max_y - min_y) opaque_black) |>)
              ~> weston_view_set_position v min_x min_y
              ~> on_scene (weston_view_move_to_layer v lock_layer)
              ~> qdwin_lock_curtain_to_bottom
        end
  end.

(** ** The background curtain *)

Definition grow_extent (b : Z * Z) (o : output) : Z * Z :=
  if out_destroying o then b
  else let right := out_x o + out_width o in
       let bottom := out_y o + out_height o in
       (if fst b <? right then right else fst b, if snd b <? bottom then bottom else snd b).

Definition qdwin_refresh_background (q : qdwin) : qdwin :=
  let (max_x, max_y) := foldl grow_extent (0, 0) (outputs q) in
  if (max_x =? 0) || (max_y =? 0) then q
  else
    let q := match background q with
             | Some c => q ~> on_scene (weston_view_destroy (c_view c))
                           ~> (fun q => q <| background := None |>)
             | None => q
             end in
    match weston_view_create q with
    | (None, q) => q
    | (Some v, q) =>
        q ~> (fun q => q <| background := Some (mk_curtain v 0 0 max_x max_y opaque_black) |>)
          ~> weston_view_set_position v 0 0
          ~> on_scene (weston_view_move_to_layer v background_layer)
    end.

(** [qdwin_on_output_changed], for the output [o] that appeared, and
    [qdwin_on_output_resized].  What they do to fractional-scale objects, to
    output-management and ext-workspace clients, to retained captures and to
    the power state of a darkened display touches none of the state here. *)
Definition qdwin_on_output_changed (o : output) (q : qdwin) : qdwin :=
  q <| outputs ::= fun l => l ++ [o] |>
  ~> qdwin_refresh_background
  ~> qdwin_panels_on_output_change
  ~> shell_send 2 (output_created (out_id o)).

Definition qdwin_on_output_resized (o : output) (q : qdwin) : qdwin :=
  q <| outputs ::= map (fun o' => if out_id o' =? out_id o then o else o') |>
  ~> qdwin_refresh_background
  ~> qdwin_panels_on_output_change.

(** ** The locker's window *)

Definition clear_lock_view (q : qdwin) : qdwin :=
  q <| lock_view := None |> <| lock_surface := None |> <| lock_view_is_toplevel := false |>.

Definition qdwin_demote_lock_toplevel (q : qdwin) : qdwin :=
  match lock_toplevel q with
  | None => q
  | Some h =>
      with_tl h (fun tl q =>
        q ~> qdwin_toplevel_move_to_layer h held_layer
          ~> (fun q => if bool_decide (lock_view q = Some (view tl))
                       then clear_lock_view q else q)
          ~> (fun q => q <| lock_toplevel := None |>)) q
  end.

Definition adopt_lock_toplevel (h s v : Z) (q : qdwin) : qdwin :=
  q <| lock_toplevel := Some h |> <| lock_surface := Some s |> <| lock_view := Some v |>
    <| lock_view_is_toplevel := true |>.

Definition qdwin_maybe_promote_lock_toplevel (h : Z) : qdwin -> qdwin :=
  with_tl h (fun tl q =>
    if negb (qdwin_toplevel_is_locker_ui tl q) then q
    else
      q ~> (fun q => match lock_toplevel q with
                     | Some h' => if h' =? h then q else qdwin_demote_lock_toplevel q
                     | None => q
                     end)
        ~> adopt_lock_toplevel h (tl_surface tl) (view tl)
        ~> qdwin_toplevel_move_to_layer h lock_layer
        ~> qdwin_lock_curtain_to_bottom
        ~> qdwin_toplevel_set_fullscreen h true None).

(** ** Keyboard grabs *)

Definition set_grab (i : Z) (g : keyboard_grab) : qdwin -> qdwin :=
  upd_seat i (fun s => s <| kbd_grab := g |>).

Definition keyboard_seat (q : qdwin) : option seat := List.find has_keyboard (seats q).

Definition qdwin_overlay_grab_start (role : Z) (q : qdwin) : qdwin :=
  match keyboard_seat q with
  | None => q
  | Some s =>
      if overlay_grab_active q then q <| overlay_grab_role := role |>
      else q ~> (fun q => q <| overlay_grab_seat := seat_id s |> <| overlay_grab_role := role |>
                            <| overlay_grab_active := true |>)
             ~> set_grab (seat_id s) overlay_grab
  end.

(** [weston_keyboard_send_modifiers] of a seat's keyboard. *)
Definition weston_keyboard_send_modifiers (i : Z) : qdwin -> qdwin :=
  with_seat i (fun s => emit (send_modifiers (kbd_focus s))).

Definition qdwin_overlay_grab_end (q : qdwin) : qdwin :=
  if negb (overlay_grab_active q) then q
  else
    let role := overlay_grab_role q in
    let i := overlay_grab_seat q in
    q ~> (fun q => q <| overlay_grab_active := false |>)
      ~> set_grab i default_grab
      ~> (fun q => if (role =? 2) && negb (locked q)
                   then weston_keyboard_send_modifiers i q else q).

Definition end_locker_grab (q : qdwin) : qdwin :=
  if overlay_grab_active q && (overlay_grab_role q =? 2) then qdwin_overlay_grab_end q else q.

Definition qdwin_switcher_grab_start (i : Z) (q : qdwin) : qdwin :=
  if switcher_grab_active q then q
  else q ~> (fun q => q <| switcher_grab_seat := i |> <| switcher_grab_active := true |>)
         ~> set_grab i switcher_grab.

Definition qdwin_switcher_grab_end (q : qdwin) : qdwin :=
  if negb (switcher_grab_active q) then q
  else
    let i := switcher_grab_seat q in
    q ~> (fun q => q <| switcher_grab_active := false |>) ~> set_grab i default_grab.

(** Alt+Tab, with or without Shift. *)
Definition qdwin_on_switcher_key (i : Z) (q : qdwin) : qdwin :=
  match shell_resource q with
  | None => q
  | Some _ => qdwin_switcher_grab_start i q
  end.

(** What [update_keymap] meets: a keymap that does not compile, or a new one,
    with the change of the modifiers it brings (Alt depressed now, the modifier
    binding fires) and whether modifiers are latched or locked. *)
Inductive keymap_change :=
| keymap_failed
| keymap_installed (mods : option (bool * bool)) (sticky : bool).

(** A key press or release as the grab interfaces see it, with the seat's
    modifier state, the symbol the xkb state resolves the key to, whether
    Shift is down, and the pending keymap if after this key none is down. *)
Record key_event := mk_key_event {
  ke_key : Z; ke_pressed : bool; ke_mods : Z; ke_sym : Z; ke_shift : bool;
  ke_keymap : option keymap_change
}.

Definition KEY_SPACE : Z := 57.
Definition KEY_L : Z := 38.
Definition KEY_TAB : Z := 15.

Definition qdwin_switcher_grab_key (ke : key_event) (q : qdwin) : qdwin :=
  match shell_resource q with
  | None => q
  | Some _ =>
      if negb (ke_pressed ke) then q
      else if ke_key ke =? KEY_TAB then emit (switcher_next (if ke_shift ke then -1 else 1)) q
      else q ~> qdwin_switcher_grab_end ~> emit switcher_commit
  end.

(** [alt] tells whether Alt is still depressed. *)
Definition qdwin_switcher_grab_modifiers (i : Z) (alt : bool) (q : qdwin) : qdwin :=
  let q := weston_keyboard_send_modifiers i q in
  if alt then q
  else q ~> (fun q => match shell_resource q with
                      | Some _ => emit switcher_commit q
                      | None => q
                      end)
         ~> qdwin_switcher_grab_end.

Definition qdwin_overlay_grab_key (ke : key_event) (q : qdwin) : qdwin :=
  if negb (ke_pressed ke) then q
  else if (overlay_grab_role q =? 2) && bool_decide (locker_resource q ≠ None)
  then emit (locker_overlay_key (ke_sym ke)) q
  else match shell_resource q with
       | Some _ => emit (shell_overlay_key (overlay_grab_role q) (ke_sym ke)) q
       | None => q
       end.

Definition qdwin_overlay_grab_modifiers (i : Z) (q : qdwin) : qdwin :=
  if overlay_grab_role q =? 2 then q else weston_keyboard_send_modifiers i q.

(** The default grab of the plugin; forwarding to a nested proxy's input
    socket and the idle bookkeeping are left out. *)
Definition qdwin_proxy_default_grab_key (i : Z) (ke : key_event) (q : qdwin) : qdwin :=
  if locked q then q
  else with_seat i (fun s => emit (send_key (kbd_focus s) (ke_key ke) (ke_pressed ke))) q.

Definition qdwin_proxy_default_grab_modifiers (i : Z) (q : qdwin) : qdwin :=
  if locked q then q else weston_keyboard_send_modifiers i q.

Definition qdwin_on_lock_key (q : qdwin) : qdwin :=
  match locker_resource q with
  | Some _ => emit (locker_lock_requested 3) q
  | None => match shell_resource q with
            | Some r => if 7 <=? res_version r then emit shell_lock_requested q else q
            | None => q
            end
  end.

Definition qdwin_on_launcher_key (q : qdwin) : qdwin :=
  match shell_resource q with Some _ => emit launcher_requested q | None => q end.

Definition qdwin_hotkey_handler (id : Z) (q : qdwin) : qdwin :=
  match shell_resource q with Some _ => emit (hotkey_pressed id) q | None => q end.

(** ** Key bindings *)

Definition MODIFIER_CTRL : Z := 1.
Definition MODIFIER_ALT : Z := 2.
Definition MODIFIER_SUPER : Z := 4.
Definition MODIFIER_SHIFT : Z := 8.

(** The handlers of the bindings the plugin registers, and libweston's. *)
Inductive key_binding :=
| launcher_binding | switcher_binding | lock_binding | hotkey_binding (id : Z)
| libweston_binding (b : weston_binding).
#[global] Instance key_binding_eq_dec : EqDecision key_binding.
Proof. solve_decision. Defined.

Definition qdwin_hotkey_mods_to_weston (mods : Z) : Z :=
  Z.lor (if has_bits mods 1 then MODIFIER_CTRL else 0)
    (Z.lor (if has_bits mods 2 then MODIFIER_ALT else 0)
       (Z.lor (if has_bits mods 4 then MODIFIER_SUPER else 0)
          (if has_bits mods 8 then MODIFIER_SHIFT else 0))).

(** [key_binding_list]: what backend and frontend registered before the shell
    was loaded, the bindings of [wet_shell_init], then the hotkeys in the order
    of their registration ([hotkeys] is newest first). *)
Definition libweston_bindings (q : qdwin) : list (Z * Z * key_binding) :=
  map (fun b => (fst b, libweston_binding (snd b))) (weston_bindings (config q)).
Definition key_binding_list (q : qdwin) : list (Z * Z * key_binding) :=
  libweston_bindings q ++
  [(KEY_SPACE, MODIFIER_CTRL, launcher_binding);
   (KEY_TAB, MODIFIER_ALT, switcher_binding);
   (KEY_TAB, Z.lor MODIFIER_ALT MODIFIER_SHIFT, switcher_binding);
   (KEY_L, Z.lor MODIFIER_CTRL MODIFIER_ALT, lock_binding)]
  ++ map (fun h => (hk_key h, qdwin_hotkey_mods_to_weston (hk_modifiers h),
                    hotkey_binding (hk_id h)))
       (rev (hotkeys (config q))).

Definition binding_matches (ke : key_event) (b : Z * Z * key_binding) : bool :=
  let '(key, mods, _) := b in (key =? ke_key ke) && (mods =? ke_mods ke).

(** libweston's handlers; the debug binding takes the keyboard. *)
Definition weston_binding_handler (i key : Z) (b : weston_binding) (q : qdwin) : qdwin :=
  match b with
  | switch_vt_binding =>
      let vt := key - KEY_F1 + 1 in
      if vt =? weston_vt (config q) then q else emit (vt_activated vt) q
  | fullscreen_binding => emit backend_fullscreen q
  | debug_binding => set_grab i (debug_grab key 0 false false) q
  end.

Definition binding_handler (i key : Z) (b : key_binding) : qdwin -> qdwin :=
  match b with
  | libweston_binding b => weston_binding_handler i key b
  | launcher_binding => qdwin_on_launcher_key
  | switcher_binding => qdwin_on_switcher_key i
  | lock_binding => qdwin_on_lock_key
  | hotkey_binding id => qdwin_hotkey_handler id
  end.

Definition grab_of (i : Z) (q : qdwin) : keyboard_grab :=
  match List.find (fun s => seat_id s =? i) (seats q) with
  | Some s => kbd_grab s
  | None => default_grab
  end.

Definition seat_focus (i : Z) (q : qdwin) : option Z :=
  match List.find (fun s => seat_id s =? i) (seats q) with
  | Some s => kbd_focus s
  | None => None
  end.

(** The leave and enter pair tells the focused surface about the key. *)
Definition install_binding_grab (i key : Z) (focus : option Z) (q : qdwin) : qdwin :=
  let q := set_grab i (binding_grab key) q in
  match focus with
  | Some _ => if bool_decide (seat_focus i q = focus)
              then q ~> weston_keyboard_set_focus i None ~> weston_keyboard_set_focus i focus
              else q
  | None => q
  end.

Definition run_binding (i : Z) (ke : key_event) (q : qdwin) (b : Z * Z * key_binding) : qdwin :=
  if binding_matches ke b then
    let focus := seat_focus i q in
    let q := binding_handler i (ke_key ke) (snd b) q in
    if bool_decide (grab_of i q = default_grab)
    then install_binding_grab i (ke_key ke) focus q else q
  else q.

Definition weston_compositor_run_key_binding (i : Z) (ke : key_event) (q : qdwin) : qdwin :=
  if ke_pressed ke then foldl (run_binding i ke) q (key_binding_list q) else q.

(** libweston's own grab behind a key binding: it swallows the presses of the
    bound key, ends with its release, and hands every other key on to the
    focused client. *)
Definition binding_key (i key : Z) (ke : key_event) (q : qdwin) : qdwin :=
  let forward q := emit (send_key (seat_focus i q) (ke_key ke) (ke_pressed ke)) q in
  if ke_key ke =? key then
    if ke_pressed ke then q else q ~> set_grab i default_grab ~> forward
  else forward q.
Definition binding_modifiers (i : Z) (q : qdwin) : qdwin :=
  emit (send_modifiers (seat_focus i q)) q.

(** libweston's debug grab: it swallows the binding's key and the debug key
    that follows, and hands every other key on to the focused client.  The
    debug bindings themselves belong to renderers and backends. *)
Definition debug_binding_key (i k0 k1 : Z) (r0 r1 : bool) (ke : key_event) (q : qdwin) : qdwin :=
  let key := ke_key ke in
  let forward q := emit (send_key (seat_focus i q) key (ke_pressed ke)) q in
  if negb (ke_pressed ke) then
    let r0 := r0 || (key =? k0) in
    let r1 := r1 || (key =? k1) in
    let q := set_grab i (debug_grab k0 k1 r0 r1) q in
    if r0 && r1 then set_grab i default_grab q
    else if negb (key =? k0) && negb (key =? k1) then forward q else q
  else if (key =? k0) && negb r0 then q
  else if negb (k1 =? 0) then forward q
  else if bool_decide (key ∈ debug_keys (config q)) then set_grab i (debug_grab k0 key r0 r1) q
  else q ~> forward ~> set_grab i default_grab.

Definition grab_key (i : Z) (ke : key_event) (q : qdwin) : qdwin :=
  match grab_of i q with
  | default_grab => qdwin_proxy_default_grab_key i ke q
  | overlay_grab => qdwin_overlay_grab_key ke q
  | switcher_grab => qdwin_switcher_grab_key ke q
  | binding_grab key => binding_key i key ke q
  | debug_grab k0 k1 r0 r1 => debug_binding_key i k0 k1 r0 r1 ke q
  end.

(** The modifier binding: Alt pressed and released alone. *)
Definition qdwin_on_alt_released (q : qdwin) : qdwin :=
  match shell_resource q with Some _ => emit switcher_commit q | None => q end.

(** A changed modifier state; [alt] tells whether Alt is depressed now,
    [alt_tap] whether the modifier binding fires. *)
Definition notify_modifiers (i : Z) (alt alt_tap : bool) (q : qdwin) : qdwin :=
  let q := if alt_tap then qdwin_on_alt_released q else q in
  match grab_of i q with
  | default_grab => qdwin_proxy_default_grab_modifiers i q
  | overlay_grab => qdwin_overlay_grab_modifiers i q
  | switcher_grab => qdwin_switcher_grab_modifiers i alt q
  | binding_grab _ | debug_grab _ _ _ _ => binding_modifiers i q
  end.

(** [update_keymap]: the new keymap goes to every keyboard resource; modifiers
    that are latched or locked go to all of them too, whatever the grab. *)
Definition update_keymap (i : Z) (k : keymap_change) (q : qdwin) : qdwin :=
  match k with
  | keymap_failed => q
  | keymap_installed mods sticky =>
      q ~> emit (keymap_sent i)
        ~> (fun q => match mods with
                     | Some (alt, tap) => notify_modifiers i alt tap q
                     | None => q
                     end)
        ~> (fun q => if sticky then emit (keymap_modifiers i) q else q)
  end.

(** [weston_seat_update_keymap], a backend's call; [k] as for a key. *)
Definition weston_seat_update_keymap (i : Z) (k : option keymap_change) (q : qdwin) : qdwin :=
  match k with Some k => update_keymap i k q | None => q end.

(** libweston's [notify_key]: under the default grab the bindings run first,
    then the grab that is in force afterwards gets the key, then a pending
    keymap is installed.  The change of the modifiers the key makes is a
    [notify_modifiers] of its own.  (The idle bookkeeping is with [Idle], the
    input method's grab with [TextInput]; [ke] is not a repeat.) *)
Definition notify_key (i : Z) (ke : key_event) (q : qdwin) : qdwin :=
  let q := if bool_decide (grab_of i q = default_grab)
           then weston_compositor_run_key_binding i ke q else q in
  weston_seat_update_keymap i (ke_keymap ke) (grab_key i ke q).

(** ** Lock surface *)

(** Mapping the surface does not change the view's place; the curtain and the
    stacking are what the lock depends on. *)
Definition qdwin_lock_surface_place (q : qdwin) : qdwin :=
  match lock_view q, lock_surface q, qdwin_primary_output q with
  | Some v, Some _, Some out => weston_view_set_position v (out_x out) (out_y out) q
  | _, _, _ => q
  end.

Definition qdwin_lock_surface_commit_cb (q : qdwin) : qdwin :=
  q ~> qdwin_lock_surface_place
    ~> (fun q => if locked q then qdwin_lock_curtain_to_bottom q else q).

(** Destroy a raw lock view, forget a promoted one. *)
Definition drop_lock_view (q : qdwin) : qdwin :=
  q ~> (fun q => match lock_view q with
                 | Some v => if lock_view_is_toplevel q then q
                             else on_scene (weston_view_destroy v) q
                 | None => q
                 end)
    ~> (fun q => q <| lock_view := None |> <| lock_view_is_toplevel := false |>).

Definition qdwin_lock_surface_destroyed_cb (q : qdwin) : qdwin :=
  q ~> drop_lock_view
    ~> (fun q => q <| lock_surface := None |>)
    ~> (fun q => if bool_decide (lock_resource q ≠ None) && negb (lock_resource_is_locker q)
                 then emit lock_surface_dismissed q else q)
    ~> (fun q => if locked q && negb (lock_resource_reattach_in_progress q)
                 then q ~> qdwin_demote_lock_toplevel ~> qdwin_install_lock_curtain else q)
    ~> end_locker_grab.

Definition qdwin_lock_surface_resource_destroyed (q : qdwin) : qdwin :=
  q ~> (fun q => q <| lock_resource := None |>)
    ~> drop_lock_view
    ~> (fun q => q <| lock_surface := None |>)
    ~> (fun q => if locked q && negb (lock_resource_reattach_in_progress q)
                 then qdwin_demote_lock_toplevel q else q)
    ~> (fun q => q <| lock_resource_is_locker := false |>)
    ~> end_locker_grab.

Definition destroy_lock_resource (q : qdwin) : qdwin :=
  match lock_resource q with
  | Some _ => qdwin_lock_surface_resource_destroyed q
  | None => q
  end.

Definition adopt_lock_surface (id s : Z) (locker : bool) (q : qdwin) : qdwin :=
  q <| lock_resource := Some id |> <| lock_resource_is_locker := locker |>
    <| lock_surface := Some s |> <| lock_view_is_toplevel := false |>
    <| lock_toplevel := None |>.

(** The common tail of both attach requests. *)
Definition attach_lock_view (id s : Z) (locker : bool) (arm : bool) (q : qdwin) : qdwin :=
  let q := adopt_lock_surface id s locker q in
  match weston_view_create q with
  | (None, q) => q <| lock_view := None |> <| lock_surface := None |>
                   <| lock_resource := None |> <| lock_resource_is_locker := false |>
  | (Some v, q) =>
      q ~> (fun q => q <| lock_view := Some v |>)
        ~> on_scene (weston_view_move_to_layer v lock_layer)
        ~> qdwin_lock_surface_place
        ~> (fun q => if locked q && arm then qdwin_overlay_grab_start 2 q else q)
  end.

Definition qdwin_handle_attach_lock_surface (r : wl_resource) (id : Z) (surface : option Z)
  : qdwin -> qdwin :=
  shell_request r (fun q =>
    match surface with
    | None => q
    | Some s => q ~> destroy_lock_resource
                  ~> attach_lock_view id s false (17 <=? res_version r)
    end).

(** A locker request: the protocol error unless the resource holds the role. *)
Definition locker_request (r : wl_resource) (k : qdwin -> qdwin) (q : qdwin) : qdwin :=
  if bool_decide (locker_resource q = Some r) then k q
  else emit (post_error (res_id r) LOCKER_NOT_BOUND) q.

Definition qdwin_handle_locker_attach_lock_surface (r : wl_resource) (id : Z)
    (surface : option Z) : qdwin -> qdwin :=
  locker_request r (fun q =>
    match surface with
    | None => q
    | Some s =>
        q ~> (fun q => match lock_resource q with
                       | Some _ => q ~> (fun q => q <| lock_resource_reattach_in_progress := true |>)
                                     ~> qdwin_lock_surface_resource_destroyed
                                     ~> (fun q => q <| lock_resource_reattach_in_progress := false |>)
                       | None => q
                       end)
          ~> attach_lock_view id s true true
    end).

(** ** Locking and unlocking *)

Definition all_streams (s : view_stream) : bool := true.
Definition set_lock_state (b : bool) (q : qdwin) : qdwin := q <| locked := b |>.

(** [qdwin_shell_v1_send_locked_changed] goes to any shell resource. *)
Definition send_locked_changed (b : bool) (q : qdwin) : qdwin :=
  match shell_resource q with Some _ => emit (shell_locked_changed b) q | None => q end.
Definition send_locker_locked_changed (b : bool) (q : qdwin) : qdwin :=
  match locker_resource q with Some _ => emit (locker_locked_changed b) q | None => q end.

Definition shell_lock (version : Z) (q : qdwin) : qdwin :=
  q ~> set_lock_state true
    ~> terminate_streams all_streams "compositor locked"
    ~> (fun q => if 17 <=? version then qdwin_overlay_grab_start 2 q else q)
    ~> qdwin_install_lock_curtain
    ~> qdwin_hide_non_lock_layers
    ~> send_locked_changed true.

Definition shell_unlock (q : qdwin) : qdwin :=
  q ~> set_lock_state false
    ~> qdwin_remove_lock_curtain
    ~> end_locker_grab
    ~> qdwin_show_non_lock_layers
    ~> send_locked_changed false.

Definition qdwin_handle_set_locked (r : wl_resource) (lock : Z) : qdwin -> qdwin :=
  shell_request r (fun q =>
    let want := negb (lock =? 0) in
    if Bool.eqb (locked q) want then q
    else if want && bool_decide (lock_surface q = None) then q
    else if want then shell_lock (res_version r) q else shell_unlock q).

Definition promote_all (q : qdwin) : qdwin :=
  foldl (fun q tl => qdwin_maybe_promote_lock_toplevel (handle tl) q) q (toplevels q).

Definition locker_lock (q : qdwin) : qdwin :=
  q ~> set_lock_state true
    ~> terminate_streams all_streams "compositor locked"
    ~> qdwin_install_lock_curtain
    ~> promote_all
    ~> qdwin_overlay_grab_start 2
    ~> qdwin_hide_non_lock_layers
    ~> send_locked_changed true
    ~> send_locker_locked_changed true.

Definition locker_unlock (q : qdwin) : qdwin :=
  q ~> set_lock_state false
    ~> qdwin_remove_lock_curtain
    ~> qdwin_demote_lock_toplevel
    ~> end_locker_grab
    ~> qdwin_show_non_lock_layers
    ~> send_locked_changed false
    ~> send_locker_locked_changed false.

Definition qdwin_handle_locker_set_locked (r : wl_resource) (lock : Z) : qdwin -> qdwin :=
  locker_request r (fun q =>
    let want := negb (lock =? 0) in
    if Bool.eqb (locked q) want then q
    else if want then locker_lock q else locker_unlock q).

Definition qdwin_handle_lock_acknowledged (r : wl_resource) (reason : Z) : qdwin -> qdwin :=
  locker_request r (fun q =>
    if 3 <? reason then emit (post_error (res_id r) LOCKER_INVALID_REASON) q else q).

(** ** The locker's life cycle *)

Definition qdwin_locker_peer_alive (p : procfs) (q : qdwin) : bool :=
  match locker_resource q with
  | None => false
  | Some _ =>
      if locker_pid q <=? 0 then false
      else if pid_gone p (locker_pid q) then false
      else
        let st_now := qdwin_proc_starttime (locker_pid q) p in
        if negb (locker_starttime q =? 0) then
          if negb (st_now =? 0) then st_now =? locker_starttime q else true
        else true
  end.

Definition forget_locker (q : qdwin) : qdwin :=
  q <| locker_resource := None |> <| locker_pid := 0 |> <| locker_uid := -1 |>
    <| locker_starttime := 0 |>.

Definition qdwin_locker_resource_destroy (r : wl_resource) (q : qdwin) : qdwin :=
  if bool_decide (locker_resource q = Some r)
  then q ~> qdwin_demote_lock_toplevel ~> forget_locker ~> end_locker_grab
  else q.

Definition adopt_locker (r : wl_resource) (pid uid st : Z) (q : qdwin) : qdwin :=
  q <| locker_resource := Some r |> <| locker_pid := pid |> <| locker_uid := uid |>
    <| locker_starttime := st |>.

(** [pid] and [uid] are the credentials of the requesting client. *)
Definition qdwin_handle_bind_as_locker (p : procfs) (r : wl_resource) (pid uid : Z)
    (q : qdwin) : qdwin :=
  if bool_decide (locker_resource q = Some r)
  then emit (post_error (res_id r) LOCKER_ALREADY_BOUND) q
  else
    let taken := match locker_resource q with
                 | Some old => if qdwin_locker_peer_alive p q then None
                               else Some (qdwin_locker_resource_destroy old q)
                 | None => Some q
                 end in
    match taken with
    | None => emit (post_error (res_id r) LOCKER_PRESENT) q
    | Some q =>
        q ~> adopt_locker r pid uid (qdwin_proc_starttime pid p)
          ~> emit (locker_ready (locked q))
          ~> (fun q => if locked q then qdwin_overlay_grab_start 2 q else q)
    end.

(** The bind gate: the resource handed out, or the error.  [before], [during]
    and [after] are the file-system states of the first start-time sample, of
    the identity reads and of the second sample. *)
Definition locker_identity_ok (before during after : procfs) (pid : Z) (q : qdwin) : bool :=
  match allowed_locker_entrypoint q, allowed_locker_exe q, allowed_locker_label q with
  | None, None, None => true
  | entry, exe, label =>
      let st_before := qdwin_proc_starttime pid before in
      let st_after := qdwin_proc_starttime pid after in
      match entry with
      | Some e => qdwin_exe_is_system_interpreter (qdwin_proc_exe pid during)
                  && qdwin_path_is_trusted_entrypoint (qdwin_proc_argv1 pid during) e during
      | None => true
      end
      && match exe with Some e => String.eqb (qdwin_proc_exe pid during) e | None => true end
      && match label with
         | Some l => String.eqb (qdwin_proc_selinux_label pid during) l
         | None => true
         end
      && negb (st_before =? 0) && negb (st_after =? 0) && (st_before =? st_after)
  end.

Definition bind_qdwin_locker (before during after : procfs) (client pid uid version id : Z)
    (q : qdwin) : option wl_resource * qdwin :=
  if bool_decide (client ∈ secctx_clients q) then (None, emit (implementation_error client) q)
  else if negb (uid =? allowed_locker_uid q) then (None, emit (implementation_error client) q)
  else if negb (locker_identity_ok before during after pid q)
  then (None, emit (implementation_error client) q)
  else (Some (mk_resource id version client), q).

(** ** Launcher overlays *)

Definition upd_launcher (i : Z) (f : launcher -> launcher) (q : qdwin) : qdwin :=
  q <| launchers ::= map (fun l => if l_id l =? i then f l else l) |>.

Definition qdwin_launcher_place (ln : launcher) (q : qdwin) : qdwin :=
  match l_output ln, l_surface ln with
  | Some out, Some (_, bw, bh) =>
      if (l_view ln =? NULL_VIEW) || (bw <=? 0) || (bh <=? 0) then q
      else weston_view_set_position (l_view ln)
             (out_x out + cdiv (out_width out - bw) 2)
             (out_y out + cdiv (out_height out - bh) 2) q
  | _, _ => q
  end.

Definition with_launcher (i : Z) (k : launcher -> qdwin -> qdwin) (q : qdwin) : qdwin :=
  match List.find (fun l => l_id l =? i) (launchers q) with Some l => k l q | None => q end.

Definition destroy_launcher_view (ln : launcher) (q : qdwin) : qdwin :=
  if l_view ln =? NULL_VIEW then q else on_scene (weston_view_destroy (l_view ln)) q.

Definition qdwin_launcher_surface_destroyed (i : Z) : qdwin -> qdwin :=
  with_launcher i (fun ln q =>
    q ~> destroy_launcher_view ln
      ~> upd_launcher i (fun l => l <| l_view := NULL_VIEW |> <| l_surface := None |>)
      ~> emit (launcher_dismissed i)).

Definition qdwin_launcher_resource_destroyed (i : Z) : qdwin -> qdwin :=
  with_launcher i (fun ln q =>
    q ~> destroy_launcher_view ln
      ~> (fun q => q <| launchers ::= List.filter (fun l => negb (l_id l =? i)) |>)
      ~> (fun q => if (l_kind ln =? 0) && overlay_grab_active q && (overlay_grab_role q =? 0)
                   then qdwin_overlay_grab_end q else q)).

Definition qdwin_handle_attach_launcher (r : wl_resource) (id : Z)
    (surface : option (Z * Z * Z)) (kind : Z) : qdwin -> qdwin :=
  shell_request r (fun q =>
    match surface with
    | None => q
    | Some s =>
        match weston_view_create q with
        | (None, q) => q
        | (Some v, q) =>
            let ln := mk_launcher id (Some s) v (qdwin_primary_output q) kind in
            q ~> on_scene (weston_view_move_to_layer v launcher_layer)
              ~> (fun q => q <| launchers ::= cons ln |>)
              ~> qdwin_launcher_place ln
              ~> (fun q => if (kind =? 0) && (17 <=? res_version r)
                           then qdwin_overlay_grab_start 0 q else q)
        end
    end).
