(* ===== verification/Config.v ===== *)
(** * Config: what the shell configures

    Window-manager policy and focus-follows-mouse, display power, pointer and
    key-repeat settings, hotkeys and the input gate of remote outputs of
    [qdwin.c], with the resets the loss of the shell runs. *)

From stdpp Require Import base list gmap strings option.
From S2P Require Import Prelude Logic Scene Procfs State Toplevel Focus Placement Lock.
Import InputConfig.

Definition upd_config (f : shell_config -> shell_config) (q : qdwin) : qdwin :=
  q <| config ::= f |>.

Definition set_policy (p : wm_policy) (q : qdwin) : qdwin := q <| policy := p |>.

(** ** Focus follows mouse *)

Definition disarm_ffm (c : shell_config) : shell_config :=
  c <| ffm_pending_handle := 0 |> <| ffm_armed := None |>.
Definition qdwin_ffm_cancel : qdwin -> qdwin := upd_config disarm_ffm.

Definition follows_mouse (q : qdwin) : bool :=
  focus_policy (policy q) =? QDWIN_FOCUS_FOLLOW_MOUSE.

Definition arm_ffm (h delay : Z) (c : shell_config) : shell_config :=
  c <| ffm_pending_handle := h |> <| ffm_armed := Some delay |>.

(** [under] is the toplevel [qdwin_toplevel_at_pos] finds under the pointer of
    seat [i]. *)
Definition qdwin_ffm_consider (i : Z) (under : option Z) (q : qdwin) : qdwin :=
  if locked q || move_grab_active q || negb (follows_mouse q) then q
  else match under ≫= fun h => qdwin_toplevel_from_handle h q with
  | None => qdwin_ffm_cancel q
  | Some tl =>
      if bool_decide (seat_focus i q = Some (tl_surface tl)) then qdwin_ffm_cancel q
      else if ffm_delay_ms (policy q) =? 0 then
        q ~> upd_config (fun c => c <| ffm_pending_handle := 0 |>)
          ~> qdwin_toplevel_focus (handle tl) (raise_on_hover (policy q))
      else if ffm_pending_handle (config q) =? handle tl then q
      else upd_config (arm_ffm (handle tl)
             (Z.min (ffm_delay_ms (policy q)) QDWIN_FFM_DELAY_MAX)) q
  end.

(** The timer has fired; [under] is the toplevel under the first pointer. *)
Definition qdwin_ffm_timer_cb (under : option Z) (q : qdwin) : qdwin :=
  let q := upd_config (fun c => c <| ffm_armed := None |>) q in
  if locked q || move_grab_active q || negb (follows_mouse q) then q
  else if bool_decide (first_pointer q = None) then q
  else match under ≫= fun h => qdwin_toplevel_from_handle h q with
  | None => q
  | Some tl =>
      if handle tl =? ffm_pending_handle (config q)
      then qdwin_toplevel_focus (handle tl) (raise_on_hover (policy q)) q else q
  end.

(** ** Window-manager policy *)

Definition known_placement (p : Z) : bool :=
  bool_decide (p ∈ [QDWIN_PLACE_CENTER; QDWIN_PLACE_UNDER_MOUSE; QDWIN_PLACE_SMART;
                    QDWIN_PLACE_CASCADE]).

Definition clamp (lo hi x : Z) : Z := if x <? lo then lo else if hi <? x then hi else x.

Definition sanitize_policy (focus delay click hover place snap dist : Z) : wm_policy :=
  mk_wm_policy
    (if focus =? QDWIN_FOCUS_FOLLOW_MOUSE then QDWIN_FOCUS_FOLLOW_MOUSE else QDWIN_FOCUS_CLICK)
    (if QDWIN_FFM_DELAY_MAX <? delay then QDWIN_FFM_DELAY_MAX else delay)
    (negb (click =? 0)) (negb (hover =? 0))
    (if known_placement place then place else QDWIN_PLACE_SMART)
    (negb (snap =? 0)) (clamp QDWIN_SNAP_DIST_MIN QDWIN_SNAP_DIST_MAX dist).

Definition qdwin_handle_set_wm_policy (r : wl_resource)
    (focus delay click hover place snap dist : Z) : qdwin -> qdwin :=
  shell_request r (fun q =>
    q ~> set_policy (sanitize_policy focus delay click hover place snap dist)
      ~> (fun q => if follows_mouse q then q else qdwin_ffm_cancel q)).

(** ** Display power *)

Definition qdwin_set_all_outputs_power (on : bool) (q : qdwin) : qdwin :=
  foldl (fun q o => emit (output_power (out_id o) on) q) q (outputs q).

Definition qdwin_handle_set_display_power (r : wl_resource) (on : Z) : qdwin -> qdwin :=
  shell_request r (fun q =>
    q ~> upd_config (fun c => c <| display_forced_off := (on =? 0) |>)
      ~> qdwin_set_all_outputs_power (negb (on =? 0))).

(** ** Pointer configuration *)

Definition QDWIN_ACCEL_SPEED_MIN : Z := -1000.
Definition QDWIN_ACCEL_SPEED_MAX : Z := 1000.

Definition when {A} (b : bool) (l : list A) : list A := if b then l else [].

Definition qdwin_pointer_config_apply_device (pc : pointer_config) (d : libinput_device)
    : list libinput_call :=
  if negb (pc_valid pc) then []
  else
    when (accel_is_available d)
      (accel_set_speed (pc_accel_speed pc)
       :: let want := qdwin_accel_profile_to_libinput (pc_accel_profile pc) in
          when (bool_decide (want ∈ accel_profiles d)) [accel_set_profile want])
    ++ when (has_natural_scroll d) [scroll_set_natural_scroll_enabled (pc_natural_scroll pc)]
    ++ when (0 <? tap_finger_count d) [tap_set_enabled (pc_tap_to_click pc)]
    ++ when (left_handed_is_available d) [left_handed_set (pc_left_handed pc)]
    ++ when (middle_emulation_is_available d)
         [middle_emulation_set_enabled (pc_middle_emulation pc)]
    ++ when (dwt_is_available d) [dwt_set_enabled (pc_disable_while_typing pc)]
    ++ let want := qdwin_scroll_method_to_libinput (pc_scroll_method pc) in
       when (bool_decide (want = LIBINPUT_CONFIG_SCROLL_NO_SCROLL)
             || bool_decide (want ∈ scroll_methods d)) [scroll_set_method want].

Definition qdwin_pointer_config_reset_device (d : libinput_device) : list libinput_call :=
  when (accel_is_available d)
    (accel_set_speed (accel_default_speed d)
     :: when (bool_decide (accel_default_profile d ∈ accel_profiles d))
          [accel_set_profile (accel_default_profile d)])
  ++ when (has_natural_scroll d) [scroll_set_natural_scroll_enabled (default_natural_scroll d)]
  ++ when (0 <? tap_finger_count d) [tap_set_enabled (default_tap d)]
  ++ when (left_handed_is_available d) [left_handed_set (default_left_handed d)]
  ++ when (middle_emulation_is_available d)
       [middle_emulation_set_enabled (default_middle_emulation d)]
  ++ when (dwt_is_available d) [dwt_set_enabled (default_dwt d)]
  ++ when (bool_decide (default_scroll_method d = LIBINPUT_CONFIG_SCROLL_NO_SCROLL)
           || bool_decide (default_scroll_method d ∈ scroll_methods d))
       [scroll_set_method (default_scroll_method d)].

(** A seat of the libinput backend: not one the plugin or the RDP backend
    made. *)
Definition libinput_seat (name : string) : bool :=
  negb (String.prefix "rdp-" name) && negb (String.prefix "qdwin-" name).

Definition config_device (fn : libinput_device -> list libinput_call) (q : qdwin)
    (d : libinput_device) : qdwin :=
  foldl (fun q c => emit (libinput_config (dev_id d) c) q) q (fn d).

Definition qdwin_pointer_config_walk (fn : libinput_device -> list libinput_call) (q : qdwin)
    : qdwin :=
  if negb (libinput_backend (config q)) then q
  else foldl (config_device fn) q
         (List.filter (fun d => libinput_seat (dev_seat_name d)) (devices (config q))).

Definition qdwin_pointer_config_apply_all (q : qdwin) : qdwin :=
  let pc := the_pointer_config (config q) in
  if pc_valid pc then qdwin_pointer_config_walk (qdwin_pointer_config_apply_device pc) q else q.

Definition qdwin_pointer_config_reset_all : qdwin -> qdwin :=
  qdwin_pointer_config_walk qdwin_pointer_config_reset_device.

Definition sanitize_pointer_config (speed profile natural tap left middle dwt scroll : Z)
    : pointer_config :=
  mk_pointer_config true (clamp QDWIN_ACCEL_SPEED_MIN QDWIN_ACCEL_SPEED_MAX speed)
    (if profile =? QDWIN_LOGIC_ACCEL_FLAT then QDWIN_LOGIC_ACCEL_FLAT else 0)
    (negb (natural =? 0)) (negb (tap =? 0)) (negb (left =? 0)) (negb (middle =? 0))
    (negb (dwt =? 0))
    (if bool_decide (scroll ∈ [QDWIN_LOGIC_SCROLL_NONE; QDWIN_LOGIC_SCROLL_TWO_FINGER;
                               QDWIN_LOGIC_SCROLL_EDGE; QDWIN_LOGIC_SCROLL_ON_BUTTON_DOWN])
     then scroll else QDWIN_LOGIC_SCROLL_TWO_FINGER).

Definition qdwin_handle_set_pointer_config (r : wl_resource)
    (speed profile natural tap left middle dwt scroll : Z) : qdwin -> qdwin :=
  shell_request r (fun q =>
    if locked q then q
    else q ~> upd_config (fun c => c <| the_pointer_config :=
                sanitize_pointer_config speed profile natural tap left middle dwt scroll |>)
           ~> qdwin_pointer_config_apply_all).

(** ** Key repeat *)

Definition QDWIN_KB_RATE_MAX : Z := 255.
Definition QDWIN_KB_DELAY_MIN : Z := 1.
Definition QDWIN_KB_DELAY_MAX : Z := 10000.

(** One event stands for the [repeat_info] sent to every keyboard resource of
    the seat. *)
Definition qdwin_resend_repeat_info (q : qdwin) : qdwin :=
  foldl (fun q s => if has_keyboard s
                    then emit (repeat_info (seat_id s) (kb_repeat_rate (config q))
                                 (kb_repeat_delay (config q))) q
                    else q) q (seats q).

Definition remember_repeat (c : shell_config) : shell_config :=
  if kb_repeat_overridden c then c
  else c <| default_kb_repeat_rate := kb_repeat_rate c |>
         <| default_kb_repeat_delay := kb_repeat_delay c |>
         <| kb_repeat_overridden := true |>.

Definition set_repeat (rate delay : Z) (c : shell_config) : shell_config :=
  c <| kb_repeat_rate := rate |> <| kb_repeat_delay := delay |>.

Definition qdwin_handle_set_key_repeat (r : wl_resource) (rate delay : Z) : qdwin -> qdwin :=
  shell_request r (fun q =>
    if locked q then q
    else q ~> upd_config remember_repeat
           ~> upd_config (set_repeat (if QDWIN_KB_RATE_MAX <? rate then QDWIN_KB_RATE_MAX else rate)
                            (clamp QDWIN_KB_DELAY_MIN QDWIN_KB_DELAY_MAX delay))
           ~> qdwin_resend_repeat_info).

(** ** Hotkeys *)

Definition qdwin_hotkey_find (id : Z) (q : qdwin) : option hotkey :=
  List.find (fun h => hk_id h =? id) (hotkeys (config q)).

(** The entry found by its identifier leaves the list. *)
Fixpoint drop_hotkey (id : Z) (l : list hotkey) : list hotkey :=
  match l with
  | [] => []
  | h :: l => if hk_id h =? id then l else h :: drop_hotkey id l
  end.

Definition qdwin_hotkey_destroy (id : Z) : qdwin -> qdwin :=
  upd_config (fun c => c <| hotkeys ::= drop_hotkey id |>).

Definition qdwin_handle_register_hotkey (r : wl_resource) (id modifiers key : Z) (q : qdwin)
    : qdwin :=
  if key =? 0 then q
  else shell_request r (fun q =>
    q ~> (fun q => match qdwin_hotkey_find id q with
                   | Some _ => qdwin_hotkey_destroy id q
                   | None => q
                   end)
      ~> (fun q => if oom q then q
                   else upd_config (fun c => c <| hotkeys ::= cons (mk_hotkey id modifiers key) |>)
                          q)) q.

Definition qdwin_handle_unregister_hotkey (r : wl_resource) (id : Z) : qdwin -> qdwin :=
  shell_request r (fun q =>
    match qdwin_hotkey_find id q with
    | Some _ => qdwin_hotkey_destroy id q
    | None => q
    end).

Definition qdwin_hotkeys_purge : qdwin -> qdwin := upd_config (fun c => c <| hotkeys := [] |>).

(** ** Remote outputs *)

Definition qdwin_remote_output_name_valid (name : string) : bool :=
  match strip_prefix "rdp-" name with
  | None => false
  | Some digits =>
      negb (String.eqb digits "") && forallb is_digit (String.list_ascii_of_string digits)
      && (length (String.list_ascii_of_string digits) <=? 3)%nat
  end.

(** [pending] stands for the names on the compositor's pending output list,
    with the identifiers of their outputs. *)
Definition qdwin_set_remote_output_input (pending : list (string * Z)) (name : string)
    (enabled : bool) (q : qdwin) : qdwin :=
  if negb (qdwin_remote_output_name_valid name) then q
  else if negb (rdp_api (config q)) then q
  else match List.find (fun p => String.eqb (fst p) name)
               (map (fun o => (out_name o, out_id o)) (outputs q) ++ pending) with
  | Some (_, o) => emit (rdp_input o enabled) q
  | None => q
  end.

Definition revoke_remote_input (pending : list (string * Z)) (q : qdwin) : qdwin :=
  foldl (fun q o => if qdwin_remote_output_name_valid (out_name o)
                    then qdwin_set_remote_output_input pending (out_name o) false q else q)
    q (outputs q).

(** ** The loss of the shell *)

Definition restore_power (q : qdwin) : qdwin :=
  if display_forced_off (config q)
  then q ~> upd_config (fun c => c <| display_forced_off := false |>)
         ~> qdwin_set_all_outputs_power true
  else q.

Definition restore_pointer_config (q : qdwin) : qdwin :=
  q ~> (fun q => if pc_valid (the_pointer_config (config q))
                 then qdwin_pointer_config_reset_all q else q)
    ~> upd_config (fun c => c <| the_pointer_config ::= (fun p => p <| pc_valid := false |>) |>).

Definition forget_repeat (c : shell_config) : shell_config :=
  set_repeat (default_kb_repeat_rate c) (default_kb_repeat_delay c) c
    <| kb_repeat_overridden := false |>.

Definition restore_key_repeat (q : qdwin) : qdwin :=
  if kb_repeat_overridden (config q)
  then q ~> upd_config forget_repeat ~> qdwin_resend_repeat_info
  else q.
