(* ===== verification/Clipboard.v ===== *)
(** * Clipboard: the gate on pasting

    The wrapped data sources of [qdwin.c]: a receive on a published selection
    reaches the plugin's [send] callback, which holds the descriptor until the
    shell decides, the request times out, or one of its parties goes away. *)

From stdpp Require Import base list gmap strings option.
From S2P Require Import Prelude Logic Scene State.

Definition QDWIN_MIME_TYPE_MAX : nat := 4096.

Definition upd_clip (f : clipboard -> clipboard) (q : qdwin) : qdwin := q <| clip ::= f |>.

Definition qdwin_toplevel_for_client (client : option Z) (q : qdwin) : option toplevel :=
  match client with
  | None => None
  | Some c => List.find (fun tl => match desktop tl with
                                   | Some d => bool_decide (ds_client d = Some c)
                                   | None => false
                                   end) (toplevels q)
  end.

Definition find_source (src : Z) (q : qdwin) : option data_source :=
  List.find (fun s => src_id s =? src) (data_sources (clip q)).
Definition upd_source (src : Z) (f : data_source -> data_source) : qdwin -> qdwin :=
  upd_clip (fun c => c <| data_sources ::= map (fun s => if src_id s =? src then f s else s) |>).

Definition qdwin_data_source_wrap_find (src : Z) (q : qdwin) : option data_source_wrap :=
  List.find (fun w => w_source w =? src) (data_source_wraps (clip q)).

Definition qdwin_install_data_source_wrap (seat src : Z) (q : qdwin) : qdwin :=
  match find_source src q with
  | None => q
  | Some s =>
      match src_send s with
      | send_shim | no_send => q
      | original_send =>
          if oom q then upd_source src (fun s => s <| src_send := send_shim |>) q
          else q ~> upd_source src (fun s => s <| src_send := send_shim |>)
                 ~> upd_clip (fun c => c <| data_source_wraps ::=
                                              cons (mk_data_source_wrap src seat) |>)
      end
  end.

(** ** Pending receives *)

(** [wl_list_remove] of the entry that holds the descriptor [fd]. *)
Fixpoint unlink_pending (fd : Z) (l : list data_offer_pending) : list data_offer_pending :=
  match l with
  | [] => []
  | p :: l => if dp_fd p =? fd then l else p :: unlink_pending fd l
  end.

Definition drop_pending (p : data_offer_pending) : qdwin -> qdwin :=
  upd_clip (fun c => c <| data_offers ::= unlink_pending (dp_fd p) |>).

Definition qdwin_data_offer_pending_close (p : data_offer_pending) (allow : bool) (q : qdwin)
    : qdwin :=
  if allow && bool_decide (qdwin_data_source_wrap_find (dp_wrap p) q ≠ None)
  then emit (source_send (dp_wrap p) (dp_mime p) (dp_fd p)) q
  else emit (fd_closed (dp_fd p)) q.

(** Freeing an entry that still owns its descriptor closes it. *)
Definition qdwin_data_offer_pending_free (q : qdwin) (p : data_offer_pending) : qdwin :=
  q ~> drop_pending p ~> emit (fd_closed (dp_fd p)).

Definition free_matching (sel : data_offer_pending -> bool) (q : qdwin) : qdwin :=
  foldl qdwin_data_offer_pending_free q (List.filter sel (data_offers (clip q))).

Definition qdwin_data_offer_pending_free_all : qdwin -> qdwin := free_matching (fun _ => true).

(** Every entry listens for the destruction of its receiving client. *)
Definition qdwin_data_offer_target_destroyed (client : Z) : qdwin -> qdwin :=
  free_matching (fun p => dp_target p =? client).

(** The timer of the entry that holds [fd]. *)
Definition qdwin_data_offer_pending_timeout_cb (fd : Z) (q : qdwin) : qdwin :=
  match List.find (fun p => dp_fd p =? fd) (data_offers (clip q)) with
  | Some p => q ~> qdwin_data_offer_pending_close p false ~> drop_pending p
  | None => q
  end.

(** The source goes away with its wrap. *)
Definition qdwin_data_source_wrap_on_source_destroy (src : Z) (q : qdwin) : qdwin :=
  q ~> (fun q => match qdwin_data_source_wrap_find src q with
                 | Some _ => free_matching (fun p => dp_wrap p =? src) q
                 | None => q
                 end)
    ~> upd_clip (fun c => c
         <| data_source_wraps ::= List.filter (fun w => negb (w_source w =? src)) |>
         <| data_sources ::= List.filter (fun s => negb (src_id s =? src)) |>).

(** ** The gate *)

Definition next_receive_handle (n : Z) : Z :=
  let h := u32_succ n in if h =? 0 then u32_succ h else h.

Definition mime_ok (mime : option string) : bool :=
  match mime with Some m => (String.length m <=? QDWIN_MIME_TYPE_MAX)%nat | None => true end.

Definition queue_pending (h src fd target : Z) (mime : string) : qdwin -> qdwin :=
  upd_clip (fun c => c <| data_offer_receive_next_handle := h |>
                       <| data_offers ::= cons (mk_data_offer_pending h src fd mime target) |>).

(** [timer] tells whether the event loop could arm the two-second timeout. *)
Definition qdwin_data_source_send_shim (timer : bool) (src : Z) (mime : option string) (fd : Z)
    (q : qdwin) : qdwin :=
  match qdwin_data_source_wrap_find src q, find_source src q with
  | Some w, Some s =>
      if negb (shell_version_ge 15 q) then emit (fd_closed fd) q
      else if negb (mime_ok mime) then emit (fd_closed fd) q
      else match qdwin_toplevel_for_client (src_client s) q,
                 qdwin_toplevel_for_client (src_offer_client s) q, src_offer_client s with
      | Some src_tl, Some dst_tl, Some target =>
          if oom q then emit (fd_closed fd) q
          else
            let h := next_receive_handle (data_offer_receive_next_handle (clip q)) in
            let m := default "" mime in
            let q := queue_pending h src fd target m q in
            if timer
            then emit (data_offer_receive_pending h (w_seat w) (handle src_tl) (handle dst_tl) m) q
            else qdwin_data_offer_pending_free q (mk_data_offer_pending h src fd m target)
      | _, _, _ => emit (fd_closed fd) q
      end
  | _, _ => emit (fd_closed fd) q
  end.

(** [wl_data_offer.receive] calls the source's [send]. *)
Definition data_offer_receive (timer : bool) (src : Z) (mime : option string) (fd : Z) (q : qdwin)
    : qdwin :=
  match find_source src q with
  | None => emit (fd_closed fd) q
  | Some s =>
      match src_send s with
      | no_send => emit (fd_closed fd) q
      | original_send => emit (source_send src (default "" mime) fd) q
      | send_shim => qdwin_data_source_send_shim timer src mime fd q
      end
  end.

Definition qdwin_data_offer_pending_find (h : Z) (q : qdwin) : option data_offer_pending :=
  List.find (fun p => dp_handle p =? h) (data_offers (clip q)).

Definition qdwin_handle_data_offer_receive_decision (r : wl_resource) (h : Z)
    (decision : option string) : qdwin -> qdwin :=
  shell_request r (fun q =>
    match qdwin_data_offer_pending_find h q with
    | None => q
    | Some p => q ~> qdwin_data_offer_pending_close p (bool_decide (decision = Some "allow"))
                  ~> drop_pending p
    end).

(** [weston_seat_set_selection] on a seat the plugin tracks.  [stale]: the
    serial is older than that of the selection there is; [old]: the source of
    that selection, which is cancelled.  Of the listeners of [selection_signal]
    libweston's clipboard manager comes first: it asks the source for its first
    type, on a pipe of its own ([read]: the type and the writing end; nothing
    without a type, without a pipe, or for its own cached copy).  The plugin's
    listener then wraps the source. *)
Definition set_selection (stale : bool) (old : option Z) (read : option (string * Z)) (timer : bool)
    (seat src : Z) (client : option Z) (q : qdwin) : qdwin :=
  if stale then q
  else
    q ~> (fun q => match find_source src q with
                   | Some _ => q
                   | None => upd_clip (fun c => c <| data_sources ::=
                               cons (mk_data_source src original_send client None) |>) q
                   end)
      ~> (fun q => match old with Some o => emit (source_cancelled o) q | None => q end)
      ~> (fun q => match read with
                   | Some (mime, fd) => data_offer_receive timer src (Some mime) fd q
                   | None => q
                   end)
      ~> qdwin_install_data_source_wrap seat src.

(** The selection is offered to the client that gets the focus. *)
Definition send_selection (src : Z) (client : option Z) : qdwin -> qdwin :=
  upd_source src (fun s => s <| src_offer_client := client |>).
