(* ===== verification/Activation.v ===== *)
(** * Activation: xdg-activation and its broker

    The activation tokens of [qdwin.c] and the activations that wait for the
    shell's decision.  A token is named by its resource; a pending activation
    points to its target toplevel, whose handle stands for the pointer. *)

From stdpp Require Import base list gmap strings option.
From S2P Require Import Prelude Logic Scene State Toplevel Focus.

Definition upd_activ (f : activation -> activation) (q : qdwin) : qdwin := q <| activ ::= f |>.

Definition token_by_id (i : Z) (q : qdwin) : option activation_token :=
  List.find (fun t => at_id t =? i) (activation_tokens (activ q)).
Definition upd_token (i : Z) (f : activation_token -> activation_token) : qdwin -> qdwin :=
  upd_activ (fun a => a <| activation_tokens ::= map (fun t => if at_id t =? i then f t else t) |>).

(** ** Tokens *)

Definition drop_token_ref (i : Z) (ap : activation_pending) : activation_pending :=
  if bool_decide (ap_token ap = Some i) then ap <| ap_token := None |> else ap.

Definition qdwin_activation_pending_drop_token_refs (i : Z) : qdwin -> qdwin :=
  upd_activ (fun a => a <| activations_pending ::= map (drop_token_ref i) |>).

Definition qdwin_activation_token_free (i : Z) (q : qdwin) : qdwin :=
  q ~> upd_activ (fun a => a <| activation_tokens ::=
                               List.filter (fun t => negb (at_id t =? i)) |>)
    ~> qdwin_activation_pending_drop_token_refs i.

Definition free_token (t : option Z) : qdwin -> qdwin :=
  match t with Some i => qdwin_activation_token_free i | None => (fun q => q) end.

Definition qdwin_activation_token_find (token : option string) (q : qdwin)
    : option activation_token :=
  match token with
  | None => None
  | Some s => List.find (fun t => bool_decide (at_token t = Some s) && negb (at_used t))
                (activation_tokens (activ q))
  end.

Definition qdwin_activation_get_activation_token (id : Z) (q : qdwin) : qdwin :=
  if oom q then q
  else upd_activ (fun a => a <| activation_tokens ::=
         cons (mk_activation_token id true None "" None 0 false false) |>) q.

Definition uncommitted (f : activation_token -> activation_token) (t : activation_token)
    : activation_token := if at_committed t then t else f t.

Definition qdwin_activation_token_set_serial (i serial : Z) : qdwin -> qdwin :=
  upd_token i (uncommitted (fun t => t <| at_serial := serial |>)).
Definition qdwin_activation_token_set_app_id (i : Z) (app_id : string) : qdwin -> qdwin :=
  upd_token i (uncommitted (fun t => t <| at_app_id := app_id |>)).
Definition qdwin_activation_token_set_surface (i : Z) (surface : option Z) : qdwin -> qdwin :=
  upd_token i (uncommitted (fun t => t <| at_surface := surface |>)).

Definition qdwin_activation_requesting_surface_destroyed (surface : Z) : qdwin -> qdwin :=
  upd_activ (fun a => a <| activation_tokens ::=
    map (fun t => if bool_decide (at_surface t = Some surface)
                  then t <| at_surface := None |> else t) |>).

(** [random] is what [qdwin_generate_token] produces, [None] when the kernel
    has no randomness to give. *)
Definition qdwin_activation_token_commit (i : Z) (random : option string) (q : qdwin) : qdwin :=
  match token_by_id i q with
  | None => q
  | Some t =>
      if at_committed t then q
      else match (if oom q then None else random) with
      | None => q ~> upd_token i (fun t => t <| at_token := None |> <| at_committed := true |>)
                  ~> emit (token_done i "")
      | Some s => q ~> upd_token i (fun t => t <| at_token := Some s |> <| at_committed := true |>)
                    ~> upd_activ (fun a => a <| activation_token_counter ::= u32_succ |>)
                    ~> emit (token_done i s)
      end
  end.

Definition qdwin_activation_token_resource_destroy (i : Z) (q : qdwin) : qdwin :=
  match token_by_id i q with Some _ => qdwin_activation_token_free i q | None => q end.

(** ** Activations *)

Definition qdwin_toplevel_from_wl_surface (surface : option Z) (q : qdwin) : option toplevel :=
  match surface with
  | None => None
  | Some s => List.find (fun tl => match desktop tl with
                                   | Some d => ds_surface d =? s
                                   | None => false
                                   end) (toplevels q)
  end.

(** The entry a pointer designates is named by its handle. *)
Definition unlink_activation (ap : activation_pending) : qdwin -> qdwin :=
  upd_activ (fun a => a <| activations_pending ::=
                             List.filter (fun p => negb (ap_handle p =? ap_handle ap)) |>).

Definition qdwin_activation_pending_free (q : qdwin) (ap : activation_pending) : qdwin :=
  q ~> unlink_activation ap ~> free_token (ap_token ap).

Definition qdwin_activation_pending_free_all (q : qdwin) : qdwin :=
  foldl qdwin_activation_pending_free q (activations_pending (activ q)).

(** The listener hangs on the target's surface. *)
Definition qdwin_activation_pending_target_destroyed (surface : Z) (q : qdwin) : qdwin :=
  foldl qdwin_activation_pending_free q
    (List.filter (fun ap => ap_surface ap =? surface) (activations_pending (activ q))).

Definition first_seat (q : qdwin) : option seat := head (seats q).

Definition activate_toplevel (tl : toplevel) (q : qdwin) : qdwin :=
  q ~> (fun q => if decorated tl then on_scene (weston_view_move_to_layer (view tl) normal_layer) q
                 else q)
    ~> (fun q => match first_seat q with
                 | Some s => if has_keyboard s then weston_view_activate_input tl (seat_id s) q else q
                 | None => q
                 end).

(** [h] is the pointer to the target; reading it after the toplevel was freed
    is undefined behaviour. *)
Definition qdwin_activation_perform (h : Z) (t : option Z) (q : qdwin) : qdwin :=
  match qdwin_toplevel_from_handle h q with
  | None => emit (use_after_free h) q
  | Some tl => if locked q then free_token t q
               else q ~> activate_toplevel tl ~> free_token t
  end.

Definition qdwin_activation_pending_find (h : Z) (q : qdwin) : option activation_pending :=
  List.find (fun ap => ap_handle ap =? h) (activations_pending (activ q)).

Definition qdwin_activation_pending_timeout_cb (h : Z) (q : qdwin) : qdwin :=
  match qdwin_activation_pending_find h q with
  | Some ap => qdwin_activation_pending_free q ap
  | None => q
  end.

Definition queue_activation (i : Z) (tl : toplevel) (surface : Z) : qdwin -> qdwin :=
  upd_activ (fun a =>
    let h := u32_succ (activation_pending_next_handle a) in
    a <| activation_pending_next_handle := h |>
      <| activations_pending ::= cons (mk_activation_pending h (Some i) (handle tl) surface) |>).

Definition qdwin_activation_activate (token : option string) (surface : option Z) (q : qdwin)
    : qdwin :=
  match qdwin_activation_token_find token q with
  | None => q
  | Some t =>
      let i := at_id t in
      let q := upd_token i (fun t => t <| at_used := true |>) q in
      match qdwin_toplevel_from_wl_surface surface q, surface with
      | Some tl, Some s =>
          if locked q then qdwin_activation_token_free i q
          else if negb (shell_version_ge 12 q) then qdwin_activation_perform (handle tl) (Some i) q
          else if oom q then qdwin_activation_token_free i q
          else
            let q := queue_activation i tl s q in
            let src := match qdwin_toplevel_from_wl_surface (at_surface t) q with
                       | Some src => handle src
                       | None => UINT32_MAX
                       end in
            emit (activation_requested (activation_pending_next_handle (activ q)) src (handle tl)
                    (at_app_id t)) q
      | _, _ => qdwin_activation_token_free i q
      end
  end.

Definition qdwin_handle_activation_decision (r : wl_resource) (h decision : Z) : qdwin -> qdwin :=
  shell_request r (fun q =>
    match qdwin_activation_pending_find h q with
    | None => q
    | Some ap =>
        let q := unlink_activation ap q in
        if decision =? 0 then qdwin_activation_perform (ap_target ap) (ap_token ap) q
        else free_token (ap_token ap) q
    end).
