(* ===== verification/Workspace.v ===== *)
(** * Workspace: virtual desktops and the ext-workspace-v1 server

    The compositor mechanics (visibility, active index, count) and the
    protocol objects: managers with their staged requests, and handles whose
    back-references are severed when the list of workspaces is re-announced. *)

From stdpp Require Import base list gmap strings option pretty.
From S2P Require Import Prelude Scene State Toplevel Focus.

(** ** ext-workspace-v1 objects *)

Definition with_mgr (m : Z) (k : ext_ws_manager -> qdwin -> qdwin) (q : qdwin) : qdwin :=
  match List.find (fun g => m_id g =? m) (ext_ws_managers q) with
  | Some g => k g q
  | None => q
  end.

Definition upd_mgr (m : Z) (f : ext_ws_manager -> ext_ws_manager) (q : qdwin) : qdwin :=
  q <| ext_ws_managers ::= map (fun g => if m_id g =? m then f g else g) |>.

Definition mgr_handle (g : ext_ws_manager) (i : Z) : option Z :=
  match m_handles g !! Z.to_nat i with Some o => o | None => None end.

(** The name advertised for a workspace: the shell's, or its position. *)
Definition workspace_name (i : Z) (q : qdwin) : string :=
  match workspace_names q !! i with
  | Some n => if bool_decide (n = "") then pretty (i + 1) else n
  | None => pretty (i + 1)
  end.

Definition qdwin_ext_ws_send_handle_details (wh i : Z) (q : qdwin) : qdwin :=
  q ~> emit (ws_id wh i)
    ~> emit (ws_name wh (workspace_name i q))
    ~> emit (ws_coordinates wh i)
    ~> emit (ws_state wh (i =? active_workspace q)).

Definition create_handle (m : Z) (q : qdwin) (i : Z) : qdwin :=
  let wh := next_ws_handle q in
  q ~> (fun q => q <| next_ws_handle := wh + 1 |>
                   <| ext_ws_refs ::= <[wh := (Some m, i)]> |>)
    ~> upd_mgr m (fun g => g <| m_handles ::= <[Z.to_nat i := Some wh]> |>)
    ~> emit (ws_workspace m wh)
    ~> qdwin_ext_ws_send_handle_details wh i
    ~> with_mgr m (fun g q => match m_group g with
                              | Some gr => emit (ws_enter gr wh) q
                              | None => q
                              end).

Definition handle_indices (q : qdwin) : list Z :=
  seqZ 0 (Z.min (workspace_count q) QDWIN_MAX_WORKSPACES).

Definition qdwin_ext_ws_manager_create_handles (m : Z) (q : qdwin) : qdwin :=
  foldl (create_handle m) q (handle_indices q)
  ~> upd_mgr m (fun g => g <| m_handle_count :=
                  Z.min (workspace_count q) QDWIN_MAX_WORKSPACES |>).

(** An announced handle becomes inert: its reference loses the manager. *)
Definition destroy_handle (m : Z) (q : qdwin) (i : Z) : qdwin :=
  with_mgr m (fun g q =>
    match mgr_handle g i with
    | None => q
    | Some wh =>
        q ~> (fun q => match m_group g with
                       | Some gr => emit (ws_leave gr wh) q
                       | None => q
                       end)
          ~> emit (ws_removed wh)
          ~> (fun q => q <| ext_ws_refs ::= alter (fun r => (None, snd r)) wh |>)
          ~> upd_mgr m (fun g => g <| m_handles ::= <[Z.to_nat i := None]> |>)
    end) q.

Definition qdwin_ext_ws_manager_destroy_handles (m : Z) : qdwin -> qdwin :=
  with_mgr m (fun g q =>
    foldl (destroy_handle m) q (seqZ 0 (m_handle_count g))
    ~> upd_mgr m (fun g => g <| m_handle_count := 0 |>)).

Definition qdwin_ext_ws_manager_resync (m : Z) : qdwin -> qdwin :=
  with_mgr m (fun g q =>
    if m_stopped g then q
    else q ~> qdwin_ext_ws_manager_destroy_handles m
           ~> qdwin_ext_ws_manager_create_handles m
           ~> emit (ws_done m)).

Definition qdwin_ext_ws_resync_all (q : qdwin) : qdwin :=
  foldl (fun q g => qdwin_ext_ws_manager_resync (m_id g) q) q (ext_ws_managers q).

Definition send_state (g : ext_ws_manager) (q : qdwin) (i : Z) : qdwin :=
  match mgr_handle g i with
  | Some wh => emit (ws_state wh (i =? active_workspace q)) q
  | None => q
  end.

Definition qdwin_ext_ws_broadcast_state (q : qdwin) : qdwin :=
  foldl (fun q g =>
    if m_stopped g then q
    else
      let ix := seqZ 0 (Z.min (m_handle_count g) (workspace_count q)) in
      let sent := existsb (fun i => bool_decide (mgr_handle g i ≠ None)) ix in
      foldl (send_state g) q ix
      ~> (fun q => if sent then emit (ws_done (m_id g)) q else q)) q (ext_ws_managers q).

Definition qdwin_ext_ws_broadcast_name (i : Z) (q : qdwin) : qdwin :=
  if QDWIN_MAX_WORKSPACES <=? i then q
  else
    let name := workspace_name i q in
    foldl (fun q g =>
      if m_stopped g || (m_handle_count g <=? i) then q
      else match mgr_handle g i with
           | None => q
           | Some wh => q ~> emit (ws_name wh name) ~> emit (ws_done (m_id g))
           end) q (ext_ws_managers q).

(** ** Mechanics *)

Definition qdwin_toplevel_apply_workspace_visibility (h : Z) : qdwin -> qdwin :=
  with_tl h (fun tl q =>
    if nested_mode q then q
    else if qdwin_toplevel_is_locker_ui tl q then q
    else if negb (decorated tl) then q
    else if ts_has (state tl) QDWIN_TS_MINIMIZED then q
    else if workspace tl =? active_workspace q
         then qdwin_toplevel_move_to_layer h normal_layer q
         else qdwin_toplevel_move_to_layer h workspace_hidden_layer q).

Definition apply_visibility_all (q : qdwin) : qdwin :=
  foldl (fun q tl => qdwin_toplevel_apply_workspace_visibility (handle tl) q) q (toplevels q).

Definition refocus_seat (want : option toplevel) (q : qdwin) (s : seat) : qdwin :=
  if negb (has_keyboard s) then q
  else
    let keep := match qdwin_toplevel_by_surface (kbd_focus s) q with
                | Some cur => qdwin_toplevel_is_visible cur q
                | None => false
                end in
    if keep then q
    else q ~> (match want with
               | Some w => weston_view_activate_input w (seat_id s)
               | None => weston_keyboard_set_focus (seat_id s) None
               end)
           ~> qdwin_seat_emit_focus_now (seat_id s).

Definition qdwin_workspace_refocus_seats (q : qdwin) : qdwin :=
  if locked q then q
  else foldl (refocus_seat (first_visible q)) q (seats q).

Definition qdwin_set_active_workspace (index : Z) (q : qdwin) : qdwin :=
  if workspace_count q <=? index then q
  else
    (if index =? active_workspace q then q
     else q <| active_workspace := index |>
          ~> apply_visibility_all ~> qdwin_workspace_refocus_seats)
    ~> qdwin_ext_ws_broadcast_state.

Definition qdwin_workspace_create (q : qdwin) : qdwin :=
  if QDWIN_MAX_WORKSPACES <=? workspace_count q then q
  else q <| workspace_count ::= Z.succ |> ~> qdwin_ext_ws_resync_all.

(** Where a window's workspace index goes when [index] is removed. *)
Definition shift_workspace (index w : Z) : Z :=
  if w =? index then (if 0 <? index then index - 1 else 0)
  else if index <? w then w - 1
  else w.

Definition next_active (index active count : Z) : Z :=
  let a := if index <? active then active - 1
           else if (active =? index) && (0 <? index) then active - 1
           else active in
  if count <=? a then count - 1 else a.

Definition qdwin_emit_toplevel_workspace (h : Z) : qdwin -> qdwin :=
  with_tl h (fun tl q => shell_send 24 (toplevel_workspace h (workspace tl)) q).

Definition qdwin_workspace_remove (index : Z) (q : qdwin) : qdwin :=
  if workspace_count q <=? 1 then q
  else if workspace_count q <=? index then q
  else
    q <| toplevels ::= map (fun t => t <| workspace ::= shift_workspace index |>) |>
      <| workspace_count ::= Z.pred |>
      <| active_workspace := next_active index (active_workspace q) (workspace_count q - 1) |>
    ~> apply_visibility_all
    ~> qdwin_workspace_refocus_seats
    ~> (fun q => foldl (fun q tl => qdwin_emit_toplevel_workspace (handle tl) q) q (toplevels q))
    ~> qdwin_ext_ws_resync_all.

(** ** Shell requests *)

Definition qdwin_handle_move_toplevel_to_workspace (r : wl_resource) (h index : Z)
  : qdwin -> qdwin :=
  shell_request r (fun q =>
    match qdwin_toplevel_from_handle h q with
    | None => emit (post_error (res_id r) SHELL_INVALID_HANDLE) q
    | Some tl =>
        if workspace_count q <=? index then q
        else
          (if workspace tl =? index then q
           else q ~> upd_tl h (fun t => t <| workspace := index |>)
                  ~> qdwin_toplevel_apply_workspace_visibility h
                  ~> qdwin_workspace_refocus_seats)
          ~> qdwin_emit_toplevel_workspace h
    end).

Definition qdwin_handle_set_workspace_name (r : wl_resource) (index : Z) (name : string)
  : qdwin -> qdwin :=
  shell_request r (fun q =>
    if QDWIN_MAX_WORKSPACES <=? index then q
    else if bool_decide (name = "") then
      match workspace_names q !! index with
      | Some _ => q <| workspace_names ::= delete index |> ~> qdwin_ext_ws_broadcast_name index
      | None => q
      end
    else if bool_decide (workspace_names q !! index = Some name) then q
    else
      let stored := String.substring 0 QDWIN_WORKSPACE_NAME_MAX name in
      q <| workspace_names ::= <[index := stored]> |> ~> qdwin_ext_ws_broadcast_name index).

(** ** ext-workspace-v1 requests *)

Definition qdwin_ext_ws_pending_add (m : Z) (op : ext_ws_op) : qdwin -> qdwin :=
  upd_mgr m (fun g => g <| m_pending ::= fun l => l ++ [op] |>).

Definition qdwin_ext_ws_pending_clear (m : Z) : qdwin -> qdwin :=
  upd_mgr m (fun g => g <| m_pending := [] |>).

Definition run_op (q : qdwin) (op : ext_ws_op) : qdwin :=
  match op with
  | PENDING_ACTIVATE i => qdwin_set_active_workspace i q
  | PENDING_CREATE => qdwin_workspace_create q
  | PENDING_REMOVE i => qdwin_workspace_remove i q
  end.

Definition qdwin_ext_ws_manager_flush (m : Z) : qdwin -> qdwin :=
  with_mgr m (fun g q =>
    (if m_stopped g then q else foldl run_op q (m_pending g))
    ~> qdwin_ext_ws_pending_clear m).

(** The (manager, index) a handle resource still refers to. *)
Definition live_ref (wh : Z) (q : qdwin) : option (Z * Z) :=
  match ext_ws_refs q !! wh with
  | Some (Some m, i) => Some (m, i)
  | _ => None
  end.

Definition qdwin_ext_ws_handle_activate (wh : Z) (q : qdwin) : qdwin :=
  match live_ref wh q with
  | Some (m, i) => qdwin_ext_ws_pending_add m (PENDING_ACTIVATE i) q
  | None => q
  end.

Definition qdwin_ext_ws_handle_remove (wh : Z) (q : qdwin) : qdwin :=
  match live_ref wh q with
  | Some (m, i) => qdwin_ext_ws_pending_add m (PENDING_REMOVE i) q
  | None => q
  end.

Definition qdwin_ext_ws_handle_resource_destroy (wh : Z) (q : qdwin) : qdwin :=
  (match live_ref wh q with
   | Some (m, i) =>
       if i <? QDWIN_MAX_WORKSPACES then
         upd_mgr m (fun g => if bool_decide (mgr_handle g i = Some wh)
                             then g <| m_handles ::= <[Z.to_nat i := None]> |> else g) q
       else q
   | None => q
   end) <| ext_ws_refs ::= delete wh |>.

Definition qdwin_ext_ws_group_create_workspace (m : Z) : qdwin -> qdwin :=
  with_mgr m (fun g q => match m_group g with
                         | Some _ => qdwin_ext_ws_pending_add m PENDING_CREATE q
                         | None => q
                         end).

Definition qdwin_ext_ws_manager_commit (m : Z) : qdwin -> qdwin :=
  qdwin_ext_ws_manager_flush m.

Definition sever_refs (g : ext_ws_manager) (q : qdwin) : qdwin :=
  foldl (fun q o => match o with
    | Some wh => q <| ext_ws_refs ::= alter (fun r => (None, snd r)) wh |>
    | None => q
    end) q (m_handles g).

Definition qdwin_ext_ws_manager_resource_destroy (m : Z) : qdwin -> qdwin :=
  with_mgr m (fun g q =>
    q ~> sever_refs g
      ~> (fun q => q <| ext_ws_managers ::= List.filter (fun g => negb (m_id g =? m)) |>)).

Definition qdwin_ext_ws_manager_stop (m : Z) : qdwin -> qdwin :=
  with_mgr m (fun g q =>
    q ~> upd_mgr m (fun g => g <| m_stopped := true |>)
      ~> qdwin_ext_ws_pending_clear m
      ~> emit (ws_finished m)
      ~> qdwin_ext_ws_manager_resource_destroy m).

(** [group] is the group resource, [None] when its creation failed. *)
Definition bind_ext_workspace_manager (m client : Z) (group : option Z) (q : qdwin) : qdwin :=
  q ~> (fun q => q <| ext_ws_managers ::=
          cons (mk_ext_ws_manager m client group (replicate 32 None) 0 [] false) |>)
    ~> (fun q => match group with Some gr => emit (ws_group m gr) q | None => q end)
    ~> qdwin_ext_ws_manager_create_handles m
    ~> emit (ws_done m).
