(* ===== verification/WorkspaceFacts.v ===== *)
(** * WorkspaceFacts: invariants and behaviour of the workspaces *)

From stdpp Require Import base list gmap strings option relations.
From S2P Require Import Prelude Scene State Toplevel Focus Workspace.

(** ** The protocol objects leave the core alone *)

Lemma core_upd_mgr m f q : upd_mgr m f q ≃ q.
Proof. done. Qed.

Lemma core_create_handle m q i : create_handle m q i ≃ q.
Proof. unfold create_handle, with_mgr. split_match; [split_match|]; done. Qed.

Lemma core_destroy_handle m q i : destroy_handle m q i ≃ q.
Proof. unfold destroy_handle, with_mgr. repeat (split_match; try done). Qed.

Lemma core_create_handles m q : qdwin_ext_ws_manager_create_handles m q ≃ q.
Proof.
  unfold qdwin_ext_ws_manager_create_handles.
  etransitivity; [apply core_upd_mgr|]. apply core_foldl, core_create_handle.
Qed.

Lemma core_destroy_handles m q : qdwin_ext_ws_manager_destroy_handles m q ≃ q.
Proof.
  unfold qdwin_ext_ws_manager_destroy_handles, with_mgr. split_match; [|done].
  etransitivity; [apply core_upd_mgr|]. apply core_foldl, core_destroy_handle.
Qed.

Lemma core_resync m q : qdwin_ext_ws_manager_resync m q ≃ q.
Proof.
  unfold qdwin_ext_ws_manager_resync, with_mgr. split_match; [|done]. split_match; [done|].
  etransitivity; [apply core_emit|]. etransitivity; [apply core_create_handles|].
  apply core_destroy_handles.
Qed.

Lemma core_resync_all q : qdwin_ext_ws_resync_all q ≃ q.
Proof. apply core_foldl. intros. apply core_resync. Qed.

Lemma core_broadcast_state q : qdwin_ext_ws_broadcast_state q ≃ q.
Proof.
  apply core_foldl. intros q1 g. split_match; [done|]. cbv zeta.
  assert (H : foldl (send_state g) q1
                (seqZ 0 (Z.min (m_handle_count g) (workspace_count q1))) ≃ q1).
  { apply core_foldl. intros q2 i. unfold send_state. by split_match. }
  split_match; exact H.
Qed.

Lemma core_broadcast_name i q : qdwin_ext_ws_broadcast_name i q ≃ q.
Proof.
  unfold qdwin_ext_ws_broadcast_name. split_match; [done|]. cbv zeta.
  apply core_foldl. intros q1 g. repeat (split_match; try done).
Qed.

Lemma core_refocus q : qdwin_workspace_refocus_seats q ≃ q.
Proof.
  unfold qdwin_workspace_refocus_seats. destruct (locked q); [done|].
  apply core_foldl. intros q1 s. unfold refocus_seat. destruct (has_keyboard s); [|done].
  cbn [negb]. cbv zeta. 
  set (keep := match qdwin_toplevel_by_surface (kbd_focus s) q1 with
               | Some cur => qdwin_toplevel_is_visible cur q1 | None => false end).
  destruct keep; [done|].
  etransitivity; [apply core_emit_focus|]. destruct (first_visible q).
  - apply core_activate.
  - apply core_set_focus.
Qed.

Lemma core_emit_workspaces q (l : list toplevel) :
  foldl (fun q tl => qdwin_emit_toplevel_workspace (handle tl) q) q l ≃ q.
Proof.
  apply core_foldl. intros q1 tl. unfold qdwin_emit_toplevel_workspace, with_tl.
  split_match; [apply core_send|done].
Qed.

#[export] Hint Resolve core_resync_all core_broadcast_state core_broadcast_name
  core_refocus core_emit_workspaces core_create_handles : qdwin.

(** ** Visibility as a function of the toplevel *)

(** Where [apply_workspace_visibility] puts a toplevel's views, if it moves
    them at all. *)
Definition vis_target (tl : toplevel) (q : qdwin) : option layer :=
  if nested_mode q then None
  else if qdwin_toplevel_is_locker_ui tl q then None
  else if negb (decorated tl) then None
  else if ts_has (state tl) QDWIN_TS_MINIMIZED then None
  else if workspace tl =? active_workspace q
       then Some (if proxy_pending tl then held_layer else normal_layer)
       else Some workspace_hidden_layer.

Definition vis_scene (q : qdwin) (s : scene) (tl : toplevel) : scene :=
  match vis_target tl q with
  | Some l => move_views (tl_views tl) l s
  | None => s
  end.

Lemma apply_visibility_eq h q tl :
  qdwin_toplevel_from_handle h q = Some tl ->
  qdwin_toplevel_apply_workspace_visibility h q = on_scene (fun s => vis_scene q s tl) q.
Proof.
  intros H. unfold qdwin_toplevel_apply_workspace_visibility, with_tl, vis_scene, vis_target.
  rewrite H. unfold qdwin_toplevel_move_to_layer, with_tl. rewrite H.
  rewrite (bool_decide_true (normal_layer = normal_layer)) by done.
  rewrite (bool_decide_false (workspace_hidden_layer = normal_layer)) by done.
  rewrite andb_true_r, andb_false_r.
  repeat (split_match; try (by destruct q)).
Qed.

Lemma from_handle_NoDup q tl :
  NoDup (handle <$> toplevels q) -> tl ∈ toplevels q ->
  qdwin_toplevel_from_handle (handle tl) q = Some tl.
Proof.
  unfold qdwin_toplevel_from_handle. induction (toplevels q) as [|t ts IH]; csimpl.
  { intros _ H. by apply elem_of_nil in H. }
  intros [Hn Hd]%NoDup_cons [-> | Hin]%elem_of_cons; [by rewrite Z.eqb_refl|].
  destruct (handle t =? handle tl) eqn:E; [|by apply IH]. zbool.
  exfalso. apply Hn. rewrite E. by apply list_elem_of_fmap_2.
Qed.

Lemma apply_all_eq q :
  NoDup (handle <$> toplevels q) ->
  apply_visibility_all q = on_scene (fun s => foldl (vis_scene q) s (toplevels q)) q.
Proof.
  intros Hd. unfold apply_visibility_all.
  assert (Hgen : forall l s, (forall t, t ∈ l -> t ∈ toplevels q) ->
    foldl (fun q tl => qdwin_toplevel_apply_workspace_visibility (handle tl) q)
      (on_scene (fun _ => s) q) l = on_scene (fun _ => foldl (vis_scene q) s l) q).
  { induction l as [|t l IH]; intros s Hl; [done|]. cbn [foldl].
    rewrite (apply_visibility_eq _ _ t).
    2: { apply from_handle_NoDup; [done|]. apply Hl, list_elem_of_here. }
    rewrite <- IH; [done|]. intros t' Ht'. apply Hl. by apply list_elem_of_further. }
  specialize (Hgen (toplevels q) (the_scene q) (fun _ H => H)).
  by replace (on_scene (fun _ => the_scene q) q) with q in Hgen by by destruct q.
Qed.

(** ** Layers of the views after a visibility pass *)

Definition all_views (l : list toplevel) : list Z := mjoin (tl_views <$> l).

Lemma all_views_cons t l : all_views (t :: l) = tl_views t ++ all_views l.
Proof. done. Qed.









(** The core of a workspace switch. *)
Lemma set_active_core index q :
  NoDup (handle <$> toplevels q) ->
  0 <= index < workspace_count q -> index ≠ active_workspace q ->
  let q1 := q <| active_workspace := index |> in
  qdwin_set_active_workspace index q ≃
  on_scene (fun s => foldl (vis_scene q1) s (toplevels q)) q1.
Proof.
  intros Hd Hi Hne q1. unfold qdwin_set_active_workspace.
  destruct (Z.leb_spec (workspace_count q) index); [lia|].
  destruct (Z.eqb_spec index (active_workspace q)); [done|].
  etransitivity; [apply core_broadcast_state|]. etransitivity; [apply core_refocus|].
  subst q1. by rewrite apply_all_eq.
Qed.

(** ** Properties *)

(** Toplevels the workspaces manage: everything but inner toplevels of a nested
    compositor, the locker's window, held and minimised ones. *)
Definition managed (tl : toplevel) (q : qdwin) : Prop :=
  nested_mode q = false /\ qdwin_toplevel_is_locker_ui tl q = false /\
  decorated tl = true /\ ts_has (state tl) QDWIN_TS_MINIMIZED = false.

(** Handles and views identify their toplevel. *)
Definition toplevels_wf (q : qdwin) : Prop :=
  NoDup (handle <$> toplevels q) /\ NoDup (all_views (toplevels q)).



(** Two windows, the newer first in the list, on workspaces 1 and 0. *)
Definition ex_tl (h v s ws : Z) : toplevel :=
  mk_toplevel h (Some (mk_dsurf s 300 200 true 300 200 (Some 7) 700 1000 None false "app" "t" ""))
    v true true 300 200 false false false None 0 None "" "" 0 None
    0 0 0 0 300 200 0 0 0 0 0 0 0 0 0 false 0 ws None 0 0 0 0 0 0 0 0 0
    [no_chrome; no_chrome; no_chrome; no_chrome] "t" "app".
Definition ex_seat : seat := mk_seat 1 true None true default_grab true (0, 0) [] true UINT32_MAX false.
Definition ex_desk (l : list toplevel) : qdwin :=
  (wet_shell_init [mk_output 1 0 0 1920 1080 false "DP-1"] [ex_seat] 1000)
    <| toplevels := l |> <| next_handle := 2 |> <| next_view := 30 |>.


(** *** The workspace invariant *)

Definition op_ok (op : ext_ws_op) : Prop :=
  match op with
  | PENDING_ACTIVATE i | PENDING_REMOVE i => 0 <= i
  | PENDING_CREATE => True
  end.

(** Staged requests and handle references carry non-negative indices. *)
Definition ext_inv (q : qdwin) : Prop :=
  Forall (fun g => Forall op_ok (m_pending g)) (ext_ws_managers q) /\
  map_Forall (fun _ r => 0 <= snd r) (ext_ws_refs q).

Record ws_inv (q : qdwin) : Prop := {
  wi_count : 1 <= workspace_count q <= QDWIN_MAX_WORKSPACES;
  wi_active : 0 <= active_workspace q < workspace_count q;
  wi_toplevels : Forall (fun tl => 0 <= workspace tl < workspace_count q) (toplevels q);
  wi_ext : ext_inv q
}.

Lemma ext_upd_mgr m f q :
  (forall g, Forall op_ok (m_pending g) -> Forall op_ok (m_pending (f g))) ->
  ext_inv q -> ext_inv (upd_mgr m f q).
Proof.
  intros Hf [H1 H2]. split; [|done]. cbn. apply Forall_map. eapply Forall_impl; [done|].
  intros g Hg. cbn. destruct (m_id g =? m); auto.
Qed.

Lemma ext_refs (F : gmap Z (option Z * Z) -> gmap Z (option Z * Z)) q :
  (forall r, map_Forall (fun _ r => 0 <= snd r) r -> map_Forall (fun _ r => 0 <= snd r) (F r)) ->
  ext_inv q -> ext_inv (q <| ext_ws_refs ::= F |>).
Proof. intros HF [H1 H2]. split; [done|]. by apply HF. Qed.

Lemma ext_foldl {A} (f : qdwin -> A -> qdwin) l q :
  (forall q a, a ∈ l -> ext_inv q -> ext_inv (f q a)) -> ext_inv q -> ext_inv (foldl f q l).
Proof.
  revert q. induction l as [|a l IH]; intros q Hf Hq; [done|]. cbn.
  apply IH; [|by apply Hf, Hq; apply list_elem_of_here].
  intros q' b Hb. apply Hf. by apply list_elem_of_further.
Qed.

Lemma ext_sever wh (r : gmap Z (option Z * Z)) :
  map_Forall (fun _ r => 0 <= snd r) r ->
  map_Forall (fun _ r => 0 <= snd r) (alter (fun r => (None, snd r)) wh r).
Proof.
  intros H k x. rewrite lookup_alter_Some.
  intros [(-> & x' & Hx & ->)|[_ Hx]]; cbn; [apply (H _ _ Hx)|apply (H _ _ Hx)].
Qed.

Lemma ext_create_handle m q i : 0 <= i -> ext_inv q -> ext_inv (create_handle m q i).
Proof.
  intros Hi Hq. unfold create_handle.
  assert (H : ext_inv (upd_mgr m (fun g => g <| m_handles ::= <[Z.to_nat i := Some (next_ws_handle q)]> |>)
     (q <| next_ws_handle := next_ws_handle q + 1 |>
        <| ext_ws_refs ::= <[next_ws_handle q := (Some m, i)]> |>))).
  { apply ext_upd_mgr; [done|]. destruct Hq as [H1 H2]. split; [done|].
    cbn. apply map_Forall_insert_2; [done|]. exact H2. }
  unfold with_mgr. split_match; [split_match|]; exact H.
Qed.

Lemma ext_destroy_handle m q i : ext_inv q -> ext_inv (destroy_handle m q i).
Proof.
  intros Hq. unfold destroy_handle, with_mgr. split_match; [|done]. split_match; [|done].
  apply ext_upd_mgr; [done|]. apply ext_refs; [apply ext_sever|]. split_match; exact Hq.
Qed.

Lemma ext_resync m q : ext_inv q -> ext_inv (qdwin_ext_ws_manager_resync m q).
Proof.
  intros Hq. unfold qdwin_ext_ws_manager_resync, with_mgr. split_match; [|done].
  split_match; [done|].
  assert (H1 : ext_inv (qdwin_ext_ws_manager_destroy_handles m q)).
  { unfold qdwin_ext_ws_manager_destroy_handles, with_mgr. split_match; [|done].
    apply ext_upd_mgr; [done|]. apply ext_foldl; [|done]. intros. by apply ext_destroy_handle. }
  set (q1 := qdwin_ext_ws_manager_destroy_handles m q) in *. clearbody q1.
  unfold qdwin_ext_ws_manager_create_handles.
  apply (ext_upd_mgr m (fun g => g <| m_handle_count := _ |>)); [done|].
  apply ext_foldl; [|done]. intros q2 i Hi Hq2. apply ext_create_handle; [|done].
  apply elem_of_seqZ in Hi. lia.
Qed.

Lemma ext_emit_focus i q : ext_inv q -> ext_inv (qdwin_seat_emit_focus_now i q).
Proof.
  intros Hq. unfold qdwin_seat_emit_focus_now, with_seat.
  destruct (List.find _ _) as [s|]; [|done]. destruct (tracked s); cbn [negb]; [|done].
  destruct (_ =? last_focused_handle s); [done|].
  unfold qdwin_emit_seat_focus_changed, shell_send.
  destruct (shell_version_ge _ _), (_ && _); exact Hq.
Qed.

Lemma ext_refocus q : ext_inv q -> ext_inv (qdwin_workspace_refocus_seats q).
Proof.
  intros Hq. unfold qdwin_workspace_refocus_seats. destruct (locked q); [done|].
  apply ext_foldl; [|done]. intros q1 s _ Hq1. unfold refocus_seat.
  destruct (has_keyboard s); [|done]. cbn [negb]. cbv zeta.
  set (keep := match qdwin_toplevel_by_surface (kbd_focus s) q1 with
               | Some cur => qdwin_toplevel_is_visible cur q1 | None => false end).
  destruct keep; [done|]. apply ext_emit_focus.
  destruct (first_visible q); by apply ext_emit_focus.
Qed.

Lemma ext_broadcast q : ext_inv q -> ext_inv (qdwin_ext_ws_broadcast_state q).
Proof.
  intros Hq. apply ext_foldl; [|done]. intros q1 g _ Hq1. split_match; [done|]. cbv zeta.
  assert (H : ext_inv (foldl (send_state g) q1
                (seqZ 0 (Z.min (m_handle_count g) (workspace_count q1))))).
  { apply ext_foldl; [|done]. intros q2 i _ Hq2. unfold send_state. by split_match. }
  split_match; exact H.
Qed.

Lemma ext_resync_all q : ext_inv q -> ext_inv (qdwin_ext_ws_resync_all q).
Proof. intros Hq. apply ext_foldl; [|done]. intros. by apply ext_resync. Qed.


(** A visibility pass changes the scene only. *)
Definition scene_only (q q' : qdwin) : Prop := q' = on_scene (fun _ => the_scene q') q.

Lemma scene_only_refl q : scene_only q q.
Proof. by destruct q. Qed.

Lemma scene_only_trans q1 q2 q3 : scene_only q1 q2 -> scene_only q2 q3 -> scene_only q1 q3.
Proof. unfold scene_only. intros H1 H2. rewrite H2 at 1. rewrite H1 at 1. done. Qed.

Lemma scene_only_visibility h q :
  scene_only q (qdwin_toplevel_apply_workspace_visibility h q).
Proof.
  destruct (qdwin_toplevel_from_handle h q) as [tl|] eqn:E.
  - by rewrite (apply_visibility_eq _ _ _ E).
  - unfold qdwin_toplevel_apply_workspace_visibility, with_tl. rewrite E. apply scene_only_refl.
Qed.

Lemma scene_only_all q : scene_only q (apply_visibility_all q).
Proof.
  unfold apply_visibility_all.
  assert (H : forall l q1, scene_only q q1 -> scene_only q
    (foldl (fun q tl => qdwin_toplevel_apply_workspace_visibility (handle tl) q) q1 l)).
  { induction l; intros q1 Hq1; [done|]. cbn. apply IHl.
    eapply scene_only_trans; [done|apply scene_only_visibility]. }
  apply H, scene_only_refl.
Qed.

Lemma ws_inv_scene q q' : scene_only q q' -> ws_inv q -> ws_inv q'.
Proof. intros -> []. by split. Qed.

Lemma ws_inv_core q q' : q' ≃ q -> ext_inv q' -> ws_inv q -> ws_inv q'.
Proof.
  intros H He []. split; [..|done];
    rewrite ?(count_core _ _ H), ?(active_core _ _ H), ?(toplevels_core _ _ H); done.
Qed.

Lemma ws_inv_emit e q : ws_inv q -> ws_inv (emit e q).
Proof. intros []. by split. Qed.

Lemma ws_inv_refocus q : ws_inv q -> ws_inv (qdwin_workspace_refocus_seats q).
Proof.
  intros H. apply (ws_inv_core q); [apply core_refocus|apply ext_refocus, wi_ext, H|done].
Qed.

Lemma ws_inv_set_active i q : 0 <= i -> ws_inv q -> ws_inv (qdwin_set_active_workspace i q).
Proof.
  intros Hi H. unfold qdwin_set_active_workspace.
  destruct (Z.leb_spec (workspace_count q) i); [done|].
  assert (H1 : ws_inv (if i =? active_workspace q then q
    else qdwin_workspace_refocus_seats (apply_visibility_all (q <| active_workspace := i |>)))).
  { destruct (i =? active_workspace q); [done|]. apply ws_inv_refocus.
    eapply ws_inv_scene; [apply scene_only_all|]. destruct H. by split. }
  set (q1 := if i =? _ then _ else _) in *. clearbody q1.
  apply (ws_inv_core q1); [apply core_broadcast_state|apply ext_broadcast, wi_ext, H1|done].
Qed.

Lemma ws_inv_resync q : ws_inv q -> ws_inv (qdwin_ext_ws_resync_all q).
Proof.
  intros H. apply (ws_inv_core q); [apply core_resync_all|apply ext_resync_all, wi_ext, H|done].
Qed.

Lemma ws_inv_create q : ws_inv q -> ws_inv (qdwin_workspace_create q).
Proof.
  intros H. unfold qdwin_workspace_create.
  destruct (Z.leb_spec QDWIN_MAX_WORKSPACES (workspace_count q)); [done|].
  apply ws_inv_resync. destruct H as [H1 H2 H3 H4]. split; cbn; [lia|lia| |exact H4].
  eapply Forall_impl; [exact H3|]. cbn. lia.
Qed.

Lemma shift_workspace_range i w n :
  0 <= i < n -> 1 < n -> 0 <= w < n -> 0 <= shift_workspace i w < n - 1.
Proof. intros. unfold shift_workspace. repeat (split_match; zbool); lia. Qed.

Lemma next_active_range i a n :
  0 <= i < n -> 1 < n -> 0 <= a < n -> 0 <= next_active i a (n - 1) < n - 1.
Proof. intros. unfold next_active. repeat (split_match; zbool); lia. Qed.

Lemma ws_inv_emit_workspaces q l :
  ws_inv q -> ws_inv (foldl (fun q tl => qdwin_emit_toplevel_workspace (handle tl) q) q l).
Proof.
  intros H. apply (ws_inv_core q); [apply core_emit_workspaces| |done].
  apply ext_foldl; [|apply H]. intros q1 tl _ Hq1.
  unfold qdwin_emit_toplevel_workspace, with_tl, shell_send. repeat (split_match; try done).
Qed.

Lemma ws_inv_remove i q : 0 <= i -> ws_inv q -> ws_inv (qdwin_workspace_remove i q).
Proof.
  intros Hi H. unfold qdwin_workspace_remove.
  destruct (Z.leb_spec (workspace_count q) 1) as [|Hc]; [done|].
  destruct (Z.leb_spec (workspace_count q) i) as [|Hlt]; [done|].
  apply ws_inv_resync, ws_inv_emit_workspaces, ws_inv_refocus.
  eapply ws_inv_scene; [apply scene_only_all|].
  destruct H as [H1 H2 H3 H4].
  assert (Ha := next_active_range i (active_workspace q) (workspace_count q)).
  split; cbn; [lia|unfold Z.pred; lia| |exact H4].
  apply Forall_map. eapply Forall_impl; [exact H3|]. intros t Ht. cbn.
  assert (Hs := shift_workspace_range i (workspace t) (workspace_count q)).
  cbn in Ht. lia.
Qed.

(** Every way a client or the shell acts on the workspaces.  Request indices
    are unsigned. *)
Inductive ws_step (q : qdwin) : qdwin -> Prop :=
| ws_handle_activate wh : ws_step q (qdwin_ext_ws_handle_activate wh q)
| ws_handle_remove wh : ws_step q (qdwin_ext_ws_handle_remove wh q)
| ws_handle_destroyed wh : ws_step q (qdwin_ext_ws_handle_resource_destroy wh q)
| ws_create_workspace m : ws_step q (qdwin_ext_ws_group_create_workspace m q)
| ws_commit m : ws_step q (qdwin_ext_ws_manager_commit m q)
| ws_stop m : ws_step q (qdwin_ext_ws_manager_stop m q)
| ws_manager_destroyed m : ws_step q (qdwin_ext_ws_manager_resource_destroy m q)
| ws_bind m client group : ws_step q (bind_ext_workspace_manager m client group q)
| ws_move r h i : 0 <= i -> ws_step q (qdwin_handle_move_toplevel_to_workspace r h i q)
| ws_rename r i n : ws_step q (qdwin_handle_set_workspace_name r i n q).

Lemma ws_inv_pending m op q : op_ok op -> ws_inv q -> ws_inv (qdwin_ext_ws_pending_add m op q).
Proof.
  intros Hop [H1 H2 H3 H4]. split; [done..|].
  apply (ext_upd_mgr m (fun g => g <| m_pending ::= fun l => l ++ [op] |>)); [|done].
  intros g Hg. cbn. apply Forall_app. split; [done|]. by apply Forall_singleton.
Qed.

Lemma ws_inv_run q op : op_ok op -> ws_inv q -> ws_inv (run_op q op).
Proof.
  destruct op; cbn; intros; [by apply ws_inv_set_active|by apply ws_inv_create
                            |by apply ws_inv_remove].
Qed.

Lemma ws_inv_clear m q : ws_inv q -> ws_inv (qdwin_ext_ws_pending_clear m q).
Proof.
  intros [H1 H2 H3 H4]. split; [done..|].
  apply (ext_upd_mgr m (fun g => g <| m_pending := [] |>)); [|done]. intros. by apply Forall_nil.
Qed.

Lemma ws_inv_run_all l q : Forall op_ok l -> ws_inv q -> ws_inv (foldl run_op q l).
Proof.
  revert q. induction l as [|op l IH]; intros q Hl H; [done|].
  apply Forall_cons in Hl as [Ho Hl]. cbn. by apply IH, ws_inv_run.
Qed.

Lemma find_mgr_pending m q g :
  ws_inv q -> List.find (fun g => m_id g =? m) (ext_ws_managers q) = Some g ->
  Forall op_ok (m_pending g).
Proof.
  intros H [E _]%List.find_some. destruct (wi_ext _ H) as [Hm _].
  rewrite Forall_forall in Hm. by apply Hm, list_elem_of_In.
Qed.

Lemma ws_inv_flush m q : ws_inv q -> ws_inv (qdwin_ext_ws_manager_flush m q).
Proof.
  intros H. unfold qdwin_ext_ws_manager_flush, with_mgr.
  destruct (List.find _ _) as [g|] eqn:E; [|done]. apply ws_inv_clear.
  destruct (m_stopped g); [done|]. apply ws_inv_run_all; [|done]. by eapply find_mgr_pending.
Qed.

Lemma ws_inv_manager_destroy m q :
  ws_inv q -> ws_inv (qdwin_ext_ws_manager_resource_destroy m q).
Proof.
  intros H. unfold qdwin_ext_ws_manager_resource_destroy, with_mgr.
  destruct (List.find _ _) as [g|]; [|done].
  assert (Hc : sever_refs g q ≃ q) by (apply core_foldl; intros ? []; done).
  assert (He : ext_inv (sever_refs g q)).
  { apply ext_foldl; [|apply H]. intros q1 [wh|] _ Hq1; [|done].
    apply (ext_refs (alter (fun r => (None, snd r)) wh)); [apply ext_sever|done]. }
  assert (H1 : ws_inv (sever_refs g q)) by by apply (ws_inv_core q).
  destruct H1 as [A1 A2 A3 [A4 A5]]. split; [done..|]. split; [|done].
  cbn. rewrite Forall_forall in *. intros g' Hg'. apply A4.
  apply list_elem_of_In, List.filter_In in Hg' as [Hg' _]. by apply list_elem_of_In.
Qed.

Lemma ws_inv_bind m c gr q : ws_inv q -> ws_inv (bind_ext_workspace_manager m c gr q).
Proof.
  intros H. unfold bind_ext_workspace_manager.
  set (q1 := q <| ext_ws_managers ::= cons _ |>).
  assert (H1 : ws_inv q1).
  { destruct H as [A1 A2 A3 [A4 A5]]. split; [done..|]. split; [|done].
    apply Forall_cons. split; [by apply Forall_nil|done]. }
  assert (H2 : ws_inv (match gr with Some g => emit (ws_group m g) q1 | None => q1 end)).
  { destruct gr; [|done]. by apply ws_inv_emit. }
  set (q2 := match gr with Some _ => _ | None => _ end) in *. clearbody q2.
  apply (ws_inv_core q2); [apply core_create_handles| |done].
  unfold qdwin_ext_ws_manager_create_handles.
  apply (ext_upd_mgr m (fun g => g <| m_handle_count := _ |>)); [done|].
  apply ext_foldl; [|apply H2]. intros q3 i Hi Hq3. apply ext_create_handle; [|done].
  apply elem_of_seqZ in Hi. lia.
Qed.

Lemma ws_inv_move r h i q :
  0 <= i -> ws_inv q -> ws_inv (qdwin_handle_move_toplevel_to_workspace r h i q).
Proof.
  intros Hi H. unfold qdwin_handle_move_toplevel_to_workspace, shell_request.
  destruct (qdwin_shell_require_bound r q); [|by apply ws_inv_emit].
  destruct (qdwin_toplevel_from_handle h q) as [tl|];
    [|by apply ws_inv_emit].
  destruct (Z.leb_spec (workspace_count q) i) as [|Hlt]; [done|].
  set (q1 := if workspace tl =? i then _ else _).
  assert (H1 : ws_inv q1).
  { subst q1. destruct (workspace tl =? i); [done|]. apply ws_inv_refocus.
    eapply ws_inv_scene; [apply scene_only_visibility|]. destruct H as [A1 A2 A3 A4].
    split; [done..| |done]. cbn. apply Forall_map. eapply Forall_impl; [exact A3|].
    intros t Ht. cbn in *. by destruct (handle t =? h). }
  clearbody q1. unfold qdwin_emit_toplevel_workspace, with_tl.
  destruct (qdwin_toplevel_from_handle h q1); [|done].
  unfold shell_send. destruct (shell_version_ge 24 q1); [|done].
  by apply ws_inv_emit.
Qed.

Lemma ext_broadcast_name i q : ext_inv q -> ext_inv (qdwin_ext_ws_broadcast_name i q).
Proof.
  intros Hq. unfold qdwin_ext_ws_broadcast_name. split_match; [done|]. cbv zeta.
  apply ext_foldl; [|done]. intros q1 g _ Hq1. repeat (split_match; try done).
Qed.

Lemma ws_inv_name r i n q : ws_inv q -> ws_inv (qdwin_handle_set_workspace_name r i n q).
Proof.
  intros H. unfold qdwin_handle_set_workspace_name, shell_request.
  assert (Hn : forall F, ws_inv (qdwin_ext_ws_broadcast_name i (q <| workspace_names ::= F |>))).
  { intros F. assert (H1 : ws_inv (q <| workspace_names ::= F |>)) by (destruct H; by split).
    apply (ws_inv_core (q <| workspace_names ::= F |>));
      [apply core_broadcast_name|apply ext_broadcast_name, H1|done]. }
  destruct (qdwin_shell_require_bound r q); [|by apply ws_inv_emit].
  repeat (split_match; try done).
Qed.

Lemma ws_step_inv q q' : ws_step q q' -> ws_inv q -> ws_inv q'.
Proof.
  intros Hs H.
  assert (Hr : forall wh m i, live_ref wh q = Some (m, i) -> 0 <= i).
  { intros wh m i. unfold live_ref. destruct (wi_ext _ H) as [_ Hr].
    destruct (ext_ws_refs q !! wh) as [[[m'|] i']|] eqn:E; try done.
    intros [= <- <-]. apply (Hr _ _ E). }
  destruct Hs.
  - unfold qdwin_ext_ws_handle_activate. destruct (live_ref wh q) as [[m i]|] eqn:E; [|done].
    apply ws_inv_pending; [|done]. by apply Hr in E.
  - unfold qdwin_ext_ws_handle_remove. destruct (live_ref wh q) as [[m i]|] eqn:E; [|done].
    apply ws_inv_pending; [|done]. by apply Hr in E.
  - unfold qdwin_ext_ws_handle_resource_destroy.
    assert (Hd : forall q1, ws_inv q1 -> ws_inv (q1 <| ext_ws_refs ::= delete wh |>)).
    { intros q1 [A1 A2 A3 A4]. split; [done..|]. apply ext_refs; [|done].
      intros m Hm. by apply map_Forall_delete. }
    apply Hd. destruct (live_ref wh q) as [[m i]|]; [|done].
    destruct (i <? QDWIN_MAX_WORKSPACES); [|done]. destruct H as [A1 A2 A3 A4].
    split; [done..|]. apply ext_upd_mgr; [|done]. intros g Hg. by destruct (bool_decide _).
  - unfold qdwin_ext_ws_group_create_workspace, with_mgr. split_match; [|done].
    split_match; [|done]. by apply ws_inv_pending.
  - by apply ws_inv_flush.
  - unfold qdwin_ext_ws_manager_stop, with_mgr. split_match; [|done].
    apply ws_inv_manager_destroy, ws_inv_emit, ws_inv_clear.
    destruct H as [A1 A2 A3 A4]. split; [done..|]. by apply ext_upd_mgr.
  - by apply ws_inv_manager_destroy.
  - by apply ws_inv_bind.
  - by apply ws_inv_move.
  - by apply ws_inv_name.
Qed.

(** C7.  Whatever sequence of ext-workspace requests (staged, committed, stopped or
    disconnected half-way) and shell requests arrives, there are between 1 and
    32 workspaces, the active index denotes one of them, and so does every
    window's workspace: no window is ever stranded on a workspace that does
    not exist. *)
Theorem workspace_invariant (q q' : qdwin) : rtc ws_step q q' -> ws_inv q -> ws_inv q'.
Proof. induction 1; eauto using ws_step_inv. Qed.

(** A manager that removes workspace 1 and asks for workspace 3 of four. *)
Definition ex_ws0 : qdwin := ex_desk [ex_tl 2 12 102 3; ex_tl 1 11 101 1].
Definition ex_ws1 : qdwin := bind_ext_workspace_manager 50 7 (Some 51) ex_ws0.
Definition ex_ws2 : qdwin := qdwin_ext_ws_handle_remove 2 ex_ws1.
Definition ex_ws3 : qdwin := qdwin_ext_ws_handle_activate 4 ex_ws2.
Definition ex_ws4 : qdwin := qdwin_ext_ws_manager_commit 50 ex_ws3.

Lemma ex_ws0_inv : ws_inv ex_ws0.
Proof.
  split; [vm_compute; split; discriminate|vm_compute; split; [discriminate|reflexivity]| |].
  - repeat apply Forall_cons; (split; [vm_compute; split; [discriminate|reflexivity]|]).
    + apply Forall_cons. split; [vm_compute; split; [discriminate|reflexivity]|]. by apply Forall_nil.
  - split; [by apply Forall_nil|]. intros k x H. vm_compute in H. discriminate.
Qed.

Lemma workspace_invariant_witness :
  ws_inv ex_ws4 /\ workspace_count ex_ws4 = 3 /\ (workspace <$> toplevels ex_ws4) = [2; 0].
Proof.
  split; [|split; vm_compute; reflexivity].
  apply (workspace_invariant ex_ws0); [|apply ex_ws0_inv].
  apply (rtc_l _ _ ex_ws1); [apply ws_bind|].
  apply (rtc_l _ _ ex_ws2); [apply ws_handle_remove|].
  apply (rtc_l _ _ ex_ws3); [apply ws_handle_activate|].
  apply (rtc_l _ _ ex_ws4); [apply ws_commit|]. apply rtc_refl.
Defined.

(** Staged removals name positions, not workspaces: committing the removal of
    workspaces [i] and [j > i] in one batch removes [i] and then the workspace
    that was [j + 1], because the first removal shifts the second index.  The
    windows of [j] stay on a live workspace, together with those of [j + 1]. *)
Theorem batch_remove_hits_neighbour (q : qdwin) (m i j : Z) (g : ext_ws_manager)
    (tj tk : toplevel) :
  List.find (fun g => m_id g =? m) (ext_ws_managers q) = Some g -> m_stopped g = false ->
  m_pending g = [PENDING_REMOVE i; PENDING_REMOVE j] ->
  0 <= i < j -> j + 1 < workspace_count q ->
  tj ∈ toplevels q -> workspace tj = j -> tk ∈ toplevels q -> workspace tk = j + 1 ->
  let q' := qdwin_ext_ws_manager_commit m q in
  workspace_count q' = workspace_count q - 2 /\
  (exists tj', tj' ∈ toplevels q' /\ handle tj' = handle tj /\ workspace tj' = j - 1) /\
  (exists tk', tk' ∈ toplevels q' /\ handle tk' = handle tk /\ workspace tk' = j - 1).
Proof.
  intros Hg Hs Hp Hij Hc Hj Hwj Hk Hwk q'.
  assert (Hrm : forall n (q0 : qdwin), 1 < workspace_count q0 -> 0 <= n < workspace_count q0 ->
    workspace_count (qdwin_workspace_remove n q0) = workspace_count q0 - 1 /\
    toplevels (qdwin_workspace_remove n q0) =
      map (fun t => t <| workspace ::= shift_workspace n |>) (toplevels q0)).
  { intros n q0 H1 H2. unfold qdwin_workspace_remove.
    destruct (Z.leb_spec (workspace_count q0) 1); [lia|].
    destruct (Z.leb_spec (workspace_count q0) n); [lia|].
    rewrite (count_core _ _ (core_resync_all _)), (toplevels_core _ _ (core_resync_all _)).
    rewrite (count_core _ _ (core_emit_workspaces _ _)),
      (toplevels_core _ _ (core_emit_workspaces _ _)).
    rewrite (count_core _ _ (core_refocus _)), (toplevels_core _ _ (core_refocus _)).
    rewrite (scene_only_all _). done. }
  destruct (Hrm i q) as [C1 T1]; [lia|lia|].
  destruct (Hrm j (qdwin_workspace_remove i q)) as [C2 T2]; [lia|lia|].
  assert (Hq' : toplevels q' = toplevels (qdwin_workspace_remove j (qdwin_workspace_remove i q))
    /\ workspace_count q' = workspace_count (qdwin_workspace_remove j (qdwin_workspace_remove i q))).
  { subst q'. unfold qdwin_ext_ws_manager_commit, qdwin_ext_ws_manager_flush, with_mgr.
    rewrite Hg, Hs, Hp. done. }
  destruct Hq' as [-> ->]. rewrite T2, C2, C1, T1. split; [lia|].
  assert (Hs2 : forall t, shift_workspace i (workspace t) = workspace t - 1 ->
    t ∈ toplevels q -> exists t', t' ∈ map (fun t => t <| workspace ::= shift_workspace j |>)
      (map (fun t => t <| workspace ::= shift_workspace i |>) (toplevels q)) /\
      handle t' = handle t /\ workspace t' = shift_workspace j (workspace t - 1)).
  { intros t Ht Hin. eexists. split.
    - apply list_elem_of_fmap_2, list_elem_of_fmap_2, Hin.
    - split; [done|]. cbn. by rewrite Ht. }
  split.
  - destruct (Hs2 tj) as (t' & H1 & H2 & H3); [|done|].
    + unfold shift_workspace. rewrite Hwj. zcrush.
    + exists t'. split_and!; [done|done|]. rewrite H3, Hwj. unfold shift_workspace. zcrush.
  - destruct (Hs2 tk) as (t' & H1 & H2 & H3); [|done|].
    + unfold shift_workspace. rewrite Hwk. zcrush.
    + exists t'. split_and!; [done|done|]. rewrite H3, Hwk. unfold shift_workspace. zcrush.
Qed.

Definition ex_batch : qdwin :=
  (ex_desk [ex_tl 2 12 102 3; ex_tl 1 11 101 2])
    <| ext_ws_managers := [mk_ext_ws_manager 50 7 (Some 51) (replicate 32 None) 0
                             [PENDING_REMOVE 1; PENDING_REMOVE 2] false] |>.

Lemma batch_remove_hits_neighbour_witness :
  let q' := qdwin_ext_ws_manager_commit 50 ex_batch in
  workspace_count q' = 2 /\
  (exists tj', tj' ∈ toplevels q' /\ handle tj' = 1 /\ workspace tj' = 1) /\
  (exists tk', tk' ∈ toplevels q' /\ handle tk' = 2 /\ workspace tk' = 1).
Proof.
  eapply (batch_remove_hits_neighbour ex_batch 50 1 2 _ (ex_tl 1 11 101 2) (ex_tl 2 12 102 3));
    try reflexivity.
  - lia.
  - apply list_elem_of_further, list_elem_of_here.
  - apply list_elem_of_here.
Defined.

Lemma foci_emit_focus i q :
  kbd_focus <$> seats (qdwin_seat_emit_focus_now i q) = kbd_focus <$> seats q.
Proof.
  assert (Hu : forall f q, (forall s, kbd_focus (f s) = kbd_focus s) ->
    kbd_focus <$> seats (upd_seat i f q) = kbd_focus <$> seats q).
  { intros f q0 Hf. unfold upd_seat; simpl. rewrite <- list_fmap_compose.
    apply list_fmap_ext. intros k s _. cbn. destruct (seat_id s =? i); [apply Hf|done]. }
  unfold qdwin_seat_emit_focus_now, with_seat. destruct (List.find _ _) as [s|]; [|done].
  destruct (tracked s); cbn [negb]; [|done]. destruct (_ =? last_focused_handle s); [done|].
  unfold qdwin_emit_seat_focus_changed, shell_send, schedule_recovery.
  destruct (shell_version_ge _ _), (_ && _); rewrite ?Hu by done; try (by apply Hu);
    simpl; rewrite ?Hu by done; done.
Qed.

Lemma seats_broadcast q : seats (qdwin_ext_ws_broadcast_state q) = seats q.
Proof.
  unfold qdwin_ext_ws_broadcast_state. generalize (ext_ws_managers q) as gs. intros gs.
  assert (Hl : forall g l q0, seats (foldl (send_state g) q0 l) = seats q0).
  { intros g l. induction l as [|i l IH]; intros q0; [done|]. cbn. rewrite IH.
    unfold send_state. by split_match. }
  revert q. induction gs as [|g gs IH]; intros q0; [done|]. cbn. rewrite IH.
  split_match; [done|]. split_match; simpl; by rewrite Hl.
Qed.

(** A workspace switch gives the keyboard to the window at the bottom of the
    stack: the windows are re-inserted newest first, each on top of the one
    before, so the newest ends up below the oldest, while the focus goes to
    the newest. *)
Theorem workspace_switch_focuses_bottom (q : qdwin) (index : Z) (tn to : toplevel) (s : seat) :
  toplevels q = [tn; to] -> toplevels_wf q -> locked q = false ->
  managed tn q -> managed to q -> proxy_pending tn = false -> proxy_pending to = false ->
  is_nested_proxy tn = false -> tl_surface_mapped tn = true -> view tn ≠ NULL_VIEW ->
  tl_views tn = [view tn] -> tl_views to = [view to] ->
  workspace tn = index -> workspace to = index ->
  0 <= index < workspace_count q -> index ≠ active_workspace q ->
  seats q = [s] -> has_keyboard s = true -> kbd_focus s = None ->
  let q' := qdwin_set_active_workspace index q in
  (exists rest, layer_views normal_layer (the_scene q') = view to :: view tn :: rest) /\
  kbd_focus <$> seats q' = [Some (tl_surface tn)].
Proof.
  intros Ht Hwf Hl Hmn Hmo Hpn Hpo Hnp Hsm Hvn Vn Vo Wn Wo Hi Hne Hseats Hk Hf q'.
  destruct Hwf as [Hh Hv]. set (q1 := q <| active_workspace := index |>).
  assert (Hc : q' ≃ on_scene (fun s => foldl (vis_scene q1) s (toplevels q)) q1)
    by by apply set_active_core.
  assert (Htgt : forall t, managed t q -> workspace t = index -> proxy_pending t = false ->
    vis_target t q1 = Some normal_layer).
  { intros t (M1 & M2 & M3 & M4) Hw Hp. unfold vis_target.
    change (nested_mode q1) with (nested_mode q).
    change (qdwin_toplevel_is_locker_ui t q1) with (qdwin_toplevel_is_locker_ui t q).
    change (active_workspace q1) with index.
    rewrite M1, M2, M3, M4, Hp. cbn [negb]. by rewrite (proj2 (Z.eqb_eq _ _) Hw). }
  split.
  - rewrite (scene_core _ _ Hc), Ht. unfold on_scene, upd_field; cbn [the_scene foldl].
    unfold vis_scene. rewrite !Htgt by done. rewrite Vn, Vo. cbn [move_views foldl].
    unfold move_views; cbn [foldl]. rewrite !layer_views_move, !decide_True by done.
    rewrite filter_app, filter_cons_True; [|].
    + eexists. reflexivity.
    + rewrite Ht, !all_views_cons, Vn, Vo in Hv. cbn [app] in Hv.
      apply NoDup_cons in Hv as [Hv _]. intros Heq. apply Hv. rewrite Heq. apply list_elem_of_here.
  - subst q'. unfold qdwin_set_active_workspace.
    destruct (Z.leb_spec (workspace_count q) index); [lia|].
    destruct (Z.eqb_spec index (active_workspace q)); [done|].
    rewrite seats_broadcast. fold q1. set (q2 := apply_visibility_all q1).
    assert (Hq2 : q2 = on_scene (fun _ => the_scene q2) q1) by apply scene_only_all.
    unfold qdwin_workspace_refocus_seats.
    assert (Hl2 : locked q2 = false) by by rewrite Hq2.
    assert (Hs2 : seats q2 = [s]) by by rewrite Hq2.
    assert (Hv2 : first_visible q2 = Some tn).
    { unfold first_visible. rewrite Hq2. change (toplevels (on_scene _ q1)) with (toplevels q).
      rewrite Ht. cbn [List.find]. unfold qdwin_toplevel_is_visible.
      change (active_workspace (on_scene _ q1)) with index. destruct Hmn as (_ & _ & -> & ->).
      rewrite (proj2 (Z.eqb_eq _ _) Wn), (proj2 (Z.eqb_neq _ _) Hvn), Hsm. done. }
    rewrite Hl2, Hv2, Hs2. cbn [foldl]. unfold refocus_seat. rewrite Hk, Hf. cbn [negb qdwin_toplevel_by_surface].
    rewrite foci_emit_focus. unfold weston_view_activate_input, weston_keyboard_set_focus.
    rewrite foci_emit_focus. unfold upd_seat, focusable_surface; simpl.
    rewrite Hs2, Hnp. cbn. by rewrite Z.eqb_refl.
Qed.

Lemma workspace_switch_focuses_bottom_witness :
  let q' := qdwin_set_active_workspace 1 (ex_desk [ex_tl 2 12 102 1; ex_tl 1 11 101 1]) in
  (exists rest, layer_views normal_layer (the_scene q') = 11 :: 12 :: rest) /\
  kbd_focus <$> seats q' = [Some 102].
Proof.
  apply (workspace_switch_focuses_bottom (ex_desk [ex_tl 2 12 102 1; ex_tl 1 11 101 1]) 1
           (ex_tl 2 12 102 1) (ex_tl 1 11 101 1) ex_seat); try reflexivity; try discriminate.
  - split; apply (bool_decide_unpack _); vm_compute; exact I.
  - split_and!; reflexivity.
  - split_and!; reflexivity.
  - vm_compute. split; [discriminate|reflexivity].
Defined.
