(* ===== verification/Session.v ===== *)
(** * Session: the life cycle of toplevels and of the shell binding

    The [weston_desktop_api] callbacks of [qdwin.c] (surface added, removed,
    committed, state requests), the release from the held layer, decorations,
    and how a client becomes and stops being the shell. *)

From stdpp Require Import base list gmap strings option.
From S2P Require Import Prelude Logic Scene Procfs State Toplevel Dependents Focus Placement.
From S2P Require Import Lock Config Clipboard Workspace.
Import Geometry Policy.

#[local] Open Scope Z_scope.

(** ** Announcing a toplevel *)

Definition qdwin_client_uid (d : desktop_surface) : Z :=
  match ds_client d with Some _ => ds_uid d | None => UINT32_MAX end.

Definition qdwin_toplevel_is_xwayland (tl : toplevel) : bool :=
  match desktop tl with
  | Some d => negb (is_nested_proxy tl) && ds_xwayland d
  | None => false
  end.

(** A missing application id and an empty one are the same empty string. *)
Definition qdwin_toplevel_effective_app_id (tl : toplevel) : string :=
  match desktop tl with
  | None => ""
  | Some d =>
      if is_nested_proxy tl then ""
      else if negb (String.eqb (ds_app_id d) "") then ds_app_id d
      else if qdwin_toplevel_is_xwayland tl then ds_wm_class d
      else ds_app_id d
  end.

Definition qdwin_toplevel_secctx_engine (tl : toplevel) : option string :=
  match desktop tl with
  | Some d => if is_nested_proxy tl then None else sc_engine <$> ds_secctx d
  | None => None
  end.

Definition qdwin_send_toplevel_security_context (tl : toplevel) (q : qdwin) : qdwin :=
  let h := handle tl in
  if is_nested_proxy tl then
    match proxy_secctx tl with
    | Some (e, a, i) => shell_send 13 (toplevel_security_context h e a i) q
    | None => q
    end
  else match desktop tl ≫= ds_secctx with
  | None => q
  | Some sc =>
      q ~> shell_send 13 (toplevel_security_context h (sc_engine sc) (sc_app_id sc)
                            (sc_instance sc))
        ~> shell_send 22 (toplevel_peer_identity h (sc_peer_pid sc)
             (Z.land (sc_peer_starttime sc) 0xffffffff)
             (Z.land (Z.shiftr (sc_peer_starttime sc) 32) 0xffffffff)
             (sc_peer_uid sc) (sc_peer_exe sc) (sc_peer_label sc))
  end.

Definition toplevel_identity (tl : toplevel) : string * string * Z :=
  match desktop tl with
  | Some d => if is_nested_proxy tl then (proxy_app_id tl, proxy_title tl, proxy_origin_uid tl)
              else (qdwin_toplevel_effective_app_id tl, ds_title d, qdwin_client_uid d)
  | None => (proxy_app_id tl, proxy_title tl, proxy_origin_uid tl)
  end.

Definition qdwin_emit_nested_proxy_remote_identity (tl : toplevel) (q : qdwin) : qdwin :=
  match proxy_remote tl with
  | Some (machine, domain, stream, gen) =>
      if is_nested_proxy tl
      then shell_send 34 (nested_proxy_remote_identity (handle tl) machine domain stream
                            (u32 (Z.shiftr gen 32)) (u32 gen)) q
      else q
  | None => q
  end.

Definition qdwin_send_toplevel_added (h : Z) : qdwin -> qdwin :=
  with_tl h (fun tl q =>
    let '(app_id, title, uid) := toplevel_identity tl in
    q ~> upd_tl h (fun t => t <| cached_title := title |> <| cached_app_id := app_id |>)
      ~> shell_send 0 (toplevel_added h (u32 uid) app_id title (qdwin_toplevel_is_xwayland tl))
      ~> qdwin_send_toplevel_security_context tl
      ~> qdwin_emit_nested_proxy_remote_identity tl
      ~> qdwin_emit_toplevel_workspace h).

(** ** Release from the held layer *)

(** [decided] holds when the cause is a nested-proxy decision. *)
Definition qdwin_toplevel_release_holding (decided : bool) (h : Z) : qdwin -> qdwin :=
  with_tl h (fun tl q =>
    if decorated tl then q
    else if proxy_pending tl && negb decided then q
    else
      q ~> upd_tl h (fun t => t <| decorated := true |>)
        ~> on_scene (move_views (tl_views tl) normal_layer)
        ~> (fun q => if workspace tl =? active_workspace q then q
                     else qdwin_toplevel_move_to_layer h workspace_hidden_layer q)
        ~> qdwin_toplevel_autofocus_if_ready h).

Definition qdwin_handle_set_border_color (r : wl_resource) (h rgba : Z) : qdwin -> qdwin :=
  shell_request r (fun q =>
    match qdwin_toplevel_from_handle h q with
    | None => emit (post_error (res_id r) SHELL_INVALID_HANDLE) q
    | Some _ => q ~> upd_tl h (fun t => t <| border_rgba := Some rgba |>)
                  ~> qdwin_toplevel_release_holding false h
    end).

Definition qdwin_toplevel_border_rgba (tl : toplevel) (fallback : Z) : Z :=
  default fallback (border_rgba tl).

(** ** Desktop-surface callbacks *)

Definition new_toplevel (h v : Z) (d : desktop_surface) (ws : Z) : toplevel :=
  mk_toplevel h (Some d) v false false 0 0 false false false None 0 None "" "" 0 None
    0 0 0 0 0 0 0 0 0 0 0 0 0 0 0 false 0 ws None 0 0 0 0 QDWIN_TILE_NONE 0 0 0 0
    [no_chrome; no_chrome; no_chrome; no_chrome] "" "".

Definition register_toplevel (d : desktop_surface) (v : Z) (q : qdwin) : Z * qdwin :=
  let h := u32_succ (next_handle q) in
  (h, q <| next_handle := h |>
        <| toplevels ::= cons (new_toplevel h v d (active_workspace q)) |>).

Definition qdwin_surface_added (d : desktop_surface) (q : qdwin) : qdwin :=
  match weston_view_create q with
  | (None, q) => q
  | (Some v, q) =>
      let (h, q) := register_toplevel d v q in
      if nested_mode q then on_scene (weston_view_move_to_layer v normal_layer) q
      else q ~> on_scene (weston_view_move_to_layer v held_layer)
             ~> qdwin_send_toplevel_added h
             ~> qdwin_toplevel_release_holding false h
             ~> qdwin_maybe_promote_lock_toplevel h
  end.

Definition forget_lock_toplevel (tl : toplevel) (q : qdwin) : qdwin :=
  if bool_decide (lock_toplevel q = Some (handle tl)) then
    q ~> (fun q => q <| lock_toplevel := None |>)
      ~> (fun q => if bool_decide (lock_view q = Some (view tl)) then clear_lock_view q else q)
  else q.

Definition destroy_views (vs : list Z) (s : scene) : scene :=
  foldl (fun s v => weston_view_destroy v s) s vs.

Definition qdwin_surface_removed (h : Z) : qdwin -> qdwin :=
  with_tl h (fun tl q =>
    q ~> forget_lock_toplevel tl
      ~> (fun q => if nested_mode q then emit (nested_unpublish h) q
                   else shell_send 0 (toplevel_removed h) q)
      ~> qdwin_toplevel_release_dependents h
      ~> on_scene (destroy_views (omap ch_view (tl_chrome tl) ++ [view tl]))
      ~> (fun q => q <| toplevels ::= List.filter (fun t => negb (handle t =? h)) |>)).

Definition qdwin_surface_maximized_requested (h : Z) (maximized : bool) (q : qdwin) : qdwin :=
  if locked q then q else qdwin_toplevel_set_maximized h maximized q.
Definition qdwin_surface_fullscreen_requested (h : Z) (fullscreen : bool)
    (out : option output) : qdwin -> qdwin := qdwin_toplevel_set_fullscreen h fullscreen out.
Definition qdwin_surface_minimized_requested (h : Z) (q : qdwin) : qdwin :=
  if locked q then q else qdwin_toplevel_set_minimized h q.

(** *** Commit *)

Definition sync_title (h : Z) : qdwin -> qdwin :=
  with_tl h (fun tl q =>
    let cur := match desktop tl with Some d => ds_title d | None => "" end in
    if String.eqb (cached_title tl) cur then q
    else q ~> upd_tl h (fun t => t <| cached_title := cur |>)
           ~> shell_send 0 (toplevel_title h cur)).

Definition sync_app_id (h : Z) : qdwin -> qdwin :=
  with_tl h (fun tl q =>
    let cur := qdwin_toplevel_effective_app_id tl in
    if String.eqb (cached_app_id tl) cur then q
    else q ~> upd_tl h (fun t => t <| cached_app_id := cur |>)
           ~> shell_send 31 (toplevel_app_id h cur)).

(** The size the XWayland feedback compares: the surface's, or the geometry's
    when the surface has none. *)
Definition actual_size (d : desktop_surface) : Z * Z :=
  (pos_or (ds_width d) (ds_geometry_w d), pos_or (ds_height d) (ds_geometry_h d)).

(** What the client adds to a configured extent. *)
Definition learn_frame (d : desktop_surface) (tl : toplevel) : toplevel :=
  let (aw, ah) := actual_size d in
  let fw := if negb (aw =? xwayland_before_w tl) && (0 <=? aw - xwayland_sent_w tl)
            then aw - xwayland_sent_w tl else xwayland_frame_w tl in
  let fh := if negb (ah =? xwayland_before_h tl) && (0 <=? ah - xwayland_sent_h tl)
            then ah - xwayland_sent_h tl else xwayland_frame_h tl in
  tl <| xwayland_frame_w := fw |> <| xwayland_frame_h := fh |>.

Definition settled (tl : toplevel) : toplevel := tl <| xwayland_configure_pending := false |>.

Definition correction (d : desktop_surface) (tl : toplevel) : Z * Z :=
  (qdwin_client_extent_for_geometry (xwayland_target_w tl) (ds_width d) (ds_geometry_w d)
     (xwayland_frame_w tl),
   qdwin_client_extent_for_geometry (xwayland_target_h tl) (ds_height d) (ds_geometry_h d)
     (xwayland_frame_h tl)).

Definition note_correction (d : desktop_surface) (tl : toplevel) : toplevel :=
  tl <| xwayland_before_w := fst (actual_size d) |> <| xwayland_before_h := snd (actual_size d) |>
     <| xwayland_sent_w := fst (correction d tl) |> <| xwayland_sent_h := snd (correction d tl) |>
     <| xwayland_corrections ::= Z.succ |>.

(** One round of the convergence loop: the new toplevel and the corrective
    configure, if one is sent. *)
Definition xwayland_feedback (d : desktop_surface) (tl : toplevel) : toplevel * option (Z * Z) :=
  if negb (xwayland_configure_pending tl && qdwin_toplevel_is_xwayland tl) then (tl, None)
  else
    let (aw, ah) := actual_size d in
    if (aw =? xwayland_before_w tl) && (ah =? xwayland_before_h tl) then (tl, None)
    else
      let tl := learn_frame d tl in
      if (aw =? xwayland_target_w tl) && (ah =? xwayland_target_h tl) then (settled tl, None)
      else if xwayland_corrections tl <? 3
      then (note_correction d tl, Some (correction d tl))
      else (settled tl, None).

Definition xwayland_converge (h : Z) : qdwin -> qdwin :=
  with_tl h (fun tl q =>
    match desktop tl with
    | None => q
    | Some d =>
        let (tl', corr) := xwayland_feedback d tl in
        let q := upd_tl h (fun _ => tl') q in
        match corr with
        | Some (w, ht) => emit (desktop_set_size h w ht) q
        | None => q
        end
    end).

Definition sync_floating (d : desktop_surface) (tl : toplevel) : toplevel :=
  if ts_has (state tl) (Z.lor QDWIN_TS_MAXIMIZED QDWIN_TS_FULLSCREEN)
     || negb (tiled tl =? QDWIN_TILE_NONE) || xwayland_configure_pending tl then tl
  else
    let xwayland := qdwin_toplevel_is_xwayland tl in
    let inner_w := qdwin_committed_restore_extent xwayland (ds_width d) (ds_geometry_w d) in
    let inner_h := qdwin_committed_restore_extent xwayland (ds_height d) (ds_geometry_h d) in
    if (0 <? inner_w) && (0 <? inner_h)
    then set_outer (inner_w + inset_w tl + inset_e tl) (inner_h + inset_n tl + inset_s tl) tl
    else tl.

Definition sync_outer (h : Z) : qdwin -> qdwin :=
  with_tl h (fun tl q =>
    match desktop tl with
    | Some d => upd_tl h (sync_floating d) q
    | None => q
    end).

Definition map_surface (tl : toplevel) : toplevel :=
  tl <| mapped := true |> <| desktop ::= fmap (fun d => d <| ds_mapped := true |>) |>.

Definition place_new (h : Z) (d : desktop_surface) : qdwin -> qdwin :=
  with_tl h (fun tl q =>
    if ts_has (state tl) QDWIN_TS_FULLSCREEN
    then qdwin_toplevel_apply_fullscreen_geometry h None q
    else match qdwin_primary_output q with
    | None => q
    | Some out =>
        let (cx, cy) := qdwin_compute_placement h (ds_width d) (ds_height d) out q in
        weston_view_set_position (view tl) (if cx <? 0 then 0 else cx)
          (if cy <? 0 then 0 else cy) q
    end).

Definition map_first (h : Z) (d : desktop_surface) (q : qdwin) : qdwin :=
  q ~> upd_tl h map_surface ~> place_new h d ~> qdwin_toplevel_autofocus_if_ready h.

Definition note_size (h : Z) (d : desktop_surface) : qdwin -> qdwin :=
  with_tl h (fun tl q =>
    if (last_width tl =? ds_width d) && (last_height tl =? ds_height d) then q
    else
      q ~> upd_tl h (fun t => t <| last_width := ds_width d |> <| last_height := ds_height d |>)
        ~> shell_send 0 (toplevel_geometry h (view_x (view tl) q - inset_w tl)
             (view_y (view tl) q - inset_n tl) (u32 (ds_width d)) (u32 (ds_height d)))
        ~> (if decorated tl then qdwin_toplevel_position_chrome h else (fun q => q))).

(** [d] is the surface's state after the commit (whether it was mapped before
    included); libweston updates it before the callback. *)
Definition qdwin_surface_committed (h : Z) (d : desktop_surface) (q : qdwin) : qdwin :=
  let q := upd_tl h (fun t => t <| desktop := Some d |>) q in
  with_tl h (fun tl q =>
    if ds_width d =? 0 then q
    else if nested_mode q then
      q ~> (if ds_mapped d then (fun q => q) else upd_tl h map_surface)
        ~> emit (nested_publish h)
    else
      q ~> sync_title h
        ~> sync_app_id h
        ~> xwayland_converge h
        ~> sync_outer h
        ~> (if ds_mapped d then (fun q => q) else map_first h d)
        ~> note_size h d) q.

(** ** Decorations *)

Definition upd_chrome (h : Z) (side : nat) (c : chrome) : qdwin -> qdwin :=
  upd_tl h (fun t => t <| tl_chrome ::= <[side := c]> |>).

Definition chrome_at (tl : toplevel) (side : nat) : chrome :=
  default no_chrome (tl_chrome tl !! side).

Definition qdwin_chrome_detach (h : Z) (side : nat) : qdwin -> qdwin :=
  with_tl h (fun tl q =>
    let c := chrome_at tl side in
    match ch_surface c with
    | None => q
    | Some _ =>
        q ~> (fun q => match ch_view c with
                       | Some v => on_scene (weston_view_destroy v) q
                       | None => q
                       end)
          ~> upd_chrome h side no_chrome
    end).

(** The shell's chrome surface died. *)
Definition qdwin_chrome_surface_destroyed (h : Z) (side : nat) : qdwin -> qdwin :=
  qdwin_chrome_detach h side.

Definition chrome_layer (tl : toplevel) (q : qdwin) : layer :=
  if negb (decorated tl) then held_layer
  else if negb (workspace tl =? active_workspace q) then workspace_hidden_layer
  else normal_layer.

(** [surface] is the side's surface with its committed size, [None] to
    detach. *)
Definition qdwin_chrome_attach_side (h : Z) (side : nat) (surface : option (Z * Z * Z))
  : qdwin -> qdwin :=
  match surface with
  | None => qdwin_chrome_detach h side
  | Some (id, w, ht) => with_tl h (fun tl q =>
      let c := chrome_at tl side in
      let same := match ch_surface c with Some (id', _, _) => id' =? id | None => false end in
      if same && bool_decide (ch_view c ≠ None)
      then upd_chrome h side (mk_chrome (Some (id, w, ht)) (ch_view c)) q
      else
        match weston_view_create (qdwin_chrome_detach h side q) with
        | (None, q) => q
        | (Some v, q) =>
            q ~> upd_chrome h side (mk_chrome (Some (id, w, ht)) (Some v))
              ~> on_scene (weston_view_move_to_layer v (chrome_layer tl q))
        end)
  end.

Definition derive_insets (tl : toplevel) : toplevel :=
  tl <| inset_n := ch_height (chrome_at tl QDWIN_SIDE_N) |>
     <| inset_e := ch_width (chrome_at tl QDWIN_SIDE_E) |>
     <| inset_s := ch_height (chrome_at tl QDWIN_SIDE_S) |>
     <| inset_w := ch_width (chrome_at tl QDWIN_SIDE_W) |>.

Definition has_insets (tl : toplevel) : bool :=
  negb (inset_n tl =? 0) || negb (inset_e tl =? 0) || negb (inset_s tl =? 0)
  || negb (inset_w tl =? 0).

Definition qdwin_handle_attach_decoration (r : wl_resource) (h : Z)
    (north east south west : option (Z * Z * Z)) : qdwin -> qdwin :=
  shell_request r (fun q =>
    match qdwin_toplevel_from_handle h q with
    | None => emit (post_error (res_id r) SHELL_INVALID_HANDLE) q
    | Some _ =>
        q ~> qdwin_chrome_attach_side h QDWIN_SIDE_N north
          ~> qdwin_chrome_attach_side h QDWIN_SIDE_E east
          ~> qdwin_chrome_attach_side h QDWIN_SIDE_S south
          ~> qdwin_chrome_attach_side h QDWIN_SIDE_W west
          ~> upd_tl h derive_insets
          ~> qdwin_toplevel_release_holding false h
          ~> with_tl h (fun tl q => if has_insets tl then qdwin_toplevel_apply_inset h q else q)
          ~> qdwin_toplevel_position_chrome h
    end).

(** ** Close and raise *)

Definition qdwin_handle_request_close (r : wl_resource) (h : Z) : qdwin -> qdwin :=
  shell_request r (unless_locked r (with_tl h (fun tl q =>
    if is_nested_proxy tl then emit (nested_close_requested h) q
    else if bool_decide (qdwin_toplevel_secctx_engine tl = Some "qdistro.mm") then q
    else emit (desktop_close h) q))).

Definition qdwin_handle_request_raise (r : wl_resource) (h : Z) : qdwin -> qdwin :=
  shell_request r (unless_locked r (with_tl h (fun tl q =>
    if proxy_pending tl then q
    else if ts_has (state tl) QDWIN_TS_MINIMIZED then
      q ~> upd_tl h (drop_state QDWIN_TS_MINIMIZED)
        ~> qdwin_toplevel_apply_workspace_visibility h
        ~> qdwin_send_toplevel_state h
    else if workspace tl =? active_workspace q then qdwin_toplevel_move_to_layer h normal_layer q
    else qdwin_toplevel_apply_workspace_visibility h q))).

(** ** The shell role *)

Definition adopt_shell (r : wl_resource) (pid uid : Z) (q : qdwin) : qdwin :=
  q <| shell_bound := true |> <| shell_resource := Some r |> <| shell_pid := pid |>
    <| shell_uid := uid |>.

Definition replay_seats_outputs (q : qdwin) : qdwin :=
  let q := foldl (fun q s => emit (seat_created (seat_id s)) q) q (seats q) in
  foldl (fun q o => emit (output_created (out_id o)) q) q (outputs q).

Definition qdwin_handle_bind_as_shell (r : wl_resource) (pid uid : Z) (q : qdwin) : qdwin :=
  if shell_bound q && negb (bool_decide (shell_resource q = Some r))
  then emit (post_error (res_id r) SHELL_ALREADY_BOUND) q
  else
    q ~> adopt_shell r pid uid
      ~> (fun q => foldl (fun q tl => qdwin_send_toplevel_added (handle tl) q) q (toplevels q))
      ~> (if 2 <=? res_version r then replay_seats_outputs else (fun q => q))
      ~> (if 14 <=? res_version r then qdwin_replay_seat_focus_for_shell else (fun q => q)).

Definition forget_shell (q : qdwin) : qdwin :=
  q <| shell_resource := None |> <| shell_bound := false |> <| shell_pid := 0 |>
    <| shell_uid := 0 |>.

Definition end_move_grab (q : qdwin) : qdwin := q <| move_grab_active := false |>.

(** The loss of the shell revokes everything it configured and every approval
    it still owes; [pending] are the outputs not enabled yet. *)
Definition qdwin_shell_resource_destroy (pending : list (string * Z)) (r : wl_resource)
    (q : qdwin) : qdwin :=
  if bool_decide (shell_resource q = Some r) then
    q ~> revoke_remote_input pending
      ~> qdwin_hotkeys_purge
      ~> end_move_grab
      ~> qdwin_ffm_cancel
      ~> set_policy qdwin_wm_policy_set_defaults
      ~> restore_power
      ~> restore_pointer_config
      ~> restore_key_repeat
      ~> qdwin_data_offer_pending_free_all
      ~> forget_shell
  else q.

(** The bind gate. *)
Definition shell_helper (exe : string) : bool :=
  qdwin_nested_pixelfeed_peer_allowed (Some exe) || qdwin_cursor_sprite_peer_allowed (Some exe).

Definition bind_qdwin_shell (p : procfs) (client pid uid version id : Z) (q : qdwin) : option wl_resource * qdwin :=
  if negb (uid =? allowed_uid q) then (None, emit (implementation_error client) q)
  else if shell_bound q && negb (qdwin_client_is_bound_shell client q)
          && negb (shell_helper (qdwin_proc_exe pid p))
  then (None, emit (implementation_error client) q)
  else if bool_decide (client ∈ secctx_clients q)
  then (None, emit (implementation_error client) q)
  else (Some (mk_resource id version client), emit (shell_hello client (u32 uid)) q).
