(* ===== verification/LockFacts.v ===== *)
(** * LockFacts: properties of the session lock

    First the frame: almost every operation leaves the lock flag and the layer
    list alone, which the class [LockFrame] states once and instances
    discharge per operation.  Then the reachable states of the whole plugin,
    and the properties of the lock built on them. *)

From stdpp Require Import base list gmap strings option.
From S2P Require Import Prelude Logic Scene Procfs State Toplevel ToplevelFacts Dependents.
From S2P Require Import Focus Placement Lock Config Clipboard Activation Workspace Session.
From stdpp Require Import list.

#[local] Open Scope Z_scope.

(** ** The lock frame *)

(** Agreement on the lock flag, the layer list and what the curtain is sized
    by. *)
Record lock_same (q q' : qdwin) : Prop := {
  ls_flag : locked q' = locked q;
  ls_layers : layer_list (the_scene q') = layer_list (the_scene q);
  ls_outputs : outputs q' = outputs q;
  ls_oom : oom q' = oom q
}.

Lemma lock_same_refl q : lock_same q q.
Proof. by split. Qed.
Lemma lock_same_trans q1 q2 q3 : lock_same q1 q2 -> lock_same q2 q3 -> lock_same q1 q3.
Proof. intros [] []. split; congruence. Qed.

(** An operation that neither locks, unlocks, nor repositions a layer. *)
Class LockFrame (f : qdwin -> qdwin) : Prop := lock_frame : forall q, lock_same q (f q).
Class SceneFrame (f : scene -> scene) : Prop :=
  scene_frame : forall s, layer_list (f s) = layer_list s.

Lemma lf_apply f `{!LockFrame f} q0 q : lock_same q0 q -> lock_same q0 (f q).
Proof. intros H. eapply lock_same_trans; [exact H|apply lock_frame]. Qed.

Lemma lf_core q q' : q' ≃ q -> lock_same q q'.
Proof.
  intros H. split; [by apply locked_core|f_equal; by apply scene_core| |];
    by apply (core_field _ q' q).
Qed.

Lemma lf_with_tl h k q0 q :
  (forall tl q, lock_same q0 q -> lock_same q0 (k tl q)) -> lock_same q0 q ->
  lock_same q0 (with_tl h k q).
Proof. intros Hk H. unfold with_tl. destruct (qdwin_toplevel_from_handle h q); auto. Qed.

Lemma lf_foldl {A} (f : qdwin -> A -> qdwin) l q0 q :
  (forall a q, lock_same q0 q -> lock_same q0 (f q a)) -> lock_same q0 q ->
  lock_same q0 (foldl f q l).
Proof. intros Hf. revert q. induction l as [|a l IH]; intros q H; cbn; auto. Qed.

Lemma lf_view_create q o q' : weston_view_create q = (o, q') -> lock_same q q'.
Proof. unfold weston_view_create. destruct (oom q); intros [= <- <-]; by split. Qed.

Lemma lf_on_scene f `{!SceneFrame f} q0 q : lock_same q0 q -> lock_same q0 (on_scene f q).
Proof. intros [H1 H2 H3 H4]. split; try done. cbn. by rewrite scene_frame. Qed.

(** Instance search goes by the head constant. *)
#[local] Hint Constants Opaque : typeclass_instances.

(** Peel the operations off the goal, outermost first. *)
Ltac lf_step :=
  cbv beta zeta;
  lazymatch goal with
  | |- SceneFrame _ => apply _
  | |- LockFrame _ => apply _
  | |- lock_same ?q ?q => apply lock_same_refl
  | H : lock_same ?q0 ?q |- lock_same ?q0 ?q => exact H
  | |- lock_same _ (match weston_view_create ?q with _ => _ end) =>
      let E := fresh "E" in
      destruct (weston_view_create q) as [[?|] ?] eqn:E; apply lf_view_create in E
  | |- lock_same _ (match ?x with _ => _ end) => destruct x
  | |- lock_same _ (match ?x with _ => _ end _) => destruct x
  | |- lock_same _ (foldl _ _ _) => apply lf_foldl; [intros ? ? ?|]
  | |- lock_same _ (with_tl _ _ _) => apply lf_with_tl; [intros ? ? ?|]
  | |- lock_same _ (on_scene _ _) => apply lf_on_scene
  | |- lock_same _ (upd_field _ _ ?q) => apply (lock_same_trans _ q); [|generalize q; intros ?; split; reflexivity]
  | H : lock_same ?q ?q' |- lock_same _ ?q' => apply (lock_same_trans _ q); [|exact H]
  | |- lock_same _ (_ _) => apply lf_apply
  end.
Ltac lf := intros ?; repeat lf_step.

#[global] Instance sf_move v l : SceneFrame (weston_view_move_to_layer v l).
Proof. done. Qed.
#[global] Instance sf_destroy v : SceneFrame (weston_view_destroy v).
Proof. done. Qed.
#[global] Instance sf_splice v l : SceneFrame (splice_to_bottom v l).
Proof. done. Qed.
#[global] Instance sf_move_views vs l : SceneFrame (move_views vs l).
Proof. induction vs as [|v vs IH]; intros s; cbn; [done|]. unfold move_views in IH. by rewrite IH. Qed.
#[global] Instance sf_destroy_views vs : SceneFrame (destroy_views vs).
Proof.
  induction vs as [|v vs IH]; intros s; cbn; [done|]. unfold destroy_views in IH. by rewrite IH.
Qed.
#[global] Instance sf_curtain v : SceneFrame (curtain_to_bottom v).
Proof. intros s. unfold curtain_to_bottom. by destruct (bool_decide _). Qed.

#[global] Instance lf_emit e : LockFrame (emit e).
Proof. by intros q. Qed.
#[global] Instance lf_shell_send n e : LockFrame (shell_send n e).
Proof. intros q. unfold shell_send. by destruct (shell_version_ge n q). Qed.
#[global] Instance lf_upd_tl h f : LockFrame (upd_tl h f).
Proof. by intros q. Qed.
#[global] Instance lf_set_pos v x y : LockFrame (weston_view_set_position v x y).
Proof. by intros q. Qed.
#[global] Instance lf_upd_seat i f : LockFrame (upd_seat i f).
Proof. by intros q. Qed.
#[global] Instance lf_upd_panel i f : LockFrame (upd_panel i f).
Proof. by intros q. Qed.
#[global] Instance lf_upd_stream i f : LockFrame (upd_stream i f).
Proof. by intros q. Qed.
#[global] Instance lf_upd_launcher i f : LockFrame (upd_launcher i f).
Proof. by intros q. Qed.
#[global] Instance lf_upd_mgr i f : LockFrame (upd_mgr i f).
Proof. by intros q. Qed.

Lemma lf_with_mgr m k q0 q :
  (forall g q, lock_same q0 q -> lock_same q0 (k g q)) -> lock_same q0 q ->
  lock_same q0 (with_mgr m k q).
Proof. intros Hk H. unfold with_mgr. destruct (List.find _ _); auto. Qed.

(** *** Toplevel operations *)

#[global] Instance lf_tl_move h l : LockFrame (qdwin_toplevel_move_to_layer h l).
Proof. unfold qdwin_toplevel_move_to_layer. lf. Qed.
#[global] Instance lf_send_state h : LockFrame (qdwin_send_toplevel_state h).
Proof. unfold qdwin_send_toplevel_state. lf. Qed.
#[global] Instance lf_place_side tl s x y : LockFrame (place_side tl s x y).
Proof. unfold place_side. lf. Qed.
#[global] Instance lf_position_chrome h : LockFrame (qdwin_toplevel_position_chrome h).
Proof. unfold qdwin_toplevel_position_chrome. lf. Qed.
#[global] Instance lf_seed h : LockFrame (qdwin_toplevel_seed_outer_from_committed h).
Proof. unfold qdwin_toplevel_seed_outer_from_committed. lf. Qed.
#[global] Instance lf_apply_inset h : LockFrame (qdwin_toplevel_apply_inset h).
Proof. unfold qdwin_toplevel_apply_inset. lf. Qed.
#[global] Instance lf_proxy_geometry h w ht : LockFrame (qdwin_nested_proxy_set_geometry h w ht).
Proof. unfold qdwin_nested_proxy_set_geometry. lf. Qed.
#[global] Instance lf_resize h w ht e : LockFrame (resize_proxy_or h w ht e).
Proof. unfold resize_proxy_or. lf. Qed.
#[global] Instance lf_tl_position h x y : LockFrame (set_tl_position h x y).
Proof. unfold set_tl_position. lf. Qed.
#[global] Instance lf_save h : LockFrame (save_geometry h).
Proof. unfold save_geometry. lf. Qed.
#[global] Instance lf_restore h e : LockFrame (restore_geometry h e).
Proof. unfold restore_geometry. lf. Qed.
#[global] Instance lf_fs_geometry h o : LockFrame (qdwin_toplevel_apply_fullscreen_geometry h o).
Proof. unfold qdwin_toplevel_apply_fullscreen_geometry. lf. Qed.
#[global] Instance lf_fullscreen h b o : LockFrame (qdwin_toplevel_set_fullscreen h b o).
Proof. unfold qdwin_toplevel_set_fullscreen. lf. Qed.
#[global] Instance lf_maximized h b : LockFrame (qdwin_toplevel_set_maximized h b).
Proof. unfold qdwin_toplevel_set_maximized. lf. Qed.
#[global] Instance lf_minimized h : LockFrame (qdwin_toplevel_set_minimized h).
Proof. unfold qdwin_toplevel_set_minimized. lf. Qed.
#[global] Instance lf_resize_tiled h : LockFrame (resize_tiled h).
Proof. unfold resize_tiled. lf. Qed.
#[global] Instance lf_tile_restore h : LockFrame (tile_restore h).
Proof. unfold tile_restore. lf. Qed.
#[global] Instance lf_tile_save h : LockFrame (tile_save h).
Proof. unfold tile_save. lf. Qed.
#[global] Instance lf_tile_place h e o : LockFrame (tile_place h e o).
Proof. unfold tile_place. lf. Qed.
#[global] Instance lf_leave_special h : LockFrame (leave_special_state h).
Proof. unfold leave_special_state. lf. Qed.
#[global] Instance lf_tiled h e : LockFrame (qdwin_toplevel_set_tiled h e).
Proof. unfold qdwin_toplevel_set_tiled. lf. Qed.

(** *** Panels, popups, streams *)

#[global] Instance lf_panel_send p r : LockFrame (qdwin_panel_send_geometry p r).
Proof. unfold qdwin_panel_send_geometry. lf. Qed.
#[global] Instance lf_panel_place p : LockFrame (qdwin_panel_place p).
Proof. unfold qdwin_panel_place. lf. Qed.
Lemma lf_reflow q0 q tl : lock_same q0 q -> lock_same q0 (reflow_maximized q tl).
Proof. intros. unfold reflow_maximized. repeat lf_step. Qed.
Lemma lf_assign q0 q p : lock_same q0 q -> lock_same q0 (assign_panel_output q p).
Proof. intros. unfold assign_panel_output. repeat lf_step. Qed.
#[global] Instance lf_panels_change : LockFrame qdwin_panels_on_output_change.
Proof.
  intros q. unfold qdwin_panels_on_output_change. apply lf_foldl; [intros; by apply lf_reflow|].
  apply lf_foldl; [intros; by apply lf_assign|done].
Qed.
#[global] Instance lf_panel_surface i : LockFrame (qdwin_panel_surface_destroyed i).
Proof. unfold qdwin_panel_surface_destroyed. lf. Qed.
#[global] Instance lf_panel_resource i : LockFrame (qdwin_panel_resource_destroyed i).
Proof. unfold qdwin_panel_resource_destroyed. lf. Qed.
#[global] Instance lf_popup_teardown p : LockFrame (qdwin_popup_teardown p).
Proof. unfold qdwin_popup_teardown. lf. Qed.
#[global] Instance lf_dismiss h : LockFrame (dismiss_popup h).
Proof. unfold dismiss_popup. lf. Qed.
#[global] Instance lf_popup_surface i : LockFrame (qdwin_popup_surface_destroyed i).
Proof. unfold qdwin_popup_surface_destroyed, with_popup. lf. Qed.
#[global] Instance lf_move_end h : LockFrame (qdwin_move_grab_end_for h).
Proof. unfold qdwin_move_grab_end_for. lf. Qed.
#[global] Instance lf_unpin s : LockFrame (qdwin_view_stream_unpin s).
Proof. unfold qdwin_view_stream_unpin. lf. Qed.
#[global] Instance lf_release_stream s : LockFrame (qdwin_view_stream_release_server_state s).
Proof. unfold qdwin_view_stream_release_server_state. lf. Qed.
Lemma lf_terminate reason q0 q s :
  lock_same q0 q -> lock_same q0 (qdwin_view_stream_terminate reason q s).
Proof. intros. unfold qdwin_view_stream_terminate. repeat lf_step. Qed.
#[global] Instance lf_terminate_streams sel reason : LockFrame (terminate_streams sel reason).
Proof. intros q. apply lf_foldl; [intros; by apply lf_terminate|done]. Qed.
#[global] Instance lf_stream_resource i : LockFrame (qdwin_stream_resource_destroyed i).
Proof. unfold qdwin_stream_resource_destroyed. lf. Qed.
#[global] Instance lf_dependents h : LockFrame (qdwin_toplevel_release_dependents h).
Proof. unfold qdwin_toplevel_release_dependents. lf. Qed.

(** *** Focus and interactive moves *)

#[global] Instance lf_autofocus h : LockFrame (qdwin_toplevel_autofocus_if_ready h).
Proof. intros q. apply lf_core, core_autofocus. Qed.
#[global] Instance lf_emit_focus i : LockFrame (qdwin_seat_emit_focus_now i).
Proof. intros q. apply lf_core, core_emit_focus. Qed.
#[global] Instance lf_set_focus i f : LockFrame (weston_keyboard_set_focus i f).
Proof. intros q. apply lf_core, core_set_focus. Qed.
#[global] Instance lf_activate tl i : LockFrame (weston_view_activate_input tl i).
Proof. intros q. apply lf_core, core_activate. Qed.
#[global] Instance lf_recover i : LockFrame (qdwin_seat_focus_recover_idle_cb i).
Proof. intros q. apply lf_core, core_recover. Qed.
#[global] Instance lf_focus_changed i h : LockFrame (qdwin_emit_seat_focus_changed i h).
Proof. unfold qdwin_emit_seat_focus_changed. lf. Qed.
#[global] Instance lf_raise h : LockFrame (qdwin_toplevel_raise h).
Proof. unfold qdwin_toplevel_raise. lf. Qed.
#[global] Instance lf_focus h b : LockFrame (qdwin_toplevel_focus h b).
Proof. unfold qdwin_toplevel_focus. lf. Qed.
#[global] Instance lf_replay_focus : LockFrame qdwin_replay_seat_focus_for_shell.
Proof. unfold qdwin_replay_seat_focus_for_shell. lf. Qed.
#[global] Instance lf_clear_tiled h : LockFrame (qdwin_toplevel_clear_tiled h).
Proof. unfold qdwin_toplevel_clear_tiled. lf. Qed.
#[global] Instance lf_start_move h x y : LockFrame (start_move h x y).
Proof. unfold start_move. lf. Qed.
#[global] Instance lf_move_motion x y : LockFrame (qdwin_move_grab_motion x y).
Proof. unfold qdwin_move_grab_motion. lf. Qed.
#[global] Instance lf_move_button b : LockFrame (qdwin_move_grab_button b).
Proof. unfold qdwin_move_grab_button. lf. Qed.

(** *** Lock surface, grabs, locker *)

#[global] Instance lf_curtain_bottom : LockFrame qdwin_lock_curtain_to_bottom.
Proof. unfold qdwin_lock_curtain_to_bottom. lf. Qed.
#[global] Instance lf_remove_curtain : LockFrame qdwin_remove_lock_curtain.
Proof. unfold qdwin_remove_lock_curtain. lf. Qed.
#[global] Instance lf_install_curtain : LockFrame qdwin_install_lock_curtain.
Proof. unfold qdwin_install_lock_curtain. lf. Qed.
#[global] Instance lf_background : LockFrame qdwin_refresh_background.
Proof. unfold qdwin_refresh_background. lf. Qed.
#[global] Instance lf_clear_view : LockFrame clear_lock_view.
Proof. unfold clear_lock_view. lf. Qed.
#[global] Instance lf_demote : LockFrame qdwin_demote_lock_toplevel.
Proof. unfold qdwin_demote_lock_toplevel. lf. Qed.
#[global] Instance lf_adopt_tl h s v : LockFrame (adopt_lock_toplevel h s v).
Proof. unfold adopt_lock_toplevel. lf. Qed.
#[global] Instance lf_promote h : LockFrame (qdwin_maybe_promote_lock_toplevel h).
Proof. unfold qdwin_maybe_promote_lock_toplevel. lf. Qed.
#[global] Instance lf_promote_all : LockFrame promote_all.
Proof. unfold promote_all. lf. Qed.
#[global] Instance lf_set_grab i g : LockFrame (set_grab i g).
Proof. unfold set_grab. lf. Qed.
#[global] Instance lf_overlay_start r : LockFrame (qdwin_overlay_grab_start r).
Proof. unfold qdwin_overlay_grab_start. lf. Qed.
#[global] Instance lf_send_mods i : LockFrame (weston_keyboard_send_modifiers i).
Proof. unfold weston_keyboard_send_modifiers, with_seat. lf. Qed.
#[global] Instance lf_overlay_end : LockFrame qdwin_overlay_grab_end.
Proof. unfold qdwin_overlay_grab_end. lf. Qed.
#[global] Instance lf_end_locker : LockFrame end_locker_grab.
Proof. unfold end_locker_grab. lf. Qed.
#[global] Instance lf_switcher_start i : LockFrame (qdwin_switcher_grab_start i).
Proof. unfold qdwin_switcher_grab_start. lf. Qed.
#[global] Instance lf_switcher_end : LockFrame qdwin_switcher_grab_end.
Proof. unfold qdwin_switcher_grab_end. lf. Qed.
#[global] Instance lf_switcher_key i : LockFrame (qdwin_on_switcher_key i).
Proof. unfold qdwin_on_switcher_key. lf. Qed.
#[global] Instance lf_sw_key ke : LockFrame (qdwin_switcher_grab_key ke).
Proof. unfold qdwin_switcher_grab_key. lf. Qed.
#[global] Instance lf_sw_mods i b : LockFrame (qdwin_switcher_grab_modifiers i b).
Proof. unfold qdwin_switcher_grab_modifiers. lf. Qed.
#[global] Instance lf_ov_key ke : LockFrame (qdwin_overlay_grab_key ke).
Proof. unfold qdwin_overlay_grab_key. lf. Qed.
#[global] Instance lf_ov_mods i : LockFrame (qdwin_overlay_grab_modifiers i).
Proof. unfold qdwin_overlay_grab_modifiers. lf. Qed.
#[global] Instance lf_def_key i ke : LockFrame (qdwin_proxy_default_grab_key i ke).
Proof. unfold qdwin_proxy_default_grab_key, with_seat. lf. Qed.
#[global] Instance lf_def_mods i : LockFrame (qdwin_proxy_default_grab_modifiers i).
Proof. unfold qdwin_proxy_default_grab_modifiers. lf. Qed.
#[global] Instance lf_lock_key : LockFrame qdwin_on_lock_key.
Proof. unfold qdwin_on_lock_key. lf. Qed.
#[global] Instance lf_launcher_key : LockFrame qdwin_on_launcher_key.
Proof. unfold qdwin_on_launcher_key. lf. Qed.
#[global] Instance lf_hotkey_handler n : LockFrame (qdwin_hotkey_handler n).
Proof. unfold qdwin_hotkey_handler. lf. Qed.
#[global] Instance lf_weston_handler i k b : LockFrame (weston_binding_handler i k b).
Proof. unfold weston_binding_handler. lf. Qed.
#[global] Instance lf_binding_handler i k b : LockFrame (binding_handler i k b).
Proof. destruct b; cbn; apply _. Qed.
#[global] Instance lf_install_grab i k f : LockFrame (install_binding_grab i k f).
Proof. unfold install_binding_grab. lf. Qed.
#[global] Instance lf_run_binding i ke b : LockFrame (fun q => run_binding i ke q b).
Proof. unfold run_binding. lf. Qed.
#[global] Instance lf_run_bindings i ke : LockFrame (weston_compositor_run_key_binding i ke).
Proof.
  intros q. unfold weston_compositor_run_key_binding. destruct (ke_pressed ke); [|apply lock_same_refl].
  apply lf_foldl; [|apply lock_same_refl]. intros b q1 H.
  eapply lock_same_trans; [exact H|]. apply (lf_run_binding i ke b q1).
Qed.
#[global] Instance lf_binding_key i k ke : LockFrame (binding_key i k ke).
Proof. unfold binding_key. lf. Qed.
#[global] Instance lf_binding_mods i : LockFrame (binding_modifiers i).
Proof. unfold binding_modifiers. lf. Qed.
#[global] Instance lf_alt_released : LockFrame qdwin_on_alt_released.
Proof. unfold qdwin_on_alt_released. lf. Qed.
#[global] Instance lf_debug_key i a b r t ke : LockFrame (debug_binding_key i a b r t ke).
Proof. unfold debug_binding_key. lf. Qed.
#[global] Instance lf_grab_key i ke : LockFrame (grab_key i ke).
Proof. unfold grab_key. lf. Qed.
#[global] Instance lf_notify_mods i b t : LockFrame (notify_modifiers i b t).
Proof. unfold notify_modifiers. lf. Qed.
#[global] Instance lf_update_keymap i k : LockFrame (update_keymap i k).
Proof. unfold update_keymap. lf. Qed.
#[global] Instance lf_seat_keymap i k : LockFrame (weston_seat_update_keymap i k).
Proof. unfold weston_seat_update_keymap. lf. Qed.
#[global] Instance lf_notify_key i ke : LockFrame (notify_key i ke).
Proof. unfold notify_key. lf. Qed.
#[global] Instance lf_surface_place : LockFrame qdwin_lock_surface_place.
Proof. unfold qdwin_lock_surface_place. lf. Qed.
#[global] Instance lf_surface_commit : LockFrame qdwin_lock_surface_commit_cb.
Proof. unfold qdwin_lock_surface_commit_cb. lf. Qed.
#[global] Instance lf_drop_view : LockFrame drop_lock_view.
Proof. unfold drop_lock_view. lf. Qed.
#[global] Instance lf_lock_surface_destroyed : LockFrame qdwin_lock_surface_destroyed_cb.
Proof. unfold qdwin_lock_surface_destroyed_cb. lf. Qed.
#[global] Instance lf_lock_resource : LockFrame qdwin_lock_surface_resource_destroyed.
Proof. unfold qdwin_lock_surface_resource_destroyed. lf. Qed.
#[global] Instance lf_destroy_resource : LockFrame destroy_lock_resource.
Proof. unfold destroy_lock_resource. lf. Qed.
#[global] Instance lf_adopt_surface i s b : LockFrame (adopt_lock_surface i s b).
Proof. unfold adopt_lock_surface. lf. Qed.
#[global] Instance lf_attach_view i s b c : LockFrame (attach_lock_view i s b c).
Proof. unfold attach_lock_view. lf. Qed.
#[global] Instance lf_locked_changed b : LockFrame (send_locked_changed b).
Proof. unfold send_locked_changed. lf. Qed.
#[global] Instance lf_locker_changed b : LockFrame (send_locker_locked_changed b).
Proof. unfold send_locker_locked_changed. lf. Qed.
#[global] Instance lf_forget_locker : LockFrame forget_locker.
Proof. unfold forget_locker. lf. Qed.
#[global] Instance lf_locker_destroy r : LockFrame (qdwin_locker_resource_destroy r).
Proof. unfold qdwin_locker_resource_destroy. lf. Qed.
#[global] Instance lf_adopt_locker r p u s : LockFrame (adopt_locker r p u s).
Proof. unfold adopt_locker. lf. Qed.
#[global] Instance lf_bind_locker p r pid uid : LockFrame (qdwin_handle_bind_as_locker p r pid uid).
Proof.
  intros q. unfold qdwin_handle_bind_as_locker. destruct (bool_decide _); [repeat lf_step|].
  destruct (locker_resource q) as [old|]; [destruct (qdwin_locker_peer_alive p q)|];
    cbv beta iota zeta; repeat lf_step.
Qed.
#[global] Instance lf_launcher_place l : LockFrame (qdwin_launcher_place l).
Proof. unfold qdwin_launcher_place. lf. Qed.
#[global] Instance lf_launcher_view l : LockFrame (destroy_launcher_view l).
Proof. unfold destroy_launcher_view. lf. Qed.
#[global] Instance lf_launcher_surface i : LockFrame (qdwin_launcher_surface_destroyed i).
Proof. unfold qdwin_launcher_surface_destroyed, with_launcher. lf. Qed.
#[global] Instance lf_launcher_resource i : LockFrame (qdwin_launcher_resource_destroyed i).
Proof. unfold qdwin_launcher_resource_destroyed, with_launcher. lf. Qed.

(** *** Workspaces *)

#[global] Instance lf_details w i : LockFrame (qdwin_ext_ws_send_handle_details w i).
Proof. unfold qdwin_ext_ws_send_handle_details. lf. Qed.
Lemma lf_create_handle m q0 q i : lock_same q0 q -> lock_same q0 (create_handle m q i).
Proof.
  intros. unfold create_handle. cbv zeta. apply lf_with_mgr; [intros|]; repeat lf_step.
Qed.
#[global] Instance lf_create_handles m : LockFrame (qdwin_ext_ws_manager_create_handles m).
Proof.
  intros q. unfold qdwin_ext_ws_manager_create_handles. apply lf_apply; [apply _|].
  apply lf_foldl; [intros; by apply lf_create_handle|done].
Qed.
Lemma lf_destroy_handle m q0 q i : lock_same q0 q -> lock_same q0 (destroy_handle m q i).
Proof.
  intros. unfold destroy_handle. apply lf_with_mgr; [intros|done]. repeat lf_step.
Qed.
#[global] Instance lf_destroy_handles m : LockFrame (qdwin_ext_ws_manager_destroy_handles m).
Proof.
  intros q. unfold qdwin_ext_ws_manager_destroy_handles. apply lf_with_mgr; [intros|done].
  apply lf_apply; [apply _|]. apply lf_foldl; [intros; by apply lf_destroy_handle|done].
Qed.
#[global] Instance lf_resync m : LockFrame (qdwin_ext_ws_manager_resync m).
Proof.
  intros q. unfold qdwin_ext_ws_manager_resync. apply lf_with_mgr; [intros|done]. repeat lf_step.
Qed.
#[global] Instance lf_resync_all : LockFrame qdwin_ext_ws_resync_all.
Proof. unfold qdwin_ext_ws_resync_all. lf. Qed.
Lemma lf_send_ws_state g q0 q i : lock_same q0 q -> lock_same q0 (send_state g q i).
Proof. intros. unfold send_state. repeat lf_step. Qed.
#[global] Instance lf_broadcast_state : LockFrame qdwin_ext_ws_broadcast_state.
Proof.
  intros q. unfold qdwin_ext_ws_broadcast_state. apply lf_foldl; [intros g q1 H1|done].
  destruct (m_stopped g); [done|]. cbv zeta.
  assert (lock_same q (foldl (send_state g) q1
            (seqZ 0 (Z.min (m_handle_count g) (workspace_count q1))))).
  { apply lf_foldl; [intros; by apply lf_send_ws_state|done]. }
  repeat lf_step.
Qed.
#[global] Instance lf_broadcast_name i : LockFrame (qdwin_ext_ws_broadcast_name i).
Proof. unfold qdwin_ext_ws_broadcast_name. lf. Qed.
#[global] Instance lf_visibility h : LockFrame (qdwin_toplevel_apply_workspace_visibility h).
Proof. unfold qdwin_toplevel_apply_workspace_visibility. lf. Qed.
#[global] Instance lf_visibility_all : LockFrame apply_visibility_all.
Proof. unfold apply_visibility_all. lf. Qed.
Lemma lf_refocus_seat w q0 q s : lock_same q0 q -> lock_same q0 (refocus_seat w q s).
Proof. intros. unfold refocus_seat. repeat lf_step. Qed.
#[global] Instance lf_refocus : LockFrame qdwin_workspace_refocus_seats.
Proof.
  intros q. unfold qdwin_workspace_refocus_seats. destruct (locked q); [done|].
  apply lf_foldl; [intros; by apply lf_refocus_seat|done].
Qed.
#[global] Instance lf_set_active i : LockFrame (qdwin_set_active_workspace i).
Proof. unfold qdwin_set_active_workspace. lf. Qed.
#[global] Instance lf_ws_create : LockFrame qdwin_workspace_create.
Proof. unfold qdwin_workspace_create. lf. Qed.
#[global] Instance lf_emit_ws h : LockFrame (qdwin_emit_toplevel_workspace h).
Proof. unfold qdwin_emit_toplevel_workspace. lf. Qed.
#[global] Instance lf_ws_remove i : LockFrame (qdwin_workspace_remove i).
Proof. unfold qdwin_workspace_remove. lf. Qed.
Lemma lf_run_op q0 q op : lock_same q0 q -> lock_same q0 (run_op q op).
Proof. intros. unfold run_op. repeat lf_step. Qed.
#[global] Instance lf_pending_add m o : LockFrame (qdwin_ext_ws_pending_add m o).
Proof. unfold qdwin_ext_ws_pending_add. lf. Qed.
#[global] Instance lf_pending_clear m : LockFrame (qdwin_ext_ws_pending_clear m).
Proof. unfold qdwin_ext_ws_pending_clear. lf. Qed.
#[global] Instance lf_ws_flush m : LockFrame (qdwin_ext_ws_manager_flush m).
Proof.
  intros q. unfold qdwin_ext_ws_manager_flush. apply lf_with_mgr; [intros g q1 H1|done].
  apply lf_apply; [apply _|]. destruct (m_stopped g); [done|].
  apply lf_foldl; [intros; by apply lf_run_op|done].
Qed.
#[global] Instance lf_ws_activate w : LockFrame (qdwin_ext_ws_handle_activate w).
Proof. unfold qdwin_ext_ws_handle_activate. lf. Qed.
#[global] Instance lf_ws_handle_remove w : LockFrame (qdwin_ext_ws_handle_remove w).
Proof. unfold qdwin_ext_ws_handle_remove. lf. Qed.

(** *** Sessions *)

#[global] Instance lf_secctx tl : LockFrame (qdwin_send_toplevel_security_context tl).
Proof. unfold qdwin_send_toplevel_security_context. lf. Qed.
#[global] Instance lf_remote_identity tl : LockFrame (qdwin_emit_nested_proxy_remote_identity tl).
Proof. unfold qdwin_emit_nested_proxy_remote_identity. lf. Qed.
#[global] Instance lf_added h : LockFrame (qdwin_send_toplevel_added h).
Proof. unfold qdwin_send_toplevel_added. lf. Qed.
#[global] Instance lf_release b h : LockFrame (qdwin_toplevel_release_holding b h).
Proof. unfold qdwin_toplevel_release_holding. lf. Qed.
#[global] Instance lf_surface_added d : LockFrame (qdwin_surface_added d).
Proof. unfold qdwin_surface_added, register_toplevel. lf. Qed.
#[global] Instance lf_forget_tl tl : LockFrame (forget_lock_toplevel tl).
Proof. unfold forget_lock_toplevel. lf. Qed.
#[global] Instance lf_surface_removed h : LockFrame (qdwin_surface_removed h).
Proof. unfold qdwin_surface_removed. lf. Qed.
#[global] Instance lf_sync_title h : LockFrame (sync_title h).
Proof. unfold sync_title. lf. Qed.
#[global] Instance lf_sync_app_id h : LockFrame (sync_app_id h).
Proof. unfold sync_app_id. lf. Qed.
#[global] Instance lf_converge h : LockFrame (xwayland_converge h).
Proof. unfold xwayland_converge. lf. Qed.
#[global] Instance lf_sync_outer h : LockFrame (sync_outer h).
Proof. unfold sync_outer. lf. Qed.
#[global] Instance lf_place_new h d : LockFrame (place_new h d).
Proof. unfold place_new. lf. Qed.
#[global] Instance lf_map_first h d : LockFrame (map_first h d).
Proof. unfold map_first. lf. Qed.
#[global] Instance lf_note_size h d : LockFrame (note_size h d).
Proof. unfold note_size. lf. Qed.
#[global] Instance lf_committed h d : LockFrame (qdwin_surface_committed h d).
Proof. unfold qdwin_surface_committed. lf. Qed.
#[global] Instance lf_upd_chrome h s c : LockFrame (upd_chrome h s c).
Proof. unfold upd_chrome. lf. Qed.
#[global] Instance lf_detach h s : LockFrame (qdwin_chrome_detach h s).
Proof. unfold qdwin_chrome_detach. lf. Qed.
#[global] Instance lf_attach_side h s o : LockFrame (qdwin_chrome_attach_side h s o).
Proof. unfold qdwin_chrome_attach_side. lf. Qed.
#[global] Instance lf_adopt_shell r p u : LockFrame (adopt_shell r p u).
Proof. unfold adopt_shell. lf. Qed.
#[global] Instance lf_replay : LockFrame replay_seats_outputs.
Proof. unfold replay_seats_outputs. lf. Qed.
#[global] Instance lf_bind_shell r p u : LockFrame (qdwin_handle_bind_as_shell r p u).
Proof. unfold qdwin_handle_bind_as_shell. lf. Qed.
#[global] Instance lf_forget_shell : LockFrame forget_shell.
Proof. unfold forget_shell. lf. Qed.
#[global] Instance lf_upd_config f : LockFrame (upd_config f).
Proof. by intros q. Qed.
#[global] Instance lf_set_policy p : LockFrame (set_policy p).
Proof. by intros q. Qed.
#[global] Instance lf_upd_clip f : LockFrame (upd_clip f).
Proof. by intros q. Qed.
#[global] Instance lf_upd_activ f : LockFrame (upd_activ f).
Proof. by intros q. Qed.
#[global] Instance lf_end_move : LockFrame end_move_grab.
Proof. by intros q. Qed.
#[global] Instance lf_power b : LockFrame (qdwin_set_all_outputs_power b).
Proof. unfold qdwin_set_all_outputs_power. lf. Qed.
#[global] Instance lf_walk f : LockFrame (qdwin_pointer_config_walk f).
Proof. unfold qdwin_pointer_config_walk, config_device. lf. Qed.
#[global] Instance lf_apply_all : LockFrame qdwin_pointer_config_apply_all.
Proof. unfold qdwin_pointer_config_apply_all. lf. Qed.
#[global] Instance lf_reset_all : LockFrame qdwin_pointer_config_reset_all.
Proof. unfold qdwin_pointer_config_reset_all. lf. Qed.
#[global] Instance lf_repeat_info : LockFrame qdwin_resend_repeat_info.
Proof. unfold qdwin_resend_repeat_info. lf. Qed.
#[global] Instance lf_remote_input l n b : LockFrame (qdwin_set_remote_output_input l n b).
Proof. unfold qdwin_set_remote_output_input. lf. Qed.
#[global] Instance lf_revoke_input l : LockFrame (revoke_remote_input l).
Proof. unfold revoke_remote_input. lf. Qed.
#[global] Instance lf_restore_power : LockFrame restore_power.
Proof. unfold restore_power. lf. Qed.
#[global] Instance lf_restore_pointer : LockFrame restore_pointer_config.
Proof. unfold restore_pointer_config. lf. Qed.
#[global] Instance lf_restore_repeat : LockFrame restore_key_repeat.
Proof. unfold restore_key_repeat. lf. Qed.
#[global] Instance lf_ffm_cancel : LockFrame qdwin_ffm_cancel.
Proof. unfold qdwin_ffm_cancel. lf. Qed.
#[global] Instance lf_hotkeys_purge : LockFrame qdwin_hotkeys_purge.
Proof. unfold qdwin_hotkeys_purge. lf. Qed.
#[global] Instance lf_ffm_consider i o : LockFrame (qdwin_ffm_consider i o).
Proof. unfold qdwin_ffm_consider. lf. Qed.
#[global] Instance lf_ffm_timer o : LockFrame (qdwin_ffm_timer_cb o).
Proof. unfold qdwin_ffm_timer_cb. lf. Qed.
#[global] Instance lf_drop_pending p : LockFrame (drop_pending p).
Proof. unfold drop_pending. lf. Qed.
#[global] Instance lf_pending_close p b : LockFrame (qdwin_data_offer_pending_close p b).
Proof. unfold qdwin_data_offer_pending_close. lf. Qed.
#[global] Instance lf_free_matching f : LockFrame (free_matching f).
Proof. unfold free_matching, qdwin_data_offer_pending_free. lf. Qed.
#[global] Instance lf_free_all : LockFrame qdwin_data_offer_pending_free_all.
Proof. unfold qdwin_data_offer_pending_free_all. lf. Qed.
#[global] Instance lf_shell_destroy l r : LockFrame (qdwin_shell_resource_destroy l r).
Proof. unfold qdwin_shell_resource_destroy. lf. Qed.

(** *** The clipboard and activations *)

#[global] Instance lf_upd_source s f : LockFrame (upd_source s f).
Proof. unfold upd_source. lf. Qed.
#[global] Instance lf_wrap i s : LockFrame (qdwin_install_data_source_wrap i s).
Proof. unfold qdwin_install_data_source_wrap. lf. Qed.
#[global] Instance lf_send_selection s c : LockFrame (send_selection s c).
Proof. unfold send_selection. lf. Qed.
#[global] Instance lf_queue_pending h s f t m : LockFrame (queue_pending h s f t m).
Proof. unfold queue_pending. lf. Qed.
#[global] Instance lf_shim t s m f : LockFrame (qdwin_data_source_send_shim t s m f).
Proof. unfold qdwin_data_source_send_shim, qdwin_data_offer_pending_free. lf. Qed.
#[global] Instance lf_receive t s m f : LockFrame (data_offer_receive t s m f).
Proof. unfold data_offer_receive. lf. Qed.
#[global] Instance lf_set_selection st old rd tm i s c : LockFrame (set_selection st old rd tm i s c).
Proof. unfold set_selection. lf. Qed.
#[global] Instance lf_target_gone c : LockFrame (qdwin_data_offer_target_destroyed c).
Proof. unfold qdwin_data_offer_target_destroyed. lf. Qed.
#[global] Instance lf_source_gone s : LockFrame (qdwin_data_source_wrap_on_source_destroy s).
Proof. unfold qdwin_data_source_wrap_on_source_destroy. lf. Qed.
#[global] Instance lf_offer_timeout fd : LockFrame (qdwin_data_offer_pending_timeout_cb fd).
Proof. unfold qdwin_data_offer_pending_timeout_cb. lf. Qed.
#[global] Instance lf_upd_token i f : LockFrame (upd_token i f).
Proof. unfold upd_token. lf. Qed.
#[global] Instance lf_token_free i : LockFrame (qdwin_activation_token_free i).
Proof. unfold qdwin_activation_token_free, qdwin_activation_pending_drop_token_refs. lf. Qed.
#[global] Instance lf_free_token t : LockFrame (free_token t).
Proof. unfold free_token. lf. Qed.
#[global] Instance lf_unlink_activation a : LockFrame (unlink_activation a).
Proof. unfold unlink_activation. lf. Qed.
#[global] Instance lf_get_token i : LockFrame (qdwin_activation_get_activation_token i).
Proof. unfold qdwin_activation_get_activation_token. lf. Qed.
#[global] Instance lf_token_commit i r : LockFrame (qdwin_activation_token_commit i r).
Proof. unfold qdwin_activation_token_commit. lf. Qed.
#[global] Instance lf_token_destroy i : LockFrame (qdwin_activation_token_resource_destroy i).
Proof. unfold qdwin_activation_token_resource_destroy. lf. Qed.
#[global] Instance lf_activation_gone s : LockFrame (qdwin_activation_pending_target_destroyed s).
Proof. unfold qdwin_activation_pending_target_destroyed, qdwin_activation_pending_free. lf. Qed.
#[global] Instance lf_activate_tl t : LockFrame (activate_toplevel t).
Proof. unfold activate_toplevel. lf. Qed.
#[global] Instance lf_perform h t : LockFrame (qdwin_activation_perform h t).
Proof. unfold qdwin_activation_perform. lf. Qed.
#[global] Instance lf_queue_activation i t s : LockFrame (queue_activation i t s).
Proof. unfold queue_activation. lf. Qed.
#[global] Instance lf_xdg_activate t s : LockFrame (qdwin_activation_activate t s).
Proof. unfold qdwin_activation_activate. lf. Qed.
#[global] Instance lf_activation_timeout h : LockFrame (qdwin_activation_pending_timeout_cb h).
Proof. unfold qdwin_activation_pending_timeout_cb, qdwin_activation_pending_free. lf. Qed.

(** *** Requests *)

#[global] Instance lf_h_border r h c : LockFrame (qdwin_handle_set_border_color r h c).
Proof. unfold qdwin_handle_set_border_color, shell_request, unless_locked, locker_request. lf. Qed.
#[global] Instance lf_h_decoration r h n e s w : LockFrame (qdwin_handle_attach_decoration r h n e s w).
Proof. unfold qdwin_handle_attach_decoration, shell_request, unless_locked, locker_request. lf. Qed.
#[global] Instance lf_h_close r h : LockFrame (qdwin_handle_request_close r h).
Proof. unfold qdwin_handle_request_close, shell_request, unless_locked, locker_request. lf. Qed.
#[global] Instance lf_h_raise r h : LockFrame (qdwin_handle_request_raise r h).
Proof. unfold qdwin_handle_request_raise, shell_request, unless_locked, locker_request. lf. Qed.
#[global] Instance lf_h_minimize r h : LockFrame (qdwin_handle_request_minimize r h).
Proof. unfold qdwin_handle_request_minimize, shell_request, unless_locked, locker_request. lf. Qed.
#[global] Instance lf_h_maximize r h n : LockFrame (qdwin_handle_request_maximize r h n).
Proof. unfold qdwin_handle_request_maximize, shell_request, unless_locked, locker_request. lf. Qed.
#[global] Instance lf_h_fullscreen r h n : LockFrame (qdwin_handle_request_fullscreen r h n).
Proof. unfold qdwin_handle_request_fullscreen, shell_request, unless_locked, locker_request. lf. Qed.
#[global] Instance lf_h_tile r h n : LockFrame (qdwin_handle_request_tile r h n).
Proof. unfold qdwin_handle_request_tile, shell_request, unless_locked, locker_request. lf. Qed.
#[global] Instance lf_h_position r h x y : LockFrame (qdwin_handle_request_set_position r h x y).
Proof. unfold qdwin_handle_request_set_position, shell_request, unless_locked, locker_request. lf. Qed.
#[global] Instance lf_h_move r h : LockFrame (qdwin_handle_begin_interactive_move r h).
Proof. unfold qdwin_handle_begin_interactive_move, shell_request, unless_locked, locker_request. lf. Qed.
#[global] Instance lf_h_workspace r h i : LockFrame (qdwin_handle_move_toplevel_to_workspace r h i).
Proof. unfold qdwin_handle_move_toplevel_to_workspace, shell_request, unless_locked, locker_request. lf. Qed.
#[global] Instance lf_h_ws_name r i n : LockFrame (qdwin_handle_set_workspace_name r i n).
Proof. unfold qdwin_handle_set_workspace_name, shell_request, unless_locked, locker_request. lf. Qed.
#[global] Instance lf_h_popup r i h s n x y : LockFrame (qdwin_handle_show_popup r i h s n x y).
Proof. unfold qdwin_handle_show_popup, shell_request, unless_locked, locker_request. lf. Qed.
#[global] Instance lf_h_panel r i s e t x : LockFrame (qdwin_handle_attach_panel r i s e t x).
Proof. unfold qdwin_handle_attach_panel, shell_request, unless_locked, locker_request. lf. Qed.
#[global] Instance lf_h_launcher r i s k : LockFrame (qdwin_handle_attach_launcher r i s k).
Proof. unfold qdwin_handle_attach_launcher, shell_request, unless_locked, locker_request. lf. Qed.
#[global] Instance lf_h_lock_surface r i s : LockFrame (qdwin_handle_attach_lock_surface r i s).
Proof. unfold qdwin_handle_attach_lock_surface, shell_request, unless_locked, locker_request. lf. Qed.
#[global] Instance lf_h_locker_surface r i s : LockFrame (qdwin_handle_locker_attach_lock_surface r i s).
Proof. unfold qdwin_handle_locker_attach_lock_surface, shell_request, unless_locked, locker_request. lf. Qed.
#[global] Instance lf_h_policy r a b c d e f g : LockFrame (qdwin_handle_set_wm_policy r a b c d e f g).
Proof. unfold qdwin_handle_set_wm_policy, shell_request. lf. Qed.
#[global] Instance lf_h_power r n : LockFrame (qdwin_handle_set_display_power r n).
Proof. unfold qdwin_handle_set_display_power, shell_request. lf. Qed.
#[global] Instance lf_h_pointer r a b c d e f g h :
  LockFrame (qdwin_handle_set_pointer_config r a b c d e f g h).
Proof. unfold qdwin_handle_set_pointer_config, shell_request. lf. Qed.
#[global] Instance lf_h_repeat r a b : LockFrame (qdwin_handle_set_key_repeat r a b).
Proof. unfold qdwin_handle_set_key_repeat, shell_request. lf. Qed.
#[global] Instance lf_hotkey_destroy i : LockFrame (qdwin_hotkey_destroy i).
Proof. unfold qdwin_hotkey_destroy. lf. Qed.
#[global] Instance lf_h_hotkey r i m k : LockFrame (qdwin_handle_register_hotkey r i m k).
Proof. unfold qdwin_handle_register_hotkey, shell_request. lf. Qed.
#[global] Instance lf_h_unhotkey r i : LockFrame (qdwin_handle_unregister_hotkey r i).
Proof. unfold qdwin_handle_unregister_hotkey, shell_request. lf. Qed.
#[global] Instance lf_h_paste r h d : LockFrame (qdwin_handle_data_offer_receive_decision r h d).
Proof. unfold qdwin_handle_data_offer_receive_decision, shell_request. lf. Qed.
#[global] Instance lf_h_activation r h d : LockFrame (qdwin_handle_activation_decision r h d).
Proof. unfold qdwin_handle_activation_decision, shell_request. lf. Qed.
#[global] Instance lf_h_ack r n : LockFrame (qdwin_handle_lock_acknowledged r n).
Proof. unfold qdwin_handle_lock_acknowledged, shell_request, unless_locked, locker_request. lf. Qed.

(** ** The plugin as a transition system *)

(** Everything that can happen to the modelled plugin: client requests,
    resource and surface destruction, libweston-desktop callbacks, input and
    idle callbacks. *)
Inductive op :=
| BindShell (r : wl_resource) (pid uid : Z)
| ShellGone (pending : list (string * Z)) (r : wl_resource)
| SetBorderColor (r : wl_resource) (h rgba : Z)
| AttachDecoration (r : wl_resource) (h : Z) (n e s w : option (Z * Z * Z))
| RequestClose (r : wl_resource) (h : Z)
| RequestRaise (r : wl_resource) (h : Z)
| RequestMinimize (r : wl_resource) (h : Z)
| RequestMaximize (r : wl_resource) (h on : Z)
| RequestFullscreen (r : wl_resource) (h on : Z)
| RequestTile (r : wl_resource) (h edge : Z)
| RequestSetPosition (r : wl_resource) (h x y : Z)
| BeginMove (r : wl_resource) (h : Z)
| MoveToWorkspace (r : wl_resource) (h i : Z)
| SetWorkspaceName (r : wl_resource) (i : Z) (n : string)
| ShowPopup (r : wl_resource) (id h : Z) (surface : option Z) (serial x y : Z)
| AttachPanel (r : wl_resource) (id : Z) (surface : option Z) (edge thick excl : Z)
| AttachLauncher (r : wl_resource) (id : Z) (surface : option (Z * Z * Z)) (kind : Z)
| AttachLockSurface (r : wl_resource) (id : Z) (surface : option Z)
| SetLocked (r : wl_resource) (lock : Z)
| BindLocker (p : procfs) (r : wl_resource) (pid uid : Z)
| LockerGone (r : wl_resource)
| LockerAttachLockSurface (r : wl_resource) (id : Z) (surface : option Z)
| LockerSetLocked (r : wl_resource) (lock : Z)
| LockAcknowledged (r : wl_resource) (reason : Z)
| LockSurfaceCommit | LockSurfaceDestroyed | LockResourceDestroyed
| LauncherSurfaceDestroyed (i : Z) | LauncherResourceDestroyed (i : Z)
| PanelSurfaceDestroyed (i : Z) | PanelResourceDestroyed (i : Z)
| PopupDestroyed (i : Z) | StreamDestroyed (i : Z)
| ChromeDestroyed (h : Z) (side : nat)
| SurfaceAdded (d : desktop_surface)
| SurfaceRemoved (h : Z)
| SurfaceCommitted (h : Z) (d : desktop_surface)
| ClientMaximize (h : Z) (on : bool)
| ClientFullscreen (h : Z) (on : bool) (out : option output)
| ClientMinimize (h : Z)
| Key (i : Z) (ke : key_event)
| Modifiers (i : Z) (alt alt_tap : bool)
| Keymap (i : Z) (k : option keymap_change)
| PointerMove (x y : Z) | PointerButton (released : bool)
| FocusRecover (i : Z)
| WorkspaceActivate (w : Z) | WorkspaceRemove (w : Z) | WorkspaceCommit (m : Z)
| SetWmPolicy (r : wl_resource) (focus delay click hover place snap dist : Z)
| SetDisplayPower (r : wl_resource) (on : Z)
| SetPointerConfig (r : wl_resource) (speed profile natural tap left middle dwt scroll : Z)
| SetKeyRepeat (r : wl_resource) (rate delay : Z)
| RegisterHotkey (r : wl_resource) (id modifiers key : Z)
| UnregisterHotkey (r : wl_resource) (id : Z)
| FfmMotion (i : Z) (under : option Z) | FfmTimer (under : option Z)
| SetSelection (stale : bool) (old : option Z) (read : option (string * Z)) (timer : bool) (i src : Z) (client : option Z)
| SendSelection (src : Z) (client : option Z)
| Receive (timer : bool) (src : Z) (mime : option string) (fd : Z)
| PasteDecision (r : wl_resource) (h : Z) (decision : option string)
| PasteTimeout (fd : Z) | PasteTargetGone (client : Z) | SourceGone (src : Z)
| GetToken (id : Z) | CommitToken (i : Z) (random : option string) | TokenGone (i : Z)
| Activate (token : option string) (surface : option Z)
| ActivationDecision (r : wl_resource) (h decision : Z)
| ActivationTimeout (h : Z) | ActivationTargetGone (surface : Z).

Definition exec (o : op) : qdwin -> qdwin :=
  match o with
  | BindShell r pid uid => qdwin_handle_bind_as_shell r pid uid
  | ShellGone l r => qdwin_shell_resource_destroy l r
  | SetBorderColor r h c => qdwin_handle_set_border_color r h c
  | AttachDecoration r h n e s w => qdwin_handle_attach_decoration r h n e s w
  | RequestClose r h => qdwin_handle_request_close r h
  | RequestRaise r h => qdwin_handle_request_raise r h
  | RequestMinimize r h => qdwin_handle_request_minimize r h
  | RequestMaximize r h on => qdwin_handle_request_maximize r h on
  | RequestFullscreen r h on => qdwin_handle_request_fullscreen r h on
  | RequestTile r h e => qdwin_handle_request_tile r h e
  | RequestSetPosition r h x y => qdwin_handle_request_set_position r h x y
  | BeginMove r h => qdwin_handle_begin_interactive_move r h
  | MoveToWorkspace r h i => qdwin_handle_move_toplevel_to_workspace r h i
  | SetWorkspaceName r i n => qdwin_handle_set_workspace_name r i n
  | ShowPopup r id h s serial x y => qdwin_handle_show_popup r id h s serial x y
  | AttachPanel r id s e t x => qdwin_handle_attach_panel r id s e t x
  | AttachLauncher r id s k => qdwin_handle_attach_launcher r id s k
  | AttachLockSurface r id s => qdwin_handle_attach_lock_surface r id s
  | SetLocked r n => qdwin_handle_set_locked r n
  | BindLocker p r pid uid => qdwin_handle_bind_as_locker p r pid uid
  | LockerGone r => qdwin_locker_resource_destroy r
  | LockerAttachLockSurface r id s => qdwin_handle_locker_attach_lock_surface r id s
  | LockerSetLocked r n => qdwin_handle_locker_set_locked r n
  | LockAcknowledged r n => qdwin_handle_lock_acknowledged r n
  | LockSurfaceCommit => qdwin_lock_surface_commit_cb
  | LockSurfaceDestroyed => qdwin_lock_surface_destroyed_cb
  | LockResourceDestroyed => destroy_lock_resource
  | LauncherSurfaceDestroyed i => qdwin_launcher_surface_destroyed i
  | LauncherResourceDestroyed i => qdwin_launcher_resource_destroyed i
  | PanelSurfaceDestroyed i => qdwin_panel_surface_destroyed i
  | PanelResourceDestroyed i => qdwin_panel_resource_destroyed i
  | PopupDestroyed i => qdwin_popup_surface_destroyed i
  | StreamDestroyed i => qdwin_stream_resource_destroyed i
  | ChromeDestroyed h s => qdwin_chrome_surface_destroyed h s
  | SurfaceAdded d => qdwin_surface_added d
  | SurfaceRemoved h => qdwin_surface_removed h
  | SurfaceCommitted h d => qdwin_surface_committed h d
  | ClientMaximize h b => qdwin_surface_maximized_requested h b
  | ClientFullscreen h b o => qdwin_surface_fullscreen_requested h b o
  | ClientMinimize h => qdwin_surface_minimized_requested h
  | Key i ke => notify_key i ke
  | Modifiers i alt tap => notify_modifiers i alt tap
  | Keymap i k => weston_seat_update_keymap i k
  | PointerMove x y => qdwin_move_grab_motion x y
  | PointerButton b => qdwin_move_grab_button b
  | FocusRecover i => qdwin_seat_focus_recover_idle_cb i
  | WorkspaceActivate w => qdwin_ext_ws_handle_activate w
  | WorkspaceRemove w => qdwin_ext_ws_handle_remove w
  | WorkspaceCommit m => qdwin_ext_ws_manager_commit m
  | SetWmPolicy r a b c d e f g => qdwin_handle_set_wm_policy r a b c d e f g
  | SetDisplayPower r n => qdwin_handle_set_display_power r n
  | SetPointerConfig r a b c d e f g h => qdwin_handle_set_pointer_config r a b c d e f g h
  | SetKeyRepeat r a b => qdwin_handle_set_key_repeat r a b
  | RegisterHotkey r i m k => qdwin_handle_register_hotkey r i m k
  | UnregisterHotkey r i => qdwin_handle_unregister_hotkey r i
  | FfmMotion i o => qdwin_ffm_consider i o
  | FfmTimer o => qdwin_ffm_timer_cb o
  | SetSelection st old rd tm i s c => set_selection st old rd tm i s c
  | SendSelection s c => send_selection s c
  | Receive t s m fd => data_offer_receive t s m fd
  | PasteDecision r h d => qdwin_handle_data_offer_receive_decision r h d
  | PasteTimeout fd => qdwin_data_offer_pending_timeout_cb fd
  | PasteTargetGone c => qdwin_data_offer_target_destroyed c
  | SourceGone s => qdwin_data_source_wrap_on_source_destroy s
  | GetToken i => qdwin_activation_get_activation_token i
  | CommitToken i s => qdwin_activation_token_commit i s
  | TokenGone i => qdwin_activation_token_resource_destroy i
  | Activate t s => qdwin_activation_activate t s
  | ActivationDecision r h d => qdwin_handle_activation_decision r h d
  | ActivationTimeout h => qdwin_activation_pending_timeout_cb h
  | ActivationTargetGone s => qdwin_activation_pending_target_destroyed s
  end.

Definition run (ops : list op) (q : qdwin) : qdwin := foldl (fun q o => exec o q) q ops.

(** The two requests that change the lock state. *)
Definition lock_op (o : op) : bool :=
  match o with SetLocked _ _ | LockerSetLocked _ _ => true | _ => false end.

Lemma exec_frame o : lock_op o = false -> LockFrame (exec o).
Proof.
  destruct o; intros Hl; try discriminate Hl; cbn [exec]; try apply _;
    unfold qdwin_chrome_surface_destroyed, qdwin_surface_maximized_requested,
      qdwin_surface_fullscreen_requested, qdwin_surface_minimized_requested,
      qdwin_ext_ws_manager_commit; lf.
Qed.

(** ** The layer ladder *)

Definition desktop_ladder : list (layer * Z) := layer_list init_scene.
Definition locked_ladder : list (layer * Z) :=
  [(lock_layer, WESTON_LAYER_POSITION_LOCK); (held_layer, WESTON_LAYER_POSITION_HIDDEN)].

(** Unlocked, every layer is at its place; locked, only the lock layer and the
    held layer are composited. *)
Definition ladder_ok (q : qdwin) : Prop :=
  layer_list (the_scene q) = if locked q then locked_ladder else desktop_ladder.

Lemma hide_layers_list s :
  layer_list (hide_layers s) =
  foldl (fun ls x => unlink_layer (fst x) ls) (layer_list s) non_lock_layers.
Proof.
  unfold hide_layers. generalize non_lock_layers as ls. intros ls. revert s.
  induction ls as [|x ls IH]; intros s; cbn [foldl]; [done|]. apply IH.
Qed.

Lemma rotate_list n l s : layer_list (rotate_layer n l s) = layer_list s.
Proof.
  revert s. induction n as [|n IH]; intros s; cbn; [done|].
  destruct (last (layer_views l s)) as [v|]; [|done]. by rewrite IH.
Qed.

Lemma remap_list l s : layer_list (qdwin_layer_remap_after_unlock l s) = layer_list s.
Proof.
  unfold qdwin_layer_remap_after_unlock. destruct (existsb _ _); [apply rotate_list|done].
Qed.

Lemma remap_all_list (ls : list (layer * Z)) s :
  layer_list (foldl (fun s x => qdwin_layer_remap_after_unlock (fst x) s) s ls) = layer_list s.
Proof.
  revert s. induction ls as [|x ls IH]; intros s; cbn; [done|]. by rewrite IH, remap_list.
Qed.

Lemma rebuild_list b s : layer_list (s <| view_list_needs_rebuild := b |>) = layer_list s.
Proof. done. Qed.

Lemma show_layers_list s :
  layer_list (show_layers s) =
  foldl (fun ls x => insert_layer (fst x) (snd x) (unlink_layer (fst x) ls)) (layer_list s)
    non_lock_layers.
Proof.
  unfold show_layers. rewrite rebuild_list. unfold remap_layers. rewrite remap_all_list. unfold position_layers.
  generalize non_lock_layers as ls. intros ls. revert s.
  induction ls as [|x ls IH]; intros s; cbn [foldl]; [done|]. apply IH.
Qed.

Lemma hide_desktop : foldl (fun ls x => unlink_layer (fst x) ls) desktop_ladder non_lock_layers
                     = locked_ladder.
Proof. vm_compute. reflexivity. Qed.

Lemma show_desktop :
  foldl (fun ls x => insert_layer (fst x) (snd x) (unlink_layer (fst x) ls)) locked_ladder
    non_lock_layers = desktop_ladder.
Proof. vm_compute. reflexivity. Qed.

(** Locking is hiding after a framed prefix, unlocking showing after one. *)
Lemma shell_lock_ladder v q :
  ladder_ok q -> locked q = false -> ladder_ok (shell_lock v q) /\ locked (shell_lock v q) = true.
Proof.
  intros Hl Hu. unfold ladder_ok in Hl. rewrite Hu in Hl.
  unfold shell_lock. set (q0 := set_lock_state true q).
  set (q1 := qdwin_install_lock_curtain _).
  assert (H1 : lock_same q0 q1) by (unfold q1; repeat lf_step).
  destruct (lf_locked_changed true (qdwin_hide_non_lock_layers q1)) as [E1 E2 _ _].
  unfold ladder_ok. rewrite E1, E2. destruct H1 as [F1 F2 _ _].
  change (locked (qdwin_hide_non_lock_layers q1)) with (locked q1). rewrite F1.
  split; [|done]. cbn [q0 set_lock_state]. change (locked q0) with true. cbv iota.
  change (the_scene (qdwin_hide_non_lock_layers q1)) with (hide_layers (the_scene q1)).
  rewrite hide_layers_list, F2. change (the_scene q0) with (the_scene q). rewrite Hl.
  apply hide_desktop.
Qed.

Lemma locker_lock_ladder q :
  ladder_ok q -> locked q = false -> ladder_ok (locker_lock q) /\ locked (locker_lock q) = true.
Proof.
  intros Hl Hu. unfold ladder_ok in Hl. rewrite Hu in Hl.
  unfold locker_lock. set (q0 := set_lock_state true q).
  set (q1 := qdwin_overlay_grab_start 2 _).
  assert (H1 : lock_same q0 q1) by (unfold q1; repeat lf_step).
  set (q2 := send_locker_locked_changed _ _).
  assert (H2 : lock_same (qdwin_hide_non_lock_layers q1) q2) by (unfold q2; repeat lf_step).
  unfold ladder_ok. destruct H1 as [F1 F2 _ _], H2 as [E1 E2 _ _]. rewrite E1, E2.
  change (locked (qdwin_hide_non_lock_layers q1)) with (locked q1). rewrite F1.
  split; [|done]. change (locked q0) with true. cbv iota.
  change (the_scene (qdwin_hide_non_lock_layers q1)) with (hide_layers (the_scene q1)).
  rewrite hide_layers_list, F2. change (the_scene q0) with (the_scene q). rewrite Hl.
  apply hide_desktop.
Qed.

Lemma unlock_ladder q q1 q2 :
  ladder_ok q -> locked q = true -> lock_same (set_lock_state false q) q1 ->
  lock_same (qdwin_show_non_lock_layers q1) q2 -> ladder_ok q2 /\ locked q2 = false.
Proof.
  intros Hl Hu [F1 F2 _ _] [E1 E2 _ _]. unfold ladder_ok in *. rewrite Hu in Hl. rewrite E1, E2.
  change (locked (qdwin_show_non_lock_layers q1)) with (locked q1). rewrite F1.
  split; [|done]. change (locked (set_lock_state false q)) with false. cbv iota.
  change (the_scene (qdwin_show_non_lock_layers q1)) with (show_layers (the_scene q1)).
  rewrite show_layers_list, F2. change (the_scene (set_lock_state false q)) with (the_scene q).
  rewrite Hl. apply show_desktop.
Qed.

Lemma shell_unlock_ladder q :
  ladder_ok q -> locked q = true -> ladder_ok (shell_unlock q) /\ locked (shell_unlock q) = false.
Proof.
  intros Hl Hu. unfold shell_unlock.
  eapply unlock_ladder; [exact Hl|exact Hu| |apply lf_locked_changed]. repeat lf_step.
Qed.

Lemma locker_unlock_ladder q :
  ladder_ok q -> locked q = true -> ladder_ok (locker_unlock q) /\ locked (locker_unlock q) = false.
Proof.
  intros Hl Hu. unfold locker_unlock. set (q1 := end_locker_grab _).
  apply (unlock_ladder q q1); [exact Hl|exact Hu| |].
  - unfold q1. repeat lf_step.
  - clearbody q1. repeat lf_step.
Qed.

Lemma lock_same_ladder q q' : lock_same q q' -> ladder_ok q -> ladder_ok q'.
Proof. intros [H1 H2 _ _]. unfold ladder_ok. by rewrite H1, H2. Qed.

Lemma set_locked_ladder r n q : ladder_ok q -> ladder_ok (qdwin_handle_set_locked r n q).
Proof.
  intros H. unfold qdwin_handle_set_locked, shell_request.
  destruct (qdwin_shell_require_bound r q); [|exact H]. cbv zeta.
  destruct (locked q) eqn:El, (negb (n =? 0)) eqn:En; cbn [Bool.eqb andb].
  - exact H.
  - by apply shell_unlock_ladder.
  - destruct (bool_decide _); [exact H|]. by apply shell_lock_ladder.
  - exact H.
Qed.

Lemma locker_set_locked_ladder r n q :
  ladder_ok q -> ladder_ok (qdwin_handle_locker_set_locked r n q).
Proof.
  intros H. unfold qdwin_handle_locker_set_locked, locker_request.
  destruct (bool_decide _); [|exact H]. cbv zeta.
  destruct (locked q) eqn:El, (negb (n =? 0)) eqn:En; cbn [Bool.eqb].
  - exact H.
  - by apply locker_unlock_ladder.
  - by apply locker_lock_ladder.
  - exact H.
Qed.

Lemma exec_ladder o q : ladder_ok q -> ladder_ok (exec o q).
Proof.
  intros H. destruct (lock_op o) eqn:E.
  - destruct o; try discriminate E; cbn [exec];
      [by apply set_locked_ladder|by apply locker_set_locked_ladder].
  - eapply lock_same_ladder; [|exact H]. by apply (exec_frame o E).
Qed.

Lemma run_ladder ops q : ladder_ok q -> ladder_ok (run ops q).
Proof.
  revert q. induction ops as [|o ops IH]; intros q H; cbn; [done|]. apply IH. by apply exec_ladder.
Qed.
