(* ===== verification/LockTheorems.v ===== *)
(** * LockTheorems: what the session lock guarantees

    The properties of the lock over all reachable states: what is composited
    while locked, who can unlock, the curtain, the unlock round trip, the
    containment of keyboard input and the locker's identity. *)

From stdpp Require Import base list gmap strings option.
From S2P Require Import Prelude Logic Scene Procfs State Toplevel ToplevelFacts Dependents.
From S2P Require Import Focus Placement Lock Config Clipboard Activation Workspace Session.
From S2P Require Import LockFacts.
From Stdlib Require Import Ascii.
From stdpp Require Import list.

#[local] Open Scope Z_scope.

(** ** What is composited *)

(** C2.  Whatever the clients do, a locked session composites only the lock
    layer and, below it, the held layer; an unlocked one has every layer at
    its place of the ladder.  This holds in every state the plugin can reach
    from its initialisation. *)
Theorem reachable_layers (outs : list output) (sts : list seat) (uid : Z) (ops : list op) :
  let q := run ops (wet_shell_init outs sts uid) in
  layer_list (the_scene q) = (if locked q then locked_ladder else desktop_ladder)
  /\ (locked q = true ->
      weston_compositor_build_view_list (the_scene q) =
      layer_views lock_layer (the_scene q) ++ layer_views held_layer (the_scene q)).
Proof.
  cbv zeta. set (q := run ops (wet_shell_init outs sts uid)).
  assert (H : ladder_ok q) by (apply run_ladder; reflexivity). clearbody q. split; [exact H|].
  intros Hl. unfold weston_compositor_build_view_list. unfold ladder_ok in H.
  rewrite H, Hl. cbn [locked_ladder flat_map fst]. by rewrite app_nil_r.
Qed.

Lemma only_unlock_ops q o :
  locked q = true -> locked (exec o q) = false ->
  (exists r, o = SetLocked r 0 /\ qdwin_shell_require_bound r q = true)
  \/ (exists r, o = LockerSetLocked r 0 /\ bool_decide (locker_resource q = Some r) = true).
Proof.
  intros Hlocked Hunlocked. destruct (lock_op o) eqn:E.
  2: { pose proof (ls_flag _ _ (exec_frame o E q)) as H. congruence. }
  destruct o; try discriminate E; cbn [exec] in Hunlocked.
  - rename lock into n. left. exists r. unfold qdwin_handle_set_locked, shell_request in Hunlocked.
    destruct (qdwin_shell_require_bound r q) eqn:Eb.
    2: { change (locked q = false) in Hunlocked. congruence. }
    cbv zeta in Hunlocked. rewrite Hlocked in Hunlocked.
    destruct (Z.eqb_spec n 0) as [->|Hn]; [done|]. cbn in Hunlocked. congruence.
  - rename lock into n. right. exists r.
    unfold qdwin_handle_locker_set_locked, locker_request in Hunlocked.
    destruct (bool_decide (locker_resource q = Some r)) eqn:Eb.
    2: { change (locked q = false) in Hunlocked. congruence. }
    cbv zeta in Hunlocked. rewrite Hlocked in Hunlocked.
    destruct (Z.eqb_spec n 0) as [->|Hn]; [done|]. cbn in Hunlocked. congruence.
Qed.

(** C1.  Fail-secure: a locked session is unlocked by nothing but an explicit
    [set_locked(0)] of the bound shell or of the bound locker.  Crashes,
    disconnects, surface destruction and every other request keep it locked. *)
Theorem only_explicit_unlock (q : qdwin) (o : op)
    (Hlocked : locked q = true) (Hunlocked : locked (exec o q) = false) :
  (exists r, o = SetLocked r 0 /\ shell_bound q = true /\ shell_resource q = Some r)
  \/ (exists r, o = LockerSetLocked r 0 /\ locker_resource q = Some r).
Proof.
  destruct (only_unlock_ops q o Hlocked Hunlocked) as [(r & -> & Hb)|(r & -> & Hb)].
  - left. exists r. unfold qdwin_shell_require_bound in Hb.
    by apply andb_prop in Hb as [Hb ->%bool_decide_eq_true].
  - right. exists r. by apply bool_decide_eq_true in Hb.
Qed.

(** A session with a keyboard, a bound shell and a bound locker whose window
    is mapped, next to an ordinary window. *)
Definition ex_seat : seat := mk_seat 1 true None true default_grab true (0, 0) [] true 0 false.
Definition ex_shell_res : wl_resource := mk_resource 500 34 9.
Definition ex_locker_res : wl_resource := mk_resource 600 1 8.
Definition ex_app : desktop_surface :=
  mk_dsurf 100 300 200 false 300 200 (Some 7) 700 1000 None false "app" "title" "".
Definition ex_lock_ui : desktop_surface :=
  mk_dsurf 101 1920 1080 false 1920 1080 (Some 6) 42 1000 None false "qdlocker" "lock" "".
Definition ex_boot : list op :=
  [BindShell ex_shell_res 900 1000; SurfaceAdded ex_app; SurfaceCommitted 1 ex_app;
   BindLocker ex_procfs ex_locker_res 42 1000].
Definition ex_session : qdwin :=
  Eval vm_compute in run ex_boot (wet_shell_init [ex_output; mk_output 2 (-800) 0 800 600 false "DP-2"]
                                    [ex_seat] 1000).
Definition ex_locked : qdwin :=
  Eval vm_compute in run [LockerSetLocked ex_locker_res 1; SurfaceAdded ex_lock_ui] ex_session.

Lemma only_explicit_unlock_witness :
  (exists r, LockerSetLocked ex_locker_res 0 = SetLocked r 0 /\ shell_bound ex_locked = true
             /\ shell_resource ex_locked = Some r)
  \/ (exists r, LockerSetLocked ex_locker_res 0 = LockerSetLocked r 0
                /\ locker_resource ex_locked = Some r).
Proof.
  apply (only_explicit_unlock ex_locked (LockerSetLocked ex_locker_res 0));
    vm_compute; reflexivity.
Defined.

(** ** The curtain *)

Definition box_covers (b : Z * Z * Z * Z) (o : output) : Prop :=
  let '(x0, y0, x1, y1) := b in
  x0 <= out_x o /\ y0 <= out_y o /\ out_x o + out_width o <= x1
  /\ out_y o + out_height o <= y1.

Lemma grow_bbox_covers b o b' :
  grow_bbox b o = Some b' ->
  (out_destroying o = false -> box_covers b' o)
  /\ (forall o', match b with Some b => box_covers b o' | None => False end -> box_covers b' o').
Proof.
  unfold grow_bbox. destruct (out_destroying o).
  - intros ->. split; [done|]. by intros o'.
  - destruct b as [[[[x0 y0] x1] y1]|]; intros [= <-]; unfold box_covers.
    + repeat split_match; zbool; split; intros; lia.
    + split; [lia|done].
Qed.

Lemma outputs_bbox_covers outs b o :
  outputs_bbox outs = Some b -> o ∈ outs -> out_destroying o = false -> box_covers b o.
Proof.
  unfold outputs_bbox.
  assert (Hg : forall acc, foldl grow_bbox acc outs = Some b ->
    (forall o, o ∈ outs -> out_destroying o = false -> box_covers b o)
    /\ (forall o, match acc with Some a => box_covers a o | None => False end -> box_covers b o)).
  { clear o. induction outs as [|o outs IH]; intros acc; cbn.
    - intros ->. split; [by intros o ?%elem_of_nil|done].
    - intros H. destruct (IH _ H) as [H1 H2].
      destruct (grow_bbox acc o) as [b1|] eqn:E.
      + destruct (grow_bbox_covers _ _ _ E) as [H3 H4]. split.
        * intros o' [->|Ho]%elem_of_cons Hd; [by apply H2, H3|by apply H1].
        * intros o' Ho. by apply H2, H4.
      + unfold grow_bbox in E. destruct (out_destroying o) eqn:Ed;
          [subst acc|by destruct acc as [[[[]]]|]].
        split; [|done]. intros o' [->|Ho]%elem_of_cons Hd; [congruence|by apply H1]. }
  intros H. apply (Hg None H).
Qed.

Lemma last_layer_views_splice v l s : last (layer_views l (splice_to_bottom v l s)) = Some v.
Proof.
  unfold layer_views, splice_to_bottom. cbn [entries upd_field].
  rewrite filter_app, fmap_app, filter_cons, decide_True by done. cbn. apply last_snoc.
Qed.

Lemma view_entry_splice v l s :
  view_entry v (splice_to_bottom v l s) = Some (mk_ventry v l (weston_view_is_mapped v s)).
Proof.
  unfold view_entry, splice_to_bottom. cbn [entries upd_field]. rewrite filter_app.
  assert (filter (fun e => ve_view e = v) (unlink_view v (entries s)) = []) as ->.
  { unfold unlink_view. induction (entries s) as [|e es IH]; [done|]. rewrite filter_cons.
    case_decide; [|done]. rewrite filter_cons, decide_False by done. done. }
  rewrite filter_cons, decide_True by done. done.
Qed.

(** Moves into visible layers keep a mapped view mapped. *)
Lemma mapped_move v w l s :
  weston_view_is_mapped w s = true -> layer_is_visible l s = true ->
  weston_view_is_mapped w (weston_view_move_to_layer v l s) = true.
Proof.
  intros Hm Hv. unfold weston_view_is_mapped in *. destruct (decide (v = w)) as [->|Hn].
  - by rewrite view_entry_move_eq.
  - by rewrite view_entry_move_ne.
Qed.

Lemma mapped_move_views vs w l s :
  weston_view_is_mapped w s = true -> layer_is_visible l s = true ->
  weston_view_is_mapped w (move_views vs l s) = true.
Proof.
  revert s. induction vs as [|v vs IH]; intros s Hm Hv; [done|]. cbn. apply IH.
  - by apply mapped_move.
  - by rewrite layer_is_visible_move.
Qed.

Lemma curtain_to_bottom_ok v s :
  weston_view_is_mapped v s = true -> layer_is_visible lock_layer s = true ->
  last (layer_views lock_layer (curtain_to_bottom v s)) = Some v
  /\ weston_view_is_mapped v (curtain_to_bottom v s) = true.
Proof.
  intros Hm Hv. unfold curtain_to_bottom. split; [apply last_layer_views_splice|].
  unfold weston_view_is_mapped at 1. rewrite view_entry_splice. cbn [ve_mapped].
  destruct (bool_decide _); [done|]. by apply mapped_move.
Qed.

(** The curtain [c] is in place: at the bottom of the lock layer and mapped. *)
Definition curtain_in_place (c : curtain) (q : qdwin) : Prop :=
  lock_curtain q = Some c
  /\ last (layer_views lock_layer (the_scene q)) = Some (c_view c)
  /\ weston_view_is_mapped (c_view c) (the_scene q) = true.

(** What a geometry change of a plain window leaves alone. *)
Definition plain (h : Z) (q : qdwin) : Prop :=
  forall tl, qdwin_toplevel_from_handle h q = Some tl -> is_nested_proxy tl = false.
Record calm (h : Z) (q q' : qdwin) : Prop := {
  calm_scene : the_scene q' = the_scene q;
  calm_curtain : lock_curtain q' = lock_curtain q;
  calm_plain : plain h q'
}.

Section Calm.
Context (h : Z) (q0 : qdwin).

Lemma calm_emit e q : calm h q0 q -> calm h q0 (emit e q).
Proof. intros []. by split. Qed.
Lemma calm_send n e q : calm h q0 q -> calm h q0 (shell_send n e q).
Proof. intros. unfold shell_send. destruct (shell_version_ge n q); [by apply calm_emit|done]. Qed.
Lemma calm_upd f `{!FrameFn f} q : calm h q0 q -> calm h q0 (upd_tl h f q).
Proof.
  intros [H1 H2 H3]. split; [done|done|]. intros tl.
  rewrite from_handle_upd_eq by (intros; apply frame_handle; apply _).
  destruct (qdwin_toplevel_from_handle h q) as [t|] eqn:E; [|done]. intros [= <-].
  destruct (frame_fn (f := f) t) as (_&_&_&->&_). by apply H3.
Qed.
Lemma calm_pos v x y q : calm h q0 q -> calm h q0 (weston_view_set_position v x y q).
Proof. intros []. by split. Qed.
Lemma calm_tl_pos x y q : calm h q0 q -> calm h q0 (set_tl_position h x y q).
Proof.
  intros. unfold set_tl_position, with_tl. destruct (qdwin_toplevel_from_handle h q); [|done].
  by apply calm_pos.
Qed.
Lemma calm_chrome q : calm h q0 q -> calm h q0 (qdwin_toplevel_position_chrome h q).
Proof.
  intros [H1 H2 H3]. destruct (qdwin_toplevel_from_handle h q) as [tl|] eqn:E.
  - destruct (position_chrome_moved _ _ _ E) as [-> _]. by split.
  - unfold qdwin_toplevel_position_chrome, with_tl. by rewrite E.
Qed.
Lemma calm_inset q : calm h q0 q -> calm h q0 (qdwin_toplevel_apply_inset h q).
Proof.
  intros H. unfold qdwin_toplevel_apply_inset, with_tl at 1.
  destruct (qdwin_toplevel_from_handle h q) as [tl|]; [|done].
  destruct (is_nested_proxy tl); [done|].
  assert (H' : calm h q0 (qdwin_toplevel_seed_outer_from_committed h q)) by by apply calm_upd.
  unfold with_tl. destruct (qdwin_toplevel_from_handle h _) as [t|]; [|done].
  destruct (desktop t) as [d|]; [|done]. destruct (configure_extent t d) as [cw ch].
  apply calm_emit. apply calm_upd; [apply _|done].
Qed.
Lemma calm_resize w ht e q : calm h q0 q -> calm h q0 (resize_proxy_or h w ht e q).
Proof.
  intros H. unfold resize_proxy_or, with_tl.
  destruct (qdwin_toplevel_from_handle h q) as [tl|] eqn:E; [|done].
  rewrite (calm_plain _ _ _ H tl E). by apply calm_emit.
Qed.
Lemma calm_fs_geometry o q :
  calm h q0 q -> calm h q0 (qdwin_toplevel_apply_fullscreen_geometry h o q).
Proof.
  intros H. unfold qdwin_toplevel_apply_fullscreen_geometry, with_tl.
  destruct (match o with Some o => Some o | None => _ end) as [out|]; [|done].
  destruct (qdwin_toplevel_from_handle h q) as [tl|]; [|done].
  apply calm_chrome, calm_inset, calm_tl_pos, calm_resize. apply calm_upd; [apply _|done].
Qed.
Lemma calm_save q : calm h q0 q -> calm h q0 (save_geometry h q).
Proof.
  intros H. unfold save_geometry, with_tl. destruct (qdwin_toplevel_from_handle h q); [|done].
  cbv zeta. unfold qdwin_toplevel_seed_outer_from_committed.
  by do 3 (apply calm_upd; [apply _|]).
Qed.
Lemma calm_fullscreen q :
  calm h q0 q -> calm h q0 (qdwin_toplevel_set_fullscreen h true None q).
Proof.
  intros H. unfold qdwin_toplevel_set_fullscreen, with_tl.
  destruct (qdwin_toplevel_from_handle h q) as [tl|]; [|done].
  destruct (proxy_pending tl); [done|]. cbv zeta.
  destruct (ts_has (state tl) QDWIN_TS_FULLSCREEN); cbn [Bool.eqb];
    [by apply calm_fs_geometry|].
  destruct (qdwin_primary_output q) as [out|]; [|done].
  set (q1 := qdwin_toplevel_apply_fullscreen_geometry h (Some out) (save_geometry h q)).
  assert (H1 : calm h q0 q1) by by apply calm_fs_geometry, calm_save.
  assert (H2 : calm h q0 (upd_tl h (add_state QDWIN_TS_FULLSCREEN) q1))
    by (apply calm_upd; [apply _|done]).
  unfold qdwin_send_toplevel_state, with_tl.
  destruct (qdwin_toplevel_from_handle h (upd_tl h _ q1)); [by apply calm_send|done].
Qed.
End Calm.

Definition lock_visible (q : qdwin) : Prop :=
  layer_is_visible lock_layer (the_scene q) = true
  /\ layer_is_visible held_layer (the_scene q) = true.

Lemma lock_same_visible q q' : lock_same q q' -> lock_visible q -> lock_visible q'.
Proof. intros H. unfold lock_visible, layer_is_visible. by rewrite (ls_layers _ _ H). Qed.

(** The curtain exists and its view is mapped, wherever it is. *)
Definition curtain_mapped (c : curtain) (q : qdwin) : Prop :=
  lock_curtain q = Some c /\ weston_view_is_mapped (c_view c) (the_scene q) = true.

Lemma tl_move_curtain h l c q :
  l = lock_layer \/ l = held_layer -> lock_visible q -> curtain_mapped c q ->
  curtain_mapped c (qdwin_toplevel_move_to_layer h l q).
Proof.
  intros Hl [Hv1 Hv2] [H1 H2]. unfold qdwin_toplevel_move_to_layer, with_tl.
  destruct (qdwin_toplevel_from_handle h q) as [tl|]; [|done]. split; [done|].
  rewrite bool_decide_eq_false_2, andb_false_r by (destruct Hl; by subst).
  apply mapped_move_views; [done|]. by destruct Hl as [-> | ->].
Qed.

Lemma demote_curtain c q :
  lock_visible q -> curtain_mapped c q -> curtain_mapped c (qdwin_demote_lock_toplevel q).
Proof.
  intros Hv Hc. unfold qdwin_demote_lock_toplevel. destruct (lock_toplevel q) as [h|]; [|done].
  unfold with_tl. destruct (qdwin_toplevel_from_handle h q) as [tl|]; [|done].
  assert (H : curtain_mapped c (qdwin_toplevel_move_to_layer h held_layer q))
    by (apply tl_move_curtain; auto).
  revert H. generalize (qdwin_toplevel_move_to_layer h held_layer q). intros q1 [H1 H2].
  by destruct (bool_decide _).
Qed.

Lemma curtain_bottom_in_place c q :
  lock_visible q -> curtain_mapped c q -> curtain_in_place c (qdwin_lock_curtain_to_bottom q).
Proof.
  intros [Hv _] [H1 H2]. unfold qdwin_lock_curtain_to_bottom. rewrite H1.
  destruct (curtain_to_bottom_ok (c_view c) (the_scene q) H2 Hv). by split_and!.
Qed.

Lemma promote_curtain h c q :
  lock_visible q -> curtain_in_place c q ->
  curtain_in_place c (qdwin_maybe_promote_lock_toplevel h q).
Proof.
  intros Hv (H1 & H2 & H3). unfold qdwin_maybe_promote_lock_toplevel, with_tl.
  destruct (qdwin_toplevel_from_handle h q) as [tl|] eqn:E; [|by split_and!].
  destruct (qdwin_toplevel_is_locker_ui tl q) eqn:Eui; cbn [negb]; [|by split_and!].
  set (qd := match lock_toplevel q with Some h' => _ | None => q end).
  assert (Hd : curtain_mapped c qd /\ lock_visible qd
               /\ qdwin_toplevel_from_handle h qd = Some tl).
  { unfold qd. destruct (lock_toplevel q) as [h'|]; [destruct (h' =? h)|]; try by split_and!.
    split_and!; [by apply demote_curtain| |].
    - eapply lock_same_visible; [apply lf_demote|done].
    - rewrite <- E. unfold qdwin_demote_lock_toplevel. destruct (lock_toplevel q) as [h2|]; [|done].
      unfold with_tl at 1. destruct (qdwin_toplevel_from_handle h2 q) as [t2|]; [|done].
      unfold qdwin_toplevel_move_to_layer, with_tl.
      destruct (qdwin_toplevel_from_handle h2 q); destruct (bool_decide _); reflexivity. }
  clearbody qd. destruct Hd as (Hc & Hvd & Ed).
  set (qa := adopt_lock_toplevel h (tl_surface tl) (view tl) qd).
  assert (Ha : curtain_mapped c qa /\ lock_visible qa /\ qdwin_toplevel_from_handle h qa = Some tl)
    by by split_and!.
  clearbody qa. destruct Ha as (Hca & Hva & Ea). clear Hc Hvd Ed qd.
  set (qm := qdwin_toplevel_move_to_layer h lock_layer qa).
  assert (Hm : curtain_mapped c qm /\ lock_visible qm /\ qdwin_toplevel_from_handle h qm = Some tl).
  { split_and!; [apply tl_move_curtain; auto|eapply lock_same_visible; [apply lf_tl_move|done]|].
    unfold qm, qdwin_toplevel_move_to_layer, with_tl. rewrite Ea. exact Ea. }
  clearbody qm. destruct Hm as (Hcm & Hvm & Em).
  pose proof (curtain_bottom_in_place c qm Hvm Hcm) as (B1 & B2 & B3).
  set (qb := qdwin_lock_curtain_to_bottom qm) in *.
  assert (Eb : qdwin_toplevel_from_handle h qb = Some tl).
  { rewrite <- Em. unfold qb, qdwin_lock_curtain_to_bottom. by destruct (lock_curtain qm). }
  clearbody qb.
  assert (Hp : calm h qb qb).
  { split; [done|done|]. intros t Ht. rewrite Eb in Ht. injection Ht as <-.
    unfold qdwin_toplevel_is_locker_ui in Eui. destruct (desktop tl); [|done]. zbool. done. }
  destruct (calm_fullscreen h qb qb Hp) as [C1 C2 _].
  unfold curtain_in_place. rewrite C1, C2. by split_and!.
Qed.

(** Without a curtain none appears. *)
Lemma promote_none h q : lock_curtain q = None -> lock_curtain (qdwin_maybe_promote_lock_toplevel h q) = None.
Proof.
  intros H. unfold qdwin_maybe_promote_lock_toplevel, with_tl.
  destruct (qdwin_toplevel_from_handle h q) as [tl|] eqn:E; [|done].
  destruct (qdwin_toplevel_is_locker_ui tl q) eqn:Eui; cbn [negb]; [|done].
  set (qd := match lock_toplevel q with Some h' => _ | None => q end).
  assert (Hd : lock_curtain qd = None /\ toplevels qd = toplevels q).
  { unfold qd. destruct (lock_toplevel q) as [h'|] eqn:Et; [|done]. destruct (h' =? h); [done|].
    unfold qdwin_demote_lock_toplevel, with_tl. rewrite Et.
    destruct (qdwin_toplevel_from_handle h' q); [|done].
    set (q1 := qdwin_toplevel_move_to_layer _ _ _).
    assert (H1 : lock_curtain q1 = None /\ toplevels q1 = toplevels q).
    { unfold q1, qdwin_toplevel_move_to_layer, with_tl. by destruct (qdwin_toplevel_from_handle h' q). }
    clearbody q1. destruct H1. by destruct (bool_decide _). }
  clearbody qd. destruct Hd as [Hd1 Hd2]. cbv zeta.
  set (qa := adopt_lock_toplevel _ _ _ qd).
  assert (Ha : lock_curtain qa = None /\ toplevels qa = toplevels q) by (split; [exact Hd1|exact Hd2]).
  clearbody qa. destruct Ha as [Ha1 Ha2].
  set (qm := qdwin_toplevel_move_to_layer h lock_layer qa).
  assert (Hm : lock_curtain qm = None /\ toplevels qm = toplevels q).
  { unfold qm, qdwin_toplevel_move_to_layer, with_tl.
    destruct (qdwin_toplevel_from_handle h qa); (split; [exact Ha1|exact Ha2]). }
  clearbody qm. destruct Hm as [Hm1 Hm2]. unfold qdwin_lock_curtain_to_bottom. rewrite Hm1.
  rewrite (calm_curtain h qm); [done|]. apply calm_fullscreen. split; [done|done|].
  intros t Ht. unfold qdwin_toplevel_from_handle in *. rewrite Hm2, E in Ht. injection Ht as <-.
  unfold qdwin_toplevel_is_locker_ui in Eui. destruct (desktop tl); [|done]. zbool. done.
Qed.
Lemma promote_all_none q : lock_curtain q = None -> lock_curtain (promote_all q) = None.
Proof.
  unfold promote_all. generalize (toplevels q) as ts. intros ts. revert q.
  induction ts as [|t ts IH]; intros q H; [done|]. cbn [foldl]. by apply IH, promote_none.
Qed.

Lemma promote_all_curtain c q :
  lock_visible q -> curtain_in_place c q -> curtain_in_place c (promote_all q).
Proof.
  unfold promote_all. generalize (toplevels q) as ts. intros ts. revert q.
  induction ts as [|t ts IH]; intros q Hv Hc; [done|]. cbn [foldl]. apply IH.
  - eapply lock_same_visible; [apply lf_promote|done].
  - by apply promote_curtain.
Qed.

Lemma install_in_place q x0 y0 x1 y1 :
  locked q = true -> oom q = false -> lock_visible q ->
  outputs_bbox (outputs q) = Some (x0, y0, x1, y1) -> x0 < x1 -> y0 < y1 ->
  exists v, curtain_in_place (mk_curtain v x0 y0 (x1 - x0) (y1 - y0) opaque_black)
              (qdwin_install_lock_curtain q).
Proof.
  intros Hl Hm Hv Hb Hx Hy. unfold qdwin_install_lock_curtain. rewrite Hl, Hb. cbn [negb].
  destruct (Z.leb_spec x1 x0); [lia|]. destruct (Z.leb_spec y1 y0); [lia|]. cbn [orb].
  pose proof (lf_remove_curtain q) as Hr. set (qr := qdwin_remove_lock_curtain q) in *.
  clearbody qr. unfold weston_view_create. rewrite (ls_oom _ _ Hr), Hm.
  exists (next_view qr). apply curtain_bottom_in_place.
  - destruct Hv as [Hv1 Hv2]. split; unfold layer_is_visible; cbn;
      by rewrite (ls_layers _ _ Hr).
  - split; [reflexivity|].
    destruct Hv as [Hv1 _]. unfold weston_view_is_mapped.
    change (the_scene ?a) with (weston_view_move_to_layer (next_view qr) lock_layer (the_scene qr)).
    cbn [c_view]. rewrite view_entry_move_eq. cbn [ve_mapped].
    unfold layer_is_visible. rewrite (ls_layers _ _ Hr). exact Hv1.
Qed.

Lemma install_none q x0 y0 x1 y1 :
  locked q = true -> oom q = true ->
  outputs_bbox (outputs q) = Some (x0, y0, x1, y1) -> x0 < x1 -> y0 < y1 ->
  lock_curtain (qdwin_install_lock_curtain q) = None.
Proof.
  intros Hl Hm Hb Hx Hy. unfold qdwin_install_lock_curtain. rewrite Hl, Hb. cbn [negb].
  destruct (Z.leb_spec x1 x0); [lia|]. destruct (Z.leb_spec y1 y0); [lia|]. cbn [orb].
  unfold weston_view_create. rewrite (ls_oom _ _ (lf_remove_curtain q)), Hm.
  unfold qdwin_remove_lock_curtain. by destruct (lock_curtain q) eqn:E.
Qed.

Lemma hide_entries s : entries (hide_layers s) = entries s.
Proof.
  unfold hide_layers. generalize non_lock_layers as ls. intros ls. revert s.
  induction ls as [|x ls IH]; intros s; cbn [foldl]; [done|]. by rewrite IH.
Qed.

Lemma in_place_entries c q q' :
  lock_curtain q' = lock_curtain q -> entries (the_scene q') = entries (the_scene q) ->
  curtain_in_place c q -> curtain_in_place c q'.
Proof.
  intros H1 H2. unfold curtain_in_place, layer_views, weston_view_is_mapped, view_entry.
  by rewrite H1, H2.
Qed.

Lemma hide_in_place c q : curtain_in_place c q -> curtain_in_place c (qdwin_hide_non_lock_layers q).
Proof. apply in_place_entries; [done|]. apply hide_entries. Qed.

Lemma ladder_visible q : ladder_ok q -> lock_visible q.
Proof.
  unfold ladder_ok, lock_visible, layer_is_visible. intros ->.
  destruct (locked q); split; vm_compute; reflexivity.
Qed.

Lemma shell_lock_curtain v q x0 y0 x1 y1 :
  ladder_ok q -> oom q = false ->
  outputs_bbox (outputs q) = Some (x0, y0, x1, y1) -> x0 < x1 -> y0 < y1 ->
  exists w, curtain_in_place (mk_curtain w x0 y0 (x1 - x0) (y1 - y0) opaque_black) (shell_lock v q).
Proof.
  intros Hl Hm Hb Hx Hy. unfold shell_lock. set (q0 := set_lock_state true q).
  set (q1 := if 17 <=? v then _ else _).
  assert (H1 : lock_same q0 q1) by (unfold q1; repeat lf_step). clearbody q1.
  destruct (install_in_place q1 x0 y0 x1 y1) as [w Hw]; try done.
  - by rewrite (ls_flag _ _ H1).
  - by rewrite (ls_oom _ _ H1).
  - eapply lock_same_visible; [exact H1|]. exact (ladder_visible q Hl).
  - by rewrite (ls_outputs _ _ H1).
  - exists w. apply hide_in_place in Hw. revert Hw.
    generalize (qdwin_hide_non_lock_layers (qdwin_install_lock_curtain q1)). intros q2 Hw.
    unfold send_locked_changed. by destruct (shell_resource q2).
Qed.

Lemma locker_lock_curtain q x0 y0 x1 y1 :
  ladder_ok q -> oom q = false ->
  outputs_bbox (outputs q) = Some (x0, y0, x1, y1) -> x0 < x1 -> y0 < y1 ->
  exists w, curtain_in_place (mk_curtain w x0 y0 (x1 - x0) (y1 - y0) opaque_black) (locker_lock q).
Proof.
  intros Hl Hm Hb Hx Hy. unfold locker_lock. set (q0 := set_lock_state true q).
  set (q1 := terminate_streams _ _ _).
  assert (H1 : lock_same q0 q1) by (unfold q1; repeat lf_step). clearbody q1.
  assert (Hv : lock_visible q1)
    by (eapply lock_same_visible; [exact H1|exact (ladder_visible q Hl)]).
  destruct (install_in_place q1 x0 y0 x1 y1) as [w Hw]; try done.
  - by rewrite (ls_flag _ _ H1).
  - by rewrite (ls_oom _ _ H1).
  - by rewrite (ls_outputs _ _ H1).
  - exists w. apply promote_all_curtain in Hw; [|eapply lock_same_visible;
      [apply lf_install_curtain|done]].
    revert Hw. generalize (promote_all (qdwin_install_lock_curtain q1)). intros q2 Hw.
    assert (Hg : curtain_in_place (mk_curtain w x0 y0 (x1 - x0) (y1 - y0) opaque_black)
                   (qdwin_overlay_grab_start 2 q2)).
    { unfold qdwin_overlay_grab_start. destruct (keyboard_seat q2); [|done].
      by destruct (overlay_grab_active q2). }
    apply hide_in_place in Hg. revert Hg.
    generalize (qdwin_hide_non_lock_layers (qdwin_overlay_grab_start 2 q2)). intros q3 Hg.
    assert (Hs : curtain_in_place (mk_curtain w x0 y0 (x1 - x0) (y1 - y0) opaque_black)
                   (send_locked_changed true q3))
      by (unfold send_locked_changed; by destruct (shell_resource q3)).
    revert Hs. generalize (send_locked_changed true q3). intros q4 Hs.
    unfold send_locker_locked_changed. by destruct (locker_resource q4).
Qed.

Lemma shell_lock_none v q x0 y0 x1 y1 :
  oom q = true -> outputs_bbox (outputs q) = Some (x0, y0, x1, y1) -> x0 < x1 -> y0 < y1 ->
  lock_curtain (shell_lock v q) = None.
Proof.
  intros Hm Hb Hx Hy. unfold shell_lock. set (q0 := set_lock_state true q). set (q1 := if 17 <=? v then _ else _).
  assert (H1 : lock_same q0 q1) by (unfold q1; repeat lf_step). clearbody q1.
  assert (H2 : lock_curtain (qdwin_install_lock_curtain q1) = None).
  { apply (install_none q1 x0 y0 x1 y1); [by rewrite (ls_flag _ _ H1)|by rewrite (ls_oom _ _ H1)|
      by rewrite (ls_outputs _ _ H1)|done|done]. }
  revert H2. generalize (qdwin_install_lock_curtain q1). intros q2 H2.
  unfold send_locked_changed. by destruct (shell_resource _).
Qed.
Lemma locker_lock_none q x0 y0 x1 y1 :
  oom q = true -> outputs_bbox (outputs q) = Some (x0, y0, x1, y1) -> x0 < x1 -> y0 < y1 ->
  lock_curtain (locker_lock q) = None.
Proof.
  intros Hm Hb Hx Hy. unfold locker_lock. set (q0 := set_lock_state true q). set (q1 := terminate_streams _ _ _).
  assert (H1 : lock_same q0 q1) by (unfold q1; repeat lf_step). clearbody q1.
  assert (H2 : lock_curtain (promote_all (qdwin_install_lock_curtain q1)) = None).
  { apply promote_all_none, (install_none q1 x0 y0 x1 y1); [by rewrite (ls_flag _ _ H1)|by rewrite (ls_oom _ _ H1)|
      by rewrite (ls_outputs _ _ H1)|done|done]. }
  revert H2. generalize (promote_all (qdwin_install_lock_curtain q1)). intros q2 H2.
  assert (H3 : lock_curtain (qdwin_overlay_grab_start 2 q2) = None).
  { unfold qdwin_overlay_grab_start. destruct (keyboard_seat q2); [|done]. by destruct (overlay_grab_active q2). }
  revert H3. generalize (qdwin_overlay_grab_start 2 q2). intros q3 H3.
  assert (H4 : lock_curtain (send_locked_changed true (qdwin_hide_non_lock_layers q3)) = None)
    by (unfold send_locked_changed; by destruct (shell_resource _)).
  revert H4. generalize (send_locked_changed true (qdwin_hide_non_lock_layers q3)). intros q4 H4.
  unfold send_locker_locked_changed. by destruct (locker_resource q4).
Qed.

(** An operation that locks the session does one of two things. *)
Lemma locking_op (P : qdwin -> Prop) o q :
  locked q = false -> locked (exec o q) = true ->
  (forall v, P (shell_lock v q)) -> P (locker_lock q) -> P (exec o q).
Proof.
  intros Hopen Hlock Hs Hk. destruct (lock_op o) eqn:E.
  2: { pose proof (ls_flag _ _ (exec_frame o E q)). congruence. }
  destruct o; try discriminate E; rename lock into n; cbn [exec] in *.
  - unfold qdwin_handle_set_locked, shell_request in *.
    destruct (qdwin_shell_require_bound r q);
      [|change (locked q = true) in Hlock; congruence]. cbv zeta in *.
    rewrite Hopen in *. destruct (negb (n =? 0)); cbn [Bool.eqb andb] in *; [|congruence].
    destruct (bool_decide _); [congruence|]. apply Hs.
  - unfold qdwin_handle_locker_set_locked, locker_request in *.
    destruct (bool_decide _); [|change (locked q = true) in Hlock; congruence]. cbv zeta in *.
    rewrite Hopen in *. destruct (negb (n =? 0)); cbn [Bool.eqb] in *; [|congruence]. exact Hk.
Qed.

(** C3.  Whichever request locks a session with a live output of positive size:
    when the curtain can be allocated, an opaque curtain that spans every live
    output is mapped at the bottom of the lock layer, hence above the held
    layer, which is all that is composited below it; when it cannot, the session
    is locked without any curtain. *)
Theorem lock_curtain_covers (q : qdwin) (o : op) (x0 y0 x1 y1 : Z)
    (Hladder : ladder_ok q) (Hopen : locked q = false) (Hlock : locked (exec o q) = true)
    (Hbox : outputs_bbox (outputs q) = Some (x0, y0, x1, y1)) (Hx : x0 < x1) (Hy : y0 < y1) :
  if oom q then lock_curtain (exec o q) = None
  else exists c above,
    lock_curtain (exec o q) = Some c /\ curtain_opaque c = true
    /\ weston_compositor_build_view_list (the_scene (exec o q))
       = above ++ c_view c :: layer_views held_layer (the_scene (exec o q))
    /\ weston_view_is_mapped (c_view c) (the_scene (exec o q)) = true
    /\ (forall out, out ∈ outputs q -> out_destroying out = false ->
        box_covers (c_x c, c_y c, c_x c + c_width c, c_y c + c_height c) out).
Proof.
  destruct (oom q) eqn:Hmem.
  { apply (locking_op (fun q' => lock_curtain q' = None)); try done; intros;
      [by eapply shell_lock_none|by eapply locker_lock_none]. }
  pose proof (exec_ladder o q Hladder) as Hl.
  assert (H : exists w, curtain_in_place (mk_curtain w x0 y0 (x1 - x0) (y1 - y0) opaque_black) (exec o q)).
  { apply (locking_op (fun q' => exists w, curtain_in_place (mk_curtain w x0 y0 (x1 - x0) (y1 - y0) opaque_black) q'));
      try done; intros; [by apply shell_lock_curtain|by apply locker_lock_curtain]. }
  destruct H as (w & H1 & H2 & H3). revert H1 H2 H3 Hl Hlock.
  generalize (exec o q). intros q' H1 H2 H3 Hl Hlock.
  apply last_Some in H2 as [above H2]. cbn [c_view] in *.
  exists (mk_curtain w x0 y0 (x1 - x0) (y1 - y0) opaque_black), above. split_and!; [done|done| |done|].
  - unfold weston_compositor_build_view_list. unfold ladder_ok in Hl. rewrite Hl, Hlock.
    cbn [locked_ladder flat_map fst c_view]. by rewrite H2, app_nil_r, <- app_assoc.
  - intros out Ho Hd. pose proof (outputs_bbox_covers _ _ out Hbox Ho Hd) as Hc.
    unfold box_covers in *. cbn [c_x c_y c_width c_height]. lia.
Qed.

Lemma lock_curtain_covers_witness :
  let q' := exec (LockerSetLocked ex_locker_res 1) ex_session in
  oom ex_session = false
  /\ exists c above,
    lock_curtain q' = Some c /\ curtain_opaque c = true
    /\ weston_compositor_build_view_list (the_scene q')
       = above ++ c_view c :: layer_views held_layer (the_scene q')
    /\ weston_view_is_mapped (c_view c) (the_scene q') = true
    /\ (forall out, out ∈ outputs ex_session -> out_destroying out = false ->
        box_covers (c_x c, c_y c, c_x c + c_width c, c_y c + c_height c) out).
Proof.
  split; [vm_compute; reflexivity|].
  apply (lock_curtain_covers ex_session (LockerSetLocked ex_locker_res 1) (-800) 0 1920 1080);
    try (vm_compute; reflexivity).
Defined.

(** ** Unlocking *)

Lemma filter_ne_notin (v : Z) (l : list Z) : v ∉ l -> filter (fun w => w ≠ v) l = l.
Proof.
  intros H. induction l as [|w l IH]; [done|]. apply not_elem_of_cons in H as [H1 H2].
  rewrite filter_cons, decide_True by done. by rewrite IH.
Qed.

(** What the remapping of layer [l] may do: map views of [l], nothing else. *)
Record remapped (l : layer) (s s' : scene) : Prop := {
  rm_wf : scene_wf s';
  rm_layers : layer_list s' = layer_list s;
  rm_other : forall v, view_layer v s ≠ Some l -> view_entry v s' = view_entry v s;
  rm_views : forall l', l' ≠ l -> layer_views l' s' = layer_views l' s
}.

Lemma remapped_refl l s : scene_wf s -> remapped l s s.
Proof. by split. Qed.

Lemma remapped_move v l s :
  scene_wf s -> v ∈ layer_views l s -> remapped l s (weston_view_move_to_layer v l s).
Proof.
  intros Hwf Hv. apply (elem_of_layer_views v l s Hwf) in Hv. split.
  - by apply scene_wf_move.
  - done.
  - intros w Hw. apply view_entry_move_ne. congruence.
  - intros l' Hl. rewrite layer_views_move, decide_False by congruence.
    apply filter_ne_notin. rewrite (elem_of_layer_views v l' s Hwf). congruence.
Qed.

Lemma rotate_ok n l s done_ todo :
  scene_wf s -> layer_is_visible l s = true ->
  layer_views l s = done_ ++ todo -> length todo = n ->
  (forall v, v ∈ done_ -> weston_view_is_mapped v s = true) ->
  layer_views l (rotate_layer n l s) = todo ++ done_
  /\ (forall v, v ∈ todo ++ done_ -> weston_view_is_mapped v (rotate_layer n l s) = true)
  /\ remapped l s (rotate_layer n l s).
Proof.
  revert s done_ todo. induction n as [|n IH]; intros s dn todo Hwf Hv Hl Hn Hm.
  - destruct todo; [|done]. cbn [rotate_layer app]. rewrite app_nil_r in Hl.
    split_and!; [done|done|by apply remapped_refl].
  - destruct (exists_last (l := todo)) as (todo' & x & ->); [by intros ->|].
    rewrite length_app in Hn. cbn in Hn.
    cbn [rotate_layer]. rewrite Hl, app_assoc, last_snoc.
    assert (Hnd : NoDup (layer_views l s)) by by apply layer_views_NoDup.
    rewrite Hl, app_assoc in Hnd. apply NoDup_app in Hnd as (Hnd & Hx & _).
    assert (Hxn : x ∉ dn ++ todo') by (intros H; apply (Hx x H); apply list_elem_of_here).
    assert (Hin : x ∈ layer_views l s).
    { rewrite Hl, app_assoc. apply elem_of_app. right. apply list_elem_of_here. }
    pose proof (remapped_move x l s Hwf Hin) as Hr.
    destruct (IH (weston_view_move_to_layer x l s) (x :: dn) todo') as (H1 & H2 & H3).
    + apply Hr.
    + done.
    + rewrite layer_views_move, decide_True by done. rewrite Hl, app_assoc, filter_app.
      rewrite filter_ne_notin by done. rewrite filter_cons, decide_False by tauto. cbn.
      by rewrite app_nil_r.
    + lia.
    + intros v [->|Hd]%elem_of_cons; unfold weston_view_is_mapped.
      * by rewrite view_entry_move_eq.
      * rewrite view_entry_move_ne; [by apply Hm|]. intros ->. apply Hxn, elem_of_app. by left.
    + rewrite <- app_assoc. cbn [app]. split_and!; [exact H1|exact H2|].
      assert (Hxl : view_layer x s = Some l) by by apply elem_of_layer_views.
      split.
      * apply H3.
      * rewrite (rm_layers _ _ _ H3). apply Hr.
      * intros w Hw. rewrite (rm_other _ _ _ H3); [by apply Hr|].
        rewrite view_layer_move, decide_False by congruence. done.
      * intros l' Hl'. by rewrite (rm_views _ _ _ H3), (rm_views _ _ _ Hr).
Qed.

Definition all_mapped (l : layer) (s : scene) : Prop :=
  forall v, v ∈ layer_views l s -> weston_view_is_mapped v s = true.

Lemma remap_ok l s :
  scene_wf s -> layer_is_visible l s = true ->
  let s' := qdwin_layer_remap_after_unlock l s in
  remapped l s s' /\ layer_views l s' = layer_views l s /\ all_mapped l s'.
Proof.
  intros Hwf Hv. unfold qdwin_layer_remap_after_unlock.
  destruct (existsb (fun v => negb (weston_view_is_mapped v s)) (layer_views l s)) eqn:E.
  - destruct (rotate_ok (length (layer_views l s)) l s [] (layer_views l s)) as (H1 & H2 & H3);
      try done.
    { by intros v ?%elem_of_nil. }
    rewrite app_nil_r in H1, H2. cbv zeta. split_and!; [done|done|].
    intros v Hin. rewrite H1 in Hin. by apply H2.
  - cbv zeta. split_and!; [by apply remapped_refl|done|]. intros v Hin.
    destruct (weston_view_is_mapped v s) eqn:Em; [done|].
    enough (existsb (fun v => negb (weston_view_is_mapped v s)) (layer_views l s) = true)
      by congruence.
    apply existsb_exists. exists v. split; [by apply list_elem_of_In|]. by rewrite Em.
Qed.

Lemma remapped_keeps_mapped l l' s s' :
  scene_wf s -> remapped l s s' -> l' ≠ l -> all_mapped l' s -> all_mapped l' s'.
Proof.
  intros Hwf H Hl Hm v Hv. rewrite (rm_views _ _ _ H) in Hv by done.
  unfold weston_view_is_mapped. rewrite (rm_other _ _ _ H); [by apply Hm|].
  apply (elem_of_layer_views v l' s Hwf) in Hv. congruence.
Qed.

Lemma remap_fold_ok (ls : list (layer * Z)) s :
  scene_wf s -> NoDup (fst <$> ls) -> (forall x, x ∈ ls -> layer_is_visible (fst x) s = true) ->
  let s' := foldl (fun s x => qdwin_layer_remap_after_unlock (fst x) s) s ls in
  scene_wf s' /\ (forall l, layer_views l s' = layer_views l s)
  /\ (forall x, x ∈ ls -> all_mapped (fst x) s')
  /\ (forall l, l ∉ (fst <$> ls) -> all_mapped l s -> all_mapped l s').
Proof.
  revert s. induction ls as [|x ls IH]; intros s Hwf Hnd Hv; cbn [foldl].
  - split_and!; [done|done|by intros x ?%elem_of_nil|done].
  - rewrite fmap_cons in Hnd. apply NoDup_cons in Hnd as [Hx Hnd].
    destruct (remap_ok (fst x) s Hwf) as (Hr & He & Hm); [apply Hv, list_elem_of_here|].
    destruct (IH (qdwin_layer_remap_after_unlock (fst x) s)) as (I1 & I2 & I3 & I4).
    + apply Hr.
    + done.
    + intros y Hy. unfold layer_is_visible. rewrite (rm_layers _ _ _ Hr).
      apply Hv. by apply list_elem_of_further.
    + split_and!; [done| | |].
      * intros l. rewrite I2. destruct (decide (l = fst x)) as [->|Hl]; [done|].
        by apply (rm_views _ _ _ Hr).
      * intros y [->|Hy]%elem_of_cons; [by apply I4|by apply I3].
      * intros l Hl Ha. rewrite fmap_cons in Hl. apply not_elem_of_cons in Hl as [Hl1 Hl2].
        apply I4; [done|]. by apply (remapped_keeps_mapped (fst x) l s).
Qed.

Lemma position_entries s : entries (position_layers s) = entries s.
Proof.
  unfold position_layers. generalize non_lock_layers as ls. intros ls. revert s.
  induction ls as [|x ls IH]; intros s; cbn [foldl]; [done|]. by rewrite IH.
Qed.

Lemma position_list s :
  layer_list s = locked_ladder -> layer_list (position_layers s) = desktop_ladder.
Proof.
  intros H. rewrite <- show_desktop, <- H. unfold position_layers.
  generalize non_lock_layers as ls. intros ls. clear H. revert s.
  induction ls as [|x ls IH]; intros s; cbn [foldl]; [done|]. apply IH.
Qed.

Lemma all_mapped_rebuild l b s :
  all_mapped l s -> all_mapped l (s <| view_list_needs_rebuild := b |>).
Proof. done. Qed.

Lemma show_layers_ok s :
  scene_wf s -> layer_list s = locked_ladder ->
  (forall l, layer_views l (show_layers s) = layer_views l s)
  /\ (forall x, x ∈ non_lock_layers -> all_mapped (fst x) (show_layers s)).
Proof.
  intros [Hwf _] Hl. unfold show_layers, remap_layers.
  destruct (remap_fold_ok non_lock_layers (position_layers s)) as (_ & H2 & H3 & _).
  - split; [by rewrite position_entries|]. rewrite (position_list s Hl).
    apply (bool_decide_unpack _). vm_compute. exact I.
  - apply (bool_decide_unpack _). vm_compute. exact I.
  - intros x Hx. unfold layer_is_visible. rewrite (position_list s Hl).
    apply bool_decide_eq_true. revert x Hx. apply Forall_forall.
    apply (bool_decide_unpack _). vm_compute. exact I.
  - split.
    + intros l. rewrite layer_views_rebuild, H2. unfold layer_views. by rewrite position_entries.
    + intros x Hx. apply all_mapped_rebuild. exact (H3 x Hx).
Qed.

(** The views of the lock screen itself: the curtain and the promoted window. *)
Definition lock_ui_views (q : qdwin) : list Z :=
  match lock_curtain q with Some c => [c_view c] | None => [] end
  ++ match lock_toplevel q with
     | Some h => match qdwin_toplevel_from_handle h q with
                 | Some tl => tl_views tl
                 | None => []
                 end
     | None => []
     end.

(** [s'] keeps the views of every desktop layer of [s] in order, but for those
    in [vs]. *)
Record sheds (vs : list Z) (s s' : scene) : Prop := {
  sh_wf : scene_wf s';
  sh_layers : layer_list s' = layer_list s;
  sh_sub : forall l, l ≠ held_layer -> sublist (layer_views l s') (layer_views l s);
  sh_keep : forall l v, l ≠ held_layer -> v ∈ layer_views l s -> v ∉ vs ->
            v ∈ layer_views l s'
}.

Lemma sheds_refl vs s : scene_wf s -> sheds vs s s.
Proof. by split. Qed.

Lemma sheds_trans vs s1 s2 s3 : sheds vs s1 s2 -> sheds vs s2 s3 -> sheds vs s1 s3.
Proof.
  intros A B. split.
  - apply B.
  - rewrite (sh_layers _ _ _ B). apply A.
  - intros l Hl. etransitivity; [by apply B|by apply A].
  - intros l v Hl Hv Hn. apply (sh_keep _ _ _ B); [done| |done]. by apply (sh_keep _ _ _ A).
Qed.

Lemma sublist_filter_ne (v : Z) (l : list Z) : sublist (filter (fun w => w ≠ v) l) l.
Proof.
  induction l as [|w l IH]; [constructor|]. rewrite filter_cons. case_decide.
  - by apply sublist_skip.
  - by apply sublist_cons.
Qed.

Lemma layer_views_destroy v l s :
  layer_views l (weston_view_destroy v s) = filter (fun w => w ≠ v) (layer_views l s).
Proof. exact (layer_views_unlink v l s). Qed.

Lemma sheds_destroy vs v s : scene_wf s -> v ∈ vs -> sheds vs s (weston_view_destroy v s).
Proof.
  intros Hwf Hv. split.
  - by apply scene_wf_destroy.
  - done.
  - intros l _. rewrite layer_views_destroy. apply sublist_filter_ne.
  - intros l w _ Hw Hn. rewrite layer_views_destroy. apply list_elem_of_filter. split; [|done]. congruence.
Qed.

Lemma sheds_move vs v s :
  scene_wf s -> v ∈ vs -> sheds vs s (weston_view_move_to_layer v held_layer s).
Proof.
  intros Hwf Hv. split.
  - by apply scene_wf_move.
  - done.
  - intros l Hl. rewrite layer_views_move, decide_False by done. apply sublist_filter_ne.
  - intros l w Hl Hw Hn. rewrite layer_views_move, decide_False by done.
    apply list_elem_of_filter. split; [|done]. congruence.
Qed.

Lemma sheds_move_views vs ws s :
  scene_wf s -> ws ⊆ vs -> sheds vs s (move_views ws held_layer s).
Proof.
  revert s. induction ws as [|w ws IH]; intros s Hwf Hs; [by apply sheds_refl|].
  cbn [move_views foldl].
  pose proof (sheds_move vs w s Hwf ltac:(apply Hs, list_elem_of_here)) as H1.
  eapply sheds_trans; [exact H1|]. apply (IH (weston_view_move_to_layer w held_layer s)).
  - apply H1.
  - intros x Hx. by apply Hs, list_elem_of_further.
Qed.

(** The steps before the layers are shown again. *)
Lemma remove_curtain_sheds q :
  scene_wf (the_scene q) ->
  sheds (lock_ui_views q) (the_scene q) (the_scene (qdwin_remove_lock_curtain q)).
Proof.
  intros Hwf. unfold qdwin_remove_lock_curtain, lock_ui_views.
  destruct (lock_curtain q) as [c|]; [|by apply sheds_refl].
  apply sheds_destroy; [done|]. apply elem_of_app. left. apply list_elem_of_here.
Qed.

Lemma demote_sheds vs q :
  scene_wf (the_scene q) ->
  (forall h tl, lock_toplevel q = Some h -> qdwin_toplevel_from_handle h q = Some tl ->
     tl_views tl ⊆ vs) ->
  sheds vs (the_scene q) (the_scene (qdwin_demote_lock_toplevel q)).
Proof.
  intros Hwf Hvs. unfold qdwin_demote_lock_toplevel.
  destruct (lock_toplevel q) as [h|]; [|by apply sheds_refl].
  unfold with_tl. destruct (qdwin_toplevel_from_handle h q) as [tl|] eqn:E; [|by apply sheds_refl].
  assert (H : sheds vs (the_scene q) (the_scene (qdwin_toplevel_move_to_layer h held_layer q))).
  { unfold qdwin_toplevel_move_to_layer, with_tl. rewrite E. cbv zeta.
    rewrite bool_decide_eq_false_2, andb_false_r by done.
    apply sheds_move_views; [done|]. by apply (Hvs h). }
  revert H. generalize (qdwin_toplevel_move_to_layer h held_layer q). intros q1 H.
  by destruct (bool_decide _).
Qed.

Lemma end_grab_scene q : the_scene (end_locker_grab q) = the_scene q.
Proof.
  unfold end_locker_grab, qdwin_overlay_grab_end, weston_keyboard_send_modifiers, with_seat.
  by repeat (split_match; try done).
Qed.

Lemma locked_changed_scene b q : the_scene (send_locked_changed b q) = the_scene q.
Proof. unfold send_locked_changed. by destruct (shell_resource q). Qed.
Lemma locker_changed_scene b q : the_scene (send_locker_locked_changed b q) = the_scene q.
Proof. unfold send_locker_locked_changed. by destruct (locker_resource q). Qed.

Lemma unlock_scene q o :
  scene_wf (the_scene q) -> locked q = true -> locked (exec o q) = false ->
  exists s1, sheds (lock_ui_views q) (the_scene q) s1 /\ the_scene (exec o q) = show_layers s1.
Proof.
  intros Hwf Hl Hu.
  pose proof (remove_curtain_sheds (set_lock_state false q) Hwf) as Hs.
  change (lock_ui_views (set_lock_state false q)) with (lock_ui_views q) in Hs.
  change (the_scene (set_lock_state false q)) with (the_scene q) in Hs.
  destruct (only_unlock_ops q o Hl Hu) as [(r & -> & Hb)|(r & -> & Hb)]; cbn [exec].
  - unfold qdwin_handle_set_locked, shell_request. rewrite Hb. cbv zeta. rewrite Hl.
    cbn [Z.eqb negb Bool.eqb andb].
    exists (the_scene (qdwin_remove_lock_curtain (set_lock_state false q))). split; [exact Hs|].
    unfold shell_unlock. set (q1 := qdwin_remove_lock_curtain _). clearbody q1.
    rewrite <- (end_grab_scene q1). generalize (end_locker_grab q1). intros q2.
    transitivity (the_scene (qdwin_show_non_lock_layers q2)); [|reflexivity].
    apply locked_changed_scene.
  - unfold qdwin_handle_locker_set_locked, locker_request. rewrite Hb. cbv zeta. rewrite Hl.
    cbn [Z.eqb negb Bool.eqb].
    exists (the_scene (qdwin_demote_lock_toplevel
                         (qdwin_remove_lock_curtain (set_lock_state false q)))). split.
    + eapply sheds_trans; [exact Hs|]. apply demote_sheds; [apply Hs|].
      intros h tl Ht He v Hv. unfold lock_ui_views. apply elem_of_app. right.
      unfold qdwin_remove_lock_curtain in Ht, He. change (lock_curtain (set_lock_state false q))
        with (lock_curtain q) in Ht, He.
      destruct (lock_curtain q); [change (lock_toplevel q = Some h) in Ht;
        change (qdwin_toplevel_from_handle h q = Some tl) in He|
        change (lock_toplevel q = Some h) in Ht;
        change (qdwin_toplevel_from_handle h q = Some tl) in He]; by rewrite Ht, He.
    + unfold locker_unlock. set (q1 := qdwin_demote_lock_toplevel _). clearbody q1.
      rewrite <- (end_grab_scene q1). generalize (end_locker_grab q1). intros q2.
      transitivity (the_scene (qdwin_show_non_lock_layers q2)); [|reflexivity].
      by rewrite locker_changed_scene, locked_changed_scene.
Qed.

(** C4.  Unlocking gives the desktop back: every layer is at its place again,
    every view in a desktop layer is mapped (windows, panels and shell
    surfaces that arrived during the lock included), and the stacking of the
    views that are not part of the lock screen is unchanged. *)
Theorem unlock_restores_desktop (q : qdwin) (o : op)
    (Hladder : ladder_ok q) (Hwf : scene_wf (the_scene q))
    (Hlocked : locked q = true) (Hunlocked : locked (exec o q) = false) :
  let s := the_scene q in
  let s' := the_scene (exec o q) in
  layer_list s' = desktop_ladder
  /\ forall l p, (l, p) ∈ non_lock_layers ->
     all_mapped l s' /\ sublist (layer_views l s') (layer_views l s)
     /\ (forall v, v ∈ layer_views l s -> v ∉ lock_ui_views q -> v ∈ layer_views l s').
Proof.
  cbv zeta. pose proof (exec_ladder o q Hladder) as Hl'. unfold ladder_ok in Hl'.
  rewrite Hunlocked in Hl'. split; [exact Hl'|]. clear Hl'. intros l p Hin.
  destruct (unlock_scene q o Hwf Hlocked Hunlocked) as (s1 & Hs & ->).
  unfold ladder_ok in Hladder. rewrite Hlocked in Hladder.
  destruct (show_layers_ok s1) as [H1 H2].
  - apply Hs.
  - by rewrite (sh_layers _ _ _ Hs).
  - assert (Hne : l ≠ held_layer).
    { intros ->. revert Hin. unfold non_lock_layers. rewrite !elem_of_cons, elem_of_nil.
      intros Hin. repeat destruct Hin as [Hin|Hin]; try discriminate Hin. done. }
    rewrite H1. split_and!.
    + exact (H2 (l, p) Hin).
    + by apply Hs.
    + intros v Hv Hn. by apply (sh_keep _ _ _ Hs).
Qed.

(** Another window opens while the session is locked. *)
Definition ex_during : qdwin :=
  Eval vm_compute in run [SurfaceAdded ex_app; SurfaceCommitted 3 ex_app] ex_locked.

Lemma unlock_restores_desktop_witness :
  let s := the_scene ex_during in
  let s' := the_scene (exec (LockerSetLocked ex_locker_res 0) ex_during) in
  layer_list s' = desktop_ladder
  /\ forall l p, (l, p) ∈ non_lock_layers ->
     all_mapped l s' /\ sublist (layer_views l s') (layer_views l s)
     /\ (forall v, v ∈ layer_views l s -> v ∉ lock_ui_views ex_during -> v ∈ layer_views l s').
Proof.
  apply (unlock_restores_desktop ex_during (LockerSetLocked ex_locker_res 0));
    try (vm_compute; reflexivity).
  split; apply (bool_decide_unpack _); vm_compute; exact I.
Defined.

(** ** Keyboard containment *)

(** [e] is not among the events [q'] adds to those of [q]. *)
Definition adds (P : event -> Prop) (q q' : qdwin) : Prop :=
  exists es, events q' = es ++ events q /\ Forall P es.

Lemma adds_refl P q : adds P q q.
Proof. by exists []. Qed.
Lemma adds_trans P q1 q2 q3 : adds P q1 q2 -> adds P q2 q3 -> adds P q1 q3.
Proof.
  intros (e1 & H1 & F1) (e2 & H2 & F2). exists (e2 ++ e1).
  split; [by rewrite H2, H1, app_assoc|by apply Forall_app].
Qed.
Lemma adds_emit (P : event -> Prop) e q0 q : P e -> adds P q0 q -> adds P q0 (emit e q).
Proof. intros He (es & H & F). exists (e :: es). split; [|by constructor]. cbn. by rewrite H. Qed.
Lemma adds_quiet P q0 q q' : events q' = events q -> adds P q0 q -> adds P q0 q'.
Proof. intros H (es & H1 & F). exists es. by rewrite H, H1. Qed.

(** Not a key for a client, and a modifier update only when [mods]. *)
Definition contained (mods : bool) (e : event) : Prop :=
  match e with
  | send_key _ _ _ => False
  | send_modifiers _ | keymap_modifiers _ => mods = true
  | _ => True
  end.

Lemma switcher_start_events i q : events (qdwin_switcher_grab_start i q) = events q.
Proof. unfold qdwin_switcher_grab_start. by destruct (switcher_grab_active q). Qed.
Lemma switcher_end_events q : events (qdwin_switcher_grab_end q) = events q.
Proof. unfold qdwin_switcher_grab_end. by destruct (switcher_grab_active q). Qed.

(** A change of keyboard focus only notifies the shell. *)
Definition focus_event (P : event -> Prop) : Prop := forall i h, P (seat_focus_changed i h).

Lemma focus_now_adds P i q : focus_event P -> adds P q (qdwin_seat_emit_focus_now i q).
Proof.
  intros HP. unfold qdwin_seat_emit_focus_now, with_seat.
  destruct (List.find _ (seats q)) as [s|]; [|apply adds_refl].
  destruct (negb (tracked s)); [apply adds_refl|]. destruct (_ =? _); [apply adds_refl|]. cbv zeta.
  set (q1 := upd_seat i _ q). assert (H1 : events q1 = events q) by done. clearbody q1.
  assert (H2 : adds P q (qdwin_emit_seat_focus_changed i (focused_handle s q) q1)).
  { unfold qdwin_emit_seat_focus_changed, shell_send. destruct (shell_version_ge 14 q1).
    - apply adds_emit; [apply HP|]. eapply adds_quiet; [exact H1|apply adds_refl].
    - eapply adds_quiet; [exact H1|apply adds_refl]. }
  revert H2. generalize (qdwin_emit_seat_focus_changed i (focused_handle s q) q1). intros q2 H2.
  destruct (_ && _); [|exact H2]. eapply adds_quiet; [|exact H2]. reflexivity.
Qed.
Lemma set_focus_adds P i f q : focus_event P -> adds P q (weston_keyboard_set_focus i f q).
Proof.
  intros HP. unfold weston_keyboard_set_focus. eapply adds_trans; [|by apply focus_now_adds].
  eapply adds_quiet; [|apply adds_refl]. reflexivity.
Qed.

Lemma install_adds P i k f q : focus_event P -> adds P q (install_binding_grab i k f q).
Proof.
  intros HP. unfold install_binding_grab. cbv zeta. set (q1 := set_grab i (binding_grab k) q).
  assert (H1 : adds P q q1) by (eapply adds_quiet; [|apply adds_refl]; done).
  clearbody q1. destruct f; [|exact H1]. destruct (bool_decide _); [|exact H1].
  eapply adds_trans; [exact H1|]. eapply adds_trans; by apply set_focus_adds.
Qed.

(** Focus changes keep the grabs. *)
Lemma grab_of_upd j i f q :
  (forall s, seat_id (f s) = seat_id s /\ kbd_grab (f s) = kbd_grab s) ->
  grab_of j (upd_seat i f q) = grab_of j q.
Proof.
  intros Hf. unfold grab_of, upd_seat. cbn [seats upd_field].
  induction (seats q) as [|s ss IH]; [done|]. cbn [map List.find]. destruct (Hf s) as [H1 H2].
  destruct (seat_id s =? i); rewrite ?H1; destruct (seat_id s =? j); congruence.
Qed.
Lemma seat_focus_upd j i f q :
  (forall s, seat_id (f s) = seat_id s /\ kbd_focus (f s) = kbd_focus s) ->
  seat_focus j (upd_seat i f q) = seat_focus j q.
Proof.
  intros Hf. unfold seat_focus, upd_seat. cbn [seats upd_field].
  induction (seats q) as [|s ss IH]; [done|]. cbn [map List.find]. destruct (Hf s) as [H1 H2].
  destruct (seat_id s =? i); rewrite ?H1; destruct (seat_id s =? j); congruence.
Qed.

Lemma focus_now_seat j i q :
  grab_of j (qdwin_seat_emit_focus_now i q) = grab_of j q
  /\ seat_focus j (qdwin_seat_emit_focus_now i q) = seat_focus j q.
Proof.
  unfold qdwin_seat_emit_focus_now, with_seat. destruct (List.find _ (seats q)) as [s|]; [|done].
  destruct (negb (tracked s)); [done|]. destruct (_ =? _); [done|]. cbv zeta.
  set (q1 := upd_seat i _ q).
  assert (H1 : grab_of j q1 = grab_of j q /\ seat_focus j q1 = seat_focus j q).
  { unfold q1. by rewrite grab_of_upd, seat_focus_upd. }
  clearbody q1. destruct H1 as [<- <-].
  assert (H2 : seats (qdwin_emit_seat_focus_changed i (focused_handle s q) q1) = seats q1).
  { unfold qdwin_emit_seat_focus_changed, shell_send. by destruct (shell_version_ge 14 q1). }
  revert H2. generalize (qdwin_emit_seat_focus_changed i (focused_handle s q) q1). intros q2 H2.
  assert (H3 : grab_of j q2 = grab_of j q1 /\ seat_focus j q2 = seat_focus j q1)
    by (unfold grab_of, seat_focus; by rewrite H2).
  destruct H3 as [<- <-]. destruct (_ && _); [|done]. unfold schedule_recovery.
  by rewrite grab_of_upd, seat_focus_upd.
Qed.

Lemma set_focus_grab j i f q : grab_of j (weston_keyboard_set_focus i f q) = grab_of j q.
Proof.
  unfold weston_keyboard_set_focus. rewrite (proj1 (focus_now_seat _ _ _)). by apply grab_of_upd.
Qed.
Lemma set_focus_focus i f q s :
  List.find (fun s => seat_id s =? i) (seats q) = Some s ->
  seat_focus i (weston_keyboard_set_focus i f q) = f.
Proof.
  intros Hs. unfold weston_keyboard_set_focus. rewrite (proj2 (focus_now_seat _ _ _)).
  unfold seat_focus, upd_seat. cbn [seats upd_field]. revert Hs.
  induction (seats q) as [|t ts IH]; [done|]. cbn [map List.find].
  destruct (seat_id t =? i) eqn:E; cbn [seat_id upd_field]; rewrite E; [done|exact IH].
Qed.

(** *** Sequences of input events *)

Inductive input_event :=
| IKey (ke : key_event) | IModifiers (alt alt_tap : bool) | IKeymap (k : option keymap_change).

Definition feed (i : Z) (q : qdwin) (e : input_event) : qdwin :=
  match e with
  | IKey ke => notify_key i ke q
  | IModifiers alt tap => notify_modifiers i alt tap q
  | IKeymap k => weston_seat_update_keymap i k q
  end.
Definition feed_all (i : Z) (q : qdwin) (es : list input_event) : qdwin := foldl (feed i) q es.

Definition unbound (q : qdwin) (e : input_event) : Prop :=
  match e with
  | IKey ke => Forall (fun b => binding_matches ke b = false) (key_binding_list q)
  | IModifiers _ _ | IKeymap _ => True
  end.

(** A new keymap is installed while modifiers are latched or locked. *)
Definition sticky_change (k : option keymap_change) : bool :=
  match k with Some (keymap_installed _ sticky) => sticky | _ => false end.
Definition sticky_keymap (e : input_event) : bool :=
  match e with IKey ke => sticky_change (ke_keymap ke) | IModifiers _ _ => false | IKeymap k => sticky_change k end.

(** What may be sent: nothing to a client but, if [b], the modifiers with the
    keymap. *)
Definition lock_event (i : Z) (b : bool) (e : event) : Prop :=
  contained false e \/ (e = keymap_modifiers i /\ b = true).

Lemma unbound_quiet i ke l q :
  Forall (fun b => binding_matches ke b = false) l -> foldl (run_binding i ke) q l = q.
Proof. intros H. induction H as [|b l Hb _ IH]; [done|]. cbn. unfold run_binding at 2. by rewrite Hb. Qed.

(** The locker's grab, or the bare lock under the default grab. *)
Definition lock_keyboard (i : Z) (q : qdwin) : Prop :=
  locked q = true
  /\ ((grab_of i q = overlay_grab /\ overlay_grab_role q = 2) \/ grab_of i q = default_grab).

(** Only an event was added. *)
Lemma lock_keyboard_emit i e q : lock_keyboard i (emit e q) <-> lock_keyboard i q.
Proof. done. Qed.

Record held_back (i : Z) (b : bool) (q q' : qdwin) : Prop := mk_held_back {
  hb_events : adds (lock_event i b) q q';
  hb_lock : lock_keyboard i q';
  hb_grab : grab_of i q' = grab_of i q;
  hb_bindings : key_binding_list q' = key_binding_list q
}.

Lemma held_back_refl i b q : lock_keyboard i q -> held_back i b q q.
Proof. by split; [apply adds_refl|..]. Qed.
Lemma held_back_trans i b q1 q2 q3 : held_back i b q1 q2 -> held_back i b q2 q3 -> held_back i b q1 q3.
Proof. intros [A1 A2 A3 A4] [B1 B2 B3 B4]. split; [by eapply adds_trans|done|congruence|congruence]. Qed.
Lemma held_back_emit i b e q : lock_event i b e -> lock_keyboard i q -> held_back i b q (emit e q).
Proof. intros He Hl. split; [by apply adds_emit, adds_refl|by apply lock_keyboard_emit|done|done]. Qed.

Lemma key_held_back i b ke q : lock_keyboard i q -> held_back i b q (grab_key i ke q).
Proof.
  intros L. pose proof L as [Hl Hg]. unfold grab_key. destruct Hg as [[-> Hr]| ->].
  - unfold qdwin_overlay_grab_key. destruct (negb _); [by apply held_back_refl|].
    destruct (_ && _); [by apply held_back_emit; [left|]|].
    destruct (shell_resource q); [by apply held_back_emit; [left|]|by apply held_back_refl].
  - unfold qdwin_proxy_default_grab_key. rewrite Hl. by apply held_back_refl.
Qed.

Lemma modifiers_held_back i b alt tap q : lock_keyboard i q -> held_back i b q (notify_modifiers i alt tap q).
Proof.
  intros L. unfold notify_modifiers. cbv zeta. set (q1 := if tap then _ else q).
  assert (H1 : held_back i b q q1).
  { unfold q1, qdwin_on_alt_released. destruct tap; [|by apply held_back_refl].
    destruct (shell_resource q); [by apply held_back_emit; [left|]|by apply held_back_refl]. }
  eapply held_back_trans; [exact H1|]. destruct H1 as [_ L1 _ _]. clearbody q1.
  pose proof L1 as [Hl Hg]. destruct Hg as [[-> Hr]| ->].
  - unfold qdwin_overlay_grab_modifiers. rewrite Hr. by apply held_back_refl.
  - unfold qdwin_proxy_default_grab_modifiers. rewrite Hl. by apply held_back_refl.
Qed.

Lemma keymap_held_back i k q :
  lock_keyboard i q -> held_back i (sticky_change k) q (weston_seat_update_keymap i k q).
Proof.
  intros L. destruct k as [[|mods sticky]|]; try by apply held_back_refl. cbn.
  set (b := sticky). set (q1 := emit (keymap_sent i) q).
  assert (H1 : held_back i b q q1) by (apply held_back_emit; [by left|done]). clearbody q1.
  set (q2 := match mods with Some (alt, tap) => _ | None => q1 end).
  assert (H2 : held_back i b q q2).
  { unfold q2. destruct mods as [[alt tap]|]; [|done]. eapply held_back_trans; [exact H1|].
    apply modifiers_held_back, H1. }
  clearbody q2. unfold b. destruct sticky; [|exact H2]. eapply held_back_trans; [exact H2|].
  apply held_back_emit; [by right|apply H2].
Qed.

Lemma held_back_weaken i b b' q q' : (b = true -> b' = true) -> held_back i b q q' -> held_back i b' q q'.
Proof.
  intros Hb [(es & E & F) B C D]. split; try done. exists es. split; [done|].
  eapply Forall_impl; [exact F|]. intros e [He|[-> He]]; [by left|right; auto].
Qed.

Lemma feed_contained i e q :
  lock_keyboard i q -> (grab_of i q = default_grab -> unbound q e) ->
  held_back i (sticky_keymap e) q (feed i q e).
Proof.
  intros L Hu. destruct e as [ke|alt tap|k]; cbn [feed sticky_keymap].
  - unfold notify_key.
    assert (Hq : (if bool_decide (grab_of i q = default_grab)
                  then weston_compositor_run_key_binding i ke q else q) = q).
    { case_bool_decide as Hg; [|done]. unfold weston_compositor_run_key_binding.
      destruct (ke_pressed ke); [|done]. by apply unbound_quiet, Hu. }
    rewrite Hq. pose proof (key_held_back i (sticky_change (ke_keymap ke)) ke q L) as H1.
    eapply held_back_trans; [exact H1|]. apply keymap_held_back, H1.
  - by apply modifiers_held_back.
  - by apply keymap_held_back.
Qed.

(** C5.  While the session is locked the keyboard is contained, for any sequence
    of keys, modifier changes and keymap changes: under the locker's grab,
    whatever is typed, and under the default grab (no locker is there), whatever
    is typed that matches none of the plugin's, the shell's and libweston's own
    key bindings, no key event reaches a client, and a modifier update only
    together with a new keymap that is installed while modifiers are latched or
    locked; the grab stays. *)
Theorem locked_keyboard_contained (q : qdwin) (i : Z) (es : list input_event)
    (Hlocked : locked q = true)
    (Hgrab : (grab_of i q = overlay_grab /\ overlay_grab_role q = 2)
             \/ (grab_of i q = default_grab /\ Forall (unbound q) es)) :
  adds (lock_event i (existsb sticky_keymap es)) q (feed_all i q es)
  /\ grab_of i (feed_all i q es) = grab_of i q.
Proof.
  assert (Hk : lock_keyboard i q) by (split; [done|]; destruct Hgrab as [?|[??]]; auto).
  assert (Hu : grab_of i q = default_grab -> Forall (unbound q) es)
    by (destruct Hgrab as [[->]|[_ ?]]; done).
  clear Hlocked Hgrab. cut (held_back i (existsb sticky_keymap es) q (feed_all i q es)); [by intros []|].
  revert q Hk Hu. induction es as [|e es IH]; intros q Hk Hu; [by apply held_back_refl|].
  cbn [feed_all foldl existsb].
  assert (H1 : held_back i (sticky_keymap e) q (feed i q e)).
  { apply feed_contained; [done|]. intros Hg. by apply Hu, Forall_cons in Hg as [? _]. }
  eapply held_back_trans; [eapply held_back_weaken; [|exact H1]; by intros ->|].
  eapply held_back_weaken; [|apply IH].
  - intros ->. by rewrite orb_true_r.
  - apply H1.
  - rewrite (hb_grab _ _ _ _ H1). intros Hg. apply Hu, Forall_cons in Hg as [_ Hg].
    eapply Forall_impl; [exact Hg|]. intros [ke| |]; unfold unbound; [|done..].
    by rewrite (hb_bindings _ _ _ _ H1).
Qed.

Definition ex_tab : key_event := mk_key_event 15 true MODIFIER_ALT 65289 false None.
Definition ex_key : key_event := mk_key_event 30 true 0 97 false None.

Lemma locked_keyboard_contained_witness :
  adds (lock_event 1 false) ex_locked
    (feed_all 1 ex_locked [IKey ex_key; IModifiers true true; IKey ex_tab]).
Proof.
  refine (proj1 (locked_keyboard_contained ex_locked 1 [IKey ex_key; IModifiers true true; IKey ex_tab] _ _)).
  - vm_compute. reflexivity.
  - left. split; vm_compute; reflexivity.
Defined.

(** A new keymap that arrives while Caps Lock is on sends the modifiers to the
    focused desktop client although the session is locked. *)
Example keymap_change_leaks_modifiers :
  let q := weston_seat_update_keymap 1 (Some (keymap_installed None true)) ex_locked in
  locked q = true /\ head (events q) = Some (keymap_modifiers 1).
Proof. vm_compute. by split. Qed.

(** Attaching a launcher under an active grab only changes the grab's role. *)
Lemma attach_launcher_role r id s q :
  qdwin_shell_require_bound r q = true -> 17 <= res_version r -> oom q = false ->
  overlay_grab_active q = true -> keyboard_seat q ≠ None ->
  let q1 := qdwin_handle_attach_launcher r id (Some s) 0 q in
  overlay_grab_role q1 = 0 /\ seats q1 = seats q /\ shell_resource q1 = shell_resource q.
Proof.
  intros Hs Hv Hm Ha Hk. cbv zeta. unfold qdwin_handle_attach_launcher, shell_request.
  rewrite Hs. unfold weston_view_create. rewrite Hm. cbv zeta.
  destruct (Z.leb_spec 17 (res_version r)); [|lia]. cbn [Z.eqb andb].
  set (ln := mk_launcher _ _ _ _ _).
  set (qa := upd_field launchers _ _).
  assert (Hqa : seats qa = seats q /\ overlay_grab_active qa = true
                /\ shell_resource qa = shell_resource q) by by split_and!.
  clearbody qa ln. destruct Hqa as (H1 & H2 & H3).
  assert (Hp : seats (qdwin_launcher_place ln qa) = seats qa
               /\ overlay_grab_active (qdwin_launcher_place ln qa) = overlay_grab_active qa
               /\ shell_resource (qdwin_launcher_place ln qa) = shell_resource qa).
  { unfold qdwin_launcher_place. by repeat (split_match; try done). }
  revert Hp. generalize (qdwin_launcher_place ln qa). intros qp (P1 & P2 & P3).
  unfold qdwin_overlay_grab_start, keyboard_seat. rewrite P1, H1. unfold keyboard_seat in Hk.
  destruct (List.find has_keyboard (seats q)); [|done]. rewrite P2, H2.
  split_and!; [done| |]; cbn; congruence.
Qed.

(** A launcher attached while the session is locked takes the locker's
    keyboard grab over: the key presses that follow, the password included, go
    to the shell. *)
Theorem launcher_intercepts_lock_keys (q : qdwin) (r : wl_resource) (id i : Z) (s : Z * Z * Z)
    (ke : key_event)
    (Hlocked : locked q = true) (Hshell : qdwin_shell_require_bound r q = true)
    (Hversion : 17 <= res_version r) (Hmem : oom q = false)
    (Hactive : overlay_grab_active q = true) (Hgrab : grab_of i q = overlay_grab)
    (Hkeyboard : keyboard_seat q ≠ None) (Hpress : ke_pressed ke = true) (Hmap : ke_keymap ke = None) :
  let q1 := qdwin_handle_attach_launcher r id (Some s) 0 q in
  locked q1 = true
  /\ events (notify_key i ke q1) = shell_overlay_key 0 (ke_sym ke) :: events q1.
Proof.
  cbv zeta. split; [by rewrite (ls_flag q), Hlocked by apply lf_h_launcher|].
  destruct (attach_launcher_role r id s q Hshell Hversion Hmem Hactive Hkeyboard)
    as (H1 & H2 & H3). revert H1 H2 H3.
  generalize (qdwin_handle_attach_launcher r id (Some s) 0 q). intros q1 H1 H2 H3.
  assert (Hg : grab_of i q1 = overlay_grab) by (unfold grab_of in *; by rewrite H2).
  unfold notify_key. rewrite Hmap, Hg. rewrite bool_decide_eq_false_2 by done. cbn [weston_seat_update_keymap].
  unfold grab_key. rewrite Hg. unfold qdwin_overlay_grab_key. rewrite Hpress, H1, H3.
  unfold qdwin_shell_require_bound in Hshell.
  apply andb_prop in Hshell as [_ ->%bool_decide_eq_true]. done.
Qed.

Lemma launcher_intercepts_lock_keys_witness :
  let q1 := qdwin_handle_attach_launcher ex_shell_res 70 (Some (71, 400, 300)) 0 ex_locked in
  locked q1 = true
  /\ events (notify_key 1 ex_key q1) = shell_overlay_key 0 97 :: events q1.
Proof.
  apply (launcher_intercepts_lock_keys ex_locked ex_shell_res 70 1 (71, 400, 300) ex_key);
    try (vm_compute; reflexivity).
  - apply Z.leb_le. reflexivity.
  - apply (bool_decide_unpack _). vm_compute. exact I.
Defined.

Lemma grab_of_set i j g q :
  grab_of i (set_grab j g q) =
  match List.find (fun s => seat_id s =? i) (seats q) with
  | Some s => if j =? i then g else kbd_grab s
  | None => default_grab
  end.
Proof.
  unfold grab_of, set_grab, upd_seat. cbn [seats upd_field].
  induction (seats q) as [|s ss IH]; [done|]. cbn [map List.find].
  destruct (Z.eqb_spec (seat_id s) j) as [<-|Hj]; cbn [seat_id upd_field].
  - destruct (Z.eqb_spec (seat_id s) i) as [->|Hi]; [done|].
    exact IH.
  - destruct (Z.eqb_spec (seat_id s) i) as [<-|Hi]; [|exact IH].
    destruct (Z.eqb_spec j (seat_id s)); [congruence|done].
Qed.

(** *** Key bindings behind the lock *)

Lemma run_binding_miss i ke q b : binding_matches ke b = false -> run_binding i ke q b = q.
Proof. unfold run_binding. by intros ->. Qed.

Definition hotkey_bindings (hs : list hotkey) : list (Z * Z * key_binding) :=
  map (fun h => (hk_key h, qdwin_hotkey_mods_to_weston (hk_modifiers h),
                 hotkey_binding (hk_id h))) hs.

(** With a grab in force the hotkeys only notify the shell. *)
Lemma hotkeys_quiet i ke hs q :
  grab_of i q ≠ default_grab ->
  let q' := foldl (run_binding i ke) q (hotkey_bindings hs) in
  seats q' = seats q /\ shell_resource q' = shell_resource q
  /\ switcher_grab_active q' = switcher_grab_active q
  /\ adds (fun e => exists id, e = hotkey_pressed id) q q'.
Proof.
  cbv zeta. revert q. induction hs as [|h hs IH]; intros q Hg; cbn [hotkey_bindings map foldl].
  - by split_and!; [..|apply adds_refl].
  - set (b := (_, _, hotkey_binding (hk_id h))).
    assert (H1 : seats (run_binding i ke q b) = seats q
                 /\ shell_resource (run_binding i ke q b) = shell_resource q
                 /\ switcher_grab_active (run_binding i ke q b) = switcher_grab_active q
                 /\ adds (fun e => exists id, e = hotkey_pressed id) q (run_binding i ke q b)).
    { unfold run_binding. destruct (binding_matches ke b); [|by split_and!; [..|apply adds_refl]].
      cbv zeta. unfold b. cbn [snd binding_handler]. unfold qdwin_hotkey_handler.
      destruct (shell_resource q) eqn:Er.
      - rewrite bool_decide_eq_false_2 by exact Hg.
        split_and!; [done|exact Er|done|]. apply adds_emit; [by eauto|apply adds_refl].
      - rewrite bool_decide_eq_false_2 by exact Hg. by split_and!; [..|apply adds_refl]. }
    clearbody b. revert H1. generalize (run_binding i ke q b). intros q1 (A & B & C & D).
    destruct (IH q1) as (A' & B' & C' & D'); [unfold grab_of in *; by rewrite A|].
    unfold hotkey_bindings in *. split_and!; try congruence. by eapply adds_trans.
Qed.

(** The key is no chord of libweston's own. *)
Definition not_weston (ke : key_event) (q : qdwin) : Prop :=
  Forall (fun b => binding_matches ke b = false) (libweston_bindings q).

(** Only the binding of a chord [(k, m)] among the four of the plugin runs. *)
Lemma bindings_split i ke q :
  not_weston ke q ->
  weston_compositor_run_key_binding i ke q =
  if ke_pressed ke then
    foldl (run_binding i ke)
      (foldl (run_binding i ke) q
         [(KEY_SPACE, MODIFIER_CTRL, launcher_binding); (KEY_TAB, MODIFIER_ALT, switcher_binding);
          (KEY_TAB, Z.lor MODIFIER_ALT MODIFIER_SHIFT, switcher_binding);
          (KEY_L, Z.lor MODIFIER_CTRL MODIFIER_ALT, lock_binding)])
      (hotkey_bindings (rev (hotkeys (config q))))
  else q.
Proof.
  intros Hw. unfold weston_compositor_run_key_binding, key_binding_list. destruct (ke_pressed ke); [|done].
  by rewrite !foldl_app, (unbound_quiet i ke _ q Hw).
Qed.

Lemma alt_tab_bindings i ke q r :
  ke_pressed ke = true -> ke_key ke = KEY_TAB -> ke_mods ke = MODIFIER_ALT -> not_weston ke q ->
  shell_resource q = Some r -> switcher_grab_active q = false ->
  List.find (fun s => seat_id s =? i) (seats q) ≠ None ->
  let q1 := weston_compositor_run_key_binding i ke q in
  seats q1 = seats (set_grab i switcher_grab q) /\ shell_resource q1 = Some r.
Proof.
  intros Hp Hk Hm Hw Hr Hi Hs. cbv zeta. rewrite bindings_split, Hp by done. cbn [foldl].
  rewrite (run_binding_miss i ke q) by (unfold binding_matches; by rewrite Hk).
  set (q1 := run_binding i ke q _).
  assert (H1 : seats q1 = seats (set_grab i switcher_grab q) /\ shell_resource q1 = Some r
               /\ grab_of i q1 = switcher_grab).
  { assert (Hg : grab_of i (set_grab i switcher_grab q) = switcher_grab).
    { rewrite grab_of_set, Z.eqb_refl. by destruct (List.find _ (seats q)). }
    unfold q1, run_binding, binding_matches. rewrite Hk, Hm, !Z.eqb_refl. cbn [andb snd].
    cbv zeta. cbn [binding_handler]. unfold qdwin_on_switcher_key. rewrite Hr.
    unfold qdwin_switcher_grab_start. rewrite Hi. set (q0 := upd_field switcher_grab_active _ _).
    assert (Hq : seats q0 = seats q /\ shell_resource q0 = Some r) by by split.
    clearbody q0. destruct Hq as [Hq1 Hq2].
    assert (Hsame : seats (set_grab i switcher_grab q0) = seats (set_grab i switcher_grab q))
      by (unfold set_grab, upd_seat; cbn [seats upd_field]; by rewrite Hq1).
    assert (Hg0 : grab_of i (set_grab i switcher_grab q0) = switcher_grab)
      by (etransitivity; [|exact Hg]; unfold grab_of; by rewrite Hsame).
    rewrite Hg0, bool_decide_eq_false_2 by done. by split_and!. }
  clearbody q1. destruct H1 as (A & B & C).
  rewrite (run_binding_miss i ke q1) by (unfold binding_matches; by rewrite Hk, Hm).
  rewrite (run_binding_miss i ke q1) by (unfold binding_matches; by rewrite Hk).
  destruct (hotkeys_quiet i ke (rev (hotkeys (config q))) q1) as (A' & B' & _); [by rewrite C|].
  split; congruence.
Qed.

Lemma switcher_mods_leak i alt q s :
  grab_of i q = switcher_grab -> List.find (fun s => seat_id s =? i) (seats q) = Some s ->
  send_modifiers (kbd_focus s) ∈ events (notify_modifiers i alt false q).
Proof.
  intros Hg Hs. unfold notify_modifiers. cbv zeta. rewrite Hg.
  unfold qdwin_switcher_grab_modifiers, weston_keyboard_send_modifiers, with_seat. rewrite Hs.
  cbv zeta. destruct alt; [apply list_elem_of_here|]. rewrite switcher_end_events.
  destruct (shell_resource _); [|apply list_elem_of_here].
  apply list_elem_of_further, list_elem_of_here.
Qed.

(** In the window between a locker's crash and the next locker, when the
    default grab is in force, Alt+Tab starts the switcher grab although the
    session is locked, and that grab forwards every modifier change to the
    focused desktop client. *)
Theorem switcher_leaks_modifiers (q : qdwin) (i : Z) (s : seat) (ke : key_event) (alt : bool)
    (Hlocked : locked q = true) (Hseat : List.find (fun s => seat_id s =? i) (seats q) = Some s)
    (Hgrab : kbd_grab s = default_grab) (Hshell : shell_resource q ≠ None)
    (Hidle : switcher_grab_active q = false)
    (Htab : ke_pressed ke = true /\ ke_key ke = KEY_TAB /\ ke_mods ke = MODIFIER_ALT)
    (Hmap : ke_keymap ke = None) (Hweston : not_weston ke q) :
  let q1 := notify_key i ke q in
  locked q1 = true /\ send_modifiers (kbd_focus s) ∈ events (notify_modifiers i alt false q1).
Proof.
  cbv zeta. split; [by rewrite (ls_flag q), Hlocked by apply lf_notify_key|].
  destruct Htab as (Hp & Hk & Hm). unfold notify_key. rewrite Hmap. cbn [weston_seat_update_keymap].
  rewrite bool_decide_eq_true_2 by (unfold grab_of; by rewrite Hseat). cbv zeta.
  destruct (shell_resource q) as [r|] eqn:Er; [|done].
  destruct (alt_tab_bindings i ke q r) as [A B]; try done; [by rewrite Hseat|].
  revert A B. generalize (weston_compositor_run_key_binding i ke q). intros q1 A B.
  assert (Hg : forall q', seats q' = seats (set_grab i switcher_grab q) ->
               grab_of i q' = switcher_grab).
  { intros q' Hq. transitivity (grab_of i (set_grab i switcher_grab q)).
    - unfold grab_of. by rewrite Hq.
    - by rewrite grab_of_set, Hseat, Z.eqb_refl. }
  unfold grab_key. rewrite (Hg q1 A). unfold qdwin_switcher_grab_key. rewrite B, Hp, Hk.
  cbn [negb]. rewrite Z.eqb_refl.
  assert (Hf : exists s', List.find (fun s => seat_id s =? i) (seats q1) = Some s'
                          /\ kbd_focus s' = kbd_focus s).
  { rewrite A. unfold set_grab, upd_seat. cbn [seats upd_field].
    revert Hseat. generalize (seats q). induction l as [|t ts IH]; [done|]. cbn [List.find map].
    destruct (seat_id t =? i) eqn:Et; cbn [seat_id upd_field]; rewrite Et; [|exact IH].
    intros [= <-]. eauto. }
  destruct Hf as (s' & Hs' & <-). apply switcher_mods_leak; [by apply (Hg (emit _ q1))|exact Hs'].
Qed.

(** The locker crashed: the lock holds, the default grab is back. *)
Definition ex_crashed : qdwin := Eval vm_compute in run [LockerGone ex_locker_res] ex_locked.

Lemma switcher_leaks_modifiers_witness :
  let q1 := notify_key 1 ex_tab ex_crashed in
  locked q1 = true
  /\ exists f, send_modifiers f ∈ events (notify_modifiers 1 true false q1).
Proof.
  assert (H : exists s, List.find (fun s => seat_id s =? 1) (seats ex_crashed) = Some s
                        /\ kbd_grab s = default_grab)
    by (eexists; split; vm_compute; reflexivity).
  destruct H as (s & Hs & Hg).
  destruct (switcher_leaks_modifiers ex_crashed 1 s ex_tab true) as [H1 H2];
    try (vm_compute; reflexivity); try done.
  { apply (bool_decide_unpack _). vm_compute. exact I. }
  split; [exact H1|]. by exists (kbd_focus s).
Defined.

(** Apart from the switcher's, the handlers only send an event. *)
Lemma handler_emits i k b q :
  b ≠ switcher_binding -> b ≠ libweston_binding debug_binding ->
  binding_handler i k b q = q
  \/ exists e, binding_handler i k b q = emit e q /\ (forall d, e ≠ switcher_next d).
Proof.
  intros Hb Hd. destruct b as [| | | |b]; cbn [binding_handler]; try done.
  - unfold qdwin_on_launcher_key. destruct (shell_resource q); eauto.
  - unfold qdwin_on_lock_key. destruct (locker_resource q); [eauto|].
    destruct (shell_resource q) as [r|]; [|eauto]. destruct (7 <=? res_version r); eauto.
  - unfold qdwin_hotkey_handler. destruct (shell_resource q); eauto.
  - destruct b; cbn; [destruct (_ =? _)|..]; eauto. done.
Qed.

Lemma install_grab i k f q :
  seat_focus i q = Some f ->
  let q' := install_binding_grab i k (Some f) q in
  grab_of i q' = binding_grab k /\ seat_focus i q' = Some f.
Proof.
  intros Hf. cbv zeta. unfold install_binding_grab. cbv zeta.
  set (q1 := set_grab i (binding_grab k) q).
  assert (Hf1 : seat_focus i q1 = Some f)
    by (rewrite <- Hf; unfold q1, set_grab; by apply seat_focus_upd).
  assert (Hg : grab_of i q1 = binding_grab k).
  { unfold q1. rewrite grab_of_set, Z.eqb_refl. unfold seat_focus in Hf.
    by destruct (List.find _ (seats q)). }
  clearbody q1. rewrite Hf1, bool_decide_eq_true_2, !set_focus_grab by done. split; [exact Hg|].
  set (q2 := weston_keyboard_set_focus i None q1).
  assert (Hg2 : grab_of i q2 = binding_grab k) by (unfold q2; by rewrite set_focus_grab).
  clearbody q2. unfold grab_of in Hg2. destruct (List.find _ (seats q2)) as [s|] eqn:Es; [|done].
  by apply (set_focus_focus _ _ _ s).
Qed.

(** Ctrl+Alt+L leaves libweston's binding grab in force. *)
Lemma lock_chord_grab i ke q f :
  ke_pressed ke = true -> ke_key ke = KEY_L -> ke_mods ke = Z.lor MODIFIER_CTRL MODIFIER_ALT ->
  ke_keymap ke = None -> not_weston ke q -> grab_of i q = default_grab -> seat_focus i q = Some f ->
  let q1 := notify_key i ke q in grab_of i q1 = binding_grab KEY_L /\ seat_focus i q1 = Some f.
Proof.
  intros Hp Hk Hm Hn Hw Hg Hf. cbv zeta. unfold notify_key. rewrite Hn, Hg, bool_decide_eq_true_2 by done.
  cbn [weston_seat_update_keymap]. rewrite bindings_split, Hp by done. cbn [foldl].
  rewrite !(run_binding_miss i ke q) by (unfold binding_matches; by rewrite Hk).
  set (q1 := run_binding i ke q _).
  assert (H1 : grab_of i q1 = binding_grab KEY_L /\ seat_focus i q1 = Some f).
  { unfold q1, run_binding, binding_matches. rewrite Hk, Hm, !Z.eqb_refl. cbn [andb snd]. cbv zeta.
    rewrite Hf. destruct (handler_emits i KEY_L lock_binding q) as [->|(e & -> & _)]; [done|done| |].
    - rewrite Hg, bool_decide_eq_true_2 by done. by apply install_grab.
    - change (grab_of i (emit e q)) with (grab_of i q).
      rewrite Hg, bool_decide_eq_true_2 by done. by apply install_grab. }
  clearbody q1. destruct H1 as [A B].
  destruct (hotkeys_quiet i ke (rev (hotkeys (config q))) q1) as (C & _); [by rewrite A|].
  revert C. generalize (foldl (run_binding i ke) q1 (hotkey_bindings (rev (hotkeys (config q))))).
  intros q2 C. assert (A2 : grab_of i q2 = binding_grab KEY_L) by (etransitivity; [|exact A]; unfold grab_of; by rewrite C).
  assert (B2 : seat_focus i q2 = Some f) by (etransitivity; [|exact B]; unfold seat_focus; by rewrite C).
  unfold grab_key. rewrite A2. unfold binding_key. cbv zeta. by rewrite Hk, Z.eqb_refl, Hp.
Qed.

(** The lock chord opens the keyboard of a locked session: while no
    locker holds the keyboard, Ctrl+Alt+L makes libweston install its own grab
    behind the plugin's binding, and as long as the L key is down that grab,
    which knows nothing of the lock, delivers every other key to the focused
    desktop client. *)
Theorem lock_chord_leaks_keys (q : qdwin) (i f : Z) (ke ke2 : key_event)
    (Hlocked : locked q = true) (Hgrab : grab_of i q = default_grab)
    (Hfocus : seat_focus i q = Some f)
    (Hchord : ke_pressed ke = true /\ ke_key ke = KEY_L
              /\ ke_mods ke = Z.lor MODIFIER_CTRL MODIFIER_ALT)
    (Hmap : ke_keymap ke = None) (Hmap2 : ke_keymap ke2 = None) (Hweston : not_weston ke q)
    (Hkey : ke_key ke2 ≠ KEY_L) :
  let q2 := notify_key i ke2 (notify_key i ke q) in
  locked q2 = true /\ send_key (Some f) (ke_key ke2) (ke_pressed ke2) ∈ events q2.
Proof.
  cbv zeta. destruct Hchord as (Hp & Hk & Hm). split.
  - by rewrite (ls_flag (notify_key i ke q)), (ls_flag q), Hlocked by apply lf_notify_key.
  - destruct (lock_chord_grab i ke q f) as [A B]; try done. revert A B.
    generalize (notify_key i ke q). intros q1 A B. unfold notify_key.
    rewrite Hmap2. cbn [weston_seat_update_keymap]. rewrite A, bool_decide_eq_false_2 by done. cbv zeta. unfold grab_key. rewrite A.
    unfold binding_key. cbv zeta. destruct (Z.eqb_spec (ke_key ke2) KEY_L); [done|].
    rewrite B. apply list_elem_of_here.
Qed.

Lemma lock_chord_leaks_keys_witness :
  let q := notify_key 1 ex_key (notify_key 1 (mk_key_event 38 true 3 108 false None) ex_crashed) in
  locked q = true /\ send_key (Some 100) 30 true ∈ events q.
Proof.
  apply (lock_chord_leaks_keys ex_crashed 1 100 (mk_key_event 38 true 3 108 false None) ex_key);
    try (vm_compute; reflexivity).
  - split_and!; reflexivity.
  - apply (bool_decide_unpack _). vm_compute. exact I.
  - discriminate.
Defined.

(** *** The switcher after a lock *)

(** The switcher counts as active, the keyboard is not its. *)
Definition switcher_stuck (i : Z) (q0 q : qdwin) : Prop :=
  switcher_grab_active q = true
  /\ match grab_of i q with default_grab | binding_grab _ | debug_grab _ _ _ _ => True | _ => False end
  /\ adds (fun e => match e with switcher_next _ => False | _ => True end) q0 q.

Definition not_ours (g : keyboard_grab) : Prop :=
  match g with default_grab | binding_grab _ | debug_grab _ _ _ _ => True | _ => False end.
Lemma stuck_set_grab i g q0 q : not_ours g -> switcher_stuck i q0 q -> switcher_stuck i q0 (set_grab i g q).
Proof.
  intros Hn (A & B & C). split_and!; [exact A| |by eapply adds_quiet; [|exact C]].
  rewrite grab_of_set, Z.eqb_refl. by destruct (List.find _ (seats q)).
Qed.
Lemma stuck_emit i e q0 q :
  (forall d, e ≠ switcher_next d) -> switcher_stuck i q0 q -> switcher_stuck i q0 (emit e q).
Proof.
  intros He (A & B & C). split_and!; [exact A|exact B|]. apply adds_emit; [|exact C].
  destruct e; try done. by eapply He.
Qed.

Lemma stuck_install i k f q0 q :
  switcher_stuck i q0 q -> switcher_stuck i q0 (install_binding_grab i k f q).
Proof.
  intros (A & B & C). split_and!.
  - unfold install_binding_grab. cbv zeta. set (q1 := set_grab _ _ q).
    assert (H1 : switcher_grab_active q1 = true) by exact A. clearbody q1.
    destruct f; [|done]. destruct (bool_decide _); [|done].
    rewrite !(core_field switcher_grab_active _ _ ltac:(done) (core_set_focus _ _ _)). exact H1.
  - assert (Hg : forall q', (forall j, grab_of j q' = grab_of j (set_grab i (binding_grab k) q)) ->
             match grab_of i q' with default_grab | binding_grab _ | debug_grab _ _ _ _ => True | _ => False end).
    { intros q' Hq. rewrite Hq, grab_of_set, Z.eqb_refl. by destruct (List.find _ (seats q)). }
    unfold install_binding_grab. cbv zeta. destruct f; [|by apply Hg].
    destruct (bool_decide _); [|by apply Hg]. apply Hg. intros j. by rewrite !set_focus_grab.
  - eapply adds_trans; [exact C|]. by apply install_adds.
Qed.

Lemma stuck_binding i ke q0 q b :
  switcher_stuck i q0 q -> switcher_stuck i q0 (run_binding i ke q b).
Proof.
  intros H. unfold run_binding. destruct (binding_matches ke b); [|done]. cbv zeta.
  assert (H1 : switcher_stuck i q0 (binding_handler i (ke_key ke) (snd b) q)).
  { pose proof H as (A & B & C). destruct (decide (snd b = switcher_binding)) as [->|Hb].
    { cbn [binding_handler]. unfold qdwin_on_switcher_key, qdwin_switcher_grab_start. rewrite A.
      by destruct (shell_resource q). }
    destruct (decide (snd b = libweston_binding debug_binding)) as [->|Hd].
    - by apply stuck_set_grab.
    - destruct (handler_emits i (ke_key ke) (snd b) q Hb Hd) as [->|(e & -> & He)]; [done|].
      split_and!; [exact A|exact B|]. apply adds_emit; [|exact C]. destruct e; try done. by eapply He. }
  destruct (bool_decide _); [by apply stuck_install|done].
Qed.

Lemma stuck_bindings i ke q0 q l :
  switcher_stuck i q0 q -> switcher_stuck i q0 (foldl (run_binding i ke) q l).
Proof.
  revert q. induction l as [|b l IH]; intros q H; cbn [foldl]; [done|]. by apply IH, stuck_binding.
Qed.

Lemma stuck_grab_key i ke q0 q : switcher_stuck i q0 q -> switcher_stuck i q0 (grab_key i ke q).
Proof.
  intros H. pose proof H as (A & B & C). unfold grab_key.
  destruct (grab_of i q) as [| | |k|k0 k1 r0 r1] eqn:E; try done.
  - unfold qdwin_proxy_default_grab_key, with_seat. destruct (locked q); [done|].
    destruct (List.find _ (seats q)); [by apply stuck_emit|done].
  - unfold binding_key. cbv zeta. destruct (_ =? k); [destruct (ke_pressed ke)|]; [done| |by apply stuck_emit].
    apply stuck_emit; [done|]. by apply stuck_set_grab.
  - unfold debug_binding_key. cbv zeta. destruct (negb (ke_pressed ke)).
    + set (q1 := set_grab i (debug_grab _ _ _ _) q).
      assert (H1 : switcher_stuck i q0 q1) by by apply stuck_set_grab. clearbody q1.
      destruct (_ && _); [by apply stuck_set_grab|]. destruct (_ && _); [by apply stuck_emit|done].
    + destruct (_ && _); [done|]. destruct (negb _); [by apply stuck_emit|].
      case_bool_decide; [by apply stuck_set_grab|]. apply stuck_set_grab; [done|]. by apply stuck_emit.
Qed.
Lemma stuck_modifiers i alt tap q0 q : switcher_stuck i q0 q -> switcher_stuck i q0 (notify_modifiers i alt tap q).
Proof.
  intros H. unfold notify_modifiers. cbv zeta. set (q1 := if tap then _ else q).
  assert (H1 : switcher_stuck i q0 q1).
  { unfold q1, qdwin_on_alt_released. destruct tap; [|done].
    destruct (shell_resource q); [by apply stuck_emit|done]. }
  clearbody q1. pose proof H1 as (_ & B & _). destruct (grab_of i q1); try done.
  - unfold qdwin_proxy_default_grab_modifiers, weston_keyboard_send_modifiers, with_seat.
    destruct (locked q1); [done|]. destruct (List.find _ (seats q1)); [by apply stuck_emit|done].
  - by apply stuck_emit.
  - by apply stuck_emit.
Qed.
Lemma stuck_keymap i k q0 q : switcher_stuck i q0 q -> switcher_stuck i q0 (weston_seat_update_keymap i k q).
Proof.
  intros H. destruct k as [[|mods sticky]|]; try done. cbn.
  set (q2 := match mods with Some (alt, tap) => _ | None => _ end).
  assert (H2 : switcher_stuck i q0 q2).
  { unfold q2. destruct mods as [[alt tap]|]; [apply stuck_modifiers|]; by apply stuck_emit. }
  clearbody q2. destruct sticky; [by apply stuck_emit|done].
Qed.

Lemma stuck_key i ke q :
  switcher_grab_active q = true -> grab_of i q = default_grab ->
  switcher_stuck i q (notify_key i ke q).
Proof.
  intros Ha Hg. assert (H0 : switcher_stuck i q q) by (split_and!; [done|by rewrite Hg|apply adds_refl]).
  unfold notify_key. rewrite Hg, bool_decide_eq_true_2 by done. cbv zeta.
  assert (H1 : switcher_stuck i q (weston_compositor_run_key_binding i ke q)).
  { unfold weston_compositor_run_key_binding. destruct (ke_pressed ke); [|done].
    by apply stuck_bindings. }
  revert H1. generalize (weston_compositor_run_key_binding i ke q). intros q1 (A & B & C).
  apply stuck_keymap, stuck_grab_key. by split_and!.
Qed.

(** A switcher that is open when the session locks is never closed: its
    grab is replaced but still counts as active, so after the unlock Alt+Tab
    is dead.  The session below reaches that state, and from any such state no
    key starts the switcher again or tells the shell to advance it. *)
Theorem switcher_dead_after_lock :
  let q := run [Key 1 ex_tab; LockerSetLocked ex_locker_res 1;
                LockerSetLocked ex_locker_res 0] ex_session in
  (locked q = false /\ grab_of 1 q = default_grab /\ switcher_grab_active q = true)
  /\ forall q i ke,
     grab_of i q = default_grab -> switcher_grab_active q = true ->
     let q' := notify_key i ke q in
     grab_of i q' ≠ switcher_grab /\ switcher_grab_active q' = true
     /\ adds (fun e => match e with switcher_next _ => False | _ => True end) q q'.
Proof.
  cbv zeta. split; [vm_compute; done|]. intros q i ke Hg Ha.
  destruct (stuck_key i ke q Ha Hg) as (A & B & C). split_and!; [|exact A|exact C].
  intros E. by rewrite E in B.
Qed.

(** ** The locker's identity *)

Definition peer_recycled (p : procfs) (q : qdwin) : bool :=
  let now := qdwin_proc_starttime (locker_pid q) p in
  negb (locker_starttime q =? 0) && negb (now =? 0) && negb (now =? locker_starttime q).

Lemma peer_alive_spec p q r0 :
  locker_resource q = Some r0 -> 0 < locker_pid q ->
  qdwin_locker_peer_alive p q = negb (pid_gone p (locker_pid q)) && negb (peer_recycled p q).
Proof.
  intros Hb Hp. unfold qdwin_locker_peer_alive, peer_recycled. rewrite Hb.
  destruct (Z.leb_spec (locker_pid q) 0); [lia|].
  destruct (pid_gone p (locker_pid q)); [done|]. cbn [negb andb].
  destruct (locker_starttime q =? 0), (qdwin_proc_starttime (locker_pid q) p =? 0),
    (qdwin_proc_starttime (locker_pid q) p =? locker_starttime q); done.
Qed.

Lemma adopt_locker_fields r pid uid st b q :
  let q' := emit (locker_ready b) (adopt_locker r pid uid st q) in
  locker_resource q' = Some r /\ locker_pid q' = pid /\ locker_uid q' = uid
  /\ locked q' = locked q.
Proof. by split_and!. Qed.

Lemma overlay_start_fields n q :
  let q' := qdwin_overlay_grab_start n q in
  locker_resource q' = locker_resource q /\ locker_pid q' = locker_pid q
  /\ locker_uid q' = locker_uid q /\ locked q' = locked q.
Proof.
  cbv zeta. unfold qdwin_overlay_grab_start. destruct (keyboard_seat q); [|done].
  by destruct (overlay_grab_active q).
Qed.

(** Only one locker: while the bound locker's process lives (its pid
    exists and its start time is the recorded one or cannot be compared), a
    second client's [bind_as_locker] is refused with an error and changes
    nothing; once the process is gone or its pid recycled the newcomer takes
    the role. *)
Theorem locker_takeover (p : procfs) (q : qdwin) (r0 r : wl_resource) (pid uid : Z)
    (Hbound : locker_resource q = Some r0) (Hother : r ≠ r0) (Hpid : 0 < locker_pid q) :
  let q' := qdwin_handle_bind_as_locker p r pid uid q in
  (pid_gone p (locker_pid q) = false -> peer_recycled p q = false ->
   q' = emit (post_error (res_id r) LOCKER_PRESENT) q)
  /\ (pid_gone p (locker_pid q) = true \/ peer_recycled p q = true ->
      locker_resource q' = Some r /\ locker_pid q' = pid /\ locker_uid q' = uid
      /\ locked q' = locked q).
Proof.
  cbv zeta. unfold qdwin_handle_bind_as_locker. rewrite Hbound.
  rewrite bool_decide_eq_false_2 by congruence. cbv zeta.
  rewrite (peer_alive_spec p q r0 Hbound Hpid). split; [by intros -> ->|]. intros Hdead.
  assert (Hd : negb (pid_gone p (locker_pid q)) && negb (peer_recycled p q) = false).
  { destruct Hdead as [->| ->]; [done|apply andb_false_r]. }
  rewrite Hd. pose proof (ls_flag q _ (lf_locker_destroy r0 q)) as Hl. revert Hl.
  generalize (qdwin_locker_resource_destroy r0 q). intros qd Hl.
  pose proof (adopt_locker_fields r pid uid (qdwin_proc_starttime pid p) (locked qd) qd) as He.
  revert He. cbv zeta. generalize (emit (locker_ready (locked qd))
    (adopt_locker r pid uid (qdwin_proc_starttime pid p) qd)). intros qe (E1 & E2 & E3 & E4).
  destruct (locked qe) eqn:Eq; [|split_and!; congruence].
  destruct (overlay_start_fields 2 qe) as (F1 & F2 & F3 & F4). split_and!; congruence.
Qed.

Definition ex_rogue : wl_resource := mk_resource 601 1 55.
Lemma locker_takeover_witness :
  qdwin_handle_bind_as_locker ex_procfs ex_rogue 777 1000 ex_session
  = emit (post_error 601 LOCKER_PRESENT) ex_session.
Proof.
  apply (locker_takeover ex_procfs ex_session ex_locker_res ex_rogue 777 1000);
    (vm_compute; reflexivity) || (intros [=]).
Defined.

(** The bind gate under an entrypoint policy, the default: a client gets
    a locker object only if it runs under the permitted uid outside any
    security context, its executable is a system [python], its first argument
    resolves to one of the expected launchers, a regular file that belongs to
    root and that nobody else may write, and its pid named one process across
    the checks. *)
Theorem locker_gate (before during after : procfs) (client pid uid version id : Z) (q : qdwin)
    (res : wl_resource) (entry : string)
    (Hpolicy : allowed_locker_entrypoint q = Some entry)
    (Hok : fst (bind_qdwin_locker before during after client pid uid version id q) = Some res) :
  uid = allowed_locker_uid q /\ (client ∉ secctx_clients q)
  /\ qdwin_proc_starttime pid before = qdwin_proc_starttime pid after
  /\ qdwin_proc_starttime pid before <> 0
  /\ (exists dir rest, dir ∈ trusted_dirs
      /\ qdwin_proc_exe pid during = (dir ++ "python" ++ rest)%string /\ lacks "/"%char rest)
  /\ (exists rc tok st, fs_realpath during (qdwin_proc_argv1 pid during) = Some rc
      /\ tok ∈ tokens entry /\ fs_realpath during tok = Some rc
      /\ fs_stat during rc = Some st /\ st_is_reg st = true /\ st_uid st = 0
      /\ has_bits (st_mode st) (Z.lor S_IWGRP S_IWOTH) = false).
Proof.
  unfold bind_qdwin_locker in Hok.
  destruct (bool_decide (client ∈ secctx_clients q)) eqn:Es; [done|].
  destruct (Z.eqb_spec uid (allowed_locker_uid q)) as [Hu|]; cbn [negb] in Hok; [|done].
  destruct (locker_identity_ok before during after pid q) eqn:Ei; cbn [negb] in Hok; [|done].
  unfold locker_identity_ok in Ei. rewrite Hpolicy in Ei. cbv zeta in Ei. zbool.
  apply bool_decide_eq_false in Es. split_and!; try done.
  - by apply system_interpreter_spec.
  - by apply trusted_entrypoint_spec.
Qed.

Lemma locker_gate_witness :
  fst (bind_qdwin_locker ex_procfs ex_procfs ex_procfs 8 42 1000 1 600 ex_session)
  = Some (mk_resource 600 1 8)
  /\ 8 ∉ secctx_clients ex_session.
Proof.
  assert (H : fst (bind_qdwin_locker ex_procfs ex_procfs ex_procfs 8 42 1000 1 600 ex_session)
              = Some (mk_resource 600 1 8)) by (vm_compute; reflexivity).
  split; [exact H|].
  exact (proj1 (proj2 (locker_gate ex_procfs ex_procfs ex_procfs 8 42 1000 1 600 ex_session
           (mk_resource 600 1 8) QDWIN_DEFAULT_LOCKER_ENTRYPOINT eq_refl H))).
Defined.

(** ** Hotplug while locked *)

Lemma refresh_background_curtain q : lock_curtain (qdwin_refresh_background q) = lock_curtain q.
Proof.
  unfold qdwin_refresh_background. destruct (foldl grow_extent (0, 0) (outputs q)) as [mx my].
  destruct (_ || _); [done|]. cbv zeta. unfold weston_view_create.
  destruct (background q); cbn [oom]; by destruct (oom _).
Qed.

Lemma chrome_curtain h q : lock_curtain (qdwin_toplevel_position_chrome h q) = lock_curtain q.
Proof.
  destruct (qdwin_toplevel_from_handle h q) as [tl|] eqn:E.
  - destruct (position_chrome_moved _ _ _ E) as [-> _]. done.
  - unfold qdwin_toplevel_position_chrome, with_tl. by rewrite E.
Qed.

Lemma inset_curtain h q : lock_curtain (qdwin_toplevel_apply_inset h q) = lock_curtain q.
Proof.
  unfold qdwin_toplevel_apply_inset, with_tl. by repeat (split_match; try done).
Qed.

Lemma panel_place_curtain p q : lock_curtain (qdwin_panel_place p q) = lock_curtain q.
Proof.
  unfold qdwin_panel_place. destruct (p_output p) as [i|]; [|done].
  destruct (out_by_id i q); [|done]. destruct (p_view p =? NULL_VIEW); [done|]. cbv zeta.
  unfold qdwin_panel_send_geometry. by repeat (split_match; try done).
Qed.

Lemma foldl_curtain {A} (f : qdwin -> A -> qdwin) l q :
  (forall q a, lock_curtain (f q a) = lock_curtain q) -> lock_curtain (foldl f q l) = lock_curtain q.
Proof. intros H. revert q. induction l as [|a l IH]; intros q; cbn; [done|]. by rewrite IH, H. Qed.

Lemma panels_change_curtain q :
  lock_curtain (qdwin_panels_on_output_change q) = lock_curtain q.
Proof.
  unfold qdwin_panels_on_output_change. cbv zeta. rewrite foldl_curtain; [apply foldl_curtain|].
  - intros q1 p. unfold assign_panel_output. destruct (p_output p); [apply panel_place_curtain|].
    destruct (qdwin_primary_output q1); [|done]. cbv zeta. by rewrite panel_place_curtain.
  - intros q1 tl. unfold reflow_maximized. destruct (negb _); [done|].
    destruct (qdwin_primary_output q1) as [out|]; [|done]. cbv zeta.
    by rewrite chrome_curtain, inset_curtain.
Qed.

(** The hotplug handlers leave the lock curtain as it is: an output that
    appears or grows beyond the box the curtain was installed for stays
    uncovered while the session is locked. *)
Theorem hotplug_keeps_curtain (q : qdwin) (c : curtain) (o : output)
    (Hlocked : locked q = true) (Hcurtain : lock_curtain q = Some c)
    (Hout : ~ box_covers (c_x c, c_y c, c_x c + c_width c, c_y c + c_height c) o) :
  let q1 := qdwin_on_output_changed o q in
  let q2 := qdwin_on_output_resized o q in
  (locked q1 = true /\ o ∈ outputs q1 /\ lock_curtain q1 = Some c)
  /\ (locked q2 = true /\ lock_curtain q2 = Some c).
Proof.
  cbv zeta. unfold qdwin_on_output_changed, qdwin_on_output_resized.
  set (qa := upd_field outputs (fun l => l ++ [o]) q). set (qb := upd_field outputs _ q).
  assert (Ha : locked qa = true /\ lock_curtain qa = Some c /\ o ∈ outputs qa).
  { split_and!; [done|done|]. apply elem_of_app. right. apply list_elem_of_here. }
  assert (Hb : locked qb = true /\ lock_curtain qb = Some c) by by split.
  clearbody qa qb. destruct Ha as (A1 & A2 & A3), Hb as [B1 B2].
  assert (Hf : forall q0, lock_same q0 (qdwin_panels_on_output_change (qdwin_refresh_background q0))).
  { intros q0. repeat lf_step. }
  assert (Hc : forall q0, lock_curtain (qdwin_panels_on_output_change (qdwin_refresh_background q0))
                          = lock_curtain q0).
  { intros q0. by rewrite panels_change_curtain, refresh_background_curtain. }
  pose proof (Hf qa) as Fa. pose proof (Hc qa) as Ca. revert Fa Ca.
  generalize (qdwin_panels_on_output_change (qdwin_refresh_background qa)). intros q1 Fa Ca.
  split; [|split; [by rewrite (ls_flag _ _ (Hf qb))|by rewrite Hc]].
  unfold shell_send. assert (H1 : locked q1 = true /\ o ∈ outputs q1 /\ lock_curtain q1 = Some c).
  { rewrite (ls_flag _ _ Fa), (ls_outputs _ _ Fa), Ca. done. }
  by destruct (shell_version_ge 2 q1).
Qed.

Lemma hotplug_keeps_curtain_witness :
  let o := mk_output 3 1920 0 1024 768 false "DP-3" in
  exists c, lock_curtain ex_locked = Some c
    /\ lock_curtain (qdwin_on_output_changed o ex_locked) = Some c.
Proof.
  cbv zeta. destruct (lock_curtain ex_locked) as [c|] eqn:E; [|discriminate E].
  exists c. split; [done|].
  assert (Hc : c_x c + c_width c = 1920) by (injection E as <-; reflexivity).
  apply (hotplug_keeps_curtain ex_locked c (mk_output 3 1920 0 1024 768 false "DP-3"));
    [reflexivity|exact E|].
  unfold box_covers. cbn [out_x out_y out_width out_height]. lia.
Defined.
