(* ===== verification/SessionFacts.v ===== *)
(** * SessionFacts: properties of the life cycle of windows

    The XWayland configure loop, decorations, removal of a window and the
    shell role. *)

From stdpp Require Import base list gmap strings option.
From S2P Require Import Prelude Logic Scene Procfs State Toplevel ToplevelFacts Dependents.
From S2P Require Import Focus Placement Lock Config Clipboard Activation Workspace Session.
Import Geometry.
From stdpp Require Import list.

#[local] Open Scope Z_scope.

(** ** The XWayland configure loop *)

(** The window after a commit of [d], and after a sequence of commits, with
    the corrective configures sent. *)
Definition commit_feedback (d : desktop_surface) (tl : toplevel) : toplevel * option (Z * Z) :=
  xwayland_feedback d (tl <| desktop := Some d |>).

Fixpoint feedback_run (ds : list desktop_surface) (tl : toplevel) : toplevel * list (Z * Z) :=
  match ds with
  | [] => (tl, [])
  | d :: ds =>
      let (tl1, c) := commit_feedback d tl in
      let (tl2, cs) := feedback_run ds tl1 in
      (tl2, match c with Some x => x :: cs | None => cs end)
  end.

Lemma learn_corrections d tl :
  xwayland_corrections (learn_frame d tl) = xwayland_corrections tl.
Proof. unfold learn_frame. by destruct (actual_size d). Qed.

Lemma learn_fields d tl :
  xwayland_target_w (learn_frame d tl) = xwayland_target_w tl
  /\ xwayland_target_h (learn_frame d tl) = xwayland_target_h tl
  /\ xwayland_configure_pending (learn_frame d tl) = xwayland_configure_pending tl.
Proof. unfold learn_frame. by destruct (actual_size d). Qed.

Lemma commit_feedback_step d tl :
  let '(tl1, c) := commit_feedback d tl in
  match c with
  | Some _ => xwayland_corrections tl1 = xwayland_corrections tl + 1
              /\ xwayland_corrections tl < 3
  | None => xwayland_corrections tl1 = xwayland_corrections tl
  end.
Proof.
  unfold commit_feedback. set (t := tl <| desktop := Some d |>).
  change (xwayland_corrections tl) with (xwayland_corrections t). clearbody t.
  unfold xwayland_feedback. destruct (negb _); [done|].
  destruct (actual_size d) as [aw ah] eqn:Ea. destruct (_ && _); [done|]. cbv zeta.
  pose proof (learn_corrections d t) as Hl. revert Hl. generalize (learn_frame d t). intros t1 Hl.
  destruct (_ && _); [exact Hl|].
  destruct (Z.ltb_spec (xwayland_corrections t1) 3); [|exact Hl].
  rewrite <- Hl. split; [|done]. unfold note_correction. cbn. lia.
Qed.

(** C14.  Whatever sizes an XWayland client commits, a configure request is
    followed by at most three corrective ones: the loop cannot run away.  And
    a commit at the target size ends it. *)
Theorem xwayland_corrections_bounded (ds : list desktop_surface) (tl : toplevel)
    (Hstart : 0 <= xwayland_corrections tl <= 3) :
  Z.of_nat (length (snd (feedback_run ds tl))) <= 3 - xwayland_corrections tl
  /\ (forall d, qdwin_toplevel_is_xwayland (tl <| desktop := Some d |>) = true ->
      actual_size d = (xwayland_target_w tl, xwayland_target_h tl) ->
      actual_size d <> (xwayland_before_w tl, xwayland_before_h tl) ->
      xwayland_configure_pending (fst (commit_feedback d tl)) = false
      /\ snd (commit_feedback d tl) = None).
Proof.
  split.
  - revert tl Hstart. induction ds as [|d ds IH]; intros tl Hs; cbn [feedback_run]; [cbn; lia|].
    pose proof (commit_feedback_step d tl) as Hc. destruct (commit_feedback d tl) as [tl1 c].
    specialize (IH tl1). destruct (feedback_run ds tl1) as [tl2 cs]. cbn [snd] in *.
    destruct c as [x|]; cbn [length]; lia.
  - intros d Hx Ht Hb. unfold commit_feedback, xwayland_feedback. rewrite Hx, andb_true_r.
    change (xwayland_configure_pending (tl <| desktop := Some d |>))
      with (xwayland_configure_pending tl).
    destruct (xwayland_configure_pending tl) eqn:Ep; cbn [negb]; [|done].
    rewrite Ht. set (t := tl <| desktop := Some d |>).
    assert (Hbf : xwayland_before_w t = xwayland_before_w tl
                  /\ xwayland_before_h t = xwayland_before_h tl) by done.
    destruct (learn_fields d t) as (L1 & L2 & _).
    change (xwayland_target_w t) with (xwayland_target_w tl) in L1.
    change (xwayland_target_h t) with (xwayland_target_h tl) in L2. clearbody t.
    destruct Hbf as [-> ->]. rewrite Ht in Hb.
    destruct (_ && _) eqn:E; [exfalso; zbool; apply Hb; congruence|].
    cbv zeta. rewrite L1, L2, !Z.eqb_refl. done.
Qed.

Definition ex_x11 : desktop_surface :=
  mk_dsurf 100 864 664 true 800 600 None 0 0 None true "" "x" "xterm".
Definition ex_x11_tl : toplevel :=
  note_configure ex_x11 (ex_toplevel <| desktop := Some ex_x11 |> <| outer_width := 1204 |>
                                     <| outer_height := 826 |>).

Lemma xwayland_corrections_bounded_witness :
  Z.of_nat (length (snd (feedback_run (repeat ex_x11 5) ex_x11_tl))) <= 3.
Proof.
  refine (proj1 (xwayland_corrections_bounded (repeat ex_x11 5) ex_x11_tl _)).
  split; vm_compute; discriminate.
Defined.

Lemma note_configure_fields d t :
  ds_xwayland d = true ->
  xwayland_configure_pending (note_configure d t) = true
  /\ xwayland_corrections (note_configure d t) = 0
  /\ xwayland_before_w (note_configure d t) = pos_or (ds_geometry_w d) (ds_width d).
Proof.
  intros Hx. unfold note_configure. rewrite Hx. split_and!; reflexivity.
Qed.

Lemma note_correction_count d t :
  xwayland_corrections (note_correction d t) = Z.succ (xwayland_corrections t).
Proof. reflexivity. Qed.

Lemma set_desktop_fields d t :
  xwayland_configure_pending (t <| desktop := Some d |>) = xwayland_configure_pending t
  /\ xwayland_corrections (t <| desktop := Some d |>) = xwayland_corrections t
  /\ xwayland_before_w (t <| desktop := Some d |>) = xwayland_before_w t
  /\ qdwin_toplevel_is_xwayland (t <| desktop := Some d |>)
     = negb (is_nested_proxy t) && ds_xwayland d.
Proof. by split_and!. Qed.

(** A pending configure whose recorded width is not the surface's is answered
    by any commit. *)
Lemma feedback_answers d t :
  xwayland_configure_pending t = true -> qdwin_toplevel_is_xwayland t = true ->
  xwayland_corrections t = 0 -> 0 < ds_width d -> ds_width d <> xwayland_before_w t ->
  xwayland_configure_pending (fst (xwayland_feedback d t)) = false
  \/ xwayland_corrections (fst (xwayland_feedback d t)) = 1.
Proof.
  intros Q1 Q4 Q2 Hs Hne. unfold xwayland_feedback. rewrite Q1, Q4. cbn [andb negb].
  destruct (actual_size d) as [aw ah] eqn:Ea. unfold actual_size, pos_or in Ea.
  destruct (Z.ltb_spec 0 (ds_width d)); [|lia]. injection Ea as <- _.
  destruct (Z.eqb_spec (ds_width d) (xwayland_before_w t)); [done|]. cbn [andb]. cbv zeta.
  pose proof (learn_corrections d t) as Hc. rewrite Q2 in Hc. revert Hc.
  generalize (learn_frame d t). intros t3 Hc. destruct (_ && _); [by left|].
  rewrite Hc. right. cbn [fst Z.ltb Z.compare]. by rewrite note_correction_count, Hc.
Qed.

(** The loop takes an unrelated commit for the client's response: the
    size recorded before the configure is that of the window geometry, the one
    compared afterwards that of the surface, so for a client whose surface
    exceeds its geometry (a shadow, a frame) a commit that changes nothing at
    all already counts as the answer. *)
Theorem xwayland_stale_commit (d : desktop_surface) (tl : toplevel)
    (Hx : ds_xwayland d = true) (Hp : is_nested_proxy tl = false)
    (Hs : 0 < ds_width d) (Hg : 0 < ds_geometry_w d) (Hshadow : ds_width d <> ds_geometry_w d) :
  let tl1 := note_configure d tl in
  let tl2 := fst (commit_feedback d tl1) in
  xwayland_configure_pending tl1 = true
  /\ (xwayland_configure_pending tl2 = false \/ xwayland_corrections tl2 = 1).
Proof.
  cbv zeta. destruct (note_configure_fields d tl Hx) as (P1 & P2 & P3).
  assert (P4 : is_nested_proxy (note_configure d tl) = false).
  { destruct (frame_note d tl) as (_ & _ & _ & -> & _). exact Hp. }
  revert P1 P2 P3 P4. generalize (note_configure d tl). intros t P1 P2 P3 P4. split; [done|].
  destruct (set_desktop_fields d t) as (Q1 & Q2 & Q3 & Q4).
  apply feedback_answers; [congruence|by rewrite Q4, P4, Hx|congruence|done|].
  rewrite Q3, P3. unfold pos_or. destruct (Z.ltb_spec 0 (ds_geometry_w d)); [done|lia].
Qed.

Lemma xwayland_stale_commit_witness :
  xwayland_configure_pending (fst (commit_feedback ex_x11 ex_x11_tl)) = false
  \/ xwayland_corrections (fst (commit_feedback ex_x11 ex_x11_tl)) = 1.
Proof.
  refine (proj2 (xwayland_stale_commit ex_x11
    (ex_toplevel <| desktop := Some ex_x11 |> <| outer_width := 1204 |> <| outer_height := 826 |>)
    _ _ _ _ _)); (reflexivity || (intros [=])).
Defined.

(** ** Decorations *)

Lemma detach_frame h side q :
  let q' := qdwin_chrome_detach h side q in
  oom q' = oom q /\ layer_list (the_scene q') = layer_list (the_scene q)
  /\ active_workspace q' = active_workspace q.
Proof.
  cbv zeta. unfold qdwin_chrome_detach, with_tl.
  destruct (qdwin_toplevel_from_handle h q) as [tl|]; [|done]. cbv zeta.
  destruct (ch_surface _); [|done]. by destruct (ch_view _).
Qed.

(** Decorating a minimised window shows its decoration: a chrome surface
    attached while the window is minimised lands on the normal layer, mapped,
    although the window itself is on the minimised layer. *)
Theorem chrome_of_minimized_shows (q : qdwin) (h : Z) (tl : toplevel) (side : nat)
    (id w ht : Z)
    (Htl : qdwin_toplevel_from_handle h q = Some tl) (Hdec : decorated tl = true)
    (Hmin : ts_has (state tl) QDWIN_TS_MINIMIZED = true)
    (Hws : workspace tl = active_workspace q) (Hmem : oom q = false)
    (Hnew : ch_surface (chrome_at tl side) = None)
    (Hopen : layer_is_visible normal_layer (the_scene q) = true) :
  let q' := qdwin_chrome_attach_side h side (Some (id, w, ht)) q in
  let v := next_view (qdwin_chrome_detach h side q) in
  view_layer v (the_scene q') = Some normal_layer
  /\ weston_view_is_mapped v (the_scene q') = true.
Proof.
  cbv zeta. unfold qdwin_chrome_attach_side, with_tl. rewrite Htl. cbv zeta.
  rewrite Hnew. cbn [andb]. destruct (detach_frame h side q) as (D1 & D2 & D3).
  revert D1 D2 D3. generalize (qdwin_chrome_detach h side q). intros q1 D1 D2 D3.
  unfold weston_view_create. rewrite D1, Hmem.
  set (qv := upd_field next_view Z.succ q1).
  assert (Hv : layer_list (the_scene qv) = layer_list (the_scene q)
               /\ active_workspace qv = active_workspace q) by by split.
  set (qc := upd_chrome h side _ qv).
  assert (Hc : the_scene qc = the_scene qv) by done. clearbody qc.
  assert (Hl : chrome_layer tl qv = normal_layer).
  { unfold chrome_layer. rewrite Hdec, Hws. destruct Hv as [_ ->]. by rewrite Z.eqb_refl. }
  rewrite Hl. clearbody qv. destruct Hv as [Hv _].
  change (the_scene (on_scene (weston_view_move_to_layer (next_view q1) normal_layer) qc))
    with (weston_view_move_to_layer (next_view q1) normal_layer (the_scene qc)).
  split.
  - rewrite view_layer_move, decide_True by done. done.
  - unfold weston_view_is_mapped. rewrite view_entry_move_eq. cbn [ve_mapped].
    unfold layer_is_visible in *. by rewrite Hc, Hv.
Qed.

Definition ex_min : qdwin := Eval vm_compute in qdwin_toplevel_set_minimized 1 ex_qdwin.
Definition ex_min_tl : toplevel :=
  Eval vm_compute in default ex_toplevel (qdwin_toplevel_from_handle 1 ex_min).

Lemma chrome_of_minimized_shows_witness :
  view_layer 11 (the_scene ex_min) = Some minimized_layer
  /\ view_layer 12 (the_scene (qdwin_chrome_attach_side 1 QDWIN_SIDE_N (Some (70, 304, 24)) ex_min))
     = Some normal_layer.
Proof.
  split; [vm_compute; reflexivity|].
  refine (proj1 (chrome_of_minimized_shows ex_min 1 ex_min_tl QDWIN_SIDE_N 70 304 24
                   _ _ _ _ _ _ _)); vm_compute; reflexivity.
Defined.

(** ** Removal of a window *)

Lemma destroy_views_entries vs s :
  entries (destroy_views vs s) = filter (fun e => ve_view e ∉ vs) (entries s).
Proof.
  revert s. induction vs as [|v vs IH]; intros s; cbn [destroy_views foldl].
  - induction (entries s) as [|e es IHe]; [done|]. rewrite filter_cons, decide_True.
    + by rewrite <- IHe.
    + apply not_elem_of_nil.
  - unfold destroy_views in IH. rewrite IH. unfold weston_view_destroy.
    change (entries (upd_field entries ?f ?x)) with (unlink_view v (entries s)).
    induction (entries s) as [|e es IHe]; [done|]. unfold unlink_view in *.
    rewrite (filter_cons _ e es). rewrite (filter_cons (fun e => ve_view e ∉ v :: vs)).
    destruct (decide (ve_view e ≠ v)) as [Hv|Hv].
    + rewrite filter_cons. destruct (decide (ve_view e ∉ vs)) as [Hn|Hn].
      * rewrite decide_True by (apply not_elem_of_cons; done). by rewrite IHe.
      * rewrite decide_False by (rewrite not_elem_of_cons; tauto). by rewrite IHe.
    + rewrite decide_False by (rewrite not_elem_of_cons; tauto). exact IHe.
Qed.

Lemma destroyed_view vs s v : v ∈ vs -> view_layer v (destroy_views vs s) = None.
Proof.
  intros Hv. unfold view_layer, view_entry. rewrite destroy_views_entries.
  induction (entries s) as [|e es IH]; [done|]. rewrite filter_cons.
  destruct (decide (ve_view e ∉ vs)); [|done].
  rewrite filter_cons, decide_False by congruence. done.
Qed.

Lemma find_filter_none {A} (f : A -> bool) (l : list A) :
  List.find f (List.filter (fun x => negb (f x)) l) = None.
Proof.
  induction l as [|x l IH]; [done|]. cbn. destruct (f x) eqn:E; cbn; [done|]. by rewrite E.
Qed.

(** The invariants of popups and streams: one popup per window, distinct
    identities, and a released stream is off the list. *)
Definition popups_ok (q : qdwin) : Prop :=
  NoDup (pp_parent <$> popups q) /\ NoDup (pp_id <$> popups q).
Definition streams_ok (q : qdwin) : Prop :=
  NoDup (vs_id <$> streams q)
  /\ Forall (fun s => vs_released s = true -> vs_listed s = false) (streams q).

Lemma dismiss_popup_gone h q : popups_ok q -> popup_of h (dismiss_popup h q) = None.
Proof.
  intros [Hp Hi]. unfold dismiss_popup. destruct (popup_of h q) as [p|] eqn:E; [|done].
  unfold popup_of in *. unfold qdwin_popup_teardown.
  set (q1 := if pp_view p =? NULL_VIEW then _ else _).
  assert (H1 : popups q1 = popups q) by (unfold q1; by destruct (pp_view p =? NULL_VIEW)).
  clearbody q1. cbn [popups upd_field]. rewrite H1. clear H1 q1.
  revert E Hp Hi. induction (popups q) as [|x xs IH]; [done|]. cbn [List.find].
  rewrite !fmap_cons, !NoDup_cons. destruct (Z.eqb_spec (pp_parent x) h) as [Hx|Hx].
  - intros [= ->] [Hp _] [Hi _]. cbn [List.filter]. rewrite Z.eqb_refl. cbn [negb].
    clear IH. subst h.
    induction xs as [|y ys IHy]; [done|]. rewrite fmap_cons in Hp, Hi.
    apply not_elem_of_cons in Hp as [Hp1 Hp2]. apply not_elem_of_cons in Hi as [Hi1 Hi2].
    cbn [List.filter]. destruct (Z.eqb_spec (pp_id y) (pp_id p)); [congruence|]. cbn [negb List.find].
    destruct (Z.eqb_spec (pp_parent y) (pp_parent p)); [congruence|]. by apply IHy.
  - intros E [_ Hp] [_ Hi]. cbn [List.filter]. destruct (negb _).
    + cbn [List.find]. destruct (Z.eqb_spec (pp_parent x) h); [done|]. by apply IH.
    + by apply IH.
Qed.

(** What ending a stream leaves alone. *)
Record stream_frame (q q' : qdwin) : Prop := {
  sf_lock : lock_toplevel q' = lock_toplevel q;
  sf_move : move_grab_active q' = move_grab_active q /\ move_grab_handle q' = move_grab_handle q;
  sf_popups : popups q' = popups q;
  sf_toplevels : toplevels q' = toplevels q;
  sf_scene : the_scene q' = the_scene q
}.

Lemma stream_frame_refl q : stream_frame q q.
Proof. by split. Qed.
Lemma stream_frame_trans q1 q2 q3 :
  stream_frame q1 q2 -> stream_frame q2 q3 -> stream_frame q1 q3.
Proof. intros [? [? ?] ? ? ?] [? [? ?] ? ? ?]. split; [|split|..]; congruence. Qed.

Lemma unpin_frame s q :
  stream_frame q (qdwin_view_stream_unpin s q)
  /\ streams (qdwin_view_stream_unpin s q) =
     (if vs_pinned s then streams (upd_stream (vs_id s) (fun s => s <| vs_pinned := false |>) q)
      else streams q).
Proof.
  unfold qdwin_view_stream_unpin. destruct (vs_pinned s); cbn [negb]; [|by split].
  cbv zeta. set (q1 := upd_stream _ _ q).
  assert (H1 : stream_frame q q1) by by split.
  clearbody q1. destruct (vs_tl s) as [h|]; [|done]. unfold with_tl.
  destruct (qdwin_toplevel_from_handle h q1) as [tl|] eqn:E; [|done].
  destruct (view tl =? NULL_VIEW); [done|].
  set (q2 := weston_view_set_position _ _ _ q1).
  assert (E2 : qdwin_toplevel_from_handle h q2 = Some tl) by by rewrite <- E.
  assert (H2 : stream_frame q1 q2 /\ streams q2 = streams q1) by by split.
  clearbody q2. destruct H2 as [H2 S2].
  destruct (position_chrome_moved _ _ _ E2) as [-> _]. split; [|done].
  eapply stream_frame_trans; [exact H1|]. eapply stream_frame_trans; [exact H2|]. by split.
Qed.

(** A listed stream of [q'] was a listed stream of [q] with the same source,
    other than [i]. *)
Definition still_listed (i : Z) (q q' : qdwin) : Prop :=
  forall t, t ∈ streams q' -> vs_listed t = true ->
  exists t0, t0 ∈ streams q /\ vs_listed t0 = true /\ vs_tl t0 = vs_tl t /\ vs_id t0 = vs_id t
             /\ vs_id t ≠ i.

Lemma upd_stream_inv i f q t :
  t ∈ streams (upd_stream i f q) ->
  exists t0, t0 ∈ streams q /\ t = (if vs_id t0 =? i then f t0 else t0).
Proof.
  unfold upd_stream. cbn [streams upd_field]. intros H.
  apply list_elem_of_In, in_map_iff in H as (t0 & <- & H). exists t0. split; [|done].
  by apply list_elem_of_In.
Qed.

Lemma terminate_frame reason q s :
  vs_released s = false ->
  stream_frame q (qdwin_view_stream_terminate reason q s)
  /\ still_listed (vs_id s) q (qdwin_view_stream_terminate reason q s).
Proof.
  intros Hr. unfold qdwin_view_stream_terminate, qdwin_view_stream_release_server_state.
  rewrite Hr. cbv zeta.
  set (q1 := if vs_resource s && _ then _ else q).
  assert (H1 : stream_frame q q1
               /\ forall t, t ∈ streams q1 -> exists t0, t0 ∈ streams q /\ vs_id t0 = vs_id t
                    /\ vs_listed t0 = vs_listed t /\ vs_tl t0 = vs_tl t).
  { unfold q1. destruct (_ && _); [|split; [by split|by eauto]]. split; [by split|].
    intros t Ht. apply (upd_stream_inv (vs_id s)) in Ht as (t0 & H0 & ->).
    exists t0. by destruct (vs_id t0 =? vs_id s). }
  clearbody q1. destruct H1 as [F1 S1]. destruct (unpin_frame s q1) as [F2 S2].
  set (q2 := qdwin_view_stream_unpin s q1) in *. clearbody q2. split.
  - eapply stream_frame_trans; [exact F1|]. eapply stream_frame_trans; [exact F2|]. by split.
  - intros t Ht Hl. apply upd_stream_inv in Ht as (t2 & H2 & ->).
    destruct (Z.eqb_spec (vs_id t2) (vs_id s)) as [He|Hne]; [discriminate Hl|].
    assert (H3 : exists t1, t1 ∈ streams q1 /\ vs_id t1 = vs_id t2 /\ vs_listed t1 = vs_listed t2
                 /\ vs_tl t1 = vs_tl t2).
    { rewrite S2 in H2. destruct (vs_pinned s); [|by eauto].
      apply upd_stream_inv in H2 as (t1 & H1 & ->). exists t1. by destruct (vs_id t1 =? vs_id s). }
    destruct H3 as (t1 & H3 & E1 & E2 & E3). destruct (S1 t1 H3) as (t0 & H0 & G1 & G2 & G3).
    exists t0. split_and!; congruence.
Qed.

Lemma terminate_fold reason l q :
  Forall (fun s => vs_released s = false) l ->
  let q' := foldl (qdwin_view_stream_terminate reason) q l in
  stream_frame q q'
  /\ (forall t, t ∈ streams q' -> vs_listed t = true ->
      exists t0, t0 ∈ streams q /\ vs_listed t0 = true /\ vs_tl t0 = vs_tl t /\ vs_id t0 = vs_id t
                 /\ vs_id t ∉ (vs_id <$> l)).
Proof.
  cbv zeta. intros H. revert q. induction H as [|s l Hs Hl IH]; intros q; cbn [foldl].
  - split; [apply stream_frame_refl|]. intros t Ht Hd. exists t. split_and!; try done.
    apply not_elem_of_nil.
  - destruct (terminate_frame reason q s Hs) as [F1 S1].
    destruct (IH (qdwin_view_stream_terminate reason q s)) as [F2 S2]. split.
    + by eapply stream_frame_trans.
    + intros t Ht Hd. destruct (S2 t Ht Hd) as (t1 & H1 & L1 & T1 & I1 & N1).
      destruct (S1 t1 H1 L1) as (t0 & H0 & L0 & T0 & I0 & N0).
      exists t0. split_and!; try congruence. rewrite fmap_cons. apply not_elem_of_cons.
      split; [congruence|done].
Qed.

Lemma terminate_streams_gone h reason q :
  streams_ok q ->
  let q' := terminate_streams (streams_of h) reason q in
  stream_frame q q' /\ forall s, s ∈ view_streams q' -> vs_tl s ≠ Some h.
Proof.
  intros [_ Hok]. cbv zeta. unfold terminate_streams.
  set (l := List.filter (streams_of h) (view_streams q)).
  assert (Hl : forall s, s ∈ l <-> s ∈ streams q /\ vs_listed s = true /\ vs_tl s = Some h).
  { intros s. unfold l, view_streams. rewrite !list_elem_of_In, !filter_In. unfold streams_of.
    rewrite bool_decide_eq_true, <- list_elem_of_In. tauto. }
  destruct (terminate_fold reason l q) as [F S].
  - apply Forall_forall. intros s Hs. apply Hl in Hs as (Hs & Hd & _).
    rewrite Forall_forall in Hok. specialize (Hok s Hs).
    destruct (vs_released s); [|done]. rewrite Hok in Hd; done.
  - split; [exact F|]. intros s Hs Ht. unfold view_streams in Hs.
    rewrite list_elem_of_In, filter_In, <- list_elem_of_In in Hs. destruct Hs as [Hs Hd].
    destruct (S s Hs Hd) as (t0 & H0 & L0 & T0 & I0 & N0). apply N0.
    apply list_elem_of_fmap. exists t0. split; [done|]. apply Hl. split_and!; congruence.
Qed.

Lemma forget_lock_frame tl q :
  let q' := forget_lock_toplevel tl q in
  lock_toplevel q' ≠ Some (handle tl)
  /\ popups q' = popups q /\ streams q' = streams q /\ toplevels q' = toplevels q.
Proof.
  cbv zeta. unfold forget_lock_toplevel.
  destruct (decide (lock_toplevel q = Some (handle tl))) as [He|He].
  - rewrite bool_decide_eq_true_2 by done. cbv zeta.
    set (q1 := q <| lock_toplevel := None |>).
    assert (H1 : lock_toplevel q1 = None /\ popups q1 = popups q /\ streams q1 = streams q
                 /\ toplevels q1 = toplevels q) by by split_and!.
    clearbody q1. destruct H1 as (H1 & H2 & H3 & H4).
    destruct (bool_decide _); cbn; rewrite H1; by split_and!.
  - by rewrite bool_decide_eq_false_2.
Qed.

Lemma dismiss_popup_frame h q :
  let q' := dismiss_popup h q in
  lock_toplevel q' = lock_toplevel q /\ streams q' = streams q /\ toplevels q' = toplevels q.
Proof.
  cbv zeta. unfold dismiss_popup. destruct (popup_of h q) as [p|]; [|done].
  unfold qdwin_popup_teardown. by destruct (pp_view p =? NULL_VIEW).
Qed.

Lemma move_grab_end_frame h q :
  let q' := qdwin_move_grab_end_for h q in
  (move_grab_active q' = true -> move_grab_handle q' ≠ h)
  /\ lock_toplevel q' = lock_toplevel q /\ popups q' = popups q /\ streams q' = streams q
  /\ toplevels q' = toplevels q.
Proof.
  cbv zeta. unfold qdwin_move_grab_end_for. destruct (move_grab_active q) eqn:E; cbn [negb].
  - destruct (Z.eqb_spec (move_grab_handle q) h); [by split_and!|]. by split_and!.
  - by rewrite E.
Qed.

Lemma release_dependents_spec h q :
  popups_ok q -> streams_ok q ->
  let q' := qdwin_toplevel_release_dependents h q in
  popup_of h q' = None
  /\ (forall s, s ∈ view_streams q' -> vs_tl s ≠ Some h)
  /\ (move_grab_active q' = true -> move_grab_handle q' ≠ h)
  /\ lock_toplevel q' = lock_toplevel q /\ toplevels q' = toplevels q.
Proof.
  intros Hp Hs. cbv zeta. unfold qdwin_toplevel_release_dependents.
  destruct (dismiss_popup_frame h q) as (P1 & P2 & P3).
  pose proof (dismiss_popup_gone h q Hp) as P4. revert P1 P2 P3 P4.
  generalize (dismiss_popup h q). intros q1 P1 P2 P3 P4.
  destruct (move_grab_end_frame h q1) as (M1 & M2 & M3 & M4 & M5). revert M1 M2 M3 M4 M5.
  generalize (qdwin_move_grab_end_for h q1). intros q2 M1 M2 M3 M4 M5.
  destruct (terminate_streams_gone h "source toplevel closed" q2) as [F S].
  { unfold streams_ok in *. by rewrite M4, P2. }
  revert F S. generalize (terminate_streams (streams_of h) "source toplevel closed" q2).
  intros q3 [F1 [F2 F2'] F3 F4 F5] S. split_and!.
  - unfold popup_of in *. by rewrite F3, M3.
  - exact S.
  - rewrite F2, F2'. exact M1.
  - congruence.
  - congruence.
Qed.

(** C9.  What a removed window owned is released: its handle no longer
    resolves, its popup is dismissed, every view stream of it is off
    the active list, it is neither the promoted lock window nor the target of
    the interactive move, and neither its content view nor any of its
    decorations is left in a layer. *)
Theorem removed_leaves_no_reference (q : qdwin) (h : Z) (tl : toplevel)
    (Htl : qdwin_toplevel_from_handle h q = Some tl)
    (Hp : popups_ok q) (Hs : streams_ok q) :
  let q' := qdwin_surface_removed h q in
  qdwin_toplevel_from_handle h q' = None
  /\ popup_of h q' = None
  /\ (forall s, s ∈ view_streams q' -> vs_tl s ≠ Some h)
  /\ lock_toplevel q' ≠ Some h
  /\ (move_grab_active q' = true -> move_grab_handle q' ≠ h)
  /\ (forall v, v ∈ tl_views tl -> view_layer v (the_scene q') = None).
Proof.
  cbv zeta. unfold qdwin_surface_removed, with_tl. rewrite Htl. cbv zeta.
  apply from_handle_Some in Htl as [Hh _].
  destruct (forget_lock_frame tl q) as (L1 & L2 & L3 & L4). rewrite Hh in L1. revert L1 L2 L3 L4.
  generalize (forget_lock_toplevel tl q). intros q1 L1 L2 L3 L4.
  set (q2 := if nested_mode q1 then _ else _).
  assert (H2 : lock_toplevel q2 = lock_toplevel q1 /\ popups q2 = popups q1
               /\ streams q2 = streams q1).
  { unfold q2, shell_send. destruct (nested_mode q1); [by split_and!|].
    by destruct (shell_version_ge 0 q1). }
  clearbody q2. destruct H2 as (H2 & H3 & H4).
  destruct (release_dependents_spec h q2) as (R1 & R2 & R3 & R4 & _).
  { unfold popups_ok in *. by rewrite H3, L2. }
  { unfold streams_ok in *. by rewrite H4, L3. }
  revert R1 R2 R3 R4. generalize (qdwin_toplevel_release_dependents h q2). intros q3 R1 R2 R3 R4.
  split_and!; try exact R1; try exact R2; try exact R3.
  - apply (find_filter_none (fun t => handle t =? h)).
  - change (lock_toplevel q3 ≠ Some h). congruence.
  - intros v Hv.
    change (view_layer v (destroy_views (omap ch_view (tl_chrome tl) ++ [view tl]) (the_scene q3))
            = None).
    apply destroyed_view. apply elem_of_app. unfold tl_views in Hv.
    apply elem_of_cons in Hv as [->|Hv]; [right; by apply list_elem_of_singleton|by left].
Qed.

Definition ex_pop : qdwin :=
  ex_qdwin <| popups := [mk_popup 60 true 1 61 62 true] |>
           <| move_grab_active := true |> <| move_grab_handle := 1 |>
           <| lock_toplevel := Some 1 |>.
Definition ex_pop_tl : toplevel :=
  Eval vm_compute in default ex_toplevel (qdwin_toplevel_from_handle 1 ex_pop).

Lemma removed_leaves_no_reference_witness :
  popup_of 1 ex_pop ≠ None /\ popup_of 1 (qdwin_surface_removed 1 ex_pop) = None.
Proof.
  split; [vm_compute; discriminate|].
  refine (proj1 (proj2 (removed_leaves_no_reference ex_pop 1 ex_pop_tl _ _ _))).
  - vm_compute. reflexivity.
  - split; apply (bool_decide_unpack _); vm_compute; exact I.
  - split; [apply (bool_decide_unpack _); vm_compute; exact I|].
    change (streams ex_pop) with (@nil view_stream). constructor.
Defined.

(** ** The shell role *)

(** Replaying the windows to a new shell keeps the role and only adds to the
    notifications. *)
Record replays (q q' : qdwin) : Prop := {
  rp_bound : shell_bound q' = shell_bound q;
  rp_shell : shell_resource q' = shell_resource q;
  rp_handles : handle <$> toplevels q' = handle <$> toplevels q;
  rp_events : forall e, e ∈ events q -> e ∈ events q'
}.

#[export] Instance replays_preorder : PreOrder replays.
Proof.
  split.
  - intros q. by split.
  - intros q1 q2 q3 [] []. split; try congruence. auto.
Qed.

Lemma replays_emit e q : replays q (emit e q).
Proof. split; try done. intros x Hx. cbn. by apply list_elem_of_further. Qed.
Lemma replays_send v e q : replays q (shell_send v e q).
Proof. unfold shell_send. destruct (shell_version_ge v q); [apply replays_emit|reflexivity]. Qed.
Lemma replays_upd h f q : (forall t, handle (f t) = handle t) -> replays q (upd_tl h f q).
Proof.
  intros Hf. split; try done. unfold upd_tl. cbn.
  induction (toplevels q) as [|t ts IH]; [done|]. cbn.
  destruct (handle t =? h); rewrite ?Hf; by f_equal.
Qed.
Lemma replays_upd_seat i f q : replays q (upd_seat i f q).
Proof. by split. Qed.

Lemma replays_foldl {A} (f : qdwin -> A -> qdwin) (l : list A) q :
  (forall q a, replays q (f q a)) -> replays q (foldl f q l).
Proof.
  intros Hf. revert q. induction l as [|a l IH]; intros q; cbn [foldl]; [reflexivity|].
  etransitivity; [apply Hf|apply IH].
Qed.

Lemma replays_secctx tl q : replays q (qdwin_send_toplevel_security_context tl q).
Proof.
  unfold qdwin_send_toplevel_security_context. cbv zeta. destruct (is_nested_proxy tl).
  - destruct (proxy_secctx tl) as [[[??]?]|]; [apply replays_send|reflexivity].
  - destruct (desktop tl ≫= ds_secctx); [|reflexivity].
    etransitivity; apply replays_send.
Qed.

Lemma replays_remote tl q : replays q (qdwin_emit_nested_proxy_remote_identity tl q).
Proof.
  unfold qdwin_emit_nested_proxy_remote_identity.
  destruct (proxy_remote tl) as [[[[??]?]?]|]; [|reflexivity].
  destruct (is_nested_proxy tl); [apply replays_send|reflexivity].
Qed.

Lemma replays_workspace h q : replays q (qdwin_emit_toplevel_workspace h q).
Proof.
  unfold qdwin_emit_toplevel_workspace, with_tl.
  destruct (qdwin_toplevel_from_handle h q); [apply replays_send|reflexivity].
Qed.

Definition announces (h : Z) (e : event) : Prop :=
  exists uid app_id title xw, e = toplevel_added h uid app_id title xw.

Lemma replays_added h q : replays q (qdwin_send_toplevel_added h q).
Proof.
  unfold qdwin_send_toplevel_added, with_tl.
  destruct (qdwin_toplevel_from_handle h q) as [tl|]; [|reflexivity].
  destruct (toplevel_identity tl) as [[a t] u]. cbv zeta.
  etransitivity; [by apply (replays_upd h (fun t0 => t0 <| cached_title := t |> <| cached_app_id := a |>))|].
  etransitivity; [apply replays_send|]. etransitivity; [apply replays_secctx|].
  etransitivity; [apply replays_remote|]. apply replays_workspace.
Qed.

(** With the shell bound, announcing a window of the list does send the event. *)
Lemma added_announces h q :
  shell_version_ge 0 q = true -> h ∈ (handle <$> toplevels q) ->
  exists e, e ∈ events (qdwin_send_toplevel_added h q) /\ announces h e.
Proof.
  intros Hb Hin. unfold qdwin_send_toplevel_added, with_tl.
  destruct (qdwin_toplevel_from_handle h q) as [tl|] eqn:E.
  2:{ exfalso. unfold qdwin_toplevel_from_handle in E.
      apply list_elem_of_fmap in Hin as (t & -> & Ht).
      apply list_elem_of_In, (List.find_none _ _ E) in Ht. by zbool. }
  destruct (toplevel_identity tl) as [[a t] u]. cbv zeta.
  set (q1 := upd_tl h _ q). set (e := toplevel_added h (u32 u) a t _).
  assert (Hb1 : shell_version_ge 0 q1 = true) by exact Hb. clearbody q1.
  exists e. split; [|unfold announces, e; by eauto].
  assert (R : forall q2, replays q2 (qdwin_emit_toplevel_workspace h
             (qdwin_emit_nested_proxy_remote_identity tl
                (qdwin_send_toplevel_security_context tl q2)))).
  { intros q2. etransitivity; [apply replays_secctx|].
    etransitivity; [apply replays_remote|]. apply replays_workspace. }
  apply (rp_events _ _ (R _)). unfold shell_send at 1. rewrite Hb1. apply list_elem_of_here.
Qed.

Lemma version_replays q q' v : replays q q' -> shell_version_ge v q' = shell_version_ge v q.
Proof. intros [H1 H2 _ _]. unfold shell_version_ge. by rewrite H1, H2. Qed.

(** The loop over the windows announces each of them. *)
Lemma announce_all (l : list toplevel) q :
  shell_version_ge 0 q = true -> (forall t, t ∈ l -> handle t ∈ (handle <$> toplevels q)) ->
  let q' := foldl (fun q tl => qdwin_send_toplevel_added (handle tl) q) q l in
  replays q q' /\ forall t, t ∈ l -> exists e, e ∈ events q' /\ announces (handle t) e.
Proof.
  cbv zeta. revert q. induction l as [|t l IH]; intros q Hb Hin; cbn [foldl].
  - split; [reflexivity|]. intros t Ht. by apply not_elem_of_nil in Ht.
  - pose proof (replays_added (handle t) q) as R.
    destruct (added_announces (handle t) q Hb) as (e & He & Ha); [apply Hin, list_elem_of_here|].
    revert R He. generalize (qdwin_send_toplevel_added (handle t) q). intros q1 R He.
    destruct (IH q1) as [R2 IH2].
    + by rewrite (version_replays _ _ _ R).
    + intros t' Ht'. rewrite (rp_handles _ _ R). apply Hin. by apply list_elem_of_further.
    + split; [by etransitivity|]. intros t' Ht'. apply elem_of_cons in Ht' as [->|Ht']; [|auto].
      exists e. split; [|done]. by apply (rp_events _ _ R2).
Qed.

Lemma replays_seats_outputs q : replays q (replay_seats_outputs q).
Proof.
  unfold replay_seats_outputs. cbv zeta.
  etransitivity; [|apply replays_foldl; intros; apply replays_emit].
  apply replays_foldl. intros. apply replays_emit.
Qed.
Lemma replays_focus q : replays q (qdwin_replay_seat_focus_for_shell q).
Proof.
  unfold qdwin_replay_seat_focus_for_shell. apply replays_foldl. intros q1 s.
  destruct (tracked s); [|reflexivity]. cbv zeta.
  etransitivity; [apply replays_upd_seat|apply replays_send].
Qed.

(** One shell at a time, and a new one starts from the full picture: a
    bind while another resource holds the role answers [already_bound] and
    changes nothing else; otherwise the resource holds the role afterwards, and
    every window of the session was announced to it. *)
Theorem bind_as_shell_spec (q : qdwin) (r : wl_resource) (pid uid : Z)
    (Hv : 0 <= res_version r) :
  let q' := qdwin_handle_bind_as_shell r pid uid q in
  (shell_bound q = true -> shell_resource q ≠ Some r ->
     q' = emit (post_error (res_id r) SHELL_ALREADY_BOUND) q)
  /\ (shell_bound q = false \/ shell_resource q = Some r ->
     qdwin_shell_require_bound r q' = true
     /\ forall tl, tl ∈ toplevels q -> exists e, e ∈ events q' /\ announces (handle tl) e).
Proof.
  cbv zeta. unfold qdwin_handle_bind_as_shell. split.
  - intros Hb Hne. by rewrite Hb, bool_decide_eq_false_2.
  - intros Hor. assert (Hg : shell_bound q && negb (bool_decide (shell_resource q = Some r)) = false).
    { destruct Hor as [->| ->]; [done|]. by rewrite bool_decide_eq_true_2, andb_false_r. }
    rewrite Hg. cbv zeta. set (q1 := adopt_shell r pid uid q).
    assert (H1 : shell_bound q1 = true /\ shell_resource q1 = Some r /\ toplevels q1 = toplevels q)
      by by split_and!.
    clearbody q1. destruct H1 as (B1 & B2 & B3).
    destruct (announce_all (toplevels q1) q1) as [R A].
    { unfold shell_version_ge. rewrite B2, B1. cbn. by apply Z.leb_le. }
    { intros t Ht. by apply list_elem_of_fmap_2. }
    revert R A. generalize (foldl (fun q tl => qdwin_send_toplevel_added (handle tl) q) q1
                              (toplevels q1)). intros q2 R A.
    set (q3 := _ q2). assert (R3 : replays q2 q3).
    { unfold q3. destruct (2 <=? res_version r); [apply replays_seats_outputs|reflexivity]. }
    clearbody q3. set (q4 := _ q3). assert (R4 : replays q3 q4).
    { unfold q4. destruct (14 <=? res_version r); [apply replays_focus|reflexivity]. }
    clearbody q4. assert (R14 : replays q1 q4) by (by etransitivity; [exact R|etransitivity]).
    split.
    + unfold qdwin_shell_require_bound. rewrite (rp_bound _ _ R14), (rp_shell _ _ R14), B1, B2.
      by rewrite bool_decide_eq_true_2.
    + intros tl Htl. rewrite <- B3 in Htl. destruct (A tl Htl) as (e & He & Ha).
      exists e. split; [|done]. by apply (rp_events _ _ R4), (rp_events _ _ R3).
Qed.

Definition ex_unbound : qdwin := forget_shell ex_qdwin.

Lemma bind_as_shell_spec_witness :
  qdwin_shell_require_bound (mk_resource 7 24 8)
    (qdwin_handle_bind_as_shell (mk_resource 7 24 8) 100 1000 ex_unbound) = true.
Proof.
  refine (proj1 (proj2 (bind_as_shell_spec ex_unbound (mk_resource 7 24 8) 100 1000 _) _)).
  - vm_compute. discriminate.
  - left. reflexivity.
Defined.
