(* ===== verification/ClipboardFacts.v ===== *)
(** * ClipboardFacts: no paste without the shell's approval

    The gate as a labelled transition system, and the ownership of the
    descriptors that pass through it. *)

From stdpp Require Import base list gmap strings option.
From S2P Require Import Prelude Logic Scene State Clipboard.
From stdpp Require Import list.

#[local] Open Scope Z_scope.

(** ** The gate as a transition system *)

Inductive action :=
| publish (stale : bool) (old : option Z) (read : option (string * Z)) (timer : bool)
    (seat src : Z) (client : option Z)
| offer (src : Z) (client : option Z)
| receive (timer : bool) (src : Z) (mime : option string) (fd : Z)
| decide_paste (r : wl_resource) (h : Z) (decision : option string)
| expire (fd : Z)
| target_gone (client : Z)
| source_gone (src : Z)
| shell_gone
| elsewhere.

(** The descriptors an event disposes of. *)
Definition event_fds (e : event) : list Z :=
  match e with source_send _ _ fd | fd_closed fd => [fd] | _ => [] end.
Definition disposed (q : qdwin) : list Z := flat_map event_fds (events q).
Definition held (q : qdwin) : list Z := dp_fd <$> data_offers (clip q).

(** The descriptors an action hands over: a receiver's, or the writing end of
    the clipboard manager's own pipe. *)
Definition received (a : action) : list Z :=
  match a with
  | receive _ _ _ fd => [fd]
  | publish false _ (Some (_, fd)) _ _ _ _ => [fd]
  | _ => []
  end.

(** A step of any other component: the gate's state is untouched and no
    descriptor is disposed of. *)
Definition outside (q q' : qdwin) : Prop :=
  clip q' = clip q /\ exists es, events q' = es ++ events q /\ flat_map event_fds es = [].

Inductive step : action -> qdwin -> qdwin -> Prop :=
| step_publish st o rd t i s c q : step (publish st o rd t i s c) q (set_selection st o rd t i s c q)
| step_offer s c q : step (offer s c) q (send_selection s c q)
| step_receive t s m fd q : step (receive t s m fd) q (data_offer_receive t s m fd q)
| step_decide r h d q :
    step (decide_paste r h d) q (qdwin_handle_data_offer_receive_decision r h d q)
| step_expire fd q : step (expire fd) q (qdwin_data_offer_pending_timeout_cb fd q)
| step_target c q : step (target_gone c) q (qdwin_data_offer_target_destroyed c q)
| step_source s q : step (source_gone s) q (qdwin_data_source_wrap_on_source_destroy s q)
| step_shell q : step shell_gone q (qdwin_data_offer_pending_free_all q)
| step_elsewhere q q' : outside q q' -> step elsewhere q q'.

Inductive steps : list action -> qdwin -> qdwin -> Prop :=
| steps_nil q : steps [] q q
| steps_cons a l q q1 q2 : step a q q1 -> steps l q1 q2 -> steps (a :: l) q q2.

(** ** Every descriptor has one owner *)

(** The descriptors disposed of or held in [q'] are those of [q] and [fds]. *)
Definition accounts (fds : list Z) (q q' : qdwin) : Prop :=
  disposed q' ++ held q' ≡ₚ fds ++ disposed q ++ held q.

Lemma accounts_refl q : accounts [] q q.
Proof. unfold accounts. done. Qed.
Lemma accounts_trans l1 l2 q1 q2 q3 :
  accounts l1 q1 q2 -> accounts l2 q2 q3 -> accounts (l2 ++ l1) q1 q3.
Proof. unfold accounts. intros H1 H2. by rewrite H2, H1, (assoc (++)). Qed.

(** An update that keeps the pending list and sends nothing. *)
Lemma accounts_quiet fds q q1 q2 :
  data_offers (clip q2) = data_offers (clip q1) -> events q2 = events q1 ->
  accounts fds q q1 -> accounts fds q q2.
Proof. unfold accounts, disposed, held. by intros -> ->. Qed.

Lemma accounts_close e q q1 :
  accounts [] q q1 -> accounts (event_fds e) q (emit e q1).
Proof.
  unfold accounts. intros H. change (disposed (emit e q1)) with (event_fds e ++ disposed q1).
  change (held (emit e q1)) with (held q1). by rewrite <- (assoc (++)), H.
Qed.

Lemma unlink_fds p l :
  p ∈ l -> dp_fd p :: (dp_fd <$> unlink_pending (dp_fd p) l) ≡ₚ dp_fd <$> l.
Proof.
  induction l as [|x l IH]; [by intros ?%elem_of_nil|]. intros Hp. cbn [unlink_pending].
  destruct (Z.eqb_spec (dp_fd x) (dp_fd p)) as [<-|Hne]; [by rewrite fmap_cons|].
  apply elem_of_cons in Hp as [->|Hp]; [done|]. rewrite !fmap_cons, <- (IH Hp).
  by apply Permutation_swap.
Qed.

(** A held descriptor that is disposed of changes hands once. *)
Lemma accounts_dispose e p q :
  p ∈ data_offers (clip q) -> event_fds e = [dp_fd p] ->
  accounts [] q (drop_pending p (emit e q)) /\ accounts [] q (emit e (drop_pending p q)).
Proof.
  intros Hp He. unfold accounts.
  change (disposed (drop_pending p (emit e q))) with (event_fds e ++ disposed q).
  change (disposed (emit e (drop_pending p q))) with (event_fds e ++ disposed q).
  change (held (drop_pending p (emit e q)))
    with (dp_fd <$> unlink_pending (dp_fd p) (data_offers (clip q))).
  change (held (emit e (drop_pending p q)))
    with (dp_fd <$> unlink_pending (dp_fd p) (data_offers (clip q))).
  rewrite He. assert (H : [dp_fd p] ++ disposed q ++ (dp_fd <$> unlink_pending (dp_fd p) (data_offers (clip q)))
                       ≡ₚ disposed q ++ held q).
  { unfold held. rewrite <- (unlink_fds p (data_offers (clip q)) Hp). cbn [app].
    by rewrite Permutation_middle. }
  rewrite <- (assoc (++)). by split.
Qed.

(** Freeing a sublist of the pending entries. *)
Lemma unlink_keeps fd p l : p ∈ l -> dp_fd p ≠ fd -> p ∈ unlink_pending fd l.
Proof.
  induction l as [|x l IH]; [done|]. intros Hp Hn. cbn.
  apply elem_of_cons in Hp as [->|Hp].
  - destruct (Z.eqb_spec (dp_fd x) fd); [done|]. apply list_elem_of_here.
  - destruct (dp_fd x =? fd); [done|]. apply list_elem_of_further. auto.
Qed.

Lemma accounts_free_list l q :
  NoDup (dp_fd <$> l) -> (forall p, p ∈ l -> p ∈ data_offers (clip q)) ->
  accounts [] q (foldl qdwin_data_offer_pending_free q l).
Proof.
  revert q. induction l as [|p l IH]; intros q Hnd Hin; cbn [foldl]; [apply accounts_refl|].
  rewrite fmap_cons, NoDup_cons in Hnd. destruct Hnd as [Hn Hnd].
  destruct (accounts_dispose (fd_closed (dp_fd p)) p q) as [_ H]; [by apply Hin, list_elem_of_here|done|].
  apply (accounts_trans [] [] q _ _ H). apply IH; [done|]. intros p' Hp'.
  change (p' ∈ unlink_pending (dp_fd p) (data_offers (clip q))). apply unlink_keeps.
  - by apply Hin, list_elem_of_further.
  - intros E. apply Hn. rewrite <- E. by apply list_elem_of_fmap_2.
Qed.

Lemma accounts_free_matching sel q :
  NoDup (held q) -> accounts [] q (free_matching sel q).
Proof.
  intros Hnd. unfold free_matching, held in *. apply accounts_free_list.
  - revert Hnd. generalize (data_offers (clip q)). intros l. induction l as [|p l IH]; [done|].
    rewrite fmap_cons, NoDup_cons. intros [Hn Hnd]. cbn [List.filter].
    destruct (sel p); [|by apply IH]. rewrite fmap_cons, NoDup_cons. split; [|by apply IH].
    intros Hin. apply Hn. apply list_elem_of_fmap in Hin as (x & Hx & Hin).
    rewrite Hx. apply list_elem_of_fmap_2. apply list_elem_of_In in Hin.
    apply list_elem_of_In. by apply filter_In in Hin as [??].
  - intros p Hp. apply list_elem_of_In in Hp. apply filter_In in Hp as [Hp _].
    by apply list_elem_of_In.
Qed.

Lemma install_quiet i s q :
  data_offers (clip (qdwin_install_data_source_wrap i s q)) = data_offers (clip q)
  /\ events (qdwin_install_data_source_wrap i s q) = events q.
Proof.
  unfold qdwin_install_data_source_wrap. destruct (find_source s q) as [x|]; [|done].
  destruct (src_send x); try done. by destruct (oom q).
Qed.

Lemma accounts_queue h s fd t m e q :
  event_fds e = [] -> accounts [fd] q (emit e (queue_pending h s fd t m q)).
Proof.
  intros He. unfold accounts.
  change (disposed (emit e (queue_pending h s fd t m q))) with (event_fds e ++ disposed q).
  change (held (emit e (queue_pending h s fd t m q))) with (fd :: held q).
  rewrite He. cbn [app]. by rewrite <- Permutation_middle.
Qed.

Lemma accounts_shim t s m fd q : accounts [fd] q (qdwin_data_source_send_shim t s m fd q).
Proof.
  pose proof (accounts_close (fd_closed fd) q q (accounts_refl q)) as Hc.
  unfold qdwin_data_source_send_shim.
  destruct (qdwin_data_source_wrap_find s q) as [w|]; [|exact Hc].
  destruct (find_source s q) as [x|]; [|exact Hc].
  destruct (negb (shell_version_ge 15 q)); [exact Hc|]. destruct (negb (mime_ok m)); [exact Hc|].
  destruct (qdwin_toplevel_for_client (src_client x) q) as [st|]; [|exact Hc].
  destruct (qdwin_toplevel_for_client (src_offer_client x) q) as [dt|]; [|exact Hc].
  destruct (src_offer_client x) as [c|]; [|exact Hc].
  destruct (oom q); [exact Hc|]. cbv zeta. destruct t; [by apply accounts_queue|].
  set (h := next_receive_handle _). set (p := mk_data_offer_pending h s fd (default "" m) c).
  set (q1 := queue_pending h s fd c (default "" m) q).
  destruct (accounts_dispose (fd_closed (dp_fd p)) p q1) as [_ H]; [apply list_elem_of_here|done|].
  change [fd] with ([] ++ [fd]). apply (accounts_trans [fd] [] q q1 _); [|exact H].
  unfold accounts. change (disposed q1) with (disposed q).
  change (held q1) with (fd :: held q). cbn [app]. by rewrite Permutation_middle.
Qed.

Lemma accounts_receive t s m fd q : accounts [fd] q (data_offer_receive t s m fd q).
Proof.
  unfold data_offer_receive. pose proof (accounts_refl q) as Hr.
  destruct (find_source s q) as [x|]; [|by apply (accounts_close (fd_closed fd))].
  destruct (src_send x); [by apply (accounts_close (fd_closed fd))| |apply accounts_shim].
  by apply (accounts_close (source_send s (default "" m) fd)).
Qed.

(** A source is registered, and the one before is told that it lost the selection. *)
Definition add_source (s : Z) (c : option Z) (q : qdwin) : qdwin :=
  match find_source s q with
  | Some _ => q
  | None => upd_clip (fun x => x <| data_sources ::= cons (mk_data_source s original_send c None) |>) q
  end.
Definition cancel_old (old : option Z) (q : qdwin) : qdwin :=
  match old with Some o => emit (source_cancelled o) q | None => q end.
Definition manager_read (t : bool) (s : Z) (rd : option (string * Z)) (q : qdwin) : qdwin :=
  match rd with Some (m, fd) => data_offer_receive t s (Some m) fd q | None => q end.

Lemma set_selection_stages o rd t i s c q :
  set_selection false o rd t i s c q
  = qdwin_install_data_source_wrap i s (manager_read t s rd (cancel_old o (add_source s c q))).
Proof. done. Qed.

Lemma add_source_quiet s c q :
  data_offers (clip (add_source s c q)) = data_offers (clip q)
  /\ events (add_source s c q) = events q.
Proof. unfold add_source. by destruct (find_source s q). Qed.

Lemma accounts_publish st o rd t i s c q :
  accounts (received (publish st o rd t i s c)) q (set_selection st o rd t i s c q).
Proof.
  destruct st; [apply accounts_refl|]. rewrite set_selection_stages.
  set (q1 := cancel_old o (add_source s c q)).
  assert (H1 : accounts [] q q1).
  { destruct (add_source_quiet s c q) as [Ho He].
    assert (H : accounts [] q (add_source s c q)) by (by eapply accounts_quiet; [..|apply accounts_refl]).
    unfold q1, cancel_old. destruct o as [o|]; [|done]. by apply (accounts_close (source_cancelled o)). }
  clearbody q1.
  assert (H2 : accounts (received (publish false o rd t i s c)) q (manager_read t s rd q1)).
  { destruct rd as [[m fd]|]; [|exact H1]. cbn [received manager_read].
    change [fd] with ([fd] ++ []). eapply accounts_trans; [exact H1|]. apply accounts_receive. }
  destruct (install_quiet i s (manager_read t s rd q1)) as [Ho He].
  by eapply accounts_quiet; [..|exact H2].
Qed.

Lemma pending_close_event p b q :
  exists e, qdwin_data_offer_pending_close p b q = emit e q /\ event_fds e = [dp_fd p].
Proof. unfold qdwin_data_offer_pending_close. destruct (_ && _); by eexists. Qed.

Lemma close_and_drop p b q :
  p ∈ data_offers (clip q) ->
  accounts [] q (drop_pending p (qdwin_data_offer_pending_close p b q)).
Proof.
  intros Hp. destruct (pending_close_event p b q) as (e & -> & He).
  by apply (proj1 (accounts_dispose e p q Hp He)).
Qed.

Lemma step_accounts a q q' : step a q q' -> NoDup (held q) -> accounts (received a) q q'.
Proof.
  intros H Hnd. destruct H as [st o rd t i s c q|s c q|t s m fd q|r h d q|fd q|c q|s q|q|q q' H].
  - apply accounts_publish.
  - eapply accounts_quiet; [..|apply accounts_refl]; done.
  - apply accounts_receive.
  - unfold qdwin_handle_data_offer_receive_decision, shell_request.
    destruct (qdwin_shell_require_bound r q);
      [|by apply (accounts_close (post_error _ _)), accounts_refl].
    destruct (qdwin_data_offer_pending_find h q) as [p|] eqn:E; [|apply accounts_refl].
    unfold qdwin_data_offer_pending_find in E. apply List.find_some in E as [E _].
    apply close_and_drop. by apply list_elem_of_In.
  - unfold qdwin_data_offer_pending_timeout_cb.
    destruct (List.find _ _) as [p|] eqn:E; [|apply accounts_refl].
    apply List.find_some in E as [E _]. apply close_and_drop. by apply list_elem_of_In.
  - by apply accounts_free_matching.
  - unfold qdwin_data_source_wrap_on_source_destroy. cbv zeta.
    destruct (qdwin_data_source_wrap_find s q).
    + by apply (accounts_quiet [] q (free_matching (fun p => dp_wrap p =? s) q)),
        accounts_free_matching.
    + eapply accounts_quiet; [..|apply accounts_refl]; done.
  - by apply accounts_free_matching.
  - destruct H as (Hc & es & He & Hf). unfold accounts, disposed, held.
    by rewrite Hc, He, flat_map_app, Hf.
Qed.

(** ** Every published source is gated *)

Definition gated (q : qdwin) : Prop :=
  Forall (fun s => src_send s ≠ original_send) (data_sources (clip q)).

Lemma free_list_clip l q :
  data_sources (clip (foldl qdwin_data_offer_pending_free q l)) = data_sources (clip q).
Proof. revert q. induction l as [|p l IH]; intros q; cbn [foldl]; [done|]. by rewrite IH. Qed.

(** A receive leaves the sources as they are. *)
Lemma receive_sources t s m fd q :
  data_sources (clip (data_offer_receive t s m fd q)) = data_sources (clip q).
Proof.
  unfold data_offer_receive. destruct (find_source s q) as [x|]; [|done].
  destruct (src_send x); [done|done|]. unfold qdwin_data_source_send_shim.
  repeat (split_match; try done).
Qed.

(** Every source but [s] is gated. *)
Definition gated_but (s : Z) (q : qdwin) : Prop :=
  Forall (fun x => src_send x ≠ original_send \/ src_id x = s) (data_sources (clip q)).

Lemma find_source_in s q x : find_source s q = Some x -> x ∈ data_sources (clip q) /\ src_id x = s.
Proof. intros H. apply List.find_some in H as [H1 H2]. zbool. by split; [apply list_elem_of_In|]. Qed.

(** The wrap replaces the callback, out of memory or not. *)
Lemma install_gated i s q x :
  find_source s q = Some x ->
  (src_send x ≠ original_send -> gated q) -> gated_but s q ->
  gated (qdwin_install_data_source_wrap i s q).
Proof.
  intros E Hx Hb. unfold qdwin_install_data_source_wrap. rewrite E.
  assert (Hm : Forall (fun s => src_send s ≠ original_send)
            (map (fun x => if src_id x =? s then x <| src_send := send_shim |> else x)
               (data_sources (clip q)))).
  { apply Forall_map. eapply Forall_impl; [exact Hb|]. intros y [Hy|Hy]; cbn.
    - by destruct (src_id y =? s).
    - by rewrite Hy, Z.eqb_refl. }
  destruct (src_send x); [by apply Hx| |by apply Hx]. by destruct (oom q).
Qed.

(** Publishing a source replaces its callback. *)
Lemma publish_gated st o rd t i s c q : gated q -> gated (set_selection st o rd t i s c q).
Proof.
  destruct st; [done|]. rewrite set_selection_stages. intros Hg.
  set (q1 := add_source s c q). set (q2 := manager_read t s rd (cancel_old o q1)).
  assert (H2 : data_sources (clip q2) = data_sources (clip q1)).
  { unfold q2, manager_read. destruct rd as [[m fd]|]; [rewrite receive_sources|]; by destruct o. }
  clearbody q2.
  assert (Hf : forall x, find_source s q1 = Some x -> find_source s q2 = Some x)
    by (unfold find_source; by rewrite H2).
  unfold q1, add_source in *. destruct (find_source s q) as [x|] eqn:E.
  - apply (install_gated i s q2 x); [by apply Hf|by intros _; unfold gated; rewrite H2|].
    unfold gated_but. rewrite H2. eapply Forall_impl; [exact Hg|]. intros y Hy. by left.
  - apply (install_gated i s q2 (mk_data_source s original_send c None)).
    + apply Hf. unfold find_source. cbn. by rewrite Z.eqb_refl.
    + done.
    + unfold gated_but. rewrite H2. constructor; [by right|].
      eapply Forall_impl; [exact Hg|]. intros y Hy. by left.
Qed.

Lemma step_gated a q q' : step a q q' -> gated q -> gated q'.
Proof.
  intros H Hg. destruct H as [st o rd t i s c q|s c q|t s m fd q|r h d q|fd q|c q|s q|q|q q' [H _]].
  - by apply publish_gated.
  - unfold gated, send_selection, upd_source in *. apply Forall_map.
    eapply Forall_impl; [exact Hg|]. intros x Hx. by destruct (src_id x =? s).
  - unfold gated. by rewrite receive_sources.
  - unfold qdwin_handle_data_offer_receive_decision, shell_request.
    destruct (qdwin_shell_require_bound r q); [|done].
    destruct (qdwin_data_offer_pending_find h q) as [p|]; [|done].
    by destruct (pending_close_event p (bool_decide (d = Some "allow")) q) as (e & -> & _).
  - unfold qdwin_data_offer_pending_timeout_cb. destruct (List.find _ _) as [p|]; [|done].
    by destruct (pending_close_event p false q) as (e & -> & _).
  - unfold gated, qdwin_data_offer_target_destroyed, free_matching. by rewrite free_list_clip.
  - unfold qdwin_data_source_wrap_on_source_destroy. cbv zeta.
    assert (Hf : forall q1, data_sources (clip q1) = data_sources (clip q) ->
              Forall (fun x => src_send x ≠ original_send)
                (List.filter (fun x => negb (src_id x =? s)) (data_sources (clip q1)))).
    { intros q1 ->. unfold gated in Hg. rewrite Forall_forall in *. intros x Hx. apply Hg.
      apply list_elem_of_In in Hx. apply filter_In in Hx as [Hx _]. by apply list_elem_of_In. }
    destruct (qdwin_data_source_wrap_find s q); apply Hf; [|done]. apply free_list_clip.
  - unfold gated, qdwin_data_offer_pending_free_all, free_matching. by rewrite free_list_clip.
  - unfold gated. by rewrite H.
Qed.

(** ** Approvals *)

(** Action [a] is the approval, by the bound shell, of the receive that waits
    with descriptor [fd] for the type [mime] of source [src]. *)
Definition approves (a : action) (q : qdwin) (src : Z) (mime : string) (fd : Z) : Prop :=
  exists r h p, a = decide_paste r h (Some "allow") /\ qdwin_shell_require_bound r q = true
    /\ p ∈ data_offers (clip q) /\ dp_handle p = h
    /\ dp_wrap p = src /\ dp_mime p = mime /\ dp_fd p = fd.

(** Action [a] publishes the source [src] for the first time, and libweston's
    clipboard manager reads its first type [mime] into the pipe [fd] of its own. *)
Definition manager_copies (a : action) (q : qdwin) (src : Z) (mime : string) (fd : Z) : Prop :=
  exists old timer seat client,
    a = publish false old (Some (mime, fd)) timer seat src client /\ find_source src q = None.

Definition is_send (e : event) : bool := match e with source_send _ _ _ => true | _ => false end.
Definition sends (q : qdwin) : list event := List.filter is_send (events q).

Lemma free_list_sends l q : sends (foldl qdwin_data_offer_pending_free q l) = sends q.
Proof. revert q. induction l as [|p l IH]; intros q; cbn [foldl]; [done|]. by rewrite IH. Qed.

Lemma no_sends es : flat_map event_fds es = [] -> List.filter is_send es = [].
Proof. induction es as [|e es IH]; [done|]. cbn. by destruct e. Qed.

(** A receive on a gated source sends nothing. *)
Lemma receive_sends t s m f q src mime fd :
  source_send src mime fd ∈ sends (data_offer_receive t s m f q) ->
  source_send src mime fd ∈ sends q
  \/ exists x, find_source s q = Some x /\ src_send x = original_send
       /\ src = s /\ mime = default "" m /\ fd = f.
Proof.
  unfold data_offer_receive. destruct (find_source s q) as [x|] eqn:E; [|by left].
  destruct (src_send x) eqn:Ex; [by left| |].
  - intros Hin. change (source_send src mime fd ∈ source_send s (default "" m) f :: sends q) in Hin.
    apply elem_of_cons in Hin as [Heq|Hin]; [|by left]. injection Heq as -> -> ->.
    right. by exists x.
  - unfold qdwin_data_source_send_shim. repeat (split_match; try by left).
Qed.

Lemma gated_source q s x : gated q -> find_source s q = Some x -> src_send x ≠ original_send.
Proof.
  intros Hg [H _]%find_source_in. unfold gated in Hg. rewrite Forall_forall in Hg. by apply Hg.
Qed.

Lemma publish_sends st o rd t i s c q src mime fd :
  gated q -> source_send src mime fd ∈ sends (set_selection st o rd t i s c q) ->
  source_send src mime fd ∈ sends q
  \/ manager_copies (publish st o rd t i s c) q src mime fd.
Proof.
  destruct st; [by left|]. rewrite set_selection_stages. unfold sends at 1.
  rewrite (proj2 (install_quiet i s _)). fold (sends (manager_read t s rd (cancel_old o (add_source s c q)))).
  intros Hg. set (q1 := cancel_old o (add_source s c q)).
  assert (H1 : sends q1 = sends q /\ find_source s q1 = find_source s (add_source s c q)).
  { unfold q1, cancel_old, add_source, sends. by destruct o, (find_source s q). }
  clearbody q1. destruct H1 as [H1 H1']. rewrite <- H1. destruct rd as [[m f]|]; [|by left].
  intros [H|(x & Ex & Hx & -> & -> & ->)]%receive_sends; [by left|]. right.
  exists o, t, i, c. split; [done|]. rewrite H1' in Ex. unfold add_source in Ex.
  destruct (find_source s q) as [y|] eqn:Ey; [|done].
  rewrite Ey in Ex. injection Ex as <-. by destruct (gated_source q s y Hg Ey).
Qed.

Lemma step_sends a q q' src mime fd :
  step a q q' -> gated q -> source_send src mime fd ∈ sends q' ->
  source_send src mime fd ∈ sends q \/ approves a q src mime fd \/ manager_copies a q src mime fd.
Proof.
  intros H Hg. destruct H as [st o rd t i s c q|s c q|t s m f q|r h d q|f q|c q|s q|q|q q' (_ & es & He & Hf)].
  - intros [H|H]%publish_sends; auto.
  - by left.
  - intros [H|(x & Ex & Hx & _)]%receive_sends; [by left|]. by destruct (gated_source q s x Hg Ex).
  - unfold qdwin_handle_data_offer_receive_decision, shell_request.
    destruct (qdwin_shell_require_bound r q) eqn:Eb; [|by left].
    destruct (qdwin_data_offer_pending_find h q) as [p|] eqn:E; [|by left].
    unfold qdwin_data_offer_pending_find in E. apply List.find_some in E as [E1 E2].
    apply list_elem_of_In in E1. apply Z.eqb_eq in E2.
    unfold qdwin_data_offer_pending_close.
    destruct (decide (d = Some "allow")) as [->|Hd].
    + rewrite bool_decide_eq_true_2 by done. cbn [andb]. destruct (bool_decide _); [|by left].
      intros Hin. change (source_send src mime fd ∈ source_send (dp_wrap p) (dp_mime p) (dp_fd p) :: sends q) in Hin.
      apply elem_of_cons in Hin as [Heq|Hin]; [|by left]. injection Heq as -> -> ->.
      right. left. exists r, h, p. by split_and!.
    + rewrite bool_decide_eq_false_2 by done. by left.
  - unfold qdwin_data_offer_pending_timeout_cb. destruct (List.find _ _) as [p|]; by left.
  - unfold qdwin_data_offer_target_destroyed, free_matching. rewrite free_list_sends. by left.
  - unfold qdwin_data_source_wrap_on_source_destroy. cbv zeta.
    destruct (qdwin_data_source_wrap_find s q); [|by left].
    intros Hin. left. change (source_send src mime fd ∈ sends (free_matching (fun p => dp_wrap p =? s) q)) in Hin.
    unfold free_matching in Hin. by rewrite free_list_sends in Hin.
  - unfold qdwin_data_offer_pending_free_all, free_matching. rewrite free_list_sends. by left.
  - unfold sends. rewrite He, List.filter_app, (no_sends es Hf). by left.
Qed.

(** A step of the run satisfies [P] in the state it is taken in. *)
Definition during (P : action -> qdwin -> Prop) (l : list action) (q q' : qdwin) : Prop :=
  exists l1 a l2 q1 q2, l = l1 ++ a :: l2 /\ steps l1 q q1 /\ step a q1 q2 /\ steps l2 q2 q'
    /\ P a q1.

Definition approved_during (l : list action) (q q' : qdwin) (src : Z) (mime : string) (fd : Z)
    : Prop :=
  during (fun a q => approves a q src mime fd) l q q'.
Definition copied_during (l : list action) (q q' : qdwin) (src : Z) (mime : string) (fd : Z)
    : Prop :=
  during (fun a q => manager_copies a q src mime fd) l q q'.

Lemma during_here (P : action -> qdwin -> Prop) a l q q1 q2 :
  step a q q1 -> steps l q1 q2 -> P a q -> during P (a :: l) q q2.
Proof. intros. exists [], a, l, q, q1. split_and!; try done. constructor. Qed.
Lemma during_later P a l q q1 q2 : step a q q1 -> during P l q1 q2 -> during P (a :: l) q q2.
Proof.
  intros Ha (l1 & b & l2 & x1 & x2 & -> & S1 & S2 & S3 & S4).
  exists (a :: l1), b, l2, x1, x2. split_and!; try done. by econstructor.
Qed.

Lemma steps_sends l q q' src mime fd :
  steps l q q' -> gated q -> source_send src mime fd ∈ sends q' ->
  source_send src mime fd ∈ sends q
  \/ approved_during l q q' src mime fd \/ copied_during l q q' src mime fd.
Proof.
  induction 1 as [q|a l q q1 q2 Ha Hl IH]; intros Hg Hs; [by left|].
  destruct (IH (step_gated _ _ _ Ha Hg) Hs) as [H1|[H1|H1]].
  - destruct (step_sends a q q1 src mime fd Ha Hg H1) as [H2|[H2|H2]]; [by left| |];
      right; [left|right]; by eapply during_here.
  - right. left. by eapply during_later.
  - right. right. by eapply during_later.
Qed.

Definition all_received (l : list action) : list Z := flat_map received l.

(** With fresh descriptors the ledger stays free of duplicates. *)
Lemma steps_accounts l q q' :
  steps l q q' -> NoDup (all_received l ++ disposed q ++ held q) ->
  disposed q' ++ held q' ≡ₚ all_received l ++ disposed q ++ held q.
Proof.
  induction 1 as [q|a l q q1 q2 Ha Hl IH]; intros Hnd; [done|].
  unfold all_received in *. cbn [flat_map] in *.
  assert (Hh : NoDup (held q)).
  { apply NoDup_app in Hnd as (_ & _ & Hnd). by apply NoDup_app in Hnd as (_ & _ & Hnd). }
  pose proof (step_accounts a q q1 Ha Hh) as H1. unfold accounts in H1.
  assert (Hp : flat_map received l ++ disposed q1 ++ held q1
               ≡ₚ (received a ++ flat_map received l) ++ disposed q ++ held q).
  { rewrite H1, !(assoc (++)). f_equiv. f_equiv. apply Permutation_app_comm. }
  rewrite IH; [exact Hp|]. by rewrite Hp.
Qed.

(** C6.  No paste without the shell's approval.  In every run of the clipboard
    that starts with no source published and no receive waiting, and in which
    the descriptors handed over are fresh, a descriptor reaches a source only
    if the bound shell approved that very receive, or if it is the writing end
    of the pipe on which libweston's clipboard manager copies the first type
    of a source that is published for the first time; no other client's
    receive does.  And every descriptor that was handed over is, in the end,
    owned exactly once: still waiting, closed, or passed to the source. *)
Theorem paste_needs_approval (l : list action) (q q' : qdwin)
    (Hrun : steps l q q')
    (Hstart : data_sources (clip q) = [] /\ data_offers (clip q) = [] /\ disposed q = [])
    (Hfresh : NoDup (all_received l)) :
  (forall src mime fd, source_send src mime fd ∈ events q' ->
     approved_during l q q' src mime fd \/ copied_during l q q' src mime fd)
  /\ disposed q' ++ held q' ≡ₚ all_received l.
Proof.
  destruct Hstart as (Hs & Ho & Hd). split.
  - intros src mime fd Hin. destruct (steps_sends l q q' src mime fd Hrun) as [H|H].
    + unfold gated. by rewrite Hs.
    + apply list_elem_of_In. apply filter_In. split; [by apply list_elem_of_In|done].
    + exfalso. assert (Hx : fd ∈ disposed q).
      { apply list_elem_of_In in H. apply filter_In in H as [H _]. apply list_elem_of_In.
        apply in_flat_map. exists (source_send src mime fd). split; [done|by left]. }
      rewrite Hd in Hx. by apply elem_of_nil in Hx.
    + exact H.
  - unfold held in *. assert (Hh : held q = []) by (unfold held; by rewrite Ho).
    rewrite (steps_accounts l q q' Hrun); rewrite Hd, Hh, !app_nil_r; done.
Qed.

(** Two windows of different clients; the second pastes twice, one paste is
    approved and one times out. *)
Definition ex_win (h client : Z) : toplevel :=
  mk_toplevel h (Some (mk_dsurf h 300 200 true 300 200 (Some client) client 1000 None false "" "" ""))
    h true true 300 200 false false false None 0 None "" "" 0 None
    0 0 0 0 0 0 0 0 0 0 0 0 0 0 0 false 0 0 None 0 0 0 0 0 0 0 0 0
    [no_chrome; no_chrome; no_chrome; no_chrome] "" "".
Definition ex_shell : wl_resource := mk_resource 500 34 9.
Definition ex_clip : qdwin :=
  (wet_shell_init [] [] 1000) <| toplevels := [ex_win 1 7; ex_win 2 8] |>
    <| shell_bound := true |> <| shell_resource := Some ex_shell |>.
Definition ex_actions : list action :=
  [publish false None (Some ("text/plain", 19)) true 1 50 (Some 7); offer 50 (Some 8); receive true 50 (Some "text/plain") 20;
   receive true 50 (Some "text/html") 21; decide_paste ex_shell 1 (Some "allow"); expire 21].
Definition ex_step (q : qdwin) (a : action) : qdwin :=
  match a with
  | publish st o rd t i s c => set_selection st o rd t i s c q
  | offer s c => send_selection s c q
  | receive t s m fd => data_offer_receive t s m fd q
  | decide_paste r h d => qdwin_handle_data_offer_receive_decision r h d q
  | expire fd => qdwin_data_offer_pending_timeout_cb fd q
  | target_gone c => qdwin_data_offer_target_destroyed c q
  | source_gone s => qdwin_data_source_wrap_on_source_destroy s q
  | shell_gone => qdwin_data_offer_pending_free_all q
  | elsewhere => q
  end.

Lemma ex_steps l q : steps l q (foldl ex_step q l).
Proof.
  revert q. induction l as [|a l IH]; intros q; cbn; [constructor|].
  econstructor; [|apply IH]. destruct a; try constructor. by split; [|exists []].
Qed.

Lemma paste_needs_approval_witness :
  events (foldl ex_step ex_clip ex_actions)
    = [fd_closed 21; source_send 50 "text/plain" 20;
       data_offer_receive_pending 2 1 1 2 "text/html";
       data_offer_receive_pending 1 1 1 2 "text/plain"; source_send 50 "text/plain" 19]
  /\ (approved_during ex_actions ex_clip (foldl ex_step ex_clip ex_actions) 50 "text/plain" 20
      \/ copied_during ex_actions ex_clip (foldl ex_step ex_clip ex_actions) 50 "text/plain" 20).
Proof.
  split; [vm_compute; reflexivity|].
  refine (proj1 (paste_needs_approval ex_actions ex_clip _ (ex_steps _ _) _ _) 50 "text/plain" 20 _).
  - split_and!; vm_compute; reflexivity.
  - apply (bool_decide_unpack _). vm_compute. exact I.
  - apply list_elem_of_In. vm_compute. right. left. reflexivity.
Defined.
