(* ===== verification/ShellFacts.v ===== *)
(** * ShellFacts: what the loss of the shell and of a window leave behind

    The unbind of the shell takes its whole configuration back; an activation
    that waits for the shell does not notice that its target window is gone. *)

From stdpp Require Import base list gmap strings option.
From S2P Require Import Prelude Logic Scene Procfs State Toplevel ToplevelFacts Dependents.
From S2P Require Import Focus Placement Lock Config Clipboard Activation Workspace Session.
From S2P Require Import LockFacts LockTheorems SessionFacts.
Import InputConfig.
From stdpp Require Import list.

#[local] Open Scope Z_scope.

(** ** Operations that only send events *)

Definition emitted (q q' : qdwin) : Prop := exists es, q' = foldr emit q es.

#[export] Instance emitted_preorder : PreOrder emitted.
Proof.
  split.
  - intros q. by exists [].
  - intros q1 q2 q3 [e1 ->] [e2 ->]. exists (e2 ++ e1). by rewrite foldr_app.
Qed.

Lemma emitted_emit e q : emitted q (emit e q).
Proof. by exists [e]. Qed.

Lemma emitted_foldl {A} (f : qdwin -> A -> qdwin) (l : list A) q :
  (forall q a, emitted q (f q a)) -> emitted q (foldl f q l).
Proof.
  intros Hf. revert q. induction l as [|a l IH]; intros q; cbn [foldl]; [reflexivity|].
  etransitivity; [apply Hf|apply IH].
Qed.

(** Everything but the event log is kept, and the log only grows. *)
Lemma emitted_field {A} (f : qdwin -> A) q q' :
  (forall e q, f (emit e q) = f q) -> emitted q q' -> f q' = f q.
Proof. intros Hf [es ->]. induction es as [|e es IH]; [done|]. cbn. by rewrite Hf. Qed.

Lemma emitted_events q q' e : emitted q q' -> e ∈ events q -> e ∈ events q'.
Proof.
  intros [es ->] He. induction es as [|x es IH]; [done|]. cbn. by apply list_elem_of_further.
Qed.

Lemma emitted_revoke l q : emitted q (revoke_remote_input l q).
Proof.
  apply emitted_foldl. intros q1 o. destruct (qdwin_remote_output_name_valid (out_name o)); [|reflexivity].
  unfold qdwin_set_remote_output_input. repeat (split_match; try reflexivity). apply emitted_emit.
Qed.
Lemma emitted_power b q : emitted q (qdwin_set_all_outputs_power b q).
Proof. apply emitted_foldl. intros. apply emitted_emit. Qed.
Lemma emitted_device fn q d : emitted q (config_device fn q d).
Proof. apply emitted_foldl. intros. apply emitted_emit. Qed.
Lemma emitted_walk fn q : emitted q (qdwin_pointer_config_walk fn q).
Proof.
  unfold qdwin_pointer_config_walk. destruct (negb _); [reflexivity|].
  apply emitted_foldl. intros. apply emitted_device.
Qed.
Lemma emitted_repeat q : emitted q (qdwin_resend_repeat_info q).
Proof.
  apply emitted_foldl. intros q1 s. destruct (has_keyboard s); [apply emitted_emit|reflexivity].
Qed.

(** A walk makes every call it computes for a device. *)
Definition news (q q' : qdwin) (e : event) : Prop :=
  exists es, events q' = es ++ events q /\ e ∈ es.

Lemma emitted_grows q q' : emitted q q' -> exists es, events q' = es ++ events q.
Proof. intros [es ->]. exists es. induction es as [|e es IH]; [done|]. cbn. by rewrite IH. Qed.

Lemma news_before q0 q q' e :
  (exists es, events q = es ++ events q0) -> news q q' e -> news q0 q' e.
Proof.
  intros [es He] (es' & He' & Hin). exists (es' ++ es). rewrite He', He, app_assoc.
  split; [done|]. apply elem_of_app. by left.
Qed.
Lemma news_after q0 q q' e :
  (exists es, events q' = es ++ events q) -> news q0 q e -> news q0 q' e.
Proof.
  intros [es He] (es' & He' & Hin). exists (es ++ es'). rewrite He, He', app_assoc.
  split; [done|]. apply elem_of_app. by right.
Qed.

Lemma foldl_emits {A} (g : A -> event) (l : list A) q a :
  a ∈ l -> news q (foldl (fun q a => emit (g a) q) q l) (g a).
Proof.
  revert q. induction l as [|b l IH]; intros q Ha; [by apply elem_of_nil in Ha|]. cbn [foldl].
  apply elem_of_cons in Ha as [->|Ha].
  - apply (news_after q (emit (g b) q)).
    + apply emitted_grows, emitted_foldl. intros. apply emitted_emit.
    + exists [g b]. split; [done|]. by apply list_elem_of_singleton.
  - apply (news_before q (emit (g b) q)); [by exists [g b]|]. by apply IH.
Qed.

Lemma walk_calls fn q d c :
  libinput_backend (config q) = true -> d ∈ devices (config q) ->
  libinput_seat (dev_seat_name d) = true -> c ∈ fn d ->
  news q (qdwin_pointer_config_walk fn q) (libinput_config (dev_id d) c).
Proof.
  intros Hb Hd Hs Hc. unfold qdwin_pointer_config_walk. rewrite Hb. cbn [negb].
  assert (Hin : d ∈ List.filter (fun d => libinput_seat (dev_seat_name d)) (devices (config q))).
  { apply list_elem_of_In, filter_In. split; [by apply list_elem_of_In|done]. }
  revert Hin. generalize (List.filter (fun d => libinput_seat (dev_seat_name d)) (devices (config q))).
  intros l. generalize q. clear -Hc. induction l as [|x l IH]; intros q Hin; [by apply elem_of_nil in Hin|].
  cbn [foldl]. apply elem_of_cons in Hin as [<-|Hin].
  - apply (news_after q (config_device fn q d)).
    + apply emitted_grows, emitted_foldl. intros. apply emitted_device.
    + by apply (foldl_emits (libinput_config (dev_id d))).
  - apply (news_before q (config_device fn q x)); [|by apply IH].
    apply emitted_grows, emitted_device.
Qed.

(** ** Pointer settings *)

(** The setting a call writes. *)
Inductive setting := Speed | Profile | Natural | Tap | LeftHanded | Middle | Dwt | Scroll.
Definition setting_of (c : libinput_call) : setting :=
  match c with
  | accel_set_speed _ => Speed
  | accel_set_profile _ => Profile
  | scroll_set_natural_scroll_enabled _ => Natural
  | tap_set_enabled _ => Tap
  | left_handed_set _ => LeftHanded
  | middle_emulation_set_enabled _ => Middle
  | dwt_set_enabled _ => Dwt
  | scroll_set_method _ => Scroll
  end.

(** libinput reports defaults the device supports. *)
Definition defaults_supported (d : libinput_device) : Prop :=
  (accel_is_available d = true -> accel_default_profile d ∈ accel_profiles d)
  /\ (default_scroll_method d = LIBINPUT_CONFIG_SCROLL_NO_SCROLL
      \/ default_scroll_method d ∈ scroll_methods d).

Lemma elem_of_when {A} (b : bool) (x : A) l : x ∈ when b l <-> b = true /\ x ∈ l.
Proof. destruct b; cbn; [tauto|]. split; [by intros ?%elem_of_nil|by intros [??]]. Qed.

Lemma reset_covers_apply pc d c :
  defaults_supported d -> c ∈ qdwin_pointer_config_apply_device pc d ->
  exists c', c' ∈ qdwin_pointer_config_reset_device d /\ setting_of c' = setting_of c.
Proof.
  intros [Hp Hs]. unfold qdwin_pointer_config_apply_device.
  destruct (negb (pc_valid pc)); [by intros ?%elem_of_nil|]. cbv zeta.
  unfold qdwin_pointer_config_reset_device. setoid_rewrite elem_of_app.
  repeat setoid_rewrite elem_of_app. repeat setoid_rewrite elem_of_when.
  repeat setoid_rewrite elem_of_cons. repeat setoid_rewrite elem_of_when.
  repeat setoid_rewrite elem_of_cons. setoid_rewrite elem_of_nil.
  intros [[Ha H]|[[Ha [->|[]]]|[[Ha [->|[]]]|[[Ha [->|[]]]|[[Ha [->|[]]]|[[Ha [->|[]]]|[Ha [->|[]]]]]]]]].
  - destruct H as [->|[_ [->|[]]]].
    + exists (accel_set_speed (accel_default_speed d)). auto 20.
    + exists (accel_set_profile (accel_default_profile d)).
      rewrite (bool_decide_eq_true_2 (_ ∈ _)) by auto. auto 20.
  - exists (scroll_set_natural_scroll_enabled (default_natural_scroll d)). auto 20.
  - exists (tap_set_enabled (default_tap d)). auto 20.
  - exists (left_handed_set (default_left_handed d)). auto 20.
  - exists (middle_emulation_set_enabled (default_middle_emulation d)). auto 20.
  - exists (dwt_set_enabled (default_dwt d)). auto 20.
  - exists (scroll_set_method (default_scroll_method d)). split; [|done]. do 6 right.
    split; [|by left]. destruct Hs as [->|Hs]; [done|].
    by rewrite (bool_decide_eq_true_2 _ Hs), orb_true_r.
Qed.

(** ** The loss of the shell *)

Lemma free_all_gone q : data_offers (clip (qdwin_data_offer_pending_free_all q)) = [].
Proof.
  unfold qdwin_data_offer_pending_free_all, free_matching.
  assert (H : List.filter (fun _ => true) (data_offers (clip q)) = data_offers (clip q)).
  { induction (data_offers (clip q)) as [|p l IH]; [done|]. cbn. by f_equal. }
  rewrite H. clear H. assert (H : data_offers (clip q) = data_offers (clip q)) by done. revert H.
  generalize (data_offers (clip q)) at 2 3. intros l. revert q.
  induction l as [|p l IH]; intros q Hq; cbn [foldl]; [exact Hq|]. apply IH.
  change (unlink_pending (dp_fd p) (data_offers (clip q)) = l). rewrite Hq. cbn.
  by rewrite Z.eqb_refl.
Qed.

(** Freeing the pending receives touches the clipboard and the log only. *)
Lemma free_all_keeps {A} (f : qdwin -> A) q :
  (forall g q, f (upd_clip g q) = f q) -> (forall e q, f (emit e q) = f q) ->
  f (qdwin_data_offer_pending_free_all q) = f q.
Proof.
  intros H1 H2. unfold qdwin_data_offer_pending_free_all, free_matching.
  generalize (List.filter (fun _ => true) (data_offers (clip q))). intros l. revert q.
  induction l as [|p l IH]; intros q; cbn [foldl]; [done|]. rewrite IH.
  unfold qdwin_data_offer_pending_free, drop_pending. by rewrite H2, H1.
Qed.
Lemma free_all_events q :
  exists es, events (qdwin_data_offer_pending_free_all q) = es ++ events q.
Proof.
  unfold qdwin_data_offer_pending_free_all, free_matching.
  generalize (List.filter (fun _ => true) (data_offers (clip q))). intros l. revert q.
  induction l as [|p l IH]; intros q; cbn [foldl]; [by exists []|].
  destruct (IH (qdwin_data_offer_pending_free q p)) as [es ->].
  eexists (es ++ [_]). by rewrite <- app_assoc.
Qed.

(** The key-repeat setting the compositor falls back to. *)
Definition base_repeat (c : shell_config) : Z * Z :=
  if kb_repeat_overridden c then (default_kb_repeat_rate c, default_kb_repeat_delay c)
  else (kb_repeat_rate c, kb_repeat_delay c).

Definition key_repeat_request (q : qdwin) (x : wl_resource * Z * Z) : qdwin :=
  let '(r, rate, delay) := x in qdwin_handle_set_key_repeat r rate delay q.

Lemma config_emit e q : config (emit e q) = config q.
Proof. done. Qed.

Lemma remember_base rate delay c :
  base_repeat (set_repeat rate delay (remember_repeat c)) = base_repeat c.
Proof. unfold remember_repeat, base_repeat. by destruct (kb_repeat_overridden c) eqn:E; cbn; rewrite ?E. Qed.

Lemma request_base q x :
  base_repeat (config (key_repeat_request q x)) = base_repeat (config q)
  /\ shell_resource (key_repeat_request q x) = shell_resource q.
Proof.
  destruct x as [[r rate] delay]. unfold key_repeat_request, qdwin_handle_set_key_repeat, shell_request.
  destruct (qdwin_shell_require_bound r q); [|done]. destruct (locked q); [done|]. cbv zeta.
  set (q1 := upd_config _ (upd_config _ q)).
  assert (H1 : base_repeat (config q1) = base_repeat (config q)
               /\ shell_resource q1 = shell_resource q) by (split; [apply remember_base|done]).
  clearbody q1. destruct H1 as [<- <-]. split.
  - by rewrite (emitted_field config _ _ config_emit (emitted_repeat q1)).
  - by apply emitted_field; [|apply emitted_repeat].
Qed.

Lemma requests_base reqs q :
  base_repeat (config (foldl key_repeat_request q reqs)) = base_repeat (config q)
  /\ shell_resource (foldl key_repeat_request q reqs) = shell_resource q.
Proof.
  revert q. induction reqs as [|x l IH]; intros q; cbn [foldl]; [done|].
  destruct (IH (key_repeat_request q x)) as [-> ->]. apply request_base.
Qed.

(** What a stage of the unbind does to the configuration. *)
Lemma restore_power_config q :
  config (restore_power q) = (config q) <| display_forced_off := false |>.
Proof.
  unfold restore_power. destruct (display_forced_off (config q)) eqn:E.
  - by rewrite (emitted_field config _ _ config_emit (emitted_power true _)).
  - destruct (config q). cbn in *. by rewrite E.
Qed.
Lemma restore_pointer_invalid q :
  pc_valid (the_pointer_config (config (restore_pointer_config q))) = false
  /\ hotkeys (config (restore_pointer_config q)) = hotkeys (config q)
  /\ display_forced_off (config (restore_pointer_config q)) = display_forced_off (config q)
  /\ ffm_armed (config (restore_pointer_config q)) = ffm_armed (config q)
  /\ base_repeat (config (restore_pointer_config q)) = base_repeat (config q).
Proof.
  unfold restore_pointer_config. cbv zeta. set (q1 := if pc_valid _ then _ else q).
  assert (H1 : config q1 = config q).
  { unfold q1. destruct (pc_valid _); [|done]. by apply emitted_field, emitted_walk. }
  clearbody q1. rewrite <- H1. by split_and!.
Qed.
Lemma restore_repeat_base q :
  let c := config (restore_key_repeat q) in
  (kb_repeat_rate c, kb_repeat_delay c) = base_repeat (config q)
  /\ hotkeys c = hotkeys (config q) /\ display_forced_off c = display_forced_off (config q)
  /\ ffm_armed c = ffm_armed (config q) /\ the_pointer_config c = the_pointer_config (config q)
  /\ kb_repeat_overridden c = false.
Proof.
  cbv zeta. unfold restore_key_repeat, base_repeat. destruct (kb_repeat_overridden (config q)) eqn:E.
  - rewrite (emitted_field config _ _ config_emit (emitted_repeat _)). by split_and!.
  - by split_and!.
Qed.

(** What the unbind leaves of the shell's configuration, stage by stage. *)
Definition stage_config (pending : list (string * Z)) (q : qdwin) : qdwin :=
  q ~> revoke_remote_input pending ~> qdwin_hotkeys_purge ~> end_move_grab ~> qdwin_ffm_cancel
    ~> set_policy qdwin_wm_policy_set_defaults.

Lemma stage_config_spec pending q :
  let q' := stage_config pending q in
  config q' = disarm_ffm ((config q) <| hotkeys := [] |>)
  /\ policy q' = qdwin_wm_policy_set_defaults /\ move_grab_active q' = false
  /\ exists es, events q' = es ++ events q.
Proof.
  cbv zeta. unfold stage_config.
  pose proof (emitted_revoke pending q) as H. pose proof (emitted_grows _ _ H) as He.
  apply (emitted_field config _ _ config_emit) in H. revert H He.
  generalize (revoke_remote_input pending q). intros q1 H He. rewrite <- H. by split_and!.
Qed.

Definition stage_restore (q : qdwin) : qdwin :=
  q ~> restore_power ~> restore_pointer_config ~> restore_key_repeat.

Lemma restore_power_keeps q :
  policy (restore_power q) = policy q /\ move_grab_active (restore_power q) = move_grab_active q
  /\ exists es, events (restore_power q) = es ++ events q.
Proof.
  unfold restore_power. destruct (display_forced_off _); [|by split_and!; [..|exists []]].
  cbv zeta. set (q1 := upd_config _ q).
  pose proof (emitted_power true q1) as H. split_and!.
  - by rewrite (emitted_field policy _ _ (fun _ _ => eq_refl) H).
  - by rewrite (emitted_field move_grab_active _ _ (fun _ _ => eq_refl) H).
  - exact (emitted_grows _ _ H).
Qed.
Lemma restore_pointer_keeps q :
  policy (restore_pointer_config q) = policy q
  /\ move_grab_active (restore_pointer_config q) = move_grab_active q
  /\ exists es, events (restore_pointer_config q) = es ++ events q.
Proof.
  unfold restore_pointer_config. cbv zeta. destruct (pc_valid _); [|by split_and!; [..|exists []]].
  pose proof (emitted_walk qdwin_pointer_config_reset_device q) as H. split_and!.
  - exact (emitted_field policy _ _ (fun _ _ => eq_refl) H).
  - exact (emitted_field move_grab_active _ _ (fun _ _ => eq_refl) H).
  - exact (emitted_grows _ _ H).
Qed.
Lemma restore_repeat_keeps q :
  policy (restore_key_repeat q) = policy q
  /\ move_grab_active (restore_key_repeat q) = move_grab_active q
  /\ exists es, events (restore_key_repeat q) = es ++ events q.
Proof.
  unfold restore_key_repeat. destruct (kb_repeat_overridden _); [|by split_and!; [..|exists []]].
  cbv zeta. set (q1 := upd_config _ q). pose proof (emitted_repeat q1) as H. split_and!.
  - by rewrite (emitted_field policy _ _ (fun _ _ => eq_refl) H).
  - by rewrite (emitted_field move_grab_active _ _ (fun _ _ => eq_refl) H).
  - exact (emitted_grows _ _ H).
Qed.

(** The three restores together. *)
Lemma stage_restore_spec q :
  let q' := stage_restore q in
  let c := config q' in
  (kb_repeat_rate c, kb_repeat_delay c) = base_repeat (config q) /\ kb_repeat_overridden c = false
  /\ hotkeys c = hotkeys (config q) /\ ffm_armed c = ffm_armed (config q)
  /\ display_forced_off c = false /\ pc_valid (the_pointer_config c) = false
  /\ policy q' = policy q /\ move_grab_active q' = move_grab_active q
  /\ exists es, events q' = es ++ events q.
Proof.
  cbv zeta. unfold stage_restore.
  destruct (restore_power_keeps q) as (W1 & W2 & W3 & W4).
  pose proof (restore_power_config q) as W5. revert W1 W2 W4 W5.
  generalize (restore_power q). intros q1 W1 W2 W4 W5.
  destruct (restore_pointer_keeps q1) as (P1 & P2 & P3 & P4).
  destruct (restore_pointer_invalid q1) as (P5 & P6 & P7 & P8 & P9). revert P1 P2 P4 P5 P6 P7 P8 P9.
  generalize (restore_pointer_config q1). intros q2 P1 P2 P4 P5 P6 P7 P8 P9.
  destruct (restore_repeat_keeps q2) as (K1 & K2 & K3 & K4).
  destruct (restore_repeat_base q2) as (K5 & K6 & K7 & K8 & K9 & K10). revert K1 K2 K4 K5 K6 K7 K8 K9 K10.
  generalize (restore_key_repeat q2). intros q3 K1 K2 K4 K5 K6 K7 K8 K9 K10.
  assert (E : hotkeys (config q1) = hotkeys (config q) /\ ffm_armed (config q1) = ffm_armed (config q)
              /\ display_forced_off (config q1) = false
              /\ base_repeat (config q1) = base_repeat (config q)) by (by rewrite W5).
  destruct E as (E1 & E2 & E3 & E4). clear W5. split_and!; try congruence.
  exists (K3 ++ P3 ++ W3). by rewrite K4, P4, W4, <- !app_assoc.
Qed.

(** Every setting the live pointer configuration writes on a device is written
    again by the unbind. *)
Lemma stage_restore_devices q d c :
  libinput_backend (config q) = true -> d ∈ devices (config q) ->
  libinput_seat (dev_seat_name d) = true -> defaults_supported d ->
  c ∈ qdwin_pointer_config_apply_device (the_pointer_config (config q)) d ->
  exists c', setting_of c' = setting_of c /\ c' ∈ qdwin_pointer_config_reset_device d
             /\ news q (stage_restore q) (libinput_config (dev_id d) c').
Proof.
  intros Hb Hd Hs Hdef Hc. destruct (reset_covers_apply _ d c Hdef Hc) as (c' & Hr & Hset).
  exists c'. split_and!; [done|done|]. unfold stage_restore.
  destruct (restore_power_keeps q) as (_ & _ & W3).
  pose proof (restore_power_config q) as W5. apply (news_before q (restore_power q)); [done|].
  assert (Hv : pc_valid (the_pointer_config (config q)) = true).
  { unfold qdwin_pointer_config_apply_device in Hc.
    destruct (pc_valid _); [done|]. by apply elem_of_nil in Hc. }
  revert W5. clear W3. generalize (restore_power q). intros q1 W5.
  assert (E : the_pointer_config (config q1) = the_pointer_config (config q)
              /\ libinput_backend (config q1) = libinput_backend (config q)
              /\ devices (config q1) = devices (config q)) by (by rewrite W5).
  destruct E as (E1 & E2 & E3).
  apply (news_after q1 (restore_pointer_config q1)); [apply restore_repeat_keeps|].
  unfold restore_pointer_config. cbv zeta. rewrite E1, Hv.
  apply (walk_calls qdwin_pointer_config_reset_device q1 d c'); congruence || done.
Qed.

(** Every output is powered on again. *)
Lemma power_on_all q o : o ∈ outputs q -> news q (qdwin_set_all_outputs_power true q) (output_power (out_id o) true).
Proof.
  unfold qdwin_set_all_outputs_power. generalize (outputs q) as os. intros os. revert q.
  induction os as [|x os IH]; intros q; [by intros ?%elem_of_nil|]. cbn [foldl].
  intros [->|H]%elem_of_cons.
  - apply (news_after q (emit (output_power (out_id x) true) q)); [|by exists [output_power (out_id x) true]; split; [|apply list_elem_of_here]].
    apply emitted_grows, emitted_foldl. intros. apply emitted_emit.
  - apply (news_before q (emit (output_power (out_id x) true) q)); [by exists [output_power (out_id x) true]|].
    by apply IH.
Qed.

Lemma stage_restore_power q o :
  display_forced_off (config q) = true -> o ∈ outputs q ->
  news q (stage_restore q) (output_power (out_id o) true).
Proof.
  intros Hf Ho. unfold stage_restore.
  apply (news_after q (restore_pointer_config (restore_power q))); [apply restore_repeat_keeps|].
  apply (news_after q (restore_power q)); [apply restore_pointer_keeps|].
  unfold restore_power. rewrite Hf. set (q1 := upd_config _ q).
  apply (news_before q q1); [by exists []|]. by apply power_on_all.
Qed.

Lemma stage_config_outputs pending q : outputs (stage_config pending q) = outputs q.
Proof.
  unfold stage_config. rewrite <- (emitted_field outputs _ _ (fun _ _ => eq_refl) (emitted_revoke pending q)).
  generalize (revoke_remote_input pending q). intros q1. reflexivity.
Qed.

Lemma shell_loss_stages pending r q :
  shell_resource q = Some r ->
  qdwin_shell_resource_destroy pending r q
  = forget_shell (qdwin_data_offer_pending_free_all (stage_restore (stage_config pending q))).
Proof.
  intros Hr. unfold qdwin_shell_resource_destroy. rewrite bool_decide_eq_true_2 by exact Hr.
  unfold stage_restore, stage_config. reflexivity.
Qed.

(** C10.  The loss of the shell takes back everything it configured, whatever
    it asked before: whichever key-repeat settings it requested, the one of the
    compositor is back; no hotkey is left, the window-manager policy is the
    default one, the displays are not forced off (and if they were, every output
    is powered on again), no pointer configuration is live and none of its settings stays on a device that libinput gives
    supported defaults for (each is written again with the device's own
    default), no focus change is armed, no interactive move goes on, no
    clipboard transfer waits for an answer and the role is free. *)
Theorem shell_loss_reverts (q : qdwin) (r : wl_resource) (pending : list (string * Z))
    (reqs : list (wl_resource * Z * Z))
    (Hr : shell_resource q = Some r) (Hk : kb_repeat_overridden (config q) = false) :
  let q1 := foldl key_repeat_request q reqs in
  let q' := qdwin_shell_resource_destroy pending r q1 in
  let c := config q' in
  kb_repeat_rate c = kb_repeat_rate (config q) /\ kb_repeat_delay c = kb_repeat_delay (config q)
  /\ kb_repeat_overridden c = false
  /\ hotkeys c = [] /\ display_forced_off c = false /\ pc_valid (the_pointer_config c) = false
  /\ ffm_armed c = None /\ policy q' = qdwin_wm_policy_set_defaults
  /\ move_grab_active q' = false /\ data_offers (clip q') = []
  /\ shell_bound q' = false /\ shell_resource q' = None
  /\ (display_forced_off (config q1) = true ->
      forall o, o ∈ outputs q1 -> news q1 q' (output_power (out_id o) true))
  /\ (forall d x, libinput_backend (config q1) = true -> d ∈ devices (config q1) ->
        libinput_seat (dev_seat_name d) = true -> defaults_supported d ->
        x ∈ qdwin_pointer_config_apply_device (the_pointer_config (config q1)) d ->
        exists x', setting_of x' = setting_of x /\ x' ∈ qdwin_pointer_config_reset_device d
                   /\ news q1 q' (libinput_config (dev_id d) x')).
Proof.
  cbv zeta. destruct (requests_base reqs q) as [B1 B2]. revert B1 B2.
  generalize (foldl key_repeat_request q reqs). intros q1 B1 B2. rewrite Hr in B2.
  rewrite (shell_loss_stages _ _ _ B2).
  destruct (stage_config_spec pending q1) as (C1 & C2 & C3 & C4).
  pose proof (stage_config_outputs pending q1) as C5. revert C1 C2 C3 C4 C5.
  generalize (stage_config pending q1). intros q2 C1 C2 C3 C4 C5.
  destruct (stage_restore_spec q2) as (R1 & R2 & R3 & R4 & R5 & R6 & R7 & R8 & R9).
  pose proof (stage_restore_devices q2) as Hdev. pose proof (stage_restore_power q2) as Hpow.
  revert R1 R2 R3 R4 R5 R6 R7 R8 R9 Hdev Hpow.
  generalize (stage_restore q2). intros q3 R1 R2 R3 R4 R5 R6 R7 R8 R9 Hdev Hpow.
  pose proof (free_all_gone q3) as F1. pose proof (free_all_events q3) as F4.
  pose proof (free_all_keeps config q3 (fun _ _ => eq_refl) (fun _ _ => eq_refl)) as F2.
  pose proof (free_all_keeps policy q3 (fun _ _ => eq_refl) (fun _ _ => eq_refl)) as F5.
  pose proof (free_all_keeps move_grab_active q3 (fun _ _ => eq_refl) (fun _ _ => eq_refl)) as F6.
  revert F1 F2 F4 F5 F6. generalize (qdwin_data_offer_pending_free_all q3).
  intros q4 F1 F2 F4 F5 F6. rewrite <- F2 in R1, R2, R3, R4, R5, R6.
  assert (HB : base_repeat (config q2) = (kb_repeat_rate (config q), kb_repeat_delay (config q))).
  { rewrite C1. etransitivity; [exact B1|]. unfold base_repeat. by rewrite Hk. }
  rewrite HB in R1. injection R1 as R1 R1'. rewrite C1 in R3, R4.
  split_and!; try (etransitivity; [|eassumption]; done); try congruence; try done.
  { change (policy q4 = qdwin_wm_policy_set_defaults). congruence. }
  { change (move_grab_active q4 = false). congruence. }
  { intros Hf o Ho. apply (news_after q1 q3); [done|]. apply (news_before q1 q2); [done|].
    apply Hpow; [by rewrite C1|by rewrite C5]. }
  intros d x H1 H2 H3 H4 H5. destruct (Hdev d x) as (x' & X1 & X2 & X3); try done; try by rewrite C1.
  exists x'. split_and!; [done|done|]. apply (news_after q1 q3); [done|].
  by apply (news_before q1 q2).
Qed.

(** A shell that set the key repeat twice and then turned the display off. *)
Definition ex_shell_cfg : qdwin :=
  ex_qdwin <| shell_bound := true |> <| shell_resource := Some (mk_resource 9 32 4) |>.
Definition ex_dark : qdwin := qdwin_handle_set_display_power (mk_resource 9 32 4) 0 ex_shell_cfg.

Lemma shell_loss_reverts_witness :
  let r := mk_resource 9 32 4 in
  let q1 := foldl key_repeat_request ex_dark [(r, 300, 0); (r, 20, 400)] in
  let q' := qdwin_shell_resource_destroy [] r q1 in
  kb_repeat_rate (config q1) = 20 /\ display_forced_off (config q1) = true
  /\ kb_repeat_rate (config q') = kb_repeat_rate (config ex_dark)
  /\ exists o, outputs q1 = [o] /\ news q1 q' (output_power (out_id o) true).
Proof.
  cbv zeta. set (r := mk_resource 9 32 4).
  destruct (shell_loss_reverts ex_dark r [] [(r, 300, 0); (r, 20, 400)])
    as (A1 & _ & _ & _ & _ & _ & _ & _ & _ & _ & _ & _ & A2 & _); [reflexivity|reflexivity|].
  split_and!; [vm_compute; reflexivity|vm_compute; reflexivity|exact A1|].
  eexists. split; [vm_compute; reflexivity|]. apply A2; [vm_compute; reflexivity|].
  vm_compute. apply list_elem_of_here.
Defined.

(** ** Activations and their targets *)

(** What the activation broker reads of the state. *)
Definition broker (q : qdwin) : activation * option wl_resource * bool * bool :=
  (activ q, shell_resource q, shell_bound q, locked q).

Lemma broker_send n e q : broker (shell_send n e q) = broker q.
Proof. unfold shell_send. by destruct (shell_version_ge n q). Qed.
Lemma broker_side tl i x y q : broker (place_side tl i x y q) = broker q.
Proof. unfold place_side. destruct (tl_chrome tl !! i) as [c|]; [|done]. by destruct (ch_view c). Qed.
Lemma broker_chrome h q : broker (qdwin_toplevel_position_chrome h q) = broker q.
Proof.
  unfold qdwin_toplevel_position_chrome, with_tl.
  destruct (qdwin_toplevel_from_handle h q) as [tl|]; [|done]. cbv zeta. by rewrite !broker_side.
Qed.
Lemma broker_unpin s q : broker (qdwin_view_stream_unpin s q) = broker q.
Proof.
  unfold qdwin_view_stream_unpin. destruct (negb (vs_pinned s)); [done|]. cbv zeta.
  destruct (vs_tl s) as [h|]; [|done]. unfold with_tl.
  destruct (qdwin_toplevel_from_handle h _) as [tl|]; [|done].
  destruct (view tl =? NULL_VIEW); [done|]. by rewrite broker_chrome.
Qed.
Lemma broker_terminate reason q s : broker (qdwin_view_stream_terminate reason q s) = broker q.
Proof.
  unfold qdwin_view_stream_terminate, qdwin_view_stream_release_server_state. cbv zeta.
  destruct (vs_resource s && _), (vs_released s); try done;
    (etransitivity; [apply (broker_unpin s)|done]).
Qed.
Lemma broker_streams sel reason q : broker (terminate_streams sel reason q) = broker q.
Proof.
  unfold terminate_streams. generalize (List.filter sel (view_streams q)). intros l. revert q.
  induction l as [|s l IH]; intros q; cbn [foldl]; [done|]. by rewrite IH, broker_terminate.
Qed.
Lemma broker_dependents h q : broker (qdwin_toplevel_release_dependents h q) = broker q.
Proof.
  unfold qdwin_toplevel_release_dependents. rewrite broker_streams.
  unfold qdwin_move_grab_end_for, dismiss_popup, qdwin_popup_teardown.
  destruct (popup_of h q) as [p|]; [destruct (pp_view p =? NULL_VIEW)|];
    repeat (split_match; try done).
Qed.
Lemma broker_forget_lock tl q : broker (forget_lock_toplevel tl q) = broker q.
Proof. unfold forget_lock_toplevel, clear_lock_view. cbv zeta. repeat (split_match; try done). Qed.

(** The removal of a window leaves the broker alone. *)
Lemma broker_removed h q : broker (qdwin_surface_removed h q) = broker q.
Proof.
  unfold qdwin_surface_removed, with_tl.
  destruct (qdwin_toplevel_from_handle h q) as [tl|]; [|done]. cbv zeta.
  etransitivity; [|apply (broker_forget_lock tl q)]. generalize (forget_lock_toplevel tl q).
  intros q1. set (q2 := if nested_mode q1 then _ else _).
  assert (H2 : broker q2 = broker q1).
  { unfold q2. destruct (nested_mode q1); [done|apply broker_send]. }
  clearbody q2. rewrite <- H2, <- (broker_dependents h q2). done.
Qed.

Lemma removed_unresolved h q : qdwin_toplevel_from_handle h (qdwin_surface_removed h q) = None.
Proof.
  unfold qdwin_surface_removed, with_tl.
  destruct (qdwin_toplevel_from_handle h q) as [tl|] eqn:E; [|done].
  apply (find_filter_none (fun t => handle t =? h)).
Qed.

(** Activating a window of a bound shell queues a request for its decision. *)
Lemma activate_queues q token s t tl :
  qdwin_activation_token_find (Some token) q = Some t ->
  qdwin_toplevel_from_wl_surface (Some s) q = Some tl ->
  locked q = false -> shell_version_ge 12 q = true -> oom q = false ->
  let q1 := qdwin_activation_activate (Some token) (Some s) q in
  let k := activation_pending_next_handle (activ q1) in
  qdwin_activation_pending_find k q1 = Some (mk_activation_pending k (Some (at_id t)) (handle tl) s)
  /\ shell_resource q1 = shell_resource q /\ shell_bound q1 = shell_bound q.
Proof.
  intros Ht Htl Hl Hv Ho. cbv zeta. unfold qdwin_activation_activate. rewrite Ht. cbv zeta.
  set (q0 := upd_token _ _ q).
  assert (H0 : toplevels q0 = toplevels q /\ locked q0 = locked q /\ oom q0 = oom q
               /\ shell_resource q0 = shell_resource q /\ shell_bound q0 = shell_bound q) by done.
  destruct H0 as (H1 & H2 & H3 & H4 & H5). clearbody q0.
  assert (H6 : qdwin_toplevel_from_wl_surface (Some s) q0 = Some tl).
  { unfold qdwin_toplevel_from_wl_surface in *. by rewrite H1. }
  assert (H7 : shell_version_ge 12 q0 = true).
  { unfold shell_version_ge in *. by rewrite H4, H5. }
  rewrite H6, H2, Hl, H7, H3, Ho. cbn [negb].
  unfold qdwin_activation_pending_find. cbn. rewrite Z.eqb_refl. split_and!; done.
Qed.

(** An activation that waits for the shell's decision outlives its
    target.  When the window is removed while its surface lives on, the pending
    entry keeps pointing to the freed window, since only the destruction of the
    surface drops it; if the shell then allows the activation, the freed
    window is used. *)
Theorem activation_target_dangles (q : qdwin) (r : wl_resource) (token : string) (s : Z)
    (t : activation_token) (tl : toplevel)
    (Ht : qdwin_activation_token_find (Some token) q = Some t)
    (Htl : qdwin_toplevel_from_wl_surface (Some s) q = Some tl)
    (Hl : locked q = false) (Hr : shell_resource q = Some r)
    (Hv : shell_version_ge 12 q = true) (Ho : oom q = false) :
  let q1 := qdwin_activation_activate (Some token) (Some s) q in
  let k := activation_pending_next_handle (activ q1) in
  let q2 := qdwin_surface_removed (handle tl) q1 in
  qdwin_toplevel_from_handle (handle tl) q2 = None
  /\ (exists ap, qdwin_activation_pending_find k q2 = Some ap /\ ap_target ap = handle tl)
  /\ use_after_free (handle tl) ∈ events (qdwin_handle_activation_decision r k 0 q2).
Proof.
  cbv zeta. destruct (activate_queues q token s t tl Ht Htl Hl Hv Ho) as (A1 & A2 & A3).
  revert A1 A2 A3. generalize (qdwin_activation_activate (Some token) (Some s) q).
  intros q1. generalize (activation_pending_next_handle (activ q1)). intros k A1 A2 A3.
  pose proof (removed_unresolved (handle tl) q1) as U. pose proof (broker_removed (handle tl) q1) as B.
  revert U B. generalize (qdwin_surface_removed (handle tl) q1). intros q2 U B.
  injection B as B1 B2 B3 _.
  assert (F : qdwin_activation_pending_find k q2
              = Some (mk_activation_pending k (Some (at_id t)) (handle tl) s)).
  { unfold qdwin_activation_pending_find in *. by rewrite B1. }
  split_and!; [exact U|by eexists|].
  unfold qdwin_handle_activation_decision, shell_request, qdwin_shell_require_bound.
  assert (Hb : shell_bound q = true).
  { unfold shell_version_ge in Hv. rewrite Hr in Hv. by apply andb_prop in Hv as [? _]. }
  rewrite B2, B3, A2, A3, Hb, Hr, bool_decide_eq_true_2 by done. cbn [andb]. rewrite F. cbv zeta.
  unfold qdwin_activation_perform. cbn [Z.eqb ap_target].
  change (qdwin_toplevel_from_handle (handle tl) (unlink_activation _ q2))
    with (qdwin_toplevel_from_handle (handle tl) q2).
  rewrite U. apply list_elem_of_here.
Qed.

Definition ex_activation : qdwin :=
  ex_shell_cfg ~> qdwin_activation_get_activation_token 70
    ~> qdwin_activation_token_commit 70 (Some "0badcafe").
Definition ex_act_token : activation_token :=
  Eval vm_compute in default (mk_activation_token 0 true None "" None 0 false false)
    (qdwin_activation_token_find (Some "0badcafe") ex_activation).
Definition ex_act_surface : Z := Eval vm_compute in ds_surface ex_dsurf.
Definition ex_act_tl : toplevel :=
  Eval vm_compute in default ex_toplevel
    (qdwin_toplevel_from_wl_surface (Some ex_act_surface) ex_activation).

Lemma activation_target_dangles_witness :
  exists q2, qdwin_toplevel_from_handle (handle ex_act_tl) q2 = None
    /\ exists k, use_after_free (handle ex_act_tl)
         ∈ events (qdwin_handle_activation_decision (mk_resource 9 32 4) k 0 q2).
Proof.
  eexists. split; [|eexists].
  1: refine (proj1 (activation_target_dangles ex_activation (mk_resource 9 32 4) "0badcafe"
                      ex_act_surface ex_act_token ex_act_tl _ _ _ _ _ _)); vm_compute; reflexivity.
  refine (proj2 (proj2 (activation_target_dangles ex_activation (mk_resource 9 32 4) "0badcafe"
                          ex_act_surface ex_act_token ex_act_tl _ _ _ _ _ _)));
    vm_compute; reflexivity.
Defined.
