(* ===== verification/OutputMgmt.v ===== *)
(** * OutputMgmt: output management

    The wlr-output-management implementation of [qdwin.c]: managers with their
    head and mode objects, configurations and their transactional application
    to libweston's outputs.

    An [assert] of libweston that fails stops the compositor: operations that
    may reach one return [None] there.  The backend's callbacks are a parameter,
    asked with the number of calls made so far, so that the same call may fail
    once and succeed later. *)

From stdpp Require Import base list gmap strings option.
From S2P Require Import Prelude Logic State.
Import Policy.

(** ** Outputs of libweston *)

Record weston_mode := mk_weston_mode { wm_key : Z; wm_width : Z; wm_height : Z; wm_refresh : Z }.

#[global] Instance weston_mode_eq_dec : EqDecision weston_mode.
Proof. solve_decision. Defined.

Record weston_output := mk_weston_output {
  wo_id : Z; wo_enabled : bool; wo_destroying : bool;
  wo_pos : Z * Z; wo_scale : Z; wo_transform : Z;
  wo_mode : option weston_mode;            (* current_mode *)
  wo_modes : list weston_mode;             (* mode_list *)
  wo_width : Z; wo_height : Z;
  wo_can_switch : bool                     (* the backend has a switch_mode *)
}.
#[global] Instance eta_weston_output : Eta weston_output := fun r =>
  mk_weston_output (wo_id r) (wo_enabled r) (wo_destroying r) (wo_pos r) (wo_scale r)
    (wo_transform r) (wo_mode r) (wo_modes r) (wo_width r) (wo_height r) (wo_can_switch r).

Record weston_head := mk_weston_head {
  wh_id : Z; wh_output : option Z; wh_non_desktop : bool
}.

(** The callbacks of the backend: the [n]-th call, on an output.  [be_switch]
    also gives the mode the output is left with. *)
Class backend := {
  be_enable : nat -> Z -> bool;
  be_disable : nat -> Z -> bool;
  be_switch : nat -> Z -> weston_mode -> bool * option weston_mode
}.

(** ** Protocol objects *)

Record om_mode := mk_om_mode { omm_res : Z; omm_head : option Z; omm_mode : option weston_mode }.
Record om_head := mk_om_head {
  omh_res : Z; omh_mgr : option Z; omh_head : option Z; omh_output : option Z
}.
Record om_manager := mk_om_manager { omg_res : Z; omg_client : Z; omg_may_mutate : bool }.

Record om_saved := mk_om_saved {
  sv_output : Z; sv_enabled : bool; sv_pos : Z * Z; sv_scale : Z; sv_transform : Z;
  sv_mode : option weston_mode
}.

Record om_cfg_head := mk_om_cfg_head {
  ch_res : option Z; ch_head : option Z; ch_output : option Z; ch_enabled : bool;
  ch_mode : option weston_mode; ch_custom : option (Z * Z * Z);
  ch_position : option (Z * Z); ch_transform : option Z; ch_scale : option Z
}.
#[global] Instance eta_om_cfg_head : Eta om_cfg_head := fun r =>
  mk_om_cfg_head (ch_res r) (ch_head r) (ch_output r) (ch_enabled r) (ch_mode r) (ch_custom r)
    (ch_position r) (ch_transform r) (ch_scale r).

Record om_config := mk_om_config {
  cfg_res : Z; cfg_client : Z; cfg_serial : Z; cfg_used : bool; cfg_may_mutate : bool;
  cfg_heads : list om_cfg_head
}.
#[global] Instance eta_om_config : Eta om_config := fun r =>
  mk_om_config (cfg_res r) (cfg_client r) (cfg_serial r) (cfg_used r) (cfg_may_mutate r)
    (cfg_heads r).

Inductive om_error :=
  | ALREADY_SET | INVALID_MODE | INVALID_CUSTOM_MODE | INVALID_TRANSFORM | INVALID_SCALE
  | ALREADY_CONFIGURED_HEAD | UNCONFIGURED_HEAD | ALREADY_USED.

Inductive om_event :=
  | om_head_advertised (mgr res : Z)
  | om_head_finished (res : Z)
  | om_mode_finished (res : Z)
  | om_mgr_finished (res : Z)
  | om_done (mgr serial : Z)
  | om_succeeded (cfg : Z)
  | om_failed (cfg : Z)
  | om_cancelled (cfg : Z)
  | om_post_error (res : Z) (code : om_error)
  | om_not_authorized (client : Z)
  | om_no_memory (client : Z)
  | om_output_created (o : Z)
  | om_output_destroyed (o : Z)
  | om_output_resized (o : Z)
  | om_output_moved (o : Z)
  | om_shell_state_derived (curtain : bool).

(** What output management sees: libweston's two output lists and its heads,
    the flag that output positions were set explicitly, the number of backend
    calls so far, and the protocol objects. *)
Record om_state := mk_om_state {
  output_list : list weston_output; pending_output_list : list weston_output;
  heads : list weston_head; output_flow_dirty : bool; backend_calls : nat;
  om_serial : Z; om_managers : list om_manager; om_heads : list om_head; om_modes : list om_mode;
  om_configs : list om_config; om_next_res : Z; om_locked : bool; om_oom : bool;
  om_events : list om_event
}.
#[global] Instance eta_om_state : Eta om_state := fun r =>
  mk_om_state (output_list r) (pending_output_list r) (heads r) (output_flow_dirty r)
    (backend_calls r) (om_serial r) (om_managers r) (om_heads r) (om_modes r) (om_configs r)
    (om_next_res r) (om_locked r) (om_oom r) (om_events r).

Definition om_emit (e : om_event) (c : om_state) : om_state := c <| om_events ::= cons e |>.

Definition all_outputs (c : om_state) : list weston_output :=
  output_list c ++ pending_output_list c.
Definition find_output (i : Z) (c : om_state) : option weston_output :=
  List.find (fun o => wo_id o =? i) (all_outputs c).
Definition upd_output (i : Z) (f : weston_output -> weston_output) (c : om_state) : om_state :=
  let g := map (fun o => if wo_id o =? i then f o else o) in
  c <| output_list ::= g |> <| pending_output_list ::= g |>.
Definition put_output (o : weston_output) : om_state -> om_state :=
  upd_output (wo_id o) (fun _ => o).

(** ** Heads and modes of a manager *)

Definition om_fresh (c : om_state) : Z * om_state :=
  (om_next_res c, c <| om_next_res ::= Z.succ |>).

(** One mode object per mode of the output. *)
Definition send_mode (h : Z) (c : om_state) (m : weston_mode) : om_state :=
  if om_oom c then c
  else let (r, c) := om_fresh c in c <| om_modes ::= cons (mk_om_mode r (Some h) (Some m)) |>.

Definition qdwin_om_send_head_details (h : om_head) (c : om_state) : om_state :=
  match omh_head h, omh_output h ≫= fun o => find_output o c with
  | Some _, Some o => foldl (send_mode (omh_res h)) c (wo_modes o)
  | _, _ => c
  end.

Definition create_head (mgr : Z) (c : om_state) (wh : weston_head) : om_state :=
  if wh_non_desktop wh || om_oom c then c
  else
    let (r, c) := om_fresh c in
    let h := mk_om_head r (Some mgr) (Some (wh_id wh)) (wh_output wh) in
    c <| om_heads ::= cons h |>
    ~> om_emit (om_head_advertised mgr r)
    ~> qdwin_om_send_head_details h.

Definition qdwin_om_manager_create_heads (mgr : Z) (c : om_state) : om_state :=
  foldl (create_head mgr) c (heads c).

Definition head_of_mgr (mgr : Z) (h : om_head) : bool := bool_decide (omh_mgr h = Some mgr).

(** The modes of a finished head are inert. *)
Definition qdwin_om_head_destroy_modes (h : Z) (c : om_state) : om_state :=
  let mine m := bool_decide (omm_head m = Some h) in
  foldl (fun c m => om_emit (om_mode_finished (omm_res m)) c) c (List.filter mine (om_modes c))
  ~> (fun c => c <| om_modes ::= map (fun m => if mine m then mk_om_mode (omm_res m) None None
                                              else m) |>).

Definition inert_head (h : om_head) : om_head := mk_om_head (omh_res h) None None None.

Definition finish_head (c : om_state) (h : om_head) : om_state :=
  c ~> qdwin_om_head_destroy_modes (omh_res h)
    ~> om_emit (om_head_finished (omh_res h))
    ~> (fun c => c <| om_heads ::= map (fun x => if omh_res x =? omh_res h then inert_head x
                                                else x) |>).

Definition qdwin_om_manager_destroy_heads (mgr : Z) (c : om_state) : om_state :=
  foldl finish_head c (List.filter (head_of_mgr mgr) (om_heads c)).

(** A stopped manager is destroyed at once, so the managers of the list are
    those that run. *)
Definition qdwin_om_manager_resync (c : om_state) (m : om_manager) : om_state :=
  c ~> qdwin_om_manager_destroy_heads (omg_res m)
    ~> qdwin_om_manager_create_heads (omg_res m)
    ~> (fun c => om_emit (om_done (omg_res m) (om_serial c)) c).

Definition qdwin_om_resync_all (c : om_state) : om_state :=
  let c := c <| om_serial ::= u32_succ |> in
  foldl qdwin_om_manager_resync c (om_managers c).

Definition qdwin_om_mode_resource_destroy (r : Z) (c : om_state) : om_state :=
  c <| om_modes ::= List.filter (fun m => negb (omm_res m =? r)) |>.

Definition orphan_modes (h : Z) (m : om_mode) : om_mode :=
  if bool_decide (omm_head m = Some h) then mk_om_mode (omm_res m) None (omm_mode m) else m.

Definition qdwin_om_head_resource_destroy (r : Z) (c : om_state) : om_state :=
  c <| om_modes ::= map (orphan_modes r) |>
    <| om_heads ::= List.filter (fun h => negb (omh_res h =? r)) |>.

(** ** libweston's output operations *)

Definition valid_transform (t : Z) : bool := (0 <=? t) && (t <=? 7).

Definition convert_size_by_transform_scale (w h t s : Z) : option (Z * Z) :=
  if negb (0 <? s) then None
  else if negb (valid_transform t) then None
  else Some (if Z.odd t then (cdiv h s, cdiv w s) else (cdiv w s, cdiv h s)).

Definition weston_output_transform_scale_init (t s : Z) (o : weston_output)
    : option weston_output :=
  if negb (0 <? wo_scale o) then None
  else match wo_mode o with
  | None => None
  | Some m =>
      let! wh := convert_size_by_transform_scale (wm_width m) (wm_height m) t s in
      Some (o <| wo_transform := t |> <| wo_width := fst wh |> <| wo_height := snd wh |>)
  end.

Definition weston_mode_switch_finish (o : weston_output) : option weston_output :=
  weston_output_transform_scale_init (wo_transform o) (wo_scale o) o.

Definition weston_output_set_position (i : Z) (p : Z * Z) (c : om_state) : om_state :=
  match find_output i c with
  | None => c
  | Some o =>
      if negb (wo_enabled o) then put_output (o <| wo_pos := p |>) c
      else if bool_decide (p = wo_pos o) then c
      else c ~> put_output (o <| wo_pos := p |>) ~> om_emit (om_output_moved i)
  end.

Definition weston_output_move (i : Z) (p : Z * Z) (c : om_state) : om_state :=
  c <| output_flow_dirty := true |> ~> weston_output_set_position i p.

Definition weston_compositor_reflow_outputs (resized : weston_output) (delta : Z) (c : om_state)
    : om_state :=
  if output_flow_dirty c then c
  else if delta =? 0 then c
  else foldl (fun c o =>
         if fst (wo_pos o) <=? fst (wo_pos resized) then c
         else weston_output_set_position (wo_id o) (fst (wo_pos o) + delta, snd (wo_pos o)) c)
         c (output_list c).

Definition weston_output_set_scale (i s : Z) (c : om_state) : option om_state :=
  match find_output i c with
  | None => Some c
  | Some o =>
      if negb (wo_enabled o) then Some (put_output (o <| wo_scale := s |>) c)
      else if wo_scale o =? s then Some c
      else let! o := weston_mode_switch_finish (o <| wo_scale := s |>) in
           Some (c ~> put_output o ~> om_emit (om_output_resized i) ~> qdwin_om_resync_all)
  end.

Definition weston_output_set_transform (i t : Z) (c : om_state) : option om_state :=
  match find_output i c with
  | None => Some c
  | Some o =>
      if negb (wo_enabled o) && (wo_transform o =? UINT32_MAX)
      then Some (put_output (o <| wo_transform := t |>) c)
      else let! o := weston_output_transform_scale_init t (wo_scale o) o in
           Some (put_output o c)
  end.

Section Backend.
Context `{be : !backend}.

Definition backend_call (c : om_state) : om_state := c <| backend_calls ::= S |>.

(** The result tells whether the call succeeded. *)
Definition weston_output_mode_switch_to_temporary (i : Z) (m : weston_mode) (s : Z) (c : om_state)
    : option (bool * om_state) :=
  match find_output i c with
  | None => Some (false, c)
  | Some o =>
      if negb (wo_can_switch o) then Some (false, c)
      else
        let (ok, m') := be_switch (backend_calls c) i m in
        let o := o <| wo_mode := m' |> in
        if negb ok then Some (false, c ~> backend_call ~> put_output o)
        else let! o := weston_mode_switch_finish (o <| wo_scale := s |>) in
             Some (true, c ~> backend_call ~> put_output o)
  end.

(** An enabled output moves to the end of the list of live outputs; libweston
    has 32 output identifiers. *)
Definition weston_compositor_add_output (o : weston_output) (c : om_state) : option om_state :=
  if (32 <=? Z.of_nat (length (output_list c))) then None
  else Some (c <| pending_output_list ::= List.filter (fun x => negb (wo_id x =? wo_id o)) |>
               <| output_list ::= (fun l => l ++ [o <| wo_enabled := true |>]) |>
             ~> om_emit (om_output_created (wo_id o))
             ~> qdwin_om_resync_all).

Definition output_has_head (i : Z) (c : om_state) : bool :=
  existsb (fun h => bool_decide (wh_output h = Some i)) (heads c).

Definition weston_output_enable (i : Z) (c : om_state) : option (bool * om_state) :=
  match find_output i c with
  | None => Some (false, c)
  | Some o =>
      if wo_enabled o then Some (false, c)
      else if negb (output_has_head i c) then Some (false, c)
      else if bool_decide (wo_modes o = []) || bool_decide (wo_mode o = None) then Some (false, c)
      else if wo_transform o =? UINT32_MAX then None
      else
        let! o := weston_output_transform_scale_init (wo_transform o) (wo_scale o) o in
        let ok := be_enable (backend_calls c) i in
        let c := c ~> backend_call ~> put_output o in
        if negb ok then Some (false, c)
        else let! c := weston_compositor_add_output o c in Some (true, c)
  end.

Definition weston_compositor_remove_output (o : weston_output) (c : om_state) : om_state :=
  c ~> weston_compositor_reflow_outputs o (- wo_width o)
    ~> (fun c => c <| output_list ::= List.filter (fun x => negb (wo_id x =? wo_id o)) |>
                   <| pending_output_list ::= (fun l => l ++ [o <| wo_enabled := false |>]) |>)
    ~> om_emit (om_output_destroyed (wo_id o))
    ~> qdwin_om_resync_all.

Definition weston_output_disable (i : Z) (c : om_state) : om_state :=
  match find_output i c with
  | None => c
  | Some o =>
      let ok := be_disable (backend_calls c) i in
      let c := c ~> backend_call ~> put_output (o <| wo_destroying := true |>) in
      if negb ok then c
      else c ~> (if wo_enabled o
                 then weston_compositor_remove_output (o <| wo_destroying := true |>)
                 else (fun c => c))
             ~> upd_output i (fun o => o <| wo_destroying := false |>)
  end.

(** ** Capture and rollback *)

Definition QDWIN_OM_MAX_OUTPUTS : nat := 32.

Definition qdwin_om_output_count (c : om_state) : nat := length (all_outputs c).

Definition capture_output (o : weston_output) : om_saved :=
  mk_om_saved (wo_id o) (wo_enabled o) (wo_pos o) (wo_scale o) (wo_transform o) (wo_mode o).

Definition qdwin_om_capture (max : nat) (c : om_state) : list om_saved :=
  map capture_output (take max (all_outputs c)).

Definition restore_live (s : om_saved) (c : om_state) : option om_state :=
  let i := sv_output s in
  let on_live (k : weston_output -> om_state -> option om_state) (c : om_state) :=
    match find_output i c with Some o => k o c | None => Some c end in
  let! c := on_live (fun o c =>
    match sv_mode s with
    | Some m => if bool_decide (Some m = wo_mode o) then Some c
                else option_map snd (weston_output_mode_switch_to_temporary i m (sv_scale s) c)
    | None => Some c
    end) c in
  let! c := on_live (fun o c => if sv_scale s =? wo_scale o then Some c
                                else weston_output_set_scale i (sv_scale s) c) c in
  on_live (fun o c => if sv_transform s =? wo_transform o then Some c
                      else weston_output_set_transform i (sv_transform s) c) c.

Definition is_live (i : Z) (c : om_state) : bool :=
  match find_output i c with Some o => wo_enabled o | None => false end.

Definition restore_output (s : om_saved) (c : om_state) : option om_state :=
  let i := sv_output s in
  let! c := if sv_enabled s && negb (is_live i c)
            then option_map snd (weston_output_enable i c) else Some c in
  let! c := if is_live i c then restore_live s c else Some c in
  let c := weston_output_move i (sv_pos s) c in
  Some (if negb (sv_enabled s) && is_live i c then weston_output_disable i c else c).

Fixpoint qdwin_om_restore (saved : list om_saved) (c : om_state) : option om_state :=
  match saved with
  | [] => Some c
  | s :: saved => let! c := restore_output s c in qdwin_om_restore saved c
  end.

(** ** Realizing a configuration *)

(** [wl_fixed_to_int]: 24.8 fixed point, truncated toward zero. *)
Definition wl_fixed_to_int (f : Z) : Z := cdiv f 256.

Definition mode_matches (w h r : Z) (m : weston_mode) : bool :=
  (wm_width m =? w) && (wm_height m =? h) && ((r =? 0) || (wm_refresh m =? u32 r)).

(** The custom mode becomes the first matching mode of the output.  What a
    failed validation has resolved so far is not observable: the configuration
    is used up. *)
Definition validate_head (c : om_state) (ch : om_cfg_head) : option om_cfg_head :=
  if bool_decide (ch_head ch = None) then None
  else if negb (ch_enabled ch) then Some ch
  else match ch_output ch ≫= fun i => find_output i c with
  | None => None
  | Some o =>
      match ch_custom ch with
      | None => Some ch
      | Some (w, h, r) =>
          match List.find (mode_matches w h r) (wo_modes o) with
          | Some m => Some (ch <| ch_mode := Some m |>)
          | None => None
          end
      end
  end.

Definition validate (chs : list om_cfg_head) (c : om_state) : option (list om_cfg_head) :=
  let! chs := mapM (validate_head c) chs in
  if existsb ch_enabled chs then Some chs else None.

Definition apply_disable (ch : om_cfg_head) (c : om_state) : om_state :=
  match ch_output ch with Some i => weston_output_disable i c | None => c end.

Definition apply_mode (i : Z) (ch : om_cfg_head) (c : om_state) : option (bool * om_state) :=
  match ch_mode ch, find_output i c with
  | Some m, Some o =>
      if bool_decide (Some m = wo_mode o) then Some (true, c)
      else weston_output_mode_switch_to_temporary i m
             (match ch_scale ch with Some s => wl_fixed_to_int s | None => wo_scale o end) c
  | _, _ => Some (true, c)
  end.

Definition apply_legs (i : Z) (ch : om_cfg_head) (c : om_state) : option om_state :=
  let! c := match ch_scale ch with
            | Some s => let sc := wl_fixed_to_int s in
                        weston_output_set_scale i (if sc <? 1 then 1 else sc) c
            | None => Some c
            end in
  let! c := match ch_transform ch with
            | Some t => weston_output_set_transform i t c
            | None => Some c
            end in
  Some (match ch_position ch with Some p => weston_output_move i p c | None => c end).

(** The result tells whether the head's legs all succeeded. *)
Definition apply_enable (i : Z) (ch : om_cfg_head) (c : om_state) : option (bool * om_state) :=
  match (if is_live i c then Some (true, c) else weston_output_enable i c) with
  | None => None
  | Some (false, c) => Some (false, c)
  | Some (true, c) =>
      match apply_mode i ch c with
      | None => None
      | Some (false, c) => Some (false, c)
      | Some (true, c) => let! c := apply_legs i ch c in Some (true, c)
      end
  end.

Definition apply_head (ch : om_cfg_head) (c : om_state) : option (bool * om_state) :=
  if negb (ch_enabled ch) then Some (true, apply_disable ch c)
  else match ch_output ch with
  | Some i => apply_enable i ch c
  | None => Some (false, c)
  end.

Fixpoint apply_heads (chs : list om_cfg_head) (c : om_state) : option (bool * om_state) :=
  match chs with
  | [] => Some (true, c)
  | ch :: chs =>
      match apply_head ch c with
      | None => None
      | Some (false, c) => Some (false, c)
      | Some (true, c) => apply_heads chs c
      end
  end.

Definition qdwin_om_config_realize (chs : list om_cfg_head) (test_only : bool) (c : om_state)
    : option (bool * om_state) :=
  if (QDWIN_OM_MAX_OUTPUTS <? qdwin_om_output_count c)%nat then Some (false, c)
  else match validate chs c with
  | None => Some (false, c)
  | Some chs =>
      if test_only then Some (true, c)
      else
        let saved := qdwin_om_capture QDWIN_OM_MAX_OUTPUTS c in
        match apply_heads chs c with
        | None => None
        | Some (true, c) => Some (true, om_emit (om_shell_state_derived (om_locked c)) c)
        | Some (false, c) => let! c := qdwin_om_restore saved c in Some (false, c)
        end
  end.

(** ** Configurations *)

Definition find_om_config (r : Z) (c : om_state) : option om_config :=
  List.find (fun g => cfg_res g =? r) (om_configs c).
Definition upd_om_config (r : Z) (f : om_config -> om_config) (c : om_state) : om_state :=
  c <| om_configs ::= map (fun g => if cfg_res g =? r then f g else g) |>.

Definition qdwin_om_config_find_head (wh : Z) (g : om_config) : option om_cfg_head :=
  List.find (fun ch => bool_decide (ch_head ch = Some wh)) (cfg_heads g).

Definition om_head_by_res (r : Z) (c : om_state) : option om_head :=
  List.find (fun h => omh_res h =? r) (om_heads c).

Definition configured_twice (wh : option Z) (g : om_config) : bool :=
  match wh with
  | Some w => bool_decide (qdwin_om_config_find_head w g ≠ None)
  | None => false
  end.

Definition add_cfg_head (r : Z) (ch : om_cfg_head) : om_state -> om_state :=
  upd_om_config r (fun g => g <| cfg_heads ::= cons ch |>).

Definition config_head (id : option Z) (enable : bool) (r head : Z) (c : om_state) : om_state :=
  match find_om_config r c with
  | None => c
  | Some g =>
      let h := om_head_by_res head c in
      let wh := h ≫= omh_head in
      if cfg_used g then om_emit (om_post_error r ALREADY_USED) c
      else if configured_twice wh g then om_emit (om_post_error r ALREADY_CONFIGURED_HEAD) c
      else if om_oom c then om_emit (om_no_memory (cfg_client g)) c
      else add_cfg_head r (mk_om_cfg_head id wh (h ≫= omh_output) enable None None None None None) c
  end.

Definition qdwin_om_config_enable_head (r id head : Z) : om_state -> om_state :=
  config_head (Some id) true r head.
Definition qdwin_om_config_disable_head (r head : Z) : om_state -> om_state :=
  config_head None false r head.

(** *** The legs of one head *)

(** A configuration head is found by its resource, in the configuration that
    owns it. *)
Definition find_cfg_head (r : Z) (c : om_state) : option om_cfg_head :=
  List.find (fun ch => bool_decide (ch_res ch = Some r)) (flat_map cfg_heads (om_configs c)).
Definition upd_cfg_head (r : Z) (f : om_cfg_head -> om_cfg_head) (c : om_state) : om_state :=
  c <| om_configs ::= map (fun g => g <| cfg_heads ::=
         map (fun ch => if bool_decide (ch_res ch = Some r) then f ch else ch) |>) |>.

(** A request on a configuration head either records its leg or is an error. *)
Definition leg (r : Z) (check : om_cfg_head -> option om_error)
    (f : om_cfg_head -> om_cfg_head) (c : om_state) : om_state :=
  match find_cfg_head r c with
  | None => c
  | Some ch => match check ch with
               | Some e => om_emit (om_post_error r e) c
               | None => upd_cfg_head r f c
               end
  end.

Definition mode_set (ch : om_cfg_head) : bool :=
  bool_decide (ch_mode ch ≠ None) || bool_decide (ch_custom ch ≠ None).

(** The mode a mode object stands for, when it belongs to the head [wh]. *)
Definition mode_of_head (mode : option Z) (wh : option Z) (c : om_state) : option weston_mode :=
  match mode ≫= fun r => List.find (fun m => omm_res m =? r) (om_modes c) with
  | Some m =>
      match omm_mode m, omm_head m ≫= fun r => om_head_by_res r c with
      | Some x, Some h => if bool_decide (omh_head h = wh) then Some x else None
      | _, _ => None
      end
  | None => None
  end.

Definition qdwin_om_cfg_head_set_mode (r : Z) (mode : option Z) (c : om_state) : om_state :=
  leg r (fun ch => if mode_set ch then Some ALREADY_SET
                   else if bool_decide (mode_of_head mode (ch_head ch) c = None)
                        then Some INVALID_MODE else None)
    (fun ch => ch <| ch_mode := mode_of_head mode (ch_head ch) c |>) c.

Definition qdwin_om_cfg_head_set_custom_mode (r w h refresh : Z) : om_state -> om_state :=
  leg r (fun ch => if mode_set ch then Some ALREADY_SET
                   else if (w <=? 0) || (h <=? 0) || (refresh <? 0)
                        then Some INVALID_CUSTOM_MODE else None)
    (fun ch => ch <| ch_custom := Some (w, h, refresh) |>).

Definition qdwin_om_cfg_head_set_position (r x y : Z) : om_state -> om_state :=
  leg r (fun ch => if bool_decide (ch_position ch ≠ None) then Some ALREADY_SET else None)
    (fun ch => ch <| ch_position := Some (x, y) |>).

Definition qdwin_om_cfg_head_set_transform (r t : Z) : om_state -> om_state :=
  leg r (fun ch => if bool_decide (ch_transform ch ≠ None) then Some ALREADY_SET
                   else if negb (valid_transform t) then Some INVALID_TRANSFORM else None)
    (fun ch => ch <| ch_transform := Some t |>).

Definition qdwin_om_cfg_head_set_scale (r s : Z) : om_state -> om_state :=
  leg r (fun ch => if bool_decide (ch_scale ch ≠ None) then Some ALREADY_SET
                   else if s <=? 0 then Some INVALID_SCALE else None)
    (fun ch => ch <| ch_scale := Some s |>).

Definition qdwin_om_cfg_head_set_adaptive_sync (r state : Z) (c : om_state) : om_state := c.

(** *** Apply and test *)

Definition qdwin_om_config_all_heads_set (g : om_config) (c : om_state) : bool :=
  forallb (fun wh => wh_non_desktop wh
                     || bool_decide (qdwin_om_config_find_head (wh_id wh) g ≠ None)) (heads c).

Definition run_config (test_only : bool) (r : Z) (c : om_state) : option om_state :=
  match find_om_config r c with
  | None => Some c
  | Some g =>
      if negb (cfg_may_mutate g) then Some (om_emit (om_not_authorized (cfg_client g)) c)
      else if cfg_used g then Some (om_emit (om_post_error r ALREADY_USED) c)
      else
        let c := upd_om_config r (fun g => g <| cfg_used := true |>) c in
        if negb (cfg_serial g =? om_serial c) then Some (om_emit (om_cancelled r) c)
        else if negb (qdwin_om_config_all_heads_set g c)
        then Some (om_emit (om_post_error r UNCONFIGURED_HEAD) c)
        else match qdwin_om_config_realize (cfg_heads g) test_only c with
        | None => None
        | Some (true, c) =>
            let c := om_emit (om_succeeded r) c in
            Some (if test_only then c else qdwin_om_resync_all c)
        | Some (false, c) => Some (om_emit (om_failed r) c)
        end
  end.

Definition qdwin_om_config_apply (r : Z) (c : om_state) : option om_state := run_config false r c.
Definition qdwin_om_config_test (r : Z) (c : om_state) : option om_state := run_config true r c.

End Backend.

(** The configuration goes away with its heads. *)
Definition qdwin_om_config_resource_destroy (r : Z) (c : om_state) : om_state :=
  c <| om_configs ::= List.filter (fun g => negb (cfg_res g =? r)) |>.

(** ** Managers *)

Definition find_manager (r : Z) (c : om_state) : option om_manager :=
  List.find (fun m => omg_res m =? r) (om_managers c).

Definition qdwin_om_manager_create_configuration (r id serial : Z) (c : om_state) : om_state :=
  match find_manager r c with
  | None => c
  | Some m =>
      if om_oom c then om_emit (om_no_memory (omg_client m)) c
      else c <| om_configs ::= cons (mk_om_config id (omg_client m) serial false
                                       (omg_may_mutate m) []) |>
  end.

(** The heads of a manager that goes away are inert; their modes keep their
    mode but lose their head. *)
Definition qdwin_om_manager_resource_destroy (r : Z) (c : om_state) : om_state :=
  let mine := List.filter (head_of_mgr r) (om_heads c) in
  c <| om_managers ::= List.filter (fun m => negb (omg_res m =? r)) |>
    <| om_modes ::= (fun l => foldl (fun l h => map (orphan_modes (omh_res h)) l) l mine) |>
    <| om_heads ::= map (fun h => if head_of_mgr r h then inert_head h else h) |>.

Definition qdwin_om_manager_stop (r : Z) (c : om_state) : om_state :=
  match find_manager r c with
  | None => c
  | Some m => c ~> om_emit (om_mgr_finished r) ~> qdwin_om_manager_resource_destroy r
  end.

Definition qdwin_om_client_may_mutate (q : qdwin) (client pid uid : Z) : bool :=
  if bool_decide (client ∈ secctx_clients q) then false
  else qdwin_om_mutation_allowed (qdwin_client_is_bound_shell client q)
         (shell_bound q && bool_decide (shell_resource q ≠ None)) pid uid (shell_pid q)
         (shell_uid q) (allowed_uid q).

Definition bind_output_manager (q : qdwin) (client pid uid id : Z) (c : om_state) : om_state :=
  if om_oom c then om_emit (om_no_memory client) c
  else c <| om_managers ::= cons (mk_om_manager id client (qdwin_om_client_may_mutate q client pid uid)) |>
       ~> qdwin_om_manager_create_heads id
       ~> (fun c => om_emit (om_done id (om_serial c)) c).
