(* ===== verification/OutputMgmtFacts.v ===== *)
(** * OutputMgmtFacts: output configurations are transactions

    A configuration is applied as a whole or not at all, and an applied one
    gives every head what was asked for it. *)

From stdpp Require Import base list gmap strings option.
From S2P Require Import Prelude Logic State OutputMgmt.
From stdpp Require Import list.

#[local] Open Scope Z_scope.

(** ** The outputs of a state *)

Record om_wf (c : om_state) : Prop := {
  wf_ids : NoDup (wo_id <$> all_outputs c);
  wf_live : Forall (fun o => wo_enabled o = true) (output_list c);
  wf_pending : Forall (fun o => wo_enabled o = false) (pending_output_list c);
  wf_count : (length (all_outputs c) <= 32)%nat
}.

Lemma find_by_id (i : Z) l (o : weston_output) :
  NoDup (wo_id <$> l) ->
  List.find (fun o => wo_id o =? i) l = Some o <-> o ∈ l /\ wo_id o = i.
Proof.
  intros Hnd. split.
  - intros H. apply find_some in H as [H1 H2]. apply list_elem_of_In in H1. split; [done|lia].
  - intros [Hin <-]. induction l as [|x l IH]; [by apply elem_of_nil in Hin|]. cbn.
    rewrite fmap_cons in Hnd. apply NoDup_cons in Hnd as [Hx Hnd].
    destruct (Z.eqb_spec (wo_id x) (wo_id o)) as [E|E].
    + apply elem_of_cons in Hin as [->|Hin]; [done|]. exfalso. apply Hx. rewrite E.
      by apply list_elem_of_fmap_2.
    + apply elem_of_cons in Hin as [->|Hin]; [done|]. by apply IH.
Qed.

Lemma find_output_spec c i o :
  om_wf c -> find_output i c = Some o <-> o ∈ all_outputs c /\ wo_id o = i.
Proof. intros []. by apply find_by_id. Qed.

Lemma find_output_id c i o : find_output i c = Some o -> wo_id o = i.
Proof. intros H. apply find_some in H as [_ H]. lia. Qed.

(** A live output is on the list of live ones. *)
Lemma find_output_live c i o :
  om_wf c -> find_output i c = Some o ->
  if wo_enabled o then o ∈ output_list c else o ∈ pending_output_list c.
Proof.
  intros Hwf H. apply (find_output_spec c i o Hwf) in H as [Hin _]. destruct Hwf as [_ Hl Hp _].
  unfold all_outputs in Hin. apply elem_of_app in Hin as [Hin|Hin].
  - by rewrite (proj1 (Forall_forall _ _) Hl o Hin).
  - by rewrite (proj1 (Forall_forall _ _) Hp o Hin).
Qed.

(** Two states with the same outputs up to their order. *)
Lemma find_output_perm c c' i :
  om_wf c -> om_wf c' -> (forall o, o ∈ all_outputs c' <-> o ∈ all_outputs c) ->
  find_output i c' = find_output i c.
Proof.
  intros H1 H2 He. destruct (find_output i c) as [o|] eqn:E.
  - apply (find_output_spec c' i o H2). rewrite He. by apply (find_output_spec c i o H1).
  - destruct (find_output i c') as [o|] eqn:E'; [|done].
    apply (find_output_spec c' i o H2) in E'. rewrite He in E'.
    apply (find_output_spec c i o H1) in E'. congruence.
Qed.

(** ** Steps that work on one output *)

Definition moved (o : weston_output) (p : Z * Z) : weston_output := o <| wo_pos := p |>.

Lemma moved_self o : moved o (wo_pos o) = o.
Proof. by destruct o. Qed.

Record touches (i : Z) (c c' : om_state) : Prop := {
  t_wf : om_wf c';
  t_ids : wo_id <$> all_outputs c' ≡ₚ wo_id <$> all_outputs c;
  t_heads : heads c' = heads c;
  t_dirty : output_flow_dirty c = true -> output_flow_dirty c' = true;
  t_calls : (backend_calls c <= backend_calls c')%nat;
  t_other : forall j o, j ≠ i -> find_output j c = Some o ->
    exists p, find_output j c' = Some (moved o p)
              /\ (output_flow_dirty c = true -> p = wo_pos o)
}.

Lemma touches_refl i c : om_wf c -> touches i c c.
Proof.
  intros H. split; try done. intros j o _ Ho. exists (wo_pos o). by rewrite moved_self.
Qed.

Lemma touches_trans i c1 c2 c3 : touches i c1 c2 -> touches i c2 c3 -> touches i c1 c3.
Proof.
  intros [W1 I1 H1 D1 C1 O1] [W2 I2 H2 D2 C2 O2]. split; [done|by etrans|congruence|auto|lia|].
  intros j o Hj Ho. destruct (O1 j o Hj Ho) as (p1 & F1 & P1).
  destruct (O2 j _ Hj F1) as (p2 & F2 & P2). exists p2. split; [exact F2|].
  intros Hd. rewrite (P2 (D1 Hd)). exact (P1 Hd).
Qed.

(** Steps that leave the outputs alone. *)
Record same_outputs (c c' : om_state) : Prop := {
  so_live : output_list c' = output_list c;
  so_pending : pending_output_list c' = pending_output_list c;
  so_heads : heads c' = heads c;
  so_dirty : output_flow_dirty c' = output_flow_dirty c;
  so_calls : backend_calls c' = backend_calls c
}.

#[export] Instance same_outputs_preorder : PreOrder same_outputs.
Proof.
  split; [by split|]. intros c1 c2 c3 [] []. split; congruence.
Qed.

Lemma same_outputs_foldl {A} (f : om_state -> A -> om_state) l c :
  (forall c a, same_outputs c (f c a)) -> same_outputs c (foldl f c l).
Proof.
  intros Hf. revert c. induction l as [|a l IH]; intros c; cbn [foldl]; [reflexivity|].
  etransitivity; [apply Hf|apply IH].
Qed.

Lemma so_emit e c : same_outputs c (om_emit e c).
Proof. by split. Qed.
Lemma so_send_mode h c m : same_outputs c (send_mode h c m).
Proof. unfold send_mode. destruct (om_oom c); by split. Qed.
Lemma so_details h c : same_outputs c (qdwin_om_send_head_details h c).
Proof.
  unfold qdwin_om_send_head_details. destruct (omh_head h); [|by split].
  destruct (_ ≫= _) as [o|]; [|by split]. apply same_outputs_foldl, so_send_mode.
Qed.
Lemma so_create_head m c h : same_outputs c (create_head m c h).
Proof.
  unfold create_head. destruct (_ || _); [by split|]. cbn [om_fresh].
  etransitivity; [|apply so_details]. by split.
Qed.
Lemma so_finish_head c h : same_outputs c (finish_head c h).
Proof.
  unfold finish_head, qdwin_om_head_destroy_modes.
  assert (H : same_outputs c (foldl (fun c m => om_emit (om_mode_finished (omm_res m)) c) c
    (List.filter (fun m => bool_decide (omm_head m = Some (omh_res h))) (om_modes c)))).
  { apply same_outputs_foldl. intros. apply so_emit. }
  revert H. generalize (foldl (fun c m => om_emit (om_mode_finished (omm_res m)) c) c
    (List.filter (fun m => bool_decide (omm_head m = Some (omh_res h))) (om_modes c))).
  intros c1 []. by split.
Qed.
Lemma so_resync c m : same_outputs c (qdwin_om_manager_resync c m).
Proof.
  unfold qdwin_om_manager_resync, qdwin_om_manager_destroy_heads, qdwin_om_manager_create_heads.
  etransitivity; [apply (same_outputs_foldl finish_head), so_finish_head|].
  etransitivity; [apply (same_outputs_foldl (create_head (omg_res m))), so_create_head|].
  apply so_emit.
Qed.
Lemma so_resync_all c : same_outputs c (qdwin_om_resync_all c).
Proof.
  unfold qdwin_om_resync_all. cbv zeta.
  etransitivity; [|apply (same_outputs_foldl qdwin_om_manager_resync), so_resync]. by split.
Qed.

Lemma same_outputs_find c c' i : same_outputs c c' -> find_output i c' = find_output i c.
Proof. intros [H1 H2 _ _ _]. unfold find_output, all_outputs. by rewrite H1, H2. Qed.
Lemma same_outputs_wf c c' : same_outputs c c' -> om_wf c -> om_wf c'.
Proof.
  intros [H1 H2 _ _ _] [W1 W2 W3 W4]. unfold all_outputs in *.
  split; unfold all_outputs; by rewrite ?H1, ?H2.
Qed.

Lemma same_outputs_touches i c c' : om_wf c -> same_outputs c c' -> touches i c c'.
Proof.
  intros W S. pose proof (same_outputs_wf _ _ S W) as W'. split; [done|..].
  - unfold all_outputs. by rewrite (so_live _ _ S), (so_pending _ _ S).
  - apply S.
  - by rewrite (so_dirty _ _ S).
  - by rewrite (so_calls _ _ S).
  - intros j o _ Ho. exists (wo_pos o). rewrite moved_self, (same_outputs_find _ _ j S). done.
Qed.

(** Counting a backend call. *)
Lemma call_touches i c : om_wf c -> touches i c (backend_call c).
Proof.
  intros W. split; try done; [by destruct W|cbn; lia|].
  intros j o _ Ho. exists (wo_pos o). by rewrite moved_self.
Qed.

(** ** Replacing one output *)

Definition replace (o y : weston_output) : weston_output := if wo_id y =? wo_id o then o else y.

Lemma replace_id o y : wo_id (replace o y) = wo_id y.
Proof. unfold replace. by destruct (Z.eqb_spec (wo_id y) (wo_id o)). Qed.

Lemma all_put o c : all_outputs (put_output o c) = map (replace o) (all_outputs c).
Proof. unfold all_outputs. rewrite map_app. done. Qed.

Lemma ids_replace o l : wo_id <$> map (replace o) l = wo_id <$> l.
Proof. induction l as [|y l IH]; [done|]. cbn. by rewrite replace_id, IH. Qed.

Lemma find_replace o i l :
  List.find (fun y => wo_id y =? i) (map (replace o) l)
  = option_map (replace o) (List.find (fun y => wo_id y =? i) l).
Proof.
  induction l as [|y l IH]; [done|]. cbn. rewrite replace_id. by destruct (wo_id y =? i).
Qed.

Lemma put_wf o x c :
  om_wf c -> find_output (wo_id o) c = Some x -> wo_enabled o = wo_enabled x ->
  om_wf (put_output o c).
Proof.
  intros W Hx He. pose proof W as [W1 W2 W3 W4].
  assert (Hy : forall y, y ∈ all_outputs c -> wo_enabled (replace o y) = wo_enabled y).
  { intros y Hin. unfold replace. destruct (Z.eqb_spec (wo_id y) (wo_id o)) as [E|]; [|done].
    assert (find_output (wo_id o) c = Some y) by (apply (find_output_spec _ _ _ W); done).
    congruence. }
  split.
  - rewrite all_put, ids_replace. done.
  - apply Forall_forall. intros z Hz. apply list_elem_of_fmap_1 in Hz as (y & -> & Hin).
    change (wo_enabled (replace o y) = true). rewrite Hy.
    + by apply (proj1 (Forall_forall _ _) W2).
    + apply elem_of_app. by left.
  - apply Forall_forall. intros z Hz. apply list_elem_of_fmap_1 in Hz as (y & -> & Hin).
    change (wo_enabled (replace o y) = false). rewrite Hy.
    + by apply (proj1 (Forall_forall _ _) W3).
    + apply elem_of_app. by right.
  - by rewrite all_put, length_map.
Qed.

Lemma find_put_same o x c :
  find_output (wo_id o) c = Some x -> find_output (wo_id o) (put_output o c) = Some o.
Proof.
  intros Hx. unfold find_output in *. rewrite all_put, find_replace, Hx. cbn. unfold replace.
  apply find_some in Hx as [_ Hx]. by rewrite Hx.
Qed.
Lemma find_put_other o j c :
  j ≠ wo_id o -> find_output j (put_output o c) = find_output j c.
Proof.
  intros Hj. unfold find_output. rewrite all_put, find_replace.
  destruct (List.find _ (all_outputs c)) as [y|] eqn:E; [|done]. cbn. unfold replace.
  apply find_some in E as [_ E]. destruct (Z.eqb_spec (wo_id y) (wo_id o)); [lia|done].
Qed.

Lemma put_touches i o x c :
  om_wf c -> find_output i c = Some x -> wo_id o = i -> wo_enabled o = wo_enabled x ->
  touches i c (put_output o c) /\ find_output i (put_output o c) = Some o.
Proof.
  intros W Hx <- He. split; [|by eapply find_put_same]. split; [by eapply put_wf|..]; try done.
  - by rewrite all_put, ids_replace.
  - intros j y Hj Hy. exists (wo_pos y). by rewrite moved_self, find_put_other.
Qed.

Lemma upd_is_put i f x c :
  om_wf c -> find_output i c = Some x -> wo_id (f x) = i -> upd_output i f c = put_output (f x) c.
Proof.
  intros W Hx Hi. pose proof (find_output_id _ _ _ Hx) as Hxi.
  assert (Hy : forall y, y ∈ all_outputs c -> (if wo_id y =? i then f y else y) = replace (f x) y).
  { intros y Hin. unfold replace. rewrite Hi. destruct (Z.eqb_spec (wo_id y) i) as [E|]; [|done].
    assert (find_output i c = Some y) by (apply (find_output_spec _ _ _ W); done). congruence. }
  unfold put_output, upd_output. rewrite Hi.
  assert (H1 : map (fun y => if wo_id y =? i then f y else y) (output_list c)
               = map (fun y => if wo_id y =? i then f x else y) (output_list c)).
  { apply map_ext_in. intros y Hin. etransitivity; [apply Hy|unfold replace; by rewrite Hi].
    apply elem_of_app. left. by apply list_elem_of_In. }
  assert (H2 : map (fun y => if wo_id y =? i then f y else y) (pending_output_list c)
               = map (fun y => if wo_id y =? i then f x else y) (pending_output_list c)).
  { apply map_ext_in. intros y Hin. etransitivity; [apply Hy|unfold replace; by rewrite Hi].
    apply elem_of_app. right. by apply list_elem_of_In. }
  destruct c. unfold upd_field. cbn in *. by rewrite H1, H2.
Qed.

(** ** The primitive operations on one output *)

Lemma position_spec i p c x :
  om_wf c -> find_output i c = Some x ->
  let c' := weston_output_set_position i p c in
  touches i c c' /\ find_output i c' = Some (moved x p)
  /\ output_flow_dirty c' = output_flow_dirty c.
Proof.
  intros W Hx. cbv zeta. unfold weston_output_set_position. rewrite Hx.
  pose proof (find_output_id _ _ _ Hx) as Hi.
  destruct (put_touches i (moved x p) x c W Hx Hi eq_refl) as [T F].
  destruct (wo_enabled x) eqn:E; cbn [negb]; [|by split_and!].
  destruct (bool_decide_reflect (p = wo_pos x)) as [->|].
  - rewrite moved_self. split_and!; [by apply touches_refl|done|done].
  - split_and!; [|exact F|done].
    eapply touches_trans; [exact T|]. apply same_outputs_touches; [apply T|apply so_emit].
Qed.

Lemma dirty_touches i c : om_wf c -> touches i c (c <| output_flow_dirty := true |>).
Proof.
  intros W. split; try done; [by destruct W|].
  intros j o _ Ho. exists (wo_pos o). by rewrite moved_self.
Qed.

Lemma move_spec i p c x :
  om_wf c -> find_output i c = Some x ->
  let c' := weston_output_move i p c in
  touches i c c' /\ find_output i c' = Some (moved x p) /\ output_flow_dirty c' = true.
Proof.
  intros W Hx. cbv zeta. unfold weston_output_move.
  pose proof (dirty_touches i c W) as T. set (c1 := c <| output_flow_dirty := true |>) in *.
  assert (Hx1 : find_output i c1 = Some x) by done.
  assert (D1 : output_flow_dirty c1 = true) by done. clearbody c1.
  destruct (position_spec i p c1 x (t_wf _ _ _ T) Hx1) as (T2 & F2 & D2).
  split_and!; [by eapply touches_trans|done|congruence].
Qed.

(** An output with a mode, a scale and a transform the geometry can be
    computed for. *)
Definition ready (o : weston_output) : Prop :=
  wo_mode o ≠ None /\ 0 < wo_scale o /\ valid_transform (wo_transform o) = true.

Lemma scale_init_Some t s o :
  wo_mode o ≠ None -> 0 < wo_scale o -> 0 < s -> valid_transform t = true ->
  exists w h, weston_output_transform_scale_init t s o
              = Some (o <| wo_transform := t |> <| wo_width := w |> <| wo_height := h |>).
Proof.
  intros Hm Hs1 Hs Ht. unfold weston_output_transform_scale_init, convert_size_by_transform_scale.
  destruct (wo_mode o) as [m|]; [|done]. apply Z.ltb_lt in Hs, Hs1. rewrite Hs, Hs1, Ht. cbn [negb].
  by destruct (Z.odd t); eexists _, _.
Qed.

Lemma scale_init_inv t s o o' :
  weston_output_transform_scale_init t s o = Some o' ->
  wo_mode o ≠ None /\ 0 < wo_scale o /\ 0 < s /\ valid_transform t = true
  /\ exists w h, o' = o <| wo_transform := t |> <| wo_width := w |> <| wo_height := h |>.
Proof.
  unfold weston_output_transform_scale_init, convert_size_by_transform_scale.
  destruct (0 <? wo_scale o) eqn:E1; [|done]. destruct (wo_mode o) as [m|]; [|done].
  destruct (0 <? s) eqn:E2; [|done]. destruct (valid_transform t) eqn:E3; [|done].
  cbn [negb]. intros [= <-]. zbool. split_and!; try done; try lia. by eexists _, _.
Qed.

(** The geometry of an output aside. *)
Definition config_of (o : weston_output) : bool * (Z * Z) * Z * Z * option weston_mode :=
  (wo_enabled o, wo_pos o, wo_scale o, wo_transform o, wo_mode o).

(** What never changes of an output. *)
Definition fixed_of (o : weston_output) : Z * list weston_mode * bool :=
  (wo_id o, wo_modes o, wo_can_switch o).

(** A step on a live output that leaves it with a new configuration. *)
Definition reconfigures (i : Z) (x : weston_output) (c c' : om_state)
    (cfg : bool * (Z * Z) * Z * Z * option weston_mode) : Prop :=
  touches i c c'
  /\ exists x', find_output i c' = Some x' /\ fixed_of x' = fixed_of x /\ config_of x' = cfg.

Lemma reconfigures_put i x o c cfg :
  om_wf c -> find_output i c = Some x -> fixed_of o = fixed_of x -> wo_enabled o = wo_enabled x ->
  config_of o = cfg -> reconfigures i x c (put_output o c) cfg.
Proof.
  intros W Hx Hf He <-. pose proof (find_output_id _ _ _ Hx) as Hi. injection Hf as Hf1 Hf2 Hf3.
  destruct (put_touches i o x c W Hx) as [T F]; [congruence|done|].
  split; [done|]. exists o. split_and!; [done|unfold fixed_of; congruence|done].
Qed.

Lemma reconfigures_then i x c c1 c2 cfg :
  reconfigures i x c c1 cfg -> (om_wf c1 -> same_outputs c1 c2) -> reconfigures i x c c2 cfg.
Proof.
  intros [T (x' & F & H)] S. specialize (S (t_wf _ _ _ T)). split.
  - eapply touches_trans; [exact T|]. by apply same_outputs_touches; [apply T|].
  - exists x'. split; [|done]. by rewrite (same_outputs_find _ _ _ S).
Qed.

Lemma set_scale_spec i s c x :
  om_wf c -> find_output i c = Some x -> wo_enabled x = true ->
  (0 < s -> ready x -> exists c', weston_output_set_scale i s c = Some c')
  /\ (forall c', weston_output_set_scale i s c = Some c' ->
      reconfigures i x c c' (true, wo_pos x, s, wo_transform x, wo_mode x)
      /\ (ready x -> 0 < s)).
Proof.
  intros W Hx He. unfold weston_output_set_scale. rewrite Hx, He. cbn [negb].
  destruct (Z.eqb_spec (wo_scale x) s) as [<-|Hne].
  - split; [by eauto|]. intros c' [= <-]. split; [|by intros (_ & ? & _)].
    split; [by apply touches_refl|]. exists x. split_and!; try done. unfold config_of. by rewrite He.
  - unfold weston_mode_switch_finish. split.
    + intros Hs (Hm & _ & Ht).
      destruct (scale_init_Some (wo_transform x) s (x <| wo_scale := s |>)) as (w & h & E); try done.
      change (wo_transform (x <| wo_scale := s |>)) with (wo_transform x).
      change (wo_scale (x <| wo_scale := s |>)) with s. rewrite E. by eexists.
    + intros c' Hc'.
      destruct (weston_output_transform_scale_init _ _ _) as [o|] eqn:E; [|done].
      injection Hc' as <-. apply scale_init_inv in E as (E1 & E2 & E3 & E4 & w & h & ->).
      split; [|done].
      eapply reconfigures_then; [|intros _; etransitivity; [|apply so_resync_all]; apply so_emit].
      apply reconfigures_put; try done. by rewrite <- He.
Qed.

Lemma set_transform_spec i t c x :
  om_wf c -> find_output i c = Some x -> wo_enabled x = true ->
  (valid_transform t = true -> ready x -> exists c', weston_output_set_transform i t c = Some c')
  /\ (forall c', weston_output_set_transform i t c = Some c' ->
      reconfigures i x c c' (true, wo_pos x, wo_scale x, t, wo_mode x)
      /\ valid_transform t = true).
Proof.
  intros W Hx He. unfold weston_output_set_transform. rewrite Hx, He. cbn [negb andb]. split.
  - intros Ht (Hm & Hs & _).
    destruct (scale_init_Some t (wo_scale x) x) as (w & h & ->); try done. by eexists.
  - intros c' Hc'. destruct (weston_output_transform_scale_init _ _ _) as [o|] eqn:E; [|done].
    injection Hc' as <-. apply scale_init_inv in E as (E1 & E2 & E3 & E4 & w & h & ->).
    split; [|done].
    apply reconfigures_put; try done. by rewrite <- He.
Qed.

(** ** Moving an output between the lists *)

Lemma take_out (o : weston_output) l :
  NoDup (wo_id <$> l) -> o ∈ l ->
  l ≡ₚ o :: List.filter (fun x => negb (wo_id x =? wo_id o)) l.
Proof.
  induction l as [|y l IH]; intros Hnd Hin; [by apply elem_of_nil in Hin|].
  rewrite fmap_cons in Hnd. apply NoDup_cons in Hnd as [Hy Hnd]. cbn.
  apply elem_of_cons in Hin as [<-|Hin].
  - rewrite Z.eqb_refl. cbn [negb]. apply Permutation_skip.
    assert (E : List.filter (fun x => negb (wo_id x =? wo_id o)) l = l).
    { clear IH Hnd. induction l as [|z l IH]; [done|]. cbn. rewrite fmap_cons in Hy.
      apply not_elem_of_cons in Hy as [Hz Hy]. destruct (Z.eqb_spec (wo_id z) (wo_id o)); [done|].
      cbn. f_equal. by apply IH. }
    by rewrite E.
  - destruct (Z.eqb_spec (wo_id y) (wo_id o)) as [E|E].
    + exfalso. apply Hy. rewrite E. by apply list_elem_of_fmap_2.
    + cbn [negb]. rewrite (IH Hnd Hin) at 1. apply Permutation_swap.
Qed.

Lemma relist c c' o o' R :
  om_wf c -> all_outputs c ≡ₚ o :: R -> all_outputs c' ≡ₚ o' :: R -> wo_id o' = wo_id o ->
  Forall (fun o => wo_enabled o = true) (output_list c') ->
  Forall (fun o => wo_enabled o = false) (pending_output_list c') ->
  om_wf c' /\ wo_id <$> all_outputs c' ≡ₚ wo_id <$> all_outputs c
  /\ find_output (wo_id o) c' = Some o'
  /\ forall j, j ≠ wo_id o -> find_output j c' = find_output j c.
Proof.
  intros W P P' Hid Hl Hp. destruct (W) as [W1 W2 W3 W4].
  assert (I : wo_id <$> all_outputs c' ≡ₚ wo_id <$> all_outputs c).
  { rewrite P, P'. cbn. by rewrite Hid. }
  assert (W' : om_wf c').
  { split; [by rewrite I|done|done|]. rewrite P'. rewrite P in W4. exact W4. }
  assert (Hj : forall j x, j ≠ wo_id o -> find_output j c = Some x <-> find_output j c' = Some x).
  { intros j x Hne. rewrite (find_output_spec c j x W), (find_output_spec c' j x W'), P, P'.
    rewrite !elem_of_cons. split; intros [[->|H] E]; try lia; by split; [right|]. }
  split_and!; [done|done| |].
  - apply (find_output_spec c' _ o' W'). rewrite P'. split; [by left|done].
  - intros j Hne. destruct (find_output j c) as [x|] eqn:E.
    + by apply (Hj j x).
    + destruct (find_output j c') as [x|] eqn:E'; [|done]. apply (Hj j x Hne) in E'. congruence.
Qed.

Lemma add_output_spec c o :
  om_wf c -> find_output (wo_id o) c = Some o -> wo_enabled o = false ->
  exists c', weston_compositor_add_output o c = Some c'
    /\ touches (wo_id o) c c' /\ find_output (wo_id o) c' = Some (o <| wo_enabled := true |>).
Proof.
  intros W Ho He. pose proof (find_output_live _ _ _ W Ho) as Hin. rewrite He in Hin.
  destruct (W) as [W1 W2 W3 W4]. unfold all_outputs in W1, W4. rewrite fmap_app in W1.
  apply NoDup_app in W1 as (N1 & N12 & N2). pose proof (take_out o _ N2 Hin) as P.
  unfold weston_compositor_add_output.
  destruct (Z.leb_spec 32 (Z.of_nat (length (output_list c)))) as [H32|H32].
  { exfalso. rewrite length_app in W4. rewrite P in W4. cbn in W4. lia. }
  eexists. split; [done|].
  set (c1 := c <| pending_output_list ::= _ |> <| output_list ::= _ |>).
  destruct (relist c c1 o (o <| wo_enabled := true |>)
              (output_list c ++ List.filter (fun x => negb (wo_id x =? wo_id o)) (pending_output_list c)))
    as (W' & I & F & O); try done.
  - unfold all_outputs. rewrite P at 1. by rewrite Permutation_middle.
  - change (all_outputs c1) with ((output_list c ++ [o <| wo_enabled := true |>])
      ++ List.filter (fun x => negb (wo_id x =? wo_id o)) (pending_output_list c)).
    rewrite <- app_assoc. cbn [app]. by rewrite Permutation_middle.
  - change (output_list c1) with (output_list c ++ [o <| wo_enabled := true |>]).
    apply Forall_app. split; [done|by apply Forall_singleton].
  - change (pending_output_list c1)
      with (List.filter (fun x => negb (wo_id x =? wo_id o)) (pending_output_list c)).
    apply Forall_forall. intros x Hx. apply list_elem_of_In, filter_In in Hx as [Hx _].
    apply list_elem_of_In in Hx. by apply (proj1 (Forall_forall _ _) W3).
  - assert (S : same_outputs c1 (qdwin_om_resync_all (om_emit (om_output_created (wo_id o)) c1))).
    { etransitivity; [|apply so_resync_all]. apply so_emit. }
    split; [|by rewrite (same_outputs_find _ _ _ S)].
    eapply touches_trans; [|apply (same_outputs_touches _ c1 _ W' S)].
    split; try done. intros j x Hj Hx. exists (wo_pos x). by rewrite moved_self, O.
Qed.

(** ** Reflow and removal *)

(** Steps that only move outputs. *)
Record repositions (c c' : om_state) : Prop := {
  rp_wf : om_wf c';
  rp_ids : wo_id <$> all_outputs c' ≡ₚ wo_id <$> all_outputs c;
  rp_heads : heads c' = heads c;
  rp_dirty : output_flow_dirty c' = output_flow_dirty c;
  rp_calls : backend_calls c' = backend_calls c;
  rp_find : forall j o, find_output j c = Some o -> exists p, find_output j c' = Some (moved o p)
}.

Lemma repositions_trans c1 c2 c3 : repositions c1 c2 -> repositions c2 c3 -> repositions c1 c3.
Proof.
  intros [W1 I1 H1 D1 C1 F1] [W2 I2 H2 D2 C2 F2].
  split; [done|by etrans|congruence|congruence|congruence|].
  intros j o Ho. destruct (F1 j o Ho) as [p Hp]. destruct (F2 j _ Hp) as [p' Hp']. by exists p'.
Qed.

Lemma position_repositions j p c :
  om_wf c ->
  repositions c (weston_output_set_position j p c)
  /\ forall i, i ≠ j -> find_output i (weston_output_set_position j p c) = find_output i c.
Proof.
  intros W. destruct (find_output j c) as [x|] eqn:Hx.
  - destruct (position_spec j p c x W Hx) as ([T1 T2 T3 T4 T5 T6] & F & D).
    assert (O : forall i, i ≠ j ->
                find_output i (weston_output_set_position j p c) = find_output i c).
    { intros i Hi. unfold weston_output_set_position. rewrite Hx.
      pose proof (find_output_id _ _ _ Hx) as Hj.
      assert (Hp : find_output i (put_output (x <| wo_pos := p |>) c) = find_output i c)
        by (apply find_put_other; cbn; congruence).
      destruct (negb _); [done|]. by destruct (bool_decide _). }
    split; [|done]. split; try done.
    + unfold weston_output_set_position. rewrite Hx. destruct (negb _); [done|].
      by destruct (bool_decide _).
    + intros k o Ho. destruct (decide (k = j)) as [->|Hne].
      * exists p. congruence.
      * exists (wo_pos o). by rewrite moved_self, O.
  - unfold weston_output_set_position. rewrite Hx. split; [|done]. split; try done.
    intros k o Ho. exists (wo_pos o). by rewrite moved_self.
Qed.

Lemma repositions_refl c : om_wf c -> repositions c c.
Proof. intros W. split; try done. intros j o Ho. exists (wo_pos o). by rewrite moved_self. Qed.

Lemma reflow_fold r delta l c :
  om_wf c -> (forall o, o ∈ l -> wo_id o = wo_id r -> wo_pos o = wo_pos r) ->
  let c' := foldl (fun c o =>
         if fst (wo_pos o) <=? fst (wo_pos r) then c
         else weston_output_set_position (wo_id o) (fst (wo_pos o) + delta, snd (wo_pos o)) c) c l in
  repositions c c' /\ find_output (wo_id r) c' = find_output (wo_id r) c.
Proof.
  cbv zeta. revert c. induction l as [|o l IH]; intros c W Hl; cbn [foldl].
  - split; [by apply repositions_refl|done].
  - assert (Hl' : forall o, o ∈ l -> wo_id o = wo_id r -> wo_pos o = wo_pos r).
    { intros x Hx. apply Hl. by right. }
    destruct (Z.leb_spec (fst (wo_pos o)) (fst (wo_pos r))) as [Hle|Hlt]; [by apply IH|].
    destruct (position_repositions (wo_id o) (fst (wo_pos o) + delta, snd (wo_pos o)) c W) as [R O].
    destruct (IH _ (rp_wf _ _ R) Hl') as [R2 F2]. split; [by eapply repositions_trans|].
    rewrite F2. apply O. intros E. rewrite (Hl o (list_elem_of_here _ _) (eq_sym E)) in Hlt. lia.
Qed.

Lemma reflow_spec r delta c :
  om_wf c -> find_output (wo_id r) c = Some r ->
  let c' := weston_compositor_reflow_outputs r delta c in
  repositions c c' /\ find_output (wo_id r) c' = Some r
  /\ (output_flow_dirty c = true -> c' = c).
Proof.
  intros W Hr. cbv zeta. unfold weston_compositor_reflow_outputs.
  destruct (output_flow_dirty c); [split_and!; [by apply repositions_refl|done|done]|].
  destruct (delta =? 0); [split_and!; [by apply repositions_refl|done|done]|].
  destruct (reflow_fold r delta (output_list c) c W) as [R F]; [|by rewrite Hr in F].
  intros o Ho Hi.
  assert (find_output (wo_id r) c = Some o); [|congruence].
  apply (find_output_spec _ _ _ W). split; [apply elem_of_app; by left|done].
Qed.

Lemma remove_output_spec c o :
  om_wf c -> find_output (wo_id o) c = Some o -> wo_enabled o = true ->
  let c' := weston_compositor_remove_output o c in
  touches (wo_id o) c c' /\ find_output (wo_id o) c' = Some (o <| wo_enabled := false |>)
  /\ output_flow_dirty c' = output_flow_dirty c.
Proof.
  intros W Ho He. cbv zeta. unfold weston_compositor_remove_output.
  destruct (reflow_spec o (- wo_width o) c W Ho) as (R & F & D). revert R F D.
  generalize (weston_compositor_reflow_outputs o (- wo_width o) c). intros c1 R F D.
  destruct R as [RW RI RH RD RC RF].
  pose proof (find_output_live _ _ _ RW F) as Hin. rewrite He in Hin.
  destruct (RW) as [W1 W2 W3 W4]. unfold all_outputs in W1, W4. rewrite fmap_app in W1.
  apply NoDup_app in W1 as (N1 & N12 & N2). pose proof (take_out o _ N1 Hin) as P.
  set (c2 := c1 <| output_list ::= _ |> <| pending_output_list ::= _ |>).
  set (R := List.filter (fun x => negb (wo_id x =? wo_id o)) (output_list c1)
            ++ pending_output_list c1).
  destruct (relist c1 c2 o (o <| wo_enabled := false |>) R) as (W' & I & F' & O); try done.
  - unfold all_outputs. by rewrite P at 1.
  - change (all_outputs c2) with (List.filter (fun x => negb (wo_id x =? wo_id o)) (output_list c1)
      ++ pending_output_list c1 ++ [o <| wo_enabled := false |>]).
    unfold R. rewrite app_assoc. by rewrite <- Permutation_cons_append.
  - change (output_list c2) with (List.filter (fun x => negb (wo_id x =? wo_id o)) (output_list c1)).
    apply Forall_forall. intros x Hx. apply list_elem_of_In, filter_In in Hx as [Hx _].
    apply list_elem_of_In in Hx. by apply (proj1 (Forall_forall _ _) W2).
  - change (pending_output_list c2) with (pending_output_list c1 ++ [o <| wo_enabled := false |>]).
    apply Forall_app. split; [done|by apply Forall_singleton].
  - assert (S : same_outputs c2 (qdwin_om_resync_all (om_emit (om_output_destroyed (wo_id o)) c2))).
    { etransitivity; [|apply so_resync_all]. apply so_emit. }
    split; [|split; [by rewrite (same_outputs_find _ _ _ S)|by rewrite (so_dirty _ _ S)]].
    eapply touches_trans; [|apply (same_outputs_touches _ c2 _ W' S)].
    split; [done|by rewrite I| by rewrite <- RH|cbn; congruence|cbn; lia|].
    intros j x Hj Hx. destruct (RF j x Hx) as [p Hp]. exists p. rewrite O by done.
    split; [done|]. intros Hd. rewrite (D Hd), Hx in Hp. injection Hp as Hp.
    by rewrite Hp.
Qed.

(** ** Operations that ask the backend *)

Section WithBackend.
Context `{be : !backend}.

Lemma reconfigures_after i x c c1 c2 cfg :
  touches i c c1 -> reconfigures i x c1 c2 cfg -> reconfigures i x c c2 cfg.
Proof. intros T [T2 H]. split; [by eapply touches_trans|done]. Qed.

Lemma put_after_call i x o c cfg :
  om_wf c -> find_output i c = Some x -> fixed_of o = fixed_of x -> wo_enabled o = wo_enabled x ->
  config_of o = cfg -> reconfigures i x c (put_output o (backend_call c)) cfg.
Proof.
  intros W Hx Hf He Hc. eapply reconfigures_after; [by apply call_touches|].
  apply reconfigures_put; try done. by destruct W.
Qed.

Lemma switch_spec i m s c x :
  om_wf c -> find_output i c = Some x -> wo_enabled x = true ->
  (wo_can_switch x = true -> be_switch (backend_calls c) i m = (true, Some m) -> 0 < s ->
     valid_transform (wo_transform x) = true ->
     exists c', weston_output_mode_switch_to_temporary i m s c = Some (true, c'))
  /\ (forall c', weston_output_mode_switch_to_temporary i m s c = Some (true, c') ->
      wo_can_switch x = true /\ 0 < s /\ fst (be_switch (backend_calls c) i m) = true
      /\ reconfigures i x c c' (true, wo_pos x, s, wo_transform x, snd (be_switch (backend_calls c) i m)))
  /\ (forall c', weston_output_mode_switch_to_temporary i m s c = Some (false, c') ->
      reconfigures i x c c' (true, wo_pos x, wo_scale x, wo_transform x,
        if wo_can_switch x then snd (be_switch (backend_calls c) i m) else wo_mode x)).
Proof.
  intros W Hx He. unfold weston_output_mode_switch_to_temporary. rewrite Hx.
  destruct (wo_can_switch x) eqn:Hsw; cbn [negb].
  2:{ split_and!; [done|done|]. intros c' [= <-]. split; [by apply touches_refl|].
      exists x. split_and!; try done. by rewrite <- He. }
  destruct (be_switch (backend_calls c) i m) as [ok m'] eqn:Hb. cbn [fst snd]. split_and!.
  - intros _ [= -> ->] Hs Ht. cbn [negb]. unfold weston_mode_switch_finish.
    destruct (scale_init_Some (wo_transform x) s (x <| wo_mode := Some m |> <| wo_scale := s |>))
      as (w & h & E); try done.
    change (wo_transform (x <| wo_mode := Some m |> <| wo_scale := s |>)) with (wo_transform x).
    change (wo_scale (x <| wo_mode := Some m |> <| wo_scale := s |>)) with s. rewrite E. by eexists.
  - intros c' Hc'. destruct ok; cbn [negb] in Hc'; [|done].
    destruct (weston_mode_switch_finish _) as [o|] eqn:E; [|done]. injection Hc' as <-.
    apply scale_init_inv in E as (E1 & E2 & E3 & E4 & w & h & ->).
    split_and!; try done. apply put_after_call; try done. by rewrite <- He.
  - intros c' Hc'. destruct ok; cbn [negb] in Hc'.
    { by destruct (weston_mode_switch_finish _). }
    injection Hc' as <-. apply put_after_call; try done. by rewrite <- He.
Qed.

Lemma enable_spec i c x :
  om_wf c -> find_output i c = Some x -> wo_enabled x = false ->
  (ready x -> wo_modes x ≠ [] -> output_has_head i c = true -> be_enable (backend_calls c) i = true ->
     exists c', weston_output_enable i c = Some (true, c'))
  /\ (forall c', weston_output_enable i c = Some (true, c') ->
      ready x /\ reconfigures i x c c' (true, wo_pos x, wo_scale x, wo_transform x, wo_mode x))
  /\ (forall c', weston_output_enable i c = Some (false, c') ->
      reconfigures i x c c' (config_of x)).
Proof.
  intros W Hx He. unfold weston_output_enable. rewrite Hx, He.
  assert (Hself : reconfigures i x c c (config_of x)).
  { split; [by apply touches_refl|]. by exists x. }
  destruct (output_has_head i c) eqn:Hh; cbn [negb]; [|split_and!; [done|done|by intros ? [= <-]]].
  destruct (bool_decide_reflect (wo_modes x = [])) as [Hm|Hm]; cbn [orb];
    [split_and!; [done|done|by intros ? [= <-]]|].
  destruct (bool_decide_reflect (wo_mode x = None)) as [Hm'|Hm'];
    [split_and!; [by intros (? & _)|done|by intros ? [= <-]]|].
  destruct (Z.eqb_spec (wo_transform x) UINT32_MAX) as [Hu|Hu].
  { split_and!; try done. intros (_ & _ & Ht). rewrite Hu in Ht. by vm_compute in Ht. }
  pose proof (find_output_id _ _ _ Hx) as Hi.
  destruct (weston_output_transform_scale_init (wo_transform x) (wo_scale x) x) as [o|] eqn:E.
  2:{ split_and!; try done. intros (R1 & R2 & R3) _ _ _.
      destruct (scale_init_Some (wo_transform x) (wo_scale x) x) as (w & h & ?); congruence. }
  apply scale_init_inv in E as (E1 & E2 & _ & E4 & w & h & Eo).
  assert (Fo : fixed_of o = fixed_of x /\ config_of o = config_of x) by (by rewrite Eo).
  destruct Fo as [Fo Co]. clear Eo. injection Fo as Fo1 Fo2 Fo3. injection Co as Co1 Co2 Co3 Co4 Co5.
  assert (RC : reconfigures i x c (put_output o (backend_call c)) (config_of x)).
  { apply put_after_call; try done; unfold fixed_of, config_of; congruence. }
  assert (Ho : find_output (wo_id o) (put_output o (backend_call c)) = Some o).
  { apply (find_put_same o x). by rewrite Fo1, Hi. }
  cbv zeta. revert RC Ho. generalize (put_output o (backend_call c)). intros c1 RC Ho.
  destruct RC as [T RC].
  destruct (add_output_spec c1 o (t_wf _ _ _ T) Ho) as (c2 & A1 & A2 & A3); [congruence|].
  rewrite A1. rewrite Fo1, Hi in A2, A3. destruct (be_enable (backend_calls c) i); cbn [negb].
  - split_and!; [by eauto| |done]. intros c' [= <-]. split; [done|].
    split; [by eapply touches_trans|]. exists (o <| wo_enabled := true |>).
    split_and!; [done|unfold fixed_of; cbn; congruence|unfold config_of; cbn; congruence].
  - split_and!; [done|done|]. intros c' [= <-]. by split.
Qed.

Lemma disable_spec i c x :
  om_wf c -> find_output i c = Some x ->
  let c' := weston_output_disable i c in
  reconfigures i x c c' (if be_disable (backend_calls c) i then false else wo_enabled x,
                         wo_pos x, wo_scale x, wo_transform x, wo_mode x)
  /\ output_flow_dirty c' = output_flow_dirty c.
Proof.
  intros W Hx. cbv zeta. unfold weston_output_disable. rewrite Hx. cbv zeta.
  pose proof (find_output_id _ _ _ Hx) as Hi. set (x1 := x <| wo_destroying := true |>).
  assert (RC : reconfigures i x c (put_output x1 (backend_call c)) (config_of x))
    by (by apply put_after_call).
  assert (Hx1 : find_output (wo_id x1) (put_output x1 (backend_call c)) = Some x1).
  { apply (find_put_same x1 x). by rewrite <- Hi in Hx. }
  assert (D : output_flow_dirty (put_output x1 (backend_call c)) = output_flow_dirty c) by done.
  revert RC Hx1 D. generalize (put_output x1 (backend_call c)). intros c1 [T RC] Hx1 D.
  destruct (be_disable (backend_calls c) i); cbn [negb]; [|by split].
  assert (E : wo_id x1 = i) by done. rewrite E in Hx1.
  set (c2 := (if wo_enabled x then _ else _) c1).
  assert (H2 : touches i c1 c2
               /\ find_output i c2 = Some (x1 <| wo_enabled := false |>)
               /\ output_flow_dirty c2 = output_flow_dirty c1).
  { unfold c2. destruct (wo_enabled x) eqn:He.
    - rewrite <- E in Hx1 |- *. by apply (remove_output_spec c1 x1 (t_wf _ _ _ T)).
    - split_and!; [by apply touches_refl, (t_wf _ _ _ T)| |done]. rewrite Hx1. unfold x1.
      destruct x. cbn in *. by rewrite He. }
  clearbody c2. destruct H2 as (T2 & F2 & D2). split; [|cbn; congruence].
  eapply reconfigures_after; [by eapply touches_trans|].
  set (x2 := x1 <| wo_enabled := false |> <| wo_destroying := false |>).
  rewrite (upd_is_put i _ _ c2 (t_wf _ _ _ T2) F2) by exact E.
  destruct (put_touches i x2 _ c2 (t_wf _ _ _ T2) F2) as [T3 F3]; try done.
  split; [done|]. by exists x2.
Qed.
(** ** What a failed application leaves to be undone *)















(** ** The legs of one head *)

Definition live_at (i : Z) (c : om_state) : Prop :=
  exists o, find_output i c = Some o /\ wo_enabled o = true.

Lemma reconfigures_live i x c c' p s t m :
  reconfigures i x c c' (true, p, s, t, m) -> touches i c c' /\ live_at i c'.
Proof. intros [T (y & Hy & _ & Hc)]. split; [done|]. exists y. by injection Hc. Qed.

Lemma is_live_spec i c : is_live i c = true <-> live_at i c.
Proof.
  unfold is_live, live_at. destruct (find_output i c) as [o|] eqn:E.
  - split; [by exists o|]. by intros (? & [= <-] & ?).
  - split; [done|]. by intros (? & ? & _).
Qed.

Lemma apply_mode_touches i ch c ok c' :
  om_wf c -> live_at i c -> apply_mode i ch c = Some (ok, c') -> touches i c c' /\ live_at i c'.
Proof.
  intros W (x & Hx & He). unfold apply_mode. rewrite Hx.
  destruct (ch_mode ch) as [m|]; [|intros [= <- <-]; split; [by apply touches_refl|by exists x]].
  destruct (bool_decide _); [intros [= <- <-]; split; [by apply touches_refl|by exists x]|].
  intros H. destruct (switch_spec i m (match ch_scale ch with Some s => wl_fixed_to_int s
    | None => wo_scale x end) c x W Hx He) as (_ & S1 & S2).
  destruct ok.
  - destruct (S1 c' H) as (_ & _ & _ & R). by eapply reconfigures_live.
  - by eapply reconfigures_live, S2.
Qed.

Lemma apply_legs_touches i ch c c' :
  om_wf c -> live_at i c -> apply_legs i ch c = Some c' -> touches i c c' /\ live_at i c'.
Proof.
  intros W L. unfold apply_legs.
  destruct (match ch_scale ch with Some s => _ | None => Some c end) as [c1|] eqn:E1; [|done].
  assert (H1 : touches i c c1 /\ live_at i c1).
  { destruct (ch_scale ch) as [s|]; [|injection E1 as <-; split; [by apply touches_refl|done]].
    destruct L as (x & Hx & He). cbv zeta in E1.
    destruct (proj2 (set_scale_spec i _ c x W Hx He) c1 E1) as [R _]. by eapply reconfigures_live. }
  destruct H1 as [T1 L1]. clear E1.
  destruct (match ch_transform ch with Some t => _ | None => Some c1 end) as [c2|] eqn:E2; [|done].
  assert (H2 : touches i c1 c2 /\ live_at i c2).
  { destruct (ch_transform ch) as [t|]; [|injection E2 as <-; split; [by apply touches_refl, T1|done]].
    destruct L1 as (x & Hx & He).
    destruct (proj2 (set_transform_spec i t c1 x (t_wf _ _ _ T1) Hx He) c2 E2) as [R _].
    by eapply reconfigures_live. }
  destruct H2 as [T2 (x & Hx & He)]. intros [= <-]. destruct (ch_position ch) as [p|].
  - destruct (move_spec i p c2 x (t_wf _ _ _ T2) Hx) as (T3 & F3 & _).
    split; [|by exists (moved x p)]. eapply touches_trans; [by eapply touches_trans|done].
  - split; [by eapply touches_trans|by exists x].
Qed.

Lemma apply_head_touches ch i c ok c' :
  om_wf c -> ch_output ch = Some i -> apply_head ch c = Some (ok, c') -> touches i c c'.
Proof.
  intros W Hi. unfold apply_head, apply_disable. rewrite Hi.
  destruct (find_output i c) as [x|] eqn:Hx.
  2:{ unfold weston_output_disable, apply_enable, is_live, weston_output_enable. rewrite Hx.
      destruct (negb (ch_enabled ch)); intros [= _ <-]; by apply touches_refl. }
  destruct (ch_enabled ch); cbn [negb].
  2:{ intros [= _ <-]. apply (disable_spec i c x W Hx). }
  unfold apply_enable.
  destruct (if is_live i c then _ else _) as [[ok1 c1]|] eqn:E1; [|done].
  assert (H1 : touches i c c1 /\ (ok1 = true -> live_at i c1)).
  { destruct (is_live i c) eqn:Hl.
    - injection E1 as <- <-. split; [by apply touches_refl|]. intros _. by apply is_live_spec.
    - unfold is_live in Hl. rewrite Hx in Hl.
      destruct (enable_spec i c x W Hx Hl) as (_ & S1 & S2). destruct ok1.
      + destruct (S1 c1 E1) as [_ R]. split; [apply R|]. intros _. by eapply reconfigures_live.
      + split; [by apply S2|done]. }
  destruct H1 as [T1 L1]. destruct ok1; [|by intros [= _ <-]].
  destruct (apply_mode i ch c1) as [[ok2 c2]|] eqn:E2; [|done].
  destruct (apply_mode_touches i ch c1 ok2 c2 (t_wf _ _ _ T1) (L1 eq_refl) E2) as [T2 L2].
  destruct ok2; [|intros [= _ <-]; by eapply touches_trans].
  destruct (apply_legs i ch c2) as [c3|] eqn:E3; [|done]. intros [= _ <-].
  destruct (apply_legs_touches i ch c2 c3 (t_wf _ _ _ T2) L2 E3) as [T3 _].
  eapply touches_trans; [by eapply touches_trans|done].
Qed.






(** ** The rollback *)

Lemma reconfigures_self i x c :
  om_wf c -> find_output i c = Some x -> reconfigures i x c c (config_of x).
Proof. intros W Hx. split; [by apply touches_refl|by exists x]. Qed.

Lemma reconfigures_bind i x c c1 c2 cfg1 cfg2 :
  reconfigures i x c c1 cfg1 ->
  (forall y, find_output i c1 = Some y -> fixed_of y = fixed_of x -> config_of y = cfg1 ->
     reconfigures i y c1 c2 cfg2) ->
  reconfigures i x c c2 cfg2.
Proof.
  intros [T (y & Hy & Hf & Hc)] H. destruct (H y Hy Hf Hc) as [T2 (z & Hz & Hf2 & Hc2)].
  split; [by eapply touches_trans|]. exists z. split_and!; [done|congruence|done].
Qed.








(** ** Transactions *)

(** The layout: what an output is configured as. *)
Definition layout (i : Z) (c : om_state) : option (bool * (Z * Z) * Z * Z * option weston_mode) :=
  config_of <$> find_output i c.






Lemma validate_head_output c ch ch' :
  validate_head c ch = Some ch' -> ch_output ch' = ch_output ch /\ ch_enabled ch' = ch_enabled ch
  /\ ch_position ch' = ch_position ch /\ ch_transform ch' = ch_transform ch
  /\ ch_scale ch' = ch_scale ch.
Proof.
  unfold validate_head. destruct (bool_decide _); [done|]. destruct (negb _); [by intros [= <-]|].
  destruct (_ ≫= _) as [o|]; [|done]. destruct (ch_custom ch) as [[[w h] r]|]; [|by intros [= <-]].
  destruct (List.find _ _) as [m|]; [|done]. by intros [= <-].
Qed.

Lemma validate_outputs chs c chs' :
  validate chs c = Some chs' -> omap ch_output chs' = omap ch_output chs.
Proof.
  unfold validate. destruct (mapM (validate_head c) chs) as [l|] eqn:E; [|done].
  destruct (existsb ch_enabled l); [|done]. intros [= <-].
  apply mapM_Some_1 in E. induction E as [|ch ch' chs l Hch E IH]; [done|]. cbn.
  destruct (validate_head_output _ _ _ Hch) as [-> _]. by rewrite IH.
Qed.







(** ** What a successful application grants *)

(** A backend that does what it reports. *)
Definition backend_honest : Prop :=
  (forall n i m, fst (be_switch n i m) = true -> snd (be_switch n i m) = Some m)
  /\ forall n i, be_disable n i = true.

Definition asked_scale (f : Z) : Z := Z.max 1 (wl_fixed_to_int f).

(** What was asked for one head holds of its output. *)
Definition granted (ch : om_cfg_head) (c : om_state) : Prop := forall i, ch_output ch = Some i ->
  exists o, find_output i c = Some o /\ wo_enabled o = ch_enabled ch
  /\ (ch_enabled ch = true ->
      (forall m, ch_mode ch = Some m -> wo_mode o = Some m)
      /\ (forall f, ch_scale ch = Some f -> wo_scale o = asked_scale f)
      /\ (forall t, ch_transform ch = Some t -> wo_transform o = t)
      /\ (forall p, ch_position ch = Some p -> wo_pos o = p /\ output_flow_dirty c = true)).

Lemma granted_other i ch c c' :
  touches i c c' -> ch_output ch ≠ Some i -> granted ch c -> granted ch c'.
Proof.
  intros T Hi G j Hj. destruct (G j Hj) as (o & Ho & He & Hg).
  destruct (t_other _ _ _ T j o) as (p & F & Hp); [congruence|done|]. exists (moved o p).
  split_and!; [done|done|]. intros E. destruct (Hg E) as (G1 & G2 & G3 & G4).
  split_and!; [done|done|done|]. intros p' Hp'. destruct (G4 p' Hp') as [G5 G6].
  split; [|by apply (t_dirty _ _ _ T)]. rewrite <- G5. by apply Hp.
Qed.

Lemma apply_legs_config i ch c c' x :
  om_wf c -> find_output i c = Some x -> wo_enabled x = true -> apply_legs i ch c = Some c' ->
  (exists x', find_output i c' = Some x'
    /\ config_of x' = (true, default (wo_pos x) (ch_position ch),
         match ch_scale ch with Some f => asked_scale f | None => wo_scale x end,
         default (wo_transform x) (ch_transform ch), wo_mode x))
  /\ (ch_position ch ≠ None -> output_flow_dirty c' = true).
Proof.
  intros W Hx He. unfold apply_legs.
  destruct (match ch_scale ch with Some s => _ | None => Some c end) as [c1|] eqn:E1; [|done].
  assert (H1 : reconfigures i x c c1 (true, wo_pos x,
            match ch_scale ch with Some f => asked_scale f | None => wo_scale x end,
            wo_transform x, wo_mode x)).
  { destruct (ch_scale ch) as [f|].
    - cbv zeta in E1. destruct (proj2 (set_scale_spec i _ c x W Hx He) c1 E1) as [R _].
      replace (asked_scale f) with (if wl_fixed_to_int f <? 1 then 1 else wl_fixed_to_int f); [done|].
      unfold asked_scale. destruct (Z.ltb_spec (wl_fixed_to_int f) 1); lia.
    - injection E1 as <-. rewrite <- He. by apply reconfigures_self. }
  clear E1. destruct H1 as [T1 (y & Hy & Fy & Cy)]. injection Cy as Y1 Y2 Y3 Y4 Y5.
  destruct (match ch_transform ch with Some t => _ | None => Some c1 end) as [c2|] eqn:E2; [|done].
  assert (H2 : reconfigures i y c1 c2 (true, wo_pos y, wo_scale y,
                 default (wo_transform y) (ch_transform ch), wo_mode y)).
  { destruct (ch_transform ch) as [t|]; cbn [default].
    - by destruct (proj2 (set_transform_spec i t c1 y (t_wf _ _ _ T1) Hy Y1) c2 E2) as [R _].
    - injection E2 as <-. rewrite <- Y1. by apply reconfigures_self; [apply T1|]. }
  clear E2. destruct H2 as [T2 (z & Hz & Fz & Cz)]. injection Cz as Z1 Z2 Z3 Z4 Z5.
  intros [= <-]. rewrite <- Y3. destruct (ch_position ch) as [p|]; cbn [default].
  - destruct (move_spec i p c2 z (t_wf _ _ _ T2) Hz) as (T3 & F3 & D3).
    split; [|done]. exists (moved z p). split; [done|]. unfold config_of. cbn. congruence.
  - split; [|done]. exists z. split; [done|]. unfold config_of. congruence.
Qed.

Lemma apply_head_grants ch c c' :
  backend_honest -> om_wf c ->
  (forall i, ch_output ch = Some i -> find_output i c ≠ None) ->
  apply_head ch c = Some (true, c') -> granted ch c'.
Proof.
  intros [Hsw Hdis] W Hfound Ha i Hi. unfold apply_head, apply_disable in Ha. rewrite Hi in Ha.
  destruct (find_output i c) as [x|] eqn:Hx; [|by destruct (Hfound i Hi)].
  destruct (ch_enabled ch) eqn:Hen; cbn [negb] in Ha.
  2:{ injection Ha as <-. destruct (disable_spec i c x W Hx) as [[T (y & Hy & _ & Hc)] _].
      rewrite Hdis in Hc. injection Hc as C1 _ _ _ _. exists y. by split_and!. }
  unfold apply_enable in Ha.
  destruct (if is_live i c then _ else _) as [[ok1 c1]|] eqn:E1; [|done].
  destruct ok1; [|done].
  assert (H1 : om_wf c1 /\ live_at i c1).
  { destruct (is_live i c) eqn:Hl.
    - injection E1 as <-. split; [done|]. by apply is_live_spec.
    - unfold is_live in Hl. rewrite Hx in Hl. destruct (enable_spec i c x W Hx Hl) as (_ & S1 & _).
      destruct (S1 c1 E1) as [_ R]. split; [apply R|]. by eapply reconfigures_live. }
  destruct H1 as [W1 L1]. destruct (apply_mode i ch c1) as [[ok2 c2]|] eqn:E2; [|done].
  destruct ok2; [|done].
  destruct (apply_mode_touches i ch c1 true c2 W1 L1 E2) as [T2 (y & Hy & Hey)].
  assert (Hm : forall m, ch_mode ch = Some m -> wo_mode y = Some m).
  { intros m Hm. destruct L1 as (z & Hz & Hez). unfold apply_mode in E2. rewrite Hm, Hz in E2.
    destruct (bool_decide_reflect (Some m = wo_mode z)) as [E|E].
    - injection E2 as <-. congruence.
    - destruct (switch_spec i m (match ch_scale ch with Some s => wl_fixed_to_int s
        | None => wo_scale z end) c1 z W1 Hz Hez) as (_ & S1 & _).
      destruct (S1 c2 E2) as (_ & _ & Hok & [_ (w & Hw & _ & Hc)]). rewrite (Hsw _ _ _ Hok) in Hc.
      rewrite Hy in Hw. injection Hw as <-. by injection Hc. }
  destruct (apply_legs i ch c2) as [c3|] eqn:E3; [|done]. injection Ha as <-.
  destruct (apply_legs_config i ch c2 c3 y (t_wf _ _ _ T2) Hy Hey E3) as [(z & Hz & Hc) D].
  injection Hc as C1 C2 C3 C4 C5. exists z. split_and!; [done|done|]. intros _. split_and!.
  - intros m Hm'. rewrite C5. by apply Hm.
  - intros f Hf. by rewrite Hf in C3.
  - intros t Ht. by rewrite Ht in C4.
  - intros p Hp. rewrite Hp in C2, D. split; [done|]. by apply D.
Qed.

Lemma apply_heads_grants chs c c' :
  backend_honest -> om_wf c -> NoDup (omap ch_output chs) ->
  (forall ch i, ch ∈ chs -> ch_output ch = Some i -> find_output i c ≠ None) ->
  apply_heads chs c = Some (true, c') ->
  (forall ch, ch ∈ chs -> granted ch c')
  /\ (forall ch, (forall i, ch_output ch = Some i -> i ∉ omap ch_output chs) ->
      granted ch c -> granted ch c').
Proof.
  intros Hb. revert c. induction chs as [|ch chs IH]; intros c W Hnd Hf; cbn [apply_heads].
  { intros [= <-]. split; [by intros ? ?%elem_of_nil|done]. }
  destruct (apply_head ch c) as [[ok c1]|] eqn:E1; [|done]. destruct ok; [|done]. intros E.
  assert (G1 : granted ch c1).
  { eapply apply_head_grants; try done. intros i Hi. eapply Hf; [by left|done]. }
  assert (H1 : om_wf c1 /\ (forall j, find_output j c ≠ None -> find_output j c1 ≠ None)
    /\ NoDup (omap ch_output chs)
    /\ (forall i, ch_output ch = Some i -> i ∉ omap ch_output chs)
    /\ (forall x, (forall i, ch_output x = Some i -> ch_output ch ≠ Some i) ->
        granted x c -> granted x c1)).
  { cbn in Hnd. destruct (ch_output ch) as [i|] eqn:Hi.
    - apply NoDup_cons in Hnd as [Hni Hnd].
      pose proof (apply_head_touches ch i c true c1 W Hi E1) as T. split_and!; try done.
      + apply T.
      + intros j Hj. destruct (decide (j = i)) as [->|Hne].
        * destruct (G1 i Hi) as (o & -> & _). done.
        * destruct (find_output j c) as [o|] eqn:Hjo; [|done].
          by destruct (t_other _ _ _ T j o Hne Hjo) as (p & -> & _).
      + by intros ? [= <-].
      + intros x Hx. eapply granted_other; [exact T|]. intros Hxi. by apply (Hx i).
    - unfold apply_head, apply_disable in E1. rewrite Hi in E1.
      assert (c1 = c) as -> by (by destruct (negb _); injection E1).
      by split_and!. }
  destruct H1 as (W1 & F1 & Hnd1 & Hni & K1).
  destruct (IH c1 W1 Hnd1) as [A B]; [|exact E|].
  { intros x i Hx Hi. eapply F1, Hf; [by right|exact Hi]. }
  split.
  - intros x Hx. apply elem_of_cons in Hx as [->|Hx]; [|by apply A]. by apply B.
  - intros x Hx G. apply B.
    + intros i Hi Hin. apply (Hx i Hi). cbn. destruct (ch_output ch); [by right|done].
    + apply K1; [|done]. intros i Hi Hci. apply (Hx i Hi). cbn. rewrite Hci. by left.
Qed.

(** A configuration that succeeds is granted in full: when the heads have
    outputs of their own and the backend does what it reports, every enabled
    head's output is on, with the requested mode (a custom mode resolved to an
    advertised one of that size), the requested scale, at least one, the
    requested transform, and at the requested position, wherever the outputs
    switched off by the same configuration were; every disabled head's output
    is off; and at least one output is on. *)
Theorem om_apply_grants (chs : list om_cfg_head) (c c' : om_state)
    (Hbackend : backend_honest) (Hwf : om_wf c) (Hdistinct : NoDup (omap ch_output chs))
    (Hfound : forall ch i, ch ∈ chs -> ch_output ch = Some i -> find_output i c ≠ None)
    (Hok : qdwin_om_config_realize chs false c = Some (true, c')) :
  (forall ch, ch ∈ chs -> exists ch', validate_head c ch = Some ch' /\ granted ch' c')
  /\ exists i o, find_output i c' = Some o /\ wo_enabled o = true.
Proof.
  unfold qdwin_om_config_realize in Hok. destruct (_ <? _)%nat; [done|].
  destruct (validate chs c) as [l|] eqn:Hv; [|done]. cbv zeta in Hok.
  destruct (apply_heads l c) as [[ok c1]|] eqn:Ha; [|done].
  destruct ok; [|by destruct (qdwin_om_restore _ c1)]. injection Hok as <-.
  assert (G : forall ch, ch ∈ l -> granted ch c1).
  { eapply apply_heads_grants; [done|done|by rewrite (validate_outputs _ _ _ Hv)| |exact Ha].
    intros ch' i Hin Hi. unfold validate in Hv.
    destruct (mapM (validate_head c) chs) as [l'|] eqn:E; [|done].
    destruct (existsb ch_enabled l'); [|done]. injection Hv as ->. apply mapM_Some_1 in E.
    destruct (Forall2_in_r _ _ _ _ E Hin) as (ch & Hch & Hvh).
    destruct (validate_head_output _ _ _ Hvh) as [Ho _]. eapply Hfound; [exact Hch|congruence]. }
  assert (K : forall ch, granted ch c1 -> granted ch (om_emit (om_shell_state_derived (om_locked c1)) c1))
    by done.
  unfold validate in Hv. destruct (mapM (validate_head c) chs) as [l'|] eqn:E; [|done].
  destruct (existsb ch_enabled l') eqn:Hex; [|done]. injection Hv as ->. apply mapM_Some_1 in E.
  split.
  - intros ch Hch. destruct (Forall2_in_l _ _ _ _ E Hch) as (ch' & Hch' & Hvh).
    exists ch'. split; [done|]. by apply K, G.
  - apply existsb_exists in Hex as (ch & Hin & Hen). apply list_elem_of_In in Hin.
    destruct (Forall2_in_r _ _ _ _ E Hin) as (ch0 & _ & Hvh).
    assert (exists i, ch_output ch = Some i) as [i Hi].
    { destruct (validate_head_output _ _ _ Hvh) as (Ho & He & _). rewrite Ho.
      unfold validate_head in Hvh. rewrite <- He, Hen in Hvh.
      destruct (bool_decide _); [done|]. cbn [negb] in Hvh.
      destruct (ch_output ch0); [by eexists|done]. }
    destruct (G ch Hin i Hi) as (o & Ho & He & _). exists i, o. split; [exact Ho|congruence].
Qed.

(** A fractional scale below one brings the compositor down: requested
    together with another mode, it reaches libweston truncated to zero, where
    the mode switch asserts a positive scale; the clamp to one that the scale
    leg applies comes too late.  The [test] of the same configuration
    succeeds. *)
Theorem om_fractional_scale_aborts (ch : om_cfg_head) (c : om_state) (i f : Z) (m : weston_mode)
    (o : weston_output)
    (Hcount : (qdwin_om_output_count c <= QDWIN_OM_MAX_OUTPUTS)%nat)
    (Hhead : ch_head ch ≠ None) (Hen : ch_enabled ch = true) (Hout : ch_output ch = Some i)
    (Ho : find_output i c = Some o) (Hlive : wo_enabled o = true)
    (Hsw : wo_can_switch o = true) (Hb : fst (be_switch (backend_calls c) i m) = true)
    (Hcustom : ch_custom ch = None) (Hmode : ch_mode ch = Some m) (Hne : wo_mode o ≠ Some m)
    (Hscale : ch_scale ch = Some f) (Hf : 0 < f < 256) :
  qdwin_om_config_realize [ch] true c = Some (true, c)
  /\ qdwin_om_config_realize [ch] false c = None.
Proof.
  assert (Hv : validate [ch] c = Some [ch]).
  { unfold validate, validate_head. cbn. rewrite bool_decide_eq_false_2 by done.
    rewrite Hen, Hout. cbn [negb mbind option_bind]. rewrite Ho, Hcustom. cbn. by rewrite Hen. }
  unfold qdwin_om_config_realize. rewrite Hv.
  destruct (Nat.ltb_spec QDWIN_OM_MAX_OUTPUTS (qdwin_om_output_count c)); [lia|].
  split; [done|]. cbv zeta. cbn [apply_heads]. unfold apply_head. rewrite Hen, Hout. cbn [negb].
  unfold apply_enable, is_live. rewrite Ho, Hlive. unfold apply_mode. rewrite Hmode, Ho, Hscale.
  rewrite bool_decide_eq_false_2 by congruence. unfold weston_output_mode_switch_to_temporary.
  rewrite Ho, Hsw. cbn [negb]. destruct (be_switch (backend_calls c) i m) as [ok m'].
  cbn in Hb. rewrite Hb. cbn [negb].
  unfold wl_fixed_to_int, cdiv. rewrite Z.quot_small by lia. done.
Qed.

End WithBackend.

(** ** A session with two outputs *)

Definition ex_mode1 : weston_mode := mk_weston_mode 1 1920 1080 60000.
Definition ex_mode2 : weston_mode := mk_weston_mode 2 1280 720 60000.
Definition ex_out1 : weston_output :=
  mk_weston_output 1 true false (0, 0) 1 0 (Some ex_mode1) [ex_mode1; ex_mode2] 1920 1080 true.
Definition ex_out2 : weston_output :=
  mk_weston_output 2 false false (1920, 0) 1 0 (Some ex_mode1) [ex_mode1] 1920 1080 true.
Definition ex_cfg : om_config :=
  mk_om_config 50 4 1 false true
    [mk_om_cfg_head (Some 51) (Some 11) (Some 1) true (Some ex_mode2) None (Some (100, 50))
       (Some 1) (Some 512);
     mk_om_cfg_head (Some 52) (Some 12) (Some 2) true None None None None None].
Definition ex_om : om_state :=
  mk_om_state [ex_out1] [ex_out2] [mk_weston_head 11 (Some 1) false; mk_weston_head 12 (Some 2) false]
    false 0 1 [mk_om_manager 40 4 true] [] [] [ex_cfg] 100 false false [].

(** Its backend cannot bring the second output up: the second call fails. *)
#[local] Instance ex_backend : backend := {|
  be_enable n _ := negb (Nat.eqb n 1);
  be_disable _ _ := true;
  be_switch _ _ m := (true, Some m)
|}.

Lemma ex_om_wf : om_wf ex_om.
Proof.
  split; [apply (bool_decide_unpack _); vm_compute; exact I|by repeat constructor..|].
  vm_compute. lia.
Qed.


(** Without a backend that accepts the undo calls the rollback is partial:
    the rollback ignores that the backend refuses to switch the first output
    back, which stays in the mode that the failed request asked for. *)
Definition stubborn_backend : backend := {|
  be_enable n _ := negb (Nat.eqb n 1);
  be_disable _ _ := true;
  be_switch n _ m := if Nat.eqb n 0 then (true, Some m) else (false, Some ex_mode2)
|}.
Example refused_undo_leaves_mode :
  exists c', @qdwin_om_config_apply stubborn_backend 50 ex_om = Some c'
    /\ head (om_events c') = Some (om_failed 50)
    /\ (layout 1 ex_om ≫= snd) = Some ex_mode1 /\ (layout 1 c' ≫= snd) = Some ex_mode2.
Proof. eexists. split; [vm_compute; reflexivity|]. vm_compute. by split_and!. Qed.

(** The same configuration without the second output. *)
Definition ex_chs : list om_cfg_head :=
  [mk_om_cfg_head (Some 51) (Some 11) (Some 1) true None (Some (1280, 720, 0)) (Some (100, 50))
     (Some 1) (Some 512);
   mk_om_cfg_head None (Some 12) (Some 2) false None None None None None].
Definition ex_applied : om_state :=
  Eval vm_compute in match qdwin_om_config_realize ex_chs false ex_om with
                     | Some (_, c) => c
                     | None => ex_om
                     end.

Lemma om_apply_grants_witness :
  layout 1 ex_applied = Some (true, (100, 50), 2, 1, Some ex_mode2)
  /\ exists i o, find_output i ex_applied = Some o /\ wo_enabled o = true.
Proof.
  split; [vm_compute; reflexivity|].
  refine (proj2 (om_apply_grants ex_chs ex_om ex_applied _ ex_om_wf _ _ _)).
  - by split.
  - apply (bool_decide_unpack _). vm_compute. exact I.
  - intros ch i Hin Hi. apply elem_of_cons in Hin as [->|Hin].
    + injection Hi as <-. vm_compute. discriminate.
    + apply list_elem_of_singleton in Hin as ->. injection Hi as <-. vm_compute. discriminate.
  - vm_compute. reflexivity.
Defined.

Definition ex_half : om_cfg_head :=
  mk_om_cfg_head (Some 51) (Some 11) (Some 1) true (Some ex_mode2) None None None (Some 128).

Lemma om_fractional_scale_aborts_witness :
  qdwin_om_config_realize [ex_half] true ex_om = Some (true, ex_om)
  /\ qdwin_om_config_realize [ex_half] false ex_om = None.
Proof.
  apply (om_fractional_scale_aborts ex_half ex_om 1 128 ex_mode2 ex_out1); try done.
  vm_compute. lia.
Defined.

(** A head without a position leg does not keep its place: switching its left
    neighbour off shifts it. *)
Example om_disable_shifts_neighbour :
  let c := ex_om <| output_list ::= (fun l => l ++ [ex_out2 <| wo_enabled := true |>]) |>
                 <| pending_output_list := [] |> in
  let chs := [mk_om_cfg_head None (Some 11) (Some 1) false None None None None None;
              mk_om_cfg_head (Some 52) (Some 12) (Some 2) true None None None None None] in
  layout 2 c = Some (true, (1920, 0), 1, 0, Some ex_mode1)
  /\ (x ← qdwin_om_config_realize chs false c; layout 2 (snd x))
     = Some (true, (0, 0), 1, 0, Some ex_mode1).
Proof. split; vm_compute; reflexivity. Qed.

(** Two heads cloned onto one output defeat the check against switching
    everything off. *)
Example om_clones_switch_everything_off :
  let c := ex_om <| heads ::= map (fun h => mk_weston_head (wh_id h) (Some 1) false) |> in
  let chs := [mk_om_cfg_head (Some 51) (Some 11) (Some 1) true None None None None None;
              mk_om_cfg_head None (Some 12) (Some 1) false None None None None None] in
  (x ← qdwin_om_config_realize chs false c; Some (fst x, map wo_id (output_list (snd x))))
  = Some (true, []).
Proof. vm_compute. reflexivity. Qed.
