(* ===== verification/Environ.v ===== *)
(** * Environ: reading another process's environment and status

    The streaming scan of [/proc/<pid>/environ] and the line parser of
    [/proc/<pid>/status] of [qdwin.c], and the proof that the scan, whatever
    pieces the kernel delivers the file in, decides whether an entry starts
    with the needle. *)

From stdpp Require Import base list strings option.
From Stdlib Require Import Ascii String.
From S2P Require Import Prelude Procfs.
From stdpp Require Import list.

#[local] Open Scope Z_scope.

(** ** The scan *)

Fixpoint is_prefix (n w : list ascii) : bool :=
  match n, w with
  | [], _ => true
  | a :: n, b :: w => Ascii.eqb a b && is_prefix n w
  | _ :: _, [] => false
  end.

(** [memcmp] at the start of [w], and what follows the needle. *)
Definition needle_at (prefix : bool) (n w : list ascii) : bool :=
  is_prefix n w
  && (prefix || match drop (length n) w with [] => true | b :: _ => Ascii.eqb b NUL end).

(** The [for] loop over one window; [starts] tells whether the window's first
    byte starts an entry. *)
Fixpoint scan_window (prefix : bool) (n : list ascii) (starts : bool) (w : list ascii) : bool :=
  match w with
  | [] => false
  | b :: w' => (starts && needle_at prefix n w) || scan_window prefix n (Ascii.eqb b NUL) w'
  end.

Definition ENVIRON_MAX : nat := Z.to_nat 65536.

(** The bytes kept for the next window, and whether they start an entry. *)
Definition keep_tail (n : list ascii) (starts : bool) (w : list ascii) : list ascii * bool :=
  let k := if (length w <? length n)%nat then length w else (length n - 1)%nat in
  let start := (length w - k)%nat in
  (drop start w,
   if (0 <? k)%nat
   then (if (start =? 0)%nat then starts
         else match w !! (start - 1)%nat with Some b => Ascii.eqb b NUL | None => false end)
   else false).

(** [reads] are the results of the [read] calls, each at least one byte; [ok]
    tells whether the last one returned the end of the file. *)
Fixpoint environ_loop (prefix : bool) (n : list ascii) (ok : bool) (reads : list (list ascii))
    (tail : list ascii) (tail_starts : bool) (total : nat) : Z :=
  match reads with
  | [] => if ok then 0 else -1
  | c :: reads =>
      let w := tail ++ c in
      let starts := (total =? 0)%nat || tail_starts in
      if (ENVIRON_MAX <? total + length c)%nat then -1
      else if scan_window prefix n starts w then 1
      else let (tail, tail_starts) := keep_tail n starts w in
           environ_loop prefix n ok reads tail tail_starts (total + length c)
  end.

Definition ends_with_eq (n : list ascii) : bool :=
  match last n with Some b => Ascii.eqb b "="%char | None => false end.

(** [environ] is [None] when the file cannot be opened. *)
Definition qdwin_proc_environ_has (pid : Z) (n : list ascii)
    (environ : option (list (list ascii) * bool)) : Z :=
  if (pid <=? 0) || (length n =? 0)%nat || (256 <=? length n)%nat then -1
  else match environ with
  | None => -1
  | Some (reads, ok) => environ_loop (ends_with_eq n) n ok reads [] false 0
  end.

(** ** The status file *)

Definition is_space (c : ascii) : bool := is_blank c || Ascii.eqb c "010" || Ascii.eqb c "013".

(** [%u] and [%d]: white space, a sign, at least one digit; the kernel's
    numbers fit in 32 bits. *)
Definition scan_int (s : string) : option Z :=
  let s := skip_while is_space s in
  let (neg, s) := match s with
                  | String c r => if Ascii.eqb c "-" then (true, r)
                                  else if Ascii.eqb c "+" then (false, r) else (false, s)
                  | "" => (false, s)
                  end%string in
  match s with
  | String c _ => if is_digit c
                  then let v := digits_value 0 s in Some (if neg then - v else v)
                  else None
  | EmptyString => None
  end.

Definition scan_key (key line : string) : option Z :=
  match Procfs.strip_prefix key line with Some r => scan_int r | None => None end.

(** [fgets] into 256 bytes: up to 255 bytes, to the newline if that comes
    first. *)
Fixpoint fgets_lines (room : nat) (cur s : string) : list string :=
  match s with
  | EmptyString => if String.eqb cur "" then [] else [cur]
  | String c r =>
      let cur := (cur ++ String c "")%string in
      if Ascii.eqb c "010" then cur :: fgets_lines 255 "" r
      else match room with
           | S (S room) => fgets_lines (S room) cur r
           | _ => cur :: fgets_lines 255 "" r
           end
  end.

Definition status_line (st : option Z * option Z) (line : string) : option Z * option Z :=
  match scan_key "Uid:" line with
  | Some u => (Some (u32 u), snd st)
  | None => match scan_key "PPid:" line with
            | Some p => (fst st, Some p)
            | None => st
            end
  end.

Definition qdwin_proc_status_uid_ppid (pid : Z) (status : option string) : option (Z * Z) :=
  if pid <=? 0 then None
  else match status with
  | None => None
  | Some text =>
      match foldl status_line (None, None) (fgets_lines 255 "" text) with
      | (Some u, Some p) => Some (u, p)
      | _ => None
      end
  end.

(** ** What the scan decides *)

(** The entries of an environment block. *)
Fixpoint entries (w : list ascii) : list (list ascii) :=
  match w with
  | [] => [[]]
  | b :: w => if Ascii.eqb b NUL then [] :: entries w
              else match entries w with e :: es => (b :: e) :: es | [] => [[b]] end
  end.

Lemma entries_cons w : exists e es, entries w = e :: es.
Proof.
  induction w as [|b w (e & es & IH)]; [by eexists _, _|]. cbn.
  destruct (Ascii.eqb b NUL); [by eexists _, _|]. rewrite IH. by eexists _, _.
Qed.

Definition first_entry (w : list ascii) : list ascii := hd [] (entries w).

Lemma first_entry_cons b w :
  first_entry (b :: w) = if Ascii.eqb b NUL then [] else b :: first_entry w.
Proof.
  unfold first_entry. cbn. destruct (Ascii.eqb b NUL); [done|].
  destruct (entries_cons w) as (e & es & ->). done.
Qed.

Definition no_nul (n : list ascii) : Prop := NUL ∉ n.

(** A needle without NUL does not reach past the entry it starts in. *)
Lemma prefix_first_entry n w : no_nul n -> is_prefix n (first_entry w) = is_prefix n w.
Proof.
  revert w. induction n as [|a n IH]; intros w Hn; [done|].
  apply not_elem_of_cons in Hn as [Ha Hn]. destruct w as [|b w]; [done|].
  rewrite first_entry_cons. destruct (Ascii.eqb_spec b NUL) as [->|Hb].
  - cbn. destruct (Ascii.eqb_spec a NUL); [congruence|done].
  - cbn. by rewrite IH.
Qed.

Lemma scan_entries n starts w :
  no_nul n -> n ≠ [] ->
  scan_window true n starts w
  = (starts && is_prefix n (first_entry w)) || existsb (is_prefix n) (tl (entries w)).
Proof.
  intros Hn Hne. revert starts. induction w as [|b w IH]; intros starts.
  { destruct n; [done|]. cbn. by rewrite andb_false_r. }
  cbn [scan_window]. rewrite IH. unfold needle_at.
  cbn [orb]. rewrite andb_true_r, <- (prefix_first_entry n (b :: w)) by done. rewrite first_entry_cons.
  cbn. destruct (Ascii.eqb b NUL) eqn:Eb.
  - cbn. f_equal. unfold first_entry. destruct (entries_cons w) as (e & es & ->). done.
  - cbn. destruct (entries_cons w) as (e & es & ->). done.
Qed.

Lemma scan_content n w :
  no_nul n -> n ≠ [] -> scan_window true n true w = existsb (is_prefix n) (entries w).
Proof.
  intros Hn Hne. rewrite scan_entries by done. unfold first_entry.
  destruct (entries_cons w) as (e & es & ->). done.
Qed.

(** ** Windows *)

(** Whether the byte after [a] starts an entry. *)
Definition starts_after (s : bool) (a : list ascii) : bool :=
  match last a with None => s | Some b => Ascii.eqb b NUL end.

Lemma starts_after_app s a b : starts_after s (a ++ b) = starts_after (starts_after s a) b.
Proof. unfold starts_after. rewrite last_app. by destruct (last b). Qed.

Lemma is_prefix_app n w : is_prefix n w = true <-> exists b, w = n ++ b.
Proof.
  revert w. induction n as [|a n IH]; intros w; cbn; [by split; [exists w|]|].
  destruct w as [|b w]; [by split; [|intros (? & ?)]|].
  rewrite andb_true_iff, IH. split.
  - intros [->%Ascii.eqb_eq (c & ->)]. by exists c.
  - intros (c & [= -> ->]). split; [apply Ascii.eqb_refl|by exists c].
Qed.

Definition hit (n : list ascii) (s : bool) (w : list ascii) : Prop :=
  exists a b, w = a ++ n ++ b /\ starts_after s a = true.

Lemma scan_hit n s w : n ≠ [] -> scan_window true n s w = true <-> hit n s w.
Proof.
  intros Hne. revert s. induction w as [|x w IH]; intros s.
  - split; [done|]. intros (a & b & H & _). destruct n; [done|]. by destruct a.
  - cbn [scan_window]. rewrite orb_true_iff, IH, andb_true_iff. unfold needle_at. cbn [orb].
    rewrite andb_true_r, is_prefix_app. split.
    + intros [[-> (b & Hb)]|(a & b & -> & Ha)].
      * exists [], b. by split.
      * exists (x :: a), b. split; [done|]. change (x :: a) with ([x] ++ a).
        by rewrite starts_after_app.
    + intros (a & b & Hw & Ha). destruct a as [|y a].
      * left. split; [exact Ha|by exists b].
      * injection Hw as <- ->. right. exists a, b. split; [done|].
        change (x :: a) with ([x] ++ a) in Ha. by rewrite starts_after_app in Ha.
Qed.

(** What the loop knows between two reads: [P] was read, its last bytes are
    kept, and no entry of [P] contains the needle at its start. *)
Record scanned (n P tail : list ascii) (tail_starts : bool) (total : nat) : Prop := {
  sc_split : exists h, P = h ++ tail
               /\ ((total =? 0)%nat || tail_starts = starts_after true h);
  sc_tail : length tail = Nat.min (length P) (length n - 1);
  sc_total : total = length P;
  sc_miss : ~ hit n true P
}.

Lemma window_hit n P tail starts h c :
  P = h ++ tail -> starts = starts_after true h ->
  length tail = Nat.min (length P) (length n - 1) -> ~ hit n true P ->
  hit n starts (tail ++ c) <-> hit n true (P ++ c).
Proof.
  intros -> -> Hk Hmiss. split.
  - intros (a & b & Hw & Ha). exists (h ++ a), b. split.
    + by rewrite <- !app_assoc, Hw.
    + by rewrite starts_after_app.
  - intros (A & b & Hw & HA). rewrite length_app in Hk.
    destruct (decide (length A + length n <= length h + length tail)%nat) as [Hle|Hgt].
    + exfalso. apply Hmiss. assert (E : take (length h + length tail) ((h ++ tail) ++ c) = h ++ tail).
      { rewrite take_app_length'; [done|]. by rewrite length_app. }
      exists A, (take (length h + length tail - length A - length n) b). split; [|done].
      rewrite <- E, Hw, app_assoc. rewrite take_app_ge by (rewrite length_app; lia).
      rewrite length_app, <- app_assoc. do 3 f_equal. lia.
    + assert (HhA : exists a, A = h ++ a).
      { exists (drop (length h) A). rewrite <- (take_drop (length h) A) at 1. f_equal.
        assert (E : take (length h) ((h ++ tail) ++ c) = h).
        { rewrite <- app_assoc. by rewrite take_app_length. }
        rewrite Hw in E. rewrite take_app_le in E by lia. exact E. }
      destruct HhA as [a ->]. exists a, b. split.
      * rewrite <- !app_assoc in Hw. by apply app_inv_head in Hw.
      * by rewrite starts_after_app in HA.
Qed.

Lemma scanned_step n P tail ts total c :
  (2 <= length n)%nat -> c ≠ [] -> scanned n P tail ts total ->
  let starts := (total =? 0)%nat || ts in
  ~ hit n true (P ++ c) ->
  let (tail', ts') := keep_tail n starts (tail ++ c) in
  scanned n (P ++ c) tail' ts' (total + length c).
Proof.
  intros Hn Hc [(h & HP & Hs) Hk Ht Hm] starts Hmiss. fold starts in Hs.
  unfold keep_tail. set (w := tail ++ c).
  set (k := if (length w <? length n)%nat then length w else (length n - 1)%nat).
  assert (Hlc : (1 <= length c)%nat) by (destruct c; [done|cbn; lia]).
  assert (Hw : length w = (length tail + length c)%nat) by (unfold w; by rewrite length_app).
  assert (HlP : length P = (length h + length tail)%nat) by (rewrite HP; by rewrite length_app).
  assert (Hkw : (k <= length w)%nat /\ (1 <= k)%nat /\ k = Nat.min (length P + length c) (length n - 1)).
  { unfold k. destruct (Nat.ltb_spec (length w) (length n)); lia. }
  clearbody k. destruct Hkw as (Hk1 & Hk2 & Hk3). set (start := (length w - k)%nat). split.
  - exists (h ++ take start w). split.
    + rewrite HP, <- !app_assoc. f_equal. fold w. by rewrite take_drop.
    + destruct (Nat.eqb_spec (total + length c) 0); [lia|]. cbn [orb].
      destruct (Nat.ltb_spec 0 k); [|lia]. rewrite starts_after_app, <- Hs.
      destruct (Nat.eqb_spec start 0) as [E|E]; [rewrite E; by destruct w|].
      unfold starts_after. rewrite last_lookup, length_take.
      replace (Init.Nat.pred (start `min` length w))%nat with (start - 1)%nat by lia.
      rewrite lookup_take_lt by lia.
      destruct (w !! (start - 1)%nat) eqn:El; [done|]. apply lookup_ge_None in El. lia.
  - rewrite length_drop, length_app. lia.
  - rewrite length_app. lia.
  - done.
Qed.

Lemma environ_loop_spec n ok reads P tail ts total :
  no_nul n -> (2 <= length n)%nat -> Forall (fun c => c ≠ []) reads ->
  scanned n P tail ts total ->
  let content := P ++ concat reads in
  let r := environ_loop true n ok reads tail ts total in
  ((length content <= ENVIRON_MAX)%nat -> hit n true content -> r = 1)
  /\ (r = 1 -> hit n true content)
  /\ (r = 0 <-> (reads = [] \/ (length content <= ENVIRON_MAX)%nat) /\ ok = true /\ ~ hit n true content)
  /\ (r = 1 \/ r = 0 \/ r = -1).
Proof.
  intros Hnul Hn Hr. revert P tail ts total.
  induction Hr as [|c reads Hc Hr IH]; intros P tail ts total S; cbv zeta; cbn [environ_loop concat].
  - rewrite app_nil_r. destruct S as [S1 S2 S3 S4]. split_and!; [done|by destruct ok| |destruct ok; auto].
    destruct ok; split; intros H; try done; [|by destruct H as (_ & ? & _)].
    split_and!; [by left|done|done].
  - pose proof S as [(h & HP & Hs) Hk Ht Hm]. rewrite app_assoc.
    assert (Hlen : (length ((P ++ c) ++ concat reads) = total + length c + length (concat reads))%nat)
      by (rewrite !length_app; lia).
    destruct (Nat.ltb_spec ENVIRON_MAX (total + length c)) as [Hbig|Hsmall].
    { split_and!; [intros ?; lia|done| |by auto]. split; [done|]. intros ([H|H] & _); [done|lia]. }
    assert (Hhit : forall w, hit n true w -> forall v, hit n true (w ++ v)).
    { intros w (a & b & -> & Ha) v. exists a, (b ++ v). split; [|done]. by rewrite <- !app_assoc. }
    assert (Hne : n ≠ []) by (destruct n; [cbn in Hn; lia|done]).
    pose proof (window_hit n P tail _ h c HP Hs Hk Hm) as Hwh.
    destruct (scan_window true n _ (tail ++ c)) eqn:E.
    + apply (scan_hit n _ _ Hne), Hwh in E. apply (Hhit _ ) with (v := concat reads) in E.
      split_and!; [done|done| |by auto]. split; [done|]. by intros (_ & _ & ?).
    + assert (Hmiss : ~ hit n true (P ++ c)).
      { intros H. apply Hwh, (scan_hit n _ _ Hne) in H. congruence. }
      pose proof (scanned_step n P tail ts total c Hn Hc S Hmiss) as S'. cbv zeta in S'.
      destruct (keep_tail n _ (tail ++ c)) as [tail' ts'].
      destruct (IH _ _ _ _ S') as (H1 & H2 & H3 & H4). split_and!; [done|done| |done].
      rewrite H3. split.
      * intros ([->|Hl] & Ho & Hno); (split_and!; [right|done|done]); [|done].
        rewrite Hlen. cbn. lia.
      * intros ([?|Hl] & Ho & Hno); [done|]. split_and!; [by right|done|done].
Qed.

(** The scan against the content of the file. *)
Lemma environ_has_spec pid n reads ok :
  0 < pid -> no_nul n -> ends_with_eq n = true -> (2 <= length n < 256)%nat ->
  Forall (fun c => c ≠ []) reads ->
  let r := qdwin_proc_environ_has pid n (Some (reads, ok)) in
  let found := existsb (is_prefix n) (entries (concat reads)) in
  (found = true -> (length (concat reads) <= ENVIRON_MAX)%nat -> r = 1)
  /\ (r = 0 <-> (length (concat reads) <= ENVIRON_MAX)%nat /\ ok = true /\ found = false).
Proof.
  intros Hpid Hnul Heq Hlen Hreads. cbv zeta. unfold qdwin_proc_environ_has.
  destruct (Z.leb_spec pid 0) as [?|_]; [lia|]. destruct (Nat.eqb_spec (length n) 0) as [?|_]; [lia|].
  destruct (Nat.leb_spec 256 (length n)) as [?|_]; [lia|]. cbn [orb]. rewrite Heq.
  assert (Hne : n ≠ []) by (destruct n; [done|done]).
  assert (S0 : scanned n [] [] false 0).
  { split; [by exists []|done|done|]. intros (a & b & H & _). destruct a, n; done. }
  destruct (environ_loop_spec n ok reads [] [] false 0 Hnul (proj1 Hlen) Hreads S0)
    as (H1 & H2 & H3 & H4). cbn [app] in H1, H2, H3.
  assert (Hx : hit n true (concat reads) <-> existsb (is_prefix n) (entries (concat reads)) = true)
    by (rewrite <- scan_content, scan_hit; done).
  rewrite <- Hx. split; [auto|]. rewrite H3, <- not_true_iff_false, <- Hx.
  split; [|tauto]. intros ([->|?] & ?); [|done]. split; [cbn; lia|done].
Qed.

Lemma environ_clean pid n environ :
  0 < pid -> no_nul n -> ends_with_eq n = true -> (2 <= length n < 256)%nat ->
  (forall reads ok, environ = Some (reads, ok) -> Forall (fun c => c ≠ []) reads) ->
  qdwin_proc_environ_has pid n environ = 0 ->
  exists reads, environ = Some (reads, true) /\ (length (concat reads) <= ENVIRON_MAX)%nat
    /\ forall e, e ∈ entries (concat reads) -> is_prefix n e = false.
Proof.
  intros Hpid Hnul Heq Hlen Hreads Hr. destruct environ as [[reads ok]|].
  - apply environ_has_spec in Hr as (Hle & -> & Hno); [|by auto..|by eauto].
    exists reads. split_and!; [done|done|]. intros e He. apply not_true_iff_false. intros Hp.
    apply not_true_iff_false in Hno. apply Hno, existsb_exists. exists e.
    split; [by apply list_elem_of_In|done].
  - unfold qdwin_proc_environ_has in Hr. by repeat case_match.
Qed.

(** C17.  The environment check is exact, whatever pieces the kernel delivers the
    file in.  For a variable name (a needle without NUL, at least two bytes
    long and ending in [=]) and a file of at most 64 KiB read to its end, the
    scan answers one when some entry of the environment starts with the needle
    and zero when none does; and it answers zero, the only answer that lets the
    caller go on, in no other case: a longer file, a read error or an
    unreadable file are never taken for a clean environment. *)
Theorem environ_scan_exact (pid : Z) (n : list ascii) (environ : option (list (list ascii) * bool))
    (Hpid : 0 < pid) (Hnul : no_nul n) (Heq : ends_with_eq n = true)
    (Hlen : (2 <= length n < 256)%nat)
    (Hreads : forall reads ok, environ = Some (reads, ok) -> Forall (fun c => c ≠ []) reads) :
  let r := qdwin_proc_environ_has pid n environ in
  (forall reads, environ = Some (reads, true) -> (length (concat reads) <= ENVIRON_MAX)%nat ->
     r = if existsb (is_prefix n) (entries (concat reads)) then 1 else 0)
  /\ (r = 0 -> exists reads, environ = Some (reads, true)
        /\ (length (concat reads) <= ENVIRON_MAX)%nat
        /\ forall e, e ∈ entries (concat reads) -> is_prefix n e = false).
Proof.
  cbv zeta. split; [|by apply environ_clean].
  intros reads -> Hle.
  destruct (environ_has_spec pid n reads true Hpid Hnul Heq Hlen (Hreads _ _ eq_refl)) as [H1 H2].
  destruct (existsb _ _); [by apply H1|by apply H2].
Qed.

(** A needle cut in two by the kernel's reads. *)
Definition ex_needle : list ascii := list_ascii_of_string "ALLOW=".
Definition ex_reads : list (list ascii) :=
  [list_ascii_of_string "HOME=/" ++ [NUL] ++ list_ascii_of_string "AL"; list_ascii_of_string "LOW=1"].

Lemma environ_scan_exact_witness :
  qdwin_proc_environ_has 7 ex_needle (Some (ex_reads, true)) = 1.
Proof.
  refine (proj1 (environ_scan_exact 7 ex_needle (Some (ex_reads, true)) _ _ _ _ _) ex_reads _ _).
  - lia.
  - apply (bool_decide_unpack _). vm_compute. exact I.
  - reflexivity.
  - vm_compute. lia.
  - intros reads ok [= <- _]. by repeat constructor.
  - reflexivity.
  - apply Nat.leb_le. vm_compute. reflexivity.
Defined.
