(* ===== verification/Secctx.v ===== *)
(** * Secctx: security contexts

    The wp-security-context implementation of [qdwin.c]: listeners whose
    metadata is set once and frozen by the commit, the tags of the clients they
    accept, the gate on the manager and the filter that hides privileged
    globals. *)

From stdpp Require Import base list gmap strings option.
From Stdlib Require Import Ascii String.
From S2P Require Import Prelude Logic Procfs Environ State.
Import Policy.
From stdpp Require Import list.

#[local] Open Scope Z_scope.

(** ** State *)

(** [struct qdwin_secctx]; [sx_listening] tells that its event sources are
    installed. *)
Record secctx := mk_secctx {
  sx_id : Z; sx_resource : option Z; sx_listen_fd : Z; sx_close_fd : Z;
  sx_engine : option string; sx_app_id : option string; sx_instance : option string;
  sx_committed : bool; sx_listening : bool
}.
#[global] Instance eta_secctx : Eta secctx := fun r =>
  mk_secctx (sx_id r) (sx_resource r) (sx_listen_fd r) (sx_close_fd r) (sx_engine r) (sx_app_id r)
    (sx_instance r) (sx_committed r) (sx_listening r).

(** [struct qdwin_secctx_client]; a NULL string reads as the empty one. *)
Record secctx_client := mk_secctx_client {
  xc_client : Z; xc_secctx : option Z; xc_tag : secctx_tag
}.

Inductive sx_error := ALREADY_USED | ALREADY_SET | INVALID_METADATA | INVALID_LISTEN_FD.

Inductive sx_event :=
  | sx_post_error (res : Z) (code : sx_error)
  | sx_no_memory (res : Z)
  | sx_not_authorized (client : Z)
  | sx_fd_closed (fd : Z)
  | sx_client_destroyed (client : Z).

Record secctx_state := mk_secctx_state {
  secctxs : list secctx; tagged : list secctx_client; sx_next : Z; sx_events : list sx_event
}.
#[global] Instance eta_secctx_state : Eta secctx_state := fun r =>
  mk_secctx_state (secctxs r) (tagged r) (sx_next r) (sx_events r).

Definition sx_emit (e : sx_event) (s : secctx_state) : secctx_state := s <| sx_events ::= cons e |>.

Definition find_secctx (i : Z) (s : secctx_state) : option secctx :=
  List.find (fun x => sx_id x =? i) (secctxs s).
(** The context behind a resource, its user data. *)
Definition secctx_of_resource (r : Z) (s : secctx_state) : option secctx :=
  List.find (fun x => bool_decide (sx_resource x = Some r)) (secctxs s).
Definition upd_secctx (i : Z) (f : secctx -> secctx) (s : secctx_state) : secctx_state :=
  s <| secctxs ::= map (fun x => if sx_id x =? i then f x else x) |>.

Definition qdwin_secctx_client_find (client : Z) (s : secctx_state) : option secctx_client :=
  List.find (fun c => xc_client c =? client) (tagged s).

(** ** Teardown *)

Definition close_fd (fd : Z) (s : secctx_state) : secctx_state :=
  if 0 <=? fd then sx_emit (sx_fd_closed fd) s else s.

Definition detach_client (i : Z) (c : secctx_client) : secctx_client :=
  if bool_decide (xc_secctx c = Some i) then mk_secctx_client (xc_client c) None (xc_tag c) else c.

Definition qdwin_secctx_destroy (x : secctx) (s : secctx_state) : secctx_state :=
  s ~> close_fd (sx_listen_fd x)
    ~> close_fd (sx_close_fd x)
    ~> (fun s => s <| secctxs ::= List.filter (fun y => negb (sx_id y =? sx_id x)) |>
                   <| tagged ::= map (detach_client (sx_id x)) |>).

Definition qdwin_secctx_close_cb (i : Z) (s : secctx_state) : secctx_state :=
  match find_secctx i s with
  | Some x => if sx_listening x then qdwin_secctx_destroy x s else s
  | None => s
  end.

Definition qdwin_secctx_destroy_all (s : secctx_state) : secctx_state :=
  foldl (fun s x => qdwin_secctx_destroy x s) s (secctxs s).

Definition qdwin_secctx_resource_destroy (r : Z) (s : secctx_state) : secctx_state :=
  match secctx_of_resource r s with
  | None => s
  | Some x => if sx_committed x then upd_secctx (sx_id x) (fun x => x <| sx_resource := None |>) s
              else qdwin_secctx_destroy x s
  end.

Definition qdwin_secctx_client_on_destroy (client : Z) (s : secctx_state) : secctx_state :=
  s <| tagged ::= List.filter (fun c => negb (xc_client c =? client)) |>.

(** ** Metadata *)

Definition QDWIN_SECCTX_STR_MAX : nat := 4096.

(** The three setters differ in the field; [dup] tells whether [strdup] finds
    memory. *)
Definition set_metadata (get : secctx -> option string) (set : string -> secctx -> secctx)
    (dup : bool) (r : Z) (v : option string) (s : secctx_state) : secctx_state :=
  match secctx_of_resource r s with
  | None => s
  | Some x =>
      if sx_committed x then sx_emit (sx_post_error r ALREADY_USED) s
      else if bool_decide (get x ≠ None) then sx_emit (sx_post_error r ALREADY_SET) s
      else match v with
      | None => s
      | Some n =>
          if (QDWIN_SECCTX_STR_MAX <? String.length n)%nat
          then sx_emit (sx_post_error r INVALID_METADATA) s
          else if dup then upd_secctx (sx_id x) (set n) s else sx_emit (sx_no_memory r) s
      end
  end.

Definition qdwin_secctx_set_sandbox_engine (dup : bool) (r : Z) (name : option string)
    : secctx_state -> secctx_state :=
  set_metadata sx_engine (fun n x => x <| sx_engine := Some n |>) dup r name.
Definition qdwin_secctx_set_app_id (dup : bool) (r : Z) (app_id : option string)
    : secctx_state -> secctx_state :=
  set_metadata sx_app_id (fun n x => x <| sx_app_id := Some n |>) dup r app_id.
Definition qdwin_secctx_set_instance_id (dup : bool) (r : Z) (instance_id : option string)
    : secctx_state -> secctx_state :=
  set_metadata sx_instance (fun n x => x <| sx_instance := Some n |>) dup r instance_id.

(** [sources] tells whether the event loop takes both descriptors. *)
Definition qdwin_secctx_commit (sources : bool) (r : Z) (s : secctx_state) : secctx_state :=
  match secctx_of_resource r s with
  | None => s
  | Some x =>
      if sx_committed x then sx_emit (sx_post_error r ALREADY_USED) s
      else if sources
      then upd_secctx (sx_id x) (fun x => x <| sx_committed := true |> <| sx_listening := true |>) s
      else qdwin_secctx_destroy x s
  end.

(** ** Listeners *)

(** [alloc] tells whether the context and its resource can be allocated. *)
Definition qdwin_secctx_manager_create_listener (alloc : bool) (mgr id listen close : Z)
    (s : secctx_state) : secctx_state :=
  if listen <? 0 then s ~> sx_emit (sx_post_error mgr INVALID_LISTEN_FD) ~> close_fd close
  else if negb alloc
  then s ~> sx_emit (sx_no_memory mgr) ~> close_fd listen ~> close_fd close
  else s <| secctxs ::= cons (mk_secctx (sx_next s) (Some id) listen close None None None false false) |>
         <| sx_next ::= Z.succ |>.

Definition dup_or_empty (dup : bool) (v : option string) : string :=
  if dup then default EmptyString v else EmptyString.

Definition peer_tag (dup : bool) (p : procfs) (x : secctx) (pid uid : Z) : secctx_tag :=
  mk_secctx_tag (dup_or_empty dup (sx_engine x)) (dup_or_empty dup (sx_app_id x))
    (dup_or_empty dup (sx_instance x)) (u32 pid) (qdwin_proc_starttime pid p) (u32 uid)
    (qdwin_proc_exe pid p) (qdwin_proc_selinux_label pid p).

(** A connection arrives on the listener [i]: the client that [accept4] and
    [wl_client_create] made of it, with its credentials, if they did.  [alloc]
    tells whether the tag can be allocated, [dup] whether its strings can. *)
Definition qdwin_secctx_listen_cb (alloc dup : bool) (p : procfs) (i : Z)
    (accepted : option (Z * Z * Z)) (s : secctx_state) : secctx_state :=
  match find_secctx i s, accepted with
  | Some x, Some (client, pid, uid) =>
      if negb (sx_listening x) then s
      else if negb alloc then sx_emit (sx_client_destroyed client) s
      else s <| tagged ::= cons (mk_secctx_client client (Some i) (peer_tag dup p x pid uid)) |>
  | _, _ => s
  end.

(** ** The gate on the manager *)

(** What the environment of the compositor says: QDWIN_SECCTX_OPEN and
    QDWIN_ALLOWED_SECCTX_HELPER_EXE. *)
Record secctx_env := mk_secctx_env { env_open : option string; env_helper : option string }.

(** The files of a process the gate reads beside those of [procfs]. *)
Record helper_proc := mk_helper_proc {
  hp_environ : Z -> option (list (list ascii) * bool);
  hp_status : Z -> option string;
  hp_exe_stat : Z -> option file_stat
}.

Definition qdwin_secctx_open_dev_mode (e : secctx_env) : bool :=
  bool_decide (env_open e = Some "1"%string).

Definition qdwin_secctx_exe_allowed (e : secctx_env) (exe : string) : bool :=
  if String.eqb exe "" then false
  else match env_helper e with
  | Some h => if String.eqb h ""
              then String.eqb exe "/usr/bin/qdistro-secctx-exec"
                   || String.eqb exe "/usr/local/bin/qdistro-secctx-exec"
              else String.eqb exe h
  | None => String.eqb exe "/usr/bin/qdistro-secctx-exec"
            || String.eqb exe "/usr/local/bin/qdistro-secctx-exec"
  end.

Definition qdwin_proc_exe_is_root_trusted (h : helper_proc) (pid : Z) : bool :=
  if pid <=? 0 then false
  else match hp_exe_stat h pid with
  | None => false
  | Some st => (st_uid st =? 0) && negb (has_bits (st_mode st) (Z.lor S_IWGRP S_IWOTH))
  end.

(** [strrchr(exe, '/')]. *)
Fixpoint basename (s : string) : option string :=
  match s with
  | EmptyString => None
  | String c r => match basename r with
                  | Some b => Some b
                  | None => if Ascii.eqb c "/" then Some r else None
                  end
  end.

Definition qdwin_secctx_helper_has_root_launcher_parent (before after : procfs) (h : helper_proc)
    (pid : Z) : bool :=
  match qdwin_proc_status_uid_ppid pid (hp_status h pid) with
  | None => false
  | Some (_, parent) =>
      if parent <=? 1 then false
      else match qdwin_proc_status_uid_ppid parent (hp_status h parent) with
      | None => false
      | Some (uid, _) =>
          if negb (uid =? 0) then false
          else
            let exe := qdwin_proc_exe parent before in
            qdwin_secctx_root_launcher_attested uid (qdwin_proc_starttime parent before)
              (qdwin_proc_starttime parent after) (Some (default exe (basename exe)))
      end
  end.

Definition UNTRUSTED_NEEDLE : list ascii :=
  list_ascii_of_string "QDISTRO_SECCTX_EXEC_ALLOW_UNTRUSTED=".

(** [before] and [after] are what [/proc] holds at the start and the end of the
    checks. *)
Definition qdwin_secctx_client_is_authorized (e : secctx_env) (before after : procfs)
    (h : helper_proc) (q : qdwin) (client pid uid : Z) : bool :=
  if qdwin_client_is_bound_shell client q then true
  else if qdwin_secctx_open_dev_mode e then true
  else if negb (uid =? allowed_uid q) && negb (uid =? 0) then false
  else
    let st_before := qdwin_proc_starttime pid before in
    let ok := qdwin_secctx_exe_allowed e (qdwin_proc_exe pid before) in
    let ok := ok && qdwin_proc_exe_is_root_trusted h pid in
    let ok := ok && (negb (uid =? allowed_uid q)
                     || qdwin_secctx_helper_has_root_launcher_parent before after h pid) in
    let ok := ok && ((uid =? 0)
                     || (qdwin_proc_environ_has pid UNTRUSTED_NEEDLE (hp_environ h pid) =? 0)) in
    let st_after := qdwin_proc_starttime pid after in
    ok && negb (st_before =? 0) && negb (st_after =? 0) && (st_before =? st_after).

(** Whether the client gets a manager object; [alloc] as above. *)
Definition bind_qdwin_secctx_manager (alloc : bool) (e : secctx_env) (before after : procfs)
    (h : helper_proc) (q : qdwin) (client pid uid id : Z) (s : secctx_state)
    : option Z * secctx_state :=
  if negb (qdwin_secctx_client_is_authorized e before after h q client pid uid)
  then (None, sx_emit (sx_not_authorized client) s)
  else if negb alloc then (None, sx_emit (sx_no_memory client) s)
  else (Some id, s).

(** ** The global filter *)

(** The globals the plugin holds a pointer to. *)
Record gated_globals := mk_gated_globals {
  gg_input_method : option Z; gg_virtual_keyboard : option Z; gg_weston_capture : option Z;
  gg_touch_calibration : option Z; gg_secctx_manager : option Z; gg_idle_notifier : option Z;
  gg_shell : option Z; gg_layer_shell : option Z; gg_locker : option Z; gg_nested_manager : option Z
}.

Definition gated (g : gated_globals) : list (option Z * Z) :=
  [(gg_input_method g, QDWIN_GLOBAL_INPUT_METHOD);
   (gg_virtual_keyboard g, QDWIN_GLOBAL_VIRTUAL_KEYBOARD);
   (gg_weston_capture g, QDWIN_GLOBAL_WESTON_CAPTURE);
   (gg_touch_calibration g, QDWIN_GLOBAL_TOUCH_CALIBRATION);
   (gg_secctx_manager g, QDWIN_GLOBAL_SECCTX_MANAGER);
   (gg_idle_notifier g, QDWIN_GLOBAL_IDLE_NOTIFIER);
   (gg_shell g, QDWIN_GLOBAL_SHELL);
   (gg_layer_shell g, QDWIN_GLOBAL_LAYER_SHELL);
   (gg_locker g, QDWIN_GLOBAL_LOCKER);
   (gg_nested_manager g, QDWIN_GLOBAL_NESTED_MANAGER)].

Definition qdwin_classify_global (g : gated_globals) (global : Z) : Z :=
  match List.find (fun x => bool_decide (fst x = Some global)) (gated g) with
  | Some (_, kind) => kind
  | None => QDWIN_GLOBAL_ORDINARY
  end.

(** [authorized] is the outcome of the identity check, made for the two
    shell-only globals. *)
Definition qdwin_secctx_global_filter (g : gated_globals) (authorized : bool) (client global : Z)
    (s : secctx_state) : bool :=
  let kind := qdwin_classify_global g global in
  if kind =? QDWIN_GLOBAL_ORDINARY then true
  else
    let cred :=
      match qdwin_secctx_client_find client s with
      | Some sc =>
          if (kind =? QDWIN_GLOBAL_NESTED_MANAGER)
             && qdwin_nested_secctx_publisher_allowed (Some (sc_engine (xc_tag sc)))
                  (Some (sc_peer_exe (xc_tag sc)))
          then QDWIN_CRED_ORDINARY else QDWIN_CRED_SECCTX
      | None =>
          if (kind =? QDWIN_GLOBAL_SECCTX_MANAGER) || (kind =? QDWIN_GLOBAL_WESTON_CAPTURE)
          then (if authorized then QDWIN_CRED_SHELL else QDWIN_CRED_ORDINARY)
          else QDWIN_CRED_ORDINARY
      end in
    qdwin_global_visible cred kind.
