(* ===== verification/SecctxFacts.v ===== *)
(** * SecctxFacts: what security contexts guarantee

    Runs of the security-context component: the identity of an accepted client
    is the one frozen by the commit of its listener, every descriptor a client
    hands in is closed exactly once, the manager admits only the shell and the
    attested launcher helper, and a tagged client sees no privileged global. *)

From stdpp Require Import base list gmap strings option.
From Stdlib Require Import Ascii String.
From S2P Require Import Prelude Logic LogicFacts Procfs Environ State Secctx.
Import Policy.
From stdpp Require Import list.

#[local] Open Scope Z_scope.

(** ** Runs *)

Inductive sx_op :=
  | op_create (alloc : bool) (mgr id listen close : Z)
  | op_engine (dup : bool) (r : Z) (v : option string)
  | op_app_id (dup : bool) (r : Z) (v : option string)
  | op_instance (dup : bool) (r : Z) (v : option string)
  | op_commit (sources : bool) (r : Z)
  | op_listen (alloc dup : bool) (p : procfs) (i : Z) (accepted : option (Z * Z * Z))
  | op_close (i : Z)
  | op_resource_destroy (r : Z)
  | op_client_destroy (client : Z)
  | op_destroy_all.

Definition sx_step (s : secctx_state) (o : sx_op) : secctx_state :=
  match o with
  | op_create alloc mgr id listen close => qdwin_secctx_manager_create_listener alloc mgr id listen close s
  | op_engine dup r v => qdwin_secctx_set_sandbox_engine dup r v s
  | op_app_id dup r v => qdwin_secctx_set_app_id dup r v s
  | op_instance dup r v => qdwin_secctx_set_instance_id dup r v s
  | op_commit sources r => qdwin_secctx_commit sources r s
  | op_listen alloc dup p i a => qdwin_secctx_listen_cb alloc dup p i a s
  | op_close i => qdwin_secctx_close_cb i s
  | op_resource_destroy r => qdwin_secctx_resource_destroy r s
  | op_client_destroy c => qdwin_secctx_client_on_destroy c s
  | op_destroy_all => qdwin_secctx_destroy_all s
  end.

Definition sx_run (ops : list sx_op) (s : secctx_state) : secctx_state := foldl sx_step s ops.
Definition sx_init : secctx_state := mk_secctx_state [] [] 0 [].

Lemma sx_run_app a b s : sx_run (a ++ b) s = sx_run b (sx_run a s).
Proof. apply foldl_app. Qed.

(** The list of contexts is only ever prepended to, mapped with an update of
    one context, or filtered. *)
Inductive secctxs_change : secctx_state -> secctx_state -> Prop :=
  | sc_same s s' : secctxs s' = secctxs s -> sx_next s' = sx_next s -> secctxs_change s s'
  | sc_new s s' x :
      secctxs s' = x :: secctxs s -> sx_id x = sx_next s -> sx_committed x = false ->
      sx_next s' = Z.succ (sx_next s) -> secctxs_change s s'
  | sc_upd s s' i f x :
      secctxs s' = map (fun y => if sx_id y =? i then f y else y) (secctxs s) ->
      sx_next s' = sx_next s ->
      x ∈ secctxs s -> sx_id x = i ->
      (forall y, sx_id (f y) = sx_id y) ->
      (sx_committed x = true -> forall y, exists r, f y = y <| sx_resource := r |>) ->
      secctxs_change s s'
  | sc_drop s s' P :
      secctxs s' = List.filter P (secctxs s) -> sx_next s' = sx_next s -> secctxs_change s s'.

Lemma find_in {A} (P : A -> bool) l x : List.find P l = Some x -> x ∈ l.
Proof. intros [H _]%find_some. by apply list_elem_of_In. Qed.

Lemma destroy_secctxs x s :
  secctxs (qdwin_secctx_destroy x s) = List.filter (fun y => negb (sx_id y =? sx_id x)) (secctxs s).
Proof. unfold qdwin_secctx_destroy, close_fd. by repeat case_match. Qed.
Lemma destroy_next x s : sx_next (qdwin_secctx_destroy x s) = sx_next s.
Proof. unfold qdwin_secctx_destroy, close_fd. by repeat case_match. Qed.
Lemma destroy_tagged x s : tagged (qdwin_secctx_destroy x s) = map (detach_client (sx_id x)) (tagged s).
Proof. unfold qdwin_secctx_destroy, close_fd. by repeat case_match. Qed.

Lemma filter_filter {A} (P Q : A -> bool) l :
  List.filter P (List.filter Q l) = List.filter (fun x => Q x && P x) l.
Proof. induction l as [|x l IH]; [done|]. cbn. destruct (Q x); cbn; [destruct (P x)|]; by rewrite IH. Qed.

Lemma filter_true {A} (l : list A) : List.filter (fun _ => true) l = l.
Proof. induction l as [|x l IH]; [done|]. cbn. by rewrite IH. Qed.

Lemma destroy_list_change l s :
  exists P, secctxs (foldl (fun s x => qdwin_secctx_destroy x s) s l) = List.filter P (secctxs s)
            /\ sx_next (foldl (fun s x => qdwin_secctx_destroy x s) s l) = sx_next s.
Proof.
  revert s. induction l as [|x l IH]; intros s; cbn.
  - exists (fun _ => true). by rewrite filter_true.
  - destruct (IH (qdwin_secctx_destroy x s)) as (P & -> & ->).
    rewrite destroy_secctxs, destroy_next, filter_filter. by eexists.
Qed.

Lemma set_metadata_change get set dup r v s :
  (forall n y, sx_id (set n y) = sx_id y) -> secctxs_change s (set_metadata get set dup r v s).
Proof.
  intros Hid. unfold set_metadata. destruct (secctx_of_resource r s) as [x|] eqn:E; [|by apply sc_same].
  destruct (sx_committed x) eqn:Ec; [by apply sc_same|].
  repeat case_match; try by apply sc_same.
  apply (sc_upd _ _ (sx_id x) (set s0) x); auto; [by apply find_in in E|congruence].
Qed.

Lemma step_change s o : secctxs_change s (sx_step s o).
Proof.
  destruct o; cbn.
  - unfold qdwin_secctx_manager_create_listener, close_fd. repeat case_match; try by apply sc_same.
    by eapply sc_new.
  - by apply set_metadata_change.
  - by apply set_metadata_change.
  - by apply set_metadata_change.
  - unfold qdwin_secctx_commit. destruct (secctx_of_resource r s) as [x|] eqn:E; [|by apply sc_same].
    destruct (sx_committed x) eqn:Ec; [by apply sc_same|]. destruct sources.
    + eapply (sc_upd _ _ (sx_id x) _ x); [done|done|by apply find_in in E|done|done|congruence].
    + eapply sc_drop; [apply destroy_secctxs|apply destroy_next].
  - unfold qdwin_secctx_listen_cb. by repeat case_match; apply sc_same.
  - unfold qdwin_secctx_close_cb. repeat case_match; try by apply sc_same.
    eapply sc_drop; [apply destroy_secctxs|apply destroy_next].
  - unfold qdwin_secctx_resource_destroy.
    destruct (secctx_of_resource r s) as [x|] eqn:E; [|by apply sc_same].
    destruct (sx_committed x) eqn:Ec.
    + eapply (sc_upd _ _ (sx_id x) _ x); [done|done|by apply find_in in E|done|done|].
      intros _ y. by eexists.
    + eapply sc_drop; [apply destroy_secctxs|apply destroy_next].
  - by apply sc_same.
  - unfold qdwin_secctx_destroy_all. destruct (destroy_list_change (secctxs s) s) as (P & H1 & H2).
    by eapply sc_drop.
Qed.

(** ** The metadata of a committed listener *)

Definition sx_wf (s : secctx_state) : Prop :=
  NoDup (map sx_id (secctxs s)) /\ Forall (fun x => sx_id x < sx_next s) (secctxs s).

Lemma change_wf s s' : secctxs_change s s' -> sx_wf s -> sx_wf s'.
Proof.
  intros C [Hn Hf]. unfold sx_wf. destruct C as [s s' E En|s s' x E Ei _ En|s s' i f x E En _ _ Hid _|s s' P E En];
    rewrite E, En.
  - done.
  - split.
    + cbn. constructor; [|done]. intros (y & Hy & Hin)%list_elem_of_In%in_map_iff.
      rewrite Forall_forall in Hf. apply list_elem_of_In, Hf in Hin. lia.
    + constructor; [lia|]. eapply Forall_impl; [exact Hf|]. cbn. lia.
  - split.
    + rewrite map_map. erewrite map_ext; [exact Hn|]. intros y. by case_match.
    + apply Forall_map. eapply Forall_impl; [exact Hf|]. intros y Hy. cbn. case_match; [by rewrite Hid|done].
  - split.
    + clear - Hn. induction (secctxs s) as [|y l IH]; [done|].
      cbn in Hn. apply NoDup_cons in Hn as [Hy Hn]. cbn. case_match; cbn; [|by apply IH].
      constructor; [|by apply IH]. intros (z & Hz & Hin)%list_elem_of_In%in_map_iff.
      apply filter_In in Hin as [Hin _]. apply Hy, list_elem_of_In, in_map_iff. by exists z.
    + apply Forall_forall. intros y Hy. apply list_elem_of_In, filter_In in Hy as [Hy _].
      rewrite Forall_forall in Hf. by apply Hf, list_elem_of_In.
Qed.

Lemma run_wf ops s : sx_wf s -> sx_wf (sx_run ops s).
Proof.
  revert s. induction ops as [|o ops IH]; intros s W; [done|].
  apply IH. eapply change_wf; [apply step_change|done].
Qed.

Lemma init_wf : sx_wf sx_init.
Proof. split; constructor. Qed.

(** Whatever context carries the number [i] is committed and describes the
    same sandbox as [x]. *)
Definition frozen (i : Z) (x : secctx) (s : secctx_state) : Prop :=
  i < sx_next s
  /\ forall y, y ∈ secctxs s -> sx_id y = i ->
       sx_committed y = true /\ sx_engine y = sx_engine x /\ sx_app_id y = sx_app_id x
       /\ sx_instance y = sx_instance x.

Lemma change_frozen i x s s' : secctxs_change s s' -> frozen i x s -> frozen i x s'.
Proof.
  intros C [Hi Hf]. unfold frozen.
  destruct C as [s s' E En|s s' z E Ei Ec En|s s' j f z E En Hz Hj Hid Hk|s s' P E En]; rewrite E, En.
  - done.
  - split; [lia|]. intros y [->|Hy]%elem_of_cons Hy'; [lia|by apply Hf].
  - split; [done|]. intros y Hy Hyi. apply list_elem_of_In, in_map_iff in Hy as (w & <- & Hw).
    apply list_elem_of_In in Hw. destruct (Z.eqb_spec (sx_id w) j) as [Ej|]; [|by apply Hf].
    rewrite Hid in Hyi. assert (sx_committed z = true) as Hc by (apply Hf; [done|congruence]).
    destruct (Hk Hc w) as (r & ->). destruct (Hf w Hw Hyi) as (? & ? & ? & ?). done.
  - split; [done|]. intros y Hy. apply list_elem_of_In, filter_In in Hy as [Hy _].
    by apply Hf, list_elem_of_In.
Qed.

Lemma run_frozen i x ops s : frozen i x s -> frozen i x (sx_run ops s).
Proof.
  revert s. induction ops as [|o ops IH]; intros s F; [done|].
  apply IH. eapply change_frozen; [apply step_change|done].
Qed.

Lemma find_secctx_spec i s x : find_secctx i s = Some x -> x ∈ secctxs s /\ sx_id x = i.
Proof.
  unfold find_secctx. intros H. split; [by eapply find_in|]. apply find_some in H as [_ H]. lia.
Qed.

Lemma wf_unique s x y : sx_wf s -> x ∈ secctxs s -> y ∈ secctxs s -> sx_id x = sx_id y -> x = y.
Proof.
  intros [Hn _]. induction (secctxs s) as [|z l IH]; intros Hx Hy E; [by apply not_elem_of_nil in Hx|].
  cbn in Hn. apply NoDup_cons in Hn as [Hz Hn].
  assert (Hm : forall w, w ∈ l -> sx_id w ∈ map sx_id l).
  { intros w Hw. apply list_elem_of_In, in_map, list_elem_of_In. done. }
  apply elem_of_cons in Hx as [->|Hx], Hy as [->|Hy]; [done| | |by apply IH];
    exfalso; apply Hz; [rewrite E|rewrite <- E]; by apply Hm.
Qed.

Lemma committed_frozen i s x :
  sx_wf s -> find_secctx i s = Some x -> sx_committed x = true -> frozen i x s.
Proof.
  intros W [Hx Ei]%find_secctx_spec Hc. split.
  - destruct W as [_ Hf]. rewrite Forall_forall in Hf. rewrite <- Ei. by apply Hf.
  - intros y Hy Hyi. assert (y = x) as -> by (apply (wf_unique s); congruence). done.
Qed.

(** ** The tag of an accepted client *)

(** The operations that end the client's tag: its own destruction, and the
    acceptance of another client at the same address, which the allocator
    cannot produce while this one lives. *)
Definition spares (client : Z) (o : sx_op) : bool :=
  match o with
  | op_listen _ _ _ _ (Some (c, _, _)) => negb (c =? client)
  | op_client_destroy c => negb (c =? client)
  | _ => true
  end.

Lemma find_map_detach client i l c :
  List.find (fun c => xc_client c =? client) l = Some c ->
  exists c', List.find (fun c => xc_client c =? client) (map (detach_client i) l) = Some c'
             /\ xc_tag c' = xc_tag c.
Proof.
  induction l as [|d l IH]; [done|]. cbn.
  assert (xc_client (detach_client i d) = xc_client d /\ xc_tag (detach_client i d) = xc_tag d) as [-> Ht]
    by (unfold detach_client; by case_match).
  case_match; [|done]. intros [= ->]. by eexists.
Qed.

Lemma find_filter_other client c0 l :
  c0 ≠ client ->
  List.find (fun c => xc_client c =? client) (List.filter (fun c => negb (xc_client c =? c0)) l)
  = List.find (fun c => xc_client c =? client) l.
Proof.
  intros Hne. induction l as [|d l IH]; [done|]. cbn.
  destruct (Z.eqb_spec (xc_client d) c0) as [E|E]; cbn.
  - rewrite IH. destruct (Z.eqb_spec (xc_client d) client); [congruence|done].
  - by rewrite IH.
Qed.

Lemma destroy_list_tags client l s c :
  qdwin_secctx_client_find client s = Some c ->
  exists c', qdwin_secctx_client_find client (foldl (fun s x => qdwin_secctx_destroy x s) s l) = Some c'
             /\ xc_tag c' = xc_tag c.
Proof.
  revert s c. induction l as [|x l IH]; intros s c Hc; cbn; [by eexists|].
  destruct (find_map_detach client (sx_id x) _ _ Hc) as (c' & Hc' & Ht).
  destruct (IH (qdwin_secctx_destroy x s) c') as (d & Hd & Hdt).
  - unfold qdwin_secctx_client_find. by rewrite destroy_tagged.
  - exists d. by rewrite Hdt.
Qed.

Lemma step_keeps_tag client s o c :
  spares client o = true -> qdwin_secctx_client_find client s = Some c ->
  exists c', qdwin_secctx_client_find client (sx_step s o) = Some c' /\ xc_tag c' = xc_tag c.
Proof.
  intros Ho Hc.
  assert (Hsame : forall s', tagged s' = tagged s ->
            exists c', qdwin_secctx_client_find client s' = Some c' /\ xc_tag c' = xc_tag c).
  { intros s' E. exists c. split; [|done]. unfold qdwin_secctx_client_find. by rewrite E. }
  assert (Hdestroy : forall x, exists c',
            qdwin_secctx_client_find client (qdwin_secctx_destroy x s) = Some c' /\ xc_tag c' = xc_tag c).
  { intros x. by apply (destroy_list_tags client [x]). }
  destruct o; cbn in Ho |- *;
    unfold qdwin_secctx_manager_create_listener, close_fd, qdwin_secctx_set_sandbox_engine,
      qdwin_secctx_set_app_id, qdwin_secctx_set_instance_id, set_metadata, qdwin_secctx_commit,
      qdwin_secctx_listen_cb, qdwin_secctx_close_cb, qdwin_secctx_resource_destroy;
    try by (repeat case_match; first [by apply Hsame|by apply Hdestroy]).
  - destruct (find_secctx i s), accepted as [[[c0 pid] uid]|]; try by apply Hsame.
    repeat case_match; try by apply Hsame. cbn. exists c. split; [|done]. cbn.
    apply negb_true_iff in Ho. by rewrite Ho.
  - exists c. split; [|done]. unfold qdwin_secctx_client_find, qdwin_secctx_client_on_destroy. cbn.
    rewrite find_filter_other; [done|]. lia.
  - by apply destroy_list_tags.
Qed.

Lemma run_keeps_tag client ops s c :
  forallb (spares client) ops = true -> qdwin_secctx_client_find client s = Some c ->
  exists c', qdwin_secctx_client_find client (sx_run ops s) = Some c' /\ xc_tag c' = xc_tag c.
Proof.
  revert s c. induction ops as [|o ops IH]; intros s c Ho Hc; [by eexists|].
  cbn in Ho. apply andb_true_iff in Ho as [Ho Hops].
  destruct (step_keeps_tag client s o c Ho Hc) as (c' & Hc' & Ht).
  destruct (IH _ c' Hops Hc') as (d & Hd & Hdt). exists d. by rewrite Hdt.
Qed.

(** What a listener committed in the state after [before] does with a
    connection that arrives after [mid]. *)
Section Accept.
Context (before mid after : list sx_op) (i : Z) (x y : secctx) (alloc dup : bool) (p : procfs)
  (client pid uid : Z).
Context (Hx : find_secctx i (sx_run before sx_init) = Some x) (Hc : sx_committed x = true)
  (Hy : find_secctx i (sx_run (before ++ mid) sx_init) = Some y) (Hl : sx_listening y = true)
  (Hnew : qdwin_secctx_client_find client (sx_run (before ++ mid) sx_init) = None)
  (Hafter : forallb (spares client) after = true).

Definition accept_state : secctx_state :=
  qdwin_secctx_listen_cb alloc dup p i (Some (client, pid, uid)) (sx_run (before ++ mid) sx_init).

Lemma accept_same : sx_engine y = sx_engine x /\ sx_app_id y = sx_app_id x /\ sx_instance y = sx_instance x.
Proof.
  rewrite sx_run_app in Hy.
  assert (F : frozen i x (sx_run mid (sx_run before sx_init)))
    by (apply run_frozen, committed_frozen; [apply run_wf, init_wf|done|done]).
  destruct (find_secctx_spec _ _ _ Hy) as [Hin Hid]. by destruct (proj2 F y Hin Hid) as (_ & ? & ? & ?).
Qed.

Lemma accept_tag :
  alloc = true ->
  exists c, qdwin_secctx_client_find client (sx_run after accept_state) = Some c
            /\ xc_tag c = peer_tag dup p x pid uid.
Proof.
  intros Halloc. destruct accept_same as (E1 & E2 & E3).
  assert (Et : peer_tag dup p y pid uid = peer_tag dup p x pid uid)
    by (unfold peer_tag; by rewrite E1, E2, E3).
  edestruct (run_keeps_tag client after accept_state) as (c & Hf & Ht); [exact Hafter| |].
  - unfold accept_state, qdwin_secctx_listen_cb, qdwin_secctx_client_find. rewrite Hy, Hl, Halloc. cbn.
    by rewrite Z.eqb_refl.
  - exists c. split; [exact Hf|]. by rewrite Ht.
Qed.

Lemma accept_refused :
  alloc = false ->
  sx_client_destroyed client ∈ sx_events accept_state /\ qdwin_secctx_client_find client accept_state = None.
Proof.
  intros Halloc. unfold accept_state, qdwin_secctx_listen_cb. rewrite Hy, Hl, Halloc. cbn. split; [by left|exact Hnew].
Qed.
End Accept.

(** C15.  The identity of a sandboxed client is the one its launcher committed.
    Once a listener has been committed, no request, hangup or teardown changes
    the engine, application or instance it describes while it lives; a
    connection it accepts later is tagged with exactly that description and
    with the process the kernel reports, or, when the tag cannot be allocated,
    is destroyed and never runs untagged; and the tag stays on the client
    through every later operation, the teardown of the listener included,
    until the client itself goes. *)
Theorem secctx_identity_frozen (before mid after : list sx_op) (i : Z) (x y : secctx)
    (alloc dup : bool) (p : procfs) (client pid uid : Z)
    (Hx : find_secctx i (sx_run before sx_init) = Some x) (Hc : sx_committed x = true)
    (Hy : find_secctx i (sx_run (before ++ mid) sx_init) = Some y) (Hl : sx_listening y = true)
    (Hnew : qdwin_secctx_client_find client (sx_run (before ++ mid) sx_init) = None)
    (Hafter : forallb (spares client) after = true) :
  let accepted := accept_state before mid i alloc dup p client pid uid in
  (sx_engine y = sx_engine x /\ sx_app_id y = sx_app_id x /\ sx_instance y = sx_instance x)
  /\ (alloc = true ->
      exists c, qdwin_secctx_client_find client (sx_run after accepted) = Some c
                /\ xc_tag c = peer_tag dup p x pid uid)
  /\ (alloc = false ->
      sx_client_destroyed client ∈ sx_events accepted
      /\ qdwin_secctx_client_find client accepted = None).
Proof.
  cbv zeta. split; [by eapply accept_same|]. split; [by eapply accept_tag|by eapply accept_refused].
Qed.

(** A launcher creates a listener, names the sandbox and commits; it then tries
    to rename it and disconnects.  Process 42 connects, and the listener hangs
    up. *)
Definition ex_peer : procfs :=
  mk_procfs (fun _ => Some "42 (app) S 1 1 1 0 -1 0 0 0 0 0 0 0 0 0 20 0 1 0 777 0 0"%string)
    (fun _ => Some "/usr/bin/app"%string) (fun _ => None) (fun _ => None) (fun _ => false)
    (fun _ => None) (fun _ => None).
Definition ex_before : list sx_op :=
  [op_create true 1 10 5 6; op_engine true 10 (Some "silo"%string);
   op_app_id true 10 (Some "mail"%string); op_commit true 10].
Definition ex_mid : list sx_op := [op_engine true 10 (Some "host"%string); op_resource_destroy 10].
Definition ex_after : list sx_op := [op_close 0; op_destroy_all].
Definition ex_x : secctx :=
  mk_secctx 0 (Some 10) 5 6 (Some "silo"%string) (Some "mail"%string) None true true.
Definition ex_y : secctx :=
  mk_secctx 0 None 5 6 (Some "silo"%string) (Some "mail"%string) None true true.

Lemma secctx_identity_frozen_witness :
  exists c,
    qdwin_secctx_client_find 99
      (sx_run ex_after (accept_state ex_before ex_mid 0 true true ex_peer 99 42 1000)) = Some c
    /\ xc_tag c = peer_tag true ex_peer ex_x 42 1000.
Proof.
  refine (proj1 (proj2 (secctx_identity_frozen ex_before ex_mid ex_after 0 ex_x ex_y true true
                          ex_peer 99 42 1000 _ _ _ _ _ _)) _); reflexivity.
Defined.

(** ** Descriptors *)

Definition real_fds (fds : list Z) : list Z := List.filter (fun fd => 0 <=? fd) fds.

(** The descriptors the contexts own, the ones the compositor closed, and the
    ones a run's clients handed in. *)
Definition sx_fds (x : secctx) : list Z := real_fds [sx_listen_fd x; sx_close_fd x].
Definition owned_fds (s : secctx_state) : list Z := flat_map sx_fds (secctxs s).
Definition closed_fd (e : sx_event) : option Z := match e with sx_fd_closed fd => Some fd | _ => None end.
Definition closed_fds (s : secctx_state) : list Z := omap closed_fd (sx_events s).
Definition handed_fds (o : sx_op) : list Z :=
  match o with op_create _ _ _ listen close => real_fds [listen; close] | _ => [] end.

Lemma closed_close_fd fd s : closed_fds (close_fd fd s) = real_fds [fd] ++ closed_fds s.
Proof. unfold close_fd, real_fds. cbn. by case_match. Qed.
Lemma secctxs_close_fd fd s : secctxs (close_fd fd s) = secctxs s.
Proof. unfold close_fd. by case_match. Qed.
Lemma owned_close_fd fd s : owned_fds (close_fd fd s) = owned_fds s.
Proof. unfold owned_fds. by rewrite secctxs_close_fd. Qed.

Lemma real_fds_two a b : real_fds [b] ++ real_fds [a] ≡ₚ real_fds [a; b].
Proof. unfold real_fds. cbn. repeat case_match; cbn; try done. by apply Permutation_swap. Qed.

Lemma closed_destroy x s : closed_fds (qdwin_secctx_destroy x s) ≡ₚ sx_fds x ++ closed_fds s.
Proof.
  unfold qdwin_secctx_destroy. unfold closed_fds at 1. cbn.
  change (closed_fds (close_fd (sx_close_fd x) (close_fd (sx_listen_fd x) s)) ≡ₚ sx_fds x ++ closed_fds s).
  rewrite !closed_close_fd, app_assoc. by rewrite real_fds_two.
Qed.

Lemma flat_map_filter_id x l :
  NoDup (map sx_id l) -> x ∈ l ->
  sx_fds x ++ flat_map sx_fds (List.filter (fun y => negb (sx_id y =? sx_id x)) l) ≡ₚ flat_map sx_fds l.
Proof.
  induction l as [|y l IH]; intros Hn Hx; [by apply not_elem_of_nil in Hx|].
  cbn in Hn. apply NoDup_cons in Hn as [Hy Hn]. cbn.
  apply elem_of_cons in Hx as [->|Hx].
  - rewrite Z.eqb_refl. cbn. apply Permutation_app_head, reflexive_eq. f_equal.
    clear - Hy. induction l as [|z l IH]; [done|]. cbn in Hy |- *.
    apply not_elem_of_cons in Hy as [Hyz Hy].
    destruct (Z.eqb_spec (sx_id z) (sx_id y)); [congruence|]. cbn. by rewrite IH.
  - destruct (Z.eqb_spec (sx_id y) (sx_id x)) as [E|E]; cbn.
    + exfalso. apply Hy. rewrite E. by apply list_elem_of_In, in_map, list_elem_of_In.
    + rewrite <- IH by done. rewrite !app_assoc. apply Permutation_app_tail, Permutation_app_comm.
Qed.

(** The books before and after, for a state whose contexts are distinct. *)
Lemma destroy_fds x s :
  sx_wf s -> x ∈ secctxs s ->
  closed_fds (qdwin_secctx_destroy x s) ++ owned_fds (qdwin_secctx_destroy x s)
  ≡ₚ closed_fds s ++ owned_fds s.
Proof.
  intros [Hn _] Hx. rewrite closed_destroy. unfold owned_fds. rewrite destroy_secctxs.
  rewrite <- (flat_map_filter_id x (secctxs s)) by done.
  rewrite (Permutation_app_comm (sx_fds x) (closed_fds s)). by rewrite <- app_assoc.
Qed.

Lemma destroy_head x l s : sx_wf s -> secctxs s = x :: l -> secctxs (qdwin_secctx_destroy x s) = l.
Proof.
  intros [Hn _] E. rewrite destroy_secctxs, E in *. cbn in *. rewrite Z.eqb_refl. cbn.
  apply NoDup_cons in Hn as [Hx _]. clear E. induction l as [|z l IH]; [done|]. cbn in Hx |- *.
  apply not_elem_of_cons in Hx as [Hne Hx].
  destruct (Z.eqb_spec (sx_id z) (sx_id x)); [congruence|]. cbn. by rewrite IH.
Qed.

Lemma destroy_wf x s : sx_wf s -> sx_wf (qdwin_secctx_destroy x s).
Proof. apply change_wf. eapply sc_drop; [apply destroy_secctxs|apply destroy_next]. Qed.

Lemma destroy_all_fds s :
  sx_wf s -> closed_fds (qdwin_secctx_destroy_all s) ++ owned_fds (qdwin_secctx_destroy_all s)
             ≡ₚ closed_fds s ++ owned_fds s
             /\ secctxs (qdwin_secctx_destroy_all s) = [].
Proof.
  unfold qdwin_secctx_destroy_all. remember (secctxs s) as l eqn:E. symmetry in E.
  revert s E. induction l as [|x l IH]; intros s E W; cbn; [done|].
  destruct (IH (qdwin_secctx_destroy x s)) as [H1 H2]; [by apply destroy_head|by apply destroy_wf|].
  split; [|done]. rewrite H1. apply destroy_fds; [done|]. rewrite E. by left.
Qed.

Lemma upd_fds i f s :
  (forall y, sx_fds (f y) = sx_fds y) ->
  closed_fds (upd_secctx i f s) ++ owned_fds (upd_secctx i f s) ≡ₚ closed_fds s ++ owned_fds s.
Proof.
  intros H. apply Permutation_app_head. unfold owned_fds, upd_secctx. cbn.
  induction (secctxs s) as [|y l IH]; [done|]. cbn [map flat_map].
  rewrite IH. case_match; [by rewrite H|done].
Qed.

Lemma set_metadata_fds get set dup r v s :
  (forall n y, sx_fds (set n y) = sx_fds y) ->
  let s' := set_metadata get set dup r v s in closed_fds s' ++ owned_fds s' ≡ₚ closed_fds s ++ owned_fds s.
Proof.
  intros H. cbv zeta. unfold set_metadata. repeat case_match; try done. by apply upd_fds.
Qed.

Lemma step_fds s o :
  sx_wf s ->
  closed_fds (sx_step s o) ++ owned_fds (sx_step s o) ≡ₚ handed_fds o ++ closed_fds s ++ owned_fds s.
Proof.
  intros W. destruct o; cbn [handed_fds app]; cbn [sx_step].
  - unfold qdwin_secctx_manager_create_listener. destruct (Z.ltb_spec listen 0).
    + rewrite closed_close_fd, owned_close_fd. unfold real_fds. cbn.
      destruct (Z.leb_spec 0 listen); [lia|]. by case_match.
    + case_match.
      * rewrite !closed_close_fd, !owned_close_fd. rewrite (app_assoc (real_fds [close])), real_fds_two.
        by rewrite <- app_assoc.
      * change (closed_fds s ++ real_fds [listen; close] ++ owned_fds s
                ≡ₚ real_fds [listen; close] ++ closed_fds s ++ owned_fds s).
        rewrite !app_assoc. apply Permutation_app_tail, Permutation_app_comm.
  - by apply set_metadata_fds.
  - by apply set_metadata_fds.
  - by apply set_metadata_fds.
  - unfold qdwin_secctx_commit. destruct (secctx_of_resource r s) as [x|] eqn:E; [|done].
    repeat case_match; [done|by apply upd_fds|]. apply destroy_fds; [done|by apply find_in in E].
  - unfold qdwin_secctx_listen_cb. by repeat case_match.
  - unfold qdwin_secctx_close_cb. destruct (find_secctx i s) as [x|] eqn:E; [|done].
    case_match; [|done]. apply destroy_fds; [done|by apply find_in in E].
  - unfold qdwin_secctx_resource_destroy. destruct (secctx_of_resource r s) as [x|] eqn:E; [|done].
    case_match; [by apply upd_fds|]. apply destroy_fds; [done|by apply find_in in E].
  - done.
  - by apply destroy_all_fds.
Qed.

Lemma run_fds ops s :
  sx_wf s ->
  closed_fds (sx_run ops s) ++ owned_fds (sx_run ops s)
  ≡ₚ flat_map handed_fds ops ++ closed_fds s ++ owned_fds s.
Proof.
  revert s. induction ops as [|o ops IH]; intros s W; [done|]. cbn.
  change (foldl sx_step (sx_step s o) ops) with (sx_run ops (sx_step s o)).
  rewrite IH by (eapply change_wf; [apply step_change|done]).
  rewrite step_fds by done. rewrite !app_assoc. do 2 apply Permutation_app_tail. apply Permutation_app_comm.
Qed.

(** No descriptor is leaked or closed twice.  After any run of requests,
    hangups and teardowns, the descriptors that clients handed in with
    create_listener are exactly the ones the compositor has closed together
    with the ones its live contexts own, each counted as often as it was handed
    in: the error paths (an invalid listen descriptor, no memory, an event loop
    that refuses the descriptors) close what they were given.  After the
    teardown of the plugin all of them are closed. *)
Theorem secctx_fds_accounted (ops : list sx_op) :
  let s := sx_run ops sx_init in
  closed_fds s ++ owned_fds s ≡ₚ flat_map handed_fds ops
  /\ closed_fds (qdwin_secctx_destroy_all s) ≡ₚ flat_map handed_fds ops.
Proof.
  cbv zeta. assert (W : sx_wf (sx_run ops sx_init)) by apply run_wf, init_wf.
  assert (H : closed_fds (sx_run ops sx_init) ++ owned_fds (sx_run ops sx_init) ≡ₚ flat_map handed_fds ops).
  { rewrite run_fds by apply init_wf. cbn. by rewrite app_nil_r. }
  split; [exact H|]. destruct (destroy_all_fds _ W) as [H1 H2]. rewrite H in H1.
  unfold owned_fds in H1. rewrite H2 in H1. cbn in H1. by rewrite app_nil_r in H1.
Qed.

(** ** The global filter *)

Lemma filter_tagged g auth client global s c :
  qdwin_secctx_client_find client s = Some c ->
  qdwin_secctx_global_filter g auth client global s = true ->
  qdwin_classify_global g global = QDWIN_GLOBAL_ORDINARY
  \/ qdwin_classify_global g global = QDWIN_GLOBAL_NESTED_MANAGER
     /\ sc_engine (xc_tag c) = "qdistro.tier2"%string /\ sc_peer_exe (xc_tag c) = "/usr/bin/weston"%string.
Proof.
  intros Hc. unfold qdwin_secctx_global_filter. rewrite Hc.
  destruct (Z.eqb_spec (qdwin_classify_global g global) QDWIN_GLOBAL_ORDINARY); [by left|].
  destruct (Z.eqb_spec (qdwin_classify_global g global) QDWIN_GLOBAL_NESTED_MANAGER) as [E|E]; cbn [andb].
  - destruct (qdwin_nested_secctx_publisher_allowed _ _) eqn:Ep.
    + intros _. right. split; [done|]. unfold qdwin_nested_secctx_publisher_allowed in Ep.
      apply andb_true_iff in Ep as [E1 E2]. cbn in E1, E2.
      split; by apply String.eqb_eq.
    + intros H%visible_secctx_only_ordinary. congruence.
  - intros H%visible_secctx_only_ordinary. congruence.
Qed.

(** C16.  A sandboxed client is confined, for its whole life.  A client that
    came in through a committed listener sees, whatever happens to the listener
    and to its creator afterwards, no global the plugin gates (input method,
    virtual keyboard, screen capture, touch calibration, security contexts,
    idle notification, shell, layer shell, locker, nested windows), whatever
    the outcome of the identity check; the one exception is the nested-window
    manager, for a client that runs [/usr/bin/weston] behind a listener
    committed for the engine [qdistro.tier2]. *)
Theorem sandboxed_client_confined (before mid after : list sx_op) (i : Z) (x y : secctx)
    (dup : bool) (p : procfs) (client pid uid : Z)
    (Hx : find_secctx i (sx_run before sx_init) = Some x) (Hc : sx_committed x = true)
    (Hy : find_secctx i (sx_run (before ++ mid) sx_init) = Some y) (Hl : sx_listening y = true)
    (Hafter : forallb (spares client) after = true)
    (g : gated_globals) (authorized : bool) (global : Z) :
  let s := sx_run after (accept_state before mid i true dup p client pid uid) in
  qdwin_secctx_global_filter g authorized client global s = true ->
  qdwin_classify_global g global = QDWIN_GLOBAL_ORDINARY
  \/ qdwin_classify_global g global = QDWIN_GLOBAL_NESTED_MANAGER
     /\ sx_engine x = Some "qdistro.tier2"%string /\ qdwin_proc_exe pid p = "/usr/bin/weston"%string.
Proof.
  cbv zeta. edestruct (accept_tag before mid after i x y true dup p client pid uid) as (c & Hf & Ht);
    [done..|]. intros [H|(H & He & Hp)]%(filter_tagged _ _ _ _ _ c Hf); [by left|right].
  rewrite Ht in He, Hp. split_and!; [done| |done]. cbn in He.
  unfold dup_or_empty in He. destruct dup; [|done]. destruct (sx_engine x) as [e|]; [|done].
  cbn in He. by subst e.
Qed.

Definition ex_globals : gated_globals :=
  mk_gated_globals (Some 1) (Some 2) (Some 3) (Some 4) (Some 5) (Some 6) (Some 7) (Some 8) (Some 9)
    (Some 10).

Lemma sandboxed_client_confined_witness :
  let s := sx_run ex_after (accept_state ex_before ex_mid 0 true true ex_peer 99 42 1000) in
  qdwin_secctx_global_filter ex_globals true 99 44 s = true
  /\ (qdwin_classify_global ex_globals 44 = QDWIN_GLOBAL_ORDINARY
      \/ qdwin_classify_global ex_globals 44 = QDWIN_GLOBAL_NESTED_MANAGER
         /\ sx_engine ex_x = Some "qdistro.tier2"%string
         /\ qdwin_proc_exe 42 ex_peer = "/usr/bin/weston"%string).
Proof.
  cbv zeta. split; [vm_compute; reflexivity|].
  refine (sandboxed_client_confined ex_before ex_mid ex_after 0 ex_x ex_y true ex_peer 99 42 1000
            _ _ _ _ _ ex_globals true 44 _); reflexivity.
Defined.

(** ** The gate on the manager *)

Definition allowed_helper (e : secctx_env) (exe : string) : Prop :=
  exe ≠ ""%string
  /\ (env_helper e = Some exe
      \/ (env_helper e = None \/ env_helper e = Some ""%string)
         /\ (exe = "/usr/bin/qdistro-secctx-exec"%string
             \/ exe = "/usr/local/bin/qdistro-secctx-exec"%string)).

Lemma exe_allowed_spec e exe : qdwin_secctx_exe_allowed e exe = true -> allowed_helper e exe.
Proof.
  unfold qdwin_secctx_exe_allowed, allowed_helper.
  destruct (String.eqb_spec exe ""); [done|]. intros H. split; [done|].
  destruct (env_helper e) as [p|]; [destruct (String.eqb_spec p "") as [Ep|Ep]|].
  - right. split; [right; congruence|]. apply orb_true_iff in H. by rewrite !String.eqb_eq in H.
  - left. apply String.eqb_eq in H. by subst.
  - right. split; [by left|]. apply orb_true_iff in H. by rewrite !String.eqb_eq in H.
Qed.

Lemma exe_trusted_spec h pid :
  qdwin_proc_exe_is_root_trusted h pid = true ->
  0 < pid /\ exists st, hp_exe_stat h pid = Some st /\ st_uid st = 0
                       /\ has_bits (st_mode st) (Z.lor S_IWGRP S_IWOTH) = false.
Proof.
  unfold qdwin_proc_exe_is_root_trusted. destruct (Z.leb_spec pid 0); [done|].
  destruct (hp_exe_stat h pid) as [st|]; [|done].
  intros [E1%Z.eqb_eq E2%negb_true_iff]%andb_true_iff. split; [done|]. by exists st.
Qed.

Lemma launcher_parent_spec before after h pid :
  qdwin_secctx_helper_has_root_launcher_parent before after h pid = true ->
  exists uid parent ppid,
    qdwin_proc_status_uid_ppid pid (hp_status h pid) = Some (uid, parent) /\ 1 < parent
    /\ qdwin_proc_status_uid_ppid parent (hp_status h parent) = Some (0, ppid)
    /\ qdwin_proc_starttime parent before ≠ 0
    /\ qdwin_proc_starttime parent after = qdwin_proc_starttime parent before.
Proof.
  unfold qdwin_secctx_helper_has_root_launcher_parent.
  destruct (qdwin_proc_status_uid_ppid pid _) as [[u parent]|]; [|done].
  destruct (Z.leb_spec parent 1); [done|].
  destruct (qdwin_proc_status_uid_ppid parent _) as [[pu ppid]|] eqn:E; [|done].
  destruct (Z.eqb_spec pu 0) as [->|]; [|done]. cbn [negb].
  unfold qdwin_secctx_root_launcher_attested. case_match eqn:Es; [done|]. intros _.
  apply negb_false_iff in Es. repeat (apply andb_true_iff in Es as [Es ?]).
  exists u, parent, ppid. split_and!; [done|done|done| |]; zcrush; congruence.
Qed.

(** What the helper that connects with [pid] and [uid] must look like. *)
Record helper_attested (e : secctx_env) (before after : procfs) (h : helper_proc) (q : qdwin)
    (pid uid : Z) : Prop := {
  ha_uid : uid = allowed_uid q \/ uid = 0;
  ha_exe : allowed_helper e (qdwin_proc_exe pid before);
  ha_root_exe : exists st, hp_exe_stat h pid = Some st /\ st_uid st = 0
                  /\ has_bits (st_mode st) (Z.lor S_IWGRP S_IWOTH) = false;
  ha_launcher : uid = allowed_uid q ->
    exists u parent ppid,
      qdwin_proc_status_uid_ppid pid (hp_status h pid) = Some (u, parent) /\ 1 < parent
      /\ qdwin_proc_status_uid_ppid parent (hp_status h parent) = Some (0, ppid)
      /\ qdwin_proc_starttime parent before ≠ 0
      /\ qdwin_proc_starttime parent after = qdwin_proc_starttime parent before;
  ha_environ : uid ≠ 0 ->
    exists reads, hp_environ h pid = Some (reads, true) /\ (length (concat reads) <= ENVIRON_MAX)%nat
      /\ forall v, v ∈ entries (concat reads) -> is_prefix UNTRUSTED_NEEDLE v = false;
  ha_same_process : qdwin_proc_starttime pid before ≠ 0
    /\ qdwin_proc_starttime pid after = qdwin_proc_starttime pid before
}.

Lemma needle_ok : no_nul UNTRUSTED_NEEDLE /\ ends_with_eq UNTRUSTED_NEEDLE = true
  /\ (2 <= length UNTRUSTED_NEEDLE < 256)%nat.
Proof.
  split_and!; [|reflexivity|vm_compute; lia..].
  apply (bool_decide_unpack _). vm_compute. exact I.
Qed.

(** Only the shell and the attested launcher helper may create security
    contexts.  A client gets the manager only as the bound shell, with the
    development switch QDWIN_SECCTX_OPEN=1, or as a helper that runs with the
    session's uid or root's, whose executable is the configured (or one of the
    two installed) helper paths, owned by root and writable by nobody else,
    which, run with the session's uid, has a direct parent that is root's, and
    whose whole environment, run without root's uid, was read and does not
    carry the development override; the process and its parent are the same
    before and after the checks.  Every other client is refused with an error
    and changes no context. *)
Theorem secctx_manager_gate (alloc : bool) (e : secctx_env) (before after : procfs) (h : helper_proc)
    (q : qdwin) (client pid uid id : Z) (s : secctx_state)
    (Hreads : forall reads ok, hp_environ h pid = Some (reads, ok) -> Forall (fun c => c ≠ []) reads) :
  let r := bind_qdwin_secctx_manager alloc e before after h q client pid uid id s in
  (fst r ≠ None ->
     qdwin_client_is_bound_shell client q = true \/ env_open e = Some "1"%string
     \/ helper_attested e before after h q pid uid)
  /\ (fst r = None ->
      snd r = sx_emit (sx_not_authorized client) s \/ alloc = false /\ snd r = sx_emit (sx_no_memory client) s).
Proof.
  cbv zeta. unfold bind_qdwin_secctx_manager.
  destruct (qdwin_secctx_client_is_authorized _ _ _ _ _ _ _ _) eqn:Ea; cbn [negb];
    [|split; [done|by left]].
  destruct alloc; cbn; (split; [intros Hok|intros Hno]); try done; [|by right].
  revert Ea. unfold qdwin_secctx_client_is_authorized.
  destruct (qdwin_client_is_bound_shell client q); [by left|].
  unfold qdwin_secctx_open_dev_mode. case_bool_decide; [by right; left|].
  destruct (negb (uid =? allowed_uid q) && negb (uid =? 0)) eqn:Eu; [done|].
  intros H1. right; right. repeat (apply andb_true_iff in H1 as [H1 ?]).
  match goal with H : qdwin_proc_exe_is_root_trusted _ _ = true |- _ =>
    apply exe_trusted_spec in H as [Hpid Hst] end.
  destruct needle_ok as (N1 & N2 & N3). split.
  - destruct (Z.eqb_spec uid (allowed_uid q)); [by left|]. destruct (Z.eqb_spec uid 0); [by right|done].
  - by apply exe_allowed_spec.
  - done.
  - intros ->. rewrite Z.eqb_refl in *. by apply (launcher_parent_spec before after h pid).
  - intros Hz. apply (environ_clean pid); try done.
    apply Z.eqb_neq in Hz. rewrite Hz in *. cbn [orb] in *. by apply Z.eqb_eq.
  - zcrush; congruence.
Qed.

(** The helper 42 of the session's user, started by root's process 41. *)
Definition ex_helper_env : secctx_env := mk_secctx_env None None.
Definition ex_helper_fs : procfs :=
  mk_procfs (proc_stat_file ex_peer)
    (fun pid => if pid =? 42 then Some "/usr/bin/qdistro-secctx-exec"%string else None)
    (fun _ => None) (fun _ => None) (fun _ => false) (fun _ => None) (fun _ => None).
Definition ex_helper : helper_proc :=
  mk_helper_proc (fun _ => Some ([list_ascii_of_string "HOME=/root" ++ [NUL]], true))
    (fun pid => Some (if (pid =? 42)%Z then "Uid:	1000 1000
PPid:	41
" else "Uid:	0 0
PPid:	1
")%string)
    (fun _ => Some (mk_file_stat true 0 493)).

Lemma secctx_manager_gate_witness :
  let r := bind_qdwin_secctx_manager true ex_helper_env ex_helper_fs ex_helper_fs ex_helper
             (wet_shell_init [] [] 1000) 9 42 1000 77 sx_init in
  fst r = Some 77
  /\ (qdwin_client_is_bound_shell 9 (wet_shell_init [] [] 1000) = true
      \/ env_open ex_helper_env = Some "1"%string
      \/ helper_attested ex_helper_env ex_helper_fs ex_helper_fs ex_helper (wet_shell_init [] [] 1000) 42 1000).
Proof.
  cbv zeta. split; [vm_compute; reflexivity|].
  refine (proj1 (secctx_manager_gate true ex_helper_env ex_helper_fs ex_helper_fs ex_helper
                   (wet_shell_init [] [] 1000) 9 42 1000 77 sx_init _) _).
  - intros reads ok [= <- _]. by repeat constructor.
  - vm_compute. discriminate.
Defined.
