(* ===== verification/Idle.v ===== *)
(** * Idle: idle inhibition and idle notification

    zwp-idle-inhibit and ext-idle-notify of [qdwin.c] with the idle state of
    libweston they drive: inhibitors and their backstop timer, notifications
    and their timers, the compositor's idle timer and its wake and idle
    signals.  A timer is its deadline on the compositor's clock. *)

From stdpp Require Import base list strings option.
From S2P Require Import Prelude Logic.
Import Policy.
From stdpp Require Import list.

#[local] Open Scope Z_scope.

(** ** State *)

Inductive compositor_state :=
  | COMPOSITOR_ACTIVE | COMPOSITOR_IDLE | COMPOSITOR_OFFSCREEN | COMPOSITOR_SLEEPING.
#[global] Instance compositor_state_eq_dec : EqDecision compositor_state.
Proof. solve_decision. Defined.

(** [struct qdwin_idle_notification]; [in_timer] tells that the event source
    exists. *)
Record idle_notification := mk_idle_notification {
  in_resource : Z; in_timeout : Z; in_last : Z; in_idle : bool; in_ignore : bool;
  in_timer : bool; in_deadline : option Z
}.
#[global] Instance eta_idle_notification : Eta idle_notification := fun r =>
  mk_idle_notification (in_resource r) (in_timeout r) (in_last r) (in_idle r) (in_ignore r)
    (in_timer r) (in_deadline r).

(** [struct qdwin_idle_inhibitor]. *)
Record idle_inhibitor := mk_idle_inhibitor {
  ih_resource : Z; ih_surface : option Z; ih_active : bool
}.
#[global] Instance eta_idle_inhibitor : Eta idle_inhibitor := fun r =>
  mk_idle_inhibitor (ih_resource r) (ih_surface r) (ih_active r).

(** What the plugin reads of a surface: effectively mapped, buffer attached, a
    view alive. *)
Record surface_status := mk_surface_status { sf_mapped : bool; sf_buffer : bool; sf_view : bool }.

Inductive idle_event :=
  | ev_idled (r : Z) | ev_resumed (r : Z) | ev_no_memory | ev_dpms_on | ev_overflow.
#[global] Instance idle_event_eq_dec : EqDecision idle_event.
Proof. solve_decision. Defined.

Record idle_state := mk_idle_state {
  clock : Z;
  cstate : compositor_state; idle_inhibit : Z; idle_time : Z; idle_source : option Z;
  idle_notifications : list idle_notification;
  idle_inhibitors : list idle_inhibitor;
  status_of : Z -> surface_status;
  recheck_timer : bool; recheck_deadline : option Z; inhibit_disabled : bool;
  idle_internal_mode : bool;
  idle_events : list idle_event
}.
#[global] Instance eta_idle_state : Eta idle_state := fun r =>
  mk_idle_state (clock r) (cstate r) (idle_inhibit r) (idle_time r) (idle_source r)
    (idle_notifications r) (idle_inhibitors r) (status_of r) (recheck_timer r) (recheck_deadline r)
    (inhibit_disabled r) (idle_internal_mode r) (idle_events r).

Definition idle_emit (e : idle_event) (s : idle_state) : idle_state := s <| idle_events ::= cons e |>.

(** ** Timers *)

Definition u64 (x : Z) : Z := x mod 18446744073709551616.
(** Conversion to [int]. *)
Definition to_int (x : Z) : Z := let m := u32 x in if INT32_MAX <? m then m - 4294967296 else m.

(** [wl_event_source_timer_update]: the new deadline; a delay that is not
    positive disarms. *)
Definition timer_update (now ms : Z) : option Z := if 0 <? ms then Some (now + ms) else None.

Definition QDWIN_IDLE_INTERNAL_INHIBIT_POLL_MS : Z := 1000.
Definition QDWIN_IDLE_INHIBIT_RECHECK_MS : Z := 1000.

Definition qdwin_idle_internal_next_delay (now : Z) (n : idle_notification) : Z :=
  let elapsed := u64 (now - in_last n) in
  if in_timeout n <=? elapsed then 0
  else
    let remaining := in_timeout n - elapsed in
    to_int (if remaining =? 0 then 1 else remaining).

(** [n->timer && n->timeout_ms > 0]: re-arm for the rest of the timeout. *)
Definition rearm (now : Z) (n : idle_notification) : idle_notification :=
  if in_timer n && (0 <? in_timeout n)
  then n <| in_deadline := timer_update now (qdwin_idle_internal_next_delay now n) |>
  else n.

(** ** Notifications *)

(** A loop over the notifications whose body changes the notification and sends
    events. *)
Definition walk_notifications (f : idle_notification -> idle_notification * list idle_event)
    (s : idle_state) : idle_state :=
  s <| idle_notifications ::= map (fun n => fst (f n)) |>
    <| idle_events ::= app (rev (flat_map (fun n => snd (f n)) (idle_notifications s))) |>.

Definition note_activity (now : Z) (st : compositor_state) (n : idle_notification)
    : idle_notification * list idle_event :=
  if in_idle n && negb (bool_decide (st = COMPOSITOR_ACTIVE)) then (n, [])
  else (rearm now (n <| in_idle := false |> <| in_last := now |>),
        if in_idle n then [ev_resumed (in_resource n)] else []).

Definition qdwin_idle_note_activity (s : idle_state) : idle_state :=
  if negb (idle_internal_mode s) then s
  else walk_notifications (note_activity (clock s) (cstate s)) s.

Definition on_wake (internal : bool) (now : Z) (n : idle_notification)
    : idle_notification * list idle_event :=
  let n' := n <| in_last := now |> in
  let n' := if in_timer n'
            then if internal && (0 <? in_timeout n')
                 then n' <| in_deadline := timer_update now (qdwin_idle_internal_next_delay now n') |>
                 else n' <| in_deadline := None |>
            else n' in
  (n' <| in_idle := false |>, if in_idle n then [ev_resumed (in_resource n)] else []).

Definition qdwin_on_wake_signal (s : idle_state) : idle_state :=
  walk_notifications (on_wake (idle_internal_mode s) (clock s)) s.

Definition on_idle (now weston_idle_ms inhibit : Z) (n : idle_notification)
    : idle_notification * list idle_event :=
  if in_idle n then (n, [])
  else if negb (in_ignore n) && (0 <? inhibit) then (n, [])
  else if in_timeout n <=? weston_idle_ms
  then (n <| in_idle := true |>, [ev_idled (in_resource n)])
  else if in_timer n
  then (n <| in_deadline := timer_update now (to_int (u32 (in_timeout n - weston_idle_ms))) |>, [])
  else (n, []).

Definition qdwin_on_idle_signal (s : idle_state) : idle_state :=
  if idle_internal_mode s then s
  else walk_notifications (on_idle (clock s) (u32 (idle_time s * 1000)) (idle_inhibit s)) s.

(** [alloc] tells whether the notification and its resource can be allocated,
    [timer] whether the event loop makes a timer. *)
Definition qdwin_idle_notification_create (alloc timer : bool) (id timeout : Z) (ignore : bool)
    (s : idle_state) : idle_state :=
  if negb alloc then idle_emit ev_no_memory s
  else
    let n := mk_idle_notification id timeout (clock s) false ignore timer None in
    let n := if idle_internal_mode s then rearm (clock s) n else n in
    s <| idle_notifications ::= cons n |>.

Definition qdwin_idle_notifier_get_idle_notification (alloc timer : bool) (id timeout : Z)
    : idle_state -> idle_state := qdwin_idle_notification_create alloc timer id timeout false.
Definition qdwin_idle_notifier_get_input_idle_notification (alloc timer : bool) (id timeout : Z)
    : idle_state -> idle_state := qdwin_idle_notification_create alloc timer id timeout true.

Definition qdwin_idle_notification_resource_destroy (r : Z) (s : idle_state) : idle_state :=
  s <| idle_notifications ::= List.filter (fun n => negb (in_resource n =? r)) |>.

Definition find_notification (r : Z) (s : idle_state) : option idle_notification :=
  List.find (fun n => in_resource n =? r) (idle_notifications s).
Definition upd_notification (r : Z) (f : idle_notification -> idle_notification) (s : idle_state)
    : idle_state :=
  s <| idle_notifications ::= map (fun n => if in_resource n =? r then f n else n) |>.

(** The timer of a notification expires. *)
Definition qdwin_idle_notification_timer_fire (n : idle_notification) (s : idle_state) : idle_state :=
  let internal := idle_internal_mode s && (0 <? in_timeout n) in
  let arm ms s := if in_timer n
                  then upd_notification (in_resource n)
                         (fun n => n <| in_deadline := timer_update (clock s) ms |>) s
                  else s in
  if in_idle n then s
  else if internal && (u64 (clock s - in_last n) <? in_timeout n)
  then arm (qdwin_idle_internal_next_delay (clock s) n) s
  else if negb (in_ignore n) && (0 <? idle_inhibit s)
  then if internal then arm QDWIN_IDLE_INTERNAL_INHIBIT_POLL_MS s else s
  else
    s ~> upd_notification (in_resource n) (fun n => n <| in_idle := true |>)
      ~> (fun s => if idle_internal_mode s && negb (in_ignore n)
                      && bool_decide (cstate s = COMPOSITOR_ACTIVE)
                   then qdwin_on_idle_signal (s <| cstate := COMPOSITOR_IDLE |>) else s)
      ~> idle_emit (ev_idled (in_resource n)).

(** ** libweston's idle state *)

(** The idle timer set to [idle_time * 1000], a product of [int]s: where it
    overflows the behaviour is undefined, which is recorded, and the timer
    counts as not armed. *)
Definition arm_idle_source (s : idle_state) : idle_state :=
  match chk32 (idle_time s * 1000) with
  | Some ms => s <| idle_source := timer_update (clock s) ms |>
  | None => idle_emit ev_overflow (s <| idle_source := None |>)
  end.

Definition weston_compositor_wake (s : idle_state) : idle_state :=
  let old := cstate s in
  s <| cstate := COMPOSITOR_ACTIVE |>
    ~> (fun s => match old with
                 | COMPOSITOR_ACTIVE => s
                 | _ => qdwin_on_wake_signal (idle_emit ev_dpms_on s)
                 end)
    ~> arm_idle_source.

Definition weston_compositor_idle_inhibit (s : idle_state) : idle_state :=
  (weston_compositor_wake s) <| idle_inhibit ::= fun x => u32 (x + 1) |>.
Definition weston_compositor_idle_release (s : idle_state) : idle_state :=
  weston_compositor_wake (s <| idle_inhibit ::= fun x => u32 (x - 1) |>).

Definition weston_compositor_offscreen (s : idle_state) : idle_state :=
  if bool_decide (cstate s = COMPOSITOR_OFFSCREEN) then s
  else s <| cstate := COMPOSITOR_OFFSCREEN |> <| idle_source := None |>.
Definition weston_compositor_sleep (s : idle_state) : idle_state :=
  if bool_decide (cstate s = COMPOSITOR_SLEEPING) then s
  else s <| idle_source := None |> <| cstate := COMPOSITOR_SLEEPING |>.

Definition idle_handler (s : idle_state) : idle_state :=
  if negb (idle_inhibit s =? 0) then s
  else qdwin_on_idle_signal (s <| cstate := COMPOSITOR_IDLE |>).

(** ** Inhibitors *)

Definition upd_inhibitor (r : Z) (f : idle_inhibitor -> idle_inhibitor) (s : idle_state) : idle_state :=
  s <| idle_inhibitors ::= map (fun i => if ih_resource i =? r then f i else i) |>.
Definition find_inhibitor (r : Z) (s : idle_state) : option idle_inhibitor :=
  List.find (fun i => ih_resource i =? r) (idle_inhibitors s).

Definition qdwin_idle_inhibitor_activate (i : idle_inhibitor) (s : idle_state) : idle_state :=
  if ih_active i then s
  else s ~> upd_inhibitor (ih_resource i) (fun i => i <| ih_active := true |>)
         ~> (fun s => s <| idle_inhibit ::= fun x => u32 (x + 1) |>).

Definition qdwin_idle_inhibitor_deactivate (i : idle_inhibitor) (s : idle_state) : idle_state :=
  if negb (ih_active i) then s
  else
    s ~> upd_inhibitor (ih_resource i) (fun i => i <| ih_active := false |>)
      ~> (fun s => if 0 <? idle_inhibit s then s <| idle_inhibit ::= fun x => x - 1 |> else s)
      ~> (fun s => if (idle_inhibit s =? 0) && (0 <? idle_time s)
                      && bool_decide (cstate s = COMPOSITOR_ACTIVE)
                   then arm_idle_source s else s).

Definition surface_holds (sf : option Z) (s : idle_state) : bool :=
  match sf with
  | None => qdwin_idle_inhibit_should_hold false false false false
  | Some x => qdwin_idle_inhibit_should_hold true (sf_mapped (status_of s x)) (sf_buffer (status_of s x))
                (sf_view (status_of s x))
  end.

Definition qdwin_idle_inhibitor_sync (r : Z) (s : idle_state) : idle_state :=
  match find_inhibitor r s with
  | None => s
  | Some i =>
      if inhibit_disabled s then qdwin_idle_inhibitor_deactivate i s
      else
        let hold := surface_holds (ih_surface i) s in
        if Bool.eqb hold (ih_active i) then s
        else if hold then qdwin_idle_inhibitor_activate i s
        else qdwin_idle_inhibitor_deactivate i s
  end.

(** A surface emits its map or unmap signal: the inhibitors that listen. *)
Definition listeners (x : Z) (s : idle_state) : list Z :=
  map ih_resource (List.filter (fun i => bool_decide (ih_surface i = Some x)) (idle_inhibitors s)).
Definition sync_all (l : list Z) (s : idle_state) : idle_state :=
  foldl (fun s r => qdwin_idle_inhibitor_sync r s) s l.

Definition qdwin_idle_inhibitor_surface_mapped (x : Z) (s : idle_state) : idle_state :=
  sync_all (listeners x s) s.
Definition qdwin_idle_inhibitor_surface_unmapped (x : Z) (s : idle_state) : idle_state :=
  sync_all (listeners x s) s.
Definition qdwin_idle_inhibitor_surface_destroyed (x : Z) (s : idle_state) : idle_state :=
  foldl (fun s r => qdwin_idle_inhibitor_sync r (upd_inhibitor r (fun i => i <| ih_surface := None |>) s))
    s (listeners x s).

Definition qdwin_idle_inhibitor_resource_destroy (r : Z) (s : idle_state) : idle_state :=
  match find_inhibitor r s with
  | None => s
  | Some i =>
      s ~> qdwin_idle_inhibitor_deactivate i
        ~> (fun s => s <| idle_inhibitors ::= List.filter (fun i => negb (ih_resource i =? r)) |>)
  end.

Definition qdwin_idle_inhibitors_release_all (s : idle_state) : idle_state :=
  foldl (fun s r => match find_inhibitor r s with
                    | Some i => qdwin_idle_inhibitor_deactivate i s
                    | None => s
                    end) s (map ih_resource (idle_inhibitors s)).

(** [armed] tells whether the timer could be set. *)
Definition qdwin_idle_inhibit_recheck_schedule (armed : bool) (s : idle_state) : bool * idle_state :=
  if negb (recheck_timer s) then (false, s)
  else if armed
  then (true, s <| recheck_deadline := timer_update (clock s) QDWIN_IDLE_INHIBIT_RECHECK_MS |>)
  else (false, s).

Definition qdwin_idle_inhibit_recheck (armed : bool) (s : idle_state) : idle_state :=
  let s := sync_all (map ih_resource (idle_inhibitors s)) s in
  match idle_inhibitors s with
  | [] => s
  | _ =>
      let (ok, s) := qdwin_idle_inhibit_recheck_schedule armed s in
      if ok then s else qdwin_idle_inhibitors_release_all (s <| inhibit_disabled := true |>)
  end.

(** [add] tells whether the event loop makes the timer. *)
Definition qdwin_idle_inhibit_recheck_ensure (add : bool) (s : idle_state) : bool * idle_state :=
  if inhibit_disabled s then (false, s)
  else if recheck_timer s then (true, s)
  else if add then (true, s <| recheck_timer := true |>)
  else (false, s).

Definition qdwin_idle_inhibit_create_inhibitor (add alloc armed : bool) (id : Z) (surface : option Z)
    (s : idle_state) : idle_state :=
  let (ok, s) := qdwin_idle_inhibit_recheck_ensure add s in
  if negb ok then idle_emit ev_no_memory s
  else if negb alloc then idle_emit ev_no_memory s
  else
    let was_empty := match idle_inhibitors s with [] => true | _ => false end in
    let s := s <| idle_inhibitors ::= cons (mk_idle_inhibitor id surface false) |>
               ~> qdwin_idle_inhibitor_sync id in
    if negb was_empty then s
    else
      let (scheduled, s) := qdwin_idle_inhibit_recheck_schedule armed s in
      if scheduled then s
      else s ~> qdwin_idle_inhibitor_resource_destroy id ~> idle_emit ev_no_memory.

Definition qdwin_idle_inhibitors_destroy_all (s : idle_state) : idle_state :=
  foldl (fun s r => qdwin_idle_inhibitor_resource_destroy r s) s (map ih_resource (idle_inhibitors s))
    ~> (fun s => if recheck_timer s then s <| recheck_timer := false |> <| recheck_deadline := None |> else s).

(** The plugin's start: [idle_time] is the configured timeout in seconds. *)
Definition idle_init (now idle_secs : Z) : idle_state :=
  weston_compositor_wake
    (mk_idle_state now COMPOSITOR_ACTIVE 0 idle_secs None [] [] (fun _ => mk_surface_status false false false)
       false None false (idle_secs =? 0) []).
