(* ===== verification/IdleFacts.v ===== *)
(** * IdleFacts: what idle inhibition and notification guarantee

    Timed runs of the idle component: requests, input and timer expiries in any
    order, with the clock advancing as far as the event loop, at most [L]
    milliseconds late for any timer, lets it.  The theorems show that the
    compositor's inhibition count is exact, that a notification alternates
    between idled and resumed, fires neither early nor (much) late, that a hold
    which is no longer justified is dropped within a second, and that the
    session idles. *)

From stdpp Require Import base list strings option.
From S2P Require Import Prelude Logic Idle.
Import Policy.
From stdpp Require Import list.

#[local] Open Scope Z_scope.

(** ** Timed runs *)

(** [noted] tells whether the grab that gets the event notes the activity, as
    the default grabs do. *)
Inductive idle_op :=
  | i_notify (alloc timer : bool) (id timeout : Z) (ignore : bool)
  | i_unnotify (r : Z)
  | i_motion (noted : bool)
  | i_press (noted : bool)
  | i_release (noted : bool)
  | i_sleep
  | i_offscreen
  | i_inhibit (add alloc armed : bool) (id : Z) (surface : option Z)
  | i_uninhibit (r : Z)
  | i_surface (x : Z) (st : surface_status)
  | i_mapped (x : Z) (st : surface_status)
  | i_unmapped (x : Z) (st : surface_status)
  | i_gone (x : Z).

Definition set_status (x : Z) (st : surface_status) (s : idle_state) : idle_state :=
  s <| status_of ::= fun f y => if y =? x then st else f y |>.
Definition noting (noted : bool) (s : idle_state) : idle_state :=
  if noted then qdwin_idle_note_activity s else s.

Definition idle_exec (o : idle_op) (s : idle_state) : idle_state :=
  match o with
  | i_notify alloc timer id timeout ignore => qdwin_idle_notification_create alloc timer id timeout ignore s
  | i_unnotify r => qdwin_idle_notification_resource_destroy r s
  | i_motion noted => noting noted (weston_compositor_wake s)
  | i_press noted => noting noted (weston_compositor_idle_inhibit s)
  | i_release noted => noting noted (weston_compositor_idle_release s)
  | i_sleep => weston_compositor_sleep s
  | i_offscreen => weston_compositor_offscreen s
  | i_inhibit add alloc armed id surface => qdwin_idle_inhibit_create_inhibitor add alloc armed id surface s
  | i_uninhibit r => qdwin_idle_inhibitor_resource_destroy r s
  | i_surface x st => set_status x st s
  | i_mapped x st => qdwin_idle_inhibitor_surface_mapped x (set_status x st s)
  | i_unmapped x st => qdwin_idle_inhibitor_surface_unmapped x (set_status x st s)
  | i_gone x => qdwin_idle_inhibitor_surface_destroyed x s
  end.

Inductive idle_label :=
  | l_do (o : idle_op)
  | l_tick (d : Z)
  | l_fire_idle
  | l_fire_notification (r : Z)
  | l_fire_recheck (armed : bool).

(** [held] counts the keys and buttons that are down. *)
Record timed := mk_timed { ts : idle_state; held : Z }.

Definition about (r : Z) (e : idle_event) : bool :=
  match e with ev_idled x => x =? r | ev_resumed x => x =? r | _ => false end.

Definition deadlines (s : idle_state) : list Z :=
  omap id (idle_source s :: recheck_deadline s :: map in_deadline (idle_notifications s)).
Definition due (d : option Z) (s : idle_state) : bool :=
  match d with Some d => d <=? clock s | None => false end.

(** Objects are new, a release follows its press, the counter does not wrap,
    and time does not pass a deadline by more than [L]. *)
Definition allowed (L : Z) (l : idle_label) (t : timed) : bool :=
  let s := ts t in
  (held t + Z.of_nat (length (idle_inhibitors s)) <? UINT32_MAX)
  && match l with
     | l_do (i_notify _ _ id timeout _) =>
         forallb (fun n => negb (in_resource n =? id)) (idle_notifications s)
         && forallb (fun e => negb (about id e)) (idle_events s)
         && (0 <=? timeout) && (timeout <=? UINT32_MAX)
     | l_do (i_release _) => 0 <? held t
     | l_do (i_inhibit _ _ _ id _) => forallb (fun i => negb (ih_resource i =? id)) (idle_inhibitors s)
     | l_do _ => true
     | l_tick d => (0 <=? d) && (clock s + d <? 18446744073709551616)
                   && forallb (fun dl => clock s + d <=? dl + L) (deadlines s)
     | l_fire_idle => due (idle_source s) s
     | l_fire_notification r =>
         match find_notification r s with Some n => due (in_deadline n) s | None => false end
     | l_fire_recheck _ => recheck_timer s && due (recheck_deadline s) s
     end.

(** A timer is disarmed when it expires, before its callback runs. *)
Definition idle_step (l : idle_label) (t : timed) : timed :=
  let s := ts t in
  match l with
  | l_do o =>
      mk_timed (idle_exec o s)
        (match o with i_press _ => held t + 1 | i_release _ => held t - 1 | _ => held t end)
  | l_tick d => mk_timed (s <| clock ::= Z.add d |>) (held t)
  | l_fire_idle => mk_timed (idle_handler (s <| idle_source := None |>)) (held t)
  | l_fire_notification r =>
      mk_timed (match find_notification r s with
                | Some n => qdwin_idle_notification_timer_fire (n <| in_deadline := None |>)
                              (upd_notification r (fun n => n <| in_deadline := None |>) s)
                | None => s
                end) (held t)
  | l_fire_recheck armed => mk_timed (qdwin_idle_inhibit_recheck armed (s <| recheck_deadline := None |>)) (held t)
  end.

Inductive idle_run (L : Z) : list idle_label -> timed -> timed -> Prop :=
  | run_nil t : idle_run L [] t t
  | run_cons l ls t t' : allowed L l t = true -> idle_run L ls (idle_step l t) t' -> idle_run L (l :: ls) t t'.

(** The same, as a function. *)
Fixpoint idle_exec_run (L : Z) (ls : list idle_label) (t : timed) : option timed :=
  match ls with
  | [] => Some t
  | l :: ls => if allowed L l t then idle_exec_run L ls (idle_step l t) else None
  end.

Lemma exec_run L ls t t' : idle_exec_run L ls t = Some t' -> idle_run L ls t t'.
Proof.
  revert t. induction ls as [|l ls IH]; intros t; cbn; [intros [= <-]; constructor|].
  destruct (allowed L l t) eqn:E; [|done]. intros H. constructor; [done|by apply IH].
Qed.

Definition timed_init (now idle_secs : Z) : timed := mk_timed (idle_init now idle_secs) 0.

(** An invariant of the steps holds along runs. *)
Lemma run_invariant L (P : timed -> Prop) :
  (forall l t, P t -> allowed L l t = true -> P (idle_step l t)) ->
  forall ls t t', idle_run L ls t t' -> P t -> P t'.
Proof. intros Hs ls t t'. induction 1; auto. Qed.

(** ** Notifications *)

Definition history (r : Z) (s : idle_state) : list idle_event := List.filter (about r) (idle_events s).

(** A history, newest first, that alternates and ends idle or active. *)
Fixpoint alternates (h : list idle_event) (idle : bool) : Prop :=
  match h with
  | [] => idle = false
  | ev_idled _ :: h => idle = true /\ alternates h false
  | ev_resumed _ :: h => idle = false /\ alternates h true
  | _ :: _ => False
  end.

(** The timer of a notification that is to fire. *)
Definition armed_by (now : Z) (n : idle_notification) : Prop :=
  in_timer n = true -> 0 < in_timeout n <= INT32_MAX -> in_idle n = false ->
  exists d, in_deadline n = Some d
            /\ d <= Z.max (in_last n + in_timeout n) (now + QDWIN_IDLE_INTERNAL_INHIBIT_POLL_MS).

Record notif_ok (s : idle_state) (n : idle_notification) : Prop := {
  no_timeout : 0 <= in_timeout n <= UINT32_MAX;
  no_last : 0 <= in_last n <= clock s;
  no_armed : idle_internal_mode s = true -> armed_by (clock s) n;
  no_history : alternates (history (in_resource n) s) (in_idle n)
}.

Definition clock_ok (s : idle_state) : Prop := 0 <= clock s < 18446744073709551616.

Record notifs_ok (s : idle_state) : Prop := {
  ns_clock : clock_ok s;
  ns_nodup : NoDup (map in_resource (idle_notifications s));
  ns_each : Forall (notif_ok s) (idle_notifications s)
}.

(** Steps that leave the notifications alone. *)
Record nsame (s s' : idle_state) : Prop := {
  sm_clock : clock s' = clock s;
  sm_internal : idle_internal_mode s' = idle_internal_mode s;
  sm_time : idle_time s' = idle_time s;
  sm_state : cstate s' = cstate s;
  sm_notifications : idle_notifications s' = idle_notifications s;
  sm_history : forall r, history r s' = history r s
}.
#[global] Instance nsame_preorder : PreOrder nsame.
Proof. split; [by constructor|]. intros a b c [] []. constructor; intros; etransitivity; eauto. Qed.

Lemma notif_ok_frame s s' n :
  clock s' = clock s -> idle_internal_mode s' = idle_internal_mode s ->
  history (in_resource n) s' = history (in_resource n) s -> notif_ok s n -> notif_ok s' n.
Proof. intros E1 E2 E3 [? ? ? ?]. constructor; rewrite ?E1, ?E2, ?E3; auto. Qed.

Lemma notifs_ok_frame s s' :
  clock s' = clock s -> idle_internal_mode s' = idle_internal_mode s ->
  idle_notifications s' = idle_notifications s -> (forall r, history r s' = history r s) ->
  notifs_ok s -> notifs_ok s'.
Proof.
  intros E1 E2 E3 E4 [C N F]. constructor.
  - unfold clock_ok. by rewrite E1.
  - by rewrite E3.
  - rewrite E3. eapply Forall_impl; [exact F|]. intros n. by apply notif_ok_frame.
Qed.

Lemma nsame_ok s s' : nsame s s' -> notifs_ok s -> notifs_ok s'.
Proof. intros [E1 E2 _ _ E3 E4]. by apply notifs_ok_frame. Qed.

(** What a loop body may do to a notification. *)
Definition n_events (n n' : idle_notification) (evs : list idle_event) : Prop :=
  match evs with
  | [] => in_idle n' = in_idle n
  | [ev_idled r] => r = in_resource n /\ in_idle n = false /\ in_idle n' = true
  | [ev_resumed r] => r = in_resource n /\ in_idle n = true /\ in_idle n' = false
  | _ => False
  end.

Record n_trans (s : idle_state) (n n' : idle_notification) (evs : list idle_event) : Prop := {
  tr_resource : in_resource n' = in_resource n;
  tr_timeout : in_timeout n' = in_timeout n;
  tr_last : in_last n <= in_last n' <= clock s;
  tr_armed : idle_internal_mode s = true -> armed_by (clock s) n';
  tr_events : n_events n n' evs
}.

Lemma n_events_about n n' evs r :
  n_events n n' evs -> List.filter (about r) evs = if in_resource n =? r then evs else [].
Proof.
  destruct evs as [|[x|x| | |] [|]]; cbn; try done; try (by case_match);
    intros (-> & _); case_match; done.
Qed.

Lemma n_events_alternates n n' evs h :
  n_events n n' evs -> alternates h (in_idle n) -> alternates (rev evs ++ h) (in_idle n').
Proof.
  destruct evs as [|[x|x| | |] [|]]; cbn; try done.
  - by intros ->.
  - by intros (-> & E & ->); rewrite E.
  - by intros (-> & E & ->); rewrite E.
Qed.

Lemma filter_rev {A} (P : A -> bool) l : List.filter P (rev l) = rev (List.filter P l).
Proof.
  induction l as [|x l IH]; [done|]. cbn. rewrite List.filter_app, IH. cbn.
  destruct (P x); cbn; [done|by rewrite app_nil_r].
Qed.

Lemma walk_history f s n :
  NoDup (map in_resource (idle_notifications s)) -> n ∈ idle_notifications s ->
  (forall m, m ∈ idle_notifications s -> n_events m (fst (f m)) (snd (f m))) ->
  history (in_resource n) (walk_notifications f s)
  = rev (snd (f n)) ++ history (in_resource n) s.
Proof.
  intros N Hn He. unfold history, walk_notifications. cbn. rewrite List.filter_app. f_equal.
  rewrite filter_rev. f_equal. induction (idle_notifications s) as [|m l IH]; [by apply not_elem_of_nil in Hn|].
  cbn in N |- *. apply NoDup_cons in N as [Hm N]. rewrite List.filter_app.
  rewrite (n_events_about m _ _ (in_resource n)) by (apply He; by left).
  apply elem_of_cons in Hn as [->|Hn].
  - rewrite Z.eqb_refl. rewrite <- (app_nil_r (snd (f m))) at 2. f_equal.
    clear IH. assert (He' : forall x, x ∈ l -> n_events x (fst (f x)) (snd (f x)))
      by (intros x Hx; apply He; by right). clear He. induction l as [|k l IH]; [done|].
    cbn in Hm |- *. apply not_elem_of_cons in Hm as [Hk Hm].
    rewrite List.filter_app, (n_events_about k _ _ (in_resource m)) by (apply He'; by left).
    destruct (Z.eqb_spec (in_resource k) (in_resource m)); [congruence|]. cbn.
    cbn in N. apply NoDup_cons in N as [_ N]. apply IH; [done|done|]. intros x Hx. apply He'. by right.
  - destruct (Z.eqb_spec (in_resource m) (in_resource n)) as [E|_].
    + exfalso. apply Hm. rewrite E. by apply list_elem_of_In, in_map, list_elem_of_In.
    + cbn. apply IH; [done|done|]. intros x Hx. apply He. by right.
Qed.

Lemma walk_ok f s :
  notifs_ok s ->
  (forall n, n ∈ idle_notifications s -> notif_ok s n -> n_trans s n (fst (f n)) (snd (f n))) ->
  notifs_ok (walk_notifications f s).
Proof.
  intros [C N F] Hf'. rewrite Forall_forall in F.
  assert (Hf : forall n, n ∈ idle_notifications s -> n_trans s n (fst (f n)) (snd (f n)))
    by (intros n Hn; by apply Hf', F). clear Hf'. constructor; [done| |]; cbn.
  - rewrite map_map. erewrite map_ext_in; [exact N|]. intros n Hn.
    by apply (tr_resource _ _ _ _ (Hf n (proj2 (list_elem_of_In _ _) Hn))).
  - apply Forall_map, Forall_forall. intros n Hn. pose proof (F n Hn) as On.
    pose proof (Hf n Hn) as [T1 T2 T3 T4 T5]. destruct On as [O1 O2 O3 O4]. constructor.
    + by rewrite T2.
    + cbn. lia.
    + exact T4.
    + rewrite T1, walk_history; [by eapply n_events_alternates|done|done|].
      intros m Hm. apply (Hf m Hm).
Qed.

(** *** The loop bodies *)

Lemma to_int_small x : 0 <= x <= INT32_MAX -> to_int x = x.
Proof.
  intros H. unfold to_int. rewrite u32_small by (ranges; lia). ranges.
  destruct (Z.ltb_spec 2147483647 x); [lia|done].
Qed.

Lemma u64_small x : 0 <= x < 18446744073709551616 -> u64 x = x.
Proof. intros H. unfold u64. by rewrite Z.mod_small. Qed.

Lemma next_delay_fresh now n :
  0 < in_timeout n <= INT32_MAX -> in_last n = now -> qdwin_idle_internal_next_delay now n = in_timeout n.
Proof.
  intros Ht <-. unfold qdwin_idle_internal_next_delay. rewrite Z.sub_diag. change (u64 0) with 0. cbv zeta.
  destruct (Z.leb_spec (in_timeout n) 0); [lia|]. rewrite Z.sub_0_r.
  destruct (Z.eqb_spec (in_timeout n) 0); [lia|]. apply to_int_small. lia.
Qed.

Lemma rearm_fields now n :
  in_resource (rearm now n) = in_resource n /\ in_timeout (rearm now n) = in_timeout n
  /\ in_last (rearm now n) = in_last n /\ in_idle (rearm now n) = in_idle n
  /\ in_timer (rearm now n) = in_timer n /\ in_ignore (rearm now n) = in_ignore n.
Proof. unfold rearm. by case_match. Qed.

Lemma rearm_armed now n : in_last n = now -> armed_by now (rearm now n).
Proof.
  intros El. destruct (rearm_fields now n) as (E1 & E2 & E3 & E4 & E5 & _). intros Ht Hto Hi.
  rewrite E2, E3 in *. rewrite E5 in Ht. unfold rearm. rewrite Ht.
  destruct (Z.ltb_spec 0 (in_timeout n)); [|lia]. cbn. exists (now + in_timeout n).
  rewrite next_delay_fresh by done. unfold timer_update. split; [|lia].
  by destruct (Z.ltb_spec 0 (in_timeout n)); [|lia].
Qed.

Lemma note_activity_trans s n :
  notif_ok s n ->
  n_trans s n (fst (note_activity (clock s) (cstate s) n)) (snd (note_activity (clock s) (cstate s) n)).
Proof.
  intros [O1 O2 O3 O4]. unfold note_activity. case_match; [by constructor; cbn; auto; lia|].
  set (n' := n <| in_idle := false |> <| in_last := clock s |>).
  destruct (rearm_fields (clock s) n') as (E1 & E2 & E3 & E4 & E5 & _).
  constructor; cbn [fst snd]; rewrite ?E1, ?E2, ?E3; try done; [cbn; lia|intros _; by apply rearm_armed|].
  unfold n_events. rewrite E4. cbn. destruct (in_idle n); done.
Qed.

Lemma on_wake_trans s n :
  notif_ok s n ->
  n_trans s n (fst (on_wake (idle_internal_mode s) (clock s) n)) (snd (on_wake (idle_internal_mode s) (clock s) n)).
Proof.
  intros [O1 O2 O3 O4]. unfold on_wake. cbn [in_timer in_timeout upd_field].
  constructor; cbn [fst snd].
  - by repeat case_match.
  - by repeat case_match.
  - repeat case_match; cbn; lia.
  - intros Hi. rewrite Hi. intros Ht Hto _. destruct (in_timer n) eqn:Et; cbn in *.
    + destruct (Z.ltb_spec 0 (in_timeout n)); [|cbn in *; lia]. cbn in *. exists (clock s + in_timeout n).
      rewrite next_delay_fresh by done. unfold timer_update. cbn. split; [|lia].
      by destruct (Z.ltb_spec 0 (in_timeout n)); [|lia].
    + congruence.
  - unfold n_events. destruct (in_idle n) eqn:E; by repeat case_match.
Qed.

Lemma on_idle_trans s ms inh n :
  idle_internal_mode s = false -> notif_ok s n ->
  n_trans s n (fst (on_idle (clock s) ms inh n)) (snd (on_idle (clock s) ms inh n)).
Proof.
  intros Hi [O1 O2 O3 O4]. unfold on_idle.
  repeat case_match; constructor; cbn; auto; try lia; congruence.
Qed.

Lemma note_ok s : notifs_ok s -> notifs_ok (qdwin_idle_note_activity s).
Proof.
  intros O. unfold qdwin_idle_note_activity. case_match; [done|].
  apply walk_ok; [done|]. intros n _. apply note_activity_trans.
Qed.

Lemma on_wake_ok s : notifs_ok s -> notifs_ok (qdwin_on_wake_signal s).
Proof. intros O. apply walk_ok; [done|]. intros n _. apply on_wake_trans. Qed.

Lemma on_idle_ok s : notifs_ok s -> notifs_ok (qdwin_on_idle_signal s).
Proof.
  intros O. unfold qdwin_on_idle_signal. case_match eqn:E; [done|].
  apply walk_ok; [done|]. intros n _. by apply on_idle_trans.
Qed.

(** *** The operations *)

(** The deadline the idle timer is set to: none when the product overflows. *)
Definition idle_deadline (now secs : Z) : option Z :=
  match chk32 (secs * 1000) with Some ms => timer_update now ms | None => None end.

Lemma arm_spec s :
  nsame s (arm_idle_source s) /\ idle_source (arm_idle_source s) = idle_deadline (clock s) (idle_time s)
  /\ idle_inhibitors (arm_idle_source s) = idle_inhibitors s
  /\ idle_inhibit (arm_idle_source s) = idle_inhibit s
  /\ inhibit_disabled (arm_idle_source s) = inhibit_disabled s
  /\ recheck_timer (arm_idle_source s) = recheck_timer s
  /\ recheck_deadline (arm_idle_source s) = recheck_deadline s
  /\ status_of (arm_idle_source s) = status_of s.
Proof. unfold arm_idle_source, idle_deadline. by destruct (chk32 (idle_time s * 1000)). Qed.

(** A product that fits arms the timer. *)
Lemma idle_deadline_armed now secs :
  0 < secs <= 2147483 -> idle_deadline now secs = Some (now + secs * 1000).
Proof.
  intros H. unfold idle_deadline, timer_update. rewrite chk32_Some by (ranges; lia).
  by destruct (Z.ltb_spec 0 (secs * 1000)); [|lia].
Qed.

Lemma wake_ok s : notifs_ok s -> notifs_ok (weston_compositor_wake s).
Proof.
  intros O. unfold weston_compositor_wake.
  set (s1 := s <| cstate := COMPOSITOR_ACTIVE |>).
  assert (O1 : notifs_ok s1) by (by apply (notifs_ok_frame s)).
  assert (O2 : notifs_ok (qdwin_on_wake_signal (idle_emit ev_dpms_on s1)))
    by (apply on_wake_ok; by apply (notifs_ok_frame s)).
  destruct (cstate s); (eapply nsame_ok; [apply arm_spec|done]).
Qed.

Lemma noting_ok b s : notifs_ok s -> notifs_ok (noting b s).
Proof. intros O. destruct b; [by apply note_ok|done]. Qed.

Lemma create_ok alloc timer id timeout ignore s :
  forallb (fun n => negb (in_resource n =? id)) (idle_notifications s) = true ->
  forallb (fun e => negb (about id e)) (idle_events s) = true -> 0 <= timeout <= UINT32_MAX ->
  notifs_ok s -> notifs_ok (qdwin_idle_notification_create alloc timer id timeout ignore s).
Proof.
  intros Hf He Ht O. unfold qdwin_idle_notification_create.
  destruct alloc; [|by apply (notifs_ok_frame s)]. cbn [negb]. destruct O as [C N F].
  set (n := mk_idle_notification id timeout (clock s) false ignore timer None).
  set (n' := if idle_internal_mode s then rearm (clock s) n else n).
  destruct (rearm_fields (clock s) n) as (E1 & E2 & E3 & E4 & E5 & _).
  assert (R : in_resource n' = id /\ in_timeout n' = timeout /\ in_last n' = clock s /\ in_idle n' = false)
    by (unfold n'; case_match; rewrite ?E1, ?E2, ?E3, ?E4; done).
  destruct R as (R1 & R2 & R3 & R4). constructor; [done| |]; cbn.
  - constructor; [|done]. rewrite R1. intros (m & Hm & Hin)%list_elem_of_In%in_map_iff.
    rewrite forallb_forall in Hf. specialize (Hf m Hin). rewrite Hm, Z.eqb_refl in Hf. done.
  - constructor; [|eapply Forall_impl; [exact F|]; intros m; by apply notif_ok_frame].
    constructor; cbn.
    + by rewrite R2.
    + destruct C. lia.
    + intros Hi. unfold n'. rewrite Hi. by apply rearm_armed.
    + rewrite R1, R4. unfold history. cbn.
      replace (List.filter (about id) (idle_events s)) with (@nil idle_event); [done|].
      clear - He. induction (idle_events s) as [|e l IH]; [done|]. cbn in *.
      apply andb_true_iff in He as [He1 He2]. apply negb_true_iff in He1. rewrite He1. by apply IH.
Qed.

Lemma destroy_ok r s : notifs_ok s -> notifs_ok (qdwin_idle_notification_resource_destroy r s).
Proof.
  intros [C N F]. constructor; [done| |]; cbn.
  - clear - N. induction (idle_notifications s) as [|n l IH]; [done|]. cbn in *.
    apply NoDup_cons in N as [Hn N]. case_match; cbn; [|by apply IH].
    constructor; [|by apply IH]. intros (m & Hm & Hin)%list_elem_of_In%in_map_iff.
    apply filter_In in Hin as [Hin _]. apply Hn, list_elem_of_In, in_map_iff. by exists m.
  - apply Forall_forall. intros n Hn. apply list_elem_of_In, filter_In in Hn as [Hn _].
    rewrite Forall_forall in F. apply (notif_ok_frame s); [done..|]. by apply F, list_elem_of_In.
Qed.

Lemma tick_ok d s : 0 <= d -> clock s + d < 18446744073709551616 -> notifs_ok s -> notifs_ok (s <| clock ::= Z.add d |>).
Proof.
  intros Hd Hc [[C1 C2] N F]. constructor; [unfold clock_ok; cbn; lia|done|]. cbn.
  eapply Forall_impl; [exact F|]. intros n [O1 O2 O3 O4]. constructor; cbn; [done|lia| |done].
  intros Hi Ht Hto Hn. destruct (O3 Hi Ht Hto Hn) as (x & Hx & Hle). exists x. split; [done|lia].
Qed.

(** One notification changes, with the events it sends. *)
Lemma find_notification_spec r s n : find_notification r s = Some n -> n ∈ idle_notifications s /\ in_resource n = r.
Proof.
  unfold find_notification. intros [H1 H2]%find_some. split; [by apply list_elem_of_In|lia].
Qed.

Lemma notif_unique s n m :
  notifs_ok s -> n ∈ idle_notifications s -> m ∈ idle_notifications s -> in_resource n = in_resource m -> n = m.
Proof.
  intros [_ N _]. induction (idle_notifications s) as [|k l IH]; intros Hn Hm E; [by apply not_elem_of_nil in Hn|].
  cbn in N. apply NoDup_cons in N as [Hk N].
  assert (Hin : forall w, w ∈ l -> in_resource w ∈ map in_resource l)
    by (intros w Hw; apply list_elem_of_In, in_map, list_elem_of_In; done).
  apply elem_of_cons in Hn as [->|Hn], Hm as [->|Hm]; [done| | |by apply IH];
    exfalso; apply Hk; [rewrite E|rewrite <- E]; by apply Hin.
Qed.

Lemma upd_as_walk n f evs s :
  notifs_ok s -> n ∈ idle_notifications s ->
  let g m := if in_resource m =? in_resource n then (f m, evs) else (m, []) in
  idle_notifications (walk_notifications g s) = idle_notifications (upd_notification (in_resource n) f s)
  /\ idle_events (walk_notifications g s) = rev evs ++ idle_events s.
Proof.
  intros O Hn g. unfold walk_notifications, upd_notification. cbn. split.
  - apply map_ext. intros m. unfold g. by case_match.
  - f_equal. f_equal. destruct O as [_ N _]. induction (idle_notifications s) as [|m l IH]; [by apply not_elem_of_nil in Hn|].
    cbn in N. apply NoDup_cons in N as [Hm N]. cbn. apply elem_of_cons in Hn as [<-|Hn].
    + unfold g at 1. rewrite Z.eqb_refl. cbn. rewrite <- (app_nil_r evs) at 2. f_equal.
      clear - Hm. induction l as [|k l IH]; [done|]. cbn in *. apply not_elem_of_cons in Hm as [Hk Hm].
      unfold g at 1. destruct (Z.eqb_spec (in_resource k) (in_resource n)); [congruence|]. by apply IH.
    + unfold g at 1. destruct (Z.eqb_spec (in_resource m) (in_resource n)) as [E|_]; [|by apply IH].
      exfalso. apply Hm. rewrite E. by apply list_elem_of_In, in_map, list_elem_of_In.
Qed.

Lemma upd_ok n f evs s s' :
  notifs_ok s -> n ∈ idle_notifications s -> n_trans s n (f n) evs ->
  clock s' = clock s -> idle_internal_mode s' = idle_internal_mode s ->
  idle_notifications s' = idle_notifications (upd_notification (in_resource n) f s) ->
  idle_events s' = rev evs ++ idle_events s -> notifs_ok s'.
Proof.
  intros O Hn T E1 E2 E3 E4. destruct (upd_as_walk n f evs s O Hn) as [W1 W2].
  set (g := fun m => if in_resource m =? in_resource n then (f m, evs) else (m, [])) in *.
  apply (notifs_ok_frame (walk_notifications g s)); [done|done|congruence| |].
  { intros r. unfold history. congruence. }
  apply walk_ok; [done|]. intros m Hm Om. unfold g. destruct (Z.eqb_spec (in_resource m) (in_resource n)) as [E|_].
  - assert (m = n) as -> by (by apply (notif_unique s)). exact T.
  - destruct Om. constructor; cbn; auto; lia.
Qed.

Lemma upd_upd r f g s :
  (forall n, in_resource (f n) = in_resource n) ->
  idle_notifications (upd_notification r g (upd_notification r f s))
  = idle_notifications (upd_notification r (fun n => g (f n)) s).
Proof.
  intros Hf. unfold upd_notification. cbn. rewrite map_map. apply map_ext. intros n.
  destruct (in_resource n =? r) eqn:E; [by rewrite Hf, E|by rewrite E].
Qed.

(** What the operations on notifications keep. *)
Record hsame (s s' : idle_state) : Prop := {
  hs_clock : clock s' = clock s;
  hs_inhibitors : idle_inhibitors s' = idle_inhibitors s;
  hs_inhibit : idle_inhibit s' = idle_inhibit s;
  hs_disabled : inhibit_disabled s' = inhibit_disabled s;
  hs_deadline : recheck_deadline s' = recheck_deadline s;
  hs_time : idle_time s' = idle_time s;
  hs_mode : idle_internal_mode s' = idle_internal_mode s;
  hs_status : status_of s' = status_of s
}.
#[global] Instance hsame_preorder : PreOrder hsame.
Proof. split; [by constructor|]. intros a b c [] []. constructor; etransitivity; eauto. Qed.

(** The expiry of the timer of [n]: what becomes of [n] and what it sends. *)
Definition fired (s : idle_state) (n : idle_notification) : idle_notification * list idle_event :=
  let off := n <| in_deadline := None |> in
  let internal := idle_internal_mode s && (0 <? in_timeout n) in
  let arm ms := if in_timer n then off <| in_deadline := timer_update (clock s) ms |> else off in
  if in_idle n then (off, [])
  else if internal && (u64 (clock s - in_last n) <? in_timeout n)
  then (arm (qdwin_idle_internal_next_delay (clock s) n), [])
  else if negb (in_ignore n) && (0 <? idle_inhibit s)
  then (if internal then arm QDWIN_IDLE_INTERNAL_INHIBIT_POLL_MS else off, [])
  else (off <| in_idle := true |>, [ev_idled (in_resource n)]).

Lemma fire_spec s n :
  notifs_ok s -> n ∈ idle_notifications s ->
  let s' := qdwin_idle_notification_timer_fire (n <| in_deadline := None |>)
              (upd_notification (in_resource n) (fun n => n <| in_deadline := None |>) s) in
  idle_notifications s' = idle_notifications (upd_notification (in_resource n) (fun _ => fst (fired s n)) s)
  /\ idle_events s' = rev (snd (fired s n)) ++ idle_events s
  /\ hsame s s' /\ idle_source s' = idle_source s
  /\ (cstate s' = cstate s \/ cstate s' = COMPOSITOR_IDLE /\ idle_internal_mode s = true).
Proof.
  intros O Hn. cbv zeta.
  assert (Hext : forall f, idle_notifications (upd_notification (in_resource n) f s)
                           = idle_notifications (upd_notification (in_resource n) (fun _ => f n) s)).
  { intros f. unfold upd_notification. cbn. apply map_ext_in. intros m Hm. apply list_elem_of_In in Hm.
    destruct (Z.eqb_spec (in_resource m) (in_resource n)) as [E|]; [|done].
    by rewrite (notif_unique s m n). }
  unfold qdwin_idle_notification_timer_fire, fired. cbn.
  destruct (in_idle n); [split_and!; [apply Hext|done..|by left]|].
  destruct (_ && (u64 _ <? _)); [|destruct (negb (in_ignore n) && _)].
  - destruct (in_timer n); (split_and!; [|done..|by left]); [rewrite upd_upd by done|]; apply Hext.
  - destruct (idle_internal_mode s && (0 <? in_timeout n));
      [destruct (in_timer n)|]; (split_and!; [|done..|by left]); [rewrite upd_upd by done|..]; apply Hext.
  - set (off := fun m : idle_notification => m <| in_deadline := None |>).
    set (on := fun m : idle_notification => m <| in_idle := true |>).
    assert (Hidle : idle_notifications (upd_notification (in_resource n) on (upd_notification (in_resource n) off s))
                    = idle_notifications (upd_notification (in_resource n) (fun _ => on (off n)) s))
      by (rewrite upd_upd by done; apply Hext).
    unfold qdwin_on_idle_signal. destruct (idle_internal_mode s) eqn:Ei; cbn.
    + case_match; cbn; rewrite ?Ei; (split_and!; [exact Hidle|done..|by auto]).
    + split_and!; [exact Hidle|done..|by auto].
Qed.

Lemma next_delay_rest now n :
  0 < in_timeout n <= INT32_MAX -> 0 <= in_last n <= now -> now < 18446744073709551616 ->
  now - in_last n < in_timeout n ->
  qdwin_idle_internal_next_delay now n = in_last n + in_timeout n - now.
Proof.
  intros Ht Hl Hn Hr. unfold qdwin_idle_internal_next_delay. rewrite u64_small by lia. cbv zeta.
  destruct (Z.leb_spec (in_timeout n) (now - in_last n)); [lia|].
  destruct (Z.eqb_spec (in_timeout n - (now - in_last n)) 0); [lia|]. rewrite to_int_small; lia.
Qed.

Lemma fired_trans s n : clock_ok s -> notif_ok s n -> n_trans s n (fst (fired s n)) (snd (fired s n)).
Proof.
  intros C [O1 O2 O3 O4]. unfold fired. destruct C as [C1 C2].
  destruct (in_idle n) eqn:Eid; [constructor; cbn; try done; [lia|]; intros _ _ _; cbn; congruence|].
  destruct (idle_internal_mode s) eqn:Ei; cbn [andb].
  - destruct (Z.ltb_spec 0 (in_timeout n)) as [Hpos|Hpos]; cbn [andb].
    + rewrite u64_small by lia. destruct (Z.ltb_spec (clock s - in_last n) (in_timeout n)) as [Hlt|Hge].
      * constructor; cbn; try (destruct (in_timer n); cbn; done || lia).
        intros _ Ht Hto _. destruct (in_timer n) eqn:Et; cbn in *; [|congruence].
        rewrite next_delay_rest by (try done; lia). exists (in_last n + in_timeout n).
        unfold timer_update. destruct (Z.ltb_spec 0 (in_last n + in_timeout n - clock s)); [|lia].
        split; [f_equal; lia|lia].
      * destruct (negb (in_ignore n) && _).
        -- constructor; cbn; try (destruct (in_timer n); cbn; done || lia).
           intros _ Ht Hto _. destruct (in_timer n) eqn:Et; cbn in *; [|congruence].
           exists (clock s + 1000). split; [done|unfold QDWIN_IDLE_INTERNAL_INHIBIT_POLL_MS; lia].
        -- constructor; cbn; try done; lia.
    + destruct (negb (in_ignore n) && _); constructor; cbn; try done; try lia; intros _ _ Hto; cbn in Hto; lia.
  - destruct (negb (in_ignore n) && _); constructor; cbn; try done; try lia; congruence.
Qed.

Lemma fire_ok s n :
  notifs_ok s -> n ∈ idle_notifications s ->
  notifs_ok (qdwin_idle_notification_timer_fire (n <| in_deadline := None |>)
               (upd_notification (in_resource n) (fun n => n <| in_deadline := None |>) s)).
Proof.
  intros O Hn. destruct (fire_spec s n O Hn) as (E1 & E2 & E3 & _).
  apply (upd_ok n (fun _ => fst (fired s n)) (snd (fired s n)) s); [done|done| |apply E3..|done|done].
  pose proof O as [C N F]. rewrite Forall_forall in F. apply fired_trans; [done|by apply F].
Qed.

(** ** Inhibitors *)

Definition active (s : idle_state) : Z := Z.of_nat (length (List.filter ih_active (idle_inhibitors s))).
(** The part of the count that is not the inhibitors'. *)
Definition outside (s : idle_state) : Z := idle_inhibit s - active s.

Record counted (s : idle_state) : Prop := {
  ct_nodup : NoDup (map ih_resource (idle_inhibitors s));
  ct_outside : 0 <= outside s;
  ct_small : outside s + Z.of_nat (length (idle_inhibitors s)) <= UINT32_MAX
}.

(** The compositor's own timer runs while nothing holds it back, if the
    configured time in milliseconds is an [int]. *)
Definition idle_timer_ok (s : idle_state) : Prop :=
  0 < idle_time s <= 2147483 -> cstate s = COMPOSITOR_ACTIVE -> idle_inhibit s = 0 ->
  exists d, idle_source s = Some d /\ d <= clock s + idle_time s * 1000.

(** What the operations on holds change: the activity of inhibitors, the count
    and the compositor's timer. *)
Record itrans (s s' : idle_state) : Prop := {
  it_n : nsame s s';
  it_resource : map ih_resource (idle_inhibitors s') = map ih_resource (idle_inhibitors s);
  it_outside : outside s' = outside s;
  it_disabled : inhibit_disabled s' = inhibit_disabled s;
  it_rtimer : recheck_timer s' = recheck_timer s;
  it_rdeadline : recheck_deadline s' = recheck_deadline s;
  it_status : status_of s' = status_of s;
  it_timer : idle_timer_ok s -> idle_timer_ok s';
  it_source : idle_source s' = idle_source s \/ idle_source s' = idle_deadline (clock s) (idle_time s)
}.
#[global] Instance itrans_refl : Reflexive itrans.
Proof. intros s. constructor; auto. reflexivity. Qed.
#[global] Instance itrans_trans : Transitive itrans.
Proof.
  intros a b c [] []. constructor; try (etransitivity; eauto; fail); auto.
  destruct it_n0 as [E1 _ E2 _ _ _].
  destruct it_source1 as [->| ->]; [done|right]. by rewrite E1, E2.
Qed.

Lemma itrans_length s s' : itrans s s' -> length (idle_inhibitors s') = length (idle_inhibitors s).
Proof. intros T. rewrite <- (length_map ih_resource), (it_resource _ _ T). apply length_map. Qed.

Lemma itrans_counted s s' : itrans s s' -> counted s -> counted s'.
Proof.
  intros T [C1 C2 C3]. constructor.
  - by rewrite (it_resource _ _ T).
  - by rewrite (it_outside _ _ T).
  - by rewrite (it_outside _ _ T), (itrans_length _ _ T).
Qed.

Lemma find_inhibitor_spec r s i : find_inhibitor r s = Some i -> i ∈ idle_inhibitors s /\ ih_resource i = r.
Proof. unfold find_inhibitor. intros [H1 H2]%find_some. split; [by apply list_elem_of_In|lia]. Qed.

(** Switching one inhibitor changes the number of active ones by one. *)
Lemma switch_count (l : list idle_inhibitor) i (b : bool) :
  NoDup (map ih_resource l) -> i ∈ l -> ih_active i = negb b ->
  Z.of_nat (length (List.filter ih_active
    (map (fun j => if ih_resource j =? ih_resource i then j <| ih_active := b |> else j) l)))
  = Z.of_nat (length (List.filter ih_active l)) + (if b then 1 else -1).
Proof.
  assert (Hout : forall l, ih_resource i ∉ map ih_resource l ->
            map (fun j => if ih_resource j =? ih_resource i then j <| ih_active := b |> else j) l = l).
  { clear. induction l as [|j l IH]; intros Hi; [done|]. cbn in Hi |- *.
    apply not_elem_of_cons in Hi as [Hj Hi]. rewrite IH by done.
    destruct (Z.eqb_spec (ih_resource j) (ih_resource i)); [congruence|done]. }
  induction l as [|j l IH]; intros N Hi Ha; [by apply not_elem_of_nil in Hi|].
  cbn in N. apply NoDup_cons in N as [Hj N]. cbn. apply elem_of_cons in Hi as [<-|Hi].
  - rewrite Z.eqb_refl, Hout by done. cbn. rewrite Ha. destruct b; cbn [negb length]; lia.
  - destruct (Z.eqb_spec (ih_resource j) (ih_resource i)) as [E|_].
    + exfalso. apply Hj. rewrite E. by apply list_elem_of_In, in_map, list_elem_of_In.
    + specialize (IH N Hi Ha). destruct (ih_active j); cbn [length]; lia.
Qed.

Lemma active_bound s : 0 <= active s <= Z.of_nat (length (idle_inhibitors s)).
Proof. unfold active. pose proof (List.filter_length_le ih_active (idle_inhibitors s)). lia. Qed.

Lemma upd_inhibitor_maps r f s :
  (forall j, ih_resource (f j) = ih_resource j) ->
  map ih_resource (idle_inhibitors (upd_inhibitor r f s)) = map ih_resource (idle_inhibitors s).
Proof. intros H. unfold upd_inhibitor. cbn. rewrite map_map. apply map_ext. intros j. by case_match. Qed.

Lemma activate_trans i s :
  counted s -> i ∈ idle_inhibitors s -> itrans s (qdwin_idle_inhibitor_activate i s).
Proof.
  intros [N C1 C2] Hi. unfold qdwin_idle_inhibitor_activate. destruct (ih_active i) eqn:Ea; [reflexivity|].
  pose proof (switch_count _ i true N Hi Ea) as Hc. pose proof (active_bound s) as Hb.
  set (f := fun j : idle_inhibitor => j <| ih_active := true |>).
  pose proof (upd_inhibitor_maps (ih_resource i) f s (fun _ => eq_refl)) as M1.
  assert (Hlt : active s < Z.of_nat (length (idle_inhibitors s))).
  { unfold active in *. cbn in Hc.
    pose proof (List.filter_length_le ih_active (map (fun j => if ih_resource j =? ih_resource i then f j else j)
      (idle_inhibitors s))) as Hl. rewrite length_map in Hl. unfold f in Hl. lia. }
  assert (Hu : u32 (idle_inhibit s + 1) = idle_inhibit s + 1)
    by (apply u32_small; unfold outside in *; ranges; lia).
  constructor; auto; [done| |].
  - unfold outside, active. cbn. fold f in Hc. fold f. rewrite Hu. unfold f in *. cbn in Hc. lia.
  - intros _ _ _ Hz. cbn in Hz. rewrite Hu in Hz. unfold outside in *. lia.
Qed.

Lemma deactivate_trans i s :
  counted s -> i ∈ idle_inhibitors s -> itrans s (qdwin_idle_inhibitor_deactivate i s).
Proof.
  intros [N C1 C2] Hi. unfold qdwin_idle_inhibitor_deactivate. destruct (ih_active i) eqn:Ea; [|reflexivity].
  pose proof (switch_count _ i false N Hi Ea) as Hc. cbn [negb].
  set (f := fun j : idle_inhibitor => j <| ih_active := false |>).
  pose proof (upd_inhibitor_maps (ih_resource i) f s (fun _ => eq_refl)) as M1.
  assert (Hpos : 0 < idle_inhibit s).
  { unfold outside, active in *.
    pose proof (active_bound (upd_inhibitor (ih_resource i) f s)) as Hb. unfold active in Hb. cbn in Hb.
    fold f in Hc. lia. }
  cbn [idle_inhibit upd_inhibitor upd_field]. destruct (Z.ltb_spec 0 (idle_inhibit s)); [|lia].
  cbn [idle_inhibit idle_time cstate upd_field].
  destruct (_ && bool_decide _) eqn:Eb.
  - set (s2 := (upd_inhibitor (ih_resource i) f s) <| idle_inhibit ::= fun x => x - 1 |>).
    destruct (arm_spec s2) as (A1 & A2 & A3 & A4 & A5 & A6 & A7 & A8).
    constructor; try done; [by etransitivity; [|exact A1]|by rewrite A3| | |by right].
    + unfold outside, active. rewrite A3, A4. cbn. fold f in Hc. fold f. unfold f in *. cbn in Hc. lia.
    + intros _ Ht _ _. rewrite A2, (sm_clock _ _ A1), (sm_time _ _ A1) in *.
      rewrite idle_deadline_armed by done. by eexists.
  - constructor; auto; [done| |].
    + unfold outside, active. cbn. fold f in Hc. fold f. unfold f in *. cbn in Hc. lia.
    + intros _ Ht Hst Hz. cbn in Ht, Hst, Hz. exfalso. apply andb_false_iff in Eb as [Eb|Eb].
      * apply andb_false_iff in Eb as [Eb|Eb]; cbn in Eb; lia.
      * apply bool_decide_eq_false in Eb. by apply Eb.
Qed.

Lemma sync_trans r s : counted s -> itrans s (qdwin_idle_inhibitor_sync r s).
Proof.
  intros C. unfold qdwin_idle_inhibitor_sync. destruct (find_inhibitor r s) as [i|] eqn:E; [|reflexivity].
  apply find_inhibitor_spec in E as [Hi _].
  repeat case_match; try reflexivity; first [by apply activate_trans|by apply deactivate_trans].
Qed.

Lemma inhibitor_unique s i j :
  counted s -> i ∈ idle_inhibitors s -> j ∈ idle_inhibitors s -> ih_resource i = ih_resource j -> i = j.
Proof.
  intros [N _ _]. induction (idle_inhibitors s) as [|k l IH]; intros Hi Hj E; [by apply not_elem_of_nil in Hi|].
  cbn in N. apply NoDup_cons in N as [Hk N].
  assert (Hin : forall w, w ∈ l -> ih_resource w ∈ map ih_resource l)
    by (intros w Hw; apply list_elem_of_In, in_map, list_elem_of_In; done).
  apply elem_of_cons in Hi as [->|Hi], Hj as [->|Hj]; [done| | |by apply IH];
    exfalso; apply Hk; [rewrite E|rewrite <- E]; by apply Hin.
Qed.

(** The hold of an inhibitor is what its surface justifies. *)
Definition settled (s : idle_state) (j : idle_inhibitor) : Prop :=
  ih_active j = negb (inhibit_disabled s) && surface_holds (ih_surface j) s.

Lemma settled_itrans s s' j : itrans s s' -> settled s j -> settled s' j.
Proof.
  intros T. unfold settled. rewrite (it_disabled _ _ T). intros ->. f_equal.
  unfold surface_holds. by rewrite (it_status _ _ T).
Qed.

Lemma switched_inhibitors (i : idle_inhibitor) (b : bool) s :
  counted s -> i ∈ idle_inhibitors s ->
  let s' := if b then qdwin_idle_inhibitor_activate i s else qdwin_idle_inhibitor_deactivate i s in
  forall j, j ∈ idle_inhibitors s' ->
    (j = i <| ih_active := b |>) \/ (ih_resource j ≠ ih_resource i /\ j ∈ idle_inhibitors s).
Proof.
  intros C Hi s' j Hj.
  assert (Hm : ih_active i = b /\ idle_inhibitors s' = idle_inhibitors s
               \/ idle_inhibitors s' = map (fun j => if ih_resource j =? ih_resource i then j <| ih_active := b |> else j)
                                         (idle_inhibitors s)).
  { unfold s', qdwin_idle_inhibitor_activate, qdwin_idle_inhibitor_deactivate.
    destruct b, (ih_active i); cbn [negb]; try (by left); right; [done|].
    by repeat case_match; rewrite ?(proj1 (proj2 (proj2 (arm_spec _)))). }
  destruct Hm as [[Ha Hm]|Hm]; rewrite Hm in Hj.
  - destruct (decide (ih_resource j = ih_resource i)) as [E|E]; [left|by right].
    rewrite (inhibitor_unique s j i) by done. rewrite <- Ha. by destruct i.
  - apply list_elem_of_In, in_map_iff in Hj as (k & <- & Hk). apply list_elem_of_In in Hk.
    destruct (Z.eqb_spec (ih_resource k) (ih_resource i)) as [E|E]; [left|by right].
    by rewrite (inhibitor_unique s k i).
Qed.

Lemma sync_settles r s j :
  counted s -> j ∈ idle_inhibitors (qdwin_idle_inhibitor_sync r s) ->
  if decide (ih_resource j = r) then settled s j else j ∈ idle_inhibitors s.
Proof.
  intros C. unfold qdwin_idle_inhibitor_sync. destruct (find_inhibitor r s) as [i|] eqn:E.
  - apply find_inhibitor_spec in E as [Hi <-].
    assert (Hsw : forall b, b = negb (inhibit_disabled s) && surface_holds (ih_surface i) s ->
              j ∈ idle_inhibitors (if b then qdwin_idle_inhibitor_activate i s else qdwin_idle_inhibitor_deactivate i s) ->
              if decide (ih_resource j = ih_resource i) then settled s j else j ∈ idle_inhibitors s).
    { intros b Hb Hj. destruct (switched_inhibitors i b s C Hi j Hj) as [->|[Hne Hj']]; case_decide; done. }
    destruct (inhibit_disabled s) eqn:Ed; [by apply (Hsw false)|].
    destruct (Bool.eqb_spec (surface_holds (ih_surface i) s) (ih_active i)) as [Eq|Ne].
    + intros Hj. case_decide as Hr; [|done]. assert (j = i) as -> by (by apply (inhibitor_unique s)).
      unfold settled. by rewrite Ed, Eq.
    + destruct (surface_holds (ih_surface i) s); [by apply (Hsw true)|by apply (Hsw false)].
  - intros Hj. case_decide as Hr; [|done]. exfalso. unfold find_inhibitor in E.
    pose proof (List.find_none _ _ E j (proj1 (list_elem_of_In _ _) Hj)) as Hn. cbn in Hn. lia.
Qed.

Lemma sync_all_spec l s :
  counted s ->
  itrans s (sync_all l s)
  /\ forall j, j ∈ idle_inhibitors (sync_all l s) ->
       settled s j \/ ((ih_resource j ∉ l) /\ j ∈ idle_inhibitors s).
Proof.
  revert s. induction l as [|r l IH]; intros s C; cbn.
  - split; [reflexivity|]. intros j Hj. right. split; [by apply not_elem_of_nil|done].
  - pose proof (sync_trans r s C) as T. destruct (IH _ (itrans_counted _ _ T C)) as [T' H].
    split; [by etransitivity|]. intros j [Hs|[Hn Hj]]%H.
    + left. unfold settled in *. rewrite (it_disabled _ _ T) in Hs. unfold surface_holds in *.
      by rewrite (it_status _ _ T) in Hs.
    + apply (sync_settles r s j C) in Hj. case_decide as Hr; [by left|].
      right. split; [|done]. by apply not_elem_of_cons.
Qed.

(** ** The invariant *)

Record inh_ok (h : Z) (s : idle_state) : Prop := {
  io_nodup : NoDup (map ih_resource (idle_inhibitors s));
  io_held : 0 <= h;
  io_outside : outside s = h;
  io_disabled : inhibit_disabled s = true -> forall j, j ∈ idle_inhibitors s -> ih_active j = false
}.

(** The backstop runs while there is something to re-evaluate. *)
Definition recheck_ok (s : idle_state) : Prop :=
  idle_inhibitors s ≠ [] -> inhibit_disabled s = false ->
  exists d, recheck_deadline s = Some d /\ d <= clock s + QDWIN_IDLE_INHIBIT_RECHECK_MS.

Definition within (L now : Z) (d : option Z) : Prop :=
  match d with Some d => now <= d + L | None => True end.

Record late_ok (L : Z) (s : idle_state) : Prop := {
  lt_idle : within L (clock s) (idle_source s);
  lt_recheck : within L (clock s) (recheck_deadline s);
  lt_notifs : Forall (fun n => within L (clock s) (in_deadline n)) (idle_notifications s)
}.

Record idle_base (L : Z) (t : timed) : Prop := {
  v_notifs : notifs_ok (ts t);
  v_inh : inh_ok (held t) (ts t);
  v_timer : idle_timer_ok (ts t);
  v_late : late_ok L (ts t);
  v_mode : idle_internal_mode (ts t) = (idle_time (ts t) =? 0)
}.
Definition idle_inv (L : Z) (t : timed) : Prop := idle_base L t /\ recheck_ok (ts t).

Lemma timer_update_within L now ms : 0 <= L -> within L now (timer_update now ms).
Proof. intros H. unfold timer_update. case_match; cbn; [lia|done]. Qed.
Lemma idle_deadline_within L now secs : 0 <= L -> within L now (idle_deadline now secs).
Proof. intros H. unfold idle_deadline. case_match; [by apply timer_update_within|done]. Qed.

Section Bodies.
Context (L : Z) (HL : 0 <= L).

Lemma rearm_within now n : within L now (in_deadline n) -> within L now (in_deadline (rearm now n)).
Proof. intros H. unfold rearm. case_match; [by apply timer_update_within|done]. Qed.

Lemma note_activity_within now st n :
  within L now (in_deadline n) -> within L now (in_deadline (fst (note_activity now st n))).
Proof. intros H. unfold note_activity. case_match; [done|]. by apply rearm_within. Qed.

Lemma on_wake_within b now n :
  within L now (in_deadline n) -> within L now (in_deadline (fst (on_wake b now n))).
Proof. intros H. unfold on_wake. cbn. repeat case_match; cbn; try done. by apply timer_update_within. Qed.

Lemma on_idle_within now ms inh n :
  within L now (in_deadline n) -> within L now (in_deadline (fst (on_idle now ms inh n))).
Proof. intros H. unfold on_idle. repeat case_match; cbn; try done. by apply timer_update_within. Qed.

Lemma fired_within s n : within L (clock s) (in_deadline (fst (fired s n))).
Proof. unfold fired. repeat case_match; first [exact I|by apply (timer_update_within L (clock s))]. Qed.

Lemma walk_late f s :
  (forall n, within L (clock s) (in_deadline n) -> within L (clock s) (in_deadline (fst (f n)))) ->
  late_ok L s -> late_ok L (walk_notifications f s).
Proof.
  intros Hf [L1 L2 L3]. constructor; [done|done|]. cbn. apply Forall_map.
  eapply Forall_impl; [exact L3|]. intros n. apply Hf.
Qed.

Lemma note_late s : late_ok L s -> late_ok L (qdwin_idle_note_activity s).
Proof.
  intros O. unfold qdwin_idle_note_activity. case_match; [done|].
  apply walk_late; [|done]. intros n. apply note_activity_within.
Qed.

Lemma on_idle_late s : late_ok L s -> late_ok L (qdwin_on_idle_signal s).
Proof.
  intros O. unfold qdwin_on_idle_signal. case_match; [done|].
  apply walk_late; [|done]. intros n. apply on_idle_within.
Qed.

Lemma wake_late s : late_ok L s -> late_ok L (weston_compositor_wake s).
Proof.
  intros [L1 L2 L3]. unfold weston_compositor_wake.
  assert (W : late_ok L (qdwin_on_wake_signal (idle_emit ev_dpms_on (s <| cstate := COMPOSITOR_ACTIVE |>)))).
  { apply walk_late; [|by constructor]. intros n. apply on_wake_within. }
  assert (A : forall s, late_ok L s -> late_ok L (arm_idle_source s)).
  { intros s1 [A1 A2 A3]. destruct (arm_spec s1) as (B1 & B2 & _ & _ & _ & _ & B3 & _). constructor.
    - rewrite B2, (sm_clock _ _ B1). by apply idle_deadline_within.
    - by rewrite B3, (sm_clock _ _ B1).
    - by rewrite (sm_notifications _ _ B1), (sm_clock _ _ B1). }
  destruct (cstate s); apply A; done.
Qed.
End Bodies.

Lemma hsame_inh h s s' : hsame s s' -> inh_ok h s -> inh_ok h s'.
Proof.
  intros [E1 E2 E3 E4 E5 E6 E7 E8] [O1 O2 O3 O4].
  constructor; unfold outside, active in *; rewrite ?E2, ?E3, ?E4; done.
Qed.

Lemma hsame_recheck s s' : hsame s s' -> recheck_ok s -> recheck_ok s'.
Proof. intros [E1 E2 E3 E4 E5 E6 E7 E8] O. unfold recheck_ok. by rewrite E1, E2, E4, E5. Qed.

Lemma hsame_mode s s' :
  hsame s s' -> idle_internal_mode s = (idle_time s =? 0) -> idle_internal_mode s' = (idle_time s' =? 0).
Proof. intros [? ? ? ? ? E6 E7 E8]. by rewrite E6, E7. Qed.

Lemma hsame_timer s s' :
  hsame s s' -> (cstate s' = COMPOSITOR_ACTIVE -> cstate s = COMPOSITOR_ACTIVE) ->
  idle_source s' = idle_source s -> idle_timer_ok s -> idle_timer_ok s'.
Proof.
  intros [E1 E2 E3 E4 E5 E6 E7 E8] Hc Es O. unfold idle_timer_ok. rewrite E1, E3, E6, Es.
  intros Ht Ha. by apply O, Hc.
Qed.

Lemma note_hsame s :
  hsame s (qdwin_idle_note_activity s) /\ cstate (qdwin_idle_note_activity s) = cstate s
  /\ idle_source (qdwin_idle_note_activity s) = idle_source s.
Proof. unfold qdwin_idle_note_activity. case_match; done. Qed.

Lemma wake_hsame s : hsame s (weston_compositor_wake s) /\ cstate (weston_compositor_wake s) = COMPOSITOR_ACTIVE
  /\ idle_source (weston_compositor_wake s) = idle_deadline (clock s) (idle_time s).
Proof.
  assert (A : forall s1, hsame s s1 -> cstate s1 = COMPOSITOR_ACTIVE ->
    hsame s (arm_idle_source s1) /\ cstate (arm_idle_source s1) = COMPOSITOR_ACTIVE
    /\ idle_source (arm_idle_source s1) = idle_deadline (clock s) (idle_time s)).
  { intros s1 H Hc. destruct (arm_spec s1) as (B1 & B2 & B3 & B4 & B5 & B6 & B7 & B8). split_and!.
    - etransitivity; [exact H|]. destruct B1. by constructor.
    - by rewrite (sm_state _ _ B1).
    - by rewrite B2, (hs_clock _ _ H), (hs_time _ _ H). }
  unfold weston_compositor_wake. destruct (cstate s); by apply A.
Qed.

Lemma wake_timer s : idle_timer_ok (weston_compositor_wake s).
Proof.
  destruct (wake_hsame s) as ([E1 _ _ _ _ E6 _ _] & _ & Es). intros Ht _ _. rewrite E6 in Ht. rewrite Es, E1, E6.
  rewrite idle_deadline_armed by done. by eexists.
Qed.

Lemma on_idle_hsame s :
  hsame s (qdwin_on_idle_signal s) /\ cstate (qdwin_on_idle_signal s) = cstate s
  /\ idle_source (qdwin_on_idle_signal s) = idle_source s.
Proof. unfold qdwin_on_idle_signal. by case_match. Qed.

(** *** Inhibitor operations *)

Section Inhibit.
Context (L : Z) (HL : 0 <= L).

Lemma inv_counted h s :
  idle_base L (mk_timed s h) -> h + Z.of_nat (length (idle_inhibitors s)) <= UINT32_MAX -> counted s.
Proof. intros [_ [O1 O2 O3 _] _ _ _] Hb. cbn in *. constructor; [done|lia|lia]. Qed.

Lemma itrans_base h s s' :
  itrans s s' -> (inhibit_disabled s = true -> forall j, j ∈ idle_inhibitors s' -> ih_active j = false) ->
  idle_base L (mk_timed s h) -> idle_base L (mk_timed s' h).
Proof.
  intros T Hd [V1 [O1 O2 O3 O4] V3 [L1 L2 L3] V5]. cbn in *. pose proof T as [N E1 E2 E3 E4 E5 E6 E7 E8].
  pose proof N as [N1 N2 N3 N4 N5 N6]. constructor; cbn.
  - by apply (nsame_ok s).
  - constructor; rewrite ?E1, ?E2, ?E3; auto.
  - by apply E7.
  - constructor; rewrite ?N1, ?E5, ?N5; auto. destruct E8 as [->| ->]; [done|by apply idle_deadline_within].
  - by rewrite N2, N3.
Qed.

Lemma itrans_recheck s s' : itrans s s' -> recheck_ok s -> recheck_ok s'.
Proof.
  intros T O Hne Hd. pose proof T as [[N1 _ _ _ _ _] _ _ E3 _ E5 _ _ _]. rewrite E5, N1. apply O.
  - intros E. apply Hne. apply (f_equal length) in E. rewrite <- (itrans_length _ _ T) in E.
    by destruct (idle_inhibitors s').
  - by rewrite <- E3.
Qed.

Lemma sync_all_base h l s :
  h + Z.of_nat (length (idle_inhibitors s)) <= UINT32_MAX ->
  idle_base L (mk_timed s h) -> idle_base L (mk_timed (sync_all l s) h).
Proof.
  intros Hb V. pose proof (inv_counted h s V Hb) as C. destruct (sync_all_spec l s C) as [T H].
  apply (itrans_base h s); [done| |done]. intros Hd j Hj. destruct (H j Hj) as [Hs|[_ Ho]].
  - unfold settled in Hs. by rewrite Hd in Hs.
  - by apply (io_disabled _ _ (v_inh _ _ V)).
Qed.

(** Changing what an inhibitor listens to. *)
Lemma upd_surface_trans r s : itrans s (upd_inhibitor r (fun i => i <| ih_surface := None |>) s).
Proof.
  constructor; auto; [done|by apply upd_inhibitor_maps|]. unfold outside, active. cbn. do 2 f_equal.
  induction (idle_inhibitors s) as [|j l IH]; [done|]. cbn. destruct (ih_resource j =? r); cbn; destruct (ih_active j); cbn; by rewrite IH.
Qed.

Lemma gone_base h l s :
  h + Z.of_nat (length (idle_inhibitors s)) <= UINT32_MAX ->
  idle_base L (mk_timed s h) ->
  let s' := foldl (fun s r => qdwin_idle_inhibitor_sync r
                     (upd_inhibitor r (fun i => i <| ih_surface := None |>) s)) s l in
  idle_base L (mk_timed s' h) /\ itrans s s'.
Proof.
  revert s. induction l as [|r l IH]; intros s Hb V; cbn; [done|].
  set (s1 := upd_inhibitor r (fun i => i <| ih_surface := None |>) s).
  pose proof (upd_surface_trans r s) as T. fold s1 in T. pose proof (itrans_length _ _ T) as El.
  assert (V1 : idle_base L (mk_timed s1 h)).
  { apply (itrans_base h s); [done| |done]. intros Hd j Hj. unfold s1, upd_inhibitor in Hj. cbn in Hj.
    apply list_elem_of_In, in_map_iff in Hj as (k & <- & Hk). apply list_elem_of_In in Hk.
    pose proof (io_disabled _ _ (v_inh _ _ V) Hd k Hk). by case_match. }
  pose proof (inv_counted h s1 V1 ltac:(lia)) as C1. pose proof (sync_trans r s1 C1) as T1.
  destruct (IH (qdwin_idle_inhibitor_sync r s1)) as [B T2];
    [rewrite (itrans_length _ _ T1); lia|apply (sync_all_base h [r] s1); [lia|done]|].
  split; [exact B|]. etransitivity; [exact T|]. by etransitivity.
Qed.

Lemma filter_active_drop r (l : list idle_inhibitor) :
  (forall j, j ∈ l -> ih_resource j = r -> ih_active j = false) ->
  length (List.filter ih_active (List.filter (fun i => negb (ih_resource i =? r)) l))
  = length (List.filter ih_active l).
Proof.
  induction l as [|j l IH]; intros H; [done|]. cbn.
  assert (H' : forall k, k ∈ l -> ih_resource k = r -> ih_active k = false) by (intros k Hk; apply H; by right).
  destruct (Z.eqb_spec (ih_resource j) r) as [E|E]; cbn.
  - rewrite (H j) by (done || by left). by apply IH.
  - destruct (ih_active j); cbn; by rewrite IH.
Qed.

Lemma drop_base h r s :
  (forall j, j ∈ idle_inhibitors s -> ih_resource j = r -> ih_active j = false) ->
  idle_base L (mk_timed s h) ->
  idle_base L (mk_timed (s <| idle_inhibitors ::= List.filter (fun i => negb (ih_resource i =? r)) |>) h).
Proof.
  intros Hr [V1 [O1 O2 O3 O4] V3 [L1 L2 L3] V5]. cbn in *. constructor; cbn.
  - by apply (notifs_ok_frame s).
  - constructor; cbn.
    + clear - O1. induction (idle_inhibitors s) as [|n l IH]; [done|]. cbn in *.
      apply NoDup_cons in O1 as [Hn N]. case_match; cbn; [|by apply IH].
      constructor; [|by apply IH]. intros (m & Hm & Hin)%list_elem_of_In%in_map_iff.
      apply filter_In in Hin as [Hin _]. apply Hn, list_elem_of_In, in_map_iff. by exists m.
    + done.
    + unfold outside, active in *. cbn. by rewrite filter_active_drop.
    + intros Hd j Hj. apply list_elem_of_In, filter_In in Hj as [Hj _]. by apply O4, list_elem_of_In.
  - done.
  - by constructor.
  - done.
Qed.

Lemma deactivate_base h i s :
  h + Z.of_nat (length (idle_inhibitors s)) <= UINT32_MAX -> i ∈ idle_inhibitors s ->
  idle_base L (mk_timed s h) -> idle_base L (mk_timed (qdwin_idle_inhibitor_deactivate i s) h).
Proof.
  intros Hb Hi V. pose proof (inv_counted h s V Hb) as C.
  apply (itrans_base h s); [by apply deactivate_trans| |done]. intros Hd j Hj.
  destruct (switched_inhibitors i false s C Hi j Hj) as [->|[_ Ho]]; [done|].
  by apply (io_disabled _ _ (v_inh _ _ V)).
Qed.

Lemma resource_destroy_base h r s :
  h + Z.of_nat (length (idle_inhibitors s)) <= UINT32_MAX ->
  idle_base L (mk_timed s h) -> idle_base L (mk_timed (qdwin_idle_inhibitor_resource_destroy r s) h).
Proof.
  intros Hb V. pose proof (inv_counted h s V Hb) as C. unfold qdwin_idle_inhibitor_resource_destroy.
  destruct (find_inhibitor r s) as [i|] eqn:E; [|done]. apply find_inhibitor_spec in E as [Hi <-].
  apply drop_base; [|by apply deactivate_base]. intros j Hj Er.
  destruct (switched_inhibitors i false s C Hi j Hj) as [->|[Hne _]]; [done|congruence].
Qed.

Lemma release_all_spec l s :
  counted s ->
  let s' := foldl (fun s r => match find_inhibitor r s with
                              | Some i => qdwin_idle_inhibitor_deactivate i s
                              | None => s
                              end) s l in
  itrans s s'
  /\ forall j, j ∈ idle_inhibitors s' -> ih_active j = false \/ ((ih_resource j ∉ l) /\ j ∈ idle_inhibitors s).
Proof.
  revert s. induction l as [|r l IH]; intros s C; cbn.
  - split; [reflexivity|]. intros j Hj. right. split; [by apply not_elem_of_nil|done].
  - destruct (find_inhibitor r s) as [i|] eqn:E.
    + apply find_inhibitor_spec in E as [Hi <-]. pose proof (deactivate_trans i s C Hi) as T.
      destruct (IH _ (itrans_counted _ _ T C)) as [T' H]. split; [by etransitivity|].
      intros j [Ha|[Hn Hj]]%H; [by left|].
      destruct (switched_inhibitors i false s C Hi j Hj) as [->|[Hne Ho]]; [by left|right].
      split; [by apply not_elem_of_cons|done].
    + destruct (IH s C) as [T H]. split; [done|]. intros j [Ha|[Hn Hj]]%H; [by left|right]. split; [|done].
      apply not_elem_of_cons. split; [|done]. intros Er. unfold find_inhibitor in E.
      pose proof (List.find_none _ _ E j (proj1 (list_elem_of_In _ _) Hj)) as Hx. cbn in Hx. lia.
Qed.

Lemma schedule_spec h armed s :
  idle_base L (mk_timed s h) ->
  let (ok, s') := qdwin_idle_inhibit_recheck_schedule armed s in
  idle_base L (mk_timed s' h) /\ idle_inhibitors s' = idle_inhibitors s
  /\ inhibit_disabled s' = inhibit_disabled s /\ (ok = true -> recheck_ok s').
Proof.
  intros [V1 [O1 O2 O3 O4] V3 [L1 L2 L3] V5]. unfold qdwin_idle_inhibit_recheck_schedule. cbn in *.
  destruct (negb (recheck_timer s)), armed; cbn;
    (split_and!; [constructor; cbn; try done|done|done|try done]); try by constructor.
  - by apply (notifs_ok_frame s).
  - constructor; [done| |done]. cbn. unfold QDWIN_IDLE_INHIBIT_RECHECK_MS. lia.
  - intros _ _ _. cbn. eexists. split; [done|]. unfold QDWIN_IDLE_INHIBIT_RECHECK_MS. lia.
Qed.

Lemma disable_inv h s :
  h + Z.of_nat (length (idle_inhibitors s)) <= UINT32_MAX -> idle_base L (mk_timed s h) ->
  idle_inv L (mk_timed (qdwin_idle_inhibitors_release_all (s <| inhibit_disabled := true |>)) h).
Proof.
  intros Hb V. pose proof (inv_counted h s V Hb) as C. destruct V as [O [O1 O2 O3 _] Ht [L1 L2 L3] Hm]. cbn in *.
  set (s1 := s <| inhibit_disabled := true |>).
  assert (C1 : counted s1) by (destruct C; by constructor).
  unfold qdwin_idle_inhibitors_release_all.
  destruct (release_all_spec (map ih_resource (idle_inhibitors s1)) s1 C1) as [T H]. cbv zeta in T, H.
  set (s2 := foldl _ s1 _) in *.
  assert (Hoff : forall j, j ∈ idle_inhibitors s2 -> ih_active j = false).
  { intros j Hj. destruct (H j Hj) as [?|[Hn Hin]]; [done|]. exfalso. apply Hn.
    by apply list_elem_of_In, in_map, list_elem_of_In. }
  pose proof T as [N E1 E2 E3 E4 E5 E6 E7 E8]. pose proof N as [N1 N2 N3 N4 N5 N6].
  change (idle_inv L (mk_timed s2 h)). clearbody s2. split; [constructor; cbn|].
  - apply (nsame_ok s1); [done|]. by apply (notifs_ok_frame s).
  - constructor; [by rewrite E1|done|by rewrite E2|intros _; exact Hoff].
  - by apply E7.
  - constructor; rewrite ?N1, ?E5, ?N5; auto. destruct E8 as [->| ->]; [done|by apply idle_deadline_within].
  - by rewrite N2, N3.
  - intros _. cbn. by rewrite E3.
Qed.

Lemma recheck_inv h armed s :
  h + Z.of_nat (length (idle_inhibitors s)) <= UINT32_MAX -> idle_base L (mk_timed s h) ->
  idle_inv L (mk_timed (qdwin_idle_inhibit_recheck armed s) h).
Proof.
  intros Hb V. unfold qdwin_idle_inhibit_recheck. set (l := map ih_resource (idle_inhibitors s)).
  pose proof (sync_all_base h l s Hb V) as V1.
  pose proof (proj1 (sync_all_spec l s (inv_counted h s V Hb))) as T.
  destruct (idle_inhibitors (sync_all l s)) eqn:E; [split; [done|]; intros Hne; cbn in Hne; congruence|].
  clear E. pose proof (schedule_spec h armed _ V1) as Hs.
  destruct (qdwin_idle_inhibit_recheck_schedule armed (sync_all l s)) as [ok s2].
  destruct Hs as (B & Ei & _ & Hok). destruct ok; [split; [done|by apply Hok]|].
  apply disable_inv; [|done]. rewrite Ei, (itrans_length _ _ T). done.
Qed.

Lemma emit_base h s : idle_base L (mk_timed s h) -> idle_base L (mk_timed (idle_emit ev_no_memory s) h).
Proof.
  intros [V1 V2 V3 V4 V5]. constructor; try done; cbn.
  - by apply (notifs_ok_frame s).
  - by destruct V2.
  - by destruct V4.
Qed.

Lemma destroy_last r s :
  map ih_resource (idle_inhibitors s) = [r] -> idle_inhibitors (qdwin_idle_inhibitor_resource_destroy r s) = [].
Proof.
  intros E. unfold qdwin_idle_inhibitor_resource_destroy.
  assert (H : forall s', map ih_resource (idle_inhibitors s') = [r] ->
            List.filter (fun i => negb (ih_resource i =? r)) (idle_inhibitors s') = []).
  { intros s' E'. destruct (idle_inhibitors s') as [|j [|]]; try done. injection E' as <-. cbn.
    by rewrite Z.eqb_refl. }
  destruct (find_inhibitor r s) as [i|] eqn:Ef.
  - cbn. apply H. rewrite <- E. unfold qdwin_idle_inhibitor_deactivate.
    repeat case_match; rewrite ?(proj1 (proj2 (proj2 (arm_spec _)))); try done;
      by apply (upd_inhibitor_maps (ih_resource i)).
  - unfold find_inhibitor in Ef. destruct (idle_inhibitors s) as [|i [|]]; try done. injection E as E.
    cbn in Ef. by rewrite E, Z.eqb_refl in Ef.
Qed.

Lemma create_inhibitor_inv h add alloc armed id surface s :
  h + Z.of_nat (length (idle_inhibitors s)) < UINT32_MAX ->
  forallb (fun i => negb (ih_resource i =? id)) (idle_inhibitors s) = true ->
  idle_inv L (mk_timed s h) ->
  idle_inv L (mk_timed (qdwin_idle_inhibit_create_inhibitor add alloc armed id surface s) h).
Proof.
  intros Hb Hf [V R]. unfold qdwin_idle_inhibit_create_inhibitor.
  assert (He : exists ok s0, qdwin_idle_inhibit_recheck_ensure add s = (ok, s0)
            /\ idle_inv L (mk_timed s0 h) /\ idle_inhibitors s0 = idle_inhibitors s
            /\ (ok = true -> inhibit_disabled s0 = false)).
  { unfold qdwin_idle_inhibit_recheck_ensure. destruct V as [V1 [O1 O2 O3 O4] V3 [L1 L2 L3] V5].
    destruct (inhibit_disabled s) eqn:Ed, (recheck_timer s), add;
      (eexists _, _; split_and!; [reflexivity|split; [constructor; cbn; try done|done]|done|done]);
      first [by apply (notifs_ok_frame s)|by constructor]. }
  destruct He as (ok & s0 & -> & [V0 R0] & Ei & Hd). destruct ok; cbn [negb].
  2: { split; [by apply emit_base|done]. }
  destruct alloc; cbn [negb].
  2: { split; [by apply emit_base|done]. }
  set (s1 := s0 <| idle_inhibitors ::= cons (mk_idle_inhibitor id surface false) |>).
  assert (V1 : idle_base L (mk_timed s1 h)).
  { destruct V0 as [W1 [O1 O2 O3 O4] W3 [L1 L2 L3] W5]. cbn in *. constructor; cbn; try done.
    - by apply (notifs_ok_frame s0).
    - constructor; cbn; try done.
      + constructor; [|done]. intros (m & Hm & Hin)%list_elem_of_In%in_map_iff. rewrite Ei in Hin.
        rewrite forallb_forall in Hf. specialize (Hf m Hin). rewrite Hm, Z.eqb_refl in Hf. done.
      + intros Hdis j [->|Hj]%elem_of_cons; [done|by apply O4]. }
  assert (Hb1 : h + Z.of_nat (length (idle_inhibitors s1)) <= UINT32_MAX) by (cbn; rewrite Ei; lia).
  pose proof (sync_all_base h [id] s1 Hb1 V1) as V2. pose proof (sync_trans id s1 (inv_counted h s1 V1 Hb1)) as T.
  change (sync_all [id] s1) with (qdwin_idle_inhibitor_sync id s1) in V2.
  destruct (idle_inhibitors s0) as [|i0 l0] eqn:El; cbn [negb].
  - pose proof (schedule_spec h armed _ V2) as Hs.
    destruct (qdwin_idle_inhibit_recheck_schedule armed _) as [ok s3]. destruct Hs as (B & Es & _ & Hok).
    destruct ok; [split; [done|by apply Hok]|]. split.
    + apply emit_base, resource_destroy_base; [|done]. rewrite Es, (itrans_length _ _ T). exact Hb1.
    + intros Hne. exfalso. apply Hne. cbn. apply (destroy_last id s3). rewrite Es, (it_resource _ _ T). cbn.
      by rewrite El.
  - split; [done|]. apply (itrans_recheck s1); [done|]. intros _ Hdis. cbn in *. apply R0; [by rewrite El|done].
Qed.
End Inhibit.


(** *** The steps *)

Section Steps.
Context (L : Z) (HL : 0 <= L).

Lemma hsame_inv h s s' :
  hsame s s' -> notifs_ok s' -> idle_timer_ok s' -> late_ok L s' ->
  idle_inv L (mk_timed s h) -> idle_inv L (mk_timed s' h).
Proof.
  intros H N T Lt [[V1 V2 V3 V4 V5] R]. split; [constructor; cbn; try done|].
  - by apply (hsame_inh h s).
  - by apply (hsame_mode s).
  - by apply (hsame_recheck s).
Qed.

Lemma wake_inv h s : idle_inv L (mk_timed s h) -> idle_inv L (mk_timed (weston_compositor_wake s) h).
Proof.
  intros V. pose proof V as [[V1 V2 V3 V4 V5] R]. apply (hsame_inv h s); [apply wake_hsame|by apply wake_ok| | |done].
  - apply wake_timer.
  - by apply wake_late.
Qed.

Lemma noting_inv b h s : idle_inv L (mk_timed s h) -> idle_inv L (mk_timed (noting b s) h).
Proof.
  intros V. destruct b; [|done]. pose proof V as [[V1 V2 V3 V4 V5] R]. cbn.
  destruct (note_hsame s) as (H & Hc & Hs). apply (hsame_inv h s); [done|by apply note_ok| |by apply note_late|done].
  apply (hsame_timer s); [done|by rewrite Hc|done|done].
Qed.

(** The count of the keys and buttons changes with them. *)
Lemma count_inv h d s :
  0 <= h + d -> (idle_inhibit s + d = 0 -> idle_timer_ok (s <| idle_inhibit := 0 |>)) ->
  idle_inv L (mk_timed s h) -> idle_inv L (mk_timed (s <| idle_inhibit := idle_inhibit s + d |>) (h + d)).
Proof.
  intros Hd Ht [[V1 [O1 O2 O3 O4] V3 [L1 L2 L3] V5] R]. split; [constructor; cbn; try done|done].
  - by apply (notifs_ok_frame s).
  - constructor; cbn in *; try done. unfold outside, active in *. cbn. lia.
  - intros Hp Ha Hz. cbn in Hz. by apply Ht.
Qed.

Lemma press_inv h s :
  h + Z.of_nat (length (idle_inhibitors s)) < UINT32_MAX -> idle_inv L (mk_timed s h) ->
  idle_inv L (mk_timed (weston_compositor_idle_inhibit s) (h + 1)).
Proof.
  intros Hb V. pose proof V as [[_ [O1 O2 O3 O4] _ _ _] _]. cbn in *.
  destruct (wake_hsame s) as (H & _ & _). pose proof (hs_inhibit _ _ H) as Ei. pose proof (active_bound s).
  pose proof (wake_inv h s V) as W. unfold weston_compositor_idle_inhibit.
  assert (E : u32 (idle_inhibit (weston_compositor_wake s) + 1) = idle_inhibit (weston_compositor_wake s) + 1)
    by (rewrite Ei; apply u32_small; unfold outside in O3; ranges; lia).
  replace ((weston_compositor_wake s) <| idle_inhibit ::= fun x => u32 (x + 1) |>)
    with ((weston_compositor_wake s) <| idle_inhibit := idle_inhibit (weston_compositor_wake s) + 1 |>)
    by (unfold upd_field; cbv beta; by rewrite E).
  apply count_inv; [lia| |done]. rewrite Ei. unfold outside in O3. intros Hz. lia.
Qed.

Lemma release_inv h s :
  0 < h -> h + Z.of_nat (length (idle_inhibitors s)) < UINT32_MAX -> idle_inv L (mk_timed s h) ->
  idle_inv L (mk_timed (weston_compositor_idle_release s) (h - 1)).
Proof.
  intros Hh Hb V. pose proof V as [[V1 [O1 O2 O3 O4] V3 [L1 L2 L3] V5] R]. cbn in *. pose proof (active_bound s).
  unfold weston_compositor_idle_release. set (s1 := s <| idle_inhibit ::= _ |>).
  assert (E : idle_inhibit s1 = idle_inhibit s - 1)
    by (cbn; apply u32_small; unfold outside in O3; ranges; lia).
  destruct (wake_hsame s1) as (H1 & _ & _). split; [constructor; cbn [ts held]|].
  - apply wake_ok. by apply (notifs_ok_frame s).
  - apply (hsame_inh _ s1); [done|]. constructor; try done; [lia|]. unfold outside, active in *. rewrite E. cbn. lia.
  - apply wake_timer.
  - apply wake_late; [done|]. by constructor.
  - apply (hsame_mode s1); [done|]. exact V5.
  - by apply (hsame_recheck s1).
Qed.

Lemma notify_inv h alloc timer id timeout ignore s :
  forallb (fun n => negb (in_resource n =? id)) (idle_notifications s) = true ->
  forallb (fun e => negb (about id e)) (idle_events s) = true -> 0 <= timeout <= UINT32_MAX ->
  idle_inv L (mk_timed s h) ->
  idle_inv L (mk_timed (qdwin_idle_notification_create alloc timer id timeout ignore s) h).
Proof.
  intros H1 H2 Ht V. pose proof V as [[V1 V2 V3 [L1 L2 L3] V5] R].
  apply (hsame_inv h s); [|by apply create_ok| | |done];
    unfold qdwin_idle_notification_create; destruct alloc; cbn [negb]; try done.
  constructor; [done|done|]. cbn. constructor; [|done]. case_match; [by apply rearm_within|done].
Qed.

Lemma fire_notification_inv h r n s :
  find_notification r s = Some n -> idle_inv L (mk_timed s h) ->
  idle_inv L (mk_timed (qdwin_idle_notification_timer_fire (n <| in_deadline := None |>)
                          (upd_notification r (fun n => n <| in_deadline := None |>) s)) h).
Proof.
  intros [Hn <-]%find_notification_spec V. pose proof V as [[V1 V2 V3 [L1 L2 L3] V5] R]. cbn in *.
  pose proof (fire_ok s n V1 Hn) as V1'. destruct (fire_spec s n V1 Hn) as (E1 & E2 & H & E3 & E4).
  set (s' := qdwin_idle_notification_timer_fire _ _) in *. clearbody s'.
  apply (hsame_inv h s); [done|done| | |done].
  - apply (hsame_timer s); [done| |done|done]. intros Ha. destruct E4 as [<-|[E4 _]]; congruence.
  - constructor; [by rewrite E3, (hs_clock _ _ H)|by rewrite (hs_deadline _ _ H), (hs_clock _ _ H)|].
    rewrite E1, (hs_clock _ _ H). unfold upd_notification. cbn.
    apply Forall_map, Forall_forall. intros m Hm. rewrite Forall_forall in L3.
    case_match; [by apply fired_within|by apply L3].
Qed.

Lemma fire_idle_inv h s : idle_inv L (mk_timed s h) -> idle_inv L (mk_timed (idle_handler (s <| idle_source := None |>)) h).
Proof.
  intros V. pose proof V as [[V1 [O1 O2 O3 O4] V3 [L1 L2 L3] V5] R]. cbn in *.
  unfold idle_handler. cbn. destruct (Z.eqb_spec (idle_inhibit s) 0) as [Ez|Ez]; cbn [negb].
  - set (s1 := s <| idle_source := None |> <| cstate := COMPOSITOR_IDLE |>).
    destruct (on_idle_hsame s1) as (H & Hc & Hs). apply (hsame_inv h s).
    + by etransitivity; [|exact H].
    + apply on_idle_ok. by apply (notifs_ok_frame s).
    + apply (hsame_timer s1); [done|by rewrite Hc|done|]. intros _ Ha. done.
    + apply on_idle_late; [done|]. by constructor.
    + done.
  - apply (hsame_inv h s); [done|by apply (notifs_ok_frame s)| |by constructor|done].
    intros _ _ Hz. cbn in Hz. done.
Qed.

Lemma tick_inv h d s :
  0 <= d -> clock s + d < 18446744073709551616 ->
  forallb (fun dl => clock s + d <=? dl + L) (deadlines s) = true ->
  idle_inv L (mk_timed s h) -> idle_inv L (mk_timed (s <| clock ::= Z.add d |>) h).
Proof.
  intros Hd Hc Hl [[V1 [O1 O2 O3 O4] V3 [L1 L2 L3] V5] R]. cbn in *.
  assert (Hw : forall o, o ∈ idle_source s :: recheck_deadline s :: map in_deadline (idle_notifications s) ->
             within L (d + clock s) o).
  { intros [x|] Ho; [|done]. cbn. rewrite forallb_forall in Hl.
    assert (In x (deadlines s)) as Hx.
    { apply list_elem_of_In. unfold deadlines. apply list_elem_of_omap. by exists (Some x). }
    apply Hl in Hx. lia. }
  split; [constructor; cbn; try done|].
  - by apply tick_ok.
  - intros Ht Ha Hz. destruct (V3 Ht Ha Hz) as (x & Hx & Hle). exists x. cbn in *. split; [done|lia].
  - constructor; cbn; [apply Hw; by left|apply Hw; by right; left|].
    apply Forall_forall. intros n Hn. apply Hw. do 2 right. by apply list_elem_of_In, in_map, list_elem_of_In.
  - intros Hne Hdis. destruct (R Hne Hdis) as (x & Hx & Hle). exists x. cbn in *. split; [done|lia].
Qed.

Lemma status_inv h x st s : idle_inv L (mk_timed s h) -> idle_inv L (mk_timed (set_status x st s) h).
Proof.
  intros [[V1 [O1 O2 O3 O4] V3 [L1 L2 L3] V5] R]. split; [constructor; cbn; try done|done].
  by apply (notifs_ok_frame s).
Qed.

Lemma off_inv h s st :
  st ≠ COMPOSITOR_ACTIVE -> idle_inv L (mk_timed s h) ->
  idle_inv L (mk_timed (s <| cstate := st |> <| idle_source := None |>) h).
Proof.
  intros Hst V. pose proof V as [[V1 V2 V3 [L1 L2 L3] V5] R].
  apply (hsame_inv h s); [done|by apply (notifs_ok_frame s)| |by constructor|done].
  intros _ Ha. cbn in Ha. done.
Qed.

Lemma surface_inv h l x st s :
  h + Z.of_nat (length (idle_inhibitors s)) < UINT32_MAX -> idle_inv L (mk_timed s h) ->
  idle_inv L (mk_timed (sync_all l (set_status x st s)) h).
Proof.
  intros Hb V. apply (status_inv h x st) in V as [V R].
  assert (Hb' : h + Z.of_nat (length (idle_inhibitors (set_status x st s))) <= UINT32_MAX) by (cbn; lia).
  split; [by apply sync_all_base|]. eapply itrans_recheck; [|exact R].
  apply sync_all_spec. eapply inv_counted; [exact V|done].
Qed.

Lemma step_inv l t : idle_inv L t -> allowed L l t = true -> idle_inv L (idle_step l t).
Proof.
  destruct t as [s h]. intros V [Hb%Z.ltb_lt A]%andb_true_iff. cbn in Hb, A. pose proof V as [B R].
  destruct l as [o|d| |r|armed]; cbn [idle_step ts held].
  - destruct o; cbn [idle_exec].
    + apply andb_true_iff in A as [A A4]. apply andb_true_iff in A as [A A3]. apply andb_true_iff in A as [A1 A2].
      apply notify_inv; [done|done|lia|done].
    + destruct B as [V1 V2 V3 [L1 L2 L3] V5]. apply (hsame_inv h s); [done|by apply destroy_ok|done| |done].
      constructor; [done|done|]. cbn. apply Forall_forall. intros n Hn.
      apply list_elem_of_In, filter_In in Hn as [Hn _]. rewrite Forall_forall in L3. by apply L3, list_elem_of_In.
    + by apply noting_inv, wake_inv.
    + by apply noting_inv, press_inv.
    + apply noting_inv, release_inv; [lia|done|done].
    + unfold weston_compositor_sleep. case_bool_decide; [done|]. by apply (off_inv h s COMPOSITOR_SLEEPING).
    + unfold weston_compositor_offscreen. case_bool_decide; [done|]. by apply (off_inv h s COMPOSITOR_OFFSCREEN).
    + by apply create_inhibitor_inv.
    + split; [apply resource_destroy_base; [done|lia|done]|].
      intros Hne. cbn in *. unfold qdwin_idle_inhibitor_resource_destroy in *.
      destruct (find_inhibitor r s) as [i|] eqn:E; [|by apply R].
      apply find_inhibitor_spec in E as [Hi _].
      pose proof (deactivate_trans i s (inv_counted L h s B ltac:(lia)) Hi) as T.
      apply (itrans_recheck s _ T R). intros E. apply Hne. cbn. by rewrite E.
    + by apply status_inv.
    + by apply surface_inv.
    + by apply surface_inv.
    + destruct (gone_base L HL h (listeners x s) s ltac:(lia) B) as [B' T]. split; [exact B'|].
      by apply (itrans_recheck s).
  - apply andb_true_iff in A as [A A3]. apply andb_true_iff in A as [A1 A2]. apply tick_inv; [lia|lia|done|done].
  - by apply fire_idle_inv.
  - cbn in A. destruct (find_notification r s) as [n|] eqn:E; [|done]. by apply fire_notification_inv.
  - apply recheck_inv; [done|cbn; lia|]. destruct B as [V1 [O1 O2 O3 O4] V3 [L1 L2 L3] V5].
    constructor; cbn; try done. by apply (notifs_ok_frame s).
Qed.

Lemma init_inv now secs : 0 <= now < 18446744073709551616 -> idle_inv L (timed_init now secs).
Proof.
  intros Hn. unfold timed_init, idle_init. set (s := mk_idle_state _ _ _ _ _ _ _ _ _ _ _ _ _).
  destruct (wake_hsame s) as (H & _ & _). split; [constructor; cbn [ts held]|].
  - apply wake_ok. constructor; [done|constructor|constructor].
  - apply (hsame_inh 0 s); [done|]. constructor; cbn; try done. constructor.
  - apply wake_timer.
  - apply wake_late; [done|]. constructor; [done|done|constructor].
  - by apply (hsame_mode s).
  - apply (hsame_recheck s); [done|]. intros Hne. by destruct Hne.
Qed.

Lemma run_inv ls t t' : idle_run L ls t t' -> idle_inv L t -> idle_inv L t'.
Proof. apply (run_invariant L (idle_inv L)). intros l u. apply step_inv. Qed.
End Steps.
