(* ===== verification/IdleTheorems.v ===== *)
(** * IdleTheorems: the idle component's guarantees

    The properties of timed runs that follow from the invariant of
    [IdleFacts]: exact counting and alternation, neither early nor late
    notifications, the release of stale holds, and the idling of the session. *)

From stdpp Require Import base list strings option.
From S2P Require Import Prelude Logic Idle IdleFacts.
Import Policy.
From stdpp Require Import list.

#[local] Open Scope Z_scope.

(** A property of every state of a run. *)
Fixpoint run_all (P : idle_state -> Prop) (ls : list idle_label) (t : timed) : Prop :=
  P (ts t) /\ match ls with [] => True | l :: ls => run_all P ls (idle_step l t) end.

Lemma run_all_head P ls t : run_all P ls t -> P (ts t).
Proof. by destruct ls; intros [? _]. Qed.

(** An invariant of a segment whose states satisfy [P] and whose labels satisfy
    [f]. *)
Lemma segment L (P : idle_state -> Prop) (f : idle_label -> bool) (Q : timed -> Prop) :
  (forall l t, f l = true -> allowed L l t = true -> P (ts t) -> P (ts (idle_step l t)) -> Q t -> Q (idle_step l t)) ->
  forall ls t t', idle_run L ls t t' -> forallb f ls = true -> run_all P ls t -> Q t -> Q t'.
Proof.
  intros Hs ls t t' R. induction R as [t|l ls t t' A R IH]; intros Hf Hp HQ; [done|].
  cbn in Hf, Hp. apply andb_true_iff in Hf as [Hf Hfs]. destruct Hp as [Hp Hps].
  apply IH; [done|done|]. apply (Hs l t Hf A Hp (run_all_head _ _ _ Hps) HQ).
Qed.

(** The bookkeeping of idleness is exact in every run.  libweston's
    inhibition count is the number of keys and buttons held down plus the
    number of active inhibitors, so that none is counted twice or left behind;
    once the backstop timer could not be set again no inhibitor is active ever
    after; and every notification has been sent idled and resumed in strict
    alternation, the last of which its state reflects. *)
Theorem idle_bookkeeping (L now secs : Z) (ls : list idle_label) (t : timed)
    (HL : 0 <= L) (Hnow : 0 <= now < 18446744073709551616) (R : idle_run L ls (timed_init now secs) t) :
  let s := ts t in
  idle_inhibit s = held t + Z.of_nat (length (List.filter ih_active (idle_inhibitors s)))
  /\ (inhibit_disabled s = true -> forall i, i ∈ idle_inhibitors s -> ih_active i = false)
  /\ (forall n, n ∈ idle_notifications s -> alternates (history (in_resource n) s) (in_idle n)).
Proof.
  cbv zeta. pose proof (run_inv L HL _ _ _ R (init_inv L HL now secs Hnow)) as [[[_ _ N] [_ _ O D] _ _ _] _].
  split_and!; [unfold outside, active in O; lia|done|].
  intros n Hn. rewrite Forall_forall in N. apply (no_history _ _ (N n Hn)).
Qed.

(** A player inhibits; the user goes away, the session idles, comes back. *)
Definition ex_shown : surface_status := mk_surface_status true true true.
Definition ex_labels : list idle_label :=
  [l_do (i_notify true true 1 5000 false); l_do (i_mapped 7 ex_shown);
   l_do (i_inhibit true true true 2 (Some 7)); l_do (i_press true); l_do (i_release true); l_tick 1000;
   l_fire_recheck true; l_do (i_uninhibit 2); l_tick 1000; l_fire_recheck true; l_tick 3000;
   l_fire_notification 1; l_do (i_motion true)].
Definition ex_start : timed := timed_init 100 0.
Definition ex_end : timed := default ex_start (idle_exec_run 5 ex_labels ex_start).

Lemma idle_bookkeeping_witness :
  idle_events (ts ex_end) = [ev_resumed 1; ev_dpms_on; ev_idled 1]
  /\ forall n, n ∈ idle_notifications (ts ex_end) ->
       alternates (history (in_resource n) (ts ex_end)) (in_idle n).
Proof.
  split; [vm_compute; reflexivity|].
  refine (proj2 (proj2 (idle_bookkeeping 5 100 0 ex_labels ex_end _ _ _))); [lia|lia|].
  apply exec_run. vm_compute. reflexivity.
Defined.


(** ** What leaves the notifications alone *)

(** How often a notification has been told that it is idle. *)
Definition idled_count (r : Z) (s : idle_state) : nat :=
  length (List.filter (fun e => bool_decide (e = ev_idled r)) (idle_events s)).

Record keeps (s s' : idle_state) : Prop := {
  k_notifications : idle_notifications s' = idle_notifications s;
  k_clock : clock s' = clock s;
  k_mode : idle_internal_mode s' = idle_internal_mode s;
  k_idled : forall r, idled_count r s' = idled_count r s
}.
#[global] Instance keeps_preorder : PreOrder keeps.
Proof. split; [by constructor|]. intros a b c [] []. constructor; intros; etransitivity; eauto. Qed.

Lemma keeps_activate i s : keeps s (qdwin_idle_inhibitor_activate i s).
Proof. unfold qdwin_idle_inhibitor_activate. by case_match. Qed.
Lemma keeps_deactivate i s : keeps s (qdwin_idle_inhibitor_deactivate i s).
Proof. unfold qdwin_idle_inhibitor_deactivate, arm_idle_source. by repeat case_match. Qed.
Lemma keeps_sync r s : keeps s (qdwin_idle_inhibitor_sync r s).
Proof.
  unfold qdwin_idle_inhibitor_sync.
  repeat case_match; first [reflexivity|apply keeps_activate|apply keeps_deactivate].
Qed.
Lemma keeps_fold {A} (f : idle_state -> A -> idle_state) l s :
  (forall s a, keeps s (f s a)) -> keeps s (foldl f s l).
Proof. intros Hf. revert s. induction l as [|a l IH]; intros s; [reflexivity|]. etransitivity; [apply Hf|apply IH]. Qed.
Lemma keeps_sync_all l s : keeps s (sync_all l s).
Proof. apply keeps_fold. intros u r. apply keeps_sync. Qed.
Lemma keeps_destroy r s : keeps s (qdwin_idle_inhibitor_resource_destroy r s).
Proof.
  unfold qdwin_idle_inhibitor_resource_destroy. case_match; [|reflexivity].
  etransitivity; [apply keeps_deactivate|done].
Qed.
Lemma keeps_schedule armed s : keeps s (snd (qdwin_idle_inhibit_recheck_schedule armed s)).
Proof. unfold qdwin_idle_inhibit_recheck_schedule. by repeat case_match. Qed.
Lemma keeps_release_all s : keeps s (qdwin_idle_inhibitors_release_all s).
Proof. apply keeps_fold. intros u r. case_match; [apply keeps_deactivate|reflexivity]. Qed.

Lemma keeps_recheck armed s : keeps s (qdwin_idle_inhibit_recheck armed s).
Proof.
  unfold qdwin_idle_inhibit_recheck. set (s1 := sync_all _ s).
  assert (K : keeps s s1) by apply keeps_sync_all. destruct (idle_inhibitors s1); [done|].
  pose proof (keeps_schedule armed s1) as K2. destruct (qdwin_idle_inhibit_recheck_schedule armed s1) as [ok s2].
  cbn in K2. destruct ok; [by etransitivity|]. etransitivity; [exact K|]. etransitivity; [exact K2|].
  etransitivity; [|apply keeps_release_all]. done.
Qed.

Lemma keeps_no_memory s : keeps s (idle_emit ev_no_memory s).
Proof. done. Qed.

Lemma keeps_create_inhibitor add alloc armed id surface s :
  keeps s (qdwin_idle_inhibit_create_inhibitor add alloc armed id surface s).
Proof.
  unfold qdwin_idle_inhibit_create_inhibitor.
  assert (K : keeps s (snd (qdwin_idle_inhibit_recheck_ensure add s)))
    by (unfold qdwin_idle_inhibit_recheck_ensure; by repeat case_match).
  destruct (qdwin_idle_inhibit_recheck_ensure add s) as [ok s0]. cbn in K.
  etransitivity; [exact K|]. destruct ok, alloc; cbn [negb]; try apply keeps_no_memory.
  set (s1 := s0 <| idle_inhibitors ::= cons (mk_idle_inhibitor id surface false) |>).
  assert (K1 : keeps s0 (qdwin_idle_inhibitor_sync id s1)) by (etransitivity; [|apply keeps_sync]; done).
  destruct (negb _); [done|]. etransitivity; [exact K1|].
  pose proof (keeps_schedule armed (qdwin_idle_inhibitor_sync id s1)) as K2.
  destruct (qdwin_idle_inhibit_recheck_schedule armed _) as [ok s2]. cbn in K2.
  destruct ok; [done|]. etransitivity; [exact K2|]. etransitivity; [apply keeps_destroy|apply keeps_no_memory].
Qed.

Lemma keeps_gone l s :
  keeps s (foldl (fun s r => qdwin_idle_inhibitor_sync r
                    (upd_inhibitor r (fun i => i <| ih_surface := None |>) s)) s l).
Proof. apply keeps_fold. intros u r. etransitivity; [|apply keeps_sync]. done. Qed.

Lemma keeps_fire_idle s :
  idle_internal_mode s = true -> keeps s (idle_handler (s <| idle_source := None |>)).
Proof.
  intros Hi. unfold idle_handler, qdwin_on_idle_signal. cbn. rewrite Hi. by case_match.
Qed.

(** In internal mode the timer of a notification, user activity and the
    notification's own requests are all that touches it. *)
Definition touches (l : idle_label) : bool :=
  match l with
  | l_do (i_notify _ _ _ _ _) | l_do (i_unnotify _) | l_do (i_motion _) | l_do (i_press _) | l_do (i_release _)
  | l_fire_notification _ | l_tick _ => true
  | _ => false
  end.

Lemma keeps_step l t :
  idle_internal_mode (ts t) = true -> touches l = false -> keeps (ts t) (ts (idle_step l t)).
Proof.
  intros Hi Hl. destruct l as [o|d| |r|armed]; try done; cbn.
  - destruct o; try done; cbn.
    + unfold weston_compositor_sleep. by case_match.
    + unfold weston_compositor_offscreen. by case_match.
    + apply keeps_create_inhibitor.
    + apply keeps_destroy.
    + etransitivity; [|apply keeps_sync_all]. done.
    + etransitivity; [|apply keeps_sync_all]. done.
    + apply keeps_gone.
  - by apply keeps_fire_idle.
  - etransitivity; [|apply keeps_recheck]. done.
Qed.

(** ** A notification fires in time *)

Definition quiet (r : Z) (l : idle_label) : bool :=
  match l with
  | l_do (i_motion _) | l_do (i_press _) | l_do (i_release _) => false
  | l_do (i_unnotify x) => negb (x =? r)
  | _ => true
  end.

(** The notification [m] is [n] without activity since, idle or about to be. *)
Record pending (n : idle_notification) (D : Z) (m : idle_notification) : Prop := {
  p_resource : in_resource m = in_resource n;
  p_timeout : in_timeout m = in_timeout n;
  p_timer : in_timer m = in_timer n;
  p_ignore : in_ignore m = in_ignore n;
  p_last : in_last m = in_last n;
  p_due : in_idle m = true \/ exists d, in_deadline m = Some d /\ d <= D
}.

Lemma fired_pending n D s m :
  clock_ok s -> 0 <= in_last n <= clock s -> in_timer n = true -> 0 < in_timeout n <= INT32_MAX ->
  idle_internal_mode s = true -> in_ignore n = true \/ idle_inhibit s = 0 ->
  in_last n + in_timeout n <= D -> pending n D m -> pending n D (fst (fired s m)).
Proof.
  intros [_ C] Hl Ht Hto Hi Hinh HD [P1 P2 P3 P4 P5 P6].
  unfold fired. destruct (in_idle m) eqn:Em; [constructor; cbn; auto|].
  rewrite Hi, P2, P3, P4, P5, Ht. destruct (Z.ltb_spec 0 (in_timeout n)); [|lia]. cbn [andb].
  rewrite u64_small by lia. destruct (Z.ltb_spec (clock s - in_last n) (in_timeout n)) as [Hlt|Hge].
  - constructor; cbn; auto. right. rewrite next_delay_rest by (rewrite ?P2, ?P5; lia).
    rewrite P2, P5. unfold timer_update. destruct (Z.ltb_spec 0 (in_last n + in_timeout n - clock s)); [|lia].
    eexists. split; [done|lia].
  - assert (E : negb (in_ignore n) && (0 <? idle_inhibit s) = false)
      by (destruct Hinh as [->| ->]; [done|by rewrite andb_false_r]).
    rewrite E. constructor; cbn; auto.
Qed.

Lemma pending_step L n D l t :
  0 <= L -> quiet (in_resource n) l = true -> allowed L l t = true ->
  in_timer n = true -> 0 < in_timeout n <= INT32_MAX -> in_last n + in_timeout n <= D ->
  idle_inv L t -> idle_internal_mode (ts t) = true -> in_ignore n = true \/ idle_inhibit (ts t) = 0 ->
  (exists m, m ∈ idle_notifications (ts t) /\ pending n D m) ->
  exists m, m ∈ idle_notifications (ts (idle_step l t)) /\ pending n D m.
Proof.
  intros HL Hq A Ht Hto HD [V _] Hi Hinh (m & Hm & Pm). destruct V as [V1 _ _ _ _].
  destruct (touches l) eqn:El.
  2: { exists m. by rewrite (k_notifications _ _ (keeps_step l t Hi El)). }
  destruct l as [o|d| |x|armed]; try done; cbn in *.
  - destruct o; try done; cbn.
    + exists m. split; [|done]. unfold qdwin_idle_notification_create. case_match; [done|]. by right.
    + exists m. split; [|done]. apply list_elem_of_In, filter_In. split; [by apply list_elem_of_In|].
      rewrite (p_resource _ _ _ Pm). cbn in Hq. rewrite Z.eqb_sym. done.
  - by exists m.
  - destruct (find_notification x (ts t)) as [k|] eqn:E; [|by exists m].
    apply find_notification_spec in E as [Hk <-]. destruct (fire_spec _ k V1 Hk) as (E1 & _).
    exists (if in_resource m =? in_resource k then fst (fired (ts t) m) else m).
    assert (Hmk : in_resource m = in_resource k -> m = k) by (intros; by apply (notif_unique (ts t))).
    split.
    + rewrite E1. unfold upd_notification. cbn. apply list_elem_of_In, in_map_iff. exists m.
      split; [|by apply list_elem_of_In]. destruct (Z.eqb_spec (in_resource m) (in_resource k)) as [Er|]; [|done].
      by rewrite (Hmk Er).
    + case_match; [|done]. pose proof V1 as [C _ F]. rewrite Forall_forall in F.
      pose proof (no_last _ _ (F m Hm)) as Hl. rewrite (p_last _ _ _ Pm) in Hl. by apply fired_pending.
Qed.

Lemma noting_mode b s : idle_internal_mode (noting b s) = idle_internal_mode s.
Proof. destruct b; [|done]. apply (hs_mode _ _ (proj1 (note_hsame s))). Qed.

Lemma step_mode l t : idle_internal_mode (ts (idle_step l t)) = idle_internal_mode (ts t).
Proof.
  destruct l as [o|d| |x|armed]; cbn; try done.
  - destruct o; cbn; try done.
    + unfold qdwin_idle_notification_create. by case_match.
    + etransitivity; [apply (noting_mode noted)|apply (hs_mode _ _ (proj1 (wake_hsame _)))].
    + etransitivity; [apply (noting_mode noted)|]. exact (hs_mode _ _ (proj1 (wake_hsame _))).
    + etransitivity; [apply (noting_mode noted)|]. exact (hs_mode _ _ (proj1 (wake_hsame _))).
    + unfold weston_compositor_sleep. by case_match.
    + unfold weston_compositor_offscreen. by case_match.
    + apply keeps_create_inhibitor.
    + apply keeps_destroy.
    + exact (k_mode _ _ (keeps_sync_all _ (set_status x st (ts t)))).
    + exact (k_mode _ _ (keeps_sync_all _ (set_status x st (ts t)))).
    + apply keeps_gone.
  - unfold idle_handler. case_match; [done|]. by rewrite (hs_mode _ _ (proj1 (on_idle_hsame _))).
  - destruct (find_notification x (ts t)); [|done]. unfold qdwin_idle_notification_timer_fire.
    repeat case_match; try done. cbn. unfold qdwin_on_idle_signal. by case_match.
  - exact (k_mode _ _ (keeps_recheck armed ((ts t) <| recheck_deadline := None |>))).
Qed.

Lemma alternates_idle r s :
  alternates (history r s) true -> head (history r s) = Some (ev_idled r).
Proof.
  intros H. destruct (history r s) as [|e h] eqn:E; [done|].
  assert (Ha : about r e = true).
  { assert (In e (history r s)) as Hin by (rewrite E; by left). by apply filter_In in Hin as [_ ?]. }
  destruct e; cbn in *; try done; [|by destruct H]. f_equal. f_equal. lia.
Qed.

(** A notification arrives in time.  In the mode in which the plugin keeps
    the idle time itself, take any reachable state and a live notification with
    a timer and a timeout of at most [INT32_MAX] milliseconds.  If from there on
    the user does nothing and nothing inhibits idleness (or the notification
    ignores inhibitors), the notification is idle, and idled is the last it was
    sent, as soon as the clock is past the end of its timeout and past the next
    poll, one second away at most, plus the lateness [L] of the event loop;
    whatever else clients create, destroy, map or inhibit in the meantime. *)
Theorem idle_on_time (L now : Z) (before ls : list idle_label) (t t' : timed) (n : idle_notification)
    (HL : 0 <= L) (Hnow : 0 <= now < 18446744073709551616)
    (R : idle_run L before (timed_init now 0) t)
    (Hn : n ∈ idle_notifications (ts t)) (Htimer : in_timer n = true)
    (Hto : 0 < in_timeout n <= INT32_MAX)
    (R' : idle_run L ls t t') (Hquiet : forallb (quiet (in_resource n)) ls = true)
    (Hfree : run_all (fun s => in_ignore n = true \/ idle_inhibit s = 0) ls t)
    (Hlate : Z.max (in_last n + in_timeout n) (clock (ts t) + QDWIN_IDLE_INTERNAL_INHIBIT_POLL_MS) + L
             < clock (ts t')) :
  exists n', n' ∈ idle_notifications (ts t') /\ in_resource n' = in_resource n /\ in_idle n' = true
             /\ head (history (in_resource n) (ts t')) = Some (ev_idled (in_resource n)).
Proof.
  set (D := Z.max _ _) in Hlate. pose proof (run_inv L HL _ _ _ R (init_inv L HL now 0 Hnow)) as V.
  assert (Hi : idle_internal_mode (ts t) = true).
  { clear - R. assert (H : forall a b ls, idle_run L ls a b -> idle_internal_mode (ts b) = idle_internal_mode (ts a)).
    { intros a b ls. induction 1 as [|? ? ? ? ? ? IH]; [done|]. by rewrite IH, step_mode. }
    by rewrite (H _ _ _ R). }
  assert (HD : in_last n + in_timeout n <= D) by (unfold D; lia).
  assert (Q : idle_inv L t' /\ idle_internal_mode (ts t') = true
              /\ exists m, m ∈ idle_notifications (ts t') /\ pending n D m).
  { refine (segment L _ _ (fun u => idle_inv L u /\ idle_internal_mode (ts u) = true
             /\ exists m, m ∈ idle_notifications (ts u) /\ pending n D m) _ ls t t' R' Hquiet Hfree _).
    - intros l u Hq A Hp _ (W & Wi & Wm). split_and!; [by apply step_inv|by rewrite step_mode|].
      by apply (pending_step L).
    - split_and!; [done|done|]. exists n. split; [done|]. constructor; auto.
      destruct V as [[[_ _ F] _ _ _ _] _]. rewrite Forall_forall in F.
      destruct (in_idle n) eqn:En; [by left|right]. by apply (no_armed _ _ (F n Hn) Hi). }
  destruct Q as ([[[C N F] _ _ [_ _ Lt] _] _] & Hi' & m & Hm & [P1 P2 P3 P4 P5 P6]).
  rewrite Forall_forall in F, Lt. exists m.
  assert (Hm' : in_idle m = true).
  { destruct P6 as [?|(d & Hd & Hle)]; [done|]. specialize (Lt m Hm). rewrite Hd in Lt. cbn in Lt. lia. }
  split_and!; [done|done|done|]. rewrite <- P1. apply alternates_idle. rewrite <- Hm'.
  apply (no_history _ _ (F m Hm)).
Qed.

Definition ex_before : list idle_label :=
  [l_do (i_notify true true 1 5000 false); l_do (i_press true); l_do (i_release true)].
Definition ex_quiet : list idle_label := [l_tick 5000; l_fire_notification 1; l_tick 100].
Definition ex_used : timed := default ex_start (idle_exec_run 5 ex_before ex_start).
Definition ex_idle : timed := default ex_start (idle_exec_run 5 ex_quiet ex_used).
Definition ex_notification : idle_notification := mk_idle_notification 1 5000 100 false false true (Some 5100).

Lemma idle_on_time_witness :
  exists n', n' ∈ idle_notifications (ts ex_idle) /\ in_resource n' = 1 /\ in_idle n' = true
             /\ head (history 1 (ts ex_idle)) = Some (ev_idled 1).
Proof.
  refine (idle_on_time 5 100 ex_before ex_quiet ex_used ex_idle ex_notification _ _ _ _ _ _ _ _ _ _).
  - lia.
  - lia.
  - apply exec_run. vm_compute. reflexivity.
  - apply list_elem_of_In. vm_compute. left. reflexivity.
  - reflexivity.
  - cbn. ranges. lia.
  - apply exec_run. vm_compute. reflexivity.
  - reflexivity.
  - vm_compute. repeat split; right; reflexivity.
  - vm_compute. reflexivity.
Defined.

(** ** A notification does not fire early *)

(** Input that the grab in force notes. *)
Definition noted (l : idle_label) : bool :=
  match l with l_do (i_motion b) | l_do (i_press b) | l_do (i_release b) => b | _ => false end.

Definition since (T : Z) (s : idle_state) : Prop :=
  T <= clock s /\ Forall (fun n => T <= in_last n) (idle_notifications s).

Lemma walk_since T f s :
  (forall n, in_last (fst (f n)) = in_last n \/ in_last (fst (f n)) = clock s) ->
  since T s -> since T (walk_notifications f s).
Proof.
  intros Hf [H1 H2]. split; [done|]. cbn. apply Forall_map. eapply Forall_impl; [exact H2|].
  intros n Hn. cbn. destruct (Hf n) as [->| ->]; done.
Qed.

Lemma rearm_last now n : in_last (rearm now n) = in_last n.
Proof. unfold rearm. by case_match. Qed.

Lemma note_since T b s : since T s -> since T (noting b s).
Proof.
  intros H. destruct b; [|done]. cbn. unfold qdwin_idle_note_activity. case_match; [done|].
  apply walk_since; [|done]. intros n. unfold note_activity. case_match; [by left|right]. cbn. by rewrite rearm_last.
Qed.

Lemma wake_since T s : since T s -> since T (weston_compositor_wake s).
Proof.
  intros H. unfold weston_compositor_wake.
  assert (W : since T (qdwin_on_wake_signal (idle_emit ev_dpms_on (s <| cstate := COMPOSITOR_ACTIVE |>)))).
  { apply walk_since; [|exact H]. intros n. right. unfold on_wake. cbn. by repeat case_match. }
  assert (A : forall s1, since T s1 -> since T (arm_idle_source s1)).
  { intros s1 H1. unfold arm_idle_source. by case_match. }
  destruct (cstate s); apply A; [exact H|exact W..].
Qed.

Lemma step_since L T l t :
  allowed L l t = true -> idle_inv L t -> idle_internal_mode (ts t) = true ->
  since T (ts t) -> since T (ts (idle_step l t)).
Proof.
  intros A [[V1 _ _ _ _] _] Hi H. destruct (touches l) eqn:El.
  2: { destruct (keeps_step l t Hi El) as [K1 K2 _ _]. unfold since. by rewrite K1, K2. }
  apply andb_true_iff in A as [_ A]. destruct l as [o|d| |x|armed]; try done; cbn in *.
  - destruct o; try done; cbn.
    + unfold qdwin_idle_notification_create. case_match; [done|]. destruct H as [H1 H2]. split; [done|].
      cbn. constructor; [|done]. case_match; [by rewrite rearm_last|done].
    + destruct H as [H1 H2]. split; [done|]. cbn. apply Forall_forall. intros n Hn.
      apply list_elem_of_In, filter_In in Hn as [Hn _]. rewrite Forall_forall in H2. by apply H2, list_elem_of_In.
    + by apply note_since, wake_since.
    + apply note_since. exact (wake_since T (ts t) H).
    + apply note_since, wake_since. exact H.
  - destruct H as [H1 H2]. split; [cbn; lia|done].
  - destruct (find_notification x (ts t)) as [k|] eqn:E; [|done].
    apply find_notification_spec in E as [Hk <-]. destruct (fire_spec _ k V1 Hk) as (E1 & _ & Hs & _).
    destruct H as [H1 H2]. split; [by rewrite (hs_clock _ _ Hs)|]. rewrite E1. unfold upd_notification. cbn.
    rewrite Forall_forall in H2. apply Forall_map, Forall_forall. intros m Hm. cbn.
    case_match; [|by apply H2]. specialize (H2 k Hk). unfold fired. by repeat case_match.
Qed.

Lemma noted_since l t :
  noted l = true -> idle_internal_mode (ts t) = true -> since (clock (ts t)) (ts (idle_step l t)).
Proof.
  intros Hl Hi.
  assert (H : forall s, idle_internal_mode s = true -> cstate s = COMPOSITOR_ACTIVE -> since (clock s) (noting true s)).
  { intros s Hm Hc. cbn. unfold qdwin_idle_note_activity. rewrite Hm. cbn. split; [done|]. cbn.
    apply Forall_map, Forall_forall. intros n _. unfold note_activity. rewrite Hc.
    rewrite bool_decide_eq_true_2, andb_false_r by done. cbn. by rewrite rearm_last. }
  destruct l as [o| | | |]; try done. destruct o; try done; cbn in Hl; subst; cbn [idle_step ts idle_exec].
  - destruct (wake_hsame (ts t)) as ([E _ _ _ _ _ Em _] & Ec & _). rewrite <- E. apply H; [by rewrite Em|done].
  - destruct (wake_hsame (ts t)) as ([E _ _ _ _ _ Em _] & Ec & _). rewrite <- E.
    apply (H (weston_compositor_idle_inhibit (ts t))); [exact (eq_trans Em Hi)|exact Ec].
  - unfold weston_compositor_idle_release. set (s1 := (ts t) <| idle_inhibit ::= _ |>).
    destruct (wake_hsame s1) as ([E _ _ _ _ _ Em _] & Ec & _). change (clock (ts t)) with (clock s1). rewrite <- E.
    apply H; [by rewrite Em|done].
Qed.

Lemma walk_idled f s r :
  (forall n e, In e (snd (f n)) -> e ≠ ev_idled r) -> idled_count r (walk_notifications f s) = idled_count r s.
Proof.
  intros Hf. unfold idled_count, walk_notifications. cbn. rewrite List.filter_app, length_app.
  replace (List.filter _ (rev _)) with (@nil idle_event); [done|]. rewrite filter_rev.
  induction (idle_notifications s) as [|n l IH]; [done|]. cbn. rewrite List.filter_app, rev_app_distr, <- IH. cbn.
  assert (E : forall l, (forall e, In e l -> e ≠ ev_idled r) ->
            List.filter (fun e => bool_decide (e = ev_idled r)) l = []).
  { clear. induction l as [|e l IH]; intros H; [done|]. cbn.
    rewrite bool_decide_eq_false_2 by (apply H; by left). apply IH. intros x Hx. apply H. by right. }
  by rewrite E by (intros e He; by apply (Hf n)).
Qed.

Lemma note_idled b s r : idled_count r (noting b s) = idled_count r s.
Proof.
  destruct b; [|done]. cbn. unfold qdwin_idle_note_activity. case_match; [done|].
  apply walk_idled. intros n e. unfold note_activity. case_match; [done|]. cbn. case_match; [|done].
  by intros [<-|[]].
Qed.

Lemma wake_idled s r : idled_count r (weston_compositor_wake s) = idled_count r s.
Proof.
  unfold weston_compositor_wake.
  assert (W : idled_count r (qdwin_on_wake_signal (idle_emit ev_dpms_on (s <| cstate := COMPOSITOR_ACTIVE |>)))
              = idled_count r s).
  { etransitivity; [apply walk_idled|done]. intros n e. unfold on_wake. cbn. case_match; [|done].
    by intros [<-|[]]. }
  assert (A : forall s1, idled_count r (arm_idle_source s1) = idled_count r s1).
  { intros s1. unfold arm_idle_source. by case_match. }
  destruct (cstate s); rewrite A; [done|exact W..].
Qed.

Lemma idled_step L r l t :
  allowed L l t = true -> idle_inv L t -> idle_internal_mode (ts t) = true ->
  idled_count r (ts (idle_step l t)) ≠ idled_count r (ts t) ->
  exists n, n ∈ idle_notifications (ts t) /\ in_resource n = r
    /\ in_last n + in_timeout n <= clock (ts t) /\ (in_ignore n = true \/ idle_inhibit (ts t) = 0).
Proof.
  intros A [[V1 [_ O2 O3 _] _ _ _] _] Hi Hne. destruct (touches l) eqn:El.
  2: { by rewrite (k_idled _ _ (keeps_step l t Hi El)) in Hne. }
  destruct l as [o|d| |x|armed]; try done; cbn in Hne.
  - exfalso. apply Hne. destruct o; try done; cbn.
    + unfold qdwin_idle_notification_create. by case_match.
    + rewrite note_idled. apply wake_idled.
    + rewrite note_idled. exact (wake_idled (ts t) r).
    + rewrite note_idled. exact (wake_idled ((ts t) <| idle_inhibit ::= fun x => u32 (x - 1) |>) r).
  - destruct (find_notification x (ts t)) as [k|] eqn:E; [|done].
    apply find_notification_spec in E as [Hk <-]. destruct (fire_spec _ k V1 Hk) as (_ & E2 & _).
    unfold idled_count in Hne. rewrite E2, List.filter_app, length_app in Hne.
    destruct V1 as [[_ C] _ F]. rewrite Forall_forall in F. destruct (F k Hk) as [_ Hl _ _].
    pose proof (active_bound (ts t)). unfold outside in O3.
    unfold fired in Hne. rewrite Hi in Hne. cbn [andb] in Hne.
    destruct (in_idle k); [done|]. rewrite u64_small in Hne by lia.
    destruct ((0 <? in_timeout k) && _) eqn:E3; [done|].
    destruct (negb (in_ignore k) && (0 <? idle_inhibit (ts t))) eqn:E4; [done|].
    exists k. cbn in Hne. case_bool_decide as Er; [injection Er as <-|done]. split_and!; [done|done| |].
    + destruct (Z.ltb_spec 0 (in_timeout k)); cbn in E3; lia.
    + destruct (in_ignore k); [by left|right]. cbn in E4. lia.
Qed.

(** A notification does not fire early.  In the mode in which the plugin
    keeps the idle time itself, when a step of a run sends idled to a
    notification, the clock has advanced by at least the notification's timeout
    since the last input that a grab noted, and at that moment nothing inhibits
    idleness or the notification ignores inhibitors. *)
Theorem idle_never_early (L now : Z) (before ls : list idle_label) (l0 l : idle_label) (t0 t : timed) (r : Z)
    (HL : 0 <= L) (Hnow : 0 <= now < 18446744073709551616)
    (R0 : idle_run L before (timed_init now 0) t0)
    (H0 : noted l0 = true) (A0 : allowed L l0 t0 = true)
    (R : idle_run L ls (idle_step l0 t0) t) (A : allowed L l t = true)
    (Hsent : idled_count r (ts (idle_step l t)) ≠ idled_count r (ts t)) :
  exists n, n ∈ idle_notifications (ts t) /\ in_resource n = r
    /\ in_timeout n <= clock (ts t) - clock (ts t0)
    /\ (in_ignore n = true \/ idle_inhibit (ts t) = 0).
Proof.
  pose proof (run_inv L HL _ _ _ R0 (init_inv L HL now 0 Hnow)) as V0.
  assert (Hm : forall a b ls, idle_run L ls a b -> idle_internal_mode (ts b) = idle_internal_mode (ts a)).
  { intros a b k. induction 1 as [|? ? ? ? ? ? IH]; [done|]. by rewrite IH, step_mode. }
  assert (Hi0 : idle_internal_mode (ts t0) = true) by (by rewrite (Hm _ _ _ R0)).
  assert (Q : idle_inv L t /\ idle_internal_mode (ts t) = true /\ since (clock (ts t0)) (ts t)).
  { refine (run_invariant L (fun u => idle_inv L u /\ idle_internal_mode (ts u) = true
              /\ since (clock (ts t0)) (ts u)) _ ls _ t R _).
    - intros k u (V & Hi & S) Ak. split_and!; [by apply step_inv|by rewrite step_mode|by apply (step_since L)].
    - split_and!; [by apply step_inv|by rewrite step_mode|by apply noted_since]. }
  destruct Q as (V & Hi & [_ S]). destruct (idled_step L r l t A V Hi Hsent) as (n & Hn & Hr & Hle & Hinh).
  rewrite Forall_forall in S. specialize (S n Hn). cbn in S. exists n. split_and!; [done|done|lia|done].
Qed.

Definition ex_before_input : timed :=
  default ex_start (idle_exec_run 5 [l_do (i_notify true true 1 5000 false); l_tick 700] ex_start).

Lemma idle_never_early_witness :
  let t := default ex_start (idle_exec_run 5 [l_tick 5000]
             (idle_step (l_do (i_motion true)) ex_before_input)) in
  exists n, n ∈ idle_notifications (ts t) /\ in_resource n = 1
    /\ in_timeout n <= clock (ts t) - clock (ts ex_before_input)
    /\ (in_ignore n = true \/ idle_inhibit (ts t) = 0).
Proof.
  cbv zeta.
  refine (idle_never_early 5 100 [l_do (i_notify true true 1 5000 false); l_tick 700]
            [l_tick 5000] (l_do (i_motion true)) (l_fire_notification 1)
            ex_before_input _ 1 _ _ _ _ _ _ _ _).
  - lia.
  - lia.
  - apply exec_run. vm_compute. reflexivity.
  - reflexivity.
  - vm_compute. reflexivity.
  - apply exec_run. vm_compute. reflexivity.
  - vm_compute. reflexivity.
  - vm_compute. discriminate.
Defined.

(** ** A stale hold is dropped *)

Definition inactive (r : Z) (s : idle_state) : Prop :=
  forall j, j ∈ idle_inhibitors s -> ih_resource j = r -> ih_active j = false.
(** Nothing on screen justifies the hold of the inhibitor [r]. *)
Definition unjustified (r : Z) (s : idle_state) : Prop :=
  forall j, j ∈ idle_inhibitors s -> ih_resource j = r -> surface_holds (ih_surface j) s = false.

Lemma inv_allowed_counted L l t : idle_inv L t -> allowed L l t = true -> counted (ts t).
Proof.
  intros [V _] [A%Z.ltb_lt _]%andb_true_iff. destruct t as [s h]. apply (inv_counted L h s); [done|cbn in A; lia].
Qed.

Lemma unjustified_settled r s s' j :
  unjustified r s' -> j ∈ idle_inhibitors s' -> ih_resource j = r -> status_of s' = status_of s ->
  settled s j -> ih_active j = false.
Proof.
  intros U Hj Hr Es. unfold settled. intros ->. specialize (U j Hj Hr). unfold surface_holds in *.
  rewrite Es in U. rewrite U. apply andb_false_r.
Qed.

Lemma sync_all_inactive r l s :
  counted s -> unjustified r (sync_all l s) -> inactive r s -> inactive r (sync_all l s).
Proof.
  intros C U I j Hj Hr. destruct (sync_all_spec l s C) as [T H].
  destruct (H j Hj) as [Hs|[_ Ho]]; [|by apply I].
  by apply (unjustified_settled r s (sync_all l s)); [| | |apply (it_status _ _ T)|].
Qed.

Lemma recheck_inactive r armed s :
  counted s -> unjustified r (qdwin_idle_inhibit_recheck armed s) -> inactive r (qdwin_idle_inhibit_recheck armed s).
Proof.
  intros C. unfold qdwin_idle_inhibit_recheck. set (l := map ih_resource (idle_inhibitors s)).
  destruct (sync_all_spec l s C) as [T H]. pose proof (itrans_counted _ _ T C) as C1.
  set (s1 := sync_all l s) in *. clearbody s1.
  assert (Hall : forall j, j ∈ idle_inhibitors s1 -> settled s j).
  { intros j Hj. destruct (H j Hj) as [?|[Hn Ho]]; [done|]. exfalso. apply Hn.
    by apply list_elem_of_In, in_map, list_elem_of_In. }
  destruct (idle_inhibitors s1) as [|i0 l0] eqn:E; [intros _ j Hj; rewrite E in Hj; by apply not_elem_of_nil in Hj|].
  rewrite <- E in Hall. unfold qdwin_idle_inhibit_recheck_schedule.
  assert (Hdis : inactive r (qdwin_idle_inhibitors_release_all (s1 <| inhibit_disabled := true |>))).
  { intros j Hj _. unfold qdwin_idle_inhibitors_release_all in Hj. apply release_all_spec in Hj as [?|[Hn Ho]]; [done| |].
    - exfalso. apply Hn. by apply list_elem_of_In, in_map, list_elem_of_In.
    - by destruct C1. }
  destruct (negb (recheck_timer s1)); [done|]. destruct armed; [|done].
  intros U j Hj Hr. apply (unjustified_settled r s _ j U Hj Hr); [apply (it_status _ _ T)|by apply Hall].
Qed.

Lemma gone_active l s j :
  counted s ->
  j ∈ idle_inhibitors (foldl (fun s r => qdwin_idle_inhibitor_sync r
        (upd_inhibitor r (fun i => i <| ih_surface := None |>) s)) s l) ->
  ih_active j = true -> exists i, i ∈ idle_inhibitors s /\ ih_resource i = ih_resource j /\ ih_active i = true.
Proof.
  revert s. induction l as [|r l IH]; intros s C Hj Ha; cbn in Hj; [by exists j|].
  pose proof (upd_surface_trans r s) as T. set (s1 := upd_inhibitor r (fun i => i <| ih_surface := None |>) s) in *.
  pose proof (itrans_counted _ _ T C) as C1. pose proof (sync_trans r s1 C1) as T1.
  destruct (IH _ (itrans_counted _ _ T1 C1) Hj Ha) as (i & Hi & Hr & Hia).
  pose proof (sync_settles r s1 i C1 Hi) as Hs. case_decide as Er.
  - exfalso. unfold settled in Hs. rewrite Hia in Hs. symmetry in Hs. apply andb_true_iff in Hs as [_ Hs].
    assert (ih_surface i = None) as En; [|by rewrite En in Hs].
    assert (Hmem : forall k, k ∈ idle_inhibitors (qdwin_idle_inhibitor_sync r s1) -> ih_resource k = r -> ih_surface k = None).
    { intros k Hk Hkr. unfold qdwin_idle_inhibitor_sync in Hk.
      assert (Hs1 : forall m, m ∈ idle_inhibitors s1 -> ih_resource m = r -> ih_surface m = None).
      { intros m Hm Hmr. unfold s1, upd_inhibitor in Hm. cbn in Hm.
        apply list_elem_of_In, in_map_iff in Hm as (m0 & <- & _). destruct (Z.eqb_spec (ih_resource m0) r); done. }
      destruct (find_inhibitor r s1) as [f|] eqn:Ef; [|by apply Hs1].
      apply find_inhibitor_spec in Ef as [Hf Hfr].
      assert (Hsw : forall b : bool, k ∈ idle_inhibitors (if b then qdwin_idle_inhibitor_activate f s1
                                                 else qdwin_idle_inhibitor_deactivate f s1) -> ih_surface k = None).
      { intros b Hb. destruct (switched_inhibitors f b s1 C1 Hf k Hb) as [->|[Hne _]]; [by apply (Hs1 f)|congruence]. }
      destruct (inhibit_disabled s1); [by apply (Hsw false)|]. case_match; [by apply Hs1|].
      case_match; [by apply (Hsw true)|by apply (Hsw false)]. }
    by apply Hmem.
  - unfold s1, upd_inhibitor in Hs. cbn in Hs. apply list_elem_of_In, in_map_iff in Hs as (i0 & <- & Hi0).
    exists i0. apply list_elem_of_In in Hi0. destruct (ih_resource i0 =? r); done.
Qed.

Lemma destroy_inactive r x s :
  counted s -> inactive r s -> inactive r (qdwin_idle_inhibitor_resource_destroy x s).
Proof.
  intros C I j Hj Hr. unfold qdwin_idle_inhibitor_resource_destroy in Hj.
  destruct (find_inhibitor x s) as [i|] eqn:E; [|by apply I]. apply find_inhibitor_spec in E as [Hi _].
  cbn in Hj. apply list_elem_of_In, filter_In in Hj as [Hj _]. apply list_elem_of_In in Hj.
  destruct (switched_inhibitors i false s C Hi j Hj) as [->|[_ Ho]]; [done|by apply I].
Qed.

Lemma create_inactive r add alloc armed id surface s :
  counted s -> outside s + Z.of_nat (length (idle_inhibitors s)) < UINT32_MAX ->
  forallb (fun i => negb (ih_resource i =? id)) (idle_inhibitors s) = true ->
  let s' := qdwin_idle_inhibit_create_inhibitor add alloc armed id surface s in
  unjustified r s' -> inactive r s -> inactive r s' /\ (recheck_deadline s' = recheck_deadline s \/ idle_inhibitors s = []).
Proof.
  intros C Hb Hf s'. unfold s', qdwin_idle_inhibit_create_inhibitor. clear s'.
  assert (He : exists ok s0, qdwin_idle_inhibit_recheck_ensure add s = (ok, s0)
            /\ idle_inhibitors s0 = idle_inhibitors s /\ idle_inhibit s0 = idle_inhibit s
            /\ recheck_deadline s0 = recheck_deadline s).
  { unfold qdwin_idle_inhibit_recheck_ensure. destruct (inhibit_disabled s), (recheck_timer s), add; by eexists _, _. }
  destruct He as (ok & s0 & -> & Ei & Ec & Ed). intros U I.
  assert (I0 : inactive r s0) by (intros j; rewrite Ei; apply I).
  destruct ok; cbn [negb] in *; [|split; [exact I0|by left]].
  destruct alloc; cbn [negb] in *; [|split; [exact I0|by left]].
  set (s1 := s0 <| idle_inhibitors ::= cons (mk_idle_inhibitor id surface false) |>) in *.
  assert (C1 : counted s1).
  { destruct C as [N O1 O2]. unfold outside, active in *. constructor; unfold outside, active; cbn; rewrite ?Ei, ?Ec; try lia.
    constructor; [|done]. intros (m & Hm & Hin)%list_elem_of_In%in_map_iff.
    rewrite forallb_forall in Hf. specialize (Hf m Hin). rewrite Hm, Z.eqb_refl in Hf. done. }
  assert (I1 : inactive r s1) by (intros j [->|Hj]%elem_of_cons Hr; [done|by apply I0]).
  pose proof (sync_all_inactive r [id] s1 C1) as Hs. change (sync_all [id] s1) with (qdwin_idle_inhibitor_sync id s1) in Hs.
  pose proof (sync_trans id s1 C1) as T. pose proof (itrans_counted _ _ T C1) as C2.
  set (s2 := qdwin_idle_inhibitor_sync id s1) in *.
  destruct (idle_inhibitors s0) as [|i0 l0] eqn:El; cbn [negb] in *.
  - split; [|right; by rewrite <- Ei]. unfold qdwin_idle_inhibit_recheck_schedule in *.
    assert (Hdel : forall s3, idle_inhibitors s3 = idle_inhibitors s2 ->
              inactive r (idle_emit ev_no_memory (qdwin_idle_inhibitor_resource_destroy id s3))).
    { intros s3 E3 j Hj. exfalso. cbn in Hj. rewrite destroy_last in Hj; [by apply not_elem_of_nil in Hj|].
      rewrite E3, (it_resource _ _ T). cbn. by rewrite El. }
    destruct (negb (recheck_timer s2)); [by apply Hdel|]. destruct armed; [|by apply Hdel].
    apply Hs; [|done]. exact U.
  - split; [by apply Hs|left]. by rewrite (it_rdeadline _ _ T).
Qed.

(** The labels that may change inhibitors. *)
Definition on_inhibitors (l : idle_label) : bool :=
  match l with
  | l_do (i_inhibit _ _ _ _ _) | l_do (i_uninhibit _) | l_do (i_mapped _ _) | l_do (i_unmapped _ _)
  | l_do (i_gone _) | l_fire_recheck _ => true
  | _ => false
  end.

(** What the steps on notifications and on time do to inhibitors: nothing. *)
Lemma step_hsame l t :
  on_inhibitors l = false ->
  idle_inhibitors (ts (idle_step l t)) = idle_inhibitors (ts t)
  /\ recheck_deadline (ts (idle_step l t)) = recheck_deadline (ts t).
Proof.
  assert (Hn : forall b s, idle_inhibitors (noting b s) = idle_inhibitors s
                           /\ recheck_deadline (noting b s) = recheck_deadline s).
  { intros [] s; [|done]. destruct (note_hsame s) as ([_ E1 _ _ E2 _ _ _] & _). done. }
  assert (Hw : forall s, idle_inhibitors (weston_compositor_wake s) = idle_inhibitors s
                         /\ recheck_deadline (weston_compositor_wake s) = recheck_deadline s).
  { intros s. by destruct (wake_hsame s) as ([_ E1 _ _ E2 _ _ _] & _). }
  destruct l as [o|d| |x|armed]; try done; cbn.
  - destruct o; try done; cbn; intros _.
    + unfold qdwin_idle_notification_create. by case_match.
    + destruct (Hn noted0 (weston_compositor_wake (ts t))) as [-> ->]. apply Hw.
    + destruct (Hn noted0 (weston_compositor_idle_inhibit (ts t))) as [-> ->]. exact (Hw (ts t)).
    + destruct (Hn noted0 (weston_compositor_idle_release (ts t))) as [-> ->].
      exact (Hw ((ts t) <| idle_inhibit ::= fun x => u32 (x - 1) |>)).
    + unfold weston_compositor_sleep. by case_match.
    + unfold weston_compositor_offscreen. by case_match.
  - intros _. unfold idle_handler. case_match; [done|].
    by destruct (on_idle_hsame ((ts t) <| idle_source := None |> <| cstate := COMPOSITOR_IDLE |>))
      as ([_ E1 _ _ E2 _ _ _] & _).
  - intros _. destruct (find_notification x (ts t)); [|done]. unfold qdwin_idle_notification_timer_fire, qdwin_on_idle_signal.
    by repeat case_match.
Qed.

Lemma activate_deadline i s : recheck_deadline (qdwin_idle_inhibitor_activate i s) = recheck_deadline s.
Proof. unfold qdwin_idle_inhibitor_activate. by case_match. Qed.
Lemma deactivate_deadline i s : recheck_deadline (qdwin_idle_inhibitor_deactivate i s) = recheck_deadline s.
Proof. unfold qdwin_idle_inhibitor_deactivate, arm_idle_source. by repeat case_match. Qed.
Lemma sync_deadline r s : recheck_deadline (qdwin_idle_inhibitor_sync r s) = recheck_deadline s.
Proof.
  unfold qdwin_idle_inhibitor_sync.
  repeat case_match; first [reflexivity|apply activate_deadline|apply deactivate_deadline].
Qed.
Lemma sync_all_deadline l s : recheck_deadline (sync_all l s) = recheck_deadline s.
Proof. revert s. induction l as [|r l IH]; intros s; [done|]. cbn. etransitivity; [apply IH|apply sync_deadline]. Qed.
Lemma gone_deadline l s :
  recheck_deadline (foldl (fun s r => qdwin_idle_inhibitor_sync r
        (upd_inhibitor r (fun i => i <| ih_surface := None |>) s)) s l) = recheck_deadline s.
Proof. revert s. induction l as [|r l IH]; intros s; [done|]. cbn. rewrite IH. by rewrite sync_deadline. Qed.
Lemma destroy_deadline r s : recheck_deadline (qdwin_idle_inhibitor_resource_destroy r s) = recheck_deadline s.
Proof. unfold qdwin_idle_inhibitor_resource_destroy. case_match; [apply deactivate_deadline|done]. Qed.
Lemma create_deadline add alloc armed id surface s :
  idle_inhibitors s ≠ [] ->
  recheck_deadline (qdwin_idle_inhibit_create_inhibitor add alloc armed id surface s) = recheck_deadline s.
Proof.
  intros Hne. unfold qdwin_idle_inhibit_create_inhibitor, qdwin_idle_inhibit_recheck_ensure.
  destruct (inhibit_disabled s), (recheck_timer s), add, alloc; cbn; try done;
    (destruct (idle_inhibitors s); [done|]); exact (sync_deadline id (_ <| idle_inhibitors ::= _ |>)).
Qed.

Lemma inactive_step L r l t :
  allowed L l t = true -> idle_inv L t -> unjustified r (ts (idle_step l t)) ->
  inactive r (ts t) -> inactive r (ts (idle_step l t)).
Proof.
  intros A V U I. pose proof (inv_allowed_counted L l t V A) as C.
  destruct (on_inhibitors l) eqn:El.
  2: { unfold inactive. by rewrite (proj1 (step_hsame l t El)). }
  destruct l as [o|d| |x|armed]; try done; [|apply recheck_inactive; [by destruct C|done]].
  apply andb_true_iff in A as [A1%Z.ltb_lt A2]. destruct o; try done; cbn in *.
  - destruct V as [[_ [_ _ O _] _ _ _] _]. apply create_inactive; try done. rewrite O. lia.
  - by apply destroy_inactive.
  - apply sync_all_inactive; [by destruct C|done|done].
  - apply sync_all_inactive; [by destruct C|done|done].
  - intros j Hj Hr. destruct (ih_active j) eqn:Ea; [|done].
    destruct (gone_active _ _ j C Hj Ea) as (i & Hi & Hir & Hia). rewrite (I i Hi) in Hia; [done|congruence].
Qed.

Lemma stale_step L r l t D :
  allowed L l t = true -> idle_inv L t -> unjustified r (ts (idle_step l t)) ->
  inactive r (ts t) \/ (exists d, recheck_deadline (ts t) = Some d /\ d <= D) ->
  inactive r (ts (idle_step l t)) \/ (exists d, recheck_deadline (ts (idle_step l t)) = Some d /\ d <= D).
Proof.
  intros A V U [I|Q]; [left; by apply (inactive_step L)|].
  pose proof (inv_allowed_counted L l t V A) as C. destruct (on_inhibitors l) eqn:El.
  2: { right. by rewrite (proj2 (step_hsame l t El)). }
  destruct l as [o|d| |x|armed]; try done; [|left; apply recheck_inactive; [by destruct C|done]].
  destruct o; try done; cbn in U |- *.
  - destruct (decide (idle_inhibitors (ts t) = [])) as [E|Hne]; [|right; by rewrite create_deadline].
    left. apply (inactive_step L r (l_do (i_inhibit add alloc armed id surface)) t A V U).
    intros j Hj. rewrite E in Hj. by apply not_elem_of_nil in Hj.
  - right. by rewrite destroy_deadline.
  - right. destruct Q as (d & Hd & Hle). exists d. split; [rewrite <- Hd|done]. exact (sync_all_deadline _ (set_status x st (ts t))).
  - right. destruct Q as (d & Hd & Hle). exists d. split; [rewrite <- Hd|done]. exact (sync_all_deadline _ (set_status x st (ts t))).
  - right. destruct Q as (d & Hd & Hle). exists d. split; [rewrite <- Hd|done]. apply gone_deadline.
Qed.

(** C18.  A client cannot keep the session awake with a window that is not
    there.  Take any reachable state and an inhibitor, and let the run go on so
    that its surface is never (effectively mapped, with a buffer and a view) at
    a step's end, whether or not a signal reports it.  Then one second and the
    lateness of the event loop after, the inhibitor holds nothing, and it holds
    nothing as long as that stays so: the backstop re-evaluates it, or, when
    the backstop cannot be set, everything is released for good. *)
Theorem stale_hold_dropped (L now secs : Z) (before ls : list idle_label) (t t' : timed) (r : Z)
    (HL : 0 <= L) (Hnow : 0 <= now < 18446744073709551616)
    (R : idle_run L before (timed_init now secs) t) (R' : idle_run L ls t t')
    (Hgone : run_all (unjustified r) ls t)
    (Hlate : clock (ts t) + QDWIN_IDLE_INHIBIT_RECHECK_MS + L < clock (ts t')) :
  forall i, i ∈ idle_inhibitors (ts t') -> ih_resource i = r -> ih_active i = false.
Proof.
  set (D := clock (ts t) + QDWIN_IDLE_INHIBIT_RECHECK_MS) in Hlate.
  pose proof (run_inv L HL _ _ _ R (init_inv L HL now secs Hnow)) as V.
  assert (Q : idle_inv L t' /\ (inactive r (ts t') \/ exists d, recheck_deadline (ts t') = Some d /\ d <= D)).
  { refine (segment L _ (fun _ => true) (fun u => idle_inv L u /\ (inactive r (ts u)
              \/ exists d, recheck_deadline (ts u) = Some d /\ d <= D)) _ ls t t' R' _ Hgone _).
    - intros l u _ A _ U [W Q]. split; [by apply step_inv|by apply (stale_step L)].
    - apply forallb_forall. done.
    - split; [done|]. destruct V as [[_ [_ _ _ Hd] _ _ _] Hr].
      destruct (decide (idle_inhibitors (ts t) = [])) as [E|Hne].
      + left. intros j Hj. rewrite E in Hj. by apply not_elem_of_nil in Hj.
      + destruct (inhibit_disabled (ts t)) eqn:Ed; [left; intros j Hj _; by apply Hd|right; by apply Hr]. }
  destruct Q as [[[_ _ _ [_ Lt _] _] _] [I|(d & Hd & Hle)]]; [exact I|].
  exfalso. rewrite Hd in Lt. cbn in Lt. lia.
Qed.

(** A player whose parent window is unmapped: no signal reaches it. *)
Definition ex_playing : list idle_label :=
  [l_do (i_mapped 7 ex_shown); l_do (i_inhibit true true true 2 (Some 7));
   l_do (i_surface 7 (mk_surface_status false true true))].
Definition ex_hidden : timed := default ex_start (idle_exec_run 5 ex_playing ex_start).
Definition ex_sweep : list idle_label := [l_tick 1000; l_fire_recheck true; l_tick 100].
Definition ex_swept : timed := default ex_start (idle_exec_run 5 ex_sweep ex_hidden).

Lemma stale_hold_dropped_witness :
  idle_inhibit (ts ex_hidden) = 1
  /\ forall i, i ∈ idle_inhibitors (ts ex_swept) -> ih_resource i = 2 -> ih_active i = false.
Proof.
  split; [vm_compute; reflexivity|].
  refine (stale_hold_dropped 5 100 0 ex_playing ex_sweep ex_hidden ex_swept 2 _ _ _ _ _ _).
  - lia.
  - lia.
  - apply exec_run. vm_compute. reflexivity.
  - apply exec_run. vm_compute. reflexivity.
  - cbn [run_all ex_sweep].
    split_and!; try done; intros j Hj%list_elem_of_In _; vm_compute in Hj; destruct Hj as [<-|[]]; reflexivity.
  - vm_compute. reflexivity.
Defined.

(** ** The session idles *)

Definition all_inactive (s : idle_state) : Prop := forall i, i ∈ idle_inhibitors s -> ih_active i = false.
(** Every active inhibitor is justified, so none is about to be released. *)
Definition all_justified (s : idle_state) : Prop :=
  forall i, i ∈ idle_inhibitors s -> ih_active i = true ->
    inhibit_disabled s = false /\ surface_holds (ih_surface i) s = true.

Lemma activate_source i s : idle_source (qdwin_idle_inhibitor_activate i s) = idle_source s.
Proof. unfold qdwin_idle_inhibitor_activate. by case_match. Qed.

Lemma sync_source r s :
  counted s -> all_justified s ->
  idle_source (qdwin_idle_inhibitor_sync r s) = idle_source s /\ all_justified (qdwin_idle_inhibitor_sync r s).
Proof.
  intros C J. pose proof (sync_trans r s C) as T. split.
  - unfold qdwin_idle_inhibitor_sync. destruct (find_inhibitor r s) as [i|] eqn:E; [|done].
    apply find_inhibitor_spec in E as [Hi _].
    assert (Hde : negb (inhibit_disabled s) && surface_holds (ih_surface i) s = false ->
              qdwin_idle_inhibitor_deactivate i s = s).
    { intros Hh. unfold qdwin_idle_inhibitor_deactivate. destruct (ih_active i) eqn:Ea; [|done].
      destruct (J i Hi Ea) as [E1 E2]. by rewrite E1, E2 in Hh. }
    destruct (inhibit_disabled s) eqn:Ed; [by rewrite Hde|].
    case_match; [done|]. destruct (surface_holds (ih_surface i) s) eqn:Eh; [apply activate_source|by rewrite Hde].
  - intros j Hj Ha. rewrite (it_disabled _ _ T). pose proof (sync_settles r s j C Hj) as Hs.
    assert (Hh : surface_holds (ih_surface j) (qdwin_idle_inhibitor_sync r s) = surface_holds (ih_surface j) s)
      by (unfold surface_holds; by rewrite (it_status _ _ T)).
    rewrite Hh. case_decide; [|by apply J]. unfold settled in Hs. rewrite Ha in Hs.
    symmetry in Hs. apply andb_true_iff in Hs as [Hs ->]. split; [|done]. by apply negb_true_iff.
Qed.

Lemma sync_all_source l s :
  counted s -> all_justified s -> idle_source (sync_all l s) = idle_source s.
Proof.
  revert s. induction l as [|r l IH]; intros s C J; cbn; [done|].
  destruct (sync_source r s C J) as [<- J']. apply IH; [|done].
  apply (itrans_counted s); [by apply sync_trans|done].
Qed.

Lemma inactive_justified s : all_inactive s -> all_justified s.
Proof. intros I i Hi Ha. rewrite (I i Hi) in Ha. done. Qed.

Lemma gone_source l s :
  counted s -> all_inactive s ->
  idle_source (foldl (fun s r => qdwin_idle_inhibitor_sync r
        (upd_inhibitor r (fun i => i <| ih_surface := None |>) s)) s l) = idle_source s.
Proof.
  revert s. induction l as [|r l IH]; intros s C I; cbn; [done|].
  pose proof (upd_surface_trans r s) as T. pose proof (itrans_counted _ _ T C) as C1.
  set (s1 := upd_inhibitor r (fun i => i <| ih_surface := None |>) s) in *.
  assert (I1 : all_inactive s1).
  { intros j Hj. unfold s1, upd_inhibitor in Hj. cbn in Hj.
    apply list_elem_of_In, in_map_iff in Hj as (k & <- & Hk). apply list_elem_of_In in Hk.
    specialize (I k Hk). by case_match. }
  destruct (sync_source r s1 C1 (inactive_justified s1 I1)) as [E _].
  rewrite IH; [exact E|apply (itrans_counted s1); [by apply sync_trans|done]|].
  intros j Hj. destruct (ih_active j) eqn:Ea; [|done].
  destruct (gone_active [r] s j C Hj Ea) as (i & Hi & _ & Hia). rewrite (I i Hi) in Hia. done.
Qed.

Lemma destroy_source r s :
  all_inactive s -> idle_source (qdwin_idle_inhibitor_resource_destroy r s) = idle_source s.
Proof.
  intros I. unfold qdwin_idle_inhibitor_resource_destroy.
  destruct (find_inhibitor r s) as [i|] eqn:E; [|done]. apply find_inhibitor_spec in E as [Hi _].
  unfold qdwin_idle_inhibitor_deactivate. by rewrite (I i Hi).
Qed.

Lemma count_inactive s : counted s -> idle_inhibit s = 0 -> all_inactive s.
Proof.
  intros [_ O _] Hz i Hi. unfold outside in O. pose proof (active_bound s). destruct (ih_active i) eqn:Ea; [|done].
  exfalso. assert (0 < active s); [|lia]. unfold active. apply list_elem_of_In in Hi.
  assert (Hin : In i (List.filter ih_active (idle_inhibitors s))) by (by apply filter_In).
  destruct (List.filter ih_active (idle_inhibitors s)); [done|]. cbn. lia.
Qed.

(** Time passes without the user, and the timers can be set. *)
Definition resting (l : idle_label) : bool :=
  match l with
  | l_do (i_motion _) | l_do (i_press _) | l_do (i_release _) => false
  | l_do (i_inhibit _ _ armed _ _) | l_fire_recheck armed => armed
  | _ => true
  end.

Lemma create_source add alloc id surface s :
  counted s -> outside s + Z.of_nat (length (idle_inhibitors s)) < UINT32_MAX ->
  forallb (fun i => negb (ih_resource i =? id)) (idle_inhibitors s) = true -> all_inactive s ->
  let s' := qdwin_idle_inhibit_create_inhibitor add alloc true id surface s in
  idle_source s' = idle_source s /\ cstate s' = cstate s.
Proof.
  intros C Hb Hf I s'. unfold s', qdwin_idle_inhibit_create_inhibitor. clear s'.
  assert (He : exists ok s0, qdwin_idle_inhibit_recheck_ensure add s = (ok, s0)
            /\ idle_inhibitors s0 = idle_inhibitors s /\ idle_inhibit s0 = idle_inhibit s
            /\ idle_source s0 = idle_source s /\ cstate s0 = cstate s /\ (ok = true -> recheck_timer s0 = true)).
  { unfold qdwin_idle_inhibit_recheck_ensure. destruct (inhibit_disabled s), (recheck_timer s) eqn:E, add;
      by eexists _, _. }
  destruct He as (ok & s0 & -> & Ei & Ec & Es & Est & Et).
  destruct ok; cbn [negb]; [|done]. destruct alloc; cbn [negb]; [|done].
  set (s1 := s0 <| idle_inhibitors ::= cons (mk_idle_inhibitor id surface false) |>).
  assert (C1 : counted s1).
  { destruct C as [N O1 O2]. unfold outside, active in *. constructor; unfold outside, active; cbn; rewrite ?Ei, ?Ec; try lia.
    constructor; [|done]. intros (m & Hm & Hin)%list_elem_of_In%in_map_iff.
    rewrite forallb_forall in Hf. specialize (Hf m Hin). rewrite Hm, Z.eqb_refl in Hf. done. }
  assert (J1 : all_justified s1).
  { apply inactive_justified. intros j [->|Hj]%elem_of_cons; [done|]. rewrite Ei in Hj. by apply I. }
  destruct (sync_source id s1 C1 J1) as [E1 _]. pose proof (sync_trans id s1 C1) as T.
  pose proof (sm_state _ _ (it_n _ _ T)) as E2. pose proof (it_rtimer _ _ T) as E3.
  set (s2 := qdwin_idle_inhibitor_sync id s1) in *. clearbody s2. cbn in E1, E2, E3.
  destruct (negb _); [by rewrite E1, E2|]. unfold qdwin_idle_inhibit_recheck_schedule.
  rewrite E3, Et by done. cbn. by rewrite E1, E2.
Qed.

Lemma rest_step L D l t :
  0 <= L -> resting l = true -> allowed L l t = true -> idle_inv L t -> idle_inhibit (ts t) = 0 ->
  cstate (ts t) ≠ COMPOSITOR_ACTIVE \/ (exists d, idle_source (ts t) = Some d /\ d <= D) ->
  cstate (ts (idle_step l t)) ≠ COMPOSITOR_ACTIVE
  \/ (exists d, idle_source (ts (idle_step l t)) = Some d /\ d <= D).
Proof.
  intros HL Hr A V Hz Q. pose proof (inv_allowed_counted L l t V A) as C. pose proof (count_inactive _ C Hz) as I.
  assert (C' : forall x st, counted (set_status x st (ts t))) by (intros x st; destruct C; by constructor).
  assert (Hkeep : forall s', cstate s' = cstate (ts t) \/ cstate s' ≠ COMPOSITOR_ACTIVE ->
            idle_source s' = idle_source (ts t) ->
            cstate s' ≠ COMPOSITOR_ACTIVE \/ (exists d, idle_source s' = Some d /\ d <= D)).
  { intros s' [E1|E1] E2; [|by left]. by rewrite E1, E2. }
  pose proof V as [B _]. pose proof B as [V1 [_ _ O _] _ _ _]. apply andb_true_iff in A as [A1%Z.ltb_lt A2].
  destruct l as [o|d| |x|armed]; cbn in *; try done.
  - destruct o; try done; cbn in *.
    + apply Hkeep; unfold qdwin_idle_notification_create; case_match; by auto.
    + unfold weston_compositor_sleep. case_bool_decide; [left; congruence|by left].
    + unfold weston_compositor_offscreen. case_bool_decide; [left; congruence|by left].
    + subst armed. destruct (create_source add alloc id surface (ts t) C) as [E1 E2];
        [rewrite O; lia|done|done|]. apply Hkeep; [by left|done].
    + apply Hkeep; [|by apply destroy_source]. left. unfold qdwin_idle_inhibitor_resource_destroy.
      destruct (find_inhibitor r (ts t)) as [i|] eqn:E; [|done]. apply find_inhibitor_spec in E as [Hi _].
      apply (sm_state _ _ (it_n _ _ (deactivate_trans i (ts t) C Hi))).
    + apply Hkeep; [left|].
      * apply (sm_state _ _ (it_n _ _ (proj1 (sync_all_spec _ (set_status x st (ts t)) (C' x st))))).
      * exact (sync_all_source _ (set_status x st (ts t)) (C' x st) (inactive_justified (set_status x st (ts t)) I)).
    + apply Hkeep; [left|].
      * apply (sm_state _ _ (it_n _ _ (proj1 (sync_all_spec _ (set_status x st (ts t)) (C' x st))))).
      * exact (sync_all_source _ (set_status x st (ts t)) (C' x st) (inactive_justified (set_status x st (ts t)) I)).
    + apply Hkeep; [left|by apply gone_source]. destruct t as [s h].
      apply (sm_state _ _ (it_n _ _ (proj2 (gone_base L HL h (listeners x s) s ltac:(cbn in *; lia) B)))).
  - left. unfold idle_handler. cbn. rewrite Hz. cbn. destruct (on_idle_hsame ((ts t) <| idle_source := None |>
      <| cstate := COMPOSITOR_IDLE |>)) as (_ & -> & _). done.
  - destruct (find_notification x (ts t)) as [k|] eqn:E; [|done].
    apply find_notification_spec in E as [Hk <-]. destruct (fire_spec _ k V1 Hk) as (_ & _ & _ & E3 & E4).
    apply Hkeep; [|done]. destruct E4 as [->|[-> _]]; by auto.
  - subst armed. apply andb_true_iff in A2 as [A2 _]. set (s0 := (ts t) <| recheck_deadline := None |>).
    assert (C0 : counted s0) by (destruct C; by constructor). unfold qdwin_idle_inhibit_recheck.
    set (l := map ih_resource (idle_inhibitors s0)). destruct (sync_all_spec l s0 C0) as [T _].
    pose proof (sync_all_source l s0 C0 (inactive_justified s0 I)) as Es.
    pose proof (sm_state _ _ (it_n _ _ T)) as Ec. pose proof (it_rtimer _ _ T) as Et.
    set (s1 := sync_all l s0) in *. clearbody s1. cbn in Es, Ec, Et.
    unfold qdwin_idle_inhibit_recheck_schedule. rewrite Et, A2. cbn. case_match; (apply Hkeep; [by left|done]).
Qed.

Lemma step_time l t : idle_time (ts (idle_step l t)) = idle_time (ts t).
Proof.
  assert (Hd : forall i s, idle_time (qdwin_idle_inhibitor_deactivate i s) = idle_time s)
    by (intros i s; unfold qdwin_idle_inhibitor_deactivate, arm_idle_source; by repeat case_match).
  assert (Hs : forall r s, idle_time (qdwin_idle_inhibitor_sync r s) = idle_time s).
  { intros r s. unfold qdwin_idle_inhibitor_sync, qdwin_idle_inhibitor_activate. repeat case_match; auto. }
  assert (Ha : forall k s, idle_time (sync_all k s) = idle_time s)
    by (induction k as [|r k IH]; intros s; [done|]; cbn; etransitivity; [apply IH|apply Hs]).
  assert (Hg : forall k s, idle_time (foldl (fun s r => qdwin_idle_inhibitor_sync r
             (upd_inhibitor r (fun i => i <| ih_surface := None |>) s)) s k) = idle_time s)
    by (induction k as [|r k IH]; intros s; [done|]; cbn; rewrite IH; by rewrite Hs).
  assert (Hx : forall r s, idle_time (qdwin_idle_inhibitor_resource_destroy r s) = idle_time s)
    by (intros r s; unfold qdwin_idle_inhibitor_resource_destroy; case_match; [apply Hd|done]).
  assert (Hw : forall s, idle_time (weston_compositor_wake s) = idle_time s)
    by (intros s; apply (hs_time _ _ (proj1 (wake_hsame s)))).
  assert (Hn : forall b s, idle_time (noting b s) = idle_time s)
    by (intros [] s; [apply (hs_time _ _ (proj1 (note_hsame s)))|done]).
  assert (Hrel : forall k s, idle_time (foldl (fun s r => match find_inhibitor r s with
             | Some i => qdwin_idle_inhibitor_deactivate i s | None => s end) s k) = idle_time s)
    by (induction k as [|r k IH]; intros s; [done|]; cbn; rewrite IH; case_match; auto).
  destruct l as [o|d| |x|armed]; cbn; try done.
  - destruct o; cbn; try done.
    + unfold qdwin_idle_notification_create. by case_match.
    + by rewrite Hn, Hw.
    + rewrite Hn. apply (Hw (ts t)).
    + rewrite Hn. exact (Hw ((ts t) <| idle_inhibit ::= fun x => u32 (x - 1) |>)).
    + unfold weston_compositor_sleep. by case_match.
    + unfold weston_compositor_offscreen. by case_match.
    + unfold qdwin_idle_inhibit_create_inhibitor, qdwin_idle_inhibit_recheck_ensure, qdwin_idle_inhibit_recheck_schedule.
      destruct (inhibit_disabled (ts t)), (recheck_timer (ts t)), add, alloc; cbn; try done;
        (destruct (negb _); cbn; [by rewrite Hs|]); destruct (negb _), armed; cbn; by rewrite ?Hx, Hs.
    + apply (Ha _ (set_status x st (ts t))).
    + apply (Ha _ (set_status x st (ts t))).
    + apply Hg.
  - unfold idle_handler. case_match; [done|]. by rewrite (hs_time _ _ (proj1 (on_idle_hsame _))).
  - destruct (find_notification x (ts t)); [|done]. unfold qdwin_idle_notification_timer_fire, qdwin_on_idle_signal.
    by repeat case_match.
  - unfold qdwin_idle_inhibit_recheck, qdwin_idle_inhibit_recheck_schedule, qdwin_idle_inhibitors_release_all.
    set (s1 := sync_all _ _). assert (E : idle_time s1 = idle_time (ts t)) by (unfold s1; by rewrite Ha).
    destruct (idle_inhibitors s1); [done|]. destruct (negb _), armed; cbn; by rewrite ?Hrel.
Qed.

Lemma run_time L ls t t' : idle_run L ls t t' -> idle_time (ts t) = idle_time (ts t').
Proof. induction 1 as [|? ? ? ? ? ? IH]; [done|]. by rewrite <- IH, step_time. Qed.

(** C19.  The session goes idle.  With libweston's own timer configured
    ([secs] seconds, so few that their milliseconds are an [int]), take any reachable state in which the compositor is
    active.  If from there on the user does nothing and no hold is in force at
    the end of any step, the compositor has left the active state once the
    configured time (and the lateness of the event loop) is over, whatever
    clients do meanwhile, even if the timer had expired while something held it
    back before. *)
Theorem session_idles (L now secs : Z) (before ls : list idle_label) (t t' : timed)
    (HL : 0 <= L) (Hnow : 0 <= now < 18446744073709551616) (Hsecs : 0 < secs <= 2147483)
    (R : idle_run L before (timed_init now secs) t) (R' : idle_run L ls t t')
    (Hrest : forallb resting ls = true) (Hfree : run_all (fun s => idle_inhibit s = 0) ls t)
    (Hlate : clock (ts t) + secs * 1000 + L < clock (ts t')) :
  cstate (ts t') ≠ COMPOSITOR_ACTIVE.
Proof.
  set (D := clock (ts t) + secs * 1000) in Hlate.
  pose proof (run_inv L HL _ _ _ R (init_inv L HL now secs Hnow)) as V.
  assert (Ht : idle_time (ts t) = secs).
  { rewrite <- (run_time L before (timed_init now secs) t R).
    unfold timed_init, idle_init. cbn [ts]. by rewrite (hs_time _ _ (proj1 (wake_hsame _))). }
  assert (Q : idle_inv L t' /\ (cstate (ts t') ≠ COMPOSITOR_ACTIVE
              \/ exists d, idle_source (ts t') = Some d /\ d <= D)).
  { refine (segment L _ resting (fun u => idle_inv L u /\ (cstate (ts u) ≠ COMPOSITOR_ACTIVE
              \/ exists d, idle_source (ts u) = Some d /\ d <= D)) _ ls t t' R' Hrest Hfree _).
    - intros l u Hr A Hz _ [W Q]. split; [by apply step_inv|by apply (rest_step L)].
    - split; [done|]. destruct V as [[_ _ V3 _ _] _]. apply run_all_head in Hfree.
      destruct (decide (cstate (ts t) = COMPOSITOR_ACTIVE)) as [Ha|]; [right|by left].
      destruct (V3 ltac:(lia) Ha Hfree) as (d & Hd & Hle). exists d. split; [done|]. rewrite Ht in Hle. done. }
  destruct Q as [[[_ _ _ [Lt _ _] _] _] [?|(d & Hd & Hle)]]; [done|].
  exfalso. rewrite Hd in Lt. cbn in Lt. lia.
Qed.

(** A key is held while the timer expires, then released. *)
Definition ex_configured : timed := timed_init 100 2.
Definition ex_held : list idle_label := [l_do (i_press true); l_tick 2000; l_fire_idle; l_tick 500; l_do (i_release true)].
Definition ex_released : timed := default ex_start (idle_exec_run 5 ex_held ex_configured).
Definition ex_away : list idle_label := [l_do (i_surface 3 ex_shown); l_tick 2000; l_fire_idle; l_tick 6].
Definition ex_gone_idle : timed := default ex_start (idle_exec_run 5 ex_away ex_released).

Lemma session_idles_witness : cstate (ts ex_released) = COMPOSITOR_ACTIVE /\ cstate (ts ex_gone_idle) ≠ COMPOSITOR_ACTIVE.
Proof.
  split; [vm_compute; reflexivity|].
  refine (session_idles 5 100 2 ex_held ex_away ex_released ex_gone_idle _ _ _ _ _ _ _ _).
  - lia.
  - lia.
  - lia.
  - apply exec_run. vm_compute. reflexivity.
  - apply exec_run. vm_compute. reflexivity.
  - reflexivity.
  - vm_compute. repeat split.
  - vm_compute. reflexivity.
Defined.

(** ** What the code does not do *)

(** The bound on the configured time is needed: one second more and the
    milliseconds do not fit an [int]. *)
Example idle_time_overflows :
  let s := ts (timed_init 0 2147484) in
  idle_source s = None /\ idle_events s = [ev_overflow]
  /\ idle_source (ts (timed_init 0 2147483)) = Some 2147483000.
Proof. vm_compute. by split_and!. Qed.

(** With libweston's own timer a notification can fire long before its timeout
    has passed since it was created: the idle signal fires every notification
    whose timeout is at most the configured time, however new it is. *)
Example new_notification_fires_early :
  let t := default ex_start (idle_exec_run 0 [l_tick 9999; l_do (i_notify true true 1 9000 false); l_tick 1; l_fire_idle]
             (timed_init 0 10)) in
  idle_events (ts t) = [ev_idled 1]
  /\ exists n, idle_notifications (ts t) = [n] /\ in_timeout n = 9000 /\ clock (ts t) - in_last n = 1.
Proof. vm_compute. split; [reflexivity|]. eexists. by split_and!. Qed.

(** With libweston's own timer a notification whose timer expires under an
    inhibitor is lost: after the inhibitor is gone nothing is armed, although
    the session is idle and the user stays away. *)
Example inhibited_timer_is_lost :
  let t := default ex_start (idle_exec_run 0
             [l_do (i_notify true true 1 5000 false); l_tick 1000; l_fire_idle; l_tick 3500;
              l_do (i_mapped 7 ex_shown); l_do (i_inhibit true true true 2 (Some 7)); l_tick 500;
              l_fire_notification 1; l_do (i_uninhibit 2); l_tick 500; l_fire_recheck true; l_tick 86400000]
             (timed_init 0 1)) in
  deadlines (ts t) = [] /\ idle_inhibit (ts t) = 0 /\ cstate (ts t) = COMPOSITOR_IDLE
  /\ clock (ts t) = 86405500 /\ idle_events (ts t) = [].
Proof. vm_compute. by split_and!. Qed.

(** In the internal mode keys that another grab than the default ones takes (the
    launcher's, the switcher's, the locker's) do not count as activity: the
    notification fires half a second after a key. *)
Example typing_elsewhere_idles :
  let t := default ex_start (idle_exec_run 0
             [l_do (i_notify true true 1 1000 false); l_tick 500; l_do (i_press false); l_do (i_release false);
              l_tick 500; l_fire_notification 1] (timed_init 0 0)) in
  idle_events (ts t) = [ev_idled 1] /\ clock (ts t) = 1000.
Proof. vm_compute. by split_and!. Qed.

(** In the internal mode a notification with timeout zero is never armed. *)
Example zero_timeout_never_fires :
  let t := default ex_start (idle_exec_run 0
             [l_do (i_notify true true 1 0 false); l_do (i_motion true); l_tick 86400000] (timed_init 0 0)) in
  deadlines (ts t) = [] /\ idle_events (ts t) = [] /\ clock (ts t) = 86400000.
Proof. vm_compute. by split_and!. Qed.
