(* ===== verification/Desk.v ===== *)
(** * Desk: surfaces, pointers and layer-shell objects

    The state the pointer code and the layer shell of [qdwin.c] share on top of
    [struct qdwin]: libweston's surfaces and view list, the pointers with their
    grabs and focus, the layer surfaces and their popups.  With it, libweston's
    part of pointer handling ([input.c], [compositor.c]): picking the view
    under a point, clamping a position to the outputs, focus and delivery.
    Positions are whole pixels. *)

From stdpp Require Import base list gmap strings option.
From S2P Require Import Prelude Logic Scene State Toplevel Dependents Focus.
From stdpp Require Import list.
#[local] Open Scope Z_scope.
Import LayerBox.

(** ** State *)

(** What is read of a [weston_surface]: size, role, the client of its resource
    and its main surface (itself unless a subsurface), whether its input region
    contains a point. *)
Record wsurface := mk_wsurface {
  ws_width : Z; ws_height : Z; ws_mapped : bool; ws_role : option string;
  ws_client : option Z; ws_main : Z; ws_input : Z -> Z -> bool
}.
#[global] Instance eta_wsurface : Eta wsurface := fun r =>
  mk_wsurface (ws_width r) (ws_height r) (ws_mapped r) (ws_role r) (ws_client r) (ws_main r)
    (ws_input r).

(** The double-buffered half of [struct qdwin_layer_surface]. *)
Record ls_params := mk_ls_params {
  desired_w : Z; desired_h : Z; anchor : Z; exclusive_zone : Z;
  margin_top : Z; margin_right : Z; margin_bottom : Z; margin_left : Z;
  kbd_interactivity : Z; exclusive_edge : Z
}.
#[global] Instance eta_ls_params : Eta ls_params := fun r =>
  mk_ls_params (desired_w r) (desired_h r) (anchor r) (exclusive_zone r) (margin_top r)
    (margin_right r) (margin_bottom r) (margin_left r) (kbd_interactivity r) (exclusive_edge r).

(** [struct qdwin_layer_surface], named by its resource. *)
Record lsurface := mk_lsurface {
  l_res : Z; l_surf : option Z; l_out : option Z; l_layer : Z;
  pending : ls_params; current : ls_params;
  initial_configure_sent : bool; last_configure_serial : Z; last_acked_serial : Z;
  l_box : box; l_v : option Z; l_mapped : bool
}.
#[global] Instance eta_lsurface : Eta lsurface := fun r =>
  mk_lsurface (l_res r) (l_surf r) (l_out r) (l_layer r) (pending r) (current r)
    (initial_configure_sent r) (last_configure_serial r) (last_acked_serial r)
    (l_box r) (l_v r) (l_mapped r).

(** [struct qdwin_layer_popup].  [lp_grab] is [grab_active]; [lp_seat] is
    [grab_seat], the seat whose pointer the grab was started on. *)
Record lpopup := mk_lpopup {
  lp_id : Z; lp_parent : Z; lp_res : option Z; lp_surf : Z; lp_view : Z;
  lp_grab : bool; lp_seat : option Z
}.
#[global] Instance eta_lpopup : Eta lpopup := fun r =>
  mk_lpopup (lp_id r) (lp_parent r) (lp_res r) (lp_surf r) (lp_view r) (lp_grab r) (lp_seat r).

(** A live xdg_popup: its surface, its positioner's offset, its client. *)
Record xdg_popup := mk_xdg_popup { xp_surf : Z; xp_x : Z; xp_y : Z; xp_client : Z }.

(** What [pointer->grab] points to.  A grab that is part of a popup dangles
    once the popup is freed. *)
Inductive pointer_grab :=
| ptr_default | ptr_popup (p : Z) | ptr_layer_popup (p : Z) | ptr_stream (s : Z) | ptr_other.
#[global] Instance pointer_grab_eq_dec : EqDecision pointer_grab.
Proof. solve_decision. Defined.

(** A [weston_pointer]: its grab, the view in focus and the position in it. *)
Record pointer := mk_pointer {
  ptr_seat : Z; ptr_grab : pointer_grab; ptr_focus : option Z; ptr_s : Z * Z; ptr_sprite : bool
}.
#[global] Instance eta_pointer : Eta pointer := fun r =>
  mk_pointer (ptr_seat r) (ptr_grab r) (ptr_focus r) (ptr_s r) (ptr_sprite r).

(** A pointer event, as a client's wl_pointer or a nested proxy's input sink
    receives it. *)
Inductive pointer_event :=
| pe_motion (sx sy : Z) | pe_relative_motion | pe_button (button : Z) (pressed : bool) | pe_axis
| pe_axis_source (source : Z) | pe_frame.

Inductive devent :=
| pointer_sent (surface : Z) (e : pointer_event)      (* wl_pointer of the surface's client *)
| sink_sent (fd : Z) (e : pointer_event)              (* QDNI packet of a nested proxy *)
| sink_focus (fd : Z) (enter : bool)
| chrome_button (h : Z) (side : nat) (sx sy button : Z) (pressed : bool)
| popup_button (h sx sy button : Z) (pressed : bool)
| note_activity
| default_cursor (st : Z)
| popup_done (xdg : Z)
| layer_configure (ls serial w h : Z)
| layer_closed (ls : Z)
| layer_error (res code : Z)
| layer_no_memory (client : Z)
(* freed memory is read: undefined behaviour, the handler stops here *)
| grab_use_after_free (g : pointer_grab)
| output_use_after_free (o : Z)
| layer_overflow (ls : Z).                            (* signed overflow *)

Record desk := mk_desk {
  base : qdwin;
  wsurfaces : gmap Z wsurface;
  view_surface : gmap Z Z;
  view_scissor : gmap Z (Z -> Z -> bool);             (* of the views that have one *)
  view_list : list Z;                                 (* compositor->view_list, as last built *)
  lsurfs : list lsurface;                             (* qdwin::layer_surfaces, newest first *)
  lpopups : list lpopup;                              (* all of them, newest first *)
  next_lp : Z;
  xdg_popups : gmap Z xdg_popup;
  layer_configure_serial_next : Z;
  pointers : list pointer;
  active_input_proxy : option Z;
  input_sinks : gmap Z Z;                             (* proxy_input_sink_fd by handle *)
  proxy_destroying : list Z;
  popup_pointer : gmap Z Z;                           (* qdwin_popup::grab.pointer *)
  confined : gmap Z Z;                                (* streams with a confinement grab: seat *)
  devents : list devent
}.
#[global] Instance eta_desk : Eta desk := fun r =>
  mk_desk (base r) (wsurfaces r) (view_surface r) (view_scissor r) (view_list r) (lsurfs r)
    (lpopups r) (next_lp r) (xdg_popups r) (layer_configure_serial_next r) (pointers r)
    (active_input_proxy r) (input_sinks r) (proxy_destroying r)
    (popup_pointer r) (confined r) (devents r).

Definition demit (e : devent) (d : desk) : desk := d <| devents ::= cons e |>.
Definition on_base (f : qdwin -> qdwin) (d : desk) : desk := d <| base ::= f |>.

(** ** Pointers *)

Definition pointer_of (i : Z) (d : desk) : option pointer :=
  List.find (fun p => ptr_seat p =? i) (pointers d).
Definition upd_pointer (i : Z) (f : pointer -> pointer) (d : desk) : desk :=
  d <| pointers ::= map (fun p => if ptr_seat p =? i then f p else p) |>.
Definition seat_of (i : Z) (d : desk) : option seat :=
  List.find (fun s => seat_id s =? i) (seats (base d)).

(** [pointer->pos], kept with the seat. *)
Definition ptr_pos (i : Z) (d : desk) : Z * Z :=
  match seat_of i d with Some s => pointer_pos s | None => (0, 0) end.
Definition set_ptr_pos (i : Z) (p : Z * Z) : desk -> desk :=
  on_base (upd_seat i (fun s => s <| pointer_pos := p |>)).

Definition focus_of (i : Z) (d : desk) : option Z :=
  match pointer_of i d with Some p => ptr_focus p | None => None end.
Definition pgrab_of (i : Z) (d : desk) : pointer_grab :=
  match pointer_of i d with Some p => ptr_grab p | None => ptr_default end.

Definition surface_of (v : Z) (d : desk) : option (Z * wsurface) :=
  match view_surface d !! v with
  | Some s => match wsurfaces d !! s with Some w => Some (s, w) | None => None end
  | None => None
  end.

(** [weston_coord_global_to_surface] for an untransformed view. *)
Definition to_surface (v : Z) (p : Z * Z) (d : desk) : Z * Z :=
  (fst p - view_x v (base d), snd p - view_y v (base d)).

Definition in_rect (x y w h : Z) (p : Z * Z) : bool :=
  (x <=? fst p) && (fst p <? x + w) && (y <=? snd p) && (snd p <? y + h).

Definition weston_view_takes_input_at_point (v : Z) (w : wsurface) (sp : Z * Z) (d : desk) : bool :=
  ws_input w (fst sp) (snd sp)
  && match view_scissor d !! v with Some f => f (fst sp) (snd sp) | None => true end.

Definition view_picks (p : Z * Z) (d : desk) (v : Z) : bool :=
  match surface_of v d with
  | Some (_, w) =>
      in_rect (view_x v (base d)) (view_y v (base d)) (ws_width w) (ws_height w) p
      && weston_view_takes_input_at_point v w (to_surface v p d) d
  | None => false
  end.
Definition weston_compositor_pick_view (p : Z * Z) (d : desk) : option Z :=
  List.find (view_picks p d) (view_list d).

(** The focus and the position in it.  The enter, leave and modifiers that a
    change of focus also sends carry no input and are not among [devents], which
    record what the pointer's devices did. *)
Definition weston_pointer_set_focus (i : Z) (v : option Z) (d : desk) : desk :=
  upd_pointer i (fun p => p <| ptr_focus := v |>
    <| ptr_s ::= (fun s => match v with Some v => to_surface v (ptr_pos i d) d | None => s end) |>) d.

(** An event goes to the wl_pointer resources of the client of the focused
    surface; a surface without a client receives nothing. *)
Definition weston_pointer_send (i : Z) (e : pointer_event) (d : desk) : desk :=
  match focus_of i d with
  | None => d
  | Some v => match surface_of v d with
      | Some (s, w) => if bool_decide (ws_client w = None) then d else demit (pointer_sent s e) d
      | None => d
      end
  end.

(** The motion event: an absolute position or a displacement. *)
Inductive motion_event := motion_abs (x y : Z) | motion_rel (dx dy : Z).
Definition weston_pointer_motion_to_abs (i : Z) (m : motion_event) (d : desk) : Z * Z :=
  match m with
  | motion_abs x y => (x, y)
  | motion_rel dx dy => (fst (ptr_pos i d) + dx, snd (ptr_pos i d) + dy)
  end.

Definition weston_output_contains_coord (o : output) (p : Z * Z) : bool :=
  in_rect (out_x o) (out_y o) (out_width o) (out_height o) p.
Definition clamp_axis (lo size x : Z) : Z :=
  if x <? lo then lo else if lo + size <=? x then lo + size - 1 else x.
Definition weston_coord_global_clamp_for_output (p : Z * Z) (o : output) : Z * Z :=
  (clamp_axis (out_x o) (out_width o) (fst p), clamp_axis (out_y o) (out_height o) (snd p)).

(** No seat is bound to one output.  The last output that contains the present
    position is the one the pointer is held on. *)
Definition weston_pointer_clamp (i : Z) (p : Z * Z) (d : desk) : Z * Z :=
  if existsb (fun o => weston_output_contains_coord o p) (outputs (base d)) then p
  else match last (List.filter (fun o => weston_output_contains_coord o (ptr_pos i d))
                     (outputs (base d))) with
  | Some o => weston_coord_global_clamp_for_output p o
  | None => p
  end.

(** ** Layer surfaces: access *)

Definition lsurf_of (r : Z) (d : desk) : option lsurface :=
  List.find (fun l => l_res l =? r) (lsurfs d).
Definition upd_lsurf (r : Z) (f : lsurface -> lsurface) (d : desk) : desk :=
  d <| lsurfs ::= map (fun l => if l_res l =? r then f l else l) |>.
Definition lpopup_of (i : Z) (d : desk) : option lpopup :=
  List.find (fun p => lp_id p =? i) (lpopups d).
Definition upd_lpopup (i : Z) (f : lpopup -> lpopup) (d : desk) : desk :=
  d <| lpopups ::= map (fun p => if lp_id p =? i then f p else p) |>.

(** The layer surfaces as the work area sees them. *)
Definition zone_of (l : lsurface) : layer_surface :=
  let c := current l in
  mk_layer_surface (l_mapped l) (l_out l) (anchor c) (exclusive_zone c) (exclusive_edge c)
    (margin_top c) (margin_right c) (margin_bottom c) (margin_left c).
Definition publish (d : desk) : desk :=
  on_base (fun q => q <| layer_surfaces := map zone_of (lsurfs d) |>) d.
Definition reflow (d : desk) : desk := on_base qdwin_panels_on_output_change (publish d).

(** Destroying a view takes it off libweston's lists and out of every pointer's
    focus. *)
Definition destroy_view (v : Z) (d : desk) : desk :=
  d ~> on_base (on_scene (weston_view_destroy v))
    ~> (fun d => d <| view_list ::= List.filter (fun w => negb (w =? v)) |>
                   <| view_surface ::= delete v |>)
    ~> (fun d => d <| pointers ::= map (fun p =>
          if bool_decide (ptr_focus p = Some v) then p <| ptr_focus := None |> else p) |>).
