(* ===== verification/Pointer.v ===== *)
(** * Pointer: hit tests, the default pointer grab and the popup grabs

    The pointer side of [qdwin.c]: which layer surface or window is under the
    pointer, the default grab the plugin installs in place of libweston's
    (click-to-focus, containment while locked, forwarding to nested proxies),
    the grab of shell popups and the grab of layer-shell popups. *)

From stdpp Require Import base list gmap strings option.
From S2P Require Import Prelude Logic Scene State Toplevel Dependents Focus Config Desk.
From stdpp Require Import list.
#[local] Open Scope Z_scope.

Definition BTN_LEFT : Z := 0x110.
Definition KEYBOARD_INTERACTIVITY_NONE : Z := 0.
Definition KEYBOARD_INTERACTIVITY_EXCLUSIVE : Z := 1.
Definition KEYBOARD_INTERACTIVITY_ON_DEMAND : Z := 2.

(** ** Hit tests *)

(** The output a layer surface is laid out on.  A stored output that is no
    longer listed has been freed. *)
Inductive resolved_output := no_output | live_output (o : output) | freed_output (i : Z).
Definition qdwin_layer_surface_resolve_output (l : lsurface) (d : desk) : resolved_output :=
  match l_out l with
  | Some i => match out_by_id i (base d) with
              | Some o => live_output o
              | None => freed_output i
              end
  | None => match outputs (base d) with o :: _ => live_output o | [] => no_output end
  end.

Definition qdwin_layer_surface_contains (l : lsurface) (p : Z * Z) (d : desk) : bool :=
  l_mapped l
  && match l_v l, l_surf l with
     | Some v, Some s =>
         match wsurfaces d !! s with
         | Some w =>
             (0 <? ws_width w) && (0 <? ws_height w)
             && in_rect (view_x v (base d)) (view_y v (base d)) (ws_width w) (ws_height w) p
             && weston_view_takes_input_at_point v w (to_surface v p d) d
         | None => false
         end
     | _, _ => false
     end.

Definition qdwin_layer_surface_at_pos (p : Z * Z) (d : desk) : option lsurface :=
  List.find (fun l => qdwin_layer_surface_contains l p d) (lsurfs d).
Definition qdwin_layer_surface_view_at_pos (p : Z * Z) (d : desk) : option Z :=
  match qdwin_layer_surface_at_pos p d with Some l => l_v l | None => None end.

(** [None] when the freed output is read. *)
Definition qdwin_layer_surface_blocks_toplevel_focus (l : option lsurface) (d : desk)
    : bool + Z :=
  match l with
  | None => inl false
  | Some l =>
      if negb (kbd_interactivity (current l) =? KEYBOARD_INTERACTIVITY_NONE) then inl true
      else match qdwin_layer_surface_resolve_output l d with
      | no_output => inl true
      | live_output o =>
          match l_surf l with
          | Some s =>
              match wsurfaces d !! s with
              | Some w => inl (negb ((exclusive_zone (current l) <=? 0)
                                     && (out_width o <=? ws_width w)
                                     && (out_height o <=? ws_height w)))
              | None => inl true
              end
          | None => inl true
          end
      | freed_output i =>
          match l_surf l with
          | Some _ => if exclusive_zone (current l) <=? 0 then inr i else inl true
          | None => inl true
          end
      end
  end.

Definition chrome_hit (p : Z * Z) (d : desk) (c : chrome) : bool :=
  match ch_view c, ch_surface c with
  | Some v, Some (_, w, h) =>
      (0 <? w) && (0 <? h) && in_rect (view_x v (base d)) (view_y v (base d)) w h p
  | _, _ => false
  end.

Fixpoint chrome_side (p : Z * Z) (d : desk) (s : nat) (cs : list chrome) : option (nat * Z) :=
  match cs with
  | [] => None
  | c :: cs => match chrome_hit p d c, ch_view c with
               | true, Some v => Some (s, v)
               | _, _ => chrome_side p d (S s) cs
               end
  end.

(** The toplevel, the side and the position in it; in tracking order. *)
Fixpoint chrome_scan (p : Z * Z) (d : desk) (ts : list toplevel) : option (Z * nat * (Z * Z)) :=
  match ts with
  | [] => None
  | t :: ts =>
      if proxy_pending t then chrome_scan p d ts
      else match chrome_side p d 0 (tl_chrome t) with
           | Some (s, v) => Some (handle t, s, to_surface v p d)
           | None => chrome_scan p d ts
           end
  end.
Definition qdwin_chrome_at_pos (p : Z * Z) (d : desk) : option (Z * nat * (Z * Z)) :=
  chrome_scan p d (toplevels (base d)).

Definition toplevel_of_view (v : Z) (q : qdwin) : option toplevel :=
  List.find (fun t => view t =? v) (toplevels q).

Definition content_hit (p : Z * Z) (d : desk) (v : Z) : option Z :=
  match toplevel_of_view v (base d) with
  | None => None
  | Some t =>
      if proxy_pending t then None
      else match surface_of v d with
      | Some (_, w) =>
          if (0 <? ws_width w) && (0 <? ws_height w)
             && in_rect (view_x v (base d)) (view_y v (base d)) (ws_width w) (ws_height w) p
          then Some (handle t) else None
      | None => None
      end
  end.

Definition qdwin_toplevel_at_pos (p : Z * Z) (d : desk) : option Z :=
  match qdwin_chrome_at_pos p d with
  | Some (h, _, _) => Some h
  | None => head (omap (content_hit p d) (layer_views normal_layer (the_scene (base d))))
  end.

(** ** Keyboard focus on demand *)

Definition exclusive_holder (l : lsurface) (focus : option Z) (o : lsurface) : bool :=
  negb (l_res o =? l_res l)
  && bool_decide (l_surf o ≠ None)
  && (kbd_interactivity (current o) =? KEYBOARD_INTERACTIVITY_EXCLUSIVE)
  && bool_decide (focus = l_surf o).

Definition qdwin_layer_surface_handle_on_demand_button (i : Z) (d : desk) : desk :=
  match qdwin_layer_surface_at_pos (ptr_pos i d) d with
  | None => d
  | Some l =>
      if bool_decide (l_surf l = None) then d
      else if negb (kbd_interactivity (current l) =? KEYBOARD_INTERACTIVITY_ON_DEMAND) then d
      else match seat_of i d with
      | None => d
      | Some s =>
          if negb (has_keyboard s) then d
          else if bool_decide (kbd_focus s = l_surf l) then d
          else if existsb (exclusive_holder l (kbd_focus s)) (lsurfs d) then d
          else on_base (weston_keyboard_set_focus i (l_surf l)) d
      end
  end.

(** ** The default pointer grab *)

Definition qdwin_proxy_for_view (v : option Z) (d : desk) : option Z :=
  match v with
  | None => None
  | Some v => handle <$> List.find (fun t => is_nested_proxy t
      && negb (bool_decide (handle t ∈ proxy_destroying d)) && (view t =? v)) (toplevels (base d))
  end.

Definition to_sink (h : option Z) (k : Z -> desk -> desk) (d : desk) : desk :=
  match h with
  | Some h => match input_sinks d !! h with Some fd => k fd d | None => d end
  | None => d
  end.

Definition qdwin_proxy_pointer_track_focus (i : Z) (d : desk) : desk :=
  let new_proxy := qdwin_proxy_for_view (focus_of i d) d in
  let old := active_input_proxy d in
  if bool_decide (new_proxy = old) then d
  else d ~> to_sink old (fun fd => demit (sink_focus fd false))
         ~> (fun d => d <| active_input_proxy := new_proxy |>)
         ~> to_sink new_proxy (fun fd => demit (sink_focus fd true)).

(** [if (view != pointer->focus) weston_pointer_set_focus(pointer, view)]. *)
Definition retarget (i : Z) (v : option Z) (d : desk) : desk :=
  if bool_decide (focus_of i d = v) then d else weston_pointer_set_focus i v d.

Definition qdwin_proxy_default_grab_focus (i : Z) (d : desk) : desk :=
  if locked (base d) then retarget i (lock_view (base d)) d
  else d ~> retarget i (weston_compositor_pick_view (ptr_pos i d) d)
         ~> qdwin_proxy_pointer_track_focus i.

(** ** Grabs: start, end *)

Definition weston_pointer_end_grab (i : Z) (d : desk) : desk :=
  d ~> upd_pointer i (fun p => p <| ptr_grab := ptr_default |>)
    ~> qdwin_proxy_default_grab_focus i.

(** ** Layer popups: the grab *)

Definition qdwin_layer_popup_bbox_contains (lp : lpopup) (p : Z * Z) (d : desk) : bool :=
  match wsurfaces d !! lp_surf lp with
  | Some w => (0 <? ws_width w) && (0 <? ws_height w)
              && in_rect (view_x (lp_view lp) (base d)) (view_y (lp_view lp) (base d))
                   (ws_width w) (ws_height w) p
  | None => false
  end.

Definition qdwin_surface_is_xdg_popup (w : wsurface) : bool :=
  bool_decide (ws_role w = Some "xdg_popup"%string).

Definition grab_client (lp : lpopup) (d : desk) : option Z :=
  match lp_res lp with Some r => xp_client <$> xdg_popups d !! r | None => None end.

Definition parent_surface (lp : lpopup) (d : desk) : option Z :=
  match lsurf_of (lp_parent lp) d with Some l => l_surf l | None => None end.

(** Is the surface [s] a target of grabbed input? *)
Definition popup_target (lp : lpopup) (s : Z) (w : wsurface) (d : desk) : bool :=
  (s =? lp_surf lp) || bool_decide (parent_surface lp d = Some s)
  || (ws_main w =? lp_surf lp) || bool_decide (parent_surface lp d = Some (ws_main w))
  || (bool_decide (grab_client lp d ≠ None) && bool_decide (ws_client w = grab_client lp d)
      && qdwin_surface_is_xdg_popup w).

Definition qdwin_layer_popup_grab_refilter_focus (lp : lpopup) (i : Z) (d : desk) : desk :=
  let picked := weston_compositor_pick_view (ptr_pos i d) d in
  let deliver := match picked with
                 | Some v => match surface_of v d with
                             | Some (s, w) => popup_target lp s w d
                             | None => false
                             end
                 | None => false
                 end in
  if deliver then retarget i picked d
  else if bool_decide (focus_of i d = None) then d
  else weston_pointer_set_focus i None d.

(** ** View streams: the confinement grab *)

Definition find_stream (s : Z) (d : desk) : option view_stream :=
  List.find (fun x => vs_id x =? s) (streams (base d)).

(** The exported window's view, while input to it is allowed. *)
Definition qdwin_stream_confine_target (x : view_stream) (d : desk) : option Z :=
  if negb (vs_allow_input x) then None
  else match vs_tl x with
  | None => None
  | Some h => match qdwin_toplevel_from_handle h (base d) with
      | None => None
      | Some t => if proxy_pending t || (view t =? NULL_VIEW) then None else Some (view t)
      end
  end.

Definition with_target (x : view_stream) (k : Z -> desk -> desk) (d : desk) : desk :=
  match qdwin_stream_confine_target x d with Some v => k v d | None => d end.

Definition qdwin_stream_confine_focus (x : view_stream) (i : Z) : desk -> desk :=
  with_target x (fun v => retarget i (Some v)).

(** A callback of a layer popup's grab acts on [grab->pointer], the pointer the
    grab was last started on.  Popup and pointer may both be gone: without a
    [lp_seat] the seat was released, and its pointer with it. *)
Definition layer_grab (p : Z) (k : lpopup -> Z -> desk -> desk) (d : desk) : desk :=
  match lpopup_of p d with
  | Some lp => match lp_seat lp with
      | Some i => k lp i d
      | None => demit (grab_use_after_free (ptr_layer_popup p)) d
      end
  | None => demit (grab_use_after_free (ptr_layer_popup p)) d
  end.

(** [pointer->grab->interface->focus]. *)
Definition grab_focus (i : Z) (d : desk) : desk :=
  match pgrab_of i d with
  | ptr_default => qdwin_proxy_default_grab_focus i d
  | ptr_popup _ => d
  | ptr_layer_popup p => layer_grab p qdwin_layer_popup_grab_refilter_focus d
  | ptr_stream s => match find_stream s d with
      | Some x => qdwin_stream_confine_focus x i d
      | None => demit (grab_use_after_free (ptr_stream s)) d
      end
  | ptr_other => d
  end.

Definition weston_pointer_start_grab (i : Z) (g : pointer_grab) (d : desk) : desk :=
  d ~> upd_pointer i (fun p => p <| ptr_grab := g |>) ~> grab_focus i.

Definition weston_pointer_move (i : Z) (m : motion_event) (d : desk) : desk :=
  d ~> set_ptr_pos i (weston_pointer_clamp i (weston_pointer_motion_to_abs i m d) d)
    ~> grab_focus i.

(** The displacement of a relative motion is added to the position here too. *)
Definition weston_pointer_send_motion (i : Z) (m : motion_event) (d : desk) : desk :=
  let old_focus := focus_of i d in
  let old_s := match pointer_of i d with Some p => ptr_s p | None => (0, 0) end in
  let pos := weston_pointer_clamp i (weston_pointer_motion_to_abs i m d) d in
  let d := match old_focus with
           | Some v => upd_pointer i (fun p => p <| ptr_s := to_surface v pos d |>) d
           | None => d
           end in
  let d := d ~> set_ptr_pos i pos ~> grab_focus i in
  let s := match pointer_of i d with Some p => ptr_s p | None => (0, 0) end in
  let d := if bool_decide (focus_of i d ≠ None) && bool_decide (old_focus = focus_of i d)
              && negb (bool_decide (old_s = s))
           then weston_pointer_send i (pe_motion (fst s) (snd s)) d else d in
  match m with
  | motion_rel _ _ => weston_pointer_send i pe_relative_motion d
  | motion_abs _ _ => d
  end.

(** [if (pointer->focus) send]. *)
Definition send_if_focused (i : Z) (k : desk -> desk) (d : desk) : desk :=
  if bool_decide (focus_of i d = None) then d else k d.

Definition qdwin_layer_popup_grab_motion (lp : lpopup) (i : Z) (m : motion_event) (d : desk) : desk :=
  d ~> weston_pointer_move i m
    ~> qdwin_layer_popup_grab_refilter_focus lp i
    ~> send_if_focused i (weston_pointer_send_motion i m).

(** [weston_desktop_xdg_popup_dismiss_layer_grab]. *)
Definition dismiss_layer_grab (r : option Z) (d : desk) : desk :=
  match r with
  | Some r => if bool_decide (xdg_popups d !! r = None) then d else demit (popup_done r) d
  | None => d
  end.

Definition qdwin_layer_popup_grab_button (lp : lpopup) (i button : Z) (pressed : bool) (d : desk)
    : desk :=
  if pressed && negb (qdwin_layer_popup_bbox_contains lp (ptr_pos i d) d) then
    d ~> upd_lpopup (lp_id lp) (fun lp => lp <| lp_res := None |>)
      ~> dismiss_layer_grab (lp_res lp)
      ~> (fun d => if lp_grab lp
                   then d ~> upd_lpopup (lp_id lp) (fun lp => lp <| lp_grab := false |>)
                          ~> weston_pointer_end_grab i
                   else d)
  else
    d ~> qdwin_layer_popup_grab_refilter_focus lp i
      ~> send_if_focused i (weston_pointer_send i (pe_button button pressed)).

(** The axis, axis-source and frame callbacks. *)
Definition qdwin_layer_popup_grab_forward (lp : lpopup) (i : Z) (e : pointer_event) (d : desk) : desk :=
  d ~> qdwin_layer_popup_grab_refilter_focus lp i
    ~> send_if_focused i (weston_pointer_send i e).

(** Leaves [pointer->grab] as it is. *)
Definition qdwin_layer_popup_grab_cancel (lp : lpopup) (d : desk) : desk :=
  d ~> upd_lpopup (lp_id lp) (fun lp => lp <| lp_grab := false |>)
    ~> dismiss_layer_grab (lp_res lp).

(** ** View streams: the events of a confined pointer *)

Definition qdwin_stream_confine_motion (x : view_stream) (i : Z) (m : motion_event) (d : desk) : desk :=
  d ~> weston_pointer_move i m
    ~> with_target x (fun v d => d ~> retarget i (Some v) ~> weston_pointer_send_motion i m).

(** The button and axis callbacks. *)
Definition qdwin_stream_confine_send (x : view_stream) (i : Z) (e : pointer_event) : desk -> desk :=
  with_target x (fun v d => d ~> retarget i (Some v) ~> weston_pointer_send i e).

(** The axis-source and frame callbacks, which keep the focus. *)
Definition qdwin_stream_confine_pass (x : view_stream) (i : Z) (e : pointer_event) : desk -> desk :=
  with_target x (fun _ => weston_pointer_send i e).

Definition qdwin_stream_confine_cancel (s : Z) (d : desk) : desk := d <| confined ::= delete s |>.

(** [i] is the stream's own seat. *)
Definition qdwin_stream_confine_grab_start (s i : Z) (d : desk) : desk :=
  if bool_decide (confined d !! s ≠ None) then d
  else match pointer_of i d with
  | None => d
  | Some _ => d ~> weston_pointer_start_grab i (ptr_stream s)
                ~> (fun d => d <| confined ::= <[s := i]> |>)
  end.

Definition qdwin_stream_confine_grab_end (s : Z) (d : desk) : desk :=
  match confined d !! s with
  | None => d
  | Some i =>
      let d := d <| confined ::= delete s |> in
      if bool_decide (pgrab_of i d = ptr_stream s) then weston_pointer_end_grab i d else d
  end.

(** ** Shell popups: the grab *)

Definition find_popup (p : Z) (d : desk) : option popup :=
  List.find (fun x => pp_id x =? p) (popups (base d)).

Definition qdwin_popup_bbox_contains (x : popup) (p : Z * Z) (d : desk) : bool :=
  match surface_of (pp_view x) d with
  | Some (_, w) => in_rect (view_x (pp_view x) (base d)) (view_y (pp_view x) (base d))
                     (ws_width w) (ws_height w) p
  | None => false
  end.

Definition qdwin_popup_grab_motion (i : Z) (m : motion_event) (d : desk) : desk :=
  d ~> weston_pointer_move i m
    ~> (fun d => retarget i (weston_compositor_pick_view (ptr_pos i d) d) d)
    ~> weston_pointer_send_motion i m.

Definition deactivate_popup_grab (p : Z) : desk -> desk :=
  on_base (fun q => q <| popups ::= map (fun x => if pp_id x =? p
                                                  then x <| pp_grab_active := false |> else x) |>).
Definition popup_dismiss (x : popup) (d : desk) : desk :=
  if pp_resource x then on_base (emit (popup_dismissed (pp_id x))) d else d.

Definition qdwin_popup_grab_button (x : popup) (i button : Z) (pressed : bool) (d : desk) : desk :=
  let pos := ptr_pos i d in
  if pressed && negb (qdwin_popup_bbox_contains x pos d) then
    d ~> (fun d => if pp_grab_active x
                   then d ~> weston_pointer_end_grab i ~> deactivate_popup_grab (pp_id x) else d)
      ~> popup_dismiss x
  else
    let d := weston_pointer_send i (pe_button button pressed) d in
    match shell_resource (base d) with
    | Some r =>
        if (21 <=? res_version r) && qdwin_popup_bbox_contains x pos d
        then let s := to_surface (pp_view x) pos d in
             demit (popup_button (pp_parent x) (fst s) (snd s) button pressed) d
        else d
    | None => d
    end.

Definition qdwin_popup_grab_cancel (x : popup) (d : desk) : desk :=
  d ~> deactivate_popup_grab (pp_id x) ~> popup_dismiss x.

(** The first seat with a pointer. *)
Definition qdwin_popup_start_grab (p : Z) (d : desk) : desk :=
  match pointer_seat (base d) with
  | Some s => d ~> weston_pointer_start_grab (seat_id s) (ptr_popup p)
                ~> (fun d => d <| popup_pointer ::= <[p := seat_id s]> |>)
  | None => d
  end.

(** [qdwin_popup_teardown] with the end of the grab and of the view's focus. *)
Definition teardown_popup (x : popup) (d : desk) : desk :=
  d ~> (fun d => if pp_grab_active x
                 then match popup_pointer d !! pp_id x with
                      | Some i => weston_pointer_end_grab i d
                      | None => d
                      end
                 else d)
    ~> (fun d => if pp_view x =? NULL_VIEW then d else destroy_view (pp_view x) d)
    ~> on_base (qdwin_popup_teardown x).

(** ** The default pointer grab: events *)

(** A picked cursor sprite gives way to the layer surface under it. *)
Definition skip_cursor_sprite (p : Z * Z) (v : option Z) (d : desk) : option Z :=
  match v with
  | Some v' => match surface_of v' d with
      | Some (_, w) =>
          if bool_decide (ws_role w = Some "wl_pointer-cursor"%string)
          then match qdwin_layer_surface_view_at_pos p d with Some lv => Some lv | None => v end
          else v
      | None => v
      end
  | None => None
  end.

Definition qdwin_proxy_default_grab_motion (i : Z) (m : motion_event) (d : desk) : desk :=
  let d := d ~> demit note_activity ~> weston_pointer_move i m in
  if locked (base d) then
    d ~> retarget i (lock_view (base d)) ~> weston_pointer_send_motion i m
  else
    let pos := ptr_pos i d in
    d ~> retarget i (skip_cursor_sprite pos (weston_compositor_pick_view pos d) d)
      ~> qdwin_proxy_pointer_track_focus i
      ~> (fun d => match pointer_of i d with
                   | Some p => if ptr_sprite p then d else demit (default_cursor i) d
                   | None => d
                   end)
      ~> weston_pointer_send_motion i m
      ~> (fun d => on_base (qdwin_ffm_consider i (qdwin_toplevel_at_pos (ptr_pos i d) d)) d)
      ~> (fun d => to_sink (active_input_proxy d) (fun fd d =>
            match active_input_proxy d with
            | Some h => match qdwin_toplevel_from_handle h (base d) with
                | Some t => if view t =? NULL_VIEW then d
                            else let s := to_surface (view t) (ptr_pos i d) d in
                                 demit (sink_sent fd (pe_motion (fst s) (snd s))) d
                | None => d
                end
            | None => d
            end) d).

(** The click-to-focus block of the button handler, for the window [h]. *)
Definition click_focus (i h : Z) (d : desk) : desk :=
  match qdwin_toplevel_from_handle h (base d) with
  | None => d
  | Some t =>
      d ~> (fun d => if raise_on_click (policy (base d))
                     then on_base (qdwin_toplevel_move_to_layer h normal_layer) d else d)
        ~> (fun d => if view t =? NULL_VIEW then d else retarget i (Some (view t)) d)
        ~> (fun d => match seat_of i d with
            | Some s =>
                if has_keyboard s && negb (view t =? NULL_VIEW)
                   && negb (bool_decide (kbd_focus s = Some (tl_surface t)))
                then d ~> on_base (weston_keyboard_set_focus i (focusable_surface t))
                       ~> on_base (qdwin_emit_seat_focus_changed i h)
                else d
            | None => d
            end)
  end.

Definition send_chrome_button (i button : Z) (pressed : bool) (d : desk) : desk :=
  match shell_resource (base d) with
  | Some r =>
      if 20 <=? res_version r then
        match qdwin_chrome_at_pos (ptr_pos i d) d with
        | Some (h, side, (sx, sy)) => demit (chrome_button h side sx sy button pressed) d
        | None => d
        end
      else d
  | None => d
  end.

Definition qdwin_proxy_default_grab_button (i button : Z) (pressed : bool) (d : desk) : desk :=
  let d := demit note_activity d in
  if locked (base d) then
    d ~> retarget i (lock_view (base d)) ~> weston_pointer_send i (pe_button button pressed)
  else
    let pos := ptr_pos i d in
    let layer_view := qdwin_layer_surface_view_at_pos pos d in
    match qdwin_layer_surface_blocks_toplevel_focus (qdwin_layer_surface_at_pos pos d) d with
    | inr o => demit (output_use_after_free o) d
    | inl blocks =>
        let left_press := pressed && (button =? BTN_LEFT) in
        let press_on_layer := left_press && bool_decide (layer_view ≠ None) && blocks in
        d ~> (fun d => if blocks && bool_decide (layer_view ≠ None) then retarget i layer_view d
                       else d)
          ~> (fun d => if left_press then qdwin_layer_surface_handle_on_demand_button i d else d)
          ~> (fun d => if left_press && negb press_on_layer
                       then match qdwin_toplevel_at_pos pos d with
                            | Some h => click_focus i h d
                            | None => d
                            end
                       else d)
          ~> weston_pointer_send i (pe_button button pressed)
          ~> send_chrome_button i button pressed
          ~> (fun d => to_sink (active_input_proxy d)
                         (fun fd => demit (sink_sent fd (pe_button button pressed))) d)
    end.

Definition qdwin_proxy_default_grab_axis (i : Z) (d : desk) : desk :=
  let d := demit note_activity d in
  if locked (base d) then weston_pointer_send i pe_axis d
  else d ~> weston_pointer_send i pe_axis
         ~> (fun d => to_sink (active_input_proxy d) (fun fd => demit (sink_sent fd pe_axis)) d).

(** ** Dispatch *)

(** What libweston's [notify_*] functions hand to the pointer's grab:
    [in_repick] is [weston_seat_repick], run when a repaint rebuilt the scene. *)
Inductive pointer_input :=
| in_motion (m : motion_event) | in_button (button : Z) (pressed : bool)
| in_axis | in_axis_source (source : Z) | in_frame | in_repick.

Definition default_grab_input (i : Z) (x : pointer_input) : desk -> desk :=
  match x with
  | in_motion m => qdwin_proxy_default_grab_motion i m
  | in_button b p => qdwin_proxy_default_grab_button i b p
  | in_axis => qdwin_proxy_default_grab_axis i
  | in_axis_source s => weston_pointer_send i (pe_axis_source s)
  | in_frame => weston_pointer_send i pe_frame
  | in_repick => qdwin_proxy_default_grab_focus i
  end.

Definition popup_grab_input (x : popup) (i : Z) (e : pointer_input) : desk -> desk :=
  match e with
  | in_motion m => qdwin_popup_grab_motion i m
  | in_button b p => qdwin_popup_grab_button x i b p
  | in_axis => weston_pointer_send i pe_axis
  | in_axis_source s => weston_pointer_send i (pe_axis_source s)
  | in_frame => weston_pointer_send i pe_frame
  | in_repick => fun d => d
  end.

Definition layer_popup_grab_input (lp : lpopup) (i : Z) (e : pointer_input) : desk -> desk :=
  match e with
  | in_motion m => qdwin_layer_popup_grab_motion lp i m
  | in_button b p => qdwin_layer_popup_grab_button lp i b p
  | in_axis => qdwin_layer_popup_grab_forward lp i pe_axis
  | in_axis_source s => qdwin_layer_popup_grab_forward lp i (pe_axis_source s)
  | in_frame => qdwin_layer_popup_grab_forward lp i pe_frame
  | in_repick => qdwin_layer_popup_grab_refilter_focus lp i
  end.

Definition stream_grab_input (x : view_stream) (i : Z) (e : pointer_input) : desk -> desk :=
  match e with
  | in_motion m => qdwin_stream_confine_motion x i m
  | in_button b p => qdwin_stream_confine_send x i (pe_button b p)
  | in_axis => qdwin_stream_confine_send x i pe_axis
  | in_axis_source s => qdwin_stream_confine_pass x i (pe_axis_source s)
  | in_frame => qdwin_stream_confine_pass x i pe_frame
  | in_repick => qdwin_stream_confine_focus x i
  end.

Definition notify_pointer (i : Z) (e : pointer_input) (d : desk) : desk :=
  match pgrab_of i d with
  | ptr_default => default_grab_input i e d
  | ptr_popup p => match find_popup p d with
      | Some x => popup_grab_input x i e d
      | None => demit (grab_use_after_free (ptr_popup p)) d
      end
  | ptr_layer_popup p => layer_grab p (fun lp j => layer_popup_grab_input lp j e) d
  | ptr_stream s => match find_stream s d with
      | Some x => stream_grab_input x i e d
      | None => demit (grab_use_after_free (ptr_stream s)) d
      end
  | ptr_other => d
  end.

(** [weston_pointer_cancel_grab], from [notify_keyboard_focus_out] and
    [weston_seat_release_pointer]: the cancel callback and nothing else. *)
Definition weston_pointer_cancel_grab (i : Z) (d : desk) : desk :=
  match pgrab_of i d with
  | ptr_default | ptr_other => d
  | ptr_popup p => match find_popup p d with
      | Some x => qdwin_popup_grab_cancel x d
      | None => demit (grab_use_after_free (ptr_popup p)) d
      end
  | ptr_layer_popup p => match lpopup_of p d with
      | Some lp => qdwin_layer_popup_grab_cancel lp d
      | None => demit (grab_use_after_free (ptr_layer_popup p)) d
      end
  | ptr_stream s => qdwin_stream_confine_cancel s d
  end.
