(* ===== verification/LayerShell.v ===== *)
(** * LayerShell: zwlr-layer-shell

    The layer shell of [qdwin.c]: double-buffered requests, the configure and
    commit cycle, mapping, exclusive zones, exclusive keyboard focus, popups of
    layer surfaces with the start and end of their pointer grab, and the gate
    on the global. *)

From stdpp Require Import base list gmap strings option.
From S2P Require Import Prelude Logic Scene Procfs State Toplevel Dependents Focus Lock Desk Pointer.
From stdpp Require Import list.
Import LayerBox Policy.
#[local] Open Scope Z_scope.

Definition LAYER_OVERLAY : Z := 3.
Definition INVALID_SURFACE_STATE : Z := 0.
Definition INVALID_ANCHOR : Z := 2.
Definition INVALID_KEYBOARD_INTERACTIVITY : Z := 3.
Definition INVALID_EXCLUSIVE_EDGE : Z := 4.
Definition SHELL_ERROR_ROLE : Z := 0.
Definition SHELL_ERROR_INVALID_LAYER : Z := 1.
Definition ANCHOR_ALL : Z := 15.
Definition QDWIN_LAYER_SURFACE_ROLE : string := "zwlr_layer_surface_v1".

Definition layer_shell_layer (l : Z) : layer :=
  if l =? 0 then layer_shell_0 else if l =? 1 then layer_shell_1
  else if l =? 2 then layer_shell_2 else layer_shell_3.

(** ** Layout and configure *)

(** The area a layer surface is laid out in: its output, or full HD when there
    is none; the freed output's name otherwise. *)
Definition layout_area (l : lsurface) (d : desk) : rect + Z :=
  match qdwin_layer_surface_resolve_output l d with
  | no_output => inl (mk_rect 0 0 1920 1080)
  | live_output o => inl (mk_rect (out_x o) (out_y o) (out_width o) (out_height o))
  | freed_output i => inr i
  end.

Definition qdwin_layer_surface_compute_box (c : ls_params) (r : rect) : option box :=
  qdwin_layer_compute_box (anchor c) (as_int (desired_w c)) (as_int (desired_h c))
    (margin_top c) (margin_right c) (margin_bottom c) (margin_left c) (rx r) (ry r) (rw r) (rh r).

(** Lay the surface out and continue with the new box. *)
Definition with_box (l : lsurface) (k : box -> desk -> desk) (d : desk) : desk :=
  match layout_area l d with
  | inr i => demit (output_use_after_free i) d
  | inl area => match qdwin_layer_surface_compute_box (current l) area with
      | None => demit (layer_overflow (l_res l)) d
      | Some b => k b (upd_lsurf (l_res l) (fun l => l <| l_box := b |>) d)
      end
  end.

Definition send_layer_configure (r : Z) (b : box) (d : desk) : desk :=
  let serial := u32 (layer_configure_serial_next d + 1) in
  d <| layer_configure_serial_next := serial |>
    ~> upd_lsurf r (fun l => l <| last_configure_serial := serial |>)
    ~> demit (layer_configure r serial (box_w b) (box_h b)).

Definition qdwin_layer_surface_send_configure (l : lsurface) : desk -> desk :=
  with_box l (send_layer_configure (l_res l)).

(** ** Mapping *)

Definition weston_seat_set_keyboard_focus (i : Z) (s : option Z) (q : qdwin) : qdwin :=
  match List.find (fun st => seat_id st =? i) (seats q) with
  | Some st => if has_keyboard st && negb (bool_decide (kbd_focus st = s))
               then weston_keyboard_set_focus i s q else q
  | None => q
  end.

Definition grant_exclusive_focus (l : lsurface) (d : desk) : desk :=
  if kbd_interactivity (current l) =? KEYBOARD_INTERACTIVITY_EXCLUSIVE
  then on_base (fun q => foldl (fun q st => weston_seat_set_keyboard_focus (seat_id st) (l_surf l) q)
                           q (seats q)) d
  else d.

Definition weston_surface_map (s : Z) (d : desk) : desk :=
  d <| wsurfaces ::= alter (fun w => w <| ws_mapped := true |>) s |>.

(** [weston_view_create] for the surface [s], or [None]. *)
Definition create_view (s : Z) (d : desk) : option Z * desk :=
  let '(v, q) := weston_view_create (base d) in
  let d := d <| base := q |> in
  match v with
  | Some v => (Some v, d <| view_surface ::= <[v := s]> |>)
  | None => (None, d)
  end.

(** Position the view of [l], map it the first time, grant the focus. *)
Definition place_and_map (l : lsurface) (s v : Z) (d : desk) : desk :=
  d ~> on_base (weston_view_set_position v (box_x (l_box l)) (box_y (l_box l)))
    ~> (fun d => if l_mapped l then d
                 else d ~> weston_surface_map s
                        ~> upd_lsurf (l_res l) (fun l => l <| l_mapped := true |>)
                        ~> reflow)
    ~> grant_exclusive_focus l.

(** The surface is there: a commit or a view come with one. *)
Definition qdwin_layer_surface_apply (r : Z) (d : desk) : desk :=
  match lsurf_of r d with
  | None => d
  | Some l =>
      if LAYER_OVERLAY <? l_layer l then d
      else match l_v l, l_surf l with
      | Some v, Some s => place_and_map l s v d
      | None, Some s =>
          match create_view s d with
          | (None, d) => d
          | (Some v, d) =>
              d ~> upd_lsurf r (fun l => l <| l_v := Some v |>)
                ~> on_base (on_scene (weston_view_move_to_layer v (layer_shell_layer (l_layer l))))
                ~> place_and_map l s v
          end
      | _, None => d
      end
  end.

(** ** Commit *)

Definition qdwin_layer_surface_on_commit (r : Z) (d : desk) : desk :=
  match lsurf_of r d with
  | None => d
  | Some l =>
      let l := l <| current := pending l |> in
      let d := publish (upd_lsurf r (fun l => l <| current := pending l |>) d) in
      if negb (initial_configure_sent l) then
        d ~> upd_lsurf r (fun l => l <| initial_configure_sent := true |>)
          ~> qdwin_layer_surface_send_configure l
      else
        with_box l (fun b d =>
          if negb (box_w b =? box_w (l_box l)) || negb (box_h b =? box_h (l_box l))
          then send_layer_configure r b d
          else qdwin_layer_surface_apply r d) d
  end.

(** ** Popups of layer surfaces *)

Definition qdwin_layer_popup_update_position (lp : lpopup) (d : desk) : desk :=
  match lsurf_of (lp_parent lp) d, lp_res lp with
  | Some l, Some r => match xdg_popups d !! r with
      | Some x => on_base (weston_view_set_position (lp_view lp) (box_x (l_box l) + xp_x x)
                             (box_y (l_box l) + xp_y x)) d
      | None => d
      end
  | _, _ => d
  end.

(** [lp->grab.pointer->grab == &lp->grab], when the grab is active and its seat
    alive. *)
Definition holds_grab (lp : lpopup) (d : desk) : bool :=
  lp_grab lp
  && match lp_seat lp with
     | Some i => bool_decide (pgrab_of i d = ptr_layer_popup (lp_id lp))
     | None => false
     end.

Definition qdwin_layer_popup_destroy (lp : lpopup) (d : desk) : desk :=
  d ~> (fun d => if holds_grab lp d
                 then match lp_seat lp with
                      | Some i =>
                          d ~> upd_lpopup (lp_id lp) (fun lp => lp <| lp_res := None |> <| lp_grab := false |>)
                            ~> weston_pointer_end_grab i
                      | None => d
                      end
                 else d)
    ~> (fun d => d <| lpopups ::= List.filter (fun p => negb (lp_id p =? lp_id lp)) |>)
    ~> destroy_view (lp_view lp).

Definition destroy_popups_of (r : Z) (d : desk) : desk :=
  foldl (fun d lp => qdwin_layer_popup_destroy lp d) d
    (List.filter (fun lp => lp_parent lp =? r) (lpopups d)).

(** The popup's surface, its xdg_popup or the seat of its grab goes away. *)
Definition qdwin_layer_popup_on_surface_destroyed (i : Z) (d : desk) : desk :=
  match lpopup_of i d with Some lp => qdwin_layer_popup_destroy lp d | None => d end.
Definition qdwin_layer_popup_on_popup_resource_destroyed (i : Z) (d : desk) : desk :=
  let d := upd_lpopup i (fun lp => lp <| lp_res := None |>) d in
  match lpopup_of i d with Some lp => qdwin_layer_popup_destroy lp d | None => d end.
Definition qdwin_layer_popup_on_grab_seat_destroyed (i : Z) : desk -> desk :=
  upd_lpopup i (fun lp => lp <| lp_seat := None |> <| lp_grab := false |>).

Definition qdwin_layer_popup_on_commit (i : Z) (d : desk) : desk :=
  match lpopup_of i d with Some lp => qdwin_layer_popup_update_position lp d | None => d end.

Definition qdwin_layer_popup_for_resource (x : Z) (d : desk) : option lpopup :=
  List.find (fun lp => bool_decide (lp_res lp = Some x))
    (flat_map (fun l => List.filter (fun lp => lp_parent lp =? l_res l) (lpopups d)) (lsurfs d)).

(** [start_grab] sets [grab.pointer] before it calls the focus callback. *)
Definition qdwin_layer_popup_layer_grab_handler (x i serial : Z) (d : desk) : bool * desk :=
  if negb (qdwin_seat_grab_serial_matches (seat_of i d) serial) then (false, d)
  else match qdwin_layer_popup_for_resource x d with
  | None => (false, d)
  | Some lp =>
      match seat_of i d with
      | None => (false, d)
      | Some s =>
          if negb (has_pointer s) then (false, d)
          else if lp_grab lp then (true, d)
          else (true,
            d ~> upd_lpopup (lp_id lp) (fun lp => lp <| lp_seat := Some i |>)
              ~> weston_pointer_start_grab i (ptr_layer_popup (lp_id lp))
              ~> upd_lpopup (lp_id lp) (fun lp => lp <| lp_grab := true |>))
      end
  end.

(** [alloc]: whether the allocation of the popup succeeds; [x] is the xdg_popup,
    unknown when it never got the popup role. *)
Definition qdwin_layer_surface_get_popup (alloc : bool) (client r x : Z) (d : desk) : desk :=
  match lsurf_of r d with
  | None => d
  | Some l =>
      match l_surf l, xdg_popups d !! x with
      | Some _, Some xp =>
          if negb alloc then demit (layer_no_memory client) d
          else match create_view (xp_surf xp) d with
          | (None, d) => demit (layer_no_memory client) d
          | (Some v, d) =>
              let lp := mk_lpopup (next_lp d) r (Some x) (xp_surf xp) v false None in
              d ~> (fun d => d <| next_lp ::= Z.succ |>)
                ~> on_base (on_scene (weston_view_move_to_layer v (layer_shell_layer (l_layer l))))
                ~> qdwin_layer_popup_update_position lp
                ~> (fun d => d <| lpopups ::= cons lp |>)
          end
      | _, _ => demit (layer_error r INVALID_SURFACE_STATE) d
      end
  end.

(** ** Requests *)

Definition set_pending (r : Z) (f : ls_params -> ls_params) : desk -> desk :=
  upd_lsurf r (fun l => l <| pending ::= f |>).

Definition qdwin_layer_surface_set_size (r w h : Z) : desk -> desk :=
  set_pending r (fun c => c <| desired_w := w |> <| desired_h := h |>).

(** [x & ~valid] on [uint32_t]. *)
Definition invalid_anchor (x : Z) : bool := negb (Z.ldiff x ANCHOR_ALL =? 0).

(** A request on a resource whose layer surface is there. *)
Definition with_lsurf (r : Z) (k : desk -> desk) (d : desk) : desk :=
  match lsurf_of r d with Some _ => k d | None => d end.

Definition qdwin_layer_surface_set_anchor (r a : Z) : desk -> desk :=
  with_lsurf r (if invalid_anchor a then demit (layer_error r INVALID_ANCHOR)
                else set_pending r (fun c => c <| anchor := a |>)).

Definition qdwin_layer_surface_set_exclusive_zone (r zone : Z) : desk -> desk :=
  set_pending r (fun c => c <| exclusive_zone := zone |>).

Definition qdwin_layer_surface_set_margin (r top right bottom left : Z) : desk -> desk :=
  set_pending r (fun c => c <| margin_top := top |> <| margin_right := right |>
                            <| margin_bottom := bottom |> <| margin_left := left |>).

Definition qdwin_layer_surface_set_keyboard_interactivity (r k : Z) : desk -> desk :=
  with_lsurf r (if KEYBOARD_INTERACTIVITY_ON_DEMAND <? k
                then demit (layer_error r INVALID_KEYBOARD_INTERACTIVITY)
                else set_pending r (fun c => c <| kbd_interactivity := k |>)).

Definition qdwin_layer_surface_set_exclusive_edge (r e : Z) : desk -> desk :=
  with_lsurf r (if negb (e =? 0) && invalid_anchor e
                then demit (layer_error r INVALID_EXCLUSIVE_EDGE)
                else set_pending r (fun c => c <| exclusive_edge := e |>)).

Definition qdwin_layer_surface_ack_configure (r serial : Z) : desk -> desk :=
  upd_lsurf r (fun l => l <| last_acked_serial := serial |>).

(** Applied at once. *)
Definition qdwin_layer_surface_set_layer (r layer : Z) (d : desk) : desk :=
  match lsurf_of r d with
  | None => d
  | Some l =>
      if LAYER_OVERLAY <? layer then demit (layer_error r SHELL_ERROR_INVALID_LAYER) d
      else
        d ~> upd_lsurf r (fun l => l <| l_layer := layer |>)
          ~> (fun d => match l_v l with
              | Some v => if l_layer l =? layer then d
                          else on_base (on_scene (weston_view_move_to_layer v
                                                    (layer_shell_layer layer))) d
              | None => d
              end)
  end.

(** ** Creation and destruction *)

Definition empty_params : ls_params := mk_ls_params 0 0 0 0 0 0 0 0 KEYBOARD_INTERACTIVITY_NONE 0.

Definition new_lsurface (id s : Z) (out : option Z) (layer : Z) : lsurface :=
  mk_lsurface id (Some s) out layer empty_params empty_params false 0 0 (mk_box 0 0 0 0) None false.

(** [out] is the output of the head behind the wl_output argument. *)
Definition qdwin_layer_shell_get_layer_surface (alloc : bool) (client mgr id s : Z)
    (out : option Z) (layer : Z) (d : desk) : desk :=
  match wsurfaces d !! s with
  | None => d
  | Some w =>
      if LAYER_OVERLAY <? layer then demit (layer_error mgr SHELL_ERROR_INVALID_LAYER) d
      else if negb (bool_decide (ws_role w = None)
                    || bool_decide (ws_role w = Some QDWIN_LAYER_SURFACE_ROLE))
      then demit (layer_error mgr SHELL_ERROR_ROLE) d
      else
        let d := d <| wsurfaces ::= <[s := w <| ws_role := Some QDWIN_LAYER_SURFACE_ROLE |>]> |> in
        if negb alloc then demit (layer_no_memory client) d
        else publish (d <| lsurfs ::= cons (new_lsurface id s out layer) |>)
  end.

Definition reserving (l : lsurface) : bool := l_mapped l && (0 <? exclusive_zone (current l)).

Definition drop_layer_view (l : lsurface) (d : desk) : desk :=
  match l_v l with Some v => destroy_view v d | None => d end.

Definition qdwin_layer_surface_on_surface_destroyed (r : Z) (d : desk) : desk :=
  match lsurf_of r d with
  | None => d
  | Some l =>
      d ~> drop_layer_view l
        ~> upd_lsurf r (fun l => match l_v l with
                                 | Some _ => l <| l_v := None |> <| l_mapped := false |>
                                 | None => l
                                 end)
        ~> destroy_popups_of r
        ~> upd_lsurf r (fun l => l <| l_surf := None |>)
        ~> (fun d => if reserving l then reflow d else publish d)
        ~> demit (layer_closed r)
  end.

Definition qdwin_layer_surface_resource_destroy (r : Z) (d : desk) : desk :=
  match lsurf_of r d with
  | None => d
  | Some l =>
      d ~> drop_layer_view l
        ~> upd_lsurf r (fun l => l <| l_v := None |>)
        ~> destroy_popups_of r
        ~> (fun d => d <| lsurfs ::= List.filter (fun l => negb (l_res l =? r)) |>)
        ~> (fun d => if reserving l then reflow d else publish d)
  end.

(** ** The surface's signals *)

(** [commit_signal] and [destroy_signal] of a surface run the listeners in the
    order they were added. *)
Definition layer_surface_commit (s : Z) (d : desk) : desk :=
  d ~> (fun d => foldl (fun d r => qdwin_layer_surface_on_commit r d) d
          (rev (map l_res (List.filter (fun l => bool_decide (l_surf l = Some s)) (lsurfs d)))))
    ~> (fun d => foldl (fun d i => qdwin_layer_popup_on_commit i d) d
          (rev (map lp_id (List.filter (fun lp => lp_surf lp =? s) (lpopups d))))).

Definition layer_surface_destroyed (s : Z) (d : desk) : desk :=
  d ~> (fun d => foldl (fun d r => qdwin_layer_surface_on_surface_destroyed r d) d
          (rev (map l_res (List.filter (fun l => bool_decide (l_surf l = Some s)) (lsurfs d)))))
    ~> (fun d => foldl (fun d i => qdwin_layer_popup_on_surface_destroyed i d) d
          (rev (map lp_id (List.filter (fun lp => lp_surf lp =? s) (lpopups d)))))
    ~> (fun d => d <| wsurfaces ::= delete s |>).

(** ** Seats *)

(** The seat's last pointer device goes: focus and grab are given up, the
    pointer stays. *)
Definition release_pointer_device (i : Z) (d : desk) : desk :=
  d ~> weston_pointer_set_focus i None ~> weston_pointer_cancel_grab i.

(** The seat goes: its pointer is freed, then [destroy_signal] reaches the popups
    whose grab was last started on it. *)
Definition release_seat (i : Z) (d : desk) : desk :=
  d ~> (fun d => d <| pointers ::= List.filter (fun p => negb (ptr_seat p =? i)) |>)
    ~> (fun d => foldl (fun d p => qdwin_layer_popup_on_grab_seat_destroyed p d) d
          (map lp_id (List.filter (fun lp => bool_decide (lp_seat lp = Some i)) (lpopups d)))).

(** A seat's first pointer device, when the seat has no pointer yet. *)
Definition init_pointer_device (i : Z) (d : desk) : desk :=
  match pointer_of i d with
  | Some _ => d
  | None => d <| pointers ::= cons (mk_pointer i ptr_default None (0, 0) false) |>
  end.

(** ** The gate *)

(** The administrator's allowlist: uid, executable and label, each optional. *)
Record layershell_allow := mk_layershell_allow {
  allow_uid : option Z; allow_exe : option string; allow_label : option string
}.

Definition layershell_allowlist_ok (a : layershell_allow) (before during after : procfs) (pid uid : Z)
    : bool :=
  match allow_uid a, allow_exe a, allow_label a with
  | None, None, None => true
  | u, e, l =>
      let st_before := qdwin_proc_starttime pid before in
      let st_after := qdwin_proc_starttime pid after in
      match u with Some u => uid =? u | None => true end
      && match e with Some e => String.eqb (qdwin_proc_exe pid during) e | None => true end
      && match l with Some l => String.eqb (qdwin_proc_selinux_label pid during) l | None => true end
      && negb (st_before =? 0) && negb (st_after =? 0) && (st_before =? st_after)
  end.

Definition bind_qdwin_layer_shell (a : layershell_allow) (before during after : procfs)
    (client pid uid version id : Z) (q : qdwin) : option wl_resource * qdwin :=
  let refuse := (None, emit (implementation_error client) q) in
  if bool_decide (client ∈ secctx_clients q) then refuse
  else if negb (layershell_allowlist_ok a before during after pid uid) then refuse
  else if match shell_resource q with
          | Some r =>
              if shell_bound q
              then (client =? res_client r)
                   || ((0 <? pid) && (pid =? shell_pid q) && (uid =? shell_uid q))
              else qdwin_layershell_pre_shell_uid_allowed uid (allowed_uid q)
          | None => qdwin_layershell_pre_shell_uid_allowed uid (allowed_uid q)
          end
  then (Some (mk_resource id version client), q)
  else refuse.
