(* ===== verification/OutputBoundary.v ===== *)
(** * OutputBoundary: the steps at the loss of an output

    What [qdwin.c] does to the desk when libweston takes an output away: grabs
    and focus that must not outlive it are cancelled, panels, launchers and layer
    surfaces on it are given a surviving output, and the windows that were on it
    are re-homed.  [Overlays] composes the whole transition.  Touch, input
    methods and the current selections, which [cancel_state] also resets, are not
    part of the state here. *)

From stdpp Require Import base list gmap strings option.
From S2P Require Import Prelude Logic Scene State Toplevel Dependents Focus Lock Clipboard Desk Pointer LayerShell.
From stdpp Require Import list.
Import Geometry.
#[local] Open Scope Z_scope.

(** ** libweston: the output leaves the list *)

(** [dirty] is [compositor->output_flow_dirty], set once outputs were placed
    by hand; otherwise the outputs right of the removed one close the gap. *)
Definition shift_output (removed : output) (o : output) : output :=
  if out_x o <=? out_x removed then o
  else mk_output (out_id o) (out_x o - out_width removed) (out_y o) (out_width o) (out_height o)
         (out_destroying o) (out_name o).

Definition remove_output (dirty : bool) (removed : output) (q : qdwin) : qdwin :=
  q <| outputs := let rest := List.filter (fun o => negb (out_id o =? out_id removed)) (outputs q) in
                  if dirty then rest else map (shift_output removed) rest |>.

(** ** Cancelling what must not outlive the output *)

Definition qdwin_output_boundary_survivor (removed : Z) (q : qdwin) : option output :=
  List.find (fun o => negb (out_id o =? removed) && negb (out_destroying o)) (outputs q).

Definition popups_of_toplevels (q : qdwin) : list popup :=
  omap (fun t => popup_of (handle t) q) (toplevels q).

Definition dismiss_and_destroy (d : desk) (lp : lpopup) : desk :=
  d ~> dismiss_layer_grab (lp_res lp) ~> qdwin_layer_popup_destroy lp.

Definition cancel_all_popups (d : desk) : desk :=
  d ~> (fun d => foldl (fun d x => teardown_popup x d) d (popups_of_toplevels (base d)))
    ~> (fun d => foldl dismiss_and_destroy d
          (flat_map (fun l => List.filter (fun lp => lp_parent lp =? l_res l) (lpopups d)) (lsurfs d))).

Definition cancel_pointer (d : desk) (i : Z) : desk :=
  d ~> (fun d => if bool_decide (pgrab_of i d = ptr_default) then d
                 else let d := weston_pointer_cancel_grab i d in
                      if bool_decide (pgrab_of i d = ptr_default) then d
                      else weston_pointer_end_grab i d)
    ~> weston_pointer_set_focus i None.

(** A keyboard grab that is left is cancelled and ended. *)
Definition cancel_keyboard (q : qdwin) (s : seat) : qdwin :=
  if negb (has_keyboard s) then q
  else q ~> (fun q => match grab_of (seat_id s) q with
                      | default_grab => q
                      | overlay_grab => q <| overlay_grab_active := false |>
                      | switcher_grab => q <| switcher_grab_active := false |>
                      | binding_grab _ | debug_grab _ _ _ _ => q
                      end)
         ~> set_grab (seat_id s) default_grab
         ~> weston_keyboard_set_focus (seat_id s) None.

Definition qdwin_output_boundary_cancel_state (d : desk) : desk :=
  d ~> cancel_all_popups
    ~> on_base (fun q => if move_grab_active q then qdwin_move_grab_end_for (move_grab_handle q) q
                         else q)
    ~> on_base qdwin_switcher_grab_end
    ~> on_base qdwin_overlay_grab_end
    ~> (fun d => foldl (fun d s => qdwin_stream_confine_grab_end s d) d
          (map vs_id (view_streams (base d))))
    ~> (fun d => foldl cancel_pointer d (map ptr_seat (pointers d)))
    ~> on_base (fun q => foldl cancel_keyboard q (seats q)).

(** ** Re-homing windows *)

Definition rehome_saved (tl : toplevel) (wa : rect) (x y w h : Z) : Z * Z :=
  let r := qdwin_rehome_outer_rect (x - inset_w tl) (y - inset_n tl) w h (rx wa) (ry wa) (rw wa) (rh wa) in
  (fst r + inset_w tl, snd r + inset_n tl).

Definition rehome_slots (wa : rect) (tl : toplevel) : toplevel :=
  let tl := if (0 <? saved_outer_w tl) && (0 <? saved_outer_h tl)
            then let r := rehome_saved tl wa (saved_x tl) (saved_y tl) (saved_outer_w tl)
                            (saved_outer_h tl) in
                 tl <| saved_x := fst r |> <| saved_y := snd r |>
            else tl in
  if (0 <? tile_saved_outer_w tl) && (0 <? tile_saved_outer_h tl)
  then let r := rehome_saved tl wa (tile_saved_x tl) (tile_saved_y tl) (tile_saved_outer_w tl)
                  (tile_saved_outer_h tl) in
       tl <| tile_saved_x := fst r |> <| tile_saved_y := snd r |>
  else tl.

(** The outer extent of a window, with [dw] by [dh] for one without any. *)
Definition outer_or (dw dh : Z) (tl : toplevel) : Z * Z :=
  let w := if 0 <? outer_width tl then outer_width tl else last_width tl in
  let h := if 0 <? outer_height tl then outer_height tl else last_height tl in
  (if w <=? 0 then dw else w, if h <=? 0 then dh else h).

(** [on_view_output] tells of a window whether libweston has its view on the
    output.  The centre of the window is compared in half pixels. *)
Definition qdwin_toplevel_belongs_to_output (on_view_output : Z -> bool) (o : output) (tl : toplevel)
    (q : qdwin) : bool :=
  negb (view tl =? NULL_VIEW)
  && (on_view_output (handle tl)
      || let (w, h) := outer_or 1 1 tl in
         let cx := 2 * (view_x (view tl) q - inset_w tl) + w in
         let cy := 2 * (view_y (view tl) q - inset_n tl) + h in
         (2 * out_x o <=? cx) && (cx <? 2 * (out_x o + out_width o))
         && (2 * out_y o <=? cy) && (cy <? 2 * (out_y o + out_height o))).

Definition place_outer (h x y w ht : Z) : qdwin -> qdwin :=
  with_tl h (fun tl q => q ~> upd_tl h (set_outer w ht)
                           ~> weston_view_set_position (view tl) (x + inset_w tl) (y + inset_n tl)).

Definition rehome_window (h : Z) (survivor : output) : qdwin -> qdwin :=
  with_tl h (fun tl q =>
    let wa := qdwin_output_work_area survivor q in
    if ts_has (state tl) QDWIN_TS_FULLSCREEN then
      qdwin_toplevel_apply_fullscreen_geometry h (Some survivor) q
    else if ts_has (state tl) QDWIN_TS_MAXIMIZED then
      q ~> upd_tl h (set_outer (rw wa) (rh wa))
        ~> resize_proxy_or h (rw wa) (rh wa) (desktop_set_maximized h true)
        ~> set_tl_position h (rx wa + inset_w tl) (ry wa + inset_n tl)
        ~> qdwin_toplevel_apply_inset h
        ~> qdwin_toplevel_position_chrome h
    else if (tiled tl =? QDWIN_TILE_LEFT) || (tiled tl =? QDWIN_TILE_RIGHT) then
      let left_w := cdiv (rw wa) 2 in
      let right := tiled tl =? QDWIN_TILE_RIGHT in
      let tile_w := if right then rw wa - left_w else left_w in
      q ~> place_outer h (if right then rx wa + left_w else rx wa) (ry wa) tile_w (rh wa)
        ~> (if is_nested_proxy tl then qdwin_nested_proxy_set_geometry h tile_w (rh wa)
            else qdwin_toplevel_apply_inset h)
        ~> qdwin_toplevel_position_chrome h
    else
      let (w, ht) := outer_or 800 600 tl in
      let r := qdwin_rehome_outer_rect (view_x (view tl) q - inset_w tl)
                 (view_y (view tl) q - inset_n tl) w ht (rx wa) (ry wa) (rw wa) (rh wa) in
      q ~> weston_view_set_position (view tl) (fst r + inset_w tl) (snd r + inset_n tl)
        ~> qdwin_toplevel_apply_inset h
        ~> qdwin_toplevel_position_chrome h).

Definition qdwin_output_boundary_rehome_toplevel (survivor : output) (q : qdwin) (tl0 : toplevel)
    : qdwin :=
  let h := handle tl0 in
  let (ow, oh) := outer_or 800 600 tl0 in
  q ~> upd_tl h (rehome_slots (qdwin_output_work_area survivor q))
    ~> rehome_window h survivor
    ~> with_tl h (fun tl q => shell_send 0
         (toplevel_geometry h (view_x (view tl) q - inset_w tl) (view_y (view tl) q - inset_n tl)
            (u32 (pos_or (outer_width tl) ow)) (u32 (pos_or (outer_height tl) oh))) q).

(** ** Objects placed on the output *)

Definition move_panel (removed : Z) (survivor : option output) (q : qdwin) (p : panel) : qdwin :=
  if bool_decide (p_output p = Some removed)
  then let p := p <| p_output := out_id <$> survivor |> in
       q ~> upd_panel (p_id p) (fun _ => p) ~> qdwin_panel_place p
  else q.

Definition move_launcher (removed : Z) (survivor : option output) (q : qdwin) (ln : launcher) : qdwin :=
  if bool_decide (out_id <$> l_output ln = Some removed)
  then let ln := ln <| l_output := survivor |> in
       q ~> upd_launcher (l_id ln) (fun _ => ln) ~> qdwin_launcher_place ln
  else q.

Definition move_layer_surface (removed : Z) (survivor : option output) (d : desk) (r : Z) : desk :=
  match lsurf_of r d with
  | None => d
  | Some l =>
      let out := if bool_decide (l_out l = None) || bool_decide (l_out l = Some removed)
                 then out_id <$> survivor else l_out l in
      let d := publish (upd_lsurf r (fun l => l <| l_out := out |>) d) in
      if bool_decide (survivor ≠ None) && bool_decide (out = out_id <$> survivor)
      then d ~> qdwin_layer_surface_send_configure (l <| l_out := out |>)
             ~> (fun d => if bool_decide (l_v l = None) then d else qdwin_layer_surface_apply r d)
      else d
  end.
