(* ===== verification/PointerFacts.v ===== *)
(** * PointerFacts: where pointer input goes

    Pointer events while the session is locked, under the grab of a layer
    popup and under the confinement grab of a view stream, for any sequence of
    inputs; click-to-focus; keyboard focus on demand. *)

From stdpp Require Import base list gmap strings option.
From S2P Require Import Prelude Logic Scene State Toplevel ToplevelFacts Dependents Focus Config Lock LockTheorems Desk Pointer.
From stdpp Require Import list.
#[local] Open Scope Z_scope.

(** ** What pointer handling leaves alone

    Moving a pointer, changing its focus and delivering events touch the
    pointers, the event list and the seats' pointer positions; everything else
    of the state, its rest, stays. *)

Definition still_seat (s : seat) : seat := s <| pointer_pos := (0, 0) |>.
Definition rest (d : desk) : desk :=
  d <| pointers := [] |> <| devents := [] |>
    <| base ::= (fun q => q <| seats ::= map still_seat |>) |>.

Definition same_rest (d d' : desk) : Prop := rest d = rest d'.

#[global] Instance same_rest_equiv : Equivalence same_rest.
Proof. split; [intros d|intros d d'|intros d1 d2 d3]; unfold same_rest; congruence. Qed.

Lemma rest_field {A} (f : desk -> A) d d' :
  (forall r, f (rest r) = f r) -> same_rest d d' -> f d = f d'.
Proof. intros Hf H. by rewrite <- (Hf d), <- (Hf d'), H. Qed.

Lemma rest_upd_pointer i f d : same_rest (upd_pointer i f d) d.
Proof. done. Qed.
Lemma rest_demit e d : same_rest (demit e d) d.
Proof. done. Qed.
Lemma rest_set_pos i p d : same_rest (set_ptr_pos i p d) d.
Proof.
  assert (H : forall l, map still_seat (map (fun s => if seat_id s =? i
      then s <| pointer_pos := p |> else s) l) = map still_seat l).
  { intros l. rewrite map_map. apply map_ext. intros s. by destruct (_ =? _). }
  unfold same_rest, rest, set_ptr_pos, on_base, upd_seat, upd_field; cbn. by rewrite H.
Qed.
Lemma rest_set_focus i v d : same_rest (weston_pointer_set_focus i v d) d.
Proof. done. Qed.
Lemma rest_retarget i v d : same_rest (retarget i v d) d.
Proof. unfold retarget. by case_bool_decide. Qed.
Lemma rest_send i e d : same_rest (weston_pointer_send i e d) d.
Proof.
  unfold weston_pointer_send. destruct (focus_of i d) as [v|]; [|done].
  destruct (surface_of v d) as [[s w]|]; [|done]. by case_bool_decide.
Qed.
#[export] Hint Resolve rest_upd_pointer rest_demit rest_set_pos rest_set_focus rest_retarget
  rest_send : qdwin.

(** ** Pointers *)

Lemma pointer_of_upd i f d :
  (forall p, ptr_seat (f p) = ptr_seat p) -> pointer_of i (upd_pointer i f d) = f <$> pointer_of i d.
Proof.
  intros Hf. unfold pointer_of, upd_pointer; cbn. induction (pointers d) as [|p l IH]; [done|]. cbn.
  destruct (ptr_seat p =? i) eqn:E; cbn; [by rewrite Hf, E|by rewrite E, IH].
Qed.

Lemma grab_set_focus i v d : pgrab_of i (weston_pointer_set_focus i v d) = pgrab_of i d.
Proof.
  unfold pgrab_of, weston_pointer_set_focus. rewrite pointer_of_upd by done.
  by destruct (pointer_of i d).
Qed.
Lemma grab_retarget i v d : pgrab_of i (retarget i v d) = pgrab_of i d.
Proof. unfold retarget. case_bool_decide; [done|apply grab_set_focus]. Qed.
Lemma grab_send i e d : pgrab_of i (weston_pointer_send i e d) = pgrab_of i d.
Proof.
  unfold weston_pointer_send. destruct (focus_of i d) as [v|]; [|done].
  destruct (surface_of v d) as [[s w]|]; [|done]. by case_bool_decide.
Qed.

Definition has_pointer_state (i : Z) (d : desk) : Prop := is_Some (pointer_of i d).

Lemma has_set_focus i v d : has_pointer_state i d -> has_pointer_state i (weston_pointer_set_focus i v d).
Proof.
  intros [p Hp]. unfold has_pointer_state, weston_pointer_set_focus. rewrite pointer_of_upd by done.
  rewrite Hp. by eexists.
Qed.
Lemma has_retarget i v d : has_pointer_state i d -> has_pointer_state i (retarget i v d).
Proof. unfold retarget. case_bool_decide; [done|apply has_set_focus]. Qed.
Lemma has_send i e d : has_pointer_state i d -> has_pointer_state i (weston_pointer_send i e d).
Proof.
  unfold weston_pointer_send. destruct (focus_of i d) as [v|]; [|done].
  destruct (surface_of v d) as [[s w]|]; [|done]. by case_bool_decide.
Qed.

Lemma focus_set_focus i v d :
  has_pointer_state i d -> focus_of i (weston_pointer_set_focus i v d) = v.
Proof.
  intros [p Hp]. unfold focus_of, weston_pointer_set_focus. rewrite pointer_of_upd by done.
  by rewrite Hp.
Qed.
Lemma focus_retarget i v d : has_pointer_state i d -> focus_of i (retarget i v d) = v.
Proof. intros H. unfold retarget. case_bool_decide; [done|by apply focus_set_focus]. Qed.
Lemma focus_send i e d : focus_of i (weston_pointer_send i e d) = focus_of i d.
Proof.
  unfold weston_pointer_send. destruct (focus_of i d) as [v|] eqn:E; [|done].
  destruct (surface_of v d) as [[s w]|]; [|done]. case_bool_decide; done.
Qed.
#[export] Hint Resolve has_set_focus has_retarget has_send : qdwin.

(** ** Emitted events *)

(** [d'] comes from [d] by appending events that all satisfy [P]. *)
Definition emits (P : devent -> Prop) (d d' : desk) : Prop :=
  exists evs, devents d' = evs ++ devents d /\ Forall P evs.

Lemma emits_refl P d d' : devents d' = devents d -> emits P d d'.
Proof. intros H. exists []. by split. Qed.
Lemma emits_one (P : devent -> Prop) e d : P e -> emits P d (demit e d).
Proof. intros H. exists [e]. split; [done|]. by constructor. Qed.
Lemma emits_trans P d1 d2 d3 : emits P d1 d2 -> emits P d2 d3 -> emits P d1 d3.
Proof.
  intros (e1 & H1 & F1) (e2 & H2 & F2). exists (e2 ++ e1). rewrite H2, H1, (assoc_L (++)).
  split; [done|]. by apply Forall_app.
Qed.
Lemma emits_mono (P Q : devent -> Prop) d d' :
  (forall e, P e -> Q e) -> emits P d d' -> emits Q d d'.
Proof. intros H (e & He & F). exists e. split; [done|]. by eapply Forall_impl. Qed.

Lemma events_retarget i v d : devents (retarget i v d) = devents d.
Proof. unfold retarget. by case_bool_decide. Qed.

(** An event goes to the surface in focus. *)
Lemma emits_send (P : devent -> Prop) i e d :
  (forall v s w, focus_of i d = Some v -> surface_of v d = Some (s, w) -> P (pointer_sent s e)) ->
  emits P d (weston_pointer_send i e d).
Proof.
  intros H. unfold weston_pointer_send. destruct (focus_of i d) as [v|]; [|by apply emits_refl].
  destruct (surface_of v d) as [[s w]|] eqn:E; [|by apply emits_refl].
  case_bool_decide; [by apply emits_refl|]. apply emits_one. eauto.
Qed.

Lemma surface_of_rest v d d' : same_rest d d' -> surface_of v d = surface_of v d'.
Proof. intros H. by apply (rest_field (surface_of v)). Qed.

(** ** Grabs that hold the focus

    A grab whose focus callback keeps the focus inside [K] delivers only to
    surfaces of views in [K]: moving the pointer runs the callback, and events
    go to the focus. *)

Section held_focus.
Context (d0 : desk) (i : Z) (g : pointer_grab) (K : option Z -> Prop).

Definition steady (d : desk) : Prop :=
  same_rest d d0 /\ has_pointer_state i d /\ pgrab_of i d = g.
Definition held (d : desk) : Prop := steady d /\ K (focus_of i d).
Definition targeted (e : devent) : Prop :=
  match e with
  | pointer_sent s _ => exists v w, K (Some v) /\ surface_of v d0 = Some (s, w)
  | note_activity => True
  | _ => False
  end.

Hypothesis Hfocus : forall d, steady d ->
  held (grab_focus i d) /\ devents (grab_focus i d) = devents d.

Lemma steady_retarget v d : steady d -> steady (retarget i v d).
Proof.
  intros (H1 & H2 & H3). split_and!; [|by apply has_retarget|by rewrite grab_retarget].
  etransitivity; [apply rest_retarget|done].
Qed.

Lemma held_retarget v d : steady d -> K v -> held (retarget i v d).
Proof.
  intros H Hv. split; [by apply steady_retarget|]. by rewrite focus_retarget by apply H.
Qed.

Lemma steady_set_pos p d : steady d -> steady (set_ptr_pos i p d).
Proof. intros (H1 & H2 & H3). split_and!; try done. etransitivity; [apply rest_set_pos|done]. Qed.

Lemma held_move m d :
  steady d -> held (weston_pointer_move i m d) /\ devents (weston_pointer_move i m d) = devents d.
Proof. intros H. exact (Hfocus _ (steady_set_pos _ d H)). Qed.

Lemma held_send e d :
  held d -> held (weston_pointer_send i e d) /\ emits targeted d (weston_pointer_send i e d).
Proof.
  intros ((H1 & H2 & H3) & HK). split.
  - split; [split_and!|]; rewrite ?grab_send, ?focus_send; auto with qdwin.
    etransitivity; [apply rest_send|done].
  - apply emits_send. intros v s w Hv Hs. exists v, w. rewrite <- Hv.
    split; [done|]. by rewrite <- (surface_of_rest v d d0).
Qed.

Lemma steady_set_s s d : steady d -> steady (upd_pointer i (fun p => p <| ptr_s := s |>) d).
Proof.
  intros (H1 & [p Hp] & H3). unfold steady, has_pointer_state, pgrab_of in *.
  rewrite (pointer_of_upd i _ d) by done. rewrite Hp in *. split_and!; [done|by eexists|done].
Qed.

Lemma held_send_motion m d :
  held d -> held (weston_pointer_send_motion i m d) /\ emits targeted d (weston_pointer_send_motion i m d).
Proof.
  intros [Hs HK]. unfold weston_pointer_send_motion.
  set (pos := weston_pointer_clamp _ _ _).
  set (d1 := match focus_of i d with Some v => upd_pointer i _ d | None => d end).
  assert (H1 : steady d1 /\ devents d1 = devents d).
  { unfold d1. destruct (focus_of i d); [|done]. split; [by apply steady_set_s|done]. }
  destruct H1 as [H1 E1].
  set (d2 := d1 ~> set_ptr_pos i pos ~> grab_focus i).
  assert (H2 : held d2 /\ devents d2 = devents d).
  { rewrite <- E1. exact (Hfocus (set_ptr_pos i pos d1) (steady_set_pos pos d1 H1)). }
  destruct H2 as [H2 E2]. clearbody d2. cbv zeta.
  assert (H3 : forall b e, held (if b : bool then weston_pointer_send i e d2 else d2)
                /\ emits targeted d (if b then weston_pointer_send i e d2 else d2)).
  { intros b e. destruct (held_send e d2 H2) as [A B].
    assert (emits targeted d d2) by by apply emits_refl.
    destruct b; split; try done. by eapply emits_trans. }
  specialize (H3 (bool_decide (focus_of i d2 ≠ None) && bool_decide (focus_of i d = focus_of i d2)
    && negb (bool_decide ((match pointer_of i d with Some p => ptr_s p | None => (0,0) end)
         = (match pointer_of i d2 with Some p => ptr_s p | None => (0,0) end))))
    (pe_motion (fst (match pointer_of i d2 with Some p => ptr_s p | None => (0,0) end))
               (snd (match pointer_of i d2 with Some p => ptr_s p | None => (0,0) end)))).
  revert H3. set (d3 := if _ : bool then weston_pointer_send _ _ _ else _). clearbody d3.
  intros [H3 E3]. destruct m as [x y|dx dy]; [done|].
  destruct (held_send pe_relative_motion d3 H3). split; [done|]. by eapply emits_trans.
Qed.

Lemma held_if_focused e d :
  held d -> held (send_if_focused i (weston_pointer_send i e) d)
            /\ emits targeted d (send_if_focused i (weston_pointer_send i e) d).
Proof.
  intros H. unfold send_if_focused. case_bool_decide; [|by apply held_send].
  split; [done|by apply emits_refl].
Qed.

End held_focus.

(** ** The locked session *)

(** The inputs that bring the focus back to the lock screen. *)
Definition refocuses (e : pointer_input) : bool :=
  match e with in_motion _ | in_button _ _ | in_repick => true | _ => false end.

Definition feed_pointer (i : Z) (d : desk) (inputs : list pointer_input) : desk :=
  foldl (fun d e => notify_pointer i e d) d inputs.

Section locked.
Context (d0 : desk) (i : Z).
Hypothesis Hlocked : locked (base d0) = true.

Let K (v : option Z) : Prop := v = lock_view (base d0).

Lemma locked_rest d : same_rest d d0 -> locked (base d) = true /\ lock_view (base d) = lock_view (base d0).
Proof.
  intros H. split.
  - rewrite <- Hlocked. by apply (rest_field (fun d => locked (base d))).
  - by apply (rest_field (fun d => lock_view (base d))).
Qed.

Lemma locked_focus d :
  steady d0 i ptr_default d ->
  held d0 i ptr_default K (grab_focus i d) /\ devents (grab_focus i d) = devents d.
Proof.
  intros H. pose proof H as (H1 & H2 & H3). destruct (locked_rest d H1) as [L1 L2].
  unfold grab_focus. rewrite H3. unfold qdwin_proxy_default_grab_focus. rewrite L1, L2.
  split; [by apply held_retarget|apply events_retarget].
Qed.

Lemma locked_input e d :
  steady d0 i ptr_default d -> (refocuses e = true \/ K (focus_of i d)) ->
  held d0 i ptr_default K (notify_pointer i e d)
  /\ emits (targeted d0 K) d (notify_pointer i e d).
Proof.
  intros H He. pose proof H as (H1 & H2 & H3). destruct (locked_rest d H1) as [L1 L2].
  unfold notify_pointer. rewrite H3. destruct e as [m|b p| |s| |]; cbn [default_grab_input].
  - unfold qdwin_proxy_default_grab_motion.
    destruct (held_move d0 i ptr_default K locked_focus m (demit note_activity d) H) as [A B].
    set (d1 := weston_pointer_move i m (demit note_activity d)) in *.
    change (demit note_activity d ~> weston_pointer_move i m) with d1.
    destruct (locked_rest d1) as [L3 L4]; [apply A|]. cbv zeta. rewrite L3, L4.
    destruct (held_send_motion d0 i ptr_default K locked_focus m (retarget i (lock_view (base d0)) d1))
      as [C D]; [by apply held_retarget; [apply A|]|].
    split; [exact C|]. eapply emits_trans; [|exact D]. exists [note_activity].
    rewrite events_retarget, B. split; [done|by repeat constructor].
  - unfold qdwin_proxy_default_grab_button. cbv zeta.
    change (locked (base (demit note_activity d))) with (locked (base d)).
    change (lock_view (base (demit note_activity d))) with (lock_view (base d)). rewrite L1, L2.
    destruct (held_send d0 i ptr_default K (pe_button b p)
                (retarget i (lock_view (base d0)) (demit note_activity d))) as [C D];
      [by apply held_retarget|].
    split; [exact C|]. eapply emits_trans; [|exact D]. exists [note_activity].
    rewrite events_retarget. split; [done|by repeat constructor].
  - destruct He as [He|He]; [discriminate|]. unfold qdwin_proxy_default_grab_axis.
    change (locked (base (demit note_activity d))) with (locked (base d)). rewrite L1.
    destruct (held_send d0 i ptr_default K pe_axis (demit note_activity d)) as [C D]; [by split|].
    split; [exact C|]. refine (emits_trans _ _ (demit note_activity d) _ _ D). by apply emits_one.
  - destruct He as [He|He]; [discriminate|]. by apply held_send.
  - destruct He as [He|He]; [discriminate|]. by apply held_send.
  - destruct (locked_focus d H) as [A B]. revert A B. unfold grab_focus. rewrite H3.
    intros A B. split; [exact A|by apply emits_refl].
Qed.

Lemma locked_feed inputs d :
  held d0 i ptr_default K d ->
  held d0 i ptr_default K (feed_pointer i d inputs) /\ emits (targeted d0 K) d (feed_pointer i d inputs).
Proof.
  revert d. induction inputs as [|e l IH]; intros d H; [split; [done|by apply emits_refl]|].
  destruct (locked_input e d) as [A B]; [apply H|right; apply H|].
  destruct (IH _ A) as [C D]. split; [exact C|]. by eapply emits_trans.
Qed.

End locked.

(** C21.  While the session is locked no pointer input reaches anything but the
    lock screen: whatever motions, buttons, scrolls, frames and repicks arrive
    on a seat under the default grab, once one of them has brought the focus
    back, every event sent to a client goes to the surface of the lock view; no
    nested proxy and no decoration hears of them; the windows, their stacking,
    the keyboard focus of every seat and the whole state beside the pointer
    itself stay as they are. *)
Theorem locked_pointer_contained (i : Z) (d : desk) (e : pointer_input) (inputs : list pointer_input) :
  locked (base d) = true -> has_pointer_state i d -> pgrab_of i d = ptr_default ->
  refocuses e = true \/ focus_of i d = lock_view (base d) ->
  let d' := feed_pointer i d (e :: inputs) in
  (exists evs, devents d' = evs ++ devents d
     /\ forall ev, ev ∈ evs -> match ev with
        | pointer_sent s _ => exists v w, lock_view (base d) = Some v /\ surface_of v d = Some (s, w)
        | note_activity => True
        | _ => False
        end)
  /\ focus_of i d' = lock_view (base d) /\ same_rest d' d.
Proof.
  intros HL HP HG He d'.
  destruct (locked_input d i HL e d) as [A B]; [by split_and!|tauto|].
  destruct (locked_feed d i HL inputs _ A) as [((C1 & C2 & C3) & C4) D].
  split_and!; [|exact C4|exact C1].
  destruct (emits_trans _ _ _ _ B D) as (evs & E1 & E2). exists evs. split; [exact E1|].
  intros ev Hev. rewrite Forall_forall in E2. specialize (E2 ev Hev).
  destruct ev; try done. destruct E2 as (v & w & Hv & Hw). by exists v, w.
Qed.

(** ** Layer popups *)

Lemma popup_target_rest lp s w d d' : same_rest d d' -> popup_target lp s w d = popup_target lp s w d'.
Proof. intros H. by apply (rest_field (popup_target lp s w)). Qed.
Lemma lpopup_of_rest p d d' : same_rest d d' -> lpopup_of p d = lpopup_of p d'.
Proof. intros H. by apply (rest_field (lpopup_of p)). Qed.
Lemma find_stream_rest s d d' : same_rest d d' -> find_stream s d = find_stream s d'.
Proof. intros H. by apply (rest_field (find_stream s)). Qed.
Lemma confine_target_rest x d d' :
  same_rest d d' -> qdwin_stream_confine_target x d = qdwin_stream_confine_target x d'.
Proof. intros H. by apply (rest_field (qdwin_stream_confine_target x)). Qed.

Section layer_popup.
Context (d0 : desk) (i p : Z) (lp : lpopup).
Hypothesis Hlp : lpopup_of p d0 = Some lp.
Hypothesis Hseat : lp_seat lp = Some i.

(** No focus, or a view of the popup's family. *)
Let K (v : option Z) : Prop :=
  match v with
  | None => True
  | Some v => exists s w, surface_of v d0 = Some (s, w) /\ popup_target lp s w d0 = true
  end.
Let g : pointer_grab := ptr_layer_popup p.

Lemma refilter_held d :
  steady d0 i g d -> held d0 i g K (qdwin_layer_popup_grab_refilter_focus lp i d)
  /\ devents (qdwin_layer_popup_grab_refilter_focus lp i d) = devents d.
Proof.
  intros H. unfold qdwin_layer_popup_grab_refilter_focus. set (v := weston_compositor_pick_view _ _).
  cbv zeta. destruct (match v with Some v => _ | None => false end) eqn:E.
  - split; [|apply events_retarget]. apply held_retarget; [done|]. destruct v as [v|]; [|done].
    destruct (surface_of v d) as [[s w]|] eqn:Es; [|done]. exists s, w.
    rewrite <- (surface_of_rest v d d0) by apply H.
    by rewrite <- (popup_target_rest lp s w d d0) by apply H.
  - case_bool_decide as Ef; [split; [|done]; split; [done|by rewrite Ef]|].
    split; [|done]. destruct H as (H1 & H2 & H3). split; [split_and!|]; auto with qdwin.
    + by rewrite grab_set_focus.
    + by rewrite focus_set_focus.
Qed.

Lemma layer_focus d :
  steady d0 i g d -> held d0 i g K (grab_focus i d) /\ devents (grab_focus i d) = devents d.
Proof.
  intros H. pose proof H as (H1 & H2 & H3). unfold grab_focus. rewrite H3; cbn.
  unfold layer_grab. rewrite (lpopup_of_rest p d d0 H1), Hlp, Hseat. by apply refilter_held.
Qed.

Definition outside_press (e : pointer_input) (d : desk) : bool :=
  match e with
  | in_button _ true => negb (qdwin_layer_popup_bbox_contains lp (ptr_pos i d) d)
  | _ => false
  end.

Lemma layer_input e d :
  steady d0 i g d -> outside_press e d = false ->
  held d0 i g K (notify_pointer i e d) /\ emits (targeted d0 K) d (notify_pointer i e d).
Proof.
  intros H He. pose proof H as (H1 & H2 & H3). unfold notify_pointer. rewrite H3; cbn.
  unfold layer_grab. rewrite (lpopup_of_rest p d d0 H1), Hlp, Hseat.
  assert (F : forall e, held d0 i g K (qdwin_layer_popup_grab_forward lp i e d)
                /\ emits (targeted d0 K) d (qdwin_layer_popup_grab_forward lp i e d)).
  { intros e'. destruct (refilter_held d H) as [A B].
    destruct (held_if_focused d0 i g K e' _ A) as [C D]. split; [exact C|].
    eapply emits_trans; [by apply emits_refl|exact D]. }
  destruct e as [m|b pr| |s| |]; cbn [layer_popup_grab_input]; try apply F.
  - unfold qdwin_layer_popup_grab_motion.
    destruct (held_move d0 i g K layer_focus m d H) as [A B].
    destruct (refilter_held _ (proj1 A)) as [A' B'].
    set (d1 := qdwin_layer_popup_grab_refilter_focus lp i (weston_pointer_move i m d)) in *.
    change (d ~> weston_pointer_move i m ~> qdwin_layer_popup_grab_refilter_focus lp i) with d1.
    assert (E1 : emits (targeted d0 K) d d1) by (apply emits_refl; congruence).
    unfold send_if_focused. case_bool_decide; [done|].
    destruct (held_send_motion d0 i g K layer_focus m d1 A') as [C D].
    split; [exact C|]. by eapply emits_trans.
  - unfold qdwin_layer_popup_grab_button.
    replace (pr && _) with false by (destruct pr; [symmetry; exact He|done]). apply F.
  - destruct (refilter_held d H) as [A B]. split; [exact A|by apply emits_refl].
Qed.

End layer_popup.

(** No press outside the popup while the inputs are fed. *)
Fixpoint inside_only (lp : lpopup) (i : Z) (d : desk) (inputs : list pointer_input) : Prop :=
  match inputs with
  | [] => True
  | e :: l => outside_press i lp e d = false /\ inside_only lp i (notify_pointer i e d) l
  end.

Lemma layer_feed d0 i p lp inputs d :
  lpopup_of p d0 = Some lp -> lp_seat lp = Some i -> steady d0 i (ptr_layer_popup p) d -> inside_only lp i d inputs ->
  steady d0 i (ptr_layer_popup p) (feed_pointer i d inputs)
  /\ emits (targeted d0 (fun v => match v with
       | None => True
       | Some v => exists s w, surface_of v d0 = Some (s, w) /\ popup_target lp s w d0 = true
       end)) d (feed_pointer i d inputs).
Proof.
  intros Hlp Hs. revert d. induction inputs as [|e l IH]; intros d H Hi; [split; [done|by apply emits_refl]|].
  destruct Hi as [He Hl]. destruct (layer_input d0 i p lp Hlp Hs e d H He) as [[A _] B].
  destruct (IH _ A Hl) as [C D]. split; [exact C|]. by eapply emits_trans.
Qed.

Lemma lpopup_of_id p d lp : lpopup_of p d = Some lp -> lp_id lp = p.
Proof. intros [_ H]%List.find_some. zbool. done. Qed.

Definition no_delivery (e : devent) : Prop :=
  match e with sink_focus _ _ => True | _ => False end.

Lemma events_to_sink (P : devent -> Prop) h b d :
  (forall fd, P (sink_focus fd b)) -> emits P d (to_sink h (fun fd => demit (sink_focus fd b)) d).
Proof.
  intros H. unfold to_sink. destruct h as [h|]; [|by apply emits_refl].
  destruct (input_sinks d !! h); [by apply emits_one|by apply emits_refl].
Qed.

Lemma emits_track i d : emits no_delivery d (qdwin_proxy_pointer_track_focus i d).
Proof.
  unfold qdwin_proxy_pointer_track_focus. case_bool_decide; [by apply emits_refl|].
  set (d1 := to_sink (active_input_proxy d) _ d).
  apply (emits_trans _ _ d1); [by apply events_to_sink|].
  apply (emits_trans _ _ (d1 <| active_input_proxy := qdwin_proxy_for_view (focus_of i d) d |>));
    [by apply emits_refl|by apply events_to_sink].
Qed.

Lemma emits_default_focus i d : emits no_delivery d (qdwin_proxy_default_grab_focus i d).
Proof.
  unfold qdwin_proxy_default_grab_focus. destruct (locked (base d)).
  - apply emits_refl, events_retarget.
  - eapply emits_trans; [|apply emits_track]. apply emits_refl, events_retarget.
Qed.

Lemma grab_to_sink i h b d : pgrab_of i (to_sink h (fun fd => demit (sink_focus fd b)) d) = pgrab_of i d.
Proof. unfold to_sink. destruct h as [h|]; [|done]. by destruct (input_sinks d !! h). Qed.

Lemma grab_default_focus i d : pgrab_of i (qdwin_proxy_default_grab_focus i d) = pgrab_of i d.
Proof.
  unfold qdwin_proxy_default_grab_focus. destruct (locked (base d)); [apply grab_retarget|].
  unfold qdwin_proxy_pointer_track_focus. case_bool_decide; [apply grab_retarget|].
  rewrite grab_to_sink. unfold pgrab_of, pointer_of; cbn.
  set (d1 := to_sink _ _ _). change (pgrab_of i d1 = pgrab_of i d). unfold d1.
  by rewrite grab_to_sink, grab_retarget.
Qed.

Lemma end_grab_default i d :
  has_pointer_state i d -> pgrab_of i (weston_pointer_end_grab i d) = ptr_default
  /\ emits no_delivery d (weston_pointer_end_grab i d).
Proof.
  intros [p Hp]. unfold weston_pointer_end_grab. split.
  - rewrite grab_default_focus. unfold pgrab_of. rewrite pointer_of_upd by done. by rewrite Hp.
  - eapply emits_trans; [|apply emits_default_focus]. by apply emits_refl.
Qed.

(** ** A concrete desk *)

(** A panel on the layer shell with a menu open on it, above a window; the
    pointer of seat 1 is over the menu, and the menu holds its grab. *)
Definition everywhere (x y : Z) : bool := true.
Definition pt_seat : seat := mk_seat 1 true (Some 100) true default_grab true (30, 60) [5] true 1 false.
Definition pt_base : qdwin :=
  (wet_shell_init [ex_output] [pt_seat] 1000)
    <| toplevels := [ex_toplevel] |> <| next_handle := 1 |> <| next_view := 92 |>
    <| view_pos := {[ 11 := (0, 0); 90 := (0, 0); 91 := (10, 40) ]} |>
    ~> on_scene (weston_view_move_to_layer 11 normal_layer)
    ~> on_scene (weston_view_move_to_layer 90 layer_shell_2)
    ~> on_scene (weston_view_move_to_layer 91 layer_shell_2).
Definition pt_panel : lsurface :=
  mk_lsurface 70 (Some 80) (Some 1) 2 (mk_ls_params 0 40 13 40 0 0 0 0 2 0)
    (mk_ls_params 0 40 13 40 0 0 0 0 2 0) true 1 1 (LayerBox.mk_box 0 0 1920 40) (Some 90) true.
Definition pt_popup : lpopup := mk_lpopup 1 70 (Some 60) 81 91 true (Some 1).
Definition pt_desk : desk :=
  mk_desk pt_base
    {[ 100 := mk_wsurface 300 200 true (Some "xdg_toplevel"%string) (Some 7) 100 everywhere;
       80 := mk_wsurface 1920 40 true (Some "zwlr_layer_surface_v1"%string) (Some 9) 80 everywhere;
       81 := mk_wsurface 100 200 true (Some "xdg_popup"%string) (Some 9) 81 everywhere ]}
    {[ 11 := 100; 90 := 80; 91 := 81 ]} ∅ [91; 90; 11] [pt_panel] [pt_popup] 2
    {[ 60 := mk_xdg_popup 81 10 40 9 ]} 1
    [mk_pointer 1 (ptr_layer_popup 1) (Some 91) (20, 20) true] None ∅ [] ∅ ∅ [].

(** The same desk without the grab, locked, with a lock screen. *)
Definition pt_locked : desk :=
  pt_desk <| pointers := [mk_pointer 1 ptr_default (Some 11) (30, 60) true] |>
          <| base ::= (fun q => q <| locked := true |> <| lock_view := Some 95 |>) |>
          <| view_surface ::= <[95 := 102]> |>
          <| wsurfaces ::= <[102 := mk_wsurface 1920 1080 true None (Some 8) 102 everywhere]> |>.

Lemma locked_pointer_contained_witness :
  locked (base pt_locked) = true
  /\ focus_of 1 (feed_pointer 1 pt_locked [in_button BTN_LEFT true; in_axis]) = Some 95
  /\ exists evs, devents (feed_pointer 1 pt_locked [in_button BTN_LEFT true; in_axis]) = evs ++ devents pt_locked.
Proof.
  split; [done|].
  destruct (locked_pointer_contained 1 pt_locked (in_button BTN_LEFT true) [in_axis])
    as ((evs & H & _) & F & _).
  - reflexivity.
  - by eexists.
  - reflexivity.
  - by left.
  - split; [exact F|]. by exists evs.
Defined.

(** What the locked session does not contain: with the pointer over a window
    when the session is locked, a scroll that comes before any motion, button
    or repaint goes to that window's client. *)
Example scroll_leaks_after_lock :
  devents (notify_pointer 1 in_axis pt_locked) = [pointer_sent 100 pe_axis; note_activity].
Proof. reflexivity. Qed.

(** The grab of a layer popup keeps pointer input within the popup's
    family.  While no button is pressed outside the popup, whatever input
    arrives, every event goes to a client through a surface that is the popup,
    its layer surface, a subsurface of either, or another xdg_popup of the
    popup's client, and nothing else of the state changes; the grab stays.  A
    press outside is delivered to nobody: it ends the grab and sends popup_done
    once. *)
Theorem layer_popup_grab_contained (i p : Z) (lp : lpopup) (d : desk) (inputs : list pointer_input)
    (button : Z) :
  pgrab_of i d = ptr_layer_popup p -> has_pointer_state i d -> lpopup_of p d = Some lp ->
  lp_seat lp = Some i -> inside_only lp i d inputs ->
  let d1 := feed_pointer i d inputs in
  let d2 := notify_pointer i (in_button button true) d1 in
  pgrab_of i d1 = ptr_layer_popup p /\ same_rest d1 d
  /\ (exists evs, devents d1 = evs ++ devents d /\ forall e, e ∈ evs ->
       match e with
       | pointer_sent s _ => exists v w, surface_of v d = Some (s, w) /\ popup_target lp s w d = true
       | note_activity => True
       | _ => False
       end)
  /\ (lp_grab lp = true -> outside_press i lp (in_button button true) d1 = true ->
      pgrab_of i d2 = ptr_default
      /\ exists evs, devents d2 = evs ++ (match lp_res lp with
           | Some r => if bool_decide (xdg_popups d !! r = None) then [] else [popup_done r]
           | None => []
           end) ++ devents d1 /\ Forall no_delivery evs).
Proof.
  intros HG HP Hlp Hs Hi d1 d2.
  destruct (layer_feed d i p lp inputs d Hlp Hs) as [(A1 & A2 & A3) (evs & E1 & E2)]; [by split_and!|done|].
  fold d1 in A1, A2, A3, E1. split_and!; [done|done| |].
  - exists evs. split; [done|]. intros e He. rewrite Forall_forall in E2. specialize (E2 e He).
    destruct e; try done. destruct E2 as (v & w & (s0 & w0 & Hs0 & Ht) & Hw).
    rewrite Hs0 in Hw. injection Hw as -> ->. by exists v, w.
  - intros Hg Ho. unfold d2, notify_pointer. rewrite A3. cbn.
    unfold layer_grab. rewrite (lpopup_of_rest p d1 d A1), Hlp, Hs. cbn [layer_popup_grab_input]. unfold qdwin_layer_popup_grab_button.
    cbn in Ho. rewrite Ho. cbn [andb]. rewrite Hg.
    set (d3 := dismiss_layer_grab _ _).
    assert (P3 : pointers d3 = pointers d1).
    { unfold d3, dismiss_layer_grab. destruct (lp_res lp); [|done]. by case_bool_decide. }
    destruct (end_grab_default i (upd_lpopup (lp_id lp) (fun lp => lp <| lp_grab := false |>) d3))
      as [B1 (ev & B2 & B3)].
    { unfold has_pointer_state, pointer_of in *. cbn. by rewrite P3. }
    split; [exact B1|]. exists ev. split; [|exact B3]. rewrite B2. cbn. f_equal. unfold d3, dismiss_layer_grab.
    destruct (lp_res lp) as [r|]; [|done]. cbn.
    replace (xdg_popups d1) with (xdg_popups d) by (symmetry; by apply (rest_field xdg_popups)).
    by case_bool_decide.
Qed.

Lemma layer_popup_grab_contained_witness :
  let d1 := feed_pointer 1 pt_desk [in_motion (motion_rel 1 1); in_button BTN_LEFT true; in_motion (motion_abs 500 500)] in
  pgrab_of 1 d1 = ptr_layer_popup 1
  /\ pgrab_of 1 (notify_pointer 1 (in_button BTN_LEFT true) d1) = ptr_default.
Proof.
  destruct (layer_popup_grab_contained 1 1 pt_popup pt_desk
    [in_motion (motion_rel 1 1); in_button BTN_LEFT true; in_motion (motion_abs 500 500)] BTN_LEFT)
    as (H1 & _ & _ & H2).
  - reflexivity.
  - by eexists.
  - reflexivity.
  - reflexivity.
  - vm_compute. by split_and!.
  - split; [exact H1|]. apply H2; [reflexivity|vm_compute; reflexivity].
Defined.

(** ** View streams *)

Lemma confined_input d0 i s x v e d :
  find_stream s d0 = Some x -> qdwin_stream_confine_target x d0 = Some v ->
  held d0 i (ptr_stream s) (eq (Some v)) d ->
  held d0 i (ptr_stream s) (eq (Some v)) (notify_pointer i e d)
  /\ emits (targeted d0 (eq (Some v))) d (notify_pointer i e d).
Proof.
  intros Hx Hv H. set (K := eq (Some v)) in *. set (g := ptr_stream s) in *.
  assert (T : forall d, steady d0 i g d -> qdwin_stream_confine_target x d = Some v).
  { intros d' (R & _). by rewrite (confine_target_rest x d' d0 R). }
  assert (F : forall d, steady d0 i g d ->
                held d0 i g K (grab_focus i d) /\ devents (grab_focus i d) = devents d).
  { intros d' Hd. pose proof Hd as (R & _ & G). unfold grab_focus. rewrite G; cbn.
    rewrite (find_stream_rest s d' d0 R), Hx. unfold qdwin_stream_confine_focus, with_target.
    rewrite (T d' Hd). split; [by apply held_retarget|apply events_retarget]. }
  pose proof H as ((R & P & G) & HK). unfold notify_pointer. rewrite G; cbn.
  rewrite (find_stream_rest s d d0 R), Hx.
  assert (S : forall e, held d0 i g K (qdwin_stream_confine_send x i e d)
                /\ emits (targeted d0 K) d (qdwin_stream_confine_send x i e d)).
  { intros e'. unfold qdwin_stream_confine_send, with_target. rewrite (T d) by apply H.
    destruct (held_send d0 i g K e' (retarget i (Some v) d)) as [C D];
      [apply held_retarget; [apply H|done]|].
    split; [exact C|]. eapply emits_trans; [apply emits_refl, events_retarget|exact D]. }
  destruct e as [m|b pr| |sr| |]; cbn [stream_grab_input]; try apply S.
  - unfold qdwin_stream_confine_motion.
    destruct (held_move d0 i g K F m d (proj1 H)) as [A B]. unfold with_target.
    rewrite (T _ (proj1 A)).
    destruct (held_send_motion d0 i g K F m (retarget i (Some v) (weston_pointer_move i m d)))
      as [C D]; [apply held_retarget; [apply A|done]|].
    split; [exact C|]. eapply emits_trans; [|exact D]. apply emits_refl. by rewrite events_retarget.
  - unfold qdwin_stream_confine_pass, with_target. rewrite (T d) by apply H. by apply held_send.
  - unfold qdwin_stream_confine_pass, with_target. rewrite (T d) by apply H. by apply held_send.
  - unfold qdwin_stream_confine_focus, with_target. rewrite (T d) by apply H.
    split; [apply held_retarget; [apply H|done]|apply emits_refl, events_retarget].
Qed.

Lemma confined_feed d0 i s x v inputs d :
  find_stream s d0 = Some x -> qdwin_stream_confine_target x d0 = Some v ->
  held d0 i (ptr_stream s) (eq (Some v)) d ->
  held d0 i (ptr_stream s) (eq (Some v)) (feed_pointer i d inputs)
  /\ emits (targeted d0 (eq (Some v))) d (feed_pointer i d inputs).
Proof.
  intros Hx Hv. revert d. induction inputs as [|e l IH]; intros d H;
    [split; [done|by apply emits_refl]|].
  destruct (confined_input d0 i s x v e d Hx Hv H) as [A B].
  destruct (IH _ A) as [C D]. split; [exact C|]. by eapply emits_trans.
Qed.

(** Before the grab of a stream starts and after, the rest differs in the
    bookkeeping of confined streams only. *)
Lemma grab_start_held s i x v d :
  confined d !! s = None -> has_pointer_state i d -> find_stream s d = Some x ->
  qdwin_stream_confine_target x d = Some v ->
  let d0 := qdwin_stream_confine_grab_start s i d in
  find_stream s d0 = Some x /\ qdwin_stream_confine_target x d0 = Some v
  /\ (forall w, surface_of w d0 = surface_of w d) /\ devents d0 = devents d
  /\ held d0 i (ptr_stream s) (eq (Some v)) d0.
Proof.
  intros Hc [p Hp] Hx Hv d0. unfold d0, qdwin_stream_confine_grab_start.
  rewrite bool_decide_false by tauto. rewrite Hp.
  set (d1 := upd_pointer i (fun p => p <| ptr_grab := ptr_stream s |>) d).
  assert (P1 : pointer_of i d1 = Some (p <| ptr_grab := ptr_stream s |>)).
  { unfold d1. rewrite pointer_of_upd by done. by rewrite Hp. }
  assert (E : weston_pointer_start_grab i (ptr_stream s) d = retarget i (Some v) d1).
  { unfold weston_pointer_start_grab, grab_focus. fold d1. unfold pgrab_of. rewrite P1; cbn.
    change (find_stream s d1) with (find_stream s d). rewrite Hx.
    unfold qdwin_stream_confine_focus, with_target.
    change (qdwin_stream_confine_target x d1) with (qdwin_stream_confine_target x d). by rewrite Hv. }
  rewrite E. set (d2 := retarget i (Some v) d1).
  assert (R2 : same_rest d2 d) by (etransitivity; [apply rest_retarget|done]).
  assert (P2 : held d2 i (ptr_stream s) (eq (Some v)) d2).
  { apply held_retarget; [|done]. split_and!; [by symmetry; apply rest_retarget|by eexists|].
    unfold pgrab_of. by rewrite P1. }
  split_and!.
  - rewrite <- Hx. exact (find_stream_rest s d2 d R2).
  - rewrite <- Hv. exact (confine_target_rest x d2 d R2).
  - intros w. exact (surface_of_rest w d2 d R2).
  - unfold d2. cbn. by rewrite events_retarget.
  - destruct P2 as [(_ & A & B) C]. by split; [split_and!|].
Qed.

(** C22.  Remote input injected through a view stream is confined to the exported
    window: from the start of the stream's confinement grab, whatever input
    arrives on its seat and wherever the position it carries lies, every event
    goes to the surface of the exported window's view, even where other windows
    cover it. *)
Theorem stream_input_confined (s i v : Z) (x : view_stream) (d : desk) (inputs : list pointer_input) :
  confined d !! s = None -> has_pointer_state i d -> find_stream s d = Some x ->
  qdwin_stream_confine_target x d = Some v ->
  let d' := feed_pointer i (qdwin_stream_confine_grab_start s i d) inputs in
  pgrab_of i d' = ptr_stream s /\ focus_of i d' = Some v
  /\ exists evs, devents d' = evs ++ devents d /\ forall e, e ∈ evs ->
       match e with
       | pointer_sent sf _ => exists w, surface_of v d = Some (sf, w)
       | note_activity => True
       | _ => False
       end.
Proof.
  intros Hc Hp Hx Hv d'.
  destruct (grab_start_held s i x v d Hc Hp Hx Hv) as (Hx' & Hv' & Hs & He & H).
  destruct (confined_feed _ i s x v inputs _ Hx' Hv' H) as [((_ & _ & G) & F) (evs & E1 & E2)].
  split_and!; [done|done|]. exists evs. split; [by rewrite <- He|].
  intros e Hin. rewrite Forall_forall in E2. specialize (E2 e Hin). destruct e; try done.
  destruct E2 as (v' & w & [= <-] & Hw). exists w. by rewrite <- Hs.
Qed.

Definition pt_stream : view_stream :=
  mk_view_stream 3 true (Some 1) true false false true 0 0 true true true true true.
Definition pt_streamed : desk :=
  pt_desk <| pointers := [mk_pointer 4 ptr_default None (0, 0) true] |>
          <| base ::= (fun q => q <| streams := [pt_stream] |>) |>.

Lemma stream_input_confined_witness :
  focus_of 4 (feed_pointer 4 (qdwin_stream_confine_grab_start 3 4 pt_streamed)
                [in_motion (motion_abs 20 50); in_button BTN_LEFT true]) = Some 11.
Proof.
  refine (proj1 (proj2 (stream_input_confined 3 4 11 pt_stream pt_streamed _ _ _ _ _))).
  - reflexivity.
  - by eexists.
  - reflexivity.
  - reflexivity.
Defined.

(** ** Click-to-focus *)

Lemma layer_views_move_views vs l s :
  NoDup vs -> layer_views l (move_views vs l s) = rev vs ++ filter (fun w => w ∉ vs) (layer_views l s).
Proof.
  unfold move_views. revert s. induction vs as [|v vs IH]; intros s Hn.
  - cbn. induction (layer_views l s) as [|w ws IHw]; [done|].
    rewrite filter_cons, decide_True by apply not_elem_of_nil. by f_equal.
  - apply NoDup_cons in Hn as [Hv Hn]. cbn [foldl rev]. rewrite IH by done.
    rewrite layer_views_move, decide_True by done. rewrite <- (assoc_L (++)). f_equal. cbn [app].
    rewrite filter_cons, decide_True by done. f_equal.
    rewrite list_filter_filter. apply list_filter_iff. intros w. rewrite not_elem_of_cons. tauto.
Qed.

Lemma head_omap {A B} (f : A -> option B) above v below (b : B) :
  (forall u, u ∈ above -> f u = None) -> f v = Some b -> head (omap f (above ++ v :: below)) = Some b.
Proof.
  intros Ha Hv. induction above as [|u l IH]; cbn; [by rewrite Hv|].
  rewrite (Ha u) by apply list_elem_of_here. apply IH. intros w Hw. apply Ha. by apply list_elem_of_further.
Qed.

Lemma base_send i e d : base (weston_pointer_send i e d) = base d.
Proof.
  unfold weston_pointer_send. destruct (focus_of i d) as [v|]; [|done].
  destruct (surface_of v d) as [[s w]|]; [|done]. by case_bool_decide.
Qed.
Lemma base_chrome_button i b p d : base (send_chrome_button i b p d) = base d.
Proof. unfold send_chrome_button. by repeat split_match. Qed.
Lemma pointers_chrome_button i b p d : pointers (send_chrome_button i b p d) = pointers d.
Proof. unfold send_chrome_button. by repeat split_match. Qed.
Lemma base_sink_button h e d : base (to_sink h (fun fd => demit (sink_sent fd e)) d) = base d.
Proof. unfold to_sink. by repeat split_match. Qed.
Lemma pointers_sink_button h e d : pointers (to_sink h (fun fd => demit (sink_sent fd e)) d) = pointers d.
Proof. unfold to_sink. by repeat split_match. Qed.
Lemma base_retarget i v d : base (retarget i v d) = base d.
Proof. unfold retarget. by case_bool_decide. Qed.

Lemma seats_emit_focus i h q : seats (qdwin_emit_seat_focus_changed i h q) = seats q.
Proof. unfold qdwin_emit_seat_focus_changed, shell_send. by split_match. Qed.

Lemma chrome_side_base p d d' n cs : base d = base d' -> chrome_side p d n cs = chrome_side p d' n cs.
Proof.
  intros H. revert n. induction cs as [|c cs IH]; intros n; [done|]. cbn. rewrite IH.
  unfold chrome_hit. by rewrite H.
Qed.
Lemma chrome_at_pos_base p d d' : base d = base d' -> qdwin_chrome_at_pos p d = qdwin_chrome_at_pos p d'.
Proof.
  intros H. unfold qdwin_chrome_at_pos. rewrite H. induction (toplevels (base d')) as [|t ts IH]; [done|].
  cbn. rewrite IH, (chrome_side_base p d d' 0 _ H). unfold to_surface. by rewrite H.
Qed.

(** The focus of the seat after the click-to-focus block, and the stacking. *)
Lemma click_focus_effect i h d t s :
  qdwin_toplevel_from_handle h (base d) = Some t -> view t ≠ NULL_VIEW -> proxy_pending t = false ->
  is_nested_proxy t && proxy_curtain t = false ->
  has_pointer_state i d -> seat_of i d = Some s -> has_keyboard s = true ->
  seat_focus i (base (click_focus i h d)) = Some (tl_surface t)
  /\ focus_of i (click_focus i h d) = Some (view t)
  /\ the_scene (base (click_focus i h d))
     = if raise_on_click (policy (base d)) then move_views (tl_views t) normal_layer (the_scene (base d))
       else the_scene (base d).
Proof.
  intros Ht Hv Hpd Hpx Hp Hs Hk. unfold click_focus. rewrite Ht.
  apply Z.eqb_neq in Hv. rewrite Hv. cbn [negb andb].
  set (d1 := if raise_on_click _ then _ else d).
  assert (H1 : pointers d1 = pointers d /\ seats (base d1) = seats (base d)
    /\ the_scene (base d1) = if raise_on_click (policy (base d))
         then move_views (tl_views t) normal_layer (the_scene (base d)) else the_scene (base d)).
  { unfold d1. destruct (raise_on_click _); [|done]. split; [done|].
    unfold on_base, qdwin_toplevel_move_to_layer, with_tl. cbn. rewrite Ht, Hpd. done. }
  destruct H1 as (P1 & S1 & V1). clearbody d1.
  set (d2 := retarget i (Some (view t)) d1).
  assert (Hp1 : has_pointer_state i d1) by (unfold has_pointer_state, pointer_of; by rewrite P1).
  assert (F2 : focus_of i d2 = Some (view t)) by by apply focus_retarget.
  assert (B2 : base d2 = base d1) by apply base_retarget.
  assert (S2 : seat_of i d2 = Some s) by (unfold seat_of; by rewrite B2, S1).
  clearbody d2. rewrite S2, Hk. cbn [andb].
  assert (Hfs : focusable_surface t = Some (tl_surface t)) by (unfold focusable_surface; by rewrite Hpx).
  case_bool_decide as E; cbn [negb].
  - split_and!; [|done|by rewrite B2].
    unfold seat_focus. rewrite B2, S1. unfold seat_of in Hs. by rewrite Hs.
  - split_and!; [|done|].
    + unfold on_base; cbn. unfold seat_focus at 1. rewrite seats_emit_focus, Hfs.
      exact (set_focus_focus i (Some (tl_surface t)) (base d2) s S2).
    + etransitivity; [|exact V1]. rewrite <- B2. unfold on_base, qdwin_emit_seat_focus_changed; cbn.
      apply scene_core. etransitivity; [apply core_send|apply core_set_focus].
Qed.

(** A left click on a window's content gives that window the keyboard and
    the pointer, and raises it when the policy says so: of the windows whose
    content lies under the pointer it is the one on top of the normal layer that
    is focused, whatever the order the windows were created in; its views come
    to the front in one piece and the others keep their order. *)
Theorem click_focuses_topmost (i v h : Z) (t : toplevel) (s : seat) (d : desk) (above below : list Z) :
  locked (base d) = false -> pgrab_of i d = ptr_default -> has_pointer_state i d ->
  seat_of i d = Some s -> has_keyboard s = true ->
  qdwin_layer_surface_at_pos (ptr_pos i d) d = None ->
  qdwin_chrome_at_pos (ptr_pos i d) d = None ->
  layer_views normal_layer (the_scene (base d)) = above ++ v :: below ->
  (forall u, u ∈ above -> content_hit (ptr_pos i d) d u = None) ->
  content_hit (ptr_pos i d) d v = Some h ->
  qdwin_toplevel_from_handle h (base d) = Some t -> view t = v -> v ≠ NULL_VIEW ->
  proxy_pending t = false -> is_nested_proxy t && proxy_curtain t = false -> NoDup (tl_views t) ->
  let d' := notify_pointer i (in_button BTN_LEFT true) d in
  seat_focus i (base d') = Some (tl_surface t) /\ focus_of i d' = Some v
  /\ layer_views normal_layer (the_scene (base d'))
     = if raise_on_click (policy (base d))
       then rev (tl_views t) ++ filter (fun w => w ∉ tl_views t) (above ++ v :: below)
       else above ++ v :: below.
Proof.
  intros HL HG HP Hs Hk Hla Hch Hlv Hab Hv Ht Hvt Hnv Hpd Hpx Hnd d'.
  unfold d', notify_pointer. rewrite HG. cbn [default_grab_input].
  unfold qdwin_proxy_default_grab_button. cbv zeta.
  set (d1 := demit note_activity d).
  change (locked (base d1)) with (locked (base d)). rewrite HL.
  change (ptr_pos i d1) with (ptr_pos i d).
  assert (Hl1 : qdwin_layer_surface_at_pos (ptr_pos i d) d1 = None) by exact Hla.
  unfold qdwin_layer_surface_view_at_pos. rewrite Hl1. cbn [qdwin_layer_surface_blocks_toplevel_focus].
  rewrite bool_decide_false by tauto. cbn [andb negb].
  rewrite Z.eqb_refl. cbn [andb negb].
  assert (Hod : qdwin_layer_surface_handle_on_demand_button i d1 = d1).
  { unfold qdwin_layer_surface_handle_on_demand_button. change (ptr_pos i d1) with (ptr_pos i d).
    by rewrite Hl1. }
  rewrite Hod.
  assert (Htop : qdwin_toplevel_at_pos (ptr_pos i d) d1 = Some h).
  { unfold qdwin_toplevel_at_pos. rewrite (chrome_at_pos_base (ptr_pos i d) d1 d) by done. rewrite Hch.
    change (the_scene (base d1)) with (the_scene (base d)). rewrite Hlv.
    exact (head_omap (content_hit (ptr_pos i d) d) above v below h Hab Hv). }
  rewrite Htop. rewrite <- Hvt in Hnv.
  destruct (click_focus_effect i h d1 t s Ht Hnv Hpd Hpx HP Hs Hk) as (A & B & C).
  set (d2 := click_focus i h d1) in *. clearbody d2.
  set (d3 := weston_pointer_send i _ d2).
  set (d4 := send_chrome_button i BTN_LEFT true d3).
  assert (Bb : base (to_sink (active_input_proxy d4)
      (fun fd => demit (sink_sent fd (pe_button BTN_LEFT true))) d4) = base d2).
  { rewrite base_sink_button. unfold d4. rewrite base_chrome_button. apply base_send. }
  assert (Bf : focus_of i (to_sink (active_input_proxy d4)
      (fun fd => demit (sink_sent fd (pe_button BTN_LEFT true))) d4) = focus_of i d2).
  { unfold focus_of, pointer_of. rewrite pointers_sink_button. unfold d4.
    rewrite pointers_chrome_button. unfold d3. exact (focus_send i _ d2). }
  rewrite Bb, Bf, C. change (policy (base d1)) with (policy (base d)).
  change (the_scene (base d1)) with (the_scene (base d)).
  split_and!; [done|by rewrite B, Hvt|]. destruct (raise_on_click _); [|done].
  rewrite layer_views_move_views by done. by rewrite Hlv.
Qed.

(** Two windows at the same place, the older one (handle 1) on top. *)
Definition pt_second : toplevel :=
  ex_toplevel <| handle := 2 |> <| view := 12 |>
    <| desktop := Some (ex_dsurf <| ds_surface := 101 |>) |>.
Definition pt_two : desk :=
  pt_desk <| pointers := [mk_pointer 1 ptr_default None (0, 0) true] |> <| lsurfs := [] |>
    <| view_surface ::= <[12 := 101]> |>
    <| wsurfaces ::= <[101 := mk_wsurface 300 200 true (Some "xdg_toplevel"%string) (Some 7) 101 everywhere]> |>
    <| base ::= (fun q => (on_scene (weston_view_move_to_layer 12 normal_layer)
         (q <| toplevels := [ex_toplevel; pt_second] |>))
         <| view_pos ::= <[12 := (0, 0)]> |>) |>.

Lemma click_focuses_topmost_witness :
  seat_focus 1 (base (notify_pointer 1 (in_button BTN_LEFT true) pt_two)) = Some 101.
Proof.
  refine (proj1 (click_focuses_topmost 1 12 2 pt_second pt_seat pt_two [] [11]
    _ _ _ _ _ _ _ _ _ _ _ _ _ _ _ _)); try reflexivity.
  - by eexists.
  - intros u Hu. by apply elem_of_nil in Hu.
  - done.
  - apply NoDup_singleton.
Defined.

(** A window's decoration wins over the content of the window on top of it: the
    lower window is focused by a click that lands on the upper one. *)
Definition pt_chromed : desk :=
  pt_two <| base ::= (fun q => q
    <| toplevels := [ex_toplevel <| tl_chrome := [mk_chrome (Some (110, 300, 24)) (Some 13); no_chrome;
                       no_chrome; no_chrome] |>; pt_second] |>
    <| view_pos ::= <[13 := (0, 50)]> |>) |>.
Example covered_chrome_steals_click :
  head (layer_views normal_layer (the_scene (base pt_chromed))) = Some 12
  /\ content_hit (ptr_pos 1 pt_chromed) pt_chromed 12 = Some 2
  /\ qdwin_toplevel_at_pos (ptr_pos 1 pt_chromed) pt_chromed = Some 1.
Proof. vm_compute. by split_and!. Qed.

(** Both [weston_pointer_move] and [weston_pointer_send_motion] apply the
    displacement of a relative motion, so the pointer moves twice as far. *)
Example relative_motion_applied_twice :
  ptr_pos 1 pt_two = (30, 60)
  /\ ptr_pos 1 (notify_pointer 1 (in_motion (motion_rel 5 7)) pt_two) = (40, 74)
  /\ ptr_pos 1 (notify_pointer 1 (in_motion (motion_abs 35 67)) pt_two) = (35, 67).
Proof. vm_compute. by split_and!. Qed.

(** ** Keyboard focus on demand *)

Lemma at_pos_view p d l :
  qdwin_layer_surface_at_pos p d = Some l -> exists v sf, l_v l = Some v /\ l_surf l = Some sf.
Proof.
  intros [_ H]%List.find_some. unfold qdwin_layer_surface_contains in H.
  destruct (l_mapped l), (l_v l) as [v|], (l_surf l) as [sf|]; try discriminate. by exists v, sf.
Qed.

Definition held_exclusively (l : lsurface) (s : seat) (d : desk) : bool :=
  existsb (exclusive_holder l (kbd_focus s)) (lsurfs d).

Lemma on_demand_effect i d l s :
  qdwin_layer_surface_at_pos (ptr_pos i d) d = Some l -> seat_of i d = Some s -> has_keyboard s = true ->
  kbd_interactivity (current l) = KEYBOARD_INTERACTIVITY_ON_DEMAND ->
  let d' := qdwin_layer_surface_handle_on_demand_button i d in
  seat_focus i (base d') = (if held_exclusively l s d then kbd_focus s else l_surf l)
  /\ the_scene (base d') = the_scene (base d) /\ pointers d' = pointers d.
Proof.
  intros Hl Hs Hk Ho d'. destruct (at_pos_view _ _ _ Hl) as (v & sf & Hv & Hsf).
  unfold d', qdwin_layer_surface_handle_on_demand_button. rewrite Hl, Hsf, Ho, Hs, Hk.
  rewrite bool_decide_false by done. cbn [negb].
  change (KEYBOARD_INTERACTIVITY_ON_DEMAND =? KEYBOARD_INTERACTIVITY_ON_DEMAND) with true. cbn [negb].
  assert (Hcur : seat_focus i (base d) = kbd_focus s).
  { unfold seat_focus. unfold seat_of in Hs. by rewrite Hs. }
  unfold held_exclusively. case_bool_decide as E.
  - split_and!; [|done|done]. rewrite Hcur. by destruct (existsb _ _).
  - destruct (existsb _ _); [done|]. split_and!; [|apply scene_core, core_set_focus|done].
    exact (set_focus_focus i (Some sf) (base d) s Hs).
Qed.

(** A left click on a layer surface that takes the keyboard on demand gives
    it the keyboard of the clicking seat, unless another layer surface that
    asked for the keyboard exclusively holds it; then the focus stays there.
    Either way the click goes to the layer surface, and no window behind it is
    raised or focused. *)
Theorem on_demand_respects_exclusive (i : Z) (d : desk) (l : lsurface) (s : seat) :
  locked (base d) = false -> pgrab_of i d = ptr_default -> has_pointer_state i d ->
  qdwin_layer_surface_at_pos (ptr_pos i d) d = Some l -> seat_of i d = Some s -> has_keyboard s = true ->
  kbd_interactivity (current l) = KEYBOARD_INTERACTIVITY_ON_DEMAND ->
  let d' := notify_pointer i (in_button BTN_LEFT true) d in
  seat_focus i (base d') = (if held_exclusively l s d then kbd_focus s else l_surf l)
  /\ the_scene (base d') = the_scene (base d) /\ focus_of i d' = l_v l.
Proof.
  intros HL HG HP Hl Hs Hk Ho d'. destruct (at_pos_view _ _ _ Hl) as (v & sf & Hv & Hsf).
  unfold d', notify_pointer. rewrite HG. cbn [default_grab_input].
  unfold qdwin_proxy_default_grab_button. cbv zeta. set (d1 := demit note_activity d).
  change (locked (base d1)) with (locked (base d)). rewrite HL.
  change (ptr_pos i d1) with (ptr_pos i d).
  assert (Hl1 : qdwin_layer_surface_at_pos (ptr_pos i d) d1 = Some l) by exact Hl.
  unfold qdwin_layer_surface_view_at_pos. rewrite Hl1. unfold qdwin_layer_surface_blocks_toplevel_focus.
  rewrite Ho, Hv. change (negb (KEYBOARD_INTERACTIVITY_ON_DEMAND =? KEYBOARD_INTERACTIVITY_NONE)) with true.
  rewrite bool_decide_true by done. rewrite Z.eqb_refl. cbn [andb negb].
  set (d2 := retarget i (Some v) d1).
  assert (B2 : base d2 = base d) by exact (base_retarget i (Some v) d1).
  assert (F2 : focus_of i d2 = Some v) by by apply focus_retarget.
  assert (R2 : same_rest d2 d) by (etransitivity; [apply rest_retarget|done]).
  destruct (on_demand_effect i d2 l s) as (A & B & C); try done.
  { unfold ptr_pos, seat_of. rewrite B2. rewrite <- Hl. unfold qdwin_layer_surface_at_pos.
    rewrite (rest_field lsurfs d2 d) by done. unfold qdwin_layer_surface_contains, weston_view_takes_input_at_point, to_surface.
    rewrite B2, (rest_field wsurfaces d2 d), (rest_field view_scissor d2 d) by done. done. }
  { unfold seat_of. by rewrite B2. }
  set (d3 := qdwin_layer_surface_handle_on_demand_button i d2) in *. clearbody d3.
  set (d4 := weston_pointer_send i _ d3). set (d5 := send_chrome_button i BTN_LEFT true d4).
  assert (Bb : base (to_sink (active_input_proxy d5)
      (fun fd => demit (sink_sent fd (pe_button BTN_LEFT true))) d5) = base d3).
  { rewrite base_sink_button. unfold d5. rewrite base_chrome_button. apply base_send. }
  assert (Bf : focus_of i (to_sink (active_input_proxy d5)
      (fun fd => demit (sink_sent fd (pe_button BTN_LEFT true))) d5) = focus_of i d3).
  { unfold focus_of, pointer_of. rewrite pointers_sink_button. unfold d5.
    rewrite pointers_chrome_button. unfold d4. exact (focus_send i _ d3). }
  rewrite Bb, Bf. split_and!.
  - rewrite A. unfold held_exclusively. by rewrite (rest_field lsurfs d2 d).
  - by rewrite B, B2.
  - unfold focus_of, pointer_of in *. by rewrite C.
Qed.

Definition pt_click : desk :=
  pt_desk <| pointers := [mk_pointer 1 ptr_default None (0, 0) true] |>
    <| base ::= (fun q => q <| seats := [pt_seat <| pointer_pos := (30, 20) |>] |>) |>.
Definition pt_osk : lsurface :=
  pt_panel <| l_res := 71 |> <| l_surf := Some 100 |> <| current ::= (fun c => c <| kbd_interactivity := 1 |>) |>.

Lemma on_demand_respects_exclusive_witness :
  seat_focus 1 (base (notify_pointer 1 (in_button BTN_LEFT true) pt_click)) = Some 80
  /\ seat_focus 1 (base (notify_pointer 1 (in_button BTN_LEFT true)
       (pt_click <| lsurfs ::= (fun l => l ++ [pt_osk]) |>))) = Some 100.
Proof.
  split.
  - refine (proj1 (on_demand_respects_exclusive 1 pt_click pt_panel (pt_seat <| pointer_pos := (30, 20) |>)
      _ _ _ _ _ _ _)); try reflexivity. by eexists.
  - refine (proj1 (on_demand_respects_exclusive 1 (pt_click <| lsurfs ::= (fun l => l ++ [pt_osk]) |>) pt_panel
      (pt_seat <| pointer_pos := (30, 20) |>) _ _ _ _ _ _ _)); try reflexivity. by eexists.
Defined.

(** A click on an ordinary window takes the focus from an exclusive layer
    surface all the same. *)
Example click_takes_exclusive_focus :
  let d := pt_two <| lsurfs := [pt_osk <| l_surf := Some 80 |> <| l_mapped := false |>] |>
                  <| base ::= (fun q => q <| seats := [pt_seat <| kbd_focus := Some 80 |>] |>) |> in
  seat_focus 1 (base (notify_pointer 1 (in_button BTN_LEFT true) d)) = Some 101.
Proof. reflexivity. Qed.
