(* ===== verification/LayerShellFacts.v ===== *)
(** * LayerShellFacts: what the layer shell guarantees

    Runs of the layer shell: requests, commits, popups and pointer input in any
    order.  The invariant relates what is mapped to what was configured, popups
    to their parents, and pointer grabs to the popups that own them; the
    requests are double-buffered, and the global is only given to the shell. *)

From stdpp Require Import base list gmap strings option.
From S2P Require Import Prelude Logic LogicFacts Scene Procfs State Toplevel ToplevelFacts Dependents Focus Config Lock LockTheorems Desk Pointer LayerShell PointerFacts.
From stdpp Require Import list.
Import LayerBox Policy.
#[local] Open Scope Z_scope.

(** ** What pointer input leaves alone *)

Definition grabs (d : desk) : list (Z * pointer_grab) := map (fun p => (ptr_seat p, ptr_grab p)) (pointers d).

(** The configure events a layer surface was sent, newest first. *)
Definition config_of (r : Z) (e : devent) : option (Z * Z * Z) :=
  match e with
  | layer_configure r' serial w h => if r' =? r then Some (serial, w, h) else None
  | _ => None
  end.
Definition configures (r : Z) (d : desk) : list (Z * Z * Z) := omap (config_of r) (devents d).

Record lframe (d d' : desk) : Prop := mk_lframe {
  lf_surfs : lsurfs d' = lsurfs d;
  lf_popups : lpopups d' = lpopups d;
  lf_next : next_lp d' = next_lp d;
  lf_serial : layer_configure_serial_next d' = layer_configure_serial_next d;
  lf_grabs : grabs d' = grabs d;
  lf_configures : forall r, configures r d' = configures r d;
  lf_events : suffix (devents d) (devents d')
}.

#[global] Instance lframe_preorder : PreOrder lframe.
Proof.
  split; [by intros d|]. intros d1 d2 d3 [] []. split; try congruence. by etransitivity.
Qed.

Class LayerFrame (f : desk -> desk) : Prop := layer_frame d : lframe d (f d).

Lemma lf_base f : LayerFrame (on_base f).
Proof. done. Qed.
Lemma lf_demit e : (forall r, config_of r e = None) -> LayerFrame (demit e).
Proof.
  intros H d. split; try done; [|by exists [e]]. intros r. unfold configures; cbn. by rewrite H.
Qed.
Lemma lf_upd_pointer i f :
  (forall p, ptr_seat (f p) = ptr_seat p /\ ptr_grab (f p) = ptr_grab p) -> LayerFrame (upd_pointer i f).
Proof.
  intros H d. split; try done. unfold grabs, upd_pointer; cbn. rewrite map_map. apply map_ext. intros p.
  destruct (H p) as [H1 H2]. destruct (_ =? _); [by rewrite H1, H2|done].
Qed.

Lemma lf_proxy f d0 d : lframe d0 d -> lframe d0 (d <| active_input_proxy ::= f |>).
Proof. by intros []. Qed.
Lemma lf_confined f d0 d : lframe d0 d -> lframe d0 (d <| confined ::= f |>).
Proof. by intros []. Qed.
Lemma lf_popup_pointer f d0 d : lframe d0 d -> lframe d0 (d <| popup_pointer ::= f |>).
Proof. by intros []. Qed.

Ltac lframe_step :=
  match goal with
  | |- lframe ?d ?d => reflexivity
  | |- lframe _ (on_base _ _) => etransitivity; [|apply lf_base]
  | |- lframe _ (demit _ _) => etransitivity; [|apply lf_demit; done]
  | |- lframe _ (upd_pointer _ _ _) => etransitivity; [|apply lf_upd_pointer; by intros []]
  | |- lframe _ (@upd_field _ _ active_input_proxy _ _ _) => apply lf_proxy
  | |- lframe _ (@upd_field _ _ confined _ _ _) => apply lf_confined
  | |- lframe _ (@upd_field _ _ popup_pointer _ _ _) => apply lf_popup_pointer
  | |- lframe _ (match ?x with _ => _ end) => destruct x
  | |- lframe _ (?f ?d) => etransitivity; [|apply (layer_frame d)]
  end.
Ltac lframe_tac := cbv zeta; repeat lframe_step.

#[global] Instance lf_set_focus i v : LayerFrame (weston_pointer_set_focus i v).
Proof. intros d. unfold weston_pointer_set_focus. lframe_tac. Qed.
#[global] Instance lf_retarget i v : LayerFrame (retarget i v).
Proof. intros d. unfold retarget. lframe_tac. Qed.
#[global] Instance lf_send i e : LayerFrame (weston_pointer_send i e).
Proof. intros d. unfold weston_pointer_send. lframe_tac. Qed.
#[global] Instance lf_set_pos i p : LayerFrame (set_ptr_pos i p).
Proof. intros d. unfold set_ptr_pos. lframe_tac. Qed.
#[global] Instance lf_track i : LayerFrame (qdwin_proxy_pointer_track_focus i).
Proof. intros d. unfold qdwin_proxy_pointer_track_focus, to_sink. lframe_tac. Qed.
#[global] Instance lf_default_focus i : LayerFrame (qdwin_proxy_default_grab_focus i).
Proof. intros d. unfold qdwin_proxy_default_grab_focus. lframe_tac. Qed.
#[global] Instance lf_refilter lp i : LayerFrame (qdwin_layer_popup_grab_refilter_focus lp i).
Proof. intros d. unfold qdwin_layer_popup_grab_refilter_focus. lframe_tac. Qed.
#[global] Instance lf_confine_focus x i : LayerFrame (qdwin_stream_confine_focus x i).
Proof. intros d. unfold qdwin_stream_confine_focus, with_target. lframe_tac. Qed.
#[global] Instance lf_grab_focus i : LayerFrame (grab_focus i).
Proof. intros d. unfold grab_focus, layer_grab. lframe_tac. Qed.
#[global] Instance lf_move i m : LayerFrame (weston_pointer_move i m).
Proof. intros d. unfold weston_pointer_move. lframe_tac. Qed.
#[global] Instance lf_send_motion i m : LayerFrame (weston_pointer_send_motion i m).
Proof. intros d. unfold weston_pointer_send_motion. lframe_tac. Qed.
#[global] Instance lf_on_demand i : LayerFrame (qdwin_layer_surface_handle_on_demand_button i).
Proof. intros d. unfold qdwin_layer_surface_handle_on_demand_button. lframe_tac. Qed.
#[global] Instance lf_click i h : LayerFrame (click_focus i h).
Proof. intros d. unfold click_focus. lframe_tac. Qed.
#[global] Instance lf_chrome_button i b p : LayerFrame (send_chrome_button i b p).
Proof. intros d. unfold send_chrome_button. lframe_tac. Qed.
#[global] Instance lf_default_motion i m : LayerFrame (qdwin_proxy_default_grab_motion i m).
Proof. intros d. unfold qdwin_proxy_default_grab_motion, to_sink. lframe_tac. Qed.
#[global] Instance lf_default_button i b p : LayerFrame (qdwin_proxy_default_grab_button i b p).
Proof. intros d. unfold qdwin_proxy_default_grab_button, to_sink. lframe_tac. Qed.
#[global] Instance lf_default_axis i : LayerFrame (qdwin_proxy_default_grab_axis i).
Proof. intros d. unfold qdwin_proxy_default_grab_axis, to_sink. lframe_tac. Qed.
#[global] Instance lf_default_input i e : LayerFrame (default_grab_input i e).
Proof. intros d. destruct e; cbn [default_grab_input]; lframe_tac. Qed.
#[global] Instance lf_stream_input x i e : LayerFrame (stream_grab_input x i e).
Proof.
  intros d. destruct e; cbn [stream_grab_input]; try apply layer_frame;
    unfold qdwin_stream_confine_motion, qdwin_stream_confine_send, qdwin_stream_confine_pass, with_target;
    lframe_tac.
Qed.
#[global] Instance lf_popup_motion i m : LayerFrame (qdwin_popup_grab_motion i m).
Proof. intros d. unfold qdwin_popup_grab_motion. lframe_tac. Qed.
#[global] Instance lf_dismiss r : LayerFrame (dismiss_layer_grab r).
Proof. intros d. unfold dismiss_layer_grab. lframe_tac. Qed.
#[global] Instance lf_popup_dismiss x : LayerFrame (popup_dismiss x).
Proof. intros d. unfold popup_dismiss. lframe_tac. Qed.
#[global] Instance lf_layer_forward lp i e : LayerFrame (qdwin_layer_popup_grab_forward lp i e).
Proof. intros d. unfold qdwin_layer_popup_grab_forward, send_if_focused. lframe_tac. Qed.
#[global] Instance lf_layer_motion lp i m : LayerFrame (qdwin_layer_popup_grab_motion lp i m).
Proof. intros d. unfold qdwin_layer_popup_grab_motion, send_if_focused. lframe_tac. Qed.

(** ** The invariant *)

(** In this section [X] are the popups whose grab libweston cancelled. *)
Section Cancelled.
Variable X : Z -> Prop.

(** A run that read freed memory or overflowed is outside C's semantics. *)
Definition undefined (e : devent) : bool :=
  match e with
  | grab_use_after_free _ | output_use_after_free _ | layer_overflow _ => true
  | _ => false
  end.
Definition sane (d : desk) : Prop := forallb (fun e => negb (undefined e)) (devents d) = true.

(** A layer surface has a view only on a live surface that was configured, and
    is on one of the four layers. *)
Record lshape (l : lsurface) : Prop := mk_lshape {
  lg_view : l_v l ≠ None -> l_surf l ≠ None /\ initial_configure_sent l = true;
  lg_layer : 0 <= l_layer l <= LAYER_OVERLAY
}.

(** It is mapped only with a view, and its size is the one last configured. *)
Record lconf (d : desk) (l : lsurface) : Prop := mk_lconf {
  lg_mapped : l_mapped l = true -> l_v l ≠ None;
  lg_config : sane d -> initial_configure_sent l = true ->
    head (configures (l_res l) d) = Some (last_configure_serial l, box_w (l_box l), box_h (l_box l))
}.

(** The invariant, with what [lconf] says of the surfaces in [P]. *)
Record linvw (P : Z -> Prop) (d : desk) : Prop := mk_linv {
  li_res : NoDup (map l_res (lsurfs d));
  li_shape : forall l, l ∈ lsurfs d -> lshape l;
  li_conf : forall l, l ∈ lsurfs d -> P (l_res l) -> lconf d l;
  li_parent : forall lp, lp ∈ lpopups d ->
    exists l, l ∈ lsurfs d /\ l_res l = lp_parent lp /\ l_surf l ≠ None;
  li_ids : NoDup (map lp_id (lpopups d)) /\ forall lp, lp ∈ lpopups d -> lp_id lp < next_lp d;
  li_grabs : forall i p, ~ X p -> (i, ptr_layer_popup p) ∈ grabs d ->
    exists lp, lp ∈ lpopups d /\ lp_id lp = p /\ lp_grab lp = true /\ lp_seat lp = Some i;
  li_seats : NoDup (map fst (grabs d))
}.
Definition linv : desk -> Prop := linvw (fun _ => True).

Lemma sane_mono d d' : suffix (devents d) (devents d') -> sane d' -> sane d.
Proof.
  intros [evs H]. unfold sane. rewrite H, forallb_app. intros [_ H2]%andb_prop. done.
Qed.

(** A step that keeps the layer shell's objects keeps the invariant. *)
Lemma lconf_frame d d' l : lframe d d' -> lconf d l -> lconf d' l.
Proof.
  intros F [H1 H2]. split; [done|]. intros S. rewrite (lf_configures d d' F). apply H2.
  apply (sane_mono d d'); [apply F|done].
Qed.
Lemma lconf_events d d' l : devents d' = devents d -> lconf d l -> lconf d' l.
Proof. intros E [H1 H2]. split; [done|]. unfold sane, configures. by rewrite E. Qed.

Lemma linv_frame {P} d d' : lframe d d' -> linvw P d -> linvw P d'.
Proof.
  intros F [I1 I2 I6 I3 I4 I5 I7]. pose proof F as [F1 F2 F3 F4 F5 F6 F7].
  split; rewrite ?F1, ?F2, ?F3, ?F5; try done. intros l Hl HP. apply (lconf_frame d d' l F). auto.
Qed.

(** ** Pointer grabs and their popups *)

Definition ungrab (i : Z) (x : Z * pointer_grab) : Z * pointer_grab :=
  if fst x =? i then (fst x, ptr_default) else x.

Lemma grabs_ungrab i d :
  grabs (upd_pointer i (fun p => p <| ptr_grab := ptr_default |>) d) = map (ungrab i) (grabs d).
Proof.
  unfold grabs, upd_pointer; cbn. rewrite !map_map. apply map_ext. intros p. unfold ungrab; cbn.
  by destruct (ptr_seat p =? i).
Qed.

Lemma pgrab_in i g d : pgrab_of i d = g -> g ≠ ptr_default -> (i, g) ∈ grabs d.
Proof.
  unfold pgrab_of. destruct (pointer_of i d) as [p|] eqn:E; [|congruence]. intros <- _.
  apply List.find_some in E as [E1 E2]. zbool. subst. apply list_elem_of_In, in_map_iff. by exists p.
Qed.

Lemma in_ungrab i j p gs :
  (j, ptr_layer_popup p) ∈ map (ungrab i) gs -> j ≠ i /\ (j, ptr_layer_popup p) ∈ gs.
Proof.
  intros (x & Hx & Hin)%list_elem_of_fmap. unfold ungrab in Hx.
  destruct (fst x =? i) eqn:E; [congruence|]. zbool. subst. done.
Qed.

Lemma upd_lpopup_in i f d lp :
  lp ∈ lpopups (upd_lpopup i f d) ->
  exists lp', lp' ∈ lpopups d /\ lp = if lp_id lp' =? i then f lp' else lp'.
Proof. intros (x & -> & H)%list_elem_of_fmap. by exists x. Qed.

Lemma upd_lpopup_ids i f d :
  (forall lp, lp_id (f lp) = lp_id lp) -> map lp_id (lpopups (upd_lpopup i f d)) = map lp_id (lpopups d).
Proof. intros H. unfold upd_lpopup; cbn. rewrite map_map. apply map_ext. intros x. destruct (_ =? _); auto. Qed.

(** A popup changes in its resource, grab and seat only; a pointer whose grab it
    was must have left it. *)
Lemma linv_upd_lpopup {P} i f d :
  (forall lp, lp_id (f lp) = lp_id lp /\ lp_parent (f lp) = lp_parent lp) ->
  (forall j lp, ~ X i -> (j, ptr_layer_popup i) ∈ grabs d -> lp ∈ lpopups d -> lp_id lp = i ->
     lp_grab lp = true -> lp_seat lp = Some j -> lp_grab (f lp) = true /\ lp_seat (f lp) = Some j) ->
  linvw P d -> linvw P (upd_lpopup i f d).
Proof.
  intros Hf Hg [I1 I2 I6 I3 I4 I5 I7]. split; try done.
  - intros l Hl HP. apply (lconf_events d); auto.
  - intros lp (lp' & Hin & ->)%upd_lpopup_in. destruct (I3 lp' Hin) as (l & A & B & C). exists l.
    split_and!; try done. destruct (_ =? _); [|done]. by rewrite (proj2 (Hf lp')).
  - split; [rewrite upd_lpopup_ids by apply Hf; apply I4|].
    intros lp (lp' & Hin & ->)%upd_lpopup_in. pose proof (proj2 I4 lp' Hin).
    destruct (_ =? _); [|done]. by rewrite (proj1 (Hf lp')).
  - intros j p Xp Hp. destruct (I5 j p Xp Hp) as (lp & A & B & C & D).
    exists (if lp_id lp =? i then f lp else lp). split.
    + apply list_elem_of_fmap. by exists lp.
    + destruct (lp_id lp =? i) eqn:E; [|done]. zbool. subst.
      destruct (Hg j lp Xp Hp A eq_refl C D). rewrite (proj1 (Hf lp)). done.
Qed.

Lemma linv_ungrab {P} i d :
  linvw P d -> linvw P (upd_pointer i (fun p => p <| ptr_grab := ptr_default |>) d).
Proof.
  intros [I1 I2 I6 I3 I4 I5 I7]. split; try done.
  - intros l Hl HP. apply (lconf_events d); auto.
  - intros j p Xp. rewrite grabs_ungrab. intros [_ H]%in_ungrab. by apply I5.
  - rewrite grabs_ungrab, map_map. erewrite map_ext; [exact I7|]. intros x. unfold ungrab. by destruct (_ =? _).
Qed.

Lemma linv_end_grab {P} i d : linvw P d -> linvw P (weston_pointer_end_grab i d).
Proof.
  intros H. unfold weston_pointer_end_grab. eapply linv_frame; [apply layer_frame|]. by apply linv_ungrab.
Qed.

Lemma lf_deactivate p : LayerFrame (deactivate_popup_grab p).
Proof. intros d. unfold deactivate_popup_grab. lframe_tac. Qed.

Lemma linv_popup_button x i b p d : linv d -> linv (qdwin_popup_grab_button x i b p d).
Proof.
  intros H. unfold qdwin_popup_grab_button. cbv zeta. destruct (p && _).
  - eapply linv_frame; [apply layer_frame|]. destruct (pp_grab_active x); [|done].
    eapply linv_frame; [apply lf_deactivate|]. by apply linv_end_grab.
  - assert (F : lframe d (weston_pointer_send i (pe_button b p) d)) by apply layer_frame.
    eapply linv_frame; [|exact H]. etransitivity; [exact F|]. lframe_tac.
Qed.

Lemma linv_popup_input x i e d : linv d -> linv (popup_grab_input x i e d).
Proof.
  intros H. destruct e; cbn [popup_grab_input]; try done;
    try (eapply linv_frame; [apply layer_frame|done]). by apply linv_popup_button.
Qed.

(** The press outside a popup: its grab ends before the popup gives it up. *)
Lemma linv_layer_press lp i b d :
  linv d -> lp ∈ lpopups d -> lp_seat lp = Some i -> linv (qdwin_layer_popup_grab_button lp i b true d).
Proof.
  intros H Hlp Hs. unfold qdwin_layer_popup_grab_button.
  destruct (true && _); [|by eapply linv_frame; [apply lf_layer_forward|]].
  set (p := lp_id lp) in *.
  set (d1 := upd_lpopup p (fun lp => lp <| lp_res := None |>) d).
  assert (H1 : linv d1) by (by apply linv_upd_lpopup).
  set (d2 := dismiss_layer_grab (lp_res lp) d1).
  assert (F2 : lframe d1 d2) by apply layer_frame.
  assert (H2 : linv d2) by (by eapply linv_frame). destruct (lp_grab lp); [|exact H2].
  set (g := fun lp => lp <| lp_grab := false |>).
  change (linv (weston_pointer_end_grab i (upd_lpopup p g d2))).
  unfold weston_pointer_end_grab. eapply linv_frame; [apply layer_frame|].
  change (linv (upd_lpopup p g (upd_pointer i (fun p => p <| ptr_grab := ptr_default |>) d2))).
  apply linv_upd_lpopup; [done| |by apply linv_ungrab].
  intros j lp' _ Hj Hin Hid _ Hs'. rewrite grabs_ungrab in Hj. apply in_ungrab in Hj as [Hj _].
  change (lp' ∈ lpopups d2) in Hin. rewrite (lf_popups _ _ F2) in Hin. apply upd_lpopup_in in Hin as (lp0 & Hin & ->).
  assert (E : lp_id lp0 = p) by (destruct (_ =? _); exact Hid). rewrite E, Z.eqb_refl in Hs'.
  assert (lp0 = lp) as -> by (by apply (nodup_map_inj lp_id (lpopups d)); [apply (li_ids _ d H)| | |]). cbn in Hs'. congruence.
Qed.

Lemma lpopup_of_in i d lp : lpopup_of i d = Some lp -> lp ∈ lpopups d.
Proof. intros [H _]%List.find_some. by apply list_elem_of_In. Qed.

Lemma linv_input i e d : linv d -> linv (notify_pointer i e d).
Proof.
  intros H. unfold notify_pointer. destruct (pgrab_of i d) as [|p|p|s|] eqn:EG.
  - eapply linv_frame; [apply layer_frame|done].
  - destruct (find_popup p d); [by apply linv_popup_input|]. eapply linv_frame; [by apply lf_demit|done].
  - unfold layer_grab. destruct (lpopup_of p d) as [lp|] eqn:E; [|eapply linv_frame; [by apply lf_demit|done]].
    destruct (lp_seat lp) as [j|] eqn:Es; [|eapply linv_frame; [by apply lf_demit|done]].
    destruct e as [m|b [|]| |sr| |]; cbn [layer_popup_grab_input];
      try (eapply linv_frame; [apply layer_frame|done]).
    by apply linv_layer_press; [|apply (lpopup_of_in p)|].
  - destruct (find_stream s d).
    + eapply linv_frame; [apply layer_frame|done].
    + eapply linv_frame; [by apply lf_demit|done].
  - done.
Qed.

(** ** Layer surfaces *)

Lemma upd_lsurf_in r f d l :
  l ∈ lsurfs (upd_lsurf r f d) -> exists l', l' ∈ lsurfs d /\ l = if l_res l' =? r then f l' else l'.
Proof. intros (x & -> & H)%list_elem_of_fmap. by exists x. Qed.
Lemma upd_lsurf_res r f d :
  (forall l, l_res (f l) = l_res l) -> map l_res (lsurfs (upd_lsurf r f d)) = map l_res (lsurfs d).
Proof. intros H. unfold upd_lsurf; cbn. rewrite map_map. apply map_ext. intros x. destruct (_ =? _); auto. Qed.

(** One layer surface changes, keeps its resource, its shape and its size, and
    keeps its surface as long as it has popups. *)
Lemma linv_upd_lsurf {P : Z -> Prop} (Q : Z -> Prop) r f d :
  (forall l, l_res (f l) = l_res l) ->
  (forall l, l ∈ lsurfs d -> l_res l = r -> lshape l -> lshape (f l)) ->
  (forall x, Q x -> x ≠ r -> P x) ->
  (forall l, l ∈ lsurfs d -> l_res l = r -> Q r -> lconf d (f l)) ->
  (forall l, l_surf l ≠ None -> l_surf (f l) = None -> forall lp, lp ∈ lpopups d -> lp_parent lp ≠ r) ->
  linvw P d -> linvw Q (upd_lsurf r f d).
Proof.
  intros Hr Hg HQ Hc Hs [I1 I2 I6 I3 I4 I5 I7]. split; try done.
  - by rewrite upd_lsurf_res.
  - intros l (l' & Hin & ->)%upd_lsurf_in. destruct (l_res l' =? r) eqn:E; [|by apply I2]. zbool. auto.
  - intros l (l' & Hin & ->)%upd_lsurf_in HP. apply (lconf_events d); [done|]. destruct (l_res l' =? r) eqn:E; zbool.
    + rewrite Hr in HP. subst r. by apply Hc.
    + apply I6; auto.
  - intros lp Hlp. destruct (I3 lp Hlp) as (l & A & B & C).
    exists (if l_res l =? r then f l else l). split_and!.
    + apply list_elem_of_fmap. by exists l.
    + destruct (_ =? _); [by rewrite Hr|done].
    + destruct (l_res l =? r) eqn:E; [|done]. zbool. intros E'.
      apply (Hs l C E' lp Hlp). congruence.
Qed.

(** The setters. *)
Lemma linv_keep {P} r f d :
  (forall l, l_res (f l) = l_res l /\ l_surf (f l) = l_surf l /\ l_v (f l) = l_v l
     /\ l_mapped (f l) = l_mapped l /\ l_layer (f l) = l_layer l
     /\ initial_configure_sent (f l) = initial_configure_sent l
     /\ last_configure_serial (f l) = last_configure_serial l
     /\ box_w (l_box (f l)) = box_w (l_box l) /\ box_h (l_box (f l)) = box_h (l_box l)) ->
  linvw P d -> linvw P (upd_lsurf r f d).
Proof.
  intros Hf H. apply (linv_upd_lsurf (P:=P)); [| |done| | |done].
  - intros l. apply Hf.
  - intros l _ _ [G1 G2]. destruct (Hf l) as (E1 & E2 & E3 & E4 & E5 & E6 & _).
    split; rewrite ?E1, ?E2, ?E3, ?E4, ?E5, ?E6; auto.
  - intros l Hl <- HP. destruct (Hf l) as (E1 & E2 & E3 & E4 & E5 & E6 & E7 & E8 & E9).
    destruct (li_conf _ d H l Hl HP). split; rewrite ?E1, ?E3, ?E4, ?E6, ?E7, ?E8, ?E9; auto.
  - intros l Hl E. destruct (Hf l) as (_ & E2 & _). congruence.
Qed.

Lemma linv_set_pending {P} r f d : linvw P d -> linvw P (set_pending r f d).
Proof. by apply linv_keep. Qed.

Lemma lframe_publish d : lframe d (publish d).
Proof. unfold publish. lframe_tac. Qed.
Lemma lframe_reflow d : lframe d (reflow d).
Proof. unfold reflow. etransitivity; [apply lframe_publish|]. lframe_tac. Qed.

(** ** Configure and commit *)

Lemma lsurf_of_in r d l : lsurf_of r d = Some l -> l ∈ lsurfs d /\ l_res l = r.
Proof. intros [H1 H2]%List.find_some. zbool. split; [by apply list_elem_of_In|done]. Qed.

Lemma lsurf_unique {P} d l l' :
  linvw P d -> l ∈ lsurfs d -> l' ∈ lsurfs d -> l_res l = l_res l' -> l = l'.
Proof. intros H. apply nodup_map_inj, (li_res _ d H). Qed.

Lemma linv_weaken (P Q : Z -> Prop) d : (forall x, Q x -> P x) -> linvw P d -> linvw Q d.
Proof. intros H [I1 I2 I6 I3 I4 I5 I7]. split; auto. Qed.

(** Undefined behaviour ends what can be said about sizes. *)
Lemma linv_undefined r e d :
  undefined e = true -> (forall r, config_of r e = None) ->
  (forall l, l ∈ lsurfs d -> l_res l = r -> l_mapped l = true -> l_v l ≠ None) ->
  linvw (fun x => x ≠ r) d -> linv (demit e d).
Proof.
  intros He Hc Hm [I1 I2 I6 I3 I4 I5 I7]. split; try done. intros l Hl _. split.
  - destruct (decide (l_res l = r)) as [E|E]; [by apply Hm|]. apply (I6 l Hl E).
  - unfold sane; cbn. by rewrite He.
Qed.

(** Sending a configure for the box just computed. *)
Lemma linv_send r b d :
  (forall l, l ∈ lsurfs d -> l_res l = r -> l_box l = b /\ (l_mapped l = true -> l_v l ≠ None)) ->
  linvw (fun x => x ≠ r) d -> linv (send_layer_configure r b d).
Proof.
  intros Hb H. unfold send_layer_configure. set (serial := u32 _).
  set (d1 := upd_lsurf r (fun l => l <| last_configure_serial := serial |>)
               (d <| layer_configure_serial_next := serial |>)).
  change (linv (demit (layer_configure r serial (box_w b) (box_h b)) d1)).
  assert (H1 : linvw (fun x => x ≠ r) d1).
  { apply (linv_upd_lsurf (P:=fun x => x ≠ r)); try done.
    - intros l _ _ [G1 G2]. by split.
    - destruct H as [I1 I2 I6 I3 I4 I5 I7]. split; try done.
      intros l Hl HP. apply (lconf_events d); [done|]. auto. }
  destruct H1 as [I1 I2 I6 I3 I4 I5 I7]. split; try done. intros l Hl _.
  destruct (decide (l_res l = r)) as [E|E].
  - apply upd_lsurf_in in Hl as (l' & Hin & ->).
    assert (E' : l_res l' = r) by (destruct (l_res l' =? r) eqn:Er; [by zbool|done]).
    rewrite E', Z.eqb_refl in *. destruct (Hb l' Hin E') as [Hbox Hm]. split; [exact Hm|].
    intros _ _. unfold configures; cbn. rewrite E', Z.eqb_refl. cbn. by rewrite Hbox.
  - destruct (I6 l Hl E) as [A B]. split; [done|]. intros S. unfold configures; cbn.
    destruct (r =? l_res l) eqn:Er; [zbool; congruence|]. apply B.
    revert S. unfold sane; cbn. done.
Qed.

Lemma linv_with_box r k l d :
  l_res l = r ->
  (forall l, l ∈ lsurfs d -> l_res l = r -> l_mapped l = true -> l_v l ≠ None) ->
  linvw (fun x => x ≠ r) d ->
  (forall b, linvw (fun x => x ≠ r) (upd_lsurf r (fun l => l <| l_box := b |>) d) ->
     linv (k b (upd_lsurf r (fun l => l <| l_box := b |>) d))) ->
  linv (with_box l k d).
Proof.
  intros <- Hm H Hk. unfold with_box. destruct (layout_area l d) as [area|i].
  - destruct (qdwin_layer_surface_compute_box _ _) as [b|]; [|by eapply linv_undefined].
    apply Hk. apply (linv_upd_lsurf (P:=fun x => x ≠ l_res l)); try done.
    intros l' _ _ [G1 G2]. by split.
  - by eapply linv_undefined.
Qed.

Lemma linv_send_configure l d :
  (forall l', l' ∈ lsurfs d -> l_res l' = l_res l -> l_mapped l' = true -> l_v l' ≠ None) ->
  linvw (fun x => x ≠ l_res l) d -> linv (qdwin_layer_surface_send_configure l d).
Proof.
  intros Hm H. apply (linv_with_box (l_res l)); try done. intros b Hb. apply linv_send; [|done].
  intros l' (l0 & Hin & ->)%upd_lsurf_in E. revert E. destruct (l_res l0 =? l_res l) eqn:E0; zbool; [|congruence].
  intros _. split; [done|]. exact (Hm l0 Hin E0).
Qed.

Lemma lframe_create_view s d v d' : create_view s d = (v, d') -> lframe d d'.
Proof.
  unfold create_view. destruct (weston_view_create (base d)) as [[v'|] q]; intros [= <- <-]; done.
Qed.

Lemma lframe_grant l d : lframe d (grant_exclusive_focus l d).
Proof. unfold grant_exclusive_focus. lframe_tac. Qed.

(** Mapping needs a view. *)
Lemma linv_place_and_map l s v d :
  (forall l', l' ∈ lsurfs d -> l_res l' = l_res l -> l_v l' ≠ None) ->
  linv d -> linv (place_and_map l s v d).
Proof.
  intros Hv H. unfold place_and_map. eapply linv_frame; [apply lframe_grant|].
  destruct (l_mapped l); [eapply linv_frame; [by apply lf_base|done]|].
  eapply linv_frame; [apply lframe_reflow|].
  apply (linv_upd_lsurf (P:=fun _ => True)); try done.
  - intros l' _ _ [G1 G2]. by split.
  - intros l' Hl' E _. destruct (li_conf _ _ H l' Hl') as [A B]; [done|].
    split; [|exact B]. intros _. exact (Hv l' Hl' E).
  - eapply linv_frame; [|exact H]. done.
Qed.

Lemma linv_apply r d :
  (forall l, lsurf_of r d = Some l -> initial_configure_sent l = true) ->
  linv d -> linv (qdwin_layer_surface_apply r d).
Proof.
  intros Hsent H. unfold qdwin_layer_surface_apply. destruct (lsurf_of r d) as [l|] eqn:El; [|done].
  pose proof (lsurf_of_in r d l El) as [Hin Hr]. destruct (_ <? _); [done|].
  assert (Hu : forall l', l' ∈ lsurfs d -> l_res l' = l_res l -> l' = l)
    by (intros l' A B; by apply (lsurf_unique (P:=fun _ => True) d)).
  destruct (l_v l) as [v|] eqn:Ev.
  - destruct (l_surf l) as [s|]; [|done]. apply linv_place_and_map; [|done].
    intros l' A B. rewrite (Hu l' A B). congruence.
  - destruct (l_surf l) as [s|] eqn:Es; [|done].
    destruct (create_view s d) as [v d1] eqn:Ec. pose proof (lframe_create_view _ _ _ _ Ec) as F.
    pose proof (linv_frame _ _ F H) as H1. destruct v as [v|]; [|done].
    set (d2 := upd_lsurf r (fun l => l <| l_v := Some v |>) d1).
    change (linv (place_and_map l s v (on_base (on_scene (weston_view_move_to_layer v
      (layer_shell_layer (l_layer l)))) d2))).
    assert (H2 : linv d2).
    { apply (linv_upd_lsurf (P:=fun _ => True)); try done; rewrite (lf_surfs _ _ F).
      - intros l' A B [G1 G2]. rewrite (Hu l' A) by congruence. split; [|rewrite (Hu l' A) in G2 by congruence; done].
        intros _. cbn. split; [congruence|by apply Hsent].
      - intros l' A B _. rewrite <- (lf_surfs _ _ F) in A. destruct (li_conf _ _ H1 l' A) as [C D]; [done|].
        by split. }
    apply linv_place_and_map; [|by eapply linv_frame; [apply lf_base|]].
    intros l' A B. cbn in A. apply upd_lsurf_in in A as (l0 & A & ->).
    destruct (l_res l0 =? r) eqn:E0; [done|]. zbool. rewrite Hr in B. congruence.
Qed.

Lemma linv_commit r d : linv d -> linv (qdwin_layer_surface_on_commit r d).
Proof.
  intros H. unfold qdwin_layer_surface_on_commit. destruct (lsurf_of r d) as [l|] eqn:El; [|done].
  pose proof (lsurf_of_in r d l El) as [Hin Hr]. cbv zeta.
  set (d1 := publish (upd_lsurf r (fun l => l <| current := pending l |>) d)).
  assert (H1 : linv d1) by (eapply linv_frame; [apply lframe_publish|]; by apply linv_keep).
  assert (L1 : lsurfs d1 = map (fun l => if l_res l =? r then l <| current := pending l |> else l) (lsurfs d))
    by done.
  assert (In1 : l <| current := pending l |> ∈ lsurfs d1).
  { rewrite L1. apply list_elem_of_fmap. exists l. by rewrite Hr, Z.eqb_refl. }
  assert (Hu : forall l', l' ∈ lsurfs d1 -> l_res l' = r -> l' = l <| current := pending l |>).
  { intros l' A B. apply (lsurf_unique (P:=fun _ => True) d1); try done. by rewrite B. }
  assert (Hm : forall l', l' ∈ lsurfs d1 -> l_res l' = r -> l_mapped l' = true -> l_v l' ≠ None).
  { intros l' A _. by apply (li_conf _ _ H1 l'). }
  change (initial_configure_sent (l <| current := pending l |>)) with (initial_configure_sent l).
  destruct (initial_configure_sent l) eqn:Es; cbn [negb].
  - apply (linv_with_box r); [done|done|exact (linv_weaken (fun _ => True) _ d1 (fun _ _ => I) H1)|]. intros b Hb.
    destruct (_ || _) eqn:Eb.
    + apply linv_send; [|done]. intros l' (l0 & A & ->)%upd_lsurf_in.
      destruct (l_res l0 =? r) eqn:E0; zbool; [|congruence]. intros _. split; [done|exact (Hm l0 A E0)].
    + apply orb_false_iff in Eb as [Ew Eh]. apply negb_false_iff in Ew, Eh. zbool.
      set (d2 := upd_lsurf r (fun l => l <| l_box := b |>) d1) in *.
      assert (H2 : linv d2).
      { apply (linv_upd_lsurf (P:=fun _ => True)); try done.
        - intros l' _ _ [G1 G2]. by split.
        - intros l' A B _. destruct (li_conf _ _ H1 l' A) as [C D]; [done|]. split; [done|].
          rewrite (Hu l' A B) in *. cbn in *. rewrite Ew, Eh. exact D. }
      apply linv_apply; [|done]. intros l' [A B]%lsurf_of_in.
      apply upd_lsurf_in in A as (l0 & A & ->). destruct (l_res l0 =? r) eqn:E0; zbool; [|congruence].
      by rewrite (Hu l0 A E0).
  - set (d2 := upd_lsurf r (fun l => l <| initial_configure_sent := true |>) d1).
    apply (linv_send_configure (l <| current := pending l |>)); change (l_res (l <| current := pending l |>)) with (l_res l); rewrite Hr.
    + intros l' (l0 & A & ->)%upd_lsurf_in. destruct (l_res l0 =? r) eqn:E0; zbool; [|congruence].
      intros _. exact (Hm l0 A E0).
    + apply (linv_upd_lsurf (P:=fun _ => True)); try done.
      intros l' A B [G1 G2]. split; [|done]. intros Hv. split; [by apply G1|done].
Qed.

(** ** Popups *)

Lemma lframe_destroy_view v d : lframe d (destroy_view v d).
Proof.
  split; try done. unfold grabs, destroy_view; cbn. rewrite map_map. apply map_ext.
  intros p. by case_bool_decide.
Qed.

Lemma popup_in_unique {P} d lp lp' :
  linvw P d -> lp ∈ lpopups d -> lp' ∈ lpopups d -> lp_id lp = lp_id lp' -> lp = lp'.
Proof. intros H. apply nodup_map_inj, (li_ids _ d H). Qed.

Lemma grabs_pgrab {P} i g d : linvw P d -> (i, g) ∈ grabs d -> pgrab_of i d = g.
Proof.
  intros H Hin. unfold pgrab_of, pointer_of. pose proof (li_seats _ d H) as Hn.
  apply list_elem_of_fmap in Hin as (p & [= -> ->] & Hp). unfold grabs in Hn. rewrite map_map in Hn.
  destruct (List.find _ _) as [p'|] eqn:E.
  - apply List.find_some in E as [E1 E2]. zbool.
    by rewrite (nodup_map_inj ptr_seat (pointers d) p' p Hn) by (try done; by apply list_elem_of_In).
  - apply list_elem_of_In in Hp. pose proof (List.find_none _ _ E p Hp). cbn in *. zbool. lia.
Qed.

(** Removing a popup no pointer holds. *)
Lemma linv_remove_popup {P} p d :
  (forall i, ~ X p -> (i, ptr_layer_popup p) ∈ grabs d -> False) -> linvw P d ->
  linvw P (d <| lpopups ::= List.filter (fun x => negb (lp_id x =? p)) |>).
Proof.
  intros Hp [I1 I2 I6 I3 I4 I5 I7].
  assert (Hin : forall x, x ∈ List.filter (fun x => negb (lp_id x =? p)) (lpopups d)
                  <-> x ∈ lpopups d /\ lp_id x ≠ p).
  { intros x. rewrite !list_elem_of_In, filter_In. rewrite negb_true_iff, Z.eqb_neq. done. }
  split; try done.
  - intros l Hl HP. apply (lconf_events d); auto.
  - intros lp Hlp. apply Hin in Hlp as [Hlp _]. by apply I3.
  - destruct I4 as [I4 I4']. split.
    + cbn. clear -I4. induction (lpopups d) as [|x l IH]; [done|]. cbn in *. apply NoDup_cons in I4 as [A B].
      destruct (negb _); [|auto]. cbn. apply NoDup_cons. split; [|auto]. intros H. apply A.
      apply list_elem_of_fmap in H as (y & -> & Hy). apply list_elem_of_fmap. exists y. split; [done|].
      apply list_elem_of_In. apply list_elem_of_In in Hy. by apply filter_In in Hy as [Hy _].
    + intros lp Hlp. apply Hin in Hlp as [Hlp _]. by apply I4'.
  - intros i q Xq Hq. destruct (I5 i q Xq Hq) as (lp & A & B & C & D). exists lp. split_and!; try done.
    apply Hin. split; [done|]. intros E. apply (Hp i); by replace p with q by congruence.
Qed.

Lemma destroy_popup_shape lp d :
  lsurfs (qdwin_layer_popup_destroy lp d) = lsurfs d
  /\ lpopups (qdwin_layer_popup_destroy lp d) = List.filter (fun p => negb (lp_id p =? lp_id lp)) (lpopups d).
Proof.
  unfold qdwin_layer_popup_destroy.
  rewrite (lf_surfs _ _ (lframe_destroy_view _ _)), (lf_popups _ _ (lframe_destroy_view _ _)). cbn.
  destruct (holds_grab lp d); [|done]. destruct (lp_seat lp) as [i|]; [|done].
  set (d1 := upd_lpopup _ _ d).
  assert (F : lframe (upd_pointer i (fun p => p <| ptr_grab := ptr_default |>) d1)
                (weston_pointer_end_grab i d1)) by exact (lf_default_focus i _).
  rewrite (lf_surfs _ _ F), (lf_popups _ _ F). split; [done|]. cbn.
  induction (lpopups d) as [|x l IH]; [done|]. cbn.
  destruct (lp_id x =? lp_id lp) eqn:E; cbn; rewrite E; cbn; by rewrite IH.
Qed.

Lemma linv_destroy_popup {P} lp d :
  linvw P d -> lp ∈ lpopups d -> linvw P (qdwin_layer_popup_destroy lp d).
Proof.
  intros H Hin. unfold qdwin_layer_popup_destroy. eapply linv_frame; [apply lframe_destroy_view|].
  assert (U : forall j, ~ X (lp_id lp) -> (j, ptr_layer_popup (lp_id lp)) ∈ grabs d ->
            holds_grab lp d = true /\ lp_seat lp = Some j).
  { intros j Xp Hj. destruct (li_grabs _ d H j _ Xp Hj) as (lp' & A & B & C & D).
    assert (lp' = lp) as -> by (by apply (popup_in_unique (P:=P) d)).
    split; [|done]. unfold holds_grab. rewrite C, D. cbn [andb].
    apply bool_decide_eq_true. by apply (grabs_pgrab (P:=P)). }
  destruct (holds_grab lp d) eqn:Eh.
  - destruct (lp_seat lp) as [i|] eqn:Es.
    + set (f := fun lp => lp <| lp_res := None |> <| lp_grab := false |>).
      assert (F : lframe (upd_pointer i (fun p => p <| ptr_grab := ptr_default |>) (upd_lpopup (lp_id lp) f d))
                    (weston_pointer_end_grab i (upd_lpopup (lp_id lp) f d))) by exact (lf_default_focus i _).
      apply linv_remove_popup.
      * intros j Xp. rewrite (lf_grabs _ _ F), grabs_ungrab. intros [A B]%in_ungrab.
        destruct (U j Xp B) as [_ E]. congruence.
      * eapply linv_frame; [exact F|].
        change (linvw P (upd_lpopup (lp_id lp) f (upd_pointer i (fun p => p <| ptr_grab := ptr_default |>) d))).
        apply linv_upd_lpopup; [done| |by apply linv_ungrab].
        intros j lp' Xp. rewrite grabs_ungrab. intros [A B]%in_ungrab. destruct (U j Xp B) as [_ E]. congruence.
    + exfalso. unfold holds_grab in Eh. rewrite Es in Eh. by destruct (lp_grab lp).
  - apply linv_remove_popup; [|done]. intros j Xp Hj. by destruct (U j Xp Hj).
Qed.

(** [pre] is what happens just before each popup is destroyed. *)
Lemma destroy_fold {P} (pre : lpopup -> desk -> desk) ps d :
  (forall lp, LayerFrame (pre lp)) -> linvw P d -> (forall lp, lp ∈ ps -> lp ∈ lpopups d) -> NoDup (map lp_id ps) ->
  let d' := foldl (fun d lp => qdwin_layer_popup_destroy lp (pre lp d)) d ps in
  linvw P d' /\ lsurfs d' = lsurfs d
  /\ forall lp, lp ∈ lpopups d' -> lp ∈ lpopups d /\ lp_id lp ∉ map lp_id ps.
Proof.
  intros Hpre. revert d. induction ps as [|x ps IH]; intros d H Hin Hn; cbn.
  - split_and!; [done|done|]. intros lp Hlp. split; [done|]. apply not_elem_of_nil.
  - cbn in Hn. apply NoDup_cons in Hn as [Hx Hn].
    destruct (destroy_popup_shape x (pre x d)) as [S1 S2]. pose proof (Hpre x d) as F.
    rewrite (lf_surfs _ _ F) in S1. rewrite (lf_popups _ _ F) in S2.
    assert (Hmem : forall lp, lp ∈ lpopups (qdwin_layer_popup_destroy x (pre x d))
                    <-> lp ∈ lpopups d /\ lp_id lp ≠ lp_id x).
    { intros lp. rewrite S2, !list_elem_of_In, filter_In, negb_true_iff, Z.eqb_neq. done. }
    destruct (IH (qdwin_layer_popup_destroy x (pre x d))) as (A & B & C).
    + apply linv_destroy_popup; [by eapply linv_frame|]. rewrite (lf_popups _ _ F). apply Hin, list_elem_of_here.
    + intros lp Hlp. apply Hmem. split; [by apply Hin, list_elem_of_further|]. intros E. apply Hx.
      rewrite <- E. apply list_elem_of_fmap. by exists lp.
    + done.
    + split_and!; [done|congruence|]. intros lp Hlp. destruct (C lp Hlp) as [C1 C2].
      apply Hmem in C1 as [C1 C3]. split; [done|]. by rewrite not_elem_of_cons.
Qed.

Lemma nodup_filter_ids c lps : NoDup (map lp_id lps) -> NoDup (map lp_id (List.filter c lps)).
Proof.
  intros Hn. induction lps as [|x l IH]; [done|]. cbn in *. apply NoDup_cons in Hn as [Ha Hb].
  destruct (c x); [|auto]. cbn. apply NoDup_cons. split; [|auto]. intros Hi. apply Ha.
  apply list_elem_of_fmap in Hi as (y & -> & Hy). apply list_elem_of_fmap. exists y. split; [done|].
  apply list_elem_of_In. apply list_elem_of_In in Hy. by apply filter_In in Hy as [Hy _].
Qed.

Lemma linv_destroy_popups {P} r d :
  linvw P d -> linvw P (destroy_popups_of r d) /\ lsurfs (destroy_popups_of r d) = lsurfs d
  /\ forall lp, lp ∈ lpopups (destroy_popups_of r d) -> lp_parent lp ≠ r.
Proof.
  intros H. unfold destroy_popups_of. set (ps := List.filter _ _).
  assert (Hps : forall lp, lp ∈ ps <-> lp ∈ lpopups d /\ lp_parent lp = r).
  { intros lp. unfold ps. rewrite !list_elem_of_In, filter_In, Z.eqb_eq. done. }
  destruct (destroy_fold (P:=P) (fun _ d => d) ps d) as (A & B & C); [done|done|..].
  - intros lp Hlp. by apply Hps.
  - apply nodup_filter_ids, (li_ids _ d H).
  - split_and!; [done|done|]. intros lp Hlp E. destruct (C lp Hlp) as [C1 C2]. apply C2.
    apply list_elem_of_fmap. exists lp. split; [done|]. by apply Hps.
Qed.

(** ** Destruction *)

Lemma lframe_drop_view l d : lframe d (drop_layer_view l d).
Proof. unfold drop_layer_view. destruct (l_v l); [apply lframe_destroy_view|done]. Qed.

Lemma linv_surface_destroyed r d : linv d -> linv (qdwin_layer_surface_on_surface_destroyed r d).
Proof.
  intros H. unfold qdwin_layer_surface_on_surface_destroyed.
  destruct (lsurf_of r d) as [l|]; [|done]. eapply linv_frame; [by apply lf_demit|].
  set (f := fun l => match l_v l with Some _ => l <| l_v := None |> <| l_mapped := false |> | None => l end).
  set (d1 := upd_lsurf r f (drop_layer_view l d)).
  assert (Hf : forall l, l_res (f l) = l_res l /\ l_surf (f l) = l_surf l /\ l_v (f l) = None)
    by (intros l'; unfold f; destruct (l_v l') eqn:E; by rewrite ?E).
  assert (H1 : linv d1).
  { apply (linv_upd_lsurf (P:=fun _ => True)); try done.
    - intros l'. apply Hf.
    - intros l' _ _ [G1 G2]. unfold f. destruct (l_v l') eqn:E; split; auto; cbn; congruence.
    - intros l' A B _. destruct (li_conf _ _ (linv_frame _ _ (lframe_drop_view l d) H) l' A) as [C D]; [done|].
      unfold f. destruct (l_v l') eqn:E; (split; [|exact D]); [done|by rewrite E].
    - intros l' A B. by rewrite (proj1 (proj2 (Hf l'))) in B.
    - eapply linv_frame; [apply lframe_drop_view|done]. }
  destruct (linv_destroy_popups (P:=fun _ => True) r d1 H1) as (H2 & L2 & P2).
  set (d2 := destroy_popups_of r d1) in *.
  assert (V2 : forall l', l' ∈ lsurfs d2 -> l_res l' = r -> l_v l' = None).
  { intros l'. rewrite L2. intros (l0 & A & ->)%upd_lsurf_in. destruct (l_res l0 =? r) eqn:E; zbool.
    - intros _. apply Hf.
    - congruence. }
  clearbody d2.
  assert (H3 : linv (upd_lsurf r (fun l => l <| l_surf := None |>) d2)).
  { apply (linv_upd_lsurf (P:=fun _ => True)); try done.
    - intros l' A B [G1 G2]. split; [|done]. cbn. by rewrite (V2 l' A B).
    - intros l' A B _. destruct (li_conf _ _ H2 l' A) as [C D]; [done|]. by split. }
  destruct (reserving l); (eapply linv_frame; [|exact H3]); [apply lframe_reflow|apply lframe_publish].
Qed.

Lemma linv_remove_surface r d :
  (forall lp, lp ∈ lpopups d -> lp_parent lp ≠ r) -> linvw (fun x => x ≠ r) d ->
  linv (d <| lsurfs ::= List.filter (fun l => negb (l_res l =? r)) |>).
Proof.
  intros Hp [I1 I2 I6 I3 I4 I5 I7].
  assert (Hin : forall x, x ∈ List.filter (fun l => negb (l_res l =? r)) (lsurfs d)
                  <-> x ∈ lsurfs d /\ l_res x ≠ r).
  { intros x. rewrite !list_elem_of_In, filter_In, negb_true_iff, Z.eqb_neq. done. }
  split; try done.
  - cbn. clear -I1. induction (lsurfs d) as [|x l IH]; [done|]. cbn in *. apply NoDup_cons in I1 as [A B].
    destruct (negb _); [|auto]. cbn. apply NoDup_cons. split; [|auto]. intros H. apply A.
    apply list_elem_of_fmap in H as (y & -> & Hy). apply list_elem_of_fmap. exists y. split; [done|].
    apply list_elem_of_In. apply list_elem_of_In in Hy. by apply filter_In in Hy as [Hy _].
  - intros l Hl. apply Hin in Hl as [Hl _]. by apply I2.
  - intros l Hl _. apply Hin in Hl as [Hl Hn]. apply (lconf_events d); auto.
  - intros lp Hlp. destruct (I3 lp Hlp) as (l & A & B & C). exists l. split_and!; try done.
    apply Hin. split; [done|]. rewrite B. by apply Hp.
Qed.

Lemma linv_resource_destroy r d : linv d -> linv (qdwin_layer_surface_resource_destroy r d).
Proof.
  intros H. unfold qdwin_layer_surface_resource_destroy. destruct (lsurf_of r d) as [l|]; [|done].
  set (d1 := upd_lsurf r (fun l => l <| l_v := None |>) (drop_layer_view l d)).
  assert (H1 : linvw (fun x => x ≠ r) d1).
  { apply (linv_upd_lsurf (P:=fun _ => True)); try done.
    - intros l' _ _ [G1 G2]. by split.
    - eapply linv_frame; [apply lframe_drop_view|done]. }
  destruct (linv_destroy_popups r d1 H1) as (H2 & _ & P2).
  pose proof (linv_remove_surface r _ P2 H2) as H3.
  destruct (reserving l); (eapply linv_frame; [|exact H3]); [apply lframe_reflow|apply lframe_publish].
Qed.

(** ** Creation *)

Lemma linv_get_layer_surface alloc client mgr id s out layer d :
  id ∉ map l_res (lsurfs d) -> 0 <= layer -> linv d ->
  linv (qdwin_layer_shell_get_layer_surface alloc client mgr id s out layer d).
Proof.
  intros Hid Hl H. unfold qdwin_layer_shell_get_layer_surface. destruct (wsurfaces d !! s) as [w|]; [|done].
  destruct (Z.ltb_spec LAYER_OVERLAY layer); [by eapply linv_frame; [apply lf_demit|]|].
  destruct (negb _); [by eapply linv_frame; [apply lf_demit|]|]. cbv zeta.
  set (d1 := d <| wsurfaces ::= _ |>). assert (F1 : lframe d d1) by done.
  pose proof (linv_frame _ _ F1 H) as H1.
  destruct (negb alloc); [by eapply linv_frame; [apply lf_demit|]|].
  eapply linv_frame; [apply lframe_publish|].
  destruct H1 as [I1 I2 I6 I3 I4 I5 I7]. split; try done.
  - cbn. apply NoDup_cons. by split.
  - intros l [->|Hin]%elem_of_cons; [|by apply I2]. by split.
  - intros l [->|Hin]%elem_of_cons _; [by split|]. apply (lconf_events d1); auto.
  - intros lp Hlp. destruct (I3 lp Hlp) as (l & A & B & C). exists l. split_and!; try done.
    cbn. by apply list_elem_of_further.
Qed.

Lemma linv_get_popup alloc client r x d : linv d -> linv (qdwin_layer_surface_get_popup alloc client r x d).
Proof.
  intros H. unfold qdwin_layer_surface_get_popup. destruct (lsurf_of r d) as [l|] eqn:El; [|done].
  destruct (lsurf_of_in r d l El) as [Hin Hr].
  destruct (l_surf l) as [s|] eqn:Es; [|by eapply linv_frame; [apply lf_demit|]].
  destruct (xdg_popups d !! x) as [xp|]; [|by eapply linv_frame; [apply lf_demit|]].
  destruct (negb alloc); [by eapply linv_frame; [apply lf_demit|]|].
  destruct (create_view (xp_surf xp) d) as [v d1] eqn:Ec. pose proof (lframe_create_view _ _ _ _ Ec) as F.
  pose proof (linv_frame _ _ F H) as H1.
  destruct v as [v|]; [|by eapply linv_frame; [apply lf_demit|]].
  set (lp := mk_lpopup _ _ _ _ _ _ _). set (d2 := qdwin_layer_popup_update_position lp _).
  assert (E2 : lsurfs d2 = lsurfs d1 /\ lpopups d2 = lpopups d1 /\ next_lp d2 = next_lp d1 + 1
               /\ grabs d2 = grabs d1 /\ devents d2 = devents d1).
  { unfold d2, qdwin_layer_popup_update_position. by repeat split_match. }
  destruct E2 as (S2 & P2 & N2 & G2 & D2). rewrite (lf_surfs _ _ F) in S2. clearbody d2.
  destruct H1 as [I1 I2 I6 I3 I4 I5 I7]. rewrite (lf_surfs _ _ F) in I1, I2, I6, I3.
  assert (Hfresh : forall y, y ∈ lpopups d1 -> lp_id y < next_lp d1) by apply I4.
  split; cbn; rewrite ?S2, ?P2, ?N2.
  - done.
  - done.
  - intros l' Hl' HP. apply (lconf_events d1); auto.
  - intros y [->|Hy]%elem_of_cons; [|by apply I3]. exists l. cbn. rewrite Es. done.
  - split.
    + apply NoDup_cons. split; [|apply I4]. intros (y & E & Hy)%list_elem_of_fmap. cbn in E.
      pose proof (Hfresh y Hy). lia.
    + intros y [->|Hy]%elem_of_cons; [cbn; lia|]. pose proof (Hfresh y Hy). lia.
  - intros i p Xp. change (grabs (d2 <| lpopups := lp :: lpopups d1 |>)) with (grabs d2).
    unfold grabs in *. cbn. rewrite G2. intros Hp. destruct (I5 i p Xp Hp) as (y & A & B). exists y.
    split; [by apply list_elem_of_further|done].
  - unfold grabs in *. cbn. by rewrite G2.
Qed.

Lemma for_resource_in x d lp :
  qdwin_layer_popup_for_resource x d = Some lp -> lp ∈ lpopups d.
Proof.
  intros [H _]%List.find_some. apply in_flat_map in H as (l & _ & H).
  apply filter_In in H as [H _]. by apply list_elem_of_In.
Qed.

(** A popup's grab starts: the pointer leaves whatever grab it had. *)
Lemma linv_grab_handler x i serial d :
  linv d -> linv (snd (qdwin_layer_popup_layer_grab_handler x i serial d)).
Proof.
  intros H. unfold qdwin_layer_popup_layer_grab_handler. destruct (negb _); [done|].
  destruct (qdwin_layer_popup_for_resource x d) as [lp|] eqn:E; [|done].
  pose proof (for_resource_in x d lp E) as Hin. destruct (seat_of i d) as [s|]; [|done].
  destruct (negb _); [done|]. destruct (lp_grab lp) eqn:Eg; [done|]. cbn [snd].
  set (p := lp_id lp). set (g := fun pt : pointer => pt <| ptr_grab := ptr_layer_popup p |>).
  set (f1 := fun lp => lp <| lp_seat := Some i |>). set (f2 := fun lp => lp <| lp_grab := true |>).
  set (d1 := upd_pointer i g (upd_lpopup p f1 d)).
  assert (F : lframe d1 (weston_pointer_start_grab i (ptr_layer_popup p) (upd_lpopup p f1 d))) by exact (lf_grab_focus i d1).
  assert (G1 : forall j q, (j, ptr_layer_popup q) ∈ grabs d1 ->
            (j = i /\ q = p) \/ (j ≠ i /\ (j, ptr_layer_popup q) ∈ grabs d)).
  { intros j q (pt & Hpt & Hq)%list_elem_of_fmap. cbn in Hq. apply list_elem_of_fmap in Hq as (pt' & -> & Hq).
    destruct (ptr_seat pt' =? i) eqn:Ei; zbool.
    - left. injection Hpt as -> ->. done.
    - right. injection Hpt as -> ->. split; [done|]. apply list_elem_of_fmap. by exists pt'. }
  assert (U : forall q, q ∈ lpopups d -> lp_id q = p -> q = lp)
    by (intros q A B; by apply (popup_in_unique (P:=fun _ => True) d)).
  change (linv (upd_lpopup p f2 (weston_pointer_start_grab i (ptr_layer_popup p) (upd_lpopup p f1 d)))).
  assert (F' : lframe (upd_lpopup p f2 d1) (upd_lpopup p f2 (weston_pointer_start_grab i (ptr_layer_popup p) (upd_lpopup p f1 d)))).
  { destruct F as [A B C D G I J]. split; try done. cbn. by rewrite B. }
  eapply linv_frame; [exact F'|].
  assert (L : lpopups (upd_lpopup p f2 d1) = map (fun y => if lp_id y =? p then f2 (f1 y) else y) (lpopups d)).
  { unfold d1, upd_lpopup, upd_pointer; cbn. rewrite map_map. apply map_ext. intros y.
    destruct (lp_id y =? p) eqn:Ey; [|by rewrite Ey]. change (lp_id (f1 y)) with (lp_id y). by rewrite Ey. }
  destruct H as [I1 I2 I6 I3 I4 I5 I7]. split; try done; rewrite ?L.
  - intros l Hl HP. apply (lconf_events d); auto.
  - intros y (y' & -> & Hy)%list_elem_of_fmap. destruct (I3 y' Hy) as (l & A & B & C). exists l.
    split_and!; try done. by destruct (_ =? _).
  - split.
    + rewrite map_map. erewrite map_ext; [apply I4|]. intros y. by destruct (_ =? _).
    + intros y (y' & -> & Hy)%list_elem_of_fmap. pose proof (proj2 I4 y' Hy). by destruct (_ =? _).
  - intros j q Xq Hq. destruct (G1 j q Hq) as [[-> ->]|[Hj Hq']].
    + exists (f2 (f1 lp)). split_and!; try done. apply list_elem_of_fmap. exists lp. by rewrite Z.eqb_refl.
    + destruct (I5 j q Xq Hq') as (y & A & B & C & D). exists y. split_and!; try done.
      apply list_elem_of_fmap. exists y. split; [|done]. destruct (lp_id y =? p) eqn:Ey; [|done]. zbool.
      rewrite (U y A Ey) in C. congruence.
  - unfold grabs in *. cbn. rewrite !map_map in *. erewrite map_ext; [exact I7|].
    intros pt. by destruct (_ =? _).
Qed.

Lemma linv_set_layer r layer d : 0 <= layer -> linv d -> linv (qdwin_layer_surface_set_layer r layer d).
Proof.
  intros Hl H. unfold qdwin_layer_surface_set_layer. destruct (lsurf_of r d) as [l|]; [|done].
  destruct (Z.ltb_spec LAYER_OVERLAY layer); [by eapply linv_frame; [apply lf_demit|]|].
  assert (H1 : linv (upd_lsurf r (fun l => l <| l_layer := layer |>) d)).
  { apply (linv_upd_lsurf (P:=fun _ => True)); try done.
    - intros l' _ _ [G1 G2]. by split.
    - intros l' A B _. destruct (li_conf _ _ H l' A) as [C D]; [done|]. by split. }
  destruct (l_v l); [|done]. destruct (_ =? _); [done|]. eapply linv_frame; [apply lf_base|done].
Qed.

Lemma linv_with_lsurf r k d : linv (k d) -> linv d -> linv (with_lsurf r k d).
Proof. unfold with_lsurf. by destruct (lsurf_of r d). Qed.

Lemma linv_foldl {A} (f : desk -> A -> desk) l d :
  (forall d a, linv d -> linv (f d a)) -> linv d -> linv (foldl f d l).
Proof. intros Hf. revert d. induction l; intros d H; cbn; auto. Qed.

Lemma linv_popup_commit i d : linv d -> linv (qdwin_layer_popup_on_commit i d).
Proof.
  intros H. unfold qdwin_layer_popup_on_commit, qdwin_layer_popup_update_position.
  repeat (split_match; try done). eapply linv_frame; [apply lf_base|done].
Qed.

Lemma linv_popup_gone i d : linv d -> linv (qdwin_layer_popup_on_surface_destroyed i d).
Proof.
  intros H. unfold qdwin_layer_popup_on_surface_destroyed. destruct (lpopup_of i d) as [lp|] eqn:E; [|done].
  apply linv_destroy_popup; [done|]. by apply (lpopup_of_in i).
Qed.

Lemma linv_popup_role_gone i d : linv d -> linv (qdwin_layer_popup_on_popup_resource_destroyed i d).
Proof.
  intros H. unfold qdwin_layer_popup_on_popup_resource_destroyed. cbv zeta.
  apply (linv_popup_gone i). by apply linv_upd_lpopup.
Qed.

(** ** Seats *)

(** A cancelled grab: the popup forgets it. *)
Lemma linv_cancel i d :
  (forall p, pgrab_of i d = ptr_layer_popup p -> X p) -> linv d -> linv (weston_pointer_cancel_grab i d).
Proof.
  intros HX H. unfold weston_pointer_cancel_grab. destruct (pgrab_of i d) as [|p|p|s|].
  - done.
  - destruct (find_popup p d) as [x|]; [|by eapply linv_frame; [apply lf_demit|]].
    eapply linv_frame; [|exact H]. unfold qdwin_popup_grab_cancel.
    etransitivity; [apply lf_deactivate|apply layer_frame].
  - specialize (HX p eq_refl). destruct (lpopup_of p d) as [lp|] eqn:E; [|by eapply linv_frame; [apply lf_demit|]].
    unfold qdwin_layer_popup_grab_cancel. eapply linv_frame; [apply layer_frame|].
    apply linv_upd_lpopup; [done| |done]. intros j lp' N. apply lpopup_of_id in E. by rewrite E in N.
  - by eapply linv_frame; [|exact H].
  - done.
Qed.

Lemma pgrab_set_focus i v j d : pgrab_of j (weston_pointer_set_focus i v d) = pgrab_of j d.
Proof.
  unfold pgrab_of, pointer_of, weston_pointer_set_focus, upd_pointer; cbn.
  induction (pointers d) as [|p l IH]; [done|]. cbn. destruct (ptr_seat p =? i) eqn:E; cbn; by destruct (ptr_seat p =? j).
Qed.

(** The pointer is gone before its popups are told. *)
Lemma linv_seat_release i d : linv d -> linv (release_seat i d).
Proof.
  intros [I1 I2 I6 I3 I4 I5 I7]. unfold release_seat. cbv zeta.
  set (d1 := d <| pointers ::= _ |>).
  assert (G1 : forall x, x ∈ grabs d1 -> x ∈ grabs d /\ fst x ≠ i).
  { intros x (p & -> & Hp)%list_elem_of_fmap. cbn in Hp. apply list_elem_of_In, filter_In in Hp as [A B].
    split; [|cbn; by apply negb_true_iff, Z.eqb_neq in B]. apply list_elem_of_fmap. exists p. split; [done|]. by apply list_elem_of_In. }
  assert (H1 : linv d1).
  { split; try done; [intros l Hl HP; by apply (lconf_events d); auto| |].
    - intros j p Xp Hj. apply I5; [done|]. by apply G1.
    - revert I7. unfold grabs, d1; cbn. rewrite !map_map. clear. induction (pointers d) as [|p l IH]; [done|]. cbn.
      intros [A B]%NoDup_cons. destruct (negb _); [|auto]. cbn. apply NoDup_cons. split; [|auto]. intros Hi. apply A.
      apply list_elem_of_fmap in Hi as (y & E & Hy). cbn in E. apply list_elem_of_fmap. exists y. split; [done|].
      apply list_elem_of_In. apply list_elem_of_In in Hy. by apply filter_In in Hy as [Hy _]. }
  change (lpopups d1) with (lpopups d).
  set (ids := map lp_id _).
  assert (Hids : forall p, p ∈ ids -> forall lp, lp ∈ lpopups d -> lp_id lp = p -> lp_seat lp = Some i).
  { intros p (lp & -> & Hlp)%list_elem_of_fmap lp' A B. apply list_elem_of_In, filter_In in Hlp as [C D].
    apply bool_decide_eq_true in D. rewrite <- D. f_equal. apply (nodup_map_inj lp_id (lpopups d)); [apply I4|done| |done].
    by apply list_elem_of_In. }
  assert (K : linv d1 /\ (forall x, x ∈ grabs d1 -> fst x ≠ i)
    /\ forall p, p ∈ ids -> forall lp, lp ∈ lpopups d1 -> lp_id lp = p -> lp_seat lp = Some i \/ lp_seat lp = None).
  { split_and!; [done|intros x Hx; by apply G1|]. intros p Hp lp A B. left. by apply (Hids p). }
  clearbody d1 ids. clear -K. revert d1 K. induction ids as [|p ids IH]; intros d1 (H & G & S); cbn; [done|].
  apply IH. split_and!; [|exact G|].
  - apply linv_upd_lpopup; [done| |done]. intros j lp _ Hj Hin Hid _ Hs. exfalso.
    destruct (S p) with (lp := lp) as [E|E]; [apply list_elem_of_here|done|done| |congruence].
    apply (G _ Hj). cbn. congruence.
  - intros q Hq lp (lp' & Hin & ->)%upd_lpopup_in Hid. destruct (lp_id lp' =? p) eqn:E; [by right|].
    apply (S q); [by apply list_elem_of_further|done|done].
Qed.

Lemma linv_init_pointer i d : linv d -> linv (init_pointer_device i d).
Proof.
  intros H. unfold init_pointer_device. destruct (pointer_of i d) eqn:E; [done|].
  destruct H as [I1 I2 I6 I3 I4 I5 I7]. split; try done.
  - intros l Hl HP. apply (lconf_events d); auto.
  - intros j p Xp [Hj|Hj]%elem_of_cons; [done|]. by apply I5.
  - unfold grabs in *; cbn. apply NoDup_cons. split; [|done]. intros (x & Ex & Hx)%list_elem_of_fmap.
    apply list_elem_of_fmap in Hx as (p & -> & Hp). cbn in Ex. apply list_elem_of_In in Hp.
    pose proof (List.find_none _ _ E p Hp) as N. cbn in N. zbool. congruence.
Qed.

(** ** Runs *)

Inductive layer_request :=
| SetSize (w h : Z) | SetAnchor (a : Z) | SetExclusiveZone (z : Z)
| SetMargin (top right bottom left : Z) | SetKeyboardInteractivity (k : Z)
| SetExclusiveEdge (e : Z) | AckConfigure (serial : Z).

Definition request (r : Z) (d : desk) (q : layer_request) : desk :=
  match q with
  | SetSize w h => qdwin_layer_surface_set_size r w h d
  | SetAnchor a => qdwin_layer_surface_set_anchor r a d
  | SetExclusiveZone z => qdwin_layer_surface_set_exclusive_zone r z d
  | SetMargin t ri b l => qdwin_layer_surface_set_margin r t ri b l d
  | SetKeyboardInteractivity k => qdwin_layer_surface_set_keyboard_interactivity r k d
  | SetExclusiveEdge e => qdwin_layer_surface_set_exclusive_edge r e d
  | AckConfigure s => qdwin_layer_surface_ack_configure r s d
  end.

(** The steps.  Object ids of new layer surfaces are unused, enum arguments are
    unsigned.  [World] is anything else that happens: the rest of the plugin,
    surfaces, xdg_popups and the view list change at will. *)
Inductive layer_op :=
| Input (i : Z) (e : pointer_input)
| Request (r : Z) (q : layer_request)
| SetLayer (r : Z) (layer : N)
| Commit (s : Z) | SurfaceDestroyed (s : Z) | ResourceDestroyed (r : Z)
| GetLayerSurface (alloc : bool) (client mgr id s : Z) (out : option Z) (layer : N)
| GetPopup (alloc : bool) (client r x : Z)
| GrabPopup (x i serial : Z)
| PopupRoleDestroyed (p : Z)
| CancelGrab (i : Z)               (* [notify_keyboard_focus_out] *)
| PointerReleased (i : Z) | SeatReleased (i : Z) | PointerInit (i : Z)
| World (q : qdwin) (ws : gmap Z wsurface) (vs : gmap Z Z) (vl : list Z) (xs : gmap Z xdg_popup).

Definition layer_step (d : desk) (o : layer_op) : desk :=
  match o with
  | Input i e => notify_pointer i e d
  | Request r q => request r d q
  | SetLayer r layer => qdwin_layer_surface_set_layer r (Z.of_N layer) d
  | Commit s => layer_surface_commit s d
  | SurfaceDestroyed s => layer_surface_destroyed s d
  | ResourceDestroyed r => qdwin_layer_surface_resource_destroy r d
  | GetLayerSurface alloc client mgr id s out layer =>
      if bool_decide (id ∈ map l_res (lsurfs d)) then d
      else qdwin_layer_shell_get_layer_surface alloc client mgr id s out (Z.of_N layer) d
  | GetPopup alloc client r x => qdwin_layer_surface_get_popup alloc client r x d
  | GrabPopup x i serial => snd (qdwin_layer_popup_layer_grab_handler x i serial d)
  | PopupRoleDestroyed p => qdwin_layer_popup_on_popup_resource_destroyed p d
  | CancelGrab i => weston_pointer_cancel_grab i d
  | PointerReleased i => release_pointer_device i d
  | SeatReleased i => release_seat i d
  | PointerInit i => init_pointer_device i d
  | World q ws vs vl xs =>
      d <| base := q |> <| wsurfaces := ws |> <| view_surface := vs |> <| view_list := vl |>
        <| xdg_popups := xs |>
  end.
Definition layer_run (ops : list layer_op) (d : desk) : desk := foldl layer_step d ops.

(** The layer popups whose grab libweston cancels in a step, and in a run. *)
Definition cancels (d : desk) (o : layer_op) : list Z :=
  match o with
  | CancelGrab i | PointerReleased i => match pgrab_of i d with ptr_layer_popup p => [p] | _ => [] end
  | _ => []
  end.
Fixpoint cancelled (ops : list layer_op) (d : desk) : list Z :=
  match ops with [] => [] | o :: ops => cancels d o ++ cancelled ops (layer_step d o) end.

Lemma linv_request r q d : linv d -> linv (request r d q).
Proof.
  intros H. destruct q; cbn; try (by apply linv_set_pending); try (by apply linv_keep);
    (apply linv_with_lsurf; [|done]); (destruct (_ : bool) eqn:E || destruct (_ && _) eqn:E);
    try (by apply linv_set_pending); (eapply linv_frame; [by apply lf_demit|done]).
Qed.

Lemma linv_step o d : (forall p, p ∈ cancels d o -> X p) -> linv d -> linv (layer_step d o).
Proof.
  intros HX H. assert (Hc : forall i, cancels d o = cancels d (CancelGrab i) -> forall p, pgrab_of i d = ptr_layer_popup p -> X p).
  { intros i E p Ep. apply HX. rewrite E. cbn. rewrite Ep. by left. }
  destruct o; cbn [layer_step].
  - by apply linv_input.
  - by apply linv_request.
  - apply linv_set_layer; [lia|done].
  - unfold layer_surface_commit. apply linv_foldl; [intros; by apply linv_popup_commit|].
    apply linv_foldl; [intros; by apply linv_commit|done].
  - unfold layer_surface_destroyed.
    match goal with |- linv (@upd_field _ _ wsurfaces _ _ ?x) => eapply (linv_frame x); [done|] end.
    apply linv_foldl; [intros; by apply linv_popup_gone|].
    apply linv_foldl; [intros; by apply linv_surface_destroyed|done].
  - by apply linv_resource_destroy.
  - case_bool_decide; [done|]. apply linv_get_layer_surface; [done|lia|done].
  - by apply linv_get_popup.
  - by apply linv_grab_handler.
  - by apply linv_popup_role_gone.
  - apply linv_cancel; [by apply Hc|done].
  - apply linv_cancel; [|eapply linv_frame; [apply layer_frame|done]]. intros p. rewrite pgrab_set_focus. by apply Hc.
  - by apply linv_seat_release.
  - by apply linv_init_pointer.
  - eapply linv_frame; [|exact H]. done.
Qed.

(** A desk on which the layer shell has not been used. *)
Definition unused (d : desk) : Prop :=
  lsurfs d = [] /\ lpopups d = [] /\ NoDup (map ptr_seat (pointers d))
  /\ forall p, p ∈ pointers d -> ptr_grab p = ptr_default.

Lemma linv_run d ops : unused d -> (forall p, p ∈ cancelled ops d -> X p) -> linv (layer_run ops d).
Proof.
  intros (U1 & U2 & U3 & U4). assert (H : linv d).
  { split; rewrite ?U1, ?U2; try by intros ? ?%elem_of_nil.
    - constructor.
    - split; [constructor|by intros ? ?%elem_of_nil].
    - intros i x _ (p & [= -> Hp] & Hin)%list_elem_of_fmap. rewrite (U4 p Hin) in Hp. done.
    - unfold grabs. rewrite map_map. exact U3. }
  clear U1 U2 U3 U4. revert d H. induction ops as [|o ops IH]; intros d H HX; [done|]. cbn in *.
  apply IH; [apply linv_step; [|done]|]; intros p Hp; apply HX, elem_of_app; auto.
Qed.
End Cancelled.

(** C23.  Whatever layer-shell requests, commits, popups, grabs, cancelled grabs,
    pointer input, and pointers and seats that come and go arrive, in whatever
    order and amid whatever else the compositor does: a mapped layer surface has
    a view on a live surface on one of the four layers, and its box has the size
    of the last configure event it was sent, whose serial it remembers; every
    popup has a live parent; and every pointer grab that belongs to a layer popup
    belongs to one that is still there, which knows that it holds that pointer,
    unless libweston cancelled that popup's grab in the course of the run. *)
Theorem layer_shell_invariant (d : desk) (ops : list layer_op) :
  unused d ->
  let d' := layer_run ops d in
  (forall l, l ∈ lsurfs d' -> l_mapped l = true ->
     (exists v s, l_v l = Some v /\ l_surf l = Some s) /\ 0 <= l_layer l <= LAYER_OVERLAY
     /\ (sane d' -> head (configures (l_res l) d')
           = Some (last_configure_serial l, box_w (l_box l), box_h (l_box l))))
  /\ (forall lp, lp ∈ lpopups d' ->
        exists l, l ∈ lsurfs d' /\ l_res l = lp_parent lp /\ l_surf l ≠ None)
  /\ (forall p, p ∈ pointers d' -> forall x, ptr_grab p = ptr_layer_popup x ->
        x ∈ cancelled ops d
        \/ exists lp, lp ∈ lpopups d' /\ lp_id lp = x /\ lp_grab lp = true /\ lp_seat lp = Some (ptr_seat p)).
Proof.
  intros U d'. assert (H : linv (fun p => p ∈ cancelled ops d) d') by by apply linv_run.
  destruct H as [I1 I2 I6 I3 I4 I5 I7]. split_and!; [|done|].
  - intros l Hl Hm. destruct (I2 l Hl) as [G1 G2]. destruct (I6 l Hl I) as [C1 C2].
    destruct (l_v l) as [v|] eqn:Ev; [|by destruct (C1 Hm)].
    destruct G1 as [G1 G1']; [done|]. destruct (l_surf l) as [s|] eqn:Es; [|done].
    split_and!; try apply G2; [by exists v, s|auto].
  - intros p Hp x Hx. destruct (decide (x ∈ cancelled ops d)) as [|N]; [by left|right]. apply I5; [done|].
    apply list_elem_of_fmap. exists p. by rewrite Hx.
Qed.

(** A desk with a panel's surface and a popup's. *)
Definition ls_desk : desk :=
  pt_desk <| lsurfs := [] |> <| lpopups := [] |> <| next_lp := 1 |>
    <| pointers := [mk_pointer 1 ptr_default None (0, 0) true] |>
    <| wsurfaces ::= <[80 := mk_wsurface 1920 40 false None (Some 9) 80 everywhere]> |>.
Definition ls_ops : list layer_op :=
  [ GetLayerSurface true 9 3 70 80 (Some 1) 2;
    Request 70 (SetSize 0 40); Request 70 (SetAnchor 13); Request 70 (SetExclusiveZone 40); Commit 80;
    Request 70 (AckConfigure 2); Commit 80; GetPopup true 9 70 60; GrabPopup 60 1 5;
    Input 1 (in_motion (motion_abs 20 50)) ].

Lemma ls_unused : unused ls_desk.
Proof.
  split_and!; [reflexivity|reflexivity|by apply NoDup_singleton|].
  intros p ->%list_elem_of_singleton. reflexivity.
Qed.

Lemma layer_shell_invariant_witness :
  let d := layer_run ls_ops ls_desk in
  ptr_grab <$> pointers d = [ptr_layer_popup 1] /\ cancelled ls_ops ls_desk = []
  /\ forall p, p ∈ pointers d -> forall x, ptr_grab p = ptr_layer_popup x ->
       x ∈ cancelled ls_ops ls_desk
       \/ exists lp, lp ∈ lpopups d /\ lp_id lp = x /\ lp_grab lp = true /\ lp_seat lp = Some (ptr_seat p).
Proof.
  split_and!; [reflexivity|reflexivity|]. exact (proj2 (proj2 (layer_shell_invariant ls_desk ls_ops ls_unused))).
Defined.

(** [notify_keyboard_focus_out] and the release of the pointer only cancel the
    grab: the popup forgets that it holds the pointer, which still points into
    it when it is freed, and the next event reads freed memory. *)
Example cancelled_grab_dangles :
  let ops := ls_ops ++ [CancelGrab 1; SurfaceDestroyed 81] in
  let d := layer_run ops ls_desk in
  cancelled ops ls_desk = [1] /\ lpopups d = [] /\ pgrab_of 1 d = ptr_layer_popup 1
  /\ head (devents (notify_pointer 1 in_axis d)) = Some (grab_use_after_free (ptr_layer_popup 1)).
Proof. vm_compute. by split_and!. Qed.

(** A seat that is released takes its pointer along, and the popup lets go. *)
Example released_seat_ungrabs :
  let d := layer_run (ls_ops ++ [SeatReleased 1; PointerInit 1; SurfaceDestroyed 81]) ls_desk in
  pointers d = [mk_pointer 1 ptr_default None (0, 0) false] /\ lpopups d = []
  /\ map lp_seat (lpopups (layer_run (ls_ops ++ [SeatReleased 1]) ls_desk)) = [None].
Proof. vm_compute. by split_and!. Qed.

(** ** The gate *)

(** The layer shell is given to a client only if it was not announced by a
    security context, passes whatever allowlist the administrator set, with one
    and the same process behind its pid before and after its executable and
    label were read, and is the bound shell or of its process; while no shell is
    bound only the user the compositor serves gets it.  Anyone else gets an
    implementation error and nothing changes. *)
Theorem layer_shell_gate (a : layershell_allow) (before during after : procfs)
    (client pid uid version id : Z) (q : qdwin) :
  match bind_qdwin_layer_shell a before during after client pid uid version id q with
  | (Some r, q') =>
      q' = q /\ r = mk_resource id version client
      /\ ~ (client ∈ secctx_clients q)
      /\ (forall u, allow_uid a = Some u -> uid = u)
      /\ (forall e, allow_exe a = Some e -> qdwin_proc_exe pid during = e)
      /\ (forall l, allow_label a = Some l -> qdwin_proc_selinux_label pid during = l)
      /\ ((allow_uid a, allow_exe a, allow_label a) ≠ (None, None, None) ->
            qdwin_proc_starttime pid before ≠ 0
            /\ qdwin_proc_starttime pid before = qdwin_proc_starttime pid after)
      /\ (if shell_bound q && bool_decide (shell_resource q ≠ None)
          then (res_client <$> shell_resource q) = Some client
               \/ (0 < pid /\ pid = shell_pid q /\ uid = shell_uid q)
          else uid = allowed_uid q)
  | (None, q') => q' = emit (implementation_error client) q
  end.
Proof.
  unfold bind_qdwin_layer_shell, qdwin_layershell_pre_shell_uid_allowed. cbv zeta.
  case_bool_decide as Hs; [done|].
  destruct (layershell_allowlist_ok a before during after pid uid) eqn:Ha; cbn [negb]; [|done].
  unfold layershell_allowlist_ok in Ha. cbv zeta in Ha.
  destruct (match shell_resource q with Some _ => _ | None => _ end) eqn:Hb; [|done].
  assert (Hallow : forall u e l, allow_uid a = u -> allow_exe a = e -> allow_label a = l ->
    (forall x, u = Some x -> uid = x)
    /\ (forall x, e = Some x -> qdwin_proc_exe pid during = x)
    /\ (forall x, l = Some x -> qdwin_proc_selinux_label pid during = x)
    /\ ((u, e, l) ≠ (None, None, None) -> qdwin_proc_starttime pid before ≠ 0
         /\ qdwin_proc_starttime pid before = qdwin_proc_starttime pid after)).
  { intros u e l Eu Ee El. rewrite Eu, Ee, El in Ha.
    destruct u, e, l; try (split_and!; intros; naive_solver); clear -Ha;
      repeat rewrite andb_true_iff in Ha; rewrite ?negb_true_iff in Ha;
      destruct_and!; repeat match goal with
        | H : (_ =? _) = true |- _ => apply Z.eqb_eq in H
        | H : (_ =? _) = false |- _ => apply Z.eqb_neq in H
        | H : String.eqb _ _ = true |- _ => apply String.eqb_eq in H
        end; split_and!; intros; simplify_eq; try done. }
  destruct (Hallow _ _ _ eq_refl eq_refl eq_refl) as (H1 & H2 & H3 & H4). split_and!; try done.
  destruct (shell_resource q) as [r|] eqn:Er; destruct (shell_bound q); cbn in *; try lia.
  rewrite orb_true_iff, !andb_true_iff in Hb. destruct Hb as [Hb|Hb]; [left; f_equal; lia|right; lia].
Qed.

(** ** The commit cycle *)

(** What a request asks for; an invalid one is answered by an error alone. *)
Definition edges (x : Z) : bool := (0 <=? x) && (x <? 16).
Definition requested (c : ls_params) (q : layer_request) : ls_params :=
  match q with
  | SetSize w h => c <| desired_w := w |> <| desired_h := h |>
  | SetAnchor a => if edges a then c <| anchor := a |> else c
  | SetExclusiveZone z => c <| exclusive_zone := z |>
  | SetMargin t ri b l => c <| margin_top := t |> <| margin_right := ri |>
                            <| margin_bottom := b |> <| margin_left := l |>
  | SetKeyboardInteractivity k => if k <=? 2 then c <| kbd_interactivity := k |> else c
  | SetExclusiveEdge e => if edges e then c <| exclusive_edge := e |> else c
  | AckConfigure _ => c
  end.

Lemma invalid_anchor_edges a : invalid_anchor a = negb (edges a).
Proof.
  unfold invalid_anchor, edges, ANCHOR_ALL. change 15 with (Z.ones 4).
  rewrite Z.ldiff_ones_r, Z.shiftl_mul_pow2, Z.shiftr_div_pow2 by lia. change (2 ^ 4) with 16.
  pose proof (Z.div_mod a 16 ltac:(lia)). pose proof (Z.mod_pos_bound a 16 ltac:(lia)).
  f_equal. destruct (0 <=? a) eqn:E1, (a <? 16) eqn:E2; cbn; zbool; lia.
Qed.

Lemma lsurf_of_upd r f d :
  (forall l, l_res (f l) = l_res l) -> lsurf_of r (upd_lsurf r f d) = f <$> lsurf_of r d.
Proof.
  intros H. unfold lsurf_of, upd_lsurf; cbn. induction (lsurfs d) as [|l ls IH]; [done|]. cbn.
  destruct (l_res l =? r) eqn:E; [by rewrite H, E|by rewrite E].
Qed.

(** What requests leave of the surface alone. *)
Definition shown (l : lsurface) :=
  (current l, l_box l, l_v l, l_mapped l, l_surf l, l_out l, l_layer l, initial_configure_sent l,
   l_res l, last_configure_serial l).

Lemma request_spec r q d l :
  lsurf_of r d = Some l ->
  base (request r d q) = base d /\ configures r (request r d q) = configures r d
  /\ exists l', lsurf_of r (request r d q) = Some l' /\ shown l' = shown l
       /\ pending l' = requested (pending l) q.
Proof.
  intros E. assert (Hp : forall f, base (set_pending r f d) = base d
    /\ configures r (set_pending r f d) = configures r d
    /\ exists l', lsurf_of r (set_pending r f d) = Some l' /\ shown l' = shown l
         /\ pending l' = f (pending l)).
  { intros f. split_and!; [done..|]. unfold set_pending. rewrite lsurf_of_upd by done. rewrite E.
    by eexists. }
  destruct q; try exact (Hp _); cbn [request].
  - unfold qdwin_layer_surface_set_anchor, with_lsurf, requested. rewrite E, invalid_anchor_edges.
    destruct (edges a); cbn [negb]; [exact (Hp _)|]. split_and!; [done..|by exists l].
  - unfold qdwin_layer_surface_set_keyboard_interactivity, with_lsurf, requested. rewrite E.
    rewrite Z.leb_antisym. unfold KEYBOARD_INTERACTIVITY_ON_DEMAND.
    destruct (2 <? k); cbn [negb]; [|exact (Hp _)]. split_and!; [done..|by exists l].
  - unfold qdwin_layer_surface_set_exclusive_edge, with_lsurf, requested. rewrite E, invalid_anchor_edges.
    destruct (e =? 0) eqn:E0; cbn [negb andb].
    + zbool. subst. exact (Hp _).
    + destruct (edges e); cbn [negb]; [exact (Hp _)|]. split_and!; [done..|by exists l].
  - unfold qdwin_layer_surface_ack_configure. split_and!; [done..|]. rewrite lsurf_of_upd by done.
    rewrite E. by eexists.
Qed.

Lemma requests_spec r qs d l :
  lsurf_of r d = Some l ->
  let d' := foldl (request r) d qs in
  base d' = base d /\ configures r d' = configures r d
  /\ exists l', lsurf_of r d' = Some l' /\ shown l' = shown l
       /\ pending l' = foldl requested (pending l) qs.
Proof.
  revert d l. induction qs as [|q qs IH]; intros d l E; [split_and!; [done..|by exists l]|].
  destruct (request_spec r q d l E) as (B & C & l' & E' & S & P). cbn.
  destruct (IH _ _ E') as (B2 & C2 & l2 & E2 & S2 & P2). split_and!; [congruence..|].
  exists l2. split_and!; congruence.
Qed.

Lemma lsurf_of_frame r d d' : lframe d d' -> lsurf_of r d' = lsurf_of r d.
Proof. intros F. unfold lsurf_of. by rewrite (lf_surfs _ _ F). Qed.

Lemma send_configure_spec r b d l :
  lsurf_of r d = Some l -> l_res l = r ->
  let d' := send_layer_configure r b d in
  exists n, lsurf_of r d' = Some (l <| last_configure_serial := n |>)
    /\ configures r d' = (n, box_w b, box_h b) :: configures r d.
Proof.
  intros E Er d'. eexists. split.
  - refine (eq_trans (lsurf_of_upd r _ _ _) _); [done|]. exact (f_equal (fmap _) E).
  - unfold d', send_layer_configure, configures. cbn. by rewrite Z.eqb_refl.
Qed.

(** Applying a surface that can have a view maps it and changes nothing else of
    it. *)
Lemma apply_spec r d l :
  lsurf_of r d = Some l -> l_res l = r ->
  let d' := qdwin_layer_surface_apply r d in
  configures r d' = configures r d
  /\ exists l', lsurf_of r d' = Some l' /\ current l' = current l /\ l_box l' = l_box l
       /\ (oom (base d) = false -> l_surf l ≠ None -> l_layer l <= LAYER_OVERLAY ->
             l_mapped l' = true /\ l_v l' ≠ None).
Proof.
  intros E Er d'. unfold d', qdwin_layer_surface_apply. rewrite E.
  assert (Hplace : forall s v d0 l0, lsurf_of r d0 = Some l0 -> l_v l0 ≠ None -> l_mapped l0 = l_mapped l ->
    configures r (place_and_map l s v d0) = configures r d0
    /\ exists l', lsurf_of r (place_and_map l s v d0) = Some l' /\ current l' = current l0
         /\ l_box l' = l_box l0 /\ l_mapped l' = true /\ l_v l' ≠ None).
  { intros s v d0 l0 E0 Hv Hm. unfold place_and_map.
    rewrite (lf_configures _ _ (lframe_grant _ _)), (lsurf_of_frame _ _ _ (lframe_grant _ _)).
    destruct (l_mapped l) eqn:Em; [split; [done|]; by exists l0|].
    rewrite (lf_configures _ _ (lframe_reflow _)), (lsurf_of_frame _ _ _ (lframe_reflow _)). split; [done|].
    exists (l0 <| l_mapped := true |>). split; [|done]. rewrite Er.
    refine (eq_trans (lsurf_of_upd r _ _ _) _); [done|]. exact (f_equal (fmap _) E0). }
  destruct (LAYER_OVERLAY <? l_layer l) eqn:El; zbool.
  { split; [done|]. exists l. split_and!; [done..|lia]. }
  destruct (l_v l) as [v|] eqn:Ev, (l_surf l) as [s|] eqn:Es; try (split; [done|]; by exists l).
  - destruct (Hplace s v d l E) as (C & l' & ? & ? & ? & ? & ?); [congruence|done|].
    split; [done|]. by exists l'.
  - unfold create_view, weston_view_create. destruct (oom (base d)); [split; [done|]; by exists l|].
    match goal with |- configures r (place_and_map l s ?v ?d0) = _ /\ _ =>
      destruct (Hplace s v d0 (l <| l_v := Some v |>)) as (C & l' & ? & ? & ? & ? & ?) end; [|done|done|].
    + refine (eq_trans (lsurf_of_upd r _ _ _) _); [done|]. exact (f_equal (fmap _) E).
    + split; [exact C|]. by exists l'.
Qed.

(** The state of a layer surface is double-buffered.  Requests, in any
    number and order, change neither what is shown nor what was configured; the
    next commit takes over exactly the valid ones among them and lays the
    surface out anew.  The first commit and every one that changes the size are
    answered with a configure event of the new size, mapping nothing; any other
    commit maps the surface, given memory for a view. *)
Theorem layer_commit_cycle (r : Z) (reqs : list layer_request) (d : desk) (l : lsurface) (area : rect)
    (b : box) :
  lsurf_of r d = Some l ->
  let c := foldl requested (pending l) reqs in
  layout_area l d = inl area -> qdwin_layer_surface_compute_box c area = Some b ->
  let d1 := foldl (request r) d reqs in
  let d2 := qdwin_layer_surface_on_commit r d1 in
  base d1 = base d /\ configures r d1 = configures r d
  /\ (shown <$> lsurf_of r d1) = Some (shown l)
  /\ exists l2, lsurf_of r d2 = Some l2 /\ current l2 = c /\ l_box l2 = b
  /\ if initial_configure_sent l && (box_w b =? box_w (l_box l)) && (box_h b =? box_h (l_box l))
     then configures r d2 = configures r d
          /\ (oom (base d) = false -> l_surf l ≠ None -> l_layer l <= LAYER_OVERLAY ->
                l_mapped l2 = true /\ l_v l2 ≠ None)
     else configures r d2 = (last_configure_serial l2, box_w b, box_h b) :: configures r d
          /\ l_mapped l2 = l_mapped l /\ l_v l2 = l_v l.
Proof.
  intros E c Ha Hb d1 d2. destruct (requests_spec r reqs d l E) as (B & C & l1 & E1 & S & P).
  fold d1 in B, C, E1. fold c in P.
  split_and!; [done|done|rewrite E1; cbn; by f_equal|]. unfold shown in S. injection S as S1 S2 S3 S4 S5 S6 S7 S8 S9 S10.
  assert (Er : l_res l1 = r) by apply (lsurf_of_in _ _ _ E1).
  unfold d2, qdwin_layer_surface_on_commit. rewrite E1. cbv zeta.
  set (l1' := l1 <| current := pending l1 |>).
  set (d1' := publish (upd_lsurf r (fun l => l <| current := pending l |>) d1)).
  assert (E1' : lsurf_of r d1' = Some l1').
  { refine (eq_trans (lsurf_of_upd r _ _ _) _); [done|]. exact (f_equal (fmap _) E1). }
  assert (Hbox : forall d0 k, base d0 = base d1' -> with_box l1' k d0
    = k b (upd_lsurf r (fun l => l <| l_box := b |>) d0)).
  { intros d0 k B0. unfold with_box.
    replace (layout_area l1' d0) with (layout_area l d); [|].
    - rewrite Ha. change (current l1') with (pending l1). rewrite P, Hb. by change (l_res l1') with (l_res l1); rewrite Er.
    - unfold layout_area, qdwin_layer_surface_resolve_output. rewrite B0. cbn.
      unfold out_by_id. cbn. rewrite B. by replace (l_out l1) with (l_out l) by congruence. }
  assert (Hsend : forall d3 l3, configures r d3 = configures r d1 -> lsurf_of r d3 = Some l3 ->
    l_res l3 = r -> (current l3, l_box l3, l_mapped l3, l_v l3) = (c, b, l_mapped l, l_v l) ->
    exists l2, lsurf_of r (send_layer_configure r b d3) = Some l2 /\ current l2 = c /\ l_box l2 = b
    /\ configures r (send_layer_configure r b d3)
       = (last_configure_serial l2, box_w b, box_h b) :: configures r d
    /\ l_mapped l2 = l_mapped l /\ l_v l2 = l_v l).
  { intros d3 l3 C3 E3 R3 [= X1 X2 X3 X4]. destruct (send_configure_spec r b d3 l3 E3 R3) as (n & E2 & C2).
    eexists. split_and!; [exact E2|try done..]. by rewrite C2, C3, C. }
  rewrite <- S8. destruct (initial_configure_sent l1) eqn:Ei; cbn [negb andb].
  - change (initial_configure_sent l1') with (initial_configure_sent l1). rewrite Ei. cbn [negb].
    rewrite Hbox by done. change (l_box l1') with (l_box l1). rewrite S2.
    set (d3 := upd_lsurf r (fun l => l <| l_box := b |>) d1').
    assert (E3 : lsurf_of r d3 = Some (l1' <| l_box := b |>)).
    { refine (eq_trans (lsurf_of_upd r _ _ _) _); [done|]. exact (f_equal (fmap _) E1'). }
    destruct (box_w b =? box_w (l_box l)), (box_h b =? box_h (l_box l)); cbn [negb andb orb].
    + destruct (apply_spec r d3 _ E3 Er) as (C' & l2 & E2 & X1 & X2 & X3). exists l2.
      split_and!; [done|by rewrite X1|done|by rewrite C', <- C|]. cbn in X3. rewrite B, S5, S7 in X3. done.
    + exact (Hsend d3 (l1' <| l_box := b |>) eq_refl E3 Er ltac:(by cbn; rewrite P, S3, S4)).
    + exact (Hsend d3 (l1' <| l_box := b |>) eq_refl E3 Er ltac:(by cbn; rewrite P, S3, S4)).
    + exact (Hsend d3 (l1' <| l_box := b |>) eq_refl E3 Er ltac:(by cbn; rewrite P, S3, S4)).
  - change (initial_configure_sent l1') with (initial_configure_sent l1). rewrite Ei. cbn [negb].
    unfold qdwin_layer_surface_send_configure. rewrite Hbox by done.
    change (l_res l1') with (l_res l1). rewrite Er.
    apply (Hsend _ (l1' <| initial_configure_sent := true |> <| l_box := b |>)); [done| |done|by cbn; rewrite P, S3, S4].
    rewrite !lsurf_of_upd by done. by rewrite E1'.
Qed.

Lemma layer_commit_cycle_witness :
  let d := layer_run (take 1 ls_ops) ls_desk in
  let d2 := qdwin_layer_surface_on_commit 70
              (foldl (request 70) d [SetSize 0 40; SetAnchor 99; SetAnchor 13; SetExclusiveZone 40]) in
  exists l2, lsurf_of 70 d2 = Some l2 /\ current l2 = mk_ls_params 0 40 13 40 0 0 0 0 0 0
    /\ l_box l2 = mk_box 0 0 1920 40 /\ configures 70 d2 = [(last_configure_serial l2, 1920, 40)].
Proof.
  destruct (layer_commit_cycle 70 [SetSize 0 40; SetAnchor 99; SetAnchor 13; SetExclusiveZone 40]
    (layer_run (take 1 ls_ops) ls_desk) (new_lsurface 70 80 (Some 1) 2) (mk_rect 0 0 1920 1080)
    (mk_box 0 0 1920 40)) as (_ & _ & _ & l2 & A & B & C & D); [reflexivity..|].
  exists l2. split_and!; [exact A|exact B|exact C|exact (proj1 D)].
Defined.
