(* ===== verification/OutputBoundaryFacts.v ===== *)
(** * OutputBoundaryFacts: what survives the loss of an output

    After an output is gone nothing refers to it, no grab that started on it is
    left, and the windows that were on it are inside the surviving output's work
    area. *)

From stdpp Require Import base list gmap strings option.
From S2P Require Import Prelude Logic LogicFacts Scene Procfs State Toplevel ToplevelFacts Dependents Focus Config Lock LockFacts LockTheorems Desk Pointer LayerShell OutputBoundary PointerFacts LayerShellFacts.
From stdpp Require Import list.
Import LayerBox Policy Geometry.
#[local] Open Scope Z_scope.

(** ** What the placement of windows and panels leaves alone *)

Definition kbd_state (s : seat) : Z * bool * keyboard_grab := (seat_id s, has_keyboard s, kbd_grab s).

Definition panel_ref (p : panel) : Z * option Z := (p_id p, p_output p).

Record oframe (q q' : qdwin) : Prop := mk_oframe {
  of_outputs : outputs q' = outputs q;
  of_panels : map panel_ref (panels q') = map panel_ref (panels q);
  of_launchers : launchers q' = launchers q;
  of_seats : map kbd_state (seats q') = map kbd_state (seats q);
  of_locked : locked q' = locked q
}.
#[global] Instance oframe_preorder : PreOrder oframe.
Proof. split; [by intros q|]. intros q1 q2 q3 [] []. split; congruence. Qed.

Class OutputFrame (f : qdwin -> qdwin) : Prop := output_frame q : oframe q (f q).

#[global] Instance of_scene f : OutputFrame (on_scene f).
Proof. done. Qed.
#[global] Instance of_emit e : OutputFrame (emit e).
Proof. done. Qed.
#[global] Instance of_position v x y : OutputFrame (weston_view_set_position v x y).
Proof. done. Qed.
#[global] Instance of_upd_tl h f : OutputFrame (upd_tl h f).
Proof. done. Qed.
#[global] Instance of_send n e : OutputFrame (shell_send n e).
Proof. intros q. unfold shell_send. by destruct (shell_version_ge n q). Qed.
#[global] Instance of_upd_seat i f :
  (forall s, kbd_state (f s) = kbd_state s) -> OutputFrame (upd_seat i f).
Proof.
  intros H q. split; try done. unfold upd_seat; cbn. rewrite map_map. apply map_ext. intros s.
  by destruct (_ =? _).
Qed.
Lemma of_upd_panel i f : (forall p, panel_ref (f p) = panel_ref p) -> OutputFrame (upd_panel i f).
Proof.
  intros H q. split; try done. unfold upd_panel; cbn. rewrite map_map. apply map_ext. intros p.
  by destruct (_ =? _).
Qed.
Lemma of_with_tl h k : (forall tl, OutputFrame (k tl)) -> OutputFrame (with_tl h k).
Proof. intros H q. unfold with_tl. destruct (qdwin_toplevel_from_handle h q); [apply H|done]. Qed.
Lemma of_foldl {A} (f : qdwin -> A -> qdwin) l q : (forall x q, oframe q (f q x)) -> oframe q (foldl f q l).
Proof. intros H. revert q. induction l as [|x l IH]; intros q; [done|]. cbn. etransitivity; [apply H|apply IH]. Qed.

Ltac oframe_step :=
  match goal with
  | |- oframe ?q ?q => reflexivity
  | |- oframe _ (with_tl _ _ _) => etransitivity; [|apply of_with_tl; intros ? ?]
  | |- oframe _ (upd_panel _ _ _) => etransitivity; [|apply of_upd_panel; by intros []]
  | |- oframe _ (upd_seat _ _ _) => etransitivity; [|apply of_upd_seat; by intros []]
  | |- oframe _ (match ?x with _ => _ end) => destruct x eqn:?
  | |- oframe _ ((if ?b then _ else _) _) => destruct b
  | |- oframe _ (@upd_field _ _ _ _ _ ?q) => transitivity q; [|split; reflexivity]
  | |- oframe _ (?f ?q) => etransitivity; [|apply (output_frame q)]
  end.
Ltac oframe_tac := cbv zeta; repeat oframe_step.

#[global] Instance of_place_side tl n x y : OutputFrame (place_side tl n x y).
Proof. intros q. unfold place_side. oframe_tac. Qed.
#[global] Instance of_chrome h : OutputFrame (qdwin_toplevel_position_chrome h).
Proof. intros q. unfold qdwin_toplevel_position_chrome. oframe_tac. Qed.
#[global] Instance of_inset h : OutputFrame (qdwin_toplevel_apply_inset h).
Proof. intros q. unfold qdwin_toplevel_apply_inset, qdwin_toplevel_seed_outer_from_committed. oframe_tac. Qed.
#[global] Instance of_view_create : OutputFrame (fun q => snd (weston_view_create q)).
Proof. intros q. unfold weston_view_create. by destruct (oom q). Qed.

#[global] Instance of_proxy_geometry h w ht : OutputFrame (qdwin_nested_proxy_set_geometry h w ht).
Proof.
  intros q. unfold qdwin_nested_proxy_set_geometry, weston_view_create.
  apply of_with_tl. intros tl q'. cbv zeta. destruct (_ || _); [done|]. destruct (_ && _); [done|].
  destruct (oom _); oframe_tac.
Qed.
#[global] Instance of_resize_proxy h w ht e : OutputFrame (resize_proxy_or h w ht e).
Proof. intros q. unfold resize_proxy_or. oframe_tac. Qed.
#[global] Instance of_tl_position h x y : OutputFrame (set_tl_position h x y).
Proof. intros q. unfold set_tl_position. oframe_tac. Qed.
#[global] Instance of_fullscreen_geometry h o : OutputFrame (qdwin_toplevel_apply_fullscreen_geometry h o).
Proof. intros q. unfold qdwin_toplevel_apply_fullscreen_geometry. destruct o; oframe_tac. Qed.
#[global] Instance of_panel_geometry p r : OutputFrame (qdwin_panel_send_geometry p r).
Proof. intros q. unfold qdwin_panel_send_geometry. oframe_tac. Qed.
#[global] Instance of_panel_place p : OutputFrame (qdwin_panel_place p).
Proof. intros q. unfold qdwin_panel_place. oframe_tac. Qed.
#[global] Instance of_launcher_place ln : OutputFrame (qdwin_launcher_place ln).
Proof. intros q. unfold qdwin_launcher_place. oframe_tac. Qed.
#[global] Instance of_emit_focus i : OutputFrame (qdwin_seat_emit_focus_now i).
Proof. intros q. unfold qdwin_seat_emit_focus_now, with_seat, qdwin_emit_seat_focus_changed, schedule_recovery. oframe_tac. Qed.
#[global] Instance of_keyboard_focus i s : OutputFrame (weston_keyboard_set_focus i s).
Proof. intros q. unfold weston_keyboard_set_focus. oframe_tac. Qed.
#[global] Instance of_seat_focus i s : OutputFrame (weston_seat_set_keyboard_focus i s).
Proof. intros q. unfold weston_seat_set_keyboard_focus. oframe_tac. Qed.
#[global] Instance of_background : OutputFrame qdwin_refresh_background.
Proof.
  intros q. unfold qdwin_refresh_background, weston_view_create.
  destruct (foldl grow_extent (0, 0) (outputs q)) as [mx my]. destruct (_ || _); [done|]. cbv zeta.
  destruct (background q); destruct (oom _); oframe_tac.
Qed.
#[global] Instance of_lock_surface : OutputFrame qdwin_lock_surface_place.
Proof. intros q. unfold qdwin_lock_surface_place. oframe_tac. Qed.
#[global] Instance of_remove_curtain : OutputFrame qdwin_remove_lock_curtain.
Proof. intros q. unfold qdwin_remove_lock_curtain. oframe_tac. Qed.
#[global] Instance of_curtain_bottom : OutputFrame qdwin_lock_curtain_to_bottom.
Proof. intros q. unfold qdwin_lock_curtain_to_bottom. oframe_tac. Qed.
#[global] Instance of_curtain : OutputFrame qdwin_install_lock_curtain.
Proof.
  intros q. unfold qdwin_install_lock_curtain, weston_view_create.
  destruct (negb (locked q)); [apply output_frame|].
  destruct (outputs_bbox (outputs q)) as [[[[x0 y0] x1] y1]|]; [|done]. destruct (_ || _); [done|].
  destruct (oom _); oframe_tac.
Qed.
#[global] Instance of_place_outer h x y w ht : OutputFrame (place_outer h x y w ht).
Proof. intros q. unfold place_outer. oframe_tac. Qed.
#[global] Instance of_rehome_window h o : OutputFrame (rehome_window h o).
Proof. intros q. unfold rehome_window. oframe_tac. Qed.
Lemma of_rehome o q tl : oframe q (qdwin_output_boundary_rehome_toplevel o q tl).
Proof. unfold qdwin_output_boundary_rehome_toplevel. oframe_tac. Qed.
Lemma of_reflow_maximized q tl : oframe q (reflow_maximized q tl).
Proof. unfold reflow_maximized. oframe_tac. Qed.

(** ** Nothing refers to the output *)

Section Gone.
Context (removed : Z).

(** Of what the plugin keeps. *)
Record clean (q : qdwin) : Prop := mk_clean {
  cl_outputs : forall o, o ∈ outputs q -> out_id o ≠ removed;
  cl_panels : forall x, x ∈ map panel_ref (panels q) -> snd x ≠ Some removed;
  cl_launchers : forall ln, ln ∈ launchers q -> (out_id <$> l_output ln) ≠ Some removed;
  cl_grabs : forall x, x ∈ map kbd_state (seats q) -> snd (fst x) = true -> snd x = default_grab
}.

Lemma clean_frame q q' : oframe q q' -> clean q -> clean q'.
Proof. intros [F1 F2 F3 F4 F5] [C1 C2 C3 C4]. by split; rewrite ?F1, ?F2, ?F3, ?F4. Qed.

Lemma clean_foldl {A} (f : qdwin -> A -> qdwin) l q :
  (forall x q, clean q -> clean (f q x)) -> clean q -> clean (foldl f q l).
Proof. intros H. revert q. induction l as [|x l IH]; intros q Hq; [done|]. cbn. auto. Qed.
End Gone.

(** Each object that refers to the output is replaced by one that does not:
    [bad] and [bad'] tell whether an object and its entry do, [key] and [key']
    identify them. *)
Lemma replace_all {S A B} (items : S -> list B) (key : A -> Z) (key' : B -> Z) (bad : A -> bool)
    (bad' : B -> Prop) (f : S -> A -> S) l s :
  (forall s a, bad a = false -> f s a = s) ->
  (forall s a b, bad a = true -> b ∈ items (f s a) -> bad' b -> key' b ≠ key a /\ b ∈ items s) ->
  (forall b, b ∈ items s -> bad' b -> exists a, a ∈ l /\ key a = key' b /\ bad a = true) ->
  forall b, b ∈ items (foldl f s l) -> ~ bad' b.
Proof.
  intros Hskip Hstep. revert s. induction l as [|x l IH]; intros s Hs; cbn.
  - intros b Hb Eb. destruct (Hs b Hb Eb) as (a & Ha & _). by apply elem_of_nil in Ha.
  - destruct (bad x) eqn:Ex.
    + apply IH. intros b Hb Eb. destruct (Hstep s x b Ex Hb Eb) as [N Hb'].
      destruct (Hs b Hb' Eb) as (a & [->|Ha]%elem_of_cons & K & Ba); [congruence|]. by exists a.
    + rewrite (Hskip s x Ex). apply IH. intros b Hb Eb.
      destruct (Hs b Hb Eb) as (a & [->|Ha]%elem_of_cons & K & Ba); [congruence|]. by exists a.
Qed.

Lemma in_replaced {A B} (ref : A -> B) (c : A -> bool) (a : A) l x :
  x ∈ map ref (map (fun y => if c y then a else y) l) ->
  x = ref a \/ exists y, y ∈ l /\ x = ref y /\ c y = false.
Proof.
  intros (z & -> & (y & -> & Hy)%list_elem_of_fmap)%list_elem_of_fmap.
  destruct (c y) eqn:E; [by left|right]. by exists y.
Qed.

Section Moves.
Context (removed : Z) (survivor : option output).
Hypothesis Hsurvivor : (out_id <$> survivor) ≠ Some removed.

Lemma move_panels_clean q x :
  x ∈ map panel_ref (panels (foldl (move_panel removed survivor) q (panels q))) -> snd x ≠ Some removed.
Proof.
  apply (replace_all (fun q => map panel_ref (panels q)) p_id fst
           (fun p => bool_decide (p_output p = Some removed)) (fun x => snd x = Some removed)).
  - intros q' p Hb. unfold move_panel. by rewrite Hb.
  - intros q' p y Hb. unfold move_panel. rewrite Hb. cbv zeta. rewrite (of_panels _ _ (output_frame _)).
    intros [->|(z & Hz & -> & Hn)]%(in_replaced panel_ref (fun z => p_id z =? p_id p)
      (p <| p_output := out_id <$> survivor |>) (panels q')) Hy; [done|]. zbool. split; [done|].
    apply list_elem_of_fmap. by exists z.
  - intros y (p & -> & Hp)%list_elem_of_fmap Hy. exists p. split_and!; [done..|]. by apply bool_decide_eq_true.
Qed.

Lemma move_launchers_clean q x :
  x ∈ launchers (foldl (move_launcher removed survivor) q (launchers q)) ->
  (out_id <$> l_output x) ≠ Some removed.
Proof.
  apply (replace_all launchers l_id l_id (fun ln => bool_decide ((out_id <$> l_output ln) = Some removed))
           (fun ln => (out_id <$> l_output ln) = Some removed)).
  - intros q' p Hb. unfold move_launcher. by rewrite Hb.
  - intros q' p y Hb. unfold move_launcher. rewrite Hb. cbv zeta. rewrite (of_launchers _ _ (output_frame _)).
    intros (z & -> & Hz)%list_elem_of_fmap. cbn. destruct (l_id z =? l_id p) eqn:E; [done|]. by zbool.
  - intros y Hy. exists y. split_and!; [done..|]. by apply bool_decide_eq_true.
Qed.

(** What the moves leave alone. *)
Lemma move_panel_frame q p :
  let q' := move_panel removed survivor q p in
  outputs q' = outputs q /\ launchers q' = launchers q /\ map kbd_state (seats q') = map kbd_state (seats q).
Proof.
  unfold move_panel. case_bool_decide; [|done]. cbv zeta.
  rewrite (of_outputs _ _ (output_frame _)), (of_launchers _ _ (output_frame _)), (of_seats _ _ (output_frame _)).
  done.
Qed.
Lemma move_launcher_frame q ln :
  let q' := move_launcher removed survivor q ln in
  outputs q' = outputs q /\ panels q' = panels q /\ map kbd_state (seats q') = map kbd_state (seats q).
Proof.
  unfold move_launcher. case_bool_decide; [|done]. cbv zeta.
  unfold qdwin_launcher_place. repeat split_match; done.
Qed.
End Moves.

(** ** Keyboards *)

Lemma kbd_set_grab i g q x :
  x ∈ map kbd_state (seats (set_grab i g q)) ->
  exists y, y ∈ map kbd_state (seats q) /\ x = if fst (fst y) =? i then (fst y, g) else y.
Proof.
  intros (s & -> & (s0 & -> & Hs)%list_elem_of_fmap)%list_elem_of_fmap.
  exists (kbd_state s0). split; [apply list_elem_of_fmap; by exists s0|]. cbn. by destruct (seat_id s0 =? i).
Qed.

Definition grabbing (x : Z * bool * keyboard_grab) : Prop := snd (fst x) = true /\ snd x ≠ default_grab.

Lemma cancel_keyboards q x :
  x ∈ map kbd_state (seats (foldl cancel_keyboard q (seats q))) -> ~ grabbing x.
Proof.
  apply (replace_all (fun q => map kbd_state (seats q)) seat_id (fun y => fst (fst y)) has_keyboard grabbing).
  - intros q' s Hb. unfold cancel_keyboard. by rewrite Hb.
  - intros q' s y Hb. unfold cancel_keyboard. rewrite Hb. cbn [negb].
    rewrite (of_seats _ _ (output_frame _)). intros (z & Hz & ->)%kbd_set_grab [G1 G2].
    destruct (fst (fst z) =? seat_id s) eqn:E; [done|]. zbool. split; [done|].
    by destruct (grab_of (seat_id s) q').
  - intros y (s & -> & Hs)%list_elem_of_fmap [G1 G2]. by exists s.
Qed.

(** ** Layer surfaces *)

Definition layer_ref (l : lsurface) : Z * option Z := (l_res l, l_out l).
Definition layer_refs (d : desk) : list (Z * option Z) := map layer_ref (lsurfs d).

Lemma layer_ref_in l d : l ∈ lsurfs d -> layer_ref l ∈ layer_refs d.
Proof. intros H. apply (proj2 (list_elem_of_fmap layer_ref (lsurfs d) (layer_ref l))). by exists l. Qed.

(** What laying out layer surfaces keeps. *)
Record dframe (removed : Z) (d d' : desk) : Prop := mk_dframe {
  df_refs : layer_refs d' = layer_refs d;
  df_popups : lpopups d' = lpopups d;
  df_pointers : pointers d' = pointers d;
  df_outputs : outputs (base d') = outputs (base d);
  df_clean : clean removed (base d) -> clean removed (base d')
}.
#[global] Instance dframe_preorder removed : PreOrder (dframe removed).
Proof. split; [by intros d|]. intros d1 d2 d3 [] []. split; [congruence..|auto]. Qed.

Lemma fold_frame {A B} (g : qdwin -> B) (f : qdwin -> A -> qdwin) l q :
  (forall q x, g (f q x) = g q) -> g (foldl f q l) = g q.
Proof. intros H. revert q. induction l as [|x l IH]; intros q; [done|]. cbn. by rewrite IH. Qed.

Section LayerMoves.
Context (removed : Z).

Lemma df_upd_lsurf r f d : (forall l, layer_ref (f l) = layer_ref l) -> dframe removed d (upd_lsurf r f d).
Proof.
  intros H. split; try done. unfold layer_refs, upd_lsurf; cbn. rewrite map_map. apply map_ext. intros l.
  by destruct (_ =? _).
Qed.
Lemma df_demit e d : dframe removed d (demit e d).
Proof. done. Qed.
Lemma df_base f d :
  outputs (f (base d)) = outputs (base d) -> (clean removed (base d) -> clean removed (f (base d))) ->
  dframe removed d (on_base f d).
Proof. by split. Qed.
Lemma df_base_frame f d : OutputFrame f -> dframe removed d (on_base f d).
Proof. intros F. apply df_base; [apply F|apply clean_frame, F]. Qed.

Lemma clean_reflow q : clean removed q -> clean removed (qdwin_panels_on_output_change q).
Proof.
  intros H. unfold qdwin_panels_on_output_change.
  apply clean_foldl; [intros x q' Hq; by eapply clean_frame; [apply of_reflow_maximized|]|].
  apply clean_foldl; [|done]. intros p q' Hq. unfold assign_panel_output.
  destruct (p_output p) as [o|] eqn:Ep; [by eapply clean_frame; [apply output_frame|]|].
  destruct (qdwin_primary_output q') as [out|] eqn:Eo; [|done]. cbv zeta.
  eapply clean_frame; [apply output_frame|]. destruct Hq as [C1 C2 C3 C4]. split; try done.
  intros x [->|(z & Hz & -> & _)]%(in_replaced panel_ref (fun z => p_id z =? p_id p)
    (p <| p_output := Some (out_id out) |>) (panels q')).
  - cbn. apply List.find_some in Eo as [Eo _]. intros [= E]. apply (C1 out); [by apply list_elem_of_In|done].
  - apply C2, list_elem_of_fmap. by exists z.
Qed.

Lemma outputs_reflow q : outputs (qdwin_panels_on_output_change q) = outputs q.
Proof.
  unfold qdwin_panels_on_output_change. rewrite (of_outputs _ _ (of_foldl _ _ _ (fun tl q => of_reflow_maximized q tl))).
  apply (fold_frame outputs). intros q' p. unfold assign_panel_output.
  destruct (p_output p), (qdwin_primary_output q'); try done; cbv zeta; by rewrite (of_outputs _ _ (output_frame _)).
Qed.

Lemma df_publish d : dframe removed d (publish d).
Proof. apply df_base; [done|by intros []]. Qed.
Lemma df_reflow d : dframe removed d (reflow d).
Proof. unfold reflow. etransitivity; [apply df_publish|]. apply df_base; [apply outputs_reflow|apply clean_reflow]. Qed.
Lemma df_grant l d : dframe removed d (grant_exclusive_focus l d).
Proof.
  unfold grant_exclusive_focus. destruct (_ =? _); [|done]. apply df_base_frame. intros q.
  apply of_foldl. intros s q'. apply output_frame.
Qed.
Lemma df_send r b d : dframe removed d (send_layer_configure r b d).
Proof. etransitivity; [|apply df_demit]. etransitivity; [|apply df_upd_lsurf; done]. done. Qed.
Lemma df_send_configure l d : dframe removed d (qdwin_layer_surface_send_configure l d).
Proof.
  unfold qdwin_layer_surface_send_configure, with_box. destruct (layout_area l d); [|done].
  destruct (qdwin_layer_surface_compute_box _ _); [|done].
  etransitivity; [apply (df_upd_lsurf (l_res l) (fun l0 => l0 <| l_box := b |>)); done|apply df_send].
Qed.
Lemma df_place_and_map l s v d : dframe removed d (place_and_map l s v d).
Proof.
  unfold place_and_map. etransitivity; [|apply df_grant].
  etransitivity; [apply df_base_frame, (of_position v)|]. destruct (l_mapped l); [reflexivity|].
  etransitivity; [|apply df_reflow]. etransitivity; [|apply df_upd_lsurf; done]. done.
Qed.
Lemma df_apply r d : dframe removed d (qdwin_layer_surface_apply r d).
Proof.
  unfold qdwin_layer_surface_apply, create_view, weston_view_create.
  destruct (lsurf_of r d) as [l|]; [|done]. destruct (_ <? _); [done|].
  destruct (l_v l) as [v|], (l_surf l) as [s|]; try done; [apply df_place_and_map|].
  destruct (oom (base d)); [done|]. etransitivity; [|apply df_place_and_map].
  etransitivity; [|apply df_base_frame; apply _]. etransitivity; [|apply df_upd_lsurf; done].
  by split; try done; intros [].
Qed.

Context (survivor : option output).
Hypothesis Hsurvivor : (out_id <$> survivor) ≠ Some removed.

(** One layer surface moves. *)
Lemma move_layer_shape d r :
  exists out, out ≠ Some removed /\ dframe removed (match lsurf_of r d with
    | Some _ => upd_lsurf r (fun l => l <| l_out := out |>) d | None => d end)
    (move_layer_surface removed survivor d r).
Proof.
  unfold move_layer_surface. destruct (lsurf_of r d) as [l|]; [|by exists None].
  exists (if bool_decide (l_out l = None) || bool_decide (l_out l = Some removed)
          then out_id <$> survivor else l_out l). cbv zeta. split.
  - repeat case_bool_decide; cbn; congruence.
  - set (out := if bool_decide (l_out l = None) || bool_decide (l_out l = Some removed)
                then out_id <$> survivor else l_out l).
    assert (dframe removed (upd_lsurf r (fun l => l <| l_out := out |>) d)
      (publish (upd_lsurf r (fun l => l <| l_out := out |>) d))) as F by apply df_publish.
    destruct (_ && _); [|exact F]. etransitivity; [exact F|]. etransitivity; [apply df_send_configure|].
    case_bool_decide; [done|apply df_apply].
Qed.

Lemma move_layers_clean d :
  let d' := foldl (move_layer_surface removed survivor) d (map l_res (lsurfs d)) in
  (forall x, x ∈ layer_refs d' -> snd x ≠ Some removed)
  /\ lpopups d' = lpopups d /\ pointers d' = pointers d
  /\ (clean removed (base d) -> clean removed (base d')) /\ outputs (base d') = outputs (base d).
Proof.
  split.
  - intros x Hx Hbad.
    refine (replace_all layer_refs (fun r : Z => r) fst (fun _ => true) (fun x => snd x = Some removed)
      (move_layer_surface removed survivor) (map l_res (lsurfs d)) d _ _ _ x Hx Hbad); [done| |].
    + intros d1 r y _ Hy Ey. destruct (move_layer_shape d1 r) as (out & Ho & F).
      rewrite (df_refs _ _ _ F) in Hy. destruct (lsurf_of r d1) as [l|] eqn:El.
      * apply list_elem_of_fmap in Hy as (z & -> & (y & -> & Hy)%list_elem_of_fmap).
        destruct (l_res y =? r) eqn:E; [done|]. zbool. split; [done|]. apply list_elem_of_fmap. by exists y.
      * split; [|done]. intros <-. apply list_elem_of_fmap in Hy as (z & -> & Hz).
        pose proof (find_none _ _ El z) as N. cbn in N. rewrite Z.eqb_refl in N. discriminate N.
        by apply list_elem_of_In.
    + intros y (l & -> & Hl)%list_elem_of_fmap _. exists (l_res l). split_and!; [|done..].
      apply list_elem_of_fmap. by exists l.
  - generalize (map l_res (lsurfs d)) as rs. intros rs. revert d.
    induction rs as [|r rs IH]; intros d; [done|]. cbn. destruct (IH (move_layer_surface removed survivor d r)) as (A & B & C & D).
    destruct (move_layer_shape d r) as (out & _ & [_ F2 F3 F5 F4]). rewrite A, B, D, F2, F3, F5.
    split_and!; try (by destruct (lsurf_of r d)). intros Hc. apply C, F4. by destruct (lsurf_of r d).
Qed.
End LayerMoves.

(** ** Popups *)

Lemma in_filter {A} (c : A -> bool) l x : x ∈ List.filter c l <-> x ∈ l /\ c x = true.
Proof. by rewrite !list_elem_of_In, filter_In. Qed.

Definition popups_by_parent (ls : list lsurface) (lps : list lpopup) : list lpopup :=
  flat_map (fun l => List.filter (fun lp => lp_parent lp =? l_res l) lps) ls.

Lemma in_by_parent ls lps lp :
  lp ∈ popups_by_parent ls lps <-> lp ∈ lps /\ lp_parent lp ∈ map l_res ls.
Proof.
  unfold popups_by_parent. rewrite list_elem_of_In, in_flat_map. split.
  - intros (l & Hl & Hlp). apply list_elem_of_In, in_filter in Hlp as [A B]. zbool. split; [done|].
    rewrite B. apply list_elem_of_fmap. exists l. split; [done|]. by apply list_elem_of_In.
  - intros [A (l & E & Hl)%list_elem_of_fmap]. exists l. split; [by apply list_elem_of_In|].
    apply list_elem_of_In, in_filter. split; [done|]. by apply Z.eqb_eq.
Qed.

Lemma nodup_by_parent ls lps :
  NoDup (map l_res ls) -> NoDup (map lp_id lps) -> NoDup (map lp_id (popups_by_parent ls lps)).
Proof.
  intros Hl Hp. induction ls as [|l ls IH]; [by apply NoDup_nil|]. cbn in Hl.
  apply NoDup_cons in Hl as [Ha Hb]. cbn. rewrite map_app. apply NoDup_app. split_and!; [|  |auto].
  - by apply nodup_filter_ids.
  - intros x (p & -> & [Hp1 E1]%in_filter)%list_elem_of_fmap (p' & E & Hp')%list_elem_of_fmap.
    apply in_by_parent in Hp' as [Hp2 Hpar]. apply Ha. zbool. rewrite <- E1.
    by rewrite (nodup_map_inj lp_id lps p p').
Qed.

Section Cancelled.
Context (X : Z -> Prop).

Lemma linv_teardown x d : linv X d -> linv X (teardown_popup x d).
Proof.
  intros H. unfold teardown_popup. eapply linv_frame; [apply lf_base|].
  assert (H1 : linv X (if pp_grab_active x then match popup_pointer d !! pp_id x with
                       | Some i => weston_pointer_end_grab i d | None => d end else d)).
  { destruct (pp_grab_active x); [|done]. destruct (popup_pointer d !! pp_id x); [|done].
    by apply linv_end_grab. }
  destruct (_ =? _); [done|]. by eapply linv_frame; [apply lframe_destroy_view|].
Qed.

Lemma cancel_popups_spec d : linv X d -> linv X (cancel_all_popups d) /\ lpopups (cancel_all_popups d) = [].
Proof.
  intros H. unfold cancel_all_popups. set (d1 := foldl _ d _).
  assert (H1 : linv X d1).
  { apply linv_foldl; [intros; by apply linv_teardown|]. done. }
  destruct (destroy_fold X (P:=fun _ => True) (fun lp => dismiss_layer_grab (lp_res lp))
    (popups_by_parent (lsurfs d1) (lpopups d1)) d1) as (A & _ & C).
  - intros lp. apply _.
  - done.
  - intros lp [Hlp _]%in_by_parent. done.
  - apply nodup_by_parent; [apply (li_res _ _ _ H1)|apply (li_ids _ _ _ H1)].
  - split; [exact A|].
    change (lpopups (foldl dismiss_and_destroy d1 (popups_by_parent (lsurfs d1) (lpopups d1))) = []).
    destruct (lpopups (foldl _ _ _)) as [|lp lps] eqn:E; [done|].
    destruct (C lp) as [C1 C2]; [apply list_elem_of_here|].
    exfalso. apply C2, list_elem_of_fmap. exists lp. split; [done|]. apply in_by_parent. split; [done|].
    destruct (li_parent _ _ _ H1 lp C1) as (l & L1 & <- & _). apply list_elem_of_fmap. by exists l.
Qed.

(** ** Pointers *)

(** Only the pointer of seat [i] changes, and it keeps its seat. *)
Definition ponly (i : Z) (d d' : desk) : Prop :=
  exists g, (forall p, ptr_seat (g p) = ptr_seat p)
    /\ pointers d' = map (fun p => if ptr_seat p =? i then g p else p) (pointers d).

#[global] Instance ponly_preorder i : PreOrder (ponly i).
Proof.
  split.
  - intros d. exists (fun p => p). split; [done|]. induction (pointers d) as [|p l IH]; [done|]. cbn.
    rewrite <- IH. by destruct (_ =? _).
  - intros d1 d2 d3 (g1 & S1 & E1) (g2 & S2 & E2). exists (fun p => g2 (g1 p)). split; [congruence|].
    rewrite E2, E1, map_map. apply map_ext. intros p. destruct (ptr_seat p =? i) eqn:E; [by rewrite S1, E|].
    by rewrite E.
Qed.
Lemma ponly_upd i f d : (forall p, ptr_seat (f p) = ptr_seat p) -> ponly i d (upd_pointer i f d).
Proof. intros H. by exists f. Qed.
Lemma ponly_eq i d d' : pointers d' = pointers d -> ponly i d d'.
Proof. intros E. transitivity d; [reflexivity|]. destruct (reflexivity (R:=ponly i) d) as (g & A & B).
  exists g. by rewrite E. Qed.
Lemma ponly_retarget i v d : ponly i d (retarget i v d).
Proof. unfold retarget. case_bool_decide; [reflexivity|]. by apply ponly_upd. Qed.
Lemma pointers_track i d : pointers (qdwin_proxy_pointer_track_focus i d) = pointers d.
Proof. unfold qdwin_proxy_pointer_track_focus, to_sink. repeat split_match; done. Qed.
Lemma ponly_default_focus i d : ponly i d (qdwin_proxy_default_grab_focus i d).
Proof.
  unfold qdwin_proxy_default_grab_focus. destruct (locked (base d)); [apply ponly_retarget|].
  etransitivity; [apply ponly_retarget|]. apply ponly_eq, pointers_track.
Qed.
Lemma ponly_end_grab i d : ponly i d (weston_pointer_end_grab i d).
Proof. etransitivity; [|apply ponly_default_focus]. by apply ponly_upd. Qed.
Lemma pointers_cancel_grab i d : pointers (weston_pointer_cancel_grab i d) = pointers d.
Proof.
  unfold weston_pointer_cancel_grab, qdwin_popup_grab_cancel, qdwin_layer_popup_grab_cancel,
    popup_dismiss, dismiss_layer_grab. repeat split_match; done.
Qed.

Definition idle (p : pointer) : Prop := ptr_grab p = ptr_default /\ ptr_focus p = None.

Lemma pgrab_unique i p d :
  NoDup (map ptr_seat (pointers d)) -> p ∈ pointers d -> ptr_seat p = i -> ptr_grab p = pgrab_of i d.
Proof.
  intros Hn Hp Hs. unfold pgrab_of, pointer_of.
  destruct (List.find _ (pointers d)) as [p'|] eqn:E.
  - apply List.find_some in E as [E1 E2]. zbool. f_equal. apply (nodup_map_inj ptr_seat (pointers d)); [done..| |congruence].
    by apply list_elem_of_In.
  - pose proof (find_none _ _ E p) as N. cbn in N. rewrite Hs, Z.eqb_refl in N. discriminate N.
    by apply list_elem_of_In.
Qed.

Lemma ponly_seats i d d' : ponly i d d' -> map ptr_seat (pointers d') = map ptr_seat (pointers d).
Proof.
  intros (g & S & E). rewrite E, map_map. apply map_ext. intros p. destruct (_ =? _); auto.
Qed.

Lemma grabs_end_grab i d : grabs (weston_pointer_end_grab i d) = map (ungrab i) (grabs d).
Proof. rewrite <- grabs_ungrab. exact (lf_grabs _ _ (lf_default_focus i _)). Qed.

Lemma cancel_pointer_spec d i :
  NoDup (map ptr_seat (pointers d)) ->
  ponly i d (cancel_pointer d i)
  /\ forall p, p ∈ pointers (cancel_pointer d i) -> ptr_seat p = i -> idle p.
Proof.
  intros Hn. unfold cancel_pointer. cbv zeta.
  set (d1 := if bool_decide (pgrab_of i d = ptr_default) then d else _).
  assert (F : ponly i d d1 /\ forall p, p ∈ pointers d1 -> ptr_seat p = i -> ptr_grab p = ptr_default).
  { unfold d1. case_bool_decide as E1; [split; [reflexivity|]; intros p Hp Hs; by rewrite (pgrab_unique i p d)|].
    pose proof (pointers_cancel_grab i d) as Ep. case_bool_decide as E2.
    - split; [by apply ponly_eq|]. intros p Hp Hs. rewrite <- E2. apply pgrab_unique; [by rewrite Ep|done..].
    - split; [etransitivity; [by apply ponly_eq|apply ponly_end_grab]|]. intros p Hp Hs.
      assert (Hg : (ptr_seat p, ptr_grab p) ∈ grabs (weston_pointer_end_grab i (weston_pointer_cancel_grab i d))).
      { apply list_elem_of_fmap. by exists p. }
      rewrite grabs_end_grab in Hg. apply list_elem_of_fmap in Hg as (x & Hx & _). unfold ungrab in Hx.
      destruct (fst x =? i) eqn:E; zbool; [congruence|]. rewrite <- Hx in E. done. }
  destruct F as [F1 F2]. split; [etransitivity; [exact F1|]; by apply ponly_upd|].
  intros p (p0 & -> & Hp0)%list_elem_of_fmap Hs. destruct (ptr_seat p0 =? i) eqn:E; zbool; [|done].
  split; [exact (F2 p0 Hp0 E)|done].
Qed.

Lemma cancel_pointers d p :
  NoDup (map ptr_seat (pointers d)) ->
  p ∈ pointers (foldl cancel_pointer d (map ptr_seat (pointers d))) -> idle p.
Proof.
  intros Hn. set (ids := map ptr_seat (pointers d)).
  assert (G : forall p, p ∈ pointers d -> idle p \/ ptr_seat p ∈ ids).
  { intros x Hx. right. apply list_elem_of_fmap. by exists x. }
  clearbody ids. revert d Hn G. induction ids as [|i ids IH]; intros d Hn G; cbn.
  - intros Hp. destruct (G p Hp) as [?|?%elem_of_nil]; done.
  - destruct (cancel_pointer_spec d i Hn) as [F1 F2]. apply IH; [by rewrite (ponly_seats _ _ _ F1)|].
    intros x Hx. destruct (decide (ptr_seat x = i)) as [E|E]; [left; by apply F2|].
    destruct F1 as (g & S & Eq). rewrite Eq in Hx. apply list_elem_of_fmap in Hx as (y & -> & Hy).
    destruct (ptr_seat y =? i) eqn:E'; zbool; [by rewrite S in E|].
    destruct (G y Hy) as [?|[?|?]%elem_of_cons]; [by left|done|by right].
Qed.

(** ** The cancelled state *)

(** Rewriting with these keeps conversion away from the operations. *)
Lemma base_on_base f d : base (on_base f d) = f (base d).
Proof. done. Qed.
Lemma lsurfs_on_base f d : lsurfs (on_base f d) = lsurfs d.
Proof. done. Qed.
Lemma lpopups_on_base f d : lpopups (on_base f d) = lpopups d.
Proof. done. Qed.
Lemma pointers_on_base f d : pointers (on_base f d) = pointers d.
Proof. done. Qed.

Definition outs (d : desk) : list output := outputs (base d).

Lemma outs_end_grab i d : outs (weston_pointer_end_grab i d) = outs d.
Proof.
  unfold weston_pointer_end_grab, qdwin_proxy_default_grab_focus, qdwin_proxy_pointer_track_focus, to_sink, outs.
  repeat (split_match; cbn); by rewrite ?base_retarget.
Qed.
Lemma outs_foldl {A} (f : desk -> A -> desk) l d : (forall d x, outs (f d x) = outs d) -> outs (foldl f d l) = outs d.
Proof. intros H. revert d. induction l as [|x l IH]; intros d; [done|]. cbn. by rewrite IH. Qed.

Lemma outs_cancel d : outs (qdwin_output_boundary_cancel_state d) = outs d.
Proof.
  unfold qdwin_output_boundary_cancel_state.
  assert (Hk : forall q l, outputs (foldl cancel_keyboard q l) = outputs q).
  { intros q l. revert q. induction l as [|s l IH]; intros q; [done|]. cbn. rewrite IH. unfold cancel_keyboard.
    destruct (negb _); [done|]. rewrite (of_outputs _ _ (output_frame _)). by destruct (grab_of _ _). }
  etransitivity; [apply Hk|]. etransitivity; [apply outs_foldl; intros d' i|].
  { unfold cancel_pointer. cbv zeta. change (outs (if bool_decide (pgrab_of i d' = ptr_default) then d' else
      if bool_decide (pgrab_of i (weston_pointer_cancel_grab i d') = ptr_default)
      then weston_pointer_cancel_grab i d' else weston_pointer_end_grab i (weston_pointer_cancel_grab i d')) = outs d').
    assert (E : outs (weston_pointer_cancel_grab i d') = outs d').
    { unfold weston_pointer_cancel_grab, qdwin_popup_grab_cancel, qdwin_layer_popup_grab_cancel,
        popup_dismiss, dismiss_layer_grab. repeat split_match; done. }
    repeat case_bool_decide; [done..|]. by rewrite outs_end_grab. }
  etransitivity; [apply outs_foldl; intros d' s|].
  { unfold qdwin_stream_confine_grab_end. destruct (confined d' !! s); [|done]. case_bool_decide; [|done].
    by rewrite outs_end_grab. }
  assert (Hb : forall d0, outs d0 = outs d -> outs
    (on_base qdwin_overlay_grab_end (on_base qdwin_switcher_grab_end (on_base (fun q =>
       if move_grab_active q then qdwin_move_grab_end_for (move_grab_handle q) q else q) d0))) = outs d).
  { intros d0 <-. unfold outs, on_base; cbn. rewrite !(ls_outputs _ _ (lock_frame _)).
    destruct (move_grab_active _); [apply (ls_outputs _ _ (lock_frame _))|done]. }
  apply Hb. unfold cancel_all_popups. etransitivity; [apply outs_foldl; intros d' lp|].
  { unfold dismiss_and_destroy, qdwin_layer_popup_destroy, dismiss_layer_grab, destroy_view.
    unfold outs at 1. cbn. repeat (split_match; cbn); try done;
      (etransitivity; [exact (outs_end_grab _ _)|done]). }
  apply outs_foldl. intros d' x. unfold teardown_popup, destroy_view, qdwin_popup_teardown.
  unfold outs at 1. cbn. repeat (split_match; cbn); try done; apply outs_end_grab.
Qed.

Lemma popups_end_grab i d : lpopups (weston_pointer_end_grab i d) = lpopups d.
Proof. exact (lf_popups _ _ (lf_default_focus i _)). Qed.

Lemma cancel_state_spec d :
  linv X d ->
  let d' := qdwin_output_boundary_cancel_state d in
  lpopups d' = [] /\ (forall p, p ∈ pointers d' -> idle p)
  /\ forall x, x ∈ map kbd_state (seats (base d')) -> ~ grabbing x.
Proof.
  intros H d'. unfold d', qdwin_output_boundary_cancel_state.
  destruct (cancel_popups_spec d H) as [H1 P1].
  set (d2 := on_base qdwin_overlay_grab_end _).
  assert (H2 : linv X d2) by (eapply linv_frame; [|exact H1]; done).
  assert (P2 : lpopups d2 = []) by exact P1. clearbody d2.
  set (d3 := foldl _ d2 _).
  assert (H3 : linv X d3 /\ lpopups d3 = []).
  { unfold d3. generalize (map vs_id (view_streams (base d2))) as ids. intros ids. clear d3 d'. revert d2 H2 P2.
    induction ids as [|s ids IH]; intros d2 H2 P2; [done|]. cbn.
    apply IH; unfold qdwin_stream_confine_grab_end; destruct (confined d2 !! s); try done; case_bool_decide; try done.
    - apply linv_end_grab. by eapply linv_frame; [|exact H2].
    - by eapply linv_frame; [|exact H2].
    - by rewrite popups_end_grab. }
  destruct H3 as [H3 P3]. clearbody d3.
  assert (N3 : NoDup (map ptr_seat (pointers d3))).
  { pose proof (li_seats _ _ _ H3) as N. unfold grabs in N. by rewrite map_map in N. }
  split_and!; [|intros p; by apply (cancel_pointers d3)|apply cancel_keyboards].
  change (lpopups (foldl cancel_pointer d3 (map ptr_seat (pointers d3))) = []).
  generalize (map ptr_seat (pointers d3)) as ids. intros ids. clear -P3. revert d3 P3.
  induction ids as [|i ids IH]; intros d3 P3; [done|]. cbn. apply IH. unfold cancel_pointer. cbv zeta.
  assert (E : lpopups (weston_pointer_cancel_grab i d3) = []).
  { unfold weston_pointer_cancel_grab, lpopup_of, qdwin_popup_grab_cancel, popup_dismiss. rewrite P3.
    repeat split_match; done. }
  cbn. repeat case_bool_decide; [done..|]. by rewrite popups_end_grab.
Qed.

End Cancelled.

Lemma bbox_live outs b : outputs_bbox outs = Some b -> exists o, o ∈ outs /\ out_destroying o = false.
Proof.
  intros H. destruct (List.find (fun o => negb (out_destroying o)) outs) as [o|] eqn:E.
  - apply List.find_some in E as [E1 E2]. exists o. split; [by apply list_elem_of_In|]. by apply negb_true_iff in E2.
  - exfalso. unfold outputs_bbox in H. induction outs as [|o l IH]; [done|]. cbn in E, H.
    unfold grow_bbox in H at 2. destruct (out_destroying o); [by apply IH|done].
Qed.

Lemma survivor_spec removed q o :
  qdwin_output_boundary_survivor removed q = Some o ->
  o ∈ outputs q /\ out_id o ≠ removed /\ out_destroying o = false.
Proof.
  intros [H1 H2]%List.find_some. apply andb_prop in H2 as [H2 H3]. apply negb_true_iff in H2, H3. zbool.
  split_and!; [by apply list_elem_of_In|done..].
Qed.

(** The shell's panels and launchers move first; [q2] is [q1] after the
    notifications in between. *)
Lemma moved_clean removed survivor q q2 :
  (out_id <$> survivor) ≠ Some removed ->
  (forall o, o ∈ outputs q -> out_id o ≠ removed) ->
  (forall x, x ∈ map kbd_state (seats q) -> ~ grabbing x) ->
  let q1 := foldl (move_panel removed survivor) q (panels q) in
  oframe q1 q2 ->
  let q3 := foldl (move_launcher removed survivor) q2 (launchers q2) in
  clean removed q3 /\ outputs q3 = outputs q.
Proof.
  intros Hs Ho Hk q1 F q3.
  assert (P1 : outputs q1 = outputs q /\ map kbd_state (seats q1) = map kbd_state (seats q)).
  { split; [apply (fold_frame outputs)|apply (fold_frame (fun q => map kbd_state (seats q)))];
      intros; apply move_panel_frame. }
  assert (P2 : outputs q3 = outputs q2 /\ map kbd_state (seats q3) = map kbd_state (seats q2)
    /\ panels q3 = panels q2).
  { split_and!; [apply (fold_frame outputs)|apply (fold_frame (fun q => map kbd_state (seats q)))|apply (fold_frame panels)];
      intros; apply move_launcher_frame. }
  destruct P1 as [A1 A2], P2 as (B1 & B2 & B3). destruct F as [F1 F2 _ F4 _]. split; [|congruence]. split.
  - by rewrite B1, F1, A1.
  - rewrite B3, F2. intros x. by apply move_panels_clean.
  - intros ln. by apply move_launchers_clean.
  - rewrite B2, F4, A2. intros x Hx Hb. destruct (decide (snd x = default_grab)) as [|N]; [done|].
    by destruct (Hk x Hx).
Qed.

Lemma rehome_all_frame on_view_output removed sv q :
  oframe q (foldl (fun q tl => if qdwin_toplevel_belongs_to_output on_view_output removed tl q
                               then qdwin_output_boundary_rehome_toplevel sv q tl else q) q (toplevels q)).
Proof. apply of_foldl. intros tl q'. destruct (qdwin_toplevel_belongs_to_output _ _ _ _); [apply of_rehome|done]. Qed.

Lemma removed_not_listed dirty removed q o :
  o ∈ outputs (remove_output dirty removed q) -> out_id o ≠ out_id removed.
Proof.
  unfold remove_output; cbn.
  assert (F : forall o, o ∈ List.filter (fun o => negb (out_id o =? out_id removed)) (outputs q) ->
            out_id o ≠ out_id removed).
  { intros x [_ Hx]%in_filter. apply negb_true_iff in Hx. by zbool. }
  destruct dirty; [apply F|]. intros (x & -> & Hx)%list_elem_of_fmap. unfold shift_output.
  destruct (_ <=? _); exact (F x Hx).
Qed.

(** Everything that refers to the output, before and after. *)
Lemma clean_fields rid q :
  clean rid q ->
  (forall p, p ∈ panels q -> p_output p ≠ Some rid)
  /\ (forall ln, ln ∈ launchers q -> (out_id <$> l_output ln) ≠ Some rid)
  /\ (forall s, s ∈ seats q -> has_keyboard s = true -> kbd_grab s = default_grab).
Proof.
  intros [D1 D2 D3 D4]. split_and!.
  - intros p Hp E. apply (D2 (panel_ref p)); [|done]. apply list_elem_of_fmap. by exists p.
  - done.
  - intros s Hs Hk. refine (D4 (kbd_state s) _ Hk). apply list_elem_of_fmap. by exists s.
Qed.

Lemma no_survivor rid q :
  (forall o, o ∈ outputs q -> out_id o ≠ rid) -> qdwin_output_boundary_survivor rid q = None ->
  outputs_bbox (outputs q) = None.
Proof.
  intros O0 E. destruct (outputs_bbox (outputs q)) as [b|] eqn:Eb; [|done].
  destruct (bbox_live _ _ Eb) as (o & Ho & Hd). pose proof (find_none _ _ E o) as N. cbn in N.
  rewrite Hd, (proj2 (Z.eqb_neq _ _) (O0 o Ho)) in N. discriminate N. by apply list_elem_of_In.
Qed.

(** ** Windows *)

Definition inside_area (wa : rect) (x y w h : Z) : Prop :=
  rx wa <= x /\ ry wa <= y /\ (w <= rw wa -> x + w <= rx wa + rw wa) /\ (h <= rh wa -> y + h <= ry wa + rh wa).

#[global] Typeclasses Opaque rehome_slots.
#[global] Instance frame_rehome_slots wa : FrameFn (rehome_slots wa).
Proof. intros t. unfold rehome_slots. by repeat split_match. Qed.

Lemma rehome_slots_keep wa t :
  state (rehome_slots wa t) = state t /\ tiled (rehome_slots wa t) = tiled t
  /\ outer (rehome_slots wa t) = outer t /\ last_width (rehome_slots wa t) = last_width t
  /\ last_height (rehome_slots wa t) = last_height t.
Proof. unfold rehome_slots. by repeat split_match. Qed.

Lemma rehome_contained x y w h wa :
  Forall in_i32 [x; y; w; h; rx wa; ry wa; rw wa; rh wa] -> 0 < w -> 0 < h -> 1 <= rw wa -> 1 <= rh wa ->
  let r := qdwin_rehome_outer_rect x y w h (rx wa) (ry wa) (rw wa) (rh wa) in
  inside_area wa (fst r) (snd r) w h.
Proof.
  rewrite !Forall_cons. intros (? & ? & ? & ? & ? & ? & ? & ? & _) Hw Hh Hrw Hrh.
  unfold inside_area, qdwin_rehome_outer_rect. cbn [fst snd].
  rewrite !i64_to_i32_id by (apply rehome_axis_in_i32; assumption).
  pose proof (rehome_axis_spec x w (rx wa) (rw wa)). pose proof (rehome_axis_spec y h (ry wa) (rh wa)).
  cbn zeta in *. rewrite !Z.max_r in * by lia. intuition lia.
Qed.

Lemma at_set q0 h tl x y x' y' q :
  at_geo q0 h tl x y q -> at_geo q0 h tl x' y' (weston_view_set_position (view tl) x' y' q).
Proof.
  intros [H1 H2 H3 H4]. split.
  - by rewrite from_handle_pos.
  - by rewrite view_x_set, decide_True.
  - by rewrite view_y_set, decide_True.
  - done.
Qed.

(** What a window looks like after it was filled to [w] by [h], or left as it
    is. *)
Lemma filled_slots_keep d w ht tl :
  0 < w -> 0 < ht ->
  outer (inset_tl d (set_outer w ht tl)) = (w, ht)
  /\ restore_slots (inset_tl d (set_outer w ht tl)) = restore_slots tl
  /\ tile_slots (inset_tl d (set_outer w ht tl)) = tile_slots tl.
Proof.
  intros. destruct (inset_slots d (set_outer w ht tl)) as (-> & -> & -> & _).
  by rewrite seed_dims_id by done.
Qed.

(** The rectangle a re-homed window gets, other than a floating one. *)
Definition special_rect (sv : output) (wa : rect) (tl : toplevel) : option rect :=
  if ts_has (state tl) QDWIN_TS_FULLSCREEN
  then Some (mk_rect (out_x sv) (out_y sv) (out_width sv) (out_height sv))
  else if ts_has (state tl) QDWIN_TS_MAXIMIZED then Some wa
  else let left_w := rw wa / 2 in
       if tiled tl =? QDWIN_TILE_LEFT then Some (mk_rect (rx wa) (ry wa) left_w (rh wa))
       else if tiled tl =? QDWIN_TILE_RIGHT
       then Some (mk_rect (rx wa + left_w) (ry wa) (rw wa - left_w) (rh wa))
       else None.

Lemma cdiv_half w : 1 <= w -> cdiv w 2 = w / 2.
Proof. intros. unfold cdiv. apply Z.quot_div_nonneg; lia. Qed.

Section RehomeWindow.
Context (q0 : qdwin) (h : Z) (d : desktop_surface) (sv : output).
Hypothesis Hwide : 2 <= rw (qdwin_output_work_area sv q0).
Hypothesis Hsize : 0 < out_width sv /\ 0 < out_height sv.

Lemma at_special r tl x y q :
  backed d tl -> at_geo q0 h tl x y q -> special_rect sv (qdwin_output_work_area sv q0) tl = Some r ->
  at_geo q0 h (inset_tl d (set_outer (rw r) (rh r) tl)) (rx r + inset_w tl) (ry r + inset_n tl)
    (rehome_window h sv q) /\ 0 < rw r /\ 0 < rh r.
Proof.
  intros Hb H. unfold rehome_window, with_tl. rewrite (ag_tl H), (work_area_same _ _ sv (ag_out H)).
  pose proof (work_area_positive sv q0) as Hp. pose proof Hwide as Hw2.
  set (wa := qdwin_output_work_area sv q0) in *. clearbody wa.
  unfold special_rect. cbv zeta.
  assert (Hmax : forall w ht e x' y', at_geo q0 h (inset_tl d (set_outer w ht tl)) x' y'
    (qdwin_toplevel_position_chrome h (qdwin_toplevel_apply_inset h (set_tl_position h x' y'
       (resize_proxy_or h w ht e (upd_tl h (set_outer w ht) q)))))).
  { intros w ht e x' y'. pose proof (backed_fn d (set_outer w ht) tl Hb) as Hb'.
    apply (at_chrome _ _ d); [by apply (backed_fn d (inset_tl d))|]. apply at_inset; [done|].
    apply (at_position _ _ _ _ _ x y), (at_resize _ _ d); [done|]. by apply (at_upd _ _ (set_outer w ht)). }
  destruct (ts_has (state tl) QDWIN_TS_FULLSCREEN).
  { intros [= <-]. cbn [rx ry rw rh]. split; [|done].
    unfold qdwin_toplevel_apply_fullscreen_geometry, with_tl. rewrite (ag_tl H). apply Hmax. }
  destruct (ts_has (state tl) QDWIN_TS_MAXIMIZED).
  { intros [= <-]. split; [apply Hmax|lia]. }
  assert (Htile : forall w ht x' y', at_geo q0 h (inset_tl d (set_outer w ht tl)) (x' + inset_w tl) (y' + inset_n tl)
    (qdwin_toplevel_position_chrome h (qdwin_toplevel_apply_inset h (place_outer h x' y' w ht q)))).
  { intros w ht x' y'. pose proof (backed_fn d (set_outer w ht) tl Hb) as Hb'.
    apply (at_chrome _ _ d); [by apply (backed_fn d (inset_tl d))|]. apply at_inset; [done|].
    unfold place_outer, with_tl. rewrite (ag_tl H). rewrite <- (frame_view (set_outer w ht)).
    apply (at_set _ _ _ x y). by apply (at_upd _ _ (set_outer w ht)). }
  destruct Hb as (_ & -> & _). rewrite cdiv_half by lia.
  pose proof (Z.div_str_pos (rw wa) 2 ltac:(lia)) as Hh.
  pose proof (Z.div_lt (rw wa) 2 ltac:(lia) ltac:(lia)) as Hh'.
  destruct (tiled tl =? QDWIN_TILE_LEFT) eqn:EL; cbn [orb].
  { zbool. rewrite EL. intros [= <-]. split; [apply Htile|cbn [rw rh]; lia]. }
  destruct (tiled tl =? QDWIN_TILE_RIGHT); [|done].
  intros [= <-]. split; [apply Htile|cbn [rw rh]; lia].
Qed.

Lemma at_floating r tl x y q :
  backed d tl -> at_geo q0 h tl x y q ->
  r = qdwin_rehome_outer_rect (x - inset_w tl) (y - inset_n tl) (outer_width tl) (outer_height tl)
        (rx (qdwin_output_work_area sv q0)) (ry (qdwin_output_work_area sv q0))
        (rw (qdwin_output_work_area sv q0)) (rh (qdwin_output_work_area sv q0)) ->
  0 < outer_width tl -> 0 < outer_height tl ->
  special_rect sv (qdwin_output_work_area sv q0) tl = None ->
  at_geo q0 h (inset_tl d tl) (fst r + inset_w tl) (snd r + inset_n tl) (rehome_window h sv q).
Proof.
  intros Hb H -> Hw Hh. unfold rehome_window, with_tl. rewrite (ag_tl H), (work_area_same _ _ sv (ag_out H)).
  unfold special_rect. cbv zeta. destruct (ts_has _ _); [done|]. destruct (ts_has _ _); [done|].
  destruct (tiled tl =? QDWIN_TILE_LEFT); [done|]. destruct (tiled tl =? QDWIN_TILE_RIGHT); [done|]. intros _.
  cbn [orb]. unfold outer_or. rewrite (proj2 (Z.ltb_lt 0 (outer_width tl)) Hw), (proj2 (Z.ltb_lt 0 (outer_height tl)) Hh).
  rewrite (proj2 (Z.leb_gt (outer_width tl) 0) Hw), (proj2 (Z.leb_gt (outer_height tl) 0) Hh).
  rewrite (ag_x H), (ag_y H).
  apply (at_chrome _ _ d); [by apply (backed_fn d (inset_tl d))|]. apply at_inset; [done|]. by apply (at_set _ _ _ x y).
Qed.
End RehomeWindow.

Lemma rehomed_slots_inside wa tl :
  1 <= rw wa /\ 1 <= rh wa ->
  Forall in_i32 [rx wa; ry wa; rw wa; rh wa;
                 saved_x tl - inset_w tl; saved_y tl - inset_n tl; saved_outer_w tl; saved_outer_h tl;
                 tile_saved_x tl - inset_w tl; tile_saved_y tl - inset_n tl;
                 tile_saved_outer_w tl; tile_saved_outer_h tl] ->
  let t1 := rehome_slots wa tl in
  (0 < saved_outer_w tl -> 0 < saved_outer_h tl ->
     inside_area wa (saved_x t1 - inset_w tl) (saved_y t1 - inset_n tl) (saved_outer_w t1) (saved_outer_h t1)
     /\ (saved_outer_w t1, saved_outer_h t1) = (saved_outer_w tl, saved_outer_h tl))
  /\ (0 < tile_saved_outer_w tl -> 0 < tile_saved_outer_h tl ->
     inside_area wa (tile_saved_x t1 - inset_w tl) (tile_saved_y t1 - inset_n tl)
       (tile_saved_outer_w t1) (tile_saved_outer_h t1)
     /\ (tile_saved_outer_w t1, tile_saved_outer_h t1) = (tile_saved_outer_w tl, tile_saved_outer_h tl)).
Proof.
  intros Hp Hall. rewrite !Forall_cons in Hall. destruct_and! Hall.
  assert (C : forall x y w h, in_i32 (x - inset_w tl) -> in_i32 (y - inset_n tl) -> in_i32 w -> in_i32 h ->
    0 < w -> 0 < h -> let r := rehome_saved tl wa x y w h in
    inside_area wa (fst r - inset_w tl) (snd r - inset_n tl) w h).
  { intros x y w h ? ? ? ? ? ? r. unfold r, rehome_saved. cbn [fst snd]. rewrite !Z.add_simpl_r.
    apply rehome_contained; [|lia..]. rewrite !Forall_cons. split_and!; done. }
  unfold rehome_slots. destruct ((0 <? saved_outer_w tl) && (0 <? saved_outer_h tl)) eqn:E1,
    ((0 <? tile_saved_outer_w tl) && (0 <? tile_saved_outer_h tl)) eqn:E2; cbn; rewrite ?E2; cbn;
    split; intros; zbool; try lia; (split; [by apply C|done]).
Qed.

(** A window re-homed to the surviving output is where it belongs: filling
    the output when fullscreen, the work area when maximised, its half of it when
    tiled, and otherwise at its old size within the work area, at its origin
    when it does not fit.  The geometry an un-maximise or an untile will restore
    is moved within the work area as well. *)
Theorem rehomed_window_inside (d : desktop_surface) (sv : output) (tl : toplevel) (q : qdwin) :
  let h := handle tl in
  let wa := qdwin_output_work_area sv q in
  qdwin_toplevel_from_handle h q = Some tl -> backed d tl ->
  0 < outer_width tl -> 0 < outer_height tl -> 2 <= rw wa -> 0 < out_width sv -> 0 < out_height sv ->
  Forall in_i32 [rx wa; ry wa; rw wa; rh wa; outer_width tl; outer_height tl;
                 view_x (view tl) q - inset_w tl; view_y (view tl) q - inset_n tl;
                 saved_x tl - inset_w tl; saved_y tl - inset_n tl; saved_outer_w tl; saved_outer_h tl;
                 tile_saved_x tl - inset_w tl; tile_saved_y tl - inset_n tl;
                 tile_saved_outer_w tl; tile_saved_outer_h tl] ->
  exists tl' x y,
    at_geo q h tl' (x + inset_w tl) (y + inset_n tl) (qdwin_output_boundary_rehome_toplevel sv q tl)
    /\ match special_rect sv wa tl with
       | Some r => (x, y, outer tl') = (rx r, ry r, (rw r, rh r))
       | None => outer tl' = outer tl /\ inside_area wa x y (outer_width tl) (outer_height tl)
       end
    /\ (0 < saved_outer_w tl -> 0 < saved_outer_h tl ->
         inside_area wa (saved_x tl' - inset_w tl) (saved_y tl' - inset_n tl) (saved_outer_w tl') (saved_outer_h tl')
         /\ (saved_outer_w tl', saved_outer_h tl') = (saved_outer_w tl, saved_outer_h tl))
    /\ (0 < tile_saved_outer_w tl -> 0 < tile_saved_outer_h tl ->
         inside_area wa (tile_saved_x tl' - inset_w tl) (tile_saved_y tl' - inset_n tl)
           (tile_saved_outer_w tl') (tile_saved_outer_h tl')
         /\ (tile_saved_outer_w tl', tile_saved_outer_h tl') = (tile_saved_outer_w tl, tile_saved_outer_h tl)).
Proof.
  intros h wa Hf Hb Hw Hh Hwide Hsw Hsh Hall.
  pose proof (work_area_positive sv q) as Hp. fold wa in Hp.
  set (t1 := rehome_slots wa tl).
  assert (Hslots : (0 < saved_outer_w tl -> 0 < saved_outer_h tl ->
         inside_area wa (saved_x t1 - inset_w tl) (saved_y t1 - inset_n tl) (saved_outer_w t1) (saved_outer_h t1)
         /\ (saved_outer_w t1, saved_outer_h t1) = (saved_outer_w tl, saved_outer_h tl))
    /\ (0 < tile_saved_outer_w tl -> 0 < tile_saved_outer_h tl ->
         inside_area wa (tile_saved_x t1 - inset_w tl) (tile_saved_y t1 - inset_n tl)
           (tile_saved_outer_w t1) (tile_saved_outer_h t1)
         /\ (tile_saved_outer_w t1, tile_saved_outer_h t1) = (tile_saved_outer_w tl, tile_saved_outer_h tl))).
  { apply rehomed_slots_inside; [done|]. rewrite !Forall_cons in Hall. rewrite !Forall_cons.
    destruct_and! Hall. split_and!; done. }
  assert (H1 : at_geo q h t1 (view_x (view tl) q) (view_y (view tl) q) (upd_tl h (rehome_slots wa) q)).
  { apply (at_upd _ _ (rehome_slots wa)). by apply at_init. }
  assert (Hb1 : backed d t1) by by apply (backed_fn d (rehome_slots wa)).
  destruct (frame_insets (rehome_slots wa) tl) as [Iw In]. fold t1 in Iw, In.
  destruct (rehome_slots_keep wa tl) as (S1 & S2 & S3 & S4 & S5). fold t1 in S1, S2, S3, S4, S5.
  assert (Hsp : special_rect sv wa t1 = special_rect sv wa tl) by (unfold special_rect; by rewrite S1, S2).
  assert (Hend : forall tl' x y, at_geo q h tl' x y (rehome_window h sv (upd_tl h (rehome_slots wa) q)) ->
    at_geo q h tl' x y (qdwin_output_boundary_rehome_toplevel sv q tl)).
  { intros tl' x y G. unfold qdwin_output_boundary_rehome_toplevel. destruct (outer_or 800 600 tl) as [ow oh].
    fold h wa. unfold with_tl at 1. rewrite (ag_tl G). by apply at_send. }
  destruct (special_rect sv wa tl) as [r|] eqn:Er.
  - destruct (at_special q h d sv Hwide (conj Hsw Hsh) r t1 _ _ _ Hb1 H1 Hsp) as (G & Rw & Rh).
    destruct (filled_slots_keep d (rw r) (rh r) t1 Rw Rh) as (F1 & F2 & F3).
    exists (inset_tl d (set_outer (rw r) (rh r) t1)), (rx r), (ry r). rewrite <- Iw, <- In.
    split; [by apply Hend|]. unfold restore_slots, tile_slots in F2, F3. injection F2 as -> -> -> ->.
    injection F3 as _ -> -> -> ->. rewrite F1, Iw, In. split; [done|exact Hslots].
  - set (r := qdwin_rehome_outer_rect (view_x (view tl) q - inset_w tl) (view_y (view tl) q - inset_n tl)
                (outer_width tl) (outer_height tl) (rx wa) (ry wa) (rw wa) (rh wa)).
    assert (So : outer_width t1 = outer_width tl /\ outer_height t1 = outer_height tl)
      by (unfold outer in S3; by injection S3).
    destruct So as [So1 So2].
    assert (G : at_geo q h (inset_tl d t1) (fst r + inset_w t1) (snd r + inset_n t1)
              (rehome_window h sv (upd_tl h (rehome_slots wa) q))).
    { apply (at_floating q h d sv r t1 (view_x (view tl) q) (view_y (view tl) q)); try done;
        rewrite ?So1, ?So2, ?Iw, ?In; done. }
    exists (inset_tl d t1), (fst r), (snd r). rewrite <- Iw, <- In.
    destruct (inset_slots d t1) as (F1 & F2 & F3 & _).
    unfold restore_slots, tile_slots in F2, F3. injection F2 as -> -> -> ->. injection F3 as _ -> -> -> ->.
    split; [by apply Hend|]. rewrite Iw, In. split; [|exact Hslots].
    split; [rewrite F1, seed_dims_id by (rewrite ?So1, ?So2; done); done|].
    apply rehome_contained; [|lia..]. rewrite !Forall_cons in Hall. rewrite !Forall_cons.
    destruct_and! Hall. split_and!; done.
Qed.

(** The window of the removed second output. *)
Definition ob_second : output := mk_output 2 1920 0 1920 1080 false "DP-2".
Definition ob_base : qdwin := pt_base <| view_pos ::= <[11 := (2500, 300)]> |>.

Lemma rehomed_window_inside_witness :
  exists tl' x y,
    at_geo ob_base 1 tl' (x + 2) (y + 24) (qdwin_output_boundary_rehome_toplevel ex_output ob_base ex_toplevel)
    /\ inside_area (mk_rect 0 0 1920 1080) x y 304 226.
Proof.
  destruct (rehomed_window_inside ex_dsurf ex_output ex_toplevel ob_base) as (tl' & x & y & A & B & _).
  - reflexivity.
  - exact ex_backed.
  - reflexivity.
  - reflexivity.
  - by vm_compute.
  - reflexivity.
  - reflexivity.
  - repeat (apply Forall_cons; split; [by vm_compute|]). apply Forall_nil. exact I.
  - exists tl', x, y. split; [exact A|]. exact (proj2 B).
Defined.
