(* ===== verification/Overlays.v ===== *)
(** * Overlays: notification bubbles and the shell's background

    The two shell-owned overlays of [qdwin.c] that hang off [struct qdwin]
    without being part of the window state: notifications, anchored to a corner
    of an output, and the background surface that takes the place of the
    compositor's curtain.  With them, the whole output-boundary transition: its
    steps on panels, launchers, layer surfaces and windows are those of
    [OutputBoundary]; its steps on the overlays, on the outputs that view streams
    return to and on the outputs seats are bound to are here. *)

From stdpp Require Import base list gmap strings option.
From S2P Require Import Prelude Logic Scene State Toplevel Dependents Focus Lock Desk Pointer LayerShell OutputBoundary.
From stdpp Require Import list.
#[local] Open Scope Z_scope.

(** ** State *)

(** [struct qdwin_notification], named by its resource.  Its two listeners are
    on the surface exactly while [n_surface] is set. *)
Record note := mk_note {
  n_res : Z; n_surface : option Z; n_view : option Z; n_output : option Z;
  n_anchor : Z; n_offset_x : Z; n_offset_y : Z
}.
#[global] Instance eta_note : Eta note := fun r =>
  mk_note (n_res r) (n_surface r) (n_view r) (n_output r) (n_anchor r) (n_offset_x r) (n_offset_y r).

(** [struct qdwin_background]. *)
Record bground := mk_bground { b_res : Z; b_surface : option Z; b_view : option Z }.
#[global] Instance eta_bground : Eta bground := fun r => mk_bground (b_res r) (b_surface r) (b_view r).

Inductive oevent :=
| note_dismissed (r : Z)
| bg_dismissed (r : Z)
| bg_geometry (r x y w h : Z)
| overlay_no_memory (client : Z)
(* undefined behaviour: the handler stops here *)
| freed_output_read (o : Z)
| freed_surface_read (s : Z)
| null_surface_read (r : Z)
| position_overflow (r : Z).

(** [notes] is [qdwin::notifications], newest first; [bgs] holds every
    [qdwin_background] that is allocated; [prev_output] is the field of the listed
    view streams that have one (a stream that is released has none left), and
    [seat_output] that of the seats bound to an output. *)
Record overlays := mk_overlays {
  od : desk; notes : list note; bgs : list bground; shell_background : option Z;
  prev_output : gmap Z Z; seat_output : gmap Z Z; oevents : list oevent
}.
#[global] Instance eta_overlays : Eta overlays := fun r =>
  mk_overlays (od r) (notes r) (bgs r) (shell_background r) (prev_output r) (seat_output r) (oevents r).

Definition oemit (e : oevent) (w : overlays) : overlays := w <| oevents ::= cons e |>.
Definition on_od (f : desk -> desk) (w : overlays) : overlays := w <| od ::= f |>.
Definition on_oq (f : qdwin -> qdwin) : overlays -> overlays := on_od (on_base f).

Definition note_of (r : Z) (w : overlays) : option note := List.find (fun n => n_res n =? r) (notes w).
Definition upd_note (r : Z) (f : note -> note) (w : overlays) : overlays :=
  w <| notes ::= map (fun n => if n_res n =? r then f n else n) |>.
Definition bg_of (r : Z) (w : overlays) : option bground := List.find (fun b => b_res b =? r) (bgs w).
Definition upd_bg (r : Z) (f : bground -> bground) (w : overlays) : overlays :=
  w <| bgs ::= map (fun b => if b_res b =? r then f b else b) |>.

Definition output_of (i : Z) (w : overlays) : option output :=
  List.find (fun o => out_id o =? i) (outputs (base (od w))).

(** [weston_view_move_to_layer] with no layer. *)
Definition move_to_no_layer (v : Z) (d : desk) : desk :=
  d <| view_list ::= (if weston_view_is_mapped v (the_scene (base d))
                      then List.filter (fun x => negb (x =? v)) else id) |>
    ~> on_base (on_scene (fun s => s <| view_list_needs_rebuild := true |>
                                     <| entries ::= unlink_view v |>)).

Definition map_if_unmapped (s : Z) (u : wsurface) : desk -> desk :=
  if ws_mapped u then id else weston_surface_map s.

Definition drop_overlay_view (v : option Z) : desk -> desk :=
  match v with Some v => destroy_view v | None => id end.

(** ** Notifications *)

(** The position of a bubble of [bw] by [bh] in the corner of [o], in [int]
    arithmetic; the offsets are unsigned and cast. *)
Definition corner_near (origin off : Z) : option Z := add32 origin off.
Definition corner_far (origin size extent off : Z) : option Z :=
  let! e := add32 origin size in
  let! e := sub32 e extent in
  sub32 e off.
Definition note_corner (a : Z) (o : output) (bw bh offx offy : Z) : option (Z * Z) :=
  let left := corner_near (out_x o) (as_int offx) in
  let right := corner_far (out_x o) (out_width o) bw (as_int offx) in
  let top := corner_near (out_y o) (as_int offy) in
  let bottom := corner_far (out_y o) (out_height o) bh (as_int offy) in
  let pair x y := let! x := x in let! y := y in Some (x, y) in
  if a =? 0 then pair right top
  else if a =? 1 then pair left top
  else if a =? 2 then pair right bottom
  else if a =? 3 then pair left bottom
  else Some (out_x o, out_y o).

Definition pos_or_one (x : Z) : Z := if x <=? 0 then 1 else x.

Definition qdwin_notification_place (n : note) (w : overlays) : overlays :=
  match n_view n, n_output n, n_surface n with
  | Some v, Some i, Some s =>
      match output_of i w, wsurfaces (od w) !! s with
      | None, _ => oemit (freed_output_read i) w
      | _, None => oemit (freed_surface_read s) w
      | Some o, Some u =>
          match note_corner (n_anchor n) o (pos_or_one (ws_width u)) (pos_or_one (ws_height u))
                  (n_offset_x n) (n_offset_y n) with
          | None => oemit (position_overflow (n_res n)) w
          | Some (x, y) => w ~> on_oq (weston_view_set_position v x y) ~> on_od (map_if_unmapped s u)
          end
      end
  | _, _, _ => w
  end.

(** The commit listener of the notification [r]. *)
Definition qdwin_notification_commit (w : overlays) (r : Z) : overlays :=
  match note_of r w with Some n => qdwin_notification_place n w | None => w end.

Definition qdwin_notification_surface_destroyed (w : overlays) (r : Z) : overlays :=
  match note_of r w with
  | None => w
  | Some n => w ~> on_od (drop_overlay_view (n_view n))
                ~> upd_note r (fun n => n <| n_view := None |> <| n_surface := None |>)
                ~> oemit (note_dismissed r)
  end.

Definition qdwin_notification_resource_destroyed (r : Z) (w : overlays) : overlays :=
  match note_of r w with
  | None => w
  | Some n => w ~> on_od (drop_overlay_view (n_view n))
                ~> (fun w => w <| notes ::= List.filter (fun n => negb (n_res n =? r)) |>)
  end.

(** [made] and [alloc]: whether the resource and the structure could be
    allocated. *)
Definition qdwin_handle_attach_notification (made alloc : bool) (r : wl_resource) (id : Z)
    (surface : option Z) (a offx offy : Z) (w : overlays) : overlays :=
  if negb (qdwin_shell_require_bound r (base (od w)))
  then on_oq (emit (post_error (res_id r) SHELL_NOT_BOUND)) w
  else if negb made then oemit (overlay_no_memory (res_client r)) w
  else if 3 <? a then w
  else match surface with
  | None => w
  | Some s =>
      if negb alloc then oemit (overlay_no_memory (res_client r)) w
      else match create_view s (od w) with
      | (None, d) => w <| od := d |>
      | (Some v, d) =>
          let n := mk_note id (Some s) (Some v) (out_id <$> qdwin_primary_output (base d)) a offx offy in
          w <| od := d |>
            ~> on_oq (on_scene (weston_view_move_to_layer v notification_layer))
            ~> (fun w => w <| notes ::= cons n |>)
            ~> qdwin_notification_place n
      end
  end.

(** ** The shell's background *)

Definition qdwin_background_send_geometry (r : Z) (w : overlays) : overlays :=
  match qdwin_primary_output (base (od w)) with
  | Some o => oemit (bg_geometry r (out_x o) (out_y o) (out_width o) (out_height o)) w
  | None => w
  end.

Definition qdwin_background_place (b : bground) (w : overlays) : overlays :=
  match qdwin_primary_output (base (od w)), b_view b with
  | Some o, Some v =>
      let w := on_oq (weston_view_set_position v (out_x o) (out_y o)) w in
      match b_surface b with
      | None => oemit (null_surface_read (b_res b)) w
      | Some s => match wsurfaces (od w) !! s with
          | Some u => on_od (map_if_unmapped s u) w
          | None => oemit (freed_surface_read s) w
          end
      end
  | _, _ => w
  end.

Definition qdwin_background_surface_destroyed (w : overlays) (r : Z) : overlays :=
  match bg_of r w with
  | None => w
  | Some b => w ~> on_od (drop_overlay_view (b_view b))
                ~> upd_bg r (fun b => b <| b_view := None |> <| b_surface := None |>)
                ~> oemit (bg_dismissed r)
  end.

(** The curtain comes back. *)
Definition curtain_back (w : overlays) : overlays :=
  match background (base (od w)) with
  | Some c => on_oq (on_scene (weston_view_move_to_layer (c_view c) background_layer)) w
  | None => w
  end.

Definition qdwin_background_resource_destroyed (r : Z) (w : overlays) : overlays :=
  match bg_of r w with
  | None => w
  | Some b =>
      w ~> on_od (drop_overlay_view (b_view b))
        ~> (fun w => if bool_decide (shell_background w = Some r) then w <| shell_background := None |> else w)
        ~> (fun w => w <| bgs ::= List.filter (fun b => negb (b_res b =? r)) |>)
        ~> curtain_back
  end.

(** The curtain leaves the scene. *)
Definition hide_curtain (w : overlays) : overlays :=
  match background (base (od w)) with
  | Some c => on_od (move_to_no_layer (c_view c)) w
  | None => w
  end.

Definition qdwin_handle_attach_background (made alloc : bool) (r : wl_resource) (id : Z)
    (surface : option Z) (w : overlays) : overlays :=
  if negb (qdwin_shell_require_bound r (base (od w)))
  then on_oq (emit (post_error (res_id r) SHELL_NOT_BOUND)) w
  else if negb made then oemit (overlay_no_memory (res_client r)) w
  else match surface with
  | None => w
  | Some s =>
      let w := match shell_background w with
               | Some old => qdwin_background_resource_destroyed old w
               | None => w
               end in
      if negb alloc then oemit (overlay_no_memory (res_client r)) w
      else match create_view s (od w) with
      | (None, d) => w <| od := d |>
      | (Some v, d) =>
          let b := mk_bground id (Some s) (Some v) in
          w <| od := d |>
            ~> on_oq (on_scene (weston_view_move_to_layer v background_layer))
            ~> hide_curtain
            ~> (fun w => w <| bgs ::= cons b |> <| shell_background := Some id |>)
            ~> qdwin_background_place b
            ~> qdwin_background_send_geometry id
      end
  end.

(** ** Surfaces *)

(** A commit that gives the surface a new size, and its listeners; the death
    of a surface.  Listeners run oldest first. *)
Definition notes_on (s : Z) (w : overlays) : list Z :=
  map n_res (List.filter (fun n => bool_decide (n_surface n = Some s)) (rev (notes w))).
Definition bgs_on (s : Z) (w : overlays) : list Z :=
  map b_res (List.filter (fun b => bool_decide (b_surface b = Some s)) (rev (bgs w))).

Definition overlay_surface_commit (s wd ht : Z) (w : overlays) : overlays :=
  w ~> on_od (fun d => d <| wsurfaces ::= alter (fun u => u <| ws_width := wd |> <| ws_height := ht |>) s |>)
    ~> (fun w => foldl qdwin_notification_commit w (notes_on s w)).

Definition overlay_surface_destroyed (s : Z) (w : overlays) : overlays :=
  w ~> (fun w => foldl qdwin_notification_surface_destroyed w (notes_on s w))
    ~> (fun w => foldl qdwin_background_surface_destroyed w (bgs_on s w))
    ~> on_od (fun d => d <| wsurfaces ::= delete s |>).

(** ** Outputs *)

Definition move_note (removed : Z) (survivor : option output) (w : overlays) (n : note) : overlays :=
  if bool_decide (n_output n = Some removed)
  then let n := n <| n_output := out_id <$> survivor |> in
       w ~> upd_note (n_res n) (fun _ => n) ~> qdwin_notification_place n
  else w.

Definition move_background (w : overlays) : overlays :=
  match shell_background w with
  | None => w
  | Some r => match bg_of r w with
      | Some b => w ~> qdwin_background_place b ~> qdwin_background_send_geometry r
      | None => w
      end
  end.

(** [if (seat->output == removed) seat->output = NULL]. *)
Definition unbind_seats (removed : Z) (w : overlays) : overlays :=
  w <| seat_output ::= filter (fun x => snd x <> removed) |>.

(** Streams return to the survivor instead. *)
Definition repair_prev (removed : Z) (survivor : option output) (w : overlays) : overlays :=
  w <| prev_output ::= omap (fun o => if o =? removed then out_id <$> survivor else Some o) |>.

Definition rehome_windows (on_view_output : Z -> bool) (removed survivor : output) (q : qdwin) : qdwin :=
  foldl (fun q tl => if qdwin_toplevel_belongs_to_output on_view_output removed tl q
                     then qdwin_output_boundary_rehome_toplevel survivor q tl else q) q (toplevels q).

Definition refit_lock (q : qdwin) : qdwin :=
  q ~> qdwin_lock_surface_place ~> (fun q => if locked q then qdwin_install_lock_curtain q else q).

(** The first half: grabs are cancelled, and what referred to the output is
    given the survivor. *)
Definition relocate (removed : Z) (survivor : option output) (w : overlays) : overlays :=
  w ~> on_od qdwin_output_boundary_cancel_state
    ~> unbind_seats removed
    ~> on_oq (fun q => foldl (move_panel removed survivor) q (panels q))
    ~> (fun w => foldl (move_note removed survivor) w (notes w))
    ~> on_oq (fun q => foldl (move_launcher removed survivor) q (launchers q))
    ~> on_od (fun d => foldl (move_layer_surface removed survivor) d (map l_res (lsurfs d)))
    ~> repair_prev removed survivor.

(** The second half: windows, background and lock screen. *)
Definition rescue (on_view_output : Z -> bool) (removed survivor : output) (w : overlays) : overlays :=
  w ~> on_oq (rehome_windows on_view_output removed survivor)
    ~> on_oq qdwin_refresh_background
    ~> move_background
    ~> on_oq refit_lock.

Definition qdwin_output_boundary_transition (on_view_output : Z -> bool) (removed : output) (w : overlays)
    : overlays :=
  let survivor := qdwin_output_boundary_survivor (out_id removed) (base (od w)) in
  let w := relocate (out_id removed) survivor w in
  match survivor with
  | None => w
  | Some sv => rescue on_view_output removed sv w
  end.

(** The output leaves libweston's list, and the boundary half of the plugin's
    listener runs; what it announces afterwards is with the components it
    announces to. *)
Definition output_destroyed (dirty : bool) (on_view_output : Z -> bool) (removed : output) (w : overlays)
    : overlays :=
  w ~> on_oq (remove_output dirty removed) ~> qdwin_output_boundary_transition on_view_output removed.

Definition overlay_output_created (o : output) : overlays -> overlays := on_oq (qdwin_on_output_changed o).
Definition overlay_output_resized (o : output) : overlays -> overlays := on_oq (qdwin_on_output_resized o).
