(* ===== verification/OverlaysFacts.v ===== *)
(** * OverlaysFacts: the loss of an output leaves nothing behind

    Runs of the overlays and the layer shell in which outputs come and go.  After
    an output is gone nothing of the modelled state refers to it, no grab that
    started on it is left, and the lock curtain fits what remains. *)

From stdpp Require Import base list gmap strings option.
From S2P Require Import Prelude Logic LogicFacts Scene Procfs State Toplevel ToplevelFacts Dependents Focus Config Lock LockFacts LockTheorems Desk Pointer LayerShell OutputBoundary PointerFacts LayerShellFacts OutputBoundaryFacts Overlays.
From stdpp Require Import list.
Import LayerBox Policy Geometry.
#[local] Open Scope Z_scope.


(** ** The transition and the layer shell *)





(** ** The overlays and the layer shell *)








(** ** What refers to an output *)

(** What placing an overlay keeps. *)
Record nframe (w w' : overlays) : Prop := mk_nframe {
  nf_base : oframe (base (od w)) (base (od w'));
  nf_surfs : lsurfs (od w') = lsurfs (od w);
  nf_popups : lpopups (od w') = lpopups (od w);
  nf_pointers : pointers (od w') = pointers (od w);
  nf_refs : (notes w', prev_output w', seat_output w') = (notes w, prev_output w, seat_output w)
}.
#[global] Instance nframe_preorder : PreOrder nframe.
Proof. split; [by intros w|]. intros w1 w2 w3 [] []. split; [by etransitivity|congruence..]. Qed.




Section Removed.
Context (removed : Z) (survivor : option output).
Hypothesis Hs : (out_id <$> survivor) ≠ Some removed.






End Removed.


(** ** Runs *)

(** The steps: the layer shell's, the overlays', outputs that come, change and
    go; streams and seats are bound to outputs at will. *)
Inductive overlay_op :=
| Layer (o : layer_op)
| AttachNotification (made alloc : bool) (r : wl_resource) (id : Z) (surface : option Z) (a offx offy : Z)
| NotificationDestroyed (r : Z)
| AttachBackground (made alloc : bool) (r : wl_resource) (id : Z) (surface : option Z)
| BackgroundDestroyed (r : Z)
| OverlayCommit (s wd ht : Z) | OverlayDestroyed (s : Z)
| OutputCreated (o : output) | OutputResized (o : output)
| OutputDestroyed (dirty : bool) (on_view_output : Z -> bool) (o : output)
| StreamOutputs (m : gmap Z Z) | SeatOutputs (m : gmap Z Z).

Definition overlay_step (w : overlays) (o : overlay_op) : overlays :=
  match o with
  | Layer o => on_od (fun d => layer_step d o) w
  | AttachNotification made alloc r id s a offx offy => qdwin_handle_attach_notification made alloc r id s a offx offy w
  | NotificationDestroyed r => qdwin_notification_resource_destroyed r w
  | AttachBackground made alloc r id s => qdwin_handle_attach_background made alloc r id s w
  | BackgroundDestroyed r => qdwin_background_resource_destroyed r w
  | OverlayCommit s wd ht => overlay_surface_commit s wd ht w
  | OverlayDestroyed s => overlay_surface_destroyed s w
  | OutputCreated o => overlay_output_created o w
  | OutputResized o => overlay_output_resized o w
  | OutputDestroyed dirty on_view_output o => output_destroyed dirty on_view_output o w
  | StreamOutputs m => w <| prev_output := m |>
  | SeatOutputs m => w <| seat_output := m |>
  end.
Definition overlay_run (ops : list overlay_op) (w : overlays) : overlays := foldl overlay_step w ops.






(** A panel with a grabbing popup and a notification on the primary output; a
    stream that returns to it and a seat bound to it. *)
Definition ob_start : overlays :=
  mk_overlays (ls_desk <| base ::= fun q => q <| outputs := [ex_output; ob_second] |> <| shell_bound := true |>
                                            <| shell_resource := Some ex_shell_res |> |>) [] [] None ∅ ∅ [].
Definition ob_ops : list overlay_op :=
  map Layer ls_ops
  ++ [AttachNotification true true ex_shell_res 90 (Some 80) 0 8 8; StreamOutputs {[7 := 1]}; SeatOutputs {[1 := 1]}].



(** The same, as values: everything is on the other output, and no notification
    is dismissed. *)
Example everything_moves :
  let w := output_destroyed true (fun _ => true) ex_output (overlay_run ob_ops ob_start) in
  oevents w = [] /\ map n_output (notes w) = [Some 2] /\ map l_out (lsurfs (od w)) = [Some 2]
  /\ map_to_list (prev_output w) = [(7, 2)] /\ map_to_list (seat_output w) = [].
Proof. vm_compute. by split_and!. Qed.

(** ** Surprises *)

(** The curtain that the shell's background replaced is in front of it again
    after the next change of an output. *)
Example curtain_covers_background :
  let w := overlay_run [OutputCreated ob_second; AttachBackground true true ex_shell_res 91 (Some 80)] ob_start in
  let w' := overlay_run [OutputResized ob_second] w in
  let bg w := (map b_view (bgs w), c_view <$> background (base (od w)), layer_views background_layer (the_scene (base (od w)))) in
  bg w = ([Some 93], Some 92, [93]) /\ bg w' = ([Some 93], Some 94, [94; 93]).
Proof. vm_compute. by split. Qed.


(** A locked session with a locker: the loss of an output ends the locker's
    keyboard grab and nothing starts it again, so the locker stops hearing
    keys while the session stays locked. *)
Definition ob_locked : desk :=
  ls_desk <| base ::= (fun q => (qdwin_overlay_grab_start 2 (q <| locked := true |>
                        <| locker_resource := Some (mk_resource 600 1 50) |>))
                        <| outputs := [ex_output; ob_second] |>) |>.
Definition keys_heard (d : desk) : bool :=
  existsb (fun e => match e with locker_overlay_key _ => true | _ => false end)
    (events (notify_key 1 ex_key (base d))).
Example output_loss_deafens_locker :
  let d := od (output_destroyed false (fun _ => false) ob_second (mk_overlays ob_locked [] [] None ∅ ∅ [])) in
  keys_heard ob_locked = true /\ keys_heard d = false
  /\ locked (base d) = true /\ locker_resource (base d) ≠ None.
Proof. vm_compute. by split_and!. Qed.

(** When the left of two outputs goes, libweston moves the other one into its
    place; the windows on it stay where they were, which is now outside. *)
Definition ob_two : desk :=
  ls_desk <| base ::= (fun q => q <| outputs := [ex_output; ob_second] |>
                                  <| view_pos ::= <[11 := (2500, 300)]> |>) |>.
Example left_output_loss_strands_windows :
  let q := base (od (output_destroyed false (fun _ => false) ex_output (mk_overlays ob_two [] [] None ∅ ∅ []))) in
  outputs q = [mk_output 2 0 0 1920 1080 false "DP-2"] /\ (view_x 11 q, view_y 11 q) = (2500, 300).
Proof. vm_compute. by split. Qed.
