(* ===== verification/Primary.v ===== *)
(** * Primary: the primary selection

    zwp-primary-selection of [qdwin.c]: one object per seat with its current
    source and the devices clients created, offers that are handed out at every
    change, and the silo gate on reading.  A device stays linked into the list
    it was put on; the object a seat leaves behind is kept here with the mark
    [ps_freed]. *)

From stdpp Require Import base list gmap strings option.
From S2P Require Import Prelude Logic State Clipboard Procfs Environ Secctx.
From stdpp Require Import list.
Import Policy.
#[local] Open Scope Z_scope.

Definition QDWIN_PRIMARY_MIME_MAX : nat := 256.

(** ** State *)

Record primary_source := mk_primary_source {
  s_res : Z; s_client : Z; s_pseat : option Z; mime_types : list string
}.
#[global] Instance eta_primary_source : Eta primary_source := fun r =>
  mk_primary_source (s_res r) (s_client r) (s_pseat r) (mime_types r).

(** [pd_list] is the seat object whose list the device is linked into. *)
Record primary_device := mk_primary_device {
  pd_res : Z; pd_client : Z; pd_pseat : option Z; pd_list : Z
}.
#[global] Instance eta_primary_device : Eta primary_device := fun r =>
  mk_primary_device (pd_res r) (pd_client r) (pd_pseat r) (pd_list r).

Record primary_offer := mk_primary_offer { o_res : Z; o_client : Z; o_source : option Z }.
#[global] Instance eta_primary_offer : Eta primary_offer := fun r =>
  mk_primary_offer (o_res r) (o_client r) (o_source r).

Record primary_seat := mk_primary_seat {
  ps_id : Z; ps_seat : Z; current_source : option Z; selection_serial : Z; ps_freed : bool
}.
#[global] Instance eta_primary_seat : Eta primary_seat := fun r =>
  mk_primary_seat (ps_id r) (ps_seat r) (current_source r) (selection_serial r) (ps_freed r).

Inductive pevent :=
| data_offer (device offer source : Z)
| offer_mime (offer : Z) (mime : string)
| device_selection (device : Z) (offer : option Z)
| source_cancelled (source : Z)
| source_data (source : Z) (mime : string) (fd : Z)    (* zwp_primary_selection_source_v1.send *)
| descriptor_closed (fd : Z)
| no_memory_error (client : Z)
| seat_use_after_free (ps : Z).

Record pstate := mk_pstate {
  primary_seats : list primary_seat; sources : list primary_source;
  devices : list primary_device; offers : list primary_offer;
  next_ps : Z; next_offer : Z; pevents : list pevent
}.
#[global] Instance eta_pstate : Eta pstate := fun r =>
  mk_pstate (primary_seats r) (sources r) (devices r) (offers r) (next_ps r) (next_offer r) (pevents r).

Definition pemit (e : pevent) (s : pstate) : pstate := s <| pevents ::= cons e |>.
Definition source_of (r : Z) (s : pstate) : option primary_source :=
  List.find (fun x => s_res x =? r) (sources s).
Definition device_of (r : Z) (s : pstate) : option primary_device :=
  List.find (fun x => pd_res x =? r) (devices s).
Definition offer_of (r : Z) (s : pstate) : option primary_offer :=
  List.find (fun x => o_res x =? r) (offers s).
Definition pseat_of (i : Z) (s : pstate) : option primary_seat :=
  List.find (fun x => ps_id x =? i) (primary_seats s).
Definition upd_psource (r : Z) (f : primary_source -> primary_source) (s : pstate) : pstate :=
  s <| sources ::= map (fun x => if s_res x =? r then f x else x) |>.
Definition upd_pseat (i : Z) (f : primary_seat -> primary_seat) (s : pstate) : pstate :=
  s <| primary_seats ::= map (fun x => if ps_id x =? i then f x else x) |>.

(** The devices on a seat object's list, newest first. *)
Definition devices_of (i : Z) (s : pstate) : list primary_device :=
  List.filter (fun x => pd_list x =? i) (devices s).

(** ** Seats *)

Definition qdwin_primary_seat_find (seat : Z) (s : pstate) : option primary_seat :=
  List.find (fun x => (ps_seat x =? seat) && negb (ps_freed x)) (primary_seats s).

(** [alloc] tells whether the allocation succeeds. *)
Definition qdwin_primary_seat_ensure (alloc : bool) (seat : Z) (s : pstate) : option Z * pstate :=
  match qdwin_primary_seat_find seat s with
  | Some p => (Some (ps_id p), s)
  | None =>
      if negb alloc then (None, s)
      else (Some (next_ps s),
            s <| primary_seats ::= cons (mk_primary_seat (next_ps s) seat None 0 false) |>
              <| next_ps ::= Z.succ |>)
  end.

Definition qdwin_primary_seat_has_source (p : primary_seat) : bool :=
  bool_decide (current_source p ≠ None).

(** ** Offers *)

(** Whether two clients are in the same silo: the same engine and application
    of their security contexts, or both without one. *)
Definition qdwin_primary_same_silo (x : secctx_state) (a b : Z) : bool :=
  if a =? b then true
  else match qdwin_secctx_client_find a x, qdwin_secctx_client_find b x with
  | None, None => true
  | Some sa, Some sb =>
      let ea := sc_engine (xc_tag sa) in let eb := sc_engine (xc_tag sb) in
      let aa := sc_app_id (xc_tag sa) in let ab := sc_app_id (xc_tag sb) in
      if String.eqb ea "" || String.eqb eb "" || String.eqb aa "" || String.eqb ab "" then false
      else String.eqb ea eb && String.eqb aa ab
  | _, _ => false
  end.

Definition qdwin_primary_offer_receive (x : secctx_state) (client r : Z) (mime : string) (fd : Z)
    (s : pstate) : pstate :=
  s ~> (fun s => match offer_of r s with
        | Some o => match o_source o with
            | Some src => match source_of src s with
                | Some z => if qdwin_primary_same_silo x (s_client z) client
                            then pemit (source_data src mime fd) s else s
                | None => s
                end
            | None => s
            end
        | None => s
        end)
    ~> pemit (descriptor_closed fd).

Definition qdwin_primary_offer_resource_destroy (r : Z) (s : pstate) : pstate :=
  s <| offers ::= List.filter (fun o => negb (o_res o =? r)) |>.

Definition qdwin_primary_build_offer_for_device (alloc : bool) (d : primary_device) (src : Z)
    (s : pstate) : option Z * pstate :=
  if negb alloc then (None, s)
  else
    let o := next_offer s in
    (Some o,
     s ~> (fun s => s <| offers ::= cons (mk_primary_offer o (pd_client d) (Some src)) |>
                      <| next_offer ::= Z.succ |>)
       ~> pemit (data_offer (pd_res d) o src)
       ~> (fun s => match source_of src s with
                    | Some z => foldl (fun s m => pemit (offer_mime o m) s) s (mime_types z)
                    | None => s
                    end)).

(** ** Sources *)

Definition qdwin_primary_source_clear_offers (src : Z) (s : pstate) : pstate :=
  s <| offers ::= map (fun o => if bool_decide (o_source o = Some src)
                                then o <| o_source := None |> else o) |>.

Definition qdwin_primary_source_offer (alloc : bool) (src : Z) (mime : option string) (s : pstate)
    : pstate :=
  match mime, source_of src s with
  | Some m, Some z =>
      if (QDWIN_MIME_TYPE_MAX <? String.length m)%nat then s
      else if (QDWIN_PRIMARY_MIME_MAX <=? length (mime_types z))%nat then s
      else if negb alloc then s
      else upd_psource src (fun z => z <| mime_types ::= fun l => l ++ [m] |>) s
  | _, _ => s
  end.

(** ** The selection of a seat *)

Definition announce_none (s : pstate) (d : primary_device) : pstate :=
  pemit (device_selection (pd_res d) None) s.

Definition qdwin_primary_seat_clear_selection (i : Z) (notify : bool) (s : pstate) : pstate :=
  match pseat_of i s with
  | None => s
  | Some p =>
      s ~> upd_pseat i (fun p => p <| current_source := None |>)
        ~> (fun s => match current_source p with
                     | Some src => s ~> (if notify then pemit (source_cancelled src) else (fun s => s))
                                     ~> upd_psource src (fun z => z <| s_pseat := None |>)
                     | None => s
                     end)
        ~> (fun s => foldl announce_none s (devices_of i s))
  end.

Definition qdwin_primary_source_resource_destroy (r : Z) (s : pstate) : pstate :=
  match source_of r s with
  | None => s
  | Some z =>
      s ~> (fun s => match s_pseat z with
                     | Some i => match pseat_of i s with
                         | Some p => if bool_decide (current_source p = Some r)
                                     then qdwin_primary_seat_clear_selection i false s else s
                         | None => s
                         end
                     | None => s
                     end)
        ~> qdwin_primary_source_clear_offers r
        ~> (fun s => s <| sources ::= List.filter (fun z => negb (s_res z =? r)) |>)
  end.

(** An offer for the device, or none when there is no memory; then the
    selection. *)
Definition announce (alloc : Z -> bool) (src : Z) (s : pstate) (d : primary_device) : pstate :=
  let '(o, s) := qdwin_primary_build_offer_for_device (alloc (pd_res d)) d src s in
  pemit (device_selection (pd_res d) o) s.

(** The selection is set.  The second component is the source when there is a
    new selection to tell the shell about. *)
Definition primary_set_selection (alloc : Z -> bool) (r : Z) (src : option Z) (serial : Z) (s : pstate)
    : pstate * option Z :=
  match device_of r s with
  | None => (s, None)
  | Some d =>
      match pd_pseat d with
      | None => (s, None)
      | Some i => match pseat_of i s with
          | None => (s, None)
          | Some p =>
              if qdwin_selection_serial_is_stale (selection_serial p) serial
                   (bool_decide (current_source p ≠ None)) then (s, None)
              else
                let elsewhere := match src with
                  | Some x => match source_of x s with
                      | Some z => bool_decide (s_pseat z ≠ None) && negb (bool_decide (s_pseat z = Some i))
                      | None => false
                      end
                  | None => false
                  end in
                if elsewhere then (s, None)
                else
                  let s := if (bool_decide (current_source p ≠ None)
                               && negb (bool_decide (current_source p = src)))
                              || bool_decide (src = None)
                           then qdwin_primary_seat_clear_selection i true s else s in
                  let s := upd_pseat i (fun p => p <| selection_serial := serial |>) s in
                  match src with
                  | None => (s, None)
                  | Some x =>
                      (s ~> upd_psource x (fun z => z <| s_pseat := Some i |>)
                         ~> upd_pseat i (fun p => p <| current_source := Some x |>)
                         ~> (fun s => foldl (announce alloc x) s (devices_of i s)),
                       Some x)
                  end
          end
      end
  end.

(** ** Devices *)

(** [wl_list_remove]: the neighbours are written, the list head among them
    when the device is the first or the last. *)
Definition qdwin_primary_device_resource_destroy (r : Z) (s : pstate) : pstate :=
  match device_of r s with
  | None => s
  | Some d =>
      s ~> (fun s => match pseat_of (pd_list d) s with
                     | Some p =>
                         let l := map pd_res (devices_of (pd_list d) s) in
                         if ps_freed p && (bool_decide (head l = Some r) || bool_decide (last l = Some r))
                         then pemit (seat_use_after_free (ps_id p)) s else s
                     | None => s
                     end)
        ~> (fun s => s <| devices ::= List.filter (fun d => negb (pd_res d =? r)) |>)
  end.

(** ** The manager *)

Definition qdwin_primary_manager_create_source (alloc : bool) (client id : Z) (s : pstate) : pstate :=
  if negb alloc then pemit (no_memory_error client) s
  else s <| sources ::= cons (mk_primary_source id client None []) |>.

(** [seat] is unknown when the seat's resource is inert; [a_seat] and [a_dev]
    tell whether the allocations succeed. *)
Definition qdwin_primary_manager_get_device (a_seat a_dev : bool) (alloc : Z -> bool) (client id : Z)
    (seat : option Z) (s : pstate) : pstate :=
  match seat with
  | None => pemit (no_memory_error client) s
  | Some st =>
      match qdwin_primary_seat_ensure a_seat st s with
      | (None, s) => pemit (no_memory_error client) s
      | (Some i, s) =>
          if negb a_dev then pemit (no_memory_error client) s
          else
            let d := mk_primary_device id client (Some i) i in
            let s := s <| devices ::= cons d |> in
            match pseat_of i s with
            | Some p => match current_source p with
                | Some x => announce alloc x s d
                | None => s
                end
            | None => s
            end
      end
  end.

Definition qdwin_primary_seat_seat_destroyed (seat : Z) (s : pstate) : pstate :=
  match qdwin_primary_seat_find seat s with
  | None => s
  | Some p =>
      s ~> (fun s => if qdwin_primary_seat_has_source p
                     then qdwin_primary_seat_clear_selection (ps_id p) true s else s)
        ~> (fun s => s <| devices ::= map (fun d => if pd_list d =? ps_id p
                                                    then d <| pd_pseat := None |> else d) |>)
        ~> upd_pseat (ps_id p) (fun p => p <| ps_freed := true |>)
  end.
