(* ===== verification/PrimaryFacts.v ===== *)
(** * PrimaryFacts: the primary selection refines an abstract register

    The clients of a seat see the primary selection only through what their
    devices were last told.  This file states the protocol as an abstract
    machine (who owns the selection of a seat, which seat a device belongs to,
    what it was last told, the serial of the last change) and proves that the
    lists, offers and back pointers of [Primary] implement it on every run. *)

From stdpp Require Import base list gmap strings option relations.
From S2P Require Import Prelude Logic State Clipboard Procfs Environ Secctx Primary.
From stdpp Require Import list.
Import Policy.
#[local] Open Scope Z_scope.

(** ** Requests and runs *)

(** [alloc] and the other flags tell which allocations succeed. *)
Inductive primary_op :=
| PCreateSource (alloc : bool) (client id : Z)
| PGetDevice (a_seat a_dev : bool) (alloc : Z -> bool) (client id : Z) (seat : option Z)
| PSetSelection (alloc : Z -> bool) (device : Z) (src : option Z) (serial : Z)
| PSourceOffer (alloc : bool) (src : Z) (mime : option string)
| PReceive (x : secctx_state) (client offer : Z) (mime : string) (fd : Z)
| PDestroyOffer (offer : Z)
| PDestroySource (src : Z)
| PDestroyDevice (device : Z)
| PClear (seat : Z)                       (* the clear the shell asks for *)
| PSeatGone (seat : Z).

Definition primary_step (op : primary_op) (s : pstate) : pstate :=
  match op with
  | PCreateSource alloc c id => qdwin_primary_manager_create_source alloc c id s
  | PGetDevice a1 a2 alloc c id seat => qdwin_primary_manager_get_device a1 a2 alloc c id seat s
  | PSetSelection alloc d src serial => (primary_set_selection alloc d src serial s).1
  | PSourceOffer alloc src mime => qdwin_primary_source_offer alloc src mime s
  | PReceive x c o mime fd => qdwin_primary_offer_receive x c o mime fd s
  | PDestroyOffer o => qdwin_primary_offer_resource_destroy o s
  | PDestroySource x => qdwin_primary_source_resource_destroy x s
  | PDestroyDevice d => qdwin_primary_device_resource_destroy d s
  | PClear seat => match qdwin_primary_seat_find seat s with
      | Some p => if qdwin_primary_seat_has_source p
                  then qdwin_primary_seat_clear_selection (ps_id p) true s else s
      | None => s
      end
  | PSeatGone seat => qdwin_primary_seat_seat_destroyed seat s
  end.

Definition primary_run (ops : list primary_op) (s : pstate) : pstate :=
  foldl (fun s op => primary_step op s) s ops.

Definition primary_init : pstate := mk_pstate [] [] [] [] 0 0 [].

(** Whether an event is addressed to a device. *)
Definition tells (d : Z) (e : pevent) : bool :=
  match e with device_selection d' _ => d' =? d | _ => false end.

(** A new object is a new one, and a request names live objects: what the
    protocol library guarantees. *)
Definition primary_valid (op : primary_op) (s : pstate) : bool :=
  match op with
  | PCreateSource _ _ id => negb (bool_decide (is_Some (source_of id s)))
  | PGetDevice _ _ _ _ id _ =>
      negb (bool_decide (is_Some (device_of id s))) && negb (existsb (tells id) (pevents s))
  | PSetSelection _ d (Some x) _ => bool_decide (is_Some (source_of x s))
  | _ => true
  end.

Fixpoint primary_valid_run (ops : list primary_op) (s : pstate) : bool :=
  match ops with
  | [] => true
  | op :: ops => primary_valid op s && primary_valid_run ops (primary_step op s)
  end.

(** ** The abstract machine *)

(** Per seat the owner and the serial of the last change; per device the seat
    and the source whose offer it was last told about. *)
Record selection := mk_selection {
  owner : Z -> option Z; member : Z -> option Z; told : Z -> option Z; serial_of : Z -> Z
}.

#[global] Instance selection_equiv : Equiv selection := fun a b =>
  (forall st, owner a st = owner b st) /\ (forall d, member a d = member b d)
  /\ (forall d, told a d = told b d) /\ (forall st, serial_of a st = serial_of b st).

#[global] Instance selection_equivalence : Equivalence (≡@{selection}).
Proof.
  split.
  - intros a. done.
  - intros a b (? & ? & ? & ?). repeat split; congruence.
  - intros a b c (? & ? & ? & ?) (? & ? & ? & ?). repeat split; congruence.
Qed.

Definition on (f : Z -> option Z) (k st : Z) : bool := bool_decide (f k = Some st).

(** The devices of a seat are told about [x], those for which there is no
    memory about nothing. *)
Definition sel_take (alloc : Z -> bool) (st x serial : Z) (a : selection) : selection :=
  {| owner := fun j => if j =? st then Some x else owner a j;
     member := member a;
     told := fun d => if on (member a) d st then (if alloc d then Some x else None) else told a d;
     serial_of := fun j => if j =? st then serial else serial_of a j |}.

Definition sel_drop (st : Z) (a : selection) : selection :=
  {| owner := fun j => if j =? st then None else owner a j;
     member := member a;
     told := fun d => if on (member a) d st then None else told a d;
     serial_of := serial_of a |}.

Definition with_serial (st serial : Z) (a : selection) : selection :=
  {| owner := owner a; member := member a; told := told a;
     serial_of := fun j => if j =? st then serial else serial_of a j |}.

Definition sel_join (alloc : Z -> bool) (d st : Z) (a : selection) : selection :=
  {| owner := owner a;
     member := fun k => if k =? d then Some st else member a k;
     told := fun k => if k =? d then (if alloc d then owner a st else None) else told a k;
     serial_of := serial_of a |}.

Definition sel_leave (d : Z) (a : selection) : selection :=
  {| owner := owner a;
     member := fun k => if k =? d then None else member a k;
     told := fun k => if k =? d then None else told a k;
     serial_of := serial_of a |}.

Definition sel_lose (st : Z) (a : selection) : selection :=
  {| owner := fun j => if j =? st then None else owner a j;
     member := fun k => if on (member a) k st then None else member a k;
     told := fun k => if on (member a) k st then None else told a k;
     serial_of := fun j => if j =? st then 0 else serial_of a j |}.

Definition stale (a : selection) (st serial : Z) : bool :=
  qdwin_selection_serial_is_stale (serial_of a st) serial (bool_decide (owner a st ≠ None)).

Inductive spec_step : primary_op -> selection -> selection -> Prop :=
| spec_set alloc d x serial st a a' :
    member a d = Some st -> stale a st serial = false ->
    (forall j, owner a j = Some x -> j = st) ->
    a' ≡ sel_take alloc st x serial a ->
    spec_step (PSetSelection alloc d (Some x) serial) a a'
| spec_unset alloc d serial st a a' :
    member a d = Some st -> stale a st serial = false ->
    a' ≡ with_serial st serial (sel_drop st a) ->
    spec_step (PSetSelection alloc d None serial) a a'
| spec_set_foreign alloc d src serial a a' :
    member a d = None -> a' ≡ a -> spec_step (PSetSelection alloc d src serial) a a'
| spec_set_stale alloc d src serial st a a' :
    member a d = Some st -> stale a st serial = true -> a' ≡ a ->
    spec_step (PSetSelection alloc d src serial) a a'
| spec_set_elsewhere alloc d x serial st j a a' :
    member a d = Some st -> owner a j = Some x -> j <> st -> a' ≡ a ->
    spec_step (PSetSelection alloc d (Some x) serial) a a'
| spec_join a_seat alloc c d st a a' :
    a' ≡ sel_join alloc d st a ->
    spec_step (PGetDevice a_seat true alloc c d (Some st)) a a'
| spec_join_refused a_seat a_dev alloc c d seat a a' :
    a_seat && a_dev = false \/ seat = None -> a' ≡ a ->
    spec_step (PGetDevice a_seat a_dev alloc c d seat) a a'
| spec_leave d a a' : a' ≡ sel_leave d a -> spec_step (PDestroyDevice d) a a'
| spec_source_dies x st a a' :
    owner a st = Some x -> a' ≡ sel_drop st a -> spec_step (PDestroySource x) a a'
| spec_source_idle x a a' :
    (forall st, owner a st <> Some x) -> a' ≡ a -> spec_step (PDestroySource x) a a'
| spec_clear st a a' :
    is_Some (owner a st) -> a' ≡ sel_drop st a -> spec_step (PClear st) a a'
| spec_clear_empty st a a' : owner a st = None -> a' ≡ a -> spec_step (PClear st) a a'
| spec_seat_gone st a a' : a' ≡ sel_lose st a -> spec_step (PSeatGone st) a a'
| spec_create alloc c id a a' : a' ≡ a -> spec_step (PCreateSource alloc c id) a a'
| spec_offer alloc x mime a a' : a' ≡ a -> spec_step (PSourceOffer alloc x mime) a a'
| spec_receive x c o mime fd a a' : a' ≡ a -> spec_step (PReceive x c o mime fd) a a'
| spec_destroy_offer o a a' : a' ≡ a -> spec_step (PDestroyOffer o) a a'.

Inductive spec_run : list primary_op -> selection -> selection -> Prop :=
| spec_run_nil a a' : a' ≡ a -> spec_run [] a a'
| spec_run_cons op ops a b c : spec_step op a b -> spec_run ops b c -> spec_run (op :: ops) a c.

(** ** What the machine promises *)

(** Every device was last told about the owner of its seat's selection, or
    about nothing. *)
Definition coherent (a : selection) : Prop :=
  forall d st, member a d = Some st -> told a d = owner a st \/ told a d = None.
Definition exact (a : selection) : Prop :=
  forall d st, member a d = Some st -> told a d = owner a st.
(** A source owns the selection of one seat at most. *)
Definition exclusive (a : selection) : Prop :=
  forall i j x, owner a i = Some x -> owner a j = Some x -> i = j.

(** Memory for every offer. *)
Definition ample (op : primary_op) : Prop :=
  match op with
  | PSetSelection alloc _ _ _ | PGetDevice _ _ alloc _ _ _ => forall d, alloc d = true
  | _ => True
  end.

#[global] Instance coherent_proper : Proper ((≡) ==> iff) coherent.
Proof.
  assert (W : forall a b, a ≡ b -> coherent a -> coherent b).
  { intros a b (Eo & Em & Et & _) H d st M. rewrite <-Et, <-Eo. apply H. by rewrite Em. }
  intros a b E. split; by apply W.
Qed.

#[global] Instance exact_proper : Proper ((≡) ==> iff) exact.
Proof.
  assert (W : forall a b, a ≡ b -> exact a -> exact b).
  { intros a b (Eo & Em & Et & _) H d st M. rewrite <-Et, <-Eo. apply H. by rewrite Em. }
  intros a b E. split; by apply W.
Qed.

#[global] Instance exclusive_proper : Proper ((≡) ==> iff) exclusive.
Proof.
  assert (W : forall a b, a ≡ b -> exclusive a -> exclusive b).
  { intros a b (Eo & _) H i j x. rewrite <-!Eo. apply H. }
  intros a b E. split; by apply W.
Qed.

Ltac spec_cases :=
  repeat (match goal with
  | H : context [?j =? ?i] |- _ => destruct (Z.eqb_spec j i); try subst
  | |- context [?j =? ?i] => destruct (Z.eqb_spec j i); try subst
  | H : context [bool_decide ?P] |- _ => destruct (bool_decide_reflect P)
  | |- context [bool_decide ?P] => destruct (bool_decide_reflect P)
  end; simpl in * ); simplify_eq; eauto; try congruence.

Lemma coherent_step op a a' : spec_step op a a' -> coherent a -> coherent a'.
Proof.
  intros St H. destruct St;
    match goal with E : _ ≡ _ |- _ => try (rewrite E; clear E) end; try done;
    intros k j M; simpl in *; unfold on in *; spec_cases.
  all: try (destruct (alloc _); eauto).
Qed.

Lemma exact_step op a a' : spec_step op a a' -> ample op -> exact a -> exact a'.
Proof.
  intros St A H. destruct St;
    match goal with E : _ ≡ _ |- _ => try (rewrite E; clear E) end; try done;
    intros k j M; simpl in *; unfold on in *; try rewrite A; spec_cases.
Qed.

Lemma exclusive_step op a a' : spec_step op a a' -> exclusive a -> exclusive a'.
Proof.
  intros St H. destruct St;
    match goal with E : _ ≡ _ |- _ => try (rewrite E; clear E) end; try done;
    intros i1 j1 y M1 M2; simpl in *; spec_cases.
  all: try (symmetry; eauto).
Qed.

(** ** What a device was last told *)

Fixpoint last_selection (d : Z) (evs : list pevent) : option (option Z) :=
  match evs with
  | [] => None
  | device_selection d' o :: evs => if d' =? d then Some o else last_selection d evs
  | _ :: evs => last_selection d evs
  end.

Fixpoint offer_origin (o : Z) (evs : list pevent) : option Z :=
  match evs with
  | [] => None
  | data_offer _ o' x :: evs => if o' =? o then Some x else offer_origin o evs
  | _ :: evs => offer_origin o evs
  end.

Definition last_told (d : Z) (evs : list pevent) : option Z :=
  match last_selection d evs with
  | Some (Some o) => offer_origin o evs
  | _ => None
  end.

(** The offers a log names are older than [n]. *)
Definition known_offer (n : Z) (e : pevent) : Prop :=
  match e with
  | data_offer _ o _ | device_selection _ (Some o) => o < n
  | _ => True
  end.

Definition plain (e : pevent) : bool :=
  match e with data_offer _ _ _ | device_selection _ _ => false | _ => true end.

Lemma last_told_plain d e evs : plain e = true -> last_told d (e :: evs) = last_told d evs.
Proof. by destruct e. Qed.

Lemma last_told_plain_app d l evs :
  Forall (fun e => plain e = true) l -> last_told d (l ++ evs) = last_told d evs.
Proof. induction 1; [done|]. simpl app. rewrite last_told_plain; done. Qed.

Lemma last_selection_known n d evs o :
  Forall (known_offer n) evs -> last_selection d evs = Some (Some o) -> o < n.
Proof.
  induction 1 as [|e evs K Ks IH]; [done|]. destruct e; simpl; eauto.
  destruct (Z.eqb_spec device d); [|eauto]. intros. by simplify_eq/=.
Qed.

Lemma last_told_new_offer n d d' x evs :
  Forall (known_offer n) evs -> last_told d (data_offer d' n x :: evs) = last_told d evs.
Proof.
  intros K. unfold last_told. simpl. destruct (last_selection d evs) as [[o|]|] eqn:E; try done.
  apply (last_selection_known n) in E; [|done]. destruct (Z.eqb_spec n o); [lia|done].
Qed.

Lemma last_told_selection d d' o evs :
  last_told d (device_selection d' o :: evs)
  = if d' =? d then match o with Some o => offer_origin o evs | None => None end else last_told d evs.
Proof. unfold last_told. simpl. by destruct (d' =? d), o. Qed.

Lemma offer_origin_plain_app o l evs :
  Forall (fun e => plain e = true) l -> offer_origin o (l ++ evs) = offer_origin o evs.
Proof. induction 1 as [|e l P _ IH]; [done|]. by destruct e. Qed.

Lemma untold d evs : existsb (tells d) evs = false -> last_told d evs = None.
Proof.
  intros H. unfold last_told. enough (E : last_selection d evs = None) by (by rewrite E).
  induction evs as [|e evs IH]; [done|]. simpl in H. apply orb_false_iff in H as [H1 H2].
  destruct e; simpl in *; eauto. rewrite H1. eauto.
Qed.

Lemma known_mono n m evs : n <= m -> Forall (known_offer n) evs -> Forall (known_offer m) evs.
Proof.
  intros L H. eapply Forall_impl; [exact H|]. intros [| ? | ? [o|] | | | | |]; simpl; lia.
Qed.

Lemma plain_known n l : Forall (fun e => plain e = true) l -> Forall (known_offer n) l.
Proof. intros H. eapply Forall_impl; [exact H|]. by intros []. Qed.

(** ** The invariant *)

Record pinv (s : pstate) : Prop := {
  pi_source : forall x z i, source_of x s = Some z -> s_pseat z = Some i ->
    exists p, pseat_of i s = Some p /\ current_source p = Some x;
  pi_owner : forall i p x, pseat_of i s = Some p -> current_source p = Some x ->
    ps_freed p = false /\ exists z, source_of x s = Some z /\ s_pseat z = Some i;
  pi_device : forall d v, device_of d s = Some v ->
    exists p, pseat_of (pd_list v) s = Some p
      /\ pd_pseat v = if ps_freed p then None else Some (pd_list v);
  pi_devices : NoDup (map pd_res (devices s));
  pi_offer : forall o f x, offer_of o s = Some f -> o_source f = Some x -> is_Some (source_of x s);
  pi_seats : NoDup (map ps_id (primary_seats s));
  pi_next : forall i p, pseat_of i s = Some p -> i < next_ps s;
  pi_live : forall i j p q, pseat_of i s = Some p -> pseat_of j s = Some q ->
    ps_freed p = false -> ps_freed q = false -> ps_seat p = ps_seat q -> i = j;
  pi_log : Forall (known_offer (next_offer s)) (pevents s)
}.

(** What the clients can observe of a state. *)
Definition seat_owner (s : pstate) (st : Z) : option Z :=
  match qdwin_primary_seat_find st s with Some p => current_source p | None => None end.
Definition seat_serial (s : pstate) (st : Z) : Z :=
  match qdwin_primary_seat_find st s with Some p => selection_serial p | None => 0 end.
Definition device_seat (s : pstate) (d : Z) : option Z :=
  match device_of d s with
  | Some v => match pd_pseat v with
      | Some i => ps_seat <$> pseat_of i s
      | None => None
      end
  | None => None
  end.

Definition observe (s : pstate) : selection :=
  {| owner := seat_owner s; member := device_seat s;
     told := fun d => match device_seat s d with Some _ => last_told d (pevents s) | None => None end;
     serial_of := seat_serial s |}.

Section facts.
Context (s : pstate) (I : pinv s).

Lemma pseat_key i p : pseat_of i s = Some p -> ps_id p = i.
Proof. intros H. by apply (find_key ps_id) in H as [? _]. Qed.
Lemma device_key d v : device_of d s = Some v -> pd_res v = d /\ v ∈ devices s.
Proof. apply (find_key pd_res). Qed.

Lemma seat_find_spec st p :
  qdwin_primary_seat_find st s = Some p
  <-> pseat_of (ps_id p) s = Some p /\ ps_freed p = false /\ ps_seat p = st.
Proof.
  unfold qdwin_primary_seat_find. split.
  - intros [H K]%List.find_some. apply andb_true_iff in K as [K1%Z.eqb_eq K2%negb_true_iff].
    split_and!; [|done..]. apply (find_unique ps_id); [apply I|by apply list_elem_of_In|done].
  - intros (H & F & <-). destruct (List.find _ _) as [q|] eqn:E.
    + pose proof E as E'. apply List.find_some in E' as [Q K].
      apply andb_true_iff in K as [K1%Z.eqb_eq K2%negb_true_iff].
      assert (Eq : pseat_of (ps_id q) s = Some q)
        by (apply (find_unique ps_id); [apply I|by apply list_elem_of_In|done]).
      assert (ps_id q = ps_id p) as X by (eapply (pi_live s I); eauto).
      rewrite X in Eq. congruence.
    + apply (find_key ps_id) in H as [_ H]. apply list_elem_of_In in H.
      eapply List.find_none in E; [|exact H]. simpl in E. by rewrite Z.eqb_refl, F in E.
Qed.

(** A device is a member of its seat exactly when the seat object is live. *)
Lemma device_seat_spec d st :
  device_seat s d = Some st
  <-> exists v p, device_of d s = Some v /\ pseat_of (pd_list v) s = Some p
        /\ ps_freed p = false /\ ps_seat p = st /\ pd_pseat v = Some (pd_list v).
Proof.
  unfold device_seat. split.
  - destruct (device_of d s) as [v|] eqn:E; [|done].
    destruct (pi_device s I _ _ E) as (p & P & L). rewrite L.
    destruct (ps_freed p) eqn:F; [done|]. rewrite P. intros ?. simplify_eq/=. by exists v, p.
  - intros (v & p & -> & P & F & <- & ->). by rewrite P.
Qed.

Lemma member_of_seat d st p :
  qdwin_primary_seat_find st s = Some p ->
  on (device_seat s) d st = bool_decide (d ∈ map pd_res (devices_of (ps_id p) s)).
Proof.
  intros Sf. apply seat_find_spec in Sf as (P & F & St). apply bool_decide_ext.
  rewrite device_seat_spec. split.
  - intros (v & q & V & Q & Fq & Sq & _).
    assert (pd_list v = ps_id p) as L by (eapply (pi_live s I); eauto; congruence).
    destruct (device_key _ _ V) as [<- Hv]. apply list_elem_of_In, in_map.
    apply List.filter_In. rewrite L, Z.eqb_refl. split; [by apply list_elem_of_In|done].
  - intros H. apply list_elem_of_In, in_map_iff in H as (v & <- & H).
    apply List.filter_In in H as [H L%Z.eqb_eq].
    assert (V : device_of (pd_res v) s = Some v)
      by (apply (find_unique pd_res); [apply I|by apply list_elem_of_In|done]).
    exists v, p. rewrite L. split_and!; try done.
    destruct (pi_device s I _ _ V) as (q & Q & E). rewrite L, P in Q. simplify_eq.
    by rewrite F, L in E.
Qed.

Lemma not_member_no_seat d st : qdwin_primary_seat_find st s = None -> device_seat s d <> Some st.
Proof.
  intros N H. apply device_seat_spec in H as (v & p & _ & P & F & St & _).
  enough (qdwin_primary_seat_find st s = Some p) by congruence.
  apply seat_find_spec. by rewrite (pseat_key _ _ P).
Qed.

Lemma device_pseat d v i :
  device_of d s = Some v -> pd_pseat v = Some i ->
  exists p, pseat_of i s = Some p /\ ps_freed p = false /\ pd_list v = i
    /\ qdwin_primary_seat_find (ps_seat p) s = Some p /\ device_seat s d = Some (ps_seat p).
Proof.
  intros V L. destruct (pi_device s I _ _ V) as (p & P & E). rewrite E in L.
  destruct (ps_freed p) eqn:F; [done|]. injection L as L. rewrite L in P. exists p. split_and!; try done.
  - apply seat_find_spec. by rewrite (pseat_key _ _ P).
  - apply device_seat_spec. exists v, p. by rewrite L in *.
Qed.
End facts.

(** ** Announcing *)

Lemma emit_all {A} (f : A -> pevent) l s :
  foldl (fun s x => pemit (f x) s) s l = s <| pevents ::= app (rev (map f l)) |>.
Proof.
  revert s. induction l as [|x l IH]; intros s; [by destruct s|]. simpl. rewrite IH.
  destruct s. simpl. unfold pemit, upd_field. simpl. f_equal. by rewrite <-app_assoc.
Qed.

Lemma plain_mimes o l : Forall (fun e => plain e = true) (rev (map (offer_mime o) l)).
Proof.
  apply Forall_forall. intros e H. apply list_elem_of_In, in_rev, in_map_iff in H as (? & <- & _). done.
Qed.

(** Only offers of [x], events and the offer counter change. *)
Record announced (alloc : Z -> bool) (x : Z) (l : list primary_device) (s s' : pstate) : Prop := {
  an_seats : primary_seats s' = primary_seats s;
  an_sources : sources s' = sources s;
  an_devices : devices s' = devices s;
  an_next : next_ps s' = next_ps s;
  an_offers : forall o f, offer_of o s' = Some f -> offer_of o s = Some f \/ o_source f = Some x;
  an_log : Forall (known_offer (next_offer s')) (pevents s');
  an_told : forall d, last_told d (pevents s')
    = if bool_decide (d ∈ map pd_res l) then (if alloc d then Some x else None)
      else last_told d (pevents s)
}.

Lemma announce_one alloc x d s :
  Forall (known_offer (next_offer s)) (pevents s) -> announced alloc x [d] s (announce alloc x s d).
Proof.
  intros K. unfold announce, qdwin_primary_build_offer_for_device.
  destruct (alloc (pd_res d)) eqn:E; simpl.
  - set (s1 := pemit (data_offer (pd_res d) (next_offer s) x)
                (s <| offers ::= cons (mk_primary_offer (next_offer s) (pd_client d) (Some x)) |>
                   <| next_offer ::= Z.succ |>)).
    assert (M : exists l, Forall (fun e => plain e = true) l /\
      match source_of x s1 with
      | Some z => foldl (fun s m => pemit (offer_mime (next_offer s1 - 1) m) s) s1 (mime_types z)
      | None => s1
      end = s1 <| pevents ::= app l |>).
    { destruct (source_of x s1) as [z|].
      - eexists. split; [|apply emit_all]. apply plain_mimes.
      - exists []. by destruct s1. }
    replace (next_offer s1 - 1) with (next_offer s) in M by (unfold s1; simpl; lia).
    destruct M as (l & Pl & ->). split; try reflexivity.
    + intros o f. unfold offer_of, pemit. simpl. destruct (_ =? o); [|by left].
      intros ?. simplify_eq. by right.
    + simpl. constructor; [simpl; lia|]. apply Forall_app. split; [by apply plain_known|].
      constructor; [simpl; lia|]. eapply known_mono; [|exact K]. lia.
    + intros k. unfold pemit. simpl. rewrite last_told_selection, offer_origin_plain_app by done.
      rewrite last_told_plain_app, last_told_new_offer by done. simpl. rewrite Z.eqb_refl.
      destruct (Z.eqb_spec (pd_res d) k) as [<-|N].
      * rewrite bool_decide_true by set_solver. by rewrite E.
      * by rewrite bool_decide_false by set_solver.
  - split; try reflexivity.
    + intros o f H. by left.
    + unfold pemit. simpl. by constructor.
    + intros k. unfold pemit. simpl. rewrite last_told_selection.
      destruct (Z.eqb_spec (pd_res d) k) as [<-|N].
      * rewrite bool_decide_true by set_solver. by rewrite E.
      * by rewrite bool_decide_false by set_solver.
Qed.

Lemma primary_announce_all alloc x l s :
  Forall (known_offer (next_offer s)) (pevents s) ->
  announced alloc x l s (foldl (announce alloc x) s l).
Proof.
  revert s. induction l as [|d l IH]; intros s K.
  - split; try done. by left.
  - simpl. destruct (announce_one alloc x d s K) as [A1 A2 A3 A4 A5 A6 A7].
    destruct (IH _ A6) as [B1 B2 B3 B4 B5 B6 B7]. split; try congruence.
    + intros o f [H|H]%B5; [|by right]. by apply A5.
    + intros k. rewrite B7, A7. simpl.
      destruct (bool_decide_reflect (k ∈ map pd_res l)).
      * by rewrite (bool_decide_true (k ∈ _ :: _)) by set_solver.
      * apply (f_equal (fun b : bool => if b then _ else _)). apply bool_decide_ext. set_solver.
Qed.

(** ** Clearing the selection *)

Lemma pseat_of_upd j i f s :
  (forall p, ps_id (f p) = ps_id p) ->
  pseat_of j (upd_pseat i f s) = if j =? i then option_map f (pseat_of j s) else pseat_of j s.
Proof. intros K. apply (find_upd_key ps_id f j i (primary_seats s) K). Qed.

Lemma source_of_upd x y f s :
  (forall z, s_res (f z) = s_res z) ->
  source_of x (upd_psource y f s) = if x =? y then option_map f (source_of x s) else source_of x s.
Proof. intros K. apply (find_upd_key s_res f x y (sources s) K). Qed.

Lemma seat_find_upd st i f s :
  (forall p, ps_seat (f p) = ps_seat p) -> (forall p, ps_freed (f p) = ps_freed p) ->
  qdwin_primary_seat_find st (upd_pseat i f s)
  = option_map (fun p => if ps_id p =? i then f p else p) (qdwin_primary_seat_find st s).
Proof.
  intros K1 K2. unfold qdwin_primary_seat_find, upd_pseat. cbn [primary_seats upd_field].
  apply (find_map_pred _ (fun p => if ps_id p =? i then f p else p)).
  intros p. destruct (ps_id p =? i); [|done]. by rewrite K1, K2.
Qed.

Lemma ids_upd i f s :
  (forall p, ps_id (f p) = ps_id p) ->
  map ps_id (primary_seats (upd_pseat i f s)) = map ps_id (primary_seats s).
Proof. intros K. apply (map_key_upd ps_id). intros p. by destruct (ps_id p =? i). Qed.

Record cleared (i : Z) (p : primary_seat) (s s' : pstate) : Prop := {
  cl_pseat : forall j, pseat_of j s'
    = if j =? i then option_map (fun p => p <| current_source := None |>) (pseat_of j s)
      else pseat_of j s;
  cl_find : forall st, qdwin_primary_seat_find st s'
    = option_map (fun p => if ps_id p =? i then p <| current_source := None |> else p)
        (qdwin_primary_seat_find st s);
  cl_ids : map ps_id (primary_seats s') = map ps_id (primary_seats s);
  cl_source : forall x, source_of x s'
    = if bool_decide (current_source p = Some x)
      then option_map (fun z => z <| s_pseat := None |>) (source_of x s) else source_of x s;
  cl_devices : devices s' = devices s;
  cl_offers : offers s' = offers s;
  cl_next : next_ps s' = next_ps s;
  cl_log : Forall (known_offer (next_offer s)) (pevents s) ->
           Forall (known_offer (next_offer s')) (pevents s');
  cl_told : forall d, last_told d (pevents s')
    = if bool_decide (d ∈ map pd_res (devices_of i s)) then None else last_told d (pevents s)
}.

Lemma told_nothing d l evs :
  last_told d (rev (map (fun v => device_selection (pd_res v) None) l) ++ evs)
  = if bool_decide (d ∈ map pd_res l) then None else last_told d evs.
Proof.
  rewrite <-map_rev.
  replace (bool_decide (d ∈ map pd_res l)) with (bool_decide (d ∈ map pd_res (rev l))).
  2:{ apply bool_decide_ext. rewrite !list_elem_of_In, !in_map_iff. by setoid_rewrite <-in_rev. }
  induction (rev l) as [|v k IH]; [done|]. simpl. rewrite last_told_selection, IH.
  destruct (Z.eqb_spec (pd_res v) d) as [<-|N].
  - by rewrite bool_decide_true by set_solver.
  - apply (f_equal (fun b : bool => if b then _ else _)). apply bool_decide_ext. set_solver.
Qed.

Lemma known_nothing n (l : list primary_device) :
  Forall (known_offer n) (rev (map (fun v => device_selection (pd_res v) None) l)).
Proof.
  apply Forall_forall. intros e H. by apply list_elem_of_In, in_rev, in_map_iff in H as (? & <- & _).
Qed.

Lemma clear_spec i n p s :
  pseat_of i s = Some p -> cleared i p s (qdwin_primary_seat_clear_selection i n s).
Proof.
  intros P. unfold qdwin_primary_seat_clear_selection. rewrite P. unfold announce_none.
  rewrite emit_all.
  destruct (current_source p) as [x|] eqn:C; [destruct n|]; split; try reflexivity;
    try (intros j; by apply pseat_of_upd); try (intros st; by apply seat_find_upd);
    try (by apply (ids_upd i)).
  all: try (intros y; etrans; [apply (source_of_upd y x); done|]).
  all: try (intros y; by rewrite bool_decide_false by congruence).
  all: try (rewrite ?C; destruct (Z.eqb_spec y x) as [->|];
            [by rewrite bool_decide_true|by rewrite bool_decide_false by congruence]).
  all: try (intros K; apply Forall_app; split; [apply known_nothing|];
            first [exact K|constructor; [done|exact K]]).
  all: intros d; etrans; [apply told_nothing|]; done.
Qed.

Lemma device_of_eq s s' : devices s' = devices s -> forall d, device_of d s' = device_of d s.
Proof. intros E d. unfold device_of. by rewrite E. Qed.
Lemma devices_of_eq s s' : devices s' = devices s -> forall i, devices_of i s' = devices_of i s.
Proof. intros E i. unfold devices_of. by rewrite E. Qed.
Lemma offer_of_eq s s' : offers s' = offers s -> forall o, offer_of o s' = offer_of o s.
Proof. intros E o. unfold offer_of. by rewrite E. Qed.

(** A seat object keeps its seat and its mark. *)
Definition seats_kept (s s' : pstate) : Prop :=
  forall j, match pseat_of j s, pseat_of j s' with
            | Some p, Some q => ps_seat q = ps_seat p /\ ps_freed q = ps_freed p
            | None, None => True
            | _, _ => False
            end.

Lemma kept_device s s' :
  seats_kept s s' -> devices s' = devices s -> forall d, device_seat s' d = device_seat s d.
Proof.
  intros K D d. unfold device_seat. rewrite (device_of_eq _ _ D).
  destruct (device_of d s) as [v|]; [|done]. destruct (pd_pseat v) as [i|]; [|done].
  specialize (K i). destruct (pseat_of i s), (pseat_of i s'); try done.
  simpl. by destruct K as [-> _].
Qed.

(** The parts of the invariant about seats and devices. *)
Lemma kept_back s s' j q :
  seats_kept s s' -> pseat_of j s' = Some q ->
  exists p, pseat_of j s = Some p /\ ps_seat q = ps_seat p /\ ps_freed q = ps_freed p.
Proof. intros K Q. specialize (K j). rewrite Q in K. destruct (pseat_of j s); [eauto|done]. Qed.

Lemma kept_forth s s' j p :
  seats_kept s s' -> pseat_of j s = Some p ->
  exists q, pseat_of j s' = Some q /\ ps_seat q = ps_seat p /\ ps_freed q = ps_freed p.
Proof. intros K Q. specialize (K j). rewrite Q in K. destruct (pseat_of j s'); [eauto|done]. Qed.

Lemma kept_pinv s s' :
  pinv s -> seats_kept s s' -> devices s' = devices s -> next_ps s' = next_ps s ->
  map ps_id (primary_seats s') = map ps_id (primary_seats s) ->
  (forall x z i, source_of x s' = Some z -> s_pseat z = Some i ->
    exists p, pseat_of i s' = Some p /\ current_source p = Some x) ->
  (forall i p x, pseat_of i s' = Some p -> current_source p = Some x ->
    ps_freed p = false /\ exists z, source_of x s' = Some z /\ s_pseat z = Some i) ->
  (forall o f x, offer_of o s' = Some f -> o_source f = Some x -> is_Some (source_of x s')) ->
  Forall (known_offer (next_offer s')) (pevents s') ->
  pinv s'.
Proof.
  intros I K D Nx Ids H1 H2 H3 H4. split; try done.
  - intros d v. rewrite (device_of_eq _ _ D). intros V.
    destruct (pi_device s I _ _ V) as (p & P & L).
    destruct (kept_forth _ _ _ _ K P) as (q & Q & _ & F). exists q. by rewrite F.
  - rewrite D. apply I.
  - rewrite Ids. apply I.
  - intros i q Q. rewrite Nx. destruct (kept_back _ _ _ _ K Q) as (p & P & _). by eapply (pi_next s I).
  - intros i j p q P Q Fp Fq E.
    destruct (kept_back _ _ _ _ K P) as (p' & P' & S1 & F1).
    destruct (kept_back _ _ _ _ K Q) as (q' & Q' & S2 & F2).
    eapply (pi_live s I i j); eauto; congruence.
Qed.

Section clearing.
Context (s s' : pstate) (i : Z) (p : primary_seat).
Context (I : pinv s) (P : pseat_of i s = Some p) (C : cleared i p s s').

Lemma cleared_kept : seats_kept s s'.
Proof.
  intros j. rewrite (cl_pseat _ _ _ _ C). destruct (pseat_of j s), (j =? i); done.
Qed.

Lemma pinv_cleared : pinv s'.
Proof.
  apply (kept_pinv s); try apply C; try done; [apply cleared_kept|..|apply I].
  - intros x z j. rewrite (cl_source _ _ _ _ C), (cl_pseat _ _ _ _ C). case_bool_decide as E.
    { destruct (source_of x s); [|done]. intros ??. simplify_eq/=. }
    intros Z1 Z2. destruct (pi_source s I _ _ _ Z1 Z2) as (q & Q & X).
    destruct (Z.eqb_spec j i) as [->|]; [congruence|eauto].
  - intros j q x. rewrite (cl_source _ _ _ _ C), (cl_pseat _ _ _ _ C).
    destruct (Z.eqb_spec j i) as [->|N].
    { rewrite P. intros ??. simplify_eq/=. }
    intros Q X. destruct (pi_owner s I _ _ _ Q X) as (F & z & Z1 & Z2). split; [done|].
    rewrite bool_decide_false; [eauto|]. intros E.
    destruct (pi_owner s I _ _ _ P E) as (_ & z' & Z3 & Z4). congruence.
  - intros o f x. rewrite (offer_of_eq _ _ (cl_offers _ _ _ _ C)). intros O1 O2.
    rewrite (cl_source _ _ _ _ C). destruct (pi_offer s I _ _ _ O1 O2) as [z ->].
    by case_bool_decide.
Qed.

Lemma observe_cleared st :
  qdwin_primary_seat_find st s = Some p -> observe s' ≡ sel_drop st (observe s).
Proof.
  intros F. pose proof (pseat_key _ _ _ P) as Ki. split_and!.
  - intros j. simpl. unfold seat_owner. rewrite (cl_find _ _ _ _ C).
    destruct (Z.eqb_spec j st) as [->|N].
    + rewrite F. simpl. by rewrite Ki, Z.eqb_refl.
    + destruct (qdwin_primary_seat_find j s) as [q|] eqn:Q; [|done]. simpl.
      destruct (Z.eqb_spec (ps_id q) i) as [E|]; [|done].
      apply seat_find_spec in Q as (Q1 & _ & Q2), F as (_ & _ & F2); [|done..]. congruence.
  - apply kept_device; [apply cleared_kept|apply C].
  - intros d. simpl. rewrite (kept_device s s') by (apply cleared_kept || apply C).
    rewrite (cl_told _ _ _ _ C), (member_of_seat s I d st p F), Ki.
    destruct (device_seat s d); by case_bool_decide.
  - intros j. simpl. unfold seat_serial. rewrite (cl_find _ _ _ _ C).
    destruct (qdwin_primary_seat_find j s) as [q|]; [|done]. simpl. by destruct (ps_id q =? i).
Qed.
End clearing.

(** ** Setting the selection *)

Definition taken_by (x serial : Z) (p : primary_seat) : primary_seat :=
  p <| selection_serial := serial |> <| current_source := Some x |>.

Definition choose (alloc : Z -> bool) (i x serial : Z) (s : pstate) : pstate :=
  s ~> upd_pseat i (fun p => p <| selection_serial := serial |>)
    ~> upd_psource x (fun z => z <| s_pseat := Some i |>)
    ~> upd_pseat i (fun p => p <| current_source := Some x |>)
    ~> (fun s => foldl (announce alloc x) s (devices_of i s)).

Section choosing.
Context (s : pstate) (alloc : Z -> bool) (i x serial : Z) (p : primary_seat) (z : primary_source).
Context (I : pinv s) (P : pseat_of i s = Some p) (Lv : ps_freed p = false).
Context (Cp : current_source p = None \/ current_source p = Some x).
Context (Sz : source_of x s = Some z) (Ez : s_pseat z = None \/ s_pseat z = Some i).
Notation s' := (choose alloc i x serial s).

Definition unannounced : pstate :=
  s ~> upd_pseat i (fun p => p <| selection_serial := serial |>)
    ~> upd_psource x (fun z => z <| s_pseat := Some i |>)
    ~> upd_pseat i (fun p => p <| current_source := Some x |>).

Lemma chosen_announced : announced alloc x (devices_of i s) unannounced s'.
Proof. unfold choose. apply primary_announce_all. apply I. Qed.

Lemma ch_pseat j :
  pseat_of j s' = if j =? i then option_map (taken_by x serial) (pseat_of j s) else pseat_of j s.
Proof.
  unfold pseat_of at 1. rewrite (an_seats _ _ _ _ _ chosen_announced). unfold unannounced.
  etrans; [apply pseat_of_upd; done|].
  change (pseat_of j (upd_psource x _ ?s)) with (pseat_of j s).
  rewrite pseat_of_upd by done. destruct (j =? i); [|done]. by destruct (pseat_of j s).
Qed.

Lemma ch_source y :
  source_of y s' = if y =? x then option_map (fun z => z <| s_pseat := Some i |>) (source_of y s)
                   else source_of y s.
Proof.
  unfold source_of at 1. rewrite (an_sources _ _ _ _ _ chosen_announced).
  change (List.find _ (sources unannounced)) with (source_of y unannounced). unfold unannounced.
  change (source_of y (upd_pseat _ _ ?s)) with (source_of y s).
  rewrite source_of_upd by done. done.
Qed.

Lemma ch_find st :
  qdwin_primary_seat_find st s'
  = option_map (fun p => if ps_id p =? i then taken_by x serial p else p) (qdwin_primary_seat_find st s).
Proof.
  unfold qdwin_primary_seat_find at 1. rewrite (an_seats _ _ _ _ _ chosen_announced). unfold unannounced.
  etrans; [apply seat_find_upd; done|].
  change (qdwin_primary_seat_find st (upd_psource x _ ?s)) with (qdwin_primary_seat_find st s).
  rewrite seat_find_upd by done. destruct (qdwin_primary_seat_find st s) as [q|]; [|done]. simpl.
  f_equal. destruct (ps_id q =? i) eqn:E; [|by rewrite E]. simpl. by rewrite E.
Qed.

Lemma chosen_kept : seats_kept s s'.
Proof. intros j. rewrite ch_pseat. by destruct (pseat_of j s), (j =? i). Qed.

Lemma chosen_ids : map ps_id (primary_seats s') = map ps_id (primary_seats s).
Proof.
  rewrite (an_seats _ _ _ _ _ chosen_announced). unfold unannounced.
  rewrite ids_upd by done. change (primary_seats (upd_psource x _ ?s)) with (primary_seats s).
  by apply ids_upd.
Qed.

Lemma pinv_chosen : pinv s'.
Proof.
  apply (kept_pinv s); try apply chosen_announced; try done; try apply chosen_kept; try apply chosen_ids.
  - intros y w j. rewrite ch_source, ch_pseat. destruct (Z.eqb_spec y x) as [->|Ny].
    + rewrite Sz. intros ??. simplify_eq/=. rewrite Z.eqb_refl, P. by eexists.
    + intros Y1 Y2. destruct (pi_source s I _ _ _ Y1 Y2) as (q & Q & X).
      destruct (Z.eqb_spec j i) as [->|]; [|eauto]. destruct Cp; congruence.
  - intros j q y. rewrite ch_source, ch_pseat. destruct (Z.eqb_spec j i) as [->|Nj].
    + rewrite P. intros Q Y. simplify_eq/=. split; [done|]. rewrite Z.eqb_refl, Sz. by eexists.
    + intros Q Y. destruct (pi_owner s I _ _ _ Q Y) as (F & w & W1 & W2). split; [done|].
      destruct (Z.eqb_spec y x) as [->|]; [|eauto]. destruct Ez; congruence.
  - intros o f y O1 O2. rewrite ch_source.
    destruct (an_offers _ _ _ _ _ chosen_announced _ _ O1) as [O|O].
    + destruct (pi_offer s I _ _ _ O O2) as [w ->]. by destruct (y =? x).
    + rewrite O in O2. simplify_eq. by rewrite Z.eqb_refl, Sz.
Qed.

Lemma observe_chosen st :
  qdwin_primary_seat_find st s = Some p -> observe s' ≡ sel_take alloc st x serial (observe s).
Proof.
  intros F. pose proof (pseat_key _ _ _ P) as Ki.
  assert (D : devices s' = devices s) by apply chosen_announced.
  assert (O : forall j, j <> st -> option_map (fun p => if ps_id p =? i then taken_by x serial p else p)
                (qdwin_primary_seat_find j s) = qdwin_primary_seat_find j s).
  { intros j N. destruct (qdwin_primary_seat_find j s) as [q|] eqn:Q; [|done]. simpl.
    destruct (Z.eqb_spec (ps_id q) i) as [E|]; [|done].
    apply seat_find_spec in Q as (Q1 & _ & Q2), F as (_ & _ & F2); [|done..]. congruence. }
  split_and!.
  - intros j. simpl. unfold seat_owner. rewrite ch_find.
    destruct (Z.eqb_spec j st) as [->|N]; [|by rewrite O].
    rewrite F. simpl. by rewrite Ki, Z.eqb_refl.
  - by apply kept_device; [apply chosen_kept|].
  - intros d. simpl. rewrite (kept_device s s') by (exact D || apply chosen_kept).
    rewrite (an_told _ _ _ _ _ chosen_announced), (member_of_seat s I d st p F), Ki.
    destruct (device_seat s d) eqn:E; [done|]. case_bool_decide as M; [|done].
    rewrite <-Ki in M. pose proof (member_of_seat s I d st p F) as X. rewrite bool_decide_true in X by done.
    unfold on in X. rewrite E in X. by apply bool_decide_eq_true in X.
  - intros j. simpl. unfold seat_serial. rewrite ch_find.
    destruct (Z.eqb_spec j st) as [->|N]; [|by rewrite O].
    rewrite F. simpl. by rewrite Ki, Z.eqb_refl.
Qed.
End choosing.

#[global] Instance take_proper alloc st x serial : Proper ((≡) ==> (≡)) (sel_take alloc st x serial).
Proof.
  intros a b (Eo & Em & Et & Es). split_and!; simpl; intros k; unfold on;
    rewrite ?Eo, ?Em, ?Et, ?Es; done.
Qed.
#[global] Instance with_serial_proper st serial : Proper ((≡) ==> (≡)) (with_serial st serial).
Proof.
  intros a b (Eo & Em & Et & Es). split_and!; simpl; intros k; rewrite ?Eo, ?Em, ?Et, ?Es; done.
Qed.

Lemma sel_take_drop alloc st x serial a : sel_take alloc st x serial (sel_drop st a) ≡ sel_take alloc st x serial a.
Proof. split_and!; simpl; intros k; try done; [by destruct (k =? st)|]. by destruct (on (member a) k st). Qed.

(** ** The request to set the selection *)

Lemma pinv_serial s i n : pinv s -> pinv (upd_pseat i (fun p => p <| selection_serial := n |>) s).
Proof.
  intros I. set (f := fun p : primary_seat => p <| selection_serial := n |>).
  assert (P : forall j, pseat_of j (upd_pseat i f s)
    = if j =? i then option_map f (pseat_of j s) else pseat_of j s) by (intros; by apply pseat_of_upd).
  apply (kept_pinv s); try done; [|by apply ids_upd|..|apply I].
  - intros j. rewrite P. by destruct (pseat_of j s), (j =? i).
  - intros x z j Z1 Z2. rewrite P. destruct (pi_source s I _ _ _ Z1 Z2) as (p & -> & C).
    destruct (j =? i); simpl; eauto.
  - intros j q x. rewrite P. intros Q C.
    assert (exists p, pseat_of j s = Some p /\ current_source p = Some x /\ ps_freed q = ps_freed p)
      as (p & P' & C' & ->) by (destruct (pseat_of j s), (j =? i); naive_solver).
    exact (pi_owner s I _ _ _ P' C').
  - apply (pi_offer s I).
Qed.

Lemma observe_serial s i n p st :
  pinv s -> pseat_of i s = Some p -> qdwin_primary_seat_find st s = Some p ->
  observe (upd_pseat i (fun p => p <| selection_serial := n |>) s) ≡ with_serial st n (observe s).
Proof.
  intros I P F. pose proof (pseat_key _ _ _ P) as Ki.
  assert (D : forall d, device_seat (upd_pseat i (fun p => p <| selection_serial := n |>) s) d
                        = device_seat s d).
  { apply kept_device; [|done]. intros j. rewrite pseat_of_upd by done.
    by destruct (pseat_of j s), (j =? i). }
  split_and!; try (apply D).
  - intros j. simpl. unfold seat_owner. rewrite seat_find_upd by done.
    destruct (qdwin_primary_seat_find j s) as [q|]; [|done]. simpl. by destruct (ps_id q =? i).
  - intros d. simpl. by rewrite D.
  - intros j. simpl. unfold seat_serial. rewrite seat_find_upd by done.
    destruct (Z.eqb_spec j st) as [->|N]; [by rewrite F; simpl; rewrite Ki, Z.eqb_refl|].
    destruct (qdwin_primary_seat_find j s) as [q|] eqn:Q; [|done]. simpl.
    destruct (Z.eqb_spec (ps_id q) i) as [E|]; [|done].
    apply seat_find_spec in Q as (Q1 & _ & Q2), F as (_ & _ & F2); [|done..]. congruence.
Qed.

(** The seat a source is bound to is the one it owns. *)
Lemma bound_owns s x z j :
  pinv s -> source_of x s = Some z -> s_pseat z = Some j ->
  exists q, pseat_of j s = Some q /\ qdwin_primary_seat_find (ps_seat q) s = Some q
    /\ seat_owner s (ps_seat q) = Some x.
Proof.
  intros I Z1 Z2. destruct (pi_source s I _ _ _ Z1 Z2) as (q & Q & C).
  destruct (pi_owner s I _ _ _ Q C) as (F & _).
  assert (S : qdwin_primary_seat_find (ps_seat q) s = Some q)
    by (apply seat_find_spec; [done|by rewrite (pseat_key _ _ _ Q)]).
  exists q. split_and!; try done. unfold seat_owner. by rewrite S.
Qed.

Lemma owner_bound s st x :
  pinv s -> seat_owner s st = Some x ->
  exists q z, qdwin_primary_seat_find st s = Some q /\ pseat_of (ps_id q) s = Some q
    /\ source_of x s = Some z /\ s_pseat z = Some (ps_id q).
Proof.
  intros I O. unfold seat_owner in O. destruct (qdwin_primary_seat_find st s) as [q|] eqn:Q; [|done].
  pose proof Q as Q'. apply seat_find_spec in Q' as (P & _ & _); [|done].
  destruct (pi_owner s I _ _ _ P O) as (_ & z & Z1 & Z2). eauto 10.
Qed.

Lemma not_elsewhere s x z i p st :
  pinv s -> source_of x s = Some z -> pseat_of i s = Some p -> qdwin_primary_seat_find st s = Some p ->
  s_pseat z = None \/ s_pseat z = Some i -> forall j, seat_owner s j = Some x -> j = st.
Proof.
  intros I Z1 P F B j O. destruct (owner_bound _ _ _ I O) as (q & w & Q1 & Q2 & W1 & W2).
  rewrite Z1 in W1. injection W1 as <-. assert (i = ps_id q) as -> by (destruct B; congruence).
  rewrite P in Q2. injection Q2 as <-.
  apply seat_find_spec in Q1 as (_ & _ & Q1), F as (_ & _ & F); [|done..]. congruence.
Qed.

(** The previous owner loses the selection unless it is set again. *)
Definition make_way (i : Z) (p : primary_seat) (src : option Z) (s : pstate) : pstate :=
  if (bool_decide (current_source p ≠ None) && negb (bool_decide (current_source p = src)))
     || bool_decide (src = None)
  then qdwin_primary_seat_clear_selection i true s else s.

Lemma make_way_spec i p src s st :
  pinv s -> pseat_of i s = Some p -> qdwin_primary_seat_find st s = Some p ->
  let s1 := make_way i p src s in
  pinv s1 /\ (exists p1, pseat_of i s1 = Some p1 /\ qdwin_primary_seat_find st s1 = Some p1
              /\ (current_source p1 = None \/ current_source p1 = src))
  /\ (observe s1 ≡ sel_drop st (observe s) \/ (src <> None /\ s1 = s))
  /\ (forall x z, src = Some x -> source_of x s = Some z ->
        s_pseat z = None \/ s_pseat z = Some i ->
        exists z1, source_of x s1 = Some z1 /\ (s_pseat z1 = None \/ s_pseat z1 = Some i)).
Proof.
  intros I P F. unfold make_way. destruct (_ || _) eqn:G; cbv zeta.
  - pose proof (clear_spec i true p s P) as C. split_and!.
    + by eapply pinv_cleared.
    + exists (p <| current_source := None |>). rewrite (cl_pseat _ _ _ _ C), (cl_find _ _ _ _ C).
      rewrite Z.eqb_refl, P, F. simpl. rewrite (pseat_key _ _ _ P), Z.eqb_refl. split_and!; [done..|].
      by left.
    + left. by eapply observe_cleared.
    + intros x z -> Z1 Z2. rewrite (cl_source _ _ _ _ C), Z1.
      destruct (bool_decide (current_source p = Some x)); [eexists; split; [reflexivity|by left]|by exists z].
  - apply orb_false_iff in G as [G1 G2%bool_decide_eq_false]. split_and!; try done; eauto.
    exists p. split_and!; try done. apply andb_false_iff in G1 as [G1|G1].
    + left. apply bool_decide_eq_false in G1. by apply dec_stable in G1.
    + right. apply negb_false_iff in G1. by apply bool_decide_eq_true in G1.
Qed.

Lemma step_set alloc d src serial s :
  pinv s -> primary_valid (PSetSelection alloc d src serial) s = true ->
  let s' := (primary_set_selection alloc d src serial s).1 in
  pinv s' /\ spec_step (PSetSelection alloc d src serial) (observe s) (observe s').
Proof.
  intros I V. unfold primary_set_selection.
  destruct (device_of d s) as [v|] eqn:D.
  2:{ split; [done|]. apply spec_set_foreign; [|done]. simpl. unfold device_seat. by rewrite D. }
  destruct (pd_pseat v) as [i|] eqn:Pv.
  2:{ split; [done|]. apply spec_set_foreign; [|done]. simpl. unfold device_seat. by rewrite D, Pv. }
  destruct (device_pseat s I _ _ _ D Pv) as (p & P & F & L & Sf & M). rewrite P.
  set (st := ps_seat p) in *.
  assert (Es : stale (observe s) st serial
    = qdwin_selection_serial_is_stale (selection_serial p) serial (bool_decide (current_source p ≠ None))).
  { unfold stale. simpl. unfold seat_serial, seat_owner. by rewrite Sf. }
  rewrite <-Es. destruct (stale (observe s) st serial) eqn:St.
  { split; [done|]. by eapply spec_set_stale. }
  destruct (make_way_spec i p src s st I P Sf) as (I1 & (p1 & P1 & F1 & C1) & O1 & Src1).
  fold (make_way i p src s).
  destruct src as [x|]; cbv zeta; cbn [fst].
  2:{ split; [by apply pinv_serial|]. eapply spec_unset; [done..|].
      rewrite (observe_serial _ _ _ _ _ I1 P1 F1). destruct O1 as [->|[]]; done. }
  simpl in V. apply bool_decide_eq_true in V as [z Z1]. rewrite Z1.
  destruct (bool_decide (s_pseat z ≠ None) && _) eqn:El.
  - split; [done|]. apply andb_true_iff in El as [E1%bool_decide_eq_true E2%negb_true_iff].
    apply bool_decide_eq_false in E2. destruct (s_pseat z) as [j|] eqn:Zj; [|done].
    destruct (bound_owns _ _ _ _ I Z1 Zj) as (q & Q & Qf & O).
    eapply (spec_set_elsewhere _ _ _ _ st (ps_seat q)); try done.
    intros Eq. rewrite Eq, Sf in Qf. simplify_eq. apply E2. f_equal.
    by rewrite <-(pseat_key _ _ _ P), <-(pseat_key _ _ _ Q).
  - assert (B : s_pseat z = None \/ s_pseat z = Some i).
    { apply andb_false_iff in El as [El%bool_decide_eq_false|El%negb_false_iff].
      - left. by apply dec_stable in El.
      - right. by apply bool_decide_eq_true in El. }
    destruct (Src1 x z eq_refl Z1 B) as (z1 & Z2 & B1).
    assert (L1 : ps_freed p1 = false) by (by apply seat_find_spec in F1 as (_ & ? & _)).
    cbn [fst]. fold (choose alloc i x serial (make_way i p (Some x) s)).
    split; [by eapply pinv_chosen|]. eapply spec_set; [done..| |].
    + by eapply not_elsewhere.
    + etrans; [by eapply (observe_chosen _ alloc i x serial p1)|].
      destruct O1 as [E|[_ E]]; [by rewrite E, sel_take_drop|by rewrite E].
Qed.
