(* ===== verification/PrimaryTheorems.v ===== *)
(** * PrimaryTheorems: the primary selection on every run

    The remaining requests against the abstract machine of [PrimaryFacts], the
    refinement for whole runs, and what follows for the clients: every device
    was last told about the owner, and what a source is asked to write goes to
    its own silo. *)

From stdpp Require Import base list gmap strings option relations.
From S2P Require Import Prelude Logic State Clipboard Procfs Environ Secctx Primary PrimaryFacts.
From stdpp Require Import list.
Import Policy.
#[local] Open Scope Z_scope.

(** ** Requests that leave the seats and the devices alone *)

Lemma observe_eq s s' :
  primary_seats s' = primary_seats s -> devices s' = devices s ->
  (forall d, last_told d (pevents s') = last_told d (pevents s)) -> observe s' ≡ observe s.
Proof.
  intros E D T. assert (forall d, device_seat s' d = device_seat s d) as M.
  { intros d. unfold device_seat, pseat_of. by rewrite (device_of_eq _ _ D), E. }
  split_and!; simpl; intros k; unfold seat_owner, seat_serial, qdwin_primary_seat_find;
    rewrite ?E, ?M, ?T; done.
Qed.

(** The invariant when seats and devices stay. *)
Lemma still_pinv s s' :
  pinv s -> primary_seats s' = primary_seats s -> devices s' = devices s -> next_ps s' = next_ps s ->
  (forall x z i, source_of x s' = Some z -> s_pseat z = Some i ->
     exists z0, source_of x s = Some z0 /\ s_pseat z0 = Some i) ->
  (forall x z i, source_of x s = Some z -> s_pseat z = Some i ->
     exists z', source_of x s' = Some z' /\ s_pseat z' = Some i) ->
  (forall o f x, offer_of o s' = Some f -> o_source f = Some x -> is_Some (source_of x s')) ->
  Forall (known_offer (next_offer s')) (pevents s') -> pinv s'.
Proof.
  intros I E D N H1 H2 H3 H4.
  assert (P : forall i, pseat_of i s' = pseat_of i s) by (intros i; unfold pseat_of; by rewrite E).
  apply (kept_pinv s); try done.
  - intros j. rewrite P. by destruct (pseat_of j s).
  - by rewrite E.
  - intros x z i Z1 Z2. destruct (H1 _ _ _ Z1 Z2) as (z0 & Z3 & Z4). rewrite P.
    by eapply (pi_source s I).
  - intros i p x. rewrite P. intros P1 C. destruct (pi_owner s I _ _ _ P1 C) as (F & z & Z1 & Z2).
    eauto.
Qed.

Lemma step_create alloc c id s :
  pinv s -> source_of id s = None ->
  let s' := qdwin_primary_manager_create_source alloc c id s in
  pinv s' /\ spec_step (PCreateSource alloc c id) (observe s) (observe s').
Proof.
  intros I N. unfold qdwin_primary_manager_create_source. destruct alloc; cbv zeta; simpl.
  2:{ split; [|constructor; by apply observe_eq].
      eapply still_pinv; try done; eauto; [apply (pi_offer s I)|]. constructor; [done|apply I]. }
  set (s' := s <| sources ::= cons _ |>).
  assert (S : forall y, source_of y s'
    = if id =? y then Some (mk_primary_source id c None []) else source_of y s) by done.
  split; [|constructor; by apply observe_eq]. apply (still_pinv s); try done.
  - intros y z i. rewrite S. destruct (Z.eqb_spec id y); [|eauto]. intros ??. by simplify_eq.
  - intros y z i. rewrite S. destruct (Z.eqb_spec id y) as [->|]; [|eauto]. congruence.
  - intros o f y O1 O2. rewrite S. destruct (id =? y); [done|]. by eapply (pi_offer s I).
  - apply I.
Qed.

Lemma step_source_offer alloc x mime s :
  pinv s -> let s' := qdwin_primary_source_offer alloc x mime s in
  pinv s' /\ spec_step (PSourceOffer alloc x mime) (observe s) (observe s').
Proof.
  intros I. unfold qdwin_primary_source_offer.
  assert (R : pinv s /\ spec_step (PSourceOffer alloc x mime) (observe s) (observe s))
    by (split; [done|by constructor]).
  destruct mime as [m|]; [|done]. destruct (source_of x s) as [z|] eqn:Z1; [|done].
  destruct (_ <? _)%nat; [done|]. destruct (_ <=? _)%nat; [done|]. destruct alloc; [|done].
  cbv zeta. simpl. set (f := fun z : primary_source => _).
  assert (S : forall y, source_of y (upd_psource x f s)
    = if y =? x then option_map f (source_of y s) else source_of y s) by (intros; by apply source_of_upd).
  split; [|constructor; by apply observe_eq]. apply (still_pinv s); try done.
  - intros y w i. rewrite S. destruct (y =? x); [|eauto].
    destruct (source_of y s) as [w'|]; [|done]. intros ??. simplify_eq/=. eauto.
  - intros y w i W1 W2. rewrite S, W1. destruct (y =? x); simpl; eauto.
  - intros o g y O1 O2. rewrite S. destruct (pi_offer s I _ _ _ O1 O2) as [w ->]. by destruct (y =? x).
  - apply I.
Qed.

Lemma pinv_plain e s : pinv s -> plain e = true -> pinv (pemit e s) /\ observe (pemit e s) ≡ observe s.
Proof.
  intros I P. split; [|apply observe_eq; try done; intros d; by apply last_told_plain].
  eapply (still_pinv s); try done; eauto; [apply (pi_offer s I)|].
  constructor; [by destruct e|apply I].
Qed.

Lemma step_receive x c o mime fd s :
  pinv s -> let s' := qdwin_primary_offer_receive x c o mime fd s in
  pinv s' /\ spec_step (PReceive x c o mime fd) (observe s) (observe s').
Proof.
  intros I. unfold qdwin_primary_offer_receive. cbv zeta.
  set (s1 := match offer_of o s with Some _ => _ | None => _ end).
  assert (E : s1 = s \/ exists e, plain e = true /\ s1 = pemit e s).
  { unfold s1. destruct (offer_of o s) as [f|]; [|by left]. destruct (o_source f) as [y|]; [|by left].
    destruct (source_of y s); [|by left]. destruct (qdwin_primary_same_silo _ _ _); [right|by left].
    by exists (source_data y mime fd). }
  clearbody s1.
  assert (I1 : pinv s1 /\ observe s1 ≡ observe s).
  { destruct E as [->|(e & Pe & ->)]; [done|by apply pinv_plain]. }
  destruct I1 as [I1 O1]. destruct (pinv_plain (descriptor_closed fd) s1 I1 eq_refl) as [I2 O2].
  split; [done|]. constructor. by rewrite O2.
Qed.

Lemma step_destroy_offer o s :
  pinv s -> let s' := qdwin_primary_offer_resource_destroy o s in
  pinv s' /\ spec_step (PDestroyOffer o) (observe s) (observe s').
Proof.
  intros I. cbv zeta. split; [|constructor; by apply observe_eq].
  apply (still_pinv s); try done; eauto; [|apply I].
  intros k f x K1 K2. unfold offer_of, qdwin_primary_offer_resource_destroy in K1. simpl in K1.
  rewrite (find_remove_key o_res) in K1. destruct (k =? o); [done|]. by eapply (pi_offer s I).
Qed.

(** A source dies: its selection is cleared, its offers go stale. *)
Definition forget_source (r : Z) (s : pstate) : pstate :=
  (qdwin_primary_source_clear_offers r s) <| sources ::= List.filter (fun z => negb (s_res z =? r)) |>.

Lemma forget_offer r s o f x :
  offer_of o (forget_source r s) = Some f -> o_source f = Some x ->
  x <> r /\ offer_of o s = Some f.
Proof.
  unfold forget_source, offer_of, qdwin_primary_source_clear_offers. simpl.
  rewrite (find_map_key o_res) by (intros y; by destruct (bool_decide (o_source y = Some r))).
  destruct (List.find _ _) as [g|]; [|done]. simpl. case_bool_decide as B; intros ? K; simplify_eq/=.
  split; [|done]. intros ->. congruence.
Qed.

Lemma pinv_forget r s :
  pinv s -> (forall z, source_of r s = Some z -> s_pseat z = None) ->
  pinv (forget_source r s) /\ observe (forget_source r s) ≡ observe s.
Proof.
  intros I N.
  assert (S : forall y, source_of y (forget_source r s) = if y =? r then None else source_of y s)
    by (intros y; apply (find_remove_key s_res)).
  split; [|by apply observe_eq]. apply (still_pinv s); try done.
  - intros y z i. rewrite S. destruct (y =? r); [done|eauto].
  - intros y z i Z1 Z2. rewrite S. destruct (Z.eqb_spec y r) as [->|]; [|eauto].
    apply N in Z1. congruence.
  - intros o f y O1 O2. destruct (forget_offer _ _ _ _ _ O1 O2) as [X O3]. rewrite S.
    destruct (Z.eqb_spec y r); [done|]. by eapply (pi_offer s I).
  - apply I.
Qed.

Lemma step_destroy_source r s :
  pinv s -> let s' := qdwin_primary_source_resource_destroy r s in
  pinv s' /\ spec_step (PDestroySource r) (observe s) (observe s').
Proof.
  intros I. unfold qdwin_primary_source_resource_destroy. cbv zeta.
  destruct (source_of r s) as [z|] eqn:Z1.
  2:{ split; [done|]. apply spec_source_idle; [|done]. intros st O.
      destruct (owner_bound _ _ _ I O) as (? & ? & _ & _ & ? & _). congruence. }
  destruct (s_pseat z) as [i|] eqn:Zi.
  - destruct (bound_owns _ _ _ _ I Z1 Zi) as (p & P & F & O). rewrite P.
    assert (C : current_source p = Some r).
    { unfold seat_owner in O. by rewrite F in O. }
    rewrite bool_decide_true by done. set (s1 := qdwin_primary_seat_clear_selection i false s).
    pose proof (clear_spec i false p s P : cleared i p s s1) as Cl.
    destruct (pinv_forget r s1) as [I2 O2]; [by eapply pinv_cleared| |].
    + intros w. rewrite (cl_source _ _ _ _ Cl), bool_decide_true, Z1 by done.
      intros ?. by simplify_eq/=.
    + split; [exact I2|]. eapply spec_source_dies; [exact O|].
      etrans; [exact O2|]. by eapply observe_cleared.
  - destruct (pinv_forget r s I) as [I2 O2]; [naive_solver|].
    split; [exact I2|]. eapply spec_source_idle; [|exact O2]. intros st O.
    destruct (owner_bound _ _ _ I O) as (q & w & _ & _ & W1 & W2). congruence.
Qed.

(** ** Devices and seats *)

#[global] Instance leave_proper r : Proper ((≡) ==> (≡)) (sel_leave r).
Proof.
  intros a b (Eo & Em & Et & Es). split_and!; simpl; intros k; rewrite ?Eo, ?Em, ?Et, ?Es; done.
Qed.
#[global] Instance join_proper alloc d st : Proper ((≡) ==> (≡)) (sel_join alloc d st).
Proof.
  intros a b (Eo & Em & Et & Es). split_and!; simpl; intros k; rewrite ?Eo, ?Em, ?Et, ?Es; done.
Qed.
#[global] Instance lose_proper st : Proper ((≡) ==> (≡)) (sel_lose st).
Proof.
  intros a b (Eo & Em & Et & Es). split_and!; simpl; intros k; unfold on;
    rewrite ?Eo, ?Em, ?Et, ?Es; done.
Qed.

Lemma device_dropped r s :
  pinv s -> let s' := s <| devices ::= List.filter (fun d => negb (pd_res d =? r)) |> in
  pinv s' /\ observe s' ≡ sel_leave r (observe s).
Proof.
  intros I s'.
  assert (D : forall d, device_of d s' = if d =? r then None else device_of d s)
    by (intros d; apply (find_remove_key pd_res)).
  assert (M : forall d, device_seat s' d = if d =? r then None else device_seat s d).
  { intros d. unfold device_seat. rewrite D. by destruct (d =? r). }
  split.
  - split; try apply I.
    + intros d v. rewrite D. destruct (d =? r); [done|]. apply (pi_device s I).
    + apply (nodup_filter_key pd_res), I.
  - split_and!; simpl; try done. intros d. rewrite M. by destruct (d =? r).
Qed.

Lemma step_destroy_device r s :
  pinv s -> let s' := qdwin_primary_device_resource_destroy r s in
  pinv s' /\ spec_step (PDestroyDevice r) (observe s) (observe s').
Proof.
  intros I. unfold qdwin_primary_device_resource_destroy. cbv zeta.
  destruct (device_of r s) as [v|] eqn:V.
  2:{ split; [done|]. constructor. split_and!; simpl; try done; intros d;
      (destruct (Z.eqb_spec d r) as [->|]; [|done]); unfold device_seat; by rewrite V. }
  set (s1 := match pseat_of _ s with Some _ => _ | None => _ end).
  assert (E : pinv s1 /\ observe s1 ≡ observe s).
  { unfold s1. destruct (pseat_of _ s) as [p|]; [|done].
    destruct (ps_freed p && _); [by apply pinv_plain|done]. }
  clearbody s1. destruct E as [I1 O1], (device_dropped r s1) as [I2 O2]; [tauto|].
  split; [exact I2|]. constructor. by rewrite O2, O1.
Qed.

Lemma clear_if_owned st p s :
  pinv s -> qdwin_primary_seat_find st s = Some p ->
  let s' := if qdwin_primary_seat_has_source p
            then qdwin_primary_seat_clear_selection (ps_id p) true s else s in
  pinv s' /\ (if qdwin_primary_seat_has_source p then observe s' ≡ sel_drop st (observe s) else s' = s)
  /\ qdwin_primary_seat_find st s' = Some (p <| current_source := None |>).
Proof.
  intros I F. pose proof F as (P & _ & _)%seat_find_spec; [|done].
  unfold qdwin_primary_seat_has_source. case_bool_decide as O; cbv zeta.
  - pose proof (clear_spec (ps_id p) true p s P) as C. split_and!.
    + by eapply pinv_cleared.
    + by eapply observe_cleared.
    + rewrite (cl_find _ _ _ _ C), F. simpl. by rewrite Z.eqb_refl.
  - split_and!; [done..|]. rewrite F. clear F P. destruct p. simpl in O. by rewrite O.
Qed.

Lemma step_clear st s :
  pinv s -> let s' := primary_step (PClear st) s in
  pinv s' /\ spec_step (PClear st) (observe s) (observe s').
Proof.
  intros I. cbv zeta. simpl. destruct (qdwin_primary_seat_find st s) as [p|] eqn:F.
  2:{ split; [done|]. apply spec_clear_empty; [|done]. simpl. unfold seat_owner. by rewrite F. }
  destruct (clear_if_owned st p s I F) as (I1 & O1 & _). split; [exact I1|].
  assert (O : owner (observe s) st = current_source p) by (simpl; unfold seat_owner; by rewrite F).
  unfold qdwin_primary_seat_has_source in *. case_bool_decide as H.
  - apply spec_clear; [|done]. rewrite O. by destruct (current_source p).
  - apply spec_clear_empty; [|done]. by rewrite O.
Qed.

(** The object of a seat that went away. *)
Definition retire (i : Z) (s : pstate) : pstate :=
  upd_pseat i (fun p => p <| ps_freed := true |>)
    (s <| devices ::= map (fun d => if pd_list d =? i then d <| pd_pseat := None |> else d) |>).

Section retiring.
Context (s : pstate) (st : Z) (p : primary_seat) (I : pinv s).
Context (F : qdwin_primary_seat_find st s = Some p) (N : current_source p = None).
Notation s' := (retire (ps_id p) s).

Lemma rt_pseat j :
  pseat_of j s' = if j =? ps_id p then option_map (fun p => p <| ps_freed := true |>) (pseat_of j s)
                  else pseat_of j s.
Proof. unfold retire. by rewrite pseat_of_upd. Qed.

Lemma rt_device d :
  device_of d s' = option_map (fun v => if pd_list v =? ps_id p then v <| pd_pseat := None |> else v)
                     (device_of d s).
Proof. apply (find_map_key pd_res). intros v. by destruct (pd_list v =? ps_id p). Qed.

Lemma rt_object : pseat_of (ps_id p) s = Some p.
Proof. by apply seat_find_spec in F as (P & _ & _). Qed.

Lemma pinv_retire : pinv s'.
Proof.
  split.
  - intros x z i Z1 Z2. destruct (pi_source s I _ _ _ Z1 Z2) as (q & Q & C). rewrite rt_pseat, Q.
    destruct (Z.eqb_spec i (ps_id p)) as [->|]; [|eauto]. rewrite rt_object in Q. congruence.
  - intros i q x. rewrite rt_pseat. destruct (Z.eqb_spec i (ps_id p)) as [->|].
    + rewrite rt_object. intros ??. simplify_eq/=.
    + apply (pi_owner s I).
  - intros d v. rewrite rt_device. destruct (device_of d s) as [w|] eqn:W; [|done].
    intros ?. simplify_eq/=. destruct (pi_device s I _ _ W) as (q & Q & L).
    destruct (Z.eqb_spec (pd_list w) (ps_id p)) as [E|E]; simpl; rewrite rt_pseat, Q.
    + rewrite E, Z.eqb_refl. by eexists.
    + destruct (Z.eqb_spec (pd_list w) (ps_id p)); [done|]. eauto.
  - unfold retire. cbn. rewrite (map_key_upd pd_res); [apply I|].
    intros v. by destruct (pd_list v =? ps_id p).
  - apply (pi_offer s I).
  - unfold retire. rewrite ids_upd by done. apply I.
  - intros i q. rewrite rt_pseat. intros Q.
    assert (exists q0, pseat_of i s = Some q0) as [q0 Q0]
      by (destruct (pseat_of i s); [eauto|by destruct (i =? ps_id p)]).
    by eapply (pi_next s I).
  - intros i j q1 q2. rewrite !rt_pseat.
    destruct (Z.eqb_spec i (ps_id p)); [destruct (pseat_of i s); naive_solver|].
    destruct (Z.eqb_spec j (ps_id p)); [destruct (pseat_of j s); naive_solver|]. apply (pi_live s I).
  - apply I.
Qed.

Lemma rt_find_other j : j <> st -> qdwin_primary_seat_find j s' = qdwin_primary_seat_find j s.
Proof.
  intros Nj. destruct (qdwin_primary_seat_find j s) as [q|] eqn:Q.
  - apply seat_find_spec in Q as (Q1 & Q2 & Q3); [|done].
    apply seat_find_spec; [apply pinv_retire|]. rewrite rt_pseat.
    destruct (Z.eqb_spec (ps_id q) (ps_id p)) as [E|]; [|done].
    rewrite E, rt_object in Q1. simplify_eq. apply seat_find_spec in F as (_ & _ & ?); done.
  - destruct (qdwin_primary_seat_find j s') as [q|] eqn:Q'; [|done].
    apply seat_find_spec in Q' as (Q1 & Q2 & Q3); [|apply pinv_retire]. rewrite rt_pseat in Q1.
    destruct (Z.eqb_spec (ps_id q) (ps_id p)) as [E|].
    + rewrite E, rt_object in Q1. simpl in Q1. injection Q1 as <-. simpl in Q2. done.
    + enough (qdwin_primary_seat_find j s = Some q) by congruence. by apply seat_find_spec.
Qed.

Lemma rt_find : qdwin_primary_seat_find st s' = None.
Proof.
  destruct (qdwin_primary_seat_find st s') as [q|] eqn:Q; [|done].
  apply seat_find_spec in Q as (Q1 & Q2 & Q3); [|apply pinv_retire]. rewrite rt_pseat in Q1.
  pose proof F as (_ & F2 & F3)%seat_find_spec; [|done].
  destruct (Z.eqb_spec (ps_id q) (ps_id p)) as [E|Ne].
  - rewrite E, rt_object in Q1. simpl in Q1. injection Q1 as <-. simpl in Q2. done.
  - destruct Ne. by eapply (pi_live s I _ _ q p); [|apply rt_object|..|congruence].
Qed.

Lemma rt_member d :
  device_seat s' d = if on (device_seat s) d st then None else device_seat s d.
Proof.
  pose proof F as (P & F2 & F3)%seat_find_spec; [|done].
  unfold on. case_bool_decide as M.
  - apply (device_seat_spec s I) in M as (v & q & V & Q & Fq & Sq & L).
    unfold device_seat. rewrite rt_device, V. simpl.
    assert (pd_list v = ps_id p) as E by (eapply (pi_live s I); eauto; congruence).
    by rewrite E, Z.eqb_refl.
  - unfold device_seat in *. rewrite rt_device. destruct (device_of d s) as [v|] eqn:V; [|done]. simpl.
    destruct (pi_device s I _ _ V) as (q & Q & L). rewrite L in *.
    destruct (Z.eqb_spec (pd_list v) (ps_id p)) as [E|E].
    + exfalso. rewrite E, P in Q. injection Q as <-. rewrite F2, E, P in M. simpl in M. congruence.
    + rewrite L. destruct (ps_freed q); [done|]. rewrite rt_pseat.
      by destruct (Z.eqb_spec (pd_list v) (ps_id p)).
Qed.

Lemma observe_retire : observe s' ≡ sel_lose st (observe s).
Proof.
  split_and!.
  - intros j. simpl. unfold seat_owner. destruct (Z.eqb_spec j st) as [->|].
    + by rewrite rt_find.
    + by rewrite rt_find_other.
  - apply rt_member.
  - intros d. simpl. rewrite rt_member. by destruct (on (device_seat s) d st).
  - intros j. simpl. unfold seat_serial. destruct (Z.eqb_spec j st) as [->|].
    + by rewrite rt_find.
    + by rewrite rt_find_other.
Qed.
End retiring.

Lemma lose_drop st a : sel_lose st (sel_drop st a) ≡ sel_lose st a.
Proof.
  split_and!; simpl; intros k; try done; [by destruct (k =? st)|]. by destruct (on (member a) k st).
Qed.

Lemma step_seat_gone st s :
  pinv s -> let s' := qdwin_primary_seat_seat_destroyed st s in
  pinv s' /\ spec_step (PSeatGone st) (observe s) (observe s').
Proof.
  intros I. unfold qdwin_primary_seat_seat_destroyed. cbv zeta.
  destruct (qdwin_primary_seat_find st s) as [p|] eqn:F.
  - destruct (clear_if_owned st p s I F) as (I1 & O1 & F1).
    set (s1 := if qdwin_primary_seat_has_source p then _ else s) in *.
    set (p1 := p <| current_source := None |>) in *.
    split; [exact (pinv_retire s1 st p1 I1 F1 eq_refl)|]. constructor.
    etrans; [exact (observe_retire s1 st p1 I1 F1 eq_refl)|].
    destruct (qdwin_primary_seat_has_source p); [by rewrite O1, lose_drop|by rewrite O1].
  - split; [done|]. constructor.
    assert (M : forall d, on (device_seat s) d st = false).
    { intros d. apply bool_decide_eq_false, not_member_no_seat; done. }
    split_and!; simpl; intros k; rewrite ?M; try done; unfold seat_owner, seat_serial;
      (destruct (Z.eqb_spec k st) as [->|]; [by rewrite F|done]).
Qed.

(** A new seat object is empty: nothing observable changes. *)
Lemma ensure_spec alloc st s :
  pinv s ->
  match qdwin_primary_seat_ensure alloc st s with
  | (Some i, s1) => pinv s1 /\ observe s1 ≡ observe s /\ devices s1 = devices s /\ pevents s1 = pevents s
      /\ exists p, pseat_of i s1 = Some p /\ qdwin_primary_seat_find st s1 = Some p
  | (None, s1) => s1 = s /\ alloc = false
  end.
Proof.
  intros I. unfold qdwin_primary_seat_ensure. destruct (qdwin_primary_seat_find st s) as [p|] eqn:F.
  { split_and!; try done. exists p. split; [|done]. by apply seat_find_spec in F as (? & _ & _). }
  destruct alloc; simpl; [|done].
  set (n := mk_primary_seat (next_ps s) st None 0 false). set (s1 := _ <| next_ps ::= _ |>).
  assert (P : forall j, pseat_of j s1 = if next_ps s =? j then Some n else pseat_of j s) by done.
  assert (Fresh : pseat_of (next_ps s) s = None).
  { destruct (pseat_of (next_ps s) s) eqn:E; [|done]. apply (pi_next s I) in E. lia. }
  assert (Old : forall j q, pseat_of j s = Some q -> (next_ps s =? j) = false).
  { intros j q Q. apply Z.eqb_neq. intros <-. congruence. }
  assert (Sf : forall j, qdwin_primary_seat_find j s1
             = if st =? j then Some n else qdwin_primary_seat_find j s).
  { intros j. unfold qdwin_primary_seat_find. simpl. by rewrite andb_true_r. }
  assert (M : forall d, device_seat s1 d = device_seat s d).
  { intros d. unfold device_seat. change (device_of d s1) with (device_of d s).
    destruct (device_of d s) as [v|] eqn:V; [|done].
    destruct (pi_device s I _ _ V) as (q & Q & ->). destruct (ps_freed q); [done|].
    by rewrite P, (Old _ _ Q). }
  split_and!; try done.
  - split; try apply I.
    + intros x z i Z1 Z2. destruct (pi_source s I _ _ _ Z1 Z2) as (q & Q & C).
      exists q. by rewrite P, (Old _ _ Q).
    + intros i q x. rewrite P. destruct (_ =? i); [intros ??; by simplify_eq|apply (pi_owner s I)].
    + intros d v V. destruct (pi_device s I _ _ V) as (q & Q & L). exists q. by rewrite P, (Old _ _ Q).
    + simpl. apply NoDup_cons. split; [|apply I]. by apply (find_fresh ps_id).
    + intros i q. rewrite P. simpl. destruct (Z.eqb_spec (next_ps s) i); [lia|].
      intros Q%(pi_next s I). lia.
    + intros i j q1 q2. rewrite !P.
      assert (X : forall k q, pseat_of k s = Some q -> ps_freed q = false -> ps_seat q <> st).
      { intros k q Q Fq Sq. enough (qdwin_primary_seat_find st s = Some q) by congruence.
        apply seat_find_spec; [done|]. by rewrite (pseat_key _ _ _ Q). }
      destruct (Z.eqb_spec (next_ps s) i), (Z.eqb_spec (next_ps s) j); intros Q1 Q2 F1 F2 E; simplify_eq/=;
        try done; [by destruct (X _ _ Q2)|by destruct (X _ _ Q1)|by eapply (pi_live s I)].
  - split_and!; [|apply M|intros d; simpl; by rewrite M|]; intros j; simpl;
      unfold seat_owner, seat_serial; rewrite Sf; (destruct (Z.eqb_spec st j) as [<-|]; [|done]);
      by rewrite F.
  - exists n. rewrite P, Sf, !Z.eqb_refl. done.
Qed.

(** A device that was just created, before it is told anything. *)
Lemma device_added c id i p st s :
  pinv s -> device_of id s = None -> existsb (tells id) (pevents s) = false ->
  pseat_of i s = Some p -> qdwin_primary_seat_find st s = Some p ->
  let s' := s <| devices ::= cons (mk_primary_device id c (Some i) i) |> in
  pinv s' /\ observe s' ≡ sel_join (fun _ => false) id st (observe s).
Proof.
  intros I N T P F s'. pose proof F as (_ & F2 & F3)%seat_find_spec; [|done].
  assert (D : forall d, device_of d s'
    = if id =? d then Some (mk_primary_device id c (Some i) i) else device_of d s) by done.
  assert (M : forall d, device_seat s' d = if d =? id then Some st else device_seat s d).
  { intros d. unfold device_seat. rewrite D, (Z.eqb_sym d id). destruct (id =? d); [|done].
    simpl. change (pseat_of i s') with (pseat_of i s). by rewrite P, <-F3. }
  split.
  - split; try apply I.
    + intros d v. rewrite D. destruct (id =? d); [|apply (pi_device s I)].
      intros ?. simplify_eq/=. exists p. by rewrite F2.
    + simpl. apply NoDup_cons. split; [by apply (find_fresh pd_res)|apply I].
  - split_and!; simpl; try done. intros d. rewrite M. destruct (Z.eqb_spec d id) as [->|]; [|done].
    by apply untold.
Qed.

(** Telling one member about the owner of its seat. *)
Lemma owner_announced alloc v i p st x s :
  pinv s -> device_of (pd_res v) s = Some v -> pd_pseat v = Some i -> pseat_of i s = Some p ->
  qdwin_primary_seat_find st s = Some p -> current_source p = Some x ->
  let s' := announce alloc x s v in
  pinv s' /\ observe s' ≡ sel_join alloc (pd_res v) st (observe s).
Proof.
  intros I V L P F C s'. destruct (pi_owner s I _ _ _ P C) as (_ & z & Z1 & Z2).
  assert (A : announced alloc x [v] s s') by (apply announce_one, I). clearbody s'.
  destruct A as [A1 A2 A3 A4 A5 A6 A7].
  assert (S : forall y, source_of y s' = source_of y s) by (intros y; unfold source_of; by rewrite A2).
  destruct (device_pseat s I _ _ _ V L) as (p' & P' & _ & _ & F' & M). rewrite P in P'. simplify_eq.
  assert (ps_seat p' = st) as E by (by apply seat_find_spec in F as (_ & _ & ?)).
  assert (K : forall d, device_seat s' d = device_seat s d).
  { intros d. unfold device_seat, pseat_of. by rewrite (device_of_eq _ _ A3), A1. }
  assert (G : forall j, qdwin_primary_seat_find j s' = qdwin_primary_seat_find j s).
  { intros j. unfold qdwin_primary_seat_find. by rewrite A1. }
  split.
  - apply (still_pinv s); try done; [by setoid_rewrite S; eauto..|].
    intros o f y O1 O2. rewrite S. destruct (A5 _ _ O1) as [O|O]; [by eapply (pi_offer s I)|].
    rewrite O in O2. simplify_eq. by rewrite Z1.
  - split_and!; simpl.
    + intros j. unfold seat_owner. by rewrite G.
    + intros d. rewrite K. destruct (Z.eqb_spec d (pd_res v)) as [->|]; [congruence|done].
    + intros d. rewrite K, A7. simpl. destruct (Z.eqb_spec d (pd_res v)) as [->|Nd].
      * rewrite M, bool_decide_true by set_solver. unfold seat_owner. rewrite F, C.
        by destruct (alloc _).
      * by rewrite bool_decide_false by set_solver.
    + intros j. unfold seat_serial. by rewrite G.
Qed.

Lemma join_join al1 al2 d st a : sel_join al1 d st (sel_join al2 d st a) ≡ sel_join al1 d st a.
Proof. split_and!; simpl; intros k; try done; by destruct (k =? d). Qed.

Lemma join_unowned al1 al2 d st a : owner a st = None -> sel_join al1 d st a ≡ sel_join al2 d st a.
Proof. intros O. split_and!; simpl; intros k; try done. rewrite O. by destruct (al1 d), (al2 d). Qed.

Lemma no_memory_step op c s :
  pinv s -> (forall a', a' ≡ observe s -> spec_step op (observe s) a') ->
  pinv (pemit (no_memory_error c) s) /\ spec_step op (observe s) (observe (pemit (no_memory_error c) s)).
Proof. intros I H. destruct (pinv_plain (no_memory_error c) s I eq_refl). eauto. Qed.

Lemma step_get_device a_seat a_dev alloc c id seat s :
  pinv s -> device_of id s = None -> existsb (tells id) (pevents s) = false ->
  let s' := qdwin_primary_manager_get_device a_seat a_dev alloc c id seat s in
  pinv s' /\ spec_step (PGetDevice a_seat a_dev alloc c id seat) (observe s) (observe s').
Proof.
  intros I N T. unfold qdwin_primary_manager_get_device. cbv zeta.
  destruct seat as [st|].
  2:{ apply no_memory_step; [done|]. intros. apply spec_join_refused; auto. }
  pose proof (ensure_spec a_seat st s I) as E.
  destruct (qdwin_primary_seat_ensure a_seat st s) as [[i|] s1].
  2:{ destruct E as [-> ->]. apply no_memory_step; [done|]. intros. by apply spec_join_refused; auto. }
  destruct E as (I1 & O1 & D1 & E1 & p & P & F). destruct a_dev; simpl.
  2:{ destruct (pinv_plain (no_memory_error c) s1 I1 eq_refl) as [I2 O2]. split; [done|].
      apply spec_join_refused; [left; by destruct a_seat|by rewrite O2]. }
  destruct (device_added c id i p st s1) as [I2 O2]; try done.
  { by rewrite (device_of_eq _ _ D1). } { by rewrite E1. }
  set (v := mk_primary_device id c (Some i) i) in *. set (s2 := s1 <| devices ::= cons v |>) in *.
  assert (P2 : pseat_of i s2 = Some p) by done. rewrite P2.
  assert (F2 : qdwin_primary_seat_find st s2 = Some p) by done.
  destruct (current_source p) as [x|] eqn:C.
  - destruct (owner_announced alloc v i p st x s2) as [I3 O3]; try done.
    { unfold device_of. simpl. by rewrite Z.eqb_refl. }
    change (pd_res v) with id in O3.
    split; [done|]. apply spec_join. by rewrite O3, O2, O1, join_join.
  - split; [done|]. apply spec_join. rewrite O2, O1. apply join_unowned.
    destruct O1 as (Eo & _). rewrite <-Eo. simpl. unfold seat_owner. by rewrite F.
Qed.

(** ** Whole runs *)

Lemma primary_simulation op s :
  pinv s -> primary_valid op s = true ->
  pinv (primary_step op s) /\ spec_step op (observe s) (observe (primary_step op s)).
Proof.
  intros I V. destruct op; simpl in V.
  - apply negb_true_iff, bool_decide_eq_false in V. apply step_create; [done|].
    destruct (source_of id s); [destruct V; eauto|done].
  - apply andb_true_iff in V as [V1%negb_true_iff V2%negb_true_iff].
    apply bool_decide_eq_false in V1. apply step_get_device; [done| |done].
    destruct (device_of id s); [destruct V1; eauto|done].
  - by apply step_set.
  - by apply step_source_offer.
  - by apply step_receive.
  - by apply step_destroy_offer.
  - by apply step_destroy_source.
  - by apply step_destroy_device.
  - by apply step_clear.
  - by apply step_seat_gone.
Qed.

Lemma primary_run_inv ops s :
  pinv s -> primary_valid_run ops s = true ->
  pinv (primary_run ops s) /\ spec_run ops (observe s) (observe (primary_run ops s)).
Proof.
  revert s. induction ops as [|op ops IH]; intros s I V.
  - split; [done|]. by constructor.
  - simpl in V. apply andb_true_iff in V as [V1 V2].
    destruct (primary_simulation op s I V1) as [I1 S1]. destruct (IH _ I1 V2) as [I2 S2].
    split; [exact I2|]. econstructor; [exact S1|exact S2].
Qed.

Lemma pinv_init : pinv primary_init.
Proof. split; try done; constructor. Qed.

Lemma spec_run_inv (Q : selection -> Prop) ops a a' :
  Proper ((≡) ==> iff) Q -> (forall op b b', op ∈ ops -> spec_step op b b' -> Q b -> Q b') ->
  spec_run ops a a' -> Q a -> Q a'.
Proof.
  intros HP H R. induction R as [a a' E|op ops a b c S R IH]; intros A; [by rewrite E|].
  apply IH; [intros; eapply H; eauto; set_solver|]. eapply H; eauto. set_solver.
Qed.

Lemma exact_init : exact (observe primary_init) /\ exclusive (observe primary_init).
Proof. split; [intros d st|intros i j x]; done. Qed.

(** C25.  Refinement: on every run of requests naming live objects (seats coming
    and going, clients and sources dying, allocations failing) what the clients
    can observe of the seat, source, device and offer lists moves exactly as
    the abstract machine of the protocol does: a set selection is accepted by
    the serial of the last change, a source never owns two seats, every member
    of the seat is told at once. *)
Theorem primary_selection_refines (ops : list primary_op) :
  primary_valid_run ops primary_init = true ->
  spec_run ops (observe primary_init) (observe (primary_run ops primary_init)).
Proof. intros V. by apply primary_run_inv; [apply pinv_init|]. Qed.

(** After every such run each device of a live seat was last told about the
    source that owns the seat's primary selection, or about no selection; when
    there was memory for every offer it was told about exactly the owner.  No
    source owns the selection of two seats, and every owner is a live source. *)
Theorem primary_devices_coherent (ops : list primary_op) :
  primary_valid_run ops primary_init = true ->
  let s := primary_run ops primary_init in
  (forall d st, device_seat s d = Some st ->
     let t := last_told d (pevents s) in
     (t = seat_owner s st \/ t = None) /\ (Forall ample ops -> t = seat_owner s st))
  /\ (forall i j x, seat_owner s i = Some x -> seat_owner s j = Some x -> i = j)
  /\ (forall st x, seat_owner s st = Some x -> is_Some (source_of x s)).
Proof.
  intros V s. destruct (primary_run_inv ops primary_init pinv_init V) as [I R]. fold s in I, R.
  destruct exact_init as [X0 U0].
  assert (Ch : coherent (observe s)).
  { eapply (spec_run_inv coherent); [apply _| |exact R|].
    - intros; by eapply coherent_step.
    - intros d st M. left. by apply X0. }
  assert (Ex : Forall ample ops -> exact (observe s)).
  { intros A. rewrite Forall_forall in A. eapply (spec_run_inv exact); [apply _| |exact R|exact X0].
    intros op b b' O S. apply (exact_step op); eauto. }
  assert (Un : exclusive (observe s)).
  { eapply (spec_run_inv exclusive); [apply _| |exact R|exact U0]. intros; by eapply exclusive_step. }
  split_and!; [|exact Un|].
  - intros d st M t. assert (T : told (observe s) d = t) by (simpl; by rewrite M).
    rewrite <-T. split; [by apply Ch|]. intros A. by apply (Ex A).
  - intros st x O. destruct (owner_bound _ _ _ I O) as (? & z & _ & _ & Z1 & _). by eexists.
Qed.

(** Two clients on one seat; the first selects, a third device joins late. *)
Definition two_clients : list primary_op :=
  [PCreateSource true 1 10; PGetDevice true true (fun _ => true) 1 20 (Some 7);
   PGetDevice true true (fun _ => true) 2 21 (Some 7);
   PSourceOffer true 10 (Some "text/plain");
   PSetSelection (fun _ => true) 20 (Some 10) 5;
   PGetDevice true true (fun _ => true) 2 22 (Some 7)].

Lemma primary_selection_refines_witness :
  primary_valid_run two_clients primary_init = true
  /\ spec_run two_clients (observe primary_init) (observe (primary_run two_clients primary_init)).
Proof. split; [by vm_compute|]. apply primary_selection_refines. by vm_compute. Defined.

Lemma primary_devices_coherent_witness :
  last_told 21 (pevents (primary_run two_clients primary_init)) = Some 10
  /\ seat_owner (primary_run two_clients primary_init) 7 = Some 10
  /\ is_Some (source_of 10 (primary_run two_clients primary_init)).
Proof.
  destruct (primary_devices_coherent two_clients) as (T & _ & L); [by vm_compute|].
  assert (O : seat_owner (primary_run two_clients primary_init) 7 = Some 10) by (by vm_compute).
  split; [|split; [done|by apply (L 7)]]. rewrite <-O. apply (T 21 7); [by vm_compute|].
  repeat constructor; done.
Defined.

(** ** Reading *)

(** Two clients of one silo, from the tags of their security contexts. *)
Definition one_silo (x : secctx_state) (a b : Z) : Prop :=
  a = b
  \/ (qdwin_secctx_client_find a x = None /\ qdwin_secctx_client_find b x = None)
  \/ exists ta tb, qdwin_secctx_client_find a x = Some ta /\ qdwin_secctx_client_find b x = Some tb
       /\ sc_engine (xc_tag ta) = sc_engine (xc_tag tb) /\ sc_app_id (xc_tag ta) = sc_app_id (xc_tag tb)
       /\ sc_engine (xc_tag ta) <> ""%string /\ sc_app_id (xc_tag ta) <> ""%string.

Lemma same_silo_spec x a b : qdwin_primary_same_silo x a b = true <-> one_silo x a b.
Proof.
  unfold qdwin_primary_same_silo, one_silo. destruct (Z.eqb_spec a b) as [->|N]; [tauto|].
  destruct (qdwin_secctx_client_find a x) as [ta|], (qdwin_secctx_client_find b x) as [tb|];
    [|naive_solver..].
  destruct (_ || _) eqn:E.
  - split; [done|]. intros [?|[[? _]|(ta' & tb' & A & B & E1 & E2 & N1 & N2)]]; [done..|].
    simplify_eq. rewrite <-E1, <-E2 in E.
    apply String.eqb_neq in N1, N2. by rewrite N1, N2 in E.
  - rewrite !orb_false_iff, !String.eqb_neq in E. destruct E as (((E1 & E2) & E3) & E4).
    rewrite andb_true_iff, !String.eqb_eq. split; [naive_solver|].
    intros [?|[[? _]|(ta' & tb' & A & B & ? & ? & _)]]; [done..|]. naive_solver.
Qed.

(** Silos partition the clients. *)
Lemma one_silo_equivalence x : Equivalence (one_silo x).
Proof.
  split.
  - intros a. by left.
  - intros a b [->|[[? ?]|(ta & tb & ?)]]; [by left|right; left; done|].
    right. right. exists tb, ta. naive_solver congruence.
  - intros a b c [->|Ab]; [done|]. intros [->|Bc]; [by right|]. right.
    destruct Ab as [[A B]|(ta & tb & A & B & Ab)], Bc as [[B' C]|(tb' & tc & B' & C & Bc)]; simplify_eq.
    + by left.
    + right. exists ta, tc. destruct Ab as (? & ? & ? & ?), Bc as (? & ? & ? & ?).
      split_and!; congruence.
Qed.

(** C26.  Reading the primary selection, after any run: the source is asked to
    write the data exactly when the offer's source still lives and the reader is
    a client of its silo (the same security-context engine and application, or
    both outside any); a reader of another silo, and one whose source has died,
    causes nothing to be written.  The descriptor is always closed, and nothing
    but the log changes. *)
Theorem primary_reads_stay_in_silo (ops : list primary_op) (x : secctx_state) (client r : Z)
    (mime : string) (fd : Z) :
  primary_valid_run ops primary_init = true ->
  let s := primary_run ops primary_init in
  exists w, qdwin_primary_offer_receive x client r mime fd s
            = s <| pevents ::= fun l => descriptor_closed fd :: w ++ l |>
  /\ forall e, e ∈ w <-> exists f z, offer_of r s = Some f /\ o_source f = Some (s_res z)
       /\ source_of (s_res z) s = Some z /\ one_silo x (s_client z) client
       /\ e = source_data (s_res z) mime fd.
Proof.
  intros V s. destruct (primary_run_inv ops primary_init pinv_init V) as [I _]. fold s in I. clearbody s.
  unfold qdwin_primary_offer_receive. setoid_rewrite <-same_silo_spec.
  destruct (offer_of r s) as [f|] eqn:F; [|exists []; split; [by destruct s|set_solver]].
  destruct (o_source f) as [y|] eqn:Y; [|exists []; split; [by destruct s|set_solver]].
  destruct (pi_offer s I _ _ _ F Y) as [z Sz]. rewrite Sz.
  assert (s_res z = y) as <- by (by apply (find_key s_res) in Sz as [? _]).
  destruct (qdwin_primary_same_silo x (s_client z) client) eqn:E.
  - exists [source_data (s_res z) mime fd]. split; [by destruct s|]. intros e.
    rewrite list_elem_of_singleton. split; [intros ->; by exists f, z|].
    intros (f' & z' & F' & Y' & Z' & _ & ->). congruence.
  - exists []. split; [by destruct s|]. intros e. split; [set_solver|].
    intros (f' & z' & F' & Y' & Z' & E' & _). congruence.
Qed.

(** The first client runs in a sandbox, the second does not. *)
Definition one_sandboxed : secctx_state :=
  mk_secctx_state [] [mk_secctx_client 1 None (mk_secctx_tag "flatpak" "org.app" "" 0 0 0 "" "")] 0 [].

Lemma primary_reads_stay_in_silo_witness :
  let s := primary_run two_clients primary_init in
  qdwin_primary_offer_receive one_sandboxed 2 0 "text/plain" 9 s = pemit (descriptor_closed 9) s
  /\ source_data 10 "text/plain" 9
     ∈ pevents (qdwin_primary_offer_receive (mk_secctx_state [] [] 0 []) 2 0 "text/plain" 9 s).
Proof.
  cbv zeta. split.
  - destruct (primary_reads_stay_in_silo two_clients one_sandboxed 2 0 "text/plain" 9) as (w & -> & W);
      [by vm_compute|].
    destruct w as [|e w]; [done|]. destruct (proj1 (W e)) as (f & z & F & Y & Sz & Si & _); [left|].
    vm_compute in F. injection F as <-. simpl in Y. injection Y as Y. rewrite <-Y in Sz.
    vm_compute in Sz. injection Sz as <-. apply same_silo_spec in Si. by vm_compute in Si.
  - destruct (primary_reads_stay_in_silo two_clients (mk_secctx_state [] [] 0 []) 2 0 "text/plain" 9)
      as (w & -> & W); [by vm_compute|].
    set (s := primary_run two_clients primary_init) in *.
    apply list_elem_of_In. right. apply in_or_app. left. apply list_elem_of_In, W.
    exists (mk_primary_offer 0 2 (Some 10)), (mk_primary_source 10 1 (Some 0) ["text/plain"%string]).
    split_and!; try (by vm_compute). apply same_silo_spec. by vm_compute.
Defined.

(** ** Bounds *)

Definition mimes_bounded (z : primary_source) : Prop :=
  (length (mime_types z) <= QDWIN_PRIMARY_MIME_MAX)%nat
  /\ Forall (fun m => (String.length m <= QDWIN_MIME_TYPE_MAX)%nat) (mime_types z).

Definition sources_bounded (s : pstate) : Prop :=
  forall x z, source_of x s = Some z -> mimes_bounded z.

(** Nothing but [offer] touches the types of a source. *)
Definition mimes_kept (s s' : pstate) : Prop :=
  forall x z', source_of x s' = Some z' -> exists z, source_of x s = Some z /\ mime_types z' = mime_types z.

#[global] Instance mimes_kept_preorder : PreOrder mimes_kept.
Proof.
  split; [intros s x z; eauto|].
  intros s1 s2 s3 H1 H2 x z (z2 & S2 & E2)%H2. destruct (H1 _ _ S2) as (z1 & ? & ?). exists z1. split; congruence.
Qed.

Lemma mk_bounded s s' : mimes_kept s s' -> sources_bounded s -> sources_bounded s'.
Proof. intros K B x z' (z & S & E)%K. unfold mimes_bounded. rewrite E. by eapply B. Qed.

Lemma mk_eq s s' : sources s' = sources s -> mimes_kept s s'.
Proof. intros E x z. unfold source_of. rewrite E. eauto. Qed.

Lemma mk_upd x i s : mimes_kept s (upd_psource x (fun z => z <| s_pseat := i |>) s).
Proof.
  intros y z. rewrite source_of_upd by done. destruct (y =? x); [|eauto].
  destruct (source_of y s) as [w|]; [|done]. intros ?. simplify_eq/=. eauto.
Qed.

Lemma mk_announce alloc x l s : mimes_kept s (foldl (announce alloc x) s l).
Proof.
  apply mk_eq. revert s. induction l as [|d l IH]; intros s; [done|]. simpl. rewrite IH.
  unfold announce, qdwin_primary_build_offer_for_device. destruct (alloc _); [|done]. simpl.
  destruct (source_of _ _); [|done]. by rewrite emit_all.
Qed.

Lemma mk_clear i n s : mimes_kept s (qdwin_primary_seat_clear_selection i n s).
Proof.
  unfold qdwin_primary_seat_clear_selection. destruct (pseat_of i s) as [p|]; [|done].
  unfold announce_none. rewrite emit_all. destruct (current_source p) as [x|]; [|by apply mk_eq].
  etrans; [apply (mk_upd x None)|]. apply mk_eq. by destruct n.
Qed.

Lemma mk_set alloc d src serial s : mimes_kept s (primary_set_selection alloc d src serial s).1.
Proof.
  unfold primary_set_selection. destruct (device_of d s) as [v|]; [|done].
  destruct (pd_pseat v) as [i|]; [|done]. destruct (pseat_of i s) as [p|]; [|done].
  destruct (qdwin_selection_serial_is_stale _ _ _); [done|].
  destruct (match src with Some _ => _ | None => _ end); [done|].
  fold (make_way i p src s).
  assert (W : mimes_kept s (make_way i p src s)).
  { unfold make_way. destruct (_ || _); [apply mk_clear|done]. }
  destruct src as [x|]; cbn [fst]; (etrans; [exact W|]); [|by apply mk_eq].
  etrans; [|apply mk_announce]. etrans; [apply (mk_upd x (Some i))|]. by apply mk_eq.
Qed.

Lemma mk_get_device a_seat a_dev alloc c id seat s :
  mimes_kept s (qdwin_primary_manager_get_device a_seat a_dev alloc c id seat s).
Proof.
  unfold qdwin_primary_manager_get_device. destruct seat as [st|]; [|by apply mk_eq].
  assert (E : mimes_kept s (qdwin_primary_seat_ensure a_seat st s).2).
  { apply mk_eq. unfold qdwin_primary_seat_ensure. destruct (qdwin_primary_seat_find st s); [done|].
    by destruct a_seat. }
  destruct (qdwin_primary_seat_ensure a_seat st s) as [[i|] s1]; simpl in E; (etrans; [exact E|]);
    [|by apply mk_eq].
  destruct a_dev; simpl; [|by apply mk_eq].
  destruct (pseat_of i _) as [p|]; [|by apply mk_eq].
  destruct (current_source p) as [x|]; [|by apply mk_eq].
  etrans; [|apply (mk_announce alloc x [_])]. by apply mk_eq.
Qed.

Lemma mk_destroy_source r s : mimes_kept s (qdwin_primary_source_resource_destroy r s).
Proof.
  unfold qdwin_primary_source_resource_destroy. destruct (source_of r s) as [z|]; [|done].
  assert (F : forall s, mimes_kept s (forget_source r s)).
  { intros s0 x w Hw. exists w. split; [|done]. revert Hw. unfold source_of, forget_source. cbn.
    rewrite (find_remove_key s_res). by destruct (x =? r). }
  cbv zeta. etrans; [|apply F].
  destruct (s_pseat z) as [i|]; [|done]. destruct (pseat_of i s) as [p|]; [|done].
  destruct (bool_decide _); [apply mk_clear|done].
Qed.

Lemma bounded_offer alloc x mime s :
  sources_bounded s -> sources_bounded (qdwin_primary_source_offer alloc x mime s).
Proof.
  intros B. unfold qdwin_primary_source_offer. destruct mime as [m|]; [|done].
  destruct (source_of x s) as [z|] eqn:Z1; [|done].
  destruct (_ <? _)%nat eqn:L; [done|]. destruct (_ <=? _)%nat eqn:N; [done|]. destruct alloc; [|done].
  apply Nat.ltb_ge in L. apply Nat.leb_gt in N. simpl. intros y w.
  rewrite source_of_upd by done. destruct (Z.eqb_spec y x) as [->|]; [|by apply B].
  rewrite Z1. intros ?. simplify_eq/=. destruct (B _ _ Z1) as [B1 B2]. split; simpl.
  - rewrite length_app. simpl. lia.
  - apply Forall_app. split; [done|]. by constructor.
Qed.

Lemma bounded_step op s : sources_bounded s -> sources_bounded (primary_step op s).
Proof.
  intros B. destruct op; simpl.
  - unfold qdwin_primary_manager_create_source. destruct alloc; [|done]. intros y z. unfold source_of.
    simpl. destruct (id =? y); [|apply B]. intros ?. simplify_eq. split; [simpl; lia|constructor].
  - by eapply mk_bounded; [apply mk_get_device|].
  - by eapply mk_bounded; [apply mk_set|].
  - by apply bounded_offer.
  - eapply mk_bounded; [|exact B]. apply mk_eq. unfold qdwin_primary_offer_receive.
    destruct (offer_of offer s) as [f|]; [|done]. destruct (o_source f) as [y|]; [|done].
    destruct (source_of y s); [|done]. by destruct (qdwin_primary_same_silo _ _ _).
  - done.
  - by eapply mk_bounded; [apply mk_destroy_source|].
  - eapply mk_bounded; [|exact B]. apply mk_eq. unfold qdwin_primary_device_resource_destroy.
    destruct (device_of device s) as [v|]; [|done]. destruct (pseat_of _ s) as [p|]; [|done]. cbv zeta.
    by destruct (_ && _).
  - destruct (qdwin_primary_seat_find seat s) as [p|]; [|done].
    destruct (qdwin_primary_seat_has_source p); [|done]. by eapply mk_bounded; [apply mk_clear|].
  - unfold qdwin_primary_seat_seat_destroyed. destruct (qdwin_primary_seat_find seat s) as [p|]; [|done].
    destruct (qdwin_primary_seat_has_source p); [|done].
    eapply mk_bounded; [|exact B]. etrans; [apply (mk_clear (ps_id p) true)|]. by apply mk_eq.
Qed.

(** No client can grow what the compositor stores for, and repeats to, every
    device without bound: on every run a source carries at most 256 MIME types
    of at most 4096 bytes each. *)
Theorem primary_mimes_bounded (ops : list primary_op) (x : Z) (z : primary_source) :
  source_of x (primary_run ops primary_init) = Some z ->
  (length (mime_types z) <= 256)%nat
  /\ Forall (fun m => (String.length m <= 4096)%nat) (mime_types z).
Proof.
  assert (B : sources_bounded (primary_run ops primary_init)).
  { unfold primary_run. assert (B0 : sources_bounded primary_init) by done. revert B0.
    generalize primary_init. induction ops as [|op ops IH]; intros s B0; [done|].
    simpl. apply IH. by apply bounded_step. }
  intros S. apply (B _ _ S).
Qed.

Lemma primary_mimes_bounded_witness :
  (length ["text/plain"%string] <= 256)%nat.
Proof.
  apply (primary_mimes_bounded two_clients 10 (mk_primary_source 10 1 (Some 0) ["text/plain"%string])).
  by vm_compute.
Defined.

(** A device that outlives its seat is unlinked from the freed list head of the
    seat's object. *)
Example device_outlives_seat :
  pevents (primary_run [PGetDevice true true (fun _ => true) 1 20 (Some 7); PSeatGone 7;
                        PDestroyDevice 20] primary_init)
  = [seat_use_after_free 0].
Proof. by vm_compute. Qed.
