(* ===== verification/Selection.v ===== *)
(** * Selection: the clipboard of a seat and the focus requests that clear it

    A seat's selection as libweston keeps it ([data-device.c]), the clipboard
    manager that caches it ([clipboard.c]) and the plugin's listener, in the
    order [selection_signal] calls them; what the shell is told about a new
    selection; and the requests by which the shell drops it: [clear_selection]
    and the two versions of [set_keyboard_focus]. *)

From Stdlib Require Import Ascii.
From stdpp Require Import base list gmap strings option.
From S2P Require Import Prelude Logic Scene State Toplevel Focus Clipboard Procfs Environ Secctx Primary.
From stdpp Require Import list.
Import Policy.
#[local] Open Scope Z_scope.

(** ** State *)

(** [struct clipboard_source], the cached copy; it is a data source without a
    client, so its name is not one of theirs. *)
Record clipboard_source := mk_clipboard_source { cs_id : Z; cs_serial : Z }.

(** The selection of a [weston_seat], its clipboard manager, the devices
    clients have on it, and [last_target_silo] of the plugin's tracker. *)
Record sel_seat := mk_sel_seat {
  ss_id : Z; seat_name : option string;
  selection_data_source : option Z; ss_serial : Z;
  clip_cache : option clipboard_source;
  last_target_silo : option string;
  drag_resources : list Z                   (* the client of each wl_data_device *)
}.
#[global] Instance eta_sel_seat : Eta sel_seat := fun r =>
  mk_sel_seat (ss_id r) (seat_name r) (selection_data_source r) (ss_serial r) (clip_cache r)
    (last_target_silo r) (drag_resources r).

Inductive sel_event :=
| data_source_cancelled (src : Z)
| data_device_selection (client : Z) (src : option Z)
| selection_set_source_identity (engine app_id instance : string)
| selection_set (seat : string) (handle : Z) (mimes : string) (primary : bool).

(** [sw_types] holds the MIME types of each data source. *)
Record sel_world := mk_sel_world {
  sw_q : qdwin; sw_secctx : secctx_state; sw_primary : pstate;
  sw_seats : list sel_seat; sw_types : list (Z * list string);
  display_serial : Z; next_cache : Z; sw_events : list sel_event
}.
#[global] Instance eta_sel_world : Eta sel_world := fun r =>
  mk_sel_world (sw_q r) (sw_secctx r) (sw_primary r) (sw_seats r) (sw_types r)
    (display_serial r) (next_cache r) (sw_events r).

(** What the environment grants one request: a pipe (its writing end), the
    timer of a pending receive, memory for the cache and for a packed list. *)
Record sel_env := mk_sel_env {
  pipe2 : option Z; timer_ok : bool; cache_ok : bool; pack_ok : bool; offer_ok : Z -> bool
}.

Definition sw_emit (e : sel_event) (w : sel_world) : sel_world := w <| sw_events ::= cons e |>.
Definition on_q (f : qdwin -> qdwin) (w : sel_world) : sel_world := w <| sw_q ::= f |>.
Definition on_primary (f : pstate -> pstate) (w : sel_world) : sel_world := w <| sw_primary ::= f |>.
Definition sel_seat_of (i : Z) (w : sel_world) : option sel_seat :=
  List.find (fun s => ss_id s =? i) (sw_seats w).
Definition upd_sel (i : Z) (f : sel_seat -> sel_seat) (w : sel_world) : sel_world :=
  w <| sw_seats ::= map (fun s => if ss_id s =? i then f s else s) |>.
Definition types_of (src : Z) (w : sel_world) : list string :=
  match List.find (fun t => t.1 =? src) (sw_types w) with Some t => t.2 | None => [] end.
Definition weston_seat_of (i : Z) (w : sel_world) : option seat :=
  List.find (fun s => seat_id s =? i) (seats (sw_q w)).

(** ** What the shell is told *)

Definition QDWIN_LF : ascii := "010"%char.

Definition printable (c : ascii) : ascii :=
  if (32 <=? N_of_ascii c)%N && (N_of_ascii c <=? 126)%N then c else "?"%char.

Fixpoint sanitize (s : string) : string :=
  match s with
  | EmptyString => EmptyString
  | String c s => String (printable c) (sanitize s)
  end.

(** The loop that fills the buffer; [first] until an entry was written. *)
Fixpoint pack_from (first : bool) (types : list string) : string :=
  match types with
  | [] => EmptyString
  | s :: types =>
      if String.eqb s EmptyString then pack_from first types
      else ((if first then EmptyString else String QDWIN_LF EmptyString)
            +:+ sanitize s +:+ pack_from false types)%string
  end.

(** The size of the buffer but for its terminating byte. *)
Definition pack_total (types : list string) : nat :=
  foldr (fun s n => (String.length s + 1 + n)%nat) 0%nat types.

Definition qdwin_pack_mime_types (alloc : bool) (types : list string) : option string :=
  match types with
  | [] => Some EmptyString
  | _ => if (pack_total types =? 0)%nat then Some EmptyString
         else if negb alloc then None else Some (pack_from true types)
  end.

Definition qdwin_toplevel_for_keyboard_focus (i : Z) (w : sel_world) : option toplevel :=
  match weston_seat_of i w with
  | Some s => qdwin_toplevel_by_surface (if has_keyboard s then kbd_focus s else None) (sw_q w)
  | None => None
  end.

Definition engine_of (client : Z) (x : secctx_state) : string :=
  match qdwin_secctx_client_find client x with Some c => sc_engine (xc_tag c) | None => EmptyString end.
Definition app_id_of (client : Z) (x : secctx_state) : string :=
  match qdwin_secctx_client_find client x with Some c => sc_app_id (xc_tag c) | None => EmptyString end.

Definition qdwin_toplevel_for_secctx_app_id (client : option Z) (w : sel_world) : option toplevel :=
  match client with
  | None => None
  | Some c =>
      let x := sw_secctx w in
      if String.eqb (engine_of c x) "" || String.eqb (app_id_of c x) "" then None
      else List.find (fun tl =>
             match desktop tl with
             | Some d => match ds_client d with
                 | Some tlc => negb (String.eqb (engine_of tlc x) "") && negb (String.eqb (app_id_of tlc x) "")
                               && String.eqb (engine_of tlc x) (engine_of c x)
                               && String.eqb (app_id_of tlc x) (app_id_of c x)
                 | None => false
                 end
             | None => false
             end) (toplevels (sw_q w))
  end.

Definition or_else {A} (x y : option A) : option A := match x with Some _ => x | None => y end.

Definition name_of (i : Z) (w : sel_world) : string :=
  match sel_seat_of i w with Some s => default "" (seat_name s) | None => "" end.

Definition qdwin_emit_selection_set (e : sel_env) (i : Z) (types : list string) (primary : bool)
    (client : option Z) (w : sel_world) : sel_world :=
  if negb (shell_version_ge 11 (sw_q w)) then w
  else
    let tl := or_else (qdwin_toplevel_for_keyboard_focus i w)
               (or_else (qdwin_toplevel_for_client client (sw_q w))
                  (qdwin_toplevel_for_secctx_app_id client w)) in
    let h := match tl with Some tl => handle tl | None => UINT32_MAX end in
    let joined := default "" (qdwin_pack_mime_types (pack_ok e) types) in
    let name := name_of i w in
    w ~> (fun w => if shell_version_ge 23 (sw_q w)
                   then match client with
                        | Some c => match qdwin_secctx_client_find c (sw_secctx w) with
                            | Some sc => sw_emit (selection_set_source_identity (sc_engine (xc_tag sc))
                                            (sc_app_id (xc_tag sc)) (sc_instance (xc_tag sc))) w
                            | None => w
                            end
                        | None => w
                        end
                   else w)
      ~> sw_emit (selection_set name h joined primary).

(** ** The selection of a seat *)

(** The client behind a surface, when it has one. *)
Section libweston.
Context (surface_client : Z -> option Z).

Definition focus_client (i : Z) (w : sel_world) : option Z :=
  match weston_seat_of i w with
  | Some s => if has_keyboard s
              then match kbd_focus s with Some f => surface_client f | None => None end
              else None
  | None => None
  end.

(** One device of the client: a new offer of the source, or nothing. *)
Definition send_to_device (src : option Z) (w : sel_world) (client : Z) : sel_world :=
  w ~> (fun w => match src with
                 | Some x => on_q (send_selection x (Some client)) w
                 | None => w
                 end)
    ~> sw_emit (data_device_selection client src).

Definition weston_seat_send_selection (i client : Z) (w : sel_world) : sel_world :=
  match sel_seat_of i w with
  | Some s => foldl (send_to_device (selection_data_source s)) w
                (List.filter (fun c => c =? client) (drag_resources s))
  | None => w
  end.

Definition wl_data_device_set_keyboard_focus (i : Z) (w : sel_world) : sel_world :=
  match focus_client i w with Some c => weston_seat_send_selection i c w | None => w end.

(** The plugin's listener. *)
Definition qdwin_on_seat_selection_changed (e : sel_env) (i : Z) (w : sel_world) : sel_world :=
  match weston_seat_of i w, sel_seat_of i w with
  | Some st, Some s =>
      if negb (tracked st) then w
      else match selection_data_source s with
      | None => w
      | Some src =>
          let client := match find_source src (sw_q w) with Some d => src_client d | None => None end in
          w ~> on_q (qdwin_install_data_source_wrap i src)
            ~> qdwin_emit_selection_set e i (types_of src w) false client
      end
  | _, _ => w
  end.

(** A source whose name the clipboard manager gave out. *)
Definition is_cache (src : Z) : bool := src <? 0.

(** [weston_seat_set_selection] around the listeners of [selection_signal]. *)
Definition set_selection_with (signal : sel_world -> sel_world) (i : Z) (src : option Z) (serial : Z)
    (w : sel_world) : sel_world :=
  match sel_seat_of i w with
  | None => w
  | Some s =>
      if bool_decide (selection_data_source s ≠ None)
         && (u32 (ss_serial s - serial) <? UINT32_MAX / 2)
      then w
      else
        w ~> (fun w => match selection_data_source s with
                       | Some old => if is_cache old then w else sw_emit (data_source_cancelled old) w
                       | None => w
                       end)
          ~> upd_sel i (fun s => s <| selection_data_source := src |> <| ss_serial := serial |>)
          ~> wl_data_device_set_keyboard_focus i
          ~> signal
  end.

Definition clipboard_source_unref (c : clipboard_source) (w : sel_world) : sel_world :=
  w ~> on_q (qdwin_data_source_wrap_on_source_destroy (cs_id c))
    ~> (fun w => w <| sw_types ::= List.filter (fun t => negb (t.1 =? cs_id c)) |>).

(** A cached copy of the first type; it joins the compositor's sources. *)
Definition clipboard_source_create (i : Z) (mime : string) (serial : Z) (w : sel_world) : sel_world :=
  let c := next_cache w in
  w ~> on_q (upd_clip (fun x => x <| data_sources ::=
                          cons (mk_data_source c original_send None None) |>))
    ~> (fun w => w <| sw_types ::= cons (c, [mime]) |> <| next_cache ::= Z.pred |>)
    ~> upd_sel i (fun s => s <| clip_cache := Some (mk_clipboard_source c serial) |>).

(** The clipboard manager's listener.  When the selection goes away it puts its
    cached copy in its place: the listeners of that second signal are itself,
    which knows its own source, and the plugin's. *)
Definition clipboard_set_selection (e : sel_env) (i : Z) (w : sel_world) : sel_world :=
  match sel_seat_of i w with
  | None => w
  | Some s =>
      match selection_data_source s with
      | None => match clip_cache s with
          | Some c => set_selection_with (qdwin_on_seat_selection_changed e i) i (Some (cs_id c))
                        (cs_serial c) w
          | None => w
          end
      | Some src =>
          if is_cache src then w
          else
            let w := match clip_cache s with Some c => clipboard_source_unref c w | None => w end in
            let w := upd_sel i (fun s => s <| clip_cache := None |>) w in
            match types_of src w, pipe2 e with
            | mime :: _, Some fd =>
                w ~> on_q (data_offer_receive (timer_ok e) src (Some mime) fd)
                  ~> (fun w => if cache_ok e then clipboard_source_create i mime (ss_serial s) w else w)
            | _, _ => w
            end
      end
  end.

(** [selection_signal]: the clipboard manager was there first. *)
Definition selection_signal (e : sel_env) (i : Z) (w : sel_world) : sel_world :=
  w ~> clipboard_set_selection e i ~> qdwin_on_seat_selection_changed e i.

Definition weston_seat_set_selection (e : sel_env) (i : Z) (src : option Z) (serial : Z)
    : sel_world -> sel_world := set_selection_with (selection_signal e i) i src serial.

(** A client's request; a drag-and-drop source is refused. *)
Definition data_device_set_selection (e : sel_env) (i : Z) (src : option Z) (actions_set : bool)
    (serial : Z) (w : sel_world) : sel_world :=
  match src with
  | None => w
  | Some x => if actions_set then w else weston_seat_set_selection e i (Some x) serial w
  end.

Definition create_data_source (client id : Z) (w : sel_world) : sel_world :=
  w ~> on_q (upd_clip (fun c => c <| data_sources ::=
                           cons (mk_data_source id original_send (Some client) None) |>))
    ~> (fun w => w <| sw_types ::= cons (id, []) |>).

Definition data_source_offer (src : Z) (mime : string) (w : sel_world) : sel_world :=
  w <| sw_types ::= map (fun t => if t.1 =? src then (t.1, t.2 ++ [mime]) else t) |>.

Definition get_data_device (i client : Z) (w : sel_world) : sel_world :=
  upd_sel i (fun s => s <| drag_resources ::= cons client |>) w.

(** The selected source dies. *)
Definition destroy_selection_data_source (e : sel_env) (w : sel_world) (i : Z) : sel_world :=
  w ~> upd_sel i (fun s => s <| selection_data_source := None |>)
    ~> (fun w => match focus_client i w, sel_seat_of i w with
                 | Some c, Some s =>
                     if existsb (fun d => d =? c) (drag_resources s)
                     then sw_emit (data_device_selection c None) w else w
                 | _, _ => w
                 end)
    ~> selection_signal e i.

Definition destroy_data_source (e : sel_env) (src : Z) (w : sel_world) : sel_world :=
  w ~> on_q (qdwin_data_source_wrap_on_source_destroy src)
    ~> (fun w => foldl (destroy_selection_data_source e) w
                   (map ss_id (List.filter (fun s => bool_decide (selection_data_source s = Some src))
                                 (sw_seats w))))
    ~> (fun w => w <| sw_types ::= List.filter (fun t => negb (t.1 =? src)) |>).

(** ** Keyboard focus *)

Definition sel_set_keyboard_focus (i : Z) (surface : option Z) (w : sel_world) : sel_world :=
  match weston_seat_of i w with
  | Some s =>
      if has_keyboard s && negb (bool_decide (kbd_focus s = surface))
      then w ~> on_q (weston_keyboard_set_focus i surface) ~> wl_data_device_set_keyboard_focus i
      else w
  | None => w
  end.

Definition view_activate_input (tl : toplevel) (i : Z) : sel_world -> sel_world :=
  sel_set_keyboard_focus i (focusable_surface tl).

(** ** The shell's requests *)

(** The guards a request of the bound, unlocked shell passes. *)
Definition shell_unlocked (r : wl_resource) (k : sel_world -> sel_world) (w : sel_world) : sel_world :=
  if negb (qdwin_shell_require_bound r (sw_q w)) then on_q (emit (post_error (res_id r) SHELL_NOT_BOUND)) w
  else if locked (sw_q w) then on_q (emit (post_error (res_id r) SHELL_LOCKED)) w
  else k w.

Definition seat_by_name (name : string) (w : sel_world) : option Z :=
  ss_id <$> List.find (fun s => bool_decide (seat_name s = Some name)) (sw_seats w).

Definition wl_display_next_serial (w : sel_world) : Z * sel_world :=
  let n := u32_succ (display_serial w) in (n, w <| display_serial := n |>).

(** [weston_seat_set_selection(seat, NULL, fresh serial)]. *)
Definition drop_selection (e : sel_env) (i : Z) (w : sel_world) : sel_world :=
  let '(n, w) := wl_display_next_serial w in weston_seat_set_selection e i None n w.

Definition drop_primary (i : Z) (w : sel_world) : sel_world :=
  on_primary (fun p => match qdwin_primary_seat_find i p with
                       | Some s => qdwin_primary_seat_clear_selection (ps_id s) true p
                       | None => p
                       end) w.

Definition qdwin_handle_clear_selection (e : sel_env) (r : wl_resource) (name : string)
    (is_primary : bool) : sel_world -> sel_world :=
  shell_unlocked r (fun w =>
    match seat_by_name name w with
    | None => w
    | Some i =>
        if is_primary
        then match qdwin_primary_seat_find i (sw_primary w) with
             | Some p => if qdwin_primary_seat_has_source p then drop_primary i w else w
             | None => w
             end
        else match sel_seat_of i w with
             | Some s => if bool_decide (selection_data_source s = None) then w else drop_selection e i w
             | None => w
             end
    end).

(** The view to activate: [None] when the request is refused, [Some None] when
    the focus is to be cleared. *)
Definition focus_target (h : Z) (w : sel_world) : option (option toplevel) :=
  if h =? UINT32_MAX then Some None
  else match qdwin_toplevel_from_handle h (sw_q w) with
  | Some tl => if proxy_pending tl then None
               else if view tl =? NULL_VIEW then None else Some (Some tl)
  | None => None
  end.

Definition qdwin_handle_set_keyboard_focus (e : sel_env) (r : wl_resource) (name : string) (h : Z)
    : sel_world -> sel_world :=
  shell_unlocked r (fun w =>
    match seat_by_name name w with
    | None => w
    | Some i =>
        match focus_target h w with
        | None => w
        | Some target =>
            w ~> drop_selection e i
              ~> drop_primary i
              ~> (fun w => match target with
                           | Some tl => view_activate_input tl i w
                           | None => match weston_seat_of i w with
                               | Some s => if has_keyboard s
                                           then on_q (weston_keyboard_set_focus i None) w else w
                               | None => w
                               end
                           end)
              ~> on_q (qdwin_emit_seat_focus_changed i h)
        end
    end).

Definition qdwin_seat_tracker_silo (i : Z) (w : sel_world) : string :=
  match weston_seat_of i w, sel_seat_of i w with
  | Some st, Some s => if tracked st then default "" (last_target_silo s) else ""
  | _, _ => ""
  end.

Definition qdwin_seat_tracker_set_silo (i : Z) (silo : option string) (w : sel_world) : sel_world :=
  match weston_seat_of i w with
  | Some st => if tracked st then upd_sel i (fun s => s <| last_target_silo := silo |>) w else w
  | None => w
  end.

Definition cross_silo (h : Z) (prev new : string) : bool :=
  if h =? UINT32_MAX then true
  else negb (negb (String.eqb new "") && negb (String.eqb prev "") && String.eqb new prev).

Definition qdwin_handle_set_keyboard_focus_v2 (e : sel_env) (r : wl_resource) (name : string) (h : Z)
    (target_silo : option string) : sel_world -> sel_world :=
  shell_unlocked r (fun w =>
    match seat_by_name name w with
    | None => w
    | Some i =>
        match focus_target h w with
        | None => w
        | Some target =>
            let prev := qdwin_seat_tracker_silo i w in
            let new := default "" target_silo in
            w ~> (fun w => if cross_silo h prev new then w ~> drop_selection e i ~> drop_primary i else w)
              ~> (fun w => match target with
                           | Some tl => view_activate_input tl i w
                           | None => sel_set_keyboard_focus i None w
                           end)
              ~> qdwin_seat_tracker_set_silo i
                   (if (h =? UINT32_MAX) || String.eqb new "" then None else Some new)
              ~> on_q (qdwin_emit_seat_focus_changed i h)
        end
    end).

(** ** The primary selection *)

(** The request of [Primary] with its announcement to the shell. *)
Definition qdwin_primary_device_set_selection (e : sel_env) (d : Z) (src : option Z) (serial : Z)
    (w : sel_world) : sel_world :=
  let '(p, set) := primary_set_selection (offer_ok e) d src serial (sw_primary w) in
  let w' := w <| sw_primary := p |> in
  match set, device_of d p with
  | Some x, Some v => match pd_pseat v with
      | Some ps => match pseat_of ps p, source_of x p with
          | Some s, Some z => qdwin_emit_selection_set e (ps_seat s) (mime_types z) true
                                (Some (s_client z)) w'
          | _, _ => w'
          end
      | None => w'
      end
  | _, _ => w'
  end.
End libweston.
