(* ===== verification/SelectionFacts.v ===== *)
(** * SelectionFacts: what survives a change of silo

    The list of types the shell is told, and the gate around the seat's
    selection: whatever the clients, the clipboard manager and the shell do, a
    source that is the selection of a tracked seat answers a receive through
    the plugin only; and after a focus change across silos nothing of the
    previous selection can be read. *)

From Stdlib Require Import Ascii.
From stdpp Require Import base list gmap strings option.
From S2P Require Import Prelude Logic Scene State Toplevel Focus Clipboard ClipboardFacts Procfs Environ Secctx Primary PrimaryFacts PrimaryTheorems Selection.
From stdpp Require Import list.
Import Policy.
#[local] Open Scope Z_scope.

(** ** The packed list of types *)

(** The reader's side: the list is split at every line feed. *)
Fixpoint split_lf (cur : string) (s : string) : list string :=
  match s with
  | EmptyString => [cur]
  | String c s => if Ascii.eqb c QDWIN_LF then cur :: split_lf "" s
                  else split_lf (cur +:+ String c "") s
  end.

Definition kept (types : list string) : list string :=
  map sanitize (List.filter (fun s => negb (String.eqb s "")) types).

Fixpoint all_chars (P : ascii -> bool) (s : string) : bool :=
  match s with EmptyString => true | String c s => P c && all_chars P s end.

(** A printable ASCII byte. *)
Definition is_printable (c : ascii) : bool := (32 <=? N_of_ascii c)%N && (N_of_ascii c <=? 126)%N.

Lemma printable_ok c : is_printable (printable c) = true.
Proof.
  unfold printable, is_printable. destruct ((32 <=? N_of_ascii c)%N && _) eqn:E; [done|reflexivity].
Qed.

Lemma printable_not_lf c : Ascii.eqb (printable c) QDWIN_LF = false.
Proof.
  pose proof (printable_ok c) as H. destruct (Ascii.eqb_spec (printable c) QDWIN_LF) as [E|]; [|done].
  rewrite E in H. discriminate.
Qed.

Lemma length_sanitize s : String.length (sanitize s) = String.length s.
Proof. induction s; simpl; congruence. Qed.

Lemma split_sanitized cur s t :
  split_lf cur (sanitize s +:+ t) = split_lf (cur +:+ sanitize s) t.
Proof.
  revert cur. induction s as [|c s IH]; intros cur; [by rewrite string_app_nil|].
  simpl. rewrite printable_not_lf, IH.
  by rewrite string_app_assoc.
Qed.

Lemma split_packed cur types :
  split_lf cur (pack_from false types) = cur :: kept types.
Proof.
  revert cur. induction types as [|s types IH]; intros cur; [done|]. unfold kept in *. simpl.
  destruct (String.eqb s "") eqn:E; simpl; [apply IH|].
  change ("" +:+ ?x) with x. by rewrite split_sanitized, IH.
Qed.

Lemma split_first types :
  kept types <> [] -> split_lf "" (pack_from true types) = kept types.
Proof.
  induction types as [|s types IH]; [done|]. unfold kept in *. simpl.
  destruct (String.eqb s "") eqn:E; simpl; [apply IH|]. intros _.
  change ("" +:+ ?x) with x. by rewrite split_sanitized, split_packed.
Qed.

Lemma pack_empty b types : kept types = [] -> pack_from b types = "".
Proof.
  revert b. induction types as [|s types IH]; intros b; [done|]. unfold kept in *. simpl.
  destruct (String.eqb s ""); [apply IH|done].
Qed.

Lemma pack_length b types : (String.length (pack_from b types) <= pack_total types)%nat.
Proof.
  revert b. induction types as [|s types IH]; intros b; [done|]. simpl.
  destruct (String.eqb s "") eqn:E; [specialize (IH b); lia|].
  rewrite !length_string_app, length_sanitize. specialize (IH false). destruct b; simpl; lia.
Qed.

Lemma all_chars_app P a b : all_chars P (a +:+ b) = all_chars P a && all_chars P b.
Proof. induction a as [|c a IH]; [done|]. simpl. by rewrite IH, andb_assoc. Qed.

Lemma sanitize_printable s : all_chars is_printable (sanitize s) = true.
Proof. induction s; [done|]. simpl. by rewrite printable_ok. Qed.

Lemma all_chars_impl (P Q : ascii -> bool) s :
  (forall c, P c = true -> Q c = true) -> all_chars P s = true -> all_chars Q s = true.
Proof.
  intros H. induction s as [|c s IH]; [done|]. simpl. rewrite !andb_true_iff. intros [? ?]. auto.
Qed.

Lemma pack_chars b types :
  all_chars (fun c => is_printable c || Ascii.eqb c QDWIN_LF) (pack_from b types) = true.
Proof.
  revert b. induction types as [|s types IH]; intros b; [done|]. simpl.
  destruct (String.eqb s ""); [apply IH|]. rewrite !all_chars_app, IH, andb_true_r.
  assert (S : all_chars (fun c => is_printable c || Ascii.eqb c QDWIN_LF) (sanitize s) = true).
  { eapply all_chars_impl; [|apply sanitize_printable]. intros c H. by rewrite H. }
  rewrite S. by destruct b.
Qed.

(** The list of MIME types in the event that announces a selection: its
    buffer is never overrun, its bytes are printable ASCII and line feeds, and
    a reader that splits it at the line feeds gets back exactly the non-empty
    types, in order, each with its unprintable bytes replaced by a question
    mark, whatever bytes the client chose (line feeds included). *)
Theorem mime_list_roundtrip (types : list string) :
  exists s, qdwin_pack_mime_types true types = Some s
  /\ (String.length s <= pack_total types)%nat
  /\ all_chars (fun c => is_printable c || Ascii.eqb c QDWIN_LF) s = true
  /\ (if bool_decide (kept types = []) then s = ""%string else split_lf "" s = kept types).
Proof.
  exists (pack_from true types). split_and!.
  - unfold qdwin_pack_mime_types. destruct types as [|t types]; [done|]. simpl.
    destruct (Nat.eqb_spec (String.length t + 1 + pack_total types) 0); [lia|done].
  - apply pack_length.
  - apply pack_chars.
  - case_bool_decide as E; [by apply pack_empty|by apply split_first].
Qed.

(** ** Steps that leave sources and selections alone *)

Definition src_view (q : qdwin) (x : Z) : option (send_callback * option Z) :=
  (fun d => (src_send d, src_client d)) <$> find_source x q.
Definition sel_view (w : sel_world) (j : Z) : option (option Z * option clipboard_source) :=
  (fun s => (selection_data_source s, clip_cache s)) <$> sel_seat_of j w.
Definition q_tracked (q : qdwin) (j : Z) : bool :=
  match List.find (fun s => seat_id s =? j) (seats q) with Some st => tracked st | None => false end.

(** The same for the plugin alone. *)
Definition q_calm (q q' : qdwin) : Prop :=
  (forall x, src_view q' x = src_view q x) /\ (forall j, q_tracked q' j = q_tracked q j).

Record calm (w w' : sel_world) : Prop := {
  calm_q : q_calm (sw_q w) (sw_q w');
  calm_sel : forall j, sel_view w' j = sel_view w j;
  calm_next : next_cache w' = next_cache w
}.

#[global] Instance q_calm_preorder : PreOrder q_calm.
Proof.
  split; [done|]. intros a b c [H1 H2] [H3 H4]. split; intros k; [by rewrite H3|by rewrite H4].
Qed.
#[global] Instance calm_preorder : PreOrder calm.
Proof.
  split; [done|]. intros a b c [H1 H2 H3] [H4 H5 H6]. split; [by etrans| |congruence].
  intros j. by rewrite H5.
Qed.

Lemma q_calm_eq q q' :
  data_sources (clip q') = data_sources (clip q) -> seats q' = seats q -> q_calm q q'.
Proof.
  intros E S. split; intros k; unfold src_view, find_source, q_tracked; [by rewrite E|by rewrite S].
Qed.

Lemma calm_on_q f w : q_calm (sw_q w) (f (sw_q w)) -> calm w (on_q f w).
Proof. by split. Qed.
Lemma calm_sw_emit e w : calm w (sw_emit e w).
Proof. by split. Qed.

Lemma calm_foldl {A} (f : sel_world -> A -> sel_world) l w :
  (forall w a, calm w (f w a)) -> calm w (foldl f w l).
Proof. intros H. revert w. induction l as [|a l IH]; intros w; [done|]. simpl. etrans; [apply H|apply IH]. Qed.

Lemma q_calm_foldl {A} (f : qdwin -> A -> qdwin) l q :
  (forall q a, q_calm q (f q a)) -> q_calm q (foldl f q l).
Proof. intros H. revert q. induction l as [|a l IH]; intros q; [done|]. simpl. etrans; [apply H|apply IH]. Qed.

Lemma find_source_upd x y f q :
  (forall d, src_id (f d) = src_id d) ->
  find_source x (upd_source y f q) = if x =? y then option_map f (find_source x q) else find_source x q.
Proof. intros K. apply (find_upd_key src_id f x y (data_sources (clip q)) K). Qed.

Lemma q_calm_send_selection x c q : q_calm q (send_selection x c q).
Proof.
  split; [|done]. intros y. unfold src_view, send_selection. rewrite find_source_upd by done.
  destruct (y =? x); [|done]. by destruct (find_source y q).
Qed.

Lemma calm_send_to_device src w c : calm w (send_to_device src w c).
Proof.
  unfold send_to_device. etrans; [|apply calm_sw_emit]. destruct src as [x|]; [|done].
  apply calm_on_q, q_calm_send_selection.
Qed.

Lemma calm_send_selection i c w : calm w (weston_seat_send_selection i c w).
Proof.
  unfold weston_seat_send_selection. destruct (sel_seat_of i w); [|done].
  apply calm_foldl. intros. apply calm_send_to_device.
Qed.

Lemma calm_data_device_focus sc i w : calm w (wl_data_device_set_keyboard_focus sc i w).
Proof.
  unfold wl_data_device_set_keyboard_focus. destruct (focus_client sc i w); [|done].
  apply calm_send_selection.
Qed.

Lemma calm_emit_selection_set e i types p c w : calm w (qdwin_emit_selection_set e i types p c w).
Proof.
  unfold qdwin_emit_selection_set. destruct (negb _); [done|]. cbv zeta. etrans; [|apply calm_sw_emit].
  destruct (shell_version_ge 23 _); [|done]. destruct c as [c|]; [|done].
  destruct (qdwin_secctx_client_find _ _); [apply calm_sw_emit|done].
Qed.

Lemma q_calm_emit e q : q_calm q (emit e q).
Proof. by apply q_calm_eq. Qed.

Lemma q_calm_receive t x m fd q : q_calm q (data_offer_receive t x m fd q).
Proof.
  apply q_calm_eq; unfold data_offer_receive; destruct (find_source x q) as [d|]; try done;
    destruct (src_send d); try done; unfold qdwin_data_source_send_shim;
    repeat (match goal with |- context [match ?c with _ => _ end] => destruct c end; try done).
Qed.

Lemma q_calm_upd_seat i f q : (forall s, seat_id (f s) = seat_id s /\ tracked (f s) = tracked s) ->
  q_calm q (upd_seat i f q).
Proof.
  intros K. split; [done|]. intros j. unfold q_tracked, upd_seat. cbn [seats upd_field].
  rewrite (find_upd_key seat_id) by apply K. destruct (j =? i); [|done].
  destruct (List.find _ _) as [s|]; [|done]. simpl. apply K.
Qed.

Lemma q_calm_shell_send v e q : q_calm q (shell_send v e q).
Proof. unfold shell_send. destruct (shell_version_ge v q); [apply q_calm_emit|done]. Qed.

Lemma q_calm_emit_focus i q : q_calm q (qdwin_seat_emit_focus_now i q).
Proof.
  unfold qdwin_seat_emit_focus_now, with_seat. destruct (List.find _ _) as [s|]; [|done].
  destruct (negb _); [done|]. cbv zeta. destruct (_ =? _); [done|].
  set (h := focused_handle s q).
  transitivity (qdwin_emit_seat_focus_changed i h (upd_seat i (fun s => s <| last_focused_handle := h |>) q)).
  - etrans; [|apply q_calm_shell_send]. by apply q_calm_upd_seat.
  - destruct (_ && _); [|done]. by apply q_calm_upd_seat.
Qed.

Lemma q_calm_set_focus i f q : q_calm q (weston_keyboard_set_focus i f q).
Proof. etrans; [|apply q_calm_emit_focus]. by apply q_calm_upd_seat. Qed.

Lemma calm_set_focus sc i f w : calm w (sel_set_keyboard_focus sc i f w).
Proof.
  unfold sel_set_keyboard_focus. destruct (weston_seat_of i w); [|done].
  destruct (_ && _); [|done]. etrans; [|apply calm_data_device_focus].
  apply calm_on_q, q_calm_set_focus.
Qed.

Lemma calm_upd_sel i f w :
  (forall s, ss_id (f s) = ss_id s) ->
  (forall s, selection_data_source (f s) = selection_data_source s) ->
  (forall s, clip_cache (f s) = clip_cache s) -> calm w (upd_sel i f w).
Proof.
  intros K1 K2 K3. split; [done| |done]. intros j. unfold sel_view, sel_seat_of, upd_sel. cbn [sw_seats upd_field].
  rewrite (find_upd_key ss_id) by done. destruct (j =? i); [|done].
  destruct (List.find _ _); [|done]. simpl. by rewrite K2, K3.
Qed.

Lemma calm_set_silo i silo w : calm w (qdwin_seat_tracker_set_silo i silo w).
Proof.
  unfold qdwin_seat_tracker_set_silo. destruct (weston_seat_of i w) as [st|]; [|done].
  destruct (tracked st); [|done]. by apply calm_upd_sel.
Qed.

Lemma calm_drop_primary i w : calm w (drop_primary i w).
Proof. by split. Qed.

Lemma calm_primary_set e d src serial w :
  calm w (qdwin_primary_device_set_selection e d src serial w).
Proof.
  unfold qdwin_primary_device_set_selection.
  destruct (primary_set_selection _ _ _ _ _) as [p set].
  assert (B : calm w (w <| sw_primary := p |>)) by done.
  destruct set as [x|]; [|done]. destruct (device_of d p) as [v|]; [|done].
  destruct (pd_pseat v) as [ps|]; [|done]. destruct (pseat_of ps p); [|done].
  destruct (source_of x p); [|done]. etrans; [exact B|]. apply calm_emit_selection_set.
Qed.

(** ** The gate around the selection *)

(** The cached copies have no client and names of their own; the selection of
    a tracked seat, but for the seat [but] whose listeners have yet to run,
    does not answer a receive by itself. *)
Record sel_inv_but (but : option Z) (w : sel_world) : Prop := {
  si_anon : forall x v, x < 0 -> src_view (sw_q w) x = Some v -> v.2 = None;
  si_next : next_cache w < 0;
  si_cache : forall j sel c, sel_view w j = Some (sel, Some c) -> next_cache w < cs_id c < 0;
  si_sel : forall j x c, sel_view w j = Some (Some x, c) -> next_cache w < x;
  si_gated : forall j x c v, Some j <> but -> q_tracked (sw_q w) j = true ->
    sel_view w j = Some (Some x, c) -> src_view (sw_q w) x = Some v -> v.1 <> original_send
}.
Definition sel_inv : sel_world -> Prop := sel_inv_but None.

Lemma si_weaken but w : sel_inv w -> sel_inv_but but w.
Proof. intros I. split; try apply I. intros j x c v _. by apply (si_gated _ _ I). Qed.

Lemma si_calm but w w' : calm w w' -> sel_inv_but but w -> sel_inv_but but w'.
Proof.
  intros [[C1 C2] C3 C4] [I1 I2 I3 I4 I5]. split.
  - intros x v. rewrite C1. apply I1.
  - by rewrite C4.
  - intros j sel c. rewrite C3, C4. apply I3.
  - intros j x c. rewrite C3, C4. apply I4.
  - intros j x c v. rewrite C1, C2, C3. apply I5.
Qed.

Lemma sel_view_upd j i f w :
  (forall s, ss_id (f s) = ss_id s) ->
  sel_view (upd_sel i f w) j
  = if j =? i then (fun s => (selection_data_source (f s), clip_cache (f s))) <$> sel_seat_of j w
    else sel_view w j.
Proof.
  intros K. unfold sel_view, sel_seat_of, upd_sel. cbn [sw_seats upd_field].
  rewrite (find_upd_key ss_id) by done. destruct (j =? i); [|done]. by destruct (List.find _ _).
Qed.

(** A new selection: the gate is open until the listeners have run. *)
Lemma si_select i src serial w :
  (forall x, src = Some x -> next_cache w < x) -> sel_inv_but (Some i) w ->
  sel_inv_but (Some i) (upd_sel i (fun s => s <| selection_data_source := src |> <| ss_serial := serial |>) w).
Proof.
  intros B [I1 I2 I3 I4 I5]. set (f := fun s : sel_seat => _).
  assert (V : forall j, sel_view (upd_sel i f w) j
    = if j =? i then (fun v => (src, v.2)) <$> sel_view w j else sel_view w j).
  { intros j. rewrite sel_view_upd by done. unfold sel_view. destruct (j =? i); [|done].
    by destruct (sel_seat_of j w). }
  split; try done.
  - intros j sel c. rewrite V. destruct (j =? i); [|apply I3].
    destruct (sel_view w j) as [[sel' c']|] eqn:E; [|done]. intros ?. simplify_eq/=. by eapply I3.
  - intros j x c. rewrite V. destruct (j =? i); [|apply I4].
    destruct (sel_view w j) as [[sel' c']|] eqn:E; [|done]. intros ?. simplify_eq/=. by apply B.
  - intros j x c v N T. rewrite V. destruct (Z.eqb_spec j i) as [->|]; [done|]. by apply I5.
Qed.

Lemma src_view_install i x q y :
  src_view (qdwin_install_data_source_wrap i x q) y
  = if y =? x then (fun v => (match v.1 with original_send => send_shim | s => s end, v.2)) <$> src_view q y
    else src_view q y.
Proof.
  unfold qdwin_install_data_source_wrap, src_view.
  destruct (find_source x q) as [d|] eqn:D.
  2:{ destruct (Z.eqb_spec y x) as [->|]; [by rewrite D|done]. }
  assert (K : src_send d <> original_send -> src_view q y
    = if y =? x then (fun v => (match v.1 with original_send => send_shim | s => s end, v.2)) <$> src_view q y
      else src_view q y).
  { intros N. unfold src_view. destruct (Z.eqb_spec y x) as [->|]; [|done]. rewrite D. simpl.
    by destruct (src_send d). }
  destruct (src_send d) eqn:S; [by apply K| |by apply K].
  set (q1 := upd_source x (fun s => s <| src_send := send_shim |>) q).
  assert (V : (fun d => (src_send d, src_client d)) <$> find_source y q1
    = if y =? x then (fun v => (match v.1 with original_send => send_shim | s => s end, v.2))
          <$> ((fun d => (src_send d, src_client d)) <$> find_source y q)
      else (fun d => (src_send d, src_client d)) <$> find_source y q).
  { unfold q1. rewrite find_source_upd by done. destruct (Z.eqb_spec y x) as [->|]; [|done].
    rewrite D. simpl. by rewrite S. }
  destruct (oom q); exact V.
Qed.

Lemma tracked_install i x q j : q_tracked (qdwin_install_data_source_wrap i x q) j = q_tracked q j.
Proof.
  unfold qdwin_install_data_source_wrap. destruct (find_source x q) as [d|]; [|done].
  destruct (src_send d); try done. by destruct (oom q).
Qed.

(** Wrapping a source only ever closes gates. *)
Lemma si_install but i x w :
  sel_inv_but but w -> sel_inv_but but (on_q (qdwin_install_data_source_wrap i x) w).
Proof.
  intros [I1 I2 I3 I4 I5]. split; try done.
  - intros y v N. cbn. rewrite src_view_install. destruct (y =? x); [|by apply I1].
    destruct (src_view (sw_q w) y) as [u|] eqn:U; [|done]. intros ?. simplify_eq/=. by eapply I1.
  - intros j y c v N. cbn. rewrite tracked_install, src_view_install. intros T S.
    destruct (y =? x); [|by eapply I5].
    destruct (src_view (sw_q w) y) as [u|] eqn:U; [|done]. intros ?. simplify_eq/=. by destruct (u.1).
Qed.

(** The plugin's listener closes the gate of its seat. *)
Lemma si_listener e i w :
  sel_inv_but (Some i) w -> sel_inv (qdwin_on_seat_selection_changed e i w).
Proof.
  intros I. unfold qdwin_on_seat_selection_changed, weston_seat_of.
  assert (Q : forall w', sel_inv_but (Some i) w' ->
    (forall x c v, q_tracked (sw_q w') i = true -> sel_view w' i = Some (Some x, c) ->
       src_view (sw_q w') x = Some v -> v.1 <> original_send) -> sel_inv w').
  { intros w' [I1 I2 I3 I4 I5] H. split; try done. intros j x c v _ T S V.
    destruct (Z.eq_dec j i) as [->|N]; [by eapply H|]. eapply I5; eauto. congruence. }
  destruct (List.find _ _) as [st|] eqn:T.
  2:{ apply Q; [done|]. intros x c v. unfold q_tracked. by rewrite T. }
  destruct (sel_seat_of i w) as [s|] eqn:S.
  2:{ apply Q; [done|]. intros x c v _. unfold sel_view. by rewrite S. }
  destruct (tracked st) eqn:Ts; simpl.
  2:{ apply Q; [done|]. intros x c v. unfold q_tracked. by rewrite T, Ts. }
  destruct (selection_data_source s) as [x|] eqn:X.
  2:{ apply Q; [done|]. intros y c v _. unfold sel_view. rewrite S. simpl. by rewrite X. }
  eapply si_calm; [apply calm_emit_selection_set|]. apply Q; [by apply si_install|].
  intros y c v _. change (sel_view (on_q _ w) i) with (sel_view w i).
  change (sw_q (on_q ?f w)) with (f (sw_q w)). unfold sel_view at 1. rewrite S. simpl. rewrite X. intros ?. simplify_eq. rewrite src_view_install, Z.eqb_refl.
  destruct (src_view (sw_q w) y) as [u|]; [|done]. intros ?. simplify_eq/=. by destruct (u.1).
Qed.

(** *** Setting the selection *)

Section set_selection.
Context (surface_client : Z -> option Z).

Lemma si_set_with signal i src serial w :
  (forall x, src = Some x -> next_cache w < x) ->
  (forall w, sel_inv_but (Some i) w -> sel_inv (signal w)) ->
  sel_inv_but (Some i) w ->
  sel_inv_but (Some i) (set_selection_with surface_client signal i src serial w)
  /\ (sel_inv w -> sel_inv (set_selection_with surface_client signal i src serial w)).
Proof.
  intros B Sg I. unfold set_selection_with. destruct (sel_seat_of i w) as [s|]; [|done].
  destruct (_ && _); [done|].
  set (w1 := match selection_data_source s with Some _ => _ | None => _ end).
  assert (C : calm w w1).
  { unfold w1. destruct (selection_data_source s) as [o|]; [|done]. by destruct (is_cache o). }
  clearbody w1. cbv zeta.
  assert (R : sel_inv (signal (wl_data_device_set_keyboard_focus surface_client i
    (upd_sel i (fun s => s <| selection_data_source := src |> <| ss_serial := serial |>) w1)))).
  { apply Sg. eapply si_calm; [apply calm_data_device_focus|]. apply si_select.
    - by rewrite (calm_next _ _ C).
    - by eapply si_calm. }
  split; [by apply si_weaken|done].
Qed.

Lemma free_matching_calm sel q : q_calm q (free_matching sel q).
Proof.
  apply q_calm_eq; unfold free_matching; [apply free_list_clip|].
  generalize (List.filter sel (data_offers (clip q))). intros l. revert q.
  induction l as [|p l IH]; intros q; [done|]. simpl. by rewrite IH.
Qed.

Lemma src_view_destroy x q y :
  src_view (qdwin_data_source_wrap_on_source_destroy x q) y = if y =? x then None else src_view q y.
Proof.
  unfold qdwin_data_source_wrap_on_source_destroy. cbv zeta.
  set (q1 := match qdwin_data_source_wrap_find x q with Some _ => _ | None => _ end).
  assert (E : src_view q1 y = src_view q y).
  { unfold q1. destruct (qdwin_data_source_wrap_find x q); [|done]. apply free_matching_calm. }
  rewrite <-E. unfold src_view, find_source, upd_clip. cbn. rewrite (find_remove_key src_id).
  by destruct (y =? x).
Qed.

Lemma tracked_destroy x q j : q_tracked (qdwin_data_source_wrap_on_source_destroy x q) j = q_tracked q j.
Proof.
  unfold qdwin_data_source_wrap_on_source_destroy. cbv zeta.
  set (q1 := match qdwin_data_source_wrap_find x q with Some _ => _ | None => _ end).
  change (q_tracked q1 j = q_tracked q j).
  unfold q1. destruct (qdwin_data_source_wrap_find x q); [|done]. apply free_matching_calm.
Qed.

(** A source goes away. *)
Lemma si_destroy but x f w :
  sel_inv_but but w ->
  sel_inv_but but ((on_q (qdwin_data_source_wrap_on_source_destroy x) w) <| sw_types ::= f |>).
Proof.
  intros [I1 I2 I3 I4 I5]. split; try done.
  - intros y v N H. change (src_view (qdwin_data_source_wrap_on_source_destroy x (sw_q w)) y = Some v) in H.
    rewrite src_view_destroy in H. destruct (y =? x); [done|]. by eapply I1.
  - intros j y c v N T S H.
    change (q_tracked (qdwin_data_source_wrap_on_source_destroy x (sw_q w)) j = true) in T.
    change (src_view (qdwin_data_source_wrap_on_source_destroy x (sw_q w)) y = Some v) in H.
    rewrite src_view_destroy in H. rewrite tracked_destroy in T. destruct (y =? x); [done|].
    by eapply I5.
Qed.

Lemma si_forget_cache but i w :
  sel_inv_but but w -> sel_inv_but but (upd_sel i (fun s => s <| clip_cache := None |>) w).
Proof.
  intros [I1 I2 I3 I4 I5]. set (f := fun s : sel_seat => _).
  assert (V : forall j, sel_view (upd_sel i f w) j
    = if j =? i then (fun v => (v.1, None)) <$> sel_view w j else sel_view w j).
  { intros j. rewrite sel_view_upd by done. unfold sel_view. destruct (j =? i); [|done].
    by destruct (sel_seat_of j w). }
  split; try done.
  - intros j sel c. rewrite V. destruct (j =? i); [|apply I3]. by destruct (sel_view w j).
  - intros j x c. rewrite V. destruct (j =? i); [|apply I4].
    destruct (sel_view w j) as [[sel' c']|] eqn:E; [|done]. intros ?. simplify_eq/=. by eapply I4.
  - intros j x c v N T. rewrite V. destruct (j =? i); [|by apply I5].
    destruct (sel_view w j) as [[sel' c']|] eqn:E; [|done]. intros ?. simplify_eq/=. by eapply I5.
Qed.

(** The new copy has the next name: no seat selects it yet. *)
Lemma si_create_cache but i mime serial w :
  sel_inv_but but w -> sel_inv_but but (clipboard_source_create i mime serial w).
Proof.
  intros [I1 I2 I3 I4 I5]. set (n := next_cache w) in *.
  set (w' := clipboard_source_create i mime serial w).
  assert (S : forall y, src_view (sw_q w') y
    = if n =? y then Some (original_send, None) else src_view (sw_q w) y).
  { intros y. unfold w', clipboard_source_create, src_view, find_source. cbn. fold n. by destruct (n =? y). }
  assert (V : forall j, sel_view w' j
    = if j =? i then (fun v => (v.1, Some (mk_clipboard_source n serial))) <$> sel_view w j else sel_view w j).
  { intros j. unfold w', clipboard_source_create. cbv zeta. rewrite sel_view_upd by done.
    unfold sel_view. change (sel_seat_of j _) with (sel_seat_of j w). destruct (j =? i); [|done].
    by destruct (sel_seat_of j w). }
  assert (T : forall j, q_tracked (sw_q w') j = q_tracked (sw_q w) j) by done.
  assert (N : next_cache w' = n - 1) by done. clearbody w'.
  split; rewrite ?N.
  - intros y v Y. rewrite S. destruct (n =? y); [|by apply I1]. intros ?. by simplify_eq.
  - lia.
  - intros j sel c. rewrite V. destruct (j =? i).
    + destruct (sel_view w j) as [[sel' c']|]; [|done]. intros ?. simplify_eq/=. lia.
    + intros H%I3. lia.
  - intros j x c. rewrite V. destruct (j =? i).
    + destruct (sel_view w j) as [[sel' c']|] eqn:E; [|done]. intros ?. simplify_eq/=. apply I4 in E. lia.
    + intros H%I4. lia.
  - intros j x c v Nb. rewrite T, V. intros Tr E.
    assert (exists c', sel_view w j = Some (Some x, c')) as [c' E'].
    { destruct (j =? i); [|eauto]. destruct (sel_view w j) as [[sel' c']|]; [|done].
      simplify_eq/=. eauto. }
    rewrite S. destruct (Z.eqb_spec n x) as [->|]; [apply I4 in E'; lia|]. by eapply I5.
Qed.

Lemma si_clipboard e i w :
  sel_inv_but (Some i) w -> sel_inv_but (Some i) (clipboard_set_selection surface_client e i w).
Proof.
  intros I. unfold clipboard_set_selection. destruct (sel_seat_of i w) as [s|] eqn:S; [|done].
  destruct (selection_data_source s) as [x|] eqn:X.
  - destruct (is_cache x); [done|]. cbv zeta.
    set (w1 := match clip_cache s with Some _ => _ | None => _ end).
    assert (I1 : sel_inv_but (Some i) w1).
    { unfold w1. destruct (clip_cache s); [by apply si_destroy|done]. }
    clearbody w1. apply (si_forget_cache _ i) in I1.
    set (w2 := upd_sel i _ w1) in *. clearbody w2.
    destruct (types_of x w2) as [|m ms]; [done|]. destruct (pipe2 e) as [fd|]; [|done].
    assert (I2 : sel_inv_but (Some i) (on_q (data_offer_receive (timer_ok e) x (Some m) fd) w2)).
    { eapply si_calm; [|done]. apply calm_on_q, q_calm_receive. }
    destruct (cache_ok e); [by apply si_create_cache|done].
  - destruct (clip_cache s) as [c|] eqn:C; [|done].
    apply si_set_with; [|apply si_listener|done]. intros y ?. simplify_eq.
    apply (si_cache _ _ I i None). unfold sel_view. rewrite S. simpl. by rewrite X, C.
Qed.

Lemma si_signal e i w : sel_inv_but (Some i) w -> sel_inv (selection_signal surface_client e i w).
Proof. intros I. by apply si_listener, si_clipboard. Qed.

Lemma si_set e i src serial w :
  (forall x, src = Some x -> next_cache w < x) -> sel_inv w ->
  sel_inv (weston_seat_set_selection surface_client e i src serial w).
Proof.
  intros B I. apply si_set_with; [done|apply si_signal|by apply si_weaken|done].
Qed.

Lemma si_drop e i w : sel_inv w -> sel_inv (drop_selection surface_client e i w).
Proof.
  intros I. unfold drop_selection, wl_display_next_serial. cbv zeta. apply si_set; [done|].
  by eapply si_calm; [|exact I].
Qed.

Lemma si_destroy_selection e w i :
  sel_inv w -> sel_inv (destroy_selection_data_source surface_client e w i).
Proof.
  intros I. unfold destroy_selection_data_source. cbv zeta. apply si_signal.
  assert (I1 : sel_inv_but (Some i) (upd_sel i (fun s => s <| selection_data_source := None |>) w)).
  { apply (si_weaken (Some i)) in I as [I1 I2 I3 I4 I5]. set (f := fun s : sel_seat => _).
    assert (V : forall j, sel_view (upd_sel i f w) j
      = if j =? i then (fun v => (None, v.2)) <$> sel_view w j else sel_view w j).
    { intros j. rewrite sel_view_upd by done. unfold sel_view. destruct (j =? i); [|done].
      by destruct (sel_seat_of j w). }
    split; try done.
    - intros j sel c. rewrite V. destruct (j =? i); [|apply I3].
      destruct (sel_view w j) as [[sel' c']|] eqn:E; [|done]. intros ?. simplify_eq/=. by eapply I3.
    - intros j x c. rewrite V. destruct (j =? i); [|apply I4]. by destruct (sel_view w j).
    - intros j x c v N T. rewrite V. destruct (j =? i); [by destruct (sel_view w j)|]. by apply I5. }
  eapply si_calm; [|exact I1]. destruct (focus_client _ _ _); [|done].
  destruct (sel_seat_of _ _); [|done]. by destruct (existsb _ _).
Qed.

Lemma si_destroy_source e x w : sel_inv w -> sel_inv (destroy_data_source surface_client e x w).
Proof.
  intros I. unfold destroy_data_source. cbv zeta.
  assert (I1 : sel_inv (on_q (qdwin_data_source_wrap_on_source_destroy x) w))
    by exact (si_destroy None x (fun t => t) w I).
  set (w1 := on_q _ w) in *. clearbody w1. set (l := map ss_id _). clearbody l.
  assert (R : sel_inv (foldl (destroy_selection_data_source surface_client e) w1 l)).
  { revert w1 I1. induction l as [|j l IH]; intros w1 I1; [done|]. simpl. apply IH.
    by apply si_destroy_selection. }
  by eapply si_calm; [|exact R].
Qed.

(** A new source: no seat selects it. *)
Lemma si_create_source c id w :
  0 <= id -> (forall j, (sel_view w j ≫= fst) <> Some id) -> sel_inv w -> sel_inv (create_data_source c id w).
Proof.
  intros P F [I1 I2 I3 I4 I5]. set (w' := create_data_source c id w).
  assert (S : forall y, src_view (sw_q w') y
    = if id =? y then Some (original_send, Some c) else src_view (sw_q w) y).
  { intros y. unfold w', create_data_source, src_view, find_source. cbn. by destruct (id =? y). }
  split; try done.
  - intros y v N. rewrite S. destruct (Z.eqb_spec id y); [lia|]. by apply I1.
  - intros j y k v N T E. rewrite S. destruct (Z.eqb_spec id y) as [->|]; [|by eapply I5].
    destruct (F j). change (sel_view w j = Some (Some y, k)) in E. by rewrite E.
Qed.

(** *** The shell's requests *)

Lemma si_guard r k w :
  (forall w, sel_inv w -> sel_inv (k w)) -> sel_inv w -> sel_inv (shell_unlocked r k w).
Proof.
  intros K I. unfold shell_unlocked. destruct (negb _).
  { by eapply si_calm; [apply calm_on_q, q_calm_emit|]. }
  destruct (locked _); [|auto]. by eapply si_calm; [apply calm_on_q, q_calm_emit|].
Qed.

Lemma si_clear e r name p w :
  sel_inv w -> sel_inv (qdwin_handle_clear_selection surface_client e r name p w).
Proof.
  apply si_guard. clear w. intros w I. destruct (seat_by_name name w) as [i|]; [|done]. destruct p.
  - destruct (qdwin_primary_seat_find _ _) as [ps|]; [|done].
    destruct (qdwin_primary_seat_has_source ps); [|done]. by eapply si_calm; [apply calm_drop_primary|].
  - destruct (sel_seat_of i w); [|done]. destruct (bool_decide _); [done|by apply si_drop].
Qed.

Lemma calm_focus_changed i h w : calm w (on_q (qdwin_emit_seat_focus_changed i h) w).
Proof. apply calm_on_q, q_calm_shell_send. Qed.

Lemma si_focus e r name h w :
  sel_inv w -> sel_inv (qdwin_handle_set_keyboard_focus surface_client e r name h w).
Proof.
  apply si_guard. clear w. intros w I. destruct (seat_by_name name w) as [i|]; [|done].
  destruct (focus_target h w) as [tl|]; [|done]. cbv zeta.
  eapply si_calm; [apply calm_focus_changed|].
  assert (I1 : sel_inv (drop_primary i (drop_selection surface_client e i w))).
  { eapply si_calm; [apply calm_drop_primary|]. by apply si_drop. }
  eapply si_calm; [|exact I1]. destruct tl as [tl|]; [apply calm_set_focus|].
  destruct (weston_seat_of _ _) as [st|]; [|done]. destruct (has_keyboard st); [|done].
  apply calm_on_q, q_calm_set_focus.
Qed.

Lemma calm_v2_tail i h (target : option toplevel) silo w :
  calm w (w ~> (fun w => match target with
                         | Some tl => view_activate_input surface_client tl i w
                         | None => sel_set_keyboard_focus surface_client i None w
                         end)
            ~> qdwin_seat_tracker_set_silo i silo ~> on_q (qdwin_emit_seat_focus_changed i h)).
Proof.
  etrans; [|apply calm_focus_changed]. etrans; [|apply calm_set_silo].
  destruct target; apply calm_set_focus.
Qed.

Lemma si_focus_v2 e r name h silo w :
  sel_inv w -> sel_inv (qdwin_handle_set_keyboard_focus_v2 surface_client e r name h silo w).
Proof.
  apply si_guard. clear w. intros w I. destruct (seat_by_name name w) as [i|]; [|done].
  destruct (focus_target h w) as [tl|]; [|done]. eapply si_calm; [apply calm_v2_tail|].
  destruct (cross_silo _ _ _); [|done]. eapply si_calm; [apply calm_drop_primary|]. by apply si_drop.
Qed.
End set_selection.

(** ** Runs *)

(** The requests of clients and shell around the selection; [st_outside] is a
    step of any other component, which leaves sources and trackers alone. *)
Inductive sel_step (sc : Z -> option Z) : sel_world -> sel_world -> Prop :=
| st_create c id w : 0 <= id -> (forall j, (sel_view w j ≫= fst) <> Some id) ->
    sel_step sc w (create_data_source c id w)
| st_offer x m w : sel_step sc w (data_source_offer x m w)
| st_device i c w : sel_step sc w (get_data_device i c w)
| st_set e i src dnd serial w : (forall x, src = Some x -> 0 <= x) ->
    sel_step sc w (data_device_set_selection sc e i src dnd serial w)
| st_destroy e x w : sel_step sc w (destroy_data_source sc e x w)
| st_receive t x m fd w : sel_step sc w (on_q (data_offer_receive t x m fd) w)
| st_primary e d src serial w : sel_step sc w (qdwin_primary_device_set_selection e d src serial w)
| st_clear e r name p w : sel_step sc w (qdwin_handle_clear_selection sc e r name p w)
| st_focus e r name h w : sel_step sc w (qdwin_handle_set_keyboard_focus sc e r name h w)
| st_focus_v2 e r name h silo w :
    sel_step sc w (qdwin_handle_set_keyboard_focus_v2 sc e r name h silo w)
| st_outside q x p n w : q_calm (sw_q w) q ->
    sel_step sc w (w <| sw_q := q |> <| sw_secctx := x |> <| sw_primary := p |> <| display_serial := n |>).

(** No source, no selection yet. *)
Definition sel_start (w : sel_world) : Prop :=
  data_sources (clip (sw_q w)) = [] /\ next_cache w = -1
  /\ forall j v, sel_view w j = Some v -> v = (None, None).

Lemma si_start w : sel_start w -> sel_inv w.
Proof.
  intros (D & N & V). split; rewrite ?N.
  - intros x v _. unfold src_view, find_source. by rewrite D.
  - lia.
  - intros j sel c E. apply V in E. simplify_eq.
  - intros j x c E. apply V in E. simplify_eq.
  - intros j x c v _ _ E. apply V in E. simplify_eq.
Qed.

Lemma si_step sc w w' : sel_step sc w w' -> sel_inv w -> sel_inv w'.
Proof.
  intros S I. destruct S.
  - by apply si_create_source.
  - by eapply si_calm; [|exact I].
  - eapply si_calm; [|exact I]. by apply calm_upd_sel.
  - unfold data_device_set_selection. destruct src as [x|]; [|done]. destruct dnd; [done|].
    apply si_set; [|done]. intros y ?. simplify_eq. pose proof (si_next _ _ I). specialize (H y eq_refl). lia.
  - by apply si_destroy_source.
  - eapply si_calm; [|exact I]. apply calm_on_q, q_calm_receive.
  - by eapply si_calm; [apply calm_primary_set|].
  - by apply si_clear.
  - by apply si_focus.
  - by apply si_focus_v2.
  - eapply si_calm; [|exact I]. by split.
Qed.

Lemma si_run sc w0 w : sel_start w0 -> rtc (sel_step sc) w0 w -> sel_inv w.
Proof.
  intros S R. assert (I : sel_inv w0) by (by apply si_start). clear S.
  induction R as [|w1 w2 w3 St _ IH]; [done|]. apply IH. by eapply si_step.
Qed.

(** *** What is left of a dropped selection *)

Definition serial_ahead (s : sel_seat) (n : Z) : bool := u32 (ss_serial s - n) <? UINT32_MAX / 2.

Lemma listener_view e i w j : sel_view (qdwin_on_seat_selection_changed e i w) j = sel_view w j.
Proof.
  unfold qdwin_on_seat_selection_changed. destruct (weston_seat_of i w) as [st|]; [|done].
  destruct (sel_seat_of i w) as [s|]; [|done]. destruct (negb _); [done|].
  destruct (selection_data_source s) as [x|]; [|done]. cbv zeta.
  by rewrite (calm_sel _ _ (calm_emit_selection_set _ _ _ _ _ _)).
Qed.

(** The seat after its selection was replaced, before the listeners run. *)
Lemma replaced_view sc signal i src serial w s :
  sel_seat_of i w = Some s ->
  bool_decide (selection_data_source s ≠ None) && serial_ahead s serial = false ->
  exists w1, set_selection_with sc signal i src serial w = signal w1
    /\ sel_view w1 i = Some (src, clip_cache s) /\ next_cache w1 = next_cache w.
Proof.
  intros S A. unfold set_selection_with. rewrite S. unfold serial_ahead in A. rewrite A. cbv zeta.
  set (w0 := match selection_data_source s with Some _ => _ | None => _ end).
  assert (C : calm w w0 /\ sel_seat_of i w0 = Some s).
  { unfold w0. destruct (selection_data_source s) as [o|]; [|done]. by destruct (is_cache o). }
  destruct C as [C S0]. clearbody w0. eexists. split; [reflexivity|].
  pose proof (calm_data_device_focus sc i (upd_sel i (fun s => s <| selection_data_source := src |>
     <| ss_serial := serial |>) w0)) as [_ V N]. rewrite V, N. split; [|by rewrite <-(calm_next _ _ C)].
  rewrite sel_view_upd, Z.eqb_refl, S0 by done. reflexivity.
Qed.

Lemma seat_view w j sel c :
  sel_view w j = Some (sel, c) ->
  exists s, sel_seat_of j w = Some s /\ selection_data_source s = sel /\ clip_cache s = c.
Proof.
  unfold sel_view. destruct (sel_seat_of j w) as [s|]; [|done]. intros ?. simplify_eq/=. eauto.
Qed.

(** Only the clipboard manager's copy can be the selection now. *)
Lemma drop_leaves_cache sc e i w s :
  sel_inv w -> sel_seat_of i w = Some s ->
  bool_decide (selection_data_source s ≠ None) && serial_ahead s (u32_succ (display_serial w)) = false ->
  sel_view (drop_selection sc e i w) i = Some (cs_id <$> clip_cache s, clip_cache s).
Proof.
  intros I S A. unfold drop_selection, wl_display_next_serial. cbv zeta.
  set (w0 := w <| display_serial := u32_succ (display_serial w) |>).
  assert (S0 : sel_seat_of i w0 = Some s) by done.
  destruct (replaced_view sc (selection_signal sc e i) i None (u32_succ (display_serial w)) w0 s S0 A)
    as (w1 & E & V & N).
  unfold weston_seat_set_selection. rewrite E. unfold selection_signal. cbv zeta. rewrite listener_view.
  destruct (seat_view _ _ _ _ V) as (s1 & S1 & X1 & C1). unfold clipboard_set_selection.
  rewrite S1, X1, C1. destruct (clip_cache s) as [c|] eqn:C; [|by rewrite V].
  destruct (replaced_view sc (qdwin_on_seat_selection_changed e i) i (Some (cs_id c)) (cs_serial c) w1 s1 S1)
    as (w2 & E2 & V2 & _); [by rewrite X1|].
  by rewrite E2, listener_view, V2, C1.
Qed.

(** A source without a client, once wrapped, writes to nobody. *)
Lemma anonymous_unreadable q x v :
  src_view q x = Some v -> v.1 <> original_send -> v.2 = None ->
  forall t m fd, data_offer_receive t x m fd q = emit (fd_closed fd) q.
Proof.
  unfold src_view. destruct (find_source x q) as [d|] eqn:D; [|done]. intros ?. simplify_eq/=.
  intros N C t m fd. unfold data_offer_receive. rewrite D. destruct (src_send d); [done..|].
  unfold qdwin_data_source_send_shim. rewrite D. destruct (qdwin_data_source_wrap_find x q); [|done].
  destruct (negb _); [done|]. destruct (negb _); [done|]. by rewrite C.
Qed.

Lemma unknown_unreadable q x :
  src_view q x = None -> forall t m fd, data_offer_receive t x m fd q = emit (fd_closed fd) q.
Proof.
  unfold src_view. intros E t m fd. unfold data_offer_receive. by destruct (find_source x q).
Qed.

Lemma primary_dropped i w : seat_owner (sw_primary (drop_primary i w)) i = None.
Proof.
  unfold drop_primary, on_primary. cbn [sw_primary upd_field]. set (p := sw_primary w).
  destruct (qdwin_primary_seat_find i p) as [s|] eqn:F; [|unfold seat_owner; by rewrite F].
  assert (exists q, pseat_of (ps_id s) p = Some q) as [q Q].
  { unfold qdwin_primary_seat_find in F. apply List.find_some in F as [F _].
    destruct (pseat_of (ps_id s) p) eqn:E; [eauto|]. unfold pseat_of in E.
    eapply List.find_none in E; [|exact F]. simpl in E. by rewrite Z.eqb_refl in E. }
  unfold seat_owner. rewrite (cl_find _ _ _ _ (clear_spec (ps_id s) true q p Q)), F. simpl.
  by rewrite Z.eqb_refl.
Qed.

(** The trackers stay. *)
Lemma tracked_listener e i w j :
  q_tracked (sw_q (qdwin_on_seat_selection_changed e i w)) j = q_tracked (sw_q w) j.
Proof.
  unfold qdwin_on_seat_selection_changed. destruct (weston_seat_of i w) as [st|]; [|done].
  destruct (sel_seat_of i w) as [s|]; [|done]. destruct (negb _); [done|].
  destruct (selection_data_source s) as [x|]; [|done]. cbv zeta.
  rewrite (proj2 (calm_q _ _ (calm_emit_selection_set _ _ _ _ _ _))). apply tracked_install.
Qed.

Lemma tracked_set_with sc signal i src serial w j :
  (forall w, q_tracked (sw_q (signal w)) j = q_tracked (sw_q w) j) ->
  q_tracked (sw_q (set_selection_with sc signal i src serial w)) j = q_tracked (sw_q w) j.
Proof.
  intros H. unfold set_selection_with. destruct (sel_seat_of i w) as [s|]; [|done].
  destruct (_ && _); [done|]. cbv zeta.
  rewrite H, (proj2 (calm_q _ _ (calm_data_device_focus _ _ _))).
  change (q_tracked (sw_q (upd_sel _ _ ?w)) j) with (q_tracked (sw_q w) j).
  destruct (selection_data_source s) as [o|]; [|done]. by destruct (is_cache o).
Qed.

Lemma tracked_clipboard sc e i w j :
  q_tracked (sw_q (clipboard_set_selection sc e i w)) j = q_tracked (sw_q w) j.
Proof.
  unfold clipboard_set_selection. destruct (sel_seat_of i w) as [s|]; [|done].
  destruct (selection_data_source s) as [x|].
  - destruct (is_cache x); [done|]. cbv zeta.
    set (w1 := match clip_cache s with Some _ => _ | None => _ end).
    assert (T1 : q_tracked (sw_q w1) j = q_tracked (sw_q w) j).
    { unfold w1. destruct (clip_cache s); [|done]. apply tracked_destroy. }
    clearbody w1. rewrite <-T1. destruct (types_of x _) as [|m ms]; [done|].
    destruct (pipe2 e) as [fd|]; [|done].
    assert (T2 : q_tracked (data_offer_receive (timer_ok e) x (Some m) fd (sw_q w1)) j
                 = q_tracked (sw_q w1) j) by apply q_calm_receive.
    destruct (cache_ok e); exact T2.
  - destruct (clip_cache s) as [c|]; [|done]. apply tracked_set_with. intros. apply tracked_listener.
Qed.

Lemma tracked_drop sc e i w j : q_tracked (sw_q (drop_selection sc e i w)) j = q_tracked (sw_q w) j.
Proof.
  unfold drop_selection, wl_display_next_serial. cbv zeta. unfold weston_seat_set_selection.
  rewrite tracked_set_with; [done|]. intros w1. unfold selection_signal.
  by rewrite tracked_listener, tracked_clipboard.
Qed.

Lemma primary_send_selection sc i w :
  sw_primary (wl_data_device_set_keyboard_focus sc i w) = sw_primary w.
Proof.
  unfold wl_data_device_set_keyboard_focus. destruct (focus_client sc i w) as [c|]; [|done].
  unfold weston_seat_send_selection. destruct (sel_seat_of i w) as [s|]; [|done].
  generalize (List.filter (fun d => d =? c) (drag_resources s)). intros l.
  generalize (selection_data_source s). intros src. clear s. revert w.
  induction l as [|d l IH]; intros w; [done|]. simpl. rewrite IH. by destruct src.
Qed.

Lemma primary_tail sc i h (target : option toplevel) silo w :
  sw_primary (w ~> (fun w => match target with
                             | Some tl => view_activate_input sc tl i w
                             | None => sel_set_keyboard_focus sc i None w
                             end)
                ~> qdwin_seat_tracker_set_silo i silo ~> on_q (qdwin_emit_seat_focus_changed i h))
  = sw_primary w.
Proof.
  assert (F : forall f w, sw_primary (sel_set_keyboard_focus sc i f w) = sw_primary w).
  { intros f w1. unfold sel_set_keyboard_focus. destruct (weston_seat_of i w1) as [st|]; [|done].
    destruct (has_keyboard st && _); [|done]. by rewrite primary_send_selection. }
  assert (T : forall w, sw_primary (qdwin_seat_tracker_set_silo i silo w) = sw_primary w).
  { intros w1. unfold qdwin_seat_tracker_set_silo. destruct (weston_seat_of i w1) as [st|]; [|done].
    by destruct (tracked st). }
  change (sw_primary (on_q _ ?w)) with (sw_primary w). rewrite T. destruct target; apply F.
Qed.

(** Nothing of the seat's former selection can be read in [w]. *)
Definition unreadable (w : sel_world) (i : Z) : Prop :=
  forall x c, sel_view w i = Some (Some x, c) ->
    x < 0 /\ forall t m fd, data_offer_receive t x m fd (sw_q w) = emit (fd_closed fd) (sw_q w).

Lemma dropped_unreadable w i s :
  sel_inv w -> q_tracked (sw_q w) i = true ->
  (exists c, sel_view w i = Some (cs_id <$> clip_cache s, c) /\ clip_cache s = c) -> unreadable w i.
Proof.
  intros I T (c0 & V & C) x c E. rewrite V in E. destruct (clip_cache s) as [k|] eqn:K; [|done].
  simplify_eq/=. destruct (si_cache _ _ I _ _ _ V) as [_ N]. split; [done|].
  destruct (src_view (sw_q w) (cs_id k)) as [v|] eqn:X; [|by apply unknown_unreadable].
  apply (anonymous_unreadable _ _ v X).
  - by eapply (si_gated _ _ I).
  - by eapply (si_anon _ _ I).
Qed.

(** Whatever clients, clipboard manager and shell do: a receive against the
    source that is the selection of a tracked seat is never passed on to the
    source by the compositor itself; it is held for the shell's verdict or the
    descriptor is closed.  This holds for the client's own source from the
    moment it is announced, for the copy the clipboard manager puts in its
    place, and without memory for the wrapper. *)
Theorem selection_always_gated (sc : Z -> option Z) (w0 w : sel_world) (i x : Z)
    (c : option clipboard_source) (t : bool) (m : option string) (fd : Z) :
  sel_start w0 -> rtc (sel_step sc) w0 w ->
  q_tracked (sw_q w) i = true -> sel_view w i = Some (Some x, c) ->
  sends (data_offer_receive t x m fd (sw_q w)) = sends (sw_q w).
Proof.
  intros S R T V. pose proof (si_run _ _ _ S R) as I.
  pose proof (fun v => si_gated _ _ I i x c v ltac:(done) T V) as G.
  unfold src_view, data_offer_receive in *. destruct (find_source x (sw_q w)) as [d|] eqn:D; [|done].
  specialize (G _ eq_refl). destruct (src_send d) eqn:Sd; [done..|].
  unfold qdwin_data_source_send_shim. rewrite D.
  repeat (match goal with |- context [match ?c with _ => _ end] => destruct c end; try done).
Qed.

(** A state reached from the start, in which the bound shell of an unlocked
    session asks for the focus on the seat [i]. *)
Record focus_request (sc : Z -> option Z) (w0 w : sel_world) (r : wl_resource) (name : string)
    (h i : Z) (s : sel_seat) : Prop := {
  fr_start : sel_start w0;
  fr_run : rtc (sel_step sc) w0 w;
  fr_bound : qdwin_shell_require_bound r (sw_q w) = true;
  fr_unlocked : locked (sw_q w) = false;
  fr_seat : seat_by_name name w = Some i;
  fr_sel : sel_seat_of i w = Some s;
  fr_tracked : q_tracked (sw_q w) i = true;
  fr_target : is_Some (focus_target h w)
}.

(** C27.  The silo-aware focus request.  When the focus moves to another silo, is
    cleared, or either silo is unknown, the primary selection of the seat is
    gone and nothing of its clipboard can be read by whoever has the focus now:
    at most the clipboard manager's copy is selected, and every receive from it
    ends in a closed descriptor.  This needs the serial of the selection not to
    be ahead of the display's, see [forged_serial_survives].  Within one silo
    both selections stay. *)
Theorem silo_focus_isolates (sc : Z -> option Z) (w0 w : sel_world) (e : sel_env) (r : wl_resource)
    (name : string) (h : Z) (silo : option string) (i : Z) (s : sel_seat) :
  focus_request sc w0 w r name h i s ->
  bool_decide (selection_data_source s ≠ None) && serial_ahead s (u32_succ (display_serial w)) = false ->
  let w' := qdwin_handle_set_keyboard_focus_v2 sc e r name h silo w in
  if cross_silo h (qdwin_seat_tracker_silo i w) (default "" silo)
  then seat_owner (sw_primary w') i = None /\ unreadable w' i
  else sw_primary w' = sw_primary w /\ sel_view w' i = sel_view w i.
Proof.
  intros [S R B L Sn Sel T [tl F]] A w'. pose proof (si_run _ _ _ S R) as I.
  pose proof (si_focus_v2 sc e r name h silo w I) as I'. fold w' in I'.
  assert (E : w' = (w ~> (fun x => if cross_silo h (qdwin_seat_tracker_silo i w) (default "" silo)
                                   then x ~> drop_selection sc e i ~> drop_primary i else x)
    ~> (fun w => match tl with
                 | Some tl => view_activate_input sc tl i w
                 | None => sel_set_keyboard_focus sc i None w
                 end)
    ~> qdwin_seat_tracker_set_silo i
         (if (h =? UINT32_MAX) || String.eqb (default "" silo) "" then None else Some (default "" silo))
    ~> on_q (qdwin_emit_seat_focus_changed i h))).
  { unfold w', qdwin_handle_set_keyboard_focus_v2, shell_unlocked. by rewrite B, L, Sn, F. }
  clearbody w'. subst w'. cbv beta in *.
  destruct (cross_silo h (qdwin_seat_tracker_silo i w) (default "" silo)).
  - rewrite primary_tail, primary_dropped. split; [done|].
    pose proof (drop_leaves_cache sc e i w s I Sel A) as V.
    pose proof (calm_drop_primary i (drop_selection sc e i w)) as C1.
    match type of I' with sel_inv ?w2 => assert (C2 : calm (drop_primary i (drop_selection sc e i w)) w2)
      by apply calm_v2_tail end.
    apply (dropped_unreadable _ i s); [done| |].
    + rewrite (proj2 (calm_q _ _ C2)), (proj2 (calm_q _ _ C1)). by rewrite tracked_drop.
    + eexists. split; [|done]. by rewrite (calm_sel _ _ C2), (calm_sel _ _ C1).
  - rewrite primary_tail. split; [done|].
    by rewrite (calm_sel _ _ (calm_v2_tail sc i h tl _ w)).
Qed.

(** ** A session *)

Definition sel_shell : wl_resource := mk_resource 500 34 9.
Definition sel_start_world : sel_world :=
  mk_sel_world
    ((wet_shell_init [] [mk_seat 7 true (Some 40) true default_grab true (0, 0) [] true 0 false] 1000)
       <| shell_bound := true |> <| shell_resource := Some sel_shell |>)
    (mk_secctx_state [] [] 0 []) primary_init
    [mk_sel_seat 7 (Some "seat0") None 0 None None [1; 2]] [] 100 (-1) [].

(** Surface 40 is the first client's. *)
Definition sel_clients (surface : Z) : option Z := if surface =? 40 then Some 1 else Some 2.
Definition sel_plenty : sel_env := mk_sel_env (Some 60) true true true (fun _ => true).

(** The first client selects its source 5 with the given serial. *)
Definition selected_at (serial : Z) : sel_world :=
  sel_start_world ~> create_data_source 1 5 ~> data_source_offer 5 "text/plain"
    ~> data_device_set_selection sel_clients sel_plenty 7 (Some 5) false serial.

Lemma selected_at_run serial :
  sel_start sel_start_world /\ rtc (sel_step sel_clients) sel_start_world (selected_at serial).
Proof.
  assert (V : forall j v, sel_view sel_start_world j = Some v -> v = (None, None)).
  { intros j [sel c] (s & S & <- & <-)%seat_view. apply (find_key ss_id) in S as [_ S].
    by apply list_elem_of_singleton in S as ->. }
  split; [split; [done|split; [done|exact V]]|].
  unfold selected_at. cbv beta.
  apply (rtc_l _ _ (create_data_source 1 5 sel_start_world)).
  { apply st_create; [lia|]. intros j E.
    destruct (sel_view sel_start_world j) as [v|] eqn:Ev; [|done]. apply V in Ev. by subst. }
  apply (rtc_l _ _ (data_source_offer 5 "text/plain" (create_data_source 1 5 sel_start_world)));
    [apply st_offer|].
  apply rtc_once, st_set. intros x ?. simplify_eq. lia.
Qed.

Lemma selection_always_gated_witness :
  sends (data_offer_receive true 5 (Some "text/plain") 61 (sw_q (selected_at 50)))
  = sends (sw_q (selected_at 50)).
Proof.
  destruct (selected_at_run 50) as [S R].
  apply (selection_always_gated sel_clients sel_start_world (selected_at 50) 7 5
           (Some (mk_clipboard_source (-1) 50))); [exact S|exact R|by vm_compute..].
Defined.

Lemma silo_focus_isolates_witness :
  let w' := qdwin_handle_set_keyboard_focus_v2 sel_clients sel_plenty sel_shell "seat0" UINT32_MAX None
              (selected_at 50) in
  seat_owner (sw_primary w') 7 = None /\ unreadable w' 7.
Proof.
  destruct (selected_at_run 50) as [S R].
  refine (silo_focus_isolates sel_clients sel_start_world (selected_at 50) sel_plenty sel_shell "seat0"
            UINT32_MAX None 7 (mk_sel_seat 7 (Some "seat0"%string) (Some 5) 50
               (Some (mk_clipboard_source (-1) 50)) None [1; 2]) _ _).
  - split; [exact S|exact R|by vm_compute..|by eexists].
  - by vm_compute.
Defined.

(** The shell drops the clipboard; the clipboard manager selects its copy in
    its place, offers it to the focused client, and the shell is told about a
    new selection, twice. *)
Example cleared_clipboard_returns :
  let w := qdwin_handle_clear_selection sel_clients sel_plenty sel_shell "seat0" false (selected_at 50) in
  sel_view w 7 = Some (Some (-1), Some (mk_clipboard_source (-1) 50))
  /\ List.firstn 4 (sw_events w)
     = [selection_set "seat0" UINT32_MAX "text/plain" false;
        selection_set "seat0" UINT32_MAX "text/plain" false;
        data_device_selection 1 (Some (-1)); data_device_selection 1 None].
Proof. by vm_compute. Qed.

(** The copy keeps the old serial: after the clear a selection with serial 0 is
    still refused as stale. *)
Example serial_zero_still_stale :
  let w := qdwin_handle_set_keyboard_focus sel_clients sel_plenty sel_shell "seat0" UINT32_MAX (selected_at 50) in
  let w' := w ~> create_data_source 2 6 ~> data_source_offer 6 "text/html" in
  weston_seat_set_selection sel_clients sel_plenty 7 (Some 6) 0 w' = w'.
Proof. by vm_compute. Qed.

(** A client chooses the serial of its selection: one ahead of the display's
    makes every drop stale. *)
Example forged_serial_survives :
  let w := qdwin_handle_set_keyboard_focus_v2 sel_clients sel_plenty sel_shell "seat0" UINT32_MAX None
             (selected_at 100000) in
  sel_view w 7 = sel_view (selected_at 100000) 7 /\ sel_view w 7 = Some (Some 5, Some (mk_clipboard_source (-1) 100000)).
Proof. by vm_compute. Qed.
