(* ===== verification/TextInput.v ===== *)
(** * TextInput: text inputs, input methods and virtual keyboards

    zwp-text-input-v3, zwp-input-method-v2 and zwp-virtual-keyboard-v1 of
    [qdwin.c]: text inputs enter and leave with the keyboard focus, the input
    method of a seat serves the focused and enabled one, may grab the keyboard,
    and hands keys it does not compose back through a virtual keyboard.  A grab
    of the keyboard that is none of the input method's is one of the other
    components'. *)

From stdpp Require Import base list gmap strings option.
From S2P Require Import Prelude Logic State Procfs Environ Secctx.
From stdpp Require Import list.
#[local] Open Scope Z_scope.

(** ** State *)

(** What an application says about its text: the surrounding text with cursor
    and anchor, the content type, the cause of the change; each may be unset. *)
Record content := mk_content {
  surrounding : option (option string * Z * Z); content_type : option (Z * Z); change_cause : option Z
}.
#[global] Instance eta_content : Eta content := fun r =>
  mk_content (surrounding r) (content_type r) (change_cause r).
Definition no_content : content := mk_content None None None.

Record text_input := mk_text_input {
  t_res : Z; t_client : Z; t_seat : option Z;
  pending_enabled : bool; current_enabled : bool; commit_count : Z;
  pending : content; current : content;
  entered : option Z                        (* the surface it holds enter on *)
}.
#[global] Instance eta_text_input : Eta text_input := fun r =>
  mk_text_input (t_res r) (t_client r) (t_seat r) (pending_enabled r) (current_enabled r)
    (commit_count r) (pending r) (current r) (entered r).

Record input_method := mk_input_method {
  im_res : Z; im_client : Z; im_seat : option Z; inert : bool; active : bool;
  active_ti : option Z; done_count : Z;
  pending_preedit : option string; preedit_begin : Z; preedit_end : Z;
  pending_commit : option string; del_before : Z; del_after : Z;
  im_grab : option Z
}.
#[global] Instance eta_input_method : Eta input_method := fun r =>
  mk_input_method (im_res r) (im_client r) (im_seat r) (inert r) (active r) (active_ti r) (done_count r)
    (pending_preedit r) (preedit_begin r) (preedit_end r) (pending_commit r) (del_before r) (del_after r)
    (im_grab r).

(** [struct qdwin_im_keyboard_grab]; [g_keyboard] is the keyboard's seat. *)
Record im_keyboard_grab := mk_im_grab { g_res : Z; g_im : option Z; g_keyboard : option Z }.
#[global] Instance eta_im_grab : Eta im_keyboard_grab := fun r =>
  mk_im_grab (g_res r) (g_im r) (g_keyboard r).

Record virtual_keyboard := mk_vk { vk_res : Z; vk_client : Z; vk_seat : option Z; has_keymap : bool }.
#[global] Instance eta_vk : Eta virtual_keyboard := fun r =>
  mk_vk (vk_res r) (vk_client r) (vk_seat r) (has_keymap r).

Inductive kgrab := kg_default | kg_im (g : Z) | kg_other.
#[global] Instance kgrab_eq_dec : EqDecision kgrab.
Proof. solve_decision. Defined.

(** A seat with its [weston_keyboard]; [k_present] while the seat has the
    capability, [k_keys] the keys that are down. *)
Record keyboard := mk_keyboard {
  k_seat : Z; k_present : bool; k_focus : option Z; k_grab : kgrab; k_keys : list Z
}.
#[global] Instance eta_keyboard : Eta keyboard := fun r =>
  mk_keyboard (k_seat r) (k_present r) (k_focus r) (k_grab r) (k_keys r).

Inductive manager_kind := text_input_manager | input_method_manager | virtual_keyboard_manager.
#[global] Instance manager_kind_eq_dec : EqDecision manager_kind.
Proof. solve_decision. Defined.

Inductive ti_event :=
| ti_enter (ti surface : Z) | ti_leave (ti surface : Z)
| ti_delete (ti before after : Z) | ti_commit_string (ti : Z) (text : string)
| ti_preedit (ti : Z) (text : string) (b e : Z) | ti_done (ti serial : Z)
| im_activate (im : Z) | im_deactivate (im : Z) | im_done (im : Z) | im_unavailable (im : Z)
| im_surrounding (im : Z) (text : string) (cursor anchor : Z)
| im_change_cause (im cause : Z) | im_content_type (im hint purpose : Z)
| grab_key_event (g key : Z) (pressed : bool) | grab_modifiers_event (g : Z)
| grab_keymap (g : Z) | grab_repeat_info (g rate delay : Z)
| app_key (surface key : Z) (pressed : bool) | app_modifiers (surface : option Z)
| other_grab_key (seat key : Z) (pressed : bool) | other_grab_modifiers (seat : Z)
| ti_no_memory (client : Z) | ti_role_error (im : Z) | vk_no_keymap (vk : Z) | vk_invalid_format (vk : Z)
| vk_fd_closed (fd : Z) | ti_implementation_error (client : Z)
| grab_use_after_free (g : Z).

Record ti_state := mk_ti_state {
  text_inputs : list text_input; input_methods : list input_method;
  im_grabs : list im_keyboard_grab; virtual_keyboards : list virtual_keyboard;
  keyboards : list keyboard; managers : list (manager_kind * Z);
  surface_roles : list (Z * string);
  ti_locked : bool; repeat_rate : Z; repeat_delay : Z; vk_injecting_client : option Z;
  ti_events : list ti_event
}.
#[global] Instance eta_ti_state : Eta ti_state := fun r =>
  mk_ti_state (text_inputs r) (input_methods r) (im_grabs r) (virtual_keyboards r) (keyboards r)
    (managers r) (surface_roles r) (ti_locked r) (repeat_rate r) (repeat_delay r)
    (vk_injecting_client r) (ti_events r).

Definition ti_emit (e : ti_event) (s : ti_state) : ti_state := s <| ti_events ::= cons e |>.
Definition ti_of (r : Z) (s : ti_state) : option text_input :=
  List.find (fun t => t_res t =? r) (text_inputs s).
Definition im_of (r : Z) (s : ti_state) : option input_method :=
  List.find (fun m => im_res m =? r) (input_methods s).
Definition grab_struct (r : Z) (s : ti_state) : option im_keyboard_grab :=
  List.find (fun g => g_res g =? r) (im_grabs s).
Definition vk_of (r : Z) (s : ti_state) : option virtual_keyboard :=
  List.find (fun v => vk_res v =? r) (virtual_keyboards s).
Definition keyboard_of (i : Z) (s : ti_state) : option keyboard :=
  List.find (fun k => k_seat k =? i) (keyboards s).
Definition upd_ti (r : Z) (f : text_input -> text_input) (s : ti_state) : ti_state :=
  s <| text_inputs ::= map (fun t => if t_res t =? r then f t else t) |>.
Definition upd_im (r : Z) (f : input_method -> input_method) (s : ti_state) : ti_state :=
  s <| input_methods ::= map (fun m => if im_res m =? r then f m else m) |>.
Definition upd_im_grab (r : Z) (f : im_keyboard_grab -> im_keyboard_grab) (s : ti_state) : ti_state :=
  s <| im_grabs ::= map (fun g => if g_res g =? r then f g else g) |>.
Definition upd_keyboard (i : Z) (f : keyboard -> keyboard) (s : ti_state) : ti_state :=
  s <| keyboards ::= map (fun k => if k_seat k =? i then f k else k) |>.

(** [weston_seat_get_keyboard]. *)
Definition get_keyboard (i : Z) (s : ti_state) : option keyboard :=
  match keyboard_of i s with Some k => if k_present k then Some k else None | None => None end.

(** ** The input method of a seat *)

Definition reset_pending (m : input_method) : input_method :=
  m <| pending_preedit := None |> <| preedit_begin := 0 |> <| preedit_end := 0 |>
    <| pending_commit := None |> <| del_before := 0 |> <| del_after := 0 |>.

Definition qdwin_im_reset_pending (r : Z) : ti_state -> ti_state := upd_im r reset_pending.

Definition qdwin_im_for_seat (seat : option Z) (s : ti_state) : option input_method :=
  match seat with
  | None => None
  | Some i => List.find (fun m => negb (inert m) && bool_decide (im_seat m = Some i)) (input_methods s)
  end.

Definition qdwin_im_active_candidate (seat : option Z) (s : ti_state) : option text_input :=
  List.find (fun t => bool_decide (t_seat t = seat) && bool_decide (entered t ≠ None) && current_enabled t)
    (text_inputs s).

Definition im_send_done (r : Z) (s : ti_state) : ti_state :=
  s ~> ti_emit (im_done r) ~> upd_im r (fun m => m <| done_count ::= u32_succ |>).

Definition qdwin_im_send_state (r : Z) (t : text_input) (s : ti_state) : ti_state :=
  s ~> (fun s => match surrounding (current t) with
                 | Some (text, c, a) => ti_emit (im_surrounding r (default "" text) c a) s
                 | None => s
                 end)
    ~> (fun s => match change_cause (current t) with
                 | Some c => ti_emit (im_change_cause r c) s
                 | None => s
                 end)
    ~> (fun s => match content_type (current t) with
                 | Some (h, p) => ti_emit (im_content_type r h p) s
                 | None => s
                 end)
    ~> im_send_done r.

Definition qdwin_im_deactivate (r : Z) (s : ti_state) : ti_state :=
  match im_of r s with
  | Some m =>
      if negb (active m) then s
      else s ~> ti_emit (im_deactivate r) ~> im_send_done r
             ~> upd_im r (fun m => m <| active := false |> <| active_ti := None |>)
             ~> qdwin_im_reset_pending r
  | None => s
  end.

Definition qdwin_im_activate (r : Z) (t : text_input) (s : ti_state) : ti_state :=
  s ~> upd_im r (fun m => m <| active := true |> <| active_ti := Some (t_res t) |>)
    ~> qdwin_im_reset_pending r
    ~> ti_emit (im_activate r)
    ~> qdwin_im_send_state r t.

Definition qdwin_im_sync_seat (seat : option Z) (s : ti_state) : ti_state :=
  match qdwin_im_for_seat seat s with
  | None => s
  | Some m =>
      let t := qdwin_im_active_candidate seat s in
      if negb (bool_decide (t_res <$> t = active_ti m)) then
        s ~> (fun s => if active m then qdwin_im_deactivate (im_res m) s else s)
          ~> (fun s => match t with Some t => qdwin_im_activate (im_res m) t s | None => s end)
      else match t with
      | Some t => if active m then qdwin_im_send_state (im_res m) t s else s
      | None => s
      end
  end.

Definition qdwin_im_text_input_gone (t : Z) (s : ti_state) : ti_state :=
  foldl (fun s r => match im_of r s with
                    | Some m => if bool_decide (active_ti m = Some t) then qdwin_im_deactivate r s else s
                    | None => s
                    end) s (map im_res (input_methods s)).

(** ** Text inputs and the keyboard focus *)

Section focus.
Context (surface_client : Z -> option Z).

(** The surface a text input is to hold: the focused one when its client owns
    it. *)
Definition wanted (t : text_input) (focus : option Z) : option Z :=
  match focus with
  | Some f => if bool_decide (surface_client f = Some (t_client t)) then Some f else None
  | None => None
  end.

Definition qdwin_text_input_set_entered (r surface : Z) : ti_state -> ti_state :=
  upd_ti r (fun t => t <| entered := Some surface |>).
Definition qdwin_text_input_clear_entered (r : Z) : ti_state -> ti_state :=
  upd_ti r (fun t => t <| entered := None |>).

Definition refocus_text_input (focus : option Z) (s : ti_state) (t : text_input) : ti_state :=
  let want := wanted t focus in
  if bool_decide (want = entered t) then s
  else
    s ~> (fun s => match entered t with
                   | Some f => s ~> ti_emit (ti_leave (t_res t) f)
                                 ~> qdwin_text_input_clear_entered (t_res t)
                   | None => s
                   end)
      ~> (fun s => match want with
                   | Some f => s ~> ti_emit (ti_enter (t_res t) f)
                                 ~> qdwin_text_input_set_entered (t_res t) f
                   | None => s
                   end).

Definition qdwin_text_input_update_focus (seat : option Z) (s : ti_state) : ti_state :=
  let focus := match seat with
               | Some i => match get_keyboard i s with Some k => k_focus k | None => None end
               | None => None
               end in
  s ~> (fun s => foldl (refocus_text_input focus) s
                   (List.filter (fun t => bool_decide (t_seat t = seat)) (text_inputs s)))
    ~> qdwin_im_sync_seat seat.

(** [weston_keyboard_set_focus] with the plugin's listener; a surface without
    resource counts as none. *)
Definition with_resource (focus : option Z) : option Z :=
  match focus with
  | Some f => match surface_client f with Some _ => Some f | None => None end
  | None => None
  end.

Definition keyboard_set_focus (i : Z) (focus : option Z) (s : ti_state) : ti_state :=
  s ~> upd_keyboard i (fun k => k <| k_focus := with_resource focus |>)
    ~> qdwin_text_input_update_focus (Some i).

(** The resource of a surface goes: its keyboards lose the focus, then the
    destroy listeners of the text inputs run. *)
Definition qdwin_text_input_entered_destroyed (f : Z) (s : ti_state) : ti_state :=
  s <| text_inputs ::= map (fun t => if bool_decide (entered t = Some f)
                                     then t <| entered := None |> else t) |>.

Definition ti_surface_destroyed (f : Z) (s : ti_state) : ti_state :=
  s ~> (fun s => foldl (fun s i => keyboard_set_focus i None s) s
                   (map k_seat (List.filter (fun k => bool_decide (k_focus k = Some f)) (keyboards s))))
    ~> qdwin_text_input_entered_destroyed f.


(** ** Requests of a text input *)

Definition qdwin_text_input_enable (r : Z) : ti_state -> ti_state :=
  upd_ti r (fun t => t <| pending_enabled := true |>).
Definition qdwin_text_input_disable (r : Z) : ti_state -> ti_state :=
  upd_ti r (fun t => t <| pending_enabled := false |>).

(** [text] is [None] when its copy could not be allocated. *)
Definition qdwin_text_input_set_surrounding_text (r : Z) (text : option string) (cursor anchor : Z)
    : ti_state -> ti_state :=
  upd_ti r (fun t => t <| pending ::=
    fun c => c <| surrounding := Some (text, u32 cursor, u32 anchor) |> |>).
Definition qdwin_text_input_set_text_change_cause (r cause : Z) : ti_state -> ti_state :=
  upd_ti r (fun t => t <| pending ::= fun c => c <| change_cause := Some cause |> |>).
Definition qdwin_text_input_set_content_type (r hint purpose : Z) : ti_state -> ti_state :=
  upd_ti r (fun t => t <| pending ::= fun c => c <| content_type := Some (hint, purpose) |> |>).

Definition or_keep {A} (o d : option A) : option A := match o with Some _ => o | None => d end.

Definition apply_content (p c : content) : content :=
  mk_content (or_keep (surrounding p) (surrounding c)) (or_keep (content_type p) (content_type c))
    (or_keep (change_cause p) (change_cause c)).

Definition commit_text_input (t : text_input) : text_input :=
  t <| current_enabled := pending_enabled t |> <| commit_count ::= u32_succ |>
    <| current ::= apply_content (pending t) |> <| pending := no_content |>.

Definition qdwin_text_input_commit (r : Z) (s : ti_state) : ti_state :=
  match ti_of r s with
  | None => s
  | Some t => s ~> upd_ti r commit_text_input ~> qdwin_im_sync_seat (t_seat t)
  end.

Definition remove_text_input (r : Z) (s : ti_state) : ti_state :=
  s <| text_inputs ::= List.filter (fun t => negb (t_res t =? r)) |>.

Definition qdwin_text_input_resource_destroy (r : Z) (s : ti_state) : ti_state :=
  match ti_of r s with
  | None => s
  | Some _ => s ~> qdwin_im_text_input_gone r ~> qdwin_text_input_clear_entered r ~> remove_text_input r
  end.

(** ** Managers *)

(** A manager of the list still points to the plugin. *)
Definition manager_live (k : manager_kind) (mgr : Z) (s : ti_state) : bool :=
  bool_decide ((k, mgr) ∈ managers s).
Definition ti_manager_destroyed (k : manager_kind) (mgr : Z) (s : ti_state) : ti_state :=
  s <| managers ::= List.filter (fun x => negb (bool_decide (x = (k, mgr)))) |>.
Definition managers_destroy_all (k : manager_kind) (s : ti_state) : ti_state :=
  s <| managers ::= List.filter (fun x => negb (bool_decide (fst x = k))) |>.

Definition bind_qdwin_text_input_manager (client id : Z) (oom : bool) (s : ti_state) : ti_state :=
  if oom then ti_emit (ti_no_memory client) s
  else s <| managers ::= cons (text_input_manager, id) |>.

(** The seat behind a [wl_seat] resource: none once the seat is released. *)
Definition seat_user_data (seat : option Z) (s : ti_state) : option Z :=
  match seat with
  | Some i => match keyboard_of i s with Some _ => Some i | None => None end
  | None => None
  end.

Definition new_text_input (id client : Z) (seat : option Z) : text_input :=
  mk_text_input id client seat false false 0 no_content no_content None.

Definition qdwin_text_input_manager_get_text_input (client mgr id : Z) (seat : option Z) (oom : bool)
    (s : ti_state) : ti_state :=
  if negb (manager_live text_input_manager mgr s) then s
  else if oom then ti_emit (ti_no_memory client) s
  else
    let seat := seat_user_data seat s in
    s ~> (fun s => s <| text_inputs ::= cons (new_text_input id client seat) |>)
      ~> qdwin_text_input_update_focus seat.

(** ** The keyboard grab of an input method *)

(** [weston_keyboard_start_grab] and [weston_keyboard_end_grab]. *)
Definition kb_start_grab (i : Z) (g : kgrab) : ti_state -> ti_state :=
  upd_keyboard i (fun k => k <| k_grab := g |>).
Definition kb_end_grab (i : Z) : ti_state -> ti_state := kb_start_grab i kg_default.

(** [if (g->keyboard && g->keyboard->grab == &g->base) weston_keyboard_end_grab(g->keyboard)] *)
Definition end_if_active (x : Z) (s : ti_state) : ti_state :=
  match grab_struct x s with
  | Some g =>
      match g_keyboard g with
      | Some i =>
          match keyboard_of i s with
          | Some k => if bool_decide (k_grab k = kg_im x) then kb_end_grab i s else s
          | None => s
          end
      | None => s
      end
  | None => s
  end.

Definition free_grab (x : Z) (s : ti_state) : ti_state :=
  s <| im_grabs ::= List.filter (fun g => negb (g_res g =? x)) |>.

Definition qdwin_im_grab_resource_destroy (x : Z) (s : ti_state) : ti_state :=
  match grab_struct x s with
  | None => s
  | Some g =>
      s ~> (fun s => match g_im g with
                     | Some r => upd_im r (fun m => m <| im_grab := None |>) s
                     | None => s
                     end)
        ~> end_if_active x
        ~> free_grab x
  end.

(** The default grab: silent while the session is locked. *)
Definition default_grab_key (i key : Z) (pressed : bool) (s : ti_state) : ti_state :=
  if ti_locked s then s
  else match keyboard_of i s with
  | Some k => match k_focus k with Some f => ti_emit (app_key f key pressed) s | None => s end
  | None => s
  end.
Definition default_grab_modifiers (i : Z) (s : ti_state) : ti_state :=
  if ti_locked s then s
  else match keyboard_of i s with
  | Some k => ti_emit (app_modifiers (k_focus k)) s
  | None => s
  end.

(** The event comes from a virtual keyboard of the grab's own client. *)
Definition own_injection (g : im_keyboard_grab) (s : ti_state) : bool :=
  match vk_injecting_client s, g_im g with
  | Some c, Some r => match im_of r s with Some m => c =? im_client m | None => false end
  | _, _ => false
  end.

Definition qdwin_im_grab_key (g : im_keyboard_grab) (i key : Z) (pressed : bool) (s : ti_state)
    : ti_state :=
  if own_injection g s then default_grab_key i key pressed s
  else ti_emit (grab_key_event (g_res g) key pressed) s.
Definition qdwin_im_grab_modifiers (g : im_keyboard_grab) (i : Z) (s : ti_state) : ti_state :=
  if own_injection g s then default_grab_modifiers i s
  else ti_emit (grab_modifiers_event (g_res g)) s.
Definition qdwin_im_grab_cancel (x : Z) : ti_state -> ti_state :=
  upd_im_grab x (fun g => g <| g_keyboard := None |>).

(** What the keyboard calls through [keyboard->grab]; the memory of an input
    method's grab may be gone. *)
Definition deliver_key (i key : Z) (pressed : bool) (s : ti_state) : ti_state :=
  match keyboard_of i s with
  | None => s
  | Some k =>
      match k_grab k with
      | kg_default => default_grab_key i key pressed s
      | kg_other => ti_emit (other_grab_key i key pressed) s
      | kg_im x => match grab_struct x s with
                   | Some g => qdwin_im_grab_key g i key pressed s
                   | None => ti_emit (grab_use_after_free x) s
                   end
      end
  end.
Definition deliver_modifiers (i : Z) (s : ti_state) : ti_state :=
  match keyboard_of i s with
  | None => s
  | Some k =>
      match k_grab k with
      | kg_default => default_grab_modifiers i s
      | kg_other => ti_emit (other_grab_modifiers i) s
      | kg_im x => match grab_struct x s with
                   | Some g => qdwin_im_grab_modifiers g i s
                   | None => ti_emit (grab_use_after_free x) s
                   end
      end
  end.

Definition kb_cancel_grab (i : Z) (s : ti_state) : ti_state :=
  match keyboard_of i s with
  | Some k => match k_grab k with
              | kg_im x => match grab_struct x s with
                           | Some _ => qdwin_im_grab_cancel x s
                           | None => ti_emit (grab_use_after_free x) s
                           end
              | _ => s
              end
  | None => s
  end.

(** What the key bindings do with a press under the default grab: nothing, or
    the handler starts a grab of its own, or libweston's binding grab is put in
    place and the focus leaves and re-enters. *)
Inductive binding_effect := no_binding | handler_grab | plain_binding.

Definition run_bindings (i : Z) (b : binding_effect) (s : ti_state) : ti_state :=
  match b with
  | no_binding => s
  | handler_grab => kb_start_grab i kg_other s
  | plain_binding =>
      let focus := match keyboard_of i s with Some k => k_focus k | None => None end in
      s ~> kb_start_grab i kg_other
        ~> (fun s => match focus with
                     | Some _ => s ~> keyboard_set_focus i None ~> keyboard_set_focus i focus
                     | None => s
                     end)
  end.

Fixpoint release_key (key : Z) (l : list Z) : list Z :=
  match l with [] => [] | k :: l => if k =? key then l else k :: release_key key l end.

(** [notify_key]; [mods] tells whether the key changes the modifier state. *)
Definition ti_notify_key (i key : Z) (pressed : bool) (b : binding_effect) (mods : bool) (s : ti_state)
    : ti_state :=
  match get_keyboard i s with
  | None => s
  | Some k =>
      if pressed && bool_decide (key ∈ k_keys k) then s
      else
        s ~> upd_keyboard i (fun k => k <| k_keys ::= fun l =>
                                           if pressed then l ++ [key] else release_key key l |>)
          ~> (fun s => if bool_decide (k_grab k = kg_default) && pressed then run_bindings i b s else s)
          ~> deliver_key i key pressed
          ~> (fun s => if mods then deliver_modifiers i s else s)
  end.

(** [notify_modifiers]: the grab hears of a change only. *)
Definition ti_notify_modifiers (i : Z) (changed : bool) (s : ti_state) : ti_state :=
  if changed then deliver_modifiers i s else s.

(** A keyboard device is added to or removed from a seat; the last removal takes
    the capability, the focus and the grab. *)
Definition ti_keyboard_added (i : Z) : ti_state -> ti_state :=
  upd_keyboard i (fun k => k <| k_present := true |>).
Definition ti_keyboard_released (i : Z) (last : bool) (s : ti_state) : ti_state :=
  if last then s ~> upd_keyboard i (fun k => k <| k_present := false |>)
                 ~> keyboard_set_focus i None ~> kb_cancel_grab i
  else s.

(** The backend loses the keyboard focus; [changes] is how many of the keys
    that are down change the modifier state when they are let go. *)
Definition ti_focus_out (i : Z) (changes : nat) (s : ti_state) : ti_state :=
  match get_keyboard i s with
  | Some _ => s ~> Nat.iter changes (deliver_modifiers i) ~> keyboard_set_focus i None ~> kb_cancel_grab i
  | None => s
  end.

(** ** Requests of an input method *)

Definition with_im (r : Z) (k : input_method -> ti_state -> ti_state) (s : ti_state) : ti_state :=
  match im_of r s with Some m => if inert m then s else k m s | None => s end.

Definition qdwin_im_req_commit_string (r : Z) (text : option string) : ti_state -> ti_state :=
  with_im r (fun _ => upd_im r (fun m => m <| pending_commit := text |>)).
Definition qdwin_im_req_set_preedit_string (r : Z) (text : option string) (b e : Z)
    : ti_state -> ti_state :=
  with_im r (fun _ => upd_im r (fun m =>
    m <| pending_preedit := text |> <| preedit_begin := b |> <| preedit_end := e |>)).
Definition qdwin_im_req_delete_surrounding_text (r before after : Z) : ti_state -> ti_state :=
  with_im r (fun _ => upd_im r (fun m => m <| del_before := before |> <| del_after := after |>)).

(** The events of an accepted commit, in the order they are sent. *)
Definition composed (m : input_method) (t : text_input) : list ti_event :=
  (if negb (del_before m =? 0) || negb (del_after m =? 0)
   then [ti_delete (t_res t) (del_before m) (del_after m)] else [])
  ++ match pending_commit m with
     | Some text => if String.eqb text "" then [] else [ti_commit_string (t_res t) text]
     | None => []
     end
  ++ [ti_preedit (t_res t) (default "" (pending_preedit m)) (preedit_begin m) (preedit_end m);
      ti_done (t_res t) (commit_count t)].

Definition qdwin_im_req_commit (r serial : Z) : ti_state -> ti_state :=
  with_im r (fun m s =>
    match (match active_ti m with Some x => ti_of x s | None => None end) with
    | Some t =>
        if negb (active m) || negb (current_enabled t) || negb (serial =? done_count m)
        then qdwin_im_reset_pending r s
        else s ~> (fun s => foldl (fun s e => ti_emit e s) s (composed m t)) ~> qdwin_im_reset_pending r
    | None => qdwin_im_reset_pending r s
    end).

Definition IM_POPUP_ROLE : string := "zwp_input_popup_surface_v2".

Definition qdwin_im_req_get_input_popup_surface (client r : Z) (surface : option Z) (oom : bool)
    (s : ti_state) : ti_state :=
  let role f := snd <$> List.find (fun x => fst x =? f) (surface_roles s) in
  let created s := if oom then ti_emit (ti_no_memory client) s else s in
  match surface with
  | None => created s
  | Some f =>
      match role f with
      | Some n => if String.eqb n IM_POPUP_ROLE then created s else ti_emit (ti_role_error r) s
      | None => created (s <| surface_roles ::= cons (f, IM_POPUP_ROLE) |>)
      end
  end.

Definition take_keyboard (i id : Z) (s : ti_state) : ti_state :=
  match get_keyboard i s with
  | None => s
  | Some _ =>
      s ~> upd_im_grab id (fun g => g <| g_keyboard := Some i |>)
        ~> ti_emit (grab_keymap id)
        ~> ti_emit (grab_repeat_info id (repeat_rate s) (repeat_delay s))
        ~> kb_start_grab i (kg_im id)
  end.

Definition drop_stale_grab (m : input_method) (s : ti_state) : ti_state :=
  match im_grab m with Some x => qdwin_im_grab_resource_destroy x s | None => s end.

Definition qdwin_im_req_grab_keyboard (client r id : Z) (res_oom g_oom : bool) (s : ti_state) : ti_state :=
  if res_oom then ti_emit (ti_no_memory client) s
  else with_im r (fun m s =>
    match im_seat m with
    | None => s
    | Some i =>
        s ~> drop_stale_grab m
          ~> (fun s => if g_oom then ti_emit (ti_no_memory client) s
                       else s ~> (fun s => s <| im_grabs ::= cons (mk_im_grab id (Some r) None) |>)
                              ~> upd_im r (fun m => m <| im_grab := Some id |>)
                              ~> take_keyboard i id)
    end) s.

Definition qdwin_im_detach (r : Z) (s : ti_state) : ti_state :=
  match im_of r s with
  | None => s
  | Some m =>
      s ~> (fun s => match im_grab m with
                     | Some x => s ~> upd_im r (fun m => m <| im_grab := None |>)
                                   ~> upd_im_grab x (fun g => g <| g_im := None |>)
                                   ~> end_if_active x
                                   ~> upd_im_grab x (fun g => g <| g_keyboard := None |>)
                     | None => s
                     end)
        ~> upd_im r (fun m => m <| im_seat := None |> <| active := false |> <| active_ti := None |>)
        ~> qdwin_im_reset_pending r
  end.

Definition remove_input_method (r : Z) (s : ti_state) : ti_state :=
  s <| input_methods ::= List.filter (fun m => negb (im_res m =? r)) |>.

Definition qdwin_input_method_resource_destroy (r : Z) (s : ti_state) : ti_state :=
  match im_of r s with
  | None => s
  | Some m => s ~> drop_stale_grab m ~> qdwin_im_detach r ~> remove_input_method r
  end.

Definition qdwin_im_seat_destroyed (r : Z) (s : ti_state) : ti_state :=
  s ~> upd_im r (fun m => m <| inert := true |>)
    ~> ti_emit (im_unavailable r)
    ~> (fun s => match im_of r s ≫= im_grab with
                 | Some x => upd_im_grab x (fun g => g <| g_keyboard := None |>) s
                 | None => s
                 end)
    ~> qdwin_im_detach r.

Definition new_input_method (id client : Z) (seat : option Z) (dead : bool) : input_method :=
  mk_input_method id client seat dead false None 0 None 0 0 None 0 0 None.

Definition qdwin_im_manager_get_input_method (client mgr id : Z) (seat : option Z) (res_oom im_oom : bool)
    (s : ti_state) : ti_state :=
  if res_oom then ti_emit (ti_no_memory client) s
  else if negb (manager_live input_method_manager mgr s) then ti_emit (im_unavailable id) s
  else if im_oom then ti_emit (ti_no_memory client) s
  else
    let seat := seat_user_data seat s in
    let insert m s := s <| input_methods ::= cons m |> in
    match seat, qdwin_im_for_seat seat s with
    | Some i, None => s ~> insert (new_input_method id client (Some i) false) ~> qdwin_im_sync_seat (Some i)
    | _, _ => s ~> insert (new_input_method id client None true) ~> ti_emit (im_unavailable id)
    end.

(** ** Virtual keyboards *)

Definition upd_vk (r : Z) (f : virtual_keyboard -> virtual_keyboard) (s : ti_state) : ti_state :=
  s <| virtual_keyboards ::= map (fun v => if vk_res v =? r then f v else v) |>.

Definition qdwin_virtual_keyboard_detach (r : Z) : ti_state -> ti_state :=
  upd_vk r (fun v => v <| vk_seat := None |>).

Definition KEYMAP_FORMAT_XKB_V1 : Z := 1.

Definition qdwin_vk_req_keymap (r format fd : Z) (s : ti_state) : ti_state :=
  let closed s := if 0 <=? fd then ti_emit (vk_fd_closed fd) s else s in
  if negb (format =? KEYMAP_FORMAT_XKB_V1) then s ~> closed ~> ti_emit (vk_invalid_format r)
  else s ~> closed ~> upd_vk r (fun v => v <| has_keymap := true |>).

(** The client that injects is marked while the event is delivered. *)
Definition injecting (c : Z) (k : ti_state -> ti_state) (s : ti_state) : ti_state :=
  s ~> (fun s => s <| vk_injecting_client := Some c |>) ~> k
    ~> (fun s => s <| vk_injecting_client := None |>).

Definition qdwin_vk_req_key (r key state : Z) (b : binding_effect) (mods : bool) (s : ti_state) : ti_state :=
  match vk_of r s with
  | None => s
  | Some v =>
      if negb (has_keymap v) then ti_emit (vk_no_keymap r) s
      else match vk_seat v with
      | Some i => match get_keyboard i s with
                  | Some _ => injecting (vk_client v) (ti_notify_key i key (negb (state =? 0)) b mods) s
                  | None => s
                  end
      | None => s
      end
  end.

Definition qdwin_vk_req_modifiers (r : Z) (changed : bool) (s : ti_state) : ti_state :=
  match vk_of r s with
  | None => s
  | Some v =>
      if negb (has_keymap v) then ti_emit (vk_no_keymap r) s
      else match vk_seat v with
      | Some i => match get_keyboard i s with
                  | Some _ => injecting (vk_client v) (ti_notify_modifiers i changed) s
                  | None => s
                  end
      | None => s
      end
  end.

Definition remove_vk (r : Z) (s : ti_state) : ti_state :=
  s <| virtual_keyboards ::= List.filter (fun v => negb (vk_res v =? r)) |>.
Definition qdwin_virtual_keyboard_resource_destroy (r : Z) (s : ti_state) : ti_state :=
  s ~> qdwin_virtual_keyboard_detach r ~> remove_vk r.

Definition qdwin_vk_manager_create_virtual_keyboard (client mgr id : Z) (seat : option Z)
    (res_oom vk_oom : bool) (s : ti_state) : ti_state :=
  if res_oom then ti_emit (ti_no_memory client) s
  else if negb (manager_live virtual_keyboard_manager mgr s) then s
  else if vk_oom then ti_emit (ti_no_memory client) s
  else s <| virtual_keyboards ::= cons (mk_vk id client (seat_user_data seat s) false) |>.

(** ** Seats come and go *)

Definition ti_seat_created (i : Z) (s : ti_state) : ti_state :=
  s <| keyboards ::= cons (mk_keyboard i false None kg_default []) |>.

(** [weston_seat_release]: the keyboard is freed first, then the destroy
    listeners run. *)
Definition ti_seat_released (i : Z) (s : ti_state) : ti_state :=
  s ~> (fun s => s <| keyboards ::= List.filter (fun k => negb (k_seat k =? i)) |>)
    ~> (fun s => foldl (fun s r => qdwin_im_seat_destroyed r s) s
                   (map im_res (List.filter (fun m => bool_decide (im_seat m = Some i)) (input_methods s))))
    ~> (fun s => foldl (fun s r => qdwin_virtual_keyboard_detach r s) s
                   (map vk_res (List.filter (fun v => bool_decide (vk_seat v = Some i)) (virtual_keyboards s)))).

(** ** Loss of an output *)

(** Composition ends and the raw keyboard is taken back. *)
Definition boundary_input_method (s : ti_state) (r : Z) : ti_state :=
  s ~> (fun s => match im_of r s with
                 | Some m => if active m then qdwin_im_deactivate r s else s
                 | None => s
                 end)
    ~> (fun s => match im_of r s ≫= im_grab with
                 | Some x => qdwin_im_grab_resource_destroy x s
                 | None => s
                 end).
Definition ti_output_boundary (s : ti_state) : ti_state :=
  foldl boundary_input_method s (map im_res (input_methods s)).

(** ** Teardown of the plugin *)

Definition destroy_input_method_at_exit (s : ti_state) (m : input_method) : ti_state :=
  s ~> qdwin_im_detach (im_res m)
    ~> (fun s => match im_grab m with Some x => free_grab x s | None => s end)
    ~> remove_input_method (im_res m).
Definition qdwin_input_methods_destroy_all (s : ti_state) : ti_state :=
  foldl destroy_input_method_at_exit s (input_methods s).
Definition qdwin_virtual_keyboards_destroy_all (s : ti_state) : ti_state :=
  foldl (fun s v => s ~> qdwin_virtual_keyboard_detach (vk_res v) ~> remove_vk (vk_res v)) s
    (virtual_keyboards s).
Definition qdwin_text_inputs_destroy_all (s : ti_state) : ti_state :=
  foldl (fun s t => s ~> qdwin_text_input_clear_entered (t_res t) ~> remove_text_input (t_res t)) s
    (text_inputs s).

Definition ti_teardown (s : ti_state) : ti_state :=
  s ~> qdwin_input_methods_destroy_all ~> managers_destroy_all input_method_manager
    ~> qdwin_virtual_keyboards_destroy_all ~> managers_destroy_all virtual_keyboard_manager
    ~> qdwin_text_inputs_destroy_all ~> managers_destroy_all text_input_manager.
End focus.

(** ** The bind gate of the privileged pair *)

Record ime_policy := mk_ime_policy {
  allowed_ime_uid : Z; session_uid : Z; allowed_ime_exe : option string; allowed_ime_label : option string
}.

Definition ime_uid (p : ime_policy) : Z :=
  if negb (allowed_ime_uid p =? UINT32_MAX) then allowed_ime_uid p else session_uid p.

Definition matches_pin (found : string) (pin : option string) : bool :=
  match pin with Some e => String.eqb found e | None => true end.

(** [before], [during] and [after] are the file-system states of the first
    start-time sample, of the identity reads and of the second sample. *)
Definition ime_identity_ok (before during after : procfs) (pid : Z) (p : ime_policy) : bool :=
  match allowed_ime_exe p, allowed_ime_label p with
  | None, None => true
  | exe, label =>
      let st_before := qdwin_proc_starttime pid before in
      let st_after := qdwin_proc_starttime pid after in
      matches_pin (qdwin_proc_exe pid during) exe
      && matches_pin (qdwin_proc_selinux_label pid during) label
      && negb (st_before =? 0) && negb (st_after =? 0) && (st_before =? st_after)
  end.

Definition qdwin_ime_family_bind_allowed (before during after : procfs) (x : secctx_state)
    (p : ime_policy) (client pid uid : Z) : bool :=
  match qdwin_secctx_client_find client x with
  | Some _ => false
  | None => (uid =? ime_uid p) && ime_identity_ok before during after pid p
  end.

(** [bind_qdwin_input_method_manager] and [bind_qdwin_virtual_keyboard_manager]. *)
Definition bind_ime_manager (k : manager_kind) (before during after : procfs) (x : secctx_state)
    (p : ime_policy) (client pid uid id : Z) (oom : bool) (s : ti_state) : ti_state :=
  if negb (qdwin_ime_family_bind_allowed before during after x p client pid uid)
  then ti_emit (ti_implementation_error client) s
  else if oom then ti_emit (ti_no_memory client) s
  else s <| managers ::= cons (k, id) |>.
