(* ===== verification/TextInputFacts.v ===== *)
(** * TextInputFacts: who is served by the input method, and who gets the keys

    The invariant of the text-input plane over every sequence of requests and
    seat events, and what it means for composed text and for the keyboard. *)

From stdpp Require Import base list gmap strings option.
From S2P Require Import Prelude Logic State Procfs Environ Secctx TextInput.
From stdpp Require Import list.
#[local] Open Scope Z_scope.

(** ** What the requests look at *)

Definition kfocus (k : keyboard) : option Z := if k_present k then k_focus k else None.

Definition ti_core (t : text_input) := (t_res t, t_client t, t_seat t, current_enabled t, entered t).
Definition im_core (m : input_method) :=
  (im_res m, im_client m, im_seat m, inert m, active m, active_ti m, im_grab m).
Definition kb_seen (k : keyboard) := (k_seat k, k_present k, k_focus k).

(** ** The invariant *)

Section inv.
(** [W] are the addresses of seats that text inputs of an earlier seat at the
    same address may still point to: nothing is said of those. *)
Context (sc : Z -> option Z) (W : Z -> Prop).

Definition sound_seat (seat : option Z) : Prop := forall i, seat = Some i -> ~ W i.

(** A text input that an input method of the seat may serve. *)
Definition serves (s : ti_state) (seat : option Z) (x : Z) : Prop :=
  exists t, t ∈ text_inputs s /\ t_res t = x /\ t_seat t = seat /\ entered t ≠ None
            /\ current_enabled t = true.

Definition seat_alive (s : ti_state) (i : Z) : Prop := i ∈ map k_seat (keyboards s).

(** Identities are unique; an input method is inert or the only one of its
    seat; grabs and input methods point at each other; a grab's keyboard is its
    input method's; a keyboard that is not there has no focus. *)
Record base_inv (s : ti_state) : Prop := {
  inv_ti : NoDup (map t_res (text_inputs s));
  inv_im : NoDup (map im_res (input_methods s));
  inv_g : NoDup (map g_res (im_grabs s));
  inv_k : NoDup (map k_seat (keyboards s));
  inv_dark : forall k, k ∈ keyboards s -> k_present k = false -> k_focus k = None;
  inv_seat : forall m, m ∈ input_methods s ->
    (inert m = true /\ im_seat m = None /\ active_ti m = None)
    \/ (inert m = false /\ is_Some (im_seat m));
  inv_one : forall m m' i, m ∈ input_methods s -> m' ∈ input_methods s ->
    im_seat m = Some i -> im_seat m' = Some i -> im_res m = im_res m';
  inv_active : forall m, m ∈ input_methods s -> active m = bool_decide (is_Some (active_ti m));
  inv_held : forall m x, m ∈ input_methods s -> im_grab m = Some x ->
    exists g, g ∈ im_grabs s /\ g_res g = x /\ g_im g = Some (im_res m);
  inv_owner : forall g r, g ∈ im_grabs s -> g_im g = Some r ->
    exists m, m ∈ input_methods s /\ im_res m = r /\ im_grab m = Some (g_res g);
  inv_kb : forall g i, g ∈ im_grabs s -> g_keyboard g = Some i ->
    exists m, m ∈ input_methods s /\ g_im g = Some (im_res m) /\ im_seat m = Some i
}.

(** A text input holds [enter] exactly on the focused surface of its client;
    an input method serves an entered and enabled text input of its seat.  Both
    but for the seat [ex]. *)
Definition entered_but (ex : option Z) (s : ti_state) : Prop :=
  forall t k, t ∈ text_inputs s -> k ∈ keyboards s -> t_seat t = Some (k_seat k) -> t_seat t ≠ ex ->
  sound_seat (t_seat t) -> entered t = wanted sc t (kfocus k).
Definition served_but (ex : option Z) (s : ti_state) : Prop :=
  forall m x, m ∈ input_methods s -> active_ti m = Some x -> im_seat m ≠ ex -> sound_seat (im_seat m) -> serves s (im_seat m) x.

(** The seat of an input method lives. *)
Definition alive_inv (s : ti_state) : Prop :=
  forall m i, m ∈ input_methods s -> im_seat m = Some i -> seat_alive s i.

Definition ti_inv_but (ex : option Z) (s : ti_state) : Prop :=
  base_inv s /\ entered_but ex s /\ served_but ex s /\ alive_inv s.
Definition ti_inv : ti_state -> Prop := ti_inv_but None.

(** ** States that agree on what matters *)

Record similar (s s' : ti_state) : Prop := {
  sim_ti : map ti_core (text_inputs s') = map ti_core (text_inputs s);
  sim_im : map im_core (input_methods s') = map im_core (input_methods s);
  sim_g : im_grabs s' = im_grabs s;
  sim_k : map kb_seen (keyboards s')
          = map kb_seen (keyboards s)
}.

Lemma elem_map_eq {A B C} (f : A -> C) (h : B -> C) (l : list A) (l' : list B) x :
  map f l = map h l' -> x ∈ l -> exists y, y ∈ l' /\ f x = h y.
Proof.
  intros E H%list_elem_of_In. assert (I : In (f x) (map h l')) by (rewrite <- E; by apply in_map).
  apply in_map_iff in I as (y & E1 & I). exists y. by rewrite list_elem_of_In.
Qed.

Lemma map_of_map_eq {A B C D} (g : C -> D) (f : A -> C) (h : B -> C) (l : list A) (l' : list B) :
  map f l = map h l' -> map (fun x => g (f x)) l = map (fun x => g (h x)) l'.
Proof. intros E. rewrite <- (map_map f g), <- (map_map h g). by rewrite E. Qed.

Lemma seat_alive_elem s i : seat_alive s i <-> exists k, k ∈ keyboards s /\ k_seat k = i.
Proof.
  unfold seat_alive. rewrite list_elem_of_In, in_map_iff.
  split; intros (k & H1 & H2); exists k; by rewrite list_elem_of_In in *.
Qed.

Lemma sim_nodup {A B C} (g : C -> B) (f : A -> C) (l l' : list A) (key : A -> B) :
  (forall x, key x = g (f x)) -> map f l' = map f l -> NoDup (map key l) -> NoDup (map key l').
Proof.
  intros K E. rewrite (map_ext _ _ K l), (map_ext _ _ K l').
  by rewrite (map_of_map_eq g _ _ _ _ E).
Qed.

Lemma sim_alive s s' i : similar s s' -> seat_alive s' i <-> seat_alive s i.
Proof.
  intros [_ _ _ E]. unfold seat_alive. apply (map_of_map_eq (fun c => fst (fst c))) in E.
  change (map k_seat (keyboards s') = map k_seat (keyboards s)) in E. by rewrite E.
Qed.

Lemma sim_sym s s' : similar s s' -> similar s' s.
Proof. intros []. by split. Qed.
Lemma sim_trans s1 s2 s3 : similar s1 s2 -> similar s2 s3 -> similar s1 s3.
Proof. intros [] []. split; congruence. Qed.

(** The element of the other list with the same core. *)
Ltac pull H M y :=
  let My := fresh "My" in let E := fresh "E" in
  destruct (elem_map_eq _ _ _ _ _ H M) as (y & My & E); injection E; clear E; intros.

Lemma base_sim s s' : similar s s' -> base_inv s -> base_inv s'.
Proof.
  intros [S1 S2 S3 S4] [T I G K Dk St O A Hd Ow Kb]. split.
  - eapply (sim_nodup (fun c => fst (fst (fst (fst c)))) ti_core); [| |exact T]; [by intros []|done].
  - eapply (sim_nodup (fun c => fst (fst (fst (fst (fst (fst c)))))) im_core); [| |exact I];
      [by intros []|done].
  - by rewrite S3.
  - eapply (sim_nodup (fun c => fst (fst c)) kb_seen); [| |exact K]; [by intros []|done].
  - intros k Hk P. pull S4 Hk y. assert (k_focus y = None) by (apply Dk; congruence). congruence.
  - intros m Hm. pull S2 Hm y. destruct (St y My) as [(?&?&?)|(? & i & ?)]; [left|right];
      split_and!; try congruence. exists i. congruence.
  - intros m m' i H H' E E'. pull S2 H y. pull S2 H' y'.
    assert (im_res y = im_res y') by (apply (O y y' i); congruence). congruence.
  - intros m H. pull S2 H y. assert (E : active_ti m = active_ti y) by done. rewrite E, <- (A y My). done.
  - intros m x H E. pull S2 H y. destruct (Hd y x) as (g & ? & ? & ?); [done|congruence|].
    exists g. rewrite S3. split_and!; congruence.
  - intros g r H E. rewrite S3 in H. destruct (Ow g r H E) as (m & M & E1 & E2).
    pull (eq_sym S2) M y. exists y. split_and!; congruence.
  - intros g i H E. rewrite S3 in H. destruct (Kb g i H E) as (m & M & E1 & E2).
    pull (eq_sym S2) M y. exists y. split_and!; congruence.
Qed.

Lemma serves_sim s s' seat x : similar s s' -> serves s seat x -> serves s' seat x.
Proof.
  intros [S _ _ _] (t & M & E1 & E2 & E3 & E4). pull (eq_sym S) M y. exists y. split_and!; congruence.
Qed.

Lemma served_sim ex s s' : similar s s' -> served_but ex s -> served_but ex s'.
Proof.
  intros S H m x Hm E N Sd. pull (sim_im _ _ S) Hm y.
  assert (Es : im_seat m = im_seat y) by done. rewrite Es in N, Sd |- *.
  eapply serves_sim; [done|]. apply H; first [done|congruence].
Qed.

Lemma entered_sim ex s s' : similar s s' -> entered_but ex s -> entered_but ex s'.
Proof.
  intros [S1 _ _ S4] H t k Ht Hk E N Sd. pull S1 Ht t0. pull S4 Hk k0.
  assert (Ec : t_client t = t_client t0) by done. assert (Ep : k_present k = k_present k0) by done.
  assert (Ef : kfocus k = kfocus k0) by (unfold kfocus; rewrite Ep; by destruct (k_present k0)).
  assert (Es : t_seat t = t_seat t0) by done. rewrite Es in Sd.
  assert (G : entered t0 = wanted sc t0 (kfocus k0)) by (apply H; first [done|congruence]).
  unfold wanted in *. rewrite Ec, Ef, <- G. congruence.
Qed.

Lemma alive_sim s s' : similar s s' -> alive_inv s -> alive_inv s'.
Proof.
  intros S H m i Hm E. pull (sim_im _ _ S) Hm y. apply (sim_alive s s' i S). apply (H y); congruence.
Qed.

Lemma inv_sim ex s s' : similar s s' -> ti_inv_but ex s -> ti_inv_but ex s'.
Proof.
  intros S (B & E & V & A).
  split_and!; [by eapply base_sim|by eapply entered_sim|by eapply served_sim|by eapply alive_sim].
Qed.

(** ** Quiet functions *)

Lemma sim_refl s : similar s s.
Proof. by split. Qed.
Lemma sim_emit e s : similar s (ti_emit e s).
Proof. by split. Qed.

Lemma map_upd_core {A B} (key : A -> Z) (core : A -> B) r f l :
  (forall x, core (f x) = core x) ->
  map core (map (fun x => if key x =? r then f x else x) l) = map core l.
Proof. intros E. rewrite map_map. apply map_ext. intros x. by destruct (key x =? r). Qed.

Lemma sim_upd_im r f s : (forall m, im_core (f m) = im_core m) -> similar s (upd_im r f s).
Proof. intros E. split; [done| |done|done]. by apply map_upd_core. Qed.
Lemma sim_upd_ti r f s : (forall t, ti_core (f t) = ti_core t) -> similar s (upd_ti r f s).
Proof. intros E. split; [|done..]. by apply map_upd_core. Qed.
Lemma sim_upd_keyboard i f s :
  (forall k, kb_seen (f k) = kb_seen k) -> similar s (upd_keyboard i f s).
Proof.
  intros E. split; [done..|]. by apply (map_upd_core k_seat kb_seen).
Qed.

Lemma sim_reset r s : similar s (qdwin_im_reset_pending r s).
Proof. by apply sim_upd_im. Qed.
Lemma sim_done r s : similar s (im_send_done r s).
Proof. eapply sim_trans; [apply sim_emit|]. by apply sim_upd_im. Qed.

Lemma sim_send_state r t s : similar s (qdwin_im_send_state r t s).
Proof.
  unfold qdwin_im_send_state. eapply sim_trans; [|apply sim_done].
  destruct (surrounding _) as [[[??]?]|], (change_cause _), (content_type _) as [[??]|]; by split.
Qed.

(** ** Activation as one assignment *)

Definition set_served (r : Z) (o : option Z) : ti_state -> ti_state :=
  upd_im r (fun m => m <| active := bool_decide (is_Some o) |> <| active_ti := o |>).

Definition core_served (r : Z) (o : option Z)
    (c : Z * Z * option Z * bool * bool * option Z * option Z) :=
  let '(res, cl, seat, dead, act, ti, g) := c in
  if res =? r then (res, cl, seat, dead, bool_decide (is_Some o), o, g) else c.

Lemma set_served_core r o s :
  map im_core (input_methods (set_served r o s)) = map (core_served r o) (map im_core (input_methods s)).
Proof.
  cbn. rewrite !map_map. apply map_ext. intros m. unfold im_core, core_served. by destruct (im_res m =? r).
Qed.

Lemma set_served_sim r o s s' : similar s s' -> similar (set_served r o s) (set_served r o s').
Proof. intros []. split; [done| |done|done]. rewrite !set_served_core. by f_equal. Qed.

Lemma set_served_twice r o o' s : similar (set_served r o s) (set_served r o (set_served r o' s)).
Proof.
  split; [done| |done|done]. rewrite !set_served_core, !map_map. apply map_ext. intros m.
  unfold core_served, im_core. destruct (im_res m =? r) eqn:E; by rewrite E.
Qed.

Lemma deactivate_sim r m s :
  im_of r s = Some m -> active m = true -> similar (set_served r None s) (qdwin_im_deactivate r s).
Proof.
  intros H A. unfold qdwin_im_deactivate. rewrite H, A. cbn [negb].
  eapply sim_trans; [|apply sim_reset]. apply (set_served_sim r None).
  eapply sim_trans; [apply (sim_emit (im_deactivate r))|apply sim_done].
Qed.

Lemma activate_sim r t s : similar (set_served r (Some (t_res t)) s) (qdwin_im_activate r t s).
Proof.
  unfold qdwin_im_activate. eapply sim_trans; [|apply sim_send_state].
  eapply sim_trans; [|apply sim_emit]. eapply sim_trans; [|apply sim_reset]. apply sim_refl.
Qed.

Lemma im_for_seat_spec i s m :
  qdwin_im_for_seat (Some i) s = Some m ->
  m ∈ input_methods s /\ inert m = false /\ im_seat m = Some i.
Proof.
  intros [H E]%List.find_some. apply andb_true_iff in E as [E1 E2%bool_decide_eq_true].
  rewrite list_elem_of_In. by apply negb_true_iff in E1.
Qed.

Lemma candidate_serves seat s t :
  qdwin_im_active_candidate seat s = Some t -> serves s seat (t_res t).
Proof.
  intros [H E]%List.find_some. apply andb_true_iff in E as [E E3]. apply andb_true_iff in E as [E1 E2].
  apply bool_decide_eq_true in E1, E2. exists t. by rewrite list_elem_of_In.
Qed.

(** The reconciliation assigns the candidate of the seat to its input method. *)
Definition synced (i : Z) (s : ti_state) : ti_state :=
  match qdwin_im_for_seat (Some i) s with
  | Some m => set_served (im_res m) (t_res <$> qdwin_im_active_candidate (Some i) s) s
  | None => s
  end.

Lemma set_served_noop r s m :
  base_inv s -> im_of r s = Some m -> similar (set_served r (active_ti m) s) s.
Proof.
  intros B H. split; [done| |done|done]. rewrite set_served_core, map_map.
  apply map_ext_in. intros n I%list_elem_of_In. unfold core_served, im_core.
  destruct (Z.eqb_spec (im_res n) r) as [E|]; [|done].
  assert (n = m) as ->; [|by rewrite <- (inv_active s B m I)].
  pose proof (find_unique im_res r _ n (inv_im s B) I E) as F.
  unfold im_of in H. rewrite H in F. congruence.
Qed.

Lemma sync_sim i s : base_inv s -> similar (synced i s) (qdwin_im_sync_seat (Some i) s).
Proof.
  intros B. unfold synced, qdwin_im_sync_seat.
  destruct (qdwin_im_for_seat (Some i) s) as [m|] eqn:F; [|apply sim_refl].
  destruct (im_for_seat_spec _ _ _ F) as (I & _ & _).
  pose proof (find_unique im_res (im_res m) _ m (inv_im s B) I eq_refl) as Hm. fold (im_of (im_res m) s) in Hm.
  set (c := qdwin_im_active_candidate (Some i) s). case_bool_decide as E; cbn [negb].
  - rewrite E. eapply sim_trans; [by apply set_served_noop|].
    destruct c as [t|]; [|apply sim_refl]. destruct (active m); [apply sim_send_state|apply sim_refl].
  - assert (S : similar (set_served (im_res m) None s)
                        (if active m then qdwin_im_deactivate (im_res m) s else s)).
    { destruct (active m) eqn:A; [by eapply deactivate_sim|].
      rewrite (inv_active s B m I) in A. apply bool_decide_eq_false in A.
      assert (N : active_ti m = None) by (destruct (active_ti m); [destruct A; eauto|done]).
      rewrite <- N. by apply set_served_noop. }
    destruct c as [t|]; [|done]. cbn [fmap option_fmap option_map].
    eapply sim_trans; [|apply activate_sim]. eapply sim_trans; [apply set_served_twice|].
    apply set_served_sim. exact S.
Qed.

Lemma elem_upd {A} (key : A -> Z) r f (l : list A) x :
  x ∈ map (fun y => if key y =? r then f y else y) l ->
  exists y, y ∈ l /\ x = if key y =? r then f y else y.
Proof.
  intros H%list_elem_of_In. apply in_map_iff in H as (y & <- & H). exists y.
  by rewrite list_elem_of_In.
Qed.
Lemma elem_upd_in {A} (key : A -> Z) r f (l : list A) x :
  x ∈ l -> (if key x =? r then f x else x) ∈ map (fun y => if key y =? r then f y else y) l.
Proof. rewrite !list_elem_of_In. intros. by apply (in_map (fun y => if key y =? r then f y else y)). Qed.

(** ** The invariant across an activation *)

Definition im_frame (m : input_method) := (im_res m, im_seat m, inert m, im_grab m).

Lemma base_ims l s :
  base_inv s -> map im_frame l = map im_frame (input_methods s) ->
  (forall m, m ∈ l -> active m = bool_decide (is_Some (active_ti m)) /\ (inert m = true -> active_ti m = None)) ->
  base_inv (s <| input_methods := l |>).
Proof.
  intros [T I G K Dk St O A Hd Ow Kb] F Act. split; cbn [text_inputs input_methods im_grabs keyboards]; try done.
  - eapply (sim_nodup (fun c => fst (fst (fst c))) im_frame); [| |exact I]; [by intros []|done].
  - intros m H. pull F H y. destruct (Act m H) as [_ D].
    destruct (St y My) as [(?&?&?)|(? & i & ?)]; [left|right].
    + split_and!; try congruence. apply D. congruence.
    + split; [congruence|]. exists i. congruence.
  - intros m m' i H H' E E'. pull F H y. pull F H' y'.
    assert (im_res y = im_res y') by (apply (O y y' i); congruence). congruence.
  - intros m H. by destruct (Act m H).
  - intros m x H E. pull F H y. destruct (Hd y x) as (g & ? & ? & ?); [done|congruence|].
    exists g. split_and!; [done|congruence..].
  - intros g r H E. destruct (Ow g r H E) as (m & M & E1 & E2). pull (eq_sym F) M y.
    exists y. split_and!; [done|congruence..].
  - intros g i H E. destruct (Kb g i H E) as (m & M & E1 & E2). pull (eq_sym F) M y.
    exists y. split_and!; [done|congruence..].
Qed.

Lemma base_set_served r o s :
  base_inv s -> (forall m, m ∈ input_methods s -> im_res m = r -> inert m = true -> o = None) ->
  base_inv (set_served r o s).
Proof.
  intros B D. apply (base_ims (input_methods (set_served r o s))); [done| |].
  - apply (map_upd_core im_res im_frame). done.
  - intros m (y & Hy & ->)%elem_upd. destruct (Z.eqb_spec (im_res y) r) as [E|].
    + split; [done|]. cbn. eauto.
    + split; [by apply (inv_active s B)|]. intros Ei.
      destruct (inv_seat s B y Hy) as [(?&?&?)|(?&?)]; congruence.
Qed.

Lemma synced_inv i s :
  base_inv s -> served_but (Some i) s -> base_inv (synced i s) /\ served_but None (synced i s).
Proof.
  intros B V. unfold synced. destruct (qdwin_im_for_seat (Some i) s) as [m|] eqn:F.
  - destruct (im_for_seat_spec _ _ _ F) as (I & D & Es). split.
    { apply base_set_served; [done|]. intros n Hn E Di. assert (n = m) as ->; [|congruence].
      pose proof (find_unique im_res _ _ n (inv_im s B) Hn E) as F1.
      pose proof (find_unique im_res _ _ m (inv_im s B) I eq_refl). congruence. }
    intros n x (y & Hy & ->)%elem_upd. destruct (Z.eqb_spec (im_res y) (im_res m)) as [E|E].
    + intros Ea _ _. cbn in Ea |- *. destruct (qdwin_im_active_candidate (Some i) s) as [t|] eqn:C; [|done].
      injection Ea as <-. apply candidate_serves in C.
      assert (y = m) as ->; [|by rewrite Es].
      pose proof (find_unique im_res _ _ y (inv_im s B) Hy E) as F1.
      pose proof (find_unique im_res _ _ m (inv_im s B) I eq_refl). congruence.
    + intros Ea N Sd. apply V; [done..| |done]. intros Ei. destruct E.
      by apply (inv_one s B y m i).
  - split; [done|]. intros m x H Ea N Sd. apply V; [done..| |done]. intros Ei.
    unfold qdwin_im_for_seat in F. apply List.find_none with (x := m) in F; [|by apply list_elem_of_In].
    destruct (inv_seat s B m H) as [(?&?&?)|(Di & ?)]; [congruence|].
    rewrite Di, bool_decide_eq_true_2 in F by done. done.
Qed.

Lemma sync_inv i s :
  base_inv s -> entered_but None s -> served_but (Some i) s -> alive_inv s ->
  ti_inv (qdwin_im_sync_seat (Some i) s).
Proof.
  intros B E V A. destruct (synced_inv i s B V) as [B1 V1].
  apply (inv_sim None (synced i s)); [by apply sync_sim|]. split_and!; [done| |done|];
    unfold synced; destruct (qdwin_im_for_seat _ _) as [n|]; try done.
  intros m j (y & Hy & ->)%elem_upd. destruct (im_res y =? im_res n); exact (A y j Hy).
Qed.

(** ** The focus moves *)

Definition others (s : ti_state) :=
  (input_methods s, im_grabs s, keyboards s, virtual_keyboards s, managers s).

Lemma refocus_others focus s t : others (refocus_text_input sc focus s t) = others s.
Proof.
  unfold refocus_text_input. case_bool_decide; [done|]. by destruct (entered t), (wanted sc t focus).
Qed.

Definition moved_to (focus : option Z) (t : text_input) : text_input := t <| entered := wanted sc t focus |>.

Lemma refocus_one focus s t :
  NoDup (map t_res (text_inputs s)) -> t ∈ text_inputs s ->
  text_inputs (refocus_text_input sc focus s t)
  = map (fun u => if t_res u =? t_res t then moved_to focus u else u) (text_inputs s).
Proof.
  intros N I.
  assert (U : forall u, u ∈ text_inputs s -> t_res u = t_res t -> u = t).
  { intros u Iu E. pose proof (find_unique t_res _ _ u N Iu E).
    pose proof (find_unique t_res _ _ t N I eq_refl). congruence. }
  unfold refocus_text_input. case_bool_decide as E.
  - rewrite <- map_id at 1. apply map_ext_in. intros u Iu%list_elem_of_In.
    destruct (Z.eqb_spec (t_res u) (t_res t)) as [Eu|]; [|done]. rewrite (U u Iu Eu).
    unfold moved_to. rewrite E. by destruct t.
  - transitivity (map (fun u => if t_res u =? t_res t then u <| entered := wanted sc t focus |> else u)
                    (text_inputs s)).
    + destruct (entered t) as [f|], (wanted sc t focus) as [w|]; try done.
      etrans; [|apply map_ext; intros u; instantiate (1 := fun u => (fun u => if t_res u =? t_res t
        then u <| entered := Some w |> else u) (if t_res u =? t_res t then u <| entered := None |> else u));
        cbn; destruct (t_res u =? t_res t) eqn:Eu; cbn; by rewrite Eu].
      by rewrite <- map_map.
    + apply map_ext_in. intros u Iu%list_elem_of_In.
      destruct (Z.eqb_spec (t_res u) (t_res t)) as [Eu|]; [|done]. by rewrite (U u Iu Eu).
Qed.

Lemma moved_key focus t : t_res (moved_to focus t) = t_res t.
Proof. done. Qed.

Lemma refocus_list focus l s :
  NoDup (map t_res (text_inputs s)) -> NoDup (map t_res l) -> (forall t, t ∈ l -> t ∈ text_inputs s) ->
  let s' := foldl (refocus_text_input sc focus) s l in
  others s' = others s
  /\ text_inputs s' = map (fun u => if bool_decide (t_res u ∈ map t_res l) then moved_to focus u else u)
                       (text_inputs s).
Proof.
  revert s. induction l as [|t l IH]; intros s N Nl I; cbn [foldl].
  - split; [done|]. rewrite <- map_id at 1. apply map_ext. done.
  - cbn in Nl. apply NoDup_cons in Nl as [Nt Nl].
    pose proof (refocus_one focus s t N (I t (list_elem_of_here _ _))) as E.
    destruct (IH (refocus_text_input sc focus s t)) as [O L].
    + rewrite E, map_key_upd; [done|]. intros x. by destruct (t_res x =? t_res t).
    + done.
    + intros u Iu. rewrite E. apply list_elem_of_In, in_map_iff. exists u. split.
      * destruct (Z.eqb_spec (t_res u) (t_res t)) as [Eu|]; [|done]. destruct Nt. rewrite <- Eu.
        apply list_elem_of_In, in_map. by apply list_elem_of_In.
      * apply list_elem_of_In, I. by apply list_elem_of_further.
    + split; [by rewrite O, refocus_others|]. rewrite L, E, map_map. apply map_ext. intros u. cbn.
      destruct (Z.eqb_spec (t_res u) (t_res t)) as [Eu|Eu].
      * rewrite moved_key, bool_decide_eq_false_2 by (by rewrite Eu).
        rewrite bool_decide_eq_true_2 by (rewrite Eu; apply list_elem_of_here). done.
      * apply (f_equal (fun b : bool => if b then moved_to focus u else u)).
        apply bool_decide_ext. rewrite elem_of_cons. tauto.
Qed.

Lemma base_others s s' :
  others s' = others s -> map t_res (text_inputs s') = map t_res (text_inputs s) ->
  base_inv s -> base_inv s'.
Proof.
  intros O E []. injection O as O1 O2 O3 _ _. split; unfold seat_alive in *; rewrite ?E, ?O1, ?O2, ?O3; done.
Qed.

Definition focus_of (seat : option Z) (s : ti_state) : option Z :=
  match seat with
  | Some i => match get_keyboard i s with Some k => k_focus k | None => None end
  | None => None
  end.

Lemma focus_of_kfocus s k :
  base_inv s -> k ∈ keyboards s -> focus_of (Some (k_seat k)) s = kfocus k.
Proof.
  intros B I. cbn. unfold get_keyboard, keyboard_of.
  rewrite (find_unique k_seat _ _ k (inv_k s B) I eq_refl). unfold kfocus. by destruct (k_present k).
Qed.

(** All text inputs of a seat at once. *)
Definition refocused (seat : option Z) (s : ti_state) : ti_state :=
  foldl (refocus_text_input sc (focus_of seat s)) s
    (List.filter (fun t => bool_decide (t_seat t = seat)) (text_inputs s)).

Lemma refocused_spec seat s :
  base_inv s ->
  others (refocused seat s) = others s
  /\ text_inputs (refocused seat s)
     = map (fun u => if bool_decide (t_seat u = seat) then moved_to (focus_of seat s) u else u)
         (text_inputs s).
Proof.
  intros B. destruct (refocus_list (focus_of seat s)
    (List.filter (fun t => bool_decide (t_seat t = seat)) (text_inputs s)) s) as [O L].
  - apply (inv_ti s B).
  - apply nodup_filter_key, (inv_ti s B).
  - intros t. rewrite !list_elem_of_In. by intros [H _]%filter_In.
  - split; [done|]. unfold refocused. rewrite L. apply map_ext_in. intros u Iu%list_elem_of_In.
    apply (f_equal (fun b : bool => if b then moved_to (focus_of seat s) u else u)).
    apply bool_decide_ext. rewrite list_elem_of_In, in_map_iff. split.
    + intros (v & Ev & [Iv Sv%bool_decide_eq_true]%filter_In). rewrite <- list_elem_of_In in Iv.
      pose proof (find_unique t_res _ _ v (inv_ti s B) Iv Ev).
      pose proof (find_unique t_res _ _ u (inv_ti s B) Iu eq_refl). congruence.
    + intros Su. exists u. rewrite filter_In, <- list_elem_of_In. by rewrite bool_decide_eq_true_2.
Qed.

Lemma refocused_inv seat s :
  ti_inv_but seat s ->
  base_inv (refocused seat s) /\ entered_but None (refocused seat s) /\ served_but seat (refocused seat s)
  /\ alive_inv (refocused seat s).
Proof.
  intros (B & E & V & A). destruct (refocused_spec seat s B) as [O L]. split_and!.
  - eapply base_others; [done| |done]. rewrite L. apply map_key_upd. intros x. by case_bool_decide.
  - injection O as O1 O2 O3 _ _. intros t k. rewrite L, O3. intros Ht Hk Es _ Sd.
    apply list_elem_of_In, in_map_iff in Ht as (u & <- & Hu%list_elem_of_In). case_bool_decide as D.
    + cbn in Es |- *. rewrite <- (focus_of_kfocus s k B Hk). by rewrite <- Es, D.
    + apply (E u k); first [done|congruence].
  - injection O as O1 O2 O3 _ _. intros m x. rewrite O1. intros Hm Ea N Sd.
    destruct (V m x Hm Ea N Sd) as (t & It & E1 & E2 & E3 & E4). exists t. rewrite L.
    split_and!; [|congruence..]. apply list_elem_of_In, in_map_iff. exists t.
    rewrite bool_decide_eq_false_2 by congruence. by rewrite <- list_elem_of_In.
  - injection O as O1 O2 O3 _ _. intros m i. unfold seat_alive. rewrite O1, O3. apply A.
Qed.

Lemma update_focus_inv seat s :
  ti_inv_but seat s -> ti_inv (qdwin_text_input_update_focus sc seat s).
Proof.
  intros (B1 & E1 & V1 & A1)%refocused_inv.
  change (ti_inv (qdwin_im_sync_seat seat (refocused seat s))).
  destruct seat as [i|]; [by apply sync_inv|]. by split_and!.
Qed.

Lemma but_weaken ex s : ti_inv s -> ti_inv_but ex s.
Proof.
  intros (B & E & V & A). split_and!; [done| | |done].
  - intros t k Ht Hk Es _ Sd. by apply E; [..|rewrite Es|].
  - intros m x Hm Ea _ Sd. apply V; [done..| |done]. intros En.
    destruct (inv_seat s B m Hm) as [(?&?&?)|(?&?&?)]; congruence.
Qed.

(** ** The keyboard of a seat changes *)

Lemma keyboard_change_inv i f s :
  (forall k, k_seat (f k) = k_seat k) ->
  (forall k, k ∈ keyboards s -> k_seat k = i -> k_present (f k) = false -> k_focus (f k) = None) -> ti_inv_but (Some i) s -> ti_inv_but (Some i) (upd_keyboard i f s).
Proof.
  intros Kf Df (B & E & V & A).
  assert (Ks : map k_seat (keyboards (upd_keyboard i f s)) = map k_seat (keyboards s)).
  { apply map_key_upd. intros k. by destruct (k_seat k =? i). }
  split_and!; [|  |done|].
  - destruct B as [T I G K Dk St O Ac Hd Ow Kb]. split; try done; [by rewrite Ks|].
    intros k (k0 & Hk & ->)%elem_upd. destruct (Z.eqb_spec (k_seat k0) i); [by apply Df|by apply Dk].
  - intros t k Ht (k0 & Hk & ->)%elem_upd. destruct (Z.eqb_spec (k_seat k0) i) as [Ei|].
    + rewrite Kf. congruence.
    + by apply E.
  - intros m j Hm Ej. unfold seat_alive. rewrite Ks. by eapply A.
Qed.

(** The keyboard of the seat is there, or the focus is taken away. *)
Definition may_focus (i : Z) (f : option Z) (s : ti_state) : Prop :=
  forall k, k ∈ keyboards s -> k_seat k = i -> k_present k = true \/ f = None.

Lemma set_focus_inv i f s :
  may_focus i f s -> ti_inv_but (Some i) s -> ti_inv (keyboard_set_focus sc i f s).
Proof.
  intros P H. apply update_focus_inv, keyboard_change_inv; [done| |done]. intros k Hk Ei. cbn.
  by destruct (P k Hk Ei) as [->| ->].
Qed.

Lemma deactivate_kt r s :
  text_inputs (qdwin_im_deactivate r s) = text_inputs s /\ keyboards (qdwin_im_deactivate r s) = keyboards s
  /\ im_grabs (qdwin_im_deactivate r s) = im_grabs s.
Proof. unfold qdwin_im_deactivate. destruct (im_of r s) as [m|]; [|done]. by destruct (active m). Qed.

Lemma send_state_kt r t s :
  text_inputs (qdwin_im_send_state r t s) = text_inputs s
  /\ keyboards (qdwin_im_send_state r t s) = keyboards s
  /\ im_grabs (qdwin_im_send_state r t s) = im_grabs s.
Proof.
  unfold qdwin_im_send_state.
  by destruct (surrounding _) as [[[??]?]|], (change_cause _), (content_type _) as [[??]|].
Qed.

Lemma sync_kt seat s :
  text_inputs (qdwin_im_sync_seat seat s) = text_inputs s
  /\ keyboards (qdwin_im_sync_seat seat s) = keyboards s
  /\ im_grabs (qdwin_im_sync_seat seat s) = im_grabs s.
Proof.
  unfold qdwin_im_sync_seat. destruct (qdwin_im_for_seat seat s) as [m|]; [|done]. cbv zeta.
  set (c := qdwin_im_active_candidate seat s). case_bool_decide; cbn [negb].
  - destruct c as [t|]; [|done]. destruct (active m); [|done]. apply send_state_kt.
  - assert (D : forall s0 : ti_state, s0 = (if active m then qdwin_im_deactivate (im_res m) s else s) ->
             text_inputs s0 = text_inputs s /\ keyboards s0 = keyboards s /\ im_grabs s0 = im_grabs s).
    { intros s0 ->. destruct (active m); [apply deactivate_kt|done]. }
    specialize (D _ eq_refl). destruct c as [t|]; [|done]. unfold qdwin_im_activate.
    rewrite !(proj1 (send_state_kt _ _ _)), !(proj1 (proj2 (send_state_kt _ _ _))),
      !(proj2 (proj2 (send_state_kt _ _ _))). exact D.
Qed.

Lemma refocused_others seat s : others (refocused seat s) = others s.
Proof.
  unfold refocused. generalize (focus_of seat s).
  generalize (List.filter (fun t => bool_decide (t_seat t = seat)) (text_inputs s)).
  intros l focus. revert s. induction l as [|t l IH]; intros s; [done|]. cbn [foldl].
  by rewrite IH, refocus_others.
Qed.

Lemma update_focus_kg seat s :
  keyboards (qdwin_text_input_update_focus sc seat s) = keyboards s
  /\ im_grabs (qdwin_text_input_update_focus sc seat s) = im_grabs s.
Proof.
  change (qdwin_text_input_update_focus sc seat s) with (qdwin_im_sync_seat seat (refocused seat s)).
  destruct (sync_kt seat (refocused seat s)) as (_ & -> & ->).
  pose proof (refocused_others seat s) as O. by injection O.
Qed.

Lemma set_focus_keyboards i f s :
  keyboards (keyboard_set_focus sc i f s)
  = map (fun k => if k_seat k =? i then k <| k_focus := with_resource sc f |> else k) (keyboards s).
Proof. unfold keyboard_set_focus. by rewrite (proj1 (update_focus_kg _ _)). Qed.

Lemma unfocus_all l s :
  ti_inv s -> let s' := foldl (fun s i => keyboard_set_focus sc i None s) s l in
  ti_inv s' /\ forall k, k ∈ keyboards s' -> k_focus k = None \/ (k ∈ keyboards s /\ k_seat k ∉ l).
Proof.
  revert s. induction l as [|i l IH]; intros s H; cbn [foldl].
  - split; [done|]. intros k Hk. right. split; [done|]. apply not_elem_of_nil.
  - destruct (IH (keyboard_set_focus sc i None s)) as [H1 K1].
    { apply set_focus_inv; [by right|by apply but_weaken]. }
    split; [done|]. intros k Hk. destruct (K1 k Hk) as [|[Hk1 Nl]]; [by left|].
    rewrite set_focus_keyboards in Hk1. apply elem_upd in Hk1 as (k0 & Hk0 & ->).
    destruct (Z.eqb_spec (k_seat k0) i); [by left|right]. split; [done|].
    rewrite not_elem_of_cons. done.
Qed.

Lemma surface_destroyed_inv f s : ti_inv s -> ti_inv (ti_surface_destroyed sc f s).
Proof.
  intros H. destruct (unfocus_all (map k_seat (List.filter (fun k => bool_decide (k_focus k = Some f))
    (keyboards s))) s H) as [(B & E & V & A) K].
  unfold ti_surface_destroyed. revert B E V A K. set (s1 := foldl _ _ _). intros B E V A K.
  assert (NF : forall k, k ∈ keyboards s1 -> kfocus k ≠ Some f).
  { intros k Hk F. unfold kfocus in F. destruct (k_present k); [|done].
    destruct (K k Hk) as [|[Hk0 N]]; [congruence|]. apply N.
    apply list_elem_of_In, in_map, filter_In. rewrite <- list_elem_of_In.
    by rewrite bool_decide_eq_true_2. }
  assert (NE : forall t k, t ∈ text_inputs s1 -> k ∈ keyboards s1 -> t_seat t = Some (k_seat k) ->
               sound_seat (t_seat t) -> entered t ≠ Some f).
  { intros t k Ht Hk Es Sd F. rewrite (E t k Ht Hk Es) in F by first [done|congruence]. unfold wanted in F.
    destruct (kfocus k) as [g|] eqn:G; [|done]. case_bool_decide; [|done]. by apply (NF k Hk); congruence. }
  split_and!.
  - eapply (base_others s1); [done| |done]. apply map_key_upd. intros t. by case_bool_decide.
  - intros t k Ht Hk Es _ Sd. apply list_elem_of_In, in_map_iff in Ht as (u & <- & Hu%list_elem_of_In).
    case_bool_decide as D; [|by apply E; [..|rewrite Es|]]. by destruct (NE u k Hu Hk Es Sd).
  - intros m x Hm Ea N Sd. destruct (V m x Hm Ea N Sd) as (t & It & E1 & E2 & E3 & E4). exists t.
    split_and!; [|done..]. apply list_elem_of_In, in_map_iff. exists t. rewrite <- list_elem_of_In.
    split; [|done]. case_bool_decide as D; [|done]. exfalso. change (im_seat m ≠ None) in N.
    destruct (im_seat m) as [i|] eqn:Ei; [|done]. pose proof (A m i Hm Ei) as (k & Hk & Ek)%seat_alive_elem.
    apply (NE t k); first [done|by rewrite E2|congruence].
  - exact A.
Qed.

(** ** The requests of a text input *)

Lemma upd_ti_inv r f s :
  (forall t, (t_res (f t), t_client (f t), t_seat (f t), entered (f t)) = (t_res t, t_client t, t_seat t, entered t)) ->
  ti_inv s -> ti_inv_but (match ti_of r s with Some t => t_seat t | None => None end) (upd_ti r f s)
    /\ entered_but None (upd_ti r f s).
Proof.
  intros F (B & E & V & A).
  assert (En : entered_but None (upd_ti r f s)).
  { intros t k (u & Hu & ->)%elem_upd Hk. specialize (F u). injection F as F1 F2 F3 F4.
    destruct (t_res u =? r); [|by apply E]. rewrite F3, F4. unfold wanted. rewrite F2. by apply E. }
  split; [|done]. split_and!; [| | |done].
  - eapply (base_others s); [done| |done]. apply map_key_upd. intros t. specialize (F t).
    injection F as F1 F2 F3 F4. by destruct (t_res t =? r).
  - intros t k Ht Hk Es _ Sd. by apply En; [..|rewrite Es|].
  - intros m x Hm Ea N Sd. destruct (inv_seat s B m Hm) as [(?&?&?)|(_ & i & Ei)]; [congruence|].
    destruct (V m x Hm Ea) as (t & It & E1 & E2 & E3 & E4); [congruence|done|].
    exists t. split_and!; [|done..]. pose proof (elem_upd_in t_res r f _ t It) as It'.
    destruct (Z.eqb_spec (t_res t) r) as [Er|]; [|done]. destruct N.
    unfold ti_of. by rewrite (find_unique t_res r _ t (inv_ti s B) It Er).
Qed.

Lemma ti_commit_inv r s : ti_inv s -> ti_inv (qdwin_text_input_commit r s).
Proof.
  intros H. unfold qdwin_text_input_commit. destruct (ti_of r s) as [t|] eqn:F; [|done].
  destruct (upd_ti_inv r commit_text_input s ltac:(done) H) as [I En]. rewrite F in I.
  destruct I as (B & _ & V & A). destruct (t_seat t) as [i|]; [by apply sync_inv|by split_and!].
Qed.

Lemma deactivate_inv r s : ti_inv s -> ti_inv (qdwin_im_deactivate r s).
Proof.
  intros (B & E & V & A). destruct (im_of r s) as [m|] eqn:F; [|unfold qdwin_im_deactivate; by rewrite F].
  destruct (active m) eqn:Ac; [|unfold qdwin_im_deactivate; by rewrite F, Ac].
  eapply inv_sim; [by eapply deactivate_sim|]. split_and!; [by apply base_set_served|done| |].
  - intros n x (y & Hy & ->)%elem_upd. destruct (im_res y =? r); [done|]. by apply V.
  - intros n j (y & Hy & ->)%elem_upd. destruct (im_res y =? r); exact (A y j Hy).
Qed.

Lemma deactivate_ims r s :
  let s' := qdwin_im_deactivate r s in
  map im_res (input_methods s') = map im_res (input_methods s)
  /\ forall n, n ∈ input_methods s' -> exists y, y ∈ input_methods s /\ im_res n = im_res y
       /\ (n = y \/ active_ti n = None).
Proof.
  cbv zeta. unfold qdwin_im_deactivate. destruct (im_of r s) as [m|] eqn:F; [|eauto 10].
  destruct (active m); cbn [negb]; [|eauto 10]. split.
  - cbn. rewrite !map_map. apply map_ext. intros y. by destruct (im_res y =? r) eqn:E; cbn; rewrite ?E; cbn; rewrite ?E.
  - intros n. cbn. rewrite !map_map. intros H%list_elem_of_In. apply in_map_iff in H as (y & <- & H).
    exists y. rewrite list_elem_of_In. split; [done|].
    destruct (im_res y =? r) eqn:E; cbn; rewrite ?E; cbn; rewrite ?E; [by split; [|right]|by split; [|left]].
Qed.

(** A text input goes: nobody serves it any more. *)
Lemma deactivate_self r s m :
  base_inv s -> m ∈ input_methods (qdwin_im_deactivate r s) -> im_res m = r -> active_ti m = None.
Proof.
  intros B. unfold qdwin_im_deactivate. destruct (im_of r s) as [n|] eqn:F.
  - apply (find_key im_res) in F as [Er Hn].
    assert (U : forall y, y ∈ input_methods s -> im_res y = r -> y = n).
    { intros y Hy E. pose proof (find_unique im_res r _ y (inv_im s B) Hy E).
      pose proof (find_unique im_res r _ n (inv_im s B) Hn Er). congruence. }
    destruct (active n) eqn:A; cbn [negb].
    + cbn. rewrite !map_map. intros H%list_elem_of_In. apply in_map_iff in H as (y & <- & H).
      destruct (im_res y =? r) eqn:E; cbn; rewrite ?E; cbn; rewrite ?E; [done|]. intros D.
      by rewrite D, Z.eqb_refl in E.
    + intros H E. rewrite (U m H E). rewrite (inv_active s B n Hn) in A. apply bool_decide_eq_false in A.
      destruct (active_ti n); [|done]. by destruct A.
  - intros H E. apply (find_fresh im_res) in F. destruct F. rewrite <- E.
    apply list_elem_of_In, in_map. by apply list_elem_of_In.
Qed.

Definition gone_step (t : Z) (s : ti_state) (r : Z) : ti_state :=
  match im_of r s with
  | Some m => if bool_decide (active_ti m = Some t) then qdwin_im_deactivate r s else s
  | None => s
  end.

Lemma gone_list t l s :
  ti_inv s -> let s' := foldl (gone_step t) s l in
  ti_inv s' /\ text_inputs s' = text_inputs s /\ keyboards s' = keyboards s
  /\ map im_res (input_methods s') = map im_res (input_methods s)
  /\ forall m, m ∈ input_methods s' -> active_ti m = Some t -> m ∈ input_methods s /\ im_res m ∉ l.
Proof.
  revert s. induction l as [|r l IH]; intros s H; cbn [foldl].
  - split_and!; [done..|]. intros m Hm Ea. split; [done|]. apply not_elem_of_nil.
  - assert (S : ti_inv (gone_step t s r) /\ text_inputs (gone_step t s r) = text_inputs s
      /\ keyboards (gone_step t s r) = keyboards s
      /\ map im_res (input_methods (gone_step t s r)) = map im_res (input_methods s)
      /\ forall m, m ∈ input_methods (gone_step t s r) -> active_ti m = Some t ->
           m ∈ input_methods s /\ im_res m ≠ r).
    { unfold gone_step. destruct (im_of r s) as [m|] eqn:F.
      - case_bool_decide as D.
        + destruct (deactivate_kt r s) as (E1 & E2 & _). destruct (deactivate_ims r s) as [E3 E4].
          split_and!; [by apply deactivate_inv|done..|]. intros n Hn Ea. split.
          * destruct (E4 n Hn) as (y & Hy & _ & [->|N]); [done|congruence].
          * intros Er. apply deactivate_self in Hn; [congruence|apply H|done].
        + split_and!; [done..|]. intros n Hn Ea. split; [done|]. intros Er.
          pose proof (find_unique im_res r _ n (inv_im s (proj1 H)) Hn Er). unfold im_of in F. congruence.
      - split_and!; [done..|]. intros n Hn Ea. split; [done|]. intros Er.
        pose proof (find_unique im_res r _ n (inv_im s (proj1 H)) Hn Er). unfold im_of in F. congruence. }
    destruct S as (S1 & S2 & S3 & S4 & S5). destruct (IH _ S1) as (T1 & T2 & T3 & T4 & T5).
    split_and!; [done|congruence..|]. intros m Hm Ea. destruct (T5 m Hm Ea) as [Hm1 N].
    destruct (S5 m Hm1 Ea) as [? ?]. by rewrite not_elem_of_cons.
Qed.

Lemma gone_inv t s :
  ti_inv s -> let s' := qdwin_im_text_input_gone t s in
  ti_inv s' /\ text_inputs s' = text_inputs s
  /\ forall m, m ∈ input_methods s' -> active_ti m ≠ Some t.
Proof.
  intros H. destruct (gone_list t (map im_res (input_methods s)) s H) as (I & T & _ & R & N).
  split_and!; [done..|]. intros m Hm Ea. destruct (N m Hm Ea) as [_ []].
  rewrite <- R. apply list_elem_of_In, in_map. by apply list_elem_of_In.
Qed.

Lemma remove_ti_inv r s :
  ti_inv s -> (forall m, m ∈ input_methods s -> active_ti m ≠ Some r) -> ti_inv (remove_text_input r s).
Proof.
  intros (B & E & V & A) N. split_and!; [| | |exact A].
  - destruct B. split; try done. by apply nodup_filter_key.
  - intros t k [Ht _]%list_elem_of_In%filter_In. rewrite <- list_elem_of_In in Ht. by apply E.
  - intros m x Hm Ea Ns Sd. destruct (V m x Hm Ea Ns Sd) as (t & It & E1 & E2). exists t. split; [|done].
    apply list_elem_of_In, filter_In. rewrite <- list_elem_of_In. split; [done|].
    destruct (Z.eqb_spec (t_res t) r); [|done]. by destruct (N m Hm); congruence.
Qed.

Lemma clear_remove r s :
  text_inputs (remove_text_input r (qdwin_text_input_clear_entered r s))
  = text_inputs (remove_text_input r s).
Proof.
  cbn. induction (text_inputs s) as [|t l IH]; [done|]. cbn.
  destruct (t_res t =? r) eqn:E; cbn; rewrite E; cbn; [done|by f_equal].
Qed.

Lemma ti_destroy_inv r s : ti_inv s -> ti_inv (qdwin_text_input_resource_destroy r s).
Proof.
  intros H. unfold qdwin_text_input_resource_destroy. destruct (ti_of r s); [|done].
  destruct (gone_inv r s H) as (I & _ & N). eapply inv_sim; [|by apply remove_ti_inv].
  split; [|done..]. by rewrite clear_remove.
Qed.

Lemma get_text_input_inv client mgr id seat oom s :
  id ∉ map t_res (text_inputs s) -> ti_inv s ->
  ti_inv (qdwin_text_input_manager_get_text_input sc client mgr id seat oom s).
Proof.
  intros F H. unfold qdwin_text_input_manager_get_text_input.
  destruct (negb _); [done|]. destruct oom; [by eapply inv_sim; [apply sim_emit|]|]. cbv zeta. set (i := seat_user_data seat s).
  apply update_focus_inv. destruct (but_weaken i s H) as (B & E & V & A). split_and!; [| | |exact A].
  - destruct B. split; try done. cbn. by apply NoDup_cons.
  - intros t k Ht Hk Es N. cbn in Ht. apply elem_of_cons in Ht as [->|Ht]; [done|]. by apply E.
  - intros m x Hm Ea N Sd. destruct (V m x Hm Ea N Sd) as (t & It & E1 & E2). exists t. split; [|done].
    by apply list_elem_of_further.
Qed.

(** ** Grabs *)

Lemma sim_start_grab i g s : similar s (kb_start_grab i g s).
Proof. by apply sim_upd_keyboard. Qed.

Lemma sim_end_if_active x s : similar s (end_if_active x s).
Proof.
  unfold end_if_active. destruct (grab_struct x s) as [g|]; [|apply sim_refl].
  destruct (g_keyboard g) as [i|]; [|apply sim_refl]. destruct (keyboard_of i s) as [k|]; [|apply sim_refl].
  case_bool_decide; [apply sim_start_grab|apply sim_refl].
Qed.


Lemma elem_remove {A} (key : A -> Z) r (l : list A) x :
  x ∈ List.filter (fun y => negb (key y =? r)) l <-> x ∈ l /\ key x ≠ r.
Proof.
  rewrite !list_elem_of_In, filter_In, negb_true_iff. by rewrite Z.eqb_neq.
Qed.

(** The grab [x] and the pointer of its owner are gone. *)
Definition grab_freed (x : Z) (owner : option Z) (s : ti_state) : ti_state :=
  s <| im_grabs ::= List.filter (fun g => negb (g_res g =? x)) |>
    <| input_methods ::= map (fun m => if bool_decide (owner = Some (im_res m)) then m <| im_grab := None |> else m) |>.

Lemma grab_destroy_sim x g s :
  grab_struct x s = Some g -> similar (grab_freed x (g_im g) s) (qdwin_im_grab_resource_destroy x s).
Proof.
  intros F. unfold qdwin_im_grab_resource_destroy. rewrite F. cbv zeta.
  assert (R : forall s1 s2, similar s1 s2 -> similar (free_grab x s1) (free_grab x s2)).
  { intros s1 s2 []. split; try done. unfold free_grab. cbn. congruence. }
  set (s1 := match g_im g with Some r => _ | None => _ end).
  eapply sim_trans; [|apply R, sim_end_if_active]. unfold s1. destruct (g_im g) as [r|]; split; try done; cbn.
  - f_equal. apply map_ext. intros m. rewrite (bool_decide_ext (Some r = Some (im_res m)) (im_res m = r)).
    + by destruct (Z.eqb_spec (im_res m) r); case_bool_decide.
    + split; congruence.
  - rewrite map_map. apply map_ext. done.
Qed.

Lemma elem_freed owner (l : list input_method) m :
  m ∈ map (fun m => if bool_decide (owner = Some (im_res m)) then m <| im_grab := None |> else m) l ->
  exists n, n ∈ l /\ im_res m = im_res n /\ im_seat m = im_seat n /\ inert m = inert n
    /\ active m = active n /\ active_ti m = active_ti n
    /\ (owner = Some (im_res n) /\ im_grab m = None \/ owner ≠ Some (im_res n) /\ im_grab m = im_grab n).
Proof.
  intros H%list_elem_of_In. apply in_map_iff in H as (n & <- & H). exists n. rewrite list_elem_of_In.
  case_bool_decide; split_and!; auto.
Qed.

Lemma freed_elem owner (l : list input_method) n :
  n ∈ l -> exists m, m ∈ map (fun m => if bool_decide (owner = Some (im_res m)) then m <| im_grab := None |> else m) l
    /\ im_res m = im_res n /\ im_seat m = im_seat n /\ (owner ≠ Some (im_res n) -> im_grab m = im_grab n).
Proof.
  intros H. eexists. split.
  - apply list_elem_of_In, in_map_iff. exists n. rewrite <- list_elem_of_In. split; [reflexivity|done].
  - case_bool_decide; by split_and!.
Qed.

Lemma grab_freed_inv x g s : grab_struct x s = Some g -> ti_inv s -> ti_inv (grab_freed x (g_im g) s).
Proof.
  intros F%(find_key g_res) (B & E & V & A). destruct F as [Ex Hg].
  destruct B as [T I G K Dk St O Ac Hd Ow Kb]. split_and!; [|exact E| |].
  - split; try done.
    + change (NoDup (map im_res (map (fun m => if bool_decide (g_im g = Some (im_res m))
                                               then m <| im_grab := None |> else m) (input_methods s)))).
      rewrite map_key_upd; [done|]. intros m. by case_bool_decide.
    + by apply nodup_filter_key.
    + intros m (n & Hn & E1 & E2 & E3 & E4 & E5 & _)%elem_freed. rewrite E2, E3, E5. by apply St.
    + intros m m' i (n & Hn & E1 & E2 & _)%elem_freed (n' & Hn' & F1 & F2 & _)%elem_freed. rewrite E1, E2, F1, F2.
      by apply O.
    + intros m (n & Hn & E1 & E2 & E3 & E4 & E5 & _)%elem_freed. rewrite E4.
      assert (X : active_ti n = active_ti m) by done. rewrite <- X. by apply Ac.
    + intros m y (n & Hn & E1 & E2 & E3 & E4 & E5 & [[_ E6]|[N E6]])%elem_freed Ey; [congruence|].
      destruct (Hd n y Hn) as (g' & Hg' & R1 & R2); [congruence|]. exists g'. rewrite E1.
      split_and!; [|done..]. apply elem_remove. split; [done|]. intros X. apply N.
      rewrite <- R2. f_equal. apply (key_unique g_res (im_grabs s)); [done..|congruence].
    + intros g' r [Hg' N]%elem_remove Er. destruct (Ow g' r Hg' Er) as (m & Hm & R1 & R2).
      destruct (freed_elem (g_im g) _ m Hm) as (m' & Hm' & Q1 & Q2 & Q3). exists m'.
      split_and!; [done|congruence|]. rewrite Q3; [done|]. intros X.
      destruct (Ow g (im_res m) Hg X) as (m2 & Hm2 & P1 & P2).
      assert (m2 = m) as -> by (by apply (key_unique im_res (input_methods s))). congruence.
    + intros g' i [Hg' N]%elem_remove Ei. destruct (Kb g' i Hg' Ei) as (m & Hm & R1 & R2).
      destruct (freed_elem (g_im g) _ m Hm) as (m' & Hm' & Q1 & Q2 & _). exists m'.
      split_and!; [done|congruence..].
  - intros m y (n & Hn & E1 & E2 & E3 & E4 & E5 & _)%elem_freed. rewrite E5, E2. by apply V.
  - intros m i (n & Hn & E1 & E2 & _)%elem_freed. rewrite E2. by apply A.
Qed.

Lemma grab_destroy_inv x s : ti_inv s -> ti_inv (qdwin_im_grab_resource_destroy x s).
Proof.
  intros H. destruct (grab_struct x s) as [g|] eqn:F; [|unfold qdwin_im_grab_resource_destroy; by rewrite F].
  eapply inv_sim; [by apply grab_destroy_sim|]. by apply grab_freed_inv.
Qed.

(** A grab changes its keyboard pointer: to none, or to its input method's. *)
Lemma upd_grab_keyboard_inv x o s :
  (forall g i, g ∈ im_grabs s -> g_res g = x -> o = Some i ->
   exists m, m ∈ input_methods s /\ g_im g = Some (im_res m) /\ im_seat m = Some i) ->
  ti_inv s -> ti_inv (upd_im_grab x (fun g => g <| g_keyboard := o |>) s).
Proof.
  intros Ho (B & E & V & A). split_and!; [|done..]. destruct B as [T I G K Dk St O Ac Hd Ow Kb]. split; try done.
  - change (NoDup (map g_res (map (fun g => if g_res g =? x then g <| g_keyboard := o |> else g) (im_grabs s)))).
    rewrite map_key_upd; [done|]. intros g. by destruct (g_res g =? x).
  - intros m y Hm Ey. destruct (Hd m y Hm Ey) as (g & Hg & R1 & R2).
    pose proof (elem_upd_in g_res x (fun g => g <| g_keyboard := o |>) _ g Hg) as Hg'.
    eexists. split; [exact Hg'|]. by destruct (g_res g =? x).
  - intros g r (g0 & Hg & ->)%elem_upd. destruct (g_res g0 =? x); apply (Ow g0 r Hg).
  - intros g i (g0 & Hg & ->)%elem_upd. destruct (Z.eqb_spec (g_res g0) x) as [Ex|].
    + cbn. intros Ei. by apply (Ho g0 i).
    + apply Kb; done.
Qed.

Lemma im_of_elem r m s : im_of r s = Some m -> m ∈ input_methods s /\ im_res m = r.
Proof. intros [E H]%(find_key im_res). done. Qed.

(** A new grab of an input method that holds none. *)
Lemma new_grab_inv r id m s :
  ti_inv s -> im_of r s = Some m -> im_grab m = None -> id ∉ map g_res (im_grabs s) ->
  ti_inv (upd_im r (fun m => m <| im_grab := Some id |>)
            (s <| im_grabs ::= cons (mk_im_grab id (Some r) None) |>)).
Proof.
  intros (B & E & V & A) [Hm Er]%im_of_elem Gm F.
  destruct B as [T I G K Dk St O Ac Hd Ow Kb].
  assert (U : forall y, y ∈ input_methods s -> im_res y = r -> y = m).
  { intros y Hy Ey. apply (key_unique im_res (input_methods s)); [done..|congruence]. }
  split_and!; [|exact E| |].
  - split; try done.
    + change (NoDup (map im_res (map (fun m => if im_res m =? r then m <| im_grab := Some id |> else m)
                                   (input_methods s)))).
      rewrite map_key_upd; [done|]. intros y. by destruct (im_res y =? r).
    + by apply NoDup_cons.
    + intros n (y & Hy & ->)%elem_upd. destruct (im_res y =? r); apply (St y Hy).
    + intros n n' i (y & Hy & ->)%elem_upd (y' & Hy' & ->)%elem_upd.
      destruct (im_res y =? r), (im_res y' =? r); apply (O y y' i Hy Hy').
    + intros n (y & Hy & ->)%elem_upd. destruct (im_res y =? r); apply (Ac y Hy).
    + intros n x (y & Hy & ->)%elem_upd. destruct (Z.eqb_spec (im_res y) r) as [Ey|].
      * intros [= <-]. eexists. split; [apply list_elem_of_here|]. by cbn; rewrite Ey.
      * intros Ex. destruct (Hd y x Hy Ex) as (g & Hg & R). exists g. split; [by apply list_elem_of_further|done].
    + intros g q Hg. change (g ∈ mk_im_grab id (Some r) None :: im_grabs s) in Hg.
      apply elem_of_cons in Hg as [->|Hg].
      * intros [= <-]. eexists. split; [by apply (elem_upd_in im_res r _ _ m)|].
        rewrite Er, Z.eqb_refl. by split.
      * intros Eq. destruct (Ow g q Hg Eq) as (y & Hy & R1 & R2).
        eexists. split; [by apply (elem_upd_in im_res r _ _ y)|].
        destruct (Z.eqb_spec (im_res y) r) as [Ey|]; [|done]. rewrite (U y Hy Ey) in R2. congruence.
    + intros g i Hg. change (g ∈ mk_im_grab id (Some r) None :: im_grabs s) in Hg.
      apply elem_of_cons in Hg as [->|Hg]; [done|]. intros Ei. destruct (Kb g i Hg Ei) as (y & Hy & R1 & R2).
      eexists. split; [by apply (elem_upd_in im_res r _ _ y)|]. by destruct (im_res y =? r).
  - intros n x (y & Hy & ->)%elem_upd. destruct (im_res y =? r); apply (V y x Hy).
  - intros n i (y & Hy & ->)%elem_upd. destruct (im_res y =? r); apply (A y i Hy).
Qed.

Lemma drop_stale_inv r m s :
  ti_inv s -> im_of r s = Some m ->
  ti_inv (drop_stale_grab m s)
  /\ (exists m', im_of r (drop_stale_grab m s) = Some m' /\ im_core m' = im_core (m <| im_grab := None |>))
  /\ (forall g, g ∈ im_grabs (drop_stale_grab m s) <-> g ∈ im_grabs s /\ g_im g ≠ Some r).
Proof.
  intros H F. pose proof (im_of_elem _ _ _ F) as [Hm Er]. pose proof (proj1 H) as B.
  unfold drop_stale_grab. destruct (im_grab m) as [x|] eqn:Ex.
  - destruct (inv_held s B m x Hm Ex) as (g & Hg & R1 & R2).
    assert (Fg : grab_struct x s = Some g) by (by apply (find_unique g_res); [apply (inv_g s B)|..]).
    pose proof (grab_destroy_sim x g s Fg) as S. split_and!.
    + by apply grab_destroy_inv.
    + assert (H1 : ti_inv (qdwin_im_grab_resource_destroy x s)) by (by apply grab_destroy_inv).
      assert (Hm2 : m <| im_grab := None |> ∈ input_methods (grab_freed x (g_im g) s)).
      { apply list_elem_of_In, in_map_iff. exists m. rewrite bool_decide_eq_true_2 by congruence.
        by rewrite <- list_elem_of_In. }
      destruct (elem_map_eq _ _ _ _ _ (eq_sym (sim_im _ _ S)) Hm2) as (m' & Hm' & Ec). exists m'.
      split; [|done]. apply (find_unique im_res); [apply (inv_im _ (proj1 H1))|done|].
      unfold im_core in Ec. cbn in Ec. congruence.
    + intros g'. rewrite (sim_g _ _ S). change (g' ∈ List.filter (fun g => negb (g_res g =? x)) (im_grabs s)
        <-> g' ∈ im_grabs s /\ g_im g' ≠ Some r). rewrite elem_remove. split; intros [Hg' N]; (split; [done|]).
      * intros E1. destruct (inv_owner s B g' r Hg' E1) as (m2 & Hm2 & P1 & P2).
        assert (m2 = m) as -> by (apply (key_unique im_res (input_methods s)); [apply (inv_im s B)|done..|congruence]).
        congruence.
      * intros E1. apply N. rewrite <- Er, <- R2. f_equal.
        apply (key_unique g_res (im_grabs s)); [apply (inv_g s B)|done..|congruence].
  - split_and!; [done| |].
    + exists m. split; [done|]. unfold im_core. cbn. by rewrite Ex.
    + intros g. split; [|by intros []]. intros Hg. split; [done|]. intros E1.
      destruct (inv_owner s B g r Hg E1) as (m2 & Hm2 & P1 & P2).
      assert (m2 = m) as -> by (apply (key_unique im_res (input_methods s)); [apply (inv_im s B)|done..|congruence]).
      congruence.
Qed.

Lemma take_keyboard_inv i id m s :
  ti_inv s -> m ∈ input_methods s -> im_seat m = Some i -> im_grab m = Some id ->
  ti_inv (take_keyboard i id s).
Proof.
  intros H Hm Es Eg. unfold take_keyboard. destruct (get_keyboard i s); [|done]. cbv zeta.
  eapply inv_sim; [eapply sim_trans; [apply (sim_emit (grab_keymap id))|]; eapply sim_trans;
    [apply (sim_emit (grab_repeat_info id (repeat_rate s) (repeat_delay s)))|apply sim_start_grab]|].
  apply upd_grab_keyboard_inv; [|done]. intros g j Hg Ex [= <-]. exists m. split_and!; [done| |done].
  destruct (inv_held s (proj1 H) m id Hm Eg) as (g' & Hg' & R1 & R2). rewrite <- R2. f_equal.
  apply (key_unique g_res (im_grabs s)); [apply (inv_g s (proj1 H))|done..|congruence].
Qed.

Lemma emit_inv ex e s : ti_inv_but ex s -> ti_inv_but ex (ti_emit e s).
Proof. apply inv_sim, sim_emit. Qed.

Lemma im_of_upd r f s m :
  (forall n, im_res (f n) = im_res n) -> im_of r s = Some m -> im_of r (upd_im r f s) = Some (f m).
Proof.
  intros K F. unfold im_of, upd_im.
  change (List.find (fun m => im_res m =? r) (map (fun m => if im_res m =? r then f m else m) (input_methods s))
          = Some (f m)).
  rewrite find_upd_key by done. rewrite Z.eqb_refl. unfold im_of in F. by rewrite F.
Qed.

Lemma grab_keyboard_inv client r id res_oom g_oom s :
  id ∉ map g_res (im_grabs s) -> ti_inv s ->
  ti_inv (qdwin_im_req_grab_keyboard client r id res_oom g_oom s).
Proof.
  intros N H. unfold qdwin_im_req_grab_keyboard. destruct res_oom; [by apply emit_inv|].
  unfold with_im. destruct (im_of r s) as [m|] eqn:F; [|done]. destruct (inert m); [done|].
  destruct (im_seat m) as [i|] eqn:Es; [|done]. cbv zeta.
  destruct (drop_stale_inv r m s H F) as (H1 & (m1 & F1 & C1) & G1).
  unfold im_core in C1. cbn in C1. destruct g_oom; [by apply emit_inv|].
  eapply (take_keyboard_inv i id (m1 <| im_grab := Some id |>)).
  - apply (new_grab_inv r id m1); [done|done|congruence|].
    intros I. apply N. apply list_elem_of_In, in_map_iff in I as (g & <- & Hg%list_elem_of_In).
    apply list_elem_of_In, in_map, list_elem_of_In. by apply G1.
  - apply (im_of_elem r). by apply im_of_upd.
  - cbn. congruence.
  - done.
Qed.

(** An input method leaves with its grab. *)
Lemma remove_im_inv r s s' :
  ti_inv s -> map im_core (input_methods s') = map im_core (List.filter (fun m => negb (im_res m =? r)) (input_methods s)) ->
  map ti_core (text_inputs s') = map ti_core (text_inputs s) ->
  map kb_seen (keyboards s') = map kb_seen (keyboards s) ->
  NoDup (map g_res (im_grabs s')) ->
  (forall g, g ∈ im_grabs s' <-> g ∈ im_grabs s /\ g_im g ≠ Some r) -> ti_inv s'.
Proof.
  intros (B & E & V & A) Ei Et Ek Ng G.
  apply (inv_sim None (s <| input_methods ::= List.filter (fun m => negb (im_res m =? r)) |>
                  <| im_grabs := im_grabs s' |>)); [by split|].
  destruct B as [T I Gn K Dk St O Ac Hd Ow Kb]. split_and!; [|exact E| |].
  - split; try done.
    + by apply nodup_filter_key.
    + intros m [Hm _]%elem_remove. by apply St.
    + intros m m' i [Hm _]%elem_remove [Hm' _]%elem_remove. by apply O.
    + intros m [Hm _]%elem_remove. by apply Ac.
    + intros m x [Hm N]%elem_remove Ex. destruct (Hd m x Hm Ex) as (g & Hg & R1 & R2).
      exists g. split_and!; [|done..]. apply G. split; [done|congruence].
    + intros g q Hg Eq. apply G in Hg as [Hg N]. destruct (Ow g q Hg Eq) as (m & Hm & R1 & R2).
      exists m. split_and!; [|done..]. apply elem_remove. split; [done|congruence].
    + intros g i Hg Eq. apply G in Hg as [Hg N]. destruct (Kb g i Hg Eq) as (m & Hm & R1 & R2).
      exists m. split_and!; [|done..]. apply elem_remove. split; [done|congruence].
  - intros m x [Hm _]%elem_remove. by apply V.
  - intros m i [Hm _]%elem_remove. by apply A.
Qed.

(** What [qdwin_im_detach] leaves. *)
Definition detached (m : input_method) : input_method :=
  m <| im_grab := None |> <| im_seat := None |> <| active := false |> <| active_ti := None |>.
Definition orphan (x : option Z) (g : im_keyboard_grab) : im_keyboard_grab :=
  if bool_decide (x = Some (g_res g)) then mk_im_grab (g_res g) None None else g.

Lemma end_if_active_rest x s :
  input_methods (end_if_active x s) = input_methods s /\ im_grabs (end_if_active x s) = im_grabs s
  /\ text_inputs (end_if_active x s) = text_inputs s.
Proof.
  unfold end_if_active. destruct (grab_struct x s) as [g|]; [|done]. destruct (g_keyboard g) as [i|]; [|done].
  destruct (keyboard_of i s) as [k|]; [|done]. by case_bool_decide.
Qed.

Lemma detach_grabs x s :
  im_grabs (upd_im_grab x (fun g => g <| g_keyboard := None |>)
    (end_if_active x (upd_im_grab x (fun g => g <| g_im := None |>) s)))
  = map (orphan (Some x)) (im_grabs s).
Proof.
  cbn. rewrite (proj1 (proj2 (end_if_active_rest _ _))). cbn. rewrite map_map. apply map_ext. intros g.
  unfold orphan. destruct (Z.eqb_spec (g_res g) x) as [<-|Ne]; cbn.
  - rewrite Z.eqb_refl. by rewrite bool_decide_eq_true_2.
  - rewrite (proj2 (Z.eqb_neq _ _) Ne). by rewrite bool_decide_eq_false_2 by congruence.
Qed.

Lemma detach_spec r m s :
  NoDup (map im_res (input_methods s)) -> im_of r s = Some m ->
  let s' := qdwin_im_detach r s in
  text_inputs s' = text_inputs s
  /\ map kb_seen (keyboards s') = map kb_seen (keyboards s)
  /\ im_grabs s' = map (orphan (im_grab m)) (im_grabs s)
  /\ map im_core (input_methods s')
     = map im_core (map (fun n => if im_res n =? r then detached n else n) (input_methods s)).
Proof.
  intros N F. cbv zeta. unfold qdwin_im_detach. rewrite F. cbv zeta.
  destruct (im_grab m) as [x|] eqn:Ex.
  - set (s1 := upd_im r (fun m => m <| im_grab := None |>) s).
    pose proof (detach_grabs x s1) as G. pose proof (sim_end_if_active x
      (upd_im_grab x (fun g => g <| g_im := None |>) s1)) as [_ _ _ Sk].
    pose proof (end_if_active_rest x (upd_im_grab x (fun g => g <| g_im := None |>) s1)) as (Em & _ & Et).
    revert G Sk Em Et. generalize (end_if_active x (upd_im_grab x (fun g => g <| g_im := None |>) s1)).
    intros s2 G Sk Em Et. split_and!; [done..|]. cbn. rewrite Em. cbn. rewrite !map_map. apply map_ext.
    intros n. destruct (im_res n =? r) eqn:E; cbn; rewrite ?E; cbn; rewrite ?E; [done|by unfold im_core].
  - split_and!; [done..| |].
    + cbn. rewrite <- map_id at 1. apply map_ext. intros g. unfold orphan. by rewrite bool_decide_eq_false_2.
    + cbn. rewrite !map_map. apply map_ext_in. intros n Hn%list_elem_of_In.
      destruct (Z.eqb_spec (im_res n) r) as [E|E]; cbn.
      * rewrite E, Z.eqb_refl. apply im_of_elem in F as [Hm Er].
        assert (n = m) as -> by (apply (key_unique im_res (input_methods s)); [done..|congruence]).
        unfold im_core, detached. cbn. by rewrite Ex.
      * by rewrite (proj2 (Z.eqb_neq _ _) E).
Qed.

Lemma detached_remove r l :
  map im_core (List.filter (fun m => negb (im_res m =? r)) (map (fun n => if im_res n =? r then detached n else n) l))
  = map im_core (List.filter (fun m => negb (im_res m =? r)) l).
Proof.
  induction l as [|n l IH]; [done|]. cbn. destruct (im_res n =? r) eqn:E; cbn; rewrite E; cbn; [done|].
  by f_equal.
Qed.

Lemma filter_core {A B} (core : A -> B) (p : B -> bool) (q : A -> bool) l l' :
  (forall x, q x = p (core x)) -> map core l = map core l' ->
  map core (List.filter q l) = map core (List.filter q l').
Proof.
  intros Q. revert l'. induction l as [|x l IH]; intros [|y l'] E; try done.
  cbn in E. injection E as E1 E2. cbn. rewrite !Q, E1. destruct (p (core y)); cbn; [|by apply IH].
  rewrite E1. f_equal. by apply IH.
Qed.

Lemma remove_detached r l l' :
  map im_core l = map im_core (map (fun n => if im_res n =? r then detached n else n) l') ->
  map im_core (List.filter (fun m => negb (im_res m =? r)) l)
  = map im_core (List.filter (fun m => negb (im_res m =? r)) l').
Proof.
  intros E. etrans; [|apply detached_remove].
  by apply (filter_core im_core (fun c => negb (fst (fst (fst (fst (fst (fst c))))) =? r))).
Qed.

Lemma orphan_res o g : g_res (orphan o g) = g_res g.
Proof. unfold orphan. by case_bool_decide. Qed.

Lemma no_orphans o l :
  (forall g, g ∈ l -> o ≠ Some (g_res g)) -> map (orphan o) l = l.
Proof.
  intros N. rewrite <- map_id. apply map_ext_in. intros g Hg%list_elem_of_In. unfold orphan.
  by rewrite bool_decide_eq_false_2 by eauto.
Qed.

Lemma im_destroy_inv r s : ti_inv s -> ti_inv (qdwin_input_method_resource_destroy r s).
Proof.
  intros H. unfold qdwin_input_method_resource_destroy. destruct (im_of r s) as [m|] eqn:F; [|done]. cbv zeta.
  destruct (drop_stale_inv r m s H F) as (H1 & (m1 & F1 & C1) & G1).
  unfold im_core in C1. cbn in C1. assert (Eg : im_grab m1 = None) by congruence.
  destruct (detach_spec r m1 _ (inv_im _ (proj1 H1)) F1) as (E1 & E2 & E3 & E4).
  eapply (remove_im_inv r (drop_stale_grab m s)); [done| |by rewrite <- E1|exact E2| |].
  - by apply remove_detached.
  - change (NoDup (map g_res (im_grabs (qdwin_im_detach r (drop_stale_grab m s))))).
    rewrite E3, Eg, no_orphans by done. apply (inv_g _ (proj1 H1)).
  - intros g. change (g ∈ im_grabs (qdwin_im_detach r (drop_stale_grab m s))
      <-> g ∈ im_grabs (drop_stale_grab m s) /\ g_im g ≠ Some r).
    rewrite E3, Eg, no_orphans by done. rewrite G1. tauto.
Qed.

Lemma destroy_at_exit_inv m s :
  ti_inv s -> m ∈ input_methods s -> ti_inv (destroy_input_method_at_exit s m).
Proof.
  intros H Hm. pose proof (proj1 H) as B. unfold destroy_input_method_at_exit. cbv zeta.
  assert (F : im_of (im_res m) s = Some m) by (by apply (find_unique im_res); [apply (inv_im s B)|..]).
  destruct (detach_spec (im_res m) m s (inv_im s B) F) as (E1 & E2 & E3 & E4).
  set (s1 := qdwin_im_detach (im_res m) s) in *.
  assert (G : im_grabs (remove_input_method (im_res m)
      (match im_grab m with Some x => free_grab x s1 | None => s1 end))
    = List.filter (fun g => bool_decide (im_grab m ≠ Some (g_res g))) (im_grabs s)).
  { destruct (im_grab m) as [x|] eqn:Ex; cbn; rewrite E3.
    - clear. induction (im_grabs s) as [|g l IH]; [done|]. cbn. rewrite orphan_res, IH. unfold orphan.
      destruct (Z.eqb_spec (g_res g) x) as [<-|Ne]; cbn.
      + by rewrite bool_decide_eq_false_2 by (intros X; by apply X).
      + rewrite (bool_decide_eq_false_2 (Some x = Some (g_res g))) by congruence.
        by rewrite bool_decide_eq_true_2 by congruence.
    - rewrite no_orphans by done. clear. induction (im_grabs s) as [|g l IH]; [done|]. cbn.
      by rewrite bool_decide_eq_true_2, <- IH. }
  eapply (remove_im_inv (im_res m) s); [done| | | | |].
  - destruct (im_grab m); by apply remove_detached.
  - destruct (im_grab m); by rewrite <- E1.
  - destruct (im_grab m); exact E2.
  - rewrite G. apply nodup_filter_key, (inv_g s B).
  - intros g. rewrite G, list_elem_of_In, filter_In, <- list_elem_of_In, bool_decide_eq_true.
    split; intros [Hg N]; (split; [done|]); intros X; apply N.
    + destruct (inv_owner s B g _ Hg X) as (m2 & Hm2 & P1 & P2).
      assert (m2 = m) as <- by (by apply (key_unique im_res (input_methods s)); [apply (inv_im s B)|..]). done.
    + destruct (inv_held s B m _ Hm X) as (g2 & Hg2 & P1 & P2). rewrite <- P2. f_equal.
      by apply (key_unique g_res (im_grabs s)); [apply (inv_g s B)|..].
Qed.

(** ** A seat goes *)

Definition retired (m : input_method) : input_method := detached (m <| inert := true |>).

Lemma seat_destroyed_spec r m s :
  NoDup (map im_res (input_methods s)) -> im_of r s = Some m ->
  let s' := qdwin_im_seat_destroyed r s in
  text_inputs s' = text_inputs s
  /\ map kb_seen (keyboards s') = map kb_seen (keyboards s)
  /\ im_grabs s' = map (orphan (im_grab m)) (im_grabs s)
  /\ map im_core (input_methods s')
     = map im_core (map (fun n => if im_res n =? r then retired n else n) (input_methods s)).
Proof.
  intros N F. unfold qdwin_im_seat_destroyed. cbv zeta.
  set (s1 := ti_emit (im_unavailable r) (upd_im r (fun m => m <| inert := true |>) s)).
  assert (F1 : im_of r s1 = Some (m <| inert := true |>)) by (by apply (im_of_upd r _ s)).
  rewrite F1. cbn [mbind option_bind]. change (im_grab (m <| inert := true |>)) with (im_grab m).
  assert (L : forall s2, im_of r s2 = Some (m <| inert := true |>) -> text_inputs s2 = text_inputs s ->
    keyboards s2 = keyboards s -> input_methods s2 = input_methods s1 ->
    map (orphan (im_grab m)) (im_grabs s2) = map (orphan (im_grab m)) (im_grabs s) ->
    let s' := qdwin_im_detach r s2 in
    text_inputs s' = text_inputs s
    /\ map kb_seen (keyboards s') = map kb_seen (keyboards s)
    /\ im_grabs s' = map (orphan (im_grab m)) (im_grabs s)
    /\ map im_core (input_methods s')
       = map im_core (map (fun n => if im_res n =? r then retired n else n) (input_methods s))).
  { intros s2 F2 T2 K2 I2 G2. destruct (detach_spec r (m <| inert := true |>) s2) as (E1 & E2 & E3 & E4); [|done|].
    { rewrite I2. change (NoDup (map im_res (map (fun n => if im_res n =? r then n <| inert := true |> else n)
        (input_methods s)))). rewrite map_key_upd; [done|]. intros n. by destruct (im_res n =? r). }
    cbv zeta. split_and!; [congruence|by rewrite E2, K2|by rewrite E3|]. rewrite E4, I2.
    cbn. rewrite !map_map. apply map_ext. intros n. by destruct (im_res n =? r) eqn:E; cbn; rewrite E. }
  destruct (im_grab m) as [x|] eqn:Ex; [|by apply L].
  apply L; try done. cbn. rewrite map_map. apply map_ext. intros g. unfold orphan.
  destruct (Z.eqb_spec (g_res g) x) as [<-|]; [|done]. by rewrite !bool_decide_eq_true_2.
Qed.

Lemma retired_inv r m s :
  base_inv s /\ entered_but None s /\ served_but None s -> im_of r s = Some m ->
  let s' := qdwin_im_seat_destroyed r s in base_inv s' /\ entered_but None s' /\ served_but None s'.
Proof.
  intros (B & E & V) F. destruct (seat_destroyed_spec r m s (inv_im s B) F) as (E1 & E2 & E3 & E4).
  cbv zeta. set (s' := qdwin_im_seat_destroyed r s) in *.
  set (s1 := s <| im_grabs ::= map (orphan (im_grab m)) |>
               <| input_methods ::= map (fun n => if im_res n =? r then retired n else n) |>).
  assert (S : similar s1 s') by (split; [by rewrite E1|done..]).
  pose proof (im_of_elem _ _ _ F) as [Hm Er]. destruct B as [T I G K Dk St O Ac Hd Ow Kb].
  assert (X : base_inv s1 /\ entered_but None s1 /\ served_but None s1).
  { split_and!; [|exact E|].
    - split; try done.
      + change (NoDup (map im_res (map (fun n => if im_res n =? r then retired n else n) (input_methods s)))).
        rewrite map_key_upd; [done|]. intros n. by destruct (im_res n =? r).
      + change (NoDup (map g_res (map (orphan (im_grab m)) (im_grabs s)))).
        rewrite map_key_upd; [done|]. apply orphan_res.
      + intros n (y & Hy & ->)%elem_upd. destruct (im_res y =? r); [by left|by apply St].
      + intros n n' i (y & Hy & ->)%elem_upd (y' & Hy' & ->)%elem_upd.
        destruct (im_res y =? r), (im_res y' =? r); try done. by apply O.
      + intros n (y & Hy & ->)%elem_upd. destruct (im_res y =? r); [done|by apply Ac].
      + intros n x (y & Hy & ->)%elem_upd. destruct (Z.eqb_spec (im_res y) r) as [|Ne]; [done|]. intros Ex.
        destruct (Hd y x Hy Ex) as (g & Hg & R1 & R2). exists g. split_and!; [|done..].
        apply list_elem_of_In, in_map_iff. exists g. rewrite <- list_elem_of_In. split; [|done].
        unfold orphan. rewrite bool_decide_eq_false_2; [done|]. intros X. apply Ne.
        destruct (Hd m _ Hm X) as (g' & Hg' & P1 & P2).
        assert (g' = g) as -> by (by apply (key_unique g_res (im_grabs s))). congruence.
      + intros g q Hg Eq. apply list_elem_of_In, in_map_iff in Hg as (g0 & <- & Hg%list_elem_of_In).
        unfold orphan in *. case_bool_decide as D; [done|]. destruct (Ow g0 q Hg Eq) as (y & Hy & R1 & R2).
        exists y. split_and!; [|done..]. pose proof (elem_upd_in im_res r retired _ y Hy) as Hy'.
        destruct (Z.eqb_spec (im_res y) r) as [Ey|]; [|done].
        assert (y = m) as -> by (apply (key_unique im_res (input_methods s)); [done..|congruence]). congruence.
      + intros g q Hg Eq. apply list_elem_of_In, in_map_iff in Hg as (g0 & <- & Hg%list_elem_of_In).
        unfold orphan in *. case_bool_decide as D; [done|]. destruct (Kb g0 q Hg Eq) as (y & Hy & R1 & R2).
        exists y. split_and!; [|done..]. pose proof (elem_upd_in im_res r retired _ y Hy) as Hy'.
        destruct (Z.eqb_spec (im_res y) r) as [Ey|]; [|done].
        assert (y = m) as -> by (apply (key_unique im_res (input_methods s)); [done..|congruence]).
        destruct (Ow g0 _ Hg R1) as (m2 & Hm2 & P1 & P2).
        assert (m2 = m) as -> by (by apply (key_unique im_res (input_methods s))). congruence.
    - intros n x (y & Hy & ->)%elem_upd. destruct (im_res y =? r); [done|]. by apply V. }
  destruct X as (X1 & X2 & X3). split_and!; [by eapply base_sim|by eapply entered_sim|by eapply served_sim].
Qed.

Lemma retire_list l s :
  base_inv s /\ entered_but None s /\ served_but None s ->
  (forall r, r ∈ l -> r ∈ map im_res (input_methods s)) ->
  let s' := foldl (fun s r => qdwin_im_seat_destroyed r s) s l in
  (base_inv s' /\ entered_but None s' /\ served_but None s')
  /\ map k_seat (keyboards s') = map k_seat (keyboards s)
  /\ forall n j, n ∈ input_methods s' -> im_seat n = Some j ->
     exists y, y ∈ input_methods s /\ im_seat y = Some j /\ im_res y ∉ l.
Proof.
  revert s. induction l as [|r l IH]; intros s H I; cbn [foldl].
  - split_and!; try apply H; [done|]. intros n j Hn Ej. exists n. split_and!; [done..|]. apply not_elem_of_nil.
  - assert (Fr : exists m, im_of r s = Some m).
    { destruct (im_of r s) eqn:F; [eauto|]. apply (find_fresh im_res) in F. destruct F. apply I, list_elem_of_here. }
    destruct Fr as [m F]. destruct (seat_destroyed_spec r m s (inv_im s (proj1 H)) F) as (E1 & E2 & E3 & E4).
    assert (R : map im_res (input_methods (qdwin_im_seat_destroyed r s)) = map im_res (input_methods s)).
    { pose proof (map_of_map_eq (fun c => fst (fst (fst (fst (fst (fst c)))))) _ _ _ _ E4) as E5.
      etrans; [exact E5|]. rewrite map_map. apply map_ext. intros n. by destruct (im_res n =? r). }
    destruct (IH (qdwin_im_seat_destroyed r s)) as (H1 & K1 & S1).
    { by eapply retired_inv. }
    { intros q Hq. rewrite R. apply I. by apply list_elem_of_further. }
    split_and!; try apply H1.
    + rewrite K1. apply (map_of_map_eq (fun c => fst (fst c))) in E2. exact E2.
    + intros n j Hn Ej. destruct (S1 n j Hn Ej) as (y & Hy & Ey & Ny).
      destruct (elem_map_eq _ _ _ _ _ E4 Hy) as (z & Hz & Ez).
      apply elem_upd in Hz as (w & Hw & ->). unfold im_core in Ez.
      destruct (Z.eqb_spec (im_res w) r) as [|Ne]; [cbn in Ez; congruence|]. injection Ez. intros.
      exists w. split_and!; [done|congruence|]. rewrite not_elem_of_cons. split; [done|congruence].
Qed.

Lemma vk_fold_sim l s : similar s (foldl (fun s r => qdwin_virtual_keyboard_detach r s) s l).
Proof.
  revert s. induction l as [|r l IH]; intros s; [apply sim_refl|]. cbn [foldl].
  eapply sim_trans; [|apply IH]. by split.
Qed.

Lemma seat_released_inv i s : ti_inv s -> ti_inv (ti_seat_released i s).
Proof.
  intros (B & E & V & A). unfold ti_seat_released. cbv zeta.
  set (s0 := s <| keyboards ::= List.filter (fun k => negb (k_seat k =? i)) |>).
  set (l := map im_res (List.filter (fun m => bool_decide (im_seat m = Some i)) (input_methods s0))).
  destruct (retire_list l s0) as ((B1 & E1 & V1) & K1 & S1).
  - split_and!; [|  |exact V].
    + destruct B as [T I G K Dk St O Ac Hd Ow Kb]. split; try done; [by apply nodup_filter_key|].
      intros k [Hk _]%elem_remove. by apply Dk.
    + intros t k Ht [Hk _]%elem_remove. by apply E.
  - intros r. unfold l. rewrite !list_elem_of_In, !in_map_iff. intros (m & Em & [Hm _]%filter_In). eauto.
  - apply (inv_sim None (foldl (fun s r => qdwin_im_seat_destroyed r s) s0 l)); [apply vk_fold_sim|].
    split_and!; [done..|]. intros n j Hn Ej. destruct (S1 n j Hn Ej) as (y & Hy & Ey & Ny).
    assert (j ≠ i).
    { intros ->. apply Ny. unfold l. apply list_elem_of_In, in_map, filter_In.
      rewrite <- list_elem_of_In. by rewrite bool_decide_eq_true_2. }
    unfold seat_alive. rewrite K1. pose proof (A y j Hy Ey) as (k & Hk & Ek)%seat_alive_elem.
    apply list_elem_of_In, in_map_iff. exists k. rewrite <- list_elem_of_In. split; [done|].
    apply elem_remove. split; [done|congruence].
Qed.

Lemma seat_created_inv i s :
  ~ seat_alive s i -> W i \/ (forall t, t ∈ text_inputs s -> t_seat t ≠ Some i) -> ti_inv s ->
  ti_inv (ti_seat_created i s).
Proof.
  intros N Nt (B & E & V & A). split_and!; [| |exact V|].
  - destruct B as [T I G K Dk St O Ac Hd Ow Kb]. split; try done; [by apply NoDup_cons|].
    intros k Hk. apply elem_of_cons in Hk as [->|Hk]; [done|by apply Dk].
  - intros t k Ht Hk Es. apply elem_of_cons in Hk as [->|Hk]; [|by apply E]. intros _ Sd.
    destruct Nt as [Nt|Nt]; [by destruct (Sd i Es)|by destruct (Nt t Ht)].
  - intros m j Hm Ej. apply list_elem_of_further. by eapply A.
Qed.

Lemma get_input_method_inv client mgr id seat res_oom im_oom s :
  id ∉ map im_res (input_methods s) -> ti_inv s ->
  ti_inv (qdwin_im_manager_get_input_method client mgr id seat res_oom im_oom s).
Proof.
  intros N H. unfold qdwin_im_manager_get_input_method. destruct res_oom; [by apply emit_inv|].
  destruct (negb _); [by apply emit_inv|]. destruct im_oom; [by apply emit_inv|]. cbv zeta.
  assert (C : forall o d, (d = true /\ o = None) \/ (d = false /\ exists i, o = Some i /\ seat_alive s i
              /\ qdwin_im_for_seat (Some i) s = None) ->
            ti_inv (s <| input_methods ::= cons (new_input_method id client o d) |>)).
  { intros o d D. destruct H as (B & E & V & A). destruct B as [T I G K Dk St O Ac Hd Ow Kb].
    assert (Fr : forall m i, m ∈ input_methods s -> im_seat m = Some i -> o ≠ Some i).
    { intros m i Hm Em ->. destruct D as [[_ ?]|(_ & j & [= <-] & _ & Fn)]; [done|].
      apply List.find_none with (x := m) in Fn; [|by apply list_elem_of_In].
      destruct (St m Hm) as [(?&?&?)|(Di & ?)]; [congruence|].
      rewrite Di, bool_decide_eq_true_2 in Fn by done. done. }
    split_and!; [|exact E| |].
    - split; try done.
      + by apply NoDup_cons.
      + intros m Hm. apply elem_of_cons in Hm as [->|Hm]; [|by apply St].
        destruct D as [[-> ->]|(-> & i & -> & _)]; [by left|right]. split; [done|eexists; done].
      + intros m m' i Hm Hm' Em Em'. apply elem_of_cons in Hm as [->|Hm], Hm' as [->|Hm']; [done| | |by eapply O].
        * by destruct (Fr m' i Hm' Em').
        * by destruct (Fr m i Hm Em).
      + intros m Hm. apply elem_of_cons in Hm as [->|Hm]; [done|by apply Ac].
      + intros m x Hm Ex. apply elem_of_cons in Hm as [->|Hm]; [done|by apply Hd].
      + intros g r Hg Er. destruct (Ow g r Hg Er) as (m & Hm & R). exists m. split; [|done].
        by apply list_elem_of_further.
      + intros g r Hg Er. destruct (Kb g r Hg Er) as (m & Hm & R). exists m. split; [|done].
        by apply list_elem_of_further.
    - intros m x Hm Ex. apply elem_of_cons in Hm as [->|Hm]; [done|by apply V].
    - intros m i Hm Ei. apply elem_of_cons in Hm as [->|Hm]; [|by eapply A].
      destruct D as [[-> ->]|(-> & j & -> & Al & _)]; [done|]. by injection Ei as <-. }
  destruct (seat_user_data seat s) as [i|] eqn:Es; [|by apply emit_inv, C; left].
  destruct (qdwin_im_for_seat (Some i) s) eqn:Fs; [by apply emit_inv, C; left|].
  destruct (C (Some i) false) as (B1 & E1 & V1 & A1).
  - right. split; [done|]. exists i. split_and!; [done| |done].
    unfold seat_user_data in Es. destruct seat as [j|]; [|done]. destruct (keyboard_of j s) as [k|] eqn:Fk; [|done].
    injection Es as ->. apply (find_key k_seat) in Fk as [Ek Hk]. apply seat_alive_elem. eauto.
  - apply sync_inv; [done..| |done]. intros m x Hm Ea _. apply V1; [done..|].
    destruct (inv_seat _ B1 m Hm) as [(?&?&?)|(?&?&?)]; congruence.
Qed.

(** ** The rest of the requests *)

Lemma cancel_inv x s : ti_inv s -> ti_inv (qdwin_im_grab_cancel x s).
Proof. by apply upd_grab_keyboard_inv. Qed.

Lemma kb_cancel_inv i s : ti_inv s -> ti_inv (kb_cancel_grab i s).
Proof.
  intros H. unfold kb_cancel_grab. destruct (keyboard_of i s) as [k|]; [|done].
  destruct (k_grab k) as [|x|]; [done| |done].
  destruct (grab_struct x s); [by apply cancel_inv|by apply emit_inv].
Qed.

Lemma keyboard_released_inv i last s : ti_inv s -> ti_inv (ti_keyboard_released sc i last s).
Proof.
  intros H. unfold ti_keyboard_released. destruct last; [|done]. cbv zeta.
  set (s1 := upd_keyboard i (fun k => k <| k_present := false |>) s).
  apply kb_cancel_inv, update_focus_inv.
  assert (C : similar (upd_keyboard i (fun k => k <| k_present := false |> <| k_focus := None |>) s)
                      (upd_keyboard i (fun k => k <| k_focus := with_resource sc None |>) s1)).
  { split; [done..|]. cbn. rewrite !map_map. apply map_ext. intros k. by destruct (k_seat k =? i) eqn:E; cbn; rewrite E. }
  eapply inv_sim; [exact C|]. apply keyboard_change_inv; [done..|]. by apply but_weaken.
Qed.

Lemma keyboard_added_inv i s : ti_inv s -> ti_inv (ti_keyboard_added i s).
Proof.
  intros (B & E & V & A).
  assert (Ks : map k_seat (keyboards (ti_keyboard_added i s)) = map k_seat (keyboards s)).
  { apply map_key_upd. intros k. by destruct (k_seat k =? i). }
  split_and!; [| |done|].
  - destruct B as [T I G K Dk St O Ac Hd Ow Kb]. split; try done; [by rewrite Ks|].
    intros k (k0 & Hk & ->)%elem_upd. destruct (Z.eqb_spec (k_seat k0) i); [done|by apply Dk].
  - intros t k Ht (k0 & Hk & ->)%elem_upd Es. destruct (Z.eqb_spec (k_seat k0) i) as [Ei|]; [|by apply E].
    intros N Sd. rewrite (E t k0 Ht Hk Es N Sd). unfold kfocus. cbn.
    destruct (k_present k0) eqn:P; [done|]. by rewrite (inv_dark s B k0 Hk P).
  - intros m j Hm Ej. unfold seat_alive. rewrite Ks. by eapply A.
Qed.

Lemma sim_default_key i key p s : similar s (default_grab_key i key p s).
Proof.
  unfold default_grab_key. destruct (ti_locked s); [apply sim_refl|].
  destruct (keyboard_of i s) as [k|]; [|apply sim_refl]. destruct (k_focus k); [apply sim_emit|apply sim_refl].
Qed.
Lemma sim_default_modifiers i s : similar s (default_grab_modifiers i s).
Proof.
  unfold default_grab_modifiers. destruct (ti_locked s); [apply sim_refl|].
  destruct (keyboard_of i s) as [k|]; [apply sim_emit|apply sim_refl].
Qed.

Lemma sim_deliver_key i key p s : similar s (deliver_key i key p s).
Proof.
  unfold deliver_key, qdwin_im_grab_key. destruct (keyboard_of i s) as [k|]; [|apply sim_refl].
  destruct (k_grab k) as [|x|]; [apply sim_default_key| |apply sim_emit].
  destruct (grab_struct x s) as [g|]; [|apply sim_emit].
  destruct (own_injection g s); [apply sim_default_key|apply sim_emit].
Qed.
Lemma sim_deliver_modifiers i s : similar s (deliver_modifiers i s).
Proof.
  unfold deliver_modifiers, qdwin_im_grab_modifiers. destruct (keyboard_of i s) as [k|]; [|apply sim_refl].
  destruct (k_grab k) as [|x|]; [apply sim_default_modifiers| |apply sim_emit].
  destruct (grab_struct x s) as [g|]; [|apply sim_emit].
  destruct (own_injection g s); [apply sim_default_modifiers|apply sim_emit].
Qed.

Lemma set_focus_ti_inv i f s : may_focus i f s -> ti_inv s -> ti_inv (keyboard_set_focus sc i f s).
Proof. intros P H. apply set_focus_inv; [done|by apply but_weaken]. Qed.

(** The keyboard of the seat is there. *)
Definition present (i : Z) (s : ti_state) : Prop :=
  forall k, k ∈ keyboards s -> k_seat k = i -> k_present k = true.

Lemma present_upd i j f s :
  (forall k, (k_seat (f k), k_present (f k)) = (k_seat k, k_present k)) -> present i s ->
  present i (upd_keyboard j f s).
Proof.
  intros F P k (y & Hy & ->)%elem_upd. specialize (F y). injection F as F1 F2.
  destruct (k_seat y =? j); [rewrite F1, F2|]; by apply P.
Qed.

Lemma present_focus i f s : present i s -> present i (keyboard_set_focus sc i f s).
Proof.
  intros P k Hk. rewrite set_focus_keyboards in Hk.
  by apply (present_upd i i (fun k => k <| k_focus := with_resource sc f |>) s).
Qed.

Lemma get_keyboard_present i k s : base_inv s -> get_keyboard i s = Some k -> present i s.
Proof.
  intros B F y Hy Ey. unfold get_keyboard in F. destruct (keyboard_of i s) as [k0|] eqn:F0; [|done].
  destruct (k_present k0) eqn:P; [|done]. apply (find_key k_seat) in F0 as [E0 H0].
  by rewrite (key_unique k_seat (keyboards s) y k0 (inv_k s B) Hy H0 ltac:(congruence)).
Qed.

Lemma run_bindings_inv i b s : present i s -> ti_inv s -> ti_inv (run_bindings sc i b s).
Proof.
  intros P H. assert (H1 : ti_inv (kb_start_grab i kg_other s)) by (eapply inv_sim; [apply sim_start_grab|done]).
  destruct b; [done..|]. unfold run_bindings. cbv zeta.
  set (f := match keyboard_of i s with Some k => _ | None => _ end).
  destruct f; [|done]. assert (P1 : present i (kb_start_grab i kg_other s)) by (by apply present_upd).
  apply set_focus_ti_inv; [|apply set_focus_ti_inv; [by right|done]].
  intros k Hk Ei. left. by eapply present_focus.
Qed.

Lemma notify_key_inv i key p b mods s : ti_inv s -> ti_inv (ti_notify_key sc i key p b mods s).
Proof.
  intros H. unfold ti_notify_key. destruct (get_keyboard i s) as [k|] eqn:F; [|done].
  destruct (p && _); [done|]. cbv zeta. pose proof (get_keyboard_present i k s (proj1 H) F) as P.
  set (s1 := upd_keyboard i _ s). assert (H1 : ti_inv s1) by (by eapply inv_sim; [apply sim_upd_keyboard|]).
  assert (P1 : present i s1) by (by apply present_upd).
  set (s2 := if bool_decide _ && p then _ else _).
  assert (H2 : ti_inv s2) by (unfold s2; destruct (bool_decide _ && p); [by apply run_bindings_inv|done]).
  assert (H3 : ti_inv (deliver_key i key p s2)) by (eapply inv_sim; [apply sim_deliver_key|done]).
  destruct mods; [|done]. eapply inv_sim; [apply sim_deliver_modifiers|done].
Qed.

Lemma injecting_inv c k s : (forall s, ti_inv s -> ti_inv (k s)) -> ti_inv s -> ti_inv (injecting c k s).
Proof.
  intros K H. unfold injecting. cbv zeta.
  set (s1 := s <| vk_injecting_client := Some c |>).
  assert (H1 : ti_inv (k s1)) by (apply K; by eapply (inv_sim None s)).
  by eapply (inv_sim None (k s1)).
Qed.

Lemma vk_key_inv r key st b mods s : ti_inv s -> ti_inv (qdwin_vk_req_key sc r key st b mods s).
Proof.
  intros H. unfold qdwin_vk_req_key. destruct (vk_of r s) as [v|]; [|done].
  destruct (negb _); [by apply emit_inv|]. destruct (vk_seat v); [|done]. destruct (get_keyboard _ s); [|done].
  apply injecting_inv; [|done]. intros. by apply notify_key_inv.
Qed.

Lemma vk_modifiers_inv r ch s : ti_inv s -> ti_inv (qdwin_vk_req_modifiers r ch s).
Proof.
  intros H. unfold qdwin_vk_req_modifiers. destruct (vk_of r s) as [v|]; [|done].
  destruct (negb _); [by apply emit_inv|]. destruct (vk_seat v); [|done]. destruct (get_keyboard _ s); [|done].
  apply injecting_inv; [|done]. intros s0 H0. unfold ti_notify_modifiers.
  destruct ch; [|done]. eapply inv_sim; [apply sim_deliver_modifiers|done].
Qed.

Lemma sim_emits es s : similar s (foldl (fun s e => ti_emit e s) s es).
Proof.
  revert s. induction es as [|e es IH]; intros s; [apply sim_refl|]. cbn [foldl].
  eapply sim_trans; [|apply IH]. apply sim_emit.
Qed.

Lemma sim_im_commit r serial s : similar s (qdwin_im_req_commit r serial s).
Proof.
  unfold qdwin_im_req_commit, with_im. destruct (im_of r s) as [m|]; [|apply sim_refl].
  destruct (inert m); [apply sim_refl|].
  destruct (match active_ti m with Some x => ti_of x s | None => None end) as [t|]; [|apply sim_reset].
  destruct (_ || _); [apply sim_reset|]. cbv zeta. eapply sim_trans; [apply sim_emits|apply sim_reset].
Qed.

Lemma sim_with_im r f s : (forall m, im_core (f m) = im_core m) -> similar s (with_im r (fun _ => upd_im r f) s).
Proof.
  intros E. unfold with_im. destruct (im_of r s) as [m|]; [|apply sim_refl].
  destruct (inert m); [apply sim_refl|by apply sim_upd_im].
Qed.

Lemma sim_popup c r f oom s : similar s (qdwin_im_req_get_input_popup_surface c r f oom s).
Proof.
  unfold qdwin_im_req_get_input_popup_surface. cbv zeta. destruct f as [f|]; [|by destruct oom; split].
  destruct (snd <$> _) as [n|]; [|by destruct oom; split]. destruct (String.eqb n IM_POPUP_ROLE); [by destruct oom; split|apply sim_emit].
Qed.

(** ** Teardown *)

Lemma at_exit_others m n s :
  n ∈ input_methods s -> im_res n ≠ im_res m -> n ∈ input_methods (destroy_input_method_at_exit s m).
Proof.
  intros Hn Ne. unfold destroy_input_method_at_exit. cbv zeta.
  assert (D : n ∈ input_methods (qdwin_im_detach (im_res m) s)).
  { unfold qdwin_im_detach. destruct (im_of (im_res m) s) as [m0|]; [|done]. cbv zeta.
    set (r := im_res m) in *. set (s1 := match im_grab m0 with Some _ => _ | None => _ end).
    assert (H1 : n ∈ input_methods s1).
    { unfold s1. destruct (im_grab m0) as [x|]; [|done].
      change (n ∈ input_methods (end_if_active x (upd_im_grab x (fun g => g <| g_im := None |>)
        (upd_im r (fun m => m <| im_grab := None |>) s)))). rewrite (proj1 (end_if_active_rest _ _)).
      pose proof (elem_upd_in im_res r (fun m => m <| im_grab := None |>) _ n Hn) as H.
      by rewrite (proj2 (Z.eqb_neq _ _) Ne) in H. }
    pose proof (elem_upd_in im_res r (fun m => m <| im_seat := None |> <| active := false |>
      <| active_ti := None |>) _ n H1) as H2. rewrite (proj2 (Z.eqb_neq _ _) Ne) in H2.
    pose proof (elem_upd_in im_res r reset_pending _ n H2) as H3.
    by rewrite (proj2 (Z.eqb_neq _ _) Ne) in H3. }
  apply elem_remove. split; [by destruct (im_grab m)|done].
Qed.

Lemma ims_destroy_all_inv s :
  ti_inv s -> ti_inv (qdwin_input_methods_destroy_all s) /\ input_methods (qdwin_input_methods_destroy_all s) = [].
Proof.
  intros H. unfold qdwin_input_methods_destroy_all.
  assert (G : forall l s0, ti_inv s0 -> NoDup (map im_res l) -> (forall m, m ∈ l -> m ∈ input_methods s0) ->
    ti_inv (foldl destroy_input_method_at_exit s0 l)
    /\ forall n, n ∈ map im_res (input_methods (foldl destroy_input_method_at_exit s0 l)) ->
         n ∈ map im_res (input_methods s0) /\ n ∉ map im_res l).
  { induction l as [|m l IH]; intros s0 H0 N I; cbn [foldl].
    - split; [done|]. intros n Hn. split; [done|apply not_elem_of_nil].
    - cbn in N. apply NoDup_cons in N as [N1 N2].
      assert (Hm : m ∈ input_methods s0) by apply I, list_elem_of_here.
      destruct (IH (destroy_input_method_at_exit s0 m)) as [H1 E1]; [by apply destroy_at_exit_inv|done| |].
      { intros n Hn. apply at_exit_others; [by apply I, list_elem_of_further|]. intros X. apply N1.
        rewrite <- X. apply list_elem_of_In, in_map. by apply list_elem_of_In. }
      split; [done|]. intros n Hn. destruct (E1 n Hn) as [Hn1 Nn].
      apply list_elem_of_In, in_map_iff in Hn1 as (y & <- & Hy%list_elem_of_In).
      apply elem_remove in Hy as [Hy Ny]. split; [|by apply not_elem_of_cons].
      assert (R : map im_core (input_methods (match im_grab m with
          | Some x => free_grab x (qdwin_im_detach (im_res m) s0) | None => qdwin_im_detach (im_res m) s0 end))
        = map im_core (map (fun n => if im_res n =? im_res m then detached n else n) (input_methods s0))).
      { assert (F : im_of (im_res m) s0 = Some m)
          by (by apply (find_unique im_res); [apply (inv_im s0 (proj1 H0))|..]).
        destruct (detach_spec (im_res m) m s0 (inv_im s0 (proj1 H0)) F) as (_ & _ & _ & E4).
        by destruct (im_grab m). }
      destruct (elem_map_eq _ _ _ _ _ R Hy) as (z & Hz & Ez). apply elem_upd in Hz as (w & Hw & ->).
      assert (Er : im_res y = im_res w) by (unfold im_core in Ez; destruct (im_res w =? im_res m); cbn in Ez; congruence).
      rewrite Er. apply list_elem_of_In, in_map. by apply list_elem_of_In. }
  destruct (G (input_methods s) s H (inv_im s (proj1 H)) (fun m Hm => Hm)) as [H1 E1].
  split; [done|]. destruct (input_methods (foldl _ _ _)) as [|n l] eqn:E; [done|].
  destruct (E1 (im_res n)) as [Hn []]; [apply list_elem_of_here|done].
Qed.

Lemma vks_destroy_all_sim s : similar s (qdwin_virtual_keyboards_destroy_all s).
Proof.
  unfold qdwin_virtual_keyboards_destroy_all. generalize (virtual_keyboards s). intros l. revert s.
  induction l as [|v l IH]; intros s; [apply sim_refl|]. cbn [foldl]. eapply sim_trans; [|apply IH]. by split.
Qed.

Lemma tis_destroy_all_inv s :
  ti_inv s -> input_methods s = [] -> ti_inv (qdwin_text_inputs_destroy_all s).
Proof.
  unfold qdwin_text_inputs_destroy_all. generalize (text_inputs s). intros l. revert s.
  induction l as [|t l IH]; intros s H E; [done|]. cbn [foldl]. apply IH; [|done]. cbv zeta.
  eapply inv_sim; [|apply (remove_ti_inv (t_res t) s H)].
  - split; [|done..]. by rewrite clear_remove.
  - intros m. rewrite E. by intros ?%not_elem_of_nil.
Qed.

Lemma teardown_inv s : ti_inv s -> ti_inv (ti_teardown s).
Proof.
  intros H. unfold ti_teardown. cbv zeta. destruct (ims_destroy_all_inv s H) as [H1 E1].
  set (s1 := managers_destroy_all input_method_manager (qdwin_input_methods_destroy_all s)).
  assert (H2 : ti_inv (qdwin_virtual_keyboards_destroy_all s1)).
  { eapply inv_sim; [apply vks_destroy_all_sim|]. by eapply (inv_sim None (qdwin_input_methods_destroy_all s)). }
  assert (E2 : input_methods (qdwin_virtual_keyboards_destroy_all s1) = []).
  { pose proof (sim_im _ _ (vks_destroy_all_sim s1)) as E. change (input_methods s1)
      with (input_methods (qdwin_input_methods_destroy_all s)) in E. rewrite E1 in E.
    by destruct (input_methods (qdwin_virtual_keyboards_destroy_all s1)). }
  set (s2 := managers_destroy_all virtual_keyboard_manager (qdwin_virtual_keyboards_destroy_all s1)).
  assert (H3 : ti_inv s2) by (by eapply (inv_sim None (qdwin_virtual_keyboards_destroy_all s1))).
  by eapply (inv_sim None (qdwin_text_inputs_destroy_all s2)); [|apply tis_destroy_all_inv].
Qed.

End inv.
