(* ===== verification/TextInputTheorems.v ===== *)
(** * TextInputTheorems: composed text, keys and grabs over whole runs

    Every sequence of requests and seat events; what holds in the states it
    reaches. *)

From stdpp Require Import base list gmap strings option.
From S2P Require Import Prelude Logic State Procfs Environ Secctx TextInput TextInputFacts.
From stdpp Require Import list.
#[local] Open Scope Z_scope.

(** ** The memory of a grab *)

Definition kb_view (k : keyboard) := (k_seat k, k_grab k).

(** A grab that is in force is allocated and knows its keyboard. *)
Definition kinv (s : ti_state) : Prop :=
  forall k x, k ∈ keyboards s -> k_grab k = kg_im x ->
  exists g, g ∈ im_grabs s /\ g_res g = x /\ g_keyboard g = Some (k_seat k).

Definition unheld (x : Z) (s : ti_state) : Prop := forall k, k ∈ keyboards s -> k_grab k ≠ kg_im x.

Lemma kinv_same s s' :
  map kb_view (keyboards s') = map kb_view (keyboards s) -> im_grabs s' = im_grabs s -> kinv s -> kinv s'.
Proof.
  intros E G L k x Hk P. destruct (elem_map_eq _ _ _ _ _ E Hk) as (y & Hy & Ey). injection Ey. intros.
  destruct (L y x) as (g & Hg & R1 & R2); [done|congruence|]. exists g. rewrite G. split_and!; congruence.
Qed.

Lemma kinv_upd_keyboard i f s :
  (forall k, k ∈ keyboards s -> k_seat k = i ->
     k_seat (f k) = i /\ (k_grab (f k) = k_grab k \/ k_grab (f k) = kg_default \/ k_grab (f k) = kg_other)) ->
  kinv s -> kinv (upd_keyboard i f s).
Proof.
  intros F L k x (y & Hy & ->)%elem_upd. destruct (Z.eqb_spec (k_seat y) i) as [Ei|]; [|by apply L].
  intros Eg. destruct (F y Hy Ei) as (Fs & [Fg|[Fg|Fg]]); [|congruence..].
  rewrite Fs, <- Ei. apply (L y); congruence.
Qed.

Lemma kinv_map_grabs (f : im_keyboard_grab -> im_keyboard_grab) s :
  (forall g, g ∈ im_grabs s -> g_res (f g) = g_res g /\ (g_keyboard (f g) = g_keyboard g \/ unheld (g_res g) s)) ->
  kinv s -> kinv (s <| im_grabs ::= map f |>).
Proof.
  intros F L k x Hk Ex. destruct (L k x Hk Ex) as (g & Hg & R1 & R2).
  destruct (F g Hg) as [F1 [F2|F2]]; [|by destruct (F2 k Hk); congruence].
  exists (f g). split_and!; [|congruence..]. apply list_elem_of_In, in_map. by apply list_elem_of_In.
Qed.

Lemma kinv_free x s : unheld x s -> kinv s -> kinv (free_grab x s).
Proof.
  intros U L k y Hk Ey. destruct (L k y Hk Ey) as (g & Hg & R1 & R2).
  exists g. split_and!; [|done..]. apply elem_remove. split; [done|]. intros X. apply (U k Hk). congruence.
Qed.

(** ** Keyboards under each request *)

Definition kview (s : ti_state) := (map kb_view (keyboards s), im_grabs s).

Lemma kinv_view s s' : kview s' = kview s -> kinv s -> kinv s'.
Proof. intros E. injection E as E1 E2. by apply kinv_same. Qed.

Lemma unheld_keyboards x s s' : map kb_view (keyboards s') = map kb_view (keyboards s) -> unheld x s -> unheld x s'.
Proof.
  intros E U k Hk. destruct (elem_map_eq _ _ _ _ _ E Hk) as (y & Hy & Ey). injection Ey as _ ->. by apply U.
Qed.

Lemma kview_sync seat s : kview (qdwin_im_sync_seat seat s) = kview s.
Proof. unfold kview. by destruct (sync_kt seat s) as (_ & -> & ->). Qed.

Lemma kview_emits es s : kview (foldl (fun s e => ti_emit e s) s es) = kview s.
Proof. revert s. induction es as [|e es IH]; intros s; [done|]. cbn [foldl]. by rewrite IH. Qed.

Lemma end_clears x s :
  NoDup (map g_res (im_grabs s)) -> NoDup (map k_seat (keyboards s)) -> kinv s ->
  kinv (end_if_active x s) /\ unheld x (end_if_active x s).
Proof.
  intros Ng Nk L.
  assert (U : forall g, grab_struct x s = Some g -> forall k, k ∈ keyboards s -> k_grab k = kg_im x ->
              g_keyboard g = Some (k_seat k)).
  { intros g F k Hk Ek. destruct (L k x Hk Ek) as (g' & Hg' & R1 & R2).
    pose proof (find_unique g_res x _ g' Ng Hg' R1). unfold grab_struct in F. congruence. }
  unfold end_if_active. destruct (grab_struct x s) as [g|] eqn:F.
  - destruct (g_keyboard g) as [i|] eqn:Ei.
    + destruct (keyboard_of i s) as [k|] eqn:Fk.
      * case_bool_decide as Ek.
        -- split; [apply kinv_upd_keyboard; [|done]; intros y Hy Ey; by split; auto|].
           intros y (z & Hz & ->)%elem_upd. destruct (Z.eqb_spec (k_seat z) i); [done|].
           intros X. specialize (U g eq_refl z Hz X). congruence.
        -- split; [done|]. intros y Hy X. specialize (U g eq_refl y Hy X).
           pose proof (find_unique k_seat i _ y Nk Hy ltac:(congruence)). unfold keyboard_of in Fk. congruence.
      * split; [done|]. intros y Hy X. specialize (U g eq_refl y Hy X).
        pose proof (find_unique k_seat i _ y Nk Hy ltac:(congruence)). unfold keyboard_of in Fk. congruence.
    + split; [done|]. intros y Hy X. specialize (U g eq_refl y Hy X). congruence.
  - split; [done|]. intros y Hy X. destruct (L y x Hy X) as (g' & Hg' & R1 & R2).
    apply (find_fresh g_res) in F. apply F. rewrite <- R1. apply list_elem_of_In, in_map. by apply list_elem_of_In.
Qed.

Lemma kinv_grab_destroy x s : base_inv s -> kinv s -> kinv (qdwin_im_grab_resource_destroy x s).
Proof.
  intros B K. unfold qdwin_im_grab_resource_destroy. destruct (grab_struct x s) as [g|]; [|done]. cbv zeta.
  set (s1 := match g_im g with Some r => _ | None => _ end).
  assert (E : keyboards s1 = keyboards s /\ im_grabs s1 = im_grabs s) by (unfold s1; by destruct (g_im g)).
  destruct E as [E1 E2]. destruct (end_clears x s1) as [K1 U1].
  - rewrite E2. apply (inv_g s B).
  - rewrite E1. apply (inv_k s B).
  - apply (kinv_same s); [by rewrite E1|done|done].
  - by apply kinv_free.
Qed.

Lemma kinv_detach r s :
  NoDup (map g_res (im_grabs s)) -> NoDup (map k_seat (keyboards s)) -> kinv s -> kinv (qdwin_im_detach r s) /\
  (forall m x, im_of r s = Some m -> im_grab m = Some x -> unheld x (qdwin_im_detach r s)).
Proof.
  intros Ng Nk K. unfold qdwin_im_detach. destruct (im_of r s) as [m|]; [|done]. cbv zeta.
  destruct (im_grab m) as [x|] eqn:Ex.
  - set (s1 := upd_im_grab x (fun g => g <| g_im := None |>) (upd_im r (fun m => m <| im_grab := None |>) s)).
    destruct (end_clears x s1) as [K1 U1].
    + unfold s1. change (NoDup (map g_res (map (fun g => if g_res g =? x then g <| g_im := None |> else g) (im_grabs s)))).
      rewrite map_key_upd; [done|]. intros g. by destruct (g_res g =? x).
    + done.
    + apply (kinv_map_grabs (fun g => if g_res g =? x then g <| g_im := None |> else g)
               (upd_im r (fun m => m <| im_grab := None |>) s)); [|by apply (kinv_same s)].
      intros g _. destruct (g_res g =? x); auto.
    + assert (K2 : kinv (upd_im_grab x (fun g => g <| g_keyboard := None |>) (end_if_active x s1))).
      { apply (kinv_map_grabs (fun g => if g_res g =? x then g <| g_keyboard := None |> else g)); [|done].
        intros g _. destruct (Z.eqb_spec (g_res g) x) as [E|]; [|auto]. split; [done|]. rewrite E. by right. }
      split; [by eapply kinv_same; [..|exact K2]|]. intros m0 y [= <-] Ey. rewrite Ex in Ey. injection Ey as <-. exact U1.
  - split; [by apply (kinv_same s)|]. intros m' y [= <-]. congruence.
Qed.

Section steps.
Context (sc : Z -> option Z) (W : Z -> Prop).

Lemma kview_update_focus seat s : kview (qdwin_text_input_update_focus sc seat s) = kview s.
Proof. unfold kview. by destruct (update_focus_kg sc seat s) as [-> ->]. Qed.

Lemma kinv_set_focus i f s : kinv s -> kinv (keyboard_set_focus sc i f s).
Proof.
  intros K. eapply kinv_view; [apply kview_update_focus|]. apply kinv_upd_keyboard; [|done].
  intros k Hk Ei. by split; auto.
Qed.

Lemma kview_send_state r t s : kview (qdwin_im_send_state r t s) = kview s.
Proof. unfold kview. by destruct (send_state_kt r t s) as (_ & -> & ->). Qed.

Lemma kview_gone t s : kview (qdwin_im_text_input_gone t s) = kview s.
Proof.
  unfold qdwin_im_text_input_gone. generalize (map im_res (input_methods s)). intros l. revert s.
  induction l as [|r l IH]; intros s; [done|]. cbn [foldl]. rewrite IH. destruct (im_of r s) as [m|]; [|done].
  case_bool_decide; [|done]. unfold kview. by destruct (deactivate_kt r s) as (_ & -> & ->).
Qed.

Lemma kview_default_key i key p s : kview (default_grab_key i key p s) = kview s.
Proof.
  unfold default_grab_key. destruct (ti_locked s); [done|]. destruct (keyboard_of i s) as [k|]; [|done].
  by destruct (k_focus k).
Qed.
Lemma kview_default_modifiers i s : kview (default_grab_modifiers i s) = kview s.
Proof. unfold default_grab_modifiers. destruct (ti_locked s); [done|]. by destruct (keyboard_of i s). Qed.

Lemma kview_deliver_key i key p s : kview (deliver_key i key p s) = kview s.
Proof.
  unfold deliver_key, qdwin_im_grab_key. destruct (keyboard_of i s) as [k|]; [|done].
  destruct (k_grab k) as [|x|]; [apply kview_default_key| |done].
  destruct (grab_struct x s) as [g|]; [|done]. destruct (own_injection g s); [apply kview_default_key|done].
Qed.
Lemma kview_deliver_modifiers i s : kview (deliver_modifiers i s) = kview s.
Proof.
  unfold deliver_modifiers, qdwin_im_grab_modifiers. destruct (keyboard_of i s) as [k|]; [|done].
  destruct (k_grab k) as [|x|]; [apply kview_default_modifiers| |done].
  destruct (grab_struct x s) as [g|]; [|done]. destruct (own_injection g s); [apply kview_default_modifiers|done].
Qed.

Lemma kinv_start_other i s : kinv s -> kinv (kb_start_grab i kg_other s).
Proof. intros K. apply kinv_upd_keyboard; [|done]. intros k Hk Ei. by split; auto. Qed.
Lemma kinv_end i s : kinv s -> kinv (kb_end_grab i s).
Proof. intros K. apply kinv_upd_keyboard; [|done]. intros k Hk Ei. by split; auto. Qed.

Lemma kinv_run_bindings i b s : kinv s -> kinv (run_bindings sc i b s).
Proof.
  intros K. pose proof (kinv_start_other i s K) as K1. destruct b; [done..|]. unfold run_bindings. cbv zeta.
  set (f := match keyboard_of i s with Some k => _ | None => _ end). destruct f as [f|]; [|done].
  by apply kinv_set_focus, kinv_set_focus.
Qed.

Lemma kinv_notify_key i key p b mods s : kinv s -> kinv (ti_notify_key sc i key p b mods s).
Proof.
  intros K. unfold ti_notify_key. destruct (get_keyboard i s) as [k|]; [|done].
  destruct (p && _); [done|]. cbv zeta. set (s1 := upd_keyboard i _ s).
  assert (K1 : kinv s1) by (apply kinv_upd_keyboard; [|done]; intros y Hy Ey; by split; auto).
  set (s2 := if bool_decide _ && p then _ else _).
  assert (K2 : kinv s2) by (unfold s2; destruct (bool_decide _ && p); [by apply kinv_run_bindings|done]).
  assert (K3 : kinv (deliver_key i key p s2)) by (eapply kinv_view; [apply kview_deliver_key|done]).
  destruct mods; [|done]. eapply kinv_view; [apply kview_deliver_modifiers|done].
Qed.

Lemma kinv_injecting c k s :
  (forall s, ti_inv sc W s -> kinv s -> kinv (k s)) -> ti_inv sc W s -> kinv s -> kinv (injecting c k s).
Proof.
  intros F H K. unfold injecting. cbv zeta. set (s1 := s <| vk_injecting_client := Some c |>).
  assert (K1 : kinv (k s1)) by (apply F; [by eapply (inv_sim sc W None s)|by eapply (kinv_view s)]).
  by eapply (kinv_view (k s1)).
Qed.

Lemma kinv_take_keyboard i id s :
  (forall g, g ∈ im_grabs s -> g_res g = id -> g_keyboard g = None) ->
  (exists g, g ∈ im_grabs s /\ g_res g = id) -> kinv s -> kinv (take_keyboard i id s).
Proof.
  intros N (g & Hg & Eg) L. unfold take_keyboard. destruct (get_keyboard i s) as [k0|]; [|done]. cbv zeta.
  intros k x (y & Hy & ->)%elem_upd. destruct (Z.eqb_spec (k_seat y) i) as [Ei|].
  - intros [= <-]. eexists. split; [by apply (elem_upd_in g_res id _ _ g)|].
    rewrite Eg, Z.eqb_refl. cbn. by rewrite Ei.
  - intros Ex. destruct (L y x Hy Ex) as (g' & Hg' & R1 & R2).
    eexists. split; [by apply (elem_upd_in g_res id _ _ g')|].
    destruct (Z.eqb_spec (g_res g') id) as [E|]; [|done]. rewrite (N g' Hg' E) in R2. done.
Qed.

Lemma kinv_drop_stale m s : base_inv s -> kinv s -> kinv (drop_stale_grab m s).
Proof. intros B K. unfold drop_stale_grab. destruct (im_grab m); [by apply kinv_grab_destroy|done]. Qed.

Lemma kinv_grab_keyboard client r id res_oom g_oom s :
  id ∉ map g_res (im_grabs s) -> ti_inv sc W s -> kinv s ->
  kinv (qdwin_im_req_grab_keyboard client r id res_oom g_oom s).
Proof.
  intros N H K. unfold qdwin_im_req_grab_keyboard. destruct res_oom; [by apply (kinv_view s)|].
  unfold with_im. destruct (im_of r s) as [m|] eqn:F; [|done]. destruct (inert m); [done|].
  destruct (im_seat m) as [i|] eqn:Es; [|done]. cbv zeta.
  pose proof (kinv_drop_stale m s (proj1 H) K) as K1.
  destruct (drop_stale_inv sc W r m s H F) as (_ & _ & G1). destruct g_oom; [by apply (kinv_view (drop_stale_grab m s))|].
  apply kinv_take_keyboard.
  - intros g Hg Eg. change (g ∈ mk_im_grab id (Some r) None :: im_grabs (drop_stale_grab m s)) in Hg.
    apply elem_of_cons in Hg as [->|Hg]; [done|]. destruct N. rewrite <- Eg.
    apply list_elem_of_In, in_map, list_elem_of_In. by apply G1.
  - eexists. split; [apply list_elem_of_here|done].
  - intros k x Hk Ex. destruct (K1 k x Hk Ex) as (g & Hg & R).
    exists g. split; [by apply list_elem_of_further|done].
Qed.

Lemma kinv_im_destroy r s : ti_inv sc W s -> kinv s -> kinv (qdwin_input_method_resource_destroy r s).
Proof.
  intros H K. unfold qdwin_input_method_resource_destroy. destruct (im_of r s) as [m|] eqn:F; [|done]. cbv zeta.
  destruct (drop_stale_inv sc W r m s H F) as (H1 & _).
  destruct (kinv_detach r _ (inv_g _ (proj1 H1)) (inv_k _ (proj1 H1)) (kinv_drop_stale m s (proj1 H) K)) as [K2 _].
  by eapply kinv_view; [|exact K2].
Qed.

Lemma kinv_at_exit m s : ti_inv sc W s -> m ∈ input_methods s -> kinv s -> kinv (destroy_input_method_at_exit s m).
Proof.
  intros H Hm K. unfold destroy_input_method_at_exit. cbv zeta.
  destruct (kinv_detach (im_res m) s (inv_g s (proj1 H)) (inv_k s (proj1 H)) K) as [K2 U].
  assert (F : im_of (im_res m) s = Some m) by (by apply (find_unique im_res); [apply (inv_im s (proj1 H))|..]).
  destruct (im_grab m) as [x|] eqn:Ex.
  - by eapply (kinv_view (free_grab x (qdwin_im_detach (im_res m) s))); [|apply kinv_free; [by apply (U m)|]].
  - by eapply kinv_view; [|exact K2].
Qed.

Lemma kinv_seat_destroyed r i m s :
  base_inv s -> im_of r s = Some m -> im_seat m = Some i -> i ∉ map k_seat (keyboards s) -> kinv s ->
  kinv (qdwin_im_seat_destroyed r s).
Proof.
  intros B F Es Ni K. unfold qdwin_im_seat_destroyed. cbv zeta.
  set (s1 := ti_emit (im_unavailable r) (upd_im r (fun m => m <| inert := true |>) s)).
  assert (F1 : im_of r s1 = Some (m <| inert := true |>)) by (by apply (im_of_upd r _ s)).
  rewrite F1. cbn [mbind option_bind]. change (im_grab (m <| inert := true |>)) with (im_grab m).
  pose proof (im_of_elem _ _ _ F) as [Hm Er].
  assert (U : forall x, im_grab m = Some x -> unheld x s).
  { intros x Ex k Hk Ek. destruct (K k x Hk Ek) as (g & Hg & R1 & R2).
    destruct (inv_kb s B g _ Hg R2) as (m2 & Hm2 & P1 & P2). destruct (inv_held s B m x Hm Ex) as (g' & Hg' & Q1 & Q2).
    rewrite (key_unique g_res _ g g' (inv_g s B) Hg Hg' ltac:(congruence)) in P1.
    rewrite (key_unique im_res _ m2 m (inv_im s B) Hm2 Hm ltac:(congruence)) in P2.
    apply Ni. rewrite Es in P2. injection P2 as ->. apply list_elem_of_In, in_map. by apply list_elem_of_In. }
  destruct (im_grab m) as [x|] eqn:Ex.
  - apply kinv_detach.
    + change (NoDup (map g_res (map (fun g => if g_res g =? x then g <| g_keyboard := None |> else g) (im_grabs s)))).
      rewrite map_key_upd; [apply (inv_g s B)|]. intros g. by destruct (g_res g =? x).
    + apply (inv_k s B).
    + apply (kinv_map_grabs (fun g => if g_res g =? x then g <| g_keyboard := None |> else g)); [|by apply (kinv_view s)].
      intros g _. destruct (Z.eqb_spec (g_res g) x) as [E|]; [|auto]. split; [done|right]. rewrite E.
      by apply (unheld_keyboards x s); [|apply U].
  - apply kinv_detach; [apply (inv_g s B)|apply (inv_k s B)|by apply (kinv_view s)].
Qed.

(** The seat's input methods retire one after the other. *)
Lemma kinv_retire i l s :
  base_inv s /\ entered_but sc W None s /\ served_but W None s -> i ∉ map k_seat (keyboards s) -> NoDup l ->
  (forall r, r ∈ l -> exists m, im_of r s = Some m /\ im_seat m = Some i) -> kinv s ->
  kinv (foldl (fun s r => qdwin_im_seat_destroyed r s) s l).
Proof.
  revert s. induction l as [|r l IH]; intros s H Ni N I K; cbn [foldl]; [done|].
  apply NoDup_cons in N as [Nr N]. destruct (I r (list_elem_of_here _ _)) as (m & F & Es).
  destruct (seat_destroyed_spec r m s (inv_im s (proj1 H)) F) as (E1 & E2 & E3 & E4).
  pose proof (retired_inv sc W r m s H F) as H1. apply IH; [done| |done| |by eapply kinv_seat_destroyed; [apply H|..]].
  - apply (map_of_map_eq (fun c => fst (fst c))) in E2. change (map k_seat (keyboards (qdwin_im_seat_destroyed r s))
      = map k_seat (keyboards s)) in E2. by rewrite E2.
  - intros q Hq. destruct (I q (list_elem_of_further _ _ _ Hq)) as (n & Fn & Sn).
    apply im_of_elem in Fn as [Hn Eq]. pose proof (elem_upd_in im_res r retired _ n Hn) as Hn'.
    destruct (Z.eqb_spec (im_res n) r) as [E|Ne]; [congruence|].
    destruct (elem_map_eq _ _ _ _ _ (eq_sym E4) Hn') as (y & Hy & Ey). unfold im_core in Ey. injection Ey. intros.
    exists y. split; [|congruence].
    apply (find_unique im_res); [apply (inv_im _ (proj1 H1))|done|congruence].
Qed.

Lemma kview_vk_fold l s : kview (foldl (fun s r => qdwin_virtual_keyboard_detach r s) s l) = kview s.
Proof. revert s. induction l as [|r l IH]; intros s; [done|]. cbn [foldl]. by rewrite IH. Qed.

Lemma kinv_seat_released i s : ti_inv sc W s -> kinv s -> kinv (ti_seat_released i s).
Proof.
  intros (B & E & V & A) K. unfold ti_seat_released. cbv zeta.
  set (s0 := s <| keyboards ::= List.filter (fun k => negb (k_seat k =? i)) |>).
  set (l := map im_res (List.filter (fun m => bool_decide (im_seat m = Some i)) (input_methods s0))).
  eapply kinv_view; [apply kview_vk_fold|]. apply (kinv_retire i l s0).
  - split_and!; [| |exact V].
    + destruct B as [T I G Nk Dk St O Ac Hd Ow Kb]. split; try done; [by apply nodup_filter_key|].
      intros k [Hk _]%elem_remove. by apply Dk.
    + intros t k Ht [Hk _]%elem_remove. by apply E.
  - intros I. apply list_elem_of_In, in_map_iff in I as (k & Ek & Hk%list_elem_of_In).
    by apply elem_remove in Hk as [_ []].
  - apply nodup_filter_key, (inv_im s B).
  - intros r Hr. apply list_elem_of_In, in_map_iff in Hr as (m & Em & [Hm Sm%bool_decide_eq_true]%filter_In).
    exists m. split; [|done]. apply (find_unique im_res); [apply (inv_im s B)|by apply list_elem_of_In|done].
  - intros k x [Hk _]%elem_remove. by apply K.
Qed.

Lemma kinv_seat_created i s : kinv s -> kinv (ti_seat_created i s).
Proof.
  intros L k x Hk. apply elem_of_cons in Hk as [->|Hk]; [done|by apply L].
Qed.

Lemma kinv_unfocus_all l s : kinv s -> kinv (foldl (fun s i => keyboard_set_focus sc i None s) s l).
Proof.
  revert s. induction l as [|i l IH]; intros s K; [done|]. cbn [foldl]. by apply IH, kinv_set_focus.
Qed.

Lemma kinv_ims_destroy_all s : ti_inv sc W s -> kinv s -> kinv (qdwin_input_methods_destroy_all s).
Proof.
  intros H K. unfold qdwin_input_methods_destroy_all.
  assert (G : forall l s0, ti_inv sc W s0 -> kinv s0 -> NoDup (map im_res l) ->
    (forall m, m ∈ l -> m ∈ input_methods s0) -> kinv (foldl destroy_input_method_at_exit s0 l)).
  { induction l as [|m l IH]; intros s0 H0 K0 N I; [done|]. cbn [foldl].
    cbn in N. apply NoDup_cons in N as [N1 N2].
    assert (Hm : m ∈ input_methods s0) by apply I, list_elem_of_here.
    apply IH; [by apply destroy_at_exit_inv|by apply kinv_at_exit|done|].
    intros n Hn. apply at_exit_others; [by apply I, list_elem_of_further|]. intros X. apply N1.
    rewrite <- X. apply list_elem_of_In, in_map. by apply list_elem_of_In. }
  by apply G; [..|apply (inv_im s (proj1 H))|].
Qed.

Lemma kview_fold {A} (f : ti_state -> A -> ti_state) l s :
  (forall s a, kview (f s a) = kview s) -> kview (foldl f s l) = kview s.
Proof. intros F. revert s. induction l as [|a l IH]; intros s; [done|]. cbn [foldl]. by rewrite IH. Qed.

Lemma kinv_teardown s : ti_inv sc W s -> kinv s -> kinv (ti_teardown s).
Proof.
  intros H K. apply (kinv_view (qdwin_input_methods_destroy_all s)); [|by apply kinv_ims_destroy_all].
  unfold ti_teardown. cbv zeta. set (s1 := qdwin_input_methods_destroy_all s).
  set (s2 := managers_destroy_all input_method_manager s1).
  set (s3 := managers_destroy_all virtual_keyboard_manager (qdwin_virtual_keyboards_destroy_all s2)).
  transitivity (kview (qdwin_text_inputs_destroy_all s3)); [done|].
  transitivity (kview s3); [by apply kview_fold|].
  transitivity (kview (qdwin_virtual_keyboards_destroy_all s2)); [done|].
  by transitivity (kview s2); [apply kview_fold|].
Qed.

(** ** Runs *)

(** No input method holds the keyboard of the seat. *)
Definition no_ime_grab (i : Z) (s : ti_state) : Prop :=
  forall k x, keyboard_of i s = Some k -> k_grab k ≠ kg_im x.

(** One request, key or change of a seat.  With [strict], a keyboard is never
    taken away, and the backend never loses the focus, under an input method's
    grab.  New objects have new names; a new seat may get the address of a dead
    one, also when text inputs still point to it, which [W] then records. *)
Inductive ti_step (strict : bool) : ti_state -> ti_state -> Prop :=
| st_enable r s : ti_step strict s (qdwin_text_input_enable r s)
| st_disable r s : ti_step strict s (qdwin_text_input_disable r s)
| st_surrounding r text c a s : ti_step strict s (qdwin_text_input_set_surrounding_text r text c a s)
| st_cause r c s : ti_step strict s (qdwin_text_input_set_text_change_cause r c s)
| st_content r h p s : ti_step strict s (qdwin_text_input_set_content_type r h p s)
| st_ti_commit r s : ti_step strict s (qdwin_text_input_commit r s)
| st_ti_destroy r s : ti_step strict s (qdwin_text_input_resource_destroy r s)
| st_get_text_input c mgr id seat oom s :
    id ∉ map t_res (text_inputs s) ->
    ti_step strict s (qdwin_text_input_manager_get_text_input sc c mgr id seat oom s)
| st_bind_text c id oom s : ti_step strict s (bind_qdwin_text_input_manager c id oom s)
| st_bind_ime k before during after x p c pid uid id oom s :
    ti_step strict s (bind_ime_manager k before during after x p c pid uid id oom s)
| st_manager_destroyed k mgr s : ti_step strict s (ti_manager_destroyed k mgr s)
| st_commit_string r text s : ti_step strict s (qdwin_im_req_commit_string r text s)
| st_preedit r text b e s : ti_step strict s (qdwin_im_req_set_preedit_string r text b e s)
| st_delete r b a s : ti_step strict s (qdwin_im_req_delete_surrounding_text r b a s)
| st_im_commit r serial s : ti_step strict s (qdwin_im_req_commit r serial s)
| st_popup c r f oom s : ti_step strict s (qdwin_im_req_get_input_popup_surface c r f oom s)
| st_grab_keyboard c r id o1 o2 s :
    id ∉ map g_res (im_grabs s) -> ti_step strict s (qdwin_im_req_grab_keyboard c r id o1 o2 s)
| st_grab_destroy x s : ti_step strict s (qdwin_im_grab_resource_destroy x s)
| st_im_destroy r s : ti_step strict s (qdwin_input_method_resource_destroy r s)
| st_get_input_method c mgr id seat o1 o2 s :
    id ∉ map im_res (input_methods s) ->
    ti_step strict s (qdwin_im_manager_get_input_method c mgr id seat o1 o2 s)
| st_vk_create c mgr id seat o1 o2 s :
    ti_step strict s (qdwin_vk_manager_create_virtual_keyboard c mgr id seat o1 o2 s)
| st_vk_keymap r fmt fd s : ti_step strict s (qdwin_vk_req_keymap r fmt fd s)
| st_vk_key r key st b mods s : ti_step strict s (qdwin_vk_req_key sc r key st b mods s)
| st_vk_modifiers r ch s : ti_step strict s (qdwin_vk_req_modifiers r ch s)
| st_vk_destroy r s : ti_step strict s (qdwin_virtual_keyboard_resource_destroy r s)
| st_key i key p b mods s : ti_step strict s (ti_notify_key sc i key p b mods s)
| st_modifiers i ch s : ti_step strict s (ti_notify_modifiers i ch s)
| st_set_focus i f k s : get_keyboard i s = Some k -> ti_step strict s (keyboard_set_focus sc i f s)
| st_surface_destroyed f s : ti_step strict s (ti_surface_destroyed sc f s)
| st_other_grab i s : ti_step strict s (kb_start_grab i kg_other s)
| st_end_grab i s : ti_step strict s (kb_end_grab i s)
| st_lock b s : ti_step strict s (s <| ti_locked := b |>)
| st_seat_created i s :
    ~ seat_alive s i -> W i \/ (forall t, t ∈ text_inputs s -> t_seat t ≠ Some i) -> ti_step strict s (ti_seat_created i s)
| st_seat_released i s : ti_step strict s (ti_seat_released i s)
| st_keyboard_added i s : ti_step strict s (ti_keyboard_added i s)
| st_keyboard_released i last s :
    (strict = true -> no_ime_grab i s) -> ti_step strict s (ti_keyboard_released sc i last s)
| st_focus_out i n s : (strict = true -> no_ime_grab i s) -> ti_step strict s (ti_focus_out sc i n s)
| st_output_boundary s : ti_step strict s (ti_output_boundary s)
| st_teardown s : ti_step strict s (ti_teardown s).

Definition ti_start (rate delay : Z) : ti_state := mk_ti_state [] [] [] [] [] [] [] false rate delay None [].

Inductive ti_reach (strict : bool) : ti_state -> Prop :=
| tr_start rate delay : ti_reach strict (ti_start rate delay)
| tr_step s s' : ti_reach strict s -> ti_step strict s s' -> ti_reach strict s'.

Lemma iter_modifiers i n s :
  similar s (Nat.iter n (deliver_modifiers i) s) /\ kview (Nat.iter n (deliver_modifiers i) s) = kview s.
Proof.
  induction n as [|n [IH1 IH2]]; [by split; [apply sim_refl|]|]. cbn [Nat.iter nat_rect]. split.
  - eapply sim_trans; [exact IH1|apply sim_deliver_modifiers].
  - by rewrite kview_deliver_modifiers.
Qed.

Lemma focus_out_inv i n s : ti_inv sc W s -> ti_inv sc W (ti_focus_out sc i n s).
Proof.
  intros H. unfold ti_focus_out. destruct (get_keyboard i s) as [k|]; [|done]. cbv zeta.
  apply kb_cancel_inv, set_focus_ti_inv; [by right|]. eapply inv_sim; [apply iter_modifiers|done].
Qed.

Lemma boundary_inv r s :
  ti_inv sc W s -> ti_inv sc W (boundary_input_method s r) /\ (kinv s -> kinv (boundary_input_method s r)).
Proof.
  intros I. unfold boundary_input_method. cbv zeta.
  set (s1 := match im_of r s with Some m => _ | None => s end).
  assert (I1 : ti_inv sc W s1).
  { unfold s1. destruct (im_of r s) as [m|]; [|done]. destruct (active m); [by apply deactivate_inv|done]. }
  assert (K1 : kview s1 = kview s).
  { unfold s1. destruct (im_of r s) as [m|]; [|done]. destruct (active m); [|done].
    destruct (deactivate_kt r s) as (_ & E1 & E2). unfold kview. by rewrite E1, E2. }
  destruct (im_of r s1 ≫= im_grab) as [x|].
  - split; [by apply grab_destroy_inv|]. intros K. apply kinv_grab_destroy; [apply I1|]. by eapply kinv_view.
  - split; [done|]. intros K. by eapply kinv_view.
Qed.

Lemma output_boundary_inv s :
  ti_inv sc W s -> ti_inv sc W (ti_output_boundary s) /\ (kinv s -> kinv (ti_output_boundary s)).
Proof.
  unfold ti_output_boundary. generalize (map im_res (input_methods s)). intros l. revert s.
  induction l as [|r l IH]; intros s I; [done|]. destruct (boundary_inv r s I) as [I1 K1].
  destruct (IH _ I1) as [I2 K2]. auto.
Qed.

Lemma ti_step_inv strict s s' : ti_step strict s s' -> ti_inv sc W s -> ti_inv sc W s'.
Proof.
  intros H I. destruct H; try (by eapply inv_sim; [apply sim_upd_ti|]); try (by eapply (inv_sim sc W None s)).
  - by apply ti_commit_inv.
  - by apply ti_destroy_inv.
  - by apply get_text_input_inv.
  - unfold bind_qdwin_text_input_manager. by destruct oom; eapply (inv_sim sc W None s).
  - unfold bind_ime_manager. by destruct (negb _), oom; eapply (inv_sim sc W None s).
  - by eapply inv_sim; [apply sim_with_im|].
  - by eapply inv_sim; [apply sim_with_im|].
  - by eapply inv_sim; [apply sim_with_im|].
  - by eapply inv_sim; [apply sim_im_commit|].
  - by eapply inv_sim; [apply sim_popup|].
  - by apply grab_keyboard_inv.
  - by apply grab_destroy_inv.
  - by apply im_destroy_inv.
  - by apply get_input_method_inv.
  - unfold qdwin_vk_manager_create_virtual_keyboard. destruct o1; [by apply emit_inv|].
    destruct (negb _); [done|]. by destruct o2; eapply (inv_sim sc W None s).
  - unfold qdwin_vk_req_keymap. cbv zeta. by destruct (negb _), (0 <=? fd); eapply (inv_sim sc W None s).
  - by apply vk_key_inv.
  - by apply vk_modifiers_inv.
  - by apply notify_key_inv.
  - unfold ti_notify_modifiers. destruct ch; [|done]. by eapply inv_sim; [apply sim_deliver_modifiers|].
  - apply set_focus_ti_inv; [|done]. left. by eapply get_keyboard_present; [apply I|..].
  - by apply surface_destroyed_inv.
  - by eapply inv_sim; [apply sim_start_grab|].
  - by eapply inv_sim; [apply sim_start_grab|].
  - by apply seat_created_inv.
  - by apply seat_released_inv.
  - by apply keyboard_added_inv.
  - by apply keyboard_released_inv.
  - by apply focus_out_inv.
  - by apply output_boundary_inv.
  - by apply teardown_inv.
Qed.

Lemma ti_reach_inv strict s : ti_reach strict s -> ti_inv sc W s.
Proof.
  induction 1 as [rate delay|s s' _ IH St]; [|by eapply ti_step_inv].
  split_and!; [split; try done; try apply NoDup_nil_2| | |]; intros ? *; by intros ?%not_elem_of_nil.
Qed.

Lemma kb_cancel_noop i s : no_ime_grab i s -> kb_cancel_grab i s = s.
Proof.
  intros N. unfold kb_cancel_grab. destruct (keyboard_of i s) as [k|] eqn:F; [|done].
  destruct (k_grab k) as [|x|] eqn:E; [done| |done]. by destruct (N k x F).
Qed.

Lemma no_ime_grab_view i s s' :
  map kb_view (keyboards s') = map kb_view (keyboards s) -> NoDup (map k_seat (keyboards s)) ->
  no_ime_grab i s -> no_ime_grab i s'.
Proof.
  intros E N G k x F. apply (find_key k_seat) in F as [Ek Hk].
  destruct (elem_map_eq _ _ _ _ _ E Hk) as (y & Hy & Ey). injection Ey as E1 E2. rewrite E2.
  apply G. apply (find_unique k_seat); [done..|congruence].
Qed.

Lemma view_upd i f s :
  (forall k, kb_view (f k) = kb_view k) -> map kb_view (keyboards (upd_keyboard i f s)) = map kb_view (keyboards s).
Proof. intros F. by apply map_upd_core. Qed.

Lemma view_set_focus i f s : map kb_view (keyboards (keyboard_set_focus sc i f s)) = map kb_view (keyboards s).
Proof. rewrite set_focus_keyboards. by apply (map_upd_core k_seat kb_view). Qed.

Lemma kinv_keyboard_released i last s :
  ti_inv sc W s -> no_ime_grab i s -> kinv s -> kinv (ti_keyboard_released sc i last s).
Proof.
  intros I N K. unfold ti_keyboard_released. destruct last; [|done]. cbv zeta.
  set (s1 := upd_keyboard i _ s). assert (V : map kb_view (keyboards s1) = map kb_view (keyboards s)) by (by apply view_upd).
  rewrite kb_cancel_noop; [by apply kinv_set_focus, (kinv_same s)|].
  apply (no_ime_grab_view i s); [by rewrite view_set_focus|apply (inv_k s (proj1 I))|done].
Qed.

Lemma kinv_focus_out i n s : ti_inv sc W s -> no_ime_grab i s -> kinv s -> kinv (ti_focus_out sc i n s).
Proof.
  intros I N K. unfold ti_focus_out. destruct (get_keyboard i s) as [k|]; [|done]. cbv zeta.
  pose proof (proj2 (iter_modifiers i n s)) as V. rewrite kb_cancel_noop; [by apply kinv_set_focus, (kinv_view s)|].
  injection V as V1 V2.
  apply (no_ime_grab_view i s); [by rewrite view_set_focus|apply (inv_k s (proj1 I))|done].
Qed.

Lemma kview_with_im r f s : kview (with_im r (fun _ => upd_im r f) s) = kview s.
Proof. unfold with_im. destruct (im_of r s) as [m|]; [|done]. by destruct (inert m). Qed.

Lemma kview_im_commit r serial s : kview (qdwin_im_req_commit r serial s) = kview s.
Proof.
  unfold qdwin_im_req_commit, with_im. destruct (im_of r s) as [m|]; [|done]. destruct (inert m); [done|].
  destruct (match active_ti m with Some x => ti_of x s | None => None end) as [t|]; [|done].
  destruct (_ || _); [done|]. apply kview_emits.
Qed.

Lemma kview_popup c r f oom s : kview (qdwin_im_req_get_input_popup_surface c r f oom s) = kview s.
Proof.
  unfold qdwin_im_req_get_input_popup_surface. cbv zeta. destruct f as [f|]; [|by destruct oom].
  destruct (snd <$> _) as [n|]; [|by destruct oom]. destruct (String.eqb n IM_POPUP_ROLE); [by destruct oom|done].
Qed.

Lemma kview_get_input_method c mgr id seat o1 o2 s :
  kview (qdwin_im_manager_get_input_method c mgr id seat o1 o2 s) = kview s.
Proof.
  unfold qdwin_im_manager_get_input_method. destruct o1; [done|]. destruct (negb _); [done|]. destruct o2; [done|].
  cbv zeta. destruct (seat_user_data seat s) as [i|]; [|done]. destruct (qdwin_im_for_seat (Some i) s); [done|].
  by rewrite kview_sync.
Qed.

Lemma ti_step_kinv s s' : ti_step true s s' -> ti_inv sc W s -> kinv s -> kinv s'.
Proof.
  intros H I K. destruct H; try (by eapply (kinv_view s)).
  - eapply kinv_view; [|exact K]. unfold qdwin_text_input_commit. destruct (ti_of r s); [|done]. by rewrite kview_sync.
  - eapply kinv_view; [|exact K]. unfold qdwin_text_input_resource_destroy. destruct (ti_of r s); [|done].
    exact (kview_gone r s).
  - eapply kinv_view; [|exact K]. unfold qdwin_text_input_manager_get_text_input.
    destruct (negb _); [done|]. destruct oom; [done|]. by rewrite kview_update_focus.
  - unfold bind_qdwin_text_input_manager. by destruct oom; eapply (kinv_view s).
  - unfold bind_ime_manager. by destruct (negb _), oom; eapply (kinv_view s).
  - by eapply kinv_view; [apply kview_with_im|].
  - by eapply kinv_view; [apply kview_with_im|].
  - by eapply kinv_view; [apply kview_with_im|].
  - by eapply kinv_view; [apply kview_im_commit|].
  - by eapply kinv_view; [apply kview_popup|].
  - by apply kinv_grab_keyboard.
  - by apply kinv_grab_destroy; [apply I|].
  - by apply kinv_im_destroy.
  - by eapply kinv_view; [apply kview_get_input_method|].
  - unfold qdwin_vk_manager_create_virtual_keyboard. destruct o1; [by apply (kinv_view s)|].
    destruct (negb _); [done|]. by destruct o2; eapply (kinv_view s).
  - unfold qdwin_vk_req_keymap. cbv zeta. by destruct (negb _), (0 <=? fd); eapply (kinv_view s).
  - unfold qdwin_vk_req_key. destruct (vk_of r s) as [v|]; [|done]. destruct (negb _); [by apply (kinv_view s)|].
    destruct (vk_seat v); [|done]. destruct (get_keyboard _ s); [|done]. apply kinv_injecting; [|done..].
    intros. by apply kinv_notify_key.
  - unfold qdwin_vk_req_modifiers. destruct (vk_of r s) as [v|]; [|done]. destruct (negb _); [by apply (kinv_view s)|].
    destruct (vk_seat v); [|done]. destruct (get_keyboard _ s); [|done]. apply kinv_injecting; [|done..].
    intros. unfold ti_notify_modifiers. destruct ch; [|done]. by eapply kinv_view; [apply kview_deliver_modifiers|].
  - by apply kinv_notify_key.
  - unfold ti_notify_modifiers. destruct ch; [|done]. by eapply kinv_view; [apply kview_deliver_modifiers|].
  - by apply kinv_set_focus.
  - eapply (kinv_view (foldl _ s _)); [|apply kinv_unfocus_all; exact K]. done.
  - by apply kinv_start_other.
  - by apply kinv_end.
  - by apply kinv_seat_created.
  - by apply kinv_seat_released.
  - apply kinv_upd_keyboard; [|done]. intros k Hk Ei. by split; auto.
  - apply kinv_keyboard_released; auto.
  - apply kinv_focus_out; auto.
  - by apply output_boundary_inv.
  - by apply kinv_teardown.
Qed.

Lemma ti_reach_kinv s : ti_reach true s -> kinv s.
Proof.
  induction 1 as [rate delay|s s' R IH St]; [by intros k x ?%not_elem_of_nil|].
  eapply ti_step_kinv; [done|by eapply ti_reach_inv|done].
Qed.
End steps.

(** ** Who is served *)

(** A text input that the input method of a seat may write into: enabled, of
    the seat, and holding [enter] on the focused surface of its own client. *)
Definition focused_target (sc : Z -> option Z) (s : ti_state) (i : Z) (t : text_input) : Prop :=
  exists k f, k ∈ keyboards s /\ k_seat k = i /\ t_seat t = Some i /\ current_enabled t = true
    /\ entered t = Some f /\ kfocus k = Some f /\ sc f = Some (t_client t).

Lemma served_target sc W s m x :
  ti_inv sc W s -> m ∈ input_methods s -> active_ti m = Some x -> sound_seat W (im_seat m) ->
  exists t i, ti_of x s = Some t /\ im_seat m = Some i /\ focused_target sc s i t.
Proof.
  intros (B & E & V & A) Hm Ea Sd. destruct (inv_seat s B m Hm) as [(?&?&?)|(_ & i & Ei)]; [congruence|].
  destruct (V m x Hm Ea) as (t & Ht & E1 & E2 & E3 & E4); [congruence|done|].
  pose proof (A m i Hm Ei) as (k & Hk & Ek)%seat_alive_elem. exists t, i. split_and!; [|done|].
  - by apply (find_unique t_res); [apply (inv_ti s B)|..].
  - assert (Ew : entered t = wanted sc t (kfocus k)) by (apply E; first [by rewrite E2|congruence]).
    unfold wanted in Ew. destruct (kfocus k) as [f|] eqn:F; [|congruence]. case_bool_decide; [|congruence].
    exists k, f. split_and!; congruence.
Qed.

(** No seat is created at an address that a text input still points to. *)
Definition no_reuse (i : Z) : Prop := False.
Lemma no_reuse_sound seat : sound_seat no_reuse seat.
Proof. intros i _ []. Qed.

(** C39.  The text-input plane in every state a run reaches.  A live seat has
    one working input method at most, an activated one has a live seat, and a
    keyboard grab that points to a keyboard is held by the input method of that
    live seat.  For every live seat that was not created at an address which a
    text input of an earlier, released seat still pointed to ([W] has those that
    were): a text input of the seat holds [enter] on the seat's focused surface
    exactly when its own client owns it, and the input method that is activated
    serves an enabled text input that holds the focus of the same seat.  Nothing
    is said of the text inputs of a seat that is gone. *)
Theorem text_input_invariant (sc : Z -> option Z) (W : Z -> Prop) (strict : bool) (s : ti_state)
    (R : ti_reach sc W strict s) :
  (forall t k, t ∈ text_inputs s -> k ∈ keyboards s -> t_seat t = Some (k_seat k) -> ~ W (k_seat k) ->
     entered t = wanted sc t (kfocus k))
  /\ (forall m m', m ∈ input_methods s -> m' ∈ input_methods s -> inert m = false -> inert m' = false ->
        im_seat m = im_seat m' -> m = m')
  /\ (forall m, m ∈ input_methods s -> active m = true ->
        exists x i, active_ti m = Some x /\ im_seat m = Some i /\ seat_alive s i
          /\ (~ W i -> exists t, ti_of x s = Some t /\ focused_target sc s i t))
  /\ (forall g i, g ∈ im_grabs s -> g_keyboard g = Some i ->
        seat_alive s i /\ exists m, m ∈ input_methods s /\ im_seat m = Some i /\ im_grab m = Some (g_res g)).
Proof.
  pose proof (ti_reach_inv sc W strict s R) as I. destruct I as (B & E & V & A) eqn:EI. split_and!.
  - intros t k Ht Hk Es Nw. apply E; congruence.
  - intros m m' Hm Hm' D D' Es. destruct (inv_seat s B m Hm) as [(?&?&?)|(_ & i & Ei)]; [congruence|].
    apply (key_unique im_res (input_methods s)); [apply (inv_im s B)|done..|].
    apply (inv_one s B m m' i); congruence.
  - intros m Hm Ac. rewrite (inv_active s B m Hm) in Ac. apply bool_decide_eq_true in Ac as [x Ex].
    destruct (inv_seat s B m Hm) as [(?&?&?)|(_ & i & Ei)]; [congruence|].
    exists x, i. split_and!; [done|done|by eapply A|]. intros Nw.
    destruct (served_target sc W s m x I Hm Ex) as (t & j & H1 & H2 & H3); [intros j Ej; congruence|].
    exists t. split; [done|]. congruence.
  - intros g i Hg Ei. destruct (inv_kb s B g i Hg Ei) as (m & Hm & E1 & E2).
    split; [by eapply A|]. exists m. split_and!; [done..|].
    destruct (inv_owner s B g _ Hg E1) as (m2 & Hm2 & P1 & P2).
    by rewrite <- (key_unique im_res _ m2 m (inv_im s B) Hm2 Hm P1).
Qed.

Lemma events_emits es s : ti_events (foldl (fun s e => ti_emit e s) s es) = rev es ++ ti_events s.
Proof.
  revert s. induction es as [|e es IH]; intros s; [done|]. cbn [foldl]. rewrite IH. cbn.
  by rewrite <- (assoc_L (++)).
Qed.

Lemma im_of_commit r serial s m m' :
  im_of r s = Some m -> inert m = false -> im_of r (qdwin_im_req_commit r serial s) = Some m' ->
  m' = reset_pending m.
Proof.
  intros F D. unfold qdwin_im_req_commit, with_im. rewrite F, D.
  assert (X : forall s0, input_methods s0 = input_methods s ->
            im_of r (qdwin_im_reset_pending r s0) = Some m' -> m' = reset_pending m).
  { intros s0 E. unfold qdwin_im_reset_pending. rewrite (im_of_upd r reset_pending s0 m); [congruence|done|].
    unfold im_of in *. by rewrite E. }
  destruct (match active_ti m with Some x => ti_of x s | None => None end) as [t|]; [|by apply X].
  destruct (_ || _); [by apply X|]. apply X.
  generalize (composed m t). intros es. clear. revert s.
  induction es as [|e es IH]; intros s; [done|]. cbn [foldl]. by rewrite IH.
Qed.

(** C40.  Composed text stays with the focus.  In runs in which no seat takes an
    address that a text input of a gone seat points to, what an input method commits is
    sent, in the protocol's order and with the serial of the application's last
    commit, to the enabled text input on the focused surface of the seat, and
    only when the input method is not inert and names the last [done] it was
    sent; otherwise nothing is sent to anybody.  Either way its buffer is
    empty afterwards. *)
Theorem composed_text_confined (sc : Z -> option Z) (strict : bool) (s : ti_state) (r serial : Z)
    (R : ti_reach sc no_reuse strict s) :
  let s' := qdwin_im_req_commit r serial s in
  exists l, ti_events s' = rev l ++ ti_events s
    /\ (l = [] \/ exists m t i, im_of r s = Some m /\ inert m = false /\ serial = done_count m
                   /\ active_ti m = Some (t_res t) /\ im_seat m = Some i /\ focused_target sc s i t
                   /\ l = composed m t)
    /\ (forall m m', im_of r s = Some m -> inert m = false -> im_of r s' = Some m' -> m' = reset_pending m).
Proof.
  pose proof (ti_reach_inv sc no_reuse strict s R) as I. cbv zeta.
  assert (C : forall m m', im_of r s = Some m -> inert m = false ->
    im_of r (qdwin_im_req_commit r serial s) = Some m' -> m' = reset_pending m) by (intros m m'; apply im_of_commit).
  unfold qdwin_im_req_commit, with_im in *.
  destruct (im_of r s) as [m|] eqn:F; [|exists []; by split_and!; [|left|]].
  destruct (inert m) eqn:D; [exists []; by split_and!; [|left|]|].
  apply im_of_elem in F as [Hm Er].
  destruct (active_ti m) as [x|] eqn:Ea; [|exists []; by split_and!; [|left|]].
  destruct (served_target sc no_reuse s m x I Hm Ea (no_reuse_sound _)) as (t & i & Ft & Ei & T). rewrite Ft in *.
  destruct (negb (active m) || negb (current_enabled t) || negb (serial =? done_count m)) eqn:G;
    [exists []; by split_and!; [|left|]|].
  exists (composed m t). cbv zeta. split_and!; [apply events_emits| |done]. right. exists m, t, i.
  apply orb_false_iff in G as [_ G%negb_false_iff%Z.eqb_eq].
  apply (find_key t_res) in Ft as [Et _]. split_and!; try done. congruence.
Qed.

(** ** Grabs and keys *)

Lemma installed_grab_facts (sc : Z -> option Z) (W : Z -> Prop) (s : ti_state) (i x : Z) (k : keyboard)
    (R : ti_reach sc W true s) (Hk : keyboard_of i s = Some k) (Hg : k_grab k = kg_im x) :
  exists g m, grab_struct x s = Some g /\ g_keyboard g = Some i /\ g_im g = Some (im_res m)
    /\ m ∈ input_methods s /\ inert m = false /\ im_seat m = Some i /\ im_grab m = Some x.
Proof.
  pose proof (ti_reach_inv sc W true s R) as (B & _). apply (find_key k_seat) in Hk as [Ek Hk].
  destruct (ti_reach_kinv sc W s R k x Hk Hg) as (g & Hgi & R1 & R2). rewrite Ek in R2.
  destruct (inv_kb s B g i Hgi R2) as (m & Hm & E1 & E2). exists g, m. split_and!; try done.
  - by apply (find_unique g_res); [apply (inv_g s B)|..].
  - destruct (inv_seat s B m Hm) as [(?&?&?)|(?&?)]; congruence.
  - destruct (inv_owner s B g _ Hgi E1) as (m2 & Hm2 & P1 & P2).
    rewrite (key_unique im_res _ m2 m (inv_im s B) Hm2 Hm P1) in P2. congruence.
Qed.

(** While no keyboard is taken away from under an input method, the grab a
    keyboard calls through is allocated, points back to that keyboard, and
    belongs to the one working input method of the seat. *)
Theorem installed_grab_is_live (sc : Z -> option Z) (W : Z -> Prop) (s : ti_state) (i x : Z) (k : keyboard)
    (R : ti_reach sc W true s) (Hk : keyboard_of i s = Some k) (Hg : k_grab k = kg_im x) :
  exists g m, grab_struct x s = Some g /\ g_keyboard g = Some i /\ g_im g = Some (im_res m)
    /\ m ∈ input_methods s /\ inert m = false /\ im_seat m = Some i /\ im_grab m = Some x.
Proof. by apply (installed_grab_facts sc W s i x k). Qed.

Lemma deliver_in_grab (sc : Z -> option Z) i key p b k x s :
  get_keyboard i s = Some k -> k_grab k = kg_im x -> p && bool_decide (key ∈ k_keys k) = false ->
  exists s1 k1, ti_notify_key sc i key p b false s = deliver_key i key p s1
    /\ keyboard_of i s1 = Some k1 /\ k_grab k1 = kg_im x /\ k_focus k1 = k_focus k
    /\ (im_grabs s1, input_methods s1, vk_injecting_client s1, ti_locked s1, ti_events s1)
       = (im_grabs s, input_methods s, vk_injecting_client s, ti_locked s, ti_events s).
Proof.
  intros Hk Hg Hn. unfold ti_notify_key. rewrite Hk, Hn, Hg. cbv zeta. rewrite bool_decide_eq_false_2 by done.
  eexists _, (k <| k_keys ::= fun l => if p then l ++ [key] else release_key key l |>).
  split; [reflexivity|]. split; [|split_and!; [exact Hg|done..]].
  unfold get_keyboard in Hk. destruct (keyboard_of i s) as [k0|] eqn:F; [|done].
  destruct (k_present k0); [|done]. injection Hk as ->. unfold keyboard_of, upd_keyboard in *.
  etrans; [apply (find_upd_key k_seat); by intros|]. by rewrite Z.eqb_refl, F.
Qed.

Lemma deliver_key_events i key p k x g s :
  keyboard_of i s = Some k -> k_grab k = kg_im x -> grab_struct x s = Some g ->
  ti_events (deliver_key i key p s)
  = (if own_injection g s
     then if ti_locked s then [] else match k_focus k with Some f => [app_key f key p] | None => [] end
     else [grab_key_event x key p]) ++ ti_events s.
Proof.
  intros Hk Hg F. unfold deliver_key, qdwin_im_grab_key, default_grab_key. rewrite Hk, Hg, F.
  destruct (own_injection g s).
  - destruct (ti_locked s); [done|]. by destruct (k_focus k).
  - apply (find_key g_res) in F as [-> _]. done.
Qed.

(** A key has one reader while an input method holds the keyboard: a key of
    the hardware goes to the grab and to no application; a key the input method
    hands back through a virtual keyboard of its own goes to the focused
    application and not back to the grab, and to nobody while the session is
    locked; a key of another client's virtual keyboard goes to the grab. *)
Theorem ime_key_routing (sc : Z -> option Z) (W : Z -> Prop) (s : ti_state) (i x key : Z) (pressed : bool) (b : binding_effect)
    (k : keyboard) (R : ti_reach sc W true s) (Hk : get_keyboard i s = Some k) (Hg : k_grab k = kg_im x)
    (Hnew : pressed && bool_decide (key ∈ k_keys k) = false) (Hidle : vk_injecting_client s = None) :
  ti_events (ti_notify_key sc i key pressed b false s) = grab_key_event x key pressed :: ti_events s
  /\ exists m, m ∈ input_methods s /\ im_seat m = Some i /\ im_grab m = Some x
     /\ forall r v, vk_of r s = Some v -> has_keymap v = true -> vk_seat v = Some i ->
        ti_events (qdwin_vk_req_key sc r key (if pressed then 1 else 0) b false s)
        = (if vk_client v =? im_client m
           then if ti_locked s then []
                else match k_focus k with Some f => [app_key f key pressed] | None => [] end
           else [grab_key_event x key pressed]) ++ ti_events s.
Proof.
  assert (Hk' : keyboard_of i s = Some k).
  { unfold get_keyboard in Hk. destruct (keyboard_of i s) as [k0|]; [|done]. by destruct (k_present k0). }
  destruct (installed_grab_facts sc W s i x k R Hk' Hg) as (g & m & F & _ & Gi & Hm & _ & Em & Gm).
  assert (Fm : im_of (im_res m) s = Some m)
    by (by apply (find_unique im_res); [apply (inv_im s (proj1 (ti_reach_inv sc W true s R)))|..]).
  split.
  - destruct (deliver_in_grab sc i key pressed b k x s Hk Hg Hnew) as (s1 & k1 & -> & H1 & H2 & H3 & E).
    injection E as E1 E2 E3 E4 E5. rewrite (deliver_key_events i key pressed k1 x g s1); [|done..|].
    + unfold own_injection. by rewrite E3, Hidle, E5.
    + unfold grab_struct in *. by rewrite E1.
  - exists m. split_and!; [done..|]. intros r v Fv Hv Sv. unfold qdwin_vk_req_key. rewrite Fv, Hv, Sv, Hk.
    cbn [negb]. assert (P : negb ((if pressed then 1 else 0) =? 0) = pressed) by (by destruct pressed).
    rewrite P. unfold injecting. cbv zeta. set (s0 := s <| vk_injecting_client := Some (vk_client v) |>).
    change (ti_events (ti_notify_key sc i key pressed b false s0) = (if vk_client v =? im_client m
      then if ti_locked s then [] else match k_focus k with Some f => [app_key f key pressed] | None => [] end
      else [grab_key_event x key pressed]) ++ ti_events s).
    destruct (deliver_in_grab sc i key pressed b k x s0 Hk Hg Hnew) as (s1 & k1 & -> & H1 & H2 & H3 & E).
    injection E as E1 E2 E3 E4 E5. rewrite (deliver_key_events i key pressed k1 x g s1); [|done..|].
    + unfold own_injection, im_of in *. rewrite E3, Gi, E2, E4, E5, H3. cbn. by rewrite Fm.
    + unfold grab_struct in *. by rewrite E1.
Qed.

(** ** The bind gate *)

(** The input-method and virtual-keyboard managers come into being for the
    permitted user only, never for a client of a security context; when an
    executable or a label is pinned, only for a process that has it and whose
    pid named one live process across the reads.  Everyone else gets an error
    and no manager. *)
Theorem ime_gate (kind : manager_kind) (before during after : procfs) (x : secctx_state) (p : ime_policy)
    (client pid uid id : Z) (oom : bool) (s : ti_state) :
  let s' := bind_ime_manager kind before during after x p client pid uid id oom s in
  (managers s' = managers s /\ (s' = ti_emit (ti_implementation_error client) s \/ s' = ti_emit (ti_no_memory client) s))
  \/ (managers s' = (kind, id) :: managers s
      /\ qdwin_secctx_client_find client x = None /\ uid = ime_uid p
      /\ (forall e, allowed_ime_exe p = Some e -> qdwin_proc_exe pid during = e)
      /\ (forall l, allowed_ime_label p = Some l -> qdwin_proc_selinux_label pid during = l)
      /\ (allowed_ime_exe p = None /\ allowed_ime_label p = None
          \/ (qdwin_proc_starttime pid before = qdwin_proc_starttime pid after
              /\ qdwin_proc_starttime pid before <> 0))).
Proof.
  cbv zeta. unfold bind_ime_manager. destruct (qdwin_ime_family_bind_allowed _ _ _ _ _ _ _ _) eqn:G; cbn [negb].
  - destruct oom; [by left; split; [|right]|]. right. split; [done|]. unfold qdwin_ime_family_bind_allowed in G.
    destruct (qdwin_secctx_client_find client x); [done|]. apply andb_true_iff in G as [G1%Z.eqb_eq G2].
    split; [done|]. split; [done|]. unfold ime_identity_ok, matches_pin in G2.
    destruct (allowed_ime_exe p) as [e|], (allowed_ime_label p) as [l|]; zbool.
    all: repeat match goal with H : String.eqb _ _ = true |- _ => apply String.eqb_eq in H end.
    all: split_and!; [intros ? [=]; congruence..|]; first [by left; split | right; split; congruence].
  - left. split; [done|]. by left.
Qed.

(** ** A session *)

Definition ex_owner (f : Z) : option Z := if f =? 100 then Some 7 else if f =? 200 then Some 8 else None.
Definition ex_ime_policy : ime_policy := mk_ime_policy UINT32_MAX 1000 None None.
Definition ex_no_contexts : secctx_state := mk_secctx_state [] [] 1 [].
Definition ex_bind (kind : manager_kind) (id : Z) : ti_state -> ti_state :=
  bind_ime_manager kind ex_procfs ex_procfs ex_procfs ex_no_contexts ex_ime_policy 9 42 1000 id false.

(** An application with a focused and enabled field, an input method, and a
    virtual keyboard of the latter. *)
Definition ex_typing : ti_state :=
  ti_start 25 600 ~> ti_seat_created 1 ~> ti_keyboard_added 1
    ~> bind_qdwin_text_input_manager 7 10 false
    ~> ex_bind input_method_manager 11 ~> ex_bind virtual_keyboard_manager 12
    ~> qdwin_text_input_manager_get_text_input ex_owner 7 10 20 (Some 1) false
    ~> keyboard_set_focus ex_owner 1 (Some 100)
    ~> qdwin_text_input_enable 20 ~> qdwin_text_input_commit 20
    ~> qdwin_im_manager_get_input_method 9 11 30 (Some 1) false false
    ~> qdwin_vk_manager_create_virtual_keyboard 9 12 50 (Some 1) false false
    ~> qdwin_vk_req_keymap 50 KEYMAP_FORMAT_XKB_V1 (-1)
    ~> qdwin_im_req_commit_string 30 (Some "ka").

(** The input method has taken the keyboard as well. *)
Definition ex_grabbed : ti_state := qdwin_im_req_grab_keyboard 9 30 40 false false ex_typing.

Ltac absent := vm_compute; intros H; repeat (inversion H as [|? ? ? H']; clear H; rename H' into H).

Lemma ex_typing_reach b : ti_reach ex_owner no_reuse b ex_typing.
Proof.
  pose proof (tr_start ex_owner no_reuse b 25 600) as R.
  eapply tr_step in R; [|apply (st_seat_created _ _ _ 1); [absent|right; intros t H; inversion H]].
  eapply tr_step in R; [|apply (st_keyboard_added _ _ _ 1)].
  eapply tr_step in R; [|apply (st_bind_text _ _ _ 7 10 false)].
  eapply tr_step in R; [|apply (st_bind_ime _ _ _ input_method_manager ex_procfs ex_procfs ex_procfs
                            ex_no_contexts ex_ime_policy 9 42 1000 11 false)].
  eapply tr_step in R; [|apply (st_bind_ime _ _ _ virtual_keyboard_manager ex_procfs ex_procfs ex_procfs
                            ex_no_contexts ex_ime_policy 9 42 1000 12 false)].
  eapply tr_step in R; [|apply (st_get_text_input _ _ _ 7 10 20 (Some 1) false); absent].
  eapply tr_step in R; [|eapply (st_set_focus _ _ _ 1 (Some 100)); vm_compute; reflexivity].
  eapply tr_step in R; [|apply (st_enable _ _ _ 20)].
  eapply tr_step in R; [|apply (st_ti_commit _ _ _ 20)].
  eapply tr_step in R; [|apply (st_get_input_method _ _ _ 9 11 30 (Some 1) false false); absent].
  eapply tr_step in R; [|apply (st_vk_create _ _ _ 9 12 50 (Some 1) false false)].
  eapply tr_step in R; [|apply (st_vk_keymap _ _ _ 50 KEYMAP_FORMAT_XKB_V1 (-1))].
  eapply tr_step in R; [|apply (st_commit_string _ _ _ 30 (Some "ka"))].
  exact R.
Qed.

Lemma ex_grabbed_reach b : ti_reach ex_owner no_reuse b ex_grabbed.
Proof.
  eapply tr_step; [apply (ex_typing_reach b)|]. apply st_grab_keyboard. absent.
Qed.

Lemma text_input_invariant_witness :
  (active <$> im_of 30 ex_typing) = Some true
  /\ exists x t i, ti_of x ex_typing = Some t /\ focused_target ex_owner ex_typing i t.
Proof.
  split; [vm_compute; reflexivity|].
  destruct (text_input_invariant ex_owner no_reuse true ex_typing (ex_typing_reach true)) as (_ & _ & H & _).
  destruct (H (List.hd (new_input_method 0 0 None true) (input_methods ex_typing))) as (x & i & _ & _ & _ & F).
  - vm_compute. left.
  - vm_compute. reflexivity.
  - destruct F as (t & E & F); [by intros []|]. exists x, t, i. split; [exact E|exact F].
Defined.

Lemma composed_text_confined_witness :
  exists l, ti_events (qdwin_im_req_commit 30 1 ex_typing) = rev l ++ ti_events ex_typing
    /\ l = [ti_commit_string 20 "ka"; ti_preedit 20 "" 0 0; ti_done 20 1].
Proof.
  destruct (composed_text_confined ex_owner true ex_typing 30 1 (ex_typing_reach true))
    as (l & E & [->|(m & t & i & Em & _ & _ & Ea & _ & _ & El)] & _).
  - exfalso. vm_compute in E. discriminate E.
  - exists l. split; [exact E|].
    assert (H : rev l ++ ti_events ex_typing
      = rev [ti_commit_string 20 "ka"; ti_preedit 20 "" 0 0; ti_done 20 1] ++ ti_events ex_typing).
    { rewrite <- E. vm_compute. reflexivity. }
    apply app_inv_tail in H. apply (f_equal (@rev ti_event)) in H. rewrite !rev_involutive in H. exact H.
Defined.

Lemma installed_grab_is_live_witness :
  exists g m, grab_struct 40 ex_grabbed = Some g /\ g_im g = Some (im_res m) /\ m ∈ input_methods ex_grabbed.
Proof.
  destruct (installed_grab_is_live ex_owner no_reuse ex_grabbed 1 40 (mk_keyboard 1 true (Some 100) (kg_im 40) [])
    (ex_grabbed_reach true)) as (g & m & E1 & _ & E2 & E3 & _); [vm_compute; reflexivity|reflexivity|].
  exists g, m. split; [exact E1|split; [exact E2|exact E3]].
Defined.

Lemma ime_key_routing_witness :
  ti_events (ti_notify_key ex_owner 1 30 true no_binding false ex_grabbed)
  = grab_key_event 40 30 true :: ti_events ex_grabbed
  /\ ti_events (qdwin_vk_req_key ex_owner 50 30 1 no_binding false ex_grabbed)
     = app_key 100 30 true :: ti_events ex_grabbed.
Proof.
  destruct (ime_key_routing ex_owner no_reuse ex_grabbed 1 40 30 true no_binding
    (mk_keyboard 1 true (Some 100) (kg_im 40) []) (ex_grabbed_reach true)) as [H (m & Hm & _ & _ & Hv)];
    [vm_compute; reflexivity|reflexivity|vm_compute; reflexivity|vm_compute; reflexivity|].
  split; [exact H|]. rewrite (Hv 50 (mk_vk 50 9 (Some 1) true) ltac:(vm_compute; reflexivity) eq_refl eq_refl).
  vm_compute in Hm. inversion Hm as [? ? E|? ? ? Hm' E]; subst; [vm_compute; reflexivity|inversion Hm'].
Defined.

(** A keyboard that is unplugged under a grab: the cancellation forgets the
    keyboard but leaves the grab installed, releasing the grab then frees it in
    place, and the next key of the keyboard that comes back is sent through
    freed memory. *)
Example cancelled_ime_grab_dangles :
  let s := ex_grabbed ~> ti_keyboard_released ex_owner 1 true ~> qdwin_im_grab_resource_destroy 40
                      ~> ti_keyboard_added 1 in
  (k_grab <$> keyboard_of 1 s) = Some (kg_im 40) /\ grab_struct 40 s = None
  /\ ti_events (ti_notify_key ex_owner 1 30 true no_binding false s) = grab_use_after_free 40 :: ti_events s.
Proof. vm_compute. done. Qed.

(** A text input keeps the address of its seat when the seat goes, and the
    surface it had entered.  When a new seat gets that address, the input method
    of the new seat is activated for the text input of the old one, although
    nothing has the focus there, and what is composed goes to it. *)
Example reused_seat_serves_stale :
  let s := ex_typing ~> ti_seat_released 1 ~> ti_seat_created 1
                     ~> qdwin_im_manager_get_input_method 9 11 31 (Some 1) false false in
  (active_ti <$> im_of 31 s) = Some (Some 20) /\ (entered <$> ti_of 20 s) = Some (Some 100)
  /\ (k_focus <$> keyboard_of 1 s) = Some None
  /\ ti_commit_string 20 "ka" ∈ ti_events (qdwin_im_req_commit 31 1
       (qdwin_im_req_commit_string 31 (Some "ka") s)).
Proof.
  vm_compute. split_and!; try reflexivity. right. right. left.
Qed.

(** An input method that asks for the keyboard while the lock screen holds it
    gets it: the keys typed into the lock screen go to the input method. *)
Example grab_takes_locked_keyboard :
  let s := ex_typing ~> (fun s => s <| ti_locked := true |>) ~> kb_start_grab 1 kg_other
                     ~> qdwin_im_req_grab_keyboard 9 30 40 false false in
  ti_locked s = true
  /\ ti_events (ti_notify_key ex_owner 1 30 true no_binding false s) = grab_key_event 40 30 true :: ti_events s.
Proof. vm_compute. done. Qed.

(** The served text input goes while another enabled one of the same client
    holds the focus: the input method is deactivated and stays so until the
    next commit or focus change. *)
Example survivor_not_served :
  let s := ex_typing ~> qdwin_text_input_manager_get_text_input ex_owner 7 10 21 (Some 1) false
                     ~> qdwin_text_input_enable 21 ~> qdwin_text_input_commit 21
                     ~> qdwin_text_input_resource_destroy 21 in
  (active_ti <$> im_of 30 s) = Some None /\ (t_res <$> qdwin_im_active_candidate (Some 1) s) = Some 20.
Proof. vm_compute. done. Qed.
