(* ===== verification/Streams.v ===== *)
(** * Streams: exported views, their forwarder and their input channel

    [subscribe_view_stream] and [qdwin_stream_input_v1] of [qdwin.c]: a window
    is pinned to a PipeWire output, a forwarder process is started with two
    secrets, watched through a pidfd, and may claim the input channel once with
    the token; every end of a stream takes all of it back.  The kernel side is
    the processes and descriptors this plugin sees.  (Where the injected events
    go is the matter of the pointer and keyboard models.) *)

From Stdlib Require Import Ascii String.
From stdpp Require Import base list gmap strings option.
From S2P Require Import Prelude Logic State Procfs.
From stdpp Require Import list.
#[local] Open Scope Z_scope.

(** ** Secrets *)

(** What one call of [getrandom] gives. *)
Inductive getrandom_result := got (bytes : list Z) | interrupted | failed.

(** [results] are the answers of the successive calls; the loop gives up at the
    64th interruption or empty answer.  [None] is the error return. *)
Fixpoint qdwin_getrandom_full (results : list getrandom_result) (n : nat) (off : list Z) (tries : nat)
    : option (list Z) :=
  if (n <=? length off)%nat then Some off
  else match results with
  | [] => None
  | got [] :: rest => if (64 <=? S tries)%nat then None else qdwin_getrandom_full rest n off (S tries)
  | got bytes :: rest => qdwin_getrandom_full rest n (off ++ bytes) tries
  | interrupted :: rest => if (S tries <? 64)%nat then qdwin_getrandom_full rest n off (S tries) else None
  | failed :: _ => None
  end.

Definition hex_digit (d : Z) : ascii :=
  nth (Z.to_nat d) (list_ascii_of_string "0123456789abcdef") Ascii.zero.

Fixpoint hex_bytes (l : list Z) : string :=
  match l with
  | [] => ""
  | b :: l => String (hex_digit (Z.shiftr b 4)) (String (hex_digit (Z.land b 15)) (hex_bytes l))
  end.

(** [out_len] is the size of the buffer with its terminator. *)
Definition qdwin_hex_token (results : list getrandom_result) (out_len n_bytes : nat) : option string :=
  let n := Nat.min n_bytes 32 in
  match qdwin_getrandom_full results n [] 0 with
  | None => None
  | Some buf => Some (hex_bytes (firstn (Nat.min ((out_len - 1) / 2) n) buf))
  end.

(** One [write] of the secret. *)
Inductive write_result := wrote (n : nat) | write_interrupted | write_failed.

(** The bytes that went out, and whether all of them did. *)
Fixpoint qdwin_forward_write_secret (results : list write_result) (secret : string) : string * bool :=
  match secret with
  | "" => ("", true)
  | _ =>
      match results with
      | [] | write_failed :: _ => ("", false)
      | write_interrupted :: rest => qdwin_forward_write_secret rest secret
      | wrote n :: rest =>
          let '(out, ok) := qdwin_forward_write_secret rest (substring n (String.length secret - n) secret) in
          ((substring 0 n secret ++ out)%string, ok)
      end
  end.

(** ** The forwarder's executable *)

Definition qdwin_forward_bin_is_trusted (lstat : string -> option file_stat) (path : string) : bool :=
  match lstat path with
  | None => false
  | Some st => st_is_reg st && (st_uid st =? 0) && negb (has_bits (st_mode st) (Z.lor S_IWGRP S_IWOTH))
  end.

Definition qdwin_forward_bin_path (lstat : string -> option file_stat) (env : option string) : string :=
  match env with
  | Some e => if negb (String.eqb e "") && qdwin_forward_bin_is_trusted lstat e then e
              else "/usr/bin/qdistro-forward"
  | None => "/usr/bin/qdistro-forward"
  end.

Definition qdwin_forward_wayland_display (env : option string) : string :=
  match env with Some e => if String.eqb e "" then "wayland-0" else e | None => "wayland-0" end.

(** ** State *)

(** [struct qdwin_view_stream]; [x_watch] is the event source on the pidfd,
    [x_confined] the confinement grab of the stream's own seat, and the last two
    the windows its pointer and keyboard are on. *)
Record xstream := mk_xstream {
  x_res : Z; x_tl : option Z; x_handle : Z; x_listed : bool; x_released : bool; x_torn : bool;
  x_output : option Z; x_prev_output : option Z; x_prev_pos : Z * Z; x_pinned : bool;
  x_forward_pid : Z; x_pidfd : Z; x_watch : bool; x_port : Z; x_token : string; x_password : string;
  x_claimed : bool; x_allow_input : bool; x_input_handle : option Z; x_seat : bool; x_confined : bool;
  x_ptr_focus : option Z; x_kbd_focus : option Z
}.
#[global] Instance eta_xstream : Eta xstream := fun r =>
  mk_xstream (x_res r) (x_tl r) (x_handle r) (x_listed r) (x_released r) (x_torn r) (x_output r)
    (x_prev_output r) (x_prev_pos r) (x_pinned r) (x_forward_pid r) (x_pidfd r) (x_watch r) (x_port r)
    (x_token r) (x_password r) (x_claimed r) (x_allow_input r) (x_input_handle r) (x_seat r) (x_confined r)
    (x_ptr_focus r) (x_kbd_focus r).

(** A window with its content view, if it has one: where the view is, the
    output it is on, and the outputs of the chrome views. *)
Record xwindow := mk_xwindow {
  xw_handle : Z; xw_view : option ((Z * Z) * option Z); xw_chrome : list (option Z); xw_pending : bool
}.
#[global] Instance eta_xwindow : Eta xwindow := fun r =>
  mk_xwindow (xw_handle r) (xw_view r) (xw_chrome r) (xw_pending r).

Record xoutput := mk_xoutput { xo_id : Z; xo_name : string; xo_pos : Z * Z }.

(** A process: [pr_id] is the process, [pr_pid] the number it goes by, which
    another process may get once this one is reaped. *)
Inductive proc_state := running | zombie | gone.
#[global] Instance proc_state_eq_dec : EqDecision proc_state.
Proof. solve_decision. Defined.
Record process := mk_process { pr_id : Z; pr_pid : Z; pr_state : proc_state; pr_child : bool }.
#[global] Instance eta_process : Eta process := fun r =>
  mk_process (pr_id r) (pr_pid r) (pr_state r) (pr_child r).

Inductive stream_error := NOT_BOUND | INVALID_HANDLE | INVALID_TOKEN | ALREADY_CLAIMED.

Inductive xevent :=
| x_approved (s port : Z) (password : string) | x_denied (s : Z) (reason : string)
| x_torn_down (s : Z) (reason : string) | x_error (r : Z) (e : stream_error) | x_no_memory (client : Z)
| x_forked (p : Z) | x_sigterm (p : Z) | x_exec (p : Z) (bin : string) | x_secret (p : Z) (text : string)
| x_claim_ok (s handle pid : Z) | x_handle_destroyed (handle : Z)
| x_motion (s : Z) | x_button (s button : Z) (pressed : bool) | x_axis (s axis : Z)
| x_key (s key : Z) (pressed : bool) | x_repaint (output : Z).

Record xworld := mk_xworld {
  xstreams : list xstream; xwindows : list xwindow; xoutputs : list xoutput; x_locked : bool;
  next_stream_port : Z; processes : list process;
  open_fds : list Z; pidfds : list (Z * Z); next_fd : Z; used : list Z; xevents : list xevent
}.
#[global] Instance eta_xworld : Eta xworld := fun r =>
  mk_xworld (xstreams r) (xwindows r) (xoutputs r) (x_locked r) (next_stream_port r) (processes r)
    (open_fds r) (pidfds r) (next_fd r) (used r) (xevents r).

Definition xemit (e : xevent) (w : xworld) : xworld := w <| xevents ::= cons e |>.
Definition xstream_of (r : Z) (w : xworld) : option xstream :=
  List.find (fun s => x_res s =? r) (xstreams w).
Definition upd_x (r : Z) (f : xstream -> xstream) (w : xworld) : xworld :=
  w <| xstreams ::= map (fun s => if x_res s =? r then f s else s) |>.
Definition window_of (h : Z) (w : xworld) : option xwindow :=
  List.find (fun x => xw_handle x =? h) (xwindows w).
Definition upd_window (h : Z) (f : xwindow -> xwindow) (w : xworld) : xworld :=
  w <| xwindows ::= map (fun x => if xw_handle x =? h then f x else x) |>.
Definition xoutput_of (o : Z) (w : xworld) : option xoutput :=
  List.find (fun x => xo_id x =? o) (xoutputs w).
(** [qdwin->view_streams]. *)
Definition active_streams (w : xworld) : list xstream := List.filter x_listed (xstreams w).

(** ** Outputs and pinning *)

Definition is_pipewire (o : xoutput) : bool := String.prefix "pipewire" (xo_name o).

Definition qdwin_output_has_stream (o : Z) (w : xworld) : bool :=
  existsb (fun s => bool_decide (x_output s = Some o)) (active_streams w).
Definition qdwin_find_free_pipewire_output (w : xworld) : option xoutput :=
  List.find (fun o => is_pipewire o && negb (qdwin_output_has_stream (xo_id o) w)) (xoutputs w).
Definition qdwin_find_non_pipewire_output (w : xworld) : option xoutput :=
  List.find (fun o => negb (is_pipewire o)) (xoutputs w).

(** The views of the window go to an output and a place. *)
Definition place_window (h : Z) (pos : Z * Z) (target : option Z) : xworld -> xworld :=
  upd_window h (fun x =>
    x <| xw_view ::= option_map (fun v => (pos, match target with Some o => Some o | None => snd v end)) |>
      <| xw_chrome ::= map (fun c => match target with Some o => Some o | None => c end) |>).

Definition qdwin_view_stream_pin (r : Z) (w : xworld) : xworld :=
  match xstream_of r w with
  | Some s =>
      match x_tl s, x_output s with
      | Some h, Some o =>
          match window_of h w, xoutput_of o w with
          | Some x, Some out =>
              match xw_view x with
              | Some (pos, cur) =>
                  if xw_pending x then w
                  else w ~> upd_x r (fun s => s <| x_prev_pos := pos |> <| x_prev_output := cur |>)
                         ~> place_window h (fst (xo_pos out) + 32, snd (xo_pos out) + 32) (Some o)
                         ~> xemit (x_repaint o)
                         ~> upd_x r (fun s => s <| x_pinned := true |>)
              | None => w
              end
          | _, _ => w
          end
      | _, _ => w
      end
  | None => w
  end.

Definition xstream_unpin (r : Z) (w : xworld) : xworld :=
  match xstream_of r w with
  | Some s =>
      if negb (x_pinned s) then w
      else
        let w := upd_x r (fun s => s <| x_pinned := false |>) w in
        match x_tl s with
        | Some h =>
            match window_of h w with
            | Some x =>
                match xw_view x with
                | Some _ =>
                    let target := match x_prev_output s with
                                  | Some o => Some o
                                  | None => xo_id <$> qdwin_find_non_pipewire_output w
                                  end in
                    w ~> place_window h (x_prev_pos s) target
                      ~> (fun w => match target with Some o => xemit (x_repaint o) w | None => w end)
                | None => w
                end
            | None => w
            end
        | None => w
        end
  | None => w
  end.

(** ** Descriptors and processes *)

Definition open_fd (w : xworld) : Z * xworld :=
  (next_fd w, w <| open_fds ::= cons (next_fd w) |> <| next_fd ::= Z.succ |>).
Definition close_descriptor (fd : Z) (w : xworld) : xworld :=
  w <| open_fds ::= List.filter (fun x => negb (x =? fd)) |>
    <| pidfds ::= List.filter (fun x => negb (fst x =? fd)) |>.

(** The process a number stands for now. *)
Definition process_by_pid (pid : Z) (w : xworld) : option process :=
  List.find (fun p => (pr_pid p =? pid) && negb (bool_decide (pr_state p = gone))) (processes w).
Definition process_of (i : Z) (w : xworld) : option process :=
  List.find (fun p => pr_id p =? i) (processes w).
Definition upd_process (i : Z) (f : process -> process) (w : xworld) : xworld :=
  w <| processes ::= map (fun p => if pr_id p =? i then f p else p) |>.

(** [kill(pid, SIGTERM)] and [pidfd_send_signal(fd, SIGTERM)]. *)
Definition kill_sigterm (pid : Z) (w : xworld) : xworld :=
  match process_by_pid pid w with Some p => xemit (x_sigterm (pr_id p)) w | None => w end.
Definition pidfd_of (fd : Z) (w : xworld) : option Z :=
  snd <$> List.find (fun x => fst x =? fd) (pidfds w).
Definition qdwin_pidfd_send_signal (fd : Z) (w : xworld) : xworld :=
  match pidfd_of fd w with
  | Some i => match process_of i w with
              | Some p => if bool_decide (pr_state p = gone) then w else xemit (x_sigterm i) w
              | None => w
              end
  | None => w
  end.

(** [waitpid(pid, NULL, WNOHANG)]: reaps the child when it has exited. *)
Definition waitpid_nohang (pid : Z) (w : xworld) : xworld :=
  match process_by_pid pid w with
  | Some p => if pr_child p && bool_decide (pr_state p = zombie)
              then upd_process (pr_id p) (fun p => p <| pr_state := gone |>) w else w
  | None => w
  end.

(** ** The forwarder *)

Definition qdwin_view_stream_disarm_pidfd (r : Z) (w : xworld) : xworld :=
  match xstream_of r w with
  | Some s =>
      w ~> upd_x r (fun s => s <| x_watch := false |> <| x_pidfd := -1 |>)
        ~> (fun w => if 0 <=? x_pidfd s then close_descriptor (x_pidfd s) w else w)
  | None => w
  end.

Definition qdwin_view_stream_reap_forward (r : Z) (w : xworld) : xworld :=
  match xstream_of r w with
  | Some s =>
      if x_forward_pid s <=? 0 then qdwin_view_stream_disarm_pidfd r w
      else
        w ~> (fun w => if 0 <=? x_pidfd s then qdwin_pidfd_send_signal (x_pidfd s) w else w)
          ~> qdwin_view_stream_disarm_pidfd r
          ~> waitpid_nohang (x_forward_pid s)
          ~> upd_x r (fun s => s <| x_forward_pid := 0 |>)
  | None => w
  end.

(** What the kernel and the allocator answer during a spawn; [fk_child] is the
    new process and its number. *)
Record spawn_env := mk_spawn_env {
  fk_pipe1 : bool; fk_pipe2 : bool; fk_child : option (Z * Z); fk_bin : string;
  fk_write1 : list write_result; fk_write2 : list write_result;
  fk_pidfd : bool; fk_probe : bool; fk_source : bool
}.

Definition close_pair (p : Z * Z) (w : xworld) : xworld :=
  w ~> close_descriptor (fst p) ~> close_descriptor (snd p).
Definition make_pipe (w : xworld) : (Z * Z) * xworld :=
  let '(a, w) := open_fd w in let '(b, w) := open_fd w in ((a, b), w).

(** The child cannot be watched: it is signalled, [by] number or pidfd, and
    forgotten. *)
Definition abandon_child (r pid : Z) (w : xworld) : xworld :=
  w ~> waitpid_nohang pid ~> upd_x r (fun s => s <| x_forward_pid := 0 |>).

Definition watch_child (e : spawn_env) (r i pid : Z) (w : xworld) : xworld * bool :=
  let w := upd_x r (fun s => s <| x_forward_pid := pid |>) w in
  if negb (fk_pidfd e) then (w ~> kill_sigterm pid ~> abandon_child r pid, false)
  else
    let '(fd, w) := open_fd w in
    let w := w <| pidfds ::= cons (fd, i) |> in
    if negb (fk_probe e)
    then (w ~> kill_sigterm pid ~> close_descriptor fd ~> abandon_child r pid, false)
    else if negb (fk_source e)
    then (w ~> qdwin_pidfd_send_signal fd ~> close_descriptor fd ~> abandon_child r pid, false)
    else (upd_x r (fun s => s <| x_pidfd := fd |> <| x_watch := true |>) w, true).

Definition qdwin_view_stream_spawn_forward (e : spawn_env) (r : Z) (w : xworld) : xworld * bool :=
  match xstream_of r w with
  | None => (w, false)
  | Some s =>
      if negb (fk_pipe1 e) then (w, false)
      else
        let '(token_pipe, w) := make_pipe w in
        if negb (fk_pipe2 e) then (close_pair token_pipe w, false)
        else
          let '(password_pipe, w) := make_pipe w in
          match fk_child e with
          | None => (w ~> close_pair token_pipe ~> close_pair password_pipe, false)
          | Some (i, pid) =>
              let w := w ~> (fun w => w <| processes ::= cons (mk_process i pid running true) |>)
                         ~> xemit (x_forked i) ~> xemit (x_exec i (fk_bin e)) in
              let '(out1, ok1) := qdwin_forward_write_secret (fk_write1 e) (x_token s) in
              let '(out2, ok2) := qdwin_forward_write_secret (fk_write2 e) (x_password s) in
              let w := w ~> xemit (x_secret i out1) ~> xemit (x_secret i out2)
                         ~> close_pair token_pipe ~> close_pair password_pipe in
              if negb (ok1 && ok2) then (w ~> kill_sigterm pid ~> waitpid_nohang pid, false)
              else watch_child e r i pid w
          end
  end.

(** ** The stream's seat *)

Definition stream_confine_end (r : Z) : xworld -> xworld := upd_x r (fun s => s <| x_confined := false |>).
(** [ptr] tells whether the seat has a pointer. *)
Definition stream_confine_start (r : Z) (ptr : bool) (w : xworld) : xworld :=
  match xstream_of r w with
  | Some s => if x_confined s || negb (x_seat s) then w
              else if ptr then upd_x r (fun s => s <| x_confined := true |>) w else w
  | None => w
  end.
Definition qdwin_stream_seat_init (r : Z) : xworld -> xworld := upd_x r (fun s => s <| x_seat := true |>).
Definition qdwin_stream_seat_release (r : Z) (w : xworld) : xworld :=
  match xstream_of r w with
  | Some s => if negb (x_seat s) then w
              else w ~> stream_confine_end r
                     ~> upd_x r (fun s => s <| x_seat := false |> <| x_ptr_focus := None |> <| x_kbd_focus := None |>)
  | None => w
  end.

(** ** The end of a stream *)

Definition revoke_handle (r : Z) (w : xworld) : xworld :=
  match xstream_of r w with
  | Some s => match x_input_handle s with
              | Some h => w ~> upd_x r (fun s => s <| x_input_handle := None |> <| x_claimed := false |>)
                            ~> xemit (x_handle_destroyed h)
              | None => w
              end
  | None => w
  end.

Definition erase (s : xstream) : xstream :=
  s <| x_token := "" |> <| x_password := "" |> <| x_claimed := false |> <| x_allow_input := false |>
    <| x_tl := None |> <| x_output := None |> <| x_prev_output := None |> <| x_port := 0 |>.

Definition xstream_release_server_state (r : Z) (w : xworld) : xworld :=
  match xstream_of r w with
  | Some s =>
      if x_released s then w
      else w ~> upd_x r (fun s => s <| x_released := true |>)
             ~> revoke_handle r
             ~> qdwin_view_stream_reap_forward r
             ~> xstream_unpin r
             ~> qdwin_stream_seat_release r
             ~> upd_x r (fun s => s <| x_listed := false |>)
             ~> upd_x r erase
  | None => w
  end.

Definition xstream_terminate (reason : string) (r : Z) (w : xworld) : xworld :=
  match xstream_of r w with
  | Some s =>
      w ~> (fun w => if negb (x_torn s)
                     then w ~> upd_x r (fun s => s <| x_torn := true |>) ~> xemit (x_torn_down r reason)
                     else w)
        ~> xstream_release_server_state r
  | None => w
  end.

Definition terminate_all (sel : xstream -> bool) (reason : string) (w : xworld) : xworld :=
  foldl (fun w s => xstream_terminate reason (x_res s) w) w (List.filter sel (active_streams w)).

Definition xstream_resource_destroyed (r : Z) (w : xworld) : xworld :=
  match xstream_of r w with
  | Some _ => w ~> xstream_release_server_state r
                ~> (fun w => w <| xstreams ::= List.filter (fun s => negb (x_res s =? r)) |>)
  | None => w
  end.

Definition qdwin_forward_pidfd_ready (r : Z) (w : xworld) : xworld :=
  w ~> qdwin_view_stream_disarm_pidfd r
    ~> upd_x r (fun s => s <| x_forward_pid := 0 |>)
    ~> xstream_terminate "forward exited" r.

(** The streams of a window that goes, all of them when the session locks, and
    the confinement when an output is lost. *)
Definition window_removed (h : Z) (w : xworld) : xworld :=
  w ~> terminate_all (fun s => bool_decide (x_tl s = Some h)) "source toplevel closed"
    ~> (fun w => w <| xwindows ::= List.filter (fun x => negb (xw_handle x =? h)) |>).
Definition xlock (w : xworld) : xworld :=
  w ~> (fun w => w <| x_locked := true |>) ~> terminate_all (fun _ => true) "compositor locked".
Definition xunlock (w : xworld) : xworld := w <| x_locked := false |>.
(** The part of the output boundary that is about streams, and libweston's
    removal of the output itself. *)
Definition output_boundary_streams (removed : Z) (survivor : option Z) (w : xworld) : xworld :=
  w ~> (fun w => w <| xstreams ::= map (fun s => if x_listed s then s <| x_confined := false |> else s) |>)
    ~> (fun w => w <| xstreams ::= map (fun s => if x_listed s && bool_decide (x_prev_output s = Some removed)
                                                 then s <| x_prev_output := survivor |> else s) |>).
Definition output_removed (removed : Z) (survivor : option Z) (w : xworld) : xworld :=
  w ~> output_boundary_streams removed survivor
    ~> (fun w => w <| xoutputs ::= List.filter (fun o => negb (xo_id o =? removed)) |>).

(** ** Subscription *)

(** The answers of the allocator, the random source and the kernel. *)
Record sub_env := mk_sub_env {
  sb_res_oom : bool; sb_oom : bool; sb_random1 : list getrandom_result; sb_random2 : list getrandom_result;
  sb_spawn : spawn_env
}.

Definition new_xstream (id h o : Z) (allow : bool) : xstream :=
  mk_xstream id (Some h) h true false false (Some o) None (0, 0) false 0 (-1) false 0 "" "" false allow None
    false false None None.

(** A stream that was denied goes with its resource. *)
Definition deny_and_destroy (r : Z) (reason : string) (w : xworld) : xworld :=
  w ~> xemit (x_denied r reason) ~> xstream_resource_destroyed r.

Definition start_stream (e : sub_env) (r : Z) (w : xworld) : xworld :=
  let port := next_stream_port w in
  let w := w ~> upd_x r (fun s => s <| x_port := port |>) ~> (fun w => w <| next_stream_port ::= u32_succ |>) in
  match qdwin_hex_token (sb_random1 e) 33 16, qdwin_hex_token (sb_random2 e) 17 8 with
  | Some token, Some password =>
      let w := w ~> upd_x r (fun s => s <| x_token := token |> <| x_password := password |>)
                 ~> qdwin_stream_seat_init r in
      let '(w, ok) := qdwin_view_stream_spawn_forward (sb_spawn e) r w in
      if ok then xemit (x_approved r port password) w
      else deny_and_destroy r "failed to start qdistro-forward" w
  | _, _ => deny_and_destroy r "kernel random source unavailable" w
  end.

Definition qdwin_handle_subscribe_view_stream (e : sub_env) (client shell : Z) (bound : bool) (id h allow_input : Z)
    (w : xworld) : xworld :=
  if negb bound then xemit (x_error shell NOT_BOUND) w
  else match window_of h w with
  | None => xemit (x_error shell INVALID_HANDLE) w
  | Some x =>
      if sb_res_oom e then xemit (x_no_memory client) w
      else if xw_pending x then xemit (x_denied id "nested proxy is waiting for admin decision") w
      else match qdwin_find_free_pipewire_output w with
      | None => xemit (x_denied id "no free pipewire output (increase [pipewire] num-outputs in weston.ini)") w
      | Some o =>
          if sb_oom e then xemit (x_no_memory client) w
          else w ~> (fun w => w <| xstreams ::= cons (new_xstream id h (xo_id o) (negb (allow_input =? 0))) |>
                                <| used ::= cons id |>)
                 ~> qdwin_view_stream_pin id
                 ~> start_stream e id
      end
  end.

(** ** The input channel *)

Definition qdwin_view_stream_by_token (token : string) (w : xworld) : option xstream :=
  if String.eqb token "" then None
  else List.find (fun s => negb (String.eqb (x_token s) "") && String.eqb (x_token s) token) (active_streams w).

(** [pid] is the peer's, [ptr] tells whether the stream's seat has a pointer. *)
Definition qdwin_stream_input_handle_claim (client r handle pid : Z) (token : string) (oom ptr : bool)
    (w : xworld) : xworld :=
  if oom then xemit (x_no_memory client) w
  else match qdwin_view_stream_by_token token w with
  | None => xemit (x_error r INVALID_TOKEN) w
  | Some s =>
      if x_claimed s then xemit (x_error r ALREADY_CLAIMED) w
      else if (x_forward_pid s <=? 0) || negb (pid =? x_forward_pid s) then xemit (x_error r INVALID_TOKEN) w
      else w ~> upd_x (x_res s) (fun s => s <| x_claimed := true |> <| x_input_handle := Some handle |>)
             ~> xemit (x_claim_ok (x_res s) handle pid)
             ~> stream_confine_start (x_res s) ptr
  end.

(** The user data of a handle is the stream that it claimed. *)
Definition stream_of_handle (h : Z) (w : xworld) : option xstream :=
  List.find (fun s => bool_decide (x_input_handle s = Some h)) (xstreams w).

Definition qdwin_stream_input_handle_resource_destroyed (h : Z) (w : xworld) : xworld :=
  match stream_of_handle h w with
  | Some s => w ~> upd_x (x_res s) (fun s => s <| x_input_handle := None |> <| x_claimed := false |> <| x_token := "" |>)
                ~> stream_confine_end (x_res s)
  | None => w
  end.

(** The guard of the four requests that reach a client. *)
Definition with_injection (h : Z) (k : xstream -> xworld -> xworld) (w : xworld) : xworld :=
  match stream_of_handle h w with
  | Some s =>
      if x_locked w || negb (x_allow_input s) || negb (x_seat s) then w
      else match x_tl s with
      | Some t => match window_of t w with
                  | Some x => match xw_view x with Some _ => k s w | None => w end
                  | None => w
                  end
      | None => w
      end
  | None => w
  end.

(** [ptr] and [kbd] tell whether the seat has the device. *)
Definition qdwin_stream_seat_assert_focus (ptr kbd : bool) (s : xstream) (w : xworld) : xworld :=
  match x_tl s with
  | Some t => match window_of t w with
              | Some x => if negb (x_seat s) || bool_decide (xw_view x = None) || xw_pending x then w
                          else upd_x (x_res s) (fun s =>
                                 s <| x_ptr_focus ::= (fun f => if ptr then Some t else f) |>
                                   <| x_kbd_focus ::= (fun f => if kbd then Some t else f) |>) w
              | None => w
              end
  | None => w
  end.

Definition qdwin_stream_input_inject_pointer_motion (h : Z) (ptr kbd : bool) : xworld -> xworld :=
  with_injection h (fun s w => w ~> qdwin_stream_seat_assert_focus ptr kbd s ~> xemit (x_motion (x_res s))).
Definition qdwin_stream_input_inject_pointer_button (h button state : Z) : xworld -> xworld :=
  with_injection h (fun s => xemit (x_button (x_res s) button (negb (state =? 0)))).
Definition qdwin_stream_input_inject_pointer_axis (h axis : Z) : xworld -> xworld :=
  with_injection h (fun s => xemit (x_axis (x_res s) axis)).
Definition qdwin_stream_input_inject_key (h key state : Z) (ptr kbd : bool) : xworld -> xworld :=
  with_injection h (fun s w => w ~> qdwin_stream_seat_assert_focus ptr kbd s
                                 ~> xemit (x_key (x_res s) key (negb (state =? 0)))).
(** The views it marks dirty are repainted with the output. *)
Definition qdwin_stream_input_handle_request_frame (h : Z) (w : xworld) : xworld :=
  match stream_of_handle h w with
  | Some s => if negb (x_pinned s) then w
              else match x_output s with Some o => xemit (x_repaint o) w | None => w end
  | None => w
  end.

(** ** The world around *)

Definition process_exits (i : Z) (w : xworld) : xworld :=
  upd_process i (fun p => if bool_decide (pr_state p = running) then p <| pr_state := zombie |> else p) w.
(** libweston's handler reaps every child. *)
Definition process_reaped (i : Z) (w : xworld) : xworld :=
  upd_process i (fun p => if bool_decide (pr_state p = zombie) then p <| pr_state := gone |> else p) w.
(** Somebody else's process starts. *)
Definition process_started (i pid : Z) (w : xworld) : xworld :=
  w <| processes ::= cons (mk_process i pid running false) |>.
