(* ===== verification/StreamsFacts.v ===== *)
(** * StreamsFacts: a stream owns its forwarder and gives everything back

    The invariant of exported views over every run: descriptors, processes,
    outputs, the input claim, and what a stream that ended still holds. *)

From Stdlib Require Import Ascii String.
From stdpp Require Import base list gmap strings option.
From S2P Require Import Prelude Logic State Procfs Streams.
From stdpp Require Import list.
#[local] Open Scope Z_scope.

(** ** One stream at a time *)

Definition replace (r : Z) (s' : xstream) (l : list xstream) : list xstream :=
  map (fun t => if x_res t =? r then s' else t) l.

Definition names (w : xworld) : list Z := map x_res (xstreams w).

(** The rest of the world. *)
Definition around (w : xworld) :=
  (map xw_handle (xwindows w), xoutputs w, x_locked w, next_stream_port w, used w).
Definition kernel (w : xworld) := (processes w, open_fds w, pidfds w, next_fd w).

Lemma replace_upd r f s l :
  NoDup (map x_res l) -> List.find (fun t => x_res t =? r) l = Some s ->
  map (fun t => if x_res t =? r then f t else t) l = replace r (f s) l.
Proof.
  intros N F. apply map_ext_in. intros t I%list_elem_of_In. destruct (Z.eqb_spec (x_res t) r) as [E|]; [|done].
  pose proof (find_unique x_res r l t N I E). congruence.
Qed.

Lemma upd_x_replace r f s w :
  NoDup (names w) -> xstream_of r w = Some s -> xstreams (upd_x r f w) = replace r (f s) (xstreams w).
Proof. by apply replace_upd. Qed.

Lemma replace_find r s' l s :
  x_res s' = r -> List.find (fun t => x_res t =? r) l = Some s ->
  List.find (fun t => x_res t =? r) (replace r s' l) = Some s'.
Proof.
  intros E F. unfold replace. induction l as [|t l IH]; [done|]. cbn in *.
  destruct (x_res t =? r) eqn:Et; cbn; [by rewrite E, Z.eqb_refl|]. rewrite Et. by apply IH.
Qed.

Lemma replace_names r s' l : x_res s' = r -> map x_res (replace r s' l) = map x_res l.
Proof.
  intros E. unfold replace. rewrite map_map. apply map_ext. intros t. destruct (Z.eqb_spec (x_res t) r); congruence.
Qed.

Lemma replace_twice r s1 s2 l : x_res s1 = r -> replace r s2 (replace r s1 l) = replace r s2 l.
Proof.
  intros E. unfold replace. rewrite map_map. apply map_ext. intros t.
  destruct (x_res t =? r) eqn:Et; [by rewrite E, Z.eqb_refl|by rewrite Et].
Qed.

Lemma replace_same r s l :
  NoDup (map x_res l) -> List.find (fun t => x_res t =? r) l = Some s -> replace r s l = l.
Proof.
  intros N F. rewrite <- (map_id l) at 2. apply map_ext_in. intros t I%list_elem_of_In.
  destruct (Z.eqb_spec (x_res t) r) as [E|]; [|done]. pose proof (find_unique x_res r l t N I E). congruence.
Qed.

Lemma elem_replace r s' l t :
  t ∈ replace r s' l -> t = s' /\ (exists s, s ∈ l /\ x_res s = r) \/ t ∈ l /\ x_res t ≠ r.
Proof.
  intros H%list_elem_of_In. apply in_map_iff in H as (y & <- & H%list_elem_of_In).
  destruct (Z.eqb_spec (x_res y) r); [left|right]; eauto.
Qed.

(** [w'] is [w] with the stream [r] made [s'], as far as streams go. *)
Record became (r : Z) (s' : xstream) (w w' : xworld) : Prop := {
  bc_res : x_res s' = r;
  bc_streams : xstreams w' = replace r s' (xstreams w);
  bc_around : around w' = around w
}.

Lemma became_of r s' w w' s : became r s' w w' -> xstream_of r w = Some s -> xstream_of r w' = Some s'.
Proof. intros [E1 E2 _] F. unfold xstream_of. rewrite E2. by eapply replace_find. Qed.

Lemma became_names r s' w w' : became r s' w w' -> names w' = names w.
Proof. intros [E1 E2 _]. unfold names. rewrite E2. by apply replace_names. Qed.

Lemma became_trans r s1 s2 w w1 w2 : became r s1 w w1 -> became r s2 w1 w2 -> became r s2 w w2.
Proof.
  intros [E1 E2 E3] [F1 F2 F3]. split; [done| |congruence]. rewrite F2, E2. by apply replace_twice.
Qed.

Lemma became_upd r f s w :
  (forall t, x_res (f t) = x_res t) -> NoDup (names w) -> xstream_of r w = Some s -> became r (f s) w (upd_x r f w).
Proof.
  intros K N F. split; [rewrite K; by apply (find_key x_res) in F as [? _]|by apply upd_x_replace|done].
Qed.

Lemma became_refl r s w : NoDup (names w) -> xstream_of r w = Some s -> became r s w w.
Proof.
  intros N F. split; [by apply (find_key x_res) in F as [? _]|by rewrite replace_same|done].
Qed.

Lemma became_ext r s' w w1 w2 :
  became r s' w w1 -> xstreams w2 = xstreams w1 -> around w2 = around w1 -> became r s' w w2.
Proof. intros [] E1 E2. split; congruence. Qed.

(** ** Descriptors, processes and events across a change *)

Definition pr_key (p : process) := (pr_id p, pr_pid p, pr_child p).

(** The descriptor [fd] is gone, nothing else. *)
Record closed (fd : Z) (w w' : xworld) : Prop := {
  cl_open : forall x, x ∈ open_fds w' <-> x ∈ open_fds w /\ x ≠ fd;
  cl_nodup : NoDup (open_fds w) -> NoDup (open_fds w');
  cl_pidfds : forall p, p ∈ pidfds w' <-> p ∈ pidfds w /\ fst p ≠ fd;
  cl_pnodup : NoDup (map fst (pidfds w)) -> NoDup (map fst (pidfds w'));
  cl_next : next_fd w' = next_fd w;
  cl_procs : map pr_key (processes w') = map pr_key (processes w)
}.

(** Only events of the kind [P] were added. *)
Definition only (P : xevent -> Prop) (w w' : xworld) : Prop :=
  exists l, xevents w' = l ++ xevents w /\ Forall P l.

Lemma only_refl P w w' : xevents w' = xevents w -> only P w w'.
Proof. intros E. exists []. by rewrite E. Qed.
Lemma only_trans P w1 w2 w3 : only P w1 w2 -> only P w2 w3 -> only P w1 w3.
Proof.
  intros (l1 & E1 & F1) (l2 & E2 & F2). exists (l2 ++ l1). rewrite E2, E1, <- (assoc_L (++)).
  split; [done|]. by apply Forall_app_2.
Qed.
Lemma only_emit (P : xevent -> Prop) e w : P e -> only P w (xemit e w).
Proof. intros H. exists [e]. split; [done|]. by constructor. Qed.
Lemma only_weaken (P Q : xevent -> Prop) w w' : (forall e, P e -> Q e) -> only P w w' -> only Q w w'.
Proof. intros H (l & E & F). exists l. split; [done|]. by eapply Forall_impl. Qed.
Lemma only_elem P w w' e : only P w w' -> e ∈ xevents w' -> P e \/ e ∈ xevents w.
Proof.
  intros (l & E & F) H. rewrite E in H. apply elem_of_app in H as [H|H]; [left|by right].
  rewrite Forall_forall in F. by apply F.
Qed.
Lemma only_keep P w w' e : only P w w' -> e ∈ xevents w -> e ∈ xevents w'.
Proof. intros (l & E & _) H. rewrite E. apply elem_of_app. by right. Qed.

Lemma closed_nothing fd w w' : kernel w' = kernel w -> fd ∉ open_fds w -> (forall p, p ∈ pidfds w -> fst p ∈ open_fds w) ->
  closed fd w w'.
Proof.
  intros E N P. injection E as E1 E2 E3 E4. split; try congruence.
  - intros x. rewrite E2. split; [|by intros []]. intros H. split; [done|]. by intros ->.
  - intros p. rewrite E3. split; [|by intros []]. intros H. split; [done|]. intros X. apply N. rewrite <- X. by apply P.
Qed.

Lemma closed_step fd w w1 w2 : kernel w1 = kernel w -> closed fd w1 w2 -> closed fd w w2.
Proof.
  intros E. injection E as E1 E2 E3 E4. intros [A B C C' D F]. rewrite E2 in A, B. rewrite E3 in C, C'. rewrite E4 in D.
  rewrite E1 in F. by split.
Qed.
Lemma closed_step_r fd w w1 w2 : closed fd w w1 -> kernel w2 = kernel w1 -> closed fd w w2.
Proof. intros [] E. injection E as E1 E2 E3 E4. split; rewrite ?E1, ?E2, ?E3, ?E4; done. Qed.

Lemma closed_descriptor fd w : closed fd w (close_descriptor fd w).
Proof.
  split; [| | | |done..].
  - intros x. cbn. rewrite !list_elem_of_In, filter_In, negb_true_iff, Z.eqb_neq. done.
  - intros N. cbn. rewrite <- (map_id (List.filter _ _)). apply (nodup_filter_key (fun x => x)). by rewrite map_id.
  - intros p. cbn. rewrite !list_elem_of_In, filter_In, negb_true_iff, Z.eqb_neq. done.
  - by apply nodup_filter_key.
Qed.

Lemma waitpid_spec pid w :
  xstreams (waitpid_nohang pid w) = xstreams w /\ around (waitpid_nohang pid w) = around w
  /\ xevents (waitpid_nohang pid w) = xevents w
  /\ (open_fds (waitpid_nohang pid w), pidfds (waitpid_nohang pid w), next_fd (waitpid_nohang pid w))
     = (open_fds w, pidfds w, next_fd w)
  /\ map pr_key (processes (waitpid_nohang pid w)) = map pr_key (processes w).
Proof.
  unfold waitpid_nohang. destruct (process_by_pid pid w) as [p|]; [|done].
  destruct (pr_child p && _); [|done]. split_and!; try done. cbn. rewrite map_map. apply map_ext. intros q.
  by destruct (pr_id q =? pr_id p).
Qed.

(** A signal through the pidfd reaches the process it was opened for. *)
Definition signals (i : option Z) (e : xevent) : Prop :=
  match e with x_sigterm p => i = Some p | _ => False end.

Lemma send_signal_spec fd w :
  xstreams (qdwin_pidfd_send_signal fd w) = xstreams w /\ around (qdwin_pidfd_send_signal fd w) = around w
  /\ kernel (qdwin_pidfd_send_signal fd w) = kernel w
  /\ only (signals (pidfd_of fd w)) w (qdwin_pidfd_send_signal fd w).
Proof.
  unfold qdwin_pidfd_send_signal. destruct (pidfd_of fd w) as [i|]; [|by split_and!; try done; apply only_refl].
  destruct (process_of i w) as [p|]; [|by split_and!; try done; apply only_refl].
  case_bool_decide; split_and!; try done; [by apply only_refl|by apply only_emit].
Qed.

(** ** The end of a stream, stage by stage *)

(** What a released stream is. *)
Definition dead (s : xstream) : xstream :=
  mk_xstream (x_res s) None (x_handle s) false true (x_torn s) None None (x_prev_pos s) false 0 (-1) false 0 "" ""
    false false None false false None None.

(** The forwarder is watched exactly while there is one. *)
Record fok (s : xstream) : Prop := {
  fok_pid : 0 <= x_forward_pid s;
  fok_watch : x_watch s = (0 <=? x_pidfd s);
  fok_fd : x_pidfd s = -1 \/ 0 <= x_pidfd s;
  fok_armed : 0 < x_forward_pid s <-> 0 <= x_pidfd s
}.

Record sok (s : xstream) : Prop := {
  sok_listed : x_listed s = negb (x_released s);
  sok_claim : x_claimed s = bool_decide (is_Some (x_input_handle s));
  sok_forward : fok s;
  sok_seat : x_seat s = false -> x_confined s = false /\ x_ptr_focus s = None /\ x_kbd_focus s = None;
  sok_live : x_released s = false -> is_Some (x_output s) /\ is_Some (x_tl s);
  sok_dead : x_released s = true -> s = dead s
}.

Lemma revoke_became r s w :
  NoDup (names w) -> xstream_of r w = Some s -> x_claimed s = bool_decide (is_Some (x_input_handle s)) ->
  became r (s <| x_input_handle := None |> <| x_claimed := false |>) w (revoke_handle r w)
  /\ kernel (revoke_handle r w) = kernel w
  /\ only (fun e => exists h, e = x_handle_destroyed h) w (revoke_handle r w).
Proof.
  intros N F C. unfold revoke_handle. rewrite F. destruct (x_input_handle s) as [h|] eqn:E.
  - split_and!; [|done|].
    + by eapply became_ext; [apply (became_upd r (fun s => s <| x_input_handle := None |> <| x_claimed := false |>))|..].
    + by eapply only_trans; [apply only_refl|apply only_emit; eauto].
  - split_and!; [|done|by apply only_refl].
    assert (s <| x_input_handle := None |> <| x_claimed := false |> = s) as ->.
    { destruct s; cbn in *; by subst. }
    by apply became_refl.
Qed.

Definition disarmed (s : xstream) : xstream := s <| x_watch := false |> <| x_pidfd := -1 |>.

Lemma disarm_became r s w :
  NoDup (names w) -> xstream_of r w = Some s -> (x_pidfd s = -1 \/ 0 <= x_pidfd s) ->
  (-1 ∉ open_fds w) -> (forall p, p ∈ pidfds w -> fst p ∈ open_fds w) ->
  became r (disarmed s) w (qdwin_view_stream_disarm_pidfd r w)
  /\ closed (x_pidfd s) w (qdwin_view_stream_disarm_pidfd r w)
  /\ xevents (qdwin_view_stream_disarm_pidfd r w) = xevents w
  /\ processes (qdwin_view_stream_disarm_pidfd r w) = processes w.
Proof.
  intros N F Fd No P. unfold qdwin_view_stream_disarm_pidfd. rewrite F. cbv zeta.
  assert (B : became r (disarmed s) w (upd_x r (fun s => s <| x_watch := false |> <| x_pidfd := -1 |>) w))
    by (by apply became_upd).
  destruct (Z.leb_spec 0 (x_pidfd s)).
  - split_and!; [|by eapply closed_step; [|apply closed_descriptor]|done|done].
    by eapply became_ext; [exact B|..].
  - split_and!; [done| |done|done]. destruct Fd as [->|]; [|lia]. by apply closed_nothing.
Qed.

(** What the end of a stream may report. *)
Definition ending (i : option Z) (e : xevent) : Prop :=
  match e with x_sigterm p => i = Some p | x_handle_destroyed _ | x_repaint _ => True | _ => False end.

Definition reaped (s : xstream) : xstream := (disarmed s) <| x_forward_pid := 0 |>.

Lemma reap_became r s w :
  NoDup (names w) -> xstream_of r w = Some s -> fok s ->
  (-1 ∉ open_fds w) -> (forall p, p ∈ pidfds w -> fst p ∈ open_fds w) ->
  became r (reaped s) w (qdwin_view_stream_reap_forward r w)
  /\ closed (x_pidfd s) w (qdwin_view_stream_reap_forward r w)
  /\ only (ending (pidfd_of (x_pidfd s) w)) w (qdwin_view_stream_reap_forward r w).
Proof.
  intros N F O No P. unfold qdwin_view_stream_reap_forward. rewrite F.
  destruct (Z.leb_spec (x_forward_pid s) 0) as [L|L].
  - destruct (disarm_became r s w N F (fok_fd s O) No P) as (B & C & E & _). split_and!; [|done|by apply only_refl].
    assert (reaped s = disarmed s) as ->; [|done].
    assert (x_forward_pid s = 0) by (pose proof (fok_pid s O); lia). unfold reaped, disarmed.
    destruct s; cbn in *. by subst.
  - cbv zeta. assert (Hfd : 0 <= x_pidfd s) by (by apply (fok_armed s O)).
    rewrite (proj2 (Z.leb_le _ _) Hfd).
    destruct (send_signal_spec (x_pidfd s) w) as (S1 & S2 & S3 & S4).
    set (w1 := qdwin_pidfd_send_signal (x_pidfd s) w) in *. injection S3 as _ K2 K3 _.
    assert (S3' : kernel w1 = kernel w) by (by apply send_signal_spec).
    destruct (disarm_became r s w1) as (B & C & E & _);
      [unfold names; by rewrite S1|unfold xstream_of; by rewrite S1|exact (fok_fd s O)|by rewrite K2|by rewrite K2, K3|].
    set (w2 := qdwin_view_stream_disarm_pidfd r w1) in *.
    destruct (waitpid_spec (x_forward_pid s) w2) as (W1 & W2 & W3 & W4 & W5).
    set (w3 := waitpid_nohang (x_forward_pid s) w2) in *.
    assert (B3 : became r (disarmed s) w w3).
    { destruct B as [B1 B2 B3]. split; [done|by rewrite W1, B2, S1|by rewrite W2, B3, S2]. }
    split_and!.
    + eapply became_trans; [exact B3|]. apply (became_upd r (fun s => s <| x_forward_pid := 0 |>) (disarmed s) w3); [done| |].
      * by rewrite (became_names _ _ _ _ B3).
      * by eapply became_of.
    + eapply (closed_step _ _ w1); [done|]. destruct C as [C1 C2 C3 C3' C4 C5]. injection W4 as V1 V2 V3.
      split; cbn; rewrite ?V1, ?V2, ?V3, ?W5; done.
    + eapply (only_trans _ _ w1); [|apply only_refl; cbn; by rewrite W3, E].
      eapply only_weaken; [|exact S4]. by intros [].
Qed.

Lemma around_place h pos t w : around (place_window h pos t w) = around w.
Proof.
  unfold around. cbn. do 4 f_equal. rewrite map_map. apply map_ext. intros x. by destruct (xw_handle x =? h).
Qed.

Definition unpinned (s : xstream) : xstream := s <| x_pinned := false |>.

Lemma unpin_became r s w :
  NoDup (names w) -> xstream_of r w = Some s ->
  became r (unpinned s) w (xstream_unpin r w) /\ kernel (xstream_unpin r w) = kernel w
  /\ only (ending None) w (xstream_unpin r w).
Proof.
  intros N F. unfold xstream_unpin. rewrite F. destruct (x_pinned s) eqn:E; cbn [negb].
  - assert (B : became r (unpinned s) w (upd_x r unpinned w)) by (by apply became_upd).
    destruct (x_tl s) as [h|]; [|by split_and!; [|done|apply only_refl]].
    destruct (window_of h _) as [x|]; [|by split_and!; [|done|apply only_refl]].
    destruct (xw_view x); [|by split_and!; [|done|apply only_refl]]. cbv zeta.
    destruct (match x_prev_output s with Some o => Some o | None => _ end) as [o|].
    + split_and!; [eapply became_ext; [exact B|done|]|done|].
      2: by exists [x_repaint o]; split; [|constructor].
      exact (around_place h (x_prev_pos s) (Some o) (upd_x r unpinned w)).
    + split_and!; [eapply became_ext; [exact B|done|]|done|by apply only_refl].
      exact (around_place h (x_prev_pos s) None (upd_x r unpinned w)).
  - split_and!; [|done|by apply only_refl].
    assert (unpinned s = s) as -> by (destruct s; cbn in *; by subst). by apply became_refl.
Qed.

Definition unseated (s : xstream) : xstream :=
  s <| x_confined := false |> <| x_seat := false |> <| x_ptr_focus := None |> <| x_kbd_focus := None |>.

Lemma unseat_became r s w :
  NoDup (names w) -> xstream_of r w = Some s ->
  (x_seat s = false -> x_confined s = false /\ x_ptr_focus s = None /\ x_kbd_focus s = None) ->
  became r (unseated s) w (qdwin_stream_seat_release r w) /\ kernel (qdwin_stream_seat_release r w) = kernel w
  /\ xevents (qdwin_stream_seat_release r w) = xevents w.
Proof.
  intros N F O. unfold qdwin_stream_seat_release. rewrite F. destruct (x_seat s) eqn:E; cbn [negb].
  - split_and!; [|done|done].
    assert (B : became r (s <| x_confined := false |>) w (stream_confine_end r w)) by (by apply became_upd).
    eapply became_trans; [exact B|].
    apply (became_upd r (fun s => s <| x_seat := false |> <| x_ptr_focus := None |> <| x_kbd_focus := None |>));
      [done|by rewrite (became_names _ _ _ _ B)|by eapply became_of].
  - split_and!; [|done|done]. destruct (O eq_refl) as (O1 & O2 & O3).
    assert (unseated s = s) as -> by (destruct s; cbn in *; by subst). by apply became_refl.
Qed.

Lemma release_became r s w :
  NoDup (names w) -> xstream_of r w = Some s -> sok s ->
  (-1 ∉ open_fds w) -> (forall p, p ∈ pidfds w -> fst p ∈ open_fds w) ->
  became r (dead s) w (xstream_release_server_state r w)
  /\ closed (x_pidfd s) w (xstream_release_server_state r w)
  /\ only (ending (pidfd_of (x_pidfd s) w)) w (xstream_release_server_state r w).
Proof.
  intros N F O No P. unfold xstream_release_server_state. rewrite F. destruct (x_released s) eqn:R.
  { pose proof (sok_dead s O R) as D. split_and!; [rewrite <- D; by apply became_refl| |by apply only_refl].
    apply closed_nothing; [done| |done]. rewrite D. done. }
  cbv zeta.
  set (s1 := s <| x_released := true |>).
  assert (B1 : became r s1 w (upd_x r (fun s => s <| x_released := true |>) w)) by (by apply became_upd).
  set (w1 := upd_x r _ w) in *.
  pose proof (became_of _ _ _ _ _ B1 F) as F1. pose proof (became_names _ _ _ _ B1) as N1.
  destruct (revoke_became r s1 w1) as (B2 & K2 & E2); [by rewrite N1|done|exact (sok_claim s O)|].
  set (w2 := revoke_handle r w1) in *. set (s2 := s1 <| x_input_handle := None |> <| x_claimed := false |>) in *.
  pose proof (became_of _ _ _ _ _ B2 F1) as F2. pose proof (became_names _ _ _ _ B2) as N2. rewrite N1 in N2.
  injection K2 as K2a K2b K2c K2d.
  destruct (reap_became r s2 w2) as (B3 & C3 & E3);
    [by rewrite N2|done|by destruct (sok_forward s O)|by rewrite K2b|by rewrite K2b, K2c|].
  set (w3 := qdwin_view_stream_reap_forward r w2) in *.
  pose proof (became_of _ _ _ _ _ B3 F2) as F3. pose proof (became_names _ _ _ _ B3) as N3. rewrite N2 in N3.
  destruct (unpin_became r (reaped s2) w3) as (B4 & K4 & E4); [by rewrite N3|done|].
  set (w4 := xstream_unpin r w3) in *.
  pose proof (became_of _ _ _ _ _ B4 F3) as F4. pose proof (became_names _ _ _ _ B4) as N4. rewrite N3 in N4.
  destruct (unseat_became r (unpinned (reaped s2)) w4) as (B5 & K5 & E5); [by rewrite N4|done|exact (sok_seat s O)|].
  set (w5 := qdwin_stream_seat_release r w4) in *.
  pose proof (became_of _ _ _ _ _ B5 F4) as F5. pose proof (became_names _ _ _ _ B5) as N5. rewrite N4 in N5.
  assert (B6 : became r (dead s) w5 (upd_x r erase (upd_x r (fun s => s <| x_listed := false |>) w5))).
  { assert (B : became r ((unseated (unpinned (reaped s2))) <| x_listed := false |>) w5
                  (upd_x r (fun s => s <| x_listed := false |>) w5)) by (apply became_upd; [done|by rewrite N5|done]).
    eapply became_trans; [exact B|].
    assert (erase ((unseated (unpinned (reaped s2))) <| x_listed := false |>) = dead s) as <- by (destruct s; cbv; done).
    apply (became_upd r erase ((unseated (unpinned (reaped s2))) <| x_listed := false |>)
             (upd_x r (fun s => s <| x_listed := false |>) w5)).
    - done.
    - by rewrite (became_names _ _ _ _ B), N5.
    - by eapply became_of. }
  split_and!.
  - do 5 (eapply became_trans; [eassumption|]). exact B6.
  - eapply (closed_step _ _ w2); [unfold kernel; congruence|]. eapply closed_step_r; [exact C3|].
    change (kernel w5 = kernel w3). congruence.
  - apply (only_trans _ _ w2); [|apply (only_trans _ _ w3); [|apply (only_trans _ _ w4)]].
    + eapply only_weaken; [|exact E2]. by intros e [h ->].
    + assert (pidfd_of (x_pidfd s) w2 = pidfd_of (x_pidfd s) w) as X by (unfold pidfd_of; by rewrite K2c).
      by rewrite <- X.
    + eapply only_weaken; [|exact E4]. by intros [].
    + by apply only_refl.
Qed.

(** ** The invariant *)

Definition torns (w : xworld) : list Z :=
  omap (fun e => match e with x_torn_down r _ => Some r | _ => None end) (xevents w).
Definition claims (w : xworld) : list Z :=
  omap (fun e => match e with x_claim_ok r _ _ => Some r | _ => None end) (xevents w).
Definition inputs (w : xworld) : list Z :=
  omap (fun e => match e with x_motion r | x_button r _ _ | x_axis r _ | x_key r _ _ => Some r | _ => None end) (xevents w).
Definition forked (i : Z) (w : xworld) : Prop := x_forked i ∈ xevents w.

(** The descriptor of a watched stream is a pidfd of the process it forked. *)
Definition owns (s : xstream) (w : xworld) : Prop :=
  exists i, (x_pidfd s, i) ∈ pidfds w /\ forked i w /\ (i, x_forward_pid s, true) ∈ map pr_key (processes w).

Record xinv (w : xworld) : Prop := {
  xi_names : NoDup (names w);
  xi_used : forall s, s ∈ xstreams w -> x_res s ∈ used w;
  xi_sok : forall s, s ∈ xstreams w -> sok s;
  xi_excl : forall s t, s ∈ xstreams w -> t ∈ xstreams w -> x_listed s = true -> x_listed t = true ->
    x_output s = x_output t -> x_res s = x_res t;
  xi_tl : forall s h, s ∈ xstreams w -> x_tl s = Some h -> h ∈ map xw_handle (xwindows w);
  xi_fds : forall fd, fd ∈ open_fds w <-> exists s, s ∈ xstreams w /\ x_pidfd s = fd /\ 0 <= fd;
  xi_fds_nodup : NoDup (open_fds w);
  xi_fd_inj : forall s t, s ∈ xstreams w -> t ∈ xstreams w -> 0 <= x_pidfd s -> x_pidfd s = x_pidfd t ->
    x_res s = x_res t;
  xi_next : 0 <= next_fd w /\ forall fd, fd ∈ open_fds w -> fd < next_fd w;
  xi_pidfds : forall p, p ∈ pidfds w -> fst p ∈ open_fds w /\ forked (snd p) w;
  xi_pidfds_nodup : NoDup (map fst (pidfds w));
  xi_owns : forall s, s ∈ xstreams w -> 0 <= x_pidfd s -> owns s w;
  xi_signals : forall p, x_sigterm p ∈ xevents w -> forked p w;
  xi_torns : NoDup (torns w) /\ (forall r, r ∈ torns w -> r ∈ used w)
    /\ forall s, s ∈ xstreams w -> x_res s ∈ torns w -> x_torn s = true;
  xi_claims : NoDup (claims w) /\ (forall r, r ∈ claims w -> r ∈ used w)
    /\ forall s, s ∈ xstreams w -> x_res s ∈ claims w -> x_claimed s = true \/ x_token s = ""%string;
  xi_claimed : forall s, s ∈ xstreams w -> x_claimed s = true -> x_res s ∈ claims w;
  xi_inputs : forall r, r ∈ inputs w -> r ∈ claims w
}.

Lemma claims_keep w w' r : (forall e, e ∈ xevents w -> e ∈ xevents w') -> r ∈ claims w -> r ∈ claims w'.
Proof.
  unfold claims. rewrite !list_elem_of_omap. intros K (e & He & E). exists e. split; [by apply K|done].
Qed.

(** What a change of one stream does to descriptors and processes. *)
Record kstep (s s' : xstream) (w w' : xworld) : Prop := {
  ks_fds : forall fd, fd ∈ open_fds w' <-> fd ∈ open_fds w /\ fd ≠ x_pidfd s \/ fd = x_pidfd s' /\ 0 <= fd;
  ks_nodup : NoDup (open_fds w');
  ks_fresh : x_pidfd s' = x_pidfd s \/ x_pidfd s' < 0 \/ next_fd w <= x_pidfd s';
  ks_next : next_fd w <= next_fd w' /\ x_pidfd s' < next_fd w';
  ks_pidfds : forall p, p ∈ pidfds w' -> fst p ∈ open_fds w' /\ (p ∈ pidfds w \/ forked (snd p) w');
  ks_pidfds_nodup : NoDup (map fst (pidfds w'));
  ks_keep : forall p, p ∈ pidfds w -> fst p ≠ x_pidfd s -> p ∈ pidfds w';
  ks_procs : forall k, k ∈ map pr_key (processes w) -> k ∈ map pr_key (processes w');
  ks_owns : 0 <= x_pidfd s' -> owns s' w'
}.

(** The events of a change of stream [r]. *)
Record estep (r : Z) (s' : xstream) (w w' : xworld) : Prop := {
  es_keep : forall e, e ∈ xevents w -> e ∈ xevents w';
  es_signals : forall p, x_sigterm p ∈ xevents w' -> forked p w';
  es_torns : NoDup (torns w') /\ (forall t, t ∈ torns w' -> t ∈ torns w \/ t = r) /\ (r ∈ torns w' -> x_torn s' = true);
  es_claims : NoDup (claims w') /\ (forall t, t ∈ claims w' -> t ∈ claims w \/ t = r)
    /\ (r ∈ claims w' -> x_claimed s' = true \/ x_token s' = ""%string);
  es_claimed : x_claimed s' = true -> r ∈ claims w';
  es_inputs : forall t, t ∈ inputs w' -> t ∈ inputs w
}.

Lemma xinv_became r s s' w w' :
  xinv w -> xstream_of r w = Some s -> became r s' w w' -> sok s' ->
  (forall h, x_tl s' = Some h -> x_tl s = Some h) ->
  (x_listed s' = true -> x_listed s = true /\ x_output s' = x_output s) ->
  kstep s s' w w' -> estep r s' w w' -> xinv w'.
Proof.
  intros I F B O Htl Hl K E. destruct (find_key x_res _ _ _ F) as [Hr Hs].
  pose proof B as [B1 B2 B3]. injection B3 as A1 A2 A3 A4 A5.
  assert (S : forall t, t ∈ xstreams w' -> t = s' \/ t ∈ xstreams w /\ x_res t ≠ r).
  { intros t Ht. rewrite B2 in Ht. apply elem_replace in Ht as [[-> _]|]; auto. }
  assert (S' : s' ∈ xstreams w').
  { exact (proj2 (find_key x_res _ _ _ (became_of _ _ _ _ _ B F))). }
  assert (S'' : forall t, t ∈ xstreams w -> x_res t ≠ r -> t ∈ xstreams w').
  { intros t Ht Hn. rewrite B2. apply list_elem_of_In, in_map_iff. exists t. split; [|by apply list_elem_of_In].
    by rewrite (proj2 (Z.eqb_neq _ _) Hn). }
  assert (Hne : forall t, t ∈ xstreams w -> x_res t ≠ r -> 0 <= x_pidfd t -> x_pidfd t ≠ x_pidfd s).
  { intros t Ht Hn Hfd Heq. apply Hn. rewrite <- Hr. exact (xi_fd_inj w I t s Ht Hs Hfd Heq). }
  assert (Hne' : forall t, t ∈ xstreams w -> x_res t ≠ r -> 0 <= x_pidfd t -> x_pidfd t ≠ x_pidfd s').
  { intros t Ht Hn Hfd. destruct (ks_fresh _ _ _ _ K) as [->|[?|?]]; [by apply Hne|lia|].
    assert (x_pidfd t < next_fd w); [|lia]. apply (xi_next w I), (xi_fds w I). eauto. }
  split.
  - rewrite (became_names _ _ _ _ B). apply I.
  - intros t [->|[? ?]]%S; rewrite A5; [rewrite B1, <- Hr|]; by apply (xi_used w I).
  - intros t [->|[? ?]]%S; [done|by apply (xi_sok w I)].
  - intros t u [->|[Ht Htn]]%S [->|[Hu Hun]]%S Lt Lu Eo; [done| | |by apply (xi_excl w I)].
    + destruct (Hl Lt) as [L' X]. destruct Hun. rewrite <- Hr. apply (xi_excl w I); congruence.
    + destruct (Hl Lu) as [L' X]. destruct Htn. rewrite <- Hr. apply (xi_excl w I); congruence.
  - intros t h [->|[? ?]]%S X; rewrite A1; eapply (xi_tl w I); eauto.
  - intros fd. rewrite (ks_fds _ _ _ _ K), (xi_fds w I). split.
    + intros [[(t & Ht & <- & Hfd) Hn]|[-> Hfd]]; [|by exists s']. exists t. split; [|done]. apply S''; [done|].
      intros X. apply Hn. assert (t = s) as ->; [|done].
      apply (key_unique x_res _ _ _ (xi_names w I)); [done|done|congruence].
    + intros (t & [->|[Ht Hn]]%S & <- & Hfd); [by right|]. left. split; [eauto|by apply Hne].
  - apply K.
  - intros t u [->|[Ht Htn]]%S [->|[Hu Hun]]%S Hfd Eq; [done| | |by apply (xi_fd_inj w I)].
    + by destruct (Hne' u Hu Hun ltac:(lia)).
    + by destruct (Hne' t Ht Htn ltac:(lia)).
  - destruct (xi_next w I) as [N1 N2], (ks_next _ _ _ _ K) as [N3 N4]. split; [lia|].
    intros fd [[Hfd _]|[-> _]]%(ks_fds _ _ _ _ K); [|done]. specialize (N2 fd Hfd). lia.
  - intros p Hp. destruct (ks_pidfds _ _ _ _ K p Hp) as [H1 [H2|H2]]; (split; [done|]); [|done].
    apply (es_keep _ _ _ _ E), (xi_pidfds w I), H2.
  - apply K.
  - intros t [->|[Ht Hn]]%S Hfd; [by apply (ks_owns _ _ _ _ K)|].
    destruct (xi_owns w I t Ht Hfd) as (i & H1 & H2 & H3). exists i. split_and!.
    + apply (ks_keep _ _ _ _ K); [done|by apply Hne].
    + by apply (es_keep _ _ _ _ E).
    + by apply (ks_procs _ _ _ _ K).
  - apply E.
  - destruct (es_torns _ _ _ _ E) as (E1 & E2 & E3), (xi_torns w I) as (_ & I2 & I3). split_and!; [done| |].
    + intros t [Ht| ->]%E2; rewrite A5; [by apply I2|]. rewrite <- Hr. by apply (xi_used w I).
    + intros t [->|[Ht Hn]]%S X; [rewrite B1 in X; by apply E3|]. apply I3; [done|]. by destruct (E2 _ X).
  - destruct (es_claims _ _ _ _ E) as (E1 & E2 & E3), (xi_claims w I) as (_ & I2 & I3). split_and!; [done| |].
    + intros t [Ht| ->]%E2; rewrite A5; [by apply I2|]. rewrite <- Hr. by apply (xi_used w I).
    + intros t [->|[Ht Hn]]%S X; [rewrite B1 in X; by apply E3|]. apply I3; [done|]. by destruct (E2 _ X).
  - intros t [->|[Ht Hn]]%S X; [rewrite B1; by apply (es_claimed _ _ _ _ E)|].
    eapply claims_keep; [apply (es_keep _ _ _ _ E)|]. by apply (xi_claimed w I).
  - intros t Ht%(es_inputs _ _ _ _ E). eapply claims_keep; [apply (es_keep _ _ _ _ E)|]. by apply (xi_inputs w I).
Qed.

(** ** Kinds of change *)

Definition plain (e : xevent) : Prop :=
  match e with
  | x_torn_down _ _ | x_claim_ok _ _ _ | x_motion _ | x_button _ _ _ | x_axis _ _ | x_key _ _ _ => False
  | _ => True
  end.
(** Events that end neither a stream nor claim one, with the signals owed. *)
Definition quiet (e : xevent) : Prop :=
  match e with x_sigterm _ => False | _ => plain e end.

Lemma only_torns P w w' :
  (forall e, P e -> plain e) -> only P w w' ->
  torns w' = torns w /\ claims w' = claims w /\ inputs w' = inputs w.
Proof.
  intros H (l & E & F). unfold torns, claims, inputs. rewrite E.
  assert (forall A (g : xevent -> option A), (forall e, P e -> g e = None) -> omap g (l ++ xevents w) = omap g (xevents w)) as X.
  { intros A g G. clear E. induction F as [|e l He F IH]; [done|]. cbn. by rewrite (G e He). }
  split_and!; apply X; intros e He; specialize (H e He); by destruct e.
Qed.

Lemma estep_only P r s s' w w' :
  xinv w -> xstream_of r w = Some s -> only P w w' ->
  (forall e, P e -> match e with x_sigterm p => forked p w' | _ => plain e end) ->
  (x_torn s = true -> x_torn s' = true) ->
  (x_claimed s = true \/ x_token s = ""%string -> x_claimed s' = true \/ x_token s' = ""%string) ->
  (x_claimed s' = true -> x_claimed s = true) ->
  estep r s' w w'.
Proof.
  intros I F O H T C C'. destruct (find_key x_res _ _ _ F) as [Hr Hs].
  destruct (only_torns P w w') as (E1 & E2 & E3); [|done|].
  { intros e He. specialize (H e He). by destruct e. }
  split.
  - intros e. by apply only_keep with P.
  - intros p Hp. destruct (only_elem _ _ _ _ O Hp) as [X|X]; [exact (H _ X)|].
    eapply only_keep; [exact O|]. exact (xi_signals w I p X).
  - destruct (xi_torns w I) as (I1 & I2 & I3). rewrite E1. split_and!; [done|by left|].
    intros X. apply T, I3; [done|]. by rewrite Hr.
  - destruct (xi_claims w I) as (I1 & I2 & I3). rewrite E2. split_and!; [done|by left|].
    intros X. apply C, I3; [done|]. by rewrite Hr.
  - intros X%C'. rewrite E2, <- Hr. by apply (xi_claimed w I).
  - by rewrite E3.
Qed.

Lemma kstep_same s s' w w' :
  xinv w -> s ∈ xstreams w -> kernel w' = kernel w -> (forall e, e ∈ xevents w -> e ∈ xevents w') ->
  x_pidfd s' = x_pidfd s -> x_forward_pid s' = x_forward_pid s -> kstep s s' w w'.
Proof.
  intros I Hs K E Efd Epid. injection K as K1 K2 K3 K4. split; rewrite ?K1, ?K2, ?K3, ?K4, ?Efd; try apply I; auto.
  - intros fd. rewrite (xi_fds w I). split.
    + intros (t & Ht & <- & Hfd). destruct (decide (x_pidfd t = x_pidfd s)); [by right|left; eauto].
    + intros [[? _]|[-> Hfd]]; [done|]. eauto.
  - split; [lia|]. destruct (Z.le_gt_cases 0 (x_pidfd s)); [|pose proof (proj1 (xi_next w I)); lia].
    apply (xi_next w I), (xi_fds w I). eauto.
  - intros p Hp. split; [by apply (xi_pidfds w I)|by left].
  - intros Hfd. destruct (xi_owns w I s Hs Hfd) as (i & H1 & H2 & H3). exists i. rewrite K1, K3, Efd, Epid.
    split_and!; [done|by apply E|done].
Qed.

Lemma kstep_closed s s' w w' :
  xinv w -> closed (x_pidfd s) w w' -> x_pidfd s' = -1 -> kstep s s' w w'.
Proof.
  intros I [C1 C2 C3 C3' C4 C5] Efd. split; rewrite ?C4, ?C5, ?Efd; auto.
  - intros fd. rewrite C1. split; [by left|]. intros [?|[-> ?]]; [done|lia].
  - apply C2, I.
  - right. left. lia.
  - split; [lia|]. pose proof (proj1 (xi_next w I)). lia.
  - intros p Hp. apply C3 in Hp as [Hp Hn]. split; [|by left]. apply C1. split; [|done]. by apply (xi_pidfds w I).
  - apply C3', I.
  - intros p Hp Hn. by apply C3.
  - lia.
Qed.

(** A change of the stream's own fields. *)
Record mild (s s' : xstream) : Prop := {
  md_sok : sok s';
  md_tl : x_tl s' = x_tl s;
  md_output : x_output s' = x_output s /\ x_listed s' = x_listed s;
  md_fd : x_pidfd s' = x_pidfd s /\ x_forward_pid s' = x_forward_pid s;
  md_torn : x_torn s = true -> x_torn s' = true;
  md_claim : x_claimed s = true \/ x_token s = ""%string -> x_claimed s' = true \/ x_token s' = ""%string;
  md_claimed : x_claimed s' = true -> x_claimed s = true
}.

Lemma xinv_mild r s s' w w' :
  xinv w -> xstream_of r w = Some s -> became r s' w w' -> kernel w' = kernel w -> only quiet w w' -> mild s s' ->
  xinv w'.
Proof.
  intros I F B K E [M1 M2 [M3 M3'] [M4 M5] M6 M7 M8]. destruct (find_key x_res _ _ _ F) as [Hr Hs].
  apply (xinv_became r s s' w w'); [done|done|done|done|by rewrite M2|by rewrite M3, M3'| |].
  - apply kstep_same; [done|done|done| |done|done]. intros e. by apply only_keep with quiet.
  - apply (estep_only quiet r s); [done|done|done| |done|done|done]. by intros [].
Qed.

Lemma xinv_side w : xinv w -> (-1 ∉ open_fds w) /\ forall p, p ∈ pidfds w -> fst p ∈ open_fds w.
Proof.
  intros I. split; [intros (s & _ & _ & ?)%(xi_fds w I); lia|]. intros p Hp. by apply (xi_pidfds w I).
Qed.

Lemma xinv_sok r s w : xinv w -> xstream_of r w = Some s -> sok s.
Proof. intros I F. apply (xi_sok w I). by destruct (find_key x_res _ _ _ F). Qed.

Lemma sok_of_dead s : sok (dead s).
Proof. split; cbn; try done; [split; cbn; try lia; by left]. Qed.

Lemma xinv_pidfd_of fd i w : xinv w -> pidfd_of fd w = Some i -> forked i w.
Proof.
  unfold pidfd_of. intros I X. destruct (List.find _ _) as [p|] eqn:E; [|done]. cbn in X. injection X as <-.
  apply (find_key fst) in E as [_ Hp]. by apply (xi_pidfds w I).
Qed.

Lemma ending_estep r s s' w w' :
  xinv w -> xstream_of r w = Some s -> only (ending (pidfd_of (x_pidfd s) w)) w w' ->
  x_torn s' = x_torn s -> x_token s' = ""%string -> x_claimed s' = false -> estep r s' w w'.
Proof.
  intros I F E T Tk Cl. apply (estep_only _ r s s' w w' I F E).
  - intros [] X; try done. cbn in X. eapply only_keep; [exact E|]. by eapply xinv_pidfd_of.
  - by rewrite T.
  - by right.
  - by rewrite Cl.
Qed.

Lemma xinv_release r s w :
  xinv w -> xstream_of r w = Some s ->
  xinv (xstream_release_server_state r w) /\ became r (dead s) w (xstream_release_server_state r w)
  /\ closed (x_pidfd s) w (xstream_release_server_state r w).
Proof.
  intros I F. destruct (xinv_side w I) as [Sa Sb]. pose proof (xinv_sok r s w I F) as O.
  destruct (release_became r s w (xi_names w I) F O Sa Sb) as (B & C & E). split; [|done].
  apply (xinv_became r s (dead s) w); [done..|apply sok_of_dead|done|done|by apply kstep_closed|].
  by apply (ending_estep r s).
Qed.

Lemma torns_emit r reason w : torns (xemit (x_torn_down r reason) w) = r :: torns w.
Proof. done. Qed.

(** What a terminated stream leaves. *)
Definition ended (s : xstream) : xstream := (dead s) <| x_torn := true |>.

Lemma xinv_torn reason r s w :
  xinv w -> xstream_of r w = Some s -> x_torn s = false ->
  let w' := xemit (x_torn_down r reason) (upd_x r (fun s => s <| x_torn := true |>) w) in
  xinv w' /\ became r (s <| x_torn := true |>) w w' /\ kernel w' = kernel w.
Proof.
  intros I F T w'. pose proof (xinv_sok r s w I F) as O. destruct (find_key x_res _ _ _ F) as [Hr Hs].
  assert (B : became r (s <| x_torn := true |>) w w').
  { eapply became_ext; [by apply (became_upd r (fun s => s <| x_torn := true |>) s w); [|apply I|]|done|done]. }
  split; [|done]. apply (xinv_became r s (s <| x_torn := true |>) w w' I F B).
  - destruct O as [O1 O2 [] O4 O5 O6]. split; try done. intros R. cbn in R. rewrite (O6 R). done.
  - done.
  - done.
  - apply kstep_same; [done..| |done|done]. intros e He. cbn. by right.
  - split.
    + intros e He. by right.
    + intros p [X|X]%elem_of_cons; [done|]. right. by apply (xi_signals w I).
    + destruct (xi_torns w I) as (I1 & I2 & I3). unfold w'. rewrite torns_emit. split_and!; [|..].
      * apply NoDup_cons. split; [|done]. intros X. rewrite <- Hr in X. pose proof (I3 s Hs X). congruence.
      * intros t [->|X]%elem_of_cons; [by right|by left].
      * done.
    + destruct (xi_claims w I) as (I1 & I2 & I3). change (claims w') with (claims w). split_and!; [done|by left|].
      intros X. rewrite <- Hr in X. exact (I3 s Hs X).
    + intros X. rewrite <- Hr. exact (xi_claimed w I s Hs X).
    + done.
Qed.

Lemma xinv_terminate reason r s w :
  xinv w -> xstream_of r w = Some s ->
  xinv (xstream_terminate reason r w) /\ became r (ended s) w (xstream_terminate reason r w)
  /\ closed (x_pidfd s) w (xstream_terminate reason r w).
Proof.
  intros I F. unfold xstream_terminate. rewrite F. destruct (x_torn s) eqn:T; cbn [negb]; cbv zeta.
  - destruct (xinv_release r s w I F) as (I' & B & C). split_and!; [done| |done].
    assert (ended s = dead s) as ->; [|done]. unfold ended, dead. rewrite T. done.
  - destruct (xinv_torn reason r s w I F T) as (I1 & B1 & K1). set (w1 := xemit _ _) in *.
    destruct (xinv_release r _ w1 I1 (became_of _ _ _ _ _ B1 F)) as (I2 & B2 & C2). split_and!; [done| |].
    + by eapply became_trans.
    + by eapply closed_step.
Qed.

(** ** The operations keep the invariant *)

Lemma xstream_of_none r w : xstream_of r w = None -> r ∉ names w.
Proof. apply (find_fresh x_res). Qed.

Lemma upd_absent r f w : xstream_of r w = None -> upd_x r f w = w.
Proof.
  intros N%xstream_of_none. destruct w as [l ws os lk pt ps fds pfs nx us ev].
  assert (E : map (fun s => if x_res s =? r then f s else s) l = l).
  { rewrite <- (map_id l) at 2. apply map_ext_in. intros t Ht.
    destruct (Z.eqb_spec (x_res t) r) as [<-|]; [|done]. destruct N. by apply list_elem_of_In, in_map. }
  exact (f_equal (fun l => mk_xworld l ws os lk pt ps fds pfs nx us ev) E).
Qed.

(** Streams named in [rs] are terminated, the others stay. *)
Lemma xterminate_fold reason rs w :
  xinv w ->
  let w' := foldl (fun w r => xstream_terminate reason r w) w rs in
  xinv w' /\ around w' = around w
  /\ (forall t, t ∈ xstreams w' -> x_released t = true \/ t ∈ xstreams w /\ x_res t ∉ rs).
Proof.
  revert w. induction rs as [|r rs IH]; intros w I; cbn.
  { split_and!; [done|done|]. intros t Ht. right. split; [done|]. apply not_elem_of_nil. }
  destruct (xstream_of r w) as [s|] eqn:F.
  - destruct (xinv_terminate reason r s w I F) as (I1 & B & _).
    destruct (IH _ I1) as (I2 & A2 & S2). split_and!; [done|by rewrite A2, (bc_around _ _ _ _ B)|].
    intros t Ht. destruct (S2 t Ht) as [?|[H1 H2]]; [by left|]. rewrite (bc_streams _ _ _ _ B) in H1.
    apply elem_replace in H1 as [[-> _]|[H1 H3]]; [by left|]. right. split; [done|].
    by apply not_elem_of_cons.
  - assert (xstream_terminate reason r w = w) as -> by (unfold xstream_terminate; by rewrite F).
    destruct (IH _ I) as (I2 & A2 & S2). split_and!; [done|done|]. intros t Ht.
    destruct (S2 t Ht) as [?|[H1 H2]]; [by left|]. right. split; [done|]. apply not_elem_of_cons. split; [|done].
    intros E. apply (xstream_of_none _ _ F). rewrite <- E. apply list_elem_of_In, in_map. by apply list_elem_of_In.
Qed.

Lemma terminate_all_fold sel reason w :
  terminate_all sel reason w
  = foldl (fun w r => xstream_terminate reason r w) w (map x_res (List.filter sel (active_streams w))).
Proof. unfold terminate_all. generalize (List.filter sel (active_streams w)). intros l. revert w.
  induction l as [|s l IH]; intros w; [done|]. cbn. by rewrite IH. Qed.

Lemma xinv_terminate_all sel reason w :
  xinv w ->
  xinv (terminate_all sel reason w) /\ around (terminate_all sel reason w) = around w
  /\ (forall t, t ∈ xstreams (terminate_all sel reason w) ->
        x_released t = true \/ t ∈ xstreams w /\ (x_listed t = true -> sel t = false)).
Proof.
  intros I. rewrite terminate_all_fold.
  destruct (xterminate_fold reason (map x_res (List.filter sel (active_streams w))) w I) as (I1 & A1 & S1).
  split_and!; [exact I1|exact A1|]. intros t Ht. destruct (S1 t Ht) as [?|[H1 H2]]; [by left|]. right. split; [done|].
  intros L. apply not_true_iff_false. intros X. apply H2. apply list_elem_of_In, in_map, filter_In.
  split; [|done]. apply filter_In. split; [by apply list_elem_of_In|done].
Qed.

(** A tombstone goes. *)
Lemma xinv_remove r s w :
  xinv w -> xstream_of r w = Some s -> x_released s = true ->
  xinv (w <| xstreams ::= List.filter (fun s => negb (x_res s =? r)) |>).
Proof.
  intros I F R. destruct (find_key x_res _ _ _ F) as [Hr Hs].
  assert (D : x_pidfd s = -1) by (by rewrite (sok_dead s (xi_sok w I s Hs) R)).
  set (w' := w <| xstreams ::= _ |>).
  assert (S : forall t, t ∈ xstreams w' <-> t ∈ xstreams w /\ x_res t ≠ r).
  { intros t. cbn. rewrite !list_elem_of_In, filter_In, negb_true_iff, Z.eqb_neq. done. }
  destruct I. split; try done; cbn [used xevents].
  - by apply (nodup_filter_key x_res).
  - intros t [? _]%S. by apply xi_used0.
  - intros t [? _]%S. by apply xi_sok0.
  - intros t u [? _]%S [? _]%S. by apply xi_excl0.
  - intros t h [? _]%S. by apply xi_tl0.
  - intros fd. change (open_fds w') with (open_fds w). rewrite xi_fds0. split.
    + intros (t & Ht & E & Hfd). exists t. split; [|done]. apply S. split; [done|]. intros E'.
      assert (t = s) as -> by (apply (key_unique x_res _ _ _ xi_names0); [done|done|congruence]). lia.
    + intros (t & [Ht _]%S & ?). eauto.
  - intros t u [? _]%S [? _]%S. by apply xi_fd_inj0.
  - intros t [? _]%S. by apply xi_owns0.
  - destruct xi_torns0 as (? & ? & X). split_and!; [done|done|]. intros t [? _]%S. by apply X.
  - destruct xi_claims0 as (? & ? & X). split_and!; [done|done|]. intros t [? _]%S. by apply X.
  - intros t [? _]%S. by apply xi_claimed0.
Qed.

Lemma xinv_destroyed r w : xinv w -> xinv (xstream_resource_destroyed r w).
Proof.
  intros I. unfold xstream_resource_destroyed. destruct (xstream_of r w) as [s|] eqn:F; [|done].
  destruct (xinv_release r s w I F) as (I1 & B & _). by apply (xinv_remove r (dead s)); [|eapply became_of|].
Qed.

Lemma xinv_pidfd_ready r w :
  xinv w -> xinv (qdwin_forward_pidfd_ready r w)
  /\ forall t, t ∈ xstreams (qdwin_forward_pidfd_ready r w) -> x_released t = true \/ t ∈ xstreams w.
Proof.
  intros I. unfold qdwin_forward_pidfd_ready. destruct (xstream_of r w) as [s|] eqn:F.
  - destruct (xinv_side w I) as [Sa Sb]. pose proof (xinv_sok r s w I F) as O.
    destruct (disarm_became r s w (xi_names w I) F (fok_fd s (sok_forward s O)) Sa Sb) as (B & C & E & _).
    set (w1 := qdwin_view_stream_disarm_pidfd r w) in *. cbv zeta.
    assert (B2 : became r (reaped s) w (upd_x r (fun s => s <| x_forward_pid := 0 |>) w1)).
    { eapply became_trans; [exact B|].
      apply (became_upd r (fun s => s <| x_forward_pid := 0 |>) (disarmed s) w1); [done| |by eapply became_of].
      rewrite (became_names _ _ _ _ B). apply I. }
    set (w2 := upd_x r _ w1) in *. pose proof (became_of _ _ _ _ _ B2 F) as F2.
    assert (I2 : xinv w2); [|destruct (xinv_terminate "forward exited" r (reaped s) w2 I2 F2) as (I3 & B3 & _)].
    2: { split; [exact I3|]. intros t Ht. pose proof (became_trans _ _ _ _ _ _ B2 B3) as B4.
      rewrite (bc_streams _ _ _ _ B4) in Ht. apply elem_replace in Ht as [[-> _]|[? _]]; auto. }
    apply (xinv_became r s (reaped s) w w2 I F B2).
    + destruct O as [O1 O2 [] O4 O5 O6]. split; try done; [split; cbn; try lia; auto|].
      intros R. cbn in R. rewrite (O6 R). done.
    + done.
    + done.
    + apply kstep_closed; [done| |done]. by eapply closed_step_r.
    + apply (estep_only (fun _ => False) r s); [done|done|by apply only_refl|done|done|done|done].
  - unfold qdwin_view_stream_disarm_pidfd. rewrite F. cbv zeta.
    rewrite (upd_absent r _ w F). unfold xstream_terminate. rewrite F. auto.
Qed.

(** Changes around the streams; signals go to forked processes. *)
Definition allowed (w' : xworld) (e : xevent) : Prop :=
  match e with x_sigterm p => forked p w' | _ => plain e end.

Lemma xinv_world_gen w w' :
  xinv w -> xstreams w' = xstreams w -> used w' = used w ->
  (open_fds w', pidfds w') = (open_fds w, pidfds w) -> next_fd w <= next_fd w' ->
  (forall k, k ∈ map pr_key (processes w) -> k ∈ map pr_key (processes w')) -> only (allowed w') w w' ->
  (forall s h, s ∈ xstreams w -> x_tl s = Some h -> h ∈ map xw_handle (xwindows w')) -> xinv w'.
Proof.
  intros I Es Eu K Nx P E T. injection K as K1 K2.
  destruct (only_torns (allowed w') w w') as (Q1 & Q2 & Q3); [by intros []|done|].
  assert (Kp : forall e, e ∈ xevents w -> e ∈ xevents w') by (intros e; by apply only_keep with (allowed w')).
  destruct I. split; unfold names; rewrite ?Es, ?Eu, ?K1, ?K2, ?Q1, ?Q2, ?Q3; try done.
  - destruct xi_next0 as [N1 N2]. split; [lia|]. intros fd Hfd. specialize (N2 fd Hfd). lia.
  - intros p Hp. destruct (xi_pidfds0 p Hp). split; [done|by apply Kp].
  - intros s Hs Hfd. destruct (xi_owns0 s Hs Hfd) as (i & H1 & H2 & H3). exists i. rewrite K2.
    split_and!; [done|by apply Kp|by apply P].
  - intros p Hp. destruct (only_elem _ _ _ _ E Hp) as [X|X]; [exact X|]. by apply Kp, xi_signals0.
Qed.

Lemma xinv_world w w' :
  xinv w -> xstreams w' = xstreams w -> used w' = used w ->
  (open_fds w', pidfds w', next_fd w') = (open_fds w, pidfds w, next_fd w) ->
  (forall k, k ∈ map pr_key (processes w) -> k ∈ map pr_key (processes w')) -> only quiet w w' ->
  (forall s h, s ∈ xstreams w -> x_tl s = Some h -> h ∈ map xw_handle (xwindows w')) -> xinv w'.
Proof.
  intros I Es Eu K P E T. injection K as K1 K2 K3. apply (xinv_world_gen w); try done; [congruence|lia|].
  eapply only_weaken; [|exact E]. by intros [].
Qed.

Lemma xinv_emit e w : quiet e -> xinv w -> xinv (xemit e w).
Proof. intros Q I. apply (xinv_world w); try done; [by apply only_emit|]. intros s h. apply I. Qed.

Lemma xinv_window_removed h w : xinv w -> xinv (window_removed h w).
Proof.
  intros I. unfold window_removed. cbv zeta.
  destruct (xinv_terminate_all (fun s => bool_decide (x_tl s = Some h)) "source toplevel closed" w I) as (I1 & _ & S1).
  set (w1 := terminate_all _ _ w) in *. apply (xinv_world w1); try done; [by apply only_refl|].
  intros s h' Hs Htl. pose proof (xi_tl w1 I1 s h' Hs Htl) as Hin. pose proof (xi_sok w1 I1 s Hs) as O.
  assert (h' ≠ h).
  { intros ->. destruct (S1 s Hs) as [R|[_ X]]; [by rewrite (sok_dead s O R) in Htl|].
    destruct (x_released s) eqn:R; [by rewrite (sok_dead s O R) in Htl|].
    rewrite (sok_listed s O), R in X. specialize (X eq_refl). by case_bool_decide. }
  apply list_elem_of_In, in_map_iff in Hin as (x & <- & Hx). cbn.
  apply list_elem_of_In, in_map, filter_In. split; [done|]. by apply negb_true_iff, Z.eqb_neq.
Qed.

Lemma xinv_lock w : xinv w -> xinv (xlock w).
Proof.
  intros I. apply xinv_terminate_all. apply (xinv_world w); try done; [by apply only_refl|]. intros s h. apply I.
Qed.

Lemma mild_refl s : sok s -> mild s s.
Proof. by split. Qed.

(** A change of every stream at once. *)
Lemma xinv_map f w :
  xinv w -> (forall s, s ∈ xstreams w -> x_res (f s) = x_res s /\ mild s (f s)) -> xinv (w <| xstreams ::= map f |>).
Proof.
  intros I M. set (w' := w <| xstreams ::= map f |>).
  assert (S : forall t, t ∈ xstreams w' -> exists s, t = f s /\ s ∈ xstreams w).
  { intros t Ht. apply list_elem_of_In, in_map_iff in Ht as (s & <- & Hs%list_elem_of_In). eauto. }
  assert (S' : forall s, s ∈ xstreams w -> f s ∈ xstreams w').
  { intros s Hs. apply list_elem_of_In, in_map. by apply list_elem_of_In. }
  destruct I. split; try done; change (used w') with (used w).
  - unfold names. cbn. rewrite map_map. erewrite map_ext_in; [exact xi_names0|].
    intros s Hs%list_elem_of_In. by apply M.
  - intros t (s & -> & Hs)%S. rewrite (proj1 (M s Hs)). by apply xi_used0.
  - intros t (s & -> & Hs)%S. by apply M.
  - intros t u (s & -> & Hs)%S (v & -> & Hv)%S. destruct (M s Hs) as [-> Ms], (M v Hv) as [-> Mv].
    destruct (md_output _ _ Ms) as [-> ->], (md_output _ _ Mv) as [-> ->]. by apply xi_excl0.
  - intros t h (s & -> & Hs)%S. destruct (M s Hs) as [_ Ms]. rewrite (md_tl _ _ Ms). by apply xi_tl0.
  - intros fd. change (open_fds w') with (open_fds w). rewrite xi_fds0. split.
    + intros (s & Hs & E & Hfd). exists (f s). split; [by apply S'|]. by rewrite (proj1 (md_fd _ _ (proj2 (M s Hs)))).
    + intros (t & (s & -> & Hs)%S & E & Hfd). exists s. split; [done|].
      by rewrite (proj1 (md_fd _ _ (proj2 (M s Hs)))) in E.
  - intros t u (s & -> & Hs)%S (v & -> & Hv)%S. destruct (M s Hs) as [-> Ms], (M v Hv) as [-> Mv].
    destruct (md_fd _ _ Ms) as [-> _], (md_fd _ _ Mv) as [-> _]. by apply xi_fd_inj0.
  - intros t (s & -> & Hs)%S. destruct (md_fd _ _ (proj2 (M s Hs))) as [E1 E2]. unfold owns. rewrite E1, E2.
    by apply xi_owns0.
  - destruct xi_torns0 as (? & ? & X). split_and!; [done|done|]. intros t (s & -> & Hs)%S.
    destruct (M s Hs) as [-> Ms]. intros Y. by apply (md_torn _ _ Ms), X.
  - destruct xi_claims0 as (? & ? & X). split_and!; [done|done|]. intros t (s & -> & Hs)%S.
    destruct (M s Hs) as [-> Ms]. intros Y. by apply (md_claim _ _ Ms), X.
  - intros t (s & -> & Hs)%S Y. destruct (M s Hs) as [-> Ms]. apply xi_claimed0; [done|]. by apply (md_claimed _ _ Ms).
Qed.

Lemma mild_prev s o : sok s -> x_listed s = true -> mild s (s <| x_prev_output := o |>).
Proof.
  intros O L. split; try done. destruct O as [O1 O2 [] O4 O5 O6]. split; try done. cbn. intros R.
  rewrite O1, R in L. done.
Qed.
Lemma mild_unconfined s : sok s -> mild s (s <| x_confined := false |>).
Proof.
  intros O. split; try done. destruct O as [O1 O2 [] O4 O5 O6]. split; try done.
  - cbn. intros X. destruct (O4 X) as (_ & ? & ?). done.
  - cbn. intros R. rewrite (O6 R). done.
Qed.

Lemma xinv_output_removed o t w : xinv w -> xinv (output_removed o t w).
Proof.
  intros I. unfold output_removed, output_boundary_streams. cbv zeta.
  set (w1 := w <| xstreams ::= map (fun s => if x_listed s then s <| x_confined := false |> else s) |>).
  assert (I1 : xinv w1).
  { apply xinv_map; [done|]. intros s Hs. pose proof (xi_sok w I s Hs).
    destruct (x_listed s); (split; [done|]); [by apply mild_unconfined|by apply mild_refl]. }
  set (w2 := w1 <| xstreams ::= _ |>).
  assert (I2 : xinv w2).
  { apply xinv_map; [done|]. intros s Hs. pose proof (xi_sok w1 I1 s Hs).
    destruct (x_listed s) eqn:L; cbn; [case_bool_decide|]; (split; [done|]);
      [by apply mild_prev|by apply mild_refl..]. }
  apply (xinv_world w2); try done; [by apply only_refl|]. intros s h. apply I2.
Qed.

(** ** A subscription *)

Lemma xinv_new r h o allow w :
  xinv w -> r ∉ used w -> h ∈ map xw_handle (xwindows w) -> qdwin_output_has_stream o w = false ->
  xinv (w <| xstreams ::= cons (new_xstream r h o allow) |> <| used ::= cons r |>).
Proof.
  intros I Hr Hh Ho. set (s := new_xstream r h o allow). set (w' := w <| xstreams ::= _ |> <| used ::= _ |>).
  assert (S : forall t, t ∈ xstreams w' <-> t = s \/ t ∈ xstreams w) by (intros t; apply elem_of_cons).
  assert (Hn : forall t, t ∈ xstreams w -> x_res t ≠ r) by (intros t Ht <-; by apply Hr, (xi_used w I)).
  assert (Hx : forall t, t ∈ xstreams w -> x_listed t = true -> x_output t ≠ Some o).
  { intros t Ht L E. apply not_true_iff_false in Ho. apply Ho, existsb_exists. exists t. split.
    - apply filter_In. split; [by apply list_elem_of_In|done].
    - by apply bool_decide_eq_true. }
  destruct I. split; try done.
  - change (names w') with (r :: names w). apply NoDup_cons. split; [|done]. intros X.
    apply list_elem_of_In, in_map_iff in X as (t & E & Ht%list_elem_of_In). by apply (Hn t).
  - intros t [->|Ht]%S; cbn; [by left|right; by apply xi_used0].
  - intros t [->|Ht]%S; [|by apply xi_sok0]. split; cbn; try done. split; cbn; try lia; by left.
  - intros t u [->|Ht]%S [->|Hu]%S Lt Lu E; [done| | |by apply xi_excl0].
    + by destruct (Hx u Hu Lu).
    + by destruct (Hx t Ht Lt).
  - intros t h' [->|Ht]%S E; [|by apply (xi_tl0 t)]. cbn in E. by injection E as <-.
  - intros fd. change (open_fds w') with (open_fds w). rewrite xi_fds0. split.
    + intros (t & Ht & ?). exists t. split; [|done]. apply S. by right.
    + intros (t & [->|Ht]%S & E & Hfd); [cbn in E; lia|eauto].
  - intros t u [->|Ht]%S [->|Hu]%S Hfd E; [done| | |by apply xi_fd_inj0]; cbn in Hfd, E; lia.
  - intros t [->|Ht]%S Hfd; [cbn in Hfd; lia|by apply xi_owns0].
  - destruct xi_torns0 as (X1 & X2 & X3). split_and!; [done|intros t Ht; right; by apply X2|].
    intros t [->|Ht]%S Y; [|by apply X3]. destruct Hr. by apply X2.
  - destruct xi_claims0 as (X1 & X2 & X3). split_and!; [done|intros t Ht; right; by apply X2|].
    intros t [->|Ht]%S Y; [|by apply X3]. destruct Hr. by apply X2.
  - intros t [->|Ht]%S Y; [done|by apply xi_claimed0].
Qed.

(** Live streams, changed where the invariant does not look. *)
Lemma mild_live s s' :
  sok s -> x_released s = false ->
  (x_res s', x_tl s', x_output s', x_listed s', x_released s', x_torn s', x_claimed s', x_input_handle s',
   x_forward_pid s', x_pidfd s', x_watch s')
  = (x_res s, x_tl s, x_output s, x_listed s, x_released s, x_torn s, x_claimed s, x_input_handle s,
     x_forward_pid s, x_pidfd s, x_watch s) ->
  (x_seat s' = false -> x_confined s' = false /\ x_ptr_focus s' = None /\ x_kbd_focus s' = None) ->
  (x_claimed s = true \/ x_token s = ""%string -> x_claimed s' = true \/ x_token s' = ""%string) ->
  mild s s'.
Proof.
  intros [O1 O2 [P1 P2 P3 P4] O4 O5 O6] R E St Tk. injection E as E1 E2 E3 E4 E5 E6 E7 E8 E9 E10 E11.
  split; [|congruence|by split|by split|congruence|done|congruence]. split; [congruence|by rewrite E7, E8| |done| |congruence].
  - split; rewrite ?E9, ?E10, ?E11; done.
  - rewrite E3, E2, E5. done.
Qed.

(** The fields of a stream that pinning leaves alone. *)
Definition unpinned_part (s : xstream) := (x_released s, x_pidfd s, x_forward_pid s, x_claimed s, x_token s).

Lemma pin_became r s w :
  xinv w -> xstream_of r w = Some s -> x_released s = false ->
  xinv (qdwin_view_stream_pin r w) /\ only quiet w (qdwin_view_stream_pin r w)
  /\ exists s', became r s' w (qdwin_view_stream_pin r w) /\ unpinned_part s' = unpinned_part s.
Proof.
  intros I F R. pose proof (xinv_sok r s w I F) as O. unfold qdwin_view_stream_pin. rewrite F.
  assert (N : xinv w /\ only quiet w w /\ exists s', became r s' w w /\ unpinned_part s' = unpinned_part s).
  { split_and!; [done|by apply only_refl|]. exists s. split; [|done]. apply became_refl; [apply I|done]. }
  destruct (x_tl s) as [h|]; [|exact N]. destruct (x_output s) as [o|]; [|exact N].
  destruct (window_of h w) as [x|]; [|exact N]. destruct (xoutput_of o w) as [out|]; [|exact N].
  destruct (xw_view x) as [[pos cur]|]; [|exact N]. destruct (xw_pending x); [exact N|]. clear N. cbv zeta.
  set (f := fun s => s <| x_prev_pos := pos |> <| x_prev_output := cur |>).
  assert (B1 : became r (f s) w (upd_x r f w)) by (apply became_upd; [done|apply I|done]).
  set (w1 := upd_x r f w) in *. set (w2 := xemit (x_repaint o) (place_window h _ _ w1)).
  assert (B2 : became r (f s) w w2).
  { eapply became_ext; [exact B1|done|]. exact (around_place h _ _ w1). }
  assert (B3 : became r ((f s) <| x_pinned := true |>) w (upd_x r (fun s => s <| x_pinned := true |>) w2)).
  { eapply became_trans; [exact B2|].
    apply (became_upd r (fun s => s <| x_pinned := true |>) (f s) w2); [done| |by eapply became_of].
    rewrite (became_names _ _ _ _ B2). apply I. }
  assert (Q : only quiet w (upd_x r (fun s => s <| x_pinned := true |>) w2)) by (by exists [x_repaint o]; split; [|constructor]).
  split_and!; [|exact Q|eexists; split; [exact B3|done]].
  apply (xinv_mild r s ((f s) <| x_pinned := true |>) w); [done|done|exact B3|done|exact Q|].
  apply mild_live; [done|done|done|exact (sok_seat s O)|done].
Qed.

(** Descriptors below the next one are not touched by what is opened and closed
    above it. *)
Lemma filter_below n fd l : (forall x, x ∈ l -> x < n) -> n <= fd -> List.filter (fun x => negb (x =? fd)) l = l.
Proof.
  intros B L. induction l as [|x l IH]; [done|]. cbn.
  assert (x < n) by (apply B; by left). destruct (Z.eqb_spec x fd); [lia|]. cbn. f_equal. apply IH.
  intros y Hy. apply B. by right.
Qed.
Lemma filter_fst_below {A} n fd (l : list (Z * A)) :
  (forall x, x ∈ l -> fst x < n) -> n <= fd -> List.filter (fun x => negb (fst x =? fd)) l = l.
Proof.
  intros B L. induction l as [|x l IH]; [done|]. cbn.
  assert (fst x < n) by (apply B; by left). destruct (Z.eqb_spec (fst x) fd); [lia|]. cbn. f_equal. apply IH.
  intros y Hy. apply B. by right.
Qed.

Ltac drop_fds := repeat (cbn [List.filter negb fst snd]; match goal with
  | |- context [?a =? ?b] => destruct (Z.eqb_spec a b); [try (exfalso; lia)|try (exfalso; lia)] end).

(** All of the kernel state but the processes is back, with higher numbers. *)
Record back (w w' : xworld) : Prop := {
  bk_fds : open_fds w' = open_fds w;
  bk_pidfds : pidfds w' = pidfds w;
  bk_next : next_fd w <= next_fd w'
}.

Lemma back_one w :
  xinv w -> back w (close_pair (fst (make_pipe w)) (snd (make_pipe w))).
Proof.
  intros I. destruct (xi_next w I) as [N1 N2].
  assert (P : forall x, x ∈ pidfds w -> fst x < next_fd w) by (intros x Hx; apply N2, (xi_pidfds w I), Hx).
  split; cbn [make_pipe open_fd close_pair close_descriptor fst snd].
  - change (List.filter (fun x => negb (x =? Z.succ (next_fd w))) (List.filter (fun x => negb (x =? next_fd w))
      (Z.succ (next_fd w) :: next_fd w :: open_fds w)) = open_fds w).
    drop_fds. rewrite !(filter_below (next_fd w) _ (open_fds w)); auto; lia.
  - change (List.filter (fun x => negb (fst x =? Z.succ (next_fd w))) (List.filter (fun x => negb (fst x =? next_fd w))
      (pidfds w)) = pidfds w).
    rewrite !(filter_fst_below (next_fd w) _ (pidfds w)); auto; lia.
  - change (next_fd w <= Z.succ (Z.succ (next_fd w))). lia.
Qed.

Lemma back_two w w2 :
  xinv w ->
  let '(p, w1) := make_pipe w in let '(q, w1) := make_pipe w1 in
  open_fds w2 = open_fds w1 -> pidfds w2 = pidfds w1 -> next_fd w2 = next_fd w1 ->
  back w (close_pair q (close_pair p w2)).
Proof.
  intros I. destruct (xi_next w I) as [N1 N2].
  assert (P : forall x, x ∈ pidfds w -> fst x < next_fd w) by (intros x Hx; apply N2, (xi_pidfds w I), Hx).
  unfold make_pipe, open_fd. cbn [next_fd]. intros E1 E2 E3.
  change (open_fds w2 = Z.succ (Z.succ (Z.succ (next_fd w))) :: Z.succ (Z.succ (next_fd w)) :: Z.succ (next_fd w)
            :: next_fd w :: open_fds w) in E1.
  change (pidfds w2 = pidfds w) in E2. change (next_fd w2 = Z.succ (Z.succ (Z.succ (Z.succ (next_fd w))))) in E3.
  set (n := next_fd w) in *.
  change (back w (close_pair (Z.succ (Z.succ n), Z.succ (Z.succ (Z.succ n))) (close_pair (n, Z.succ n) w2))).
  split; cbn; rewrite ?E1, ?E2, ?E3.
  - drop_fds. rewrite !(filter_below n _ (open_fds w)); auto; lia.
  - rewrite !(filter_fst_below n _ (pidfds w)); auto; lia.
  - lia.
Qed.

(** The child was forked and has its secrets; nothing else happened. *)
Record born (i pid : Z) (w w1 : xworld) : Prop := {
  bn_streams : xstreams w1 = xstreams w;
  bn_around : around w1 = around w;
  bn_back : back w w1;
  bn_procs : processes w1 = mk_process i pid running true :: processes w;
  bn_events : only quiet w w1;
  bn_forked : forked i w1
}.

(** The spawn failed and left nothing. *)
Record undone (r : Z) (s : xstream) (w w' : xworld) : Prop := {
  un_became : became r s w w';
  un_back : back w w';
  un_procs : forall k, k ∈ map pr_key (processes w) -> k ∈ map pr_key (processes w');
  un_events : only (allowed w') w w'
}.

Lemma xinv_undone r s w w' : xinv w -> xstream_of r w = Some s -> undone r s w w' -> xinv w'.
Proof.
  intros I F [B [K1 K2 K3] P E]. pose proof B as [B1 B2 B3]. injection B3 as A1 A2 A3 A4 A5.
  apply (xinv_world_gen w); try done.
  - rewrite B2. apply replace_same; [apply I|done].
  - congruence.
  - intros t h Ht X. rewrite A1. by apply (xi_tl w I t).
Qed.

Lemma kill_child i pid rest w :
  processes w = mk_process i pid running true :: rest -> kill_sigterm pid w = xemit (x_sigterm i) w.
Proof. intros E. unfold kill_sigterm, process_by_pid. rewrite E. cbn. by rewrite Z.eqb_refl. Qed.

Definition with_pid (pid : Z) (s : xstream) : xstream := s <| x_forward_pid := pid |>.

Lemma abandon_spec r pid s w w3 :
  NoDup (names w) -> xstream_of r w = Some s -> x_forward_pid s = 0 ->
  became r (with_pid pid s) w w3 ->
  became r s w (abandon_child r pid w3)
  /\ (open_fds (abandon_child r pid w3), pidfds (abandon_child r pid w3), next_fd (abandon_child r pid w3))
     = (open_fds w3, pidfds w3, next_fd w3)
  /\ map pr_key (processes (abandon_child r pid w3)) = map pr_key (processes w3)
  /\ xevents (abandon_child r pid w3) = xevents w3.
Proof.
  intros N F Z B. destruct (waitpid_spec pid w3) as (W1 & W2 & W3 & W4 & W5). unfold abandon_child. cbv zeta.
  set (w4 := waitpid_nohang pid w3) in *.
  assert (B4 : became r (with_pid pid s) w w4) by (by eapply became_ext).
  split_and!; [|done..]. eapply became_trans; [exact B4|].
  assert (with_pid 0 (with_pid pid s) = s) as X by (destruct s; cbn in *; by subst). rewrite <- X.
  apply (became_upd r (with_pid 0) (with_pid pid s) w4); [done| |by eapply became_of].
  by rewrite (became_names _ _ _ _ B4).
Qed.

(** The child is signalled and forgotten. *)
Lemma abandoned r i pid s w w1 w3 :
  xinv w -> xstream_of r w = Some s -> x_forward_pid s = 0 -> born i pid w w1 ->
  became r (with_pid pid s) w w3 -> back w w3 ->
  map pr_key (processes w3) = map pr_key (processes w1) ->
  only (fun e => quiet e \/ e = x_sigterm i) w1 w3 -> undone r s w (abandon_child r pid w3).
Proof.
  intros I F Z [N1 N2 N3 N4 N5 N6] B K P E.
  destruct (abandon_spec r pid s w w3 (xi_names w I) F Z B) as (A1 & A2 & A3 & A4). injection A2 as V1 V2 V3.
  split; [done| | |].
  - destruct K. split; cbn; [congruence|congruence|lia].
  - intros k Hk. rewrite A3, P, N4. by right.
  - assert (forked i (abandon_child r pid w3)).
    { unfold forked. rewrite A4. by eapply only_keep. }
    apply (only_trans _ _ w1); [eapply only_weaken; [|exact N5]; by intros []|].
    apply (only_trans _ _ w3); [|by apply only_refl]. eapply only_weaken; [|exact E].
    intros e [Q| ->]; [by destruct e|done].
Qed.

Definition watched (pid fd : Z) (s : xstream) : xstream :=
  s <| x_forward_pid := pid |> <| x_pidfd := fd |> <| x_watch := true |>.

Lemma watched_spec r i pid s w w1 :
  xinv w -> xstream_of r w = Some s -> x_forward_pid s = 0 -> x_pidfd s = -1 -> x_released s = false -> 0 < pid ->
  born i pid w w1 ->
  let fd := next_fd w1 in
  let w2 := (upd_x r (with_pid pid) w1) <| open_fds ::= cons fd |> <| next_fd ::= Z.succ |> <| pidfds ::= cons (fd, i) |> in
  let w3 := upd_x r (fun s => s <| x_pidfd := fd |> <| x_watch := true |>) w2 in
  xinv w3 /\ became r (watched pid fd s) w w3.
Proof.
  intros I F Z0 Zf R Hpid [N1 N2 [K1 K2 K3] N4 N5 N6] fd w2 w3. pose proof (xinv_sok r s w I F) as O.
  destruct (xi_next w I) as [Nx1 Nx2].
  assert (B1 : became r (with_pid pid s) w w2).
  { split; [by destruct (find_key x_res _ _ _ F)| |exact N2].
    change (xstreams w2) with (map (fun t => if x_res t =? r then with_pid pid t else t) (xstreams w1)).
    rewrite N1. apply (replace_upd r (with_pid pid)); [apply I|exact F]. }
  assert (B : became r (watched pid fd s) w w3).
  { eapply became_trans; [exact B1|].
    apply (became_upd r (fun s => s <| x_pidfd := fd |> <| x_watch := true |>) (with_pid pid s) w2);
      [done| |by eapply became_of]. rewrite (became_names _ _ _ _ B1). apply I. }
  split; [|exact B].
  apply (xinv_became r s (watched pid fd s) w w3 I F B); [|done|done|split|].
  - assert (0 <= fd) by (unfold fd; lia). destruct O as [O1 O2 _ O4 O5 O6]. split; try done; [|cbn; congruence].
    split; cbn; [lia|symmetry; by apply Z.leb_le|by right|lia].
  - intros x. change (open_fds w3) with (fd :: open_fds w1). rewrite elem_of_cons, K1, Zf. cbn.
    split; [intros [->|Hx]; [right; unfold fd; lia|left; split; [done|]; intros ->; by apply (xinv_side w I)]|].
    intros [[Hx _]|[-> _]]; auto.
  - change (open_fds w3) with (fd :: open_fds w1). rewrite K1. apply NoDup_cons. split; [|apply I].
    intros X%Nx2. unfold fd in X. lia.
  - right. right. exact K3.
  - change (next_fd w <= Z.succ (next_fd w1) /\ next_fd w1 < Z.succ (next_fd w1)). lia.
  - change (pidfds w3) with ((fd, i) :: pidfds w1). change (open_fds w3) with (fd :: open_fds w1).
    rewrite K1, K2. intros p [->|Hp]%elem_of_cons; [split; [by left|by right]|].
    split; [right; by apply (xi_pidfds w I)|by left].
  - change (pidfds w3) with ((fd, i) :: pidfds w1). rewrite K2. cbn. apply NoDup_cons. split; [|apply I].
    intros X. apply list_elem_of_In, in_map_iff in X as (p & E & Hp%list_elem_of_In).
    pose proof (Nx2 _ (proj1 (xi_pidfds w I p Hp))). unfold fd in E. lia.
  - intros p Hp _. change (pidfds w3) with ((fd, i) :: pidfds w1). rewrite K2. by right.
  - intros k Hk. change (processes w3) with (processes w1). rewrite N4. by right.
  - intros _. exists i. split_and!; [by left|done|]. change (processes w3) with (processes w1). rewrite N4. by left.
  - apply (estep_only quiet r s); [done|done|exact N5|by intros []|done|done|done].
Qed.

(** What a spawn does: a watched child or nothing. *)
Definition spawned (r : Z) (s : xstream) (w : xworld) (res : xworld * bool) : Prop :=
  if snd res then exists pid fd, 0 < pid /\ xinv (fst res) /\ became r (watched pid fd s) w (fst res)
  else undone r s w (fst res).

Lemma with_pid_became r i pid s w w1 :
  xinv w -> xstream_of r w = Some s -> born i pid w w1 -> became r (with_pid pid s) w (upd_x r (with_pid pid) w1).
Proof.
  intros I F [N1 N2 _ _ _ _]. split; [by destruct (find_key x_res _ _ _ F)| |exact N2].
  change (xstreams (upd_x r (with_pid pid) w1)) with (map (fun t => if x_res t =? r then with_pid pid t else t) (xstreams w1)).
  rewrite N1. apply (replace_upd r (with_pid pid)); [apply I|exact F].
Qed.

Lemma back_pidfd i w w2 :
  xinv w -> back w w2 ->
  back w (close_descriptor (next_fd w2) (w2 <| open_fds ::= cons (next_fd w2) |> <| next_fd ::= Z.succ |> <| pidfds ::= cons (next_fd w2, i) |>)).
Proof.
  intros I [K1 K2 K3]. destruct (xi_next w I) as [N1 N2].
  assert (P : forall x, x ∈ pidfds w -> fst x < next_fd w) by (intros x Hx; apply N2, (xi_pidfds w I), Hx).
  split; cbn [close_descriptor].
  - change (List.filter (fun x => negb (x =? next_fd w2)) (next_fd w2 :: open_fds w2) = open_fds w). rewrite K1.
    drop_fds. by apply (filter_below (next_fd w)).
  - change (List.filter (fun x => negb (fst x =? next_fd w2)) ((next_fd w2, i) :: pidfds w2) = pidfds w). rewrite K2.
    drop_fds. by apply (filter_fst_below (next_fd w)).
  - change (next_fd w <= Z.succ (next_fd w2)). lia.
Qed.

Lemma watch_spec e r i pid s w w1 :
  xinv w -> xstream_of r w = Some s -> x_forward_pid s = 0 -> x_pidfd s = -1 -> x_released s = false -> 0 < pid ->
  born i pid w w1 -> spawned r s w (watch_child e r i pid w1).
Proof.
  intros I F Z0 Zf R Hpid Bn. unfold watch_child. pose proof (with_pid_became r i pid s w w1 I F Bn) as Bp.
  pose proof (bn_procs _ _ _ _ Bn) as Np. pose proof (bn_back _ _ _ _ Bn) as Nb.
  change (fun s : xstream => s <| x_forward_pid := pid |>) with (with_pid pid).
  cbv zeta. set (w2 := upd_x r (with_pid pid) w1) in *. assert (Kb : back w w2) by (destruct Nb; by split).
  destruct (fk_pidfd e); cbn [negb].
  2: { rewrite (kill_child i pid (processes w) w2 Np). cbn [spawned snd fst].
    apply (abandoned r i pid s w w1); [done|done|done|done| |destruct Kb; by split|done|].
    - by eapply became_ext.
    - exists [x_sigterm i]. split; [done|]. constructor; [by right|constructor]. }
  cbn [open_fd fst snd]. change (next_fd w2) with (next_fd w1) in *.
  set (w3 := w2 <| open_fds ::= cons (next_fd w1) |> <| next_fd ::= Z.succ |> <| pidfds ::= cons (next_fd w1, i) |>).
  destruct (fk_probe e); cbn [negb].
  2: { rewrite (kill_child i pid (processes w) w3 Np). cbn [spawned snd fst].
    apply (abandoned r i pid s w w1); [done|done|done|done| |destruct (back_pidfd i w w2 I Kb); by split|done|].
    - by eapply became_ext.
    - exists [x_sigterm i]. split; [done|]. constructor; [by right|constructor]. }
  destruct (fk_source e); cbn [negb].
  - exists pid, (next_fd w1). split; [done|]. by apply (watched_spec r i pid s w w1).
  - destruct (send_signal_spec (next_fd w1) w3) as (S1 & S2 & S3 & S4).
    assert (Hi : pidfd_of (next_fd w1) w3 = Some i).
    { unfold pidfd_of. change (pidfds w3) with ((next_fd w1, i) :: pidfds w1). cbn. by rewrite Z.eqb_refl. }
    rewrite Hi in S4. set (w4 := qdwin_pidfd_send_signal (next_fd w1) w3) in *.
    cbn [spawned snd fst]. apply (abandoned r i pid s w w1); [done|done|done|done| | | |].
    + eapply became_ext; [exact Bp|exact S1|exact S2].
    + injection S3 as T1 T2 T3 T4. destruct (back_pidfd i w w2 I Kb) as [X1 X2 X3]. split.
      * change (List.filter (fun x => negb (x =? next_fd w1)) (open_fds w4) = open_fds w). rewrite T2. exact X1.
      * change (List.filter (fun x => negb (fst x =? next_fd w1)) (pidfds w4) = pidfds w). rewrite T3. exact X2.
      * change (next_fd w <= next_fd w4). rewrite T4. exact X3.
    + injection S3 as T1 _ _ _. change (map pr_key (processes w4) = map pr_key (processes w1)). by rewrite T1.
    + apply (only_trans _ _ w3); [by apply only_refl|]. apply (only_trans _ _ w4); [|by apply only_refl].
      eapply only_weaken; [|exact S4]. intros ev X. destruct ev; try done. cbn in X. injection X as ->. by right.
Qed.

Lemma undone_refl r s w w' :
  xinv w -> xstream_of r w = Some s -> xstreams w' = xstreams w -> around w' = around w -> back w w' ->
  processes w' = processes w -> xevents w' = xevents w -> undone r s w w'.
Proof.
  intros I F E1 E2 K P E. split; [|done|by rewrite P|by apply only_refl].
  by eapply became_ext; [apply became_refl; [apply I|exact F]|..].
Qed.

Lemma spawn_spec e r s w :
  xinv w -> xstream_of r w = Some s -> x_forward_pid s = 0 -> x_pidfd s = -1 -> x_released s = false ->
  (forall i pid, fk_child e = Some (i, pid) -> 0 < pid) ->
  spawned r s w (qdwin_view_stream_spawn_forward e r w).
Proof.
  intros I F Z0 Zf R Hp. unfold qdwin_view_stream_spawn_forward. rewrite F.
  destruct (fk_pipe1 e); cbn [negb]; [|by apply undone_refl].
  pose proof (back_one w I) as K1. destruct (make_pipe w) as [p w1] eqn:M1. cbn [fst snd] in K1.
  assert (X1 : xstreams w1 = xstreams w /\ around w1 = around w /\ processes w1 = processes w /\ xevents w1 = xevents w)
    by (by injection M1 as <- <-).
  destruct X1 as (X1 & Y1 & P1 & E1).
  destruct (fk_pipe2 e); cbn [negb]; [|by apply undone_refl; [..|destruct K1; by split| |]].
  pose proof (fun w2 => back_two w w2 I) as K2. rewrite M1 in K2. destruct (make_pipe w1) as [q w2] eqn:M2.
  assert (X2 : xstreams w2 = xstreams w1 /\ around w2 = around w1 /\ processes w2 = processes w1 /\ xevents w2 = xevents w1)
    by (by injection M2 as <- <-).
  destruct X2 as (X2 & Y2 & P2 & E2). rewrite X1 in X2. rewrite Y1 in Y2. rewrite P1 in P2. rewrite E1 in E2.
  destruct (fk_child e) as [[i pid]|].
  2: { cbn [spawned snd fst]. apply undone_refl; [done|done|done|done| |done|done]. by apply K2. }
  destruct (qdwin_forward_write_secret (fk_write1 e) (x_token s)) as [o1 ok1].
  destruct (qdwin_forward_write_secret (fk_write2 e) (x_password s)) as [o2 ok2]. cbv zeta.
  set (w3 := w2 <| processes ::= cons (mk_process i pid running true) |>).
  set (w4 := close_pair q (close_pair p _)).
  assert (Bn : born i pid w w4).
  { split; [exact X2|exact Y2|by apply K2| | |].
    - change (mk_process i pid running true :: processes w2 = mk_process i pid running true :: processes w). by rewrite P2.
    - exists [x_secret i o2; x_secret i o1; x_exec i (fk_bin e); x_forked i]. split; [|by repeat constructor].
      change (x_secret i o2 :: x_secret i o1 :: x_exec i (fk_bin e) :: x_forked i :: xevents w2
              = x_secret i o2 :: x_secret i o1 :: x_exec i (fk_bin e) :: x_forked i :: xevents w). by rewrite E2.
    - change (x_forked i ∈ x_secret i o2 :: x_secret i o1 :: x_exec i (fk_bin e) :: x_forked i :: xevents w2).
      do 3 right. by left. }
  destruct (ok1 && ok2); cbn [negb]; [by apply (watch_spec e r i pid s w w4); eauto|].
  rewrite (kill_child i pid (processes w) w4 (bn_procs _ _ _ _ Bn)). cbn [spawned snd fst].
  set (w5 := xemit (x_sigterm i) w4). destruct (waitpid_spec pid w5) as (W1 & W2 & W3 & W4 & W5).
  set (w6 := waitpid_nohang pid w5) in *. injection W4 as V1 V2 V3. destruct Bn as [N1 N2 [N3 N3' N3''] N4 N5 N6].
  split.
  - eapply became_ext; [apply became_refl; [apply I|exact F]|by rewrite W1|by rewrite W2].
  - split; [by rewrite V1|by rewrite V2|by rewrite V3].
  - intros k Hk. rewrite W5. change (processes w5) with (processes w4). rewrite N4. by right.
  - assert (forked i w6) by (unfold forked; rewrite W3; by right).
    apply (only_trans _ _ w4); [eapply only_weaken; [|exact N5]; by intros []|].
    apply (only_trans _ _ w5); [by apply only_emit|by apply only_refl].
Qed.
