(* ===== verification/StreamsTheorems.v ===== *)
(** * StreamsTheorems: exported views over every run

    The steps the compositor takes for its streams, between those the windows,
    outputs and processes around it take, and what holds in every state they
    reach. *)

From Stdlib Require Import Ascii String.
From stdpp Require Import base list gmap strings option.
From S2P Require Import Prelude Logic State Procfs Streams StreamsFacts.
From stdpp Require Import list.
#[local] Open Scope Z_scope.

(** ** Live streams have a forwarder *)

(** Every stream but those in [rs] that is not a tombstone has its forwarder. *)
Definition alive (rs : list Z) (w : xworld) : Prop :=
  forall s, s ∈ xstreams w -> x_res s ∉ rs -> x_released s = false -> 0 < x_forward_pid s.

Lemma alive_became rs r s' w w' :
  alive rs w -> became r s' w w' -> (r ∉ rs -> x_released s' = false -> 0 < x_forward_pid s') -> alive rs w'.
Proof.
  intros A B H t Ht Hn. rewrite (bc_streams _ _ _ _ B) in Ht. apply elem_replace in Ht as [[-> _]|[Ht _]].
  - apply H. by rewrite <- (bc_res _ _ _ _ B).
  - by apply A.
Qed.

Lemma alive_ext rs w w' : alive rs w -> xstreams w' = xstreams w -> alive rs w'.
Proof. intros A E s. rewrite E. apply A. Qed.

(** The stream named [r] came to be as it should. *)
Lemma alive_done r s w : alive [r] w -> NoDup (names w) -> xstream_of r w = Some s ->
  (x_released s = false -> 0 < x_forward_pid s) -> alive [] w.
Proof.
  intros A N F H t Ht _. destruct (decide (x_res t = r)) as [E|E]; [|apply A; [done|by intros [|X%elem_of_nil]%elem_of_cons]].
  assert (t = s) as ->; [|done]. unfold xstream_of in F. rewrite (find_unique x_res r _ t N Ht E) in F. congruence.
Qed.

Lemma alive_destroyed r w : xinv w -> alive [r] w -> xstream_of r w <> None -> alive [] (xstream_resource_destroyed r w).
Proof.
  intros I A F t Ht _ R. unfold xstream_resource_destroyed in Ht. destruct (xstream_of r w) as [s|] eqn:E; [|done].
  destruct (xinv_release r s w I E) as (_ & B & _). cbv zeta in Ht.
  apply list_elem_of_In, filter_In in Ht as [Ht%list_elem_of_In Hn%negb_true_iff%Z.eqb_neq].
  rewrite (bc_streams _ _ _ _ B) in Ht. apply elem_replace in Ht as [[-> _]|[Ht _]]; [done|].
  apply A; [done| |done]. by intros [|X%elem_of_nil]%elem_of_cons.
Qed.

(** ** A subscription, whole *)

(** A stream that nobody has seen yet. *)
Record unborn (r : Z) (s : xstream) (w : xworld) : Prop := {
  ub_inv : xinv w;
  ub_of : xstream_of r w = Some s;
  ub_fields : (x_released s, x_forward_pid s, x_pidfd s, x_claimed s) = (false, 0, -1, false);
  ub_alive : alive [r] w;
  ub_claims : r ∉ claims w
}.

Lemma unborn_upd r f s w :
  unborn r s w ->
  (forall t, (x_res (f t), x_tl (f t), x_output (f t), x_listed (f t), x_released (f t), x_torn (f t), x_claimed (f t),
      x_input_handle (f t), x_forward_pid (f t), x_pidfd (f t), x_watch (f t))
    = (x_res t, x_tl t, x_output t, x_listed t, x_released t, x_torn t, x_claimed t, x_input_handle t,
       x_forward_pid t, x_pidfd t, x_watch t)) ->
  (x_seat (f s) = false -> x_confined (f s) = false /\ x_ptr_focus (f s) = None /\ x_kbd_focus (f s) = None) ->
  unborn r (f s) (upd_x r f w).
Proof.
  intros [I F E A C] H St. injection E as E1 E2 E3 E4.
  assert (B : became r (f s) w (upd_x r f w)).
  { apply became_upd; [intros t; by specialize (H t) as [=]|apply I|done]. }
  pose proof (H s) as Hs. injection Hs as H1 H2 H3 H4 H5 H6 H7 H8 H9 H10 H11.
  destruct (find_key x_res _ _ _ F) as [Hr Hin].
  assert (O : sok (f s)).
  { pose proof (xinv_sok r s w I F) as [O1 O2 [P1 P2 P3 P4] O4 O5 O6].
    split; [congruence|by rewrite H7, H8| |done|by rewrite H3, H2, H5|congruence].
    split; rewrite ?H9, ?H10, ?H11; done. }
  split; [|by eapply became_of|congruence| |done].
  - apply (xinv_became r s (f s) w _ I F B O); [by rewrite H2|by rewrite H3, H4| |].
    + by apply kstep_same.
    + split.
      * done.
      * intros p. apply (xi_signals w I).
      * destruct (xi_torns w I) as (X1 & X2 & X3). split_and!; [done|by left|]. rewrite H6, <- Hr. by apply X3.
      * destruct (xi_claims w I) as (X1 & X2 & X3). split_and!; [done|by left|done].
      * rewrite H7, E4. done.
      * done.
  - eapply alive_became; [done|exact B|]. intros X. destruct X. by left.
Qed.

Lemma denied_good r reason s w :
  xinv w -> xstream_of r w = Some s -> alive [r] w ->
  xinv (deny_and_destroy r reason w) /\ alive [] (deny_and_destroy r reason w).
Proof.
  intros I F A. unfold deny_and_destroy. cbv zeta. assert (I1 : xinv (xemit (x_denied r reason) w)) by (by apply xinv_emit).
  split; [by apply xinv_destroyed|]. apply alive_destroyed; [done|by eapply alive_ext|].
  change (xstream_of r w <> None). by rewrite F.
Qed.

Lemma start_good e r s w :
  unborn r s w -> (forall i pid, fk_child (sb_spawn e) = Some (i, pid) -> 0 < pid) ->
  xinv (start_stream e r w) /\ alive [] (start_stream e r w).
Proof.
  intros U Hp. unfold start_stream. cbv zeta.
  assert (U1 : unborn r (s <| x_port := next_stream_port w |>) (upd_x r (fun s => s <| x_port := next_stream_port w |>) w)).
  { apply (unborn_upd r (fun s => s <| x_port := next_stream_port w |>)); [done|done|].
    exact (sok_seat s (xinv_sok r s w (ub_inv _ _ _ U) (ub_of _ _ _ U))). }
  set (s1 := s <| x_port := next_stream_port w |>) in *.
  set (w1 := (upd_x r (fun s => s <| x_port := next_stream_port w |>) w) <| next_stream_port ::= u32_succ |>).
  assert (U2 : unborn r s1 w1).
  { destruct U1 as [I F E A C]. split; [|exact F|exact E|exact A|exact C].
    eapply xinv_world; [exact I|done|done|done|done|by apply only_refl|]. apply I. }
  destruct (qdwin_hex_token (sb_random1 e) 33 16) as [token|], (qdwin_hex_token (sb_random2 e) 17 8) as [password|];
    try (eapply denied_good; apply U2).
  pose proof (unborn_upd r (fun s => s <| x_token := token |> <| x_password := password |>) s1 w1 U2 ltac:(done)) as U3.
  specialize (U3 (sok_seat s1 (xinv_sok r s1 w1 (ub_inv _ _ _ U2) (ub_of _ _ _ U2)))).
  set (s2 := s1 <| x_token := token |> <| x_password := password |>) in *. set (w2 := upd_x r _ w1) in *.
  pose proof (unborn_upd r (fun s => s <| x_seat := true |>) s2 w2 U3 ltac:(done) ltac:(done)) as U4.
  change (upd_x r (fun s => s <| x_seat := true |>) w2) with (qdwin_stream_seat_init r w2) in U4.
  set (s3 := s2 <| x_seat := true |>) in *. set (w3 := qdwin_stream_seat_init r w2) in *.
  destruct U4 as [I F E A C]. injection E as E1 E2 E3 E4.
  pose proof (spawn_spec (sb_spawn e) r s3 w3 I F E2 E3 E1 Hp) as S.
  destruct (qdwin_view_stream_spawn_forward (sb_spawn e) r w3) as [w4 ok]. cbn [spawned fst snd] in S. destruct ok.
  - destruct S as (pid & fd & Hpid & I4 & B4). split; [by apply xinv_emit|].
    eapply (alive_ext _ w4); [|done]. eapply (alive_done r (watched pid fd s3)); [|apply I4|by eapply became_of|done].
    eapply alive_became; [exact A|exact B4|done].
  - pose proof (xinv_undone r s3 w3 w4 I F S) as I4. destruct S as [B4 _ _ _].
    eapply denied_good; [done|by eapply became_of|]. eapply alive_became; [exact A|exact B4|].
    intros X. destruct X. by left.
Qed.

Lemma subscribe_good e client shell bound id h allow w :
  xinv w -> alive [] w -> id ∉ used w -> (forall i pid, fk_child (sb_spawn e) = Some (i, pid) -> 0 < pid) ->
  let w' := qdwin_handle_subscribe_view_stream e client shell bound id h allow w in
  xinv w' /\ alive [] w'.
Proof.
  intros I A Hid Hp w'. unfold w', qdwin_handle_subscribe_view_stream.
  assert (Q : forall ev, quiet ev -> xinv (xemit ev w) /\ alive [] (xemit ev w)).
  { intros ev X. split; [by apply xinv_emit|by eapply alive_ext]. }
  destruct bound; cbn [negb]; [|by apply Q]. destruct (window_of h w) as [x|] eqn:Wx; [|by apply Q].
  destruct (sb_res_oom e); [by apply Q|]. destruct (xw_pending x); [by apply Q|].
  destruct (qdwin_find_free_pipewire_output w) as [o|] eqn:Eo; [|by apply Q]. destruct (sb_oom e); [by apply Q|].
  clear w' Q. cbv zeta. set (s0 := new_xstream id h (xo_id o) _). set (w0 := w <| xstreams ::= _ |> <| used ::= _ |>).
  apply find_some in Eo as [_ [_ Eo%negb_true_iff]%andb_prop].
  destruct (find_key xw_handle _ _ _ Wx) as [Hh Hx].
  assert (I0 : xinv w0).
  { apply xinv_new; [done|done| |done]. rewrite <- Hh. apply list_elem_of_In, in_map. by apply list_elem_of_In. }
  assert (F0 : xstream_of id w0 = Some s0).
  { change (List.find (fun s => x_res s =? id) (s0 :: xstreams w) = Some s0). cbn. by rewrite Z.eqb_refl. }
  destruct (pin_became id s0 w0 I0 F0 eq_refl) as (I1 & Q1 & s1 & B1 & E1). injection E1 as E11 E12 E13 E14 E15.
  assert (A0 : alive [id] w0).
  { intros t Ht Hn R. change (t ∈ s0 :: xstreams w) in Ht. apply elem_of_cons in Ht as [->|Ht]; [by destruct Hn; left|].
    apply A; [done|by intros ?%elem_of_nil|done]. }
  eapply start_good; [|done]. split; [done|by eapply became_of|congruence| |].
  - eapply alive_became; [exact A0|exact B1|]. intros X. destruct X. by left.
  - destruct (only_torns quiet w0 _ ltac:(by intros []) Q1) as (_ & -> & _). intros X. by apply Hid, (xi_claims w I).
Qed.

(** ** The input channel *)

Lemma xstream_of_elem s w : xinv w -> s ∈ xstreams w -> xstream_of (x_res s) w = Some s.
Proof. intros I H. by apply (find_unique x_res); [apply I| |]. Qed.

Lemma by_token_spec token s w :
  qdwin_view_stream_by_token token w = Some s ->
  s ∈ xstreams w /\ x_listed s = true /\ x_token s = token /\ token <> ""%string.
Proof.
  unfold qdwin_view_stream_by_token. destruct (String.eqb_spec token ""); [done|].
  intros [H1 [_ H2%String.eqb_eq]%andb_prop]%find_some. apply filter_In in H1 as [H1%list_elem_of_In H3]. done.
Qed.

Lemma live_listed s w : xinv w -> s ∈ xstreams w -> x_listed s = true -> x_released s = false.
Proof. intros I H L. rewrite (sok_listed s (xi_sok w I s H)) in L. by destruct (x_released s). Qed.

Lemma input_live s w : xinv w -> s ∈ xstreams w -> is_Some (x_input_handle s) -> x_released s = false.
Proof.
  intros I H [h Hh]. destruct (x_released s) eqn:R; [|done]. rewrite (sok_dead s (xi_sok w I s H) R) in Hh. done.
Qed.

(** A change of one live stream of the mild kind, in a state where all is well. *)
Lemma good_mild r f s w :
  xinv w -> alive [] w -> xstream_of r w = Some s -> (forall t, x_res (f t) = x_res t) -> mild s (f s) ->
  x_released (f s) = x_released s -> xinv (upd_x r f w) /\ alive [] (upd_x r f w).
Proof.
  intros I A F K M R.
  assert (B : became r (f s) w (upd_x r f w)) by (apply became_upd; [done|apply I|done]).
  split; [by apply (xinv_mild r s (f s) w); [..|apply only_refl|]|].
  eapply alive_became; [done|exact B|]. rewrite R, (proj2 (md_fd _ _ M)). intros _.
  destruct (find_key x_res _ _ _ F) as [Hr Hs]. apply A; [done|by intros ?%elem_of_nil].
Qed.

Lemma claim_good client r handle pid token oom ptr w :
  xinv w -> alive [] w ->
  let w' := qdwin_stream_input_handle_claim client r handle pid token oom ptr w in
  xinv w' /\ alive [] w'.
Proof.
  intros I A w'. unfold w', qdwin_stream_input_handle_claim. clear w'.
  assert (Q : forall ev, quiet ev -> xinv (xemit ev w) /\ alive [] (xemit ev w)).
  { intros ev X. split; [by apply xinv_emit|by eapply alive_ext]. }
  destruct oom; [by apply Q|]. destruct (qdwin_view_stream_by_token token w) as [s|] eqn:T; [|by apply Q].
  destruct (x_claimed s) eqn:C; [by apply Q|]. destruct (_ || _) eqn:G; [by apply Q|]. clear Q. cbv zeta.
  apply orb_false_iff in G as [G1%Z.leb_gt _]. destruct (by_token_spec token s w T) as (Hs & L & Ht & Hne).
  pose proof (live_listed s w I Hs L) as R. pose proof (xstream_of_elem s w I Hs) as F.
  pose proof (xi_sok w I s Hs) as O. set (f := fun s => s <| x_claimed := true |> <| x_input_handle := Some handle |>).
  set (w1 := xemit (x_claim_ok (x_res s) handle pid) (upd_x (x_res s) f w)).
  assert (B : became (x_res s) (f s) w w1).
  { eapply became_ext; [apply (became_upd _ f s w); [done|apply I|exact F]|done|done]. }
  assert (Kp : forall e, e ∈ xevents w -> e ∈ xevents w1) by (intros e He; by right).
  assert (Nc : x_res s ∉ claims w).
  { intros X. destruct (xi_claims w I) as (_ & _ & X3). destruct (X3 s Hs X); congruence. }
  assert (I1 : xinv w1).
  { apply (xinv_became (x_res s) s (f s) w w1 I F B); [|done|done|by apply kstep_same|].
    - destruct O as [O1 O2 [] O4 O5 O6]. split; try done. cbn. congruence.
    - split; [done| | | |intros _; by left|done].
      + intros p [X|X]%elem_of_cons; [done|]. apply Kp. by apply (xi_signals w I).
      + destruct (xi_torns w I) as (X1 & X2 & X3). split_and!; [done|by left|]. intros X. by apply (X3 s Hs).
      + destruct (xi_claims w I) as (X1 & X2 & X3). change (claims w1) with (x_res s :: claims w).
        split_and!; [by apply NoDup_cons|intros t [->|X]%elem_of_cons; auto|by left]. }
  assert (A1 : alive [] w1).
  { eapply alive_became; [exact A|exact B|]. intros _ _. cbn. lia. }
  unfold stream_confine_start. pose proof (became_of _ _ _ _ _ B F) as F1.
  change (xstream_of (x_res s) w1) with (xstream_of (x_res s) w1). rewrite F1.
  destruct (x_confined (f s) || negb (x_seat (f s))) eqn:St; [done|]. destruct ptr; [|done].
  apply orb_false_iff in St as [_ St%negb_false_iff].
  apply (good_mild _ (fun s => s <| x_confined := true |>) (f s)); [done|done|done|done| |done].
  apply mild_live; [by eapply xinv_sok|done|done| |done]. intros X. cbn in *. congruence.
Qed.

Lemma stream_of_handle_spec h s w :
  xinv w -> stream_of_handle h w = Some s ->
  s ∈ xstreams w /\ x_input_handle s = Some h /\ x_claimed s = true /\ xstream_of (x_res s) w = Some s
  /\ x_released s = false.
Proof.
  intros I [H1%list_elem_of_In H2%bool_decide_eq_true]%find_some. split_and!; [done|done| |by apply xstream_of_elem|].
  - rewrite (sok_claim s (xi_sok w I s H1)), H2. by apply bool_decide_eq_true.
  - by eapply input_live; [done|done|rewrite H2].
Qed.

Lemma handle_destroyed_good h w :
  xinv w -> alive [] w ->
  xinv (qdwin_stream_input_handle_resource_destroyed h w) /\ alive [] (qdwin_stream_input_handle_resource_destroyed h w).
Proof.
  intros I A. unfold qdwin_stream_input_handle_resource_destroyed. destruct (stream_of_handle h w) as [s|] eqn:E; [|done].
  destruct (stream_of_handle_spec h s w I E) as (Hs & Hh & Hc & F & R). cbv zeta.
  set (f := fun s => s <| x_input_handle := None |> <| x_claimed := false |> <| x_token := ""%string |>).
  assert (G : xinv (upd_x (x_res s) f w) /\ alive [] (upd_x (x_res s) f w)).
  { apply (good_mild _ f s); [done|done|done|done| |done]. split; try done; [|by right].
    destruct (xi_sok w I s Hs) as [O1 O2 [] O4 O5 O6]. split; try done. cbn. congruence. }
  destruct G as [I1 A1]. unfold stream_confine_end. eapply (good_mild _ (fun s => s <| x_confined := false |>) (f s));
    [done|done| |done| |done].
  - eapply became_of; [apply (became_upd _ f s w); [done|apply I|exact F]|exact F].
  - apply mild_unconfined. eapply xinv_sok; [exact I1|].
    eapply became_of; [apply (became_upd _ f s w); [done|apply I|exact F]|exact F].
Qed.

(** The input a claimed stream sends. *)
Definition input_of (r : Z) (e : xevent) : Prop :=
  match e with x_motion t | x_button t _ _ | x_axis t _ | x_key t _ _ => t = r | _ => False end.

Lemma input_good r s e w :
  xinv w -> alive [] w -> xstream_of r w = Some s -> x_claimed s = true -> input_of r e ->
  xinv (xemit e w) /\ alive [] (xemit e w).
Proof.
  intros I A F C E. destruct (find_key x_res _ _ _ F) as [Hr Hs]. split; [|by eapply alive_ext].
  assert (Hc : r ∈ claims w) by (rewrite <- Hr; by apply (xi_claimed w I)).
  assert (Q : torns (xemit e w) = torns w /\ claims (xemit e w) = claims w /\ inputs (xemit e w) = r :: inputs w)
    by (destruct e; try done; cbn in E; by subst).
  destruct Q as (Q1 & Q2 & Q3). assert (Kp : forall ev, ev ∈ xevents w -> ev ∈ xevents (xemit e w)) by (by right).
  destruct I. split; rewrite ?Q1, ?Q2, ?Q3; try done.
  - intros p Hp. destruct (xi_pidfds p Hp). split; [done|by apply Kp].
  - intros t Ht Hfd. destruct (xi_owns t Ht Hfd) as (i & X1 & X2 & X3). exists i. split_and!; [done|by apply Kp|done].
  - intros p [X|X]%elem_of_cons; [by subst|by apply Kp, xi_signals].
  - intros t [->|X]%elem_of_cons; [done|by apply xi_inputs].
Qed.

Lemma focus_good ptr kbd s w :
  xinv w -> alive [] w -> xstream_of (x_res s) w = Some s -> x_released s = false ->
  let w' := qdwin_stream_seat_assert_focus ptr kbd s w in
  xinv w' /\ alive [] w' /\ exists s', xstream_of (x_res s) w' = Some s' /\ x_claimed s' = x_claimed s.
Proof.
  intros I A F R w'. unfold w', qdwin_stream_seat_assert_focus. clear w'.
  destruct (x_tl s) as [t|]; [|eauto]. destruct (window_of t w) as [x|]; [|eauto].
  destruct (negb (x_seat s) || _ || _) eqn:G; [eauto|].
  apply orb_false_iff in G as [[G%negb_false_iff _]%orb_false_iff _].
  set (f := fun s => s <| x_ptr_focus ::= (fun f => if ptr then Some t else f) |>
                       <| x_kbd_focus ::= (fun f => if kbd then Some t else f) |>).
  destruct (good_mild (x_res s) f s w I A F) as [I1 A1]; [done| |done|].
  - apply mild_live; [by eapply xinv_sok|done|done| |done]. intros X. cbn in X. congruence.
  - split_and!; [done|done|]. exists (f s). split; [|done].
    eapply became_of; [apply (became_upd _ f s w); [done|apply I|exact F]|exact F].
Qed.

Lemma injection_cases h k w :
  with_injection h k w = w
  \/ exists s t x v, stream_of_handle h w = Some s /\ x_locked w = false /\ x_allow_input s = true /\ x_seat s = true
       /\ x_tl s = Some t /\ window_of t w = Some x /\ xw_view x = Some v /\ with_injection h k w = k s w.
Proof.
  unfold with_injection. destruct (stream_of_handle h w) as [s|]; [|by left].
  destruct (x_locked w || negb (x_allow_input s) || negb (x_seat s)) eqn:G; [by left|].
  apply orb_false_iff in G as [[G1 G2%negb_false_iff]%orb_false_iff G3%negb_false_iff].
  destruct (x_tl s) as [t|] eqn:E1; [|by left]. destruct (window_of t w) as [x|] eqn:E2; [|by left].
  destruct (xw_view x) as [v|] eqn:E3; [|by left]. right. by exists s, t, x, v.
Qed.

(** The four requests that carry input. *)
Inductive injection := inj_motion | inj_button (button state : Z) | inj_axis (axis : Z) | inj_key (key state : Z).
Definition inject (i : injection) (h : Z) (ptr kbd : bool) : xworld -> xworld :=
  match i with
  | inj_motion => qdwin_stream_input_inject_pointer_motion h ptr kbd
  | inj_button b st => qdwin_stream_input_inject_pointer_button h b st
  | inj_axis a => qdwin_stream_input_inject_pointer_axis h a
  | inj_key k st => qdwin_stream_input_inject_key h k st ptr kbd
  end.

Lemma inject_good i h ptr kbd w :
  xinv w -> alive [] w -> xinv (inject i h ptr kbd w) /\ alive [] (inject i h ptr kbd w).
Proof.
  intros I A.
  assert (D : forall s e, stream_of_handle h w = Some s -> input_of (x_res s) e -> xinv (xemit e w) /\ alive [] (xemit e w)).
  { intros s e E Ie. destruct (stream_of_handle_spec h s w I E) as (_ & _ & C & F & _). by eapply input_good. }
  assert (G : forall s e, stream_of_handle h w = Some s -> input_of (x_res s) e ->
    let w' := xemit e (qdwin_stream_seat_assert_focus ptr kbd s w) in xinv w' /\ alive [] w').
  { intros s e E Ie. destruct (stream_of_handle_spec h s w I E) as (_ & _ & C & F & R).
    destruct (focus_good ptr kbd s w I A F R) as (I1 & A1 & s' & F' & C'). eapply input_good; [done|done|done|congruence|done]. }
  destruct i; cbn [inject];
    unfold qdwin_stream_input_inject_pointer_motion, qdwin_stream_input_inject_pointer_button,
      qdwin_stream_input_inject_pointer_axis, qdwin_stream_input_inject_key;
    match goal with |- context [with_injection h ?k w] =>
      destruct (injection_cases h k w) as [E|(s & t & x & v & Hs & _ & _ & _ & _ & _ & _ & E)]; rewrite E end;
    cbv zeta; try done; first [by apply (D s)|by apply (G s)].
Qed.

(** ** Runs *)

Definition window_added (x : xwindow) (w : xworld) : xworld := w <| xwindows ::= cons x |>.
(** A window moves, gets or loses its view, or is decided on. *)
Definition window_changed (x : xwindow) (w : xworld) : xworld := upd_window (xw_handle x) (fun _ => x) w.
Definition output_added (o : xoutput) (w : xworld) : xworld := w <| xoutputs ::= cons o |>.

Inductive xstep : xworld -> xworld -> Prop :=
| xs_subscribe e client shell bound id h allow w : id ∉ used w ->
    (forall i pid, fk_child (sb_spawn e) = Some (i, pid) -> 0 < pid) ->
    xstep w (qdwin_handle_subscribe_view_stream e client shell bound id h allow w)
| xs_destroy r w : xstep w (xstream_resource_destroyed r w)
| xs_pidfd r w : xstep w (qdwin_forward_pidfd_ready r w)
| xs_claim client r handle pid token oom ptr w :
    xstep w (qdwin_stream_input_handle_claim client r handle pid token oom ptr w)
| xs_release h w : xstep w (qdwin_stream_input_handle_resource_destroyed h w)
| xs_inject i h ptr kbd w : xstep w (inject i h ptr kbd w)
| xs_frame h w : xstep w (qdwin_stream_input_handle_request_frame h w)
| xs_lock w : xstep w (xlock w)
| xs_unlock w : xstep w (xunlock w)
| xs_window_added x w : xstep w (window_added x w)
| xs_window_changed x w : xstep w (window_changed x w)
| xs_window_removed h w : xstep w (window_removed h w)
| xs_output_added o w : xstep w (output_added o w)
| xs_output_removed o t w : xstep w (output_removed o t w)
| xs_exits i w : xstep w (process_exits i w)
| xs_reaped i w : xstep w (process_reaped i w)
| xs_started i pid w : xstep w (process_started i pid w).

(** No stream yet. *)
Definition xstart (ws : list xwindow) (os : list xoutput) (port : Z) (ps : list process) (fd : Z) : xworld :=
  mk_xworld [] ws os false port ps [] [] fd [] [].

Inductive xreach : xworld -> Prop :=
| xr_start ws os port ps fd : 0 <= fd -> xreach (xstart ws os port ps fd)
| xr_step w w' : xreach w -> xstep w w' -> xreach w'.

Lemma start_inv ws os port ps fd : 0 <= fd -> xinv (xstart ws os port ps fd).
Proof.
  intros H. set (w := xstart ws os port ps fd).
  assert (Ns : forall s, ~ s ∈ xstreams w) by (intros s; apply not_elem_of_nil).
  assert (Nz : forall x, ~ x ∈ open_fds w) by (intros x; apply not_elem_of_nil).
  assert (Np : forall x, ~ x ∈ pidfds w) by (intros x; apply not_elem_of_nil).
  assert (Ne : forall x, ~ x ∈ xevents w) by (intros x; apply not_elem_of_nil).
  assert (Nr : forall x, ~ x ∈ @nil Z) by (intros x; apply not_elem_of_nil).
  split; try (by constructor); try (by intros; exfalso; first [by eapply Ns|by eapply Np|by eapply Ne]).
  - intros x. split; [by intros []%Nz|]. by intros (s & []%Ns & _).
  - split; [done|]. by intros x []%Nz.
  - split_and!; [by constructor|by intros r []%Nr|by intros s []%Ns].
  - split_and!; [by constructor|by intros r []%Nr|by intros s []%Ns].
  - by intros r []%Nr.
Qed.

Lemma good_world w w' :
  xinv w -> alive [] w -> xstreams w' = xstreams w -> used w' = used w ->
  (open_fds w', pidfds w', next_fd w') = (open_fds w, pidfds w, next_fd w) -> xevents w' = xevents w ->
  (forall k, k ∈ map pr_key (processes w) -> k ∈ map pr_key (processes w')) ->
  (forall h, h ∈ map xw_handle (xwindows w) -> h ∈ map xw_handle (xwindows w')) -> xinv w' /\ alive [] w'.
Proof.
  intros I A E1 E2 E3 E4 P W. split; [|by eapply alive_ext]. eapply xinv_world; [exact I|done..|by apply only_refl|].
  intros s h Hs Ht. by apply W, (xi_tl w I s).
Qed.

Lemma alive_released w w' :
  alive [] w -> (forall t, t ∈ xstreams w' -> x_released t = true \/ t ∈ xstreams w) -> alive [] w'.
Proof. intros A H t Ht Hn R. destruct (H t Ht) as [X|X]; [congruence|]. by apply A. Qed.

Lemma keys_upd i f w :
  (forall p, pr_key (f p) = pr_key p) -> map pr_key (processes (upd_process i f w)) = map pr_key (processes w).
Proof. intros K. cbn. rewrite map_map. apply map_ext. intros p. destruct (pr_id p =? i); [apply K|done]. Qed.

Lemma xstep_good w w' : xstep w w' -> xinv w -> alive [] w -> xinv w' /\ alive [] w'.
Proof.
  intros S I A. destruct S.
  - by apply subscribe_good.
  - split; [by apply xinv_destroyed|]. destruct (xstream_of r w) as [s|] eqn:F.
    + apply alive_destroyed; [done| |by rewrite F]. intros t Ht _. apply A; [done|by intros ?%elem_of_nil].
    + unfold xstream_resource_destroyed. by rewrite F.
  - destruct (xinv_pidfd_ready r w I) as [I1 S1]. split; [done|]. by eapply alive_released.
  - by apply claim_good.
  - by apply handle_destroyed_good.
  - by apply inject_good.
  - unfold qdwin_stream_input_handle_request_frame. destruct (stream_of_handle h w) as [s|]; [|done].
    destruct (x_pinned s); cbn [negb]; [|done]. destruct (x_output s); [|done].
    split; [by apply xinv_emit|by eapply alive_ext].
  - split; [by apply xinv_lock|]. unfold xlock. cbv zeta. set (w1 := w <| x_locked := true |>).
    destruct (good_world w w1 I A) as [I1 A1]; [done..|].
    destruct (xinv_terminate_all (fun _ => true) "compositor locked" w1 I1) as (_ & _ & S1).
    eapply alive_released; [exact A1|]. intros t Ht. destruct (S1 t Ht) as [?|[? _]]; auto.
  - by apply (good_world w).
  - apply (good_world w); try done. intros h Hh. by right.
  - apply (good_world w); try done. intros h Hh. cbn. rewrite map_map.
    erewrite map_ext; [exact Hh|]. intros y. cbn. destruct (Z.eqb_spec (xw_handle y) (xw_handle x)); congruence.
  - split; [by apply xinv_window_removed|]. unfold window_removed. cbv zeta.
    destruct (xinv_terminate_all (fun s => bool_decide (x_tl s = Some h)) "source toplevel closed" w I) as (_ & _ & S1).
    eapply (alive_ext _ (terminate_all _ _ w)); [|done]. eapply alive_released; [exact A|].
    intros t Ht. destruct (S1 t Ht) as [?|[? _]]; auto.
  - by apply (good_world w).
  - split; [by apply xinv_output_removed|]. intros y Hy Hn R. unfold output_removed, output_boundary_streams in Hy.
    cbn in Hy. apply list_elem_of_In in Hy. rewrite map_map in Hy. apply in_map_iff in Hy as (z & <- & Hz%list_elem_of_In).
    specialize (A z Hz (fun X => proj1 (elem_of_nil _) X)).
    destruct (x_listed z) eqn:L; cbn in *; rewrite ?L in *; cbn in *; [case_bool_decide|]; by apply A.
  - apply (good_world w); try done. intros k Hk. unfold process_exits. rewrite keys_upd; [done|].
    intros p. by case_bool_decide.
  - apply (good_world w); try done. intros k Hk. unfold process_reaped. rewrite keys_upd; [done|].
    intros p. by case_bool_decide.
  - apply (good_world w); try done. intros k Hk. by right.
Qed.

Lemma xreach_good w : xreach w -> xinv w /\ alive [] w.
Proof.
  induction 1 as [ws os port ps fd H|w w' _ [I A] S]; [|by eapply xstep_good].
  split; [by apply start_inv|]. by intros s ?%elem_of_nil.
Qed.

(** ** What holds in every run *)

Lemma replace_find_other r s' t l :
  x_res s' = r -> t ≠ r ->
  List.find (fun s => x_res s =? t) (replace r s' l) = List.find (fun s => x_res s =? t) l.
Proof.
  intros E N. unfold replace. induction l as [|y l IH]; [done|]. cbn. destruct (Z.eqb_spec (x_res y) r) as [Ey|].
  - rewrite E, Ey, (proj2 (Z.eqb_neq r t)) by congruence. exact IH.
  - by destruct (x_res y =? t).
Qed.

(** C28.  The descriptors the plugin holds for its streams are exactly the pidfds
    of the streams that are not over, each once.  A stream that is over is an
    inert tombstone; one that is not is watched, its pidfd stands for a process
    forked for it whose number is its forward pid, and no other stream is on its
    PipeWire output. *)
Theorem stream_resources_accounted (w : xworld) (H : xreach w) :
  (forall fd, fd ∈ open_fds w <-> exists s, s ∈ xstreams w /\ x_released s = false /\ x_pidfd s = fd)
  /\ NoDup (open_fds w)
  /\ forall s, s ∈ xstreams w ->
       if x_released s then s = dead s
       else x_watch s = true /\ owns s w /\ is_Some (x_output s)
            /\ forall t, t ∈ xstreams w -> x_output t = x_output s -> t = s.
Proof.
  destruct (xreach_good w H) as [I A].
  assert (L : forall s, s ∈ xstreams w -> x_released s = false -> 0 <= x_pidfd s).
  { intros s Hs R. apply (fok_armed s (sok_forward s (xi_sok w I s Hs))). apply A; [done|apply not_elem_of_nil|done]. }
  split_and!; [|apply I|].
  - intros fd. rewrite (xi_fds w I). split.
    + intros (s & Hs & E & Hfd). exists s. split_and!; [done| |done]. destruct (x_released s) eqn:R; [|done].
      rewrite (sok_dead s (xi_sok w I s Hs) R) in E. cbn in E. lia.
    + intros (s & Hs & R & <-). eauto.
  - intros s Hs. pose proof (xi_sok w I s Hs) as O. destruct (x_released s) eqn:R; [by apply O|].
    specialize (L s Hs R). destruct (sok_live s O R) as [[o Ho] _]. split_and!; [|by apply (xi_owns w I)|by rewrite Ho|].
    + rewrite (fok_watch s (sok_forward s O)). by apply Z.leb_le.
    + intros t Ht E. pose proof (xi_sok w I t Ht) as Ot. apply (key_unique x_res _ _ _ (xi_names w I)); [done|done|].
      apply (xi_excl w I); [done|done| | |done].
      * rewrite (sok_listed t Ot). destruct (x_released t) eqn:Rt; [|done]. rewrite (sok_dead t Ot Rt) in E. cbn in E. congruence.
      * by rewrite (sok_listed s O), R.
Qed.

(** What any run leaves on record: [SIGTERM] was only ever sent to a process
    forked as a forwarder, however process numbers are reused; input was only
    delivered for a stream whose channel was claimed; a token was taken at most
    once, also after the claim was released, and a stream reported as torn down
    at most once. *)
Theorem stream_history_sound (w : xworld) (H : xreach w) :
  (forall p, x_sigterm p ∈ xevents w -> x_forked p ∈ xevents w)
  /\ (forall r, r ∈ inputs w -> r ∈ claims w) /\ NoDup (claims w) /\ NoDup (torns w).
Proof. destruct (xreach_good w H) as [I _]. split_and!; apply I. Qed.

(** The stream of the channel [h]: not over, and claimed. *)
Definition channel_of (h : Z) (s : xstream) (w : xworld) : Prop :=
  s ∈ xstreams w /\ x_input_handle s = Some h /\ x_released s = false /\ x_res s ∈ claims w.

Lemma handle_channel h s w : xinv w -> stream_of_handle h w = Some s -> channel_of h s w.
Proof.
  intros I Hs. destruct (stream_of_handle_spec h s w I Hs) as (S1 & S2 & S3 & _ & S5).
  split_and!; try done. by apply (xi_claimed w I).
Qed.

(** C30.  A request of the input channel that injects input (motion, button,
    axis or key) does something only while the session is unlocked, for a
    stream that allows input, that is not over, that was claimed, whose handle
    it is and whose window still has a view.  The channel's frame request is not
    so guarded, but no input comes of it: it does nothing, or it schedules a
    repaint of the PipeWire output that the stream of that handle is pinned
    to. *)
Theorem injected_input_authorised (i : injection) (h : Z) (ptr kbd : bool) (w : xworld) (H : xreach w) :
  (inject i h ptr kbd w <> w ->
   exists s t x, channel_of h s w /\ x_allow_input s = true /\ x_locked w = false
     /\ x_tl s = Some t /\ window_of t w = Some x /\ is_Some (xw_view x))
  /\ (let w' := qdwin_stream_input_handle_request_frame h w in
      w' = w \/ exists s o, channel_of h s w /\ x_pinned s = true /\ x_output s = Some o
                 /\ w' = xemit (x_repaint o) w /\ inputs w' = inputs w).
Proof.
  destruct (xreach_good w H) as [I _]. split.
  - intros N.
    assert (C : exists k, inject i h ptr kbd w = with_injection h k w).
    { destruct i; cbn; unfold qdwin_stream_input_inject_pointer_motion, qdwin_stream_input_inject_pointer_button,
        qdwin_stream_input_inject_pointer_axis, qdwin_stream_input_inject_key; eauto. }
    destruct C as [k E]. rewrite E in N.
    destruct (injection_cases h k w) as [X|(s & t & x & v & Hs & Lk & Al & _ & Ht & Hx & Hv & _)]; [by destruct N|].
    exists s, t, x. split_and!; try done. by apply handle_channel.
  - cbv zeta. unfold qdwin_stream_input_handle_request_frame.
    destruct (stream_of_handle h w) as [s|] eqn:Hs; [|by left].
    destruct (x_pinned s) eqn:Hp; [|by left]. destruct (x_output s) as [o|] eqn:Ho; [|by left].
    right. exists s, o. split_and!; try done. by apply handle_channel.
Qed.

(** C29.  The channel is given to nobody but the stream's own forwarder: a claim
    that succeeds came with the token of a live stream, whose forwarder is a
    process forked for it with the number of the peer. *)
Theorem claim_only_forwarder (client r handle pid : Z) (token : string) (oom ptr : bool) (w : xworld) (H : xreach w)
    (N : claims (qdwin_stream_input_handle_claim client r handle pid token oom ptr w) <> claims w) :
  exists s, s ∈ xstreams w /\ x_released s = false /\ x_token s = token /\ token <> ""%string
    /\ x_claimed s = false /\ (x_res s ∉ claims w) /\ x_forward_pid s = pid /\ owns s w.
Proof.
  destruct (xreach_good w H) as [I A]. unfold qdwin_stream_input_handle_claim in N.
  destruct oom; [by destruct N|]. destruct (qdwin_view_stream_by_token token w) as [s|] eqn:T; [|by destruct N].
  destruct (x_claimed s) eqn:C; [by destruct N|]. destruct (_ || _) eqn:G; [by destruct N|].
  apply orb_false_iff in G as [G1%Z.leb_gt G2%negb_false_iff%Z.eqb_eq].
  destruct (by_token_spec token s w T) as (Hs & L & Ht & Hne). exists s.
  split_and!; [done|by eapply live_listed|done|done|done| |done|].
  - intros X. destruct (xi_claims w I) as (_ & _ & X3). destruct (X3 s Hs X); congruence.
  - apply (xi_owns w I s Hs). apply (fok_armed s (sok_forward s (xi_sok w I s Hs))). done.
Qed.

(** However a stream ends, everything comes back: it is an inert tombstone
    that keeps neither secret nor window, its descriptor is closed and no other
    one is, its output is free for the next subscription, and no token finds
    it. *)
Theorem terminated_stream_gives_back (reason : string) (r : Z) (s : xstream) (w : xworld) (H : xreach w)
    (F : xstream_of r w = Some s) :
  let w' := xstream_terminate reason r w in
  xstream_of r w' = Some (ended s)
  /\ (forall fd, fd ∈ open_fds w' <-> fd ∈ open_fds w /\ fd ≠ x_pidfd s)
  /\ (forall o, x_output s = Some o -> qdwin_output_has_stream o w' = false)
  /\ (forall token t, qdwin_view_stream_by_token token w' = Some t -> x_res t ≠ r)
  /\ (forall t, t ≠ r -> xstream_of t w' = xstream_of t w).
Proof.
  destruct (xreach_good w H) as [I A]. intros w'.
  destruct (xinv_terminate reason r s w I F) as (I' & B & C). fold w' in I', B, C.
  destruct (find_key x_res _ _ _ F) as [Hr Hs]. split_and!; [by eapply became_of|apply C| | |].
  - intros o Ho. apply not_true_iff_false. intros X. apply existsb_exists in X as (t & Ht & E%bool_decide_eq_true).
    apply filter_In in Ht as [Ht%list_elem_of_In L]. rewrite (bc_streams _ _ _ _ B) in Ht.
    apply elem_replace in Ht as [[-> _]|[Ht Hn]]; [done|]. apply Hn. rewrite <- Hr.
    assert (R : x_released s = false).
    { destruct (x_released s) eqn:R; [|done]. rewrite (sok_dead s (xi_sok w I s Hs) R) in Ho. done. }
    apply (xi_excl w I); [done|done|done| |congruence]. by rewrite (sok_listed s (xi_sok w I s Hs)), R.
  - intros token t T E. destruct (by_token_spec token t w' T) as (Ht & L & _ & _).
    rewrite (bc_streams _ _ _ _ B) in Ht. apply elem_replace in Ht as [[-> _]|[_ Hn]]; done.
  - intros t Ht. unfold xstream_of. rewrite (bc_streams _ _ _ _ B). by apply replace_find_other; [apply B|].
Qed.

(** ** Secrets *)

Definition unhex_digit (c : ascii) : option Z :=
  let n := Z.of_nat (nat_of_ascii c) in
  if (48 <=? n) && (n <=? 57) then Some (n - 48)
  else if (97 <=? n) && (n <=? 102) then Some (n - 87) else None.
Fixpoint unhex (s : string) : option (list Z) :=
  match s with
  | EmptyString => Some []
  | String a (String b s) =>
      match unhex_digit a, unhex_digit b, unhex s with
      | Some x, Some y, Some l => Some (16 * x + y :: l)
      | _, _, _ => None
      end
  | String _ EmptyString => None
  end.

Definition is_byte (b : Z) : Prop := 0 <= b < 256.

Lemma unhex_hex_digit d : 0 <= d < 16 -> unhex_digit (hex_digit d) = Some d.
Proof.
  intros H. assert (d = Z.of_nat (Z.to_nat d)) as -> by lia. assert (Z.to_nat d < 16)%nat as L by lia.
  revert L. generalize (Z.to_nat d). intros n L. do 16 (destruct n as [|n]; [done|]). lia.
Qed.

Lemma unhex_hex l : Forall is_byte l -> unhex (hex_bytes l) = Some l.
Proof.
  induction 1 as [|b l Hb _ IH]; [done|]. cbn [hex_bytes unhex].
  assert (E : Z.land b 15 = b mod 16) by (apply (Z.land_ones b 4); lia).
  rewrite E, Z.shiftr_div_pow2 by lia. change (2 ^ 4) with 16. unfold is_byte in Hb.
  rewrite !unhex_hex_digit; [|apply Z.mod_pos_bound; lia|split; [apply Z.div_pos; lia|apply Z.div_lt_upper_bound; lia]].
  rewrite IH. do 2 f_equal. rewrite (Z.div_mod b 16) at 3 by lia. done.
Qed.

Lemma length_hex l : String.length (hex_bytes l) = (2 * length l)%nat.
Proof. induction l as [|b l IH]; [done|]. cbn. rewrite IH. lia. Qed.

(** Bytes of an answer. *)
Definition answer_bytes (r : getrandom_result) : list Z := match r with got l => l | _ => [] end.

Lemma getrandom_fills results n off tries buf :
  Forall is_byte off -> Forall (fun r => Forall is_byte (answer_bytes r)) results ->
  qdwin_getrandom_full results n off tries = Some buf -> (n <= length buf)%nat /\ Forall is_byte buf.
Proof.
  revert off tries. induction results as [|r results IH]; intros off tries Ho Hr;
    cbn [qdwin_getrandom_full]; destruct (Nat.leb_spec n (length off)); try (intros [= <-]; done); try done.
  apply Forall_cons in Hr as [Hr Hrs]. destruct r as [[|b l]| |]; cbn in Hr.
  - destruct (64 <=? S tries)%nat; [done|by apply IH].
  - apply IH; [by apply Forall_app|done].
  - destruct (S tries <? 64)%nat; [by apply IH|done].
  - done.
Qed.

(** A token that was made is the hexadecimal text of the bytes the kernel
    gave, all of them: it has two characters a byte and decodes to them. *)
Theorem hex_token_roundtrip (results : list getrandom_result) (n : nat) (token : string)
    (B : Forall (fun r => Forall is_byte (answer_bytes r)) results) (L : (n <= 32)%nat)
    (T : qdwin_hex_token results (2 * n + 1) n = Some token) :
  String.length token = (2 * n)%nat
  /\ exists buf, qdwin_getrandom_full results n [] 0 = Some buf /\ unhex token = Some (firstn n buf).
Proof.
  unfold qdwin_hex_token in T. rewrite (Nat.min_l n 32 L) in T.
  destruct (qdwin_getrandom_full results n [] 0) as [buf|] eqn:E; [|done]. apply (inj Some) in T. subst token.
  destruct (getrandom_fills results n [] 0 buf) as [Hl Hb]; [constructor|done|done|].
  replace (Nat.min ((2 * n + 1 - 1) / 2) n) with n.
  2: { replace (2 * n + 1 - 1)%nat with (n * 2)%nat by lia. rewrite Nat.div_mul by lia. lia. }
  split; [by rewrite length_hex, (firstn_length_le _ Hl)|]. exists buf. split; [done|]. apply unhex_hex. by apply Forall_take.
Qed.

Lemma getrandom_decided results more n off tries :
  (tries < 64)%nat -> (n - length off + (64 - tries) <= length results)%nat ->
  qdwin_getrandom_full (results ++ more) n off tries = qdwin_getrandom_full results n off tries.
Proof.
  revert off tries. induction results as [|r results IH]; intros off tries Ht L; [cbn in L; lia|]. cbn [app length] in *.
  cbn [qdwin_getrandom_full]. destruct (Nat.leb_spec n (length off)); [done|]. destruct r as [[|b l]| |].
  - destruct (Nat.leb_spec 64 (S tries)); [done|]. apply IH; lia.
  - apply IH; [done|]. rewrite length_app. cbn. lia.
  - destruct (Nat.ltb_spec (S tries) 64); [|done]. apply IH; lia.
  - done.
Qed.

(** The kernel is asked at most [n + 64] times for [n] bytes, whatever it
    answers: nothing later changes the outcome. *)
Lemma getrandom_bounded (results more : list getrandom_result) (n : nat) (L : (n + 64 <= length results)%nat) :
  qdwin_getrandom_full (results ++ more) n [] 0 = qdwin_getrandom_full results n [] 0.
Proof. apply getrandom_decided; cbn; lia. Qed.

(** ** A run *)

Definition ok_spawn (i pid : Z) : spawn_env :=
  mk_spawn_env true true (Some (i, pid)) "/usr/bin/qdistro-forward" [wrote 32] [wrote 16] true true true.
Definition ok_env (i pid : Z) : sub_env :=
  mk_sub_env false false [interrupted; got (repeat 171 10); got (repeat 1 6)] [got (repeat 7 8)] (ok_spawn i pid).
Definition ex_start : xworld :=
  xstart [mk_xwindow 5 (Some ((10, 20), Some 1)) [Some 1] false] [mk_xoutput 1 "HDMI-A-1" (0, 0); mk_xoutput 2 "pipewire-0" (1920, 0)]
    3390 [] 20.
Definition ex_stream : xworld := qdwin_handle_subscribe_view_stream (ok_env 100 4242) 1 2 true 7 5 1 ex_start.
Definition ex_token : string := "abababababababababab010101010101".
Definition ex_claimed : xworld := qdwin_stream_input_handle_claim 3 8 9 4242 ex_token false true ex_stream.

Lemma ex_claimed_reach : xreach ex_claimed.
Proof.
  apply (xr_step ex_stream); [|apply xs_claim]. apply (xr_step ex_start); [by apply xr_start|]. apply xs_subscribe.
  - apply not_elem_of_nil.
  - intros i pid [= <- <-]. done.
Qed.

Lemma stream_resources_accounted_witness :
  open_fds ex_claimed = [24] /\ NoDup (open_fds ex_claimed) /\ map x_output (xstreams ex_claimed) = [Some 2].
Proof.
  split; [vm_compute; reflexivity|]. split; [|vm_compute; reflexivity].
  exact (proj1 (proj2 (stream_resources_accounted ex_claimed ex_claimed_reach))).
Defined.

Lemma stream_history_sound_witness :
  inputs (inject inj_motion 9 true true ex_claimed) = [7]
  /\ (forall r, r ∈ inputs (inject inj_motion 9 true true ex_claimed) -> r ∈ claims (inject inj_motion 9 true true ex_claimed)).
Proof.
  split; [vm_compute; reflexivity|].
  apply (stream_history_sound (inject inj_motion 9 true true ex_claimed)).
  apply (xr_step ex_claimed); [exact ex_claimed_reach|apply xs_inject].
Defined.

Lemma injected_input_authorised_witness :
  (exists s t x, channel_of 9 s ex_claimed /\ x_allow_input s = true /\ x_locked ex_claimed = false
    /\ x_tl s = Some t /\ window_of t ex_claimed = Some x /\ is_Some (xw_view x))
  /\ exists s o, channel_of 9 s ex_claimed /\ x_pinned s = true /\ x_output s = Some o
       /\ qdwin_stream_input_handle_request_frame 9 ex_claimed = xemit (x_repaint o) ex_claimed
       /\ inputs (qdwin_stream_input_handle_request_frame 9 ex_claimed) = inputs ex_claimed.
Proof.
  destruct (injected_input_authorised (inj_key 30 1) 9 true true ex_claimed ex_claimed_reach) as [A B].
  split; [apply A|destruct B as [B|B]; [exfalso|exact B]].
  - intros E. apply (f_equal (fun w => length (xevents w))) in E. vm_compute in E. discriminate.
  - apply (f_equal (fun w => length (xevents w))) in B. vm_compute in B. discriminate.
Defined.

Lemma claim_only_forwarder_witness :
  exists s, s ∈ xstreams ex_stream /\ x_released s = false /\ x_token s = ex_token /\ ex_token <> ""%string
    /\ x_claimed s = false /\ (x_res s ∉ claims ex_stream) /\ x_forward_pid s = 4242 /\ owns s ex_stream.
Proof.
  apply (claim_only_forwarder 3 8 9 4242 ex_token false true ex_stream).
  - apply (xr_step ex_start); [by apply xr_start|]. apply xs_subscribe; [apply not_elem_of_nil|].
    intros i pid [= <- <-]. done.
  - vm_compute. discriminate.
Defined.

Lemma terminated_stream_gives_back_witness :
  exists s, xstream_of 7 ex_claimed = Some s
    /\ xstream_of 7 (xstream_terminate "compositor locked" 7 ex_claimed) = Some (ended s).
Proof.
  destruct (xstream_of 7 ex_claimed) as [s|] eqn:E; [|vm_compute in E; discriminate]. exists s. split; [reflexivity|].
  exact (proj1 (terminated_stream_gives_back "compositor locked" 7 s ex_claimed ex_claimed_reach E)).
Defined.

Lemma hex_token_roundtrip_witness :
  qdwin_hex_token [interrupted; got (repeat 171 10); got (repeat 1 6)] 33 16 = Some ex_token
  /\ String.length ex_token = 32%nat.
Proof.
  split; [vm_compute; reflexivity|].
  apply (hex_token_roundtrip [interrupted; got (repeat 171 10); got (repeat 1 6)] 16 ex_token).
  - repeat constructor; cbn; lia.
  - lia.
  - vm_compute. reflexivity.
Defined.

Example getrandom_gives_up :
  qdwin_getrandom_full (repeat interrupted 80 ++ [got [1; 2; 3; 4; 5; 6; 7; 8]]) 8 [] 0 = None.
Proof. rewrite (getrandom_bounded (repeat interrupted 80)); [vm_compute; reflexivity|cbn; lia]. Qed.

(** ** What the code does not keep *)

(** Losing any output, here one that has nothing to do with the stream, ends the
    confinement of a claimed stream; input still goes through. *)
Example confinement_lost :
  let w := output_removed 99 (Some 1) ex_claimed in
  map x_confined (xstreams ex_claimed) = [true] /\ map x_confined (xstreams w) = [false]
  /\ map x_claimed (xstreams w) = [true] /\ inputs (inject (inj_button 272 1) 9 true true w) = [7].
Proof. vm_compute. done. Qed.

(** A window can be exported while the session is locked. *)
Example stream_started_locked :
  let w := qdwin_handle_subscribe_view_stream (ok_env 100 4242) 1 2 true 7 5 1 (xlock ex_start) in
  x_locked w = true /\ map x_forward_pid (xstreams w) = [4242] /\ map x_pinned (xstreams w) = [true].
Proof. vm_compute. done. Qed.

(** The stream keeps the PipeWire output it is pinned to when that output goes,
    and a frame request schedules a repaint on it. *)
Example pipewire_output_dangles :
  let w := output_removed 2 (Some 1) ex_claimed in
  map x_output (xstreams w) = [Some 2] /\ map xo_id (xoutputs w) = [1]
  /\ head (xevents (qdwin_stream_input_handle_request_frame 9 w)) = Some (x_repaint 2).
Proof. vm_compute. done. Qed.
