(* ===== verification/InputSink.v ===== *)
(** * InputSink: the input channel to a nested compositor

    The QDNI packets of [qdwin-nested-client.c]: how the outer compositor writes
    them to a stream socket, how the nested one reassembles them from whatever
    pieces the kernel returns, the callbacks of [qdwin.c] around both, and how
    the advertised socket path is resolved.  A byte is a number below 256. *)

From Stdlib Require Import Ascii String.
From stdpp Require Import base list gmap strings option pretty.
From S2P Require Import Prelude Logic.
From stdpp Require Import list.
Import Policy.
#[local] Open Scope Z_scope.

(** ** Packets *)

Definition QDNI_MAGIC : Z := 0x49444E51.
Definition QDNI_VERSION : Z := 1.
Definition QDNI_EVENT_PING : Z := 1.
Definition QDNI_EVENT_MOTION : Z := 2.
Definition QDNI_EVENT_BUTTON : Z := 3.
Definition QDNI_EVENT_KEY : Z := 4.
Definition QDNI_EVENT_AXIS : Z := 5.
Definition QDNI_EVENT_FOCUS : Z := 6.

(** [memcpy] of an integer of [n] bytes, little endian, and back. *)
Fixpoint le_bytes (n : nat) (x : Z) : list Z :=
  match n with O => [] | S n => x mod 256 :: le_bytes n (x / 256) end.
Fixpoint le_value (l : list Z) : Z :=
  match l with [] => 0 | b :: l => b + 256 * le_value l end.

Definition i32_of_u32 (x : Z) : Z := if x <? 2 ^ 31 then x else x - 2 ^ 32.

(** The payload structures; [ni_ping] has none. *)
Inductive qdni_event :=
| ni_ping
| ni_motion (time x y : Z)
| ni_button (time button state : Z)
| ni_key (time key state : Z)
| ni_axis (time axis value : Z)
| ni_focus (focused : Z).

(** [qdwin_nested_input_sink_send]: whether it reports success, and the bytes
    that entered the socket.  [n1] and [n2] are what the two [send] calls
    return, negative for an error. *)
Definition qdwin_nested_input_sink_send (peer_fd n1 n2 event_type : Z) (payload : list Z) : bool * list Z :=
  if peer_fd <? 0 then (false, [])
  else
    let hdr := le_bytes 4 QDNI_MAGIC ++ [QDNI_VERSION; event_type] ++ le_bytes 2 (Z.of_nat (length payload)) in
    if negb (n1 =? Z.of_nat (length hdr)) then (false, firstn (Z.to_nat n1) hdr)
    else if (0 <? length payload)%nat then
      if negb (n2 =? Z.of_nat (length payload)) then (false, hdr ++ firstn (Z.to_nat n2) payload)
      else (true, hdr ++ payload)
    else (true, hdr).

(** The send wrappers; a signed field is written as its 32-bit pattern. *)
Definition send_event (peer_fd n1 n2 : Z) (e : qdni_event) : bool * list Z :=
  match e with
  | ni_ping => qdwin_nested_input_sink_send peer_fd n1 n2 QDNI_EVENT_PING []
  | ni_motion t x y =>
      qdwin_nested_input_sink_send peer_fd n1 n2 QDNI_EVENT_MOTION (le_bytes 4 t ++ le_bytes 4 (u32 x) ++ le_bytes 4 (u32 y))
  | ni_button t b s =>
      qdwin_nested_input_sink_send peer_fd n1 n2 QDNI_EVENT_BUTTON (le_bytes 4 t ++ le_bytes 4 b ++ le_bytes 4 s)
  | ni_key t k s =>
      qdwin_nested_input_sink_send peer_fd n1 n2 QDNI_EVENT_KEY (le_bytes 4 t ++ le_bytes 4 k ++ le_bytes 4 s)
  | ni_axis t a v =>
      qdwin_nested_input_sink_send peer_fd n1 n2 QDNI_EVENT_AXIS (le_bytes 4 t ++ le_bytes 4 a ++ le_bytes 4 (u32 v))
  | ni_focus f => qdwin_nested_input_sink_send peer_fd n1 n2 QDNI_EVENT_FOCUS (le_bytes 4 f)
  end.

(** ** The receiving end *)

Definition RBUF_SIZE : nat := 264.
Definition PAYLOAD_SIZE : nat := 256.

(** The bytes in [rbuf] and those the kernel holds for the peer descriptor. *)
Record sink := mk_sink { rbuf : list Z; in_kernel : list Z; peer_closed : bool }.
#[global] Instance eta_sink : Eta sink := fun r => mk_sink (rbuf r) (in_kernel r) (peer_closed r).

(** One successful [recv]: the kernel returns up to [S k] bytes of what it
    has.  Nothing is asked for when the buffer is full. *)
Definition recv (k : nat) (s : sink) : sink :=
  if (length (rbuf s) <? RBUF_SIZE)%nat then
    let n := Nat.min (S k) (RBUF_SIZE - length (rbuf s)) in
    s <| rbuf := rbuf s ++ firstn n (in_kernel s) |> <| in_kernel := skipn n (in_kernel s) |>
  else s.
(** [recv] returned 0. *)
Definition at_eof (s : sink) : bool :=
  (length (rbuf s) <? RBUF_SIZE)%nat && peer_closed s && bool_decide (in_kernel s = []).

Inductive read_result := packet (event_type : Z) (payload : list Z) | again | broken.

(** What the bytes in the buffer start with. *)
Definition parse_one (buf : list Z) : read_result :=
  if (length buf <? 8)%nat then again
  else if negb (le_value (firstn 4 buf) =? QDNI_MAGIC) then broken
  else
    let event_type := nth 5 buf 0 in
    let plen := Z.to_nat (le_value (firstn 2 (skipn 6 buf))) in
    if (PAYLOAD_SIZE <? plen)%nat || (RBUF_SIZE - 8 <? plen)%nat then broken
    else if (length buf <? 8 + plen)%nat then again
    else packet event_type (firstn plen (skipn 8 buf)).

(** [k] is [None] when the [recv] fails with an error other than the
    transient ones. *)
Definition qdwin_nested_input_sink_read_one (k : option nat) (s : sink) : read_result * sink :=
  if (length (rbuf s) <? RBUF_SIZE)%nat && bool_decide (k = None) then (broken, s)
  else if at_eof s && bool_decide (rbuf s = []) then (broken, s)
  else
    let s := recv (default 0%nat k) s in
    match parse_one (rbuf s) with
    | packet t p => (packet t p, s <| rbuf ::= skipn (8 + length p) |>)
    | r => (r, s)
    end.

(** The payload as the structure it is cast to; too short a payload and an
    unknown type are ignored. *)
Definition decode (event_type : Z) (p : list Z) : option qdni_event :=
  let word (i : nat) := le_value (firstn 4 (skipn (4 * i) p)) in
  if event_type =? QDNI_EVENT_PING then Some ni_ping
  else if event_type =? QDNI_EVENT_MOTION then
    if (length p <? 12)%nat then None else Some (ni_motion (word 0%nat) (i32_of_u32 (word 1%nat)) (i32_of_u32 (word 2%nat)))
  else if event_type =? QDNI_EVENT_BUTTON then
    if (length p <? 12)%nat then None else Some (ni_button (word 0%nat) (word 1%nat) (word 2%nat))
  else if event_type =? QDNI_EVENT_KEY then
    if (length p <? 12)%nat then None else Some (ni_key (word 0%nat) (word 1%nat) (word 2%nat))
  else if event_type =? QDNI_EVENT_AXIS then
    if (length p <? 12)%nat then None else Some (ni_axis (word 0%nat) (word 1%nat) (i32_of_u32 (word 2%nat)))
  else if event_type =? QDNI_EVENT_FOCUS then
    if (length p <? 4)%nat then None else Some (ni_focus (word 0%nat))
  else None.

(** The drain loop of the callback: the events it dispatches, oldest first.
    [ks] are what the successive [recv]s return; when they are used up the
    kernel returns one byte a time. *)
Fixpoint drain (fuel : nat) (ks : list (option nat)) (s : sink) : list qdni_event * sink :=
  match fuel with
  | O => ([], s)
  | S fuel =>
      match qdwin_nested_input_sink_read_one (hd (Some 0%nat) ks) s with
      | (packet t p, s) =>
          let '(l, s) := drain fuel (tl ks) s in
          (match decode t p with Some e => e :: l | None => l end, s)
      | (_, s) => ([], s)
      end
  end.

(** Enough for every byte at hand to be a packet of its own. *)
Definition drain_fuel (s : sink) : nat := S (length (rbuf s) + length (in_kernel s)).

(** ** Opening the sink *)

Definition SUN_PATH_SIZE : nat := 108.

(** The path of the socket of a toplevel. *)
Definition sink_path (xdg : option string) (pid handle : Z) : string :=
  let dir := match xdg with Some d => if String.eqb d "" then "/tmp"%string else d | None => "/tmp"%string end in
  (dir ++ "/qdwin-nested-input-" ++ pretty pid ++ "-" ++ pretty handle ++ ".sock")%string.

(** [files] are the socket files on disk.  [got_fd], [bound], [listening],
    [allocated] and [copied] tell which calls succeed. *)
Definition qdwin_nested_input_sink_open (xdg : option string) (pid handle : Z)
    (got_fd : option Z) (bound listening allocated copied : bool) (files : gset string)
    : option (Z * string) * gset string :=
  let path := sink_path xdg pid handle in
  if (256 <=? String.length path)%nat then (None, files)
  else match got_fd with
  | None => (None, files)
  | Some fd =>
      if (SUN_PATH_SIZE <=? String.length path)%nat then (None, files)
      else
        let files := files ∖ {[path]} in
        if negb bound then (None, files)
        else
          let files := {[path]} ∪ files in
          if negb listening || negb allocated || negb copied then (None, files ∖ {[path]})
          else (Some (fd, path), files)
  end.

(** ** The inner compositor's end of the channel *)

(** [listen_source] and [peer_source] are the descriptors the two event sources
    watch; [open_fds] are the descriptors this component owns; a peer of [None]
    is a [peer_fd] of -1. *)
Record inner := mk_inner {
  listen_fd : Z;
  listen_source : option Z;
  peer : option (Z * sink);
  peer_source : option Z;
  open_fds : gset Z
}.
#[global] Instance eta_inner : Eta inner := fun r =>
  mk_inner (listen_fd r) (listen_source r) (peer r) (peer_source r) (open_fds r).

(** What publishing a window makes of the socket it opened; nobody looks
    whether the watch of it could be added. *)
Definition publish_sink (fd : Z) (watched : bool) : inner :=
  mk_inner fd (if watched then Some fd else None) None None {[fd]}.

Definition peer_fd (s : inner) : Z := from_option fst (-1) (peer s).

Definition close_peer (s : inner) : inner :=
  match peer s with
  | Some (fd, _) => s <| open_fds ::= fun X => X ∖ {[fd]} |> <| peer := None |>
  | None => s
  end.

(** [accept4] gives a descriptor, with what its client has already written. *)
Definition qdwin_nested_input_sink_accept (accepted : option (Z * list Z)) (s : inner) : option inner :=
  match accepted with
  | None => None
  | Some (fd, bytes) =>
      let s := close_peer s in
      Some (s <| open_fds ::= fun X => {[fd]} ∪ X |> <| peer := Some (fd, mk_sink [] bytes false) |>)
  end.

(** [watched] tells whether [wl_event_loop_add_fd] succeeds. *)
Definition qdwin_nested_input_sink_listen_cb (hangup : bool) (accepted : option (Z * list Z)) (watched : bool)
    (s : inner) : inner :=
  if hangup then s
  else
    let old_peer_fd := peer_fd s in
    let s := s <| peer_source := None |> in
    match qdwin_nested_input_sink_accept accepted s with
    | None =>
        if (0 <=? old_peer_fd) && (peer_fd s =? old_peer_fd) then
          if watched then s <| peer_source := Some old_peer_fd |> else close_peer s
        else s
    | Some s => if watched then s <| peer_source := Some (peer_fd s) |> else close_peer s
    end.

(** The readable callback.  [event_fd] is the descriptor of the event source;
    [hangup] is in the mask.  It gives the events dispatched. *)
Definition qdwin_nested_input_sink_peer_cb (event_fd : Z) (hangup : bool) (ks : list (option nat)) (s : inner)
    : list qdni_event * inner :=
  if negb (qdwin_nested_input_peer_event_current event_fd (peer_fd s)) then ([], s)
  else if hangup then ([], close_peer (s <| peer_source := None |>))
  else match peer s with
  | None => ([], s)
  | Some (fd, k) => let '(l, k) := drain (drain_fuel k) ks k in (l, s <| peer := Some (fd, k) |>)
  end.

(** The peer and the listening socket are closed, the socket file removed. *)
Definition qdwin_nested_input_sink_close (path : string) (s : inner) (files : gset string) : inner * gset string :=
  let s := close_peer s in
  (s <| open_fds ::= fun X => X ∖ {[listen_fd s]} |>, files ∖ {[path]}).

(** A window that is no longer published: its event sources are removed before
    the descriptors they watch are closed. *)
Definition unpublish_sink (path : string) (s : inner) (files : gset string) : inner * gset string :=
  let s := s <| peer_source := None |> in
  let s := s <| listen_source := None |> in
  qdwin_nested_input_sink_close path s files.

(** ** Where to connect *)

(** The last component after a slash. *)
Fixpoint after_last_slash (s : string) : option string :=
  match s with
  | EmptyString => None
  | String c rest =>
      match after_last_slash rest with
      | Some b => Some b
      | None => if Ascii.eqb c "/"%char then Some rest else None
      end
  end.

Definition is_meta (c : ascii) : bool := existsb (Ascii.eqb c) (list_ascii_of_string "*?[]\").
Fixpoint has_meta (s : string) : bool :=
  match s with EmptyString => false | String c s => is_meta c || has_meta s end.

(** [strchr(uid_start, '/')]: what precedes the first slash, if there is one. *)
Fixpoint before_slash (s : string) : option string :=
  match s with
  | EmptyString => None
  | String c rest => if Ascii.eqb c "/"%char then Some EmptyString else String c <$> before_slash rest
  end.

Fixpoint drop_prefix (p s : string) : option string :=
  match p, s with
  | EmptyString, _ => Some s
  | String a p, String b s => if Ascii.eqb a b then drop_prefix p s else None
  | _, _ => None
  end.

(** The pattern of the container fallback. *)
Definition tier2_pattern (path : string) : option string :=
  match after_last_slash path with
  | None => None
  | Some base =>
      if String.eqb base "" || has_meta base then None
      else match drop_prefix "/run/user/" path with
      | None => None
      | Some rest =>
          match before_slash rest with
          | None => None
          | Some uid =>
              if String.eqb uid "" then None
              else
                let p := ("/run/user/" ++ uid ++ "/qdistro-tier2/*/" ++ base)%string in
                if (256 <=? String.length p)%nat then None else Some p
          end
      end
  end.

(** [connect] gives the descriptor of a path; a path that does not fit its
    address is not tried. *)
Definition qdwin_nested_input_sink_connect_one (connect : string -> option Z) (path : string) : option Z :=
  if String.eqb path "" || (SUN_PATH_SIZE <=? String.length path)%nat then None else connect path.

Definition qdwin_nested_input_sink_connect (connect : string -> option Z) (glob : string -> list string)
    (path : string) : option Z :=
  if String.eqb path "" then None
  else match qdwin_nested_input_sink_connect_one connect path with
  | Some fd => Some fd
  | None =>
      match tier2_pattern path with
      | None => None
      | Some p => head (omap (qdwin_nested_input_sink_connect_one connect) (glob p))
      end
  end.
