(* ===== verification/InputSinkFacts.v ===== *)
(** * InputSinkFacts: packets survive any fragmentation

    The reassembler inverts the sender whatever pieces the kernel returns:
    nothing is lost, reordered or made up, and every byte is read in the end. *)

From Stdlib Require Import Ascii String.
From stdpp Require Import base list gmap strings option.
From S2P Require Import Prelude Logic InputSink.
From stdpp Require Import list.
Import Policy.
#[local] Open Scope Z_scope.

(** ** Numbers in bytes *)

Lemma length_le_bytes n x : length (le_bytes n x) = n.
Proof. revert x. induction n as [|n IH]; intros x; cbn; [done|by rewrite IH]. Qed.

Lemma le_value_bytes n x : 0 <= x < 256 ^ Z.of_nat n -> le_value (le_bytes n x) = x.
Proof.
  revert x. induction n as [|n IH]; intros x H; [cbn in *; lia|]. cbn [le_bytes le_value].
  rewrite Nat2Z.inj_succ, Z.pow_succ_r in H by lia. rewrite IH.
  - pose proof (Z.div_mod x 256 ltac:(lia)). lia.
  - split; [apply Z.div_pos; lia|apply Z.div_lt_upper_bound; lia].
Qed.

(** ** One packet *)

Definition is_u32 (x : Z) : Prop := 0 <= x < 2 ^ 32.
Definition is_i32 (x : Z) : Prop := - 2 ^ 31 <= x < 2 ^ 31.

(** The fields are within the types of the payload structures. *)
Definition wf_event (e : qdni_event) : Prop :=
  match e with
  | ni_ping => True
  | ni_motion t x y => is_u32 t /\ is_i32 x /\ is_i32 y
  | ni_button t a b | ni_key t a b => is_u32 t /\ is_u32 a /\ is_u32 b
  | ni_axis t a v => is_u32 t /\ is_u32 a /\ is_i32 v
  | ni_focus f => is_u32 f
  end.

(** Type and payload of an event. *)
Definition event_type (e : qdni_event) : Z :=
  match e with
  | ni_ping => QDNI_EVENT_PING | ni_motion _ _ _ => QDNI_EVENT_MOTION | ni_button _ _ _ => QDNI_EVENT_BUTTON
  | ni_key _ _ _ => QDNI_EVENT_KEY | ni_axis _ _ _ => QDNI_EVENT_AXIS | ni_focus _ => QDNI_EVENT_FOCUS
  end.
Definition payload (e : qdni_event) : list Z :=
  match e with
  | ni_ping => []
  | ni_motion t x y => le_bytes 4 t ++ le_bytes 4 (u32 x) ++ le_bytes 4 (u32 y)
  | ni_button t a b | ni_key t a b => le_bytes 4 t ++ le_bytes 4 a ++ le_bytes 4 b
  | ni_axis t a v => le_bytes 4 t ++ le_bytes 4 a ++ le_bytes 4 (u32 v)
  | ni_focus f => le_bytes 4 f
  end.


(** A whole packet. *)
Definition packet_bytes (t : Z) (p : list Z) : list Z :=
  le_bytes 4 QDNI_MAGIC ++ [QDNI_VERSION; t] ++ le_bytes 2 (Z.of_nat (length p)) ++ p.
Definition sent_packet (e : qdni_event) : list Z := packet_bytes (event_type e) (payload e).

Lemma send_event_eq fd n1 n2 e : send_event fd n1 n2 e = qdwin_nested_input_sink_send fd n1 n2 (event_type e) (payload e).
Proof. by destruct e. Qed.

Lemma length_payload e : (length (payload e) <= 12)%nat.
Proof. destruct e; cbn [payload]; rewrite ?length_app, ?length_le_bytes; cbn; lia. Qed.

Lemma i32_u32 x : is_i32 x -> i32_of_u32 (u32 x) = x.
Proof.
  unfold is_i32, i32_of_u32, u32. intros H. change 4294967296 with (2 ^ 32).
  destruct (Z.ltb_spec (x mod 2 ^ 32) (2 ^ 31)); [|]; pose proof (Z.div_mod x (2 ^ 32) ltac:(lia));
    pose proof (Z.mod_pos_bound x (2 ^ 32) ltac:(lia)); lia.
Qed.
Lemma u32_is_u32 x : is_u32 (u32 x).
Proof. unfold is_u32, u32. change (2 ^ 32) with 4294967296. apply Z.mod_pos_bound. lia. Qed.

(** The words of a payload of three. *)
Lemma words_of a b c :
  is_u32 a -> is_u32 b -> is_u32 c ->
  let p := le_bytes 4 a ++ le_bytes 4 b ++ le_bytes 4 c in
  le_value (firstn 4 (skipn 0 p)) = a /\ le_value (firstn 4 (skipn 4 p)) = b /\ le_value (firstn 4 (skipn 8 p)) = c.
Proof.
  intros Ha Hb Hc p. unfold is_u32 in *. change (2 ^ 32) with (256 ^ Z.of_nat 4) in *.
  rewrite <- (le_value_bytes 4 a Ha), <- (le_value_bytes 4 b Hb), <- (le_value_bytes 4 c Hc). unfold p. done.
Qed.

Lemma decode_payload e : wf_event e -> decode (event_type e) (payload e) = Some e.
Proof.
  destruct e as [|t x y|t a b|t a b|t a v|f]; cbn [wf_event event_type payload]; [done|..]; intros H.
  - destruct H as (H1 & H2 & H3). destruct (words_of t (u32 x) (u32 y) H1 (u32_is_u32 x) (u32_is_u32 y)) as (E1 & E2 & E3).
    unfold decode. cbn [Z.eqb Pos.eqb QDNI_EVENT_MOTION QDNI_EVENT_PING]. rewrite !length_app, !length_le_bytes.
    cbn [Nat.ltb Nat.leb Nat.add Nat.mul]. rewrite E1, E2, E3, !i32_u32 by done. done.
  - destruct H as (H1 & H2 & H3). destruct (words_of t a b H1 H2 H3) as (E1 & E2 & E3).
    unfold decode. cbn [Z.eqb Pos.eqb QDNI_EVENT_BUTTON QDNI_EVENT_MOTION QDNI_EVENT_PING].
    rewrite !length_app, !length_le_bytes. cbn [Nat.ltb Nat.leb Nat.add Nat.mul]. by rewrite E1, E2, E3.
  - destruct H as (H1 & H2 & H3). destruct (words_of t a b H1 H2 H3) as (E1 & E2 & E3).
    unfold decode. cbn [Z.eqb Pos.eqb QDNI_EVENT_KEY QDNI_EVENT_BUTTON QDNI_EVENT_MOTION QDNI_EVENT_PING].
    rewrite !length_app, !length_le_bytes. cbn [Nat.ltb Nat.leb Nat.add Nat.mul]. by rewrite E1, E2, E3.
  - destruct H as (H1 & H2 & H3). destruct (words_of t a (u32 v) H1 H2 (u32_is_u32 v)) as (E1 & E2 & E3).
    unfold decode. cbn [Z.eqb Pos.eqb QDNI_EVENT_AXIS QDNI_EVENT_KEY QDNI_EVENT_BUTTON QDNI_EVENT_MOTION QDNI_EVENT_PING].
    rewrite !length_app, !length_le_bytes. cbn [Nat.ltb Nat.leb Nat.add Nat.mul]. rewrite E1, E2, E3, i32_u32 by done. done.
  - unfold decode. cbn [Z.eqb Pos.eqb QDNI_EVENT_FOCUS QDNI_EVENT_AXIS QDNI_EVENT_KEY QDNI_EVENT_BUTTON QDNI_EVENT_MOTION QDNI_EVENT_PING].
    rewrite length_le_bytes. cbn [Nat.ltb Nat.leb Nat.mul]. rewrite skipn_O, firstn_all2 by (by rewrite length_le_bytes).
    by rewrite le_value_bytes.
Qed.

(** Success is reported exactly when the whole packet is in the socket, and
    otherwise it is cut short. *)
Lemma send_event_spec fd n1 n2 e ok b :
  send_event fd n1 n2 e = (ok, b) ->
  (ok = true -> b = sent_packet e) /\ b `prefix_of` sent_packet e.
Proof.
  rewrite send_event_eq. unfold qdwin_nested_input_sink_send, sent_packet, packet_bytes. intros E.
  set (q := payload e) in *. set (h1 := le_bytes 4 QDNI_MAGIC) in *. set (h2 := [QDNI_VERSION; event_type e]) in *.
  set (h3 := le_bytes 2 (Z.of_nat (length q))) in *.
  assert (H : h1 ++ h2 ++ h3 ++ q = (h1 ++ h2 ++ h3) ++ q) by (by rewrite <- !app_assoc). rewrite H. clear H.
  repeat case_match; simplify_eq; (split; [|first [apply prefix_nil|apply prefix_app_r, prefix_take|apply prefix_app, prefix_take|done|idtac]]); try done.
  - intros _. destruct (Nat.ltb_spec 0 (length q)); [done|]. destruct q; [by rewrite app_nil_r|cbn in *; lia].
  - by apply prefix_app_r.
Qed.

(** The header of a packet with at most [PAYLOAD_SIZE] bytes. *)
Lemma header_shape t p :
  exists m0 m1 m2 m3 l0 l1,
    packet_bytes t p = m0 :: m1 :: m2 :: m3 :: QDNI_VERSION :: t :: l0 :: l1 :: p
    /\ le_value [m0; m1; m2; m3] = QDNI_MAGIC
    /\ ((length p <= PAYLOAD_SIZE)%nat -> Z.to_nat (le_value [l0; l1]) = length p).
Proof.
  do 6 eexists. split_and!; [reflexivity|reflexivity|]. intros H.
  pose proof (le_value_bytes 2 (Z.of_nat (length p))) as X. cbn [le_bytes] in X. rewrite X; [lia|].
  unfold PAYLOAD_SIZE in H. cbn. lia.
Qed.

Lemma parse_send t p rest :
  (length p <= PAYLOAD_SIZE)%nat -> parse_one (packet_bytes t p ++ rest) = packet t p.
Proof.
  intros H. destruct (header_shape t p) as (m0 & m1 & m2 & m3 & l0 & l1 & E & Em & El). rewrite E. specialize (El H).
  unfold parse_one. rewrite <- !app_comm_cons. cbn [length nth].
  change (firstn 4 (m0 :: m1 :: m2 :: m3 :: QDNI_VERSION :: t :: l0 :: l1 :: (p ++ rest))) with [m0; m1; m2; m3].
  change (firstn 2 (skipn 6 (m0 :: m1 :: m2 :: m3 :: QDNI_VERSION :: t :: l0 :: l1 :: (p ++ rest)))) with [l0; l1].
  change (skipn 8 (m0 :: m1 :: m2 :: m3 :: QDNI_VERSION :: t :: l0 :: l1 :: (p ++ rest))) with (p ++ rest).
  rewrite Em, El, length_app. unfold PAYLOAD_SIZE, RBUF_SIZE in *.
  cbn [Z.eqb negb]. rewrite Z.eqb_refl. cbn [negb].
  destruct (Nat.ltb_spec (S (S (S (S (S (S (S (S (length p + length rest))))))))) 8); [lia|].
  destruct (Nat.ltb_spec 256 (length p)); [lia|]. destruct (Nat.ltb_spec (264 - 8) (length p)); [lia|]. cbn [orb].
  destruct (Nat.ltb_spec (S (S (S (S (S (S (S (S (length p + length rest))))))))) (8 + length p)); [lia|].
  by rewrite take_app_length.
Qed.

Lemma parse_prefix t p pre suf :
  (length p <= PAYLOAD_SIZE)%nat -> pre ++ suf = packet_bytes t p -> suf <> [] -> parse_one pre = again.
Proof.
  intros H E N. unfold parse_one. destruct (Nat.ltb_spec (length pre) 8) as [|L]; [done|].
  destruct (header_shape t p) as (m0 & m1 & m2 & m3 & l0 & l1 & E' & Em & El). specialize (El H). rewrite E' in E.
  do 8 (destruct pre as [|? pre]; [cbn in L; lia|]; cbn [app] in E; injection E as -> E).
  change (firstn 4 (m0 :: m1 :: m2 :: m3 :: QDNI_VERSION :: t :: l0 :: l1 :: pre)) with [m0; m1; m2; m3].
  change (firstn 2 (skipn 6 (m0 :: m1 :: m2 :: m3 :: QDNI_VERSION :: t :: l0 :: l1 :: pre))) with [l0; l1].
  cbn [nth length]. rewrite Em, El, Z.eqb_refl. cbn [negb]. unfold PAYLOAD_SIZE, RBUF_SIZE in *.
  destruct (Nat.ltb_spec 256 (length p)); [lia|]. destruct (Nat.ltb_spec (264 - 8) (length p)); [lia|]. cbn [orb].
  assert (length p = length pre + length suf)%nat by (rewrite <- E, length_app; done).
  destruct suf; [done|]. cbn [length] in *.
  destruct (Nat.ltb_spec (S (S (S (S (S (S (S (S (length pre))))))))) (8 + length p)); [done|lia].
Qed.

(** ** The stream *)

Definition stream (l : list qdni_event) : list Z := concat (map sent_packet l).

Lemma length_packet e : (8 <= length (sent_packet e) <= 20)%nat.
Proof.
  unfold sent_packet. destruct (header_shape (event_type e) (payload e)) as (? & ? & ? & ? & ? & ? & -> & _).
  cbn. pose proof (length_payload e). lia.
Qed.

(** No packet is complete in the buffer. *)
Definition parked (buf : list Z) (rest : list qdni_event) : Prop :=
  match rest with
  | [] => buf = []
  | e :: _ => exists suf, buf ++ suf = sent_packet e /\ suf <> []
  end.

(** The buffer and the kernel hold the packets [rest]. *)
Record holds (s : sink) (rest : list qdni_event) : Prop := {
  ho_bytes : rbuf s ++ in_kernel s = stream rest;
  ho_wf : Forall wf_event rest;
  ho_size : (length (rbuf s) <= RBUF_SIZE)%nat
}.

Lemma holds_recv k s rest : holds s rest -> holds (recv k s) rest.
Proof.
  intros [E W L]. unfold recv. destruct (Nat.ltb_spec (length (rbuf s)) RBUF_SIZE); [|by split].
  split; [|done|].
  - cbn. by rewrite <- app_assoc, take_drop.
  - cbn [rbuf]. change (length (rbuf s ++ firstn (Nat.min (S k) (RBUF_SIZE - length (rbuf s))) (in_kernel s)) <= RBUF_SIZE)%nat.
    rewrite length_app. pose proof (firstn_le_length (Nat.min (S k) (RBUF_SIZE - length (rbuf s))) (in_kernel s)). lia.
Qed.

Lemma recv_kernel k s :
  (length (in_kernel (recv k s)) <= length (in_kernel s))%nat
  /\ ((length (rbuf s) < RBUF_SIZE)%nat -> in_kernel s <> [] -> (length (in_kernel (recv k s)) < length (in_kernel s))%nat)
  /\ (length (rbuf (recv k s)) + length (in_kernel (recv k s)) = length (rbuf s) + length (in_kernel s))%nat.
Proof.
  unfold recv. destruct (Nat.ltb_spec (length (rbuf s)) RBUF_SIZE); [|split_and!; [done|lia|done]].
  set (n := Nat.min (S k) (RBUF_SIZE - length (rbuf s))). cbn [rbuf in_kernel].
  change (rbuf (s <| rbuf := rbuf s ++ firstn n (in_kernel s) |> <| in_kernel := skipn n (in_kernel s) |>))
    with (rbuf s ++ firstn n (in_kernel s)).
  change (in_kernel (s <| rbuf := rbuf s ++ firstn n (in_kernel s) |> <| in_kernel := skipn n (in_kernel s) |>))
    with (skipn n (in_kernel s)).
  rewrite length_app, length_skipn, length_firstn. split_and!; [lia| |lia].
  intros _ N. destruct (in_kernel s); [done|]. cbn [length]. lia.
Qed.

(** What a buffer with a beginning of the stream parses to. *)
Lemma parse_stream s rest :
  holds s rest ->
  parked (rbuf s) rest /\ parse_one (rbuf s) = again
  \/ exists e rest', rest = e :: rest' /\ parse_one (rbuf s) = packet (event_type e) (payload e)
       /\ holds (s <| rbuf ::= skipn (8 + length (payload e)) |>) rest'.
Proof.
  intros [E W L]. destruct rest as [|e rest].
  { left. apply app_eq_nil in E as [E1 E2]. by rewrite E1. }
  unfold stream in E. cbn [map concat] in E. pose proof (length_payload e) as Lp.
  assert (length (payload e) <= PAYLOAD_SIZE)%nat by (unfold PAYLOAD_SIZE; lia).
  apply app_eq_app in E as (l & [[E1 E2]|[E1 E2]]).
  - right. exists e, rest. split; [done|]. unfold sent_packet in E1. split; [rewrite E1; by apply parse_send|].
    apply Forall_cons in W as [_ W]. split; [|done|].
    + change (skipn (8 + length (payload e)) (rbuf s) ++ in_kernel s = stream rest). rewrite E1, skipn_app.
      destruct (header_shape (event_type e) (payload e)) as (? & ? & ? & ? & ? & ? & -> & _). cbn [length].
      rewrite skipn_all2 by (cbn; lia). rewrite Nat.sub_diag. exact (eq_sym E2).
    + change (length (skipn (8 + length (payload e)) (rbuf s)) <= RBUF_SIZE)%nat. rewrite length_skipn. lia.
  - destruct l as [|b l].
    + right. rewrite app_nil_r in E1. exists e, rest. split; [done|]. rewrite <- E1. unfold sent_packet.
      split; [rewrite <- (app_nil_r (packet_bytes _ _)); by apply parse_send|].
      apply Forall_cons in W as [_ W]. split; [|done|].
      * change (skipn (8 + length (payload e)) (rbuf s) ++ in_kernel s = stream rest). rewrite <- E1. unfold sent_packet.
        destruct (header_shape (event_type e) (payload e)) as (? & ? & ? & ? & ? & ? & -> & _).
        rewrite skipn_all2 by (cbn; lia). exact E2.
      * change (length (skipn (8 + length (payload e)) (rbuf s)) <= RBUF_SIZE)%nat. rewrite length_skipn. lia.
    + left. split; [by exists (b :: l)|]. by apply (parse_prefix (event_type e) (payload e) _ (b :: l)).
Qed.

(** ** The drain loop *)

Lemma holds_nonempty_eof s rest : holds s rest -> at_eof s = true -> rbuf s = [] -> rest = [].
Proof.
  intros [E _ _] H R. unfold at_eof in H. apply andb_prop in H as [_ H]. apply bool_decide_eq_true in H.
  rewrite R, H in E. destruct rest as [|e rest]; [done|]. pose proof (length_packet e).
  apply (f_equal length) in E. unfold stream in E. cbn [map concat app length] in E. rewrite length_app in E. lia.
Qed.

Lemma parked_short buf rest : parked buf rest -> (length buf < RBUF_SIZE)%nat.
Proof.
  unfold parked, RBUF_SIZE. destruct rest as [|e rest]; [intros ->; cbn; lia|]. intros (suf & E & _).
  pose proof (length_packet e). rewrite <- E, length_app in *. lia.
Qed.

(** One read on a well-formed stream: it stops without consuming an event, or
    it yields the oldest one. *)
Lemma read_one_stream k s rest :
  holds s rest ->
  exists s', let r := qdwin_nested_input_sink_read_one k s in
    ((length (rbuf s) < RBUF_SIZE)%nat -> (length (rbuf s') < RBUF_SIZE)%nat)
    /\ ((exists b, r = (b, s') /\ (b = again \/ b = broken) /\ holds s' rest
       /\ (length (in_kernel s') <= length (in_kernel s))%nat
       /\ (k <> None -> parked (rbuf s') rest
             /\ ((length (rbuf s) < RBUF_SIZE)%nat -> in_kernel s <> [] -> (length (in_kernel s') < length (in_kernel s))%nat)))
    \/ exists e rest', rest = e :: rest' /\ r = (packet (event_type e) (payload e), s') /\ holds s' rest'
         /\ (length (rbuf s') + length (in_kernel s') < length (rbuf s) + length (in_kernel s))%nat
         /\ (length (in_kernel s') <= length (in_kernel s))%nat
         /\ (k <> None -> (length (rbuf s) < RBUF_SIZE)%nat -> in_kernel s <> [] -> (length (in_kernel s') < length (in_kernel s))%nat)).
Proof.
  intros H. unfold qdwin_nested_input_sink_read_one. destruct (_ && bool_decide (k = None)) eqn:B0.
  { exists s. split; [done|]. left. exists broken. apply andb_prop in B0 as [_ B0]. apply bool_decide_eq_true in B0.
    split_and!; [done|by right|done|done|done]. }
  destruct (at_eof s && bool_decide (rbuf s = [])) eqn:B1.
  { exists s. split; [done|]. left. exists broken. apply andb_prop in B1 as [B1 B2]. apply bool_decide_eq_true in B2.
    pose proof (holds_nonempty_eof _ _ H B1 B2) as ->. split_and!; [done|by right|done|done|]. intros _.
    split; [by rewrite B2|]. intros _ N. unfold at_eof in B1. apply andb_prop in B1 as [_ B1].
    by apply bool_decide_eq_true in B1. }
  set (k' := default 0%nat k). pose proof (holds_recv k' _ _ H) as H1. destruct (recv_kernel k' s) as (L1 & L2 & L3).
  destruct (parse_stream _ _ H1) as [[P ->]|(e & rest' & -> & P & H2)].
  - exists (recv k' s). split; [intros _; by eapply parked_short|]. left. exists again. split_and!; [done|by left|done|done|]. intros _. split; [done|]. intros; by apply L2.
  - rewrite P. exists ((recv k' s) <| rbuf ::= skipn (8 + length (payload e)) |>). split.
    { intros _. change (length (skipn (8 + length (payload e)) (rbuf (recv k' s))) < RBUF_SIZE)%nat.
      rewrite length_skipn. pose proof (ho_size _ _ H1). unfold RBUF_SIZE in *. lia. }
    right. exists e, rest'.
    split_and!; [done|done|done| | |].
    + change (length (skipn (8 + length (payload e)) (rbuf (recv k' s))) + length (in_kernel (recv k' s))
        < length (rbuf s) + length (in_kernel s))%nat. rewrite length_skipn. rewrite <- L3.
      assert (0 < length (rbuf (recv k' s)))%nat; [|lia]. unfold parse_one in P.
      destruct (Nat.ltb_spec (length (rbuf (recv k' s))) 8); [done|lia].
    + exact L1.
    + intros _ N1 N2. by apply L2.
Qed.

(** The loop delivers the oldest events, keeps the rest, and when no read fails
    it stops with no packet complete and fewer bytes left in the kernel. *)
Lemma drain_stream fuel ks s rest :
  holds s rest -> (length (rbuf s) + length (in_kernel s) < fuel)%nat ->
  exists l rest' s', drain fuel ks s = (l, s') /\ rest = l ++ rest' /\ holds s' rest'
    /\ (length (in_kernel s') <= length (in_kernel s))%nat
    /\ ((length (rbuf s) < RBUF_SIZE)%nat -> (length (rbuf s') < RBUF_SIZE)%nat)
    /\ (None ∉ ks -> parked (rbuf s') rest'
          /\ ((length (rbuf s) < RBUF_SIZE)%nat -> in_kernel s <> [] -> (length (in_kernel s') < length (in_kernel s))%nat)).
Proof.
  revert ks s rest. induction fuel as [|fuel IH]; intros ks s rest H L; [lia|]. cbn [drain].
  destruct (read_one_stream (hd (Some 0%nat) ks) s rest H) as (s' & Ls & [(b & E & B & H' & L1 & K)|(e & rest' & -> & E & H' & L1 & L2 & L3)]).
  - exists [], rest, s'. rewrite E. split_and!; [by destruct B as [-> | ->]|done|done|done|done|].
    intros N. apply K. destruct ks as [|k ks]; [done|]. cbn. intros ->. apply N. by left.
  - rewrite E. destruct (IH (tl ks) s' rest' H' ltac:(lia)) as (l & rest'' & s'' & E2 & -> & H'' & L4 & Ls2 & K). rewrite E2.
    rewrite (decode_payload e) by (by apply (Forall_inv (ho_wf _ _ H))).
    exists (e :: l), rest'', s''. split_and!; [done|done|done|lia|tauto|]. intros N. split.
    + apply K. intros ?. apply N. destruct ks; [done|by right].
    + intros N1 N2. apply (Nat.le_lt_trans _ (length (in_kernel s'))); [done|]. apply L3; [|done|done].
      destruct ks as [|k ks]; [done|]. cbn. intros ->. apply N. by left.
Qed.

(** ** A stream in which a write was cut short *)

(** The buffer and the kernel hold the packets [rest] and then other bytes. *)
Record holds_cut (s : sink) (rest : list qdni_event) (tail : list Z) : Prop := {
  hc_bytes : rbuf s ++ in_kernel s = stream rest ++ tail;
  hc_wf : Forall wf_event rest
}.

Lemma recv_bytes k s : rbuf (recv k s) ++ in_kernel (recv k s) = rbuf s ++ in_kernel s.
Proof. unfold recv. destruct (_ <? _)%nat; [|done]. cbn. by rewrite <- app_assoc, take_drop. Qed.

Lemma recv_size k s : (length (rbuf s) <= RBUF_SIZE)%nat -> (length (rbuf (recv k s)) <= RBUF_SIZE)%nat.
Proof.
  intros L. unfold recv. destruct (Nat.ltb_spec (length (rbuf s)) RBUF_SIZE); [|done].
  change (length (rbuf s ++ firstn (Nat.min (S k) (RBUF_SIZE - length (rbuf s))) (in_kernel s)) <= RBUF_SIZE)%nat.
  rewrite length_app. pose proof (firstn_le_length (Nat.min (S k) (RBUF_SIZE - length (rbuf s))) (in_kernel s)). lia.
Qed.

(** As long as a whole packet is still to come, a read stops or yields it. *)
Lemma read_one_cut k s e rest tail r s' :
  holds_cut s (e :: rest) tail -> qdwin_nested_input_sink_read_one k s = (r, s') ->
  (r = again \/ r = broken) /\ holds_cut s' (e :: rest) tail
  \/ r = packet (event_type e) (payload e) /\ holds_cut s' rest tail.
Proof.
  intros [E W]. unfold qdwin_nested_input_sink_read_one.
  destruct (_ && bool_decide (k = None)); [intros [= <- <-]; left; by split; [right|]|].
  destruct (_ && bool_decide (rbuf s = [])); [intros [= <- <-]; left; by split; [right|]|].
  set (s1 := recv (default 0%nat k) s). assert (E1 : rbuf s1 ++ in_kernel s1 = stream (e :: rest) ++ tail) by (unfold s1; by rewrite recv_bytes).
  clearbody s1. clear E. unfold stream in E1. cbn [map concat] in E1. rewrite <- app_assoc in E1.
  pose proof (length_payload e) as Lp. assert (length (payload e) <= PAYLOAD_SIZE)%nat by (unfold PAYLOAD_SIZE; lia).
  assert (Lh : length (sent_packet e) = (8 + length (payload e))%nat).
  { unfold sent_packet. by destruct (header_shape (event_type e) (payload e)) as (? & ? & ? & ? & ? & ? & -> & _). }
  assert (Whole : forall l, rbuf s1 = sent_packet e ++ l -> concat (map sent_packet rest) ++ tail = l ++ in_kernel s1 ->
    parse_one (rbuf s1) = packet (event_type e) (payload e)
    /\ holds_cut (s1 <| rbuf ::= skipn (8 + length (payload e)) |>) rest tail).
  { intros l R T. split; [rewrite R; by apply parse_send|]. split; [|by apply Forall_cons in W as [_ W]].
    change (skipn (8 + length (payload e)) (rbuf s1) ++ in_kernel s1 = stream rest ++ tail).
    rewrite R, <- Lh, drop_app_length. by rewrite <- T. }
  apply app_eq_app in E1 as (l & [[R T]|[R T]]).
  - destruct (Whole l R T) as [-> H']. intros [= <- <-]. by right.
  - destruct l as [|b l].
    + rewrite app_nil_r in R. destruct (Whole [] ltac:(by rewrite R, app_nil_r) ltac:(by rewrite T)) as [-> H']. intros [= <- <-]. by right.
    + rewrite (parse_prefix (event_type e) (payload e) (rbuf s1) (b :: l)) by done. intros [= <- <-]. left. split; [by left|].
      split; [|done]. unfold stream. cbn [map concat]. rewrite R, T, <- !app_assoc. done.
Qed.

(** Whatever follows them, the packets that were written whole come out first
    and in their order. *)
Lemma drain_cut fuel ks s rest tail l s' :
  holds_cut s rest tail -> drain fuel ks s = (l, s') ->
  (exists rest', rest = l ++ rest' /\ holds_cut s' rest' tail) \/ rest `prefix_of` l.
Proof.
  revert ks s rest l s'. induction fuel as [|fuel IH]; intros ks s rest l s' H; cbn [drain].
  { intros [= <- <-]. left. by exists rest. }
  destruct rest as [|e rest]; [right; apply prefix_nil|].
  destruct (qdwin_nested_input_sink_read_one (hd (Some 0%nat) ks) s) as [r s1] eqn:E.
  destruct (read_one_cut _ _ _ _ _ _ _ H E) as [[[-> | ->] H']|[-> H']]; [intros [= <- <-]; left; by exists (e :: rest)..|].
  destruct (drain fuel (tl ks) s1) as [l1 s2] eqn:D.
  rewrite (decode_payload e) by (by apply (Forall_inv (hc_wf _ _ _ H))). intros [= <- <-].
  destruct (IH _ _ _ _ _ H' D) as [(rest' & -> & H2)|P]; [left; by exists rest'|right; by apply prefix_cons].
Qed.

(** The buffer never holds more than it has room for. *)
Lemma drain_size fuel ks s l s' :
  (length (rbuf s) <= RBUF_SIZE)%nat -> drain fuel ks s = (l, s') -> (length (rbuf s') <= RBUF_SIZE)%nat.
Proof.
  revert ks s l s'. induction fuel as [|fuel IH]; intros ks s l s' L; cbn [drain]; [by intros [= <- <-]|].
  assert (R : forall r s1, qdwin_nested_input_sink_read_one (hd (Some 0%nat) ks) s = (r, s1) -> (length (rbuf s1) <= RBUF_SIZE)%nat).
  { intros r s1. unfold qdwin_nested_input_sink_read_one. do 2 (destruct (_ && bool_decide _); [by intros [= <- <-]|]).
    pose proof (recv_size (default 0%nat (hd (Some 0%nat) ks)) s L) as L1.
    destruct (parse_one _); intros [= <- <-]; [|done..].
    match goal with |- (length (rbuf (?t <| rbuf ::= skipn ?n |>)) <= _)%nat => change (length (skipn n (rbuf t)) <= RBUF_SIZE)%nat end.
    rewrite length_skipn. lia. }
  destruct (qdwin_nested_input_sink_read_one _ s) as [r s1]. specialize (R r s1 eq_refl).
  destruct r as [t p| |]; [|by intros [= <- <-]..]. destruct (drain fuel (tl ks) s1) as [l1 s2] eqn:D. intros [= <- <-]. by eapply IH.
Qed.
