(* ===== verification/InputSinkTheorems.v ===== *)
(** * InputSinkTheorems: what the nested input channel guarantees

    Runs of the channel: the outer compositor connects and writes packets, the
    nested one accepts, reads in whatever pieces the kernel gives, drops a peer
    on a hang-up, and may see callbacks for descriptors it has replaced. *)

From Stdlib Require Import Ascii String.
From stdpp Require Import base list gmap strings option pretty.
From S2P Require Import Prelude Logic InputSink InputSinkFacts.
From stdpp Require Import list.
Import Policy.
#[local] Open Scope Z_scope.

(** ** Runs *)

(** [sent] are the events written whole on the current connection before any
    write fell short, [cut] that one did, and [got] the events dispatched from
    the connection. *)
Record channel := mk_channel { end_ : inner; sent : list qdni_event; cut : bool; got : list qdni_event }.

(** A connection comes with what was already written on it: whole packets and,
    after a write that fell short, whatever follows.  [cs_send] is one call of a
    send helper, whatever the two [send]s in it return; no caller looks at the
    result, so more may follow. *)
Inductive chan_step : channel -> channel -> Prop :=
| cs_listen_fails (hangup watched : bool) s a x b :
    chan_step (mk_channel s a x b) (mk_channel (qdwin_nested_input_sink_listen_cb hangup None watched s) a x b)
| cs_connected fd l tail watched s a x b :
    0 <= fd -> fd ∉ open_fds s -> Forall wf_event l ->
    chan_step (mk_channel s a x b)
      (mk_channel (qdwin_nested_input_sink_listen_cb false (Some (fd, stream l ++ tail)) watched s) l
         (negb (bool_decide (tail = []))) [])
| cs_send fd k out n1 n2 e ok bytes s a x b :
    peer s = Some (fd, k) -> wf_event e -> send_event out n1 n2 e = (ok, bytes) ->
    chan_step (mk_channel s a x b)
      (mk_channel (s <| peer := Some (fd, k <| in_kernel ::= fun q => q ++ bytes |>) |>)
         (if ok && negb x then a ++ [e] else a) (x || negb ok && negb (bool_decide (bytes = []))) b)
| cs_peer_closes fd k s a x b :
    peer s = Some (fd, k) ->
    chan_step (mk_channel s a x b) (mk_channel (s <| peer := Some (fd, k <| peer_closed := true |>) |>) a x b)
| cs_peer event_fd hangup ks l s s' a x b :
    qdwin_nested_input_sink_peer_cb event_fd hangup ks s = (l, s') ->
    chan_step (mk_channel s a x b) (mk_channel s' a x (b ++ l)).

(** Runs of the channel of a window published with the listening socket [fd]. *)
Inductive chan_run (fd : Z) (watched : bool) : channel -> Prop :=
| cr_start : 0 <= fd -> chan_run fd watched (mk_channel (publish_sink fd watched) [] false [])
| cr_step c c' : chan_run fd watched c -> chan_step c c' -> chan_run fd watched c'.

(** ** The invariant *)

Definition peer_fds (s : inner) : gset Z := match peer s with Some (fd, _) => {[fd]} | None => ∅ end.

Record wf_inner (s : inner) : Prop := {
  wi_fds : open_fds s = {[listen_fd s]} ∪ peer_fds s;
  wi_peer : forall fd k, peer s = Some (fd, k) -> 0 <= fd /\ fd <> listen_fd s;
  wi_source : peer_source s = fst <$> peer s
}.

(** Everything dispatched was written, and what was not is still to come. *)
Definition intact (c : channel) : Prop :=
  match peer (end_ c) with
  | Some (_, k) => exists rest, sent c = got c ++ rest /\ holds k rest /\ (length (rbuf k) < RBUF_SIZE)%nat
  | None => got c `prefix_of` sent c
  end.

(** After a write that fell short: what was written whole before it comes
    first. *)
Definition framed (c : channel) : Prop :=
  match peer (end_ c) with
  | Some (_, k) =>
      ((exists rest tail, sent c = got c ++ rest /\ holds_cut k rest tail) \/ sent c `prefix_of` got c)
      /\ (length (rbuf k) <= RBUF_SIZE)%nat
  | None => got c `prefix_of` sent c \/ sent c `prefix_of` got c
  end.

Definition in_order (c : channel) : Prop := if cut c then framed c else intact c.

(** Closing the peer, or failing to, keeps the order. *)
Lemma in_order_peer s s' a x b :
  peer s' = peer s \/ peer s' = None -> in_order (mk_channel s a x b) -> in_order (mk_channel s' a x b).
Proof.
  unfold in_order, intact, framed. cbn [end_ sent cut got]. intros D O. destruct D as [->| ->]; [done|]. destruct x.
  - destruct (peer s) as [[fd k]|]; [|done]. destruct O as [[(rest & tail & -> & _)|P] _]; [left; by apply prefix_app_r|by right].
  - destruct (peer s) as [[fd k]|]; [|done]. destruct O as (rest & -> & _). by apply prefix_app_r.
Qed.

(** A connection in order is in order whatever is written next. *)
Lemma intact_framed s a b : in_order (mk_channel s a false b) -> framed (mk_channel s a false b).
Proof.
  unfold in_order, intact, framed. cbn [end_ sent cut got]. destruct (peer s) as [[fd k]|]; [|by left].
  intros (rest & -> & [E W L] & L2). split; [|lia]. left. exists rest, []. split; [done|]. split; [by rewrite app_nil_r|done].
Qed.

Lemma framed_append s a x x' b fd k bytes :
  peer s = Some (fd, k) -> framed (mk_channel s a x b) ->
  framed (mk_channel (s <| peer := Some (fd, k <| in_kernel ::= fun q => q ++ bytes |>) |>) a x' b).
Proof.
  unfold framed. cbn [end_ sent got]. intros E. rewrite E. intros [[(rest & tail & -> & [H W])|P] L]; cbn; (split; [|done]); [|by right].
  left. exists rest, (tail ++ bytes). split; [done|]. split; [|done].
  change (rbuf k ++ in_kernel k ++ bytes = stream rest ++ tail ++ bytes). by rewrite !app_assoc, H.
Qed.

(** A peer that is closed leaves the descriptors and the source in order. *)
Lemma wf_close_peer s s' :
  wf_inner s -> s' = s <| peer_source := None |> -> wf_inner (close_peer s') /\ listen_fd (close_peer s') = listen_fd s
  /\ peer (close_peer s') = None /\ open_fds (close_peer s') = {[listen_fd s]}.
Proof.
  intros [F P S] ->. unfold close_peer, peer_fds in *. cbn. destruct (peer s) as [[fd k]|] eqn:E.
  - destruct (P fd k eq_refl) as [_ N].
    assert (X : open_fds s ∖ {[fd]} = {[listen_fd s]}) by (rewrite F; set_solver).
    split_and!; [split; cbn; [|done|done]|done|done|exact X]. unfold peer_fds. cbn.
    change (open_fds s ∖ {[fd]} = {[listen_fd s]} ∪ ∅). rewrite X. set_solver.
  - assert (X : open_fds s = {[listen_fd s]}) by (rewrite F; set_solver).
    split_and!; [split; cbn|done|done|exact X].
    + unfold peer_fds. cbn. rewrite E. exact F.
    + intros fd k. cbn. by rewrite E.
    + by rewrite E.
Qed.

Lemma wf_restore s : wf_inner s -> wf_inner (s <| peer_source := fst <$> peer s |>).
Proof. intros [F P S]. by split. Qed.

(** A connection that cannot be taken leaves everything as it was, or drops the
    peer whose watch cannot be restored. *)
Lemma listen_fails hangup watched s :
  wf_inner s ->
  let s' := qdwin_nested_input_sink_listen_cb hangup None watched s in
  wf_inner s' /\ (peer s' = peer s \/ peer s' = None).
Proof.
  intros W. unfold qdwin_nested_input_sink_listen_cb, peer_fd. cbn. destruct hangup; [by split; [|left]|].
  pose proof (wf_close_peer s _ W eq_refl) as (W1 & _ & N1 & _).
  destruct (peer s) as [[fd k]|] eqn:E; cbn.
  - destruct (wi_peer _ W _ _ E) as [P _]. destruct (Z.leb_spec 0 fd); [|lia]. rewrite Z.eqb_refl. cbn [andb].
    destruct watched; [|by split; [|right]]. split; [|by left]. pose proof (wf_restore _ W) as R. by rewrite E in R.
  - split; [|by left]. pose proof (wf_restore _ W) as R. by rewrite E in R.
Qed.

Lemma listen_connected fd bytes watched s :
  wf_inner s -> 0 <= fd -> fd ∉ open_fds s ->
  let s' := qdwin_nested_input_sink_listen_cb false (Some (fd, bytes)) watched s in
  wf_inner s' /\ peer s' = (if watched then Some (fd, mk_sink [] bytes false) else None).
Proof.
  intros W P N. unfold qdwin_nested_input_sink_listen_cb, qdwin_nested_input_sink_accept. cbn.
  pose proof (wf_close_peer s _ W eq_refl) as (W1 & L1 & N1 & F1).
  set (t := close_peer (s <| peer_source := None |>)) in *.
  assert (Nl : fd <> listen_fd s) by (intros ->; apply N; rewrite (wi_fds _ W); set_solver).
  assert (W2 : wf_inner (t <| open_fds ::= fun X => {[fd]} ∪ X |> <| peer := Some (fd, mk_sink [] bytes false) |>
                           <| peer_source := Some fd |>)).
  { split; cbn; [|intros ?? [= <- <-]; by rewrite L1|done]. unfold peer_fds. cbn.
    change ({[fd]} ∪ open_fds t = {[listen_fd t]} ∪ {[fd]}). rewrite F1, L1. set_solver. }
  destruct watched; [by split|]. split; [|done].
  assert (S1 : peer_source t = None) by (rewrite (wi_source _ W1), N1; done).
  split; cbn; [|done|exact S1]. unfold peer_fds. cbn.
  change (({[fd]} ∪ open_fds t) ∖ {[fd]} = {[listen_fd t]} ∪ ∅). rewrite F1, L1. set_solver.
Qed.

Lemma holds_send k rest e : holds k rest -> wf_event e ->
  holds (k <| in_kernel ::= fun x => x ++ sent_packet e |>) (rest ++ [e]).
Proof.
  intros [E W L] We. split; [|apply Forall_app; split; [done|by constructor]|done].
  change (rbuf k ++ in_kernel k ++ sent_packet e = stream (rest ++ [e])). rewrite app_assoc, E. unfold stream.
  by rewrite map_app, concat_app, <- (app_nil_r (sent_packet e)).
Qed.

Lemma wf_peer_update s fd k k' : wf_inner s -> peer s = Some (fd, k) -> wf_inner (s <| peer := Some (fd, k') |>).
Proof.
  intros [F P S] E. split; cbn; [unfold peer_fds in *; cbn; by rewrite E in F|intros ?? [= <- <-]; by apply (P fd k)|by rewrite E in S].
Qed.

(** One readable callback. *)
Lemma peer_cb_step event_fd hangup ks s l s' a x b :
  wf_inner s -> in_order (mk_channel s a x b) -> qdwin_nested_input_sink_peer_cb event_fd hangup ks s = (l, s') ->
  wf_inner s' /\ in_order (mk_channel s' a x (b ++ l)).
Proof.
  intros W O. unfold qdwin_nested_input_sink_peer_cb.
  destruct (negb _); [intros [= <- <-]; by rewrite app_nil_r|]. destruct hangup.
  { intros [= <- <-]. destruct (wf_close_peer s _ W eq_refl) as (W1 & _ & N1 & _). rewrite app_nil_r. split; [done|].
    eapply in_order_peer; [by right|exact O]. }
  destruct (peer s) as [[fd k]|] eqn:E; [|intros [= <- <-]; by rewrite app_nil_r].
  destruct (drain (drain_fuel k) ks k) as [l0 k'] eqn:D. intros [= <- <-]. split; [by eapply wf_peer_update|].
  unfold in_order, framed, intact in *. cbn [end_ sent cut got] in *. rewrite E in O. cbn. destruct x.
  - destruct O as [O L]. split; [|by eapply drain_size]. destruct O as [(rest & tail & -> & H)|P]; [|right; by apply prefix_app_r].
    destruct (drain_cut _ _ _ _ _ _ _ H D) as [(rest' & -> & H')|P].
    + left. exists rest', tail. by rewrite <- app_assoc.
    + right. by apply prefix_app.
  - destruct O as (rest & -> & H & L).
    destruct (drain_stream (drain_fuel k) ks k rest H ltac:(unfold drain_fuel; lia)) as (l1 & rest' & k1 & D' & -> & H' & _ & L' & _).
    rewrite D in D'. injection D' as <- <-. exists rest'. split_and!; [by rewrite <- app_assoc|done|auto].
Qed.

Lemma chan_step_inv c c' : chan_step c c' -> wf_inner (end_ c) /\ in_order c -> wf_inner (end_ c') /\ in_order c'.
Proof.
  intros S [W O]. destruct S as [hangup watched s a x b|fd l tail watched s a x b P N Wl|fd k out n1 n2 e ok bytes s a x b E We Es|fd k s a x b E|event_fd hangup ks l s s' a x b E];
    cbn [end_] in *.
  - destruct (listen_fails hangup watched s W) as [W' D]. split; [done|]. by eapply in_order_peer.
  - destruct (listen_connected fd (stream l ++ tail) watched s W P N) as [W' E]. split; [done|].
    unfold in_order, framed, intact. cbn [end_ sent cut got]. rewrite E. destruct watched; [|case_match; [left|]; apply prefix_nil].
    case_bool_decide as B; cbn [negb].
    + subst tail. rewrite app_nil_r. exists l. split_and!; [done| |unfold RBUF_SIZE; cbn; lia]. split; [done|done|unfold RBUF_SIZE; cbn; lia].
    + split; [|unfold RBUF_SIZE; cbn; lia]. left. exists l, tail. split; [done|]. by split.
  - split; [by eapply wf_peer_update|]. destruct (send_event_spec _ _ _ _ _ _ Es) as [Hb _].
    destruct x; cbn [orb negb andb].
    { rewrite andb_false_r. unfold in_order in *. cbn [cut] in *. by eapply framed_append. }
    destruct ok; cbn [orb negb andb].
    + rewrite (Hb eq_refl). unfold in_order, intact in *. cbn [end_ sent cut got] in *. rewrite E in O. cbn.
      destruct O as (rest & -> & H & L). exists (rest ++ [e]). split_and!; [by rewrite app_assoc|by apply holds_send|done].
    + case_bool_decide as B; cbn [negb].
      * subst bytes. unfold in_order, intact in *. cbn [end_ sent cut got] in *. rewrite E in O. cbn.
        destruct O as (rest & -> & [H1 H2 H3] & L). exists rest. split_and!; [done| |done]. split; [|done|done].
        change (rbuf k ++ in_kernel k ++ [] = stream rest). by rewrite app_nil_r.
      * unfold in_order at 1. cbn [cut]. eapply framed_append; [done|by apply intact_framed].
  - split; [by eapply wf_peer_update|]. unfold in_order, framed, intact in *. cbn [end_ sent cut got] in *. rewrite E in O. cbn. destruct x.
    + destruct O as [O L]. split; [|done]. destruct O as [(rest & tail & -> & [H1 H2])|P]; [|by right]. left. exists rest, tail. split; [done|]. by split.
    + destruct O as (rest & -> & H & L). exists rest. split_and!; [done| |done]. by destruct H; split.
  - by apply (peer_cb_step event_fd hangup ks s).
Qed.

(** The listening socket and its watch stay as they were made. *)
Lemma listen_kept c c' : chan_step c c' ->
  listen_fd (end_ c') = listen_fd (end_ c) /\ listen_source (end_ c') = listen_source (end_ c).
Proof.
  intros S. assert (C : forall s, listen_fd (close_peer s) = listen_fd s /\ listen_source (close_peer s) = listen_source s).
  { intros s. unfold close_peer. by destruct (peer s) as [[??]|]. }
  destruct S as [hangup watched s a x b|fd l tail watched s a x b _ _ _|fd k out n1 n2 e ok bytes s a x b E _ _|fd k s a x b E|event_fd hangup ks l s s' a x b E];
    cbn [end_]; try done.
  - unfold qdwin_nested_input_sink_listen_cb. destruct hangup; [done|]. cbn. destruct (_ && _); [|done]. destruct watched; [done|].
    by destruct (C (s <| peer_source := None |>)).
  - unfold qdwin_nested_input_sink_listen_cb. cbn. destruct (C (s <| peer_source := None |>)) as [C1 C2].
    destruct watched; cbn; [by rewrite C1, C2|]. by rewrite C1, C2.
  - revert E. unfold qdwin_nested_input_sink_peer_cb. destruct (negb _); [by intros [= <- <-]|]. destruct hangup; [intros [= <- <-]; by destruct (C (s <| peer_source := None |>))|].
    destruct (peer s) as [[fd k]|]; [|by intros [= <- <-]]. destruct (drain _ _ _). by intros [= <- <-].
Qed.

Lemma chan_run_inv fd w c : chan_run fd w c -> wf_inner (end_ c) /\ in_order c
  /\ listen_fd (end_ c) = fd /\ listen_source (end_ c) = (if w then Some fd else None).
Proof.
  induction 1 as [P|c c' R (W & O & Lf & Ls) S].
  - split_and!; [|apply prefix_nil|done|done]. split; cbn; [unfold peer_fds; cbn; set_solver|done|done].
  - destruct (chan_step_inv c c' S (conj W O)) as [W' O']. destruct (listen_kept c c' S) as [-> ->]. done.
Qed.

(** ** Theorems *)

(** C31.  In every run of the nested input channel, with writes of any outcome,
    reads of any size, failed reads, hang-ups, reconnections and callbacks for
    descriptors that were replaced: while no write on the current connection has
    been cut short, the events dispatched from it are a beginning of the events
    written on it, in their order and with their values; once one was, the
    events written whole before it are still the ones dispatched first, in
    their order.  Always, the component owns exactly its listening socket and its
    peer, watches exactly the peer it reads from, keeps the watch of the listening
    socket that publishing made, and never overfills its buffer. *)
Theorem nested_input_in_order fd w c :
  chan_run fd w c ->
  (if cut c then got c `prefix_of` sent c \/ sent c `prefix_of` got c else got c `prefix_of` sent c)
  /\ open_fds (end_ c) = {[fd]} ∪ peer_fds (end_ c)
  /\ listen_source (end_ c) = (if w then Some fd else None)
  /\ peer_source (end_ c) = fst <$> peer (end_ c)
  /\ (forall pfd k, peer (end_ c) = Some (pfd, k) ->
        pfd <> fd /\ (length (rbuf k) <= RBUF_SIZE)%nat /\ (cut c = false -> (length (rbuf k) < RBUF_SIZE)%nat)).
Proof.
  intros R. destruct (chan_run_inv fd w c R) as ([F P S] & O & <- & Ls). unfold in_order, framed, intact in O. split_and!; [|done|done|done|].
  - destruct (cut c), (peer (end_ c)) as [[pfd k]|]; [|done| |done].
    + destruct O as [[(rest & tail & -> & _)|Q] _]; [left; by apply prefix_app_r|by right].
    + destruct O as (rest & -> & _). by apply prefix_app_r.
  - intros pfd k E. rewrite E in O. destruct (P _ _ E) as [_ N]. destruct (cut c).
    + destruct O as [_ L]. split_and!; done.
    + destruct O as (? & _ & _ & L). split_and!; [done|lia|done].
Qed.

(** A run of readable callbacks on the peer. *)
Fixpoint callbacks (fd : Z) (kss : list (list (option nat))) (s : inner) : list qdni_event * inner :=
  match kss with
  | [] => ([], s)
  | ks :: kss =>
      let '(l, s) := qdwin_nested_input_sink_peer_cb fd false ks s in
      let '(l', s) := callbacks fd kss s in (l ++ l', s)
  end.

Lemma parked_all k rest : holds k rest -> parked (rbuf k) rest -> in_kernel k = [] -> rest = [].
Proof.
  intros [E _ _] P N. rewrite N, app_nil_r in E. destruct rest as [|e rest]; [done|]. destruct P as (suf & P & Ns).
  unfold stream in E. cbn [map concat] in E. rewrite E in P. apply (f_equal length) in P. rewrite !length_app in P.
  destruct suf; [done|]. cbn [length] in P. lia.
Qed.

Lemma peer_cb_drains fd ks k rest s :
  peer s = Some (fd, k) -> 0 <= fd -> holds k rest -> (length (rbuf k) < RBUF_SIZE)%nat -> None ∉ ks ->
  exists l rest' k', qdwin_nested_input_sink_peer_cb fd false ks s = (l, s <| peer := Some (fd, k') |>)
    /\ rest = l ++ rest' /\ holds k' rest' /\ (length (rbuf k') < RBUF_SIZE)%nat /\ parked (rbuf k') rest'
    /\ (in_kernel k <> [] -> (length (in_kernel k') < length (in_kernel k))%nat)
    /\ (length (in_kernel k') <= length (in_kernel k))%nat.
Proof.
  intros E P H L N.
  destruct (drain_stream (drain_fuel k) ks k rest H ltac:(unfold drain_fuel; lia)) as (l & rest' & k' & D & -> & H' & L1 & L2 & K).
  destruct (K N) as [K1 K2]. exists l, rest', k'. split_and!; auto.
  unfold qdwin_nested_input_sink_peer_cb, peer_fd, qdwin_nested_input_peer_event_current. rewrite E. cbn [from_option fst].
  destruct (Z.leb_spec 0 fd); [|lia]. rewrite Z.eqb_refl. cbn [andb negb]. by rewrite D.
Qed.

Lemma callbacks_idle kss s fd k :
  peer s = Some (fd, k) -> 0 <= fd -> holds k [] -> (length (rbuf k) < RBUF_SIZE)%nat -> in_kernel k = [] ->
  Forall (fun ks => None ∉ ks) kss -> fst (callbacks fd kss s) = [].
Proof.
  revert s k. induction kss as [|ks kss IH]; intros s k E P H L N F; [done|]. apply Forall_cons in F as [Fk F]. cbn [callbacks].
  destruct (peer_cb_drains fd ks k [] s E P H L Fk) as (l & rest & k2 & -> & E2 & H2 & L2 & _ & _ & D2).
  symmetry in E2. apply app_eq_nil in E2 as [-> ->].
  assert (N2 : in_kernel k2 = []) by (apply length_zero_iff_nil; rewrite N in D2; cbn in D2; lia).
  specialize (IH (s <| peer := Some (fd, k2) |>) k2 eq_refl P H2 L2 N2 F). by destruct (callbacks fd kss _).
Qed.

Lemma callbacks_deliver kss s fd k rest :
  peer s = Some (fd, k) -> 0 <= fd -> holds k rest -> (length (rbuf k) < RBUF_SIZE)%nat ->
  Forall (fun ks => None ∉ ks) kss -> (length (in_kernel k) < length kss)%nat ->
  fst (callbacks fd kss s) = rest.
Proof.
  revert s k rest. induction kss as [|ks kss IH]; intros s k rest E P H L F Len; [cbn in Len; lia|].
  apply Forall_cons in F as [Fk F]. cbn [callbacks].
  destruct (peer_cb_drains fd ks k rest s E P H L Fk) as (l & rest' & k' & -> & -> & H' & L' & K & D & D').
  destruct (decide (in_kernel k' = [])) as [N|N].
  - pose proof (parked_all _ _ H' K N) as ->.
    pose proof (callbacks_idle kss (s <| peer := Some (fd, k') |>) fd k' eq_refl P H' L' N F) as Q.
    destruct (callbacks fd kss _) as [l' s']. cbn in *. by rewrite Q.
  - assert (in_kernel k <> []) by (intros N2; rewrite N2 in D'; destruct (in_kernel k'); [done|cbn in D'; lia]).
    specialize (D ltac:(done)). cbn [length] in Len.
    specialize (IH (s <| peer := Some (fd, k') |>) k' rest' eq_refl P H' L' F ltac:(lia)).
    destruct (callbacks fd kss _) as [l' s']. cbn in *. by rewrite IH.
Qed.

(** C32.  Everything written arrives: on a connection on which no write was cut
    short, whatever the sizes the kernel hands out, once the peer's descriptor
    has been readable more often than it held bytes, the events dispatched are
    exactly the events written on the connection. *)
Theorem nested_input_delivered lfd w c fd k kss :
  chan_run lfd w c -> cut c = false -> peer (end_ c) = Some (fd, k) ->
  Forall (fun ks => None ∉ ks) kss -> (length (in_kernel k) < length kss)%nat ->
  got c ++ fst (callbacks fd kss (end_ c)) = sent c.
Proof.
  intros R X E F L. destruct (chan_run_inv lfd w c R) as (W & O & _). unfold in_order, intact in O. rewrite X, E in O.
  destruct O as (rest & -> & H & L2). f_equal. eapply callbacks_deliver; eauto. by apply (wi_peer _ W fd k).
Qed.

(** Unpublishing the window, in any state a run reaches, removes both watches,
    gives back every descriptor and removes the socket file. *)
Theorem sink_close_releases fd w c path files s' files' :
  chan_run fd w c -> unpublish_sink path (end_ c) files = (s', files') ->
  open_fds s' = ∅ /\ peer s' = None /\ listen_source s' = None /\ peer_source s' = None /\ path ∉ files'.
Proof.
  intros R. destruct (chan_run_inv fd w c R) as ([F P S] & _). destruct (end_ c) as [lf ls p src X]. cbn in *.
  unfold unpublish_sink, qdwin_nested_input_sink_close, close_peer, peer_fds in *. cbn in *. intros E.
  destruct p as [[pfd k]|]; cbn in E; simplify_eq; cbn; (split_and!; [set_solver|done|done|done|set_solver]).
Qed.

(** ** A stream that lost its framing *)

Definition bad_header (k : sink) : Prop :=
  (8 <= length (rbuf k))%nat /\ le_value (firstn 4 (rbuf k)) <> QDNI_MAGIC.

Lemma bad_header_recv n k : bad_header k -> bad_header (recv n k).
Proof.
  intros [L M]. unfold recv. destruct (_ <? _)%nat; [|done]. split; cbn.
  - rewrite length_app. lia.
  - change (le_value (firstn 4 (rbuf k ++ firstn (Nat.min (S n) (RBUF_SIZE - length (rbuf k))) (in_kernel k))) <> QDNI_MAGIC).
    rewrite firstn_app, (proj2 (Nat.sub_0_le 4 (length (rbuf k)))) by lia. by rewrite firstn_O, app_nil_r.
Qed.

Lemma bad_header_read n k : bad_header k ->
  exists k', qdwin_nested_input_sink_read_one n k = (broken, k') /\ bad_header k'.
Proof.
  intros B. unfold qdwin_nested_input_sink_read_one. destruct (_ && _); [by exists k|]. destruct (_ && _); [by exists k|].
  pose proof (bad_header_recv (default 0%nat n) k B) as [L M]. exists (recv (default 0%nat n) k). unfold parse_one.
  destruct (Nat.ltb_spec (length (rbuf (recv (default 0%nat n) k))) 8); [lia|].
  destruct (Z.eqb_spec (le_value (firstn 4 (rbuf (recv (default 0%nat n) k)))) QDNI_MAGIC); [done|]. cbn. by split.
Qed.

(** A peer whose bytes do not start with the magic is never heard again: no
    later callback dispatches anything, and the descriptor is kept. *)
Theorem desync_is_final kss s fd k :
  peer s = Some (fd, k) -> bad_header k ->
  exists k', callbacks fd kss s = ([], s <| peer := Some (fd, k') |>) /\ bad_header k'.
Proof.
  revert s k. induction kss as [|ks kss IH]; intros s k E B; cbn [callbacks].
  { exists k. split; [|done]. destruct s. cbn in E. by subst. }
  unfold qdwin_nested_input_sink_peer_cb at 1. rewrite E. destruct (negb _); [|].
  { destruct (IH s k E B) as (k' & -> & B'). by exists k'. }
  unfold drain_fuel. cbn [drain]. destruct (bad_header_read (hd (Some 0%nat) ks) k B) as (k1 & -> & B1).
  assert (E1 : peer (s <| peer := Some (fd, k1) |>) = Some (fd, k1)) by reflexivity.
  destruct (IH _ k1 E1 B1) as (k' & -> & B'). by exists k'.
Qed.

(** A payload that could not be written leaves a bare header in the socket, and
    the next packet is taken for its payload: the key is dispatched with the
    fields of a header and everything after it is lost. *)
Definition after_short_write : list Z :=
  snd (send_event 9 8 (-1) (ni_key 1 30 1)) ++ snd (send_event 9 8 12 (ni_key 2 31 1)) ++ snd (send_event 9 8 12 (ni_key 3 32 1)).

Example short_write_desyncs :
  let r := callbacks 5 (replicate 3 (replicate 4 (Some 300%nat))) ((publish_sink 3 true) <| peer := Some (5, mk_sink [] after_short_write false) |>) in
  fst r = [ni_key QDNI_MAGIC 0xC0401 2] /\ (exists k, peer (snd r) = Some (5, k) /\ (length (rbuf k) = 28)%nat).
Proof. vm_compute. split; [reflexivity|]. eexists. split; reflexivity. Qed.

(** A hang-up drops what the peer wrote before it: two events are in the
    socket, and the callback reports none of them. *)
Example hangup_drops_pending :
  let s := (publish_sink 3 true) <| peer := Some (5, mk_sink [] (stream [ni_key 1 30 1; ni_key 2 30 0]) true) |> <| peer_source := Some 5 |> in
  qdwin_nested_input_sink_peer_cb 5 true [] s = ([], close_peer (s <| peer_source := None |>))
  /\ fst (qdwin_nested_input_sink_peer_cb 5 false (replicate 9 (Some 300%nat)) s) = [ni_key 1 30 1; ni_key 2 30 0].
Proof. vm_compute. done. Qed.

(** ** Where the outer compositor connects *)

(** A descriptor comes from the advertised path itself, or from a socket that
    the pattern of the container fallback matches. *)
Lemma connect_sources connect glob path fd :
  qdwin_nested_input_sink_connect connect glob path = Some fd ->
  exists p, connect p = Some fd /\ (String.length p < SUN_PATH_SIZE)%nat
    /\ (p = path \/ exists pat, tier2_pattern path = Some pat /\ p ∈ glob pat).
Proof.
  assert (One : forall q, qdwin_nested_input_sink_connect_one connect q = Some fd ->
    connect q = Some fd /\ (String.length q < SUN_PATH_SIZE)%nat).
  { intros q. unfold qdwin_nested_input_sink_connect_one. destruct (Nat.leb_spec SUN_PATH_SIZE (String.length q)).
    - by rewrite orb_true_r.
    - rewrite orb_false_r. by destruct (String.eqb q ""). }
  unfold qdwin_nested_input_sink_connect. destruct (String.eqb path ""); [done|].
  destruct (qdwin_nested_input_sink_connect_one connect path) as [f|] eqn:E.
  { intros [= ->]. destruct (One _ E). exists path. auto. }
  destruct (tier2_pattern path) as [pat|] eqn:T; [|done]. intros H. apply head_Some_elem_of, list_elem_of_omap in H as (p & Hp & Ep).
  destruct (One _ Ep). exists p. eauto 10.
Qed.

(** The characters of a number, and of the fixed parts of the file name. *)
Fixpoint plain (s : string) : bool :=
  match s with EmptyString => true | String c s => negb (is_meta c) && negb (Ascii.eqb c "/"%char) && plain s end.

Lemma plain_app s t : plain (s ++ t)%string = plain s && plain t.
Proof.
  induction s as [|c s IH]; [done|]. change (plain (String c s ++ t)%string) with
    (negb (is_meta c) && negb (Ascii.eqb c "/"%char) && plain (s ++ t)%string). rewrite IH. cbn [plain]. by rewrite !andb_assoc.
Qed.

Lemma plain_pretty_N_go x s : plain s = true -> plain (pretty_N_go x s) = true.
Proof.
  revert s. induction (N.lt_wf_0 x) as [x _ IH]; intros s H. assert (x = 0 \/ 0 < x)%N as [->|P] by lia; [done|].
  rewrite pretty_N_go_step by done. apply IH; [by apply N.div_lt|]. cbn [plain]. rewrite H, andb_true_r.
  generalize (x `mod` 10)%N. intros n. unfold pretty_N_char. by repeat case_match.
Qed.

Lemma plain_pretty (z : Z) : plain (pretty z) = true.
Proof.
  assert (N : forall n : N, plain (pretty n) = true).
  { intros n. unfold pretty, pretty_N. case_decide; [done|by apply plain_pretty_N_go]. }
  destruct z; [done|apply N|]. exact (N (N.pos p)).
Qed.

Lemma plain_no_meta s : plain s = true -> has_meta s = false.
Proof. induction s as [|c s IH]; cbn; [done|]. intros [[->%negb_true_iff _]%andb_prop H]%andb_prop. by apply IH. Qed.

Lemma after_last_slash_plain s : plain s = true -> after_last_slash s = None.
Proof. induction s as [|c s IH]; cbn; [done|]. intros [[_ E]%andb_prop H]%andb_prop. rewrite (IH H). by destruct (Ascii.eqb c "/"). Qed.

Lemma after_last_slash_app s t : plain t = true -> after_last_slash (s ++ String "/" t)%string = Some t.
Proof.
  intros H. induction s as [|c s IH].
  - change (after_last_slash (String "/" t) = Some t). cbn [after_last_slash]. by rewrite (after_last_slash_plain t H).
  - change (after_last_slash (String c (s ++ String "/" t)) = Some t). cbn [after_last_slash]. by rewrite IH.
Qed.

(** A name without a slash, followed by one. *)
Fixpoint no_slash (s : string) : bool :=
  match s with EmptyString => true | String c s => negb (Ascii.eqb c "/"%char) && no_slash s end.
Lemma before_slash_app s t : no_slash s = true -> before_slash (s ++ String "/" t)%string = Some s.
Proof.
  induction s as [|c s IH]; [done|]. intros [E%negb_true_iff H]%andb_prop.
  change (before_slash (String c (s ++ String "/" t)) = Some (String c s)). cbn [before_slash]. by rewrite E, (IH H).
Qed.

(** What the nested compositor opens, the outer one finds: a socket opened
    with a runtime directory [/run/user/<uid>] is on disk exactly when the open
    succeeds, and the outer compositor's container fallback looks for precisely
    that file name, in the container directories of the same user. *)
Theorem opened_socket_found uid pid handle got_fd b1 b2 b3 b4 files fd path files' :
  no_slash uid = true -> uid <> ""%string ->
  qdwin_nested_input_sink_open (Some ("/run/user/" ++ uid)%string) pid handle got_fd b1 b2 b3 b4 files
    = (Some (fd, path), files') ->
  path ∈ files'
  /\ (String.length path < SUN_PATH_SIZE)%nat
  /\ tier2_pattern path
     = Some ("/run/user/" ++ uid ++ "/qdistro-tier2/*/qdwin-nested-input-" ++ pretty pid ++ "-" ++ pretty handle ++ ".sock")%string.
Proof.
  intros Su Nu. unfold qdwin_nested_input_sink_open, sink_path.
  set (base := ("qdwin-nested-input-" ++ pretty pid ++ "-" ++ pretty handle ++ ".sock")%string).
  assert (Pb : plain base = true) by (unfold base; by rewrite !plain_app, !plain_pretty).
  set (q := (_ ++ "/qdwin-nested-input-" ++ _)%string).
  assert (Eq : q = ("/run/user/" ++ uid ++ String "/" base)%string).
  { unfold q. change (String.eqb ("/run/user/" ++ uid) "") with false. cbn iota. by rewrite string_app_assoc. }
  destruct (Nat.leb_spec 256 (String.length q)) as [|L1]; [done|]. destruct got_fd as [f|]; [|done].
  destruct (Nat.leb_spec SUN_PATH_SIZE (String.length q)) as [|L2]; [done|]. destruct b1; [|done]. cbn [negb].
  destruct (negb b2 || negb b3 || negb b4); [done|]. intros [= <- <- <-]. split_and!; [set_solver|done|].
  rewrite Eq in *. clear q Eq L1. unfold SUN_PATH_SIZE in L2. rewrite !length_string_app in L2. cbn [String.length] in L2.
  pose proof (after_last_slash_app ("/run/user/" ++ uid)%string _ Pb) as Al. rewrite string_app_assoc in Al.
  unfold tier2_pattern. rewrite Al, (plain_no_meta _ Pb).
  change (drop_prefix "/run/user/" ("/run/user/" ++ uid ++ String "/" base)) with (Some (uid ++ String "/" base)%string).
  change (String.eqb base "") with false. cbn iota beta. rewrite (before_slash_app _ _ Su). destruct (String.eqb_spec uid ""); [done|].
  rewrite !length_string_app. change (String.length "/run/user/") with 10%nat. change (String.length "/qdistro-tier2/*/") with 17%nat.
  destruct (Nat.leb_spec 256 (10 + (String.length uid + (17 + String.length base)))) as [L3|L3]; [|done].
  change (String.length "/run/user/") with 10%nat in L2. lia.
Qed.

(** An open that fails leaves no socket file behind. *)
Lemma failed_open_leaves_nothing xdg pid handle got_fd b1 b2 b3 b4 files files' :
  qdwin_nested_input_sink_open xdg pid handle got_fd b1 b2 b3 b4 files = (None, files') -> files' ⊆ files.
Proof.
  unfold qdwin_nested_input_sink_open. repeat case_match; intros E; simplify_eq; set_solver.
Qed.

(** The component between [/run/user/] and the next slash is copied into the
    pattern as it is, metacharacters included. *)
Example uid_component_unchecked :
  tier2_pattern "/run/user/*/qdwin-nested-input-7-1.sock" = Some "/run/user/*/qdistro-tier2/*/qdwin-nested-input-7-1.sock"%string
  /\ tier2_pattern "/run/user/1000/x*.sock" = None.
Proof. vm_compute. done. Qed.

(** ** Witnesses *)

Definition key_press : qdni_event := ni_key 7 30 1.

Definition waiting : channel :=
  let s := qdwin_nested_input_sink_listen_cb false (Some (5, stream [ni_ping])) true (publish_sink 3 true) in
  mk_channel (s <| peer := Some (5, mk_sink [] (stream [ni_ping; key_press]) false) |>) [ni_ping; key_press] false [].

Lemma waiting_run : chan_run 3 true waiting.
Proof.
  eapply cr_step; [eapply cr_step; [apply cr_start; lia|]|].
  - apply (cs_connected 5 [ni_ping] [] true); [lia|set_solver|by repeat constructor].
  - refine (cs_send 5 (mk_sink [] (stream [ni_ping]) false) 9 8 12 key_press true _ _ _ _ _ _ _ _); [reflexivity| |reflexivity].
    cbn. unfold is_u32. lia.
Defined.

(** The same connection when the payload of the next key cannot be written. *)
Definition cut_short : channel :=
  mk_channel ((end_ waiting) <| peer := Some (5, mk_sink [] (stream [ni_ping; key_press] ++ snd (send_event 9 8 (-1) key_press)) false) |>)
    [ni_ping; key_press] true [].

Lemma cut_short_run : chan_run 3 true cut_short.
Proof.
  eapply cr_step; [exact waiting_run|].
  refine (cs_send 5 (mk_sink [] (stream [ni_ping; key_press]) false) 9 8 (-1) key_press false _ _ _ _ _ _ _ _); [reflexivity| |reflexivity].
  cbn. unfold is_u32. lia.
Defined.

(** Both halves: a whole connection, and one on which a write was cut short
    after two events, with what it dispatches. *)
Lemma nested_input_in_order_witness :
  got waiting `prefix_of` sent waiting
  /\ (got cut_short `prefix_of` sent cut_short \/ sent cut_short `prefix_of` got cut_short)
  /\ fst (callbacks 5 [[Some 300%nat]] (end_ cut_short)) = sent cut_short.
Proof.
  split_and!; [apply (nested_input_in_order 3 true waiting waiting_run)|apply (nested_input_in_order 3 true cut_short cut_short_run)|].
  vm_compute. reflexivity.
Defined.

Lemma nested_input_delivered_witness :
  got waiting ++ fst (callbacks 5 (replicate 30 []) (end_ waiting)) = [ni_ping; key_press].
Proof.
  apply (nested_input_delivered 3 true waiting 5 (mk_sink [] (stream [ni_ping; key_press]) false)).
  - exact waiting_run.
  - reflexivity.
  - reflexivity.
  - repeat constructor; apply not_elem_of_nil.
  - vm_compute. lia.
Defined.

Lemma desync_is_final_witness :
  exists k', callbacks 5 [[]; []] ((publish_sink 3 true) <| peer := Some (5, mk_sink (replicate 8 0) [] false) |>)
    = ([], (publish_sink 3 true) <| peer := Some (5, mk_sink (replicate 8 0) [] false) |> <| peer := Some (5, k') |>) /\ bad_header k'.
Proof.
  apply (desync_is_final [[]; []] _ 5 (mk_sink (replicate 8 0) [] false)); [reflexivity|].
  split; [cbn; lia|vm_compute; done].
Defined.

Lemma opened_socket_found_witness :
  let path := "/run/user/1000/qdwin-nested-input-7-12.sock"%string in
  path ∈ ({[path]} : gset string) /\ (String.length path < SUN_PATH_SIZE)%nat
  /\ tier2_pattern path = Some "/run/user/1000/qdistro-tier2/*/qdwin-nested-input-7-12.sock"%string.
Proof.
  apply (opened_socket_found "1000" 7 12 (Some 3) true true true true ∅ 3 _ _); [reflexivity|done|].
  vm_compute. reflexivity.
Defined.

Lemma sink_close_releases_witness :
  open_fds (fst (unpublish_sink "s" (end_ waiting) {["s"%string]})) = ∅.
Proof. eapply (sink_close_releases 3 true waiting "s" {["s"%string]} _ _ waiting_run). vm_compute. reflexivity. Defined.
