(* ===== verification/Nested.v ===== *)
(** * Nested: proxy windows of nested compositors

    The outer side of [qdwin_nested_manager_v1] in [qdwin.c]: advertising a
    toplevel, the proxy window with its placeholder curtain, the broker's
    decision, the pixel feed, the remote identity, and every way a proxy goes
    away.  It works on the desk, so that the input region of a curtain and the
    pointer code that reads it are the same objects.  The synthetic bursts behind
    the QDWIN_NESTED_S3*_TEST variables are left out. *)

From Stdlib Require Import Ascii String.
From stdpp Require Import base list gmap strings option fin_sets.
From S2P Require Import Prelude Logic Scene State Toplevel Dependents Focus Session Desk Pointer LayerShell InputSink.
From stdpp Require Import list.
Import Policy.
#[local] Open Scope Z_scope.

(** ** State *)

(** [struct qdwin_nested_toplevel], named by its resource. *)
Record nested_toplevel := mk_nested_toplevel {
  nt_res : Z; nt_client : Z;
  nt_pw_node : string; nt_input_sink : string; nt_app_id : string; nt_title : string;
  nt_origin_uid : Z;
  nt_configured_w : Z; nt_configured_h : Z;
  nt_proxy : option Z                                 (* the handle of proxy_tl *)
}.
#[global] Instance eta_nested_toplevel : Eta nested_toplevel := fun r =>
  mk_nested_toplevel (nt_res r) (nt_client r) (nt_pw_node r) (nt_input_sink r) (nt_app_id r) (nt_title r)
    (nt_origin_uid r) (nt_configured_w r) (nt_configured_h r) (nt_proxy r).

(** What a proxy's toplevel has beyond [toplevel] and the desk: its owner, the
    view of its pixel feed, whether the destroy listener is on a surface. *)
Record nproxy := mk_nproxy { np_owner : option Z; np_pixel_view : option Z; np_listening : bool }.
#[global] Instance eta_nproxy : Eta nproxy := fun r => mk_nproxy (np_owner r) (np_pixel_view r) (np_listening r).

Inductive nevent :=
| nested_proxy_pending (h : Z) (app_id : string) (uid : Z)
| nested_proxy_pixel_source (h : Z) (pw_node input_sink : string)
| nested_configured (res w h : Z)
| nested_close_requested (res : Z)
| nested_error (res : Z) (code : string)
| nested_no_memory (client : Z)
| sink_ping (fd : Z)
| sink_refused (fd : Z).

(** [sink_peers] are the open input-sink descriptors with the user that
    SO_PEERCRED gives for each. *)
Record nested := mk_nested {
  nd : desk;
  nested_toplevels : list nested_toplevel;
  nproxies : gmap Z nproxy;
  sink_peers : gmap Z Z;
  nevents : list nevent
}.
#[global] Instance eta_nested : Eta nested := fun r =>
  mk_nested (nd r) (nested_toplevels r) (nproxies r) (sink_peers r) (nevents r).

Definition nemit (e : nevent) (n : nested) : nested := n <| nevents ::= cons e |>.
Definition on_desk (f : desk -> desk) (n : nested) : nested := n <| nd ::= f |>.
Definition on_qdwin (f : qdwin -> qdwin) : nested -> nested := on_desk (on_base f).
Definition upd_np (h : Z) (f : nproxy -> nproxy) (n : nested) : nested := n <| nproxies ::= alter f h |>.
Definition upd_nt (r : Z) (f : nested_toplevel -> nested_toplevel) (n : nested) : nested :=
  n <| nested_toplevels ::= map (fun t => if nt_res t =? r then f t else t) |>.
Definition nt_of (r : Z) (n : nested) : option nested_toplevel :=
  List.find (fun t => nt_res t =? r) (nested_toplevels n).
Definition proxy_of (h : Z) (n : nested) : option toplevel := qdwin_toplevel_from_handle h (base (nd n)).

(** ** Curtains *)

(** The input region of a curtain. *)
Definition curtain_input (capture : bool) (w h x y : Z) : bool :=
  capture && (0 <=? x) && (x <? w) && (0 <=? y) && (y <? h).

(** An identifier no surface has. *)
Definition fresh_surface (d : desk) : Z := 1 + foldr Z.max 0 (map fst (map_to_list (wsurfaces d))).

Definition weston_shell_utils_curtain_create (x y w h : Z) (capture : bool) (d : desk) : option (Z * Z) * desk :=
  match weston_view_create (base d) with
  | (None, q) => (None, d <| base := q |>)
  | (Some v, q) =>
      let s := fresh_surface d in
      (Some (v, s),
       d <| base := weston_view_set_position v x y q |>
         <| wsurfaces ::= <[s := mk_wsurface w h true None None s (curtain_input capture w h)]> |>
         <| view_surface ::= <[v := s]> |>)
  end.

Definition weston_shell_utils_curtain_destroy (v s : Z) (d : desk) : desk :=
  (destroy_view v d) <| wsurfaces ::= delete s |>.

(** ** Creating a proxy *)

(** The environment variables, each compared with "1". *)
Record nested_env := mk_nested_env { broker_optional : bool; s3d_test : bool; broker_required : bool }.

Definition gate_required (e : nested_env) : bool :=
  negb (broker_optional e) && negb (s3d_test e && negb (broker_required e)).
Definition shell_version (q : qdwin) : Z :=
  match shell_resource q with Some r => if shell_bound q then res_version r else -1 | None => -1 end.
Definition shell_can_gate (q : qdwin) : bool := 8 <=? shell_version q.

Definition new_proxy (h v s w ht : Z) (pending : bool) (tag : option (string * string * string))
    (app_id title : string) (uid : Z) : toplevel :=
  mk_toplevel h None v true (negb pending) w ht true pending true None s tag app_id title uid None
    0 0 0 0 0 0 0 0 0 0 0 0 0 0 0 false 0 0 None 0 0 0 0 QDWIN_TILE_NONE 0 0 0 0
    [no_chrome; no_chrome; no_chrome; no_chrome] "" "".

(** Where the curtain goes: centred on the primary output. *)
Definition proxy_pos (w ht : Z) (q : qdwin) : Z * Z :=
  match qdwin_primary_output q with
  | Some o => (Z.max 0 (out_x o + Z.quot (out_width o - w) 2), Z.max 0 (out_y o + Z.quot (out_height o - ht) 2))
  | None => (0, 0)
  end.

(** [tag] is the security-context tag of the advertising client, [None] when it
    has none or the copy failed; [alloc] is [calloc]'s success. *)
Definition qdwin_nested_proxy_create (env : nested_env) (alloc : bool) (tag : option (string * string * string))
    (owner : nested_toplevel) (w ht : Z) (n : nested) : option Z * nested :=
  let w := if w <=? 0 then 800 else w in
  let ht := if ht <=? 0 then 600 else ht in
  if negb alloc then (None, n)
  else
    let q := base (nd n) in
    let h := u32_succ (next_handle q) in
    let can_gate := shell_can_gate q in
    let pending := can_gate || gate_required env in
    let '(cx, cy) := proxy_pos w ht q in
    let n := on_qdwin (fun q => q <| next_handle := h |>) n in
    match weston_shell_utils_curtain_create cx cy w ht (negb pending) (nd n) with
    | (None, d) => (None, n <| nd := d |>)
    | (Some (v, s), d) =>
        let tl := new_proxy h v s w ht pending tag (nt_app_id owner) (nt_title owner) (nt_origin_uid owner) in
        (Some h,
         n <| nd := d |> <| nproxies ::= <[h := mk_nproxy (Some (nt_res owner)) None false]> |>
         ~> on_qdwin (on_scene (weston_view_move_to_layer v (if pending then held_layer else normal_layer)))
         ~> on_qdwin (fun q => q <| toplevels ::= cons tl |>)
         ~> on_qdwin (qdwin_send_toplevel_added h)
         ~> on_qdwin (shell_send 0 (toplevel_geometry h cx cy w ht))
         ~> (fun n => if can_gate then nemit (nested_proxy_pending h (nt_app_id owner) (nt_origin_uid owner)) n else n)
         ~> (fun n => if 9 <=? shell_version (base (nd n))
                      then nemit (nested_proxy_pixel_source h (nt_pw_node owner) (nt_input_sink owner)) n else n))
    end.

(** ** Input of a curtain, the decision, the pixel feed *)

Definition qdwin_nested_proxy_curtain_set_capture (h : Z) (capture : bool) (n : nested) : nested :=
  match proxy_of h n with
  | Some tl =>
      if negb (proxy_curtain tl) then n
      else on_desk (fun d => d <| wsurfaces ::= alter (fun w =>
             w <| ws_input := curtain_input capture
                    (if 0 <? last_width tl then last_width tl else ws_width w)
                    (if 0 <? last_height tl then last_height tl else ws_height w) |>) (proxy_surface tl) |>) n
  | None => n
  end.

Definition set_pixels (h : Z) (s : option Z) (listening : bool) (n : nested) : nested :=
  n ~> on_qdwin (upd_tl h (fun t => t <| proxy_pixel_surface := s |>))
    ~> upd_np h (fun p => p <| np_listening := listening |>).

(** Put the pixel view [v] of the surface [s] in the curtain's place. *)
Definition show_pixels (h v s : Z) (pos : Z * Z) (tl : toplevel) (n : nested) : nested :=
  n ~> (fun n => if proxy_curtain tl
                 then on_desk (weston_shell_utils_curtain_destroy (view tl) (proxy_surface tl)) n else n)
    ~> on_qdwin (upd_tl h (fun t => t <| proxy_curtain := false |> <| view := v |>))
    ~> upd_np h (fun p => p <| np_pixel_view := Some v |>)
    ~> set_pixels h (Some s) true
    ~> on_qdwin (weston_view_set_position v (fst pos) (snd pos))
    ~> on_qdwin (on_scene (weston_view_move_to_layer v normal_layer))
    ~> on_desk (weston_surface_map s).

Definition view_pos_of (tl : toplevel) (q : qdwin) : Z * Z :=
  if view tl =? NULL_VIEW then (0, 0) else (view_x (view tl) q, view_y (view tl) q).

(** [true] when a stashed surface was activated. *)
Definition qdwin_nested_proxy_activate_pixel_surface (h : Z) (n : nested) : bool * nested :=
  match proxy_of h n, nproxies n !! h with
  | Some tl, Some p =>
      match proxy_pixel_surface tl, np_pixel_view p with
      | Some s, None =>
          match create_view s (nd n) with
          | (None, d) =>
              (false, n <| nd := d |> ~> set_pixels h None false ~> qdwin_nested_proxy_curtain_set_capture h true)
          | (Some v, d) => (true, show_pixels h v s (view_pos_of tl (base (nd n))) tl (n <| nd := d |>))
          end
      | _, _ => (false, n)
      end
  | _, _ => (false, n)
  end.

Definition qdwin_nested_proxy_apply_allow (h : Z) (n : nested) : nested :=
  match proxy_of h n with
  | Some tl =>
      if negb (is_nested_proxy tl) || negb (proxy_pending tl) then n
      else
        let n := on_qdwin (upd_tl h (fun t => t <| proxy_pending := false |>)) n in
        let '(activated, n) := qdwin_nested_proxy_activate_pixel_surface h n in
        n ~> (fun n => if activated then n else qdwin_nested_proxy_curtain_set_capture h true n)
          ~> on_qdwin (qdwin_toplevel_release_holding true h)
  | None => n
  end.

(** ** The end of a proxy *)

(** What destroying a view does outside the scene. *)
Definition forget_view (v : Z) (d : desk) : desk :=
  d <| view_list ::= List.filter (fun w => negb (w =? v)) |> <| view_surface ::= delete v |>
    <| pointers ::= map (fun p => if bool_decide (ptr_focus p = Some v) then p <| ptr_focus := None |> else p) |>.

Definition proxy_chrome_detach (h : Z) (side : nat) (n : nested) : nested :=
  match proxy_of h n with
  | Some tl =>
      n ~> (fun n => match ch_surface (chrome_at tl side), ch_view (chrome_at tl side) with
                     | Some _, Some v => on_desk (forget_view v) n
                     | _, _ => n
                     end)
        ~> on_qdwin (qdwin_chrome_detach h side)
  | None => n
  end.

Definition clear_active (h : Z) : nested -> nested :=
  on_desk (fun d => if bool_decide (active_input_proxy d = Some h) then d <| active_input_proxy := None |> else d).

Definition close_sink (h : Z) (n : nested) : nested :=
  match input_sinks (nd n) !! h with
  | Some fd => n <| sink_peers ::= delete fd |> ~> on_desk (fun d => d <| input_sinks ::= delete h |>)
  | None => n
  end.

(** [seats] are the pointers whose grab ends when the move of this window does:
    the focus callback of their default grab runs in the middle of the teardown. *)
Definition qdwin_nested_proxy_destroy (seats : list Z) (h : Z) (n : nested) : nested :=
  match proxy_of h n with
  | None => n
  | Some tl =>
      if negb (is_nested_proxy tl) then n
      else
        n ~> on_desk (fun d => d <| proxy_destroying ::= cons h |>)
          ~> clear_active h
          ~> on_qdwin (shell_send 0 (toplevel_removed h))
          ~> on_qdwin (qdwin_toplevel_release_dependents h)
          ~> on_desk (fun d => foldl (fun d i => qdwin_proxy_default_grab_focus i d) d seats)
          ~> (fun n => foldl (fun n s => proxy_chrome_detach h s n) n (seq 0 4))
          ~> (fun n => if proxy_curtain tl
                       then on_desk (weston_shell_utils_curtain_destroy (view tl) (proxy_surface tl)) n else n)
          ~> (fun n => match nproxies n !! h ≫= np_pixel_view with
                       | Some v => on_desk (destroy_view v) n
                       | None => n
                       end)
          ~> close_sink h
          ~> clear_active h
          ~> on_qdwin (fun q => q <| toplevels ::= List.filter (fun t => negb (handle t =? h)) |>)
          ~> (fun n => n <| nproxies ::= delete h |>)
          ~> on_desk (fun d => d <| proxy_destroying ::= List.filter (fun x => negb (x =? h)) |>)
  end.

Definition qdwin_nested_toplevel_resource_destroy (seats : list Z) (r : Z) (n : nested) : nested :=
  match nt_of r n with
  | None => n
  | Some t =>
      n ~> (fun n => match nt_proxy t with
                     | Some h => n ~> upd_np h (fun p => p <| np_owner := None |>) ~> qdwin_nested_proxy_destroy seats h
                     | None => n
                     end)
        ~> (fun n => n <| nested_toplevels ::= List.filter (fun t => negb (nt_res t =? r)) |>)
  end.

(** ** Requests of the shell and of the pixel feed *)

Definition DECISION_ALLOW : Z := 0.
Definition DECISION_DENY : Z := 1.

Definition deny_proxy (seats : list Z) (h : Z) (n : nested) : nested :=
  n ~> (fun n => match nproxies n !! h ≫= np_owner with
                 | Some r => n ~> nemit (nested_error r "policy_denied")
                               ~> upd_nt r (fun t => t <| nt_proxy := None |>)
                               ~> upd_np h (fun p => p <| np_owner := None |>)
                 | None => n
                 end)
    ~> qdwin_nested_proxy_destroy seats h.

Definition qdwin_handle_nested_proxy_decision (r : wl_resource) (seats : list Z) (h decision : Z) (n : nested) : nested :=
  if negb (qdwin_shell_require_bound r (base (nd n))) then on_qdwin (emit (post_error (res_id r) SHELL_NOT_BOUND)) n
  else match proxy_of h n with
  | None => n
  | Some tl =>
      if negb (is_nested_proxy tl) || negb (proxy_pending tl) then n
      else if decision =? DECISION_ALLOW then qdwin_nested_proxy_apply_allow h n
      else if decision =? DECISION_DENY then deny_proxy seats h n
      else n
  end.

(** Drop the feed a proxy has, stashed or shown. *)
Definition drop_feed (h : Z) (n : nested) : nested :=
  match proxy_of h n, nproxies n !! h with
  | Some tl, Some p =>
      if bool_decide (proxy_pixel_surface tl = None) && bool_decide (np_pixel_view p = None) then n
      else
        n ~> (fun n => match np_pixel_view p with
                       | Some v =>
                           n ~> on_qdwin (upd_tl h (fun t => if view t =? v then t <| view := NULL_VIEW |> else t))
                             ~> on_desk (destroy_view v)
                             ~> upd_np h (fun p => p <| np_pixel_view := None |>)
                       | None => n
                       end)
          ~> set_pixels h None false
  | _, _ => n
  end.

(** [client_uid] is the kernel's for the binding client; [surface] the one its
    argument names. *)
Definition qdwin_handle_bind_proxy_pixels (res client_uid h : Z) (surface : option Z) (n : nested) : nested :=
  match proxy_of h n, surface with
  | None, _ => nemit (nested_error res "invalid_handle") n
  | Some tl, surface =>
      if negb (is_nested_proxy tl) then nemit (nested_error res "invalid_handle") n
      else if negb (client_uid =? proxy_origin_uid tl) then nemit (nested_error res "invalid_handle") n
      else match surface with
      | None => nemit (nested_error res "invalid_handle") n
      | Some s =>
          let pos := view_pos_of tl (base (nd n)) in
          let n := drop_feed h n in
          if proxy_pending tl then set_pixels h (Some s) true n
          else match create_view s (nd n), proxy_of h n with
          | (Some v, d), Some tl => show_pixels h v s pos tl (n <| nd := d |>)
          | (_, d), _ => n <| nd := d |>
          end
      end
  end.

(** The surface of the feed died: back to a curtain. *)
Definition qdwin_proxy_pixel_surface_destroyed (h : Z) (n : nested) : nested :=
  match proxy_of h n, nproxies n !! h with
  | Some tl, Some p =>
      let pos := view_pos_of tl (base (nd n)) in
      let n := drop_feed h n in
      if bool_decide (np_pixel_view p = None) then n
      else
        let w := if 0 <? last_width tl then last_width tl else 800 in
        let ht := if 0 <? last_height tl then last_height tl else 600 in
        match weston_shell_utils_curtain_create (fst pos) (snd pos) w ht (negb (proxy_pending tl)) (nd n) with
        | (None, d) => n <| nd := d |>
        | (Some (v, s), d) =>
            n <| nd := d |>
            ~> on_qdwin (upd_tl h (fun t => t <| proxy_curtain := true |> <| proxy_surface := s |> <| view := v |>))
            ~> on_qdwin (on_scene (weston_view_move_to_layer v (if proxy_pending tl then held_layer else normal_layer)))
        end
  | _, _ => n
  end.

(** The destroy signal of a client's surface reaches the proxies listening to
    it, then the surface is gone. *)
Definition listens_to (s : Z) (n : nested) (tl : toplevel) : bool :=
  is_nested_proxy tl && bool_decide (proxy_pixel_surface tl = Some s)
  && match nproxies n !! handle tl with Some p => np_listening p | None => false end.
Definition client_surface_destroyed (s : Z) (n : nested) : nested :=
  let hs := map handle (List.filter (listens_to s n) (toplevels (base (nd n)))) in
  foldl (fun n h => qdwin_proxy_pixel_surface_destroyed h n) n hs
  ~> on_desk (fun d => d <| wsurfaces ::= delete s |>).

(** ** Requests of the nested compositor *)

Definition nested_proxy_set_title (h : Z) (title : string) : nested -> nested :=
  on_qdwin (fun q => q ~> upd_tl h (fun t => t <| proxy_title := title |>) ~> shell_send 0 (toplevel_title h title)).
Definition nested_proxy_set_app_id (h : Z) (app_id : string) : nested -> nested :=
  on_qdwin (fun q => q ~> upd_tl h (fun t => t <| proxy_app_id := app_id |>) ~> shell_send 31 (toplevel_app_id h app_id)).

(** The proxy's curtain at a new size, with its surface. *)
Definition nested_proxy_set_geometry (h w ht : Z) (n : nested) : nested :=
  match proxy_of h n with
  | None => n
  | Some tl =>
      if negb (is_nested_proxy tl) || negb (proxy_curtain tl) then n
      else
        let w := if w <=? 0 then 800 else w in
        let ht := if ht <=? 0 then 600 else ht in
        if (last_width tl =? w) && (last_height tl =? ht) then n
        else
          let '(x, y) := (view_x (view tl) (base (nd n)), view_y (view tl) (base (nd n))) in
          let n := on_desk (weston_shell_utils_curtain_destroy (view tl) (proxy_surface tl)) n in
          match weston_shell_utils_curtain_create x y w ht (negb (proxy_pending tl)) (nd n) with
          | (None, d) => n <| nd := d |>
              ~> on_qdwin (upd_tl h (fun t => t <| proxy_curtain := false |> <| view := NULL_VIEW |>))
          | (Some (v, s), d) => n <| nd := d |>
              ~> on_qdwin (upd_tl h (fun t => t <| view := v |> <| proxy_surface := s |>
                                                <| last_width := w |> <| last_height := ht |>))
              ~> on_qdwin (on_scene (weston_view_move_to_layer v (if proxy_pending tl then held_layer else normal_layer)))
              ~> on_qdwin (shell_send 0 (toplevel_geometry h x y w ht))
          end
  end.

Definition with_proxy (t : nested_toplevel) (k : Z -> nested -> nested) (n : nested) : nested :=
  match nt_proxy t with Some h => k h n | None => n end.
Definition with_nt (r : Z) (k : nested_toplevel -> nested -> nested) (n : nested) : nested :=
  match nt_of r n with Some t => k t n | None => n end.

Definition qdwin_nested_toplevel_set_title (r : Z) (title : string) : nested -> nested :=
  with_nt r (fun t n => n ~> upd_nt r (fun t => t <| nt_title := title |>)
                          ~> with_proxy t (fun h => nested_proxy_set_title h title)).
Definition qdwin_nested_toplevel_set_app_id (r : Z) (app_id : string) : nested -> nested :=
  with_nt r (fun t n => n ~> upd_nt r (fun t => t <| nt_app_id := app_id |>)
                          ~> with_proxy t (fun h => nested_proxy_set_app_id h app_id)).
Definition qdwin_nested_toplevel_set_geometry (r w ht : Z) : nested -> nested :=
  with_nt r (fun t n => n ~> upd_nt r (fun t => t <| nt_configured_w := Z.max 0 w |> <| nt_configured_h := Z.max 0 ht |>)
                          ~> with_proxy t (fun h => nested_proxy_set_geometry h w ht)).

(** The shell asks the window to close. *)
Definition qdwin_nested_proxy_send_close (h : Z) (n : nested) : nested :=
  match proxy_of h n with
  | Some tl =>
      if negb (is_nested_proxy tl) then n
      else match nproxies n !! h ≫= np_owner with
      | Some r => nemit (nested_close_requested r) n
      | None => n
      end
  | None => n
  end.

(** *** The remote identity *)

Definition alpha_num (c : ascii) : bool :=
  let x := Z.of_nat (nat_of_ascii c) in
  ((97 <=? x) && (x <=? 122)) || ((65 <=? x) && (x <=? 90)) || ((48 <=? x) && (x <=? 57)).
Definition extra_char (stream : bool) (c : ascii) : bool :=
  Ascii.eqb c "_" || Ascii.eqb c "-" || (negb stream && (Ascii.eqb c "." || Ascii.eqb c ":")).
(** [first] is [i == 0]. *)
Fixpoint text_chars (stream first : bool) (s : string) : bool :=
  match s with
  | EmptyString => true
  | String c s => (alpha_num c || (negb first && extra_char stream c)) && text_chars stream false s
  end.
Definition qdwin_remote_identity_text_valid (text : string) (stream : bool) : bool :=
  let length := Z.of_nat (String.length text) in
  negb (length =? 0) && (length <=? 128) && negb (stream && (length <? 16)) && text_chars stream true text.

(** [peer_exe] is the executable of the requesting client; [alloc] is the
    success of the three copies. *)
Definition qdwin_nested_toplevel_set_remote_identity (peer_exe : option string) (alloc : bool) (r : Z)
    (machine domain stream : string) (generation_hi generation_lo : Z) : nested -> nested :=
  with_nt r (fun t => with_proxy t (fun h n =>
    match proxy_of h n with
    | None => n
    | Some tl =>
        let generation := Z.lor (Z.shiftl generation_hi 32) generation_lo in
        if negb (qdwin_remote_nested_publisher_allowed peer_exe)
        then nemit (nested_error r "unauthorized_remote_identity") n
        else if (generation =? 0) || negb (qdwin_remote_identity_text_valid machine false)
                || negb (qdwin_remote_identity_text_valid domain false)
                || negb (qdwin_remote_identity_text_valid stream true)
        then nemit (nested_error r "invalid_remote_identity") n
        else match proxy_remote tl with
        | Some old =>
            if bool_decide (old = (machine, domain, stream, generation)) then n
            else nemit (nested_error r "remote_identity_immutable") n
        | None =>
            if negb alloc then nemit (nested_no_memory (nt_client t)) n
            else
              let tl' := tl <| proxy_remote := Some (machine, domain, stream, generation) |> in
              n ~> on_qdwin (upd_tl h (fun t => t <| proxy_remote := Some (machine, domain, stream, generation) |>))
                ~> on_qdwin (qdwin_emit_nested_proxy_remote_identity tl')
        end
    end)).

(** *** Advertising *)

Definition QDWIN_NESTED_TOPLEVEL_CAP_PER_UID : Z := 64.
Definition qdwin_nested_count_for_uid (uid : Z) (n : nested) : Z :=
  Z.of_nat (length (List.filter (fun t => nt_origin_uid t =? uid) (nested_toplevels n))).

(** Connecting to the advertised sink: the descriptor is kept when SO_PEERCRED
    ([peer_of]) gives the advertising user, and closed when it gives another one
    or nothing. *)
Definition attach_sink (connect : string -> option Z) (glob : string -> list string) (peer_of : Z -> option Z)
    (h uid : Z) (path : string) (n : nested) : nested :=
  if String.eqb path "" then n
  else match qdwin_nested_input_sink_connect connect glob path with
  | None => n
  | Some fd =>
      match peer_of fd with
      | None => nemit (sink_refused fd) n
      | Some peer =>
          if negb (peer =? uid) then nemit (sink_refused fd) n
          else n <| sink_peers ::= <[fd := peer]> |>
               ~> on_desk (fun d => d <| input_sinks ::= <[h := fd]> |>)
               ~> nemit (sink_ping fd)
      end
  end.

(** The request as it arrives: resources, strings and the claimed uid.
    [av_peer_uid] is the kernel's uid of the client; [av_tag] its tag. *)
Record advert := mk_advert {
  av_client : Z; av_peer_uid : Z; av_manager : Z; av_id : Z;
  av_pw_node : string; av_input_sink : string; av_app_id : string; av_title : string; av_origin_uid : Z;
  av_tag : option (string * string * string)
}.

(** The allocations that can fail: the resource, the structure, the proxy. *)
Definition qdwin_nested_manager_advertise_toplevel (env : nested_env) (made_res made_t made_tl : bool)
    (connect : string -> option Z) (glob : string -> list string) (peer_of : Z -> option Z)
    (a : advert) (n : nested) : nested :=
  let origin_uid := if av_origin_uid a =? av_peer_uid a then av_origin_uid a else av_peer_uid a in
  if QDWIN_NESTED_TOPLEVEL_CAP_PER_UID <=? qdwin_nested_count_for_uid (av_peer_uid a) n
  then nemit (nested_error (av_manager a) "policy_denied") n
  else if negb made_res || negb made_t then nemit (nested_no_memory (av_client a)) n
  else
    let t := mk_nested_toplevel (av_id a) (av_client a) (av_pw_node a) (av_input_sink a) (av_app_id a) (av_title a)
               origin_uid 0 0 None in
    let n := n <| nested_toplevels ::= cons t |> in
    let '(proxy, n) := qdwin_nested_proxy_create env made_tl (av_tag a) t 800 600 n in
    let n := upd_nt (av_id a) (fun t => t <| nt_proxy := proxy |>) n in
    let n := match proxy with
             | Some h => attach_sink connect glob peer_of h origin_uid (av_input_sink a) n
             | None => n
             end in
    let '(cw, ch) := match proxy ≫= fun h => proxy_of h n with
                     | Some tl => (last_width tl, last_height tl)
                     | None => (800, 600)
                     end in
    n ~> nemit (nested_configured (av_id a) cw ch)
      ~> upd_nt (av_id a) (fun t => t <| nt_configured_w := cw |> <| nt_configured_h := ch |>).

(** The gate on the manager.  [tag] has the engine and executable recorded for a
    tagged client. *)
Definition bind_qdwin_nested_manager (uid : Z) (tag : option (string * option string)) (q : qdwin) : bool :=
  match tag with
  | Some (engine, exe) => qdwin_nested_secctx_publisher_allowed (Some engine) exe
  | None => true
  end && ((allowed_uid q =? UID_UNSET) || (uid =? allowed_uid q)).
