(* ===== verification/NestedFacts.v ===== *)
(** * NestedFacts: pointer input and the bookkeeping of proxies

    What the pointer code does with proxies nobody has approved, and the
    invariant of the proxies with its preservation by every operation. *)

From Stdlib Require Import Ascii String.
From stdpp Require Import base list gmap strings option fin_sets.
From S2P Require Import Prelude Logic Scene State Toplevel ToplevelFacts Dependents Focus Config Session SessionFacts Desk Pointer PointerFacts LayerShell InputSink Nested.
From stdpp Require Import list.
Import Policy.
#[local] Open Scope Z_scope.

(** ** Pointer input *)

(** A view whose surface takes no input anywhere. *)
Definition blind (d : desk) (v : Z) : Prop :=
  match surface_of v d with Some (_, w) => forall x y, ws_input w x y = false | None => True end.

Definition layer_view_list (d : desk) : list Z := omap l_v (lsurfs d).
Definition pending_proxy (t : toplevel) : bool := is_nested_proxy t && proxy_pending t.
Definition open_proxy (t : toplevel) : bool := is_nested_proxy t && negb (proxy_pending t).

(** Unapproved proxies can be neither picked nor reached as a layer view. *)
Definition hidden (d : desk) : Prop :=
  forall t, t ∈ toplevels (base d) -> pending_proxy t = true -> blind d (view t) /\ view t ∉ layer_view_list d.
(** The proxy input goes to is an approved one. *)
Definition active_ok (d : desk) : Prop :=
  forall h, active_input_proxy d = Some h -> exists t, t ∈ toplevels (base d) /\ handle t = h /\ open_proxy t = true.

(** The part of the desk pointer handling leaves alone. *)
Definition surfaces_of (d : desk) :=
  (toplevels (base d), next_view (base d), next_handle (base d), wsurfaces d, view_surface d, lsurfs d, input_sinks d,
   proxy_destroying d).

Lemma surfaces_fields d d' : surfaces_of d' = surfaces_of d ->
  toplevels (base d') = toplevels (base d) /\ next_view (base d') = next_view (base d)
  /\ next_handle (base d') = next_handle (base d)
  /\ wsurfaces d' = wsurfaces d /\ view_surface d' = view_surface d /\ lsurfs d' = lsurfs d /\ input_sinks d' = input_sinks d
  /\ proxy_destroying d' = proxy_destroying d.
Proof. unfold surfaces_of. intros E. simplify_eq. done. Qed.

(** Packets go to sinks of approved proxies only. *)
Definition approved_sink (d : desk) (e : devent) : Prop :=
  match e with
  | sink_sent fd _ | sink_focus fd _ =>
      exists t, t ∈ toplevels (base d) /\ open_proxy t = true /\ input_sinks d !! handle t = Some fd
  | _ => True
  end.

Definition tame (d0 d : desk) : Prop :=
  surfaces_of d = surfaces_of d0 /\ active_ok d /\ emits (approved_sink d0) d0 d.

Definition no_sink (e : devent) : Prop := match e with sink_sent _ _ | sink_focus _ _ => False | _ => True end.
Definition quiet (d d' : desk) : Prop :=
  surfaces_of d' = surfaces_of d /\ active_input_proxy d' = active_input_proxy d /\ emits no_sink d d'.

Lemma quiet_refl d : quiet d d.
Proof. split_and!; [done|done|by apply emits_refl]. Qed.
Lemma quiet_trans d1 d2 d3 : quiet d1 d2 -> quiet d2 d3 -> quiet d1 d3.
Proof. intros (A1 & A2 & A3) (B1 & B2 & B3). split_and!; [congruence|congruence|by eapply emits_trans]. Qed.
Lemma quiet_same d d' : surfaces_of d' = surfaces_of d -> active_input_proxy d' = active_input_proxy d ->
  devents d' = devents d -> quiet d d'.
Proof. intros. split_and!; [done|done|by apply emits_refl]. Qed.

Lemma tame_quiet d0 d d' : tame d0 d -> quiet d d' -> tame d0 d'.
Proof.
  intros (A1 & A2 & A3) (B1 & B2 & B3). split_and!; [congruence| |].
  - intros h H. rewrite B2 in H. apply surfaces_fields in B1 as (-> & _). by apply A2.
  - eapply emits_trans; [exact A3|]. eapply emits_mono; [|exact B3]. by intros [].
Qed.

Lemma quiet_demit e d : no_sink e -> quiet d (demit e d).
Proof. intros H. split_and!; [done|done|by apply emits_one]. Qed.
Lemma quiet_retarget i v d : quiet d (retarget i v d).
Proof. unfold retarget. case_bool_decide; [apply quiet_refl|by apply quiet_same]. Qed.
Lemma quiet_send i e d : quiet d (weston_pointer_send i e d).
Proof.
  unfold weston_pointer_send. destruct (focus_of i d) as [v|]; [|apply quiet_refl].
  destruct (surface_of v d) as [[s w]|]; [|apply quiet_refl]. case_bool_decide; [apply quiet_refl|by apply quiet_demit].
Qed.
Lemma quiet_pos i p d : quiet d (set_ptr_pos i p d).
Proof. by apply quiet_same. Qed.
Lemma quiet_upd_pointer i f d : quiet d (upd_pointer i f d).
Proof. by apply quiet_same. Qed.

(** Changes of the base that keep the windows. *)
Lemma quiet_base f d : toplevels (f (base d)) = toplevels (base d) -> next_view (f (base d)) = next_view (base d) ->
  next_handle (f (base d)) = next_handle (base d) -> quiet d (on_base f d).
Proof. intros E1 E2 E3. apply quiet_same; [|done|done]. unfold surfaces_of. cbn. by rewrite E1, E2, E3. Qed.
Lemma quiet_core f d : f (base d) ≃ base d -> quiet d (on_base f d).
Proof. intros E. apply quiet_base; by apply core_field. Qed.

Lemma quiet_move h l d : quiet d (on_base (qdwin_toplevel_move_to_layer h l) d).
Proof. apply quiet_base; unfold qdwin_toplevel_move_to_layer, with_tl; by destruct (qdwin_toplevel_from_handle h (base d)). Qed.

(** ** What is picked *)

Lemma surfaces_blind d d' v : surfaces_of d' = surfaces_of d -> blind d v -> blind d' v.
Proof.
  intros (_ & _ & _ & E1 & E2 & _)%surfaces_fields. unfold blind, surface_of. by rewrite E1, E2.
Qed.
Lemma surfaces_hidden d d' : surfaces_of d' = surfaces_of d -> hidden d -> hidden d'.
Proof.
  intros E H t Ht Hp. pose proof E as (E1 & _ & _ & _ & _ & E3 & _)%surfaces_fields. rewrite E1 in Ht.
  destruct (H t Ht Hp) as [A B]. split; [by eapply surfaces_blind|]. unfold layer_view_list in *. by rewrite E3.
Qed.

Lemma pick_not_blind p d v : weston_compositor_pick_view p d = Some v -> ~ blind d v.
Proof.
  unfold weston_compositor_pick_view, blind, view_picks, weston_view_takes_input_at_point. intros [_ H]%List.find_some B.
  destruct (surface_of v d) as [[s w]|]; [|done]. rewrite B in H. by rewrite andb_false_r in H.
Qed.

Definition seen (d : desk) (v : option Z) : Prop :=
  forall w, v = Some w -> ~ blind d w \/ w ∈ layer_view_list d.

Lemma seen_pick p d : seen d (weston_compositor_pick_view p d).
Proof. intros w H. left. by apply pick_not_blind in H. Qed.
Lemma seen_skip p v d : seen d v -> seen d (skip_cursor_sprite p v d).
Proof.
  intros H. unfold skip_cursor_sprite. destruct v as [v|]; [|done]. destruct (surface_of v d) as [[s w]|]; [|done].
  case_bool_decide; [|done]. unfold qdwin_layer_surface_view_at_pos, qdwin_layer_surface_at_pos.
  destruct (List.find _ (lsurfs d)) as [l|] eqn:E; [|done]. destruct (l_v l) as [lv|] eqn:Ev; [|done].
  intros ? [= <-]. right. apply List.find_some in E as [E _]. unfold layer_view_list. apply list_elem_of_omap.
  exists l. split; [by apply list_elem_of_In|done].
Qed.

(** ** Tracking the proxy under the pointer *)

Lemma proxy_for_view_open d v h : hidden d -> seen d v -> qdwin_proxy_for_view v d = Some h ->
  exists t, t ∈ toplevels (base d) /\ handle t = h /\ open_proxy t = true.
Proof.
  intros H S. destruct v as [v|]; [|done]. cbn. intros (t & [Ht E]%List.find_some & ->)%fmap_Some.
  apply andb_prop in E as [[E1 _]%andb_prop E2]. zbool. apply list_elem_of_In in Ht. exists t. split_and!; [done|done|].
  unfold open_proxy. rewrite E1. destruct (proxy_pending t) eqn:P; [|done]. exfalso.
  destruct (H t Ht) as [A B]; [unfold pending_proxy; by rewrite E1, P|]. by destruct (S v eq_refl); subst.
Qed.

Lemma tame_to_sink d0 d h e : tame d0 d ->
  (forall fd, approved_sink d0 (e fd) <-> exists t, t ∈ toplevels (base d0) /\ open_proxy t = true /\ input_sinks d0 !! handle t = Some fd) ->
  (forall x, h = Some x -> exists t, t ∈ toplevels (base d0) /\ handle t = x /\ open_proxy t = true) ->
  tame d0 (to_sink h (fun fd => demit (e fd)) d).
Proof.
  intros T He H. unfold to_sink. destruct h as [h|]; [|done]. destruct (input_sinks d !! h) as [fd|] eqn:E; [|done].
  destruct T as (A1 & A2 & A3). split_and!; [done|done|]. eapply emits_trans; [exact A3|]. apply emits_one. apply He.
  destruct (H h eq_refl) as (t & Ht & <- & Ho). exists t. split_and!; [done|done|].
  apply surfaces_fields in A1 as (_ & _ & _ & _ & _ & _ & <- & _). done.
Qed.

Lemma tame_active d0 d h : tame d0 d -> active_input_proxy d = Some h ->
  exists t, t ∈ toplevels (base d0) /\ handle t = h /\ open_proxy t = true.
Proof. intros (A1 & A2 & _) H. apply surfaces_fields in A1 as (<- & _). by apply A2. Qed.

Lemma tame_track d0 i d : hidden d0 -> tame d0 d -> seen d (focus_of i d) -> tame d0 (qdwin_proxy_pointer_track_focus i d).
Proof.
  intros H T S. unfold qdwin_proxy_pointer_track_focus. case_bool_decide; [done|].
  assert (N : forall x, qdwin_proxy_for_view (focus_of i d) d = Some x ->
    exists t, t ∈ toplevels (base d0) /\ handle t = x /\ open_proxy t = true).
  { intros x Hx. destruct T as (A1 & _). pose proof A1 as (<- & _)%surfaces_fields.
    apply (proxy_for_view_open d (focus_of i d)); [|done|done]. by eapply surfaces_hidden. }
  apply tame_to_sink; [|done|exact N].
  assert (T1 : tame d0 (to_sink (active_input_proxy d) (fun fd => demit (sink_focus fd false)) d)).
  { apply tame_to_sink; [done|done|]. intros x Hx. by eapply tame_active. }
  destruct T1 as (B1 & B2 & B3). split_and!; [done| |done].
  intros x Hx. cbn in *. apply surfaces_fields in B1 as (E & _). rewrite E. by apply N.
Qed.

Lemma focus_retarget_seen i v d : seen d v -> seen (retarget i v d) (focus_of i (retarget i v d)).
Proof.
  intros S. destruct (quiet_retarget i v d) as (Q & _). unfold seen, layer_view_list in *.
  pose proof Q as (_ & _ & _ & _ & _ & -> & _)%surfaces_fields.
  unfold retarget in *. case_bool_decide as E.
  - rewrite E. done.
  - intros w Hw. destruct (pointer_of i d) as [p|] eqn:P.
    + rewrite focus_set_focus in Hw by (by exists p). destruct (S w Hw) as [N|]; [left|by right].
      intros B. apply N. by apply (surfaces_blind _ _ w (eq_sym Q)).
    + unfold focus_of, weston_pointer_set_focus in Hw. rewrite pointer_of_upd in Hw by done. by rewrite P in Hw.
Qed.

Lemma tame_default_focus d0 i d : hidden d0 -> tame d0 d -> tame d0 (qdwin_proxy_default_grab_focus i d).
Proof.
  intros H T. unfold qdwin_proxy_default_grab_focus. destruct (locked (base d)).
  - eapply tame_quiet; [exact T|apply quiet_retarget].
  - apply tame_track; [done| |].
    + eapply tame_quiet; [exact T|apply quiet_retarget].
    + apply focus_retarget_seen, seen_pick.
Qed.

Lemma tame_grab_focus d0 i d : hidden d0 -> tame d0 d -> tame d0 (grab_focus i d).
Proof.
  intros H T. unfold grab_focus. destruct (pgrab_of i d).
  - by apply tame_default_focus.
  - done.
  - unfold layer_grab. destruct (lpopup_of p d) as [lp|]; [|by eapply tame_quiet; [exact T|apply quiet_demit]].
    destruct (lp_seat lp); [|by eapply tame_quiet; [exact T|apply quiet_demit]]. eapply tame_quiet; [exact T|]. unfold qdwin_layer_popup_grab_refilter_focus.
    repeat case_match; first [apply quiet_retarget|apply quiet_refl|by apply quiet_same].
  - destruct (find_stream s d) as [x|]; [|by eapply tame_quiet; [exact T|apply quiet_demit]].
    unfold qdwin_stream_confine_focus, with_target. destruct (qdwin_stream_confine_target x d); [|done].
    eapply tame_quiet; [exact T|apply quiet_retarget].
  - done.
Qed.

Lemma tame_move d0 i m d : hidden d0 -> tame d0 d -> tame d0 (weston_pointer_move i m d).
Proof. intros H T. apply tame_grab_focus; [done|]. eapply tame_quiet; [exact T|apply quiet_pos]. Qed.

Lemma tame_send_motion d0 i m d : hidden d0 -> tame d0 d -> tame d0 (weston_pointer_send_motion i m d).
Proof.
  intros H T. unfold weston_pointer_send_motion. cbv zeta.
  set (d1 := match focus_of i d with Some v => _ | None => d end).
  assert (T1 : tame d0 d1).
  { unfold d1. destruct (focus_of i d); [|done]. eapply tame_quiet; [exact T|apply quiet_upd_pointer]. }
  clearbody d1. set (pos := weston_pointer_clamp _ _ d). clearbody pos.
  assert (T2 : tame d0 (grab_focus i (set_ptr_pos i pos d1))).
  { apply tame_grab_focus; [done|]. eapply tame_quiet; [exact T1|apply quiet_pos]. }
  revert T2. generalize (grab_focus i (set_ptr_pos i pos d1)). intros d2 T2.
  assert (T3 : forall b e, tame d0 (if b : bool then weston_pointer_send i e d2 else d2)).
  { intros [] e; [|done]. eapply tame_quiet; [exact T2|apply quiet_send]. }
  destruct m; [apply T3|]. eapply tame_quiet; [apply T3|apply quiet_send].
Qed.

Lemma windows_focus h b q : toplevels (qdwin_toplevel_focus h b q) = toplevels q
  /\ next_view (qdwin_toplevel_focus h b q) = next_view q /\ next_handle (qdwin_toplevel_focus h b q) = next_handle q.
Proof.
  unfold qdwin_toplevel_focus, with_tl. destruct (qdwin_toplevel_from_handle h q) as [t|]; [|done].
  repeat (case_match; [done|]). cbv zeta.
  set (q1 := if b then qdwin_toplevel_raise h q else q).
  assert (E1 : toplevels q1 = toplevels q /\ next_view q1 = next_view q /\ next_handle q1 = next_handle q).
  { unfold q1, qdwin_toplevel_raise, qdwin_toplevel_move_to_layer, with_tl. destruct b; [|done].
    destruct (qdwin_toplevel_from_handle h q); [|done]. repeat (case_match; [done|]). done. }
  clearbody q1. destruct E1 as (<- & <- & <-). set (f := fun q s => _).
  assert (C : foldl f q1 (seats q1) ≃ q1).
  { apply core_foldl. intros q2 s. unfold f. destruct (_ && _); [|done].
    etransitivity; [apply core_send|apply core_set_focus]. }
  split_and!; by apply core_field.
Qed.

Lemma windows_ffm i u q : toplevels (qdwin_ffm_consider i u q) = toplevels q
  /\ next_view (qdwin_ffm_consider i u q) = next_view q /\ next_handle (qdwin_ffm_consider i u q) = next_handle q.
Proof.
  unfold qdwin_ffm_consider, qdwin_ffm_cancel. destruct (_ || _); [done|].
  destruct (u ≫= _) as [t|]; [|by repeat case_match]. repeat case_match; try done.
  exact (windows_focus _ _ (upd_config (fun c => c <| ffm_pending_handle := 0 |>) q)).
Qed.

Lemma tame_sinks d0 d e : tame d0 d -> tame d0 (to_sink (active_input_proxy d) (fun fd => demit (sink_sent fd (e : pointer_event))) d).
Proof. intros T. apply tame_to_sink; [done|done|]. intros x Hx. by eapply tame_active. Qed.

Lemma tame_motion d0 i m d : hidden d0 -> tame d0 d -> tame d0 (qdwin_proxy_default_grab_motion i m d).
Proof.
  intros H T. unfold qdwin_proxy_default_grab_motion.
  assert (T1 : tame d0 (weston_pointer_move i m (demit note_activity d))).
  { apply tame_move; [done|]. eapply tame_quiet; [exact T|by apply quiet_demit]. }
  revert T1. generalize (weston_pointer_move i m (demit note_activity d)). clear d T. intros d T.
  destruct (locked (base d)).
  { apply tame_send_motion; [done|]. eapply tame_quiet; [exact T|apply quiet_retarget]. }
  set (v := skip_cursor_sprite _ _ d).
  assert (T1 : tame d0 (qdwin_proxy_pointer_track_focus i (retarget i v d))).
  { apply tame_track; [done|eapply tame_quiet; [exact T|apply quiet_retarget]|].
    apply focus_retarget_seen, seen_skip, seen_pick. }
  revert T1. generalize (qdwin_proxy_pointer_track_focus i (retarget i v d)). clear d T v. intros d T.
  set (d1 := match pointer_of i d with Some p => _ | None => d end).
  assert (T1 : tame d0 d1).
  { unfold d1. destruct (pointer_of i d) as [p|]; [|done]. destruct (ptr_sprite p); [done|].
    eapply tame_quiet; [exact T|by apply quiet_demit]. }
  clearbody d1. apply (tame_send_motion _ i m) in T1; [|done]. revert T1.
  generalize (weston_pointer_send_motion i m d1). clear d T d1. intros d T.
  set (d1 := on_base _ d). assert (T1 : tame d0 d1).
  { eapply tame_quiet; [exact T|]. destruct (windows_ffm i (qdwin_toplevel_at_pos (ptr_pos i d) d) (base d)) as (A & B & C).
    by apply quiet_base. }
  clearbody d1. destruct (active_input_proxy d1) as [h|] eqn:E; [|done].
  unfold to_sink. destruct (input_sinks d1 !! h) as [fd|] eqn:Es; [|done]. rewrite E.
  destruct (qdwin_toplevel_from_handle h (base d1)) as [t|]; [|done]. destruct (view t =? NULL_VIEW); [done|].
  pose proof (tame_sinks d0 d1 (pe_motion (fst (to_surface (view t) (ptr_pos i d1) d1)) (snd (to_surface (view t) (ptr_pos i d1) d1))) T1) as X.
  unfold to_sink in X. by rewrite E, Es in X.
Qed.

Lemma quiet_click i h d : quiet d (click_focus i h d).
Proof.
  unfold click_focus. destruct (qdwin_toplevel_from_handle h (base d)) as [t|]; [|apply quiet_refl].
  set (d1 := if raise_on_click (policy (base d)) then _ else d).
  assert (Q1 : quiet d d1) by (unfold d1; destruct (raise_on_click _); [apply quiet_move|apply quiet_refl]).
  clearbody d1. set (d2 := if view t =? NULL_VIEW then d1 else _).
  assert (Q2 : quiet d1 d2) by (unfold d2; destruct (view t =? NULL_VIEW); [apply quiet_refl|apply quiet_retarget]).
  clearbody d2. eapply quiet_trans; [exact Q1|]. eapply quiet_trans; [exact Q2|].
  destruct (seat_of i d2) as [s|]; [|apply quiet_refl]. destruct (_ && _); [|apply quiet_refl].
  eapply quiet_trans; apply quiet_core; [apply core_set_focus|apply core_send].
Qed.

Lemma quiet_on_demand i d : quiet d (qdwin_layer_surface_handle_on_demand_button i d).
Proof.
  unfold qdwin_layer_surface_handle_on_demand_button. repeat case_match; try apply quiet_refl.
  apply quiet_core, core_set_focus.
Qed.

Lemma tame_button d0 i b p d : hidden d0 -> tame d0 d -> tame d0 (qdwin_proxy_default_grab_button i b p d).
Proof.
  intros H T. unfold qdwin_proxy_default_grab_button. cbv zeta.
  assert (T1 : tame d0 (demit note_activity d)) by (eapply tame_quiet; [exact T|by apply quiet_demit]).
  revert T1. generalize (demit note_activity d). clear d T. intros d T. destruct (locked (base d)).
  { eapply tame_quiet; [exact T|]. eapply quiet_trans; [apply quiet_retarget|apply quiet_send]. }
  destruct (qdwin_layer_surface_blocks_toplevel_focus _ d) as [bl|o]; [|by eapply tame_quiet; [exact T|apply quiet_demit]].
  set (d1 := if bl && _ then _ else d).
  assert (Q1 : quiet d d1) by (unfold d1; destruct (bl && _); [apply quiet_retarget|apply quiet_refl]).
  clearbody d1. set (d2 := if p && _ then qdwin_layer_surface_handle_on_demand_button i d1 else d1).
  assert (Q2 : quiet d1 d2) by (unfold d2; destruct (p && _); [apply quiet_on_demand|apply quiet_refl]).
  clearbody d2. set (d3 := if _ && negb _ then _ else d2).
  assert (Q3 : quiet d2 d3).
  { unfold d3. destruct (_ && negb _); [|apply quiet_refl]. destruct (qdwin_toplevel_at_pos _ d2); [apply quiet_click|apply quiet_refl]. }
  clearbody d3. apply tame_sinks. eapply tame_quiet; [exact T|]. repeat (eapply quiet_trans; [eassumption|]).
  eapply quiet_trans; [apply quiet_send|]. unfold send_chrome_button. repeat case_match; first [apply quiet_refl|by apply quiet_demit].
Qed.

(** Whatever a pointer under the default grab reports, no proxy nobody has
    approved becomes the input proxy and no packet goes to its sink. *)
Lemma tame_input d0 i x d : hidden d0 -> tame d0 d -> tame d0 (default_grab_input i x d).
Proof.
  intros H T. destruct x; cbn [default_grab_input].
  - by apply tame_motion.
  - by apply tame_button.
  - unfold qdwin_proxy_default_grab_axis. cbv zeta.
    assert (T1 : tame d0 (demit note_activity d)) by (eapply tame_quiet; [exact T|by apply quiet_demit]).
    revert T1. generalize (demit note_activity d). clear d T. intros d T. destruct (locked (base d)).
    + eapply tame_quiet; [exact T|apply quiet_send].
    + apply tame_sinks. eapply tame_quiet; [exact T|apply quiet_send].
  - eapply tame_quiet; [exact T|apply quiet_send].
  - eapply tame_quiet; [exact T|apply quiet_send].
  - by apply tame_default_focus.
Qed.

(** ** Windows by handle *)

Notation tls n := (toplevels (base (nd n))).
Definition find_tl (h : Z) (l : list toplevel) : option toplevel := List.find (fun t => handle t =? h) l.

Lemma proxy_of_find h n : proxy_of h n = find_tl h (tls n).
Proof. done. Qed.

Lemma find_tl_handle h l t : find_tl h l = Some t -> handle t = h /\ t ∈ l.
Proof. intros [H1 H2]%List.find_some. zbool. split; [done|by apply list_elem_of_In]. Qed.
Lemma find_tl_in l t : NoDup (map handle l) -> t ∈ l -> find_tl (handle t) l = Some t.
Proof. intros N H. by apply (find_unique handle). Qed.

(** [l'] is [l] with the window [h] replaced by [t]. *)
Definition replaced (h : Z) (t : toplevel) (l l' : list toplevel) : Prop :=
  map handle l' = map handle l /\ find_tl h l' = Some t /\ forall h', h' <> h -> find_tl h' l' = find_tl h' l.

Lemma replaced_map h f l t : find_tl h l = Some t -> (forall x, handle (f x) = handle x) ->
  replaced h (f t) l (map (fun x => if handle x =? h then f x else x) l).
Proof.
  intros H F. split_and!.
  - rewrite map_map. apply map_ext. intros x. by destruct (handle x =? h); rewrite ?F.
  - induction l as [|x l IH]; [done|]. cbn in *. destruct (handle x =? h) eqn:E; cbn.
    + rewrite F, E. by simplify_eq.
    + rewrite E. by apply IH.
  - intros h' N. clear H. induction l as [|x l IH]; [done|]. cbn in *. destruct (handle x =? h) eqn:E; cbn.
    + rewrite F. zbool. destruct (handle x =? h') eqn:E'; [zbool; congruence|exact IH].
    + destruct (handle x =? h'); [done|exact IH].
Qed.
Lemma replaced_refl h l t : find_tl h l = Some t -> replaced h t l l.
Proof. by split. Qed.
Lemma replaced_trans h t1 t2 l1 l2 l3 : replaced h t1 l1 l2 -> replaced h t2 l2 l3 -> replaced h t2 l1 l3.
Proof. intros (A1 & A2 & A3) (B1 & B2 & B3). split_and!; [congruence|done|]. intros h' N. by rewrite B3, A3. Qed.

Lemma replaced_then h f t l l' : replaced h t l l' -> (forall x, handle (f x) = handle x) ->
  replaced h (f t) l (map (fun x => if handle x =? h then f x else x) l').
Proof. intros R F. eapply replaced_trans; [exact R|]. apply replaced_map; [apply R|exact F]. Qed.

(** ** The invariant of the desk *)

Record box_ok (d : desk) (t : toplevel) (p : nproxy) : Prop := {
  bo_pending : proxy_pending t = true -> decorated t = false /\ np_pixel_view p = None;
  bo_pixels : forall v, np_pixel_view p = Some v -> view t = v /\ proxy_curtain t = false;
  bo_curtain : proxy_curtain t = true ->
    view t <> NULL_VIEW /\ view_surface d !! view t = Some (proxy_surface t)
    /\ exists w, wsurfaces d !! proxy_surface t = Some w /\ ws_client w = None
         /\ (proxy_pending t = true -> forall x y, ws_input w x y = false);
  bo_bare : proxy_curtain t = false -> np_pixel_view p = None -> view t = NULL_VIEW
}.

Record contained (n : nested) : Prop := {
  co_nodup : NoDup (map handle (tls n));
  co_box : forall h t, find_tl h (tls n) = Some t -> is_nested_proxy t = true ->
    exists p, nproxies n !! h = Some p /\ box_ok (nd n) t p;
  co_views : forall h t, find_tl h (tls n) = Some t -> Forall (fun v => v < next_view (base (nd n))) (tl_views t);
  co_unique : forall h h' t t', find_tl h (tls n) = Some t -> is_nested_proxy t = true -> view t <> NULL_VIEW ->
    find_tl h' (tls n) = Some t' -> (h' <> h -> view t' <> view t) /\ view t ∉ chrome_views t';
  co_curtains : forall h h' t t', find_tl h (tls n) = Some t -> is_nested_proxy t = true -> proxy_curtain t = true ->
    find_tl h' (tls n) = Some t' -> is_nested_proxy t' = true -> proxy_curtain t' = true -> h' <> h ->
    proxy_surface t' <> proxy_surface t;
  co_layers : forall v, v ∈ layer_view_list (nd n) -> 0 < v < next_view (base (nd n))
    /\ forall h t, find_tl h (tls n) = Some t -> is_nested_proxy t = true -> view t <> v;
  co_null : view_surface (nd n) !! NULL_VIEW = None /\ 0 < next_view (base (nd n));
  co_active : active_ok (nd n)
}.

Lemma contained_hidden n : contained n -> hidden (nd n).
Proof.
  intros C t Ht Hp. unfold pending_proxy in Hp. apply andb_prop in Hp as [P1 P2].
  pose proof (find_tl_in _ _ (co_nodup _ C) Ht) as F. destruct (co_box _ C _ _ F P1) as (p & _ & B). split.
  - unfold blind, surface_of. destruct (proxy_curtain t) eqn:Ec.
    + destruct (bo_curtain _ _ _ B Ec) as (_ & -> & w & -> & _ & H). by apply H.
    + destruct (bo_pending _ _ _ B P2) as [_ N]. rewrite (bo_bare _ _ _ B Ec N). by rewrite (proj1 (co_null _ C)).
  - intros H. destruct (co_layers _ C _ H) as [_ N]. by apply (N (handle t) t).
Qed.

(** *** One proxy changes *)

(** Surfaces other than the curtain of [t] keep their client, and those without
    a client their input region. *)
Definition surf_frame (t : toplevel) (d d' : desk) : Prop :=
  forall s w, wsurfaces d !! s = Some w ->
    (proxy_curtain t = true /\ s = proxy_surface t)
    \/ exists w', wsurfaces d' !! s = Some w' /\ ws_client w' = ws_client w /\ (ws_client w = None -> ws_input w' = ws_input w).

Lemma contained_update n n' h t t' p p' :
  contained n -> find_tl h (tls n) = Some t -> is_nested_proxy t = true -> nproxies n !! h = Some p ->
  replaced h t' (tls n) (tls n') -> is_nested_proxy t' = true -> chrome_views t' = chrome_views t ->
  nproxies n' = <[h := p']> (nproxies n) ->
  surf_frame t (nd n) (nd n') ->
  (forall v, v <> view t -> v < next_view (base (nd n)) -> view_surface (nd n') !! v = view_surface (nd n) !! v) ->
  view_surface (nd n') !! NULL_VIEW = None ->
  next_view (base (nd n)) <= next_view (base (nd n')) ->
  (view t' = view t \/ view t' = NULL_VIEW \/ next_view (base (nd n)) <= view t' < next_view (base (nd n'))) ->
  (proxy_curtain t' = true -> (proxy_curtain t = true /\ proxy_surface t' = proxy_surface t)
     \/ wsurfaces (nd n) !! proxy_surface t' = None) ->
  lsurfs (nd n') = lsurfs (nd n) -> active_input_proxy (nd n') = active_input_proxy (nd n) ->
  (proxy_pending t' = true -> proxy_pending t = true) ->
  box_ok (nd n') t' p' -> contained n'.
Proof.
  intros C Ft Pt Fp (R1 & R2 & R3) Pt' Ch Np Sf Vf Vn Nv Vt Cs Ls Ac Pe B'.
  assert (N' : NoDup (map handle (tls n'))) by (rewrite R1; apply (co_nodup _ C)).
  assert (Old : forall h1 t1, h1 <> h -> find_tl h1 (tls n') = Some t1 -> find_tl h1 (tls n) = Some t1)
    by (intros h1 t1 N; by rewrite (R3 h1 N)).
  pose proof (co_null _ C) as [_ Pos].
  assert (Bt : view t < next_view (base (nd n))) by (pose proof (co_views _ C _ _ Ft) as X; by apply Forall_cons in X as [X _]).
  split.
  - exact N'.
  - intros h1 t1 F1 P1. destruct (decide (h1 = h)) as [->|N].
    { exists p'. rewrite Np, lookup_insert_eq. rewrite R2 in F1. by simplify_eq. }
    apply Old in F1; [|done]. destruct (co_box _ C _ _ F1 P1) as (p1 & E1 & B1). exists p1.
    split; [by rewrite Np, lookup_insert_ne|]. destruct B1 as [b1 b2 b3 b4]. split; [done|done| |done].
    intros Hc. destruct (b3 Hc) as (v1 & v2 & w & v3 & v4 & v5). split; [done|].
    assert (view t1 < next_view (base (nd n))) by (pose proof (co_views _ C _ _ F1) as X; by apply Forall_cons in X as [X _]).
    assert (view t1 <> view t) by (destruct (decide (view t = NULL_VIEW)) as [E|E]; [congruence|];
      apply (co_unique _ C h h1 t t1); done).
    rewrite Vf by done. split; [done|]. destruct (Sf _ _ v3) as [[Hc2 E]|(w' & Hw & Hcl & Hin)].
    + exfalso. by eapply (co_curtains _ C h h1 t t1).
    + exists w'. split_and!; [done|congruence|]. intros Hp x y. rewrite Hin by done. by apply v5.
  - intros h1 t1 F1. destruct (decide (h1 = h)) as [->|N].
    + rewrite R2 in F1. simplify_eq. pose proof (co_views _ C _ _ Ft) as X. unfold tl_views in *. fold (chrome_views t1).
      fold (chrome_views t) in X. rewrite Ch. apply Forall_cons in X as [X1 X2]. apply Forall_cons. split.
      * destruct Vt as [->|[->|?]]; [lia|unfold NULL_VIEW; lia|lia].
      * eapply Forall_impl; [exact X2|]. cbn. lia.
    + apply Old in F1; [|done]. eapply Forall_impl; [apply (co_views _ C _ _ F1)|]. cbn. lia.
  - intros h1 h2 t1 t2 F1 P1 V1 F2. 
    assert (Bd : forall h3 t3, find_tl h3 (tls n) = Some t3 -> view t3 < next_view (base (nd n))
              /\ forall v, v ∈ chrome_views t3 -> v < next_view (base (nd n))).
    { intros h3 t3 F3. pose proof (co_views _ C _ _ F3) as X. apply Forall_cons in X as [X1 X2]. split; [done|].
      rewrite Forall_forall in X2. exact X2. }
    destruct (decide (h1 = h)) as [->|N1]; destruct (decide (h2 = h)) as [->|N2].
    + rewrite R2 in F1, F2. simplify_eq. split; [done|]. rewrite Ch. destruct Vt as [E|[E|E]]; [|done|].
      * rewrite E. rewrite E in V1. by apply (co_unique _ C h h t t Ft Pt V1 Ft).
      * intros X. apply (Bd h t Ft) in X. lia.
    + rewrite R2 in F1. simplify_eq. apply Old in F2; [|done]. destruct Vt as [E|[E|E]]; [|done|].
      * rewrite E. rewrite E in V1. by apply (co_unique _ C h h2 t t2 Ft Pt V1 F2).
      * destruct (Bd h2 t2 F2) as [b1 b2]. split; [lia|]. intros X. apply b2 in X. lia.
    + rewrite R2 in F2. simplify_eq. apply Old in F1; [|done]. destruct (co_unique _ C h1 h t1 t F1 P1 V1 Ft) as [u1 u2].
      rewrite Ch. split; [|done]. intros _. destruct (Bd h1 t1 F1) as [b1 _].
      destruct Vt as [->|[->|E]]; [by apply u1|done|lia].
    + apply Old in F1, F2; [|done|done]. by apply (co_unique _ C h1 h2 t1 t2).
  - intros h1 h2 t1 t2 F1 P1 C1 F2 P2 C2 N. 
    assert (Ex : forall h3 t3, find_tl h3 (tls n) = Some t3 -> is_nested_proxy t3 = true -> proxy_curtain t3 = true ->
              is_Some (wsurfaces (nd n) !! proxy_surface t3)).
    { intros h3 t3 F3 P3 C3. destruct (co_box _ C _ _ F3 P3) as (p3 & _ & B3).
      destruct (bo_curtain _ _ _ B3 C3) as (_ & _ & w & E & _). by exists w. }
    destruct (decide (h1 = h)) as [->|N1]; destruct (decide (h2 = h)) as [->|N2]; [done| | |].
    + rewrite R2 in F1. simplify_eq. apply Old in F2; [|done]. destruct (Cs C1) as [[Ct ->]|E].
      * by apply (co_curtains _ C h h2 t t2).
      * intros X. destruct (Ex h2 t2 F2 P2 C2) as [? Y]. rewrite X in Y. congruence.
    + rewrite R2 in F2. simplify_eq. apply Old in F1; [|done]. destruct (Cs C2) as [[Ct ->]|E].
      * by apply (co_curtains _ C h1 h t1 t).
      * intros X. destruct (Ex h1 t1 F1 P1 C1) as [? Y]. rewrite <- X in Y. congruence.
    + apply Old in F1, F2; [|done|done]. by apply (co_curtains _ C h1 h2 t1 t2).
  - intros v Hv. unfold layer_view_list in *. rewrite Ls in Hv. destruct (co_layers _ C v Hv) as [L1 L2]. split; [lia|].
    intros h1 t1 F1 P1. destruct (decide (h1 = h)) as [->|N].
    + rewrite R2 in F1. simplify_eq. destruct Vt as [->|[->|?]]; [by apply (L2 h t)|unfold NULL_VIEW; lia|lia].
    + apply Old in F1; [|done]. by apply (L2 h1 t1).
  - split; [done|lia].
  - intros h1 E. rewrite Ac in E. destruct (co_active _ C _ E) as (t1 & I1 & <- & O1).
    pose proof (find_tl_in _ _ (co_nodup _ C) I1) as F1. destruct (decide (handle t1 = h)) as [Eh|N].
    + exists t'. destruct (find_tl_handle _ _ _ R2) as [Hh Hi]. split_and!; [done|congruence|].
      rewrite Eh in F1. simplify_eq. unfold open_proxy in *. rewrite Pt'. apply andb_prop in O1 as [_ O1].
      destruct (proxy_pending t'); [|done]. by rewrite Pe in O1.
    + exists t1. rewrite <- (R3 _ N) in F1. by apply find_tl_handle in F1 as [_ ?].
Qed.

(** Only events, focus, positions and descriptors change. *)
Lemma contained_ext n n' :
  contained n -> tls n' = tls n -> next_view (base (nd n')) = next_view (base (nd n)) ->
  wsurfaces (nd n') = wsurfaces (nd n) -> view_surface (nd n') = view_surface (nd n) -> lsurfs (nd n') = lsurfs (nd n) ->
  nproxies n' = nproxies n -> active_ok (nd n') -> contained n'.
Proof.
  intros [C1 C2 C3 C4 C5 C6 C7 C8] E1 E2 E3 E4 E5 E6 A. split; unfold layer_view_list in *; rewrite ?E1, ?E2, ?E4, ?E5, ?E6; auto.
  intros h t F P. destruct (C2 h t F P) as (p & Fp & [b1 b2 b3 b4]). exists p. split; [done|]. split; rewrite ?E3, ?E4; auto.
Qed.

Lemma active_ok_same d d' : active_ok d -> toplevels (base d') = toplevels (base d) ->
  active_input_proxy d' = active_input_proxy d -> active_ok d'.
Proof. intros A E1 E2 h. rewrite E2, E1. apply A. Qed.

(** A client's surface is committed, created, mapped: curtains are not clients'. *)
Lemma contained_surfaces n d' :
  contained n -> base d' = base (nd n) -> view_surface d' = view_surface (nd n) -> lsurfs d' = lsurfs (nd n) ->
  active_input_proxy d' = active_input_proxy (nd n) ->
  (forall s w, wsurfaces (nd n) !! s = Some w -> ws_client w = None -> wsurfaces d' !! s = Some w) ->
  contained (n <| nd := d' |>).
Proof.
  intros [C1 C2 C3 C4 C5 C6 C7 C8] E1 E2 E3 E4 F. split; unfold layer_view_list in *; cbn; rewrite ?E1, ?E2, ?E3; auto.
  - intros h t Ft P. destruct (C2 h t Ft P) as (p & Fp & [b1 b2 b3 b4]). exists p. split; [done|]. split; auto.
    intros Hc. destruct (b3 Hc) as (v1 & v2 & w & v3 & v4 & v5). rewrite E2. split_and!; [done|done|]. exists w. auto.
  - apply (active_ok_same (nd n)); [done|by rewrite E1|done].
Qed.

(** *** A proxy goes away *)

Definition without (h : Z) (l : list toplevel) : list toplevel := List.filter (fun t => negb (handle t =? h)) l.

Lemma find_without h h' l : find_tl h' (without h l) = if decide (h' = h) then None else find_tl h' l.
Proof.
  induction l as [|x l IH]; [by case_decide|]. cbn. destruct (handle x =? h) eqn:E; cbn; fold (without h l) in *.
  - unfold find_tl in *. rewrite IH. zbool. case_decide; [done|]. destruct (handle x =? h') eqn:E'; [zbool; congruence|done].
  - unfold find_tl in *. cbn. rewrite IH. destruct (handle x =? h') eqn:E'; [|done]. zbool. case_decide; [congruence|done].
Qed.
Lemma without_in h l t : t ∈ without h l <-> t ∈ l /\ handle t <> h.
Proof. unfold without. rewrite !list_elem_of_In, List.filter_In. rewrite negb_true_iff, Z.eqb_neq. done. Qed.
Lemma without_nodup h l : NoDup (map handle l) -> NoDup (map handle (without h l)).
Proof. apply nodup_filter_key. Qed.

Lemma contained_remove n n' h t :
  contained n -> find_tl h (tls n) = Some t -> is_nested_proxy t = true ->
  tls n' = without h (tls n) -> next_view (base (nd n')) = next_view (base (nd n)) ->
  (forall h', h' <> h -> nproxies n' !! h' = nproxies n !! h') ->
  surf_frame t (nd n) (nd n') ->
  (forall v, v <> view t -> v ∉ chrome_views t -> view_surface (nd n') !! v = view_surface (nd n) !! v) ->
  view_surface (nd n') !! NULL_VIEW = None ->
  lsurfs (nd n') = lsurfs (nd n) -> active_ok (nd n') -> contained n'.
Proof.
  intros C Ft Pt Tl Nv Np Sf Vf Vn Ls Ac.
  assert (Old : forall h1 t1, find_tl h1 (tls n') = Some t1 -> h1 <> h /\ find_tl h1 (tls n) = Some t1).
  { intros h1 t1 F. rewrite Tl, find_without in F. by case_decide. }
  split.
  - rewrite Tl. apply without_nodup, (co_nodup _ C).
  - intros h1 t1 F1 P1. apply Old in F1 as [N F1]. destruct (co_box _ C _ _ F1 P1) as (p1 & E1 & [b1 b2 b3 b4]). exists p1.
    split; [by rewrite Np|]. split; [done|done| |done].
    intros Hc. destruct (b3 Hc) as (v1 & v2 & w & v3 & v4 & v5). split; [done|].
    rewrite Vf; [| |].
    + split; [done|]. destruct (Sf _ _ v3) as [[Hc2 E]|(w' & Hw & Hcl & Hin)].
      * exfalso. by eapply (co_curtains _ C h h1 t t1).
      * exists w'. split_and!; [done|congruence|]. intros Hp x y. rewrite Hin by done. by apply v5.
    + intros E. destruct (co_unique _ C h1 h t1 t F1 P1 v1 Ft) as [u1 _]. by apply u1.
    + by destruct (co_unique _ C h1 h t1 t F1 P1 v1 Ft) as [_ u2].
  - intros h1 t1 F1. apply Old in F1 as [N F1]. rewrite Nv. by apply (co_views _ C h1).
  - intros h1 h2 t1 t2 F1 P1 V1 F2. apply Old in F1 as [N1 F1]. apply Old in F2 as [N2 F2]. by apply (co_unique _ C h1 h2).
  - intros h1 h2 t1 t2 F1 P1 C1 F2 P2 C2. apply Old in F1 as [N1 F1]. apply Old in F2 as [N2 F2]. by apply (co_curtains _ C h1 h2).
  - intros v Hv. unfold layer_view_list in *. rewrite Ls in Hv. rewrite Nv. destruct (co_layers _ C v Hv) as [L1 L2].
    split; [done|]. intros h1 t1 F1. apply Old in F1 as [N1 F1]. by apply (L2 h1).
  - split; [done|]. rewrite Nv. apply (co_null _ C).
  - done.
Qed.

(** *** A proxy is made *)

Lemma contained_add n n' t p :
  contained n -> find_tl (handle t) (tls n) = None -> is_nested_proxy t = true ->
  (exists t', tls n' = t' :: tls n /\ handle t' = handle t /\ is_nested_proxy t' = true /\ tl_views t' = tl_views t
     /\ proxy_curtain t' = true /\ proxy_surface t' = proxy_surface t /\ box_ok (nd n') t' p) ->
  chrome_views t = [] -> view t = next_view (base (nd n)) -> next_view (base (nd n')) = Z.succ (next_view (base (nd n))) ->
  nproxies n' = <[handle t := p]> (nproxies n) ->
  wsurfaces (nd n) !! proxy_surface t = None ->
  (forall s w, wsurfaces (nd n) !! s = Some w -> wsurfaces (nd n') !! s = Some w) ->
  (forall v, v < next_view (base (nd n)) -> view_surface (nd n') !! v = view_surface (nd n) !! v) ->
  lsurfs (nd n') = lsurfs (nd n) -> active_input_proxy (nd n') = active_input_proxy (nd n) ->
  contained n'.
Proof.
  intros C Fn Pt (t' & Tl & Hh & Pt' & Vs & Ct & Ps & B) Ch Vt Nv Np Sn Sf Vf Ls Ac.
  pose proof (co_null _ C) as [Vn Pos].
  assert (Vt' : view t' = next_view (base (nd n)) /\ chrome_views t' = []).
  { unfold tl_views in Vs. injection Vs as E1 E2. split; [congruence|]. unfold chrome_views in *. congruence. }
  destruct Vt' as [Vt' Ch']. clear Vs Vt.
  assert (Find : forall h1 t1, find_tl h1 (tls n') = Some t1 ->
    (h1 = handle t /\ t1 = t') \/ (h1 <> handle t /\ find_tl h1 (tls n) = Some t1)).
  { intros h1 t1 F. rewrite Tl in F. cbn in F. rewrite Hh in F. destruct (handle t =? h1) eqn:E; zbool.
    - left. split; [done|by simplify_eq].
    - right. done. }
  assert (Bd : forall h3 t3, find_tl h3 (tls n) = Some t3 -> view t3 < next_view (base (nd n))
              /\ forall v, v ∈ chrome_views t3 -> v < next_view (base (nd n))).
  { intros h3 t3 F3. pose proof (co_views _ C _ _ F3) as X. apply Forall_cons in X as [X1 X2]. split; [done|].
    rewrite Forall_forall in X2. exact X2. }
  split.
  - rewrite Tl. cbn. apply NoDup_cons. split; [|apply (co_nodup _ C)]. rewrite Hh. intros I.
    apply list_elem_of_In, in_map_iff in I as (x & E & I). apply list_elem_of_In in I.
    pose proof (find_tl_in _ _ (co_nodup _ C) I). congruence.
  - intros h1 t1 F1 P1. apply Find in F1 as [[-> ->]|[N F1]].
    { exists p. rewrite Np, lookup_insert_eq. done. }
    destruct (co_box _ C _ _ F1 P1) as (p1 & E1 & [b1 b2 b3 b4]). exists p1. split; [by rewrite Np, lookup_insert_ne|].
    split; [done|done| |done]. intros Hc. destruct (b3 Hc) as (v1 & v2 & w & v3 & v4 & v5). split; [done|].
    rewrite (Vf _ (proj1 (Bd h1 t1 F1))). split; [done|]. exists w. auto.
  - intros h1 t1 F1. apply Find in F1 as [[-> ->]|[N F1]].
    + unfold tl_views. fold (chrome_views t'). rewrite Ch', Vt'. apply Forall_cons. split; [lia|done].
    + eapply Forall_impl; [apply (co_views _ C _ _ F1)|]. cbn. lia.
  - intros h1 h2 t1 t2 F1 P1 V1 F2. apply Find in F1 as [[-> ->]|[N1 F1]]; apply Find in F2 as [[-> ->]|[N2 F2]].
    + split; [done|]. rewrite Ch'. apply not_elem_of_nil.
    + destruct (Bd h2 t2 F2) as [b1 b2]. rewrite Vt'. split; [lia|]. intros X. apply b2 in X. lia.
    + destruct (Bd h1 t1 F1) as [b1 b2]. rewrite Vt', Ch'. split; [lia|apply not_elem_of_nil].
    + by apply (co_unique _ C h1 h2).
  - intros h1 h2 t1 t2 F1 P1 C1 F2 P2 C2 N.
    assert (Ex : forall h3 t3, find_tl h3 (tls n) = Some t3 -> is_nested_proxy t3 = true -> proxy_curtain t3 = true ->
              proxy_surface t3 <> proxy_surface t').
    { intros h3 t3 F3 P3 C3. destruct (co_box _ C _ _ F3 P3) as (p3 & _ & B3).
      destruct (bo_curtain _ _ _ B3 C3) as (_ & _ & w & E & _). congruence. }
    apply Find in F1 as [[-> ->]|[N1 F1]]; apply Find in F2 as [[-> ->]|[N2 F2]]; [done|by eapply Ex| |].
    + intros X. by eapply Ex.
    + by apply (co_curtains _ C h1 h2).
  - intros v Hv. unfold layer_view_list in *. rewrite Ls in Hv. destruct (co_layers _ C v Hv) as [L1 L2]. split; [lia|].
    intros h1 t1 F1 P1. apply Find in F1 as [[-> ->]|[N F1]]; [lia|by apply (L2 h1)].
  - split; [|lia]. rewrite Vf by (unfold NULL_VIEW; lia). done.
  - intros h1 E. rewrite Ac in E. destruct (co_active _ C _ E) as (t1 & I1 & <- & O1). exists t1.
    rewrite Tl. split_and!; [by right|done|done].
Qed.
