(* ===== verification/NestedInvariant.v ===== *)
(** * NestedInvariant: every operation keeps the invariant of the proxies *)

From Stdlib Require Import Ascii String.
From stdpp Require Import base list gmap strings option fin_sets.
From S2P Require Import Prelude Logic Scene State Toplevel ToplevelFacts Dependents Focus Config Workspace Session SessionFacts Desk Pointer PointerFacts LayerShell InputSink Nested NestedFacts.
From stdpp Require Import list.
Import Policy.
#[local] Open Scope Z_scope.

(** ** Small changes *)

(** A change of a window that the desk's invariant does not see. *)
Definition benign (f : toplevel -> toplevel) (t : toplevel) : Prop :=
  is_nested_proxy (f t) = is_nested_proxy t /\ view (f t) = view t /\ tl_chrome (f t) = tl_chrome t
  /\ proxy_curtain (f t) = proxy_curtain t /\ proxy_surface (f t) = proxy_surface t
  /\ (proxy_pending (f t) = true -> proxy_pending t = true /\ decorated (f t) = decorated t).

Lemma find_map_upd h h1 f l t1 : (forall x, handle (f x) = handle x) ->
  find_tl h1 (map (fun x => if handle x =? h then f x else x) l) = Some t1 ->
  exists t, find_tl h1 l = Some t /\ t1 = (if h1 =? h then f t else t).
Proof.
  intros F. induction l as [|x l IH]; [done|]. unfold find_tl in *. cbn.
  assert (E : handle (if handle x =? h then f x else x) = handle x) by (by destruct (handle x =? h)).
  rewrite E. destruct (handle x =? h1) eqn:E1; [|exact IH]. intros [= <-]. exists x. split; [done|]. zbool. by rewrite E1.
Qed.

Lemma contained_benign h f n :
  contained n -> (forall x, handle (f x) = handle x) -> (forall t, find_tl h (tls n) = Some t -> benign f t) ->
  contained (on_qdwin (upd_tl h f) n).
Proof.
  intros C Hh Hb.
  assert (Old : forall h1 t1, find_tl h1 (toplevels (upd_tl h f (base (nd n)))) = Some t1 ->
    exists t, find_tl h1 (tls n) = Some t /\ is_nested_proxy t1 = is_nested_proxy t /\ view t1 = view t
      /\ tl_chrome t1 = tl_chrome t /\ proxy_curtain t1 = proxy_curtain t /\ proxy_surface t1 = proxy_surface t
      /\ (proxy_pending t1 = true -> proxy_pending t = true /\ decorated t1 = decorated t)).
  { intros h1 t1 (t & F & ->)%find_map_upd; [|done]. exists t. split; [done|]. destruct (Z.eqb_spec h1 h) as [->|]; [|done].
    by destruct (Hb t F) as (? & ? & ? & ? & ? & ?). }
  destruct C as [C1 C2 C3 C4 C5 C6 C7 C8]. split; cbn.
  - change (NoDup (map handle (map (fun x => if handle x =? h then f x else x) (tls n)))). rewrite map_map.
    erewrite map_ext; [exact C1|]. intros x. cbn. destruct (handle x =? h); [apply Hh|done].
  - intros h1 t1 (t & F & E1 & E2 & E3 & E4 & E5 & E6)%Old P. rewrite E1 in P.
    destruct (C2 h1 t F P) as (p & Fp & [b1 b2 b3 b4]). exists p. split; [done|]. split.
    + intros Hp. destruct (E6 Hp) as [Hp' ->]. by apply b1.
    + intros v Hv. rewrite E2, E4. by apply b2.
    + rewrite E2, E4, E5. intros Hc. destruct (b3 Hc) as (v1 & v2 & w & v3 & v4 & v5). split_and!; [done|done|].
      exists w. split_and!; [done|done|]. intros Hp. apply v5, E6, Hp.
    + rewrite E2, E4. exact b4.
  - intros h1 t1 (t & F & E1 & E2 & E3 & E4 & E5 & E6)%Old. unfold tl_views. rewrite E2, E3. exact (C3 h1 t F).
  - intros h1 h2 t1 t2 (u1 & F1 & E1 & E2 & E3 & _)%Old P V (u2 & F2 & G1 & G2 & G3 & _)%Old. unfold chrome_views.
    rewrite E2, G2, G3. rewrite E1 in P. rewrite E2 in V. exact (C4 h1 h2 u1 u2 F1 P V F2).
  - intros h1 h2 t1 t2 (u1 & F1 & E1 & E2 & E3 & E4 & E5 & _)%Old P K (u2 & F2 & G1 & G2 & G3 & G4 & G5 & _)%Old P2 K2.
    rewrite E5, G5. apply (C5 h1 h2 u1 u2); congruence.
  - intros v Hv. destruct (C6 v Hv) as [L1 L2]. split; [done|].
    intros h1 t1 (t & F & E1 & E2 & _)%Old P. rewrite E2. apply (L2 h1 t); congruence.
  - done.
  - intros h1 E. destruct (C8 h1 E) as (t & I & <- & O).
    pose proof (find_tl_in _ _ C1 I) as F. exists (if handle t =? h then f t else t). split_and!.
    + change ((if handle t =? h then f t else t) ∈ map (fun x => if handle x =? h then f x else x) (tls n)).
      apply list_elem_of_In, (in_map (fun x => if handle x =? h then f x else x)), list_elem_of_In, I.
    + destruct (handle t =? h); [apply Hh|done].
    + destruct (Z.eqb_spec (handle t) h) as [Eh|]; [|done]. rewrite Eh in F. destruct (Hb t F) as (B1 & _ & _ & _ & _ & B6).
      unfold open_proxy in *. rewrite B1. destruct (is_nested_proxy t); [|done]. cbn in *.
      destruct (proxy_pending (f t)); [|done]. destruct B6 as [B6 _]; [done|]. by rewrite B6 in O.
Qed.

(** Requests that only tell the shell or move things around. *)
Lemma contained_base f n :
  contained n -> toplevels (f (base (nd n))) = tls n -> next_view (f (base (nd n))) = next_view (base (nd n)) ->
  contained (on_qdwin f n).
Proof.
  intros C E1 E2. apply (contained_ext n); [done|done|done|done|done|done|done|].
  apply (active_ok_same (nd n)); [apply (co_active _ C)|done|done].
Qed.
Lemma contained_core f n : contained n -> f (base (nd n)) ≃ base (nd n) -> contained (on_qdwin f n).
Proof. intros C E. apply contained_base; [done| |]; by apply core_field. Qed.
Lemma contained_nemit e n : contained n -> contained (nemit e n).
Proof. intros C. apply (contained_ext n); try done. apply (co_active _ C). Qed.
Lemma contained_np h f n : contained n -> (forall p, np_pixel_view (f p) = np_pixel_view p) -> contained (upd_np h f n).
Proof.
  intros [C1 C2 C3 C4 C5 C6 C7 C8] E. split; try done. intros h1 t F P. destruct (C2 h1 t F P) as (p & Fp & [b1 b2 b3 b4]).
  unfold upd_np. cbn. change (exists p0, alter f h (nproxies n) !! h1 = Some p0 /\ box_ok (nd n) t p0).
  destruct (decide (h1 = h)) as [->|N].
  - exists (f p). rewrite lookup_alter_eq, Fp. split; [done|]. split; rewrite ?E; done.
  - exists p. rewrite lookup_alter_ne by done. done.
Qed.
Lemma contained_nts n l : contained n -> contained (n <| nested_toplevels := l |>).
Proof. intros C. apply (contained_ext n); try done. apply (co_active _ C). Qed.

Lemma contained_pixels h s b n : contained n -> contained (set_pixels h s b n).
Proof. intros C. apply contained_np; [|done]. apply contained_benign; [done|done|]. intros t _. unfold benign. by split_and!. Qed.

(** The tactic closes a benign update of a window. *)
Ltac benign := apply contained_benign; [try assumption|done|intros ? ?; unfold benign; try by split_and!].

Lemma contained_capture h b n :
  contained n -> (forall t, find_tl h (tls n) = Some t -> is_nested_proxy t = true /\ proxy_pending t = false) ->
  contained (qdwin_nested_proxy_curtain_set_capture h b n).
Proof.
  intros C Hp. unfold qdwin_nested_proxy_curtain_set_capture. rewrite proxy_of_find.
  destruct (find_tl h (tls n)) as [t|] eqn:F; [|done]. destruct (proxy_curtain t) eqn:K; cbn [negb]; [|done].
  destruct (Hp t eq_refl) as [P Q]. destruct (co_box _ C _ _ F P) as (p & Fp & [b1 b2 b3 b4]).
  destruct (b3 K) as (v1 & v2 & w & v3 & v4 & v5). set (g := fun w : wsurface => _).
  assert (G : forall w, ws_client (g w) = ws_client w) by done. clearbody g.
  assert (Sf : forall s, alter g (proxy_surface t) (wsurfaces (nd n)) !! s
    = if decide (s = proxy_surface t) then Some (g w) else wsurfaces (nd n) !! s).
  { intros s. case_decide as E; [subst s; by rewrite lookup_alter_eq, v3|by rewrite lookup_alter_ne]. }
  refine (contained_update n _ h t t p p C F P Fp _ _ _ _ _ _ _ _ _ _ _ _ _ _); [by apply replaced_refl|done|done| | |done| |done|by left| |done|done|done|].
  - cbn. by rewrite insert_id.
  - intros s w0 Hw. cbn. rewrite Sf. case_decide as E; [left; done|]. right. by exists w0.
  - apply (co_null _ C).
  - by left.
  - split; [done|done| |done]. intros _. split_and!; [done|done|]. exists (g w). cbn. rewrite Sf, decide_True by done.
    split_and!; [done|by rewrite G|by rewrite Q].
Qed.

(** ** Approval *)

Lemma windows_release_eq b h q t : find_tl h (toplevels q) = Some t ->
  let q' := qdwin_toplevel_release_holding b h q in
  next_view q' = next_view q
  /\ toplevels q' = if decorated t || (proxy_pending t && negb b) then toplevels q
                    else toplevels (upd_tl h (fun t => t <| decorated := true |>) q).
Proof.
  intros F. unfold qdwin_toplevel_release_holding, with_tl.
  change (qdwin_toplevel_from_handle h q) with (find_tl h (toplevels q)). rewrite F. cbv zeta.
  destruct (decorated t); [done|]. destruct (_ && _); [done|]. cbn [orb].
  set (q1 := on_scene _ (upd_tl h _ q)). set (q2 := if workspace t =? _ then q1 else _).
  assert (E : next_view q2 = next_view q /\ toplevels q2 = toplevels (upd_tl h (fun t => t <| decorated := true |>) q)).
  { unfold q2. destruct (_ =? _); [done|]. unfold qdwin_toplevel_move_to_layer, with_tl.
    by destruct (qdwin_toplevel_from_handle h q1). }
  destruct E as [E1 E2]. clearbody q2. pose proof (core_autofocus h q2) as Co.
  split; [rewrite <- E1|rewrite <- E2]; by apply core_field.
Qed.
Lemma windows_release b h q t : find_tl h (toplevels q) = Some t ->
  let q' := qdwin_toplevel_release_holding b h q in
  next_view q' = next_view q
  /\ (toplevels q' = toplevels q \/ toplevels q' = toplevels (upd_tl h (fun t => t <| decorated := true |>) q)).
Proof. intros F. destruct (windows_release_eq b h q t F) as [A B]. cbv zeta. rewrite B. destruct (_ || _); auto. Qed.

Lemma contained_release b h n :
  contained n -> (forall t, find_tl h (tls n) = Some t -> proxy_pending t = false) ->
  contained (on_qdwin (qdwin_toplevel_release_holding b h) n).
Proof.
  intros C Hp. destruct (find_tl h (tls n)) as [t|] eqn:F.
  - destruct (windows_release b h (base (nd n)) t F) as [E1 [E2|E2]]; [by apply contained_base|].
    assert (C2 : contained (on_qdwin (upd_tl h (fun t => t <| decorated := true |>)) n)).
    { apply contained_benign; [done|done|]. intros t1 F1. rewrite F in F1. simplify_eq. unfold benign. split_and!; try done.
      intros X. change (proxy_pending t1 = true) in X. rewrite (Hp t1 eq_refl) in X. done. }
    apply (contained_ext _ (on_qdwin (qdwin_toplevel_release_holding b h) n) C2); try done.
    apply (active_ok_same (nd (on_qdwin (upd_tl h (fun t => t <| decorated := true |>)) n))); [apply (co_active _ C2)|done|done].
  - unfold qdwin_toplevel_release_holding. apply contained_base; [done| |]; unfold with_tl;
      change (qdwin_toplevel_from_handle h (base (nd n))) with (find_tl h (tls n)); by rewrite F.
Qed.

(** ** Views and curtains *)

Lemma lookup_destroyed v w d : view_surface (destroy_view v d) !! w = if decide (w = v) then None else view_surface d !! w.
Proof.
  change (view_surface (destroy_view v d)) with (delete v (view_surface d)). case_decide as E.
  - subst. apply lookup_delete_eq.
  - by rewrite lookup_delete_ne.
Qed.

(** A pixel view takes the place of what the proxy showed. *)
Lemma contained_show_pixels h v s pos n d t p :
  contained n -> find_tl h (tls n) = Some t -> is_nested_proxy t = true -> nproxies n !! h = Some p ->
  np_pixel_view p = None -> proxy_pending t = false -> create_view s (nd n) = (Some v, d) ->
  contained (show_pixels h v s pos t (n <| nd := d |>)).
Proof.
  intros C F P Fp Pv Q E. unfold create_view, weston_view_create in E. destruct (oom (base (nd n))); [done|]. simplify_eq.
  pose proof (co_null _ C) as [Vn Pos]. destruct (co_box _ C _ _ F P) as (p0 & Fp0 & [b1 b2 b3 b4]).
  assert (Nn : view t = NULL_VIEW \/ proxy_curtain t = true).
  { destruct (proxy_curtain t) eqn:K; [by right|left]. apply b4; [done|]. congruence. }
  set (v := next_view (base (nd n))). set (t' := t <| proxy_curtain := false |> <| view := v |> <| proxy_pixel_surface := Some s |>).
  set (p' := p <| np_pixel_view := Some v |> <| np_listening := true |>).
  set (m := show_pixels _ _ _ _ _ _).
  assert (Ws : wsurfaces (nd m) = alter (fun w => w <| ws_mapped := true |>) s
    (if proxy_curtain t then delete (proxy_surface t) (wsurfaces (nd n)) else wsurfaces (nd n)))
    by (unfold m, show_pixels; by destruct (proxy_curtain t)).
  assert (Vs : view_surface (nd m) = (if proxy_curtain t then delete (view t) (<[v := s]> (view_surface (nd n))) else <[v := s]> (view_surface (nd n))))
    by (unfold m, show_pixels; by destruct (proxy_curtain t)).
  assert (Vt : view t < v) by (pose proof (co_views _ C _ _ F) as X; by apply Forall_cons in X as [X _]).
  refine (contained_update n m h t t' p p' C F P Fp _ P eq_refl _ _ _ _ _ _ _ _ _ _ _).
  - assert (R : replaced h t' (tls n) (map (fun x => if handle x =? h then x <| proxy_pixel_surface := Some s |> else x)
      (map (fun x => if handle x =? h then x <| proxy_curtain := false |> <| view := v |> else x) (tls n)))).
    { apply (replaced_then h (fun x => x <| proxy_pixel_surface := Some s |>) (t <| proxy_curtain := false |> <| view := v |>)); [|done].
      apply (replaced_then h (fun x => x <| proxy_curtain := false |> <| view := v |>) t); [by apply replaced_refl|done]. }
    unfold m, show_pixels. by destruct (proxy_curtain t).
  - unfold m, show_pixels. cbn. destruct (proxy_curtain t); cbn; unfold upd_np;
      change (alter (fun p => p <| np_listening := true |>) h (alter (fun p => p <| np_pixel_view := Some v |>) h (nproxies n)) = <[h := p']> (nproxies n));
      apply map_eq; intros h1; (destruct (decide (h1 = h)) as [->|N]; [by rewrite !lookup_alter_eq, Fp, lookup_insert_eq|by rewrite !lookup_alter_ne, lookup_insert_ne]).
  - intros s1 w Hw. destruct (proxy_curtain t) eqn:K; [destruct (decide (s1 = proxy_surface t)) as [->|Ns]; [by left|]|]; right;
      rewrite Ws; (destruct (decide (s1 = s)) as [->|Ns2]; [rewrite lookup_alter_eq|rewrite lookup_alter_ne by done]);
      rewrite ?lookup_delete_ne by done; rewrite Hw; eexists; (split; [reflexivity|done]).
  - intros v1 N1 N2. rewrite Vs. destruct (proxy_curtain t); rewrite ?lookup_delete_ne by done; rewrite lookup_insert_ne; unfold v in *; (done || lia).
  - rewrite Vs. assert (Nz : v <> NULL_VIEW) by (unfold v, NULL_VIEW; lia). destruct (proxy_curtain t) eqn:K.
    + destruct (b3 eq_refl) as (Nv & _). by rewrite lookup_delete_ne, lookup_insert_ne.
    + by rewrite lookup_insert_ne.
  - unfold m, show_pixels. destruct (proxy_curtain t); cbn; lia.
  - right. right. unfold m, show_pixels, t'. destruct (proxy_curtain t); cbn; fold v; lia.
  - done.
  - unfold m, show_pixels. by destruct (proxy_curtain t).
  - unfold m, show_pixels. by destruct (proxy_curtain t).
  - unfold t'. cbn. by rewrite Q.
  - split.
    + unfold t'. cbn. by rewrite Q.
    + intros v1 [= <-]. done.
    + done.
    + done.
Qed.

Lemma create_view_none s d d' : create_view s d = (None, d') -> d' = d.
Proof. unfold create_view, weston_view_create. destruct (oom (base d)); [|done]. intros [= <-]. by destruct d. Qed.
Lemma curtain_none x y w h b d d' : weston_shell_utils_curtain_create x y w h b d = (None, d') -> d' = d.
Proof.
  unfold weston_shell_utils_curtain_create, weston_view_create. destruct (oom (base d)); [|done]. intros [= <-]. by destruct d.
Qed.
Lemma set_nd_id (n : nested) : n <| nd := nd n |> = n.
Proof. by destruct n. Qed.

(** What approval leaves unchanged of the window [h]: it stays a proxy, and is
    no longer pending once it is not. *)
Definition approved (h : Z) (n : nested) : Prop :=
  forall t, find_tl h (tls n) = Some t -> is_nested_proxy t = true /\ proxy_pending t = false.

Lemma approved_map h f n n' : tls n' = map (fun x => if handle x =? h then f x else x) (tls n) ->
  (forall x, handle (f x) = handle x) -> (forall x, is_nested_proxy (f x) = is_nested_proxy x) ->
  (forall x, proxy_pending (f x) = proxy_pending x) -> approved h n -> approved h n'.
Proof.
  intros E F1 F2 F3 A t Ft. rewrite E in Ft. apply find_map_upd in Ft as (t0 & F & ->); [|done].
  rewrite Z.eqb_refl, F2, F3. by apply A.
Qed.
Lemma approved_same h n n' : tls n' = tls n -> approved h n -> approved h n'.
Proof. intros E A t F. rewrite E in F. by apply A. Qed.

Lemma tls_capture h b n : tls (qdwin_nested_proxy_curtain_set_capture h b n) = tls n.
Proof. unfold qdwin_nested_proxy_curtain_set_capture. destruct (proxy_of h n) as [t|]; [|done]. by destruct (negb (proxy_curtain t)). Qed.

Lemma approved_show_pixels h v s pos t n : approved h n -> approved h (show_pixels h v s pos t n).
Proof.
  intros A. apply (approved_map h (fun x => x <| proxy_curtain := false |> <| view := v |> <| proxy_pixel_surface := Some s |>) n); try done.
  assert (E : forall l, map (fun x => if handle x =? h then x <| proxy_pixel_surface := Some s |> else x)
      (map (fun x => if handle x =? h then x <| proxy_curtain := false |> <| view := v |> else x) l)
    = map (fun x => if handle x =? h then x <| proxy_curtain := false |> <| view := v |> <| proxy_pixel_surface := Some s |> else x) l).
  { intros l. rewrite map_map. apply map_ext. intros x. destruct (handle x =? h) eqn:E; cbn; by rewrite E. }
  rewrite <- E. unfold show_pixels. by destruct (proxy_curtain t).
Qed.

Lemma contained_activate h n b n' :
  contained n -> approved h n -> qdwin_nested_proxy_activate_pixel_surface h n = (b, n') -> contained n' /\ approved h n'.
Proof.
  intros C A. unfold qdwin_nested_proxy_activate_pixel_surface. rewrite proxy_of_find.
  destruct (find_tl h (tls n)) as [t|] eqn:F; [|by intros [= <- <-]]. destruct (A t F) as [P Q].
  destruct (nproxies n !! h) as [p|] eqn:Fp; [|by intros [= <- <-]].
  destruct (proxy_pixel_surface t) as [s|]; [|by intros [= <- <-]]. destruct (np_pixel_view p) eqn:Pv; [by intros [= <- <-]|].
  destruct (create_view s (nd n)) as [[v|] d] eqn:V; intros [= <- <-].
  - split; [by eapply contained_show_pixels|]. apply approved_show_pixels.
    apply (approved_same h n); [|done]. unfold create_view, weston_view_create in V. destruct (oom (base (nd n))); [done|]. by simplify_eq.
  - apply create_view_none in V as ->. rewrite set_nd_id.
    assert (A' : approved h (set_pixels h None false n)).
    { by apply (approved_map h (fun x => x <| proxy_pixel_surface := None |>) n). }
    split; [apply contained_capture; [by apply contained_pixels|exact A']|].
    apply (approved_same h (set_pixels h None false n)); [apply tls_capture|exact A'].
Qed.

Lemma contained_allow h n : contained n -> contained (qdwin_nested_proxy_apply_allow h n).
Proof.
  intros C. unfold qdwin_nested_proxy_apply_allow. rewrite proxy_of_find. destruct (find_tl h (tls n)) as [t|] eqn:F; [|done].
  destruct (is_nested_proxy t) eqn:P; [|done]. destruct (proxy_pending t) eqn:Q; [|done]. cbn [negb orb].
  set (n1 := on_qdwin _ n).
  assert (C1 : contained n1) by benign.
  assert (A1 : approved h n1).
  { intros t1 F1. apply find_map_upd in F1 as (t0 & F0 & ->); [|done]. rewrite Z.eqb_refl. rewrite F in F0. by simplify_eq. }
  clearbody n1. destruct (qdwin_nested_proxy_activate_pixel_surface h n1) as [b n2] eqn:E.
  destruct (contained_activate h n1 b n2 C1 A1 E) as [C2 A2]. destruct b.
  - apply contained_release; [done|]. intros t2 F2. by apply A2.
  - apply contained_release; [by apply contained_capture|]. intros t2 F2. rewrite tls_capture in F2. by apply A2.
Qed.

(** ** The pixel feed *)

(** The view of the feed is destroyed. *)
Lemma contained_unview h v n t p :
  contained n -> find_tl h (tls n) = Some t -> is_nested_proxy t = true -> nproxies n !! h = Some p -> np_pixel_view p = Some v ->
  contained (n ~> on_qdwin (upd_tl h (fun t => if view t =? v then t <| view := NULL_VIEW |> else t))
               ~> on_desk (destroy_view v)
               ~> upd_np h (fun p => p <| np_pixel_view := None |>)).
Proof.
  intros C F P Fp Pv. destruct (co_box _ C _ _ F P) as (p0 & Fp0 & [b1 b2 b3 b4]). assert (p0 = p) as -> by congruence.
  destruct (b2 v Pv) as [Ev K]. pose proof (co_null _ C) as [Vn Pos].
  assert (Q : proxy_pending t = false) by (destruct (proxy_pending t); [|done]; destruct (b1 eq_refl); congruence).
  set (g := fun t : toplevel => if view t =? v then t <| view := NULL_VIEW |> else t).
  assert (Hg : forall x, handle (g x) = handle x) by (intros x; unfold g; by destruct (view x =? v)).
  assert (Eg : g t = t <| view := NULL_VIEW |>) by (unfold g; rewrite Ev, Z.eqb_refl; done).
  set (m := upd_np _ _ _).
  assert (Vs : forall w, view_surface (nd m) !! w = if decide (w = v) then None else view_surface (nd n) !! w)
    by (intros w; exact (lookup_destroyed v w (nd (on_qdwin (upd_tl h g) n)))).
  refine (contained_update n m h t (g t) p (p <| np_pixel_view := None |>) C F P Fp _ _ _ _ _ _ _ _ _ _ _ _ _ _).
  - by apply (replaced_map h g).
  - by rewrite Eg.
  - by rewrite Eg.
  - change (alter (fun p => p <| np_pixel_view := None |>) h (nproxies n) = <[h := p <| np_pixel_view := None |>]> (nproxies n)).
    apply map_eq. intros h1. destruct (decide (h1 = h)) as [->|N]; [by rewrite lookup_alter_eq, Fp, lookup_insert_eq|by rewrite lookup_alter_ne, lookup_insert_ne].
  - intros s w Hw. right. by exists w.
  - intros v1 N1 N2. rewrite Vs. rewrite decide_False by congruence. done.
  - rewrite Vs. by case_decide.
  - done.
  - right. left. by rewrite Eg.
  - rewrite Eg. cbn. by rewrite K.
  - done.
  - done.
  - by rewrite Eg.
  - rewrite Eg. split; cbn; [by rewrite Q|done|by rewrite K|done].
Qed.

(** Dropping the feed leaves a proxy without one. *)
Definition unfed (t t' : toplevel) : Prop :=
  is_nested_proxy t' = true /\ proxy_pending t' = proxy_pending t /\ proxy_curtain t' = proxy_curtain t
  /\ proxy_surface t' = proxy_surface t /\ proxy_origin_uid t' = proxy_origin_uid t /\ proxy_pixel_surface t' = None
  /\ proxy_remote t' = proxy_remote t /\ decorated t' = decorated t.

Lemma drop_feed_spec h n t p :
  contained n -> find_tl h (tls n) = Some t -> is_nested_proxy t = true -> nproxies n !! h = Some p ->
  contained (drop_feed h n)
  /\ (exists t', replaced h t' (tls n) (tls (drop_feed h n)) /\ unfed t t')
  /\ exists p', nproxies (drop_feed h n) !! h = Some p' /\ np_pixel_view p' = None /\ np_owner p' = np_owner p.
Proof.
  intros C F P Fp. unfold drop_feed. rewrite proxy_of_find, F, Fp.
  destruct (bool_decide (proxy_pixel_surface t = None) && bool_decide (np_pixel_view p = None)) eqn:B.
  { apply andb_prop in B as [B1 B2]. apply bool_decide_eq_true in B1, B2. split_and!; [done| |by exists p].
    exists t. split; [by apply replaced_refl|by split_and!]. }
  clear B. set (g2 := fun x : toplevel => x <| proxy_pixel_surface := None |>). destruct (np_pixel_view p) as [v|] eqn:Pv.
  - pose proof (contained_unview h v n t p C F P Fp Pv) as C1. split_and!; [by apply contained_pixels| |].
    + set (g1 := fun t : toplevel => if view t =? v then t <| view := NULL_VIEW |> else t).
      assert (H1 : forall x, handle (g1 x) = handle x) by (intros x; unfold g1; by destruct (view x =? v)).
      exists (g2 (g1 t)). split.
      * apply (replaced_then h g2 (g1 t)); [|done]. by apply (replaced_map h g1).
      * unfold unfed, g2, g1. by destruct (view t =? v); split_and!.
    + exists (p <| np_pixel_view := None |> <| np_listening := false |>). split; [|done].
      change (alter (fun p => p <| np_listening := false |>) h (alter (fun p => p <| np_pixel_view := None |>) h (nproxies n)) !! h
        = Some (p <| np_pixel_view := None |> <| np_listening := false |>)). by rewrite !lookup_alter_eq, Fp.
  - split_and!; [by apply contained_pixels| |].
    + exists (g2 t). split; [by apply (replaced_map h g2)|by split_and!].
    + exists (p <| np_listening := false |>). split; [|done].
      change (alter (fun p => p <| np_listening := false |>) h (nproxies n) !! h = Some (p <| np_listening := false |>)).
      by rewrite lookup_alter_eq, Fp.
Qed.

Lemma contained_bind res uid h s n : contained n -> contained (qdwin_handle_bind_proxy_pixels res uid h s n).
Proof.
  intros C. unfold qdwin_handle_bind_proxy_pixels. rewrite proxy_of_find.
  destruct (find_tl h (tls n)) as [t|] eqn:F; [|by apply contained_nemit].
  destruct (is_nested_proxy t) eqn:P; cbn [negb]; [|by apply contained_nemit].
  destruct (uid =? proxy_origin_uid t); cbn [negb]; [|by apply contained_nemit].
  destruct s as [s|]; [|by apply contained_nemit]. cbv zeta.
  destruct (co_box _ C _ _ F P) as (p & Fp & _).
  destruct (drop_feed_spec h n t p C F P Fp) as (C1 & (t' & R & U) & (p' & Fp' & Pv' & _)).
  set (n1 := drop_feed h n) in *. clearbody n1. destruct U as (U1 & U2 & _). destruct R as (_ & F' & _).
  destruct (proxy_pending t) eqn:Q; [by apply contained_pixels|].
  rewrite proxy_of_find, F'. destruct (create_view s (nd n1)) as [[v|] d] eqn:V.
  - by eapply contained_show_pixels.
  - apply create_view_none in V as ->. by rewrite set_nd_id.
Qed.

(** ** A new curtain for a proxy *)

Lemma fresh_surface_new d : wsurfaces d !! fresh_surface d = None.
Proof.
  destruct (wsurfaces d !! fresh_surface d) as [w|] eqn:E; [|done]. exfalso.
  assert (B : forall l x, x ∈ l -> x <= foldr Z.max 0 l).
  { intros l x. induction l as [|y l IH]; [by intros ?%elem_of_nil|]. cbn. intros [->|I]%elem_of_cons; [lia|]. specialize (IH I). lia. }
  apply elem_of_map_to_list in E. specialize (B (map fst (map_to_list (wsurfaces d))) (fresh_surface d)).
  unfold fresh_surface in B at 2. lapply B; [lia|]. apply list_elem_of_In, in_map_iff. exists (fresh_surface d, w).
  split; [done|by apply list_elem_of_In].
Qed.

Lemma curtain_some x y w h b d v s d' : weston_shell_utils_curtain_create x y w h b d = (Some (v, s), d') ->
  v = next_view (base d) /\ wsurfaces d !! s = None
  /\ wsurfaces d' = <[s := mk_wsurface w h true None None s (curtain_input b w h)]> (wsurfaces d)
  /\ view_surface d' = <[v := s]> (view_surface d)
  /\ toplevels (base d') = toplevels (base d) /\ next_view (base d') = Z.succ v /\ next_handle (base d') = next_handle (base d)
  /\ lsurfs d' = lsurfs d /\ active_input_proxy d' = active_input_proxy d /\ input_sinks d' = input_sinks d
  /\ shell_version (base d') = shell_version (base d).
Proof.
  pose proof (fresh_surface_new d) as N. unfold weston_shell_utils_curtain_create, weston_view_create.
  destruct (oom (base d)); [done|]. revert N. generalize (fresh_surface d). intros s0 N [= <- <- <-]. by split_and!.
Qed.

(** A proxy that shows nothing gets a curtain. *)
Lemma contained_recurtain h x y w ht n v s d t p f :
  contained n -> find_tl h (tls n) = Some t -> is_nested_proxy t = true -> nproxies n !! h = Some p ->
  np_pixel_view p = None -> proxy_curtain t = false ->
  weston_shell_utils_curtain_create x y w ht (negb (proxy_pending t)) (nd n) = (Some (v, s), d) ->
  (forall x, handle (f x) = handle x) ->
  is_nested_proxy (f t) = true -> view (f t) = v -> proxy_curtain (f t) = true -> proxy_surface (f t) = s ->
  proxy_pending (f t) = proxy_pending t -> decorated (f t) = decorated t -> tl_chrome (f t) = tl_chrome t ->
  contained (on_qdwin (upd_tl h f) (n <| nd := d |>)).
Proof.
  intros C F P Fp Pv K E Hf f1 f2 f3 f4 f5 f6 f7. unfold weston_shell_utils_curtain_create, weston_view_create in E.
  destruct (oom (base (nd n))); [done|]. injection E as <- <- <-.
  destruct (co_box _ C _ _ F P) as (p0 & Fp0 & [b1 b2 b3 b4]). assert (p0 = p) as -> by congruence.
  pose proof (co_null _ C) as [Vn Pos]. pose proof (b4 K Pv) as Vz. pose proof (fresh_surface_new (nd n)) as Sn.
  set (v := next_view (base (nd n))) in *. set (s := fresh_surface (nd n)) in *.
  assert (Nz : v <> NULL_VIEW) by (unfold NULL_VIEW; lia).
  set (m := on_qdwin _ _).
  assert (Ws : wsurfaces (nd m) = <[s := mk_wsurface w ht true None None s (curtain_input (negb (proxy_pending t)) w ht)]> (wsurfaces (nd n))) by done.
  assert (Vs : view_surface (nd m) = <[v := s]> (view_surface (nd n))) by done.
  refine (contained_update n m h t (f t) p p C F P Fp _ f1 _ _ _ _ _ _ _ _ _ _ _ _).
  - by apply (replaced_map h f).
  - unfold chrome_views. by rewrite f7.
  - cbn. by rewrite insert_id.
  - intros s1 w1 Hw. right. exists w1. rewrite Ws. rewrite lookup_insert_ne by congruence. done.
  - intros v1 N1 N2. rewrite Vs. by rewrite lookup_insert_ne by lia.
  - rewrite Vs. by rewrite lookup_insert_ne.
  - cbn. lia.
  - right. right. rewrite f2. cbn. fold v. lia.
  - intros _. right. by rewrite f4.
  - done.
  - done.
  - by rewrite f5.
  - split.
    + rewrite f5, f6. intros Q. split; [by apply b1|done].
    + rewrite Pv. done.
    + intros _. rewrite f2, f4. split; [done|]. rewrite Vs, lookup_insert_eq. split; [done|]. rewrite Ws, lookup_insert_eq. eexists.
      split_and!; [done|done|]. rewrite f5. intros Q x1 y1. cbn. rewrite Q. done.
    + by rewrite f3.
Qed.

Lemma contained_pixel_destroyed h n : contained n ->
  (forall t, find_tl h (tls n) = Some t -> is_nested_proxy t = true) -> contained (qdwin_proxy_pixel_surface_destroyed h n).
Proof.
  intros C Hp. unfold qdwin_proxy_pixel_surface_destroyed. rewrite proxy_of_find.
  destruct (find_tl h (tls n)) as [t|] eqn:F; [|done]. pose proof (Hp t eq_refl) as P.
  destruct (nproxies n !! h) as [p|] eqn:Fp; [|done]. cbv zeta.
  destruct (drop_feed_spec h n t p C F P Fp) as (C1 & (t' & R & U) & (p' & Fp' & Pv' & _)).
  destruct (co_box _ C _ _ F P) as (p0 & Fp0 & B). assert (p0 = p) as -> by congruence.
  set (n1 := drop_feed h n) in *. clearbody n1. destruct U as (U1 & U2 & U3 & _). destruct R as (_ & F' & _).
  destruct (np_pixel_view p) as [v0|] eqn:Pv; [|by rewrite bool_decide_eq_true_2].
  rewrite bool_decide_eq_false_2 by done. destruct (bo_pixels _ _ _ B v0 Pv) as [_ K].
  set (w := if 0 <? last_width t then _ else _). set (ht := if 0 <? last_height t then _ else _). set (pos := view_pos_of t _).
  destruct (weston_shell_utils_curtain_create (fst pos) (snd pos) w ht (negb (proxy_pending t)) (nd n1)) as [[[v s]|] d] eqn:E.
  - apply contained_base; [|done|done]. rewrite <- U2 in E.
    eapply (contained_recurtain h _ _ _ _ n1 v s d t' p'); [exact C1|exact F'|exact U1|exact Fp'|exact Pv'| |exact E|..]; try done. congruence.
  - apply curtain_none in E as ->. by rewrite set_nd_id.
Qed.

(** The curtain is taken away. *)
Lemma contained_uncurtain h n t p :
  contained n -> find_tl h (tls n) = Some t -> is_nested_proxy t = true -> nproxies n !! h = Some p -> proxy_curtain t = true ->
  contained (on_qdwin (upd_tl h (fun t => t <| proxy_curtain := false |> <| view := NULL_VIEW |>))
    (on_desk (weston_shell_utils_curtain_destroy (view t) (proxy_surface t)) n)).
Proof.
  intros C F P Fp K. destruct (co_box _ C _ _ F P) as (p0 & Fp0 & [b1 b2 b3 b4]). assert (p0 = p) as -> by congruence.
  pose proof (co_null _ C) as [Vn Pos].
  assert (Pv : np_pixel_view p = None) by (destruct (np_pixel_view p) as [v|]; [|done]; destruct (b2 v eq_refl); congruence).
  set (f := fun t : toplevel => t <| proxy_curtain := false |> <| view := NULL_VIEW |>). set (m := on_qdwin _ _).
  assert (Ws : wsurfaces (nd m) = delete (proxy_surface t) (wsurfaces (nd n))) by done.
  assert (Vs : forall w, view_surface (nd m) !! w = if decide (w = view t) then None else view_surface (nd n) !! w)
    by (intros w; exact (lookup_destroyed (view t) w (nd n))).
  refine (contained_update n m h t (f t) p p C F P Fp _ P eq_refl _ _ _ _ _ _ _ _ _ _ _).
  - by apply (replaced_map h f).
  - change (nproxies n = <[h := p]> (nproxies n)). by rewrite insert_id.
  - intros s w Hw. destruct (decide (s = proxy_surface t)) as [->|N]; [by left|]. right. exists w. rewrite Ws. by rewrite lookup_delete_ne.
  - intros v1 N1 N2. rewrite Vs. by rewrite decide_False.
  - rewrite Vs. by case_decide.
  - done.
  - right. by left.
  - done.
  - done.
  - done.
  - done.
  - split; [|by rewrite Pv|done|done]. intros Q. split; [by apply b1|done].
Qed.

Lemma contained_resize h w ht n : contained n -> contained (nested_proxy_set_geometry h w ht n).
Proof.
  intros C. unfold nested_proxy_set_geometry. rewrite proxy_of_find. destruct (find_tl h (tls n)) as [t|] eqn:F; [|done].
  destruct (is_nested_proxy t) eqn:P; [|done]. destruct (proxy_curtain t) eqn:K; [|done]. cbn [negb orb]. cbv zeta.
  set (w' := if w <=? 0 then 800 else w). set (ht' := if ht <=? 0 then 600 else ht). destruct (_ && _); [done|].
  destruct (co_box _ C _ _ F P) as (p & Fp & [b1 b2 b3 b4]).
  pose proof (contained_uncurtain h n t p C F P Fp K) as Cu. set (n1 := on_desk _ n) in *.
  set (x := view_x _ _). set (y := view_y _ _).
  destruct (weston_shell_utils_curtain_create x y w' ht' (negb (proxy_pending t)) (nd n1)) as [[[v s]|] d] eqn:E.
  - apply contained_core; [|apply core_send]. apply contained_base; [|done|done].
    pose proof (co_null _ C) as [Vn Pos]. destruct (b3 K) as (Nv & Sv & w0 & Sw & _).
    assert (Pv : np_pixel_view p = None) by (destruct (np_pixel_view p) as [v0|]; [|done]; destruct (b2 v0 eq_refl); congruence).
    destruct (curtain_some _ _ _ _ _ _ _ _ _ E) as (Ev & Sn & Ws & Vs & Tl & Nw & _ & Ls & Ac & _). clear E.
    change (next_view (base (nd n1))) with (next_view (base (nd n))) in Ev. change (tls n1) with (tls n) in Tl.
    change (lsurfs (nd n1)) with (lsurfs (nd n)) in Ls. change (active_input_proxy (nd n1)) with (active_input_proxy (nd n)) in Ac.
    change (wsurfaces (nd n1)) with (delete (proxy_surface t) (wsurfaces (nd n))) in Sn, Ws.
    change (view_surface (nd n1)) with (delete (view t) (view_surface (nd n))) in Vs.
    assert (Nz : v <> NULL_VIEW) by (unfold NULL_VIEW; lia).
    set (f := fun t : toplevel => _).
    refine (contained_update n _ h t (f t) p p C F P Fp _ P eq_refl _ _ _ _ _ _ _ _ _ _ _); cbn [nd on_qdwin on_desk].
    + change (replaced h (f t) (tls n) (map (fun x => if handle x =? h then f x else x) (toplevels (base d)))). rewrite Tl.
      by apply (replaced_map h f).
    + change (nproxies n = <[h := p]> (nproxies n)). by rewrite insert_id.
    + intros s1 w1 Hw. destruct (decide (s1 = proxy_surface t)) as [->|N]; [by left|]. right. exists w1. split; [|done].
      change (wsurfaces d !! s1 = Some w1). rewrite Ws, lookup_insert_ne, lookup_delete_ne; [done|done|]. intros <-.
      rewrite lookup_delete_ne in Sn by done. congruence.
    + intros v1 N1 N2. change (view_surface d !! v1 = view_surface (nd n) !! v1). rewrite Vs, lookup_insert_ne by lia. by rewrite lookup_delete_ne.
    + change (view_surface d !! NULL_VIEW = None). rewrite Vs, lookup_insert_ne by done. by rewrite lookup_delete_ne.
    + change (next_view (base (nd n)) <= next_view (base d)). lia.
    + right. right. change (next_view (base (nd n)) <= v < next_view (base d)). lia.
    + intros _. change ((proxy_curtain t = true /\ s = proxy_surface t) \/ wsurfaces (nd n) !! s = None).
      destruct (decide (s = proxy_surface t)) as [->|N]; [by left|right]. by rewrite lookup_delete_ne in Sn.
    + exact Ls.
    + exact Ac.
    + done.
    + split; [by intros Q; split; [apply b1|]|by rewrite Pv| |by change (proxy_curtain t = false -> np_pixel_view p = None -> v = NULL_VIEW); rewrite K].
      intros _. change (v <> NULL_VIEW /\ view_surface d !! v = Some s
        /\ exists w, wsurfaces d !! s = Some w /\ ws_client w = None /\ (proxy_pending t = true -> forall x y, ws_input w x y = false)).
      rewrite Vs, Ws, !lookup_insert_eq. split_and!; [done|done|]. eexists. split_and!; [done|done|]. intros Q x1 y1. cbn. by rewrite Q.
  - apply curtain_none in E as ->. rewrite set_nd_id. exact Cu.
Qed.

(** ** Requests of the nested compositor *)

Lemma contained_nt r f n : contained n -> contained (upd_nt r f n).
Proof. intros C. by apply (contained_nts n (map (fun t => if nt_res t =? r then f t else t) (nested_toplevels n))). Qed.

Lemma contained_title h s n : contained n -> contained (nested_proxy_set_title h s n).
Proof. intros C. unfold nested_proxy_set_title. apply (contained_core (shell_send 0 (toplevel_title h s)) (on_qdwin (upd_tl h _) n)); [benign|apply core_send]. Qed.
Lemma contained_app_id h s n : contained n -> contained (nested_proxy_set_app_id h s n).
Proof. intros C. unfold nested_proxy_set_app_id. apply (contained_core (shell_send 31 (toplevel_app_id h s)) (on_qdwin (upd_tl h _) n)); [benign|apply core_send]. Qed.

Lemma core_remote_identity t q : qdwin_emit_nested_proxy_remote_identity t q ≃ q.
Proof. unfold qdwin_emit_nested_proxy_remote_identity. repeat case_match; first [apply core_send|done]. Qed.

Lemma contained_remote exe alloc r m dm st hi lo n :
  contained n -> contained (qdwin_nested_toplevel_set_remote_identity exe alloc r m dm st hi lo n).
Proof.
  intros C. unfold qdwin_nested_toplevel_set_remote_identity, with_nt, with_proxy. destruct (nt_of r n) as [t|]; [|done].
  destruct (nt_proxy t) as [h|]; [|done]. destruct (proxy_of h n) as [tl|]; [|done]. cbv zeta.
  destruct (negb _); [by apply contained_nemit|]. destruct (_ || _); [by apply contained_nemit|].
  destruct (proxy_remote tl); [case_bool_decide; [done|by apply contained_nemit]|].
  destruct (negb alloc); [by apply contained_nemit|].
  apply contained_core; [benign|]. apply core_remote_identity.
Qed.

(** ** Advertising *)

Lemma windows_added h q :
  let q' := qdwin_send_toplevel_added h q in
  next_view q' = next_view q
  /\ (toplevels q' = toplevels q
      \/ exists a b, toplevels q' = toplevels (upd_tl h (fun t => t <| cached_title := a |> <| cached_app_id := b |>) q)).
Proof.
  unfold qdwin_send_toplevel_added, with_tl. destruct (qdwin_toplevel_from_handle h q) as [t|]; [|by split; [|left]].
  destruct (toplevel_identity t) as [[a b] u]. set (q1 := upd_tl h _ q). cbv zeta.
  set (q2 := qdwin_emit_toplevel_workspace h _).
  assert (Co : q2 ≃ q1).
  { unfold q2, qdwin_emit_toplevel_workspace, with_tl.
    assert (E : qdwin_emit_nested_proxy_remote_identity t (qdwin_send_toplevel_security_context t
      (shell_send 0 (toplevel_added h (u32 u) a b (qdwin_toplevel_is_xwayland t)) q1)) ≃ q1).
    { etransitivity; [apply core_remote_identity|]. etransitivity; [|apply core_send].
      unfold qdwin_send_toplevel_security_context.
      repeat case_match; try done; try apply core_send. etransitivity; apply core_send. }
    revert E. generalize (qdwin_emit_nested_proxy_remote_identity t (qdwin_send_toplevel_security_context t
      (shell_send 0 (toplevel_added h (u32 u) a b (qdwin_toplevel_is_xwayland t)) q1))). intros q3 E.
    repeat case_match; first [done|etransitivity; [apply core_send|done]]. }
  split; [exact (core_field next_view _ _ (fun _ => eq_refl) Co)|]. right. exists b, a. exact (core_field toplevels _ _ (fun _ => eq_refl) Co).
Qed.

Lemma map_other h f l : find_tl h l = None -> map (fun x : toplevel => if handle x =? h then f x else x) l = l.
Proof.
  induction l as [|x l IH]; [done|]. unfold find_tl in *. cbn. destruct (handle x =? h); [done|]. intros E. by rewrite IH.
Qed.

(** What creating a proxy gives. *)
Lemma create_spec env alloc tag o w ht n res n' :
  contained n -> find_tl (u32_succ (next_handle (base (nd n)))) (tls n) = None ->
  qdwin_nested_proxy_create env alloc tag o w ht n = (res, n') ->
  contained n' /\ nested_toplevels n' = nested_toplevels n /\ sink_peers n' = sink_peers n
  /\ input_sinks (nd n') = input_sinks (nd n)
  /\ (forall s w, wsurfaces (nd n) !! s = Some w -> wsurfaces (nd n') !! s = Some w)
  /\ match res with
     | None => tls n' = tls n /\ nproxies n' = nproxies n
     | Some h => h = u32_succ (next_handle (base (nd n)))
         /\ nproxies n' = <[h := mk_nproxy (Some (nt_res o)) None false]> (nproxies n)
         /\ exists t, tls n' = t :: tls n /\ handle t = h /\ is_nested_proxy t = true /\ proxy_origin_uid t = nt_origin_uid o
              /\ proxy_pixel_surface t = None /\ proxy_remote t = None
              /\ proxy_pending t = shell_can_gate (base (nd n)) || gate_required env
     end.
Proof.
  intros C Fn. unfold qdwin_nested_proxy_create. set (w' := if w <=? 0 then 800 else w). set (ht' := if ht <=? 0 then 600 else ht).
  destruct alloc; cbn [negb]; [|by intros [= <- <-]]. set (h := u32_succ _) in *. set (pe := shell_can_gate _ || _).
  destruct (proxy_pos w' ht' (base (nd n))) as [cx cy]. set (n0 := on_qdwin (fun q => q <| next_handle := h |>) n).
  assert (C0 : contained n0) by (by apply contained_base).
  destruct (weston_shell_utils_curtain_create cx cy w' ht' (negb pe) (nd n0)) as [[[v s]|] d] eqn:E.
  2: { apply curtain_none in E as ->. rewrite set_nd_id. intros [= <- <-]. by split_and!. }
  pose proof (co_null _ C) as [Vn Pos].
  destruct (curtain_some _ _ _ _ _ _ _ _ _ E) as (Ev & Sn & Ws0 & Vs0 & Tl0 & Nw0 & _ & Ls0 & Ac0 & Is0 & _). clear E.
  change (next_view (base (nd n0))) with (next_view (base (nd n))) in Ev. change (tls n0) with (tls n) in Tl0.
  change (lsurfs (nd n0)) with (lsurfs (nd n)) in Ls0. change (active_input_proxy (nd n0)) with (active_input_proxy (nd n)) in Ac0.
  change (wsurfaces (nd n0)) with (wsurfaces (nd n)) in Sn, Ws0. change (view_surface (nd n0)) with (view_surface (nd n)) in Vs0.
  change (input_sinks (nd n0)) with (input_sinks (nd n)) in Is0.
  set (t := new_proxy _ _ _ _ _ _ _ _ _ _).
  match goal with |- context [on_qdwin (qdwin_send_toplevel_added h) ?m] => set (n1 := m) end.
  assert (T1 : tls n1 = t :: tls n) by (rewrite <- Tl0; done).
  assert (V1 : next_view (base (nd n1)) = Z.succ v) by (rewrite <- Nw0; done). destruct (windows_added h (base (nd n1))) as [V2 T2].
  set (n2 := on_qdwin (qdwin_send_toplevel_added h) n1).
  assert (T2' : exists t', tls n2 = t' :: tls n /\ handle t' = h /\ is_nested_proxy t' = true /\ tl_views t' = tl_views t
    /\ proxy_curtain t' = true /\ proxy_surface t' = s /\ proxy_origin_uid t' = nt_origin_uid o
    /\ proxy_pixel_surface t' = None /\ proxy_remote t' = None /\ proxy_pending t' = pe /\ decorated t' = negb pe).
  { destruct T2 as [T2|(a & b & T2)].
    - exists t. split; [|done]. change (tls n2) with (toplevels (qdwin_send_toplevel_added h (base (nd n1)))). by rewrite T2.
    - exists (t <| cached_title := a |> <| cached_app_id := b |>). split; [|done].
      change (tls n2) with (toplevels (qdwin_send_toplevel_added h (base (nd n1)))). rewrite T2.
      change (map (fun x => if handle x =? h then x <| cached_title := a |> <| cached_app_id := b |> else x) (tls n1)
        = t <| cached_title := a |> <| cached_app_id := b |> :: tls n).
      rewrite T1. cbn [map]. change (handle t =? h) with (h =? h). rewrite Z.eqb_refl. f_equal. by apply map_other. }
  destruct T2' as (t' & Tl & H1 & H2 & H3 & H4 & H5 & H6 & H7 & H8 & H9 & H10).
  assert (Ws : wsurfaces (nd n2) = <[s := mk_wsurface w' ht' true None None s (curtain_input (negb pe) w' ht')]> (wsurfaces (nd n))) by (rewrite <- Ws0; done).
  assert (Vs : view_surface (nd n2) = <[v := s]> (view_surface (nd n))) by (rewrite <- Vs0; done).
  assert (C2 : contained n2).
  { refine (contained_add n n2 t (mk_nproxy (Some (nt_res o)) None false) C Fn eq_refl _ eq_refl Ev _ eq_refl Sn _ _ Ls0 Ac0).
    - exists t'. do 6 (split; [done|]). assert (Vt : view t' = v) by (unfold tl_views in H3; by injection H3).
      split; [|done| |by rewrite H4].
      + rewrite H9, H10. intros ->. done.
      + intros _. rewrite Vt, H5, Vs, Ws, !lookup_insert_eq. split_and!; [unfold NULL_VIEW; lia|done|].
        eexists. split_and!; [done|done|]. rewrite H9. intros -> x y. done.
    - change (next_view (qdwin_send_toplevel_added h (base (nd n1))) = Z.succ (next_view (base (nd n)))). by rewrite V2, V1, Ev.
    - intros s1 w1 Hw. rewrite Ws. by rewrite lookup_insert_ne by congruence.
    - intros v1 Hv. rewrite Vs. by rewrite lookup_insert_ne by lia. }
  set (n3 := on_qdwin (shell_send 0 (toplevel_geometry h cx cy w' ht')) n2).
  assert (C3 : contained n3) by (apply contained_core; [done|apply core_send]).
  assert (T3 : tls n3 = tls n2) by (exact (core_field toplevels _ _ (fun _ => eq_refl) (core_send _ _ _))).
  assert (R3 : nested_toplevels n3 = nested_toplevels n /\ sink_peers n3 = sink_peers n /\ input_sinks (nd n3) = input_sinks (nd n)
    /\ wsurfaces (nd n3) = wsurfaces (nd n2) /\ nproxies n3 = <[h := mk_nproxy (Some (nt_res o)) None false]> (nproxies n)) by (rewrite <- Is0; done).
  clearbody n3. destruct R3 as (R1 & R2 & R3 & R4 & R5). intros [= <- <-].
  assert (Fin : forall n4, contained n4 -> nd n4 = nd n3 -> nested_toplevels n4 = nested_toplevels n3 -> sink_peers n4 = sink_peers n3 -> nproxies n4 = nproxies n3 ->
    contained n4 /\ nested_toplevels n4 = nested_toplevels n /\ sink_peers n4 = sink_peers n
    /\ input_sinks (nd n4) = input_sinks (nd n) /\ (forall s w, wsurfaces (nd n) !! s = Some w -> wsurfaces (nd n4) !! s = Some w)
    /\ h = h /\ nproxies n4 = <[h := mk_nproxy (Some (nt_res o)) None false]> (nproxies n)
    /\ exists t, tls n4 = t :: tls n /\ handle t = h /\ is_nested_proxy t = true /\ proxy_origin_uid t = nt_origin_uid o
              /\ proxy_pixel_surface t = None /\ proxy_remote t = None /\ proxy_pending t = pe).
  { intros n4 C4 E1 E2 E3 E4. split_and!; try congruence.
    - intros s1 w1 Hw. rewrite E1, R4, Ws. by rewrite lookup_insert_ne by congruence.
    - exists t'. rewrite E1, T3. by split_and!. }
  destruct (shell_can_gate (base (nd n))); destruct (9 <=? _); apply Fin; try done; repeat apply contained_nemit; exact C3.
Qed.

(** ** The end of a proxy *)

Lemma windows_chrome h q : toplevels (qdwin_toplevel_position_chrome h q) = toplevels q
  /\ next_view (qdwin_toplevel_position_chrome h q) = next_view q.
Proof.
  destruct (qdwin_toplevel_from_handle h q) as [t|] eqn:E.
  - destruct (position_chrome_moved h q t E) as [-> _]. done.
  - unfold qdwin_toplevel_position_chrome, with_tl. by rewrite E.
Qed.

Lemma windows_terminate reason q s : toplevels (qdwin_view_stream_terminate reason q s) = toplevels q
  /\ next_view (qdwin_view_stream_terminate reason q s) = next_view q.
Proof.
  unfold qdwin_view_stream_terminate, qdwin_view_stream_release_server_state. cbv zeta.
  set (q1 := if vs_resource s && _ then _ else q).
  assert (E1 : toplevels q1 = toplevels q /\ next_view q1 = next_view q) by (unfold q1; by destruct (_ && _)).
  clearbody q1. destruct E1 as [<- <-]. destruct (vs_released s); [done|]. unfold qdwin_view_stream_unpin.
  destruct (negb (vs_pinned s)); [done|]. destruct (vs_tl s) as [h|]; [|done].
  set (q2 := upd_stream (vs_id s) _ q1). unfold with_tl. destruct (qdwin_toplevel_from_handle h q2) as [t|]; [|done].
  destruct (view t =? NULL_VIEW); [done|].
  destruct (windows_chrome h (weston_view_set_position (view t) (vs_prev_x s) (vs_prev_y s) q2)) as [A B].
  split; [exact A|exact B].
Qed.

Lemma windows_dependents h q : toplevels (qdwin_toplevel_release_dependents h q) = toplevels q
  /\ next_view (qdwin_toplevel_release_dependents h q) = next_view q.
Proof.
  unfold qdwin_toplevel_release_dependents, terminate_streams. set (q2 := qdwin_move_grab_end_for h _).
  assert (E2 : toplevels q2 = toplevels q /\ next_view q2 = next_view q).
  { unfold q2, qdwin_move_grab_end_for, dismiss_popup, qdwin_popup_teardown. repeat case_match; done. }
  clearbody q2. destruct E2 as [<- <-]. generalize (List.filter (streams_of h) (view_streams q2)). intros l.
  revert q2. induction l as [|s l IH]; intros q2; [done|]. cbn [foldl].
  destruct (IH (qdwin_view_stream_terminate "source toplevel closed" q2 s)) as [-> ->]. apply windows_terminate.
Qed.

(** In the middle of the teardown of the window [h], which was [t]. *)
Record tearing (h : Z) (t : toplevel) (n m : nested) : Prop := {
  te_rest : without h (tls m) = without h (tls n);
  te_tl : exists t1, find_tl h (tls m) = Some t1 /\ chrome_views t1 ⊆ chrome_views t;
  te_view : next_view (base (nd m)) = next_view (base (nd n));
  te_surf : wsurfaces (nd m) = wsurfaces (nd n);
  te_vs : forall v, view_surface (nd m) !! v = view_surface (nd n) !! v
                    \/ (v ∈ chrome_views t /\ view_surface (nd m) !! v = None);
  te_ls : lsurfs (nd m) = lsurfs (nd n);
  te_sinks : input_sinks (nd m) = input_sinks (nd n);
  te_peers : sink_peers m = sink_peers n;
  te_np : nproxies m = nproxies n;
  te_nts : nested_toplevels m = nested_toplevels n;
  te_active : forall h', active_input_proxy (nd m) = Some h' ->
    exists t', t' ∈ tls n /\ handle t' = h' /\ open_proxy t' = true
}.

Lemma chrome_cleared (side : nat) (l : list chrome) : omap ch_view (<[side := no_chrome]> l) ⊆ omap ch_view l.
Proof.
  intros v (c & I & E)%list_elem_of_omap. apply list_elem_of_omap. exists c. split; [|done].
  apply list_elem_of_lookup in I as [i I]. destruct (decide (i = side)) as [->|N].
  - destruct (l !! side) eqn:L.
    + rewrite list_lookup_insert_eq in I by (by eapply lookup_lt_Some). by simplify_eq.
    + rewrite list_insert_ge in I by (by apply lookup_ge_None). congruence.
  - rewrite list_lookup_insert_ne in I by done. by eapply list_elem_of_lookup_2.
Qed.

Lemma without_map h f l : (forall x, handle (f x) = handle x) ->
  without h (map (fun x => if handle x =? h then f x else x) l) = without h l.
Proof.
  intros F. induction l as [|x l IH]; [done|]. unfold without in *. cbn. destruct (handle x =? h) eqn:E; cbn.
  - rewrite F, E. cbn. exact IH.
  - rewrite E. cbn. by rewrite IH.
Qed.

Lemma tearing_detach h t n m side : tearing h t n m -> tearing h t n (proxy_chrome_detach h side m).
Proof.
  intros [a1 (t1 & F1 & S1) a3 a4 a5 a6 a7 a8 a9 a10 a11]. unfold proxy_chrome_detach. rewrite proxy_of_find, F1.
  set (m1 := match ch_surface _ with Some _ => _ | None => m end).
  assert (M : tls m1 = tls m /\ next_view (base (nd m1)) = next_view (base (nd m)) /\ wsurfaces (nd m1) = wsurfaces (nd m)
    /\ lsurfs (nd m1) = lsurfs (nd m) /\ input_sinks (nd m1) = input_sinks (nd m) /\ sink_peers m1 = sink_peers m
    /\ nproxies m1 = nproxies m /\ nested_toplevels m1 = nested_toplevels m
    /\ active_input_proxy (nd m1) = active_input_proxy (nd m)
    /\ forall v, view_surface (nd m1) !! v = view_surface (nd m) !! v \/ (v ∈ chrome_views t /\ view_surface (nd m1) !! v = None)).
  { unfold m1. destruct (ch_surface (chrome_at t1 side)); [|by split_and!; auto].
    destruct (ch_view (chrome_at t1 side)) as [cv|] eqn:Ec; [|by split_and!; auto]. split_and!; try done.
    intros v. change (delete cv (view_surface (nd m)) !! v = view_surface (nd m) !! v \/ (v ∈ chrome_views t /\ delete cv (view_surface (nd m)) !! v = None)).
    destruct (decide (v = cv)) as [->|N]; [right|left; by rewrite lookup_delete_ne]. rewrite lookup_delete_eq. split; [|done].
    apply S1. unfold chrome_views. apply list_elem_of_omap. unfold chrome_at in Ec.
    destruct (tl_chrome t1 !! side) as [c|] eqn:L; [|done]. exists c. split; [by eapply list_elem_of_lookup_2|done]. }
  clearbody m1. destruct M as (M1 & M2 & M3 & M4 & M5 & M6 & M7 & M8 & M9 & M10).
  assert (D : toplevels (qdwin_chrome_detach h side (base (nd m1))) = tls m1
     \/ toplevels (qdwin_chrome_detach h side (base (nd m1))) = map (fun x => if handle x =? h then x <| tl_chrome ::= <[side := no_chrome]> |> else x) (tls m1)).
  { unfold qdwin_chrome_detach, with_tl. destruct (qdwin_toplevel_from_handle h (base (nd m1))) as [t2|]; [|by left].
    destruct (ch_surface (chrome_at t2 side)); [|by left]. right. by destruct (ch_view (chrome_at t2 side)). }
  assert (Dv : next_view (qdwin_chrome_detach h side (base (nd m1))) = next_view (base (nd m1))).
  { unfold qdwin_chrome_detach, with_tl. destruct (qdwin_toplevel_from_handle h (base (nd m1))) as [t2|]; [|done].
    destruct (ch_surface (chrome_at t2 side)); [|done]. by destruct (ch_view (chrome_at t2 side)). }
  set (g := fun x : toplevel => x <| tl_chrome ::= <[side := no_chrome]> |>) in *.
  split; change (tls (on_qdwin (qdwin_chrome_detach h side) m1)) with (toplevels (qdwin_chrome_detach h side (base (nd m1)))).
  - destruct D as [->| ->]; [congruence|]. rewrite (without_map h g) by done. congruence.
  - destruct D as [->| ->].
    + exists t1. rewrite M1. done.
    + exists (g t1). rewrite M1. split; [by apply (replaced_map h g)|]. unfold g, chrome_views. cbn.
      etransitivity; [apply (chrome_cleared side)|exact S1].
  - change (next_view (qdwin_chrome_detach h side (base (nd m1))) = next_view (base (nd n))). congruence.
  - change (wsurfaces (nd m1) = wsurfaces (nd n)). congruence.
  - intros v. change (view_surface (nd m1) !! v = view_surface (nd n) !! v \/ (v ∈ chrome_views t /\ view_surface (nd m1) !! v = None)).
    destruct (M10 v) as [->|?]; [apply a5|by right].
  - change (lsurfs (nd m1) = lsurfs (nd n)). congruence.
  - change (input_sinks (nd m1) = input_sinks (nd n)). congruence.
  - change (sink_peers m1 = sink_peers n). congruence.
  - change (nproxies m1 = nproxies n). congruence.
  - change (nested_toplevels m1 = nested_toplevels n). congruence.
  - intros h'. change (active_input_proxy (nd m1) = Some h' -> exists t', t' ∈ tls n /\ handle t' = h' /\ open_proxy t' = true).
    rewrite M9. apply a11.
Qed.

Lemma tearing_start seats h t n :
  contained n -> find_tl h (tls n) = Some t -> is_nested_proxy t = true ->
  tearing h t n (n ~> on_desk (fun d => d <| proxy_destroying ::= cons h |>) ~> clear_active h
    ~> on_qdwin (shell_send 0 (toplevel_removed h)) ~> on_qdwin (qdwin_toplevel_release_dependents h)
    ~> on_desk (fun d => foldl (fun d i => qdwin_proxy_default_grab_focus i d) d seats)).
Proof.
  intros C F P. set (n1 := clear_active h _).
  assert (A1 : active_input_proxy (nd n1) = Some h -> False).
  { unfold n1, clear_active. cbn. case_bool_decide as E; [done|]. by intros. }
  assert (S1 : tls n1 = tls n /\ next_view (base (nd n1)) = next_view (base (nd n)) /\ wsurfaces (nd n1) = wsurfaces (nd n)
    /\ view_surface (nd n1) = view_surface (nd n) /\ lsurfs (nd n1) = lsurfs (nd n) /\ input_sinks (nd n1) = input_sinks (nd n)
    /\ sink_peers n1 = sink_peers n /\ nproxies n1 = nproxies n /\ nested_toplevels n1 = nested_toplevels n
    /\ (active_input_proxy (nd n1) = active_input_proxy (nd n) \/ active_input_proxy (nd n1) = None)).
  { unfold n1, clear_active. cbn. case_bool_decide; cbn; split_and!; auto. }
  clearbody n1. destruct S1 as (s1 & s2 & s3 & s4 & s5 & s6 & s7 & s8 & s9 & s10).
  assert (C1 : contained n1).
  { apply (contained_ext n); try done. intros h' E. rewrite s1. destruct s10 as [X|X]; rewrite X in E; [by apply (co_active _ C)|done]. }
  set (n2 := on_qdwin (shell_send 0 (toplevel_removed h)) n1).
  assert (E2 : tls n2 = tls n1 /\ next_view (base (nd n2)) = next_view (base (nd n1))).
  { split; [exact (core_field toplevels _ _ (fun _ => eq_refl) (core_send _ _ _))|exact (core_field next_view _ _ (fun _ => eq_refl) (core_send _ _ _))]. }
  set (n3 := on_qdwin (qdwin_toplevel_release_dependents h) n2).
  destruct (windows_dependents h (base (nd n2))) as [E3 E4].
  assert (C3 : contained n3).
  { apply contained_base; [|exact E3|exact E4]. apply contained_base; [done|apply E2|apply E2]. }
  assert (T3 : tls n3 = tls n) by (etransitivity; [exact E3|]; etransitivity; [apply E2|exact s1]).
  assert (V3 : next_view (base (nd n3)) = next_view (base (nd n))) by (etransitivity; [exact E4|]; etransitivity; [apply E2|exact s2]).
  assert (R3 : wsurfaces (nd n3) = wsurfaces (nd n) /\ view_surface (nd n3) = view_surface (nd n) /\ lsurfs (nd n3) = lsurfs (nd n)
    /\ input_sinks (nd n3) = input_sinks (nd n) /\ sink_peers n3 = sink_peers n /\ nproxies n3 = nproxies n
    /\ nested_toplevels n3 = nested_toplevels n) by done.
  clearbody n3. clear E2 E3 E4 n2. destruct R3 as (r1 & r2 & r3 & r4 & r5 & r6 & r7).
  assert (T : tame (nd n3) (foldl (fun d i => qdwin_proxy_default_grab_focus i d) (nd n3) seats)).
  { pose proof (contained_hidden _ C3) as H.
    assert (T0 : tame (nd n3) (nd n3)) by (split_and!; [done|apply (co_active _ C3)|by apply emits_refl]).
    revert T0. generalize (nd n3) at 2 4. induction seats as [|i l IH]; intros d T0; [exact T0|]. cbn [foldl].
    apply IH. by apply tame_default_focus. }
  destruct T as (T1 & T2 & _). apply surfaces_fields in T1 as (u1 & u2 & _ & u4 & u5 & u6 & u7 & _).
  split; cbn; rewrite ?u1, ?u2, ?u4, ?u6, ?u7; try congruence.
  - exists t. rewrite T3. done.
  - intros v. left. congruence.
  - intros h' E. apply T2 in E. rewrite u1, T3 in E. exact E.
Qed.

Lemma destroy_spec seats h n t :
  contained n -> find_tl h (tls n) = Some t -> is_nested_proxy t = true ->
  let n' := qdwin_nested_proxy_destroy seats h n in
  contained n' /\ tls n' = without h (tls n) /\ nested_toplevels n' = nested_toplevels n /\ nproxies n' = delete h (nproxies n)
  /\ input_sinks (nd n') = delete h (input_sinks (nd n))
  /\ sink_peers n' = match input_sinks (nd n) !! h with Some fd => delete fd (sink_peers n) | None => sink_peers n end
  /\ (forall s w, wsurfaces (nd n) !! s = Some w -> ws_client w <> None -> wsurfaces (nd n') !! s = Some w)
  /\ active_input_proxy (nd n') <> Some h.
Proof.
  intros C F P. destruct (co_box _ C _ _ F P) as (p & Fp & [b1 b2 b3 b4]). cbv zeta.
  unfold qdwin_nested_proxy_destroy. rewrite proxy_of_find, F, P. cbn [negb].
  pose proof (tearing_start seats h t n C F P) as T0. revert T0.
  generalize (n ~> on_desk (fun d => d <| proxy_destroying ::= cons h |>) ~> clear_active h
    ~> on_qdwin (shell_send 0 (toplevel_removed h)) ~> on_qdwin (qdwin_toplevel_release_dependents h)
    ~> on_desk (fun d => foldl (fun d i => qdwin_proxy_default_grab_focus i d) d seats)). intros m0 T0.
  assert (T1 : tearing h t n (foldl (fun n s => proxy_chrome_detach h s n) m0 (seq 0 4))) by (cbn; by repeat apply tearing_detach).
  revert T1. generalize (foldl (fun n s => proxy_chrome_detach h s n) m0 (seq 0 4)). clear m0 T0. intros m [a1 a2 a3 a4 a5 a6 a7 a8 a9 a10 a11].
  (* curtain and pixel view *)
  set (m1 := if proxy_curtain t then _ else m).
  assert (M1 : tls m1 = tls m /\ next_view (base (nd m1)) = next_view (base (nd m)) /\ lsurfs (nd m1) = lsurfs (nd m)
    /\ input_sinks (nd m1) = input_sinks (nd m) /\ sink_peers m1 = sink_peers m /\ nproxies m1 = nproxies m
    /\ nested_toplevels m1 = nested_toplevels m /\ active_input_proxy (nd m1) = active_input_proxy (nd m)
    /\ wsurfaces (nd m1) = (if proxy_curtain t then delete (proxy_surface t) (wsurfaces (nd m)) else wsurfaces (nd m))
    /\ forall v, v <> view t -> view_surface (nd m1) !! v = view_surface (nd m) !! v).
  { unfold m1. destruct (proxy_curtain t); [|done]. split_and!; try done. intros v N.
    change (delete (view t) (view_surface (nd m)) !! v = view_surface (nd m) !! v). by rewrite lookup_delete_ne. }
  assert (M1n : view_surface (nd m1) !! NULL_VIEW = None).
  { assert (X : view_surface (nd m) !! NULL_VIEW = None) by (destruct (a5 NULL_VIEW) as [->|[_ ?]]; [apply (co_null _ C)|done]).
    unfold m1. destruct (proxy_curtain t); [|done]. change (delete (view t) (view_surface (nd m)) !! NULL_VIEW = None).
    destruct (decide (view t = NULL_VIEW)) as [->|N]; [apply lookup_delete_eq|by rewrite lookup_delete_ne]. }
  clearbody m1. destruct M1 as (c1 & c2 & c3 & c4 & c5 & c6 & c7 & c8 & c9 & c10).
  rewrite c6, a9, Fp. cbn [mbind option_bind].
  set (m2 := match np_pixel_view p with Some v => on_desk (destroy_view v) m1 | None => m1 end).
  assert (M2 : tls m2 = tls m1 /\ next_view (base (nd m2)) = next_view (base (nd m1)) /\ lsurfs (nd m2) = lsurfs (nd m1)
    /\ input_sinks (nd m2) = input_sinks (nd m1) /\ sink_peers m2 = sink_peers m1 /\ nproxies m2 = nproxies m1
    /\ nested_toplevels m2 = nested_toplevels m1 /\ active_input_proxy (nd m2) = active_input_proxy (nd m1)
    /\ wsurfaces (nd m2) = wsurfaces (nd m1)
    /\ (forall v, v <> view t -> view_surface (nd m2) !! v = view_surface (nd m1) !! v)
    /\ view_surface (nd m2) !! NULL_VIEW = None).
  { unfold m2. destruct (np_pixel_view p) as [v|]; [|done]. destruct (b2 v eq_refl) as [Ev _].
    split_and!; try done; [intros w N|]; rewrite (lookup_destroyed v _ (nd m1)); [by rewrite decide_False by congruence|by case_decide]. }
  clearbody m2. destruct M2 as (d1 & d2 & d3 & d4 & d5 & d6 & d7 & d8 & d9 & d10 & d11).
  (* the rest *)
  set (m3 := close_sink h m2).
  assert (M3 : tls m3 = tls m2 /\ next_view (base (nd m3)) = next_view (base (nd m2)) /\ lsurfs (nd m3) = lsurfs (nd m2)
    /\ nproxies m3 = nproxies m2 /\ nested_toplevels m3 = nested_toplevels m2
    /\ active_input_proxy (nd m3) = active_input_proxy (nd m2) /\ wsurfaces (nd m3) = wsurfaces (nd m2)
    /\ view_surface (nd m3) = view_surface (nd m2) /\ input_sinks (nd m3) = delete h (input_sinks (nd m2))
    /\ sink_peers m3 = match input_sinks (nd m2) !! h with Some fd => delete fd (sink_peers m2) | None => sink_peers m2 end).
  { unfold m3, close_sink. destruct (input_sinks (nd m2) !! h) as [fd|] eqn:E; [done|]. split_and!; try done.
    by rewrite delete_id. }
  clearbody m3. destruct M3 as (e1 & e2 & e3 & e4 & e5 & e6 & e7 & e8 & e9 & e10).
  set (m4 := clear_active h m3).
  assert (M4 : tls m4 = tls m3 /\ next_view (base (nd m4)) = next_view (base (nd m3)) /\ lsurfs (nd m4) = lsurfs (nd m3)
    /\ nproxies m4 = nproxies m3 /\ nested_toplevels m4 = nested_toplevels m3 /\ wsurfaces (nd m4) = wsurfaces (nd m3)
    /\ view_surface (nd m4) = view_surface (nd m3) /\ input_sinks (nd m4) = input_sinks (nd m3) /\ sink_peers m4 = sink_peers m3
    /\ active_input_proxy (nd m4) <> Some h
    /\ forall h', active_input_proxy (nd m4) = Some h' -> active_input_proxy (nd m3) = Some h').
  { unfold m4, clear_active. cbn. case_bool_decide; cbn; by split_and!. }
  clearbody m4. destruct M4 as (f1 & f2 & f3 & f4 & f5 & f6 & f7 & f8 & f9 & f10 & f11).
  set (m5 := on_desk _ _).
  assert (M5 : tls m5 = without h (tls m4) /\ next_view (base (nd m5)) = next_view (base (nd m4)) /\ lsurfs (nd m5) = lsurfs (nd m4)
    /\ nproxies m5 = delete h (nproxies m4) /\ nested_toplevels m5 = nested_toplevels m4 /\ wsurfaces (nd m5) = wsurfaces (nd m4)
    /\ view_surface (nd m5) = view_surface (nd m4) /\ input_sinks (nd m5) = input_sinks (nd m4) /\ sink_peers m5 = sink_peers m4
    /\ active_input_proxy (nd m5) = active_input_proxy (nd m4)) by done.
  clearbody m5. destruct M5 as (g1 & g2 & g3 & g4 & g5 & g6 & g7 & g8 & g9 & g10).
  assert (Tl : tls m5 = without h (tls n)) by congruence.
  assert (Ws : wsurfaces (nd m5) = if proxy_curtain t then delete (proxy_surface t) (wsurfaces (nd n)) else wsurfaces (nd n))
    by (rewrite g6, f6, e7, d9, c9, a4; done).
  split_and!; try congruence.
  - refine (contained_remove n m5 h t C F P Tl _ _ _ _ _ _ _); try congruence.
    + intros h' N. rewrite g4, lookup_delete_ne by done. congruence.
    + intros s w Hw. rewrite Ws. destruct (proxy_curtain t); [|right; by exists w].
      destruct (decide (s = proxy_surface t)) as [->|N]; [by left|]. right. exists w. by rewrite lookup_delete_ne.
    + intros v N1 N2. rewrite g7, f7, e8, (d10 v N1), (c10 v N1). by destruct (a5 v) as [|[? _]].
    + intros h' E. destruct (a11 h') as (t' & I & E1 & O).
      { rewrite g10 in E. apply f11 in E. congruence. }
      exists t'. rewrite Tl. split; [|done]. apply without_in. split; [done|]. intros X. apply f10. congruence.
  - rewrite g9, f9, e10, d4, d5, c4, c5, a7, a8. done.
  - intros s w Hw Nc. rewrite Ws. destruct (proxy_curtain t) eqn:K; [|done]. rewrite lookup_delete_ne; [done|]. intros <-.
    destruct (b3 eq_refl) as (_ & _ & w0 & E & Nn & _). congruence.
Qed.
