(* ===== verification/NestedIdentity.v ===== *)
(** * NestedIdentity: who a proxy belongs to

    Owners, users, descriptors and the remote identity of the proxies: what the
    operations keep, and the invariant over them. *)

From Stdlib Require Import Ascii String.
From stdpp Require Import base list gmap strings option fin_sets.
From S2P Require Import Prelude Logic Scene State Toplevel ToplevelFacts Dependents Focus Config Workspace Session SessionFacts Desk Pointer PointerFacts LayerShell InputSink Nested NestedFacts NestedInvariant.
From stdpp Require Import list.
Import Policy.
#[local] Open Scope Z_scope.

(** ** What most operations keep *)

Definition ident (t : toplevel) := (is_nested_proxy t, proxy_origin_uid t, proxy_remote t).
Definition nt_key (t : nested_toplevel) := (nt_res t, nt_client t, nt_origin_uid t, nt_proxy t).

(** The windows are the same as far as [pr] sees them, and the bookkeeping of
    owners and descriptors is the same. *)
Record keeps_by {A} (pr : toplevel -> A) (n n' : nested) : Prop := {
  ke_tls : forall h, pr <$> find_tl h (tls n') = pr <$> find_tl h (tls n);
  ke_np : forall h, np_owner <$> nproxies n' !! h = np_owner <$> nproxies n !! h;
  ke_nts : map nt_key (nested_toplevels n') = map nt_key (nested_toplevels n);
  ke_sinks : input_sinks (nd n') = input_sinks (nd n);
  ke_peers : sink_peers n' = sink_peers n
}.

Definition owner_user (t : toplevel) := (is_nested_proxy t, proxy_origin_uid t).
Notation keeps := (keeps_by ident).

#[global] Instance keeps_preorder {A} (pr : toplevel -> A) : PreOrder (keeps_by pr).
Proof.
  split; [by split|]. intros a b c [x1 x2 x3 x4 x5] [y1 y2 y3 y4 y5]. split; try congruence; intros h; by rewrite ?y1, ?y2.
Qed.

Lemma keeps_upd {A} (pr : toplevel -> A) h f n : (forall x, handle (f x) = handle x) -> (forall x, pr (f x) = pr x) ->
  keeps_by pr n (on_qdwin (upd_tl h f) n).
Proof.
  intros H1 H2. split; try done. intros h'.
  change (pr <$> find_tl h' (map (fun x => if handle x =? h then f x else x) (tls n)) = pr <$> find_tl h' (tls n)).
  induction (tls n) as [|x l IH]; [done|]. unfold find_tl in *. cbn.
  assert (E : handle (if handle x =? h then f x else x) = handle x) by (by destruct (handle x =? h)).
  rewrite E. destruct (handle x =? h'); [|exact IH]. cbn. f_equal. destruct (handle x =? h); [apply H2|done].
Qed.
Lemma keeps_desk {A} (pr : toplevel -> A) f n : toplevels (base (f (nd n))) = tls n -> input_sinks (f (nd n)) = input_sinks (nd n) -> keeps_by pr n (on_desk f n).
Proof. intros E1 E2. split; try done. intros h. cbn. by rewrite E1. Qed.
Lemma keeps_base {A} (pr : toplevel -> A) f n : toplevels (f (base (nd n))) = tls n -> keeps_by pr n (on_qdwin f n).
Proof. intros E. by apply keeps_desk. Qed.
Lemma keeps_set_desk {A} (pr : toplevel -> A) d n : toplevels (base d) = tls n -> input_sinks d = input_sinks (nd n) -> keeps_by pr n (n <| nd := d |>).
Proof. intros E1 E2. split; try done. intros h. cbn. by rewrite E1. Qed.
Lemma keeps_np {A} (pr : toplevel -> A) h f n : (forall p, np_owner (f p) = np_owner p) -> keeps_by pr n (upd_np h f n).
Proof.
  intros E. split; try done. intros h'. change (np_owner <$> alter f h (nproxies n) !! h' = np_owner <$> nproxies n !! h').
  destruct (decide (h' = h)) as [->|N]; [|by rewrite lookup_alter_ne]. rewrite lookup_alter_eq.
  destruct (nproxies n !! h); cbn; [by rewrite E|done].
Qed.
Lemma keeps_nt {A} (pr : toplevel -> A) r f n : (forall t, nt_key (f t) = nt_key t) -> keeps_by pr n (upd_nt r f n).
Proof.
  intros E. split; try done. unfold upd_nt. cbn. rewrite map_map. apply map_ext. intros t. destruct (nt_res t =? r); [apply E|done].
Qed.
Lemma keeps_nemit {A} (pr : toplevel -> A) e n : keeps_by pr n (nemit e n).
Proof. by split. Qed.
Lemma keeps_core {A} (pr : toplevel -> A) f n : f (base (nd n)) ≃ base (nd n) -> keeps_by pr n (on_qdwin f n).
Proof. intros E. apply keeps_base. by apply core_field. Qed.

Lemma keeps_pixels h s b n : keeps n (set_pixels h s b n).
Proof. unfold set_pixels. etransitivity; [by apply (keeps_upd ident h (fun t => t <| proxy_pixel_surface := s |>))|by apply (keeps_np ident h (fun p => p <| np_listening := b |>))]. Qed.
Lemma keeps_capture h b n : keeps n (qdwin_nested_proxy_curtain_set_capture h b n).
Proof. unfold qdwin_nested_proxy_curtain_set_capture. destruct (proxy_of h n) as [t|]; [|done]. destruct (negb _); [done|by apply keeps_desk]. Qed.

Lemma keeps_show_pixels h v s pos t n : keeps n (show_pixels h v s pos t n).
Proof.
  unfold show_pixels. set (n1 := if proxy_curtain t then _ else n).
  assert (K1 : keeps n n1) by (unfold n1; destruct (proxy_curtain t); [by apply keeps_desk|done]).
  clearbody n1. etransitivity; [exact K1|]. etransitivity; [by apply (keeps_upd ident h (fun t => t <| proxy_curtain := false |> <| view := v |>))|].
  etransitivity; [by apply (keeps_np ident h (fun p => p <| np_pixel_view := Some v |>))|]. etransitivity; [apply (keeps_pixels h (Some s) true)|].
  etransitivity; [by apply (keeps_base ident (weston_view_set_position v (fst pos) (snd pos)))|].
  etransitivity; [by apply (keeps_base ident (on_scene (weston_view_move_to_layer v normal_layer)))|]. by apply keeps_desk.
Qed.

Lemma create_view_keeps s d r d' : create_view s d = (r, d') -> toplevels (base d') = toplevels (base d) /\ input_sinks d' = input_sinks d.
Proof. unfold create_view, weston_view_create. destruct (oom (base d)); intros [= <- <-]; done. Qed.
Lemma curtain_keeps x y w h b d r d' : weston_shell_utils_curtain_create x y w h b d = (r, d') ->
  toplevels (base d') = toplevels (base d) /\ input_sinks d' = input_sinks d.
Proof. destruct r as [[v s]|]; [intros (_ & _ & _ & _ & ? & _ & _ & _ & _ & ? & _)%curtain_some; done|by intros ->%curtain_none]. Qed.

Lemma keeps_activate_pixels h n b n' : qdwin_nested_proxy_activate_pixel_surface h n = (b, n') -> keeps n n'.
Proof.
  unfold qdwin_nested_proxy_activate_pixel_surface. destruct (proxy_of h n) as [t|]; [|by intros [= <- <-]].
  destruct (nproxies n !! h) as [p|]; [|by intros [= <- <-]]. destruct (proxy_pixel_surface t) as [s|]; [|by intros [= <- <-]].
  destruct (np_pixel_view p); [by intros [= <- <-]|].
  destruct (create_view s (nd n)) as [[v|] d] eqn:V; intros [= <- <-]; destruct (create_view_keeps _ _ _ _ V) as [E1 E2];
    (etransitivity; [by apply (keeps_set_desk ident d)|]).
  - apply keeps_show_pixels.
  - etransitivity; [apply (keeps_pixels h None false)|apply keeps_capture].
Qed.

Lemma keeps_release b h n : keeps n (on_qdwin (qdwin_toplevel_release_holding b h) n).
Proof.
  destruct (find_tl h (tls n)) as [t|] eqn:F.
  - destruct (windows_release b h (base (nd n)) t F) as [_ [E|E]]; [by apply keeps_base|].
    destruct (keeps_upd ident h (fun t => t <| decorated := true |>) n) as [k1 _ _ _ _]; [done|done|]. split; try done.
    intros h'. cbn. rewrite E. apply k1.
  - apply keeps_base. unfold qdwin_toplevel_release_holding, with_tl.
    change (qdwin_toplevel_from_handle h (base (nd n))) with (find_tl h (tls n)). by rewrite F.
Qed.

Lemma keeps_allow h n : keeps n (qdwin_nested_proxy_apply_allow h n).
Proof.
  unfold qdwin_nested_proxy_apply_allow. destruct (proxy_of h n) as [t|]; [|done]. destruct (_ || _); [done|].
  set (n1 := on_qdwin _ n). assert (K1 : keeps n n1) by (by apply (keeps_upd ident h (fun t => t <| proxy_pending := false |>))). clearbody n1.
  destruct (qdwin_nested_proxy_activate_pixel_surface h n1) as [b n2] eqn:E. apply keeps_activate_pixels in E.
  etransitivity; [exact K1|]. etransitivity; [exact E|]. destruct b; [apply keeps_release|].
  etransitivity; [apply keeps_capture|apply keeps_release].
Qed.

Lemma keeps_drop_feed h n : keeps n (drop_feed h n).
Proof.
  unfold drop_feed. destruct (proxy_of h n) as [t|]; [|done]. destruct (nproxies n !! h) as [p|]; [|done].
  destruct (_ && _); [done|]. destruct (np_pixel_view p) as [v|]; [|apply keeps_pixels].
  etransitivity; [|apply keeps_pixels].
  etransitivity; [apply (keeps_upd ident h (fun t => if view t =? v then t <| view := NULL_VIEW |> else t)); intros x; by destruct (view x =? v)|].
  etransitivity; [by apply (keeps_desk ident (destroy_view v))|]. by apply (keeps_np ident h (fun p => p <| np_pixel_view := None |>)).
Qed.

Lemma keeps_bind res uid h s n : keeps n (qdwin_handle_bind_proxy_pixels res uid h s n).
Proof.
  unfold qdwin_handle_bind_proxy_pixels. destruct (proxy_of h n) as [t|]; [|apply keeps_nemit].
  destruct (negb _); [apply keeps_nemit|]. destruct (negb _); [apply keeps_nemit|]. destruct s as [s|]; [|apply keeps_nemit].
  cbv zeta. etransitivity; [apply (keeps_drop_feed h)|]. set (n1 := drop_feed h n). clearbody n1.
  destruct (proxy_pending t); [apply keeps_pixels|].
  destruct (create_view s (nd n1)) as [[v|] d] eqn:V; destruct (create_view_keeps _ _ _ _ V) as [E1 E2].
  - destruct (proxy_of h n1) as [t1|]; [|by apply keeps_set_desk]. etransitivity; [by apply (keeps_set_desk ident d)|]. apply keeps_show_pixels.
  - by apply keeps_set_desk.
Qed.

Lemma keeps_pixel_destroyed h n : keeps n (qdwin_proxy_pixel_surface_destroyed h n).
Proof.
  unfold qdwin_proxy_pixel_surface_destroyed. destruct (proxy_of h n) as [t|]; [|done]. destruct (nproxies n !! h) as [p|]; [|done].
  cbv zeta. etransitivity; [apply (keeps_drop_feed h)|]. set (n1 := drop_feed h n). clearbody n1. case_bool_decide; [done|].
  destruct (weston_shell_utils_curtain_create _ _ _ _ _ (nd n1)) as [[[v s]|] d] eqn:E; apply curtain_keeps in E as [E1 E2].
  - etransitivity; [by apply (keeps_set_desk ident d)|].
    etransitivity; [by apply (keeps_upd ident h (fun t => t <| proxy_curtain := true |> <| proxy_surface := s |> <| view := v |>))|]. by apply keeps_base.
  - by apply keeps_set_desk.
Qed.

Lemma keeps_surface_destroyed s n : keeps n (client_surface_destroyed s n).
Proof.
  unfold client_surface_destroyed. etransitivity; [|by apply keeps_desk].
  generalize (map handle (List.filter (listens_to s n) (tls n))). intros l. revert n.
  induction l as [|h l IH]; intros n; [done|]. cbn [foldl]. etransitivity; [apply (keeps_pixel_destroyed h)|apply IH].
Qed.

Lemma keeps_resize h w ht n : keeps n (nested_proxy_set_geometry h w ht n).
Proof.
  unfold nested_proxy_set_geometry. destruct (proxy_of h n) as [t|]; [|done]. destruct (_ || _); [done|]. destruct (_ && _); [done|].
  cbv zeta. set (n1 := on_desk _ n). assert (K1 : keeps n n1) by (by apply keeps_desk). clearbody n1. etransitivity; [exact K1|].
  destruct (weston_shell_utils_curtain_create _ _ _ _ _ (nd n1)) as [[[v s]|] d] eqn:E; apply curtain_keeps in E as [E1 E2];
    (etransitivity; [by apply (keeps_set_desk ident d)|]).
  - etransitivity; [|apply keeps_core, core_send]. etransitivity; [|by apply (keeps_base ident (on_scene _))].
    by apply (keeps_upd ident h (fun t => t <| view := v |> <| proxy_surface := s |> <| last_width := _ |> <| last_height := _ |>)).
  - by apply (keeps_upd ident h (fun t => t <| proxy_curtain := false |> <| view := NULL_VIEW |>)).
Qed.

Lemma keeps_title h s n : keeps n (nested_proxy_set_title h s n).
Proof. unfold nested_proxy_set_title. etransitivity; [by apply (keeps_upd ident h (fun t => t <| proxy_title := s |>))|].
  exact (keeps_core ident (shell_send 0 (toplevel_title h s)) (on_qdwin (upd_tl h (fun t => t <| proxy_title := s |>)) n) (core_send _ _ _)). Qed.
Lemma keeps_app_id h s n : keeps n (nested_proxy_set_app_id h s n).
Proof. unfold nested_proxy_set_app_id. etransitivity; [by apply (keeps_upd ident h (fun t => t <| proxy_app_id := s |>))|].
  exact (keeps_core ident (shell_send 31 (toplevel_app_id h s)) (on_qdwin (upd_tl h (fun t => t <| proxy_app_id := s |>)) n) (core_send _ _ _)). Qed.

(** ** The invariant *)

Section identity.
(** The user the kernel reports for a client. *)
Variable peer_uid : Z -> Z.

(** [t] is the proxy of the resource's [nt]. *)
Definition owns (n : nested) (nt : nested_toplevel) (h : Z) (t : toplevel) : Prop :=
  nt_proxy nt = Some h /\ (np_owner <$> nproxies n !! h) = Some (Some (nt_res nt)) /\ proxy_origin_uid t = nt_origin_uid nt.

Record bound (n : nested) : Prop := {
  bd_res : NoDup (map nt_res (nested_toplevels n));
  bd_uid : forall nt, nt ∈ nested_toplevels n -> nt_origin_uid nt = peer_uid (nt_client nt);
  bd_proxy : forall nt h, nt ∈ nested_toplevels n -> nt_proxy nt = Some h ->
    exists t, find_tl h (tls n) = Some t /\ is_nested_proxy t = true /\ owns n nt h t;
  bd_owner : forall h t, find_tl h (tls n) = Some t -> is_nested_proxy t = true ->
    exists nt, nt ∈ nested_toplevels n /\ owns n nt h t;
  bd_sink : forall h fd, input_sinks (nd n) !! h = Some fd ->
    exists t, find_tl h (tls n) = Some t /\ is_nested_proxy t = true /\ sink_peers n !! fd = Some (proxy_origin_uid t);
  bd_inj : forall h h' fd, input_sinks (nd n) !! h = Some fd -> input_sinks (nd n) !! h' = Some fd -> h = h';
  bd_open : forall fd u, sink_peers n !! fd = Some u -> exists h, input_sinks (nd n) !! h = Some fd;
  bd_cap : forall u, qdwin_nested_count_for_uid u n <= QDWIN_NESTED_TOPLEVEL_CAP_PER_UID
}.

Lemma keys_in l l' t' : map nt_key l' = map nt_key l -> t' ∈ l' -> exists t, t ∈ l /\ nt_key t = nt_key t'.
Proof.
  intros E I. assert (X : nt_key t' ∈ map nt_key l') by (apply list_elem_of_In, in_map, list_elem_of_In, I). rewrite E in X.
  apply list_elem_of_In, in_map_iff in X as (t & Et & It). exists t. split; [by apply list_elem_of_In|done].
Qed.
Lemma keys_map {A} (g : nested_toplevel -> A) l l' : (forall t t', nt_key t = nt_key t' -> g t = g t') ->
  map nt_key l' = map nt_key l -> map g l' = map g l.
Proof.
  intros G. revert l. induction l' as [|x l' IH]; intros [|y l] E; [done|done|done|]. cbn in E.
  assert (E1 : nt_key x = nt_key y) by congruence. assert (E2 : map nt_key l' = map nt_key l) by congruence.
  cbn. f_equal; [by apply G|by apply IH].
Qed.

Lemma count_keys u n n' : map nt_key (nested_toplevels n') = map nt_key (nested_toplevels n) ->
  qdwin_nested_count_for_uid u n' = qdwin_nested_count_for_uid u n.
Proof.
  intros E. unfold qdwin_nested_count_for_uid. f_equal.
  revert E. generalize (nested_toplevels n). induction (nested_toplevels n') as [|x l' IH]; intros [|y l] E; [done|done|done|].
  cbn in E. assert (E1 : nt_origin_uid x = nt_origin_uid y) by (unfold nt_key in E; congruence).
  assert (E2 : map nt_key l' = map nt_key l) by congruence. cbn. rewrite E1. destruct (_ =? u); cbn; [f_equal|]; by apply IH.
Qed.

Lemma keeps_weaken n n' : keeps n n' -> keeps_by owner_user n n'.
Proof.
  intros [k1 k2 k3 k4 k5]. split; try done. intros h. specialize (k1 h).
  destruct (find_tl h (tls n')) as [t'|], (find_tl h (tls n)) as [t|]; cbn in *; try done. unfold ident in k1. unfold owner_user. congruence.
Qed.

Lemma bound_keeps n n' : bound n -> keeps_by owner_user n n' -> bound n'.
Proof.
  intros [b1 b2 b3 b4 b5 b6 b7 b8] [k1 k2 k3 k4 k5].
  assert (Fw : forall h t, find_tl h (tls n) = Some t -> exists t', find_tl h (tls n') = Some t' /\ owner_user t' = owner_user t).
  { intros h t F. specialize (k1 h). rewrite F in k1. destruct (find_tl h (tls n')) as [t'|]; [|done]. exists t'. cbn in k1. split; congruence. }
  assert (Bw : forall h t', find_tl h (tls n') = Some t' -> exists t, find_tl h (tls n) = Some t /\ owner_user t' = owner_user t).
  { intros h t' F. specialize (k1 h). rewrite F in k1. destruct (find_tl h (tls n)) as [t|]; [|done]. exists t. cbn in k1. split; congruence. }
  split; rewrite ?k4, ?k5; try done.
  - rewrite (keys_map nt_res _ _ ltac:(unfold nt_key; congruence) k3). done.
  - intros nt' I. destruct (keys_in _ _ _ k3 I) as (nt & I0 & E). specialize (b2 nt I0). unfold nt_key in E. congruence.
  - intros nt' h I E. destruct (keys_in _ _ _ k3 I) as (nt & I0 & Ek). unfold nt_key in Ek.
    destruct (b3 nt h I0) as (t & F & P & o1 & o2 & o3); [congruence|]. destruct (Fw h t F) as (t' & F' & Ei). unfold owner_user in Ei.
    exists t'. split_and!; [done|congruence|]. split_and!; [done| |congruence]. rewrite k2, o2. congruence.
  - intros h t' F' P'. destruct (Bw h t' F') as (t & F & Ei). unfold owner_user in Ei. destruct (b4 h t F) as (nt & I & o1 & o2 & o3); [congruence|].
    destruct (keys_in _ _ _ (eq_sym k3) I) as (nt' & I' & Ek). unfold nt_key in Ek. exists nt'. split; [done|].
    split_and!; [congruence| |congruence]. rewrite k2, o2. congruence.
  - intros h fd E. destruct (b5 h fd E) as (t & F & P & S). destruct (Fw h t F) as (t' & F' & Ei). unfold owner_user in Ei.
    exists t'. split_and!; [done|congruence|]. rewrite S. congruence.
  - intros u. rewrite (count_keys u _ _ k3). apply b8.
Qed.

(** *** Advertising *)

Lemma bound_attach connect glob peer_of h uid path n :
  bound n -> (exists t, find_tl h (tls n) = Some t /\ is_nested_proxy t = true /\ proxy_origin_uid t = uid) ->
  input_sinks (nd n) !! h = None -> (forall p fd, connect p = Some fd -> sink_peers n !! fd = None) ->
  bound (attach_sink connect glob peer_of h uid path n).
Proof.
  intros B (t & F & P & U) Nh Nf. unfold attach_sink. destruct (String.eqb path ""); [done|].
  destruct (qdwin_nested_input_sink_connect connect glob path) as [fd|] eqn:E; [|done].
  destruct (peer_of fd) as [peer|] eqn:D; [|eapply bound_keeps; [exact B|apply keeps_nemit]].
  destruct (Z.eqb_spec peer uid) as [->|Ne]; cbn [negb]; [|eapply bound_keeps; [exact B|apply keeps_nemit]].
  assert (Nfd : sink_peers n !! fd = None).
  { unfold qdwin_nested_input_sink_connect in E. destruct (String.eqb path ""); [done|].
    assert (One : forall q, qdwin_nested_input_sink_connect_one connect q = Some fd -> sink_peers n !! fd = None).
    { intros q. unfold qdwin_nested_input_sink_connect_one. destruct (_ || _); [done|]. apply Nf. }
    destruct (qdwin_nested_input_sink_connect_one connect path) eqn:E1; [simplify_eq; by eapply One|].
    destruct (tier2_pattern path); [|done]. apply head_Some_elem_of, list_elem_of_omap in E as (q & _ & Eq). by eapply One. }
  destruct B as [b1 b2 b3 b4 b5 b6 b7 b8].
  change (bound (nemit (sink_ping fd) (on_desk (fun d => d <| input_sinks ::= <[h := fd]> |>) (n <| sink_peers ::= <[fd := uid]> |>)))).
  split; try done; cbn.
  - intros h1 fd1. change (<[h := fd]> (input_sinks (nd n)) !! h1 = Some fd1 ->
      exists t, find_tl h1 (tls n) = Some t /\ is_nested_proxy t = true /\ <[fd := uid]> (sink_peers n) !! fd1 = Some (proxy_origin_uid t)).
    destruct (decide (h1 = h)) as [->|N].
    + rewrite lookup_insert_eq. intros [= <-]. exists t. rewrite lookup_insert_eq. by rewrite U.
    + rewrite lookup_insert_ne by done. intros E1. destruct (b5 h1 fd1 E1) as (t1 & F1 & P1 & S1). exists t1. split_and!; [done|done|].
      rewrite lookup_insert_ne by congruence. done.
  - intros h1 h2 fd1. change (<[h := fd]> (input_sinks (nd n)) !! h1 = Some fd1 -> <[h := fd]> (input_sinks (nd n)) !! h2 = Some fd1 -> h1 = h2).
    assert (Q : forall h3, input_sinks (nd n) !! h3 = Some fd -> False).
    { intros h3 E3. destruct (b5 h3 fd E3) as (t3 & _ & _ & S3). congruence. }
    destruct (decide (h1 = h)) as [->|N1]; destruct (decide (h2 = h)) as [->|N2]; rewrite ?lookup_insert_eq, ?lookup_insert_ne by done; try done.
    + intros [= <-] X. by apply Q in X.
    + intros X [= <-]. by apply Q in X.
    + apply b6.
  - intros fd1 u. change (<[fd := uid]> (sink_peers n) !! fd1 = Some u -> exists h1, <[h := fd]> (input_sinks (nd n)) !! h1 = Some fd1).
    destruct (decide (fd1 = fd)) as [->|N]; [intros _; exists h; apply lookup_insert_eq|]. rewrite lookup_insert_ne by done.
    intros E1. destruct (b7 fd1 u E1) as [h1 E2]. exists h1. rewrite lookup_insert_ne; [done|]. intros <-. congruence.
Qed.

Lemma find_cons h t l : find_tl h (t :: l) = if handle t =? h then Some t else find_tl h l.
Proof. done. Qed.

Lemma nt_map_other r f l : r ∉ map nt_res l -> map (fun t : nested_toplevel => if nt_res t =? r then f t else t) l = l.
Proof.
  induction l as [|x l IH]; [done|]. cbn. intros [N1 N2]%not_elem_of_cons. rewrite IH by done.
  destruct (Z.eqb_spec (nt_res x) r); [congruence|done].
Qed.

(** The nested toplevel is on the list, without a proxy yet. *)
Lemma bound_listed n t :
  bound n -> nt_res t ∉ map nt_res (nested_toplevels n) -> nt_proxy t = None -> nt_origin_uid t = peer_uid (nt_client t) ->
  qdwin_nested_count_for_uid (nt_origin_uid t) n < QDWIN_NESTED_TOPLEVEL_CAP_PER_UID ->
  bound (n <| nested_toplevels ::= cons t |>).
Proof.
  intros [b1 b2 b3 b4 b5 b6 b7 b8] N Np U Cap. split; try done.
  - cbn. by apply NoDup_cons.
  - intros nt [->|I]%elem_of_cons; [done|by apply b2].
  - intros nt h [->|I]%elem_of_cons E; [congruence|]. by apply b3.
  - intros h t1 F P. destruct (b4 h t1 F P) as (nt & I & O). exists nt. split; [by right|done].
  - intros u. unfold qdwin_nested_count_for_uid. cbn. destruct (Z.eqb_spec (nt_origin_uid t) u) as [<-|]; [|apply b8].
    unfold qdwin_nested_count_for_uid in Cap. cbn [length]. lia.
Qed.

Lemma bound_create n n1 t h p tl :
  bound n -> t ∈ nested_toplevels n -> nt_proxy t = None -> find_tl h (tls n) = None ->
  nested_toplevels n1 = nested_toplevels n -> sink_peers n1 = sink_peers n -> input_sinks (nd n1) = input_sinks (nd n) ->
  nproxies n1 = <[h := p]> (nproxies n) -> np_owner p = Some (nt_res t) ->
  tls n1 = tl :: tls n -> handle tl = h -> is_nested_proxy tl = true -> proxy_origin_uid tl = nt_origin_uid t ->
  bound (upd_nt (nt_res t) (fun t => t <| nt_proxy := Some h |>) n1).
Proof.
  intros [b1 b2 b3 b4 b5 b6 b7 b8] It Np Fn E1 E2 E3 E4 Po E5 Hh P U.
  assert (Fw : forall h' t', find_tl h' (tls n) = Some t' -> h' <> h /\ find_tl h' (tls n1) = Some t').
  { intros h' t' F. assert (h' <> h) by congruence. split; [done|]. rewrite E5, find_cons, Hh.
    destruct (Z.eqb_spec h h'); [congruence|done]. }
  assert (Fh : find_tl h (tls n1) = Some tl) by (by rewrite E5, find_cons, Hh, Z.eqb_refl).
  assert (Un : forall nt, nt ∈ nested_toplevels n -> nt_res nt = nt_res t -> nt = t).
  { intros nt I E. by apply (key_unique nt_res (nested_toplevels n)). }
  set (g := fun t0 : nested_toplevel => if nt_res t0 =? nt_res t then t0 <| nt_proxy := Some h |> else t0).
  assert (Gr : forall x, nt_res (g x) = nt_res x /\ nt_client (g x) = nt_client x /\ nt_origin_uid (g x) = nt_origin_uid x)
    by (intros x; unfold g; by destruct (_ =? _)).
  assert (Gin : forall nt', nt' ∈ map g (nested_toplevels n1) <-> exists nt, nt ∈ nested_toplevels n /\ nt' = g nt).
  { intros nt'. rewrite E1, list_elem_of_In, in_map_iff. split; intros (x & A & B); exists x; rewrite ?list_elem_of_In in *; split; congruence. }
  split; change (nested_toplevels (upd_nt (nt_res t) (fun t => t <| nt_proxy := Some h |>) n1)) with (map g (nested_toplevels n1));
    change (nd (upd_nt (nt_res t) (fun t => t <| nt_proxy := Some h |>) n1)) with (nd n1).
  - rewrite map_map, E1. erewrite map_ext; [exact b1|]. intros x. apply Gr.
  - intros nt' (nt & I & ->)%Gin. destruct (Gr nt) as (_ & -> & ->). by apply b2.
  - intros nt' h' (nt & I & ->)%Gin E. destruct (Gr nt) as (G1 & _ & G3). unfold g in E.
    destruct (Z.eqb_spec (nt_res nt) (nt_res t)) as [Er|Nr].
    + cbn in E. simplify_eq. pose proof (Un nt I Er) as ->. exists tl. split_and!; [done|done|]. split_and!.
      * unfold g. by rewrite Z.eqb_refl.
      * cbn. rewrite E4, lookup_insert_eq. cbn. by rewrite Po, G1.
      * by rewrite G3.
    + destruct (b3 nt h' I E) as (t1 & F1 & P1 & o1 & o2 & o3). destruct (Fw h' t1 F1) as [N F']. exists t1. split_and!; [done|done|].
      split_and!.
      * unfold g. destruct (Z.eqb_spec (nt_res nt) (nt_res t)); [done|exact o1].
      * cbn. rewrite E4, lookup_insert_ne by done. by rewrite G1.
      * by rewrite G3.
  - intros h' t1 F1 P1. destruct (decide (h' = h)) as [->|N].
    + assert (t1 = tl) as -> by congruence. exists (g t). split; [apply Gin; by exists t|]. destruct (Gr t) as (G1 & _ & G3). split_and!.
      * unfold g. by rewrite Z.eqb_refl.
      * cbn. rewrite E4, lookup_insert_eq. cbn. by rewrite Po, G1.
      * by rewrite G3.
    + rewrite E5, find_cons, Hh in F1. destruct (Z.eqb_spec h h'); [congruence|]. destruct (b4 h' t1 F1 P1) as (nt & I & o1 & o2 & o3).
      destruct (Gr nt) as (G1 & _ & G3). exists (g nt). split; [apply Gin; by exists nt|]. split_and!.
      * unfold g. destruct (Z.eqb_spec (nt_res nt) (nt_res t)) as [Er|]; [|done]. pose proof (Un nt I Er) as ->. congruence.
      * cbn. rewrite E4, lookup_insert_ne by done. by rewrite G1.
      * by rewrite G3.
  - intros h' fd. rewrite E3. intros E. destruct (b5 h' fd E) as (t1 & F1 & P1 & S1). destruct (Fw h' t1 F1) as [_ F'].
    exists t1. split_and!; [done|done|]. cbn. by rewrite E2.
  - rewrite E3. exact b6.
  - intros fd u. cbn. rewrite E2, E3. apply b7.
  - intros u. unfold qdwin_nested_count_for_uid.
    change (nested_toplevels (upd_nt (nt_res t) (fun t => t <| nt_proxy := Some h |>) n1)) with (map g (nested_toplevels n1)). rewrite E1.
    assert (L : length (List.filter (fun t => nt_origin_uid t =? u) (map g (nested_toplevels n)))
              = length (List.filter (fun t => nt_origin_uid t =? u) (nested_toplevels n))).
    { generalize (nested_toplevels n). induction l as [|x l IH]; [done|]. cbn. destruct (Gr x) as (_ & _ & ->).
      destruct (_ =? u); cbn; congruence. }
    rewrite L. apply b8.
Qed.

Lemma bound_advertise env m1 m2 m3 connect glob peer_of a n :
  contained n -> bound n -> av_peer_uid a = peer_uid (av_client a) -> av_id a ∉ map nt_res (nested_toplevels n) ->
  find_tl (u32_succ (next_handle (base (nd n)))) (tls n) = None ->
  (forall p fd, connect p = Some fd -> sink_peers n !! fd = None) ->
  let n' := qdwin_nested_manager_advertise_toplevel env m1 m2 m3 connect glob peer_of a n in
  contained n' /\ bound n'.
Proof.
  intros C B Hu Hr Hh Hf. cbv zeta. unfold qdwin_nested_manager_advertise_toplevel. cbv zeta.
  set (uid := if av_origin_uid a =? av_peer_uid a then _ else _).
  assert (Eu : uid = av_peer_uid a) by (unfold uid; destruct (Z.eqb_spec (av_origin_uid a) (av_peer_uid a)); done).
  destruct (Z.leb_spec QDWIN_NESTED_TOPLEVEL_CAP_PER_UID (qdwin_nested_count_for_uid (av_peer_uid a) n)) as [|Cap].
  { split; [by apply contained_nemit|]. eapply bound_keeps; [exact B|apply keeps_nemit]. }
  destruct (_ || _). { split; [by apply contained_nemit|]. eapply bound_keeps; [exact B|apply keeps_nemit]. }
  set (t := mk_nested_toplevel _ _ _ _ _ _ _ _ _ _). set (n0 := n <| nested_toplevels ::= cons t |>).
  assert (C0 : contained n0) by (by apply (contained_nts n (t :: nested_toplevels n))).
  assert (B0 : bound n0). { apply bound_listed; try done; cbn; rewrite Eu; done. }
  destruct (qdwin_nested_proxy_create env m3 (av_tag a) t 800 600 n0) as [proxy n1] eqn:E.
  destruct (create_spec _ _ _ _ _ _ _ _ _ C0 Hh E) as (C1 & c1 & c2 & c3 & c4 & c5).
  set (n2 := upd_nt (av_id a) (fun t => t <| nt_proxy := proxy |>) n1).
  assert (C2 : contained n2) by (by apply contained_nt).
  assert (B2 : bound n2).
  { destruct proxy as [h|].
    - destruct c5 as (-> & c6 & tl & T1 & T2 & T3 & T4 & _).
      exact (bound_create n0 n1 t _ _ tl B0 ltac:(by left) eq_refl Hh c1 c2 c3 c6 eq_refl T1 T2 T3 T4).
    - destruct c5 as [c5 c6]. apply (bound_keeps n0); [done|]. split; try done; unfold n2; cbn.
      + intros h. by rewrite c5.
      + intros h. by rewrite c6.
      + rewrite c1. change (nested_toplevels n0) with (t :: nested_toplevels n). cbn [map].
        change (nt_res t) with (av_id a). rewrite Z.eqb_refl. f_equal. rewrite nt_map_other by done. done. }
  set (n3 := match proxy with Some h => attach_sink _ _ _ h uid _ n2 | None => n2 end).
  assert (R3 : contained n3 /\ bound n3).
  { unfold n3. destruct proxy as [h|]; [|done]. destruct c5 as (-> & c6 & tl & T1 & T2 & T3 & T4 & _). split.
    - unfold attach_sink. destruct (String.eqb _ ""); [done|]. destruct (qdwin_nested_input_sink_connect _ _ _); [|done].
      destruct (peer_of _); [|by apply contained_nemit]. destruct (negb _); [by apply contained_nemit|].
      apply (contained_ext n2); try done. apply (co_active _ C2).
    - apply bound_attach; [exact B2| | |].
      + exists tl. split_and!; [|done|by rewrite T4]. change (tls n2) with (tls n1). rewrite T1, find_cons, T2, Z.eqb_refl. done.
      + change (input_sinks (nd n1) !! u32_succ (next_handle (base (nd n))) = None). rewrite c3.
        destruct (input_sinks (nd n0) !! u32_succ (next_handle (base (nd n)))) as [fd|] eqn:Es; [|done].
        destruct (bd_sink _ B0 _ _ Es) as (t1 & F1 & _). change (tls n0) with (tls n) in F1. congruence.
      + intros p fd Ec. change (sink_peers n2) with (sink_peers n1). rewrite c2. by eapply Hf. }
  clearbody n3. destruct R3 as [C3 B3]. destruct (match proxy ≫= _ with Some tl => _ | None => _ end) as [cw ch]. split.
  - apply contained_nt, contained_nemit, C3.
  - eapply bound_keeps; [exact B3|]. etransitivity; [apply (keeps_nemit owner_user (nested_configured (av_id a) cw ch))|]. by apply keeps_nt.
Qed.

(** *** The end of a proxy *)

(** The proxy [h] is gone, and its resource [r] is gone or has no proxy. *)
Lemma bound_forget n n' h r :
  bound n -> (np_owner <$> nproxies n !! h) = Some (Some r) -> (exists t, find_tl h (tls n) = Some t /\ is_nested_proxy t = true) ->
  tls n' = without h (tls n) -> (forall h', h' <> h -> nproxies n' !! h' = nproxies n !! h') ->
  input_sinks (nd n') = delete h (input_sinks (nd n)) ->
  sink_peers n' = match input_sinks (nd n) !! h with Some fd => delete fd (sink_peers n) | None => sink_peers n end ->
  NoDup (map nt_res (nested_toplevels n')) ->
  (forall nt, nt ∈ nested_toplevels n' -> (nt ∈ nested_toplevels n /\ nt_res nt <> r)
     \/ (nt_proxy nt = None /\ nt_origin_uid nt = peer_uid (nt_client nt))) ->
  (forall nt, nt ∈ nested_toplevels n -> nt_res nt <> r -> nt ∈ nested_toplevels n') ->
  (forall u, qdwin_nested_count_for_uid u n' <= qdwin_nested_count_for_uid u n) ->
  bound n'.
Proof.
  intros [b1 b2 b3 b4 b5 b6 b7 b8] Ow Fh T N Is Sp Nd I1 I2 Ct.
  assert (Ft : forall h' t', find_tl h' (tls n') = Some t' <-> h' <> h /\ find_tl h' (tls n) = Some t').
  { intros h' t'. rewrite T, find_without. case_decide; naive_solver. }
  assert (Hh : forall nt h', nt ∈ nested_toplevels n -> nt_res nt <> r -> nt_proxy nt = Some h' -> h' <> h).
  { intros nt h' I Nr E ->. destruct (b3 nt h I E) as (t & _ & _ & _ & o2 & _). congruence. }
  assert (Sk : forall h' fd, input_sinks (nd n') !! h' = Some fd <-> h' <> h /\ input_sinks (nd n) !! h' = Some fd).
  { intros h' fd. rewrite Is. destruct (decide (h' = h)) as [->|Nh]; [rewrite lookup_delete_eq; naive_solver|].
    rewrite lookup_delete_ne by done. naive_solver. }
  assert (Pe : forall h' fd, h' <> h -> input_sinks (nd n) !! h' = Some fd -> sink_peers n' !! fd = sink_peers n !! fd).
  { intros h' fd Nh E. rewrite Sp. destruct (input_sinks (nd n) !! h) as [fd0|] eqn:E0; [|done]. apply lookup_delete_ne.
    intros ->. apply Nh. by eapply b6. }
  split.
  - done.
  - intros nt I. destruct (I1 nt I) as [[I0 _]|[_ ?]]; [by apply b2|done].
  - intros nt h' I E. destruct (I1 nt I) as [[I0 Nr]|[? _]]; [|congruence].
    destruct (b3 nt h' I0 E) as (t & F & P & o1 & o2 & o3). pose proof (Hh nt h' I0 Nr E) as Nh. exists t.
    split_and!; [by apply Ft|done|]. split_and!; [done|by rewrite N|done].
  - intros h' t [Nh F]%Ft P. destruct (b4 h' t F P) as (nt & I & o1 & o2 & o3). exists nt. split.
    + apply I2; [done|]. intros Er. destruct Fh as (t0 & F0 & P0).
      destruct (b4 h t0 F0 P0) as (nt0 & J & q1 & q2 & q3).
      assert (nt0 = nt) as -> by (apply (key_unique nt_res (nested_toplevels n)); [done|done|done|congruence]). congruence.
    + split_and!; [done|by rewrite N|done].
  - intros h' fd [Nh E]%Sk. destruct (b5 h' fd E) as (t & F & P & S). exists t. split_and!; [by apply Ft|done|].
    by rewrite (Pe h' fd Nh E).
  - intros h1 h2 fd [_ E1]%Sk [_ E2]%Sk. by eapply b6.
  - intros fd u E. rewrite Sp in E. destruct (input_sinks (nd n) !! h) as [fd0|] eqn:E0.
    + apply lookup_delete_Some in E as [Nf E]. destruct (b7 fd u E) as [h1 E1]. exists h1. apply Sk. split; [|done]. intros ->. congruence.
    + destruct (b7 fd u E) as [h1 E1]. exists h1. apply Sk. split; [|done]. intros ->. congruence.
  - intros u. specialize (Ct u). specialize (b8 u). lia.
Qed.

Lemma bound_deny seats h n t :
  contained n -> bound n -> find_tl h (tls n) = Some t -> is_nested_proxy t = true ->
  contained (deny_proxy seats h n) /\ bound (deny_proxy seats h n) /\ find_tl h (tls (deny_proxy seats h n)) = None.
Proof.
  intros C B F P. destruct (bd_owner _ B h t F P) as (nt & I & o1 & o2 & o3). unfold deny_proxy.
  destruct (nproxies n !! h) as [p|] eqn:Ep; [|done]. cbn in o2. injection o2 as o2. cbn [mbind option_bind]. rewrite o2.
  set (r := nt_res nt) in *. set (n1 := upd_np h _ _).
  assert (C1 : contained n1) by (apply contained_np; [|done]; apply contained_nt, contained_nemit, C).
  destruct (destroy_spec seats h n1 t C1 F P) as (C2 & d1 & d2 & d3 & d4 & d5 & _). set (n2 := qdwin_nested_proxy_destroy seats h n1) in *.
  set (g := fun x : nested_toplevel => if nt_res x =? r then x <| nt_proxy := None |> else x).
  assert (Gr : forall x, nt_res (g x) = nt_res x /\ nt_client (g x) = nt_client x /\ nt_origin_uid (g x) = nt_origin_uid x)
    by (intros x; unfold g; by destruct (_ =? _)).
  assert (E2 : nested_toplevels n2 = map g (nested_toplevels n)) by (rewrite d2; done).
  split_and!; [done| |by rewrite d1, find_without, decide_True].
  apply (bound_forget n n2 h r B); try done.
  - rewrite Ep. cbn. by rewrite o2.
  - by exists t.
  - intros h' N. rewrite d3, lookup_delete_ne by done.
    change (alter (fun p => p <| np_owner := None |>) h (nproxies n) !! h' = nproxies n !! h'). by rewrite lookup_alter_ne.
  - rewrite E2, map_map. erewrite map_ext; [apply (bd_res _ B)|]. intros x. apply Gr.
  - intros x. rewrite E2, list_elem_of_In, in_map_iff. intros (y & <- & Iy). apply list_elem_of_In in Iy. destruct (Gr y) as (g1 & g2 & g3).
    destruct (Z.eqb_spec (nt_res y) r) as [Er|Nr].
    2: { left. assert (Ey : g y = y) by (unfold g; by rewrite (proj2 (Z.eqb_neq _ _) Nr)). by rewrite Ey. }
    right. split; [unfold g; by rewrite Er, Z.eqb_refl|]. rewrite g3, g2. by apply (bd_uid _ B).
  - intros x Ix Nr. rewrite E2, list_elem_of_In, in_map_iff. exists x. split; [|by apply list_elem_of_In]. unfold g.
    destruct (Z.eqb_spec (nt_res x) r); done.
  - intros u. unfold qdwin_nested_count_for_uid. rewrite E2. clear -Gr. induction (nested_toplevels n) as [|x l IH]; [done|]. cbn.
    destruct (Gr x) as (_ & _ & ->). destruct (_ =? u); cbn [length]; lia.
Qed.

Lemma bound_resource_destroy seats r n :
  contained n -> bound n ->
  contained (qdwin_nested_toplevel_resource_destroy seats r n) /\ bound (qdwin_nested_toplevel_resource_destroy seats r n).
Proof.
  intros C B. unfold qdwin_nested_toplevel_resource_destroy. destruct (nt_of r n) as [nt|] eqn:Ef; [|done].
  apply List.find_some in Ef as [I Er]. zbool. apply list_elem_of_In in I.
  set (keep := fun x : nested_toplevel => negb (nt_res x =? r)).
  assert (Kin : forall x l, x ∈ List.filter keep l <-> x ∈ l /\ nt_res x <> r).
  { intros x l. rewrite !list_elem_of_In, List.filter_In. unfold keep. rewrite negb_true_iff, Z.eqb_neq. done. }
  assert (Cnt : forall (u : Z) l, (length (List.filter (fun t => nt_origin_uid t =? u)%Z (List.filter keep l)) <= length (List.filter (fun t => nt_origin_uid t =? u)%Z l))%nat).
  { intros u l. induction l as [|x l IH]; [done|]. cbn. destruct (keep x); cbn; destruct (_ =? u); cbn [length]; lia. }
  destruct (nt_proxy nt) as [h|] eqn:Ep.
  - destruct (bd_proxy _ B nt h I Ep) as (t & F & P & o1 & o2 & o3). set (n1 := upd_np h _ n).
    assert (C1 : contained n1) by (by apply contained_np).
    destruct (destroy_spec seats h n1 t C1 F P) as (C2 & d1 & d2 & d3 & d4 & d5 & _). set (n2 := qdwin_nested_proxy_destroy seats h n1) in *.
    split; [by apply (contained_nts n2 (List.filter keep (nested_toplevels n2)))|].
    assert (E2 : nested_toplevels (n2 <| nested_toplevels ::= List.filter keep |>) = List.filter keep (nested_toplevels n))
      by (cbn; rewrite d2; done).
    apply (bound_forget n _ h r B); try done.
    + rewrite o2. by rewrite Er.
    + by exists t.
    + intros h' N. change (nproxies n2 !! h' = nproxies n !! h'). rewrite d3, lookup_delete_ne by done.
      change (alter (fun p => p <| np_owner := None |>) h (nproxies n) !! h' = nproxies n !! h'). by rewrite lookup_alter_ne.
    + rewrite E2. apply nodup_filter_key, (bd_res _ B).
    + intros x. rewrite E2. intros ?%Kin. by left.
    + intros x Ix Nr. rewrite E2. by apply Kin.
    + intros u. unfold qdwin_nested_count_for_uid. rewrite E2. specialize (Cnt u (nested_toplevels n)). lia.
  - split; [by apply (contained_nts n (List.filter keep (nested_toplevels n)))|]. destruct B as [b1 b2 b3 b4 b5 b6 b7 b8].
    split; try done; cbn.
    + by apply nodup_filter_key.
    + intros x [Ix _]%Kin. by apply b2.
    + intros x h [Ix _]%Kin E. by apply b3.
    + intros h t F P. destruct (b4 h t F P) as (x & Ix & o1 & o2 & o3). exists x. split; [|by split_and!]. apply Kin. split; [done|].
      intros Ex. assert (x = nt) as -> by (apply (key_unique nt_res (nested_toplevels n)); [done|done|done|congruence]). congruence.
    + intros u. specialize (b8 u). unfold qdwin_nested_count_for_uid in *. cbn. specialize (Cnt u (nested_toplevels n)). lia.
Qed.
End identity.
