(* ===== verification/NestedTheorems.v ===== *)
(** * NestedTheorems: what the outer compositor guarantees about nested windows

    Runs of the nested protocol with the shell's decisions, the pixel feed, the
    pointer and the clients' surfaces interleaved in any order. *)

From Stdlib Require Import Ascii String.
From stdpp Require Import base list gmap strings option fin_sets.
From S2P Require Import Prelude Logic Scene State Toplevel ToplevelFacts Dependents Focus Config Workspace Session SessionFacts Desk Pointer PointerFacts LayerShell InputSink Nested NestedFacts NestedInvariant NestedIdentity.
From stdpp Require Import list.
Import Policy.
#[local] Open Scope Z_scope.

(** ** Surfaces of clients across a destroy signal *)

Definition client_surface (s : Z) (d : desk) : Prop := exists w c, wsurfaces d !! s = Some w /\ ws_client w = Some c.

Lemma client_pixel_destroyed s h n : client_surface s (nd n) -> client_surface s (nd (qdwin_proxy_pixel_surface_destroyed h n)).
Proof.
  intros H. unfold qdwin_proxy_pixel_surface_destroyed. destruct (proxy_of h n) as [t|]; [|done]. destruct (nproxies n !! h) as [p|]; [|done].
  cbv zeta. set (n1 := drop_feed h n).
  assert (H1 : client_surface s (nd n1)).
  { unfold n1, drop_feed. destruct (proxy_of h n) as [t0|]; [|done]. destruct (nproxies n !! h) as [p0|]; [|done].
    destruct (_ && _); [done|]. by destruct (np_pixel_view p0). }
  clearbody n1. case_bool_decide; [done|].
  destruct (weston_shell_utils_curtain_create _ _ _ _ _ (nd n1)) as [[[v s0]|] d] eqn:E.
  - apply curtain_some in E as (_ & N & Ws & _). change (client_surface s d). destruct H1 as (w & c & E1 & E2).
    exists w, c. rewrite Ws. by rewrite lookup_insert_ne by congruence.
  - by apply curtain_none in E as ->.
Qed.

Lemma contained_surface_destroyed s n : contained n -> client_surface s (nd n) -> contained (client_surface_destroyed s n).
Proof.
  intros C H. unfold client_surface_destroyed. cbv zeta.
  set (l := map handle (List.filter (listens_to s n) (tls n))).
  assert (Hl : forall h, h ∈ l -> exists t, find_tl h (tls n) = Some t /\ is_nested_proxy t = true).
  { intros h. unfold l. rewrite list_elem_of_In, in_map_iff. intros (t & <- & I). apply List.filter_In in I as [I L].
    exists t. split; [apply find_tl_in; [apply (co_nodup _ C)|by apply list_elem_of_In]|].
    unfold listens_to in L. by destruct (is_nested_proxy t). }
  clearbody l.
  assert (R : contained (foldl (fun n h => qdwin_proxy_pixel_surface_destroyed h n) n l)
    /\ client_surface s (nd (foldl (fun n h => qdwin_proxy_pixel_surface_destroyed h n) n l))).
  { revert n C H Hl. induction l as [|h l IH]; intros n C H Hl; [done|]. cbn [foldl]. apply IH.
    - apply contained_pixel_destroyed; [done|]. intros t F. destruct (Hl h) as (t0 & F0 & P0); [by left|]. congruence.
    - by apply client_pixel_destroyed.
    - intros h1 I1. destruct (Hl h1) as (t0 & F0 & P0); [by right|].
      pose proof (ke_tls _ _ _ (keeps_pixel_destroyed h n) h1) as K. rewrite F0 in K. cbn in K.
      destruct (find_tl h1 (tls (qdwin_proxy_pixel_surface_destroyed h n))) as [t1|]; [|done]. exists t1. split; [done|].
      cbn in K. unfold ident in K. congruence. }
  destruct R as [C1 (w & c & E1 & E2)]. set (m := foldl _ n l) in *. clearbody m.
  change (contained (m <| nd := (nd m) <| wsurfaces ::= delete s |> |>)).
  refine (contained_surfaces m ((nd m) <| wsurfaces ::= delete s |>) C1 _ _ _ _ _); [done|done|done|done|].
  intros s1 w1 E3 E4. cbn. rewrite lookup_delete_ne; [done|]. intros <-. congruence.
Qed.

(** ** Which operations change a remote identity *)

Definition same_remote (n n' : nested) : Prop :=
  forall h t t', find_tl h (tls n) = Some t -> find_tl h (tls n') = Some t' -> proxy_remote t' = proxy_remote t.

Lemma same_remote_eq n n' : tls n' = tls n -> same_remote n n'.
Proof. intros E h t t' F F'. rewrite E in F'. congruence. Qed.
Lemma same_remote_keeps n n' : keeps n n' -> same_remote n n'.
Proof. intros K h t t' F F'. pose proof (ke_tls _ _ _ K h) as E. rewrite F, F' in E. cbn in E. unfold ident in E. congruence. Qed.
Lemma same_remote_without n n' h0 : tls n' = without h0 (tls n) -> same_remote n n'.
Proof. intros E h t t' F F'. rewrite E, find_without in F'. case_decide; congruence. Qed.

Lemma same_remote_advertise env m1 m2 m3 connect glob peer_of a n :
  contained n -> find_tl (u32_succ (next_handle (base (nd n)))) (tls n) = None ->
  same_remote n (qdwin_nested_manager_advertise_toplevel env m1 m2 m3 connect glob peer_of a n).
Proof.
  intros C Fn. unfold qdwin_nested_manager_advertise_toplevel. cbv zeta. destruct (_ <=? _); [by apply same_remote_eq|].
  destruct (_ || _); [by apply same_remote_eq|]. set (t := mk_nested_toplevel _ _ _ _ _ _ _ _ _ _).
  set (n0 := n <| nested_toplevels ::= cons t |>).
  assert (C0 : contained n0) by (by apply (contained_nts n (t :: nested_toplevels n))).
  destruct (qdwin_nested_proxy_create env m3 (av_tag a) t 800 600 n0) as [proxy n1] eqn:E.
  destruct (create_spec _ _ _ _ _ _ _ _ _ C0 Fn E) as (_ & _ & _ & _ & _ & c5).
  set (n2 := upd_nt _ _ n1). set (n3 := match proxy with Some h => attach_sink _ _ _ h _ _ n2 | None => n2 end).
  assert (E3 : tls n3 = tls n1).
  { unfold n3. destruct proxy as [h|]; [|done]. unfold attach_sink. destruct (String.eqb _ ""); [done|].
    destruct (qdwin_nested_input_sink_connect _ _ _); [|done]. destruct (peer_of _); [|done]. by destruct (negb _). }
  clearbody n3. destruct (match proxy ≫= _ with Some tl => _ | None => _ end) as [cw ch].
  intros h x x' F F'. change (find_tl h (tls n3) = Some x') in F'. rewrite E3 in F'. destruct proxy as [h1|].
  - destruct c5 as (-> & _ & t1 & T1 & T2 & _). rewrite T1, find_cons, T2 in F'. change (tls n0) with (tls n) in F'.
    destruct (Z.eqb_spec (u32_succ (next_handle (base (nd n0)))) h) as [<-|]; [|congruence].
    change (u32_succ (next_handle (base (nd n0)))) with (u32_succ (next_handle (base (nd n)))) in F. congruence.
  - destruct c5 as [T1 _]. rewrite T1 in F'. change (tls n0) with (tls n) in F'. congruence.
Qed.

Lemma same_remote_deny seats h n t : contained n -> find_tl h (tls n) = Some t -> is_nested_proxy t = true ->
  same_remote n (deny_proxy seats h n).
Proof.
  intros C F P. unfold deny_proxy. set (n1 := match _ with Some r => _ | None => n end).
  assert (R : contained n1 /\ tls n1 = tls n).
  { unfold n1. destruct (_ ≫= _) as [r|]; [|done]. split; [|done]. apply contained_np; [|done]. apply contained_nt, contained_nemit, C. }
  destruct R as [C1 E1]. clearbody n1. rewrite <- E1 in F. destruct (destroy_spec seats h n1 t C1 F P) as (_ & d1 & _).
  apply (same_remote_without _ _ h). by rewrite d1, E1.
Qed.

Lemma same_remote_resource_destroy seats r n : contained n -> same_remote n (qdwin_nested_toplevel_resource_destroy seats r n).
Proof.
  intros C. unfold qdwin_nested_toplevel_resource_destroy. destruct (nt_of r n) as [nt|]; [|by apply same_remote_eq].
  destruct (nt_proxy nt) as [h|]; [|by apply same_remote_eq]. set (n1 := upd_np h _ n).
  assert (C1 : contained n1) by (by apply contained_np). destruct (find_tl h (tls n1)) as [t|] eqn:F.
  - destruct (is_nested_proxy t) eqn:P.
    + destruct (destroy_spec seats h n1 t C1 F P) as (_ & d1 & _). by apply (same_remote_without _ _ h).
    + unfold qdwin_nested_proxy_destroy. rewrite proxy_of_find, F, P. by apply same_remote_eq.
  - unfold qdwin_nested_proxy_destroy. rewrite proxy_of_find, F. by apply same_remote_eq.
Qed.

(** ** Runs *)

Section runs.
(** The user the kernel reports for a client. *)
Variable peer_uid : Z -> Z.

(** A request that sets a remote identity is labelled with its resource, what
    /proc gives as the executable of the client that sends it, and the identity
    it names. *)
Inductive nested_label :=
| remote_request (r : Z) (exe : option string) (machine domain stream : string) (generation : Z)
| quiet.

Inductive nested_step : nested_label -> nested -> nested -> Prop :=
| ns_advertise env m1 m2 m3 connect glob peer_of a n :
    av_peer_uid a = peer_uid (av_client a) -> av_id a ∉ map nt_res (nested_toplevels n) ->
    find_tl (u32_succ (next_handle (base (nd n)))) (tls n) = None ->
    (forall p fd, connect p = Some fd -> sink_peers n !! fd = None) ->
    nested_step quiet n (qdwin_nested_manager_advertise_toplevel env m1 m2 m3 connect glob peer_of a n)
| ns_resource_destroyed seats r n : nested_step quiet n (qdwin_nested_toplevel_resource_destroy seats r n)
| ns_title r s n : nested_step quiet n (qdwin_nested_toplevel_set_title r s n)
| ns_app_id r s n : nested_step quiet n (qdwin_nested_toplevel_set_app_id r s n)
| ns_geometry r w h n : nested_step quiet n (qdwin_nested_toplevel_set_geometry r w h n)
| ns_remote exe alloc r m d s hi lo n :
    nested_step (remote_request r exe m d s (Z.lor (Z.shiftl hi 32) lo)) n
      (qdwin_nested_toplevel_set_remote_identity exe alloc r m d s hi lo n)
| ns_decision res seats h dec n : nested_step quiet n (qdwin_handle_nested_proxy_decision res seats h dec n)
(* the shell's chrome request: it and [attach_decoration] ask for the release of
   a held window by the same call, and that is where a pending one is kept back *)
| ns_border res h rgba n : nested_step quiet n (on_qdwin (qdwin_handle_set_border_color res h rgba) n)
| ns_bind_pixels res uid h s n : nested_step quiet n (qdwin_handle_bind_proxy_pixels res uid h s n)
| ns_surface_destroyed s n : client_surface s (nd n) -> nested_step quiet n (client_surface_destroyed s n)
(* a client creates or commits a surface: its input region is what it says *)
| ns_commit s w n : ws_client w <> None -> wsurfaces (nd n) !! s = None \/ client_surface s (nd n) ->
    nested_step quiet n (on_desk (fun d => d <| wsurfaces ::= <[s := w]> |>) n)
| ns_close h n : nested_step quiet n (qdwin_nested_proxy_send_close h n)
| ns_pointer i x n : nested_step quiet n (on_desk (default_grab_input i x) n)
| ns_repaint l n : nested_step quiet n (on_desk (fun d => d <| view_list := l |>) n)
| ns_shell b r n : nested_step quiet n (on_qdwin (fun q => q <| shell_bound := b |> <| shell_resource := r |>) n)
| ns_memory b n : nested_step quiet n (on_qdwin (fun q => q <| oom := b |>) n).

(** A compositor with ordinary windows and no nested ones. *)
Record nested_start (n : nested) : Prop := {
  st_windows : forall t, t ∈ tls n -> is_nested_proxy t = false;
  st_nodup : NoDup (map handle (tls n));
  st_views : forall t, t ∈ tls n -> Forall (fun v => v < next_view (base (nd n))) (tl_views t);
  st_layers : Forall (fun v => 0 < v < next_view (base (nd n))) (layer_view_list (nd n));
  st_null : view_surface (nd n) !! NULL_VIEW = None /\ 0 < next_view (base (nd n));
  st_active : active_input_proxy (nd n) = None;
  st_none : nested_toplevels n = [] /\ input_sinks (nd n) = ∅ /\ sink_peers n = ∅
}.

Inductive nested_run : nested -> Prop :=
| nr_start n : nested_start n -> nested_run n
| nr_step l n n' : nested_run n -> nested_step l n n' -> nested_run n'.

Lemma start_ok n : nested_start n -> contained n /\ bound peer_uid n.
Proof.
  intros [s1 s2 s3 s4 s5 s6 (s7 & s8 & s9)].
  assert (Np : forall h t, find_tl h (tls n) = Some t -> is_nested_proxy t = true -> False).
  { intros h t [_ I]%find_tl_handle P. rewrite (s1 t I) in P. done. }
  split; split; try (intros; exfalso; solve [eauto]).
  - done.
  - intros h t [_ I]%find_tl_handle. by apply s3.
  - intros v Hv. rewrite Forall_forall in s4. split; [by apply s4|]. intros h t F P. by destruct (Np h t F P).
  - done.
  - intros h E. congruence.
  - rewrite s7. constructor.
  - intros nt I. rewrite s7 in I. by apply elem_of_nil in I.
  - intros nt h I. rewrite s7 in I. by apply elem_of_nil in I.
  - intros h fd E. rewrite s8 in E. by rewrite lookup_empty in E.
  - intros h h' fd E. rewrite s8 in E. by rewrite lookup_empty in E.
  - intros fd u E. rewrite s9 in E. by rewrite lookup_empty in E.
  - intros u. unfold qdwin_nested_count_for_uid. rewrite s7. cbn. done.
Qed.

(** The step sets a remote identity, as its label says. *)
Definition sets_remote (l : nested_label) (n n' : nested) : Prop :=
  exists exe alloc r m d s hi lo, l = remote_request r exe m d s (Z.lor (Z.shiftl hi 32) lo)
    /\ n' = qdwin_nested_toplevel_set_remote_identity exe alloc r m d s hi lo n.

Lemma on_qdwin_ext f g n : f (base (nd n)) = g (base (nd n)) -> on_qdwin f n = on_qdwin g n.
Proof. intros E. unfold on_qdwin, on_desk, on_base, upd_field. cbn. by rewrite E. Qed.

(** A chrome request does not release a window that waits for a decision. *)
Lemma release_chrome h n : contained n -> contained (on_qdwin (qdwin_toplevel_release_holding false h) n).
Proof.
  intros C. destruct (find_tl h (tls n)) as [t|] eqn:F.
  - destruct (proxy_pending t) eqn:P.
    + destruct (windows_release_eq false h (base (nd n)) t F) as [E1 E2].
      rewrite P in E2. cbn [negb andb] in E2. rewrite orb_true_r in E2. by apply contained_base.
    + apply contained_release; [done|]. intros t1 F1. congruence.
  - apply contained_release; [done|]. intros t1 F1. congruence.
Qed.

Lemma border_ok res h rgba n : contained n ->
  contained (on_qdwin (qdwin_handle_set_border_color res h rgba) n)
  /\ keeps n (on_qdwin (qdwin_handle_set_border_color res h rgba) n).
Proof.
  intros C.
  assert (Em : forall e, contained (on_qdwin (emit e) n) /\ keeps n (on_qdwin (emit e) n))
    by (intros e; split; [by apply contained_core|by apply keeps_core]).
  destruct (qdwin_shell_require_bound res (base (nd n))) eqn:Eb.
  2: { rewrite (on_qdwin_ext _ (emit (post_error (res_id res) SHELL_NOT_BOUND))); [apply Em|].
       unfold qdwin_handle_set_border_color, shell_request. by rewrite Eb. }
  destruct (find_tl h (tls n)) as [t|] eqn:F.
  2: { rewrite (on_qdwin_ext _ (emit (post_error (res_id res) SHELL_INVALID_HANDLE))); [apply Em|].
       unfold qdwin_handle_set_border_color, shell_request. rewrite Eb.
       change (qdwin_toplevel_from_handle h (base (nd n))) with (find_tl h (tls n)). by rewrite F. }
  set (f := fun t : toplevel => t <| border_rgba := Some rgba |>).
  rewrite (on_qdwin_ext _ (fun q => qdwin_toplevel_release_holding false h (upd_tl h f q))).
  2: { unfold qdwin_handle_set_border_color, shell_request. rewrite Eb.
       change (qdwin_toplevel_from_handle h (base (nd n))) with (find_tl h (tls n)). by rewrite F. }
  change (on_qdwin (fun q => qdwin_toplevel_release_holding false h (upd_tl h f q)) n)
    with (on_qdwin (qdwin_toplevel_release_holding false h) (on_qdwin (upd_tl h f) n)).
  split.
  - apply release_chrome. apply contained_benign; [done|done|]. intros t1 _. by split_and!.
  - etransitivity; [by apply (keeps_upd ident h f)|apply keeps_release].
Qed.

Lemma step_ok l n n' : nested_step l n n' -> contained n /\ bound peer_uid n ->
  contained n' /\ bound peer_uid n' /\ (same_remote n n' \/ sets_remote l n n').
Proof.
  intros S [C B].
  assert (K : forall m, contained m -> keeps n m -> contained m /\ bound peer_uid m /\ (same_remote n m \/ sets_remote l n m))
    by (intros m Cm Km; split_and!; [done|by eapply bound_keeps, keeps_weaken|left; by apply same_remote_keeps]).
  assert (K0 : contained n /\ bound peer_uid n /\ (same_remote n n \/ sets_remote l n n)) by (by apply K).
  destruct S as [env m1 m2 m3 connect glob peer_of a n U1 U2 U3 U4|seats r n|r s n|r s n|r w h n|exe alloc r m d s hi lo n|res seats h dec n|res h rgba n|res uid h s n|s n Hs|s w n Hw Hs|h n|i x n|l n|b r n|b n].
  - destruct (bound_advertise peer_uid env m1 m2 m3 connect glob peer_of a n C B U1 U2 U3 U4). split_and!; [done|done|].
    left. by apply same_remote_advertise.
  - destruct (bound_resource_destroy peer_uid seats r n C B). split_and!; [done|done|]. left. by apply same_remote_resource_destroy.
  - unfold qdwin_nested_toplevel_set_title, with_nt, with_proxy. destruct (nt_of r n) as [t|]; [|done].
    set (n1 := upd_nt r _ n). assert (C1 : contained n1) by (by apply contained_nt).
    assert (K1 : keeps n n1) by (by apply keeps_nt). clearbody n1. destruct (nt_proxy t) as [h|]; apply K; try done.
    + by apply contained_title.
    + etransitivity; [exact K1|apply keeps_title].
  - unfold qdwin_nested_toplevel_set_app_id, with_nt, with_proxy. destruct (nt_of r n) as [t|]; [|done].
    set (n1 := upd_nt r _ n). assert (C1 : contained n1) by (by apply contained_nt).
    assert (K1 : keeps n n1) by (by apply keeps_nt). clearbody n1. destruct (nt_proxy t) as [h|]; apply K; try done.
    + by apply contained_app_id.
    + etransitivity; [exact K1|apply keeps_app_id].
  - unfold qdwin_nested_toplevel_set_geometry, with_nt, with_proxy. destruct (nt_of r n) as [t|]; [|done].
    set (n1 := upd_nt r _ n). assert (C1 : contained n1) by (by apply contained_nt).
    assert (K1 : keeps n n1) by (by apply keeps_nt). clearbody n1. destruct (nt_proxy t) as [hh|]; apply K; try done.
    + by apply contained_resize.
    + etransitivity; [exact K1|apply keeps_resize].
  - split_and!; [by apply contained_remote| |right; unfold sets_remote; by eauto 10]. eapply bound_keeps; [exact B|].
    unfold qdwin_nested_toplevel_set_remote_identity, with_nt, with_proxy. destruct (nt_of r n) as [t|]; [|done].
    destruct (nt_proxy t) as [h|]; [|done]. destruct (proxy_of h n) as [tl|]; [|done]. cbv zeta.
    destruct (negb _); [apply keeps_nemit|]. destruct (_ || _); [apply keeps_nemit|].
    destruct (proxy_remote tl); [case_bool_decide; [done|apply keeps_nemit]|]. destruct (negb alloc); [apply keeps_nemit|].
    etransitivity; [|apply keeps_core, core_remote_identity]. by apply keeps_upd.
  - unfold qdwin_handle_nested_proxy_decision. destruct (negb _); [apply K; [by apply contained_core|by apply keeps_core]|].
    rewrite proxy_of_find. destruct (find_tl h (tls n)) as [t|] eqn:F; [|done].
    destruct (is_nested_proxy t) eqn:P; [|done]. destruct (proxy_pending t); [|done]. cbn [negb orb].
    destruct (dec =? DECISION_ALLOW); [apply K; [by apply contained_allow|apply keeps_allow]|].
    destruct (dec =? DECISION_DENY); [|done]. destruct (bound_deny peer_uid seats h n t C B F P) as (? & ? & _).
    split_and!; [done|done|]. left. by apply (same_remote_deny seats h n t).
  - destruct (border_ok res h rgba n C). by apply K.
  - apply K; [by apply contained_bind|apply keeps_bind].
  - apply K; [by apply contained_surface_destroyed|apply keeps_surface_destroyed].
  - apply K; [|by apply keeps_desk].
    change (contained (n <| nd := (nd n) <| wsurfaces ::= <[s := w]> |> |>)).
    refine (contained_surfaces n ((nd n) <| wsurfaces ::= <[s := w]> |>) C _ _ _ _ _); [done|done|done|done|].
    intros s1 w1 E1 E2. cbn. rewrite lookup_insert_ne; [done|]. intros <-. destruct Hs as [Hs|(w2 & c & Hs & Hc)]; congruence.
  - unfold qdwin_nested_proxy_send_close. destruct (proxy_of h n) as [t|]; [|done]. destruct (negb _); [done|].
    destruct (_ ≫= _); [|done]. apply K; [by apply contained_nemit|apply keeps_nemit].
  - assert (T : tame (nd n) (default_grab_input i x (nd n))).
    { apply tame_input; [by apply contained_hidden|]. split_and!; [done|apply (co_active _ C)|by apply emits_refl]. }
    destruct T as (T1 & T2 & _). apply surfaces_fields in T1 as (u1 & u2 & _ & u4 & u5 & u6 & u7 & _). apply K.
    + by apply (contained_ext n).
    + by apply keeps_desk.
  - apply K; [|by apply keeps_desk]. apply (contained_ext n); try done. apply (co_active _ C).
  - apply K; [by apply contained_base|by apply keeps_base].
  - apply K; [by apply contained_base|by apply keeps_base].
Qed.

Lemma run_ok n : nested_run n -> contained n /\ bound peer_uid n.
Proof. induction 1 as [n S|l n n' R IH S]; [by apply start_ok|]. by destruct (step_ok l n n' S IH) as (? & ? & _). Qed.

(** C33.  Input never reaches a nested window nobody has approved.  In every run, a
    proxy whose decision is pending is undecorated and shows no client pixels,
    no pointer position picks its view, it is not the proxy input goes to, and
    whatever the pointers report, no packet is written to its input sink. *)
Theorem unapproved_proxy_gets_no_input n h t :
  nested_run n -> proxy_of h n = Some t -> is_nested_proxy t = true -> proxy_pending t = true ->
  decorated t = false /\ (nproxies n !! h ≫= np_pixel_view) = None
  /\ active_input_proxy (nd n) <> Some h
  /\ (forall p, weston_compositor_pick_view p (nd n) <> Some (view t))
  /\ (forall i x fd, input_sinks (nd n) !! h = Some fd ->
       emits (fun e => (forall ev, e <> sink_sent fd ev) /\ (forall b, e <> sink_focus fd b))
         (nd n) (default_grab_input i x (nd n))).
Proof.
  intros R F P Q. destruct (run_ok n R) as [C B]. rewrite proxy_of_find in F.
  destruct (find_tl_handle _ _ _ F) as [Hh It]. destruct (co_box _ C _ _ F P) as (p & Fp & [b1 b2 b3 b4]). destruct (b1 Q) as [b1a b1b].
  pose proof (contained_hidden _ C) as H. destruct (H t It) as [H1 _]; [unfold pending_proxy; by rewrite P, Q|].
  assert (Open : forall t', t' ∈ tls n -> open_proxy t' = true -> handle t' <> h).
  { intros t' I O E. rewrite <- E in F. rewrite (find_tl_in _ _ (co_nodup _ C) I) in F. simplify_eq. unfold open_proxy in O.
    by rewrite Q, andb_false_r in O. }
  split_and!; [done|by rewrite Fp| | |].
  - intros E. destruct (co_active _ C _ E) as (t' & I & E' & O). by apply (Open t').
  - intros q E. by apply pick_not_blind in E.
  - intros i x fd Es.
    assert (T : tame (nd n) (default_grab_input i x (nd n))).
    { apply tame_input; [done|]. split_and!; [done|apply (co_active _ C)|by apply emits_refl]. }
    destruct T as (_ & _ & T). eapply emits_mono; [|exact T]. intros e A.
    assert (No : forall t', t' ∈ tls n -> open_proxy t' = true -> input_sinks (nd n) !! handle t' = Some fd -> False).
    { intros t' I O E. apply (Open t' I O). by eapply (bd_inj _ _ B). }
    split; intros ? ->; cbn in A; destruct A as (t' & I & O & E); by eapply No.
Qed.

(** C36.  A remote identity is set once, by a trusted publisher.  In every step of
    every run, the remote identity of a window that has one does not change
    while the window lives; a window gets one only by a request on its own
    resource, from a client whose executable, as read for that request, is on
    the publishers' list, with names in the accepted form and a non-zero
    generation, and it is the identity that the request names. *)
Theorem remote_identity_set_once l n n' h t t' :
  nested_run n -> nested_step l n n' -> proxy_of h n = Some t -> proxy_of h n' = Some t' ->
  proxy_remote t' = proxy_remote t
  \/ (proxy_remote t = None /\ exists r nt exe machine domain stream generation,
        l = remote_request r exe machine domain stream generation
        /\ nt_of r n = Some nt /\ nt_proxy nt = Some h
        /\ proxy_remote t' = Some (machine, domain, stream, generation)
        /\ qdwin_remote_nested_publisher_allowed exe = true /\ generation <> 0
        /\ qdwin_remote_identity_text_valid machine false = true
        /\ qdwin_remote_identity_text_valid domain false = true
        /\ qdwin_remote_identity_text_valid stream true = true).
Proof.
  intros R S F F'. rewrite proxy_of_find in F, F'.
  destruct (step_ok l n n' S (run_ok n R)) as (_ & _ & [E|(exe & alloc & r & m & d & s & hi & lo & -> & ->)]); [left; by eapply E|].
  revert F'. unfold qdwin_nested_toplevel_set_remote_identity, with_nt, with_proxy.
  assert (Sm : forall n1, tls n1 = tls n -> find_tl h (tls n1) = Some t' -> proxy_remote t' = proxy_remote t).
  { intros n1 E G. rewrite E in G. congruence. }
  destruct (nt_of r n) as [nt|] eqn:Er; [|left; by eapply Sm]. destruct (nt_proxy nt) as [h1|] eqn:Ep; [|left; by eapply Sm].
  rewrite proxy_of_find. destruct (find_tl h1 (tls n)) as [tl|] eqn:F1; [|left; by eapply Sm]. cbv zeta.
  set (gen := Z.lor _ _). destruct (qdwin_remote_nested_publisher_allowed exe) eqn:A; cbn [negb]; [|left; by eapply Sm].
  destruct (Z.eqb_spec gen 0) as [|G]; [left; by eapply Sm|].
  destruct (qdwin_remote_identity_text_valid m false) eqn:V1; [|left; by eapply Sm].
  destruct (qdwin_remote_identity_text_valid d false) eqn:V2; [|left; by eapply Sm].
  destruct (qdwin_remote_identity_text_valid s true) eqn:V3; [|left; by eapply Sm]. cbn [negb orb].
  destruct (proxy_remote tl) as [old|] eqn:Ro; [case_bool_decide; left; by eapply Sm|]. destruct alloc; cbn [negb]; [|left; by eapply Sm].
  set (n1 := on_qdwin (upd_tl h1 _) n). set (tl' := tl <| proxy_remote := _ |>). intros F'.
  assert (E : tls (on_qdwin (qdwin_emit_nested_proxy_remote_identity tl') n1) = tls n1)
    by apply (core_field toplevels _ _ ltac:(done) (core_remote_identity tl' (base (nd n1)))).
  rewrite E in F'.
  apply find_map_upd in F' as (t0 & F0 & ->); [|done]. rewrite F in F0. simplify_eq.
  destruct (Z.eqb_spec h h1) as [->|]; [|by left]. rewrite F in F1. simplify_eq. right. split; [done|].
  exists r, nt, exe, m, d, s, gen. by split_and!.
Qed.

(** C34.  Nobody speaks for another user.  In every run the user recorded for a
    nested window is the one the kernel reports for the client that advertised
    it, whatever the client claims; at most 64 windows are advertised per user;
    every proxy belongs to a live resource; the input sink of a proxy is a
    socket whose peer runs as that user, and the descriptors held are exactly
    those sinks. *)
Theorem nested_identity_bound n :
  nested_run n ->
  (forall nt, nt ∈ nested_toplevels n -> nt_origin_uid nt = peer_uid (nt_client nt))
  /\ (forall u, qdwin_nested_count_for_uid u n <= QDWIN_NESTED_TOPLEVEL_CAP_PER_UID)
  /\ (forall h t, proxy_of h n = Some t -> is_nested_proxy t = true ->
       exists nt, nt ∈ nested_toplevels n /\ nt_proxy nt = Some h /\ proxy_origin_uid t = peer_uid (nt_client nt))
  /\ (forall h fd, input_sinks (nd n) !! h = Some fd ->
       exists t, proxy_of h n = Some t /\ is_nested_proxy t = true /\ sink_peers n !! fd = Some (proxy_origin_uid t))
  /\ (forall fd, is_Some (sink_peers n !! fd) <-> exists h, input_sinks (nd n) !! h = Some fd).
Proof.
  intros R. destruct (run_ok n R) as [C [b1 b2 b3 b4 b5 b6 b7 b8]]. split_and!; try done.
  - intros h t F P. destruct (b4 h t F P) as (nt & I & o1 & o2 & o3). exists nt. split_and!; [done|done|]. by rewrite o3, b2.
  - intros fd. split; [intros [u E]; by eapply b7|]. intros [h E]. destruct (b5 h fd E) as (t & _ & _ & S). by exists (proxy_origin_uid t).
Qed.
End runs.

(** ** The decision *)











(** ** A concrete run *)

(** A window and a panel; the shell is bound. *)
Definition nw_desk : desk :=
  pt_desk <| pointers := [mk_pointer 1 ptr_default None (0, 0) true] |> <| lpopups := [] |> <| xdg_popups := ∅ |>
          <| base ::= (fun q => q <| shell_bound := true |> <| shell_resource := Some (mk_resource 3 34 2) |>) |>.
Definition nw_start : nested := mk_nested nw_desk [] ∅ ∅ [].
Definition nw_uid (client : Z) : Z := 1000.
Definition nw_peer (fd : Z) : option Z := Some 1000.
Definition nw_connect (path : string) : option Z := if String.eqb path "/run/sink" then Some 40 else None.
(** A client of user 1000 that claims to be root. *)
Definition nw_advert : advert := mk_advert 20 1000 30 50 "node" "/run/sink" "org.app" "Title" 0 None.
Definition nw_env : nested_env := mk_nested_env false false false.

(** The window is advertised, and its feed binds before the shell decides. *)
Definition nw_advertised : nested :=
  qdwin_nested_manager_advertise_toplevel nw_env true true true nw_connect (fun _ => []) nw_peer nw_advert nw_start.
Definition nw_committed : nested :=
  on_desk (fun d => d <| wsurfaces ::= <[300 := mk_wsurface 800 600 true None (Some 21) 300 everywhere]> |>) nw_advertised.
Definition nw_waiting : nested := qdwin_handle_bind_proxy_pixels 3 1000 2 (Some 300) nw_committed.
Definition nw_tl : toplevel := default ex_toplevel (proxy_of 2 nw_waiting).

Lemma nw_run : nested_run nw_uid nw_waiting.
Proof.
  apply (nr_step nw_uid quiet nw_committed); [apply (nr_step nw_uid quiet nw_advertised); [apply (nr_step nw_uid quiet nw_start); [apply nr_start|]|]|].
  - split; try done.
    + intros t Ht. change (t ∈ [ex_toplevel]) in Ht. apply list_elem_of_singleton in Ht as ->. done.
    + change (NoDup [1]). apply NoDup_singleton.
    + intros t Ht. change (t ∈ [ex_toplevel]) in Ht. apply list_elem_of_singleton in Ht as ->. vm_compute. by repeat constructor.
    + vm_compute. by repeat constructor.
  - apply ns_advertise; [done|apply not_elem_of_nil|vm_compute; reflexivity|]. intros p fd _. apply lookup_empty.
  - unfold nw_committed. apply ns_commit; [done|]. left. vm_compute. reflexivity.
  - unfold nw_waiting. apply ns_bind_pixels.
Defined.

Example nw_waits :
  proxy_of 2 nw_waiting = Some nw_tl /\ is_nested_proxy nw_tl = true /\ proxy_pending nw_tl = true
  /\ proxy_pixel_surface nw_tl = Some 300 /\ proxy_origin_uid nw_tl = 1000 /\ input_sinks (nd nw_waiting) !! 2 = Some 40.
Proof. vm_compute. by split_and!. Qed.

Lemma unapproved_proxy_gets_no_input_witness :
  proxy_pending nw_tl = true /\ active_input_proxy (nd nw_waiting) <> Some 2
  /\ (forall p, weston_compositor_pick_view p (nd nw_waiting) <> Some (view nw_tl)).
Proof.
  split; [vm_compute; reflexivity|].
  destruct (unapproved_proxy_gets_no_input nw_uid nw_waiting 2 nw_tl nw_run) as (_ & _ & A & B & _); [vm_compute; reflexivity..|].
  split; [exact A|exact B].
Defined.

Lemma nested_identity_bound_witness :
  exists t, proxy_of 2 nw_waiting = Some t /\ is_nested_proxy t = true /\ sink_peers nw_waiting !! 40 = Some (proxy_origin_uid t).
Proof.
  destruct (nested_identity_bound nw_uid nw_waiting nw_run) as (_ & _ & _ & A & _). apply (A 2 40). vm_compute. reflexivity.
Defined.


Definition nw_viewer : option string := Some "/usr/bin/qdistro-mm-remote-viewer-helper".
Definition nw_remote : nested :=
  qdwin_nested_toplevel_set_remote_identity nw_viewer true 50 "host-a" "domain:1" "stream-0123456789" 0 7 nw_waiting.

Lemma remote_identity_set_once_witness :
  let t' := default ex_toplevel (proxy_of 2 nw_remote) in
  proxy_remote nw_tl = None /\ exists nt,
    nt_of 50 nw_waiting = Some nt /\ nt_proxy nt = Some 2
    /\ proxy_remote t' = Some ("host-a", "domain:1", "stream-0123456789", 7)%string
    /\ qdwin_remote_nested_publisher_allowed nw_viewer = true.
Proof.
  set (t' := default ex_toplevel (proxy_of 2 nw_remote)).
  destruct (remote_identity_set_once nw_uid
    (remote_request 50 nw_viewer "host-a" "domain:1" "stream-0123456789" 7) nw_waiting nw_remote 2 nw_tl t' nw_run)
    as [A|(A & r & nt & exe & m & d & s & g & E & B & C & D & F & _)].
  - apply (ns_remote nw_uid nw_viewer true 50 "host-a" "domain:1" "stream-0123456789" 0 7).
  - vm_compute. reflexivity.
  - vm_compute. reflexivity.
  - vm_compute in A. discriminate A.
  - injection E as <- <- <- <- <- <-. split; [exact A|]. exists nt. by split_and!.
Defined.

(** The identity is set; a second one is refused. *)
Example remote_identity_taken :
  proxy_remote (default ex_toplevel (proxy_of 2 nw_remote)) = Some ("host-a", "domain:1", "stream-0123456789", 7)%string
  /\ nevents (qdwin_nested_toplevel_set_remote_identity nw_viewer true 50 "host-b" "domain:1" "stream-0123456789" 0 7 nw_remote)
     = nested_error 50 "remote_identity_immutable" :: nevents nw_remote.
Proof. vm_compute. done. Qed.

(** ** Two surprises *)

(** Approving a window while another workspace is active hides it: its
    workspace is 0, not the active one. *)
Example approved_on_hidden_workspace :
  let n := on_qdwin (fun q => q <| active_workspace := 1 |>) nw_waiting in
  let n' := qdwin_handle_nested_proxy_decision (mk_resource 3 34 2) [] 2 DECISION_ALLOW n in
  (fun t => view_layer (view t) (the_scene (base (nd n')))) <$> proxy_of 2 n' = Some (Some workspace_hidden_layer).
Proof. vm_compute. reflexivity. Qed.

(** A second feed that cannot get a view leaves the window with nothing to
    show, neither feed nor curtain. *)
Example failed_respawn_leaves_nothing :
  let n := qdwin_handle_nested_proxy_decision (mk_resource 3 34 2) [] 2 DECISION_ALLOW nw_waiting in
  let n' := qdwin_handle_bind_proxy_pixels 3 1000 2 (Some 300) (on_qdwin (fun q => q <| oom := true |>) n) in
  (fun t => (view t, proxy_curtain t)) <$> proxy_of 2 n' = Some (NULL_VIEW, false).
Proof. vm_compute. reflexivity. Qed.
