(* ===== verification/Cursor.v ===== *)
(** * Cursor: pointer sprites, shapes, and the sprites of the shell

    wp_cursor_shape_v1 and [qdwin_shell_v1.set_cursor_sprite] in [qdwin.c], with
    what libweston does to a pointer's sprite ([pointer_set_cursor], motion,
    hot-unplug, the commit and the end of a surface).  A view or a surface is
    the address it was allocated at: an address is free again once its object
    is gone.  Tablet tools are not modelled. *)

From Stdlib Require Import String.
From stdpp Require Import base list gmap gmultiset strings option fin_sets.
From S2P Require Import Prelude Logic.
From stdpp Require Import list.
Import Policy.
#[local] Open Scope Z_scope.

(** ** Shapes *)

Definition SHAPE_DEFAULT : Z := 1.
Definition SHAPE_ALL_RESIZE : Z := 36.

Definition qdwin_cursor_shape_name (shape : Z) : string :=
  match shape with
  | 1 => "default" | 2 => "context-menu" | 3 => "help" | 4 => "pointer" | 5 => "progress" | 6 => "wait"
  | 7 => "cell" | 8 => "crosshair" | 9 => "text" | 10 => "vertical-text" | 11 => "alias" | 12 => "copy"
  | 13 => "move" | 14 => "no-drop" | 15 => "not-allowed" | 16 => "grab" | 17 => "grabbing"
  | 18 => "e-resize" | 19 => "n-resize" | 20 => "ne-resize" | 21 => "nw-resize" | 22 => "s-resize"
  | 23 => "se-resize" | 24 => "sw-resize" | 25 => "w-resize" | 26 => "ew-resize" | 27 => "ns-resize"
  | 28 => "nesw-resize" | 29 => "nwse-resize" | 30 => "col-resize" | 31 => "row-resize" | 32 => "all-scroll"
  | 33 => "zoom-in" | 34 => "zoom-out" | 35 => "dnd-ask" | 36 => "all-resize"
  | _ => "other"
  end%string.

(** The images loaded at start: [load] is the theme library at the chosen size. *)
Definition qdwin_cursor_theme_load {I} (env_size : option Z) (load : string -> Z -> option I) : Z * gmap Z I :=
  let size := match env_size with Some n => if n <=? 0 then 24 else n | None => 24 end in
  (size, foldl (fun m s =>
           let name := qdwin_cursor_shape_name s in
           if String.eqb name "other" then m
           else match load name size with Some i => <[s := i]> m | None => m end)
         ∅ (map Z.of_nat (seq 1 (Z.to_nat SHAPE_ALL_RESIZE)))).

(** ** State *)

Definition region := Z -> Z -> bool.
Definition no_region : region := fun _ _ => false.
Definition all_region : region := fun _ _ => true.

(** [surface->committed] with the pointer in [committed_private]. *)
Inductive hook := weston_hook | qdwin_hook.

Record csurf := mk_csurf {
  su_internal : bool;                                 (* made by the plugin, no client *)
  su_role : option string; su_mapped : bool; su_width : Z; su_height : Z;
  su_input : region; su_pending : region; su_hook : option (hook * Z)
}.
#[global] Instance eta_csurf : Eta csurf := fun r =>
  mk_csurf (su_internal r) (su_role r) (su_mapped r) (su_width r) (su_height r) (su_input r) (su_pending r) (su_hook r).

(** A [weston_pointer]: [cp_listen] is the surface whose destroy signal its
    sprite listener is on; [cp_focus] the client of the focused surface;
    [cp_present] that a device is plugged in; [cp_tracked] that the plugin's
    focus listener is installed. *)
Record cptr := mk_cptr {
  cp_id : Z; cp_pos : Z * Z; cp_hotspot : Z * Z; cp_sprite : option Z; cp_listen : option Z;
  cp_focus : option Z; cp_present : bool; cp_tracked : bool
}.
#[global] Instance eta_cptr : Eta cptr := fun r =>
  mk_cptr (cp_id r) (cp_pos r) (cp_hotspot r) (cp_sprite r) (cp_listen r) (cp_focus r) (cp_present r) (cp_tracked r).

(** A slot with a surface has its two listeners on it. *)
Record cslot := mk_cslot { sl_surface : option Z; sl_hotspot : Z * Z }.
Definition empty_slot : cslot := mk_cslot None (0, 0).

(** [dv_solid] is [sprite_surface], which comes and goes with
    [sprite_buffer_ref]. *)
Record cdev := mk_cdev { dv_res : Z; dv_pointer : option Z; dv_view : option Z; dv_solid : option Z; dv_shape : Z }.
#[global] Instance eta_cdev : Eta cdev := fun r =>
  mk_cdev (dv_res r) (dv_pointer r) (dv_view r) (dv_solid r) (dv_shape r).

(** [c_crashed] records an assertion of libweston that failed, or a use of
    freed memory; [c_sources] counts the timers allocated and not removed. *)
Record cursors := mk_cursors {
  c_surfs : gmap Z csurf;
  c_views : gmap Z Z;
  c_vpos : gmap Z (Z * Z);
  c_layer : gset Z;                                   (* the views on the cursor layer *)
  c_ptrs : list cptr;
  c_slots : gmap Z cslot;
  c_devs : list cdev;
  c_retry : bool;
  c_sources : Z;
  c_errors : list (Z * string);
  c_crashed : bool
}.
#[global] Instance eta_cursors : Eta cursors := fun r =>
  mk_cursors (c_surfs r) (c_views r) (c_vpos r) (c_layer r) (c_ptrs r) (c_slots r) (c_devs r) (c_retry r)
    (c_sources r) (c_errors r) (c_crashed r).

Definition upd_surf (s : Z) (f : csurf -> csurf) (w : cursors) : cursors := w <| c_surfs ::= alter f s |>.
Definition upd_ptr (p : Z) (f : cptr -> cptr) (w : cursors) : cursors :=
  w <| c_ptrs ::= map (fun x => if cp_id x =? p then f x else x) |>.
Definition upd_dev (r : Z) (f : cdev -> cdev) (w : cursors) : cursors :=
  w <| c_devs ::= map (fun x => if dv_res x =? r then f x else x) |>.
Definition ptr_of (p : Z) (w : cursors) : option cptr := List.find (fun x => cp_id x =? p) (c_ptrs w).
Definition dev_of (r : Z) (w : cursors) : option cdev := List.find (fun x => dv_res x =? r) (c_devs w).
Definition slot_of (shape : Z) (w : cursors) : cslot := default empty_slot (c_slots w !! shape).
Definition crash (w : cursors) : cursors := w <| c_crashed := true |>.

(** ** libweston *)

Definition views_of (s : Z) (w : cursors) : gset Z :=
  dom (filter (fun p => snd p = s) (c_views w)).

Definition unmap_surf (s : Z) (w : cursors) : cursors :=
  w ~> upd_surf s (fun u => u <| su_mapped := false |>)
    ~> (fun w => w <| c_layer ::= (fun l => l ∖ views_of s w) |>).

Definition drop_view (v : Z) (w : cursors) : cursors :=
  w <| c_views ::= delete v |> <| c_vpos ::= delete v |> <| c_layer ::= (fun l => l ∖ {[v]}) |>.

Definition is_mapped (s : Z) (w : cursors) : bool := match c_surfs w !! s with Some u => su_mapped u | None => false end.

(** [pointer_unmap_sprite] of libweston clears the hook whoever set it; the
    plugin's version only when it belongs to this pointer. *)
Definition unmap_sprite (any : bool) (p : Z) (w : cursors) : cursors :=
  match ptr_of p w with
  | Some x =>
      match cp_sprite x with
      | None => w
      | Some v =>
          match c_views w !! v with
          | None => crash w
          | Some s =>
              w ~> (fun w => if is_mapped s w then unmap_surf s w else w)
                ~> upd_surf s (fun u => match su_hook u with
                                        | Some (_, p') => if any || (p' =? p) then u <| su_hook := None |> else u
                                        | None => u
                                        end)
                ~> upd_ptr p (fun x => x <| cp_listen := None |>)
                ~> drop_view v
                ~> upd_ptr p (fun x => x <| cp_sprite := None |>)
          end
      end
  | None => crash w
  end.
Definition pointer_unmap_sprite : Z -> cursors -> cursors := unmap_sprite true.
Definition qdwin_pointer_unmap_sprite : Z -> cursors -> cursors := unmap_sprite false.

Definition put_view (v : Z) (pos : Z * Z) (w : cursors) : cursors := w <| c_vpos ::= <[v := pos]> |>.
Definition show_view (v : Z) (w : cursors) : cursors := w <| c_layer ::= (fun l => {[v]} ∪ l) |>.
Definition coord_sub (a b : Z * Z) : Z * Z := (fst a - fst b, snd a - snd b).
Definition clear_input (s : Z) : cursors -> cursors :=
  upd_surf s (fun u => u <| su_pending := no_region |> <| su_input := no_region |>).

(** The sprite of the hook's pointer [p] is on the surface [s]. *)
Definition sprite_on (p s : Z) (w : cursors) : option (cptr * Z) :=
  match ptr_of p w with
  | Some x => match cp_sprite x with
              | Some v => if bool_decide (c_views w !! v = Some s) then Some (x, v) else None
              | None => None
              end
  | None => None
  end.

(** [pointer_cursor_surface_committed] of libweston, which asserts what the
    plugin's version checks; [origin] is the offset of the attach. *)
Definition surface_committed (k : hook) (p s : Z) (origin : Z * Z) (w : cursors) : cursors :=
  match c_surfs w !! s with
  | None => w
  | Some u =>
      if su_width u =? 0 then w
      else match sprite_on p s w with
      | None => match k with weston_hook => crash w | qdwin_hook => w end
      | Some (x, v) =>
          let hs := coord_sub (cp_hotspot x) origin in
          w ~> upd_ptr p (fun x => x <| cp_hotspot := hs |>)
            ~> put_view v (coord_sub (cp_pos x) hs)
            ~> clear_input s
            ~> (fun w => if is_mapped s w then w
                         else w ~> upd_surf s (fun u => u <| su_mapped := true |>) ~> show_view v)
      end
  end.
Definition qdwin_pointer_cursor_surface_committed : Z -> Z -> Z * Z -> cursors -> cursors := surface_committed qdwin_hook.
Definition pointer_cursor_surface_committed : Z -> Z -> Z * Z -> cursors -> cursors := surface_committed weston_hook.

(** *** Commits *)

(** What a commit carries: an attach (of a buffer, or of nothing), the size when
    it changes, the offset, whether the position or the input region was set. *)
Record ccommit := mk_ccommit {
  co_attach : option bool; co_size : option (Z * Z); co_origin : Z * Z; co_pos : bool; co_set_input : bool
}.

Definition within (wd ht x y : Z) : bool := (0 <=? x) && (x <? wd) && (0 <=? y) && (y <? ht).

(** [qdwin_cursor_sprite_on_commit], on the commit signal of every slot's
    surface. *)
Definition qdwin_cursor_sprite_on_commit (s : Z) (w : cursors) : cursors :=
  if existsb (fun sl => bool_decide (sl_surface (snd sl) = Some s)) (map_to_list (c_slots w)) then clear_input s w else w.

(** [surface->committed], called when buffer, size or position changed. *)
Definition call_hook (s : Z) (origin : Z * Z) (w : cursors) : cursors :=
  match c_surfs w !! s ≫= su_hook with
  | Some (k, p) => surface_committed k p s origin w
  | None => w
  end.

Definition weston_surface_apply_state (s : Z) (c : ccommit) (w : cursors) : cursors :=
  match c_surfs w !! s with
  | None => w
  | Some u =>
      let unmapping := bool_decide (co_attach c = Some false) && su_mapped u in
      let size := if unmapping then Some (0, 0) else co_size c in
      w ~> (fun w => if unmapping then unmap_surf s w else w)
        ~> (fun w => match size with
                     | Some (wd, ht) => upd_surf s (fun u => u <| su_width := wd |> <| su_height := ht |>) w
                     | None => w
                     end)
        ~> (fun w => if bool_decide (is_Some (co_attach c)) || bool_decide (is_Some size) || co_pos c
                     then call_hook s (co_origin c) w else w)
        ~> (fun w => if bool_decide (is_Some size) || co_set_input c
                     then upd_surf s (fun u => u <| su_input := (fun x y => su_pending u x y && within (su_width u) (su_height u) x y) |>) w
                     else w)
        ~> qdwin_cursor_sprite_on_commit s
  end.

Definition surface_set_input_region (s : Z) (r : region) : cursors -> cursors :=
  upd_surf s (fun u => u <| su_pending := r |>).

(** A new surface: everything takes input. *)
Definition new_surf : csurf := mk_csurf false None false 0 0 all_region all_region None.

(** The end of a surface: the sprite listener of a pointer, the plugin's slots,
    then its views go. *)
Definition pointer_handle_sprite_destroy (s : Z) : cursors -> cursors :=
  fun w => w <| c_ptrs ::= map (fun x => if bool_decide (cp_listen x = Some s)
                                         then x <| cp_sprite := None |> <| cp_listen := None |> else x) |>.
Definition qdwin_cursor_sprite_on_surface_destroyed (s : Z) : cursors -> cursors :=
  fun w => w <| c_slots ::= fmap (fun sl => if bool_decide (sl_surface sl = Some s) then empty_slot else sl) |>.
Definition weston_surface_unref (s : Z) (w : cursors) : cursors :=
  if bool_decide (c_surfs w !! s = None) then crash w
  else
  w ~> pointer_handle_sprite_destroy s
    ~> qdwin_cursor_sprite_on_surface_destroyed s
    ~> (fun w => w <| c_layer ::= (fun l => l ∖ views_of s w) |>
                   <| c_vpos ::= filter (fun p => fst p ∉ views_of s w) |>
                   <| c_views ::= filter (fun p => snd p <> s) |>)
    ~> (fun w => w <| c_surfs ::= delete s |>).

(** ** Sprites of the plugin *)

Definition CURSOR_ROLE : string := "wl_pointer-cursor".

(** Where the next object goes, given the addresses in use, if anywhere. *)
Notation allocator := (gset Z -> option Z).
Definition add_view (v s : Z) (w : cursors) : cursors := w <| c_views ::= <[v := s]> |>.

(** The sprite of [p] becomes [v], a view of [s]. *)
Definition take_sprite (p v s : Z) (hotspot : Z * Z) (k : hook) (w : cursors) : cursors :=
  w ~> upd_ptr p (fun x => x <| cp_hotspot := hotspot |> <| cp_sprite := Some v |> <| cp_listen := Some s |>)
    ~> upd_surf s (fun u => u <| su_hook := Some (k, p) |>).

Definition pos_of (p : Z) (w : cursors) : Z * Z := match ptr_of p w with Some x => cp_pos x | None => (0, 0) end.

Definition qdwin_install_cursor_sprite_view (alloc : allocator) (p s : Z) (hotspot : Z * Z) (w : cursors) : option Z * cursors :=
  match c_surfs w !! s with
  | None => (None, crash w)
  | Some u =>
      if negb (match su_role u with None => true | Some r => String.eqb r CURSOR_ROLE end) then (None, w)
      else
        let w := upd_surf s (fun u => u <| su_role := Some CURSOR_ROLE |>) w in
        match alloc (dom (c_views w)) with
        | None => (None, w)
        | Some v =>
            (Some v,
             w ~> add_view v s
               ~> qdwin_pointer_unmap_sprite p
               ~> take_sprite p v s hotspot qdwin_hook
               ~> (fun w => put_view v (coord_sub (pos_of p w) hotspot) w)
               ~> upd_surf s (fun u => u <| su_mapped := true |>)
               ~> clear_input s
               ~> show_view v)
        end
  end.

(** *** The pixels of a sprite *)

Inductive shm_format := XRGB8888 | ARGB8888 | other_format.

(** How many of the [n] pixels of a row have a non-zero alpha byte; [None] is a
    read past the pool. *)
Fixpoint row_alpha (data : list Z) (row : Z) (x n : nat) : option Z :=
  match n with
  | O => Some 0
  | S n =>
      match data !! Z.to_nat (row + Z.of_nat x * 4 + 3), row_alpha data row (S x) n with
      | Some a, Some k => Some (if a =? 0 then k else k + 1)
      | _, _ => None
      end
  end.
Fixpoint rows_alpha (data : list Z) (stride pw : Z) (y n : nat) : option Z :=
  match n with
  | O => Some 0
  | S n =>
      match row_alpha data (Z.of_nat y * stride) 0 (Z.to_nat pw), rows_alpha data stride pw (S y) n with
      | Some a, Some k => Some (a + k)
      | _, _ => None
      end
  end.

(** The count for the log, -1 when the buffer cannot be read. *)
Definition opaque_pixels (fmt : shm_format) (pw ph pstride : Z) (data : list Z) : option Z :=
  let sane := (0 <? pw) && (0 <? ph) && (pw * 4 <=? pstride) in
  match fmt with
  | XRGB8888 => if sane then Some (pw * ph) else Some (-1)
  | ARGB8888 => if sane then rows_alpha data pstride pw 0 (Z.to_nat ph) else Some (-1)
  | other_format => Some (-1)
  end.

Definition qdwin_install_default_cursor_on_pointer (alloc : allocator) (p : Z) (w : cursors) : cursors :=
  match sl_surface (slot_of SHAPE_DEFAULT w) with
  | None => w
  | Some s => snd (qdwin_install_cursor_sprite_view alloc p s (sl_hotspot (slot_of SHAPE_DEFAULT w)) w)
  end.

Definition qdwin_default_cursor_on_focus_changed (alloc : allocator) (p : Z) (w : cursors) : cursors :=
  match ptr_of p w with
  | Some x =>
      if bool_decide (is_Some (cp_focus x)) || bool_decide (is_Some (cp_sprite x)) then w
      else qdwin_install_default_cursor_on_pointer alloc p w
  | None => w
  end.

(** Every plugged-in pointer without a sprite gets the default. *)
Definition default_on (alloc : allocator) (w : cursors) (p : Z) : cursors :=
  match ptr_of p w with
  | Some x => if cp_present x && negb (bool_decide (is_Some (cp_sprite x)))
              then qdwin_install_default_cursor_on_pointer alloc p w else w
  | None => w
  end.
Definition default_on_all (alloc : allocator) (w : cursors) : cursors :=
  foldl (default_on alloc) w (map cp_id (c_ptrs w)).

Definition qdwin_cursor_retry_timer_cb (alloc : allocator) (w : cursors) : cursors :=
  (default_on_all alloc w) <| c_retry := false |>.
(** [made] is the success of the timer's allocation. *)
Definition qdwin_cursor_retry_install (made : bool) (w : cursors) : cursors :=
  if c_retry w then w
  else if made then w <| c_retry := true |> <| c_sources ::= Z.succ |>
  else w.

Definition qdwin_cursor_sprite_clear_slot (shape : Z) (w : cursors) : cursors :=
  w <| c_slots ::= <[shape := empty_slot]> |>.

Definition any_pointer (w : cursors) : bool := existsb cp_present (c_ptrs w).

(** [shell] is whether the client is the bound shell; [surface] the surface
    argument, [Some None] when its resource has lost it. *)
Definition qdwin_handle_set_cursor_sprite (alloc : allocator) (made_timer : bool) (shell : bool) (peer_exe : option string)
    (res shape : Z) (surface : option (option Z)) (hotspot : Z * Z) (w : cursors) : cursors :=
  if negb (shell || qdwin_cursor_sprite_peer_allowed peer_exe) then w <| c_errors ::= cons (res, "not_bound"%string) |>
  else if (shape <? 1) || (SHAPE_ALL_RESIZE <? shape) then w <| c_errors ::= cons (res, "invalid_shape"%string) |>
  else
    let w := qdwin_cursor_sprite_clear_slot shape w in
    match surface with
    | None | Some None => w
    | Some (Some s) =>
        w ~> (fun w => w <| c_slots ::= <[shape := mk_cslot (Some s) hotspot]> |>)
          ~> clear_input s
          ~> (fun w => if shape =? SHAPE_DEFAULT
                       then w ~> default_on_all alloc
                              ~> (fun w' => if any_pointer w then w' else qdwin_cursor_retry_install made_timer w')
                       else w)
    end.

(** ** Cursor-shape devices *)

Definition qdwin_cursor_sprite_tear_down (r : Z) (w : cursors) : cursors :=
  match dev_of r w with
  | None => w
  | Some d =>
      w ~> (fun w => match dv_view d with
                     | Some v =>
                         w ~> (fun w => match dv_pointer d with
                                        | Some p =>
                                            match ptr_of p w with
                                            | Some x => if bool_decide (cp_sprite x = Some v) then qdwin_pointer_unmap_sprite p w else w
                                            | None => crash w
                                            end
                                        | None => w
                                        end)
                           ~> upd_dev r (fun d => d <| dv_view := None |>)
                     | None => w
                     end)
        ~> (fun w => match dv_solid d with
                     | Some s => w ~> weston_surface_unref s ~> upd_dev r (fun d => d <| dv_solid := None |>)
                     | None => w
                     end)
  end.

(** [salloc] makes the surface, [made_buffer] is the success of the solid
    buffer. *)
Definition qdwin_cursor_device_install_solid_sprite (alloc salloc : allocator) (made_buffer : bool)
    (r shape : Z) (w : cursors) : cursors :=
  match dev_of r w with
  | Some d =>
      match dv_pointer d with
      | None => w
      | Some p =>
          let w := qdwin_cursor_sprite_tear_down r w in
          match salloc (dom (c_surfs w)) with
          | None => w
          | Some s =>
              if negb made_buffer then w
              else match alloc (dom (c_views w)) with
              | None => w
              | Some v =>
                  w ~> (fun w => w <| c_surfs ::= <[s := new_surf <| su_internal := true |> <| su_width := 24 |> <| su_height := 24 |>]> |>)
                    ~> add_view v s
                    ~> upd_dev r (fun d => d <| dv_solid := Some s |> <| dv_view := Some v |> <| dv_shape := shape |>)
                    ~> qdwin_pointer_unmap_sprite p
                    ~> take_sprite p v s (0, 0) qdwin_hook
              end
          end
      end
  | None => w
  end.

Definition qdwin_cursor_device_install_theme_sprite (alloc : allocator) (r shape : Z) (w : cursors) : cursors :=
  match dev_of r w with
  | Some d =>
      match dv_pointer d, sl_surface (slot_of shape w) with
      | Some p, Some s =>
          let w := qdwin_cursor_sprite_tear_down r w in
          match qdwin_install_cursor_sprite_view alloc p s (sl_hotspot (slot_of shape w)) w with
          | (None, w) => w
          | (Some v, w) => upd_dev r (fun d => d <| dv_view := Some v |> <| dv_shape := shape |>) w
          end
      | _, _ => w
      end
  | None => w
  end.

(** [solid] is QDWIN_CURSOR_SPRITE_SOLID. *)
Definition qdwin_cursor_shape_device_set_shape (alloc salloc : allocator) (made_buffer solid : bool)
    (r shape : Z) (w : cursors) : cursors :=
  if (shape <? 1) || (SHAPE_ALL_RESIZE <? shape) then w <| c_errors ::= cons (r, "invalid_shape"%string) |>
  else if bool_decide (is_Some (sl_surface (slot_of shape w))) then qdwin_cursor_device_install_theme_sprite alloc r shape w
  else if solid then qdwin_cursor_device_install_solid_sprite alloc salloc made_buffer r shape w
  else w.

Definition qdwin_resolve_first_pointer (w : cursors) : option Z :=
  match List.find cp_present (c_ptrs w) with Some x => Some (cp_id x) | None => None end.
Definition qdwin_cursor_shape_manager_get_pointer (r : Z) (w : cursors) : cursors :=
  w <| c_devs ::= cons (mk_cdev r (qdwin_resolve_first_pointer w) None None 0) |>.

Definition qdwin_cursor_shape_device_resource_destroy (r : Z) (w : cursors) : cursors :=
  w ~> qdwin_cursor_sprite_tear_down r
    ~> (fun w => w <| c_devs ::= List.filter (fun d => negb (dv_res d =? r)) |>).

(** ** Pointers come and go *)

Definition qdwin_cursor_device_pointer_destroyed (w : cursors) (r : Z) : cursors :=
  w ~> qdwin_cursor_sprite_tear_down r ~> upd_dev r (fun d => d <| dv_pointer := None |>).

Definition shape_devices_of (p : Z) (w : cursors) : list Z :=
  map dv_res (List.filter (fun d => bool_decide (dv_pointer d = Some p)) (c_devs w)).

Definition weston_pointer_destroy (p : Z) (w : cursors) : cursors :=
  w ~> (fun w => foldl qdwin_cursor_device_pointer_destroyed w (shape_devices_of p w))
    ~> pointer_unmap_sprite p
    ~> (fun w => w <| c_ptrs ::= List.filter (fun x => negb (cp_id x =? p)) |>).

(** The focus of [p] changes; the plugin hears of it when it tracks [p]. *)
Definition pointer_focus (alloc : allocator) (p : Z) (focus : option Z) (w : cursors) : cursors :=
  w ~> upd_ptr p (fun x => x <| cp_focus := focus |>)
    ~> (fun w => match ptr_of p w with
                 | Some x => if cp_tracked x then qdwin_default_cursor_on_focus_changed alloc p w else w
                 | None => w
                 end).

(** The last device is unplugged. *)
Definition weston_seat_release_pointer (alloc : allocator) (p : Z) (w : cursors) : cursors :=
  w ~> pointer_focus alloc p None ~> pointer_unmap_sprite p ~> upd_ptr p (fun x => x <| cp_present := false |>).

Definition weston_pointer_create (p : Z) (w : cursors) : cursors :=
  w <| c_ptrs := c_ptrs w ++ [mk_cptr p (100, 100) (0, 0) None None None true false] |>.
Definition weston_seat_init_pointer (p : Z) (w : cursors) : cursors :=
  match ptr_of p w with
  | Some _ => upd_ptr p (fun x => x <| cp_present := true |>) w
  | None => weston_pointer_create p w
  end.

Definition qdwin_install_pointer_focus_listener_if_needed (alloc : allocator) (p : Z) (w : cursors) : cursors :=
  match ptr_of p w with
  | Some x =>
      if cp_tracked x || negb (cp_present x) then w
      else
        let w := upd_ptr p (fun x => x <| cp_tracked := true |>) w in
        if bool_decide (is_Some (cp_sprite x)) then w else qdwin_install_default_cursor_on_pointer alloc p w
  | None => w
  end.

Definition weston_pointer_move_to_preclamped (p : Z) (pos : Z * Z) (w : cursors) : cursors :=
  match ptr_of p w with
  | Some x =>
      w ~> upd_ptr p (fun x => x <| cp_pos := pos |>)
        ~> (fun w => match cp_sprite x with
                     | Some v => if bool_decide (is_Some (c_views w !! v)) then put_view v (coord_sub pos (cp_hotspot x)) w else crash w
                     | None => w
                     end)
  | None => w
  end.

(** [wl_pointer.set_cursor]; [stale] is the serial test. *)
Definition pointer_set_cursor (alloc : allocator) (client p : Z) (stale : bool) (surface : option Z) (hotspot : Z * Z)
    (w : cursors) : cursors :=
  match ptr_of p w with
  | None => w
  | Some x =>
      if negb (bool_decide (cp_focus x = Some client)) || stale then w
      else match surface with
      | None => pointer_unmap_sprite p w
      | Some s =>
          match c_surfs w !! s with
          | None => w
          | Some u =>
              let same := bool_decide (cp_sprite x ≫= (c_views w !!.) = Some s) in
              if same && bool_decide (cp_hotspot x = hotspot) then w
              else if negb same && negb (match su_role u with None => true | Some r => String.eqb r CURSOR_ROLE end)
              then w <| c_errors ::= cons (p, "role"%string) |>
              else
                w ~> (fun w => if same then upd_ptr p (fun x => x <| cp_hotspot := hotspot |>) w
                               else
                                 let w := w ~> upd_surf s (fun u => u <| su_role := Some CURSOR_ROLE |>) ~> pointer_unmap_sprite p in
                                 match alloc (dom (c_views w)) with
                                 | Some v => w ~> add_view v s ~> take_sprite p v s hotspot weston_hook
                                 | None =>
                                     w ~> upd_ptr p (fun x => x <| cp_hotspot := hotspot |> <| cp_listen := Some s |>)
                                       ~> upd_surf s (fun u => u <| su_hook := Some (weston_hook, p) |>)
                                 end)
                  ~> (fun w => match c_surfs w !! s with
                               | Some u => if su_width u =? 0 then w
                                           else match su_hook u with
                                           | Some (_, p') => pointer_cursor_surface_committed p' s (0, 0) w
                                           | None => crash w
                                           end
                               | None => w
                               end)
          end
      end
  end.

(** The shell exits: its slots are forgotten. *)
Definition qdwin_cursor_theme_destroy (w : cursors) : cursors :=
  w <| c_slots ::= fmap (fun sl => mk_cslot None (sl_hotspot sl)) |>.
