(* ===== verification/CursorFacts.v ===== *)
(** * CursorFacts: the invariant of the sprites *)

From Stdlib Require Import String.
From stdpp Require Import base list gmap strings option fin_sets.
From S2P Require Import Prelude Logic Cursor.
From stdpp Require Import list.
#[local] Open Scope Z_scope.

(** ** The invariant *)

Definition no_input (u : csurf) : Prop := forall x y, su_input u x y = false.
Definition may_be_cursor (u : csurf) : Prop := su_role u = None \/ su_role u = Some CURSOR_ROLE.

(** Nothing is shown. *)
Definition nothing (w : cursors) : Prop :=
  c_views w = ∅ /\ c_layer w = ∅ /\ forall s u, c_surfs w !! s = Some u -> su_hook u = None.

(** The only view is [v], of the surface [s], whose commits go to [p]. *)
Definition showing (p v s : Z) (w : cursors) : Prop :=
  c_views w = {[v := s]} /\ c_layer w ⊆ {[v]}
  /\ (exists u k, c_surfs w !! s = Some u /\ su_hook u = Some (k, p))
  /\ forall s' u', s' <> s -> c_surfs w !! s' = Some u' -> su_hook u' = None.

Definition sprite_ok (w : cursors) : Prop :=
  match c_ptrs w with
  | [] => nothing w
  | [x] => match cp_sprite x with
           | None => cp_listen x = None /\ nothing w
           | Some v => exists s, cp_listen x = Some s /\ showing (cp_id x) v s w
           end
  | _ => False
  end.

Definition slots_ok (w : cursors) : Prop :=
  forall shape s, sl_surface (slot_of shape w) = Some s ->
    exists u, c_surfs w !! s = Some u /\ su_internal u = false /\ no_input u.

Record devs_ok (w : cursors) : Prop := {
  do_res : NoDup (map dv_res (c_devs w));
  do_pointer : forall d p, d ∈ c_devs w -> dv_pointer d = Some p -> p ∈ map cp_id (c_ptrs w);
  do_live : forall d s, d ∈ c_devs w -> dv_solid d = Some s -> exists u, c_surfs w !! s = Some u /\ su_internal u = true;
  do_own : forall d d' s, d ∈ c_devs w -> d' ∈ c_devs w -> dv_solid d = Some s -> dv_solid d' = Some s -> dv_res d = dv_res d';
  do_used : forall s u, c_surfs w !! s = Some u -> su_internal u = true -> exists d, d ∈ c_devs w /\ dv_solid d = Some s
}.

Definition cursor_ok (w : cursors) : Prop := sprite_ok w /\ slots_ok w /\ devs_ok w /\ c_crashed w = false.

(** ** What an operation on sprites leaves alone *)

Record frame (w w' : cursors) : Prop := {
  fr_ptrs : map cp_id (c_ptrs w') = map cp_id (c_ptrs w);
  fr_slots : c_slots w' = c_slots w;
  fr_devs : c_devs w' = c_devs w;
  fr_crashed : c_crashed w' = c_crashed w;
  fr_internal : forall s, su_internal <$> c_surfs w' !! s = su_internal <$> c_surfs w !! s;
  fr_input : forall s u u', c_surfs w !! s = Some u -> c_surfs w' !! s = Some u' -> no_input u -> no_input u';
  fr_role : forall s u u', c_surfs w !! s = Some u -> c_surfs w' !! s = Some u' -> may_be_cursor u -> may_be_cursor u'
}.
#[global] Instance frame_preorder : PreOrder frame.
Proof.
  split; [split; try done; intros s u u' E1 E2; congruence|]. intros a b c [a1 a2 a3 a4 a5 a6 a7] [b1 b2 b3 b4 b5 b6 b7]. split; try congruence;
    intros s u u' E1 E2 N; pose proof (a5 s) as E; rewrite E1 in E; (destruct (c_surfs b !! s) as [ub|] eqn:Eb; [|done]); eauto.
Qed.

Lemma frame_surf s f w : (forall u, su_internal (f u) = su_internal u) -> (forall u, no_input u -> no_input (f u)) ->
  (forall u, may_be_cursor u -> may_be_cursor (f u)) -> frame w (upd_surf s f w).
Proof.
  intros F1 F2 F3. split; try done; unfold upd_surf; cbn.
  - intros s'. destruct (decide (s' = s)) as [->|N]; [rewrite lookup_alter_eq; destruct (c_surfs w !! s); cbn; by rewrite ?F1|by rewrite lookup_alter_ne].
  - intros s' u u' E1. destruct (decide (s' = s)) as [->|N]; [rewrite lookup_alter_eq, E1; cbn; intros [= <-]; auto|].
    rewrite lookup_alter_ne by done. congruence.
  - intros s' u u' E1. destruct (decide (s' = s)) as [->|N]; [rewrite lookup_alter_eq, E1; cbn; intros [= <-]; auto|].
    rewrite lookup_alter_ne by done. congruence.
Qed.
Lemma frame_ptr p f w : (forall x, cp_id (f x) = cp_id x) -> frame w (upd_ptr p f w).
Proof.
  intros F. split; try done; [|intros s u u' E1 E2; cbn in E2; congruence..]. unfold upd_ptr. cbn. rewrite map_map. apply map_ext. intros x.
  destruct (cp_id x =? p); [apply F|done].
Qed.
Lemma frame_same w w' : c_ptrs w' = c_ptrs w -> c_slots w' = c_slots w -> c_devs w' = c_devs w -> c_crashed w' = c_crashed w ->
  c_surfs w' = c_surfs w -> frame w w'.
Proof. intros E1 E2 E3 E4 E5. split; try congruence; intros s; rewrite ?E5; congruence. Qed.

Lemma frame_put v pos w : frame w (put_view v pos w).
Proof. by apply frame_same. Qed.
Lemma frame_show v w : frame w (show_view v w).
Proof. by apply frame_same. Qed.
Lemma frame_clear s w : frame w (clear_input s w).
Proof. by apply frame_surf. Qed.
Lemma frame_errors l w : frame w (w <| c_errors := l |>).
Proof. by apply frame_same. Qed.

Lemma frame_slots w w' : frame w w' -> slots_ok w -> slots_ok w'.
Proof.
  intros [f1 f2 f3 f4 f5 f6 f7] S shape s. unfold slot_of. rewrite f2. intros E. destruct (S shape s E) as (u & E1 & I & N).
  pose proof (f5 s) as E2. rewrite E1 in E2. destruct (c_surfs w' !! s) as [u'|] eqn:E3; [|done]. exists u'. cbn in E2.
  split_and!; [done|congruence|eauto].
Qed.
Lemma frame_devs w w' : frame w w' -> devs_ok w -> devs_ok w'.
Proof.
  intros [f1 f2 f3 f4 f5 f6 f7] [d1 d2 d3 d4 d5]. split; rewrite ?f3, ?f1; auto.
  - intros d s I E. destruct (d3 d s I E) as (u & E1 & E2). pose proof (f5 s) as E3. rewrite E1 in E3. cbn in E3.
    destruct (c_surfs w' !! s) as [u'|]; [|done]. exists u'. cbn in E3. split; [done|congruence].
  - intros s u' E1 E2. pose proof (f5 s) as E3. rewrite E1 in E3. cbn in E3. destruct (c_surfs w !! s) as [u|] eqn:E4; [|done].
    cbn in E3. apply (d5 s u); [done|congruence].
Qed.
Lemma frame_ok w w' : frame w w' -> sprite_ok w' -> cursor_ok w -> cursor_ok w'.
Proof.
  intros F S (_ & A & B & C). split_and!; [done|by eapply frame_slots|by eapply frame_devs|]. by rewrite (fr_crashed _ _ F).
Qed.

(** ** Unmapping *)

Definition only_ptr (x : cptr) (w : cursors) : Prop := c_ptrs w = [x].

Lemma ptr_of_only x w : only_ptr x w -> ptr_of (cp_id x) w = Some x.
Proof. intros E. unfold ptr_of. rewrite E. cbn. by rewrite Z.eqb_refl. Qed.
Lemma ptr_of_id p w x : ptr_of p w = Some x -> cp_id x = p.
Proof. intros [_ E]%List.find_some. by apply Z.eqb_eq. Qed.
Lemma sprite_ok_only w p x : sprite_ok w -> ptr_of p w = Some x -> only_ptr x w.
Proof.
  unfold sprite_ok, ptr_of, only_ptr. destruct (c_ptrs w) as [|y [|z l]]; [done| |done]. cbn. intros _. destruct (_ =? _); [|done].
  by intros [= ->].
Qed.
Lemma upd_ptr_only x f w : only_ptr x w -> c_ptrs (upd_ptr (cp_id x) f w) = [f x].
Proof. intros E. unfold upd_ptr. cbn. rewrite E. cbn. by rewrite Z.eqb_refl. Qed.

Lemma lookup_upd_surf s f w s' : c_surfs (upd_surf s f w) !! s' = if decide (s' = s) then f <$> c_surfs w !! s else c_surfs w !! s'.
Proof. unfold upd_surf. cbn. case_decide as E; [subst; by rewrite lookup_alter_eq|by rewrite lookup_alter_ne]. Qed.

(** The sprite [v] of [x], on [s], goes; views besides it stay. *)
Lemma unmap_spec any x w v s u k :
  only_ptr x w -> cp_sprite x = Some v -> c_views w !! v = Some s -> c_surfs w !! s = Some u -> su_hook u = Some (k, cp_id x) ->
  let w' := unmap_sprite any (cp_id x) w in
  c_ptrs w' = [x <| cp_listen := None |> <| cp_sprite := None |>] /\ c_views w' = delete v (c_views w)
  /\ c_layer w' ⊆ c_layer w ∖ {[v]}
  /\ (exists u', c_surfs w' !! s = Some u' /\ su_hook u' = None)
  /\ (forall s', s' <> s -> c_surfs w' !! s' = c_surfs w !! s')
  /\ frame w w'.
Proof.
  intros O Sv Vs Su Hk. cbv zeta. unfold unmap_sprite. rewrite (ptr_of_only x w O), Sv, Vs.
  set (w1 := if is_mapped s w then unmap_surf s w else w).
  assert (A : c_ptrs w1 = [x] /\ c_views w1 = c_views w /\ c_layer w1 ⊆ c_layer w /\ (exists u1, c_surfs w1 !! s = Some u1 /\ su_hook u1 = su_hook u)
    /\ (forall s', s' <> s -> c_surfs w1 !! s' = c_surfs w !! s') /\ frame w w1).
  { unfold w1. destruct (is_mapped s w); [|split_and!; [done|done|done|by exists u|done|done]]. unfold unmap_surf.
    set (w2 := upd_surf s _ w).
    assert (F : frame w w2) by (by apply frame_surf).
    split_and!; [done|done|cbn; set_solver| | |].
    - eexists. cbn. split; [by rewrite lookup_alter_eq, Su|done].
    - intros s' N. cbn. by rewrite lookup_alter_ne.
    - etransitivity; [exact F|]. by apply frame_same. }
  destruct A as (a1 & a2 & a3 & (u1 & a4 & a5) & a6 & a7). clearbody w1.
  set (g := fun u : csurf => match su_hook u with Some (_, p') => if any || (p' =? cp_id x) then u <| su_hook := None |> else u | None => u end).
  assert (G : su_hook (g u1) = None).
  { unfold g. rewrite a5, Hk, Z.eqb_refl, orb_true_r. done. }
  assert (Fg : frame w1 (upd_surf s g w1)).
  { apply frame_surf; intros u0; unfold g; destruct (su_hook u0) as [[k0 p0]|]; try done; by destruct (any || _). }
  set (w2 := upd_surf s g w1) in *.
  assert (O2 : only_ptr x w2) by exact a1.
  assert (Fe : frame w2 (drop_view v (upd_ptr (cp_id x) (fun x => x <| cp_listen := None |>) w2))).
  { etransitivity; [by apply (frame_ptr (cp_id x) (fun x => x <| cp_listen := None |>))|by apply frame_same]. }
  split_and!.
  - unfold upd_ptr, drop_view. cbn. rewrite a1. cbn. by rewrite Z.eqb_refl; cbn; rewrite Z.eqb_refl.
  - unfold drop_view. cbn. by rewrite a2.
  - unfold drop_view. cbn. set_solver.
  - exists (g u1). split; [|done]. cbn. rewrite lookup_alter_eq, a4. done.
  - intros s' N. cbn. rewrite lookup_alter_ne by done. by apply a6.
  - etransitivity; [exact a7|]. etransitivity; [exact Fg|]. etransitivity; [exact Fe|]. by apply frame_ptr.
Qed.

(** From any good state: afterwards the pointer shows nothing. *)
Lemma unmap_ok any x w : sprite_ok w -> only_ptr x w ->
  let w' := unmap_sprite any (cp_id x) w in
  only_ptr (x <| cp_listen := None |> <| cp_sprite := None |>) w' /\ nothing w' /\ frame w w'.
Proof.
  intros S O. cbv zeta. unfold sprite_ok in S. rewrite O in S. destruct (cp_sprite x) as [v|] eqn:E.
  - destruct S as (s & L & V & La & (u & k & Su & Hk) & Oth).
    destruct (unmap_spec any x w v s u k O E ltac:(by rewrite V, lookup_singleton_eq) Su Hk) as (p1 & p2 & p3 & (u' & p4 & p5) & p6 & p7).
    split_and!; [done| |done]. split_and!.
    + rewrite p2, V. by rewrite delete_singleton_eq.
    + set_solver.
    + intros s' u0. destruct (decide (s' = s)) as [->|N]; [rewrite p4; by intros [= <-]|]. rewrite p6 by done. eauto.
  - destruct S as [L N]. unfold unmap_sprite. rewrite (ptr_of_only x w O), E. split_and!; [|done|done].
    unfold only_ptr. rewrite O. f_equal. destruct x; cbn in *; by subst.
Qed.

(** ** Installing *)

(** An allocator gives addresses that are not in use. *)
Definition fresh_alloc (alloc : gset Z -> option Z) : Prop := forall X a, alloc X = Some a -> a ∉ X.

(** The new view [v] of [s] exists; the old sprite goes. *)
Lemma replace_sprite any x w v s :
  sprite_ok w -> only_ptr x w -> v ∉ dom (c_views w) ->
  let w' := unmap_sprite any (cp_id x) (add_view v s w) in
  only_ptr (x <| cp_listen := None |> <| cp_sprite := None |>) w' /\ c_views w' = {[v := s]} /\ c_layer w' = ∅
  /\ (forall s' u, c_surfs w' !! s' = Some u -> su_hook u = None) /\ frame w w'.
Proof.
  intros S O Fv. cbv zeta. unfold sprite_ok in S. rewrite O in S. set (w1 := add_view v s w).
  assert (F1 : frame w w1) by (by apply frame_same). assert (O1 : only_ptr x w1) by exact O.
  destruct (cp_sprite x) as [v0|] eqn:E.
  - destruct S as (s0 & L & V & La & (u & k & Su & Hk) & Oth).
    assert (N : v0 <> v) by (rewrite V, dom_singleton_L in Fv; set_solver).
    assert (V1 : c_views w1 = <[v := s]> {[v0 := s0]}) by (unfold w1, add_view; cbn; by rewrite V).
    assert (V2 : c_views w1 !! v0 = Some s0) by (rewrite V1, lookup_insert_ne by done; apply lookup_singleton_eq).
    destruct (unmap_spec any x w1 v0 s0 u k O1 E V2 Su Hk) as (p1 & p2 & p3 & (u' & p4 & p5) & p6 & p7). split_and!; [done| | | |].
    + rewrite p2, V1, delete_insert_ne, delete_singleton_eq by done. done.
    + change (c_layer w1) with (c_layer w) in p3. set_solver.
    + intros s' u0. destruct (decide (s' = s0)) as [->|N']; [rewrite p4; by intros [= <-]|]. rewrite p6 by done. intros E0. by apply (Oth s').
    + by etransitivity.
  - destruct S as (L & V & La & Hn). unfold unmap_sprite. rewrite (ptr_of_only x w1 O1), E. split_and!; [| |done|done|done].
    + unfold only_ptr. rewrite O1. f_equal. destruct x; cbn in *; by subst.
    + unfold w1, add_view. cbn. by rewrite V.
Qed.

(** Then it takes the place. *)
Lemma take_ok x w v s hs k u :
  only_ptr x w -> c_views w = {[v := s]} -> c_layer w ⊆ {[v]} -> (forall s' u, c_surfs w !! s' = Some u -> su_hook u = None) ->
  c_surfs w !! s = Some u ->
  let w' := take_sprite (cp_id x) v s hs k w in
  only_ptr (x <| cp_hotspot := hs |> <| cp_sprite := Some v |> <| cp_listen := Some s |>) w' /\ showing (cp_id x) v s w'
  /\ c_surfs w' !! s = Some (u <| su_hook := Some (k, cp_id x) |>) /\ frame w w'.
Proof.
  intros O V La Hn Su. cbv zeta. unfold take_sprite. set (w1 := upd_ptr _ _ w).
  assert (O1 : c_ptrs w1 = [x <| cp_hotspot := hs |> <| cp_sprite := Some v |> <| cp_listen := Some s |>]) 
    by exact (upd_ptr_only x (fun x => x <| cp_hotspot := hs |> <| cp_sprite := Some v |> <| cp_listen := Some s |>) w O).
  assert (F1 : frame w w1) by (by apply frame_ptr).
  assert (E : c_surfs (upd_surf s (fun u => u <| su_hook := Some (k, cp_id x) |>) w1) !! s = Some (u <| su_hook := Some (k, cp_id x) |>)).
  { rewrite lookup_upd_surf, decide_True by done. by rewrite (Su : c_surfs w1 !! s = Some u). }
  split_and!; [exact O1| |exact E|etransitivity; [exact F1|by apply frame_surf]]. split_and!; [exact V|exact La| |].
  - eexists _, k. split; [exact E|done].
  - intros s' u' N. rewrite lookup_upd_surf, decide_False by done. apply Hn.
Qed.

Lemma install_ok alloc x s hs w r w' :
  fresh_alloc alloc -> sprite_ok w -> only_ptr x w -> is_Some (c_surfs w !! s) ->
  qdwin_install_cursor_sprite_view alloc (cp_id x) s hs w = (r, w') ->
  frame w w' /\ sprite_ok w'
  /\ match r with
     | None => c_ptrs w' = c_ptrs w
     | Some v =>
         only_ptr (x <| cp_hotspot := hs |> <| cp_sprite := Some v |> <| cp_listen := Some s |>) w'
         /\ c_views w' = {[v := s]} /\ c_layer w' = {[v]} /\ c_vpos w' !! v = Some (coord_sub (cp_pos x) hs)
         /\ exists u, c_surfs w' !! s = Some u /\ su_mapped u = true /\ no_input u
     end.
Proof.
  intros Fa S O [u0 Su]. unfold qdwin_install_cursor_sprite_view. rewrite Su. destruct (negb _); [intros [= <- <-]; done|].
  set (w1 := upd_surf s _ w).
  assert (F1 : frame w w1) by (apply frame_surf; [done|done|by right]).
  assert (Su1 : c_surfs w1 !! s = Some (u0 <| su_role := Some CURSOR_ROLE |>)) by (unfold w1; rewrite lookup_upd_surf, decide_True, Su by done; done).
  assert (S1 : sprite_ok w1).
  { assert (Hk : forall s' u, c_surfs w1 !! s' = Some u -> exists u0, c_surfs w !! s' = Some u0 /\ su_hook u = su_hook u0).
    { intros s' u. unfold w1. rewrite lookup_upd_surf. case_decide as E; [subst; rewrite Su; cbn; intros [= <-]; by exists u0|]. eauto. }
    unfold sprite_ok in *. change (c_ptrs w1) with (c_ptrs w). rewrite O in *. destruct (cp_sprite x) as [v|].
    - destruct S as (s1 & L & V & La & (u & k & Su' & Hk') & Oth). exists s1. split; [done|]. split_and!; [done|done| |].
      + unfold w1. destruct (decide (s1 = s)) as [->|N].
        * eexists _, k. rewrite lookup_upd_surf, decide_True, Su' by done. split; [reflexivity|]. done.
        * exists u, k. rewrite lookup_upd_surf, decide_False by done. done.
      + intros s' u' N E. destruct (Hk s' u' E) as (u2 & E2 & ->). eauto.
    - destruct S as (L & V & La & Hn). split_and!; [done|split_and!; [done|done|]]. intros s' u' E. destruct (Hk s' u' E) as (u2 & E2 & ->). eauto. }
  destruct (alloc (dom (c_views w1))) as [v|] eqn:Ea; intros [= <- <-]; [|done].
  destruct (replace_sprite false x w1 v s S1 O (Fa _ _ Ea)) as (q1 & q2 & q3 & q4 & q5). fold qdwin_pointer_unmap_sprite in *.
  set (w2 := qdwin_pointer_unmap_sprite (cp_id x) (add_view v s w1)) in *. clearbody w2.
  assert (Su2 : exists u2, c_surfs w2 !! s = Some u2).
  { pose proof (fr_internal _ _ q5 s) as E. rewrite Su1 in E. destruct (c_surfs w2 !! s) as [u2|]; [by exists u2|done]. }
  destruct Su2 as [u2 Su2].
  destruct (take_ok _ w2 v s hs qdwin_hook u2 q1 q2 ltac:(set_solver) q4 Su2) as (t1 & t2 & t3 & t4).
  change (cp_id (x <| cp_listen := None |> <| cp_sprite := None |>)) with (cp_id x) in t1, t2, t3, t4.
  set (w3 := take_sprite (cp_id x) v s hs qdwin_hook w2) in *.
  assert (L3 : c_layer w3 = ∅) by exact q3. clearbody w3.
  set (u3 := u2 <| su_hook := Some (qdwin_hook, cp_id x) |>) in *.
  set (u4 := u3 <| su_mapped := true |> <| su_pending := no_region |> <| su_input := no_region |>).
  assert (Ep : pos_of (cp_id x) w3 = cp_pos x).
  { unfold pos_of. rewrite (ptr_of_only _ w3 t1 : ptr_of (cp_id x) w3 = _). done. }
  set (w4 := show_view v _).
  assert (Su4 : forall s', c_surfs w4 !! s' = if decide (s' = s) then Some u4 else c_surfs w3 !! s').
  { intros s'. unfold w4, show_view, clear_input. cbn. case_decide as E.
    - subst. rewrite !lookup_alter_eq, t3. done.
    - by rewrite !lookup_alter_ne. }
  assert (F4 : frame w3 w4).
  { etransitivity; [|apply frame_show]. etransitivity; [|apply frame_clear]. etransitivity; [|by apply frame_surf]. apply frame_put. }
  assert (E4 : c_ptrs w4 = c_ptrs w3 /\ c_views w4 = c_views w3 /\ c_layer w4 = {[v]} /\ c_vpos w4 !! v = Some (coord_sub (cp_pos x) hs)).
  { unfold w4, show_view. cbn. rewrite L3, Ep. split_and!; [done|done|set_solver|by rewrite lookup_insert_eq]. }
  destruct E4 as (e1 & e2 & e3 & e4). clearbody w4. destruct t2 as (t2a & t2b & t2c & t2d).
  assert (O4 : only_ptr (x <| cp_hotspot := hs |> <| cp_sprite := Some v |> <| cp_listen := Some s |>) w4).
  { unfold only_ptr. rewrite e1, t1. done. }
  split_and!.
  - etransitivity; [exact F1|]. etransitivity; [exact q5|]. etransitivity; [exact t4|exact F4].
  - unfold sprite_ok. rewrite O4. cbn. exists s. split; [done|]. split_and!; [congruence|by rewrite e3| |].
    + exists u4, qdwin_hook. rewrite Su4, decide_True by done. done.
    + intros s' u' N. rewrite Su4, decide_False by done. by apply t2d.
  - exact O4.
  - congruence.
  - exact e3.
  - exact e4.
  - exists u4. rewrite Su4, decide_True by done. done.
Qed.

(** ** The end of a surface *)

Lemma views_of_singleton v s w : c_views w = {[v := s]} -> views_of s w = {[v]}.
Proof.
  intros E. unfold views_of. rewrite E, map_filter_singleton_True by done. by rewrite dom_singleton_L.
Qed.

Lemma slot_unref s shape w :
  slot_of shape (qdwin_cursor_sprite_on_surface_destroyed s w)
  = if bool_decide (sl_surface (slot_of shape w) = Some s) then empty_slot else slot_of shape w.
Proof.
  unfold slot_of, qdwin_cursor_sprite_on_surface_destroyed. cbn. rewrite lookup_fmap. destruct (c_slots w !! shape) as [sl|]; done.
Qed.

Lemma unref_ok s w u :
  sprite_ok w -> c_surfs w !! s = Some u ->
  let w' := weston_surface_unref s w in
  sprite_ok w' /\ map cp_id (c_ptrs w') = map cp_id (c_ptrs w) /\ c_devs w' = c_devs w /\ c_crashed w' = c_crashed w
  /\ c_surfs w' = delete s (c_surfs w)
  /\ (forall shape, slot_of shape w' = if bool_decide (sl_surface (slot_of shape w) = Some s) then empty_slot else slot_of shape w).
Proof.
  intros S Su. cbv zeta. unfold weston_surface_unref. rewrite bool_decide_eq_false_2 by congruence.
  set (w1 := pointer_handle_sprite_destroy s w).
  set (w2 := qdwin_cursor_sprite_on_surface_destroyed s w1).
  assert (Sl : forall shape, slot_of shape w2 = if bool_decide (sl_surface (slot_of shape w) = Some s) then empty_slot else slot_of shape w)
    by (intros shape; exact (slot_unref s shape w1)).
  assert (Ids : map cp_id (c_ptrs w1) = map cp_id (c_ptrs w)).
  { unfold w1, pointer_handle_sprite_destroy. cbn. rewrite map_map. apply map_ext. intros x. by destruct (bool_decide _). }
  split_and!; [|exact Ids|done|done|done|exact Sl]. set (w3 := w2 <| c_layer ::= _ |> <| c_vpos ::= _ |> <| c_views ::= _ |>).
  assert (E3 : c_ptrs w3 = c_ptrs w1 /\ c_surfs w3 = c_surfs w /\ c_views w3 = filter (fun p => snd p <> s) (c_views w)
    /\ c_layer w3 = c_layer w ∖ views_of s w) by done.
  destruct E3 as (e1 & e2 & e3 & e4). set (w4 := w3 <| c_surfs ::= delete s |>).
  assert (E4 : c_surfs w4 = delete s (c_surfs w)) by (by change (delete s (c_surfs w3) = delete s (c_surfs w)); rewrite e2).
  unfold sprite_ok in *. change (c_ptrs w4) with (c_ptrs w3). rewrite e1. unfold w1, pointer_handle_sprite_destroy. cbn.
  assert (None_ok : nothing w -> nothing w4).
  { intros (V & La & Hn). split_and!.
    - change (c_views w3 = ∅). rewrite e3, V. apply map_filter_empty.
    - change (c_layer w3 = ∅). rewrite e4, La. set_solver.
    - intros s' u'. rewrite E4. intros [_ E]%lookup_delete_Some. by apply (Hn s'). }
  destruct (c_ptrs w) as [|x [|y l]]; [by apply None_ok| |done]. cbn. destruct (cp_sprite x) as [v|] eqn:Es.
  - destruct S as (s1 & L & V & La & (u1 & k & Su1 & Hk) & Oth). destruct (decide (s1 = s)) as [->|N].
    + rewrite bool_decide_eq_true_2 by done. cbn. split; [done|]. split_and!.
      * change (c_views w3 = ∅). rewrite e3, V. apply map_filter_singleton_False. cbn. naive_solver.
      * change (c_layer w3 = ∅). rewrite e4, (views_of_singleton v s w V). set_solver.
      * intros s' u'. rewrite E4. intros [N E]%lookup_delete_Some. apply (Oth s'); [congruence|done].
    + rewrite bool_decide_eq_false_2 by congruence. rewrite Es. exists s1. split; [done|]. split_and!.
      * change (c_views w3 = {[v := s1]}). rewrite e3, V. by apply map_filter_singleton_True.
      * change (c_layer w3 ⊆ {[v]}). set_solver.
      * exists u1, k. rewrite E4, lookup_delete_ne by congruence. done.
      * intros s' u' N'. rewrite E4. intros [_ E]%lookup_delete_Some. by apply (Oth s').
  - destruct S as [L Hn]. rewrite bool_decide_eq_false_2 by congruence. rewrite Es. split; [done|]. by apply None_ok.
Qed.

(** A client's surface goes. *)
Lemma client_destroyed_ok s w u :
  cursor_ok w -> c_surfs w !! s = Some u -> su_internal u = false -> cursor_ok (weston_surface_unref s w).
Proof.
  intros (S & A & B & C) Su I. destruct (unref_ok s w u S Su) as (r1 & r2 & r3 & r4 & r5 & r6). split_and!; [done| | |congruence].
  - intros shape s'. rewrite r6. case_bool_decide as E; [done|]. intros E'. destruct (A shape s' E') as (u' & a1 & a2 & a3). exists u'.
    rewrite r5, lookup_delete_ne by congruence. done.
  - destruct B as [d1 d2 d3 d4 d5]. split; rewrite ?r3, ?r2, ?r5; auto.
    + intros d s' Id E. destruct (d3 d s' Id E) as (u' & a1 & a2). exists u'. rewrite lookup_delete_ne by congruence. done.
    + intros s' u' [_ E]%lookup_delete_Some. by apply (d5 s').
Qed.

(** ** Devices *)

Lemma dev_of_in r w d : dev_of r w = Some d -> d ∈ c_devs w /\ dv_res d = r.
Proof. intros [I E]%List.find_some. split; [by apply list_elem_of_In|by apply Z.eqb_eq]. Qed.
Lemma dev_of_frame w w' r : c_devs w' = c_devs w -> dev_of r w' = dev_of r w.
Proof. intros E. unfold dev_of. by rewrite E. Qed.

(** Changes of a device that keep its solid surface. *)
Lemma devs_upd r f w : devs_ok w -> (forall d, dv_res (f d) = dv_res d) -> (forall d, dv_solid (f d) = dv_solid d) ->
  (forall d p, dv_pointer (f d) = Some p -> dv_pointer d = Some p) -> devs_ok (upd_dev r f w).
Proof.
  intros [d1 d2 d3 d4 d5] F1 F2 F3.
  assert (In1 : forall d', d' ∈ c_devs (upd_dev r f w) -> exists d, d ∈ c_devs w /\ dv_res d' = dv_res d /\ dv_solid d' = dv_solid d
            /\ (forall p, dv_pointer d' = Some p -> dv_pointer d = Some p)).
  { intros d'. unfold upd_dev. cbn. rewrite list_elem_of_In, in_map_iff. intros (d & <- & I). exists d. rewrite list_elem_of_In.
    destruct (dv_res d =? r); [by split_and!; auto|done]. }
  split.
  - unfold upd_dev. cbn. rewrite map_map. erewrite map_ext; [exact d1|]. intros d. cbn. destruct (dv_res d =? r); [apply F1|done].
  - intros d' p (d & I & _ & _ & E)%In1 Ep. by apply (d2 d p), E.
  - intros d' s (d & I & _ & E & _)%In1. rewrite E. by apply d3.
  - intros a b s (a' & Ia & Ea & Sa & _)%In1 (b' & Ib & Eb & Sb & _)%In1. rewrite Sa, Sb, Ea, Eb. by apply d4.
  - intros s u E I. destruct (d5 s u E I) as (d & Id & Es). exists (if dv_res d =? r then f d else d). split.
    + unfold upd_dev. cbn. apply list_elem_of_In, (in_map (fun x => if dv_res x =? r then f x else x)), list_elem_of_In, Id.
    + destruct (dv_res d =? r); [by rewrite F2|done].
Qed.

Lemma dev_of_upd r f w d : dev_of r w = Some d -> (forall d, dv_res (f d) = dv_res d) -> dev_of r (upd_dev r f w) = Some (f d).
Proof.
  unfold dev_of, upd_dev. cbn. intros E F. induction (c_devs w) as [|x l IH]; [done|]. cbn in *. destruct (dv_res x =? r) eqn:Er.
  - simplify_eq. cbn. by rewrite F, Er.
  - cbn. rewrite Er. by apply IH.
Qed.

Lemma dev_pointer r w d p : cursor_ok w -> dev_of r w = Some d -> dv_pointer d = Some p ->
  exists x, only_ptr x w /\ cp_id x = p.
Proof.
  intros (S & _ & B & _) [I _]%dev_of_in E. pose proof (do_pointer _ B d p I E) as Hp. unfold sprite_ok in S. unfold only_ptr.
  destruct (c_ptrs w) as [|x [|y l]]; [by apply elem_of_nil in Hp| |done]. cbn in Hp. apply list_elem_of_singleton in Hp as ->. by exists x.
Qed.

Definition dev_key (d : cdev) := (dv_res d, dv_pointer d).

(** The surface of a device goes with it. *)
Lemma release_solid r s w d :
  cursor_ok w -> dev_of r w = Some d -> dv_solid d = Some s ->
  let w' := upd_dev r (fun d => d <| dv_solid := None |>) (weston_surface_unref s w) in
  cursor_ok w' /\ map cp_id (c_ptrs w') = map cp_id (c_ptrs w) /\ (forall shape, slot_of shape w' = slot_of shape w)
  /\ (forall s' u', c_surfs w !! s' = Some u' -> su_internal u' = false -> c_surfs w' !! s' = Some u').
Proof.
  intros (S & A & B & C) Ed Es. cbv zeta. destruct (dev_of_in _ _ _ Ed) as [Id Er]. destruct B as [d1 d2 d3 d4 d5].
  destruct (d3 d s Id Es) as (u & Su & Iu). destruct (unref_ok s w u S Su) as (r1 & r2 & r3 & r4 & r5 & r6).
  assert (Ns : forall shape, sl_surface (slot_of shape w) <> Some s).
  { intros shape E. destruct (A shape s E) as (u' & a1 & a2 & _). congruence. }
  assert (Sl : forall shape, slot_of shape (weston_surface_unref s w) = slot_of shape w).
  { intros shape. by rewrite r6, bool_decide_eq_false_2. }
  set (w1 := weston_surface_unref s w) in *. clearbody w1.
  assert (In1 : forall d', d' ∈ c_devs (upd_dev r (fun d => d <| dv_solid := None |>) w1) ->
    (exists d0, d0 ∈ c_devs w /\ dv_res d' = dv_res d0 /\ dv_pointer d' = dv_pointer d0)
    /\ forall s', dv_solid d' = Some s' -> s' <> s /\ d' ∈ c_devs w).
  { intros d'. unfold upd_dev. cbn. rewrite r3, list_elem_of_In, in_map_iff. intros (d0 & <- & I0). apply list_elem_of_In in I0.
    destruct (Z.eqb_spec (dv_res d0) r) as [E|N]; (split; [by exists d0|]); [done|]. intros s' E'. split; [|done]. intros ->.
    apply N. rewrite <- Er. by apply (d4 d0 d s). }
  split_and!; [split_and!; [exact r1| | |exact (eq_trans r4 C)]|exact r2|exact Sl|].
  - intros shape s' E. change (sl_surface (slot_of shape w1) = Some s') in E. rewrite Sl in E. destruct (A shape s' E) as (u' & a1 & a2 & a3).
    exists u'. change (c_surfs w1 !! s' = Some u' /\ su_internal u' = false /\ no_input u'). rewrite r5, lookup_delete_ne; [done|].
    intros <-. by apply (Ns shape).
  - split.
    + unfold upd_dev. cbn. rewrite r3, map_map. erewrite map_ext; [exact d1|]. intros x. cbn. by destruct (dv_res x =? r).
    + intros d' p ((d0 & I0 & E0 & P0) & _)%In1 Ep. change (p ∈ map cp_id (c_ptrs w1)). rewrite r2. apply (d2 d0 p); congruence.
    + intros d' s' (_ & Hs)%In1 E. destruct (Hs s' E) as [N I']. destruct (d3 d' s' I' E) as (u' & a1 & a2). exists u'.
      change (c_surfs w1 !! s' = Some u' /\ su_internal u' = true). rewrite r5, lookup_delete_ne by congruence. done.
    + intros a b s' (_ & Ha)%In1 (_ & Hb)%In1 Ea Eb. destruct (Ha s' Ea), (Hb s' Eb). by apply (d4 a b s').
    + intros s' u'. change (c_surfs (upd_dev r (fun d => d <| dv_solid := None |>) w1)) with (c_surfs w1). rewrite r5.
      intros [N E]%lookup_delete_Some I'. destruct (d5 s' u' E I') as (d0 & I0 & E0). exists d0. split; [|done].
      unfold upd_dev. cbn. rewrite r3. apply list_elem_of_In, in_map_iff. exists d0. split; [|by apply list_elem_of_In].
      destruct (Z.eqb_spec (dv_res d0) r) as [E1|]; [|done]. exfalso.
      assert (d0 = d) as -> by (apply (key_unique dv_res (c_devs w)); [done|done|done|congruence]). congruence.
  - intros s' u' E' I'. change (c_surfs w1 !! s' = Some u'). rewrite r5, lookup_delete_ne; [done|]. congruence.
Qed.

Lemma tear_down_ok r w :
  cursor_ok w ->
  let w' := qdwin_cursor_sprite_tear_down r w in
  cursor_ok w' /\ map cp_id (c_ptrs w') = map cp_id (c_ptrs w) /\ (forall shape, slot_of shape w' = slot_of shape w)
  /\ (forall d, dev_of r w = Some d -> dev_of r w' = Some (d <| dv_view := None |> <| dv_solid := None |>))
  /\ map dev_key (c_devs w') = map dev_key (c_devs w)
  /\ (forall s u, c_surfs w !! s = Some u -> su_internal u = false -> may_be_cursor u ->
       exists u', c_surfs w' !! s = Some u' /\ may_be_cursor u').
Proof.
  intros K. cbv zeta. unfold qdwin_cursor_sprite_tear_down. destruct (dev_of r w) as [d|] eqn:Ed; [|by split_and!; eauto].
  set (w1 := match dv_view d with Some v => _ | None => w end).
  assert (A : cursor_ok w1 /\ map cp_id (c_ptrs w1) = map cp_id (c_ptrs w) /\ (forall shape, slot_of shape w1 = slot_of shape w)
    /\ dev_of r w1 = Some (d <| dv_view := None |>) /\ map dev_key (c_devs w1) = map dev_key (c_devs w)
    /\ (forall s u, c_surfs w !! s = Some u -> su_internal u = false -> may_be_cursor u ->
       exists u', c_surfs w1 !! s = Some u' /\ may_be_cursor u' /\ su_internal u' = false)).
  { unfold w1. destruct (dv_view d) as [v|] eqn:Ev; [|split_and!; [done|done|done|destruct d; cbn in *; by subst|done|by eauto]].
    set (w2 := match dv_pointer d with Some p => _ | None => w end).
    assert (F : frame w w2 /\ sprite_ok w2).
    { unfold w2. destruct (dv_pointer d) as [p|] eqn:Ep; [|split; [done|apply K]].
      destruct (dev_pointer r w d p K Ed Ep) as (x & O & <-). rewrite (ptr_of_only x w O).
      case_bool_decide; [|split; [done|apply K]]. destruct (unmap_ok false x w (proj1 K) O) as (o1 & o2 & o3). split; [exact o3|].
      unfold sprite_ok, qdwin_pointer_unmap_sprite. by rewrite o1. }
    destruct F as [F S2]. pose proof (frame_ok _ _ F S2 K) as K2.
    assert (B : devs_ok (upd_dev r (fun d => d <| dv_view := None |>) w2)) by (by apply devs_upd; [apply K2| | |]).
    split_and!; [|exact (fr_ptrs _ _ F)|intros shape; unfold slot_of; change (c_slots (upd_dev _ _ w2)) with (c_slots w2); by rewrite (fr_slots _ _ F)| | |].
    - destruct K2 as (k1 & k2 & k3 & k4). split_and!; [exact k1|exact k2|exact B|exact k4].
    - apply (dev_of_upd r (fun d => d <| dv_view := None |>)); [|done]. by rewrite (dev_of_frame w w2 r (fr_devs _ _ F)).
    - unfold upd_dev. cbn. rewrite map_map, (fr_devs _ _ F). apply map_ext. intros y. by destruct (dv_res y =? r).
    - intros s u Su Iu Ru. pose proof (fr_internal _ _ F s) as E. rewrite Su in E. change (c_surfs (upd_dev _ _ w2)) with (c_surfs w2).
      destruct (c_surfs w2 !! s) as [u2|] eqn:E2; [|done]. cbn in E. exists u2. split_and!; [done|by eapply (fr_role _ _ F)|congruence]. }
  destruct A as (a1 & a2 & a3 & a4 & a5 & a6). clearbody w1. destruct (dv_solid d) as [s|] eqn:Es.
  - destruct (release_solid r s w1 _ a1 a4 Es) as (b1 & b2 & b3 & b4). split_and!; [exact b1|congruence|intros shape; by rewrite b3| | |].
    + intros d0 [= <-]. pose proof (unref_ok s w1) as U. destruct (do_live _ (proj1 (proj2 (proj2 a1))) _ s (proj1 (dev_of_in _ _ _ a4)) Es) as (u & Su & _).
      destruct (U u (proj1 a1) Su) as (_ & _ & u3 & _).
      apply (dev_of_upd r (fun d => d <| dv_solid := None |>) _ (d <| dv_view := None |>)); [|done]. by rewrite (dev_of_frame w1 _ r u3).
    + destruct (do_live _ (proj1 (proj2 (proj2 a1))) _ s (proj1 (dev_of_in _ _ _ a4)) Es) as (u & Su & _).
      destruct (unref_ok s w1 u (proj1 a1) Su) as (_ & _ & u3 & _). unfold upd_dev. cbn. rewrite map_map, u3, <- a5. apply map_ext.
      intros y. by destruct (dv_res y =? r).
    + intros s0 u0 E0 I0 R0. destruct (a6 s0 u0 E0 I0 R0) as (u1 & E1 & R1 & I1). exists u1. split; [by apply b4|done].
  - split_and!; [done|done|done| |done|].
    + intros d0 [= <-]. rewrite a4. f_equal. destruct d; cbn in *; by subst.
    + intros s0 u0 E0 I0 R0. destruct (a6 s0 u0 E0 I0 R0) as (u1 & E1 & R1 & I1). by exists u1.
Qed.

(** ** The plugin's operations *)

Lemma default_ok alloc x w : fresh_alloc alloc -> cursor_ok w -> only_ptr x w ->
  cursor_ok (qdwin_install_default_cursor_on_pointer alloc (cp_id x) w)
  /\ frame w (qdwin_install_default_cursor_on_pointer alloc (cp_id x) w).
Proof.
  intros Fa K O. unfold qdwin_install_default_cursor_on_pointer. destruct (sl_surface _) as [s|] eqn:E; [|done].
  destruct (proj1 (proj2 K) _ _ E) as (u & Su & _).
  destruct (qdwin_install_cursor_sprite_view alloc (cp_id x) s _ w) as [r w'] eqn:Ei.
  destruct (install_ok _ _ _ _ _ _ _ Fa (proj1 K) O ltac:(by exists u) Ei) as (f & g & _). split; [by eapply frame_ok|exact f].
Qed.

Lemma default_on_ok alloc w p : fresh_alloc alloc -> cursor_ok w -> cursor_ok (default_on alloc w p) /\ frame w (default_on alloc w p).
Proof.
  intros Fa K. unfold default_on. destruct (ptr_of p w) as [x|] eqn:E; [|done]. destruct (_ && _); [|done].
  pose proof (sprite_ok_only w p x (proj1 K) E) as O. rewrite <- (ptr_of_id p w x E). by apply default_ok.
Qed.
Lemma default_all_ok alloc w : fresh_alloc alloc -> cursor_ok w -> cursor_ok (default_on_all alloc w) /\ frame w (default_on_all alloc w).
Proof.
  intros Fa. unfold default_on_all. generalize (map cp_id (c_ptrs w)) as l. intros l. revert w.
  induction l as [|p l IH]; intros w K; [done|]. cbn [foldl]. destruct (default_on_ok alloc w p Fa K) as [K1 F1].
  destruct (IH _ K1) as [K2 F2]. split; [done|]. by etransitivity.
Qed.

Lemma focus_changed_ok alloc p w : fresh_alloc alloc -> cursor_ok w -> cursor_ok (qdwin_default_cursor_on_focus_changed alloc p w).
Proof.
  intros Fa K. unfold qdwin_default_cursor_on_focus_changed. destruct (ptr_of p w) as [x|] eqn:E; [|done]. destruct (_ || _); [done|].
  rewrite <- (ptr_of_id p w x E). apply (default_ok alloc x w Fa K (sprite_ok_only w p x (proj1 K) E)).
Qed.

(** Pointer fields that the invariant does not see. *)
Lemma ptr_ok p f w : cursor_ok w -> (forall x, cp_id (f x) = cp_id x) -> (forall x, cp_sprite (f x) = cp_sprite x) ->
  (forall x, cp_listen (f x) = cp_listen x) -> cursor_ok (upd_ptr p f w).
Proof.
  intros K F1 F2 F3. apply (frame_ok w); [by apply frame_ptr| |done]. destruct K as (S & _). unfold sprite_ok in *. unfold upd_ptr. cbn.
  destruct (c_ptrs w) as [|x [|y l]]; [done| |done]. cbn. destruct (cp_id x =? p); [|done]. by rewrite F1, F2, F3.
Qed.

Lemma tracked_ok alloc p w : fresh_alloc alloc -> cursor_ok w -> cursor_ok (qdwin_install_pointer_focus_listener_if_needed alloc p w).
Proof.
  intros Fa K. unfold qdwin_install_pointer_focus_listener_if_needed. destruct (ptr_of p w) as [x|] eqn:E; [|done].
  destruct (_ || _); [done|]. assert (K1 : cursor_ok (upd_ptr p (fun x => x <| cp_tracked := true |>) w)) by (by apply ptr_ok).
  case_bool_decide; [done|]. pose proof (sprite_ok_only w p x (proj1 K) E) as O. rewrite <- (ptr_of_id p w x E) in *.
  destruct (default_ok alloc (x <| cp_tracked := true |>) _ Fa K1 (upd_ptr_only x (fun x => x <| cp_tracked := true |>) w O)) as [R _].
  exact R.
Qed.

Lemma focus_ok alloc p o w : fresh_alloc alloc -> cursor_ok w -> cursor_ok (pointer_focus alloc p o w).
Proof.
  intros Fa K. unfold pointer_focus. assert (K1 : cursor_ok (upd_ptr p (fun x => x <| cp_focus := o |>) w)) by (by apply ptr_ok).
  destruct (ptr_of p (upd_ptr p _ w)) as [x|]; [|done]. destruct (cp_tracked x); [|done]. by apply focus_changed_ok.
Qed.

Lemma unmap_cursor_ok any p w : cursor_ok w -> is_Some (ptr_of p w) -> cursor_ok (unmap_sprite any p w) /\ frame w (unmap_sprite any p w)
  /\ nothing (unmap_sprite any p w).
Proof.
  intros K [x E]. pose proof (sprite_ok_only w p x (proj1 K) E) as O. rewrite <- (ptr_of_id p w x E).
  destruct (unmap_ok any x w (proj1 K) O) as (o1 & o2 & o3). split_and!; [|done|done]. apply (frame_ok w); [done| |done].
  unfold sprite_ok. by rewrite o1.
Qed.

Lemma is_ptr_frame w w' p : frame w w' -> is_Some (ptr_of p w) -> is_Some (ptr_of p w').
Proof.
  intros F [x E]. apply List.find_some in E as [I E]. apply Z.eqb_eq in E as <-.
  assert (I' : In (cp_id x) (map cp_id (c_ptrs w'))) by (rewrite (fr_ptrs _ _ F); by apply in_map).
  apply in_map_iff in I' as (y & Ey & Iy). unfold ptr_of. destruct (List.find _ (c_ptrs w')) as [z|] eqn:Ef; [by exists z|].
  pose proof (List.find_none _ _ Ef y Iy) as N. cbn in N. rewrite Ey, Z.eqb_refl in N. done.
Qed.

Lemma theme_ok alloc r shape w : fresh_alloc alloc -> cursor_ok w -> cursor_ok (qdwin_cursor_device_install_theme_sprite alloc r shape w).
Proof.
  intros Fa K. unfold qdwin_cursor_device_install_theme_sprite. destruct (dev_of r w) as [d|] eqn:Ed; [|done].
  destruct (dv_pointer d) as [p|] eqn:Ep; [|done]. destruct (sl_surface (slot_of shape w)) as [s|] eqn:Es; [|done].
  destruct (tear_down_ok r w K) as (k1 & k2 & k3 & k4 & k5 & _). set (w1 := qdwin_cursor_sprite_tear_down r w) in *. clearbody w1.
  destruct (dev_pointer r w1 _ p k1 (k4 d Ed) Ep) as (x & O & <-). rewrite <- (k3 shape) in Es.
  destruct (proj1 (proj2 k1) _ _ Es) as (u & Su & _).
  destruct (qdwin_install_cursor_sprite_view alloc (cp_id x) s _ w1) as [q w2] eqn:Ei.
  destruct (install_ok _ _ _ _ _ _ _ Fa (proj1 k1) O ltac:(by exists u) Ei) as (f & g & _). pose proof (frame_ok _ _ f g k1) as K2.
  destruct q as [v|]; [|exact K2]. destruct K2 as (a1 & a2 & a3 & a4). split_and!; [exact a1|exact a2| |exact a4]. by apply devs_upd.
Qed.

Lemma resource_destroy_ok r w : cursor_ok w -> cursor_ok (qdwin_cursor_shape_device_resource_destroy r w).
Proof.
  intros K. unfold qdwin_cursor_shape_device_resource_destroy. destruct (tear_down_ok r w K) as (k1 & _ & _ & k4 & k5 & _).
  set (w1 := qdwin_cursor_sprite_tear_down r w) in *.
  assert (Ns : forall d, d ∈ c_devs w1 -> dv_res d = r -> dv_solid d = None).
  { intros d I Er. destruct (dev_of r w) as [d0|] eqn:Ed.
    - specialize (k4 d0 eq_refl). apply dev_of_in in k4 as [I0 E0].
      assert (d = d0 <| dv_view := None |> <| dv_solid := None |>) as ->; [|done].
      apply (key_unique dv_res (c_devs w1)); [apply (do_res _ (proj1 (proj2 (proj2 k1))))|done|done|]. congruence.
    - assert (w1 = w) as E1 by (unfold w1, qdwin_cursor_sprite_tear_down; by rewrite Ed). rewrite E1 in I.
      apply list_elem_of_In in I. pose proof (List.find_none _ _ Ed d I) as N. cbn in N. rewrite Er, Z.eqb_refl in N. done. }
  clearbody w1. destruct k1 as (a1 & a2 & [d1 d2 d3 d4 d5] & a4). split_and!; [exact a1|exact a2| |exact a4].
  assert (In1 : forall d, d ∈ List.filter (fun d => negb (dv_res d =? r)) (c_devs w1) <-> d ∈ c_devs w1 /\ dv_res d <> r).
  { intros d. rewrite !list_elem_of_In, List.filter_In, negb_true_iff, Z.eqb_neq. done. }
  split; cbn.
  - by apply nodup_filter_key.
  - intros d p [I _]%In1. by apply d2.
  - intros d s [I _]%In1. by apply d3.
  - intros a b s [Ia _]%In1 [Ib _]%In1. by apply d4.
  - intros s u E I. destruct (d5 s u E I) as (d & Id & Es). exists d. split; [|done]. apply In1. split; [done|]. intros Er.
    rewrite (Ns d Id Er) in Es. done.
Qed.

(** A device gets a new solid surface. *)
Lemma solid_ok alloc salloc made r shape w :
  fresh_alloc alloc -> fresh_alloc salloc -> cursor_ok w -> cursor_ok (qdwin_cursor_device_install_solid_sprite alloc salloc made r shape w).
Proof.
  intros Fa Fs K. unfold qdwin_cursor_device_install_solid_sprite. destruct (dev_of r w) as [d|] eqn:Ed; [|done].
  destruct (dv_pointer d) as [p|] eqn:Ep; [|done]. destruct (tear_down_ok r w K) as (k1 & k2 & k3 & k4 & k5 & _).
  set (w1 := qdwin_cursor_sprite_tear_down r w) in *. clearbody w1. specialize (k4 d Ed). set (d1 := d <| dv_view := None |> <| dv_solid := None |>) in *.
  destruct (salloc (dom (c_surfs w1))) as [s|] eqn:Es; [|done]. destruct made; [|done]. cbn [negb].
  destruct (alloc (dom (c_views w1))) as [v|] eqn:Ev; [|done].
  destruct (dev_pointer r w1 d1 p k1 k4 Ep) as (x & O & <-). apply Fs, not_elem_of_dom in Es. apply Fa in Ev.
  set (u := new_surf <| su_internal := true |> <| su_width := 24 |> <| su_height := 24 |>).
  set (w2 := w1 <| c_surfs ::= <[s := u]> |>). destruct k1 as (S1 & A1 & B1 & C1).
  assert (S2 : sprite_ok w2).
  { unfold sprite_ok in *. change (c_ptrs w2) with (c_ptrs w1).
    assert (Nt : nothing w1 -> nothing w2).
    { intros (n1 & n2 & n3). split_and!; [done|done|]. intros s' u'. unfold w2. cbn. intros [[<- <-]|[_ E]]%lookup_insert_Some; [done|by apply (n3 s')]. }
    rewrite O in *. destruct (cp_sprite x) as [v0|]; [|destruct S1; auto].
    destruct S1 as (s0 & L & V & La & (u0 & k & Su0 & Hk) & Oth). exists s0. split; [done|]. split_and!; [done|done| |].
    - exists u0, k. unfold w2. cbn. rewrite lookup_insert_ne by congruence. done.
    - intros s' u' N. unfold w2. cbn. intros [[<- <-]|[_ E]]%lookup_insert_Some; [done|by apply (Oth s')]. }
  set (w3 := upd_dev r (fun d => d <| dv_solid := Some s |> <| dv_view := Some v |> <| dv_shape := shape |>) (add_view v s w2)).
  change (cursor_ok (take_sprite (cp_id x) v s (0, 0) qdwin_hook (qdwin_pointer_unmap_sprite (cp_id x) w3))).
  assert (Au : forall W, slots_ok w1 -> c_surfs W = <[s := u]> (c_surfs w1) -> c_slots W = c_slots w1 -> slots_ok W).
  { intros W A E1 E2 sh s' E. unfold slot_of in E. rewrite E2 in E. destruct (A sh s' E) as (u' & a1 & a2 & a3). exists u'.
    rewrite E1, lookup_insert_ne by congruence. done. }
  assert (B3 : devs_ok w3).
  { destruct B1 as [d1' d2 d3 d4 d5]. destruct (dev_of_in _ _ _ k4) as [Id1 Er1].
    assert (In3 : forall d', d' ∈ c_devs w3 -> (dv_res d' = r /\ dv_solid d' = Some s /\ dv_pointer d' = Some (cp_id x)) \/ (d' ∈ c_devs w1 /\ dv_res d' <> r)).
    { intros d'. unfold w3, upd_dev. cbn. rewrite list_elem_of_In, in_map_iff. intros (d0 & <- & I0). apply list_elem_of_In in I0.
      destruct (Z.eqb_spec (dv_res d0) r) as [E|N]; [|by right]. left. cbn. split_and!; [done|done|].
      assert (d0 = d1) as -> by (apply (key_unique dv_res (c_devs w1)); [done|done|done|congruence]). exact Ep. }
    split.
    - unfold w3, upd_dev. cbn. rewrite map_map. erewrite map_ext; [exact d1'|]. intros y. cbn. by destruct (dv_res y =? r).
    - intros d' q [(E1 & E2 & E3)|[I N]]%In3 Eq; [|by apply (d2 d')]. change (q ∈ map cp_id (c_ptrs w1)). apply (d2 d1); [done|].
      change (dv_pointer d = Some q). congruence.
    - intros d' s' [(E1 & E2 & E3)|[I N]]%In3 E.
      + exists u. assert (s' = s) as -> by congruence. unfold w3, w2. cbn. by rewrite lookup_insert_eq.
      + destruct (d3 d' s' I E) as (u' & a1 & a2). exists u'. unfold w3, w2. cbn. rewrite lookup_insert_ne by congruence. done.
    - intros a b s' [(E1 & E2 & E3)|[I N]]%In3 [(G1 & G2 & G3)|[J M]]%In3 Ea Eb; [congruence| | |by apply (d4 a b s')].
      + destruct (d3 b s' J Eb) as (u' & a1 & _). congruence.
      + destruct (d3 a s' I Ea) as (u' & a1 & _). congruence.
    - intros s' u'. unfold w3, w2. cbn. intros [[<- <-]|[N E]]%lookup_insert_Some I.
      + exists (d1 <| dv_solid := Some s |> <| dv_view := Some v |> <| dv_shape := shape |>). split; [|done].
        apply list_elem_of_In, in_map_iff. exists d1. rewrite Er1, Z.eqb_refl. split; [done|by apply list_elem_of_In].
      + destruct (d5 s' u' E I) as (d0 & I0 & E0). exists d0. split; [|done].
        apply list_elem_of_In, in_map_iff. exists d0. split; [|by apply list_elem_of_In].
        destruct (Z.eqb_spec (dv_res d0) r) as [E1|]; [|done].
        assert (d0 = d1) as -> by (apply (key_unique dv_res (c_devs w1)); [done|done|done|congruence]). done. }
  destruct (replace_sprite false x (upd_dev r (fun d => d <| dv_solid := Some s |> <| dv_view := Some v |> <| dv_shape := shape |>) w2) v s S2 O Ev)
    as (q1 & q2 & q3 & q4 & q5).
  change (add_view v s (upd_dev r (fun d => d <| dv_solid := Some s |> <| dv_view := Some v |> <| dv_shape := shape |>) w2)) with w3 in *.
  fold qdwin_pointer_unmap_sprite in *.
  set (w4 := qdwin_pointer_unmap_sprite (cp_id x) w3) in *.
  assert (Su4 : exists u4, c_surfs w4 !! s = Some u4).
  { pose proof (fr_internal _ _ q5 s) as E. cbn in E. rewrite lookup_insert_eq in E. destruct (c_surfs w4 !! s) as [u4|]; [by exists u4|done]. }
  destruct Su4 as [u4 Su4]. destruct (take_ok _ w4 v s (0, 0) qdwin_hook u4 q1 q2 ltac:(set_solver) q4 Su4) as (t1 & t2 & _ & t4).
  change (cp_id (x <| cp_listen := None |> <| cp_sprite := None |>)) with (cp_id x) in t1, t2, t4.
  set (w5 := take_sprite (cp_id x) v s (0, 0) qdwin_hook w4) in *.
  assert (S5 : sprite_ok w5) by (unfold sprite_ok; rewrite t1; cbn; by exists s).
  assert (F : frame w3 w5).
  { etransitivity; [|exact t4]. destruct q5 as [f1 f2 f3 f4 f5 f6 f7]. by split. }
  split_and!; [exact S5| |by apply (frame_devs w3)|rewrite (fr_crashed _ _ F); exact C1].
  apply (frame_slots w3); [done|]. by apply Au.
Qed.

(** ** libweston's operations *)

Lemma committed_ok k p s origin w x v :
  cursor_ok w -> only_ptr x w -> cp_id x = p -> cp_sprite x = Some v -> c_views w !! v = Some s ->
  cursor_ok (surface_committed k p s origin w) /\ frame w (surface_committed k p s origin w).
Proof.
  intros K O Ep Ev Vs. unfold surface_committed. destruct (c_surfs w !! s) as [u|] eqn:Su; [|done]. destruct (su_width u =? 0); [done|].
  assert (Son : sprite_on p s w = Some (x, v)).
  { unfold sprite_on. rewrite <- Ep, (ptr_of_only x w O), Ev. by rewrite bool_decide_eq_true_2. }
  rewrite Son. cbv zeta. set (hs := coord_sub (cp_hotspot x) origin). set (w1 := upd_ptr p _ w).
  assert (K1 : cursor_ok w1) by (by apply ptr_ok). assert (F1 : frame w w1) by (by apply frame_ptr).
  set (w2 := clear_input s (put_view v (coord_sub (cp_pos x) hs) w1)).
  assert (F2 : frame w w2) by (etransitivity; [exact F1|]; etransitivity; [apply frame_put|apply frame_clear]).
  set (w3 := if is_mapped s w2 then w2 else show_view v (upd_surf s (fun u => u <| su_mapped := true |>) w2)).
  change (cursor_ok w3 /\ frame w w3).
  assert (F3 : frame w w3).
  { unfold w3. destruct (is_mapped s w2); [done|]. etransitivity; [exact F2|]. etransitivity; [|apply frame_show]. by apply frame_surf. }
  split; [|exact F3]. apply (frame_ok w); [done| |done].
  assert (Hk : forall s', su_hook <$> c_surfs w3 !! s' = su_hook <$> c_surfs w !! s').
  { intros s'. unfold w3. destruct (is_mapped s w2); cbn; (destruct (decide (s' = s)) as [->|N];
      [rewrite ?lookup_alter_eq, Su; done|by rewrite ?lookup_alter_ne]). }
  assert (E3 : c_ptrs w3 = [x <| cp_hotspot := hs |>] /\ c_views w3 = c_views w /\ c_layer w3 ⊆ {[v]} ∪ c_layer w).
  { assert (Eq : c_ptrs w1 = [x <| cp_hotspot := hs |>]).
    { unfold w1. rewrite <- Ep. exact (upd_ptr_only x (fun x => x <| cp_hotspot := hs |>) w O). }
    unfold w3. destruct (is_mapped s w2); split_and!; [exact Eq|done|change (c_layer w2) with (c_layer w); set_solver|exact Eq|done|].
    unfold show_view. cbn. change (c_layer w2) with (c_layer w). done. }
  destruct E3 as (e1 & e2 & e3). clearbody w3. destruct K as (S & _). unfold sprite_ok in *. rewrite e1. rewrite O in S. cbn. rewrite Ev in *.
  destruct S as (s0 & L & V & La & (u0 & k0 & Su0 & Hk0) & Oth). rewrite V, lookup_singleton_eq in Vs. injection Vs as ->.
  exists s. split; [done|]. split_and!; [congruence|set_solver| |].
  - pose proof (Hk s) as E. rewrite Su0 in E. destruct (c_surfs w3 !! s) as [u3|]; [|done]. cbn in E. exists u3, k0. split; [done|congruence].
  - intros s' u' N E'. pose proof (Hk s') as E. rewrite E' in E. destruct (c_surfs w !! s') as [u1|] eqn:E1; [|done]. cbn in E.
    assert (su_hook u1 = None) by (by apply (Oth s')). congruence.
Qed.

(** The hook of a surface is that of the pointer that shows it. *)
Lemma hook_sprite w s u k p : cursor_ok w -> c_surfs w !! s = Some u -> su_hook u = Some (k, p) ->
  exists x v, only_ptr x w /\ cp_id x = p /\ cp_sprite x = Some v /\ c_views w !! v = Some s.
Proof.
  intros (S & _) Su Hk. unfold sprite_ok in S. unfold only_ptr. destruct (c_ptrs w) as [|x [|y l]]; [|..]; [| |done].
  - destruct S as (_ & _ & Hn). pose proof (Hn s u Su). congruence.
  - destruct (cp_sprite x) as [v|] eqn:E.
    + destruct S as (s0 & L & V & La & (u0 & k0 & Su0 & Hk0) & Oth). destruct (decide (s = s0)) as [->|N].
      * rewrite Su in Su0. exists x, v. split_and!; [done|congruence|done|]. by rewrite V, lookup_singleton_eq.
      * pose proof (Oth s u N Su). congruence.
    + destruct S as (_ & _ & _ & Hn). pose proof (Hn s u Su). congruence.
Qed.

Lemma call_hook_ok s o w : cursor_ok w -> cursor_ok (call_hook s o w) /\ frame w (call_hook s o w).
Proof.
  intros K. unfold call_hook. destruct (c_surfs w !! s) as [u|] eqn:Su; [|done]. cbn. destruct (su_hook u) as [[k p]|] eqn:Hk; [|done].
  destruct (hook_sprite w s u k p K Su Hk) as (x & v & O & E1 & E2 & E3). by apply (committed_ok k p s o w x v).
Qed.

(** *** Changes of a surface *)

Lemma sprite_surf s f w : sprite_ok w -> (forall u, su_hook (f u) = su_hook u) -> sprite_ok (upd_surf s f w).
Proof.
  intros S F.
  assert (Hk : forall s', su_hook <$> c_surfs (upd_surf s f w) !! s' = su_hook <$> c_surfs w !! s').
  { intros s'. rewrite lookup_upd_surf. case_decide as E; [|done]. subst. destruct (c_surfs w !! s); cbn; by rewrite ?F. }
  assert (Bk : forall s' u', c_surfs (upd_surf s f w) !! s' = Some u' -> exists u, c_surfs w !! s' = Some u /\ su_hook u' = su_hook u).
  { intros s' u' E'. pose proof (Hk s') as E. rewrite E' in E. destruct (c_surfs w !! s') as [u|]; [|done]. exists u. cbn in E. by split; [|congruence]. }
  unfold sprite_ok in *. change (c_ptrs (upd_surf s f w)) with (c_ptrs w).
  assert (Nt : nothing w -> nothing (upd_surf s f w)).
  { intros (n1 & n2 & n3). split_and!; [done|done|]. intros s' u' (u & E & ->)%Bk. by apply (n3 s'). }
  destruct (c_ptrs w) as [|x [|y l]]; [auto| |done]. destruct (cp_sprite x) as [v|]; [|destruct S; auto].
  destruct S as (s0 & L & V & La & (u0 & k & Su0 & Hk0) & Oth). exists s0. split; [done|]. split_and!; [done|done| |].
  - pose proof (Hk s0) as E. rewrite Su0 in E. destruct (c_surfs (upd_surf s f w) !! s0) as [u1|]; [|done]. exists u1, k. cbn in E. split; [done|congruence].
  - intros s' u' N (u & E & ->)%Bk. by apply (Oth s').
Qed.
Lemma devs_surf s f w : devs_ok w -> (forall u, su_internal (f u) = su_internal u) -> devs_ok (upd_surf s f w).
Proof.
  intros [d1 d2 d3 d4 d5] F. split; try done.
  - intros d s' I E. destruct (d3 d s' I E) as (u & E1 & E2). rewrite lookup_upd_surf. case_decide; [subst; exists (f u); by rewrite E1, F|by exists u].
  - intros s' u'. rewrite lookup_upd_surf. case_decide as E; [subst|eauto]. destruct (c_surfs w !! s) as [u|] eqn:E; [|done].
    cbn. intros [= <-]. rewrite F. eauto.
Qed.
Lemma surf_ok s f w : cursor_ok w -> (forall u, su_hook (f u) = su_hook u) -> (forall u, su_internal (f u) = su_internal u) ->
  (forall u, no_input u -> no_input (f u)) -> (forall u, may_be_cursor u -> may_be_cursor (f u)) -> cursor_ok (upd_surf s f w).
Proof. intros K F1 F2 F3 F4. apply (frame_ok w); [by apply frame_surf| |done]. by apply sprite_surf, F1; apply K. Qed.

Lemma shrink_ok w X : cursor_ok w -> cursor_ok (w <| c_layer ::= (fun l => l ∖ X) |>).
Proof.
  intros K. apply (frame_ok w); [by apply frame_same| |done]. destruct K as (S & _). unfold sprite_ok in *. cbn.
  destruct (c_ptrs w) as [|x [|y l]]; [| |done].
  - destruct S as (n1 & n2 & n3). split_and!; [done|cbn; set_solver|done].
  - destruct (cp_sprite x) as [v|].
    + destruct S as (s0 & L & V & La & R & Oth). exists s0. split; [done|]. split_and!; [done|cbn; set_solver|done|done].
    + destruct S as (L & n1 & n2 & n3). split; [done|]. split_and!; [done|cbn; set_solver|done].
Qed.

Lemma slot_in shape s w : sl_surface (slot_of shape w) = Some s ->
  existsb (fun sl => bool_decide (sl_surface (snd sl) = Some s)) (map_to_list (c_slots w)) = true.
Proof.
  unfold slot_of. destruct (c_slots w !! shape) as [sl|] eqn:E; [|done]. cbn. intros Es. apply existsb_exists. exists (shape, sl).
  split; [apply list_elem_of_In; by apply elem_of_map_to_list|]. by apply bool_decide_eq_true_2.
Qed.

Lemma commit_ok s c w u : cursor_ok w -> c_surfs w !! s = Some u -> cursor_ok (weston_surface_apply_state s c w).
Proof.
  intros K Su. unfold weston_surface_apply_state. rewrite Su. cbv zeta. set (un := bool_decide (co_attach c = Some false) && su_mapped u). set (size := if un then Some (0, 0) else co_size c).
  set (w1 := if un then unmap_surf s w else w).
  assert (K1 : cursor_ok w1).
  { unfold w1. destruct un; [|done]. unfold unmap_surf. apply shrink_ok. by apply surf_ok. }
  clearbody w1. set (w2 := match size with Some (wd, ht) => _ | None => w1 end).
  assert (K2 : cursor_ok w2) by (unfold w2; destruct size as [[wd ht]|]; [by apply surf_ok|done]). clearbody w2.
  set (w3 := if (_ || _ : bool) then call_hook s (co_origin c) w2 else w2).
  assert (K3 : cursor_ok w3) by (unfold w3; destruct (_ || _); [by apply call_hook_ok|done]). clearbody w3.
  set (w4 := if _ || co_set_input c then _ else w3).
  assert (A : sprite_ok w4 /\ devs_ok w4 /\ c_crashed w4 = false /\ c_slots w4 = c_slots w3
    /\ (forall s', s' <> s -> c_surfs w4 !! s' = c_surfs w3 !! s')
    /\ (forall s', su_internal <$> c_surfs w4 !! s' = su_internal <$> c_surfs w3 !! s')).
  { destruct K3 as (k1 & k2 & k3 & k4). unfold w4. destruct (_ || _); [|done]. split_and!; [by apply sprite_surf|by apply devs_surf|done|done| |].
    - intros s' N. by rewrite lookup_upd_surf, decide_False.
    - intros s'. rewrite lookup_upd_surf. case_decide as E; [subst|done]. by destruct (c_surfs w3 !! s). }
  destruct A as (a1 & a2 & a3 & a4 & a5 & a6). clearbody w4. unfold qdwin_cursor_sprite_on_commit.
  destruct (existsb _ _) eqn:Ex.
  - split_and!; [by apply sprite_surf|  |by apply devs_surf|done]. intros shape s' E.
    change (sl_surface (slot_of shape w4) = Some s') in E. unfold slot_of in E. rewrite a4 in E. destruct K3 as (_ & k2 & _).
    destruct (k2 shape s' E) as (u' & b1 & b2 & b3). unfold clear_input. rewrite lookup_upd_surf. case_decide as D.
    + subst s'. pose proof (a6 s) as E6. rewrite b1 in E6. destruct (c_surfs w4 !! s) as [u4|]; [|done]. cbn in E6. eexists. split; [reflexivity|].
      split; [|done]. cbn. congruence.
    + exists u'. by rewrite a5.
  - split_and!; [done| |done|done]. intros shape s' E.
    assert (N : s' <> s) by (intros ->; pose proof (slot_in shape s w4 E); congruence).
    unfold slot_of in E. rewrite a4 in E. destruct K3 as (_ & k2 & _). destruct (k2 shape s' E) as (u' & b1 & b2 & b3). exists u'. by rewrite a5.
Qed.

(** *** Pointers *)

Lemma move_ok p pos w : cursor_ok w -> cursor_ok (weston_pointer_move_to_preclamped p pos w).
Proof.
  intros K. unfold weston_pointer_move_to_preclamped. destruct (ptr_of p w) as [x|] eqn:E; [|done].
  assert (K1 : cursor_ok (upd_ptr p (fun x => x <| cp_pos := pos |>) w)) by (by apply ptr_ok).
  destruct (cp_sprite x) as [v|] eqn:Ev; [|done]. pose proof (sprite_ok_only w p x (proj1 K) E) as O.
  destruct K as (S & _). unfold sprite_ok in S. rewrite O, Ev in S. destruct S as (s & _ & V & _).
  change (c_views (upd_ptr p (fun x => x <| cp_pos := pos |>) w)) with (c_views w).
  rewrite bool_decide_eq_true_2 by (exists s; rewrite V; apply lookup_singleton_eq).
  apply (frame_ok (upd_ptr p (fun x => x <| cp_pos := pos |>) w)); [apply frame_put|exact (proj1 K1)|done].
Qed.

Lemma set_cursor_ok alloc client p stale surface hs w :
  fresh_alloc alloc -> (forall X, is_Some (alloc X)) -> cursor_ok w -> cursor_ok (pointer_set_cursor alloc client p stale surface hs w).
Proof.
  intros Fa Ta K. unfold pointer_set_cursor. destruct (ptr_of p w) as [x|] eqn:E; [|done]. destruct (_ || _); [done|].
  assert (Ip : is_Some (ptr_of p w)) by (by exists x).
  destruct surface as [s|]; [|by apply unmap_cursor_ok]. destruct (c_surfs w !! s) as [u|] eqn:Su; [|done].
  pose proof (sprite_ok_only w p x (proj1 K) E) as O. pose proof (ptr_of_id p w x E) as Ep.
  set (same := bool_decide _). destruct (same && _); [done|]. destruct (_ && _).
  { apply (frame_ok w); [apply frame_errors|apply K|done]. }
  set (w1 := if same then upd_ptr p (fun x => x <| cp_hotspot := hs |>) w else _).
  assert (A : cursor_ok w1 /\ exists x1 v1, only_ptr x1 w1 /\ cp_id x1 = p /\ cp_sprite x1 = Some v1 /\ c_views w1 !! v1 = Some s
    /\ exists u1 k1, c_surfs w1 !! s = Some u1 /\ su_hook u1 = Some (k1, p)).
  { unfold w1. destruct same eqn:Sm.
    - apply bool_decide_eq_true in Sm. destruct (cp_sprite x) as [v|] eqn:Ev; [|done]. cbn in Sm. split; [by apply ptr_ok|].
      exists (x <| cp_hotspot := hs |>), v. rewrite <- Ep. split_and!; [exact (upd_ptr_only x (fun x => x <| cp_hotspot := hs |>) w O)|done|done|exact Sm|].
      destruct K as (S & _). unfold sprite_ok in S. rewrite O, Ev in S. destruct S as (s0 & _ & V & _ & (u0 & k0 & a & b) & _).
      rewrite V, lookup_singleton_eq in Sm. injection Sm as ->. by exists u0, k0.
    - set (w2 := upd_surf s _ w). assert (K2 : cursor_ok w2) by (apply surf_ok; [done|done|done|done|by right]).
      destruct (unmap_ok true x w2 (proj1 K2) O) as (o1 & o2 & o3). rewrite Ep in o1, o2, o3. fold pointer_unmap_sprite in *.
      set (w3 := pointer_unmap_sprite p w2) in *.
      assert (K3 : cursor_ok w3) by (apply (frame_ok w2); [done|unfold sprite_ok; by rewrite o1|done]).
      assert (Su3 : exists u3, c_surfs w3 !! s = Some u3).
      { pose proof (fr_internal _ _ o3 s) as E3. unfold w2 in E3. rewrite lookup_upd_surf, decide_True, Su in E3 by done.
        destruct (c_surfs w3 !! s) as [u3|]; [by exists u3|done]. }
      destruct Su3 as [u3 Su3]. clearbody w3. destruct (alloc (dom (c_views w3))) as [v|] eqn:Ea; [|by destruct (Ta (dom (c_views w3))); congruence].
      set (x1 := x <| cp_listen := None |> <| cp_sprite := None |>) in *. destruct o2 as (n1 & n2 & n3). set (w4 := add_view v s w3).
      assert (V4 : c_views w4 = {[v := s]}) by (unfold w4, add_view; cbn; by rewrite n1).
      destruct (take_ok x1 w4 v s hs weston_hook u3 o1 V4 ltac:(change (c_layer w4) with (c_layer w3); set_solver) n3 Su3) as (t1 & t2 & t3 & t4).
      change (cp_id x1) with (cp_id x) in *. rewrite Ep in *. split.
      + apply (frame_ok w3); [etransitivity; [|exact t4]; by apply frame_same| |done]. unfold sprite_ok. rewrite t1. cbn. exists s. by rewrite Ep.
      + eexists _, v. split_and!; [exact t1|exact Ep|done| |].
        * destruct t2 as (t2 & _). rewrite t2. apply lookup_singleton_eq.
        * eexists _, weston_hook. split; [exact t3|done]. }
  destruct A as (K1 & x1 & v1 & O1 & E1 & E2 & E3 & u1 & k1 & Su1 & Hk1). clearbody w1. rewrite Su1. destruct (su_width u1 =? 0); [done|].
  rewrite Hk1. by apply (committed_ok weston_hook p s (0, 0) w1 x1 v1).
Qed.

Lemma pointer_create_ok p w : cursor_ok w -> c_ptrs w = [] -> cursor_ok (weston_pointer_create p w).
Proof.
  intros (S & A & [d1 d2 d3 d4 d5] & C) E. unfold weston_pointer_create. unfold sprite_ok in S. rewrite E in *. split_and!; [|exact A| |exact C].
  - unfold sprite_ok. cbn. by split.
  - split; try done. intros d q I Eq. specialize (d2 d q I Eq). by apply elem_of_nil in d2.
Qed.

Lemma get_pointer_ok r w : cursor_ok w -> r ∉ map dv_res (c_devs w) -> cursor_ok (qdwin_cursor_shape_manager_get_pointer r w).
Proof.
  intros (S & A & [d1 d2 d3 d4 d5] & C) N. split_and!; [exact S|exact A| |exact C]. unfold qdwin_cursor_shape_manager_get_pointer. split; cbn.
  - by apply NoDup_cons.
  - intros d p [->|I]%elem_of_cons; [|by apply (d2 d)]. cbn. unfold qdwin_resolve_first_pointer. destruct (List.find cp_present (c_ptrs w)) as [x|] eqn:E; [|done].
    intros [= <-]. apply List.find_some in E as [E _]. apply list_elem_of_In. by apply in_map.
  - intros d s [->|I]%elem_of_cons; [done|by apply d3].
  - intros a b s [->|Ia]%elem_of_cons [->|Ib]%elem_of_cons; try done. by apply d4.
  - intros s u E I. destruct (d5 s u E I) as (d & Id & Es). exists d. split; [by right|done].
Qed.

(** The devices of a pointer that goes away forget it. *)
Lemma pointer_destroyed_ok r w : cursor_ok w ->
  let w' := qdwin_cursor_device_pointer_destroyed w r in
  cursor_ok w' /\ map cp_id (c_ptrs w') = map cp_id (c_ptrs w)
  /\ (forall d' p, d' ∈ c_devs w' -> dv_pointer d' = Some p ->
       dv_res d' <> r /\ exists d, d ∈ c_devs w /\ dv_res d = dv_res d' /\ dv_pointer d = Some p).
Proof.
  intros K. cbv zeta. unfold qdwin_cursor_device_pointer_destroyed. destruct (tear_down_ok r w K) as (k1 & k2 & _ & _ & k5 & _).
  set (w1 := qdwin_cursor_sprite_tear_down r w) in *. clearbody w1. split_and!; [|exact k2|].
  - destruct k1 as (a1 & a2 & a3 & a4). split_and!; [exact a1|exact a2|by apply devs_upd|exact a4].
  - intros d' p. unfold upd_dev. cbn. rewrite list_elem_of_In, in_map_iff. intros (d1 & <- & I1).
    destruct (Z.eqb_spec (dv_res d1) r) as [E|N]; [done|]. intros Ep. split; [done|].
    assert (I : In (dev_key d1) (map dev_key (c_devs w))) by (rewrite <- k5; by apply in_map).
    apply in_map_iff in I as (d & Ed & Id). unfold dev_key in Ed. exists d. rewrite list_elem_of_In. split_and!; [done|congruence|congruence].
Qed.
Lemma pointer_destroyed_all l w : cursor_ok w ->
  let w' := foldl qdwin_cursor_device_pointer_destroyed w l in
  cursor_ok w' /\ map cp_id (c_ptrs w') = map cp_id (c_ptrs w)
  /\ (forall d' p, d' ∈ c_devs w' -> dv_pointer d' = Some p ->
       (dv_res d' ∉ l) /\ exists d, d ∈ c_devs w /\ dv_res d = dv_res d' /\ dv_pointer d = Some p).
Proof.
  revert w. induction l as [|r l IH]; intros w K; cbv zeta; cbn [foldl].
  - split_and!; [done|done|]. intros d' p I E. split; [apply not_elem_of_nil|]. by exists d'.
  - destruct (pointer_destroyed_ok r w K) as (k1 & k2 & k3). destruct (IH _ k1) as (j1 & j2 & j3). split_and!; [done|congruence|].
    intros d' p I E. destruct (j3 d' p I E) as (N & d1 & I1 & E1 & P1). destruct (k3 d1 p I1 P1) as (N1 & d & Id & Ed & Pd). split.
    + rewrite not_elem_of_cons. split; [congruence|done].
    + exists d. split_and!; [done|congruence|done].
Qed.

Lemma ptr_of_ids p w : p ∈ map cp_id (c_ptrs w) -> is_Some (ptr_of p w).
Proof.
  rewrite list_elem_of_In, in_map_iff. intros (x & <- & I). unfold ptr_of. destruct (List.find _ _) as [y|] eqn:E; [by exists y|].
  pose proof (List.find_none _ _ E x I) as N. cbn in N. rewrite Z.eqb_refl in N. done.
Qed.

Lemma pointer_destroy_ok p w : cursor_ok w -> is_Some (ptr_of p w) -> cursor_ok (weston_pointer_destroy p w).
Proof.
  intros K Ip. unfold weston_pointer_destroy. destruct (pointer_destroyed_all (shape_devices_of p w) w K) as (k1 & k2 & k3).
  set (w1 := foldl qdwin_cursor_device_pointer_destroyed w (shape_devices_of p w)) in *. clearbody w1.
  assert (Np : forall d, d ∈ c_devs w1 -> dv_pointer d <> Some p).
  { intros d I E. destruct (k3 d p I E) as (N & d0 & I0 & E0 & P0). apply N. rewrite <- E0. unfold shape_devices_of.
    apply list_elem_of_In, in_map, List.filter_In. split; [by apply list_elem_of_In|]. by apply bool_decide_eq_true_2. }
  assert (Ip1 : is_Some (ptr_of p w1)).
  { apply ptr_of_ids. rewrite k2. destruct Ip as [x Ex]. apply List.find_some in Ex as [I E]. apply Z.eqb_eq in E as <-. apply list_elem_of_In. by apply in_map. }
  destruct (unmap_cursor_ok true p w1 k1 Ip1) as (m1 & m2 & m3). fold pointer_unmap_sprite in *. set (w2 := pointer_unmap_sprite p w1) in *.
  assert (Dv : c_devs w2 = c_devs w1) by apply (fr_devs _ _ m2). clearbody w2.
  assert (Ip2 : is_Some (ptr_of p w2)) by (by apply (is_ptr_frame w1)).
  destruct Ip2 as [x2 E2]. pose proof (sprite_ok_only w2 p x2 (proj1 m1) E2) as O2. pose proof (ptr_of_id _ _ _ E2) as Ep.
  destruct m1 as (a1 & a2 & [d1 d2 d3 d4 d5] & a4).
  assert (Pe : List.filter (fun x => negb (cp_id x =? p)) (c_ptrs w2) = []) by (rewrite O2; cbn; by rewrite Ep, Z.eqb_refl).
  set (w3 := w2 <| c_ptrs ::= _ |>). assert (P3 : c_ptrs w3 = []) by exact Pe. split_and!; [|exact a2| |exact a4].
  - unfold sprite_ok. rewrite P3. exact m3.
  - split; [exact d1| |exact d3|exact d4|exact d5]. intros d q I Eq. exfalso. specialize (d2 d q I Eq). rewrite O2 in d2. cbn in d2.
    apply list_elem_of_singleton in d2 as ->. rewrite Ep in Eq. apply (Np d); [by rewrite <- Dv|done].
Qed.

Lemma release_ok alloc p w : fresh_alloc alloc -> cursor_ok w -> is_Some (ptr_of p w) -> cursor_ok (weston_seat_release_pointer alloc p w).
Proof.
  intros Fa K Ip. unfold weston_seat_release_pointer. pose proof (focus_ok alloc p None w Fa K) as K1.
  assert (Ip1 : is_Some (ptr_of p (pointer_focus alloc p None w))).
  { unfold pointer_focus. set (w1 := upd_ptr p _ w). assert (F1 : frame w w1) by (by apply frame_ptr).
    assert (K0 : cursor_ok w1) by (by apply ptr_ok). pose proof (is_ptr_frame w w1 p F1 Ip) as I1.
    destruct (ptr_of p w1) as [x|] eqn:E; [|by destruct I1]. destruct (cp_tracked x); [|by rewrite E].
    unfold qdwin_default_cursor_on_focus_changed. rewrite E. destruct (_ || _); [by rewrite E|].
    pose proof (ptr_of_id _ _ _ E) as Ep. destruct (default_ok alloc x w1 Fa K0 (sprite_ok_only w1 p x (proj1 K0) E)) as [_ F2]. rewrite Ep in F2.
    apply (is_ptr_frame w1); [done|]. by rewrite E. }
  destruct (unmap_cursor_ok true p _ K1 Ip1) as (m1 & _). by apply ptr_ok.
Qed.

(** ** Registering a sprite *)

Lemma clear_slot_ok shape w : cursor_ok w -> cursor_ok (qdwin_cursor_sprite_clear_slot shape w).
Proof.
  intros (S & A & B & C). split_and!; [exact S| |by destruct B|exact C]. intros sh s. unfold slot_of, qdwin_cursor_sprite_clear_slot. cbn.
  destruct (decide (sh = shape)) as [->|N]; [by rewrite lookup_insert_eq|]. rewrite lookup_insert_ne by done. apply A.
Qed.
Lemma register_ok shape s hs w u : cursor_ok w -> c_surfs w !! s = Some u -> su_internal u = false ->
  cursor_ok (clear_input s (w <| c_slots ::= <[shape := mk_cslot (Some s) hs]> |>)).
Proof.
  intros K Su I. assert (K1 : cursor_ok (clear_input s w)) by (by apply surf_ok). destruct K1 as (S & A & B & C).
  split_and!; [exact S| |by destruct B|exact C]. intros sh s'. unfold slot_of. cbn. destruct (decide (sh = shape)) as [->|N].
  - rewrite lookup_insert_eq. cbn. intros [= <-]. eexists. rewrite lookup_alter_eq, Su. split; [reflexivity|done].
  - rewrite lookup_insert_ne by done. intros E. exact (A sh s' E).
Qed.

Lemma set_sprite_ok alloc made shell exe res shape surface hs w :
  fresh_alloc alloc -> (forall s, surface = Some (Some s) -> exists u, c_surfs w !! s = Some u /\ su_internal u = false) ->
  cursor_ok w -> cursor_ok (qdwin_handle_set_cursor_sprite alloc made shell exe res shape surface hs w).
Proof.
  intros Fa Hs K. unfold qdwin_handle_set_cursor_sprite.
  destruct (negb _); [apply (frame_ok w); [apply frame_errors|apply K|done]|].
  destruct (_ || _); [apply (frame_ok w); [apply frame_errors|apply K|done]|]. cbv zeta.
  pose proof (clear_slot_ok shape w K) as K1. set (w1 := qdwin_cursor_sprite_clear_slot shape w) in *.
  destruct surface as [[s|]|]; [|done|done]. destruct (Hs s eq_refl) as (u & Su & I).
  pose proof (register_ok shape s hs w1 u K1 Su I) as K2. set (w2 := clear_input s _) in *. clearbody w2.
  destruct (shape =? SHAPE_DEFAULT); [|done]. destruct (default_all_ok alloc w2 Fa K2) as [K3 _]. destruct (any_pointer w2); [done|].
  unfold qdwin_cursor_retry_install. destruct (c_retry _); [done|]. destruct made; [|done].
  apply (frame_ok (default_on_all alloc w2)); [by apply frame_same|apply K3|done].
Qed.

Lemma theme_destroy_ok w : cursor_ok w -> cursor_ok (qdwin_cursor_theme_destroy w).
Proof.
  intros (S & A & B & C). split_and!; [exact S| |by destruct B|exact C]. intros sh s. unfold slot_of, qdwin_cursor_theme_destroy. cbn.
  rewrite lookup_fmap. by destruct (c_slots w !! sh).
Qed.

Lemma new_surface_ok s w : cursor_ok w -> c_surfs w !! s = None -> cursor_ok (w <| c_surfs ::= <[s := new_surf]> |>).
Proof.
  intros (S & A & [d1 d2 d3 d4 d5] & C) N. set (w1 := w <| c_surfs ::= _ |>).
  assert (Bk : forall s' u', c_surfs w1 !! s' = Some u' -> (s' = s /\ u' = new_surf) \/ (s' <> s /\ c_surfs w !! s' = Some u')).
  { intros s' u'. unfold w1. cbn. intros [[<- <-]|[? ?]]%lookup_insert_Some; [by left|right; by split; [congruence|]]. }
  assert (Fw : forall s' u', c_surfs w !! s' = Some u' -> c_surfs w1 !! s' = Some u').
  { intros s' u' E. unfold w1. cbn. rewrite lookup_insert_ne by congruence. done. }
  split_and!; [| | |exact C].
  - unfold sprite_ok in *. change (c_ptrs w1) with (c_ptrs w).
    assert (Nt : nothing w -> nothing w1).
    { intros (n1 & n2 & n3). split_and!; [done|done|]. intros s' u' [[-> ->]|[_ E]]%Bk; [done|by apply (n3 s')]. }
    destruct (c_ptrs w) as [|x [|y l]]; [auto| |done]. destruct (cp_sprite x) as [v|]; [|destruct S; auto].
    destruct S as (s0 & L & V & La & (u0 & k & Su0 & Hk0) & Oth). exists s0. split; [done|]. split_and!; [done|done| |].
    + exists u0, k. split; [by apply Fw|done].
    + intros s' u' Ns [[-> ->]|[_ E]]%Bk; [done|by apply (Oth s')].
  - intros sh s' E. destruct (A sh s' E) as (u & a1 & a2). exists u. split; [by apply Fw|done].
  - split; try done.
    + intros d s' I E. destruct (d3 d s' I E) as (u & a1 & a2). exists u. split; [by apply Fw|done].
    + intros s' u' [[-> ->]|[_ E]]%Bk I; [done|by apply (d5 s' u')].
Qed.
