(* ===== verification/CursorTheorems.v ===== *)
(** * CursorTheorems: what holds of the pointer's sprite in every run

    Runs have one pointer, the case the plugin supports; it may be unplugged,
    plugged in again, destroyed and made anew. *)

From Stdlib Require Import String.
From stdpp Require Import base list gmap strings option fin_sets.
From S2P Require Import Prelude Logic Cursor CursorFacts.
From stdpp Require Import list.
#[local] Open Scope Z_scope.

(** ** Runs *)

Definition client_surf (s : Z) (w : cursors) : Prop := exists u, c_surfs w !! s = Some u /\ su_internal u = false.

Inductive cursor_step : cursors -> cursors -> Prop :=
| cs_set_sprite alloc made shell exe res shape surface hs w :
    fresh_alloc alloc -> (forall s, surface = Some (Some s) -> client_surf s w) ->
    cursor_step w (qdwin_handle_set_cursor_sprite alloc made shell exe res shape surface hs w)
| cs_set_shape alloc salloc made solid r shape w :
    fresh_alloc alloc -> fresh_alloc salloc ->
    cursor_step w (qdwin_cursor_shape_device_set_shape alloc salloc made solid r shape w)
| cs_get_pointer r w : r ∉ map dv_res (c_devs w) -> cursor_step w (qdwin_cursor_shape_manager_get_pointer r w)
| cs_device_gone r w : cursor_step w (qdwin_cursor_shape_device_resource_destroy r w)
| cs_plugged p w : c_ptrs w = [] \/ is_Some (ptr_of p w) -> cursor_step w (weston_seat_init_pointer p w)
| cs_unplugged alloc p w : fresh_alloc alloc -> is_Some (ptr_of p w) -> cursor_step w (weston_seat_release_pointer alloc p w)
| cs_pointer_gone p w : is_Some (ptr_of p w) -> cursor_step w (weston_pointer_destroy p w)
| cs_tracked alloc p w : fresh_alloc alloc -> cursor_step w (qdwin_install_pointer_focus_listener_if_needed alloc p w)
| cs_focus alloc p o w : fresh_alloc alloc -> cursor_step w (pointer_focus alloc p o w)
| cs_move p pos w : cursor_step w (weston_pointer_move_to_preclamped p pos w)
(* libweston does not survive a failed allocation here *)
| cs_set_cursor alloc client p stale surface hs w :
    fresh_alloc alloc -> (forall X, is_Some (alloc X)) -> cursor_step w (pointer_set_cursor alloc client p stale surface hs w)
| cs_retry alloc w : fresh_alloc alloc -> c_retry w = true -> cursor_step w (qdwin_cursor_retry_timer_cb alloc w)
| cs_surface s w : c_surfs w !! s = None -> cursor_step w (w <| c_surfs ::= <[s := new_surf]> |>)
| cs_surface_gone s w : client_surf s w -> cursor_step w (weston_surface_unref s w)
| cs_commit s c w : client_surf s w -> cursor_step w (weston_surface_apply_state s c w)
| cs_input s r w : cursor_step w (surface_set_input_region s r w)
| cs_exit w : cursor_step w (qdwin_cursor_theme_destroy w).

Definition cursor_start : cursors := mk_cursors ∅ ∅ ∅ ∅ [] ∅ [] false 0 [] false.

Inductive cursor_run : cursors -> Prop :=
| cr_start : cursor_run cursor_start
| cr_step w w' : cursor_run w -> cursor_step w w' -> cursor_run w'.

Lemma cursor_start_ok : cursor_ok cursor_start.
Proof.
  split_and!; [|done| |done].
  - split_and!; [done|done|]. intros s u E. cbn in E. by rewrite lookup_empty in E.
  - split; cbn; try (intros; by rewrite ?elem_of_nil in * ). constructor.
Qed.

Lemma cursor_step_ok w w' : cursor_step w w' -> cursor_ok w -> cursor_ok w'.
Proof.
  intros S K. destruct S as [alloc made shell exe res shape surface hs w Fa Hs|alloc salloc made solid r shape w Fa Fs|r w N|r w|p w Hp|alloc p w Fa Ip
    |p w Ip|alloc p w Fa|alloc p o w Fa|p pos w|alloc client p stale surface hs w Fa Ta|alloc w Fa Hr|s w N|s w Hs|s c w Hs|s r w|w].
  - by apply set_sprite_ok.
  - unfold qdwin_cursor_shape_device_set_shape. destruct (_ || _); [apply (frame_ok w); [apply frame_errors|apply K|done]|].
    case_bool_decide; [by apply theme_ok|]. destruct solid; [by apply solid_ok|done].
  - by apply get_pointer_ok.
  - by apply resource_destroy_ok.
  - unfold weston_seat_init_pointer. destruct (ptr_of p w) eqn:E; [by apply ptr_ok|]. apply pointer_create_ok; [done|]. destruct Hp as [?|[? ?]]; [done|congruence].
  - by apply release_ok.
  - by apply pointer_destroy_ok.
  - by apply tracked_ok.
  - by apply focus_ok.
  - by apply move_ok.
  - by apply set_cursor_ok.
  - unfold qdwin_cursor_retry_timer_cb. destruct (default_all_ok alloc w Fa K) as [K1 _].
    apply (frame_ok (default_on_all alloc w)); [by apply frame_same|apply K1|done].
  - by apply new_surface_ok.
  - destruct Hs as (u & E & I). by apply (client_destroyed_ok s w u).
  - destruct Hs as (u & E & I). by apply (commit_ok s c w u).
  - unfold surface_set_input_region. by apply surf_ok.
  - by apply theme_destroy_ok.
Qed.

Lemma run_cursor_ok w : cursor_run w -> cursor_ok w.
Proof. induction 1 as [|w w' R IH S]; [apply cursor_start_ok|by eapply cursor_step_ok]. Qed.

(** C37.  The pointer's sprite is always sound.  In every run, with addresses
    reused as the allocator likes, libweston's assertions hold and nothing
    freed is used; there is at most one pointer, and the only view that exists
    is its sprite: that view is of a live surface whose end the pointer hears
    of, and the commits of exactly that surface go to the pointer.  A pointer
    without a sprite leaves nothing on the cursor layer.  The surfaces the
    plugin made are exactly those its devices own, each owned once. *)
Theorem cursor_sprite_sound w :
  cursor_run w ->
  c_crashed w = false
  /\ (forall x y, x ∈ c_ptrs w -> y ∈ c_ptrs w -> x = y)
  /\ (forall v s, c_views w !! v = Some s -> exists x, x ∈ c_ptrs w /\ cp_sprite x = Some v)
  /\ (forall x v, x ∈ c_ptrs w -> cp_sprite x = Some v ->
       exists s u k, c_views w !! v = Some s /\ c_surfs w !! s = Some u /\ cp_listen x = Some s /\ su_hook u = Some (k, cp_id x))
  /\ (forall s u k p, c_surfs w !! s = Some u -> su_hook u = Some (k, p) ->
       exists x v, x ∈ c_ptrs w /\ cp_id x = p /\ cp_sprite x = Some v /\ c_views w !! v = Some s)
  /\ (forall v, v ∈ c_layer w -> exists x, x ∈ c_ptrs w /\ cp_sprite x = Some v)
  /\ (forall s, (exists u, c_surfs w !! s = Some u /\ su_internal u = true) <-> exists d, d ∈ c_devs w /\ dv_solid d = Some s)
  /\ (forall d d' s, d ∈ c_devs w -> d' ∈ c_devs w -> dv_solid d = Some s -> dv_solid d' = Some s -> dv_res d = dv_res d').
Proof.
  intros R. pose proof (run_cursor_ok w R) as K.
  assert (P : (forall x y, x ∈ c_ptrs w -> y ∈ c_ptrs w -> x = y)
    /\ (forall v s, c_views w !! v = Some s -> exists x, x ∈ c_ptrs w /\ cp_sprite x = Some v)
    /\ (forall x v, x ∈ c_ptrs w -> cp_sprite x = Some v ->
         exists s u k, c_views w !! v = Some s /\ c_surfs w !! s = Some u /\ cp_listen x = Some s /\ su_hook u = Some (k, cp_id x))
    /\ (forall v, v ∈ c_layer w -> exists x, x ∈ c_ptrs w /\ cp_sprite x = Some v)).
  { destruct K as (S & _). unfold sprite_ok in S.
    assert (Nt : nothing w -> (forall v s, c_views w !! v = Some s -> False) /\ (forall v, v ∈ c_layer w -> False)).
    { intros (n1 & n2 & _). rewrite n1, n2. split; [intros v s E; by rewrite lookup_empty in E|set_solver]. }
    destruct (c_ptrs w) as [|x [|y l]]; [| |done].
    - destruct (Nt S) as [n1 n2]. split_and!; [intros ? ? I; by apply elem_of_nil in I|intros v s E; by destruct (n1 v s)|intros ? ? I; by apply elem_of_nil in I|].
      intros v I. by destruct (n2 v).
    - split_and!; [intros a b ->%list_elem_of_singleton ->%list_elem_of_singleton; done| | |]; destruct (cp_sprite x) as [v0|] eqn:Ev.
      + destruct S as (s & L & V & La & _). intros v s' E. rewrite V in E. apply lookup_singleton_Some in E as [<- <-]. exists x. split; [by left|done].
      + destruct S as [L S]. destruct (Nt S) as [n1 n2]. intros v s E. by destruct (n1 v s).
      + destruct S as (s & L & V & La & (u & k & Su & Hk) & Oth). intros x' v ->%list_elem_of_singleton E. exists s, u, k.
        rewrite Ev in E. simplify_eq. rewrite V, lookup_singleton_eq. done.
      + intros x' v ->%list_elem_of_singleton E. congruence.
      + destruct S as (s & L & V & La & _). intros v I. exists x. split; [by left|]. set_solver.
      + destruct S as [L S]. destruct (Nt S) as [n1 n2]. intros v I. by destruct (n2 v). }
  destruct P as (p1 & p2 & p3 & p4). split_and!; [apply K|done|done|done| |done| |].
  - intros s u k p Su Hk. destruct (hook_sprite w s u k p K Su Hk) as (x & v & O & E1 & E2 & E3). exists x, v.
    rewrite O. split_and!; [by left|done|done|done].
  - destruct K as (_ & _ & B & _). intros s. split; [intros (u & E & I); by apply (do_used _ B s u)|]. intros (d & I & E). by apply (do_live _ B d s).
  - destruct K as (_ & _ & B & _). apply (do_own _ B).
Qed.

(** A registered sprite never takes input.  In every run, whatever regions
    its client sets and commits, the surface of every slot is alive and its
    input region is empty, so a cursor above the shell's windows is never the
    view a pointer position picks. *)
Theorem registered_sprite_takes_no_input w shape s :
  cursor_run w -> sl_surface (slot_of shape w) = Some s ->
  exists u, c_surfs w !! s = Some u /\ forall x y, su_input u x y = false.
Proof. intros R E. destruct (run_cursor_ok w R) as (_ & A & _). destruct (A shape s E) as (u & Su & _ & N). by exists u. Qed.

(** C38.  Setting a shape.  In every run an unknown shape is answered with an
    error and nothing else happens.  A known shape with a registered surface
    that may be a cursor becomes the only view and the only thing on the cursor
    layer: it is mapped, takes no input, and lies so that its hotspot is at the
    pointer's position; the device remembers it.  Without a registered surface
    and without the solid fallback nothing changes. *)
Theorem set_shape_spec alloc salloc made solid w r d p shape :
  cursor_run w -> fresh_alloc alloc -> (forall X, is_Some (alloc X)) -> dev_of r w = Some d -> dv_pointer d = Some p ->
  let w' := qdwin_cursor_shape_device_set_shape alloc salloc made solid r shape w in
  (~ (1 <= shape <= 36) -> w' = w <| c_errors ::= cons (r, "invalid_shape"%string) |>)
  /\ (1 <= shape <= 36 -> sl_surface (slot_of shape w) = None -> solid = false -> w' = w)
  /\ (forall s u, 1 <= shape <= 36 -> sl_surface (slot_of shape w) = Some s -> c_surfs w !! s = Some u -> may_be_cursor u ->
       exists x v u', ptr_of p w' = Some x /\ cp_sprite x = Some v /\ cp_hotspot x = sl_hotspot (slot_of shape w)
         /\ c_views w' = {[v := s]} /\ c_layer w' = {[v]} /\ c_vpos w' !! v = Some (coord_sub (cp_pos x) (cp_hotspot x))
         /\ c_surfs w' !! s = Some u' /\ su_mapped u' = true /\ no_input u'
         /\ exists d', dev_of r w' = Some d' /\ dv_view d' = Some v /\ dv_shape d' = shape /\ dv_solid d' = None).
Proof.
  intros R Fa Ta Ed Ep. pose proof (run_cursor_ok w R) as K. cbv zeta. unfold qdwin_cursor_shape_device_set_shape, SHAPE_ALL_RESIZE. split_and!.
  - intros N. destruct (Z.ltb_spec shape 1), (Z.ltb_spec 36 shape); try lia; done.
  - intros I E ->. destruct (Z.ltb_spec shape 1), (Z.ltb_spec 36 shape); try lia. cbn [orb].
    rewrite bool_decide_eq_false_2; [done|]. rewrite E. by intros [? ?].
  - intros s u I Es Su Ru. destruct (Z.ltb_spec shape 1), (Z.ltb_spec 36 shape); try lia. cbn [orb].
    rewrite bool_decide_eq_true_2 by (by exists s). unfold qdwin_cursor_device_install_theme_sprite. rewrite Ed, Ep, Es.
    destruct (proj1 (proj2 K) _ _ Es) as (u0 & Su0 & I0 & _). assert (u0 = u) as -> by congruence.
    destruct (tear_down_ok r w K) as (k1 & k2 & k3 & k4 & _ & k6). set (w1 := qdwin_cursor_sprite_tear_down r w) in *. clearbody w1.
    specialize (k4 d Ed). destruct (dev_pointer r w1 _ p k1 k4 Ep) as (x & O & <-). destruct (k6 s u Su I0 Ru) as (u1 & Su1 & Ru1).
    rewrite k3. destruct (qdwin_install_cursor_sprite_view alloc (cp_id x) s (sl_hotspot (slot_of shape w)) w1) as [q w2] eqn:Ei.
    destruct (install_ok _ _ _ _ _ _ _ Fa (proj1 k1) O ltac:(by exists u1) Ei) as (f & _ & g). destruct q as [v|].
    + destruct g as (g1 & g2 & g3 & g4 & u' & g5 & g6 & g7). set (w3 := upd_dev r _ w2). set (hs := sl_hotspot (slot_of shape w)) in *.
      exists (x <| cp_hotspot := hs |> <| cp_sprite := Some v |> <| cp_listen := Some s |>), v, u'.
      split_and!; [|done|done|exact g2|exact g3|exact g4|exact g5|exact g6|exact g7|].
      * exact (ptr_of_only _ w2 g1).
      * exists (d <| dv_view := None |> <| dv_solid := None |> <| dv_view := Some v |> <| dv_shape := shape |>). split; [|by split_and!].
        apply (dev_of_upd r (fun d => d <| dv_view := Some v |> <| dv_shape := shape |>)); [|done].
        rewrite (dev_of_frame w1 w2 r (fr_devs _ _ f)). exact k4.
    + exfalso. revert Ei. unfold qdwin_install_cursor_sprite_view. rewrite Su1.
      assert (E : match su_role u1 with None => true | Some r => String.eqb r CURSOR_ROLE end = true) by (destruct Ru1 as [->| ->]; done).
      rewrite E. cbn [negb]. cbv zeta. destruct (alloc (dom (c_views (upd_surf s _ w1)))) as [a|] eqn:Ea; [done|].
      destruct (Ta (dom (c_views (upd_surf s (fun u => u <| su_role := Some CURSOR_ROLE |>) w1)))). congruence.
Qed.

(** ** Theme images *)

Lemma theme_fold {Img} (load : string -> option Img) (l : list Z) (m : gmap Z Img) s : NoDup l ->
  foldl (fun m s => let name := qdwin_cursor_shape_name s in
           if String.eqb name "other" then m else match load name with Some i => <[s := i]> m | None => m end) m l !! s
  = if bool_decide (s ∈ l) && negb (String.eqb (qdwin_cursor_shape_name s) "other")
    then match load (qdwin_cursor_shape_name s) with Some i => Some i | None => m !! s end
    else m !! s.
Proof.
  revert m. induction l as [|a l IH]; intros m N; [done|]. apply NoDup_cons in N as [Na N]. cbn [foldl]. rewrite IH by done. cbv zeta.
  destruct (decide (s = a)) as [->|Ns].
  - rewrite (bool_decide_eq_false_2 (a ∈ l)) by done. rewrite (bool_decide_eq_true_2 (a ∈ a :: l)) by (by left). cbn [andb].
    destruct (String.eqb _ "other"); [done|]. cbn [negb]. destruct (load _); [by rewrite lookup_insert_eq|done].
  - rewrite (bool_decide_ext (s ∈ a :: l) (s ∈ l)) by (rewrite elem_of_cons; naive_solver).
    assert (E : (if String.eqb (qdwin_cursor_shape_name a) "other" then m
             else match load (qdwin_cursor_shape_name a) with Some i => <[a := i]> m | None => m end) !! s = m !! s).
    { destruct (String.eqb (qdwin_cursor_shape_name a) "other"); [reflexivity|].
      destruct (load (qdwin_cursor_shape_name a)); [by rewrite lookup_insert_ne|reflexivity]. }
    by rewrite E.
Qed.

(** The theme is loaded completely and nothing else: shape 1 to 36 has the
    image the theme library gives for its name, if any; the names of different
    shapes differ; the size is the configured one when positive, else 24. *)
Theorem theme_load_exact {Img} env_size (load : string -> Z -> option Img) :
  let '(size, images) := qdwin_cursor_theme_load env_size load in
  size = match env_size with Some n => if n <=? 0 then 24 else n | None => 24 end
  /\ (forall s, images !! s = if (1 <=? s) && (s <=? 36) then load (qdwin_cursor_shape_name s) size else None)
  /\ (forall s s', 1 <= s <= 36 -> 1 <= s' <= 36 -> qdwin_cursor_shape_name s = qdwin_cursor_shape_name s' -> s = s').
Proof.
  unfold qdwin_cursor_theme_load. set (size := match env_size with Some n => _ | None => 24 end). split_and!; [done| |].
  - intros s. rewrite (theme_fold (fun name => load name size)) by (vm_compute; by repeat constructor; set_solver).
    rewrite lookup_empty. set (l := map Z.of_nat _).
    assert (L : s ∈ l <-> 1 <= s <= 36).
    { unfold l. rewrite list_elem_of_In, in_map_iff. split; [intros (k & <- & I%in_seq); unfold SHAPE_ALL_RESIZE in I; lia|].
      intros I. exists (Z.to_nat s). split; [lia|]. apply in_seq. unfold SHAPE_ALL_RESIZE. lia. }
    destruct (Z.leb_spec 1 s), (Z.leb_spec s 36); try (exfalso; lia); cbn [andb]; (rewrite bool_decide_eq_true_2 by (apply L; lia)) || (rewrite bool_decide_eq_false_2 by (rewrite L; lia); done).
    assert (N : String.eqb (qdwin_cursor_shape_name s) "other" = false).
    { assert (A : forallb (fun k => negb (String.eqb (qdwin_cursor_shape_name (Z.of_nat k)) "other")) (seq 1 36) = true) by reflexivity.
      rewrite forallb_forall in A. specialize (A (Z.to_nat s)). rewrite Z2Nat.id in A by lia. apply negb_true_iff, A, in_seq. lia. }
    rewrite N. cbn. by destruct (load _ size).
  - intros s s' I I' E.
    assert (A : forallb (fun a => forallb (fun b => negb (String.eqb (qdwin_cursor_shape_name (Z.of_nat a)) (qdwin_cursor_shape_name (Z.of_nat b))) || (a =? b)%nat) (seq 1 36)) (seq 1 36) = true) by reflexivity.
    rewrite forallb_forall in A. specialize (A (Z.to_nat s) ltac:(apply in_seq; lia)). rewrite forallb_forall in A.
    specialize (A (Z.to_nat s') ltac:(apply in_seq; lia)). rewrite !Z2Nat.id, E, String.eqb_refl in A by lia. apply Nat.eqb_eq in A. lia.
Qed.

(** ** Reading the pixels *)

Lemma row_alpha_bounds data row x n :
  0 <= row -> row + (Z.of_nat x + Z.of_nat n) * 4 <= Z.of_nat (length data) ->
  exists k, row_alpha data row x n = Some k /\ 0 <= k <= Z.of_nat n.
Proof.
  revert x. induction n as [|n IH]; intros x Hr Hl; [exists 0; split; [done|lia]|].
  destruct (IH (S x)) as (k & E & B); [done|lia|]. cbn [row_alpha]. rewrite E.
  destruct (lookup_lt_is_Some_2 data (Z.to_nat (row + Z.of_nat x * 4 + 3))) as [a Ea]; [lia|]. rewrite Ea.
  destruct (a =? 0); eexists; (split; [reflexivity|lia]).
Qed.
Lemma rows_alpha_bounds data stride pw y n :
  0 <= pw -> pw * 4 <= stride -> (Z.of_nat y + Z.of_nat n) * stride <= Z.of_nat (length data) ->
  exists k, rows_alpha data stride pw y n = Some k /\ 0 <= k <= pw * Z.of_nat n.
Proof.
  intros Hp Hs. revert y. induction n as [|n IH]; intros y Hl; [exists 0; split; [done|lia]|].
  destruct (IH (S y)) as (k & E & B); [lia|]. cbn [rows_alpha]. rewrite E.
  destruct (row_alpha_bounds data (Z.of_nat y * stride) 0 (Z.to_nat pw)) as (a & Ea & Ba); [nia|nia|]. rewrite Ea.
  eexists. split; [reflexivity|]. nia.
Qed.

(** Counting the pixels of a sprite never reads past its buffer.  For every
    format, width, height and stride a client can attach (the pool holds
    stride times height bytes, nothing relates stride and width), the count is
    computed, and is -1 or between 0 and the number of pixels. *)
Theorem opaque_pixels_in_bounds fmt pw ph pstride data :
  pstride * ph <= Z.of_nat (length data) ->
  exists k, opaque_pixels fmt pw ph pstride data = Some k /\ (k = -1 \/ 0 <= k <= pw * ph).
Proof.
  intros Hl. unfold opaque_pixels. destruct (Z.ltb_spec 0 pw), (Z.ltb_spec 0 ph), (Z.leb_spec (pw * 4) pstride); destruct fmt; cbn [andb];
    try (exists (-1); split; [done|by left]).
  - exists (pw * ph). split; [done|right; nia].
  - destruct (rows_alpha_bounds data pstride pw 0 (Z.to_nat ph)) as (k & E & B); [lia|lia|nia|]. exists k. split; [done|]. right. nia.
Qed.
Lemma opaque_pixels_in_bounds_witness :
  exists k, opaque_pixels ARGB8888 2 1 8 [0; 0; 0; 255; 0; 0; 0; 0] = Some k /\ (k = -1 \/ 0 <= k <= 2 * 1).
Proof. apply (opaque_pixels_in_bounds ARGB8888 2 1 8 [0; 0; 0; 255; 0; 0; 0; 0]). cbn. lia. Defined.

(** ** A concrete run *)

(** Addresses are reused: one more than the largest in use. *)
Definition next_address (X : gset Z) : option Z := Some (1 + foldr Z.max 0 (elements X)).
Lemma next_address_fresh : fresh_alloc next_address.
Proof.
  intros X a [= <-] I. apply elem_of_elements in I. assert (H : forall l a, a ∈ l -> a <= foldr Z.max 0 l).
  { induction l as [|b l IH]; intros a; [by intros ?%elem_of_nil|]. cbn. intros [->|J]%elem_of_cons; [lia|]. specialize (IH a J). lia. }
  specialize (H _ _ I). lia.
Qed.

Definition cw_surface : cursors := cursor_start <| c_surfs ::= <[10 := new_surf]> |>.
Definition cw_registered : cursors :=
  qdwin_handle_set_cursor_sprite next_address true true None 3 9 (Some (Some 10)) (3, 4) cw_surface.
Definition cw_plugged : cursors := weston_seat_init_pointer 1 cw_registered.
Definition cw_device : cursors := qdwin_cursor_shape_manager_get_pointer 50 cw_plugged.
Definition cw_shown : cursors := qdwin_cursor_shape_device_set_shape next_address next_address true false 50 9 cw_device.

Lemma cw_run : cursor_run cw_shown.
Proof.
  apply (cr_step cw_device); [apply (cr_step cw_plugged); [apply (cr_step cw_registered); [apply (cr_step cw_surface); [apply (cr_step cursor_start); [apply cr_start|]|]|]|]|].
  - apply cs_surface. reflexivity.
  - apply cs_set_sprite; [apply next_address_fresh|]. intros s [= <-]. by exists new_surf.
  - apply cs_plugged. by left.
  - apply cs_get_pointer. apply not_elem_of_nil.
  - apply cs_set_shape; apply next_address_fresh.
Defined.

Lemma cursor_sprite_sound_witness :
  c_layer cw_shown = {[1]} /\ exists x, x ∈ c_ptrs cw_shown /\ cp_sprite x = Some 1.
Proof.
  split; [vm_compute; reflexivity|]. destruct (cursor_sprite_sound cw_shown cw_run) as (_ & _ & _ & _ & _ & A & _).
  apply A. vm_compute. reflexivity.
Defined.

Lemma registered_sprite_takes_no_input_witness :
  exists u, c_surfs cw_shown !! 10 = Some u /\ forall x y, su_input u x y = false.
Proof. apply (registered_sprite_takes_no_input cw_shown 9 10 cw_run). vm_compute. reflexivity. Defined.

Lemma cw_device_run : cursor_run cw_device.
Proof.
  apply (cr_step cw_plugged); [apply (cr_step cw_registered); [apply (cr_step cw_surface); [apply (cr_step cursor_start); [apply cr_start|]|]|]|].
  - apply cs_surface. reflexivity.
  - apply cs_set_sprite; [apply next_address_fresh|]. intros s [= <-]. by exists new_surf.
  - apply cs_plugged. by left.
  - apply cs_get_pointer. apply not_elem_of_nil.
Defined.

Lemma set_shape_spec_witness :
  exists x v u', ptr_of 1 cw_shown = Some x /\ cp_sprite x = Some v /\ c_views cw_shown = {[v := 10]}
    /\ c_surfs cw_shown !! 10 = Some u' /\ su_mapped u' = true.
Proof.
  destruct (set_shape_spec next_address next_address true false cw_device 50 (mk_cdev 50 (Some 1) None None 0) 1 9 cw_device_run
    next_address_fresh ltac:(intros X; by eexists) ltac:(vm_compute; reflexivity) eq_refl) as (_ & _ & A).
  destruct (A 10 (default new_surf (c_surfs cw_device !! 10))) as (x & v & u' & a1 & a2 & _ & a3 & _ & _ & a4 & a5 & _);
    [lia|vm_compute; reflexivity|vm_compute; reflexivity|by left|].
  exists x, v, u'. by split_and!.
Defined.

(** ** Surprises *)

(** The solid fallback is never shown: its surface is not mapped and its view is
    on no layer; only a commit would do both, and nothing commits it. *)
Example solid_cursor_not_shown :
  let w := qdwin_cursor_shape_device_set_shape next_address next_address true true 50 4 cw_device in
  (ptr_of 1 w ≫= cp_sprite) = Some 1 /\ c_layer w = ∅ /\ c_views w !! 1 = Some 11 /\ is_mapped 11 w = false.
Proof. split_and!; vm_compute; reflexivity. Qed.

(** The cursor of a window stays when the pointer leaves it for the desktop. *)
Example cursor_sticks_on_desktop :
  let w := cw_shown ~> qdwin_install_pointer_focus_listener_if_needed next_address 1 ~> pointer_focus next_address 1 (Some 7)
                    ~> pointer_focus next_address 1 None in
  (ptr_of 1 w ≫= cp_sprite) = Some 1 /\ c_views w !! 1 = Some 10.
Proof. split; vm_compute; reflexivity. Qed.

(** A mouse that is unplugged and plugged in again has no cursor, although the
    default is registered. *)
Example replugged_mouse_has_no_cursor :
  let w := cursor_start <| c_surfs ::= <[10 := new_surf]> |>
    ~> qdwin_handle_set_cursor_sprite next_address true true None 3 SHAPE_DEFAULT (Some (Some 10)) (0, 0)
    ~> weston_seat_init_pointer 1 ~> qdwin_install_pointer_focus_listener_if_needed next_address 1 in
  let w' := w ~> weston_seat_release_pointer next_address 1 ~> weston_seat_init_pointer 1
              ~> qdwin_install_pointer_focus_listener_if_needed next_address 1 in
  (ptr_of 1 w ≫= cp_sprite) = Some 1 /\ (ptr_of 1 w' ≫= cp_sprite) = None.
Proof. split; vm_compute; reflexivity. Qed.

(** A device whose view is long gone takes down the cursor of the focused client
    when the allocator has reused the address. *)
Example stale_device_drops_cursor :
  let w := cw_shown <| c_surfs ::= <[12 := new_surf <| su_width := 8 |> <| su_height := 8 |>]> |>
    ~> pointer_focus next_address 1 (Some 7)
    ~> pointer_set_cursor next_address 7 1 false (Some 12) (0, 0) in
  c_views w = {[1 := 12]} /\ c_layer w = {[1]} /\ c_views (qdwin_cursor_shape_device_resource_destroy 50 w) = ∅.
Proof. split_and!; vm_compute; reflexivity. Qed.

(** With two seats: one client uses one cursor surface on both pointers, hides it
    on the second, and moves the hotspot on the first. *)
Example two_pointers_crash :
  let w := cursor_start <| c_surfs ::= <[12 := new_surf <| su_width := 8 |> <| su_height := 8 |>]> |>
    ~> weston_seat_init_pointer 1 ~> weston_seat_init_pointer 2
    ~> pointer_focus next_address 1 (Some 7) ~> pointer_focus next_address 2 (Some 7)
    ~> pointer_set_cursor next_address 7 1 false (Some 12) (0, 0)
    ~> pointer_set_cursor next_address 7 2 false (Some 12) (0, 0)
    ~> pointer_set_cursor next_address 7 2 false None (0, 0) in
  c_crashed w = false /\ c_crashed (pointer_set_cursor next_address 7 1 false (Some 12) (1, 1) w) = true.
Proof. split; vm_compute; reflexivity. Qed.

(** The retry timer is forgotten, never removed. *)
Example retry_timers_leak :
  let w := cursor_start ~> qdwin_cursor_retry_install true ~> qdwin_cursor_retry_timer_cb next_address
                        ~> qdwin_cursor_retry_install true in
  c_sources w = 2.
Proof. reflexivity. Qed.
